(* ===== verification/_CoqProject ===== *)
-Q . S2P
Prelude.v
Bswap.v
Millicode.v
Qdivrem.v
CString.v
Menu.v
Printf.v
PrintfSpec.v
PrintfTheorems.v
Spinlock.v
Blocking.v
CondVar.v
KernelHeap.v
Wchan.v
Synch.v
Bitmap.v
Array.v
Queue.v
ThreadList.v
Threads.v
ThreadsRun.v
ThreadsInv.v
ThreadsHeap.v
ThreadsOps.v
ThreadsMigrate.v
ThreadsCreate.v
ThreadsTheorems.v
PhysMem.v
Kmalloc.v
KmallocSpec.v
KmallocFree.v
Vm.v
VmSpec.v
VmProps.v
VmTheorems.v
Uio.v
Device.v
Lhd.v
SfsDisk.v
Sfs.v
SfsBlocks.v
SfsFile.v
SfsIo.v
SfsDir.v
SfsInv.v
SfsVnode.v
SfsTrunc.v
SfsReclaim.v
SfsOps.v
SfsNames.v
SfsFiles.v
SfsSpec.v
SfsMount.v
SfsExample.v
SfsTheorems.v
Copyinout.v
ArgPass.v
Vfs.v
VfsRefs.v
SfsLayer.v
Files.v
FileCalls.v
Proc.v
WaitExit.v
UserMalloc.v
