(* ===== verification/Prelude.v ===== *)
(** * OS/161: a verification of the kernel and its C library

    The program is the teaching kernel OS/161 (src/os161-1.99) in the
    configuration ASST3, with the options A1, A2 and A3 on and dumbvm off: a
    multiprocessor kernel for MIPS with a pool allocator, threads and
    synchronisation, demand-zero virtual memory, a virtual file system layer
    with the file system SFS on a disk driver, and the process and file system
    calls; and the C library that kernel and user programs share.  Paths below
    are relative to src/os161-1.99; kern/ is the kernel, common/ the shared
    library.

    ** How the code is modelled

    A C function is a Rocq function of the same name.  A function that only
    computes is a plain function on [Z], with [u32] and [i32] where a machine
    word wraps.  A function with effects is a term of the monad [K S A] of this
    file: a state goes in, and out comes [Done] with a result and a state,
    [Panic] (a failed KASSERT, a call of panic, or errx in a user program),
    [Undef] (an access C does not define: out of bounds, through NULL, of memory
    nobody has written) or [Hang] (a loop whose fuel is used up).  "Returns" in
    a theorem means [Done]: that the other three do not happen is part of what
    is proved.  Error codes are results, as in the code.

    Code that several threads or processors run at once is a step relation, one
    step for each statement that touches shared state, and the theorems are
    about all interleavings (Spinlock, Blocking, CondVar, WaitExit).  Code that
    runs under one lock from beginning to end is one step (the allocator, SFS
    under its big lock, the thread system's operations with interrupts off).

    Components meet at interfaces.  A client is proved against a class, and the
    component that implements it is an instance:
    - [KernelHeap] (KernelHeap.v), what kmalloc and kfree promise; the clients
      are arrays, queues, bitmaps, channels, locks and threads; the instance is
      in KmallocFree.v;
    - [Resource] (Blocking.v), data that threads wait for; semaphores and locks
      are the instances (Synch.v);
    - [Device], [BlockDevice] (Device.v), what SFS needs of a disk; the driver
      of Lhd.v is the instance;
    - [VnodeState], [VnodeLayer] (Vfs.v), what the VFS layer needs of a file
      system; SFS is the instance (SfsLayer.v).
    Hardware, and what the sources do not contain, is a parameter with its
    documented behaviour: the drive ([DiskHw], [ReliableHw]), the results of
    copies from user memory where they are only passed on, [sbrk] ([Break]).

    ** The files

    Shared: Prelude (this file: outcomes, the monad and its automation, machine
    words, list and number lemmas).

    The C library.
    - Bswap: kern/lib/bswap.c.
    - Millicode, Qdivrem: common/gcc-millicode, 64-bit arithmetic on 32-bit
      words, with Knuth's algorithm D.
    - CString: common/libc/string and common/libc/stdlib/atoi.c.
    - Printf, PrintfSpec, PrintfTheorems: common/libc/printf.
    - Menu: kern/lib/kgets.c and kern/startup/menu.c.
    - UserMalloc: user/lib/libc/stdlib/malloc.c.

    Synchronisation.
    - Spinlock: kern/thread/spl.c and spinlock.c.
    - Blocking, Synch, CondVar: kern/thread/synch.c.
    - Wchan: creation of the wait channels of kern/thread/thread.c.

    Containers: Bitmap, Array, Queue (kern/lib), ThreadList
    (kern/thread/threadlist.c).

    Threads and processors: Threads has the state and the operations of
    kern/thread/thread.c, with the clock and the process side of
    kern/thread/clock.c and kern/proc/proc.c; ThreadsRun, ThreadsInv,
    ThreadsHeap, ThreadsOps, ThreadsMigrate and ThreadsCreate have the invariant
    and that each operation keeps it; ThreadsTheorems the theorems.

    Memory.
    - PhysMem: kern/arch/mips/vm/ram.c and the page functions above it.
    - KernelHeap, Kmalloc, KmallocSpec, KmallocFree: kern/vm/kmalloc.c.
    - Vm, VmSpec, VmProps, VmTheorems: kern/vm/vm.c, addrspace.c, segments.c,
      pt.c, uw-vmstats.c.
    - Copyinout: kern/vm/copyinout.c.

    Storage.
    - Uio: kern/lib/uio.c.
    - Device, Lhd: kern/include/device.h, kern/dev/lamebus/lhd.c.
    - SfsDisk (the format), Sfs (every function of kern/fs/sfs, and
      kern/vfs/vnode.c), then SfsBlocks, SfsFile, SfsIo, SfsDir, SfsInv,
      SfsVnode, SfsTrunc, SfsReclaim, SfsOps, SfsNames, SfsFiles (what the
      functions do, from blocks up to names), SfsSpec (the file system as two
      maps, and the simulation), SfsMount, SfsExample, SfsTheorems.
    - Vfs, VfsRefs, SfsLayer: vfslookup.c, vfspath.c, vfscwd.c and part of
      vfslist.c in kern/vfs.

    Processes and system calls.
    - Proc: the process table of kern/proc/proc.c, getpid, the checks of
      waitpid.
    - WaitExit: kern/syscall/waitpid_syscalls.c and exit_syscalls.c.
    - ArgPass: the argument stack of kern/syscall/runprogram.c.
    - Files, FileCalls: open, close, read, write and the copying of descriptors
      by fork, in kern/syscall.

    ** What is proved

    Threads: from boot, after any operations on any processors, no operation
    fails and every thread is in exactly one place, owned blocks apart; thread
    creation and migration do what they say.  Synchronisation: mutual exclusion
    of the spinlock and the lock, counting of the semaphore, that no wakeup is
    lost, and that condition variables implement an atomic release-and-wait.
    Heap: blocks handed out are aligned and apart, freed blocks and no others
    come back; the same for user-level malloc and free, with first fit and
    merging.  Virtual memory: frames are never shared, a fault maps the page it
    is about, the TLB shows the current process.  SFS: every operation is a step
    of an abstract file system of names and files, blocks are exactly accounted
    for, fields stay in range, a volume survives a remount.  VFS: references
    and opens balance on every path, errors included.  Library: division is
    the division of the integers, printf sends what the format means, the string
    functions meet their descriptions on overlapping memory, the containers
    implement lists, queues and sets.

    Some theorems state what the code does where that is less than it means to:
    waiting for a process that exits, the pointer after the last argument,
    descriptors shared after fork, the position of read, one block that
    truncation keeps, and freeing an empty block of user memory.

    ** Fuel and bounds

    Loops over strings have fuel for each byte of memory, since they meet a NUL
    or leave memory; the growth of an array 33 doublings of a 32-bit counter;
    the search of user malloc the number of 8-byte units of the heap; the walks
    of the allocator's lists the 256 page references.  Recursion in the queue
    carries a call depth of two.  In each case the theorems conclude [Done], so
    the fuel is shown to be enough.  Sizes and addresses are bounded only by the
    widths of the machine and by the checks the code makes; where a theorem asks
    for a bound (a request of user malloc below 2 GB, say) the code has none and
    misbehaves above it.

    ** Not modelled

    Assembly and trapframes (exceptions, context switch, entering user mode),
    and with them the system call dispatcher, the part of fork and execv that
    copies frames, and start-up of the processors.  Device probing and the
    simple devices (bus, console, serial line, clock, random), emufs, whose
    behaviour is the host's.  The program loader.  Mounting and device
    registration in vfslist.c, and device vnodes.  Debugging output (heap and
    thread statistics).  Test code, the user programs, and the tools that make
    and check disk images.  Optimisations of the memory system below the level
    of C: processors see each other's writes in order. *)

From stdpp Require Import base numbers list gmap fin_maps.
From Stdlib Require Import ZArith Lia.

Open Scope Z_scope.

(** ** Outcomes and the kernel monad

    A kernel function either returns, stops the machine ([KASSERT] failing or
    a call of [panic]), or does something C leaves undefined (an access out of
    the bounds of an object, a dereference of NULL, a read of memory nobody
    wrote).  A loop that is not structural carries fuel; [Hang] is the outcome
    of a run whose fuel is used up, and the theorems show that the fuel given
    is enough, or that no fuel is.  [K S A] is the type of a function that
    runs on a state of type [S] and returns an [A]. *)

Inductive outcome (A : Type) : Type :=
| Done (a : A)
| Panic
| Undef
| Hang.
Arguments Done {A} a.
Arguments Panic {A}.
Arguments Undef {A}.
Arguments Hang {A}.

Definition K (S A : Type) : Type := S → outcome (A * S).

Definition kret {S A} (a : A) : K S A := λ s, Done (a, s).

Definition kbind {S A B} (c : K S A) (f : A → K S B) : K S B :=
  λ s, match c s with
       | Done (a, s') => f a s'
       | Panic => Panic
       | Undef => Undef
       | Hang => Hang
       end.

Definition kget {S} : K S S := λ s, Done (s, s).
Definition kput {S} (s' : S) : K S unit := λ _, Done (tt, s').
Definition kmodify {S} (f : S → S) : K S unit := λ s, Done (tt, f s).
Definition kgets {S A} (f : S → A) : K S A := λ s, Done (f s, s).
Definition kpanic {S A} : K S A := λ _, Panic.
Definition kundef {S A} : K S A := λ _, Undef.
Definition khang {S A} : K S A := λ _, Hang.

(** [KASSERT (b)]. *)
Definition kassert {S} (b : bool) : K S unit :=
  λ s, if b then Done (tt, s) else Panic.

(** An access that is defined only when the object is there. *)
Definition kderef {S A} (o : option A) : K S A :=
  λ s, match o with Some a => Done (a, s) | None => Undef end.

(** Running a function of a part of the state on the whole state. *)
Definition kzoom {S T A} (get : S → T) (set : T → S → S) (c : K T A) : K S A :=
  λ s, match c (get s) with
       | Done (a, t) => Done (a, set t s)
       | Panic => Panic
       | Undef => Undef
       | Hang => Hang
       end.

Declare Scope kernel_scope.
Delimit Scope kernel_scope with kernel.
Notation "x <- c ;; k" := (kbind c (λ x, k))
  (at level 100, c at next level, right associativity) : kernel_scope.
Notation "'let*' p := c 'in' k" := (kbind c (λ p, k))
  (at level 10, p pattern, c at level 100, k at level 200) : kernel_scope.
Notation "c ;; k" := (kbind c (λ _ : unit, k))
  (at level 100, right associativity) : kernel_scope.

Section Monad.
Context {S : Type}.

Lemma kbind_Done {A B} (c : K S A) (f : A → K S B) s b s'' :
  kbind c f s = Done (b, s'') ↔
  ∃ a s', c s = Done (a, s') ∧ f a s' = Done (b, s'').
Proof.
  unfold kbind. destruct (c s) as [[a s']| | |] eqn:E.
  - split; [by eauto | intros (? & ? & [= <- <-] & ?); done].
  - split; [done | by intros (? & ? & ? & ?)].
  - split; [done | by intros (? & ? & ? & ?)].
  - split; [done | by intros (? & ? & ? & ?)].
Qed.

Lemma kbind_ret {A B} (a : A) (f : A → K S B) s :
  kbind (kret a) f s = f a s.
Proof. done. Qed.

Lemma kbind_run {A B} (c : K S A) (f : A → K S B) s a s' :
  c s = Done (a, s') → kbind c f s = f a s'.
Proof. unfold kbind. by intros ->. Qed.

Lemma kassert_Done (b : bool) (s : S) u s' :
  kassert b s = Done (u, s') ↔ b = true ∧ s = s'.
Proof.
  unfold kassert. destruct b, u; split; try done.
  - by intros [= ->].
  - by intros [_ ->].
  - by intros [? _].
Qed.

Lemma kderef_Done {A} (o : option A) (s : S) a s' :
  kderef o s = Done (a, s') ↔ o = Some a ∧ s = s'.
Proof.
  unfold kderef. destruct o; split; try done.
  - by intros [= -> ->].
  - by intros [[= ->] ->].
  - by intros [? _].
Qed.
End Monad.

(** One step of a run: the equations that execute the next command.  They are
    the rewrite database [kernel], which [ksteps] uses. *)

Section Steps.
Context {S A B : Type}.

Lemma step_ret (a : A) (f : A → K S B) s : kbind (kret a) f s = f a s.
Proof. done. Qed.
Lemma step_get (f : S → K S B) s : kbind kget f s = f s s.
Proof. done. Qed.
Lemma step_gets (g : S → A) (f : A → K S B) s : kbind (kgets g) f s = f (g s) s.
Proof. done. Qed.
Lemma step_put t (f : unit → K S B) s : kbind (kput t) f s = f tt t.
Proof. done. Qed.
Lemma step_modify g (f : unit → K S B) s : kbind (kmodify g) f s = f tt (g s).
Proof. done. Qed.
Lemma step_deref (a : A) (f : A → K S B) s : kbind (kderef (Some a)) f s = f a s.
Proof. done. Qed.
Lemma step_bind {C} (c : K S C) (g : C → K S A) (f : A → K S B) s :
  kbind (kbind c g) f s = kbind c (λ x, kbind (g x) f) s.
Proof. unfold kbind. by destruct (c s) as [[x t]| | |]. Qed.
Lemma step_assert b (f : unit → K S B) s : b = true → kbind (kassert b) f s = f tt s.
Proof. by intros ->. Qed.
Lemma step_panic b (f : unit → K S B) s : b = false → kbind (kassert b) f s = Panic.
Proof. by intros ->. Qed.
Lemma step_lookup (o : option A) a (f : A → K S B) s :
  o = Some a → kbind (kderef o) f s = f a s.
Proof. by intros ->. Qed.
End Steps.

Create HintDb kernel.
#[export] Hint Rewrite @step_ret @step_get @step_gets @step_put @step_modify @step_deref
  @step_bind : kernel.
Ltac ksteps := autorewrite with kernel; cbv beta iota.
(** Run a call whose result [E] states. *)
Ltac kcall E := rewrite (kbind_run _ _ _ _ _ E); cbv beta iota.

(** Forward: run the next primitive of a goal or a hypothesis. *)
Ltac krun :=
  repeat first
    [ progress cbn beta iota
    | progress unfold kret, kget, kput, kmodify, kgets in * ].

(** Backward: invert a run that returned. *)
Ltac kinv1 H :=
  lazymatch type of H with
  | kbind ?c ?f ?s = Done (?b, ?s'') =>
      let a := fresh "a" in
      let s' := fresh "s" in
      let H1 := fresh H in
      apply kbind_Done in H as (a & s' & H1 & H); kinv1 H1
  | kret _ _ = Done _ => unfold kret in H; simplify_eq
  | kget _ = Done _ => unfold kget in H; simplify_eq
  | kput _ _ = Done _ => unfold kput in H; simplify_eq
  | kmodify _ _ = Done _ => unfold kmodify in H; simplify_eq
  | kgets _ _ = Done _ => unfold kgets in H; simplify_eq
  | kassert _ _ = Done (_, _) =>
      let E := fresh "Hassert" in apply kassert_Done in H as [E H]; simplify_eq
  | kderef _ _ = Done (_, _) =>
      let E := fresh "Hderef" in apply kderef_Done in H as [E H]; simplify_eq
  | kpanic _ = Done _ => discriminate H
  | kundef _ = Done _ => discriminate H
  | khang _ = Done _ => discriminate H
  | _ => idtac
  end.
Tactic Notation "kinv" hyp(H) := repeat (progress kinv1 H).

(** ** Machine integers

    [unsigned], [uint32_t], [vaddr_t], [paddr_t] and [size_t] are 32 bits wide
    on MIPS and wrap; [int] is 32 bits in two's complement. *)

Definition u8 (x : Z) : Z := x mod 2 ^ 8.
Definition u16 (x : Z) : Z := x mod 2 ^ 16.
Definition u32 (x : Z) : Z := x mod 2 ^ 32.
Definition i32 (x : Z) : Z := (x + 2 ^ 31) mod 2 ^ 32 - 2 ^ 31.
Definition u64 (x : Z) : Z := x mod 2 ^ 64.
Definition i64 (x : Z) : Z := (x + 2 ^ 63) mod 2 ^ 64 - 2 ^ 63.

Section Integers.
Lemma u8_range x : 0 ≤ u8 x < 256.
Proof. unfold u8. apply Z.mod_pos_bound. lia. Qed.
Lemma u32_range x : 0 ≤ u32 x < 2 ^ 32.
Proof. unfold u32. apply Z.mod_pos_bound. lia. Qed.
Lemma u8_small x : 0 ≤ x < 256 → u8 x = x.
Proof. intros. unfold u8. apply Z.mod_small. lia. Qed.
Lemma u16_small x : 0 ≤ x < 2 ^ 16 → u16 x = x.
Proof. intros. unfold u16. apply Z.mod_small. lia. Qed.
Lemma u32_small x : 0 ≤ x < 2 ^ 32 → u32 x = x.
Proof. intros. unfold u32. apply Z.mod_small. lia. Qed.
Lemma u64_range x : 0 ≤ u64 x < 2 ^ 64.
Proof. unfold u64. apply Z.mod_pos_bound. lia. Qed.
Lemma u64_small x : 0 ≤ x < 2 ^ 64 → u64 x = x.
Proof. intros. unfold u64. apply Z.mod_small. lia. Qed.
Lemma i64_small x : - 2 ^ 63 ≤ x < 2 ^ 63 → i64 x = x.
Proof. intros. unfold i64. rewrite Z.mod_small by lia. lia. Qed.
Lemma i32_small x : - 2 ^ 31 ≤ x < 2 ^ 31 → i32 x = x.
Proof. intros. unfold i32. rewrite Z.mod_small by lia. lia. Qed.
End Integers.

(** Drop the wrap-arounds that linear arithmetic shows not to happen. *)
Ltac nowrap :=
  repeat match goal with
  | |- context [u8 ?x] => rewrite (u8_small x) by lia
  | |- context [u16 ?x] => rewrite (u16_small x) by lia
  | |- context [u32 ?x] => rewrite (u32_small x) by lia
  | |- context [i32 ?x] => rewrite (i32_small x) by lia
  | |- context [u64 ?x] => rewrite (u64_small x) by lia
  end.
Ltac nowrap_in H :=
  repeat match type of H with
  | context [u8 ?x] => rewrite (u8_small x) in H by lia
  | context [u16 ?x] => rewrite (u16_small x) in H by lia
  | context [u32 ?x] => rewrite (u32_small x) in H by lia
  | context [i32 ?x] => rewrite (i32_small x) in H by lia
  end.
Tactic Notation "nowrap" "in" hyp(H) := nowrap_in H.

(** [DIVROUNDUP] of kern/include/lib.h on unsigned operands. *)
Definition DIVROUNDUP (a b : Z) : Z := u32 (u32 (a + b) - 1) / b.

Lemma DIVROUNDUP_small a b :
  0 ≤ a → 0 < b → a + b ≤ 2 ^ 32 - 1 → DIVROUNDUP a b = (a + b - 1) / b.
Proof. intros. unfold DIVROUNDUP. nowrap. reflexivity. Qed.

(** ** Error numbers (kern/include/kern/errno.h) *)

Definition EUNIMP : Z := 2.
Definition ENOMEM : Z := 3.
Definition EAGAIN : Z := 4.
Definition EFAULT : Z := 6.
Definition ENAMETOOLONG : Z := 7.
Definition EINVAL : Z := 8.
Definition E2BIG : Z := 14.
Definition ESRCH : Z := 15.
Definition ECHILD : Z := 16.
Definition ENOTDIR : Z := 17.
Definition EISDIR : Z := 18.
Definition ENOENT : Z := 19.
Definition EEXIST : Z := 22.
Definition EXDEV : Z := 24.
Definition ENODEV : Z := 25.
Definition ENXIO : Z := 26.
Definition EBUSY : Z := 27.
Definition EMFILE : Z := 28.
Definition EBADF : Z := 30.
Definition EIOCTL : Z := 31.
Definition EIO : Z := 32.
Definition ENOSPC : Z := 36.
Definition EFBIG : Z := 38.

(** ** Bits *)

Section Bits.
Lemma land_bit_zero x k :
  0 ≤ k → (Z.land x (Z.shiftl 1 k) =? 0) = negb (Z.testbit x k).
Proof.
  intros Hk.
  assert (E : Z.land x (Z.shiftl 1 k) = if Z.testbit x k then 2 ^ k else 0).
  { apply Z.bits_inj'. intros n Hn.
    rewrite Z.land_spec, Z.shiftl_spec by done.
    destruct (decide (n = k)) as [->|Hne].
    - rewrite Z.sub_diag, Z.bit0_odd. simpl. rewrite andb_true_r.
      destruct (Z.testbit x k); [by rewrite Z.pow2_bits_true|by rewrite Z.bits_0].
    - assert (H1 : Z.testbit 1 (n - k) = false).
      { destruct (decide (n < k)); [by rewrite Z.testbit_neg_r by lia|].
        change 1 with (2 ^ 0). apply Z.pow2_bits_false. lia. }
      rewrite H1, andb_false_r.
      destruct (Z.testbit x k); [|by rewrite Z.bits_0].
      by rewrite Z.pow2_bits_false. }
  rewrite E. destruct (Z.testbit x k); simpl; [|done].
  apply Z.eqb_neq. pose proof (Z.pow_pos_nonneg 2 k). lia.
Qed.

Lemma testbit_setbit x k n :
  0 ≤ k → 0 ≤ n →
  Z.testbit (Z.lor x (Z.shiftl 1 k)) n = (Z.testbit x n || (n =? k))%bool.
Proof.
  intros Hk Hn. rewrite Z.lor_spec, Z.shiftl_spec by done. f_equal.
  destruct (Z.eqb_spec n k) as [->|Hne]; [by rewrite Z.sub_diag|].
  destruct (decide (n < k)); [by rewrite Z.testbit_neg_r by lia|].
  change 1 with (2 ^ 0). apply Z.pow2_bits_false. lia.
Qed.

Lemma testbit_u8 x n : 0 ≤ n < 8 → Z.testbit (u8 x) n = Z.testbit x n.
Proof. intros. unfold u8. by rewrite Z.mod_pow2_bits_low by lia. Qed.

Lemma testbit_u8_high x n : 8 ≤ n → Z.testbit (u8 x) n = false.
Proof. intros. unfold u8. by rewrite Z.mod_pow2_bits_high by lia. Qed.

Lemma testbit_u32 x n : 0 ≤ n < 32 → Z.testbit (u32 x) n = Z.testbit x n.
Proof. intros. unfold u32. by rewrite Z.mod_pow2_bits_low by lia. Qed.

Lemma testbit_u16 x n : 0 ≤ n < 16 → Z.testbit (u16 x) n = Z.testbit x n.
Proof. intros. unfold u16. by rewrite Z.mod_pow2_bits_low by lia. Qed.

Lemma testbit_u64 x n : 0 ≤ n < 64 → Z.testbit (u64 x) n = Z.testbit x n.
Proof. intros. unfold u64. by rewrite Z.mod_pow2_bits_low by lia. Qed.

(** Two [w]-bit values with the same bits are equal. *)
Lemma bits_eq w x y :
  0 ≤ w → 0 ≤ x < 2 ^ w → 0 ≤ y < 2 ^ w →
  (∀ n, 0 ≤ n < w → Z.testbit x n = Z.testbit y n) → x = y.
Proof.
  intros Hw Hx Hy Hbits. apply Z.bits_inj'. intros n Hn.
  destruct (decide (n < w)); [by apply Hbits|].
  rewrite <-(Z.mod_small x (2 ^ w)), <-(Z.mod_small y (2 ^ w)) by done.
  by rewrite !Z.mod_pow2_bits_high by lia.
Qed.

(** Putting two fields beside each other adds them. *)
Lemma lor_fields a b k : 0 ≤ k → 0 ≤ b < 2 ^ k → Z.lor (Z.shiftl a k) b = a * 2 ^ k + b.
Proof.
  intros Hk Hb. assert (E : Z.land (Z.shiftl a k) b = 0).
  { apply Z.bits_inj'. intros n Hn. rewrite Z.land_spec, Z.bits_0.
    destruct (decide (n < k)).
    - by rewrite Z.shiftl_spec_low by done.
    - rewrite <-(Z.mod_small b (2 ^ k)) by done. by rewrite Z.mod_pow2_bits_high, andb_false_r by lia. }
  rewrite <-Z.lxor_lor, <-Z.add_nocarry_lxor by done. by rewrite Z.shiftl_mul_pow2.
Qed.

Lemma testbit_clearbit x k n :
  0 ≤ k → 0 ≤ n →
  Z.testbit (Z.land x (Z.lnot (Z.shiftl 1 k))) n
  = (Z.testbit x n && negb (n =? k))%bool.
Proof.
  intros Hk Hn. rewrite Z.land_spec, Z.lnot_spec, Z.shiftl_spec by done.
  do 2 f_equal.
  destruct (Z.eqb_spec n k) as [->|Hne]; [by rewrite Z.sub_diag|].
  destruct (decide (n < k)); [by rewrite Z.testbit_neg_r by lia|].
  change 1 with (2 ^ 0). apply Z.pow2_bits_false. lia.
Qed.
End Bits.

(** ** Lists *)

Section Lists.
Context {A : Type}.
Implicit Types (l : list A).

(** [memmove] inside one array of cells, by lists: [n] cells from [src] to
    [dst].  [None] when either range leaves the array. *)
Definition move_cells (dst src n : nat) l : option (list A) :=
  if decide (dst + n ≤ length l ∧ src + n ≤ length l)%nat
  then Some (take dst l ++ take n (drop src l) ++ drop (dst + n) l)
  else None.

(** [memcpy] of the first [n] cells of one array to another one. *)
Definition copy_cells (n : nat) (dst src : list A) : option (list A) :=
  if decide (n ≤ length dst ∧ n ≤ length src)%nat
  then Some (take n src ++ drop n dst)
  else None.

Lemma filter_none (P : A → Prop) `{∀ x, Decision (P x)} l :
  (∀ x, x ∈ l → ¬ P x) → filter P l = [].
Proof.
  induction l as [|x l IH]; intros HP; [done|].
  rewrite filter_cons_False by (apply HP; left). apply IH.
  intros y Hy. apply HP. by right.
Qed.
End Lists.
