(* ===== verification/Bswap.v ===== *)
(** * Byte order (kern/lib/bswap.c)

    The byte-swap functions, the network byte order functions of a big-endian
    machine, and the functions that cut a 64-bit value into the two words the
    system call layer passes it in. *)

From stdpp Require Import base numbers list.
From Stdlib Require Import ZArith Lia.
From S2P Require Import Prelude.

Open Scope Z_scope.

(** ** Model *)

Definition bswap16 (val : Z) : Z :=
  u16 (Z.lor (Z.shiftl (Z.land val 0x00ff) 8)
             (Z.shiftr (Z.land val 0xff00) 8)).

Definition bswap32 (val : Z) : Z :=
  Z.lor (Z.lor (Z.lor
    (u32 (Z.shiftl (Z.land val 0x000000ff) 24))
    (u32 (Z.shiftl (Z.land val 0x0000ff00) 8)))
    (Z.shiftr (Z.land val 0x00ff0000) 8))
    (Z.shiftr (Z.land val 0xff000000) 24).

Definition bswap64 (val : Z) : Z :=
  Z.lor (Z.lor (Z.lor (Z.lor (Z.lor (Z.lor (Z.lor
    (u64 (Z.shiftl (Z.land val 0x00000000000000ff) 56))
    (u64 (Z.shiftl (Z.land val 0x000000000000ff00) 40)))
    (u64 (Z.shiftl (Z.land val 0x0000000000ff0000) 24)))
    (u64 (Z.shiftl (Z.land val 0x00000000ff000000) 8)))
    (u64 (Z.shiftl (Z.land val 0x000000ff00000000) 8)))
    (u64 (Z.shiftl (Z.land val 0x0000ff0000000000) 24)))
    (Z.shiftr (Z.land val 0x00ff000000000000) 40))
    (Z.shiftr (Z.land val 0xff00000000000000) 56).

(** [_BYTE_ORDER] is [_BIG_ENDIAN]. *)
Definition ntohs (val : Z) : Z := val.
Definition htons (val : Z) : Z := val.
Definition ntohl (val : Z) : Z := val.
Definition htonl (val : Z) : Z := val.
Definition ntohll (val : Z) : Z := val.
Definition htonll (val : Z) : Z := val.

(** The result is [*y2]. *)
Definition join32to64 (x1 x2 : Z) : Z := Z.lor (u64 (Z.shiftl x1 32)) x2.

(** The results are [*y1] and [*y2]. *)
Definition split64to32 (x : Z) : Z * Z :=
  (u32 (Z.shiftr x 32), u32 (Z.land x 0xffffffff)).

(** ** Lemmas *)

(** The [k]th byte of a value, the least significant one first. *)
Definition byte (k x : Z) : Z := Z.land (Z.shiftr x (8 * k)) 0xff.

Section Bytes.
Lemma testbit_byte_mask k n :
  0 ≤ k → 0 ≤ n → Z.testbit (Z.shiftl 0xff k) n = (k <=? n) && (n <? k + 8).
Proof.
  intros Hk Hn. rewrite Z.shiftl_spec by done. change 0xff with (Z.ones 8).
  destruct (Z.leb_spec k n).
  - rewrite Z.testbit_ones_nonneg by lia. simpl.
    destruct (Z.ltb_spec (n - k) 8), (Z.ltb_spec n (k + 8)); (done || lia).
  - by rewrite Z.testbit_neg_r by lia.
Qed.

Lemma testbit_byte k x n :
  0 ≤ k → 0 ≤ n → Z.testbit (byte k x) n = Z.testbit x (n + 8 * k) && (n <? 8).
Proof.
  intros Hk Hn. unfold byte. rewrite Z.land_spec, Z.shiftr_spec by done.
  f_equal. change 0xff with (Z.ones 8). by rewrite Z.testbit_ones_nonneg by lia.
Qed.

Lemma field_up x k d n :
  0 ≤ k → 0 ≤ d → 0 ≤ n →
  Z.testbit (Z.shiftl (Z.land x (Z.shiftl 0xff k)) d) n =
  (k + d <=? n) && (n <? k + d + 8) && Z.testbit x (n - d).
Proof.
  intros. rewrite Z.shiftl_spec by lia. destruct (decide (n - d < 0)).
  - rewrite Z.testbit_neg_r by lia. by rewrite (proj2 (Z.leb_gt (k + d) n)) by lia.
  - rewrite Z.land_spec, testbit_byte_mask, andb_comm by lia. do 2 f_equal.
    + destruct (Z.leb_spec k (n - d)), (Z.leb_spec (k + d) n); (done || lia).
    + destruct (Z.ltb_spec (n - d) (k + 8)), (Z.ltb_spec n (k + d + 8)); (done || lia).
Qed.

Lemma field_down x k d n :
  0 ≤ d ≤ k → 0 ≤ n →
  Z.testbit (Z.shiftr (Z.land x (Z.shiftl 0xff k)) d) n =
  (k - d <=? n) && (n <? k - d + 8) && Z.testbit x (n + d).
Proof.
  intros. rewrite Z.shiftr_spec, Z.land_spec, testbit_byte_mask, andb_comm by lia. do 2 f_equal.
  - destruct (Z.leb_spec k (n + d)), (Z.leb_spec (k - d) n); (done || lia).
  - destruct (Z.ltb_spec (n + d) (k + 8)), (Z.ltb_spec n (k - d + 8)); (done || lia).
Qed.
End Bytes.

(** A bit of an or of masked and shifted values: the masks are written as
    shifted bytes, then every comparison is decided. *)
Ltac byte_masks :=
  change 0x00ff with (Z.shiftl 0xff 0);
  change 0xff00 with (Z.shiftl 0xff 8);
  change 0x00ff0000 with (Z.shiftl 0xff 16);
  change 0xff000000 with (Z.shiftl 0xff 24);
  change 0x000000ff00000000 with (Z.shiftl 0xff 32);
  change 0x0000ff0000000000 with (Z.shiftl 0xff 40);
  change 0x00ff000000000000 with (Z.shiftl 0xff 48);
  change 0xff00000000000000 with (Z.shiftl 0xff 56).
Ltac decide_bits :=
  repeat (match goal with
  | |- context [?a <=? ?b] => destruct (Z.leb_spec a b); try lia
  | |- context [?a <? ?b] => destruct (Z.ltb_spec a b); try lia
  end; cbn [andb orb]).
Ltac swap_bits :=
  byte_masks;
  repeat first [rewrite Z.lor_spec | rewrite testbit_u16 by lia | rewrite testbit_u32 by lia
               |rewrite testbit_u64 by lia | rewrite field_up by lia | rewrite field_down by lia];
  decide_bits; rewrite ?orb_false_r; f_equal; lia.

Section Swaps.
Lemma bswap16_bit x n :
  0 ≤ n < 16 → Z.testbit (bswap16 x) n = Z.testbit x (8 * (1 - n / 8) + n mod 8).
Proof.
  intros Hn. pose proof (Z_div_mod_eq_full n 8). pose proof (Z.mod_pos_bound n 8 eq_refl).
  unfold bswap16. swap_bits.
Qed.

Lemma bswap32_bit x n :
  0 ≤ n < 32 → Z.testbit (bswap32 x) n = Z.testbit x (8 * (3 - n / 8) + n mod 8).
Proof.
  intros Hn. pose proof (Z_div_mod_eq_full n 8). pose proof (Z.mod_pos_bound n 8 eq_refl).
  unfold bswap32. swap_bits.
Qed.

Lemma bswap16_range x : 0 ≤ bswap16 x < 2 ^ 16.
Proof. unfold bswap16, u16. apply Z.mod_pos_bound. lia. Qed.

Lemma lor_range w x y : 0 ≤ w → 0 ≤ x < 2 ^ w → 0 ≤ y < 2 ^ w → 0 ≤ Z.lor x y < 2 ^ w.
Proof.
  intros Hw Hx Hy. assert (0 ≤ Z.lor x y) by (apply Z.lor_nonneg; lia). split; [done|].
  rewrite <-(Z.mod_small x (2 ^ w)), <-(Z.mod_small y (2 ^ w)) by done.
  rewrite <-!Z.land_ones, <-Z.land_lor_distr_l, Z.land_ones by done.
  by apply Z.mod_pos_bound, Z.pow_pos_nonneg.
Qed.

Lemma byte_field_range w x k d :
  0 ≤ d ≤ k → k - d + 8 ≤ w → 0 ≤ Z.shiftr (Z.land x (Z.shiftl 0xff k)) d < 2 ^ w.
Proof.
  intros Hd Hw. set (y := Z.shiftr _ d).
  assert (0 ≤ y) by (apply Z.shiftr_nonneg, Z.land_nonneg; right; by apply Z.shiftl_nonneg).
  assert (E : y = y mod 2 ^ w).
  { apply Z.bits_inj'. intros n Hn. destruct (decide (n < w)).
    - by rewrite Z.mod_pow2_bits_low by lia.
    - rewrite Z.mod_pow2_bits_high by lia. unfold y. rewrite field_down by lia. decide_bits. }
  rewrite E. apply Z.mod_pos_bound, Z.pow_pos_nonneg; lia.
Qed.

Lemma bswap32_range x : 0 ≤ bswap32 x < 2 ^ 32.
Proof.
  unfold bswap32. byte_masks.
  repeat apply lor_range; try lia; apply u32_range || apply byte_field_range; lia.
Qed.

Lemma byte_nonneg k x : 0 ≤ byte k x.
Proof. unfold byte. apply Z.land_nonneg. lia. Qed.

(** The swap takes the bits of byte [k] from byte [last - k]. *)
Lemma swapped_byte last k f x :
  0 ≤ k ≤ last →
  (∀ n, 0 ≤ n < 8 * (last + 1) → Z.testbit (f x) n = Z.testbit x (8 * (last - n / 8) + n mod 8)) →
  byte k (f x) = byte (last - k) x.
Proof.
  intros Hk Hf. apply Z.bits_inj'. intros n Hn. rewrite !testbit_byte by lia.
  destruct (Z.ltb_spec n 8); [|by rewrite !andb_false_r]. rewrite !andb_true_r, Hf by lia. f_equal.
  replace (n + 8 * k) with (n + k * 8) by lia.
  rewrite Z.div_add, Z.mod_add, Z.div_small, Z.mod_small by lia. lia.
Qed.

Lemma swapped_twice last f x :
  0 ≤ last → 0 ≤ x < 2 ^ (8 * (last + 1)) → (∀ y, 0 ≤ f y < 2 ^ (8 * (last + 1))) →
  (∀ y n, 0 ≤ n < 8 * (last + 1) → Z.testbit (f y) n = Z.testbit y (8 * (last - n / 8) + n mod 8)) →
  f (f x) = x.
Proof.
  intros Hl Hx Hr Hf. apply (bits_eq (8 * (last + 1))); [lia|apply Hr|done|]. intros n Hn.
  pose proof (Z_div_mod_eq_full n 8). pose proof (Z.mod_pos_bound n 8 eq_refl).
  rewrite !Hf by lia. f_equal.
  replace (8 * (last - n / 8) + n mod 8) with (n mod 8 + (last - n / 8) * 8) by lia.
  rewrite Z.div_add, Z.mod_add, Z.div_small, (Z.mod_small (n mod 8)) by lia. lia.
Qed.

Lemma join32to64_sum h l :
  0 ≤ h < 2 ^ 32 → 0 ≤ l < 2 ^ 32 → join32to64 h l = h * 2 ^ 32 + l.
Proof.
  intros. unfold join32to64. rewrite u64_small by (rewrite Z.shiftl_mul_pow2; lia).
  by rewrite lor_fields.
Qed.
Lemma split64to32_parts x :
  0 ≤ x < 2 ^ 64 → split64to32 x = (x / 2 ^ 32, x mod 2 ^ 32).
Proof.
  intros. unfold split64to32. change 0xffffffff with (Z.ones 32).
  rewrite Z.land_ones, Z.shiftr_div_pow2 by done. unfold u32. rewrite Zmod_mod, (Z.mod_small (x / _)); [done|].
  split; [apply Z.div_pos|apply Z.div_lt_upper_bound]; lia.
Qed.
End Swaps.

(** ** The component's theorems *)

(** The 16- and 32-bit swaps reverse the bytes of their argument, and are
    their own inverses; the 64-bit one is not: its fifth byte goes to the
    sixth instead of the fourth, and two different values have the same
    result.  Splitting a 64-bit value into two words and joining them is the
    identity, both ways round. *)
Theorem byte_order_roundtrips x y h l :
  0 ≤ x < 2 ^ 16 → 0 ≤ y < 2 ^ 32 → 0 ≤ h < 2 ^ 32 → 0 ≤ l < 2 ^ 32 →
  bswap16 (bswap16 x) = x ∧ (∀ k, 0 ≤ k ≤ 1 → byte k (bswap16 x) = byte (1 - k) x) ∧
  bswap32 (bswap32 y) = y ∧ (∀ k, 0 ≤ k ≤ 3 → byte k (bswap32 y) = byte (3 - k) y) ∧
  split64to32 (join32to64 h l) = (h, l) ∧
  (∀ z, 0 ≤ z < 2 ^ 64 → join32to64 (split64to32 z).1 (split64to32 z).2 = z) ∧
  bswap64 (2 ^ 32) = 2 ^ 40 ∧ bswap64 (2 ^ 32) = bswap64 (2 ^ 16).
Proof.
  intros Hx Hy Hh Hl.
  split_and!; try reflexivity.
  - apply (swapped_twice 1); [done..|apply bswap16_range|apply bswap16_bit].
  - intros k Hk. apply (swapped_byte 1); [done|apply bswap16_bit].
  - apply (swapped_twice 3); [done..|apply bswap32_range|apply bswap32_bit].
  - intros k Hk. apply (swapped_byte 3); [done|apply bswap32_bit].
  - rewrite join32to64_sum, split64to32_parts by lia. f_equal.
    + rewrite Z.div_add_l, Z.div_small by lia. lia.
    + rewrite Z.add_comm, Z.mod_add, Z.mod_small by lia. done.
  - intros z Hz. rewrite split64to32_parts by done. cbn [fst snd].
    pose proof (Z_div_mod_eq_full z (2 ^ 32)). pose proof (Z.mod_pos_bound z (2 ^ 32) eq_refl).
    rewrite join32to64_sum; lia.
Qed.

Lemma byte_order_roundtrips_witness :
  bswap32 (bswap32 0x01020304) = 0x01020304 ∧ bswap32 0x01020304 = 0x04030201.
Proof.
  destruct (byte_order_roundtrips 0x0102 0x01020304 1 2) as (_ & _ & H & _); try lia.
  exact (conj H eq_refl).
Defined.
