(* ===== verification/Millicode.v ===== *)
(** * 64-bit arithmetic (common/gcc-millicode)

    The functions the compiler calls for [long long] arithmetic on a machine
    with 32-bit words.  A [long long] is a [Z] in its signed range and a
    [union uu] is read through [uiH], [uiL] and [siH] and built by [ll] and
    [ull].  [__qdivrem] is Knuth's algorithm D on arrays of 16-bit digits; its
    arrays are lists of cells that nobody may have written yet, and [None] is
    an undefined access or a division by zero. *)

From stdpp Require Import base numbers list option.
From Stdlib Require Import ZArith Lia.
From S2P Require Import Prelude.

Open Scope Z_scope.

(** ** Words of a long long (longlong.h) *)

Definition INT_BITS : Z := 32.
Definition HALF_BITS : Z := 16.

Definition uiH (x : Z) : Z := Z.shiftr (u64 x) 32.
Definition uiL (x : Z) : Z := u32 x.
Definition siH (x : Z) : Z := i32 (uiH x).
Definition ull (h l : Z) : Z := Z.lor (Z.shiftl h 32) l.
Definition ll (h l : Z) : Z := i64 (ull h l).

Definition HHALF (x : Z) : Z := Z.shiftr (u32 x) HALF_BITS.
Definition LHALF (x : Z) : Z := Z.land (u32 x) (Z.shiftl 1 HALF_BITS - 1).
Definition LHUP (x : Z) : Z := u32 (Z.shiftl (u32 x) HALF_BITS).

(** A comparison used as a number. *)
Definition cbool (b : bool) : Z := if b then 1 else 0.

(** ** Addition, logic, shifts, comparison *)

Definition __adddi3 (a b : Z) : Z :=
  let sumL := u32 (uiL a + uiL b) in
  let sumH := u32 (uiH a + uiH b + cbool (sumL <? uiL b)) in
  ll sumH sumL.

Definition __subdi3 (a b : Z) : Z :=
  let diffL := u32 (uiL a - uiL b) in
  let diffH := u32 (uiH a - uiH b - cbool (uiL a <? diffL)) in
  ll diffH diffL.

Definition __negdi2 (a : Z) : Z :=
  let resL := u32 (- uiL a) in
  let resH := u32 (- uiH a - cbool (0 <? resL)) in
  ll resH resL.

Definition __anddi3 (a b : Z) : Z := ll (Z.land (uiH a) (uiH b)) (Z.land (uiL a) (uiL b)).
Definition __iordi3 (a b : Z) : Z := ll (Z.lor (uiH a) (uiH b)) (Z.lor (uiL a) (uiL b)).
Definition __xordi3 (a b : Z) : Z := ll (Z.lxor (uiH a) (uiH b)) (Z.lxor (uiL a) (uiL b)).

Definition __one_cmpldi2 (a : Z) : Z := ll (u32 (Z.lnot (uiH a))) (u32 (Z.lnot (uiL a))).

Definition __ashldi3 (a shift : Z) : Z :=
  if shift =? 0 then a
  else if INT_BITS <=? shift then
    ll (u32 (Z.shiftl (uiL a) (shift - INT_BITS))) 0
  else
    ll (Z.lor (u32 (Z.shiftl (uiH a) shift)) (Z.shiftr (uiL a) (INT_BITS - shift)))
       (u32 (Z.shiftl (uiL a) shift)).

Definition __lshldi3 (a shift : Z) : Z :=
  if shift =? 0 then a
  else if INT_BITS <=? shift then
    ll (u32 (Z.shiftl (uiL a) (shift - INT_BITS))) 0
  else
    ll (Z.lor (u32 (Z.shiftl (uiH a) shift)) (Z.shiftr (uiL a) (INT_BITS - shift)))
       (u32 (Z.shiftl (uiL a) shift)).

Definition __lshrdi3 (a shift : Z) : Z :=
  if shift =? 0 then a
  else if INT_BITS <=? shift then
    ll 0 (Z.shiftr (uiH a) (shift - INT_BITS))
  else
    ll (Z.shiftr (uiH a) shift)
       (Z.lor (Z.shiftr (uiL a) shift) (u32 (Z.shiftl (uiH a) (INT_BITS - shift)))).

(** [>>] of a negative [int] is an arithmetic shift. *)
Definition __ashrdi3 (a shift : Z) : Z :=
  if shift =? 0 then a
  else if INT_BITS <=? shift then
    let s := Z.shiftr (Z.shiftr (siH a) (INT_BITS - 1)) 1 in
    ll (u32 s) (u32 (Z.shiftr (siH a) (shift - INT_BITS)))
  else
    ll (u32 (Z.shiftr (siH a) shift))
       (Z.lor (Z.shiftr (uiL a) shift) (u32 (Z.shiftl (uiH a) (INT_BITS - shift)))).

Definition __cmpdi2 (a b : Z) : Z :=
  if siH a <? siH b then 0 else if siH b <? siH a then 2
  else if uiL a <? uiL b then 0 else if uiL b <? uiL a then 2 else 1.

Definition __ucmpdi2 (a b : Z) : Z :=
  if uiH a <? uiH b then 0 else if uiH b <? uiH a then 2
  else if uiL a <? uiL b then 0 else if uiL b <? uiL a then 2 else 1.

(** ** Multiplication (muldi3.c) *)

Definition __lmulq (u v : Z) : Z :=
  let u1 := HHALF u in
  let u0 := LHALF u in
  let v1 := HHALF v in
  let v0 := LHALF v in
  let low := u32 (u0 * v0) in
  if (u1 =? 0) && (v1 =? 0) then low
  else
    let '(udiff, neg) := if u0 <=? u1 then (u32 (u1 - u0), false) else (u32 (u0 - u1), true) in
    let '(vdiff, neg) := if v1 <=? v0 then (u32 (v0 - v1), neg) else (u32 (v1 - v0), negb neg) in
    let mid := u32 (udiff * vdiff) in
    let high := u32 (u1 * v1) in
    let prodh := u32 (high + HHALF high) in
    let prodl := LHUP high in
    let '(prodh, prodl) :=
      if (neg : bool) then
        let was := prodl in
        let prodl := u32 (prodl - LHUP mid) in
        (u32 (prodh - u32 (HHALF mid + cbool (was <? prodl))), prodl)
      else
        let was := prodl in
        let prodl := u32 (prodl + LHUP mid) in
        (u32 (prodh + u32 (HHALF mid + cbool (prodl <? was))), prodl) in
    let was := prodl in
    let prodl := u32 (prodl + LHUP low) in
    let prodh := u32 (prodh + u32 (HHALF low + cbool (prodl <? was))) in
    let prodl := u32 (prodl + low) in
    let prodh := if prodl <? low then u32 (prodh + 1) else prodh in
    ll prodh prodl.

Definition __muldi3 (a b : Z) : Z :=
  let '(u, negall) := if 0 <=? a then (a, false) else (- a, true) in
  let '(v, negall) := if 0 <=? b then (b, negall) else (- b, negb negall) in
  let u1 := uiH u in
  let u0 := uiL u in
  let v1 := uiH v in
  let v0 := uiL v in
  let prod :=
    if (u1 =? 0) && (v1 =? 0) then __lmulq u0 v0
    else
      let low := __lmulq u0 v0 in
      let '(udiff, negmid) := if u0 <=? u1 then (u32 (u1 - u0), false) else (u32 (u0 - u1), true) in
      let '(vdiff, negmid) := if v1 <=? v0 then (u32 (v0 - v1), negmid) else (u32 (v1 - v0), negb negmid) in
      let mid := u32 (udiff * vdiff) in
      let high := u32 (u1 * v1) in
      ll (u32 (high + (if (negmid : bool) then u32 (- mid) else mid) + uiL low + uiH low)) (uiL low) in
  if (negall : bool) then i64 (- prod) else prod.

(** ** Words and their value *)

Section Words.
Lemma uiL_range x : 0 ≤ uiL x < 2 ^ 32.
Proof. apply u32_range. Qed.
Lemma uiH_range x : 0 ≤ uiH x < 2 ^ 32.
Proof.
  unfold uiH. rewrite Z.shiftr_div_pow2 by done. pose proof (u64_range x).
  split; [apply Z.div_pos|apply Z.div_lt_upper_bound]; lia.
Qed.

(** The two words are the value modulo 2^64. *)
Lemma words x : uiH x * 2 ^ 32 + uiL x = x - 2 ^ 64 * (x / 2 ^ 64).
Proof.
  unfold uiH, uiL, u32, u64. rewrite Z.shiftr_div_pow2 by done.
  pose proof (Z_div_mod_eq_full x (2 ^ 64)). pose proof (Z.mod_pos_bound x (2 ^ 64) eq_refl).
  set (y := x mod 2 ^ 64) in *. pose proof (Z_div_mod_eq_full y (2 ^ 32)).
  assert (E : x mod 2 ^ 32 = y mod 2 ^ 32).
  { replace x with (y + (2 ^ 32 * (x / 2 ^ 64)) * 2 ^ 32) by lia. by rewrite Z.mod_add by lia. }
  rewrite E. lia.
Qed.

Lemma words_u64 x : 0 ≤ x < 2 ^ 64 → uiH x * 2 ^ 32 + uiL x = x.
Proof. intros. rewrite words, Z.div_small by done. lia. Qed.

Lemma i64_shift x k : i64 (x + k * 2 ^ 64) = i64 x.
Proof.
  unfold i64. replace (x + k * 2 ^ 64 + 2 ^ 63) with (x + 2 ^ 63 + k * 2 ^ 64) by lia.
  by rewrite Z.mod_add by lia.
Qed.
Lemma i64_unwrap x : i64 x = x - 2 ^ 64 * ((x + 2 ^ 63) / 2 ^ 64).
Proof. unfold i64. pose proof (Z_div_mod_eq_full (x + 2 ^ 63) (2 ^ 64)). lia. Qed.
Lemma i64_range x : - 2 ^ 63 ≤ i64 x < 2 ^ 63.
Proof. unfold i64. pose proof (Z.mod_pos_bound (x + 2 ^ 63) (2 ^ 64) eq_refl). lia. Qed.

Lemma ull_sum h l : 0 ≤ l < 2 ^ 32 → ull h l = h * 2 ^ 32 + l.
Proof. intros. unfold ull. by apply lor_fields. Qed.

(** A pair of words that is [x] modulo 2^64. *)
Lemma ll_value h l x k : 0 ≤ l < 2 ^ 32 → h * 2 ^ 32 + l = x + k * 2 ^ 64 → ll h l = i64 x.
Proof. intros Hl E. unfold ll. rewrite ull_sum, E by done. apply i64_shift. Qed.

Lemma u32_unwrap x : u32 x = x - 2 ^ 32 * (x / 2 ^ 32).
Proof. unfold u32. pose proof (Z_div_mod_eq_full x (2 ^ 32)). lia. Qed.

(** A carry, and a borrow, out of the low word. *)
Lemma carry x y :
  0 ≤ x < 2 ^ 32 → 0 ≤ y < 2 ^ 32 → u32 (x + y) = x + y - 2 ^ 32 * cbool (u32 (x + y) <? y).
Proof.
  intros Hx Hy. pose proof (u32_range (x + y)). pose proof (u32_unwrap (x + y)) as E.
  unfold cbool. destruct (Z.ltb_spec (u32 (x + y)) y).
  - assert ((x + y) / 2 ^ 32 = 1) by lia. lia.
  - assert ((x + y) / 2 ^ 32 = 0) by lia. lia.
Qed.
Lemma borrow x y :
  0 ≤ x < 2 ^ 32 → 0 ≤ y < 2 ^ 32 → u32 (x - y) = x - y + 2 ^ 32 * cbool (x <? u32 (x - y)).
Proof.
  intros Hx Hy. pose proof (u32_range (x - y)). pose proof (u32_unwrap (x - y)) as E.
  unfold cbool. destruct (Z.ltb_spec x (u32 (x - y))).
  - assert ((x - y) / 2 ^ 32 = -1) by lia. lia.
  - assert ((x - y) / 2 ^ 32 = 0) by lia. lia.
Qed.

Lemma adddi3_value a b : __adddi3 a b = i64 (a + b).
Proof.
  unfold __adddi3. pose proof (uiL_range a). pose proof (uiL_range b).
  pose proof (carry (uiL a) (uiL b)) as Hc. set (l := u32 _) in *.
  pose proof (u32_unwrap (uiH a + uiH b + cbool (l <? uiL b))) as Hh.
  apply (ll_value _ _ _ (- ((uiH a + uiH b + cbool (l <? uiL b)) / 2 ^ 32) - a / 2 ^ 64 - b / 2 ^ 64)).
  - apply u32_range.
  - pose proof (words a). pose proof (words b). lia.
Qed.

Lemma subdi3_value a b : __subdi3 a b = i64 (a - b).
Proof.
  unfold __subdi3. pose proof (uiL_range a). pose proof (uiL_range b).
  pose proof (borrow (uiL a) (uiL b)) as Hc. set (l := u32 _) in *.
  pose proof (u32_unwrap (uiH a - uiH b - cbool (uiL a <? l))) as Hh.
  apply (ll_value _ _ _ (- ((uiH a - uiH b - cbool (uiL a <? l)) / 2 ^ 32) - a / 2 ^ 64 + b / 2 ^ 64)).
  - apply u32_range.
  - pose proof (words a). pose proof (words b). lia.
Qed.

Lemma negdi2_value a : __negdi2 a = i64 (- a).
Proof.
  unfold __negdi2. pose proof (uiL_range a).
  pose proof (borrow 0 (uiL a)) as Hc. change (0 - uiL a) with (- uiL a) in Hc. set (l := u32 _) in *.
  pose proof (u32_unwrap (- uiH a - cbool (0 <? l))) as Hh.
  apply (ll_value _ _ _ (- ((- uiH a - cbool (0 <? l)) / 2 ^ 32) + a / 2 ^ 64)).
  - apply u32_range.
  - pose proof (words a). lia.
Qed.

(** Bits of the words. *)
Lemma testbit_uiL x n : 0 ≤ n < 32 → Z.testbit (uiL x) n = Z.testbit x n.
Proof. apply testbit_u32. Qed.
Lemma testbit_uiH x n : 0 ≤ n < 32 → Z.testbit (uiH x) n = Z.testbit x (n + 32).
Proof. intros. unfold uiH. rewrite Z.shiftr_spec, testbit_u64 by lia. done. Qed.

Lemma u64_i64 x : u64 (i64 x) = u64 x.
Proof.
  rewrite i64_unwrap. unfold u64. rewrite Zminus_mod, Z.mul_comm, Z_mod_mult, Z.sub_0_r.
  by rewrite Zmod_mod.
Qed.
Lemma i64_u64 x y : u64 x = u64 y → i64 x = i64 y.
Proof.
  intros E. unfold u64 in E. pose proof (Z_div_mod_eq_full x (2 ^ 64)).
  pose proof (Z_div_mod_eq_full y (2 ^ 64)).
  replace x with (y + (x / 2 ^ 64 - y / 2 ^ 64) * 2 ^ 64) by lia. apply i64_shift.
Qed.

(** Words given by the bits of [x] make [x]. *)
Lemma ll_bits h l x :
  0 ≤ l < 2 ^ 32 →
  (∀ n, 0 ≤ n < 32 → Z.testbit h n = Z.testbit x (n + 32)) →
  (∀ n, 0 ≤ n < 32 → Z.testbit l n = Z.testbit x n) →
  ll h l = i64 x.
Proof.
  intros Hl HH HL. apply i64_u64, (bits_eq 64); [lia|apply u64_range..|].
  intros n Hn. rewrite !testbit_u64 by done. unfold ull. rewrite Z.lor_spec.
  destruct (decide (n < 32)).
  - rewrite Z.shiftl_spec_low by done. apply HL. lia.
  - rewrite Z.shiftl_spec, HH by lia. rewrite Z.sub_add.
    assert (E : Z.testbit l n = false); [|by rewrite E, orb_false_r].
    rewrite <-(Z.mod_small l (2 ^ 32)) by done. by rewrite Z.mod_pow2_bits_high by lia.
Qed.

Lemma word_op_range f x y :
  (∀ n, Z.testbit (f x y) n = true → Z.testbit x n = true ∨ Z.testbit y n = true) →
  0 ≤ f x y → 0 ≤ x < 2 ^ 32 → 0 ≤ y < 2 ^ 32 → 0 ≤ f x y < 2 ^ 32.
Proof.
  intros Hf Hp Hx Hy. split; [done|].
  assert (E : f x y = f x y mod 2 ^ 32); [|rewrite E; apply Z.mod_pos_bound; lia].
  apply Z.bits_inj'. intros n Hn. destruct (decide (n < 32)).
  - by rewrite Z.mod_pow2_bits_low by lia.
  - rewrite Z.mod_pow2_bits_high by lia. apply not_true_is_false. intros [H|H]%Hf.
    + rewrite <-(Z.mod_small x (2 ^ 32)), Z.mod_pow2_bits_high in H by lia. done.
    + rewrite <-(Z.mod_small y (2 ^ 32)), Z.mod_pow2_bits_high in H by lia. done.
Qed.

Lemma anddi3_value a b : __anddi3 a b = i64 (Z.land a b).
Proof.
  apply ll_bits.
  - apply (word_op_range Z.land); [|by apply Z.land_nonneg; left; apply uiL_range|apply uiL_range..].
    intros n. rewrite Z.land_spec. by destruct (Z.testbit (uiL a) n); [left|].
  - intros n Hn. by rewrite !Z.land_spec, !testbit_uiH.
  - intros n Hn. by rewrite !Z.land_spec, !testbit_uiL.
Qed.
Lemma iordi3_value a b : __iordi3 a b = i64 (Z.lor a b).
Proof.
  apply ll_bits.
  - apply (word_op_range Z.lor); [|by apply Z.lor_nonneg; split; apply uiL_range|apply uiL_range..].
    intros n. rewrite Z.lor_spec. apply orb_true_iff.
  - intros n Hn. by rewrite !Z.lor_spec, !testbit_uiH.
  - intros n Hn. by rewrite !Z.lor_spec, !testbit_uiL.
Qed.
Lemma xordi3_value a b : __xordi3 a b = i64 (Z.lxor a b).
Proof.
  apply ll_bits.
  - apply (word_op_range Z.lxor); [|apply Z.lxor_nonneg; split; intros; apply uiL_range|apply uiL_range..].
    intros n. rewrite Z.lxor_spec. by destruct (Z.testbit (uiL a) n); [left|right].
  - intros n Hn. by rewrite !Z.lxor_spec, !testbit_uiH.
  - intros n Hn. by rewrite !Z.lxor_spec, !testbit_uiL.
Qed.
Lemma one_cmpldi2_value a : __one_cmpldi2 a = i64 (Z.lnot a).
Proof.
  unfold __one_cmpldi2. apply ll_bits; [apply u32_range|..]; intros n Hn.
  - rewrite (testbit_u32 (Z.lnot (uiH a))), (Z.lnot_spec (uiH a)), (Z.lnot_spec a) by lia.
    by rewrite testbit_uiH.
  - rewrite (testbit_u32 (Z.lnot (uiL a))), (Z.lnot_spec (uiL a)), (Z.lnot_spec a) by lia.
    by rewrite testbit_uiL.
Qed.

(** Shifts of words, bit by bit. *)
Lemma word_up x k n :
  0 ≤ k → 0 ≤ n < 32 → Z.testbit (u32 (Z.shiftl x k)) n = (k <=? n) && Z.testbit x (n - k).
Proof.
  intros. rewrite testbit_u32, Z.shiftl_spec by lia. destruct (Z.leb_spec k n); [done|].
  by rewrite Z.testbit_neg_r by lia.
Qed.
Lemma word_down x k n :
  0 ≤ x < 2 ^ 32 → 0 ≤ k → 0 ≤ n →
  Z.testbit (Z.shiftr x k) n = (n + k <? 32) && Z.testbit x (n + k).
Proof.
  intros. rewrite Z.shiftr_spec by lia. destruct (Z.ltb_spec (n + k) 32); [done|].
  rewrite <-(Z.mod_small x (2 ^ 32)) by done. by rewrite Z.mod_pow2_bits_high by lia.
Qed.
Lemma word_lor_range x y : 0 ≤ x < 2 ^ 32 → 0 ≤ y < 2 ^ 32 → 0 ≤ Z.lor x y < 2 ^ 32.
Proof.
  intros. apply (word_op_range Z.lor); [|apply Z.lor_nonneg; lia|done..].
  intros n. rewrite Z.lor_spec. apply orb_true_iff.
Qed.
Lemma word_down_range x k : 0 ≤ x < 2 ^ 32 → 0 ≤ k → 0 ≤ Z.shiftr x k < 2 ^ 32.
Proof.
  intros. rewrite Z.shiftr_div_pow2 by done. pose proof (Z.pow_pos_nonneg 2 k).
  split; [apply Z.div_pos; lia|]. apply Z.le_lt_trans with x; [|lia].
  apply Z.div_le_upper_bound; nia.
Qed.

Lemma ashldi3_value a s :
  - 2 ^ 63 ≤ a < 2 ^ 63 → 0 ≤ s < 64 → __ashldi3 a s = i64 (Z.shiftl a s).
Proof.
  intros Ha Hs. unfold __ashldi3, INT_BITS. pose proof (uiL_range a). pose proof (uiH_range a).
  destruct (Z.eqb_spec s 0) as [->|Hs0]; [by rewrite Z.shiftl_0_r, i64_small|].
  destruct (Z.leb_spec 32 s); apply ll_bits; intros; rewrite ?Z.shiftl_spec by lia.
  - lia.
  - rewrite word_up by lia. destruct (Z.leb_spec (s - 32) n); simpl.
    + rewrite testbit_uiL by lia. f_equal. lia.
    + by rewrite Z.testbit_neg_r by lia.
  - by rewrite Z.bits_0, Z.testbit_neg_r by lia.
  - apply u32_range.
  - rewrite Z.lor_spec, word_up, word_down by lia.
    destruct (Z.leb_spec s n), (Z.ltb_spec (n + (32 - s)) 32); try lia; simpl.
    + rewrite orb_false_r, testbit_uiH by lia. f_equal. lia.
    + rewrite testbit_uiL by lia. f_equal. lia.
  - rewrite word_up by lia. destruct (Z.leb_spec s n); simpl.
    + by rewrite testbit_uiL by lia.
    + by rewrite Z.testbit_neg_r by lia.
Qed.

Lemma lshldi3_value a s :
  - 2 ^ 63 ≤ a < 2 ^ 63 → 0 ≤ s < 64 → __lshldi3 a s = i64 (Z.shiftl a s).
Proof. apply ashldi3_value. Qed.

Lemma u64_bits x n : 0 ≤ n → Z.testbit (u64 x) n = (n <? 64) && Z.testbit x n.
Proof.
  intros. unfold u64. destruct (Z.ltb_spec n 64).
  - by rewrite Z.mod_pow2_bits_low by lia.
  - by rewrite Z.mod_pow2_bits_high by lia.
Qed.

Lemma lshrdi3_value a s :
  - 2 ^ 63 ≤ a < 2 ^ 63 → 0 ≤ s < 64 → __lshrdi3 a s = i64 (Z.shiftr (u64 a) s).
Proof.
  intros Ha Hs. unfold __lshrdi3, INT_BITS. pose proof (uiL_range a). pose proof (uiH_range a).
  destruct (Z.eqb_spec s 0) as [->|Hs0].
  { rewrite Z.shiftr_0_r, <-(i64_small a) at 1 by done. apply i64_u64. unfold u64. by rewrite Zmod_mod. }
  destruct (Z.leb_spec 32 s); apply ll_bits; intros; rewrite ?(Z.shiftr_spec (u64 a)), ?u64_bits by lia.
  - apply word_down_range; lia.
  - rewrite Z.bits_0. by destruct (Z.ltb_spec (n + 32 + s) 64); [lia|].
  - rewrite word_down by lia.
    destruct (Z.ltb_spec (n + (s - 32)) 32), (Z.ltb_spec (n + s) 64); try lia; simpl; try done.
    rewrite testbit_uiH by lia. f_equal. lia.
  - apply word_lor_range; [apply word_down_range; lia|apply u32_range].
  - rewrite word_down by lia.
    destruct (Z.ltb_spec (n + s) 32), (Z.ltb_spec (n + 32 + s) 64); try lia; simpl; try done.
    rewrite testbit_uiH by lia. f_equal. lia.
  - rewrite Z.lor_spec, word_up, word_down by lia.
    rewrite (proj2 (Z.ltb_lt (n + s) 64)) by lia.
    destruct (Z.leb_spec (32 - s) n), (Z.ltb_spec (n + s) 32); try lia; simpl.
    + rewrite testbit_uiH by lia. f_equal. lia.
    + by rewrite orb_false_r, testbit_uiL by lia.
Qed.

Lemma sign_bits a n : - 2 ^ 63 ≤ a < 2 ^ 63 → 63 ≤ n → Z.testbit a n = (a <? 0).
Proof.
  intros Ha Hn. destruct (Z.ltb_spec a 0).
  - destruct (decide (a = -1)) as [->|]; [by apply Z.bits_m1; lia|].
    apply Z.bits_above_log2_neg; [lia|]. apply Z.lt_le_trans with 63; [|done].
    apply Z.log2_lt_pow2; lia.
  - destruct (decide (a = 0)) as [->|]; [apply Z.bits_0|].
    apply Z.bits_above_log2; [lia|]. apply Z.lt_le_trans with 63; [|done]. apply Z.log2_lt_pow2; lia.
Qed.

Lemma siH_value a : - 2 ^ 63 ≤ a < 2 ^ 63 → siH a = Z.shiftr a 32.
Proof.
  intros Ha. unfold siH, i32. rewrite Z.shiftr_div_pow2 by done.
  pose proof (words a) as E. pose proof (uiL_range a). pose proof (uiH_range a).
  pose proof (Z_div_mod_eq_full a (2 ^ 32)). pose proof (Z.mod_pos_bound a (2 ^ 32) eq_refl).
  assert (a / 2 ^ 64 = 0 ∨ a / 2 ^ 64 = -1) as [Eq|Eq].
  { assert (-1 ≤ a / 2 ^ 64) by (apply Z.div_le_lower_bound; lia).
    assert (a / 2 ^ 64 < 1) by (apply Z.div_lt_upper_bound; lia). lia. }
  - assert (uiH a = a / 2 ^ 32) as -> by lia. rewrite Z.mod_small; lia.
  - assert (uiH a = a / 2 ^ 32 + 2 ^ 32) as -> by lia.
    replace (a / 2 ^ 32 + 2 ^ 32 + 2 ^ 31) with (a / 2 ^ 32 + 2 ^ 31 + 1 * 2 ^ 32) by lia.
    rewrite Z.mod_add, Z.mod_small by lia. lia.
Qed.

Lemma ashrdi3_value a s :
  - 2 ^ 63 ≤ a < 2 ^ 63 → 0 ≤ s < 64 → __ashrdi3 a s = Z.shiftr a s.
Proof.
  intros Ha Hs. rewrite <-(i64_small (Z.shiftr a s)).
  2:{ rewrite Z.shiftr_div_pow2 by lia. pose proof (Z.pow_pos_nonneg 2 s).
      split; [apply Z.div_le_lower_bound|apply Z.div_lt_upper_bound]; nia. }
  unfold __ashrdi3, INT_BITS. pose proof (uiL_range a). pose proof (uiH_range a).
  rewrite siH_value by done. destruct (Z.eqb_spec s 0) as [->|Hs0]; [by rewrite Z.shiftr_0_r, i64_small|].
  destruct (Z.leb_spec 32 s); apply ll_bits; intros; rewrite ?testbit_u32, ?Z.shiftr_spec by lia.
  - apply u32_range.
  - by rewrite !sign_bits by lia.
  - f_equal. lia.
  - apply word_lor_range; [apply word_down_range; lia|apply u32_range].
  - f_equal. lia.
  - rewrite Z.lor_spec, word_up, word_down by lia.
    destruct (Z.leb_spec (32 - s) n), (Z.ltb_spec (n + s) 32); try lia; simpl.
    + rewrite testbit_uiH by lia. f_equal. lia.
    + by rewrite orb_false_r, testbit_uiL by lia.
Qed.

(** The order of the words is that of the values. *)
Definition three_way (a b : Z) : Z := match a ?= b with Lt => 0 | Eq => 1 | Gt => 2 end.

Lemma lexicographic h h' l l' :
  0 ≤ l < 2 ^ 32 → 0 ≤ l' < 2 ^ 32 →
  (if h <? h' then 0 else if h' <? h then 2 else if l <? l' then 0 else if l' <? l then 2 else 1)
  = three_way (h * 2 ^ 32 + l) (h' * 2 ^ 32 + l').
Proof.
  intros. unfold three_way. destruct (Z.compare_spec (h * 2 ^ 32 + l) (h' * 2 ^ 32 + l')),
    (Z.ltb_spec h h'), (Z.ltb_spec h' h), (Z.ltb_spec l l'), (Z.ltb_spec l' l); (done || lia).
Qed.

Lemma ucmpdi2_value a b :
  0 ≤ a < 2 ^ 64 → 0 ≤ b < 2 ^ 64 → __ucmpdi2 a b = three_way a b.
Proof.
  intros. unfold __ucmpdi2. rewrite lexicographic by apply uiL_range. by rewrite !words_u64.
Qed.
Lemma cmpdi2_value a b :
  - 2 ^ 63 ≤ a < 2 ^ 63 → - 2 ^ 63 ≤ b < 2 ^ 63 → __cmpdi2 a b = three_way a b.
Proof.
  intros. unfold __cmpdi2. rewrite lexicographic, !siH_value, !Z.shiftr_div_pow2 by (done || apply uiL_range).
  unfold uiL, u32. by rewrite !(Z.mul_comm (_ / _)), <-!Z_div_mod_eq_full.
Qed.
End Words.

Section Multiplication.
Lemma halves x : 0 ≤ x < 2 ^ 32 →
  x = HHALF x * 2 ^ 16 + LHALF x ∧ 0 ≤ HHALF x < 2 ^ 16 ∧ 0 ≤ LHALF x < 2 ^ 16.
Proof.
  intros Hx. unfold HHALF, LHALF, HALF_BITS. rewrite u32_small, Z.shiftr_div_pow2 by done.
  change (Z.shiftl 1 16 - 1) with (Z.ones 16). rewrite Z.land_ones by done.
  pose proof (Z_div_mod_eq_full x (2 ^ 16)). pose proof (Z.mod_pos_bound x (2 ^ 16) eq_refl). lia.
Qed.
Lemma halves_up x : 0 ≤ x < 2 ^ 32 →
  x * 2 ^ 16 = HHALF x * 2 ^ 32 + LHUP x ∧ 0 ≤ LHUP x < 2 ^ 32.
Proof.
  intros Hx. destruct (halves x Hx) as (E & Hh & Hl). unfold LHUP, HALF_BITS.
  rewrite (u32_small x), Z.shiftl_mul_pow2 by done. split; [|apply u32_range].
  replace (x * 2 ^ 16) with (LHALF x * 2 ^ 16 + HHALF x * 2 ^ 32) by lia.
  unfold u32. rewrite Z.mod_add, Z.mod_small by lia. lia.
Qed.

(** Two words as a number modulo 2^64. *)
Definition pair_is (h l x : Z) : Prop := 0 ≤ l < 2 ^ 32 ∧ ∃ k, h * 2 ^ 32 + l = x + k * 2 ^ 64.

Lemma pair_add h l x hh ll y :
  pair_is h l x → 0 ≤ ll < 2 ^ 32 → hh * 2 ^ 32 + ll = y →
  pair_is (u32 (h + u32 (hh + cbool (u32 (l + ll) <? l)))) (u32 (l + ll)) (x + y).
Proof.
  intros (Hl & k & E) Hll Ey. split; [apply u32_range|].
  pose proof (carry ll l Hll Hl) as Hc. rewrite (Z.add_comm ll l) in Hc.
  set (c := cbool _) in *.
  exists (k - (hh + c) / 2 ^ 32 - (h + u32 (hh + c)) / 2 ^ 32).
  pose proof (u32_unwrap (hh + c)). pose proof (u32_unwrap (h + u32 (hh + c))). lia.
Qed.
Lemma pair_sub h l x hh ll y :
  pair_is h l x → 0 ≤ ll < 2 ^ 32 → hh * 2 ^ 32 + ll = y →
  pair_is (u32 (h - u32 (hh + cbool (l <? u32 (l - ll))))) (u32 (l - ll)) (x - y).
Proof.
  intros (Hl & k & E) Hll Ey. split; [apply u32_range|].
  pose proof (borrow l ll Hl Hll) as Hc. set (c := cbool _) in *.
  exists (k + (hh + c) / 2 ^ 32 - (h - u32 (hh + c)) / 2 ^ 32).
  pose proof (u32_unwrap (hh + c)). pose proof (u32_unwrap (h - u32 (hh + c))). lia.
Qed.

Lemma pair_ll h l x : pair_is h l x → ll h l = i64 x.
Proof. intros (Hl & k & E). by eapply ll_value. Qed.

(** The difference of two 16-bit halves with its sign. *)
Lemma half_diff w x y :
  w ≤ 32 → 0 ≤ x < 2 ^ w → 0 ≤ y < 2 ^ w →
  let '(d, neg) := if y <=? x then (u32 (x - y), false) else (u32 (y - x), true) in
  0 ≤ d < 2 ^ w ∧ x - y = (if neg : bool then - d else d).
Proof.
  intros Hw Hx Hy. assert (2 ^ w ≤ 2 ^ 32) by (apply Z.pow_le_mono_r; lia).
  destruct (Z.leb_spec y x); rewrite u32_small by lia; lia.
Qed.

Lemma mul_tail prodh prodl x low :
  pair_is prodh prodl x → 0 ≤ low < 2 ^ 32 →
  let l := u32 (prodl + LHUP low) in
  let h := u32 (prodh + u32 (HHALF low + cbool (l <? prodl))) in
  ll (if u32 (l + low) <? low then u32 (h + 1) else h) (u32 (l + low)) = i64 (x + low * 2 ^ 16 + low).
Proof.
  intros Hp Hlow l h. destruct (halves_up low Hlow) as [E Hup].
  destruct (pair_add _ _ _ _ _ _ Hp Hup (eq_sym E)) as (Hl & k & Eh). fold l in Hl, Eh. fold h in Eh.
  pose proof (carry l low Hl Hlow) as Hc. unfold cbool in Hc. destruct (u32 (l + low) <? low).
  - apply (ll_value _ _ _ (k - (h + 1) / 2 ^ 32)); [apply u32_range|]. pose proof (u32_unwrap (h + 1)). lia.
  - apply (ll_value _ _ _ k); [apply u32_range|]. lia.
Qed.

Lemma mul_head high :
  0 ≤ high < 2 ^ 32 → pair_is (u32 (high + HHALF high)) (LHUP high) (high * 2 ^ 32 + high * 2 ^ 16).
Proof.
  intros Hh. destruct (halves_up high Hh) as [E Hup]. split; [done|].
  exists (- ((high + HHALF high) / 2 ^ 32)). pose proof (u32_unwrap (high + HHALF high)). lia.
Qed.

Lemma lmulq_value u v :
  0 ≤ u < 2 ^ 32 → 0 ≤ v < 2 ^ 32 → __lmulq u v = i64 (u * v).
Proof.
  intros Hu Hv. unfold __lmulq.
  destruct (halves u Hu) as (Eu & Hu1 & Hu0). destruct (halves v Hv) as (Ev & Hv1 & Hv0).
  set (u1 := HHALF u) in *. set (u0 := LHALF u) in *. set (v1 := HHALF v) in *. set (v0 := LHALF v) in *.
  rewrite (u32_small (u0 * v0)) by nia. cbv zeta.
  destruct ((u1 =? 0) && (v1 =? 0)) eqn:Ez.
  { apply andb_true_iff in Ez as [E1%Z.eqb_eq E2%Z.eqb_eq]. rewrite Eu, Ev, i64_small by nia. nia. }
  rewrite (u32_small (u1 * v1)) by nia.
  pose proof (half_diff 16 u1 u0 ltac:(lia) Hu1 Hu0) as Hd.
  destruct (if u0 <=? u1 then _ else _) as [udiff neg]. destruct Hd as [Hud Ed].
  pose proof (half_diff 16 v0 v1 ltac:(lia) Hv0 Hv1) as Hd.
  assert (Hvd : ∃ vdiff neg', (if v1 <=? v0 then (u32 (v0 - v1), neg) else (u32 (v1 - v0), negb neg)) = (vdiff, neg') ∧
    0 ≤ vdiff < 2 ^ 16 ∧ (u1 - u0) * (v0 - v1) = (if neg' : bool then - (udiff * vdiff) else udiff * vdiff)).
  { destruct (v1 <=? v0), Hd as [Hvd Ed2]; generalize dependent (u32 (v0 - v1));
      generalize dependent (u32 (v1 - v0)); intros; eexists _, _;
      (split; [reflexivity|]; split; [eassumption|]); rewrite Ed2, Ed; destruct neg; simpl; ring. }
  destruct Hvd as (vdiff & neg' & -> & Hvd & Emid).
  rewrite (u32_small (udiff * vdiff)) by nia.
  assert (Hhigh : 0 ≤ u1 * v1 < 2 ^ 32) by nia. assert (Hmid : 0 ≤ udiff * vdiff < 2 ^ 32) by nia.
  assert (Hlow : 0 ≤ u0 * v0 < 2 ^ 32) by nia. destruct (halves_up _ Hmid) as [Em Hmup].
  assert (E : u * v = u1 * v1 * 2 ^ 32 + u1 * v1 * 2 ^ 16 + (u1 - u0) * (v0 - v1) * 2 ^ 16
                      + u0 * v0 * 2 ^ 16 + u0 * v0) by (rewrite Eu, Ev; ring).
  rewrite E, Emid. destruct neg'; cbv beta iota.
  - rewrite (mul_tail _ _ _ _ (pair_sub _ _ _ _ _ _ (mul_head _ Hhigh) Hmup (eq_sym Em)) Hlow).
    apply f_equal. ring.
  - rewrite (mul_tail _ _ _ _ (pair_add _ _ _ _ _ _ (mul_head _ Hhigh) Hmup (eq_sym Em)) Hlow).
    apply f_equal. ring.
Qed.
End Multiplication.

Section SignedProduct.
Lemma i64_neg x : i64 (- i64 x) = i64 (- x).
Proof. rewrite (i64_unwrap x). replace (- _) with (- x + ((x + 2 ^ 63) / 2 ^ 64) * 2 ^ 64) by lia. apply i64_shift. Qed.

Lemma words_i64 x : uiH (i64 x) = uiH x ∧ uiL (i64 x) = uiL x.
Proof.
  unfold uiH. rewrite u64_i64. split; [done|]. rewrite i64_unwrap. unfold uiL, u32.
  rewrite Zminus_mod, (Z.mul_comm (2 ^ 64)), <-(Zmod_mod (_ * _)).
  replace ((x + 2 ^ 63) / 2 ^ 64 * 2 ^ 64) with ((x + 2 ^ 63) / 2 ^ 64 * 2 ^ 32 * 2 ^ 32) by lia.
  by rewrite Z_mod_mult, Z.mod_0_l, Z.sub_0_r, Zmod_mod by lia.
Qed.

(** The product of magnitudes below 2^64, from the three partial products. *)
Lemma product_words u v udiff vdiff neg :
  0 ≤ u < 2 ^ 64 → 0 ≤ v < 2 ^ 64 →
  (uiH u - uiL u) * (uiL v - uiH v) = (if neg : bool then - (udiff * vdiff) else udiff * vdiff) →
  let low := __lmulq (uiL u) (uiL v) in
  let mid := u32 (udiff * vdiff) in
  ll (u32 (u32 (uiH u * uiH v) + (if neg then u32 (- mid) else mid) + uiL low + uiH low)) (uiL low)
  = i64 (u * v).
Proof.
  intros Hu Hv Emid low mid. pose proof (words_u64 u Hu) as Eu. pose proof (words_u64 v Hv) as Ev.
  unfold low. rewrite lmulq_value by apply uiL_range. set (p := uiL u * uiL v).
  destruct (words_i64 p) as [-> ->]. pose proof (words p) as Ep.
  assert (E : u * v = uiH u * uiH v * 2 ^ 64 + uiH u * uiH v * 2 ^ 32
     + (uiH u - uiL u) * (uiL v - uiH v) * 2 ^ 32 + p * 2 ^ 32 + p).
  { transitivity ((uiH u * 2 ^ 32 + uiL u) * (uiH v * 2 ^ 32 + uiL v)); [by rewrite Eu, Ev|].
    unfold p. ring. }
  rewrite E, Emid. set (hi := uiH u * uiH v) in *. unfold mid. set (md := udiff * vdiff) in *.
  pose proof (u32_unwrap hi). pose proof (u32_unwrap md). pose proof (u32_unwrap (- u32 md)).
  destruct neg.
  - set (s := u32 hi + _ + _ + _). pose proof (u32_unwrap s).
    apply (ll_value _ _ _ (- (s / 2 ^ 32) - (p / 2 ^ 64) - hi - hi / 2 ^ 32 + md / 2 ^ 32
      - (- u32 md) / 2 ^ 32 - uiH p - 2 ^ 32 * (p / 2 ^ 64))); [apply uiL_range|]. lia.
  - set (s := u32 hi + _ + _ + _). pose proof (u32_unwrap s).
    apply (ll_value _ _ _ (- (s / 2 ^ 32) - (p / 2 ^ 64) - hi - hi / 2 ^ 32 - md / 2 ^ 32
      - uiH p - 2 ^ 32 * (p / 2 ^ 64))); [apply uiL_range|]. lia.
Qed.

Lemma muldi3_value a b :
  - 2 ^ 63 ≤ a < 2 ^ 63 → - 2 ^ 63 ≤ b < 2 ^ 63 → __muldi3 a b = i64 (a * b).
Proof.
  intros Ha Hb. unfold __muldi3.
  destruct (if 0 <=? a then (a, false) else (- a, true)) as [u na] eqn:Eu0.
  assert (Hu : 0 ≤ u < 2 ^ 64 ∧ a = if na then - u else u) by (destruct (Z.leb_spec 0 a); simplify_eq; lia).
  clear Eu0. destruct Hu as [Hu Eu].
  destruct (if 0 <=? b then (b, na) else (- b, negb na)) as [v nb] eqn:Ev0.
  assert (Hv : 0 ≤ v < 2 ^ 64 ∧ a * b = if nb then - (u * v) else u * v)
    by (rewrite Eu; destruct (Z.leb_spec 0 b); injection Ev0 as <- <-; (split; [lia|destruct na; simpl; ring])).
  clear Ev0. destruct Hv as [Hv Ev].
  match goal with |- context [if nb then i64 (- ?p) else ?p] => assert (Hp : p = i64 (u * v)) end.
  - destruct ((uiH u =? 0) && (uiH v =? 0)) eqn:Ez.
    { apply andb_true_iff in Ez as [E1%Z.eqb_eq E2%Z.eqb_eq].
      rewrite lmulq_value by apply uiL_range. pose proof (words_u64 u Hu). pose proof (words_u64 v Hv).
      do 2 f_equal; lia. }
    pose proof (half_diff 32 (uiH u) (uiL u) ltac:(lia) (uiH_range u) (uiL_range u)) as Hd.
    destruct (if uiL u <=? uiH u then _ else _) as [udiff neg]. destruct Hd as [_ Ed].
    pose proof (half_diff 32 (uiL v) (uiH v) ltac:(lia) (uiL_range v) (uiH_range v)) as Hd.
    destruct (uiH v <=? uiL v); destruct Hd as [_ Ed2];
      cbv beta iota; apply (product_words _ _ _ _ _ Hu Hv); rewrite Ed, Ed2 at 1; destruct neg; simpl; ring.
  - rewrite Hp, Ev. destruct nb; [apply i64_neg|done].
Qed.
End SignedProduct.

(** ** The component's theorem *)

(** The 64-bit operations made from words are those of the integers modulo
    2^64, in the signed range: sums, differences, negation and products wrap,
    the logical operations work bit by bit, the shifts by 0 to 63 bits are
    left, arithmetic right and logical right ones, and the comparisons return
    0, 1 or 2 for less, equal or greater. *)
Theorem longlong_arithmetic a b s :
  - 2 ^ 63 ≤ a < 2 ^ 63 → - 2 ^ 63 ≤ b < 2 ^ 63 → 0 ≤ s < 64 →
  __adddi3 a b = i64 (a + b) ∧ __subdi3 a b = i64 (a - b) ∧ __negdi2 a = i64 (- a) ∧
  __muldi3 a b = i64 (a * b) ∧
  __anddi3 a b = i64 (Z.land a b) ∧ __iordi3 a b = i64 (Z.lor a b) ∧ __xordi3 a b = i64 (Z.lxor a b) ∧
  __one_cmpldi2 a = i64 (Z.lnot a) ∧
  __ashldi3 a s = i64 (Z.shiftl a s) ∧ __lshldi3 a s = i64 (Z.shiftl a s) ∧
  __ashrdi3 a s = Z.shiftr a s ∧ __lshrdi3 a s = i64 (Z.shiftr (u64 a) s) ∧
  __cmpdi2 a b = three_way a b ∧ __ucmpdi2 (u64 a) (u64 b) = three_way (u64 a) (u64 b).
Proof.
  intros Ha Hb Hs. split_and!.
  - apply adddi3_value.
  - apply subdi3_value.
  - apply negdi2_value.
  - by apply muldi3_value.
  - apply anddi3_value.
  - apply iordi3_value.
  - apply xordi3_value.
  - apply one_cmpldi2_value.
  - by apply ashldi3_value.
  - by apply lshldi3_value.
  - by apply ashrdi3_value.
  - by apply lshrdi3_value.
  - by apply cmpdi2_value.
  - apply ucmpdi2_value; apply u64_range.
Qed.

Lemma longlong_arithmetic_witness :
  __muldi3 (2 ^ 62 + 1) (-2) = - 2 ^ 63 - 2 + 2 ^ 64 ∧ __cmpdi2 (-1) 0 = 0 ∧ __ashrdi3 (-8) 1 = -4.
Proof.
  destruct (longlong_arithmetic (2 ^ 62 + 1) (-2) 1) as (_ & _ & _ & H & _); try lia.
  destruct (longlong_arithmetic (-1) 0 1) as (_ & _ & _ & _ & _ & _ & _ & _ & _ & _ & _ & _ & H1 & _); try lia.
  destruct (longlong_arithmetic (-8) 0 1) as (_ & _ & _ & _ & _ & _ & _ & _ & _ & _ & H2 & _); try lia.
  split; [exact H|]. split; [exact H1|exact H2].
Defined.
