(* ===== verification/Qdivrem.v ===== *)
(** * 64-bit division (common/gcc-millicode/qdivrem.c and its callers)

    [__qdivrem] is Knuth's algorithm D in base 2^16.  The digit arrays are
    lists of cells, [None] before the first write; the pointers [u], [v] and
    [q] the code moves are offsets into them.  [None] as a result is an
    undefined access, a division by zero, or a loop that has used its fuel. *)

From stdpp Require Import base numbers list option.
From Stdlib Require Import ZArith Lia.
From S2P Require Import Prelude Millicode.

Open Scope Z_scope.

(** ** Model *)

Definition B : Z := Z.shiftl 1 HALF_BITS.
Definition COMBINE (a b : Z) : Z := Z.lor (u32 (Z.shiftl a HALF_BITS)) b.

Notation digits := (list (option Z)).
Definition getd (a : digits) (i : Z) : option Z :=
  if 0 <=? i then mjoin (a !! Z.to_nat i) else None.
Definition setd (a : digits) (i x : Z) : option digits :=
  if (0 <=? i) && (i <? Z.of_nat (length a)) then Some (<[Z.to_nat i := Some x]> a) else None.

(** [p] points at [a[o]]. *)
Fixpoint shl_digits (ixs : list Z) (o sh : Z) (a : digits) : option digits :=
  match ixs with
  | [] => Some a
  | i :: ixs =>
      x ← getd a (o + i);
      y ← getd a (o + i + 1);
      a ← setd a (o + i) (Z.lor (LHALF (Z.shiftl x sh)) (Z.shiftr y (HALF_BITS - sh)));
      shl_digits ixs o sh a
  end.
Definition shl (a : digits) (o len sh : Z) : option digits :=
  a ← shl_digits (seqZ 0 len) o sh a;
  x ← getd a (o + len);
  setd a (o + len) (LHALF (Z.shiftl x sh)).

(** [for (n = 4; v[1] == 0; v++)] up to [--n == 1]: the offset of [v] and [n],
    or [n = 1] with the one digit at [v[2]]. *)
Fixpoint skip_v (fuel : nat) (v : digits) (vo n : Z) : option (Z * Z) :=
  match fuel with
  | O => None
  | S fuel =>
      x ← getd v (vo + 1);
      if x =? 0 then
        let n := n - 1 in
        if n =? 1 then Some (vo, n) else skip_v fuel v (vo + 1) n
      else Some (vo, n)
  end.

(** [for (m = 4 - n; u[1] == 0; u++) m--]. *)
Fixpoint skip_u (fuel : nat) (u : digits) (uo m : Z) : option (Z * Z) :=
  match fuel with
  | O => None
  | S fuel =>
      x ← getd u (uo + 1);
      if x =? 0 then skip_u fuel u (uo + 1) (m - 1) else Some (uo, m)
  end.

(** [for (i = 4 - m; --i >= 0;) q[i] = 0]. *)
Fixpoint zero_q (i : nat) (q : digits) : option digits :=
  match i with
  | O => Some q
  | S i => q ← setd q (Z.of_nat i) 0; zero_q i q
  end.

(** [for (t = v[1]; t < B / 2; t <<= 1) d++]. *)
Fixpoint count_shift (fuel : nat) (t d : Z) : option Z :=
  if t <? B / 2 then
    match fuel with
    | O => None
    | S fuel => count_shift fuel (u32 (Z.shiftl t 1)) (d + 1)
    end
  else Some d.

(** D3, from the label [qhat_too_big] on. *)
Fixpoint qhat_too_big (fuel : nat) (qhat rhat v1 v2 uj2 : Z) : option Z :=
  match fuel with
  | O => None
  | S fuel =>
      let qhat := u32 (qhat - 1) in
      let rhat := u32 (rhat + v1) in
      if B <=? rhat then Some qhat
      else if COMBINE rhat uj2 <? u32 (v2 * qhat) then qhat_too_big fuel qhat rhat v1 v2 uj2
      else Some qhat
  end.

Definition estimate (uj0 uj1 uj2 v1 v2 : Z) : option Z :=
  if uj0 =? v1 then qhat_too_big 3 B uj1 v1 v2 uj2
  else
    let nn := COMBINE uj0 uj1 in
    let qhat := nn / v1 in
    let rhat := nn mod v1 in
    if COMBINE rhat uj2 <? u32 (v2 * qhat) then qhat_too_big 3 qhat rhat v1 v2 uj2
    else Some qhat.

(** D4: [i] runs from [n] down to 1; [uj] is the offset of [u[j]]. *)
Fixpoint mult_sub (i : nat) (uj vo qhat t : Z) (u v : digits) : option (Z * digits) :=
  match i with
  | O => Some (t, u)
  | S i' =>
      ui ← getd u (uj + Z.of_nat i);
      vi ← getd v (vo + Z.of_nat i);
      let t := u32 (u32 (ui - u32 (vi * qhat)) - t) in
      u ← setd u (uj + Z.of_nat i) (LHALF t);
      mult_sub i' uj vo qhat (Z.land (u32 (B - HHALF t)) (B - 1)) u v
  end.

(** D6. *)
Fixpoint add_back (i : nat) (uj vo t : Z) (u v : digits) : option (Z * digits) :=
  match i with
  | O => Some (t, u)
  | S i' =>
      ui ← getd u (uj + Z.of_nat i);
      vi ← getd v (vo + Z.of_nat i);
      let t := u32 (t + (ui + vi)) in
      u ← setd u (uj + Z.of_nat i) (LHALF t);
      add_back i' uj vo (HHALF t) u v
  end.

(** D4 to D6: the digit and what is left. *)
Definition finish_step (n : nat) (uj vo qhat : Z) (u v : digits) : option (Z * digits) :=
  '(t, u) ← mult_sub n uj vo qhat 0 u v;
  x ← getd u uj;
  let t := u32 (x - t) in
  u ← setd u uj (LHALF t);
  if HHALF t =? 0 then Some (qhat, u)
  else '(t, u) ← add_back n uj vo 0 u v;
       x ← getd u uj;
       u ← setd u uj (LHALF (x + t));
       Some (u32 (qhat - 1), u).

(** D3 to D7 for one [j]. *)
Definition divide_step (n : nat) (uo vo qo v1 v2 j : Z) (v : digits) (uq : digits * digits) :
    option (digits * digits) :=
  let '(u, q) := uq in
  uj0 ← getd u (uo + j);
  uj1 ← getd u (uo + j + 1);
  uj2 ← getd u (uo + j + 2);
  qhat ← estimate uj0 uj1 uj2 v1 v2;
  '(qhat, u) ← finish_step n (uo + j) vo qhat u v;
  q ← setd q (qo + j) (u16 qhat);
  Some (u, q).

Fixpoint divide_loop (n : nat) (uo vo qo v1 v2 : Z) (js : list Z) (v : digits) (uq : digits * digits) :
    option (digits * digits) :=
  match js with
  | [] => Some uq
  | j :: js =>
      uq ← divide_step n uo vo qo v1 v2 j v uq;
      divide_loop n uo vo qo v1 v2 js v uq
  end.

(** [for (i = m + n; i > m; --i)]: the digits of the remainder, shifted back. *)
Fixpoint unshift (k : nat) (uo m d : Z) (u : digits) : option digits :=
  match k with
  | O => Some u
  | S k' =>
      let i := m + Z.of_nat k in
      x ← getd u (uo + i);
      y ← getd u (uo + i - 1);
      u ← setd u (uo + i)
            (Z.lor (Z.shiftr x d) (LHALF (u32 (Z.shiftl y (HALF_BITS - d)))));
      unshift k' uo m d u
  end.

(** [COMBINE] of digits 1 to 4 into a [long long]. *)
Definition assemble (a : digits) : option Z :=
  d1 ← getd a 1; d2 ← getd a 2; d3 ← getd a 3; d4 ← getd a 4;
  Some (ull (COMBINE d1 d2) (COMBINE d3 d4)).

(** [n == 1]: the digits divided by the one digit at [v[2]]. *)
Definition short_division (u v : digits) (vo : Z) (arq : bool) : option (Z * option Z) :=
  t ← getd v (vo + 2);
  u1 ← getd u 1; u2 ← getd u 2; u3 ← getd u 3; u4 ← getd u 4;
  let q1 := u16 (u1 / t) in
  let rbj := COMBINE (u1 mod t) u2 in
  let q2 := u16 (rbj / t) in
  let rbj := COMBINE (rbj mod t) u3 in
  let q3 := u16 (rbj / t) in
  let rbj := COMBINE (rbj mod t) u4 in
  let q4 := u16 (rbj / t) in
  Some (ull (COMBINE q1 q2) (COMBINE q3 q4), if arq then Some (rbj mod t) else None).

(** From the search for [m] to the end. *)
Definition long_division (u v : digits) (vo n : Z) (arq : bool) : option (Z * option Z) :=
  '(uo, m) ← skip_u 4 u 0 (4 - n);
  q ← zero_q (Z.to_nat (4 - m)) [None; None; None; None; None];
  let qo := 4 - m in
  v1 ← getd v (vo + 1);
  d ← count_shift 16 v1 0;
  u ← (if 0 <? d then shl u uo (m + n) d else Some u);
  v ← (if 0 <? d then shl v (vo + 1) (n - 1) d else Some v);
  v1 ← getd v (vo + 1);
  v2 ← getd v (vo + 2);
  '(u, q) ← divide_loop (Z.to_nat n) uo vo qo v1 v2 (seqZ 0 (m + 1)) v (u, q);
  r ← (if arq then
         u ← (if d =? 0 then Some u
              else u ← unshift (Z.to_nat n) uo m d u; setd u (uo + m) 0);
         r ← assemble u; Some (Some r)
       else Some None);
  quot ← assemble q;
  Some (quot, r).

(** The quotient and, when the caller asks for it, the remainder. *)
Definition __qdivrem (ull0 vll : Z) (arq : bool) : option (Z * option Z) :=
  if vll =? 0 then None
  else if ull0 <? vll then Some (0, if arq then Some ull0 else None)
  else
    let u := [Some 0; Some (u16 (HHALF (uiH ull0))); Some (u16 (LHALF (uiH ull0)));
                      Some (u16 (HHALF (uiL ull0))); Some (u16 (LHALF (uiL ull0)))] in
    let v := [None; Some (u16 (HHALF (uiH vll))); Some (u16 (LHALF (uiH vll)));
                    Some (u16 (HHALF (uiL vll))); Some (u16 (LHALF (uiL vll)))] in
    '(vo, n) ← skip_v 4 v 0 4;
    if n =? 1 then short_division u v vo arq else long_division u v vo n arq.

Definition __udivdi3 (a b : Z) : option Z := r ← __qdivrem a b false; Some r.1.
Definition __umoddi3 (a b : Z) : option Z := r ← __qdivrem a b true; r.2.

Definition __divdi3 (a b : Z) : option Z :=
  let '(ua, neg) := if a <? 0 then (u64 (- u64 a), true) else (u64 a, false) in
  let '(ub, neg) := if b <? 0 then (u64 (- u64 b), negb neg) else (u64 b, neg) in
  r ← __qdivrem ua ub false;
  Some (i64 (if (neg : bool) then u64 (- r.1) else r.1)).

Definition __moddi3 (a b : Z) : option Z :=
  let '(ua, neg) := if a <? 0 then (u64 (- u64 a), true) else (u64 a, false) in
  let ub := if b <? 0 then u64 (- u64 b) else u64 b in
  r ← __qdivrem ua ub true;
  ur ← r.2;
  Some (i64 (if (neg : bool) then u64 (- ur) else ur)).

(** ** Digit arrays in proofs

    [holds a f lo hi]: the cells from [lo] to [hi - 1] of the five have been
    written and hold the digits of [f]. *)

Lemma B_val : B = 65536.
Proof. reflexivity. Qed.
#[local] Opaque B.

Definition upd (f : Z → Z) (i x : Z) : Z → Z := λ k, if k =? i then x else f k.

Definition holds (a : digits) (f : Z → Z) (lo hi : Z) : Prop :=
  length a = 5%nat ∧ 0 ≤ lo ∧ hi ≤ 5 ∧
  ∀ i, lo ≤ i < hi → a !! Z.to_nat i = Some (Some (f i)) ∧ 0 ≤ f i < B.

(** The value of the [k] digits after position [o]. *)
Fixpoint pv (f : Z → Z) (o : Z) (k : nat) : Z :=
  match k with
  | O => 0
  | S k' => pv f o k' * B + f (o + Z.of_nat k)
  end.

Section Digits.
Implicit Types (a : digits) (f : Z → Z).

Lemma getd_holds a f lo hi i : holds a f lo hi → lo ≤ i < hi → getd a i = Some (f i) ∧ 0 ≤ f i < B.
Proof.
  intros (_ & Hlo & _ & Ha) Hi. destruct (Ha i Hi) as [E Hf]. unfold getd.
  rewrite (proj2 (Z.leb_le 0 i)), E by lia. done.
Qed.

Lemma setd_holds a f lo hi i x :
  holds a f lo hi → lo ≤ i < hi → 0 ≤ x < B →
  ∃ a', setd a i x = Some a' ∧ holds a' (upd f i x) lo hi.
Proof.
  intros (Hlen & Hlo & Hhi & Ha) Hi Hx. unfold setd.
  rewrite (proj2 (Z.leb_le 0 i)), (proj2 (Z.ltb_lt i _)) by lia. eexists. split; [done|].
  split_and!; [by rewrite length_insert|done..|]. intros k Hk. unfold upd.
  destruct (Z.eqb_spec k i) as [->|Hne].
  - by rewrite list_lookup_insert_eq by lia.
  - rewrite list_lookup_insert_ne by lia. by apply Ha.
Qed.

Lemma pv_ext f g o k : (∀ i, o < i ≤ o + Z.of_nat k → f i = g i) → pv f o k = pv g o k.
Proof.
  induction k as [|k IH]; intros H; [done|]. cbn [pv]. rewrite IH, H; [done|lia|].
  intros i Hi. apply H. lia.
Qed.

Lemma upd_eq f i x : upd f i x i = x.
Proof. unfold upd. by rewrite Z.eqb_refl. Qed.
Lemma upd_ne f i x k : k ≠ i → upd f i x k = f k.
Proof. intros. unfold upd. by rewrite (proj2 (Z.eqb_neq k i)). Qed.
Lemma pv_upd f i x o k : i ≤ o ∨ o + Z.of_nat k < i → pv (upd f i x) o k = pv f o k.
Proof. intros. apply pv_ext. intros. apply upd_ne. lia. Qed.

Lemma pv_bound f o k :
  (∀ i, o < i ≤ o + Z.of_nat k → 0 ≤ f i < B) → 0 ≤ pv f o k < B ^ Z.of_nat k.
Proof.
  rewrite B_val. induction k as [|k IH]; intros H; [done|]. cbn [pv]. rewrite B_val.
  pose proof (H (o + Z.of_nat (S k)) ltac:(lia)) as Hd. rewrite Nat2Z.inj_succ in Hd. destruct IH as [IH1 IH2]; [intros; apply H; lia|].
  rewrite Nat2Z.inj_succ, Z.pow_succ_r by lia. lia.
Qed.

Lemma pv_app f o j k : pv f o (j + k) = pv f o j * B ^ Z.of_nat k + pv f (o + Z.of_nat j) k.
Proof.
  induction k as [|k IH].
  - rewrite Nat.add_0_r. cbn [pv]. rewrite Z.pow_0_r. lia.
  - rewrite Nat.add_succ_r. cbn [pv]. rewrite IH, (Nat2Z.inj_succ k), Z.pow_succ_r by lia.
    replace (o + Z.of_nat (S (j + k))) with (o + Z.of_nat j + Z.succ (Z.of_nat k)) by lia. ring.
Qed.

Lemma pv_cons f o k : pv f o (S k) = f (o + 1) * B ^ Z.of_nat k + pv f (o + 1) k.
Proof. change (S k) with (1 + k)%nat. rewrite (pv_app f o 1 k). cbn [pv]. by rewrite Z.mul_0_l, Z.add_0_l. Qed.

Lemma Bpow_pos k : 0 < B ^ Z.of_nat k.
Proof. rewrite B_val. apply Z.pow_pos_nonneg; lia. Qed.

(** ** Halves *)

Lemma COMBINE_sum x y : 0 ≤ x < B → 0 ≤ y < B → COMBINE x y = x * B + y.
Proof.
  rewrite B_val. intros. unfold COMBINE, HALF_BITS.
  rewrite u32_small by (rewrite Z.shiftl_mul_pow2; lia). by rewrite lor_fields.
Qed.

Lemma LHALF_mod x : LHALF x = x mod B.
Proof.
  rewrite B_val. unfold LHALF, HALF_BITS. change (Z.shiftl 1 16 - 1) with (Z.ones 16).
  rewrite Z.land_ones by done. unfold u32. rewrite <-Znumtheory.Zmod_div_mod; [done|lia..|].
  by exists 65536.
Qed.
Lemma LHALF_range x : 0 ≤ LHALF x < B.
Proof. rewrite LHALF_mod, B_val. apply Z.mod_pos_bound. lia. Qed.
Lemma HHALF_div x : 0 ≤ x < B * B → HHALF x = x / B.
Proof.
  rewrite B_val. intros. unfold HHALF, HALF_BITS. by rewrite u32_small, Z.shiftr_div_pow2 by lia.
Qed.

(** One digit of D4: the digit left and the borrow. *)
Lemma sub_digit x y t :
  0 ≤ x < B → 0 ≤ y ≤ (B - 1) * (B - 1) → 0 ≤ t < B →
  let s := u32 (u32 (x - u32 y) - t) in
  let t' := Z.land (u32 (B - HHALF s)) (B - 1) in
  LHALF s - t' * B = x - y - t ∧ 0 ≤ t' < B.
Proof.
  rewrite B_val. intros Hx Hy Ht s t'. rewrite <-B_val.
  assert (Es : s = (x - y - t) mod 2 ^ 32).
  { unfold s, u32. by rewrite Zminus_mod_idemp_r, Zminus_mod_idemp_l. }
  assert (Hs : 0 ≤ s < B * B) by (rewrite B_val, Es; apply Z.mod_pos_bound; lia).
  unfold t'. rewrite HHALF_div, LHALF_mod by done. rewrite B_val in *.
  pose proof (Z_div_mod_eq_full (x - y - t) (2 ^ 32)). rewrite <-Es in *.
  set (k := (x - y - t) / 2 ^ 32) in *.
  assert (Hk : k = 0 ∨ k = -1) by lia.
  pose proof (Z_div_mod_eq_full s 65536). pose proof (Z.mod_pos_bound s 65536 eq_refl).
  rewrite u32_small by lia. change (65536 - 1) with (Z.ones 16). rewrite Z.land_ones by done.
  change (2 ^ 16) with 65536.
  destruct Hk as [Hk|Hk].
  - assert (s / 65536 = 0) as -> by lia. change ((65536 - 0) mod 65536) with 0. lia.
  - assert (0 < s / 65536 < 65536) by lia. rewrite (Z.mod_small (65536 - _)) by lia. lia.
Qed.

Lemma mult_sub_ok (i : nat) uj vo qhat t u v fu fv :
  holds u fu 0 5 → holds v fv 1 5 → 0 ≤ uj → uj + Z.of_nat i < 5 → 0 ≤ vo → vo + Z.of_nat i < 5 →
  0 ≤ qhat < B → 0 ≤ t < B →
  ∃ t' u' fu', mult_sub i uj vo qhat t u v = Some (t', u') ∧ holds u' fu' 0 5 ∧ 0 ≤ t' < B ∧
    (∀ k, k ≤ uj ∨ uj + Z.of_nat i < k → fu' k = fu k) ∧
    pv fu' uj i - t' * B ^ Z.of_nat i = pv fu uj i - qhat * pv fv vo i - t.
Proof.
  revert t u fu. induction i as [|i IH]; intros t u fu Hu Hv Huj Hi Hvo Hvi Hq Ht.
  { exists t, u, fu. split_and!; try done; try lia. cbn [pv]. rewrite Z.pow_0_r. lia. }
  cbn [mult_sub]. destruct (getd_holds _ _ _ _ (uj + Z.of_nat (S i)) Hu) as [-> Hui]; [lia|].
  destruct (getd_holds _ _ _ _ (vo + Z.of_nat (S i)) Hv) as [-> Hvd]; [lia|]. cbn [mbind option_bind].
  set (x := fu (uj + Z.of_nat (S i))) in *. set (y := fv (vo + Z.of_nat (S i))) in *.
  destruct (sub_digit x (y * qhat) t Hui) as [Es Ht']; [rewrite B_val in *; nia|done|].
  set (s := u32 (u32 (x - _) - t)) in *. set (t1 := Z.land _ _) in *.
  destruct (setd_holds u fu 0 5 (uj + Z.of_nat (S i)) (LHALF s) Hu) as (u1 & -> & Hu1); [lia|apply LHALF_range|].
  cbn [mbind option_bind].
  destruct (IH t1 u1 _ Hu1) as (t' & u' & fu' & -> & Hu' & Htb & Hframe & Hval); try done; try lia.
  exists t', u', fu'. split_and!; try done; try lia.
  - intros k Hk. rewrite Hframe by lia. apply upd_ne. lia.
  - cbn [pv]. fold x y. rewrite (Nat2Z.inj_succ i) at 2. rewrite Z.pow_succ_r by lia.
    rewrite pv_upd in Hval by lia. rewrite Hframe, upd_eq by lia. nia.
Qed.

Lemma add_digit x y t :
  0 ≤ x < B → 0 ≤ y < B → 0 ≤ t ≤ 1 →
  let s := u32 (t + (x + y)) in
  LHALF s + HHALF s * B = x + y + t ∧ 0 ≤ HHALF s ≤ 1.
Proof.
  intros Hx Hy Ht s. assert (Es : s = x + y + t) by (unfold s; rewrite B_val in *; rewrite u32_small; lia).
  rewrite Es, LHALF_mod, HHALF_div by (rewrite B_val in *; lia). rewrite B_val in *.
  pose proof (Z_div_mod_eq_full (x + y + t) 65536). pose proof (Z.mod_pos_bound (x + y + t) 65536 eq_refl). lia.
Qed.

Lemma add_back_ok (i : nat) uj vo t u v fu fv :
  holds u fu 0 5 → holds v fv 1 5 → 0 ≤ uj → uj + Z.of_nat i < 5 → 0 ≤ vo → vo + Z.of_nat i < 5 →
  0 ≤ t ≤ 1 →
  ∃ t' u' fu', add_back i uj vo t u v = Some (t', u') ∧ holds u' fu' 0 5 ∧ 0 ≤ t' ≤ 1 ∧
    (∀ k, k ≤ uj ∨ uj + Z.of_nat i < k → fu' k = fu k) ∧
    pv fu' uj i + t' * B ^ Z.of_nat i = pv fu uj i + pv fv vo i + t.
Proof.
  revert t u fu. induction i as [|i IH]; intros t u fu Hu Hv Huj Hi Hvo Hvi Ht.
  { exists t, u, fu. split_and!; try done; try lia. cbn [pv]. rewrite Z.pow_0_r. lia. }
  cbn [add_back]. destruct (getd_holds _ _ _ _ (uj + Z.of_nat (S i)) Hu) as [-> Hui]; [lia|].
  destruct (getd_holds _ _ _ _ (vo + Z.of_nat (S i)) Hv) as [-> Hvd]; [lia|]. cbn [mbind option_bind].
  set (x := fu (uj + Z.of_nat (S i))) in *. set (y := fv (vo + Z.of_nat (S i))) in *.
  destruct (add_digit x y t Hui Hvd Ht) as [Es Ht']. set (s := u32 (t + (x + y))) in *.
  destruct (setd_holds u fu 0 5 (uj + Z.of_nat (S i)) (LHALF s) Hu) as (u1 & -> & Hu1); [lia|apply LHALF_range|].
  cbn [mbind option_bind].
  destruct (IH (HHALF s) u1 _ Hu1) as (t' & u' & fu' & -> & Hu' & Htb & Hframe & Hval); try done; try lia.
  exists t', u', fu'. split_and!; try done; try lia.
  - intros k Hk. rewrite Hframe by lia. apply upd_ne. lia.
  - cbn [pv]. fold x y. rewrite (Nat2Z.inj_succ i) at 2. rewrite Z.pow_succ_r by lia.
    rewrite pv_upd in Hval by lia. rewrite Hframe, upd_eq by lia. nia.
Qed.

(** ** D3: the estimate is the quotient digit or one more *)

Lemma qhat_too_big_ok (fuel : nat) (qhat rhat v1 v2 uj2 top Q : Z) :
  0 ≤ v2 < B → B / 2 ≤ v1 < B → 0 ≤ uj2 < B → 0 ≤ Q < qhat → qhat ≤ B →
  qhat * v1 + rhat = top → 0 ≤ rhat < B → B ≤ rhat + Z.of_nat fuel * (B / 2) →
  (∀ qh, top * B + uj2 < qh * (v1 * B + v2) → Q < qh) →
  ∃ q, qhat_too_big fuel qhat rhat v1 v2 uj2 = Some q ∧ Q ≤ q < qhat ∧
    q * (v1 * B + v2) ≤ top * B + uj2.
Proof.
  intros Hv2 Hv1 Huj2. revert qhat rhat.
  induction fuel as [|fuel IH]; intros qhat rhat HQ Hq Htop Hr Hfuel Hbig; [lia|].
  cbn [qhat_too_big]. rewrite B_val in *. change (65536 / 2) with 32768 in *.
  rewrite (u32_small (qhat - 1)), (u32_small (rhat + v1)) by lia.
  destruct (Z.leb_spec 65536 (rhat + v1)).
  - exists (qhat - 1). split_and!; [done|lia..|]. nia.
  - rewrite COMBINE_sum, B_val by (rewrite B_val; lia). rewrite u32_small by nia.
    destruct (Z.ltb_spec ((rhat + v1) * 65536 + uj2) (v2 * (qhat - 1))).
    + destruct (IH (qhat - 1) (rhat + v1)) as (q & -> & Hq' & Hle); try done; try nia.
      { assert (Q < qhat - 1); [|lia]. apply Hbig. nia. }
      exists q. split_and!; [done|lia..|done].
    + exists (qhat - 1). split_and!; [done|lia..|]. nia.
Qed.

Lemma estimate_ok (uj0 uj1 uj2 v1 v2 Q : Z) :
  0 ≤ v2 < B → B / 2 ≤ v1 < B → 0 ≤ uj0 ≤ v1 → 0 ≤ uj1 < B → 0 ≤ uj2 < B → 0 ≤ Q < B →
  (∀ qh, (uj0 * B + uj1) * B + uj2 < qh * (v1 * B + v2) → Q < qh) →
  ∃ q, estimate uj0 uj1 uj2 v1 v2 = Some q ∧ Q ≤ q < B ∧
    q * (v1 * B + v2) ≤ (uj0 * B + uj1) * B + uj2.
Proof.
  intros Hv2 Hv1 Huj0 Huj1 Huj2 HQ Hbig. unfold estimate.
  assert (Hh : B / 2 = 32768 ∧ B ≤ 0 + Z.of_nat 3 * (B / 2)) by (by rewrite B_val).
  destruct Hh as [Hh Hf]. destruct (Z.eqb_spec uj0 v1) as [E|Hne].
  - destruct (qhat_too_big_ok 3 B uj1 v1 v2 uj2 (uj0 * B + uj1) Q) as (q & -> & Hq & Hle); try done; try lia.
    exists q. split_and!; [done|lia..|done].
  - rewrite (COMBINE_sum uj0 uj1) by lia. set (nn := uj0 * B + uj1) in *.
    pose proof (Z_div_mod_eq_full nn v1). pose proof (Z.mod_pos_bound nn v1 ltac:(lia)).
    assert (0 ≤ nn / v1 < B).
    { split; [apply Z.div_pos; unfold nn; rewrite B_val in *; lia|].
      apply Z.div_lt_upper_bound; [lia|]. unfold nn. rewrite B_val in *. nia. }
    rewrite COMBINE_sum, u32_small by (rewrite B_val in *; nia).
    destruct (Z.ltb_spec (nn mod v1 * B + uj2) (v2 * (nn / v1))).
    + destruct (qhat_too_big_ok 3 (nn / v1) (nn mod v1) v1 v2 uj2 nn Q) as (q & -> & Hq & Hle); try done; try lia.
      { assert (Q < nn / v1); [|lia]. apply Hbig. nia. }
      exists q. split_and!; [done|lia..|done].
    + exists (nn / v1). split_and!; [done| |lia|nia].
      assert (Q < nn / v1 + 1); [|lia]. apply Hbig. rewrite B_val in *. nia.
Qed.

(** The two top digits of the divisor against the window. *)
Lemma window_big (k : nat) top uj2 low v12 vlow qh :
  0 ≤ uj2 → 0 ≤ top → 0 ≤ v12 → 0 ≤ low < B ^ Z.of_nat k → 0 ≤ vlow → 0 < v12 →
  top * B + uj2 < qh * v12 →
  ((top * B + uj2) * B ^ Z.of_nat k + low) / (v12 * B ^ Z.of_nat k + vlow) < qh.
Proof.
  intros Hu Ht Hv Hlow Hvl Hpos Hbig. pose proof (Bpow_pos k). rewrite B_val in *.
  set (P := 65536 ^ Z.of_nat k) in *. apply Z.div_lt_upper_bound; [nia|].
  assert (0 < qh) by nia. nia.
Qed.

Lemma window_small (k : nat) top uj2 low v12 vlow q :
  0 ≤ low → 0 ≤ vlow < B ^ Z.of_nat k → q ≤ v12 → 1 ≤ q →
  q * v12 ≤ top * B + uj2 →
  (q - 1) * (v12 * B ^ Z.of_nat k + vlow) ≤ (top * B + uj2) * B ^ Z.of_nat k + low.
Proof.
  intros Hlow Hvl Hq1 Hq Hle. pose proof (Bpow_pos k). set (P := B ^ Z.of_nat k) in *.
  assert ((q - 1) * vlow ≤ (q - 1) * P) by nia.
  assert ((q - 1) * (v12 * P) + (q - 1) * P ≤ (top * B + uj2) * P); [|nia].
  replace ((q - 1) * (v12 * P) + (q - 1) * P) with ((q * v12 - v12 + q - 1) * P) by ring. nia.
Qed.

Lemma window_top (P a b c low v1 v2 vlow : Z) :
  0 < P → 0 ≤ b → 0 ≤ c → 0 ≤ low → v2 < B → vlow < P →
  ((a * B + b) * B + c) * P + low < B * ((v1 * B + v2) * P + vlow) → a ≤ v1.
Proof.
  rewrite B_val. intros HP Hb Hc Hlow Hv2 Hvl H. apply Z.lt_succ_r.
  assert (a * (65536 * 65536 * P) < Z.succ v1 * (65536 * 65536 * P)); [|nia].
  assert (0 ≤ b * P) by nia. assert (0 ≤ c * P) by nia. assert (v2 * P ≤ 65535 * P) by nia. lia.
Qed.

(** D4 to D6 on the window, in numbers: [x] is its top digit, [t] the borrow,
    [y] the other digits after the subtraction. *)
Lemma step_value W V P q x t y :
  0 < V < P → 0 ≤ W → 0 ≤ x < B → 0 ≤ t < B → 0 ≤ y < P → x * P + y - t * P = W - q * V →
  W / V ≤ q → (q - 1) * V ≤ W →
  (0 ≤ x - t ∧ q = W / V ∧ (x - t) * P + y = W mod V) ∨
  (x - t < 0 ∧ q = W / V + 1 ∧ (x - t) * P + y + V = W mod V).
Proof.
  intros HV HW Hx Ht Hy E Hq Hq1. pose proof (Z_div_mod_eq_full W V). pose proof (Z.mod_pos_bound W V ltac:(lia)).
  assert (q = W / V ∨ q = W / V + 1) as [->| ->] by nia.
  - left. split_and!; [|done|]; nia.
  - right. split_and!; [|done|]; nia.
Qed.

Lemma top_digit x t :
  0 ≤ x < B → 0 ≤ t < B →
  LHALF (u32 (x - t)) = (x - t) mod B ∧ ((HHALF (u32 (x - t)) =? 0) = (t <=? x)).
Proof.
  intros Hx Ht. rewrite LHALF_mod, B_val in *.
  assert (E : u32 (x - t) mod 65536 = (x - t) mod 65536).
  { unfold u32. rewrite <-Znumtheory.Zmod_div_mod; [done|lia..|]. by exists 65536. }
  split; [done|]. rewrite HHALF_div by (rewrite B_val; apply u32_range).
  rewrite B_val. destruct (Z.leb_spec t x).
  - rewrite u32_small by lia. rewrite Z.div_small by lia. done.
  - assert (Eu : u32 (x - t) = x - t + 2 ^ 32).
    { unfold u32. rewrite <-(Z.mod_add _ 1), Z.mod_small by lia. lia. }
    rewrite Eu. apply Z.eqb_neq. assert (1 ≤ (x - t + 2 ^ 32) / 65536); [|lia].
    apply Z.div_le_lower_bound; lia.
Qed.

Lemma finish_step_ok (n : nat) uj vo qhat u v fu fv W V :
  holds u fu 0 5 → holds v fv 1 5 → 0 ≤ uj → uj + Z.of_nat n < 5 → 0 ≤ vo → vo + Z.of_nat n < 5 →
  0 ≤ qhat < B → 0 < V < B ^ Z.of_nat n → V = pv fv vo n → W = fu uj * B ^ Z.of_nat n + pv fu uj n →
  W / V ≤ qhat → (qhat - 1) * V ≤ W →
  ∃ u' fu', finish_step n uj vo qhat u v = Some (W / V, u') ∧ holds u' fu' 0 5 ∧
    (∀ k, k < uj ∨ uj + Z.of_nat n < k → fu' k = fu k) ∧
    fu' uj * B ^ Z.of_nat n + pv fu' uj n = W mod V.
Proof.
  intros Hu Hv Huj Hi Hvo Hvi Hq HV EV EW Hq1 Hq2. unfold finish_step.
  destruct (mult_sub_ok n uj vo qhat 0 u v fu fv) as (t & u1 & fu1 & -> & Hu1 & Ht & Hf1 & E1);
    try done. cbn [mbind option_bind].
  destruct (getd_holds _ _ _ _ uj Hu1) as [-> Hx]; [lia|]. cbn [mbind option_bind].
  rewrite Hf1 in * by lia. set (x := fu uj) in *.
  destruct (top_digit x t Hx Ht) as [El Eh]. rewrite El.
  destruct (setd_holds u1 fu1 0 5 uj ((x - t) mod B) Hu1) as (u2 & -> & Hu2);
    [lia|rewrite B_val; apply Z.mod_pos_bound; lia|]. cbn [mbind option_bind]. rewrite Eh.
  assert (Hy : 0 ≤ pv fu1 uj n < B ^ Z.of_nat n).
  { apply pv_bound. intros i Hi'. apply (getd_holds _ _ _ _ i Hu1). lia. }
  assert (HW : 0 ≤ W).
  { rewrite EW. pose proof (Bpow_pos n). pose proof (pv_bound fu uj n). 
    assert (0 ≤ pv fu uj n); [|nia]. apply pv_bound. intros i Hi'. apply (getd_holds _ _ _ _ i Hu). lia. }
  destruct (step_value W V (B ^ Z.of_nat n) qhat x t (pv fu1 uj n)) as [(Hxt & Eq & Er)|(Hxt & Eq & Er)];
    try done; try lia.
  - rewrite (proj2 (Z.leb_le t x)) by lia. exists u2, (upd fu1 uj ((x - t) mod B)).
    rewrite Eq. split_and!; try done.
    + intros k Hk. rewrite upd_ne by lia. apply Hf1. lia.
    + rewrite upd_eq, pv_upd, Z.mod_small by (rewrite ?B_val in *; lia). done.
  - rewrite (proj2 (Z.leb_gt t x)) by lia.
    destruct (add_back_ok n uj vo 0 u2 v _ fv Hu2 Hv) as (t2 & u3 & fu3 & -> & Hu3 & Ht2 & Hf3 & E3);
      try done. cbn [mbind option_bind].
    rewrite pv_upd in E3 by lia. rewrite <-EV in E3.
    destruct (getd_holds _ _ _ _ uj Hu3) as [-> _]; [lia|]. rewrite Hf3, upd_eq by lia. cbn [mbind option_bind].
    assert (Hy3 : 0 ≤ pv fu3 uj n < B ^ Z.of_nat n).
    { apply pv_bound. intros i Hi'. apply (getd_holds _ _ _ _ i Hu3). lia. }
    pose proof (Z.mod_pos_bound W V ltac:(lia)).
    assert (Hz : x - t + t2 = 0) by nia.
    assert (El2 : LHALF ((x - t) mod B + t2) = 0).
    { rewrite LHALF_mod, Zplus_mod_idemp_l, Hz. by rewrite B_val. }
    rewrite El2. destruct (setd_holds u3 fu3 0 5 uj 0 Hu3) as (u4 & -> & Hu4); [lia|rewrite B_val; lia|].
    cbn [mbind option_bind]. exists u4, (upd fu3 uj 0). split_and!; try done.
    + rewrite Eq, u32_small by (rewrite B_val in *; lia). do 2 f_equal. lia.
    + intros k Hk. rewrite upd_ne, Hf3, upd_ne, Hf1 by lia. done.
    + rewrite upd_eq, pv_upd by lia. nia.
Qed.

(** One round, for the window [W] whose top digit is [u[j]]. *)
Lemma divide_step_ok (k : nat) uo vo qo j u q v fu fv :
  let n := S (S k) in
  let o := uo + j in
  let V := pv fv vo n in
  let W := fu o * B ^ Z.of_nat n + pv fu o n in
  holds u fu 0 5 → holds v fv 1 5 → 0 ≤ o → o + Z.of_nat n < 5 → 0 ≤ vo → vo + Z.of_nat n < 5 →
  B / 2 ≤ fv (vo + 1) → W < B * V → length q = 5%nat → 0 ≤ qo + j < 5 →
  ∃ u' fu', divide_step n uo vo qo (fv (vo + 1)) (fv (vo + 2)) j v (u, q)
      = Some (u', <[Z.to_nat (qo + j) := Some (W / V)]> q) ∧
    0 ≤ W / V < B ∧ holds u' fu' 0 5 ∧
    (∀ i, i < o ∨ o + Z.of_nat n < i → fu' i = fu i) ∧
    fu' o * B ^ Z.of_nat n + pv fu' o n = W mod V.
Proof.
  intros n o V W Hu Hv Ho Hon Hvo Hvn Hnorm HW Hlq Hqj.
  destruct (getd_holds _ _ _ _ o Hu) as [G0 R0]; [lia|].
  destruct (getd_holds _ _ _ _ (o + 1) Hu) as [G1 R1]; [lia|].
  destruct (getd_holds _ _ _ _ (o + 2) Hu) as [G2 R2]; [lia|].
  destruct (getd_holds _ _ _ _ (vo + 1) Hv) as [_ Rv1]; [lia|].
  destruct (getd_holds _ _ _ _ (vo + 2) Hv) as [_ Rv2]; [lia|].
  assert (Hlow : 0 ≤ pv fu (o + 1 + 1) k < B ^ Z.of_nat k).
  { apply pv_bound. intros i Hi. apply (getd_holds _ _ _ _ i Hu). lia. }
  assert (Hvlow : 0 ≤ pv fv (vo + 1 + 1) k < B ^ Z.of_nat k).
  { apply pv_bound. intros i Hi. apply (getd_holds _ _ _ _ i Hv). lia. }
  assert (Hpow : B ^ Z.of_nat n = B * (B * B ^ Z.of_nat k)).
  { unfold n. rewrite !Nat2Z.inj_succ, !Z.pow_succ_r by lia. done. }
  assert (Hpow1 : B ^ Z.of_nat (S k) = B * B ^ Z.of_nat k).
  { rewrite Nat2Z.inj_succ, Z.pow_succ_r by lia. done. }
  pose proof (Bpow_pos k) as HP. set (P := B ^ Z.of_nat k) in *.
  assert (EV : V = (fv (vo + 1) * B + fv (vo + 2)) * P + pv fv (vo + 1 + 1) k).
  { unfold V, n. rewrite !pv_cons, Hpow1. fold P. replace (vo + 1 + 1) with (vo + 2) by lia. ring. }
  assert (EW : W = ((fu o * B + fu (o + 1)) * B + fu (o + 2)) * P + pv fu (o + 1 + 1) k).
  { unfold W. rewrite Hpow. unfold n. rewrite !pv_cons, Hpow1. fold P.
    replace (o + 1 + 1) with (o + 2) by lia. ring. }
  set (v1 := fv (vo + 1)) in *. set (v2 := fv (vo + 2)) in *.
  assert (Hh : B / 2 = 32768) by (by rewrite B_val).
  pose proof B_val as HB.
  assert (Hv12 : B ≤ v1 * B + v2) by nia.
  assert (Hu012 : 0 ≤ fu o * B + fu (o + 1)) by nia.
  assert (HVpos : 0 < V) by (rewrite EV; clear - Hv12 HP Hvlow HB; nia).
  assert (HW0 : 0 ≤ W) by (rewrite EW; clear - Hu012 R2 HP Hlow HB; nia).
  assert (HQ : 0 ≤ W / V < B).
  { split; [by apply Z.div_pos|apply Z.div_lt_upper_bound; lia]. }
  destruct (estimate_ok (fu o) (fu (o + 1)) (fu (o + 2)) v1 v2 (W / V)) as (qhat & Eest & Hqhat & Hle); try done; try lia.
  { split; [lia|]. rewrite EV, EW in HW. by eapply window_top; [exact HP|..|exact HW]; lia. }
  { intros qh Hbig. rewrite EW, EV. by apply window_big; lia. }
  assert (Hq1 : (qhat - 1) * V ≤ W).
  { destruct (decide (qhat = 0)) as [->|]; [lia|]. rewrite EV, EW.
    apply window_small; lia. }
  destruct (finish_step_ok n o vo qhat u v fu fv W V) as (u' & fu' & Efin & Hu' & Hfr & Hval); try done; try lia.
  { split; [lia|]. unfold V. apply pv_bound. intros i Hi. apply (getd_holds _ _ _ _ i Hv). lia. }
  exists u', fu'. split_and!; try done; try lia.
  unfold divide_step. fold o. rewrite G0, G1, G2. cbn [mbind option_bind]. rewrite Eest. cbn [mbind option_bind].
  rewrite Efin. cbn [mbind option_bind]. unfold setd.
  rewrite (proj2 (Z.leb_le 0 _)), (proj2 (Z.ltb_lt _ _)) by lia. cbn [andb mbind option_bind].
  unfold u16. change (2 ^ 16) with 65536. rewrite Z.mod_small by (rewrite B_val in *; lia). done.
Qed.

Lemma holds_nonneg a f k o :
  holds a f 0 5 → (Z.to_nat (o + 1) + k ≤ 5)%nat → -1 ≤ o → 0 ≤ pv f o k < B ^ Z.of_nat k.
Proof. intros Ha Hk Ho. apply pv_bound. intros i Hi. apply (getd_holds _ _ _ _ i Ha). lia. Qed.

Lemma setd_extends a f p x :
  holds a f 0 (Z.of_nat p) → (p < 5)%nat → 0 ≤ x < B →
  holds (<[p := Some x]> a) (upd f (Z.of_nat p) x) 0 (Z.of_nat (S p)).
Proof.
  intros (Hlen & Hlo & Hhi & Ha) Hp Hx. split_and!; [by rewrite length_insert|lia..|].
  intros i Hi. destruct (decide (i = Z.of_nat p)) as [->|Hne].
  - rewrite upd_eq, Nat2Z.id, list_lookup_insert_eq by lia. done.
  - rewrite upd_ne, list_lookup_insert_ne by lia. apply Ha. lia.
Qed.

Lemma divide_loop_ok (r k o p : nat) uo vo qo j u q v fu fv fq :
  let n := S (S k) in
  let V := pv fv vo n in
  uo + j = Z.of_nat o → qo + j = Z.of_nat p → (o + n + r = 5)%nat → (p + r = 5)%nat →
  holds u fu 0 5 → holds v fv 1 5 → holds q fq 0 (Z.of_nat p) → 0 ≤ vo → vo + Z.of_nat n < 5 →
  B / 2 ≤ fv (vo + 1) → pv fu (-1) (o + n) < V →
  ∃ u' q' fu' fq',
    divide_loop n uo vo qo (fv (vo + 1)) (fv (vo + 2)) (seqZ j (Z.of_nat r)) v (u, q) = Some (u', q') ∧
    holds u' fu' 0 5 ∧ holds q' fq' 0 5 ∧ pv fu' (-1) 5 < V ∧
    pv fq' (-1) 5 * V + pv fu' (-1) 5 = pv fq (-1) p * B ^ Z.of_nat r * V + pv fu (-1) 5.
Proof.
  intros n V. revert o p j u q fu fq.
  induction r as [|r IH]; intros o p j u q fu fq Eo Ep Hor Hpr Hu Hv Hq Hvo Hvn Hnorm Hpre.
  { exists u, q, fu, fq. replace p with 5%nat in * by lia. replace (o + n)%nat with 5%nat in Hpre by lia.
    split_and!; try done. rewrite Z.pow_0_r. lia. }
  rewrite Nat2Z.inj_succ, seqZ_cons by lia. rewrite Z.pred_succ. cbn [divide_loop].
  pose proof B_val as HB.
  assert (HVn : V < B ^ Z.of_nat n).
  { apply pv_bound. intros i Hi. apply (getd_holds _ _ _ _ i Hv). lia. }
  pose proof (holds_nonneg u fu n (Z.of_nat o - 1) Hu ltac:(lia) ltac:(lia)) as Hmid.
  pose proof (holds_nonneg u fu o (-1) Hu ltac:(lia) ltac:(lia)) as Hpo.
  assert (Hpo0 : pv fu (-1) o = 0).
  { rewrite pv_app in Hpre. replace (-1 + Z.of_nat o) with (Z.of_nat o - 1) in Hpre by lia.
    clear - Hpre Hmid Hpo HVn. nia. }
  set (W := fu (Z.of_nat o) * B ^ Z.of_nat n + pv fu (Z.of_nat o) n).
  assert (EW : pv fu (-1) (o + S n) = W).
  { rewrite pv_app, Hpo0, pv_cons. replace (-1 + Z.of_nat o + 1) with (Z.of_nat o) by lia. unfold W. ring. }
  assert (HW : W < B * V).
  { rewrite <-EW, Nat.add_succ_r. cbn [pv]. destruct (getd_holds _ _ _ _ (-1 + Z.of_nat (S (o + n))) Hu) as [_ Hd]; [lia|].
    clear - Hpre Hd HB. nia. }
  destruct (divide_step_ok k uo vo qo j u q v fu fv) as (u1 & fu1 & Estep & Hdig & Hu1 & Hfr & Hval);
    rewrite ?Eo; try done; try lia; [apply Hq|]. rewrite Eo in *. fold n V W in Estep, Hdig, Hval, Hfr.
  rewrite Estep. cbn [mbind option_bind]. rewrite Ep, Nat2Z.id.
  assert (Hpre1 : pv fu1 (-1) (o + S n) = W mod V).
  { rewrite pv_app, pv_cons. rewrite (pv_ext fu1 fu (-1) o) by (intros; apply Hfr; lia).
    rewrite Hpo0. replace (-1 + Z.of_nat o + 1) with (Z.of_nat o) by lia. rewrite Hval. ring. }
  assert (HVpos : 0 < V) by (clear - Hpre Hpo0 Hmid; rewrite pv_app in Hpre;
    replace (-1 + Z.of_nat o) with (Z.of_nat o - 1) in Hpre by lia; nia).
  pose proof (Z.mod_pos_bound W V HVpos) as Hmod.
  destruct (IH (S o) (S p) (Z.succ j) u1 (<[p:=Some (W / V)]> q) fu1 (upd fq (Z.of_nat p) (W / V)))
    as (u' & q' & fu' & fq' & Eloop & Hu' & Hq' & Hlt & Hsum); try done; try lia.
  { apply setd_extends; [done|lia|done]. }
  { replace (S o + n)%nat with (o + S n)%nat by lia. lia. }
  exists u', q', fu', fq'. split_and!; try done. rewrite Hsum.
  replace 5%nat with (o + S n + r)%nat by lia.
  rewrite !(pv_app _ (-1) (o + S n)), EW, Hpre1.
  rewrite (pv_ext fu1 fu (-1 + Z.of_nat (o + S n)) r) by (intros; apply Hfr; lia). cbn [pv].
  replace (-1 + Z.of_nat (S p)) with (Z.of_nat p) by lia.
  rewrite upd_eq, pv_upd, Z.pow_succ_r by lia.
  pose proof (Z_div_mod_eq_full W V). set (P := B ^ Z.of_nat r).
  replace (W * P) with ((V * (W / V) + W mod V) * P) by (by rewrite <-H). ring.
Qed.

(** ** Shifting digit strings *)

Lemma pow2_split d : 0 ≤ d ≤ 16 → 2 ^ d * 2 ^ (16 - d) = B ∧ 0 < 2 ^ d ∧ 0 < 2 ^ (16 - d).
Proof.
  intros Hd. split_and!; [|apply Z.pow_pos_nonneg; lia..].
  rewrite <-Z.pow_add_r by lia. rewrite B_val. by replace (d + (16 - d)) with 16 by lia.
Qed.

(** A digit shifted up, and the bits that go to the next one. *)
Lemma digit_up x d : 0 ≤ d ≤ 16 → 0 ≤ x < B →
  LHALF (Z.shiftl x d) = Z.shiftl (x mod 2 ^ (16 - d)) d ∧
  x * 2 ^ d = x / 2 ^ (16 - d) * B + LHALF (Z.shiftl x d) ∧ 0 ≤ x / 2 ^ (16 - d) < 2 ^ d.
Proof.
  intros Hd Hx. destruct (pow2_split d Hd) as (EB & Hp & Hp'). 
  rewrite LHALF_mod, !Z.shiftl_mul_pow2, <-EB, Z.mul_comm, (Z.mul_comm (2 ^ d) (2 ^ _)), (Z.mul_comm (2 ^ d) x) by lia.
  rewrite Z.mul_mod_distr_r by lia. split; [done|].
  pose proof (Z_div_mod_eq_full x (2 ^ (16 - d))) as E. split.
  - rewrite E at 1. ring.
  - split; [apply Z.div_pos; lia|]. apply Z.div_lt_upper_bound; lia.
Qed.

Lemma digit_shl x y d : 0 ≤ d ≤ 16 → 0 ≤ x < B → 0 ≤ y < B →
  Z.lor (LHALF (Z.shiftl x d)) (Z.shiftr y (16 - d)) = LHALF (Z.shiftl x d) + y / 2 ^ (16 - d) ∧
  0 ≤ LHALF (Z.shiftl x d) + y / 2 ^ (16 - d) < B.
Proof.
  intros Hd Hx Hy. destruct (digit_up x d Hd Hx) as (E & _ & _). destruct (digit_up y d Hd Hy) as (_ & _ & Hc).
  destruct (pow2_split d Hd) as (EB & Hp & Hp').
  rewrite E, Z.shiftr_div_pow2, lor_fields, Z.shiftl_mul_pow2 by lia. split; [done|].
  pose proof (Z.mod_pos_bound x (2 ^ (16 - d)) Hp'). rewrite <-EB. nia.
Qed.

Lemma digit_shr x y d : 0 ≤ d ≤ 16 → 0 ≤ x < B → 0 ≤ y < B →
  Z.lor (Z.shiftr x d) (LHALF (u32 (Z.shiftl y (16 - d)))) = x / 2 ^ d + y mod 2 ^ d * 2 ^ (16 - d) ∧
  0 ≤ x / 2 ^ d + y mod 2 ^ d * 2 ^ (16 - d) < B.
Proof.
  intros Hd Hx Hy. destruct (digit_up y (16 - d) ltac:(lia) Hy) as (E & _ & _).
  destruct (digit_up x (16 - d) ltac:(lia) Hx) as (_ & _ & Hc).
  replace (16 - (16 - d)) with d in * by lia. destruct (pow2_split d Hd) as (EB & Hp & Hp').
  assert (EL : LHALF (u32 (Z.shiftl y (16 - d))) = LHALF (Z.shiftl y (16 - d))).
  { unfold LHALF, u32. by rewrite Zmod_mod. }
  rewrite EL, E, Z.lor_comm, Z.shiftr_div_pow2, lor_fields by lia. split; [lia|].
  pose proof (Z.mod_pos_bound y (2 ^ d) Hp). rewrite <-EB. nia.
Qed.

Lemma shl_digits_ok (c : nat) i o d a f lo :
  holds a f lo 5 → lo ≤ o + i → o + i + Z.of_nat c < 5 → 0 ≤ d ≤ 16 →
  ∃ a' f', shl_digits (seqZ i (Z.of_nat c)) o d a = Some a' ∧ holds a' f' lo 5 ∧
    ∀ k, f' k = if (o + i <=? k) && (k <? o + i + Z.of_nat c)
                then LHALF (Z.shiftl (f k) d) + f (k + 1) / 2 ^ (16 - d) else f k.
Proof.
  revert i a f. induction c as [|c IH]; intros i a f Ha Hlo Hc Hd.
  { exists a, f. split_and!; try done. intros k. destruct (Z.leb_spec (o + i) k), (Z.ltb_spec k (o + i + Z.of_nat 0));
      (done || lia). }
  rewrite Nat2Z.inj_succ, seqZ_cons, Z.pred_succ by lia. cbn [shl_digits].
  destruct (getd_holds _ _ _ _ (o + i) Ha) as [-> Hx]; [lia|].
  destruct (getd_holds _ _ _ _ (o + i + 1) Ha) as [-> Hy]; [lia|]. cbn [mbind option_bind]. unfold HALF_BITS.
  destruct (digit_shl _ _ d Hd Hx Hy) as [-> Hr].
  destruct (setd_holds a f lo 5 (o + i) _ Ha ltac:(lia) Hr) as (a1 & -> & Ha1). cbn [mbind option_bind].
  destruct (IH (Z.succ i) a1 _ Ha1) as (a' & f' & -> & Ha' & Hf'); [lia..|].
  exists a', f'. split_and!; try done. intros k. rewrite Hf'.
  destruct (decide (k = o + i)) as [->|Hne].
  - rewrite upd_eq. destruct (Z.leb_spec (o + Z.succ i) (o + i)), (Z.leb_spec (o + i) (o + i)); try lia.
    cbn [andb]. by rewrite (proj2 (Z.ltb_lt _ _)) by lia.
  - rewrite (upd_ne _ _ _ k) by lia.
    destruct (Z.leb_spec (o + Z.succ i) k), (Z.leb_spec (o + i) k); try lia; cbn [andb]; try done.
    + rewrite (upd_ne _ _ _ (k + 1)) by lia.
      replace (o + Z.succ i + Z.of_nat c) with (o + i + Z.of_nat (S c)) by lia.
      replace (o + i + Z.succ (Z.of_nat c)) with (o + i + Z.of_nat (S c)) by lia. done.
Qed.

(** The digits shifted up, with the bits that fall out on the left. *)
Lemma shl_prefix f g o d (k : nat) :
  0 ≤ d ≤ 16 → (∀ i, o < i ≤ o + Z.of_nat k → 0 ≤ f i < B) →
  (∀ i, o < i ≤ o + Z.of_nat k → g i = LHALF (Z.shiftl (f i) d) + f (i + 1) / 2 ^ (16 - d)) →
  pv g o k = pv f o k * 2 ^ d - f (o + 1) / 2 ^ (16 - d) * B ^ Z.of_nat k
             + f (o + Z.of_nat k + 1) / 2 ^ (16 - d).
Proof.
  intros Hd. induction k as [|k IH]; intros Hf Hg.
  { cbn [pv]. rewrite Z.add_0_r, Z.pow_0_r. lia. }
  cbn [pv]. rewrite IH by (intros; (apply Hf || apply Hg); lia). rewrite Hg by lia.
  destruct (digit_up (f (o + Z.of_nat (S k))) d Hd) as (_ & E & _); [apply Hf; lia|].
  replace (o + Z.of_nat k + 1) with (o + Z.of_nat (S k)) by lia.
  replace (B ^ Z.of_nat (S k)) with (B * B ^ Z.of_nat k) by (rewrite Nat2Z.inj_succ, Z.pow_succ_r by lia; done).
  replace (LHALF _) with (f (o + Z.of_nat (S k)) * 2 ^ d - f (o + Z.of_nat (S k)) / 2 ^ (16 - d) * B) by lia. ring.
Qed.

Lemma shl_ok (len : nat) o d a f lo :
  holds a f lo 5 → lo ≤ o → o + Z.of_nat len < 5 → 0 ≤ d < 16 → f o * 2 ^ d < B →
  ∃ a' f', shl a o (Z.of_nat len) d = Some a' ∧ holds a' f' lo 5 ∧
    (∀ k, k < o ∨ o + Z.of_nat len < k → f' k = f k) ∧
    pv f' (o - 1) (S len) = pv f (o - 1) (S len) * 2 ^ d.
Proof.
  intros Ha Hlo Hlen Hd Htop. unfold shl.
  destruct (shl_digits_ok len 0 o d a f lo Ha) as (a1 & f1 & -> & Ha1 & Hf1); [lia..|]. cbn [mbind option_bind].
  assert (Hlast : f1 (o + Z.of_nat len) = f (o + Z.of_nat len)).
  { rewrite Hf1. by rewrite (proj2 (Z.ltb_ge (o + Z.of_nat len) _)), andb_false_r by lia. }
  destruct (getd_holds _ _ _ _ (o + Z.of_nat len) Ha1) as [-> Hx]; [lia|]. cbn [mbind option_bind].
  destruct (setd_holds a1 f1 lo 5 (o + Z.of_nat len) (LHALF (Z.shiftl (f1 (o + Z.of_nat len)) d)) Ha1)
    as (a2 & -> & Ha2); [lia|apply LHALF_range|]. rewrite Hlast in *.
  eexists a2, _. split_and!; [done|exact Ha2|..].
  - intros k Hk. rewrite upd_ne, Hf1 by lia. destruct (Z.leb_spec (o + 0) k), (Z.ltb_spec k (o + 0 + Z.of_nat len));
      (done || lia).
  - cbn [pv]. replace (o - 1 + Z.of_nat (S len)) with (o + Z.of_nat len) by lia. rewrite upd_eq, pv_upd by lia.
    destruct (getd_holds _ _ _ _ o Ha) as [_ Ho]; [lia|].
    destruct (pow2_split d ltac:(lia)) as (EB & Hp & Hp').
    rewrite (shl_prefix f f1 (o - 1) d len); [|lia| |].
    + destruct (digit_up _ d ltac:(lia) Hx) as (_ & E & _).
      replace (o - 1 + Z.of_nat len + 1) with (o + Z.of_nat len) by lia. replace (o - 1 + 1) with o by lia.
      rewrite (Z.div_small (f o)) by nia. set (x := f (o + Z.of_nat len)) in *.
      replace (LHALF _) with (x * 2 ^ d - x / 2 ^ (16 - d) * B) by lia. ring.
    + intros i Hi. apply (getd_holds _ _ _ _ i Ha). lia.
    + intros i Hi. rewrite Hf1. by rewrite (proj2 (Z.leb_le _ _)), (proj2 (Z.ltb_lt _ _)) by lia.
Qed.

Lemma unshift_ok (k : nat) uo m d u f :
  holds u f 0 5 → 0 ≤ uo + m → uo + m + Z.of_nat k < 5 → 0 ≤ d < 16 →
  ∃ u' f', unshift k uo m d u = Some u' ∧ holds u' f' 0 5 ∧
    (∀ i, i ≤ uo + m ∨ uo + m + Z.of_nat k < i → f' i = f i) ∧
    pv f' (uo + m) k * 2 ^ d = pv f (uo + m) k - f (uo + m + Z.of_nat k) mod 2 ^ d
                               + f (uo + m) mod 2 ^ d * B ^ Z.of_nat k.
Proof.
  revert u f. induction k as [|k IH]; intros u f Hu Hm Hk Hd.
  { exists u, f. split_and!; try done. cbn [pv]. rewrite Z.add_0_r, Z.pow_0_r. lia. }
  cbn [unshift]. replace (uo + (m + Z.of_nat (S k))) with (uo + m + Z.of_nat (S k)) by lia.
  replace (uo + m + Z.of_nat (S k) - 1) with (uo + m + Z.of_nat k) by lia.
  destruct (getd_holds _ _ _ _ (uo + m + Z.of_nat (S k)) Hu) as [-> Hx]; [lia|].
  destruct (getd_holds _ _ _ _ (uo + m + Z.of_nat k) Hu) as [-> Hy]; [lia|]. cbn [mbind option_bind].
  unfold HALF_BITS. destruct (digit_shr _ _ d ltac:(lia) Hx Hy) as [-> Hr].
  destruct (setd_holds u f 0 5 (uo + m + Z.of_nat (S k)) _ Hu ltac:(lia) Hr) as (u1 & -> & Hu1).
  cbn [mbind option_bind]. set (x := f (uo + m + Z.of_nat (S k))) in *. set (y := f (uo + m + Z.of_nat k)) in *.
  destruct (IH u1 _ Hu1) as (u' & f' & -> & Hu' & Hfr & Hval); [lia..|].
  exists u', f'. split_and!; try done.
  - intros i Hi. rewrite Hfr, upd_ne by lia. done.
  - cbn [pv]. fold x. rewrite Hfr, upd_eq by lia. rewrite pv_upd, !upd_ne in Hval by lia. fold y in Hval.
    destruct (pow2_split d ltac:(lia)) as (EB & Hp & Hp').
    replace (B ^ Z.of_nat (S k)) with (B * B ^ Z.of_nat k) by (rewrite Nat2Z.inj_succ, Z.pow_succ_r by lia; done).
    pose proof (Z_div_mod_eq_full x (2 ^ d)) as Ex.
    transitivity (pv f' (uo + m) k * 2 ^ d * B + (2 ^ d * (x / 2 ^ d)) + y mod 2 ^ d * (2 ^ d * 2 ^ (16 - d))); [ring|].
    rewrite Hval, EB. replace (2 ^ d * (x / 2 ^ d)) with (x - x mod 2 ^ d) by lia. ring.
Qed.

Lemma count_shift_ok (fuel : nat) t d :
  1 ≤ t < B → B / 2 ≤ t * 2 ^ Z.of_nat fuel →
  ∃ e, count_shift fuel t d = Some (d + e) ∧ 0 ≤ e ∧ B / 2 ≤ t * 2 ^ e < B.
Proof.
  revert t d. rewrite B_val. change (65536 / 2) with 32768.
  induction fuel as [|fuel IH]; intros t d Ht Hf; cbn [count_shift]; rewrite B_val; change (65536 / 2) with 32768.
  - rewrite (proj2 (Z.ltb_ge t _)) by (rewrite Z.pow_0_r in Hf; lia). exists 0. rewrite Z.pow_0_r in *.
    split_and!; [f_equal; lia|lia..].
  - destruct (Z.ltb_spec t 32768).
    + rewrite Z.shiftl_mul_pow2, u32_small by lia. destruct (IH (t * 2 ^ 1) (d + 1)) as (e & -> & He & Hr).
      { lia. }
      { rewrite Nat2Z.inj_succ, Z.pow_succ_r in Hf by lia. lia. }
      exists (e + 1). rewrite Z.pow_add_r by lia. split_and!; [f_equal; lia|lia..].
    + exists 0. rewrite Z.pow_0_r. split_and!; [f_equal; lia|lia..].
Qed.
End Digits.

(** ** Four digits as a long long *)

Definition dig4 (a b c d : Z) : Z → Z := λ k,
  if k =? 1 then a else if k =? 2 then b else if k =? 3 then c else if k =? 4 then d else 0.

Section Whole.
Lemma pv4 f : pv f 0 4 = ((f 1 * B + f 2) * B + f 3) * B + f 4.
Proof. cbn [pv]. rewrite Z.mul_0_l. reflexivity. Qed.

Lemma dig4_holds a b c d :
  0 ≤ a < B → 0 ≤ b < B → 0 ≤ c < B → 0 ≤ d < B →
  holds [Some 0; Some a; Some b; Some c; Some d] (dig4 a b c d) 0 5 ∧
  holds [None; Some a; Some b; Some c; Some d] (dig4 a b c d) 1 5 ∧
  pv (dig4 a b c d) 0 4 = ((a * B + b) * B + c) * B + d.
Proof.
  intros. split_and!.
  - split_and!; [done..|]. intros i Hi. pose proof B_val.
    assert (i = 0 ∨ i = 1 ∨ i = 2 ∨ i = 3 ∨ i = 4) as [->|[->|[->|[->| ->]]]] by lia; cbn; (split; [done|lia]).
  - split_and!; [done..|]. intros i Hi.
    assert (i = 1 ∨ i = 2 ∨ i = 3 ∨ i = 4) as [->|[->|[->| ->]]] by lia; cbn; (split; [done|lia]).
  - by rewrite pv4.
Qed.

Lemma assemble_ok a f : holds a f 1 5 → assemble a = Some (pv f 0 4).
Proof.
  intros Ha. unfold assemble. pose proof B_val.
  destruct (getd_holds _ _ _ _ 1 Ha) as [-> H1]; [lia|]. destruct (getd_holds _ _ _ _ 2 Ha) as [-> H2]; [lia|].
  destruct (getd_holds _ _ _ _ 3 Ha) as [-> H3]; [lia|]. destruct (getd_holds _ _ _ _ 4 Ha) as [-> H4]; [lia|].
  cbn [mbind option_bind]. rewrite !COMBINE_sum, ull_sum, pv4, B_val by lia. f_equal. lia.
Qed.

Lemma holds_weaken a f lo hi lo' hi' : holds a f lo hi → lo ≤ lo' → hi' ≤ hi → holds a f lo' hi'.
Proof. intros (Hl & H0 & H5 & Ha) ? ?. split_and!; [done|lia..|]. intros i Hi. apply Ha. lia. Qed.

Lemma long_digits x : 0 ≤ x < 2 ^ 64 →
  ∃ a b c d, u16 (HHALF (uiH x)) = a ∧ u16 (LHALF (uiH x)) = b ∧ u16 (HHALF (uiL x)) = c ∧
    u16 (LHALF (uiL x)) = d ∧ 0 ≤ a < B ∧ 0 ≤ b < B ∧ 0 ≤ c < B ∧ 0 ≤ d < B ∧
    x = ((a * B + b) * B + c) * B + d.
Proof.
  intros Hx. pose proof (words_u64 x Hx) as E. pose proof B_val as HB.
  destruct (halves _ (uiH_range x)) as (E1 & ? & ?). destruct (halves _ (uiL_range x)) as (E2 & ? & ?).
  do 4 eexists. split_and!; [reflexivity..| | | | | | | | |].
  all: rewrite !u16_small by lia; try lia.
Qed.

(** ** Short division *)

Lemma short_digit t r x :
  1 ≤ t < B → 0 ≤ r < t → 0 ≤ x < B →
  let rbj := COMBINE r x in
  u16 (rbj / t) = rbj / t ∧ 0 ≤ rbj / t < B ∧ 0 ≤ rbj mod t < t ∧ r * B + x = rbj / t * t + rbj mod t.
Proof.
  intros Ht Hr Hx rbj. pose proof B_val as HB. assert (E : rbj = r * B + x) by (apply COMBINE_sum; lia).
  pose proof (Z_div_mod_eq_full rbj t). pose proof (Z.mod_pos_bound rbj t ltac:(lia)).
  assert (Hq : 0 ≤ rbj / t < B) by (split; [apply Z.div_pos|apply Z.div_lt_upper_bound]; nia).
  split_and!; try lia. apply u16_small. lia.
Qed.

Lemma short_division_value t u1 u2 u3 u4 :
  1 ≤ t < B → 0 ≤ u1 < B → 0 ≤ u2 < B → 0 ≤ u3 < B → 0 ≤ u4 < B →
  let U := ((u1 * B + u2) * B + u3) * B + u4 in
  let r1 := COMBINE (u1 mod t) u2 in
  let r2 := COMBINE (r1 mod t) u3 in
  let r3 := COMBINE (r2 mod t) u4 in
  ull (COMBINE (u16 (u1 / t)) (u16 (r1 / t))) (COMBINE (u16 (r2 / t)) (u16 (r3 / t))) = U / t ∧ r3 mod t = U mod t.
Proof.
  intros Ht H1 H2 H3 H4 U r1 r2 r3. pose proof B_val as HB.
  pose proof (Z_div_mod_eq_full u1 t) as E0. pose proof (Z.mod_pos_bound u1 t ltac:(lia)) as R0.
  assert (Q0 : 0 ≤ u1 / t < B) by (split; [apply Z.div_pos|apply Z.div_lt_upper_bound]; nia).
  destruct (short_digit t (u1 mod t) u2 Ht R0 H2) as (D1 & Q1 & R1 & E1). fold r1 in D1, Q1, R1, E1.
  destruct (short_digit t (r1 mod t) u3 Ht R1 H3) as (D2 & Q2 & R2 & E2). fold r2 in D2, Q2, R2, E2.
  destruct (short_digit t (r2 mod t) u4 Ht R2 H4) as (D3 & Q3 & R3 & E3). fold r3 in D3, Q3, R3, E3.
  rewrite D1, D2, D3, u16_small, !COMBINE_sum, ull_sum by lia.
  assert (E : U = t * ((u1 / t * B + r1 / t) * 2 ^ 32 + (r2 / t * B + r3 / t)) + r3 mod t).
  { unfold U. rewrite E0 at 1. change (2 ^ 32) with (65536 * 65536). rewrite <-HB.
    transitivity (((t * (u1 / t)) * B * B * B + (u1 mod t * B + u2) * B * B) + u3 * B + u4); [ring|].
    rewrite E1. transitivity (t * (u1 / t) * B * B * B + r1 / t * t * B * B + (r1 mod t * B + u3) * B + u4); [ring|].
    rewrite E2. transitivity (t * (u1 / t) * B * B * B + r1 / t * t * B * B + r2 / t * t * B + (r2 mod t * B + u4)); [ring|].
    rewrite E3. ring. }
  split; [by apply (Z.div_unique _ _ _ (r3 mod t)); [lia|]|].
  by apply (Z.mod_unique _ _ ((u1 / t * B + r1 / t) * 2 ^ 32 + (r2 / t * B + r3 / t))); [lia|].
Qed.

(** ** Skipping leading zeros *)

Lemma skip_v_ok v f :
  holds v f 1 5 → 0 < pv f 0 4 →
  ∃ vo n, skip_v 4 v 0 4 = Some (vo, n) ∧
    ((n = 1 ∧ vo = 2 ∧ pv f 0 4 = f 4) ∨
     (∃ k : nat, n = Z.of_nat (S (S k)) ∧ 0 ≤ vo ∧ vo + n = 4 ∧ 1 ≤ f (vo + 1) ∧ pv f 0 4 = pv f vo (S (S k)))).
Proof.
  intros Hv Hpos. pose proof B_val as HB. cbn [skip_v].
  destruct (getd_holds _ _ _ _ 1 Hv) as [G1 R1]; [lia|]. destruct (getd_holds _ _ _ _ 2 Hv) as [G2 R2]; [lia|].
  destruct (getd_holds _ _ _ _ 3 Hv) as [G3 R3]; [lia|].
  change (0 + 1) with 1. change (1 + 1) with 2. change (2 + 1) with 3. change (4 - 1) with 3.
  change (3 - 1) with 2. change (2 - 1) with 1. change (3 =? 1) with false. change (2 =? 1) with false.
  change (1 =? 1) with true. rewrite G1, G2, G3, pv4 in *. cbn [mbind option_bind].
  assert (P3 : pv f 1 3 = (f 2 * B + f 3) * B + f 4) by (cbn [pv]; rewrite Z.mul_0_l; reflexivity).
  assert (P2 : pv f 2 2 = f 3 * B + f 4) by (cbn [pv]; rewrite Z.mul_0_l; reflexivity).
  destruct (Z.eqb_spec (f 1) 0) as [E1|N1].
  2:{ exists 0, 4. split; [done|]. right. exists 2%nat. change (0 + 1) with 1. rewrite pv4. split_and!; (done || lia). }
  destruct (Z.eqb_spec (f 2) 0) as [E2|N2].
  2:{ exists 1, 3. split; [done|]. right. exists 1%nat. change (1 + 1) with 2. rewrite P3. split_and!; (done || lia). }
  destruct (Z.eqb_spec (f 3) 0) as [E3|N3].
  - exists 2, 1. split; [done|]. left. split_and!; (done || lia).
  - exists 2, 2. split; [done|]. right. exists 0%nat. change (2 + 1) with 3. rewrite P2. split_and!; (done || lia).
Qed.

Lemma skip_u_ok u f m (o : nat) :
  holds u f 0 5 → (o < 4)%nat → (∀ i, 1 ≤ i ≤ Z.of_nat o → f i = 0) → f (Z.of_nat o + 1) ≠ 0 →
  skip_u 4 u 0 m = Some (Z.of_nat o, m - Z.of_nat o).
Proof.
  intros Hu Ho Hz Hn.
  assert (H : ∀ (fuel : nat) (j : nat) m, (j ≤ o)%nat → (o - j < fuel)%nat →
    skip_u fuel u (Z.of_nat j) m = Some (Z.of_nat o, m - (Z.of_nat o - Z.of_nat j))).
  { induction fuel as [|fuel IH]; intros j m' Hj Hf; [lia|]. cbn [skip_u].
    destruct (getd_holds _ _ _ _ (Z.of_nat j + 1) Hu) as [-> _]; [lia|]. cbn [mbind option_bind].
    destruct (decide (j = o)) as [->|].
    - rewrite (proj2 (Z.eqb_neq _ _) Hn). do 2 f_equal. lia.
    - rewrite Hz by lia. cbn [Z.eqb]. replace (Z.of_nat j + 1) with (Z.of_nat (S j)) by lia.
      rewrite IH by lia. do 2 f_equal. lia. }
  pose proof (H 4%nat 0%nat m ltac:(lia) ltac:(lia)) as E. change (Z.of_nat 0) with 0 in E.
  rewrite E. do 2 f_equal. lia.
Qed.

Lemma zero_q_ok (i : nat) :
  (i ≤ 5)%nat → ∃ q, zero_q i [None; None; None; None; None] = Some q ∧ holds q (λ _, 0) 0 (Z.of_nat i).
Proof.
  intros Hi. pose proof B_val. do 6 (destruct i as [|i]; [eexists; split; [reflexivity|]; split_and!; [done..|lia|];
    intros j Hj; assert (j = 0 ∨ j = 1 ∨ j = 2 ∨ j = 3 ∨ j = 4) as [->|[->|[->|[->| ->]]]] by lia; (lia || (cbn; split; [done|lia]))|]). lia.
Qed.

Lemma pv_zero f o (k : nat) : (∀ i, o < i ≤ o + Z.of_nat k → f i = 0) → pv f o k = 0.
Proof.
  induction k as [|k IH]; intros H; [done|]. cbn [pv]. rewrite IH, H; [done|lia|]. intros. apply H. lia.
Qed.

Lemma first_digit f :
  0 < pv f 0 4 → ∃ o : nat, (o < 4)%nat ∧ (∀ i, 1 ≤ i ≤ Z.of_nat o → f i = 0) ∧ f (Z.of_nat o + 1) ≠ 0.
Proof.
  rewrite pv4. intros Hpos.
  destruct (decide (f 1 = 0)) as [E1|N1]; [|exists 0%nat; split_and!; (done || lia)].
  destruct (decide (f 2 = 0)) as [E2|N2].
  2:{ exists 1%nat. split_and!; [lia| |done]. intros i Hi. by replace i with 1 by lia. }
  destruct (decide (f 3 = 0)) as [E3|N3].
  2:{ exists 2%nat. split_and!; [lia| |done]. intros i Hi. by assert (i = 1 ∨ i = 2) as [->| ->] by lia. }
  exists 3%nat. split_and!; [lia| |].
  - intros i Hi. by assert (i = 1 ∨ i = 2 ∨ i = 3) as [->|[->| ->]] by lia.
  - change (f 4 ≠ 0). intros E4. rewrite E1, E2, E3, E4 in Hpos. lia.
Qed.

(** The normalising shift, made only when it is by some bits. *)
Lemma normalise_ok (len : nat) o d a f lo :
  holds a f lo 5 → lo ≤ o → o + Z.of_nat len < 5 → 0 ≤ d < 16 → f o * 2 ^ d < B →
  ∃ a' f', (if 0 <? d then shl a o (Z.of_nat len) d else Some a) = Some a' ∧ holds a' f' lo 5 ∧
    (∀ k, k < o ∨ o + Z.of_nat len < k → f' k = f k) ∧
    pv f' (o - 1) (S len) = pv f (o - 1) (S len) * 2 ^ d.
Proof.
  intros Ha Hlo Hlen Hd Htop. destruct (Z.ltb_spec 0 d); [by apply shl_ok|].
  exists a, f. replace d with 0 by lia. rewrite Z.pow_0_r. split_and!; try done. lia.
Qed.

Lemma remainder_ok (n : nat) uo m d u f r :
  holds u f 0 5 → 0 ≤ uo + m → uo + m + Z.of_nat n = 4 → 0 ≤ d < 16 →
  pv f (-1) 5 = r * 2 ^ d → pv f (-1) 5 < B ^ Z.of_nat n →
  ∃ u', (if d =? 0 then Some u else u ← unshift n uo m d u; setd u (uo + m) 0) = Some u' ∧
    assemble u' = Some r.
Proof.
  intros Hu Hm Hn Hd Hr Hlt. pose proof B_val as HB.
  assert (E : pv f (-1) 5 = pv f (-1) (5 - n) * B ^ Z.of_nat n + pv f (uo + m) n).
  { replace 5%nat with (5 - n + n)%nat at 1 by lia. rewrite pv_app. do 2 f_equal. lia. }
  pose proof (holds_nonneg u f n (uo + m) Hu ltac:(lia) ltac:(lia)) as Hlow.
  pose proof (holds_nonneg u f (5 - n) (-1) Hu ltac:(lia) ltac:(lia)) as Hhigh.
  assert (Hz : pv f (-1) (5 - n) = 0) by (clear - E Hlow Hhigh Hlt; nia).
  assert (Hz0 : ∀ i, 0 ≤ i ≤ uo + m → f i = 0).
  { assert (Hz' : ∀ (c : nat), (c ≤ 5)%nat → pv f (-1) c = 0 → ∀ i, 0 ≤ i < Z.of_nat c → f i = 0).
    { induction c as [|c IH]; intros Hc E0 i Hi; [lia|]. cbn [pv] in E0.
      pose proof (holds_nonneg u f c (-1) Hu ltac:(lia) ltac:(lia)) as Hc0.
      replace (-1 + Z.of_nat (S c)) with (Z.of_nat c) in E0 by lia.
      destruct (getd_holds _ _ _ _ (Z.of_nat c) Hu) as [_ Hd0]; [lia|].
      destruct (decide (i = Z.of_nat c)) as [->|]; [|apply IH]; try lia. }
    intros i Hi. apply (Hz' (5 - n)%nat); [lia|done|lia]. }
  rewrite Hz, Z.mul_0_l, Z.add_0_l in E.
  assert (Hasm : ∀ a g, holds a g 0 5 → (∀ i, 0 ≤ i ≤ uo + m → g i = 0) → pv g (uo + m) n = r → assemble a = Some r).
  { intros a g Ha Hg Hpv. rewrite (assemble_ok a g) by (eapply holds_weaken; [exact Ha|lia..]). f_equal.
    replace 4%nat with (4 - n + n)%nat by lia. rewrite pv_app, (pv_zero g 0) by (intros; apply Hg; lia).
    rewrite Z.mul_0_l, Z.add_0_l, <-Hpv. f_equal. lia. }
  destruct (Z.eqb_spec d 0) as [->|Hd0].
  { exists u. split; [done|]. apply (Hasm u f); [done..|]. rewrite Z.pow_0_r in Hr. lia. }
  destruct (unshift_ok n uo m d u f Hu) as (u1 & f1 & -> & Hu1 & Hfr & Hval); [lia..|]. cbn [mbind option_bind].
  destruct (setd_holds u1 f1 0 5 (uo + m) 0 Hu1) as (u2 & -> & Hu2); [lia..|].
  exists u2. split; [done|]. apply (Hasm u2 _ Hu2).
  - intros i Hi. destruct (decide (i = uo + m)) as [->|]; [apply upd_eq|]. rewrite upd_ne, Hfr by lia. apply Hz0. lia.
  - rewrite pv_upd by lia. rewrite (Hz0 (uo + m)), Z.mod_0_l, Z.mul_0_l, Z.add_0_r in Hval
      by (try apply Z.pow_nonzero; lia).
    pose proof (Z.pow_pos_nonneg 2 d ltac:(lia) ltac:(lia)).
    pose proof (Z.mod_pos_bound (f (uo + m + Z.of_nat n)) (2 ^ d) ltac:(lia)). nia.
Qed.

Lemma short_division_ok u v fu fv arq :
  holds u fu 0 5 → holds v fv 1 5 → pv fv 0 4 = fv 4 → 0 < pv fv 0 4 →
  short_division u v 2 arq =
  Some (pv fu 0 4 / pv fv 0 4, if arq then Some (pv fu 0 4 mod pv fv 0 4) else None).
Proof.
  intros Hu Hv Ev Hpos. unfold short_division. change (2 + 2) with 4.
  destruct (getd_holds _ _ _ _ 4 Hv) as [-> Rt]; [lia|].
  destruct (getd_holds _ _ _ _ 1 Hu) as [-> R1]; [lia|]. destruct (getd_holds _ _ _ _ 2 Hu) as [-> R2]; [lia|].
  destruct (getd_holds _ _ _ _ 3 Hu) as [-> R3]; [lia|]. destruct (getd_holds _ _ _ _ 4 Hu) as [-> R4]; [lia|].
  cbn [mbind option_bind]. rewrite Ev, pv4 in *.
  destruct (short_division_value (fv 4) (fu 1) (fu 2) (fu 3) (fu 4)) as [-> ->]; try done. lia.
Qed.

(** The dividend is not shorter than the divisor, and its [n] leading digits
    are below [B] times it. *)
Lemma dividend_size fu fv vo (o k : nat) d :
  let n := S (S k) in
  let U := pv fu 0 4 in
  let V := pv fv vo n in
  (∀ i, 1 ≤ i < 5 → 0 ≤ fu i < B) → (∀ i, 1 ≤ i < 5 → 0 ≤ fv i < B) →
  0 ≤ vo → vo + Z.of_nat n = 4 → 1 ≤ fv (vo + 1) → V ≤ U → (o < 4)%nat →
  (∀ i, 1 ≤ i ≤ Z.of_nat o → fu i = 0) → 0 < d →
  Z.of_nat o ≤ vo ∧ ∀ x, x * B ^ (vo - Z.of_nat o + 1) ≤ U * d → x < V * d.
Proof.
  intros n U V Hu Hv Hvo Hvn Htop Hle Ho Hz Hd. pose proof B_val as HB.
  assert (HU : U < B ^ Z.of_nat (4 - o)).
  { unfold U. replace 4%nat with (o + (4 - o))%nat at 1 by lia.
    rewrite pv_app, (pv_zero fu 0 o) by (intros; apply Hz; lia). rewrite Z.mul_0_l, Z.add_0_l.
    apply pv_bound. intros. apply Hu. lia. }
  assert (HV : B ^ Z.of_nat (S k) ≤ V).
  { unfold V, n. rewrite pv_cons. assert (0 ≤ pv fv (vo + 1) (S k)) by (apply pv_bound; intros; apply Hv; lia).
    pose proof (Bpow_pos (S k)). nia. }
  assert (Hov : Z.of_nat o ≤ vo).
  { destruct (decide (Z.of_nat o ≤ vo)); [done|].
    assert (B ^ Z.of_nat (4 - o) ≤ B ^ Z.of_nat (S k)) by (apply Z.pow_le_mono_r; lia). lia. }
  split; [done|]. intros x Hx.
  assert (E : B ^ Z.of_nat (4 - o) = B ^ Z.of_nat (S k) * B ^ (vo - Z.of_nat o + 1)).
  { rewrite <-Z.pow_add_r by lia. f_equal. lia. }
  assert (0 < B ^ (vo - Z.of_nat o + 1)) by (apply Z.pow_pos_nonneg; lia).
  assert (U < V * B ^ (vo - Z.of_nat o + 1)) by nia. nia.
Qed.

(** The digits after leading zeros are the whole number. *)
Lemma whole_string f (o : nat) :
  (o < 4)%nat → (∀ i, 0 ≤ i < Z.of_nat o → f i = 0) →
  pv f (Z.of_nat o - 1) (S (4 - o)) = pv f (-1) 5.
Proof.
  intros Ho Hz. replace 5%nat with (o + S (4 - o))%nat by lia.
  rewrite (pv_app f (-1) o), (pv_zero f (-1) o) by (intros; apply Hz; lia).
  rewrite Z.mul_0_l, Z.add_0_l. f_equal. lia.
Qed.

(** From the loop on, for a normalised divisor. *)
Lemma divide_ok u q v fu fv (o k m : nat) vo d U V (arq : bool) :
  let n := S (S k) in
  holds u fu 0 5 → holds v fv 1 5 → holds q (λ _, 0) 0 (4 - Z.of_nat m) →
  0 ≤ vo → vo + Z.of_nat n = 4 → Z.of_nat o + Z.of_nat m = vo → 0 ≤ d < 16 →
  B / 2 ≤ fv (vo + 1) → pv fv vo n = V * 2 ^ d → pv fu (-1) 5 = U * 2 ^ d → 0 < V → 0 ≤ U < B ^ 4 →
  pv fu (-1) (o + n) < V * 2 ^ d →
  ('(u, q) ← divide_loop n (Z.of_nat o) vo (4 - Z.of_nat m) (fv (vo + 1)) (fv (vo + 2))
               (seqZ 0 (Z.of_nat m + 1)) v (u, q);
   r ← (if arq then
          u ← (if d =? 0 then Some u
               else u ← unshift n (Z.of_nat o) (Z.of_nat m) d u; setd u (Z.of_nat o + Z.of_nat m) 0);
          r ← assemble u; Some (Some r)
        else Some None);
   quot ← assemble q;
   Some (quot, r)) = Some (U / V, if arq then Some (U mod V) else None).
Proof.
  intros n Hu Hv Hq Hvo Hvn Hom Hd Hnorm EV EU HV HU Hpre. pose proof B_val as HB.
  assert (Hpd : 0 < 2 ^ d) by (apply Z.pow_pos_nonneg; lia).
  replace (Z.of_nat m + 1) with (Z.of_nat (S m)) by lia.
  destruct (divide_loop_ok (S m) k o (4 - m) (Z.of_nat o) vo (4 - Z.of_nat m) 0 u q v fu fv (λ _, 0))
    as (u' & q' & fu' & fq' & Eloop & Hu' & Hq' & Hlt & Hsum); try done; try lia.
  { by replace (Z.of_nat (4 - m)) with (4 - Z.of_nat m) by lia. }
  { fold n. lia. }
  fold n in Eloop, Hlt, Hsum. rewrite Eloop. cbn [mbind option_bind]. rewrite EV in *.
  rewrite (pv_zero (λ _, 0)), !Z.mul_0_l, Z.add_0_l, EU in Hsum by done.
  pose proof (holds_nonneg u' fu' 5 (-1) Hu' ltac:(lia) ltac:(lia)) as Hr0.
  pose proof (holds_nonneg q' fq' 5 (-1) Hq' ltac:(lia) ltac:(lia)) as Hq0.
  set (R := pv fu' (-1) 5) in *. set (Q := pv fq' (-1) 5) in *.
  assert (EQ : U / V = Q ∧ U mod V * 2 ^ d = R).
  { assert (E : U * 2 ^ d / (V * 2 ^ d) = Q) by (symmetry; apply (Z.div_unique_pos _ _ _ R); lia).
    rewrite Z.div_mul_cancel_r in E by lia. split; [done|].
    rewrite <-Z.mul_mod_distr_r by lia. symmetry. apply (Z.mod_unique_pos _ _ Q); lia. }
  destruct EQ as [EQ ER].
  assert (HasmQ : assemble q' = Some Q).
  { rewrite (assemble_ok q' fq') by (eapply holds_weaken; [exact Hq'|lia..]). f_equal. unfold Q.
    rewrite (pv_cons fq' (-1) 4). change (-1 + 1) with 0.
    pose proof (holds_nonneg q' fq' 4 0 Hq' ltac:(lia) ltac:(lia)) as H4.
    destruct (getd_holds _ _ _ _ 0 Hq') as [_ H0]; [lia|].
    assert (Q ≤ U) by (rewrite <-EQ; apply Z.div_le_upper_bound; nia).
    unfold Q in *. rewrite (pv_cons fq' (-1) 4) in *. change (-1 + 1) with 0 in *. change (Z.of_nat 4) with 4 in *.
    assert (fq' 0 = 0) as -> by (clear - H H4 H0 HU; nia). lia. }
  destruct arq.
  - destruct (remainder_ok n (Z.of_nat o) (Z.of_nat m) d u' fu' (U mod V) Hu') as (u2 & Eu2 & Hasm); try lia.
    { fold R. assert (V * 2 ^ d < B ^ Z.of_nat n); [|lia]. rewrite <-EV.
      apply pv_bound. intros i Hi. apply (getd_holds _ _ _ _ i Hv). lia. }
    rewrite Eu2. cbn [mbind option_bind]. rewrite Hasm. cbn [mbind option_bind]. rewrite HasmQ. cbn [mbind option_bind].
    by rewrite EQ.
  - cbn [mbind option_bind]. rewrite HasmQ. cbn [mbind option_bind]. by rewrite EQ.
Qed.

Lemma long_division_ok u v fu fv vo (k : nat) arq :
  let n := S (S k) in
  holds u fu 0 5 → fu 0 = 0 → holds v fv 1 5 → 0 ≤ vo → vo + Z.of_nat n = 4 → 1 ≤ fv (vo + 1) →
  0 < pv fv vo n ≤ pv fu 0 4 →
  long_division u v vo (Z.of_nat n) arq =
  Some (pv fu 0 4 / pv fv vo n, if arq then Some (pv fu 0 4 mod pv fv vo n) else None).
Proof.
  intros n Hu Hu0 Hv Hvo Hvn Htop Hle. pose proof B_val as HB. unfold long_division.
  destruct (first_digit fu) as (o & Ho & Hz & Hnz); [lia|].
  assert (Hru : ∀ i, 1 ≤ i < 5 → 0 ≤ fu i < B) by (intros i Hi; apply (getd_holds _ _ _ _ i Hu); lia).
  assert (Hrv : ∀ i, 1 ≤ i < 5 → 0 ≤ fv i < B) by (intros i Hi; apply (getd_holds _ _ _ _ i Hv); lia).
  pose proof (λ d, dividend_size fu fv vo o k d Hru Hrv Hvo Hvn Htop (proj2 Hle) Ho Hz) as Hsize.
  destruct (Hsize 1 ltac:(lia)) as [Hov _].
  rewrite (skip_u_ok u fu _ o Hu Ho Hz Hnz). cbn [mbind option_bind]. rewrite Nat2Z.id.
  set (m := (Z.to_nat vo - o)%nat).
  replace (4 - Z.of_nat n - Z.of_nat o) with (Z.of_nat m) by lia.
  destruct (zero_q_ok (Z.to_nat (4 - Z.of_nat m))) as (q & -> & Hq); [lia|]. cbn [mbind option_bind].
  destruct (getd_holds _ _ _ _ (vo + 1) Hv) as [-> Rv1]; [lia|]. cbn [mbind option_bind].
  destruct (count_shift_ok 16 (fv (vo + 1)) 0) as (d & -> & Hd & Hnorm).
  { lia. }
  { rewrite HB. change (65536 / 2 ≤ fv (vo + 1) * 65536). change (65536 / 2) with 32768. lia. }
  cbn [mbind option_bind]. rewrite Z.add_0_l.
  assert (Hd16 : 0 ≤ d < 16).
  { split; [done|]. apply (Z.pow_lt_mono_r_iff 2); [lia..|]. rewrite HB in Hnorm. change (2 ^ 16) with 65536. nia. }
  assert (Hpd : 0 < 2 ^ d) by (apply Z.pow_pos_nonneg; lia).
  assert (Hzo : ∀ i, 0 ≤ i ≤ Z.of_nat o → fu i = 0).
  { intros i Hi. destruct (decide (i = 0)) as [->|]; [done|]. apply Hz. lia. }
  replace (Z.of_nat m + Z.of_nat n) with (Z.of_nat (4 - o)) by lia.
  destruct (normalise_ok (4 - o) (Z.of_nat o) d u fu 0 Hu) as (u1 & fu1 & -> & Hu1 & Hfr1 & Hval1); [lia..| |].
  { rewrite Hzo by lia. lia. }
  cbn [mbind option_bind]. replace (Z.of_nat n - 1) with (Z.of_nat (S k)) by lia.
  destruct (normalise_ok (S k) (vo + 1) d v fv 1 Hv) as (v1 & fv1 & -> & Hv1 & Hfrv & Hvalv); [lia..|].
  cbn [mbind option_bind]. replace (vo + 1 - 1) with vo in Hvalv by lia. fold n in Hvalv.
  destruct (getd_holds _ _ _ _ (vo + 1) Hv1) as [-> Rw1]; [lia|].
  destruct (getd_holds _ _ _ _ (vo + 2) Hv1) as [-> Rw2]; [lia|]. cbn [mbind option_bind].
  assert (EU : pv fu1 (-1) 5 = pv fu 0 4 * 2 ^ d).
  { assert (E0 : pv fu 0 4 = pv fu (-1) 5).
    { rewrite (pv_cons fu (-1) 4). change (-1 + 1) with 0. rewrite Hu0. lia. }
    rewrite E0, <-(whole_string fu o), <-(whole_string fu1 o); [done|lia| |lia|].
    - intros i Hi. rewrite Hfr1 by lia. apply Hzo. lia.
    - intros i Hi. apply Hzo. lia. }
  apply (divide_ok u1 q v1 fu1 fv1 o k m vo d); try done; try lia.
  - by replace (Z.of_nat (Z.to_nat (4 - Z.of_nat m))) with (4 - Z.of_nat m) in Hq by lia.
  - assert (Hlow : pv fv1 (vo + 1) (S k) < B ^ Z.of_nat (S k)).
    { apply pv_bound. intros i Hi. apply (getd_holds _ _ _ _ i Hv1). lia. }
    assert (0 ≤ pv fv (vo + 1) (S k)) by (apply pv_bound; intros i Hi; apply (getd_holds _ _ _ _ i Hv); lia).
    unfold n in Hvalv. rewrite (pv_cons fv1 vo (S k)), (pv_cons fv vo (S k)) in Hvalv. pose proof (Bpow_pos (S k)).
    apply Z.lt_succ_r. apply (Z.mul_lt_mono_pos_r (B ^ Z.of_nat (S k))); [done|].
    set (P := B ^ Z.of_nat (S k)) in *. set (w := fv (vo + 1)) in *.
    assert (B / 2 * P ≤ w * 2 ^ d * P) by nia.
    assert (0 ≤ pv fv (vo + 1) (S k) * 2 ^ d) by nia. lia.
  - exact (holds_nonneg u fu 4 0 Hu ltac:(lia) ltac:(lia)).
  - apply (proj2 (Hsize (2 ^ d) Hpd)). rewrite <-EU.
    replace 5%nat with (o + n + S m)%nat by lia. rewrite (pv_app fu1 (-1) (o + n) (S m)).
    replace (vo - Z.of_nat o + 1) with (Z.of_nat (S m)) by lia.
    pose proof (holds_nonneg u1 fu1 (S m) (-1 + Z.of_nat (o + n)) Hu1 ltac:(lia) ltac:(lia)).
    fold n. lia.
Qed.

Lemma qdivrem_ok u v arq :
  0 ≤ u < 2 ^ 64 → 0 ≤ v < 2 ^ 64 →
  __qdivrem u v arq =
  if v =? 0 then None else Some (u / v, if arq then Some (u mod v) else None).
Proof.
  intros Hu Hv. unfold __qdivrem. destruct (Z.eqb_spec v 0) as [|Hv0]; [done|].
  destruct (Z.ltb_spec u v); [by rewrite Z.div_small, Z.mod_small by lia|].
  destruct (long_digits u Hu) as (a & b & c & d & -> & -> & -> & -> & Ra & Rb & Rc & Rd & Eu).
  destruct (long_digits v Hv) as (a' & b' & c' & d' & -> & -> & -> & -> & Ra' & Rb' & Rc' & Rd' & Ev).
  destruct (dig4_holds a b c d) as (Hfu & _ & Pu); try done.
  destruct (dig4_holds a' b' c' d') as (_ & Hfv & Pv); try done.
  rewrite <-Pu in Eu. rewrite <-Pv in Ev.
  destruct (skip_v_ok _ _ Hfv) as (vo & n & -> & Hcase); [lia|]. cbn [mbind option_bind]. rewrite Eu, Ev in *.
  destruct Hcase as [(-> & -> & E4)|(k & -> & Hvo & Hvn & Htop & E4)].
  - cbn [Z.eqb Pos.eqb]. apply short_division_ok; (done || lia).
  - rewrite (proj2 (Z.eqb_neq _ 1)) by lia. rewrite E4 in *. apply long_division_ok; (done || lia).
Qed.
End Whole.


(** ** Signed division *)

Section Signed.
Lemma magnitude a : - 2 ^ 63 ≤ a < 2 ^ 63 →
  (if a <? 0 then (u64 (- u64 a), true) else (u64 a, false)) = (Z.abs a, a <? 0) ∧ 0 ≤ Z.abs a < 2 ^ 64.
Proof.
  intros Ha. split; [|lia]. destruct (Z.ltb_spec a 0); f_equal.
  - unfold u64. rewrite <-(Z.mod_add a 1) by lia. rewrite (Z.mod_small (a + _)) by lia.
    rewrite <-(Z.mod_add _ 1), Z.mod_small by lia. lia.
  - rewrite u64_small by lia. lia.
Qed.

Lemma i64_of_neg x : i64 (u64 (- x)) = i64 (- x).
Proof. apply i64_u64. unfold u64. by rewrite Zmod_mod. Qed.

Lemma divdi3_ok a b :
  - 2 ^ 63 ≤ a < 2 ^ 63 → - 2 ^ 63 ≤ b < 2 ^ 63 → b ≠ 0 → __divdi3 a b = Some (i64 (Z.quot a b)).
Proof.
  intros Ha Hb Hb0. unfold __divdi3. destruct (magnitude a Ha) as [-> Ra]. destruct (magnitude b Hb) as [Eb Rb].
  assert (E : (if b <? 0 then (u64 (- u64 b), negb (a <? 0)) else (u64 b, a <? 0))
              = (Z.abs b, xorb (a <? 0) (b <? 0))).
  { destruct (b <? 0); injection Eb as ->; by destruct (a <? 0). }
  rewrite E, qdivrem_ok, (proj2 (Z.eqb_neq (Z.abs b) 0)) by lia. cbn [mbind option_bind fst].
  f_equal. rewrite Z.quot_div by done. destruct (Z.ltb_spec a 0), (Z.ltb_spec b 0); cbn [xorb];
    rewrite ?i64_of_neg; f_equal; destruct (Z.sgn_spec a) as [[? ->]|[[? ->]|[? ->]]],
    (Z.sgn_spec b) as [[? ->]|[[? ->]|[? ->]]]; try lia.
  all: subst; rewrite ?Z.abs_0, ?Z.div_0_l by lia; lia.
Qed.

Lemma moddi3_ok a b :
  - 2 ^ 63 ≤ a < 2 ^ 63 → - 2 ^ 63 ≤ b < 2 ^ 63 → b ≠ 0 → __moddi3 a b = Some (Z.rem a b).
Proof.
  intros Ha Hb Hb0. unfold __moddi3. destruct (magnitude a Ha) as [-> Ra]. destruct (magnitude b Hb) as [Eb Rb].
  assert (E : (if b <? 0 then u64 (- u64 b) else u64 b) = Z.abs b) by (by destruct (b <? 0); injection Eb as ->).
  rewrite E, qdivrem_ok, (proj2 (Z.eqb_neq (Z.abs b) 0)) by lia. cbn [mbind option_bind snd].
  f_equal. rewrite Z.rem_mod by done. pose proof (Z.mod_pos_bound (Z.abs a) (Z.abs b) ltac:(lia)).
  assert (Z.abs a mod Z.abs b ≤ Z.abs a) by (apply Z.mod_le; lia).
  destruct (Z.ltb_spec a 0).
  - rewrite i64_of_neg, Z.sgn_neg, i64_small by lia. lia.
  - destruct (decide (a = 0)) as [->|]; [by rewrite Z.abs_0, Z.mod_0_l by lia|].
    rewrite Z.sgn_pos, i64_small by lia. lia.
Qed.
End Signed.

(** ** The component's theorems *)

(** C20. 64-bit division.  [__qdivrem] returns, for every dividend and every
    divisor but 0, the quotient and, when asked for it, the remainder: no
    access of its digit arrays is out of bounds or reads a digit nobody wrote,
    and every loop ends.  Division by 0 traps.  The functions the compiler
    calls truncate toward 0 and give the remainder the sign of the dividend;
    the one quotient out of range, of -2^63 by -1, wraps. *)
Theorem division_agrees u v a b arq :
  0 ≤ u < 2 ^ 64 → 0 ≤ v < 2 ^ 64 → - 2 ^ 63 ≤ a < 2 ^ 63 → - 2 ^ 63 ≤ b < 2 ^ 63 →
  __qdivrem u v arq = (if v =? 0 then None else Some (u / v, if arq then Some (u mod v) else None)) ∧
  (v ≠ 0 → __udivdi3 u v = Some (u / v) ∧ __umoddi3 u v = Some (u mod v)) ∧
  (b ≠ 0 → __divdi3 a b = Some (i64 (Z.quot a b)) ∧ __moddi3 a b = Some (Z.rem a b)).
Proof.
  intros Hu Hv Ha Hb. split_and!; [by apply qdivrem_ok| |].
  - intros Hv0. unfold __udivdi3, __umoddi3. rewrite !qdivrem_ok, (proj2 (Z.eqb_neq v 0)) by done. done.
  - intros Hb0. split; [by apply divdi3_ok|by apply moddi3_ok].
Qed.

Lemma division_agrees_witness :
  __qdivrem (2 ^ 64 - 1) (2 ^ 32 + 1) true = Some (2 ^ 32 - 1, Some 0) ∧
  __divdi3 (-7) 2 = Some (-3) ∧ __moddi3 (-7) 2 = Some (-1).
Proof.
  destruct (division_agrees (2 ^ 64 - 1) (2 ^ 32 + 1) (-7) 2 true) as (H1 & _ & H2); try lia.
  destruct H2 as [H2 H3]; [lia|]. split; [exact H1|]. split; [exact H2|exact H3].
Defined.
