(* ===== verification/CString.v ===== *)
(** * Memory and string functions (common/libc/string, common/libc/stdlib/atoi.c)

    Memory is a list of bytes and a pointer is an index into it, so buffers may
    overlap as they do in C; an access outside is undefined.  A loop that runs
    to the end of a string has fuel for every byte of memory, which is enough
    since it either meets the NUL or leaves memory. *)

From Stdlib Require Import String Ascii.
From stdpp Require Import base numbers list.
From Stdlib Require Import ZArith Lia.
From S2P Require Import Prelude.

Open Scope Z_scope.
Open Scope kernel_scope.

Abbreviation mem := (list Z).

Definition load (p : Z) : K mem Z :=
  m <- kget ;; kderef (if 0 <=? p then m !! Z.to_nat p else None).
Definition store (p v : Z) : K mem unit :=
  m <- kget ;;
  if (0 <=? p) && (p <? Z.of_nat (length m)) then kput (<[Z.to_nat p := v]> m) else kundef.

(** [sizeof(long)], and an access to a long: four bytes at once. *)
Definition sizeof_long : Z := 4.
Definition load_long (p : Z) : K mem (list Z) :=
  a <- load p ;; b <- load (p + 1) ;; c <- load (p + 2) ;; d <- load (p + 3) ;; kret [a; b; c; d].
Fixpoint store_bytes (p : Z) (l : list Z) : K mem unit :=
  match l with
  | [] => kret tt
  | v :: l => store p v ;; store_bytes (p + 1) l
  end.
Definition store_long (p : Z) (l : list Z) : K mem unit := store_bytes p l.

(** The bytes of a string constant, without its NUL. *)
Definition chars (s : string) : list Z :=
  (λ a, Z.of_N (N_of_ascii a)) <$> list_ascii_of_string s.

Definition with_fuel {A} (f : nat → K mem A) : K mem A := m <- kget ;; f (S (length m)).

(** ** Blocks of memory *)

Fixpoint bzero_longs (block i : Z) (k : nat) : K mem unit :=
  match k with
  | O => kret tt
  | S k => store_long (block + sizeof_long * i) [0; 0; 0; 0] ;; bzero_longs block (i + 1) k
  end.
Fixpoint bzero_bytes (block i : Z) (k : nat) : K mem unit :=
  match k with
  | O => kret tt
  | S k => store (block + i) 0 ;; bzero_bytes block (i + 1) k
  end.
Definition bzero (block len : Z) : K mem unit :=
  if (block mod sizeof_long =? 0) && (len mod sizeof_long =? 0)
  then bzero_longs block 0 (Z.to_nat (len / sizeof_long))
  else bzero_bytes block 0 (Z.to_nat len).

(** Forwards, and backwards with [k] the number of units left. *)
Fixpoint copy_longs (dst src i : Z) (k : nat) : K mem unit :=
  match k with
  | O => kret tt
  | S k => v <- load_long (src + sizeof_long * i) ;; store_long (dst + sizeof_long * i) v ;; copy_longs dst src (i + 1) k
  end.
Fixpoint copy_bytes (dst src i : Z) (k : nat) : K mem unit :=
  match k with
  | O => kret tt
  | S k => v <- load (src + i) ;; store (dst + i) v ;; copy_bytes dst src (i + 1) k
  end.
Fixpoint copy_longs_back (dst src : Z) (k : nat) : K mem unit :=
  match k with
  | O => kret tt
  | S k =>
      v <- load_long (src + sizeof_long * Z.of_nat k) ;;
      store_long (dst + sizeof_long * Z.of_nat k) v ;; copy_longs_back dst src k
  end.
Fixpoint copy_bytes_back (dst src : Z) (k : nat) : K mem unit :=
  match k with
  | O => kret tt
  | S k => v <- load (src + Z.of_nat k) ;; store (dst + Z.of_nat k) v ;; copy_bytes_back dst src k
  end.

Definition by_longs (dst src len : Z) : bool :=
  (dst mod sizeof_long =? 0) && (src mod sizeof_long =? 0) && (len mod sizeof_long =? 0).

Definition memcpy (dst src len : Z) : K mem Z :=
  (if by_longs dst src len
   then copy_longs dst src 0 (Z.to_nat (len / sizeof_long))
   else copy_bytes dst src 0 (Z.to_nat len)) ;;
  kret dst.

Definition memmove (dst src len : Z) : K mem Z :=
  if dst <? src then memcpy dst src len
  else
    (if by_longs dst src len
     then copy_longs_back dst src (Z.to_nat (len / sizeof_long))
     else copy_bytes_back dst src (Z.to_nat len)) ;;
    kret dst.

(** ** Strings *)

Fixpoint strlen_loop (fuel : nat) (str ret : Z) : K mem Z :=
  match fuel with
  | O => khang
  | S fuel => c <- load (str + ret) ;; if c =? 0 then kret ret else strlen_loop fuel str (ret + 1)
  end.
Definition strlen (str : Z) : K mem Z := with_fuel (λ fuel, strlen_loop fuel str 0).

Fixpoint strcpy_loop (fuel : nat) (dest src i : Z) : K mem Z :=
  match fuel with
  | O => khang
  | S fuel =>
      c <- load (src + i) ;;
      if c =? 0 then kret i else store (dest + i) c ;; strcpy_loop fuel dest src (i + 1)
  end.
Definition strcpy (dest src : Z) : K mem Z :=
  i <- with_fuel (λ fuel, strcpy_loop fuel dest src 0) ;;
  store (dest + i) 0 ;;
  kret dest.

Definition strcat (dest src : Z) : K mem Z :=
  offset <- strlen dest ;;
  _ <- strcpy (dest + offset) src ;;
  kret dest.

Fixpoint strchr_loop (fuel : nat) (s ch : Z) : K mem (option Z) :=
  match fuel with
  | O => khang
  | S fuel =>
      c <- load s ;;
      if c =? 0 then kret (if c =? ch then Some s else None)
      else if c =? ch then kret (Some s) else strchr_loop fuel (s + 1) ch
  end.
Definition strchr (s ch_arg : Z) : K mem (option Z) := with_fuel (λ fuel, strchr_loop fuel s (u8 ch_arg)).

Fixpoint strrchr_loop (s ch : Z) (i : nat) : K mem (option Z) :=
  match i with
  | O => kret None
  | S i => c <- load (s + Z.of_nat i) ;; if c =? ch then kret (Some (s + Z.of_nat i)) else strrchr_loop s ch i
  end.
Definition strrchr (s ch_arg : Z) : K mem (option Z) :=
  n <- strlen s ;; strrchr_loop s (u8 ch_arg) (Z.to_nat (n + 1)).

Fixpoint strcmp_loop (fuel : nat) (a b i : Z) : K mem Z :=
  match fuel with
  | O => khang
  | S fuel =>
      x <- load (a + i) ;;
      if negb (x =? 0) then
        y <- load (b + i) ;;
        if x =? y then strcmp_loop fuel a b (i + 1) else kret i
      else kret i
  end.
Definition strcmp (a b : Z) : K mem Z :=
  i <- with_fuel (λ fuel, strcmp_loop fuel a b 0) ;;
  x <- load (a + i) ;;
  y <- load (b + i) ;;
  kret (if y <? x then 1 else if x =? y then 0 else -1).

(** [strtok_r]; the context is passed in and out. *)
Fixpoint skip_seps (fuel : nat) (head seps : Z) : K mem Z :=
  match fuel with
  | O => khang
  | S fuel =>
      c <- load head ;;
      if c =? 0 then kret head
      else
        w <- strchr seps c ;;
        match w with Some _ => skip_seps fuel (head + 1) seps | None => kret head end
  end.
Fixpoint skip_word (fuel : nat) (tail seps : Z) : K mem Z :=
  match fuel with
  | O => khang
  | S fuel =>
      c <- load tail ;;
      if c =? 0 then kret tail
      else
        w <- strchr seps c ;;
        match w with Some _ => kret tail | None => skip_word fuel (tail + 1) seps end
  end.
Definition strtok_r (string : option Z) (seps : Z) (context : option Z) : K mem (option Z * option Z) :=
  match (match string with Some s => Some s | None => context end) with
  | None => kret (None, None)
  | Some head =>
      head <- with_fuel (λ fuel, skip_seps fuel head seps) ;;
      c <- load head ;;
      if c =? 0 then kret (None, None)
      else
        tail <- with_fuel (λ fuel, skip_word fuel head seps) ;;
        c <- load tail ;;
        if c =? 0 then kret (Some head, None)
        else store tail 0 ;; kret (Some head, Some (tail + 1))
  end.

(** ** Numbers *)

(** The place of a character in a string constant, as [strchr] finds it. *)
Fixpoint char_index (ch : Z) (l : list Z) : option nat :=
  match l with
  | [] => None
  | c :: l => if c =? ch then Some O else S <$> char_index ch l
  end.

(** [atoi] on the bytes of a string, up to the NUL. *)
Definition digits10 : list Z := [48; 49; 50; 51; 52; 53; 54; 55; 56; 57].
Fixpoint skip_blanks (s : list Z) : list Z :=
  match s with
  | c :: s' => if (c =? 32) || (c =? 9) then skip_blanks s' else s
  | [] => []
  end.
Fixpoint atoi_digits (s : list Z) (val : Z) : Z :=
  match s with
  | [] => val
  | c :: s =>
      match char_index c digits10 with
      | None => val
      | Some digit => atoi_digits s (u32 (val * 10 + Z.of_nat digit))
      end
  end.
Definition atoi (s : list Z) : Z :=
  match skip_blanks s with
  | [] => i32 0
  | c :: s' =>
      if c =? 45 then i32 (u32 (- atoi_digits s' 0))
      else if c =? 43 then i32 (atoi_digits s' 0)
      else i32 (atoi_digits (c :: s') 0)
  end.

(** ** Reading and writing *)

Definition mget (m : mem) (p : Z) : option Z := if 0 <=? p then m !! Z.to_nat p else None.
Abbreviation msize m := (Z.of_nat (length m)).

Lemma mget_Some m p v : mget m p = Some v → 0 ≤ p < msize m.
Proof.
  unfold mget. destruct (Z.leb_spec 0 p); [|done].
  intros E%lookup_lt_Some. lia.
Qed.
Lemma mget_in m p : 0 ≤ p < msize m → ∃ v, mget m p = Some v.
Proof.
  intros Hp. unfold mget. rewrite (proj2 (Z.leb_le 0 p)) by lia.
  apply lookup_lt_is_Some. lia.
Qed.
Lemma load_run m p v : mget m p = Some v → load p m = Done (v, m).
Proof. unfold mget, load. intros E. ksteps. by rewrite E. Qed.
Lemma store_run m p v : 0 ≤ p < msize m → store p v m = Done (tt, <[Z.to_nat p := v]> m).
Proof. intros Hp. unfold store. ksteps. by rewrite (proj2 (Z.leb_le 0 p)), (proj2 (Z.ltb_lt p _)) by lia. Qed.
Lemma mget_store m p v q :
  0 ≤ p < msize m → mget (<[Z.to_nat p := v]> m) q = if q =? p then Some v else mget m q.
Proof.
  intros Hp. unfold mget. destruct (Z.leb_spec 0 q), (Z.eqb_spec q p); try (subst; lia); try done.
  - subst. apply list_lookup_insert_eq. lia.
  - apply list_lookup_insert_ne. lia.
Qed.

(** [l] written at [p], the rest as it was. *)
Definition written (m m' : mem) (p : Z) (l : list Z) : Prop :=
  length m' = length m ∧
  ∀ q, mget m' q = if (p <=? q) && (q <? p + Z.of_nat (length l)) then l !! Z.to_nat (q - p) else mget m q.

Ltac zcase :=
  repeat match goal with
  | |- context [?a <=? ?b] => destruct (Z.leb_spec a b)
  | |- context [?a <? ?b] => destruct (Z.ltb_spec a b)
  | |- context [?a =? ?b] => destruct (Z.eqb_spec a b)
  end; cbn [andb].

Lemma store_bytes_run l m p :
  0 ≤ p → p + Z.of_nat (length l) ≤ msize m →
  ∃ m', store_bytes p l m = Done (tt, m') ∧ written m m' p l.
Proof.
  revert m p. induction l as [|v l IH]; intros m p Hp Hl; cbn [store_bytes length] in *.
  - exists m. split; [done|]. split; [done|]. intros q. cbn [length]. zcase; try done; lia.
  - rewrite (kbind_run _ _ _ _ _ (store_run m p v ltac:(lia))).
    destruct (IH (<[Z.to_nat p := v]> m) (p + 1)) as (m' & E & Hlen & Hq);
      [lia|rewrite length_insert; lia|].
    exists m'. split; [done|]. split; [by rewrite Hlen, length_insert|].
    intros q. rewrite Hq, mget_store by lia. cbn [length]. zcase; try lia; try done.
    + by replace (Z.to_nat (q - p)) with (S (Z.to_nat (q - (p + 1)))) by lia.
    + subst. by rewrite Z.sub_diag.
Qed.

Lemma load_long_run m p :
  0 ≤ p → p + 4 ≤ msize m →
  ∃ l, load_long p m = Done (l, m) ∧ length l = 4%nat ∧ ∀ i, 0 ≤ i < 4 → l !! Z.to_nat i = mget m (p + i).
Proof.
  intros Hp Hl.
  destruct (mget_in m p) as [a Ea]; [lia|]. destruct (mget_in m (p + 1)) as [b Eb]; [lia|].
  destruct (mget_in m (p + 2)) as [c Ec]; [lia|]. destruct (mget_in m (p + 3)) as [d Ed]; [lia|].
  exists [a; b; c; d]. unfold load_long.
  kcall (load_run _ _ _ Ea). kcall (load_run _ _ _ Eb). kcall (load_run _ _ _ Ec). kcall (load_run _ _ _ Ed).
  split; [done|]. split; [done|]. intros i Hi.
  assert (i = 0 ∨ i = 1 ∨ i = 2 ∨ i = 3) as [-> | [-> | [-> | ->]]] by lia;
    rewrite ?Z.add_0_r, ?Ea, ?Eb, ?Ec, ?Ed; done.
Qed.

(** ** Copying *)

(** Units [lo .. hi) of the source are at the destination, the rest as it was. *)
Definition moved (m m' : mem) (dst src lo hi : Z) : Prop :=
  length m' = length m ∧
  ∀ q, mget m' q = if (dst + lo <=? q) && (q <? dst + hi) then mget m (src + (q - dst)) else mget m q.

Lemma moved_nil m dst src i : moved m m dst src i i.
Proof. split; [done|]. intros q. zcase; try done; lia. Qed.

Lemma moved_forwards m m1 m2 dst src i j k :
  moved m m1 dst src i j → moved m1 m2 dst src j k → i ≤ j → j ≤ k →
  dst ≤ src ∨ src + k ≤ dst + i → moved m m2 dst src i k.
Proof.
  intros [L1 H1] [L2 H2] Hij Hjk Hov. split; [congruence|].
  intros q. rewrite H2, !H1. zcase; try done; lia.
Qed.
Lemma moved_backwards m m1 m2 dst src i j k :
  moved m m1 dst src j k → moved m1 m2 dst src i j → i ≤ j → j ≤ k →
  src ≤ dst → moved m m2 dst src i k.
Proof.
  intros [L1 H1] [L2 H2] Hij Hjk Hov. split; [congruence|].
  intros q. rewrite H2, !H1. zcase; try done; lia.
Qed.

Section Copy.
Context (dst src : Z) (Hd : 0 ≤ dst) (Hs : 0 ≤ src).

Lemma copy_byte m i :
  0 ≤ i → dst + i < msize m → src + i < msize m →
  ∃ v m', load (src + i) m = Done (v, m) ∧ store (dst + i) v m = Done (tt, m') ∧ moved m m' dst src i (i + 1).
Proof.
  intros Hi H1 H2. destruct (mget_in m (src + i)) as [v E]; [lia|].
  exists v, (<[Z.to_nat (dst + i) := v]> m). split; [by apply load_run|]. split; [apply store_run; lia|].
  split; [apply length_insert|]. intros q. rewrite mget_store by lia. zcase; try lia; try done.
  subst. by replace (src + (dst + i - dst)) with (src + i) by lia.
Qed.

Lemma copy_long m i :
  0 ≤ i → dst + 4 * i + 4 ≤ msize m → src + 4 * i + 4 ≤ msize m →
  ∃ v m', load_long (src + 4 * i) m = Done (v, m) ∧ store_long (dst + 4 * i) v m = Done (tt, m') ∧
    moved m m' dst src (4 * i) (4 * (i + 1)).
Proof.
  intros Hi H1 H2. destruct (load_long_run m (src + 4 * i)) as (v & E & Hl & Hv); [lia|lia|].
  destruct (store_bytes_run v m (dst + 4 * i)) as (m' & Em & HL & Hq); [lia|lia|].
  exists v, m'. split; [done|]. split; [done|]. split; [done|].
  intros q. rewrite Hq, Hl. change (Z.of_nat 4) with 4. zcase; try lia; try done.
  rewrite Hv by lia. f_equal. lia.
Qed.

Lemma copy_bytes_ok k m i :
  0 ≤ i → dst + i + Z.of_nat k ≤ msize m → src + i + Z.of_nat k ≤ msize m →
  dst ≤ src ∨ src + i + Z.of_nat k ≤ dst + i →
  ∃ m', copy_bytes dst src i k m = Done (tt, m') ∧ moved m m' dst src i (i + Z.of_nat k).
Proof.
  revert m i. induction k as [|k IH]; intros m i Hi H1 H2 Hov; cbn [copy_bytes].
  - exists m. split; [done|]. replace (i + Z.of_nat 0) with i by lia. apply moved_nil.
  - destruct (copy_byte m i) as (v & m1 & E1 & E2 & M1); [lia|lia|lia|].
    kcall E1. kcall E2. destruct (M1) as [L1 _].
    destruct (IH m1 (i + 1)) as (m' & E & M); [lia|rewrite L1; lia|rewrite L1; lia|lia|].
    exists m'. split; [done|]. replace (i + Z.of_nat (S k)) with (i + 1 + Z.of_nat k) by lia.
    eapply moved_forwards; [exact M1|exact M|lia|lia|lia].
Qed.

Lemma copy_longs_ok k m i :
  0 ≤ i → dst + 4 * (i + Z.of_nat k) ≤ msize m → src + 4 * (i + Z.of_nat k) ≤ msize m →
  dst ≤ src ∨ src + 4 * (i + Z.of_nat k) ≤ dst + 4 * i →
  ∃ m', copy_longs dst src i k m = Done (tt, m') ∧ moved m m' dst src (4 * i) (4 * (i + Z.of_nat k)).
Proof.
  revert m i. induction k as [|k IH]; intros m i Hi H1 H2 Hov; cbn [copy_longs]; unfold sizeof_long.
  - exists m. split; [done|]. replace (i + Z.of_nat 0) with i by lia. apply moved_nil.
  - destruct (copy_long m i) as (v & m1 & E1 & E2 & M1); [lia|lia|lia|].
    kcall E1. kcall E2. destruct (M1) as [L1 _].
    destruct (IH m1 (i + 1)) as (m' & E & M); [lia|rewrite L1; lia|rewrite L1; lia|lia|].
    exists m'. split; [done|]. replace (i + Z.of_nat (S k)) with (i + 1 + Z.of_nat k) by lia.
    eapply moved_forwards; [exact M1|exact M|lia|lia|lia].
Qed.

Lemma copy_bytes_back_ok k m :
  src ≤ dst → dst + Z.of_nat k ≤ msize m → src + Z.of_nat k ≤ msize m →
  ∃ m', copy_bytes_back dst src k m = Done (tt, m') ∧ moved m m' dst src 0 (Z.of_nat k).
Proof.
  intros Hov. revert m. induction k as [|k IH]; intros m H1 H2; cbn [copy_bytes_back].
  - exists m. split; [done|]. apply moved_nil.
  - destruct (copy_byte m (Z.of_nat k)) as (v & m1 & E1 & E2 & M1); [lia|lia|lia|].
    kcall E1. kcall E2. destruct (M1) as [L1 _].
    destruct (IH m1) as (m' & E & M); [rewrite L1; lia|rewrite L1; lia|].
    exists m'. split; [done|]. replace (Z.of_nat (S k)) with (Z.of_nat k + 1) by lia.
    eapply moved_backwards; [exact M1|exact M|lia|lia|lia].
Qed.

Lemma copy_longs_back_ok k m :
  src ≤ dst → dst + 4 * Z.of_nat k ≤ msize m → src + 4 * Z.of_nat k ≤ msize m →
  ∃ m', copy_longs_back dst src k m = Done (tt, m') ∧ moved m m' dst src 0 (4 * Z.of_nat k).
Proof.
  intros Hov. revert m. induction k as [|k IH]; intros m H1 H2; cbn [copy_longs_back]; unfold sizeof_long.
  - exists m. split; [done|]. apply moved_nil.
  - destruct (copy_long m (Z.of_nat k)) as (v & m1 & E1 & E2 & M1); [lia|lia|lia|].
    kcall E1. kcall E2. destruct (M1) as [L1 _].
    destruct (IH m1) as (m' & E & M); [rewrite L1; lia|rewrite L1; lia|].
    exists m'. split; [done|]. replace (Z.of_nat (S k)) with (Z.of_nat k + 1) by lia.
    eapply moved_backwards; [exact M1|exact M|lia|lia|lia].
Qed.

Lemma by_longs_len len : 0 ≤ len → by_longs dst src len = true → 4 * Z.of_nat (Z.to_nat (len / sizeof_long)) = len.
Proof.
  unfold by_longs, sizeof_long. intros Hl [_ E%Z.eqb_eq]%andb_true_iff.
  pose proof (Z.div_mod len 4 ltac:(lia)). pose proof (Z.div_pos len 4 Hl ltac:(lia)). lia.
Qed.

Lemma memcpy_ok m len :
  0 ≤ len → dst + len ≤ msize m → src + len ≤ msize m → dst ≤ src ∨ src + len ≤ dst →
  ∃ m', memcpy dst src len m = Done (dst, m') ∧ moved m m' dst src 0 len.
Proof.
  intros Hl H1 H2 Hov. unfold memcpy. destruct (by_longs dst src len) eqn:E.
  - pose proof (by_longs_len len Hl E) as E4.
    destruct (copy_longs_ok (Z.to_nat (len / sizeof_long)) m 0) as (m' & Er & M); [lia..|].
    kcall Er. exists m'. split; [done|]. by rewrite Z.add_0_l, E4 in M.
  - destruct (copy_bytes_ok (Z.to_nat len) m 0) as (m' & Er & M); [lia..|].
    kcall Er. exists m'. split; [done|]. by replace (0 + Z.of_nat (Z.to_nat len)) with len in M by lia.
Qed.

Lemma memmove_ok m len :
  0 ≤ len → dst + len ≤ msize m → src + len ≤ msize m →
  ∃ m', memmove dst src len m = Done (dst, m') ∧ moved m m' dst src 0 len.
Proof.
  intros Hl H1 H2. unfold memmove. destruct (Z.ltb_spec dst src); [apply memcpy_ok; lia|].
  destruct (by_longs dst src len) eqn:E.
  - pose proof (by_longs_len len Hl E) as E4.
    destruct (copy_longs_back_ok (Z.to_nat (len / sizeof_long)) m) as (m' & Er & M); [lia..|].
    kcall Er. exists m'. split; [done|]. by rewrite E4 in M.
  - destruct (copy_bytes_back_ok (Z.to_nat len) m) as (m' & Er & M); [lia..|].
    kcall Er. exists m'. split; [done|]. by replace (Z.of_nat (Z.to_nat len)) with len in M by lia.
Qed.
End Copy.

(** ** Strings *)

(** A NUL-terminated string with the bytes [l] at [p]. *)
Fixpoint cstr (m : mem) (p : Z) (l : list Z) : Prop :=
  match l with
  | [] => mget m p = Some 0
  | c :: l => mget m p = Some c ∧ c ≠ 0 ∧ cstr m (p + 1) l
  end.

Lemma cstr_bounds m p l : cstr m p l → 0 ≤ p ∧ p + Z.of_nat (length l) < msize m.
Proof.
  revert p. induction l as [|c l IH]; intros p; cbn [cstr length].
  - intros E%mget_Some. lia.
  - intros (E%mget_Some & _ & H%IH). lia.
Qed.

Lemma cstr_fuel m p l : cstr m p l → (length l < S (length m))%nat.
Proof. intros H%cstr_bounds. lia. Qed.

Lemma cstr_same m m' p l :
  cstr m p l → (∀ q, p ≤ q ≤ p + Z.of_nat (length l) → mget m' q = mget m q) → cstr m' p l.
Proof.
  revert p. induction l as [|c l IH]; intros p; cbn [cstr length].
  - intros E H. rewrite H by lia. done.
  - intros (E & Hc & Hl) H. rewrite H by lia. split_and!; [done|done|].
    apply IH; [done|]. intros q Hq. apply H. lia.
Qed.

Lemma cstr_app m p l1 l2 : cstr m p (l1 ++ l2) → cstr m (p + Z.of_nat (length l1)) l2.
Proof.
  revert p. induction l1 as [|c l IH]; intros p; cbn [app cstr length].
  - by replace (p + Z.of_nat 0) with p by lia.
  - intros (_ & _ & H%IH). by replace (p + Z.of_nat (S (length l))) with (p + 1 + Z.of_nat (length l)) by lia.
Qed.

Lemma cstr_chars m p l : cstr m p l → Forall (λ c, c ≠ 0) l.
Proof. revert p. induction l as [|c l IH]; intros p; cbn [cstr]; [done|]. intros (_ & Hc & H). eauto. Qed.

Lemma strlen_loop_run l fuel m p r :
  (length l < fuel)%nat → cstr m (p + r) l → strlen_loop fuel p r m = Done (r + Z.of_nat (length l), m).
Proof.
  revert fuel r. induction l as [|c l IH]; intros [|fuel] r Hf; try (cbn in Hf; lia); cbn [cstr strlen_loop length].
  - intros E. kcall (load_run _ _ _ E). rewrite Z.eqb_refl. by rewrite Z.add_0_r.
  - intros (E & Hc & Hl). kcall (load_run _ _ _ E). rewrite (proj2 (Z.eqb_neq c 0) Hc).
    rewrite IH; [|cbn in Hf; lia|by rewrite Z.add_assoc]. f_equal. f_equal. lia.
Qed.
Lemma strlen_run m p l : cstr m p l → strlen p m = Done (Z.of_nat (length l), m).
Proof.
  intros H. unfold strlen, with_fuel. ksteps.
  apply (strlen_loop_run l (S (length m)) m p 0); [by eapply cstr_fuel|by rewrite Z.add_0_r].
Qed.

(** [strchr] finds what [char_index] finds, the NUL included. *)
Lemma strchr_loop_run l fuel m p ch :
  (length l < fuel)%nat → cstr m p l →
  strchr_loop fuel p ch m = Done ((λ i, p + Z.of_nat i) <$> char_index ch (l ++ [0]), m).
Proof.
  revert fuel p. induction l as [|c l IH]; intros [|fuel] p Hf; try (cbn in Hf; lia); cbn [cstr strchr_loop app char_index].
  - intros E. kcall (load_run _ _ _ E). rewrite Z.eqb_refl. destruct (0 =? ch); [|done].
    cbn. by rewrite Z.add_0_r.
  - intros (E & Hc & Hl). kcall (load_run _ _ _ E). rewrite (proj2 (Z.eqb_neq c 0) Hc).
    destruct (c =? ch); [cbn; by rewrite Z.add_0_r|].
    rewrite IH; [|cbn in Hf; lia|done]. destruct (char_index ch (l ++ [0])); [|done].
    csimpl. f_equal. f_equal. f_equal. lia.
Qed.
Lemma strchr_run m p l ch :
  0 ≤ ch < 256 → cstr m p l →
  strchr p ch m = Done ((λ i, p + Z.of_nat i) <$> char_index ch (l ++ [0]), m).
Proof.
  intros Hch H. unfold strchr, with_fuel. ksteps. nowrap.
  apply strchr_loop_run; [by eapply cstr_fuel|done].
Qed.

Lemma char_index_Some ch l i : char_index ch l = Some i → l !! i = Some ch.
Proof.
  revert i. induction l as [|c l IH]; intros i; cbn [char_index]; [done|].
  destruct (Z.eqb_spec c ch); [by intros [= <-]; subst|].
  destruct (char_index ch l); [|done]. intros [= <-]. cbn. by apply IH.
Qed.
Lemma char_index_None ch l : char_index ch l = None ↔ ch ∉ l.
Proof.
  induction l as [|c l IH]; cbn [char_index]; [split; [intros _; apply not_elem_of_nil|done]|].
  rewrite not_elem_of_cons, <- IH. destruct (Z.eqb_spec c ch).
  - split; [done|]. intros [? _]. congruence.
  - destruct (char_index ch l); split; try done; naive_solver.
Qed.

(** Lexicographic order, which [strcmp] reports. *)
Fixpoint lex (a b : list Z) : Z :=
  match a, b with
  | [], [] => 0
  | [], _ :: _ => -1
  | _ :: _, [] => 1
  | x :: a, y :: b => if x =? y then lex a b else if y <? x then 1 else -1
  end.

Lemma lex_eq a b : lex a b = 0 ↔ a = b.
Proof.
  revert b. induction a as [|x a IH]; intros [|y b]; cbn [lex]; try (split; [done|congruence]).
  destruct (Z.eqb_spec x y); [rewrite IH; subst; split; [by intros ->|by intros [=]]|].
  destruct (y <? x); split; [done|congruence|done|congruence].
Qed.

Lemma strcmp_loop_run a fuel m p q i b :
  (length a < fuel)%nat → Forall (λ c, 0 ≤ c) a → Forall (λ c, 0 ≤ c) b →
  cstr m (p + i) a → cstr m (q + i) b →
  ∃ j x y, strcmp_loop fuel p q i m = Done (j, m) ∧ mget m (p + j) = Some x ∧ mget m (q + j) = Some y ∧
    lex a b = (if y <? x then 1 else if x =? y then 0 else -1).
Proof.
  revert fuel i b. induction a as [|x a IH]; intros [|fuel] i b Hf Fa Fb; try (cbn in Hf; lia);
    cbn [cstr strcmp_loop].
  - intros E Hb. kcall (load_run _ _ _ E). cbn [negb Z.eqb].
    destruct b as [|y b]; cbn [cstr] in Hb; [exists i, 0, 0; done|].
    destruct Hb as (Ey & Hy & _). exists i, 0, y. split_and!; [done..|].
    apply Forall_cons in Fb as [Fy _]. cbn [lex]. zcase; (lia || done).
  - intros (E & Hx & Ha) Hb. apply Forall_cons in Fa as [Fx Fa].
    kcall (load_run _ _ _ E). rewrite (proj2 (Z.eqb_neq x 0) Hx). cbn [negb].
    destruct b as [|y b]; cbn [cstr] in Hb.
    + kcall (load_run _ _ _ Hb). rewrite (proj2 (Z.eqb_neq x 0) Hx). exists i, x, 0.
      split_and!; [done..|]. cbn [lex]. zcase; (lia || done).
    + destruct Hb as (Ey & Hy & Hb). apply Forall_cons in Fb as [Fy Fb]. kcall (load_run _ _ _ Ey). cbn [lex].
      destruct (Z.eqb_spec x y).
      * apply IH; [cbn in Hf; lia|done|done|by rewrite Z.add_assoc|by rewrite Z.add_assoc].
      * exists i, x, y. split_and!; [done..|]. zcase; (lia || done).
Qed.
Lemma strcmp_run m p q a b :
  Forall (λ c, 0 ≤ c) a → Forall (λ c, 0 ≤ c) b → cstr m p a → cstr m q b → strcmp p q m = Done (lex a b, m).
Proof.
  intros Fa Fb Ha Hb. unfold strcmp, with_fuel.
  destruct (strcmp_loop_run a (S (length m)) m p q 0 b) as (j & x & y & E & Ex & Ey & ->);
    [by eapply cstr_fuel|done|done|by rewrite Z.add_0_r|by rewrite Z.add_0_r|].
  ksteps. kcall E. kcall (load_run _ _ _ Ex). kcall (load_run _ _ _ Ey). done.
Qed.

(** [strrchr]: the last place of a character. *)
Definition last_index (ch : Z) (l : list Z) : option nat :=
  (λ i, (length l - S i)%nat) <$> char_index ch (reverse l).

Lemma char_index_snoc ch l c :
  last_index ch (l ++ [c]) = if c =? ch then Some (length l) else last_index ch l.
Proof.
  unfold last_index. rewrite reverse_app, length_app. cbn [length].
  change (reverse [c] ++ reverse l) with (c :: reverse l). cbn [char_index].
  destruct (c =? ch); csimpl; [f_equal; lia|]. destruct (char_index ch (reverse l)); csimpl; [f_equal; lia|done].
Qed.

Lemma strrchr_loop_run m p ch l :
  (∀ i c, l !! i = Some c → mget m (p + Z.of_nat i) = Some c) →
  strrchr_loop p ch (length l) m = Done ((λ i, p + Z.of_nat i) <$> last_index ch l, m).
Proof.
  induction l as [|c l IH] using rev_ind; intros H; [done|].
  rewrite length_app, Nat.add_comm, char_index_snoc. cbn [length Nat.add strrchr_loop].
  kcall (load_run m (p + Z.of_nat (length l)) c
           (H (length l) c ltac:(by rewrite lookup_app_r, Nat.sub_diag by lia))).
  destruct (c =? ch); [done|]. apply IH. intros i d Hi. apply H. by apply lookup_app_l_Some.
Qed.

Lemma cstr_lookup m p l i c : cstr m p l → (l ++ [0]) !! i = Some c → mget m (p + Z.of_nat i) = Some c.
Proof.
  revert p i. induction l as [|d l IH]; intros p i; cbn [cstr app].
  - intros E H. destruct i; [|done]. injection H as <-. by rewrite Z.add_0_r.
  - intros (E & _ & Hl) H. destruct i; [injection H as <-; by rewrite Z.add_0_r|].
    replace (p + Z.of_nat (S i)) with (p + 1 + Z.of_nat i) by lia. by apply IH.
Qed.

Lemma strrchr_run m p l ch :
  0 ≤ ch < 256 → cstr m p l →
  strrchr p ch m = Done ((λ i, p + Z.of_nat i) <$> last_index ch (l ++ [0]), m).
Proof.
  intros Hch H. unfold strrchr. kcall (strlen_run _ _ _ H). nowrap.
  replace (Z.to_nat (Z.of_nat (length l) + 1)) with (length (l ++ [0])) by (rewrite length_app; cbn; lia).
  apply strrchr_loop_run. intros i c Hi. by eapply cstr_lookup.
Qed.

(** ** Copying strings *)

(** The bytes [p .. p + n] and [q .. q + k] have nothing in common. *)
Definition apart (p n q k : Z) : Prop := p + n < q ∨ q + k < p.

Lemma strcpy_loop_run l fuel m d p i :
  (length l < fuel)%nat → 0 ≤ d + i → d + i + Z.of_nat (length l) < msize m →
  apart (d + i) (Z.of_nat (length l)) (p + i) (Z.of_nat (length l)) → cstr m (p + i) l →
  ∃ m', strcpy_loop fuel d p i m = Done (i + Z.of_nat (length l), m') ∧ written m m' (d + i) l.
Proof.
  unfold apart. revert fuel m i. induction l as [|c l IH]; intros [|fuel] m i Hf Hd Hm Ha;
    try (cbn in Hf; lia); cbn [cstr strcpy_loop length] in *.
  - intros E. kcall (load_run _ _ _ E). rewrite Z.eqb_refl. exists m. rewrite Z.add_0_r. split; [done|].
    split; [done|]. intros q. cbn [length]. zcase; try done; lia.
  - intros (E & Hc & Hl). kcall (load_run _ _ _ E). rewrite (proj2 (Z.eqb_neq c 0) Hc).
    kcall (store_run m (d + i) c ltac:(lia)).
    destruct (IH fuel (<[Z.to_nat (d + i) := c]> m) (i + 1)) as (m' & E' & L & Hq);
      [lia|lia|rewrite length_insert; lia|lia| |].
    { rewrite Z.add_assoc. apply (cstr_same m); [done|]. intros q Hq. rewrite mget_store by lia. zcase; [lia|done]. }
    exists m'. rewrite E'. split; [f_equal; f_equal; lia|]. rewrite length_insert in L. split; [done|].
    intros q. rewrite Hq, mget_store by lia. cbn [length]. zcase; try lia; try done.
    + by replace (Z.to_nat (q - (d + i))) with (S (Z.to_nat (q - (d + (i + 1))))) by lia.
    + subst. by rewrite Z.sub_diag.
Qed.

Lemma written_snoc m m1 p l v :
  written m m1 p l → 0 ≤ p → p + Z.of_nat (length l) < msize m →
  written m (<[Z.to_nat (p + Z.of_nat (length l)) := v]> m1) p (l ++ [v]).
Proof.
  intros [L Hq] Hp Hm. split; [by rewrite length_insert|].
  intros q. rewrite mget_store, Hq by (rewrite L; lia). rewrite length_app. cbn [length].
  zcase; try lia; try done.
  - rewrite lookup_app_l by lia. done.
  - subst. rewrite lookup_app_r by lia. by replace (Z.to_nat (p + Z.of_nat (length l) - p) - length l)%nat with O by lia.
Qed.

Lemma written_cstr m m' p l :
  0 ≤ p → Forall (λ c, c ≠ 0) l → written m m' p (l ++ [0]) → cstr m' p l.
Proof.
  intros Hp Hl [_ Hq].
  assert (H : ∀ i c, (l ++ [0]) !! i = Some c → mget m' (p + Z.of_nat i) = Some c).
  { intros i c E. rewrite Hq. pose proof (lookup_lt_Some _ _ _ E). zcase; try lia.
    by replace (Z.to_nat (p + Z.of_nat i - p)) with i by lia. }
  clear Hq Hp. revert p H. induction Hl as [|c l Hc Hl IH]; intros p H; cbn [cstr].
  - specialize (H O 0 eq_refl). by rewrite Z.add_0_r in H.
  - split_and!; [specialize (H O c eq_refl); by rewrite Z.add_0_r in H|done|].
    apply IH. intros i d E. specialize (H (S i) d E).
    by replace (p + 1 + Z.of_nat i) with (p + Z.of_nat (S i)) by lia.
Qed.

Lemma strcpy_run m d p l :
  0 ≤ d → d + Z.of_nat (length l) < msize m → apart d (Z.of_nat (length l)) p (Z.of_nat (length l)) →
  cstr m p l →
  ∃ m', strcpy d p m = Done (d, m') ∧ written m m' d (l ++ [0]) ∧ cstr m' d l.
Proof.
  intros Hd Hm Ha H. unfold strcpy, with_fuel.
  destruct (strcpy_loop_run l (S (length m)) m d p 0) as (m1 & E & W);
    [by eapply cstr_fuel|lia|lia|by rewrite !Z.add_0_r|by rewrite Z.add_0_r|].
  ksteps. kcall E. rewrite Z.add_0_r in W. rewrite Z.add_0_l. destruct (W) as [L _].
  kcall (store_run m1 (d + Z.of_nat (length l)) 0 ltac:(rewrite L; lia)).
  eexists. split; [done|].
  assert (W' := written_snoc m m1 d l 0 W Hd Hm). split; [done|].
  eapply written_cstr; [done| |exact W']. by eapply cstr_chars.
Qed.

Lemma strcat_run m d p a b :
  d + Z.of_nat (length a + length b) < msize m →
  apart d (Z.of_nat (length a + length b)) p (Z.of_nat (length b)) →
  cstr m d a → cstr m p b →
  ∃ m', strcat d p m = Done (d, m') ∧ cstr m' d (a ++ b) ∧
    written m m' (d + Z.of_nat (length a)) (b ++ [0]).
Proof.
  unfold apart. intros Hm Hap Ha Hb. unfold strcat. kcall (strlen_run _ _ _ Ha).
  pose proof (cstr_bounds _ _ _ Ha) as Hd.
  destruct (strcpy_run m (d + Z.of_nat (length a)) p b) as (m' & E & W & C); [lia|lia|unfold apart; lia|done|].
  kcall E. exists m'. split; [done|]. split; [|done]. clear E Hm Hap Hb Hd.
  destruct W as [_ Hq]. assert (Hout : ∀ q, q < d + Z.of_nat (length a) → mget m' q = mget m q).
  { intros q Hlt. rewrite Hq. zcase; (lia || done). }
  clear Hq. revert d Ha C Hout. induction a as [|c a IH]; intros d; cbn [cstr app length].
  - by rewrite Z.add_0_r.
  - intros (E & Hc & Ha) C Hout. rewrite Hout by lia. split_and!; [done|done|].
    replace (d + Z.of_nat (S (length a))) with (d + 1 + Z.of_nat (length a)) in * by lia. by apply IH.
Qed.

Lemma bzero_bytes_run k m p i :
  0 ≤ p + i → p + i + Z.of_nat k ≤ msize m →
  ∃ m', bzero_bytes p i k m = Done (tt, m') ∧ written m m' (p + i) (replicate k 0).
Proof.
  revert m i. induction k as [|k IH]; intros m i Hi Hm; cbn [bzero_bytes].
  - exists m. split; [done|]. split; [done|]. intros q. cbn. zcase; try done; lia.
  - kcall (store_run m (p + i) 0 ltac:(lia)).
    destruct (IH (<[Z.to_nat (p + i) := 0]> m) (i + 1)) as (m' & E & L & Hq); [lia|rewrite length_insert; lia|].
    exists m'. split; [done|]. rewrite length_insert in L. split; [done|].
    intros q. rewrite Hq, mget_store by lia. rewrite !length_replicate.
    zcase; try lia; try done; rewrite ?lookup_replicate_2 by lia; done.
Qed.

Lemma bzero_longs_run k m p i :
  0 ≤ p + 4 * i → p + 4 * i + 4 * Z.of_nat k ≤ msize m →
  ∃ m', bzero_longs p i k m = Done (tt, m') ∧ written m m' (p + 4 * i) (replicate (4 * k) 0).
Proof.
  revert m i. induction k as [|k IH]; intros m i Hi Hm; cbn [bzero_longs]; unfold sizeof_long, store_long.
  - exists m. split; [done|]. split; [done|]. intros q. cbn. zcase; try done; lia.
  - destruct (store_bytes_run [0; 0; 0; 0] m (p + 4 * i)) as (m1 & E1 & L1 & Hq1); [lia|cbn; lia|].
    kcall E1. destruct (IH m1 (i + 1)) as (m' & E & L & Hq); [lia|rewrite L1; lia|].
    exists m'. split; [done|]. split; [congruence|].
    intros q. rewrite Hq, Hq1. rewrite !length_replicate. change (Z.of_nat (length [0; 0; 0; 0])) with 4.
    change [0; 0; 0; 0] with (replicate 4 0). zcase; try lia; try done; rewrite !lookup_replicate_2 by lia; done.
Qed.

Lemma bzero_run m p len :
  0 ≤ p → 0 ≤ len → p + len ≤ msize m →
  ∃ m', bzero p len m = Done (tt, m') ∧ written m m' p (replicate (Z.to_nat len) 0).
Proof.
  intros Hp Hl Hm. unfold bzero. destruct (_ && _) eqn:E.
  - apply andb_true_iff in E as [_ E%Z.eqb_eq]. unfold sizeof_long in *.
    pose proof (Z.div_mod len 4 ltac:(lia)). pose proof (Z.div_pos len 4 Hl ltac:(lia)).
    destruct (bzero_longs_run (Z.to_nat (len / 4)) m p 0) as (m' & Er & W); [lia|lia|].
    exists m'. split; [done|]. rewrite Z.mul_0_r, Z.add_0_r in W.
    by replace (4 * Z.to_nat (len / 4))%nat with (Z.to_nat len) in W by lia.
  - destruct (bzero_bytes_run (Z.to_nat len) m p 0) as (m' & Er & W); [lia|lia|].
    exists m'. split; [done|]. by rewrite Z.add_0_r in W.
Qed.

(** ** Splitting a string *)

Section Words.
Context (P : Z → bool).

Fixpoint dropw (l : list Z) : list Z :=
  match l with [] => [] | c :: l' => if P c then dropw l' else l end.
Fixpoint takew (l : list Z) : list Z :=
  match l with [] => [] | c :: l => if P c then [] else c :: takew l end.

(** The maximal runs of characters that are no separators. *)
Definition flush (cur : list Z) (ws : list (list Z)) : list (list Z) :=
  match cur with [] => ws | _ => cur :: ws end.
Fixpoint words_from (cur l : list Z) : list (list Z) :=
  match l with
  | [] => flush cur []
  | c :: l => if P c then flush cur (words_from [] l) else words_from (cur ++ [c]) l
  end.
Definition words (l : list Z) : list (list Z) := words_from [] l.

Lemma words_dropw l : words (dropw l) = words l.
Proof. unfold words. induction l as [|c l IH]; cbn; [done|]. destruct (P c) eqn:E; [done|]. cbn. by rewrite E. Qed.
Lemma words_from_takew cur l :
  words_from cur l = flush (cur ++ takew l) (words (tail (drop (length (takew l)) l))).
Proof.
  revert cur. induction l as [|c l IH]; intros cur; cbn.
  - by rewrite app_nil_r.
  - destruct (P c); cbn; [by rewrite app_nil_r|]. rewrite IH. by rewrite <- app_assoc.
Qed.
Lemma dropw_head l c r : dropw l = c :: r → P c = false.
Proof.
  induction l as [|d l IH]; cbn; [done|]. destruct (P d) eqn:E; [done|]. by intros [= <- _].
Qed.
Lemma words_cons l c r :
  dropw l = c :: r →
  words l = takew (c :: r) :: words (tail (drop (length (takew (c :: r))) (c :: r))).
Proof.
  intros E. rewrite <- words_dropw, E. unfold words at 1. rewrite words_from_takew. cbn [takew app].
  by rewrite (dropw_head _ _ _ E).
Qed.
Lemma words_nil l : dropw l = [] → words l = [].
Proof. intros E. by rewrite <- words_dropw, E. Qed.
Lemma dropw_suffix l : ∃ s, l = s ++ dropw l.
Proof.
  induction l as [|c l [s IH]]; cbn; [by exists []|].
  destruct (P c); [exists (c :: s); cbn; by rewrite <- IH|by exists []].
Qed.
Lemma takew_drop l : takew l ++ drop (length (takew l)) l = l.
Proof. induction l as [|c l IH]; cbn; [done|]. destruct (P c); cbn; [done|]. by rewrite IH. Qed.
End Words.

Definition is_sep (sl : list Z) (c : Z) : bool := bool_decide (c ∈ sl).

Section Strtok.
Context (seps : Z) (sl : list Z).

Lemma strchr_sep m c :
  0 < c < 256 → cstr m seps sl →
  ∃ w, strchr seps c m = Done (w, m) ∧ (if is_sep sl c then w ≠ None else w = None).
Proof.
  intros Hc H. eexists. split; [apply (strchr_run m seps sl c); [lia|done]|].
  unfold is_sep. case_bool_decide as E.
  - destruct (char_index c (sl ++ [0])) eqn:Ei; [done|].
    apply char_index_None in Ei. rewrite elem_of_app in Ei. naive_solver.
  - rewrite (proj2 (char_index_None _ _)); [done|]. rewrite elem_of_app, list_elem_of_singleton. naive_solver lia.
Qed.

Lemma skip_seps_run l fuel m p :
  (length l < fuel)%nat → Forall (λ c, c < 256) l → Forall (λ c, 0 ≤ c) l → cstr m seps sl → cstr m p l →
  skip_seps fuel p seps m = Done (p + Z.of_nat (length l - length (dropw (is_sep sl) l)), m) ∧
  cstr m (p + Z.of_nat (length l - length (dropw (is_sep sl) l))) (dropw (is_sep sl) l).
Proof.
  revert fuel p. induction l as [|c l IH]; intros [|fuel] p Hf F1 F2 Hs; try (cbn in Hf; lia);
    cbn [skip_seps dropw].
  - cbn [cstr]. intros E. kcall (load_run _ _ _ E). rewrite Z.eqb_refl. cbn [length Nat.sub].
    rewrite Z.add_0_r. done.
  - intros Hl. pose proof Hl as (E & Hc & Hl'). apply Forall_cons in F1 as [? F1]. apply Forall_cons in F2 as [? F2].
    kcall (load_run _ _ _ E). rewrite (proj2 (Z.eqb_neq c 0) Hc).
    destruct (strchr_sep m c) as (w & Ew & Hw); [lia|done|]. kcall Ew.
    destruct (is_sep sl c).
    + destruct w; [|done]. destruct (dropw_suffix (is_sep sl) l) as [s Es].
      destruct (IH fuel (p + 1)) as [E1 E2]; [cbn in Hf; lia|done..|].
      pose proof (f_equal length Es) as Hlen. rewrite length_app in Hlen.
      replace (p + Z.of_nat (length (c :: l) - length (dropw (is_sep sl) l)))
        with (p + 1 + Z.of_nat (length l - length (dropw (is_sep sl) l))) by (cbn [length]; lia). done.
    + subst w. rewrite Nat.sub_diag, Z.add_0_r. done.
Qed.

Lemma skip_word_run l fuel m p :
  (length l < fuel)%nat → Forall (λ c, c < 256) l → Forall (λ c, 0 ≤ c) l → cstr m seps sl → cstr m p l →
  skip_word fuel p seps m = Done (p + Z.of_nat (length (takew (is_sep sl) l)), m).
Proof.
  revert fuel p. induction l as [|c l IH]; intros [|fuel] p Hf F1 F2 Hs; try (cbn in Hf; lia);
    cbn [skip_word takew].
  - cbn [cstr]. intros E. kcall (load_run _ _ _ E). rewrite Z.eqb_refl. cbn. by rewrite Z.add_0_r.
  - intros (E & Hc & Hl'). apply Forall_cons in F1 as [? F1]. apply Forall_cons in F2 as [? F2].
    kcall (load_run _ _ _ E). rewrite (proj2 (Z.eqb_neq c 0) Hc).
    destruct (strchr_sep m c) as (w & Ew & Hw); [lia|done|]. kcall Ew.
    destruct (is_sep sl c).
    + destruct w; [|done]. cbn. by rewrite Z.add_0_r.
    + subst w. rewrite IH; [|cbn in Hf; lia|done..]. cbn [length]. f_equal. f_equal. lia.
Qed.

(** A string cut by a NUL written after its first [length w] characters. *)
Lemma cstr_cut m p w r :
  cstr m p (w ++ r) → cstr (<[Z.to_nat (p + Z.of_nat (length w)) := 0]> m) p w.
Proof.
  intros H. pose proof (cstr_bounds _ _ _ H) as Hb. rewrite length_app in Hb.
  assert (Hg : ∀ q, mget (<[Z.to_nat (p + Z.of_nat (length w)) := 0]> m) q =
                    if q =? p + Z.of_nat (length w) then Some 0 else mget m q).
  { intros q. apply mget_store. lia. }
  revert Hg. generalize (<[Z.to_nat (p + Z.of_nat (length w)) := 0]> m) as m'. intros m' Hg.
  clear Hb. revert p H Hg. induction w as [|c w IH]; intros p H Hg; cbn [cstr app length] in *.
  - rewrite Hg, Z.add_0_r. by rewrite Z.eqb_refl.
  - destruct H as (E & Hc & H). split_and!; [rewrite Hg; zcase; [lia|done]|done|].
    apply IH; [done|]. intros q. rewrite Hg. by replace (p + Z.of_nat (S (length w))) with (p + 1 + Z.of_nat (length w)) by lia.
Qed.

(** Everything but the byte at [t] is as it was. *)
Definition same_but (m m' : mem) (t : Z) : Prop :=
  length m' = length m ∧ ∀ q, q ≠ t → mget m' q = mget m q.

(** One call: the first word, cut off, and the rest of the string as context. *)
Lemma strtok_call m p l string context :
  (match string with Some s => Some s | None => context end) = Some p →
  Forall (λ c, c < 256) l → Forall (λ c, 0 ≤ c) l → cstr m seps sl → cstr m p l →
  match dropw (is_sep sl) l with
  | [] => strtok_r string seps context m = Done ((None, None), m)
  | c :: r =>
      let w := takew (is_sep sl) (c :: r) in
      let head := p + Z.of_nat (length l - length (c :: r)) in
      let t := head + Z.of_nat (length w) in
      ∃ m', strtok_r string seps context m =
              Done ((Some head, match drop (length w) (c :: r) with [] => None | _ => Some (t + 1) end), m') ∧
        same_but m m' t ∧ cstr m' head w ∧
        (drop (length w) (c :: r) ≠ [] → cstr m' (t + 1) (tail (drop (length w) (c :: r))))
  end.
Proof.
  intros Harg F1 F2 Hs Hl. unfold strtok_r. rewrite Harg. unfold with_fuel.
  destruct (skip_seps_run l (S (length m)) m p) as [E1 C1]; [by eapply cstr_fuel|done..|].
  destruct (dropw_suffix (is_sep sl) l) as [s Es].
  destruct (dropw (is_sep sl) l) as [|c r] eqn:Ed.
  - ksteps. kcall E1. cbn [cstr] in C1. kcall (load_run _ _ _ C1). done.
  - set (head := p + Z.of_nat (length l - length (c :: r))) in *.
    rewrite Es in F1, F2. apply Forall_app in F1 as [_ F1]. apply Forall_app in F2 as [_ F2].
    pose proof (takew_drop (is_sep sl) (c :: r)) as Ew.
    pose proof (skip_word_run (c :: r) (S (length m)) m head
                  ltac:(by eapply cstr_fuel) F1 F2 Hs C1) as E2.
    assert (C1' := C1). destruct C1' as (Eh & Hc & _).
    set (w := takew (is_sep sl) (c :: r)) in *. cbv zeta. fold w.
    assert (Ct : cstr m (head + Z.of_nat (length w)) (drop (length w) (c :: r))).
    { apply cstr_app. by rewrite Ew. }
    ksteps. kcall E1. kcall (load_run _ _ _ Eh). rewrite (proj2 (Z.eqb_neq c 0) Hc). ksteps. kcall E2.
    destruct (drop (length w) (c :: r)) as [|x r'].
    + cbn [cstr] in Ct. kcall (load_run _ _ _ Ct). exists m. split; [done|].
      split_and!; [by split|by rewrite app_nil_r in Ew; rewrite Ew|done].
    + pose proof (cstr_bounds _ _ _ Ct) as Hb. destruct Ct as (Et & Hx & Ct). kcall (load_run _ _ _ Et). rewrite (proj2 (Z.eqb_neq x 0) Hx).
      kcall (store_run m (head + Z.of_nat (length w)) 0 ltac:(lia)).
      eexists. split; [done|]. split_and!.
      * split; [apply length_insert|]. intros q Hq. rewrite mget_store by lia. zcase; [lia|done].
      * apply (cstr_cut m head w (x :: r')). by rewrite Ew.
      * intros _. cbn [tail]. apply (cstr_same m); [done|]. intros q Hq. rewrite mget_store by lia. zcase; [lia|done].
Qed.
End Strtok.

(** ** The functions against their specifications *)

(** C35. [memmove] copies any block of memory to any other, overlapping or not,
    [memcpy] does when the blocks are apart or the destination is lower, and
    [bzero] zeroes a block: each returns, the block holds what it should, and
    no other byte changes, whether the copy goes by bytes or by words. *)
Theorem memory_functions m dst src n :
  0 ≤ dst → 0 ≤ src → 0 ≤ n → dst + n ≤ msize m → src + n ≤ msize m →
  (∃ m', memmove dst src n m = Done (dst, m') ∧ moved m m' dst src 0 n) ∧
  (dst ≤ src ∨ src + n ≤ dst → ∃ m', memcpy dst src n m = Done (dst, m') ∧ moved m m' dst src 0 n) ∧
  (∃ m', bzero dst n m = Done (tt, m') ∧ written m m' dst (replicate (Z.to_nat n) 0)).
Proof.
  intros Hd Hs Hn H1 H2. split_and!.
  - by apply memmove_ok.
  - intros. by apply memcpy_ok.
  - by apply bzero_run.
Qed.

Lemma memory_functions_witness :
  (∃ m', memmove 2 0 5 [1; 2; 3; 4; 5; 6; 7; 8] = Done (2, m') ∧ moved [1; 2; 3; 4; 5; 6; 7; 8] m' 2 0 0 5) ∧
  memmove 2 0 5 [1; 2; 3; 4; 5; 6; 7; 8] = Done (2, [1; 2; 1; 2; 3; 4; 5; 8]).
Proof.
  split; [|vm_compute; reflexivity].
  apply (memory_functions [1; 2; 3; 4; 5; 6; 7; 8] 2 0 5); cbn; lia.
Defined.

(** C36. The string functions on strings in memory: [strlen] gives the length,
    [strchr] and [strrchr] the first and the last place of a character (of the
    NUL too), [strcmp] the sign of the lexicographic order on unsigned bytes,
    zero only for equal strings; [strcpy] and [strcat], given room apart from
    the source, leave the source's bytes, or both strings joined, as a string
    at the destination, and change no other byte. *)
Theorem string_functions m p q a b c :
  Forall (λ x, 0 ≤ x < 256) a → Forall (λ x, 0 ≤ x < 256) b → 0 ≤ c < 256 → cstr m p a → cstr m q b →
  strlen p m = Done (Z.of_nat (length a), m) ∧
  strchr p c m = Done ((λ i, p + Z.of_nat i) <$> char_index c (a ++ [0]), m) ∧
  strrchr p c m = Done ((λ i, p + Z.of_nat i) <$> last_index c (a ++ [0]), m) ∧
  strcmp p q m = Done (lex a b, m) ∧ (lex a b = 0 ↔ a = b) ∧
  (∀ d, 0 ≤ d → d + Z.of_nat (length a) < msize m → apart d (Z.of_nat (length a)) p (Z.of_nat (length a)) →
     ∃ m', strcpy d p m = Done (d, m') ∧ written m m' d (a ++ [0]) ∧ cstr m' d a) ∧
  (q + Z.of_nat (length b + length a) < msize m → apart q (Z.of_nat (length b + length a)) p (Z.of_nat (length a)) →
     ∃ m', strcat q p m = Done (q, m') ∧ cstr m' q (b ++ a) ∧ written m m' (q + Z.of_nat (length b)) (a ++ [0])).
Proof.
  intros Fa Fb Hc Ha Hb. split_and!.
  - by apply strlen_run.
  - by apply strchr_run.
  - by apply strrchr_run.
  - apply strcmp_run; [eapply Forall_impl; [exact Fa|]; cbn; lia|eapply Forall_impl; [exact Fb|]; cbn; lia|done|done].
  - apply lex_eq.
  - intros d Hd Hm Hap. by apply strcpy_run.
  - intros Hm Hap. by apply strcat_run.
Qed.

Lemma string_functions_witness :
  let m := [97; 98; 97; 0; 120; 0; 0; 0; 0] in
  strlen 0 m = Done (3, m) ∧ strrchr 0 97 m = Done (Some 2, m) ∧ strcmp 0 4 m = Done (-1, m) ∧
  strcat 4 0 m = Done (4, [97; 98; 97; 0; 120; 97; 98; 97; 0]).
Proof.
  intros m. destruct (string_functions m 0 4 [97; 98; 97] [120] 97) as (H1 & _ & H3 & H4 & _);
    [by repeat constructor|by repeat constructor|lia|by repeat split|by repeat split|].
  split_and!; [exact H1|exact H3|exact H4|vm_compute; reflexivity].
Defined.
