(* ===== verification/Menu.v ===== *)
(** * Console lines and the kernel menu (kern/lib/kgets.c, kern/startup/menu.c)

    The line editor, the splitting of a line into commands and of a command
    into words with [strtok_r], and the command table.  The commands themselves
    are a parameter; what they print on the console and when they run is kept
    as a list of events. *)

From Stdlib Require Import String Ascii.
From stdpp Require Import base numbers list.
From Stdlib Require Import ZArith Lia.
From S2P Require Import Prelude CString.

Open Scope Z_scope.
Local Close Scope string_scope.
Open Scope kernel_scope.

Definition MAXMENUARGS : Z := 16.

(** What the menu does that can be seen: a command run with its words, and the
    messages printed. *)
Inductive event :=
  | Ran (i : nat) (args : list (list Z))
  | Took (secs nsecs : Z)
  | TooManyWords
  | NotFound (arg0 : list Z)
  | Echo (command : list Z)
  | CommandFailed (result : Z)
  | Prompt.

Record console := mk_console {
  c_mem : mem;
  c_keys : list Z;        (** characters typed and not yet read *)
  c_out : list Z;         (** characters put on the screen *)
  c_log : list event;
  c_ticks : nat           (** readings of the clock so far *)
}.

Definition set_mem (m : mem) (s : console) : console :=
  mk_console m (c_keys s) (c_out s) (c_log s) (c_ticks s).
Definition emit (es : list event) (s : console) : console :=
  mk_console (c_mem s) (c_keys s) (c_out s) (c_log s ++ es) (c_ticks s).
Definition in_mem {A} (c : K mem A) : K console A := kzoom c_mem set_mem c.
Definition say (e : event) : K console unit := kmodify (emit [e]).

(** ** Reading a line *)

Definition putch (ch : Z) : K console unit :=
  kmodify (λ s, mk_console (c_mem s) (c_keys s) (c_out s ++ [u8 ch]) (c_log s) (c_ticks s)).
Definition getch : K console Z := λ s,
  match c_keys s with
  | [] => Hang
  | ch :: keys => Done (ch, mk_console (c_mem s) keys (c_out s) (c_log s) (c_ticks s))
  end.

Definition backsp : K console unit := putch 8 ;; putch 32 ;; putch 8.

Fixpoint putstr (l : list Z) : K console unit :=
  match l with [] => kret tt | c :: l => putch c ;; putstr l end.

(** The bytes of the string at [p], as [%s] prints them. *)
Fixpoint read_str_loop (fuel : nat) (p : Z) : K mem (list Z) :=
  match fuel with
  | O => khang
  | S fuel => c <- load p ;; if c =? 0 then kret [] else l <- read_str_loop fuel (p + 1) ;; kret (c :: l)
  end.
Definition read_str (p : Z) : K mem (list Z) := with_fuel (λ fuel, read_str_loop fuel p).

(** Backspaces over what [P] holds of, from the end; [k] characters at most. *)
Fixpoint erase (P : Z → bool) (buf : Z) (k : nat) : K console nat :=
  match k with
  | O => kret O
  | S k' => c <- in_mem (load (buf + Z.of_nat k')) ;; if P c then backsp ;; erase P buf k' else kret k
  end.
Fixpoint erase_all (k : nat) : K console unit :=
  match k with O => kret tt | S k => backsp ;; erase_all k end.

(** The keys that do not end the line. *)
Definition kgets_key (buf maxlen : Z) (pos : nat) (ch : Z) : K console nat :=
  if (32 <=? ch) && (ch <? 127) && (Z.of_nat pos <? u32 (maxlen - 1)) then
    putch ch ;;
    in_mem (store (buf + Z.of_nat pos) ch) ;;
    kret (S pos)
  else if ((ch =? 8) || (ch =? 127)) && (0 <? Z.of_nat pos) then
    backsp ;;
    kret (Nat.pred pos)
  else if ch =? 18 then
    in_mem (store (buf + Z.of_nat pos) 0) ;;
    l <- in_mem (read_str buf) ;;
    putstr ([94; 82; 10] ++ l) ;;
    kret pos
  else if ch =? 21 then
    erase_all pos ;;
    kret O
  else if ch =? 23 then
    pos <- erase (λ c, c =? 32) buf pos ;;
    erase (λ c, negb (c =? 32)) buf pos
  else
    putch 7 ;;
    kret pos.

Fixpoint kgets_loop (fuel : nat) (buf maxlen : Z) (pos : nat) : K console nat :=
  match fuel with
  | O => khang
  | S fuel =>
      ch <- getch ;;
      if (ch =? 10) || (ch =? 13) then putch 10 ;; kret pos
      else if ch =? 3 then putch 94 ;; putch 67 ;; putch 10 ;; kret O
      else pos <- kgets_key buf maxlen pos ch ;; kgets_loop fuel buf maxlen pos
  end.
Definition kgets (buf maxlen : Z) : K console unit :=
  s <- kget ;;
  pos <- kgets_loop (S (length (c_keys s))) buf maxlen 0 ;;
  in_mem (store (buf + Z.of_nat pos) 0).

(** ** Commands *)

(** The names of the command table (no network, no synchronisation problems). *)
Definition cmdnames : list (list Z) := chars <$>
  ["?"; "h"; "help"; "?o"; "?t"; "s"; "p"; "mount"; "unmount"; "bootfs"; "pf"; "cd"; "pwd"; "sync";
   "panic"; "q"; "exit"; "halt"; "kh"; "at"; "bt"; "km1"; "km2"; "tt1"; "tt2"; "tt3"; "sy1"; "sy2";
   "sy3"; "uw1"; "fs1"; "fs2"; "fs3"; "fs4"; "fs5"]%string.

(** [time_t] is 64 bits wide and the nanoseconds 32. *)
Definition getinterval (s1 ns1 s2 ns2 : Z) : Z * Z :=
  let '(ns2, s2) := if ns2 <? ns1 then (u32 (ns2 + 1000000000), i64 (s2 - 1)) else (ns2, s2) in
  (i64 (s2 - s1), u32 (ns2 - ns1)).

Section Menu.
(** The string constants of menu.c, the command functions and the clock. *)
Context (blanks semicolon : Z) (names : list Z).
Context (func : nat → list Z → K mem Z) (clock : nat → Z * Z).

Definition gettime : K console (Z * Z) := λ s,
  Done (clock (c_ticks s), mk_console (c_mem s) (c_keys s) (c_out s) (c_log s) (S (c_ticks s))).

(** The loop over the words: too many, or the array of them. *)
Fixpoint gather (fuel : nat) (string context : option Z) (args : list Z) : K console (Z + list Z) :=
  match fuel with
  | O => khang
  | S fuel =>
      let* (word, context) := in_mem (strtok_r string blanks context) in
      match word with
      | None => kret (inr args)
      | Some word =>
          if MAXMENUARGS <=? Z.of_nat (length args) then
            say TooManyWords ;;
            kret (inl E2BIG)
          else gather fuel None context (args ++ [word])
      end
  end.

(** The first entry of the table with the name at [arg0]; [i] entries are passed. *)
Fixpoint find_cmd (arg0 : Z) (names : list Z) (i : nat) : K mem (option nat) :=
  match names with
  | [] => kret None
  | name :: names =>
      c <- load name ;;
      if negb (c =? 0) then
        r <- strcmp arg0 name ;;
        if r =? 0 then kret (Some i) else find_cmd arg0 names (S i)
      else find_cmd arg0 names (S i)
  end.

Fixpoint read_strs (ps : list Z) : K mem (list (list Z)) :=
  match ps with
  | [] => kret []
  | p :: ps => l <- read_str p ;; ls <- read_strs ps ;; kret (l :: ls)
  end.

Definition cmd_dispatch (cmd : Z) : K console Z :=
  s <- kget ;;
  r <- gather (S (length (c_mem s))) (Some cmd) None [] ;;
  match r with
  | inl e => kret e
  | inr [] => kret 0
  | inr (arg0 :: rest) =>
      i <- in_mem (find_cmd arg0 names 0) ;;
      match i with
      | Some i =>
          let* (s1, ns1) := gettime in
          ws <- in_mem (read_strs (arg0 :: rest)) ;;
          say (Ran i ws) ;;
          result <- in_mem (func i (arg0 :: rest)) ;;
          let* (s2, ns2) := gettime in
          say (let '(secs, nsecs) := getinterval s1 ns1 s2 ns2 in Took (u32 secs) nsecs) ;;
          kret result
      | None =>
          w <- in_mem (read_str arg0) ;;
          say (NotFound w) ;;
          kret EINVAL
      end
  end.

Fixpoint execute_loop (fuel : nat) (string context : option Z) (isargs : bool) : K console unit :=
  match fuel with
  | O => khang
  | S fuel =>
      let* (command, context) := in_mem (strtok_r string semicolon context) in
      match command with
      | None => kret tt
      | Some command =>
          (if isargs then w <- in_mem (read_str command) ;; say (Echo w) else kret tt) ;;
          result <- cmd_dispatch command ;;
          (if negb (result =? 0) then
             say (CommandFailed result) ;;
             if isargs then kpanic else kret tt
           else kret tt) ;;
          execute_loop fuel None context isargs
      end
  end.
Definition menu_execute (line : Z) (isargs : bool) : K console unit :=
  s <- kget ;; execute_loop (S (length (c_mem s))) (Some line) None isargs.

(** [menu]: the boot arguments, then [n] rounds of its endless loop. *)
Fixpoint menu_rounds (buf : Z) (n : nat) : K console unit :=
  match n with
  | O => kret tt
  | S n => say Prompt ;; kgets buf 64 ;; menu_execute buf false ;; menu_rounds buf n
  end.
Definition menu (args buf : Z) (n : nat) : K console unit :=
  menu_execute args true ;; menu_rounds buf n.
End Menu.

(** ** Memory a command line leaves alone *)

Abbreviation sep_blank := (is_sep [32; 9]).
Abbreviation sep_semi := (is_sep [59]).
Abbreviation len l := (Z.of_nat (length l)).

Definition bytes (l : list Z) : Prop := Forall (λ c, 0 ≤ c < 256) l.

Lemma bytes_split l : bytes l → Forall (λ c, c < 256) l ∧ Forall (λ c, 0 ≤ c) l.
Proof. unfold bytes. intros H. split; eapply Forall_impl; try exact H; cbn; lia. Qed.

Definition unchanged (m m' : mem) (lo hi : Z) : Prop :=
  length m' = length m ∧ ∀ q, q < lo ∨ hi < q → mget m' q = mget m q.

Lemma unchanged_refl m lo hi : unchanged m m lo hi.
Proof. by split. Qed.
Lemma unchanged_trans m1 m2 m3 lo hi : unchanged m1 m2 lo hi → unchanged m2 m3 lo hi → unchanged m1 m3 lo hi.
Proof. intros [L1 H1] [L2 H2]. split; [congruence|]. intros q Hq. by rewrite H2, H1. Qed.
Lemma unchanged_mono m m' lo hi lo' hi' :
  unchanged m m' lo' hi' → lo ≤ lo' → hi' ≤ hi → unchanged m m' lo hi.
Proof. intros [L H] ? ?. split; [done|]. intros q Hq. apply H. lia. Qed.
Lemma cstr_unchanged m m' lo hi p l :
  cstr m p l → unchanged m m' lo hi → p + len l < lo ∨ hi < p → cstr m' p l.
Proof. intros H [_ Hq] Hap. apply (cstr_same m); [done|]. intros q ?. apply Hq. lia. Qed.
Lemma same_but_unchanged m m' t lo hi : same_but m m' t → lo ≤ t ≤ hi → unchanged m m' lo hi.
Proof. intros [L H] Ht. split; [done|]. intros q Hq. apply H. lia. Qed.

(** A string kept out of [lo .. hi], and one inside it. *)
Definition outside (m : mem) (lo hi p : Z) (l : list Z) : Prop := cstr m p l ∧ (p + len l < lo ∨ hi < p).
Definition placed (m : mem) (lo hi p : Z) (l : list Z) : Prop := cstr m p l ∧ lo ≤ p ∧ p + len l ≤ hi.

Lemma outside_mono m lo hi lo' hi' p l : outside m lo hi p l → lo ≤ lo' → hi' ≤ hi → outside m lo' hi' p l.
Proof. intros [H ?] ? ?. split; [done|lia]. Qed.
Lemma outside_unchanged m m' lo hi p l : outside m lo hi p l → unchanged m m' lo hi → outside m' lo hi p l.
Proof. intros [H ?] U. split; [by eapply cstr_unchanged|done]. Qed.

Section MenuProofs.
Context (blanks semicolon : Z) (names : list Z).
Context (func : nat → list Z → K mem Z) (clock : nat → Z * Z).

Definition consts (m : mem) (lo hi : Z) : Prop :=
  outside m lo hi blanks [32; 9] ∧ outside m lo hi semicolon [59] ∧ Forall2 (outside m lo hi) names cmdnames.

Lemma consts_mono m lo hi lo' hi' : consts m lo hi → lo ≤ lo' → hi' ≤ hi → consts m lo' hi'.
Proof.
  intros (H1 & H2 & H3) ? ?. split_and!; [by eapply outside_mono..|].
  eapply Forall2_impl; [exact H3|]. intros ???. by eapply outside_mono.
Qed.
Lemma consts_unchanged m m' lo hi : consts m lo hi → unchanged m m' lo hi → consts m' lo hi.
Proof.
  intros (H1 & H2 & H3) U. split_and!; [by eapply outside_unchanged..|].
  eapply Forall2_impl; [exact H3|]. intros ???. by eapply outside_unchanged.
Qed.

Lemma in_mem_run {A} (c : K mem A) s a m' : c (c_mem s) = Done (a, m') → in_mem c s = Done (a, set_mem m' s).
Proof. intros E. unfold in_mem, kzoom. by rewrite E. Qed.
Lemma in_mem_read {A} (c : K mem A) s a : c (c_mem s) = Done (a, c_mem s) → in_mem c s = Done (a, s).
Proof. intros E. rewrite (in_mem_run _ _ _ _ E). by destruct s. Qed.

Lemma read_str_loop_run l fuel m p :
  (length l < fuel)%nat → cstr m p l → read_str_loop fuel p m = Done (l, m).
Proof.
  revert fuel p. induction l as [|c l IH]; intros [|fuel] p Hf; try (cbn in Hf; lia); cbn [cstr read_str_loop].
  - intros E. kcall (load_run _ _ _ E). done.
  - intros (E & Hc & Hl). kcall (load_run _ _ _ E). rewrite (proj2 (Z.eqb_neq c 0) Hc).
    kcall (IH fuel (p + 1) ltac:(cbn in Hf; lia) Hl). done.
Qed.
Lemma read_str_run m p l : cstr m p l → read_str p m = Done (l, m).
Proof. intros H. unfold read_str, with_fuel. ksteps. apply read_str_loop_run; [by eapply cstr_fuel|done]. Qed.
Lemma read_strs_run m ps ls : Forall2 (cstr m) ps ls → read_strs ps m = Done (ls, m).
Proof.
  induction 1 as [|p l ps ls H _ IH]; [done|]. cbn [read_strs]. kcall (read_str_run _ _ _ H). by kcall IH.
Qed.

(** ** One word *)

(** The first word of the string at [p] and what is left of it. *)
Lemma next_word sl seps m p l string context :
  (match string with Some s => Some s | None => context end) = Some p →
  bytes l → cstr m p l → outside m p (p + len l) seps sl →
  match words (is_sep sl) l with
  | [] => strtok_r string seps context m = Done ((None, None), m)
  | w :: ws =>
      ∃ head context' m', strtok_r string seps context m = Done ((Some head, context'), m') ∧
        unchanged m m' p (p + len l) ∧ placed m' p (p + len l) head w ∧ w ≠ [] ∧ bytes w ∧ 
        match context' with
        | None => ws = []
        | Some p' => ∃ l', ws = words (is_sep sl) l' ∧ bytes l' ∧ cstr m' p' l' ∧
                       head + len w + 1 = p' ∧ p' + len l' = p + len l
        end
  end.
Proof.
  intros Harg Hb Hl [Hs Hap]. destruct (bytes_split l Hb) as [F1 F2].
  pose proof (strtok_call seps sl m p l string context Harg F1 F2 Hs Hl) as H.
  destruct (dropw_suffix (is_sep sl) l) as [sp Es].
  destruct (dropw (is_sep sl) l) as [|c r] eqn:Ed; [by rewrite words_nil|].
  rewrite (words_cons _ _ _ _ Ed). cbv zeta in H.
  pose proof (takew_drop (is_sep sl) (c :: r)) as Ew.
  assert (Hne : takew (is_sep sl) (c :: r) ≠ []) by (cbn [takew]; by rewrite (dropw_head _ _ _ _ Ed)).
  set (w := takew (is_sep sl) (c :: r)) in *. set (rest := drop (length w) (c :: r)) in *.
  destruct H as (m' & E & Hsame & Cw & Cr).
  assert (Hlen : length l = (length sp + (length w + length rest))%nat)
    by (rewrite Es at 1; rewrite length_app, <- Ew, length_app; done).
  assert (Hcr : length (c :: r) = (length w + length rest)%nat) by (rewrite <- Ew, length_app; done).
  assert (Hbw : bytes w ∧ bytes rest).
  { apply Forall_app. rewrite Ew. unfold bytes in Hb. rewrite Es in Hb. by apply Forall_app in Hb as [_ Hb]. }
  eexists _, _, m'. split; [exact E|]. 
  split; [eapply same_but_unchanged; [done|lia]|].
  split; [split; [done|lia]|]. split; [done|]. split; [apply Hbw|].
  destruct rest as [|x rest'] eqn:Er; [done|].
  exists rest'. cbn [tail] in Cr. split_and!; [done| |by apply Cr|done|cbn [length] in *; lia].
  destruct Hbw as [_ Hbr]. by apply Forall_cons in Hbr as [_ Hbr].
Qed.

Lemma gather_none fuel args s :
  gather blanks (S fuel) None None args s = Done (inr args, s).
Proof. cbn [gather]. rewrite (kbind_run _ _ _ _ _ (in_mem_read (strtok_r None blanks None) s (None, None) eq_refl)). done. Qed.

Lemma placed_unchanged m m' lo hi lo' hi' p l :
  placed m lo hi p l → unchanged m m' lo' hi' → hi < lo' → placed m' lo hi p l.
Proof. intros [H ?] U ?. split; [|done]. eapply cstr_unchanged; [done..|]. lia. Qed.
Lemma placed_mono m lo hi lo' hi' p l : placed m lo' hi' p l → lo ≤ lo' → hi' ≤ hi → placed m lo hi p l.
Proof. intros [H ?] ? ?. split; [done|lia]. Qed.

(** Enough room for the words, or a message. *)
Definition gathered (m' : mem) (lo hi : Z) (args : list Z) (ws : list (list Z)) (s : console)
    (r : (Z + list Z) * console) : Prop :=
  if (length args + length ws <=? 16)%nat
  then ∃ new, r = (inr (args ++ new), set_mem m' s) ∧ Forall2 (placed m' lo hi) new ws
  else r = (inl E2BIG, emit [TooManyWords] (set_mem m' s)).

Lemma gather_run fuel l s p string context args :
  (length l < fuel)%nat → (match string with Some s => Some s | None => context end) = Some p →
  bytes l → cstr (c_mem s) p l → outside (c_mem s) p (p + len l) blanks [32; 9] →
  (length args ≤ 16)%nat →
  ∃ r m', gather blanks fuel string context args s = Done r ∧
    unchanged (c_mem s) m' p (p + len l) ∧ gathered m' p (p + len l) args (words sep_blank l) s r.
Proof.
  revert l s p string context args. induction fuel as [|fuel IH]; intros l s p string context args Hf Harg Hb Hl Hs Hargs; [lia|].
  cbn [gather]. pose proof (next_word _ _ _ _ _ _ _ Harg Hb Hl Hs) as H.
  destruct (words sep_blank l) as [|w ws].
  - kcall (in_mem_read _ s _ H). eexists _, (c_mem s). split; [done|]. split; [apply unchanged_refl|].
    unfold gathered. rewrite Nat.add_0_r, (proj2 (Nat.leb_le _ _) Hargs). exists [].
    split; [rewrite app_nil_r; by destruct s|constructor].
  - destruct H as (head & context' & m1 & E & U1 & Pw & Hw & _ & Hc). kcall (in_mem_run _ s _ _ E).
    unfold MAXMENUARGS. destruct (Z.leb_spec 16 (len args)).
    { eexists _, m1. split; [done|]. split; [done|]. unfold gathered.
      rewrite (proj2 (Nat.leb_gt _ _)) by (cbn [length]; lia). done. }
    assert (Hw1 : (1 ≤ length w)%nat) by (destruct w; [done|cbn [length]; lia]).
    destruct Pw as (Cw & Hlo & Hhi).
    assert (Hl1 : (1 ≤ length l)%nat) by lia.
    destruct context' as [p'|].
    + destruct Hc as (l' & -> & Hb' & Hl' & Hp' & Hend).
      destruct (IH l' (set_mem m1 s) p' None (Some p') (args ++ [head])) as (r & m' & Er & U & G);
        [lia|done|done|done| |rewrite length_app; cbn [length]; lia|].
      { eapply outside_mono; [eapply outside_unchanged; [exact Hs|exact U1]|lia|lia]. }
      cbn [c_mem set_mem] in U. exists r, m'. split; [done|]. split.
      { eapply unchanged_trans; [done|]. eapply unchanged_mono; [done|lia|lia]. }
      revert G. unfold gathered. rewrite length_app. cbn [length].
      replace (length args + 1 + length (words sep_blank l'))%nat with (length args + S (length (words sep_blank l')))%nat by lia.
      destruct (_ <=? 16)%nat; [|by destruct s].
      intros (new & -> & F). exists (head :: new). rewrite <- app_assoc. split; [by destruct s|].
      constructor.
      * split; [|done]. eapply cstr_unchanged; [done..|]. lia.
      * eapply Forall2_impl; [exact F|]. intros ? ? ?. eapply placed_mono; [done|lia|lia].
    + subst ws. destruct fuel as [|fuel]; [lia|]. rewrite gather_none.
      eexists _, m1. split; [done|]. split; [done|]. unfold gathered. cbn [length].
      rewrite (proj2 (Nat.leb_le _ _)) by lia. exists [head]. split; [done|]. by repeat constructor.
Qed.

(** ** What a command line means *)

Fixpoint name_index (w : list Z) (ns : list (list Z)) (i : nat) : option nat :=
  match ns with
  | [] => None
  | n :: ns => if bool_decide (w = n) then Some i else name_index w ns (S i)
  end.

Lemma find_cmd_run m arg0 w ns ls i :
  bytes w → cstr m arg0 w → Forall2 (cstr m) ns ls → Forall bytes ls → Forall (λ l, l ≠ []) ls →
  find_cmd arg0 ns i m = Done (name_index w ls i, m).
Proof.
  intros Hb Hw F Hls Hne. revert i. induction F as [|n l ns ls H _ IH]; intros i; [done|].
  apply Forall_cons in Hls as [Hl Hls]. apply Forall_cons in Hne as [Hn Hne].
  cbn [find_cmd name_index]. destruct l as [|c l]; [done|]. pose proof H as (E & Hc & _).
  kcall (load_run _ _ _ E). rewrite (proj2 (Z.eqb_neq c 0) Hc). cbn [negb].
  kcall (strcmp_run m arg0 n w (c :: l) (proj2 (bytes_split _ Hb)) (proj2 (bytes_split _ Hl)) Hw H).
  case_bool_decide as Eq.
  - rewrite (proj2 (lex_eq _ _) Eq). done.
  - rewrite (proj2 (Z.eqb_neq _ 0)); [by apply IH|]. by rewrite lex_eq.
Qed.

Lemma cmdnames_ok : Forall bytes cmdnames ∧ Forall (λ l, l ≠ []) cmdnames.
Proof. unfold bytes. split; apply (bool_decide_unpack _); vm_compute; exact I. Qed.

(** What the commands answer, by the words they are given. *)
Context (status : nat → list (list Z) → Z).
Definition func_ok : Prop := ∀ i args ws m lo hi,
  Forall2 (placed m lo hi) args ws →
  ∃ m', func i args m = Done (status i ws, m') ∧ unchanged m m' lo hi.

Definition took (t : nat) : event :=
  let '(s1, ns1) := clock t in let '(s2, ns2) := clock (S t) in
  let '(secs, nsecs) := getinterval s1 ns1 s2 ns2 in Took (u32 secs) nsecs.

(** A command: the events, the result and the readings of the clock. *)
Definition dispatch_spec (ws : list (list Z)) (t : nat) : list event * Z * nat :=
  if (16 <? length ws)%nat then ([TooManyWords], E2BIG, t)
  else match ws with
       | [] => ([], 0, t)
       | w :: _ =>
           match name_index w cmdnames 0 with
           | Some i => ([Ran i ws; took t], status i ws, S (S t))
           | None => ([NotFound w], EINVAL, t)
           end
       end.

Lemma words_from_bytes P cur l : bytes cur → bytes l → Forall bytes (words_from P cur l).
Proof.
  unfold bytes. revert cur. induction l as [|c l IH]; intros cur Hc Hl; cbn [words_from].
  - destruct cur; cbn [flush]; [constructor|constructor; [done|constructor]].
  - apply Forall_cons in Hl as [? Hl]. destruct (P c).
    + destruct cur; cbn [flush]; [by apply IH|constructor; [done|by apply IH]].
    + apply IH; [|done]. apply Forall_app. split; [done|]. by apply Forall_singleton.
Qed.
Lemma words_bytes P l : bytes l → Forall bytes (words P l).
Proof. apply words_from_bytes. constructor. Qed.

Definition after (s : console) (m : mem) (es : list event) (t : nat) : console :=
  mk_console m (c_keys s) (c_out s) (c_log s ++ es) t.

Lemma cmd_dispatch_run s p l :
  func_ok → bytes l → cstr (c_mem s) p l → consts (c_mem s) p (p + len l) →
  ∃ m', unchanged (c_mem s) m' p (p + len l) ∧
    let '(es, r, t) := dispatch_spec (words sep_blank l) (c_ticks s) in
    cmd_dispatch blanks names func clock p s = Done (r, after s m' es t).
Proof.
  intros Hfunc Hb Hl (Hbl & _ & Hn). unfold cmd_dispatch, dispatch_spec.
  destruct (gather_run (S (length (c_mem s))) l s p (Some p) None []) as (r & m1 & Er & U & G);
    [by eapply cstr_fuel|done..|cbn; lia|].
  ksteps. revert G. unfold gathered. cbn [length Nat.add].
  rewrite Nat.ltb_antisym. destruct (length (words sep_blank l) <=? 16)%nat eqn:E16.
  2: { cbn [negb]. intros ->. kcall Er. exists m1. split; [done|]. done. }
  pose proof (words_bytes sep_blank l Hb) as Hws.
  intros (new & -> & F). kcall Er. cbn [negb app]. clear Er. destruct F as [|arg0 w new ws Pw F].
  { exists m1. split; [done|]. unfold after. rewrite app_nil_r. done. }
  destruct Pw as (Cw & Hlo & Hhi). apply Forall_cons in Hws as [Hbw _].
  assert (Fn : Forall2 (cstr m1) names cmdnames).
  { eapply Forall2_impl; [exact Hn|]. intros ? ? [Hc ?]. by eapply cstr_unchanged. }
  rewrite (kbind_run _ _ _ _ _ (in_mem_read (find_cmd arg0 names 0) (set_mem m1 s) _
    (find_cmd_run m1 arg0 w names cmdnames 0 Hbw Cw Fn (proj1 cmdnames_ok) (proj2 cmdnames_ok)))).
  destruct (name_index w cmdnames 0) as [i|].
  - destruct (Hfunc i (arg0 :: new) (w :: ws) m1 p (p + len l)) as (m2 & Ef & U2); [by constructor|].
    assert (Fw : Forall2 (cstr m1) (arg0 :: new) (w :: ws)).
    { constructor; [done|]. eapply Forall2_impl; [exact F|]. by intros ? ? [? _]. }
    exists m2. split; [by eapply unchanged_trans|]. unfold gettime. unfold kbind at 1.
    cbn [c_mem c_keys c_out c_log c_ticks set_mem]. destruct (clock (c_ticks s)) as [s1 ns1] eqn:E1.
    rewrite (kbind_run _ _ _ _ _ (in_mem_read (read_strs (arg0 :: new))
      (mk_console m1 (c_keys s) (c_out s) (c_log s) (S (c_ticks s))) _ (read_strs_run m1 _ _ Fw))).
    unfold say. ksteps. unfold emit. cbn [c_mem c_keys c_out c_log c_ticks].
    rewrite (kbind_run _ _ _ _ _ (in_mem_run (func i (arg0 :: new))
      (mk_console m1 (c_keys s) (c_out s) (c_log s ++ [Ran i (w :: ws)]) (S (c_ticks s))) _ _ Ef)).
    unfold kbind at 1. cbn [c_mem c_keys c_out c_log c_ticks set_mem].
    destruct (clock (S (c_ticks s))) as [s2 ns2] eqn:E2. ksteps. cbn [c_mem c_keys c_out c_log c_ticks].
    unfold after, took. rewrite E1, E2, <- app_assoc. done.
  - rewrite (kbind_run _ _ _ _ _ (in_mem_read (read_str arg0) (set_mem m1 s) _ (read_str_run m1 arg0 w Cw))).
    exists m1. split; [done|]. done.
Qed.

(** A line: its commands one after another; [None] where a command from the
    boot line fails. *)
Fixpoint execute_spec (isargs : bool) (cmds : list (list Z)) (t : nat) : option (list event * nat) :=
  match cmds with
  | [] => Some ([], t)
  | c :: cmds =>
      let '(es, r, t) := dispatch_spec (words sep_blank c) t in
      if negb (r =? 0) && isargs then None
      else
        '(es', t) ← execute_spec isargs cmds t;
        Some ((if isargs then [Echo c] else []) ++ es ++ (if r =? 0 then [] else [CommandFailed r]) ++ es', t)
  end.

Lemma after_after s m1 es1 t1 m2 es2 t2 :
  after (after s m1 es1 t1) m2 es2 t2 = after s m2 (es1 ++ es2) t2.
Proof. unfold after. cbn [c_keys c_out c_log]. by rewrite <- app_assoc. Qed.
Lemma after_id s : after s (c_mem s) [] (c_ticks s) = s.
Proof. unfold after. rewrite app_nil_r. by destruct s. Qed.
Lemma say_run e s : say e s = Done (tt, after s (c_mem s) [e] (c_ticks s)).
Proof. done. Qed.

Lemma execute_none fuel isargs s :
  execute_loop blanks semicolon names func clock (S fuel) None None isargs s = Done (tt, s).
Proof.
  cbn [execute_loop].
  rewrite (kbind_run _ _ _ _ _ (in_mem_read (strtok_r None semicolon None) s (None, None) eq_refl)). done.
Qed.

(** One command, with its messages. *)
Definition execute_one (command : Z) (isargs : bool) : K console unit :=
  (if isargs then w <- in_mem (read_str command) ;; say (Echo w) else kret tt) ;;
  result <- cmd_dispatch blanks names func clock command ;;
  (if negb (result =? 0) then
     say (CommandFailed result) ;;
     if isargs then kpanic else kret tt
   else kret tt).

Lemma execute_one_run s p c isargs :
  func_ok → bytes c → cstr (c_mem s) p c → consts (c_mem s) p (p + len c) →
  match execute_spec isargs [c] (c_ticks s) with
  | None => execute_one p isargs s = Panic
  | Some (es, t) => ∃ m', unchanged (c_mem s) m' p (p + len c) ∧ execute_one p isargs s = Done (tt, after s m' es t)
  end.
Proof.
  intros Hfunc Hb Hc Hk. cbn [execute_spec]. unfold execute_one.
  set (pre := if isargs then [Echo c] else []).
  assert (E0 : (if isargs then w <- in_mem (read_str p) ;; say (Echo w) else kret tt) s =
               Done (tt, after s (c_mem s) pre (c_ticks s))).
  { unfold pre. destruct isargs; [|by rewrite after_id]. by kcall (in_mem_read _ s _ (read_str_run _ _ _ Hc)). }
  kcall E0.
  destruct (cmd_dispatch_run (after s (c_mem s) pre (c_ticks s)) p c) as (m1 & U & E); [done..|].
  cbn [c_ticks c_mem after] in E, U.
  destruct (dispatch_spec (words sep_blank c) (c_ticks s)) as [[es r] t]. kcall E. rewrite after_after.
  destruct (Z.eqb_spec r 0); cbn [negb andb mbind option_bind].
  - exists m1. split; [done|]. by rewrite !app_nil_r.
  - rewrite (kbind_run _ _ _ _ _ (say_run _ _)).
    destruct isargs; cbn [mbind option_bind]; [done|]. exists m1. split; [done|]. by rewrite after_after, <- app_assoc.
Qed.

Lemma execute_spec_cons isargs c cs t :
  execute_spec isargs (c :: cs) t =
    '(es1, t1) ← execute_spec isargs [c] t;
    '(es2, t2) ← execute_spec isargs cs t1;
    Some (es1 ++ es2, t2).
Proof.
  cbn [execute_spec]. destruct (dispatch_spec _ t) as [[es r] t1]. destruct (_ && _); [done|].
  cbn [mbind option_bind]. destruct (execute_spec isargs cs t1) as [[es2 t2]|]; [|done]. cbn.
  by rewrite app_nil_r, <- !app_assoc.
Qed.

Lemma kbind_ext {S A B} (c : K S A) (f g : A → K S B) s :
  (∀ a s', f a s' = g a s') → kbind c f s = kbind c g s.
Proof. intros H. unfold kbind. by destruct (c s) as [[a s']| | |]. Qed.

Lemma execute_loop_step fuel string context isargs s :
  execute_loop blanks semicolon names func clock (S fuel) string context isargs s =
  kbind (in_mem (strtok_r string semicolon context)) (λ '(command, context),
    match command with
    | None => kret tt
    | Some command => execute_one command isargs ;; execute_loop blanks semicolon names func clock fuel None context isargs
    end) s.
Proof.
  cbn [execute_loop]. apply kbind_ext. intros [[command|] context'] s1; [|done].
  unfold execute_one. rewrite step_bind. apply kbind_ext. intros ? ?. by rewrite step_bind.
Qed.

Lemma execute_run fuel l s p string context isargs :
  func_ok →
  (length l < fuel)%nat → (match string with Some s => Some s | None => context end) = Some p →
  bytes l → cstr (c_mem s) p l → consts (c_mem s) p (p + len l) →
  match execute_spec isargs (words sep_semi l) (c_ticks s) with
  | None => execute_loop blanks semicolon names func clock fuel string context isargs s = Panic
  | Some (es, t) => ∃ m', unchanged (c_mem s) m' p (p + len l) ∧
      execute_loop blanks semicolon names func clock fuel string context isargs s = Done (tt, after s m' es t)
  end.
Proof.
  intros Hfunc. revert l s p string context. induction fuel as [|fuel IH]; intros l s p string context Hf Harg Hb Hl Hk; [lia|].
  rewrite execute_loop_step. pose proof (next_word _ _ _ _ _ _ _ Harg Hb Hl (proj1 (proj2 Hk))) as H.
  destruct (words sep_semi l) as [|c cs].
  { cbn [execute_spec]. kcall (in_mem_read _ s _ H). exists (c_mem s). split; [apply unchanged_refl|]. by rewrite after_id. }
  destruct H as (head & context' & m1 & E & U1 & (Cw & Hlo & Hhi) & Hw & Hbw & Hc).
  kcall (in_mem_run _ s _ _ E). clear E Harg.
  assert (Hk1 : consts m1 p (p + len l)) by (by eapply consts_unchanged).
  pose proof (execute_one_run (set_mem m1 s) head c isargs Hfunc Hbw Cw ltac:(eapply consts_mono; [exact Hk1|lia|lia])) as H1.
  rewrite execute_spec_cons. change (c_ticks (set_mem m1 s)) with (c_ticks s) in H1.
  destruct (execute_spec isargs [c] (c_ticks s)) as [[es1 t1]|]; cbn [mbind option_bind];
    [|unfold kbind; by rewrite H1].
  destruct H1 as (m2 & U2 & E2). kcall E2. cbn [c_mem set_mem] in U2.
  assert (U12 : unchanged (c_mem s) m2 p (p + len l)).
  { eapply unchanged_trans; [done|]. eapply unchanged_mono; [done|lia|lia]. }
  assert (Hw1 : (1 ≤ length c)%nat) by (destruct c; [done|cbn [length]; lia]).
  destruct context' as [p'|].
  - destruct Hc as (l' & -> & Hb' & Hl' & Hp' & Hend).
    pose proof (IH l' (after (set_mem m1 s) m2 es1 t1) p' None (Some p')) as H2.
    cbn [c_mem after c_ticks] in H2. specialize (H2 ltac:(lia) eq_refl Hb').
    specialize (H2 ltac:(eapply cstr_unchanged; [exact Hl'|exact U2|lia])).
    specialize (H2 ltac:(eapply consts_mono; [eapply consts_unchanged; [exact Hk|exact U12]|lia|lia])).
    destruct (execute_spec isargs (words sep_semi l') t1) as [[es2 t2]|]; [|exact H2].
    destruct H2 as (m3 & U3 & E3). exists m3. split.
    { eapply unchanged_trans; [done|]. eapply unchanged_mono; [done|lia|lia]. }
    fold (after (set_mem m1 s) m2 es1 t1). rewrite E3, after_after. by destruct s.
  - subst cs. cbn [execute_spec mbind option_bind]. destruct fuel as [|fuel]; [lia|].
    rewrite execute_none. exists m2. split; [done|]. rewrite app_nil_r. by destruct s.
Qed.

Lemma menu_execute_run s p l isargs :
  func_ok → bytes l → cstr (c_mem s) p l → consts (c_mem s) p (p + len l) →
  match execute_spec isargs (words sep_semi l) (c_ticks s) with
  | None => menu_execute blanks semicolon names func clock p isargs s = Panic
  | Some (es, t) => ∃ m', unchanged (c_mem s) m' p (p + len l) ∧
      menu_execute blanks semicolon names func clock p isargs s = Done (tt, after s m' es t)
  end.
Proof.
  intros Hfunc Hb Hl Hk. unfold menu_execute. ksteps.
  apply execute_run; [done|by eapply cstr_fuel|done..].
Qed.
End MenuProofs.

(** ** The line editor *)

(** The line without the characters at its end that [P] holds of. *)
Definition strip (P : Z → bool) (l : list Z) : list Z := reverse (dropw P (reverse l)).

Definition edit (maxlen : Z) (l : list Z) (ch : Z) : list Z :=
  if (32 <=? ch) && (ch <? 127) && (len l <? maxlen - 1) then l ++ [ch]
  else if (ch =? 8) || (ch =? 127) then removelast l
  else if ch =? 21 then []
  else if ch =? 23 then strip (λ c, negb (c =? 32)) (strip (λ c, c =? 32) l)
  else l.

(** The line the keys give and the keys left; [None] while it is not ended. *)
Fixpoint typed (maxlen : Z) (l keys : list Z) : option (list Z * list Z) :=
  match keys with
  | [] => None
  | ch :: keys =>
      if (ch =? 10) || (ch =? 13) then Some (l, keys)
      else if ch =? 3 then Some ([], keys)
      else typed maxlen (edit maxlen l ch) keys
  end.

(** [l] is at the start of the buffer at [buf]. *)
Definition holds (m : mem) (buf : Z) (l : list Z) : Prop :=
  ∀ i c, l !! i = Some c → mget m (buf + Z.of_nat i) = Some c.

Lemma holds_prefix m buf l1 l2 : holds m buf (l1 ++ l2) → holds m buf l1.
Proof. intros H i c E. apply H. by apply lookup_app_l_Some. Qed.
Lemma holds_cstr m buf l :
  0 ≤ buf → Forall (λ c, c ≠ 0) l → holds m buf l → mget m (buf + len l) = Some 0 → cstr m buf l.
Proof.
  intros Hb Hne Hl E. clear Hb. revert buf Hl E. induction Hne as [|c l Hc Hne IH]; intros buf Hl E; cbn [cstr length] in *.
  - by rewrite Z.add_0_r in E.
  - split_and!; [|done|].
    + specialize (Hl O c eq_refl). by rewrite Z.add_0_r in Hl.
    + apply IH.
      * intros i d Ei. specialize (Hl (S i) d Ei). by replace (buf + 1 + Z.of_nat i) with (buf + Z.of_nat (S i)) by lia.
      * by replace (buf + 1 + len l) with (buf + Z.of_nat (S (length l))) by lia.
Qed.
Lemma holds_snoc m buf l c :
  0 ≤ buf → buf + len l < msize m → holds m buf l → holds (<[Z.to_nat (buf + len l) := c]> m) buf (l ++ [c]).
Proof.
  intros Hb Hm H i d E. rewrite mget_store by lia.
  apply lookup_app_Some in E as [E|[Hi E]].
  - pose proof (lookup_lt_Some _ _ _ E). zcase; [lia|]. by apply H.
  - apply list_lookup_singleton_Some in E as [Ei <-]. zcase; [done|lia].
Qed.
Lemma holds_end m buf l v : 0 ≤ buf → buf + len l < msize m → holds m buf l → holds (<[Z.to_nat (buf + len l) := v]> m) buf l.
Proof. intros Hb Hm H. by apply (holds_prefix _ _ l [v]), holds_snoc. Qed.

Lemma strip_prefix P l : ∃ r, l = strip P l ++ r.
Proof.
  unfold strip. destruct (dropw_suffix P (reverse l)) as [r E]. exists (reverse r).
  rewrite <- reverse_app, <- E. by rewrite reverse_involutive.
Qed.
Lemma strip_snoc P l c : strip P (l ++ [c]) = if P c then strip P l else l ++ [c].
Proof.
  unfold strip. rewrite reverse_app. change (reverse [c] ++ reverse l) with (c :: reverse l). cbn [dropw].
  destruct (P c); [done|]. rewrite reverse_cons. by rewrite reverse_involutive.
Qed.
Lemma removelast_prefix {A} (l : list A) : ∃ r, l = removelast l ++ r.
Proof. destruct l as [|c l] using rev_ind; [by exists []|]. exists [c]. by rewrite removelast_last. Qed.

Section Typing.
Context (buf maxlen : Z) (Hbuf : 0 ≤ buf) (Hmax : 1 ≤ maxlen < 2 ^ 32).

(** The state after some keys: the screen apart, only the buffer changed. *)
Definition screen (s : console) (m : mem) (out : list Z) : console :=
  mk_console m (c_keys s) out (c_log s) (c_ticks s).

Lemma putch_run ch s m out : putch ch (screen s m out) = Done (tt, screen s m (out ++ [u8 ch])).
Proof. done. Qed.
Lemma backsp_run s m out : ∃ out', backsp (screen s m out) = Done (tt, screen s m out').
Proof. eexists. unfold backsp. rewrite !(kbind_run _ _ _ _ _ (putch_run _ _ _ _)). done. Qed.
Lemma putstr_run l s m out : ∃ out', putstr l (screen s m out) = Done (tt, screen s m out').
Proof.
  revert out. induction l as [|c l IH]; intros out; cbn [putstr]; [by eexists|].
  rewrite (kbind_run _ _ _ _ _ (putch_run _ _ _ _)). apply IH.
Qed.
Lemma erase_all_run k s m out : ∃ out', erase_all k (screen s m out) = Done (tt, screen s m out').
Proof.
  revert out. induction k as [|k IH]; intros out; cbn [erase_all]; [by eexists|].
  destruct (backsp_run s m out) as [o E]. kcall E. apply IH.
Qed.
Lemma erase_run P l s m out :
  holds m buf l → ∃ out', erase P buf (length l) (screen s m out) = Done (length (strip P l), screen s m out').
Proof.
  revert out. induction l as [|c l IH] using rev_ind; intros out H; [by eexists|].
  rewrite length_app, Nat.add_comm, strip_snoc. cbn [length Nat.add erase].
  assert (Ec : mget m (buf + len l) = Some c) by (apply H; by rewrite lookup_app_r, Nat.sub_diag by lia).
  rewrite (kbind_run _ _ _ _ _ (in_mem_read (load (buf + len l)) (screen s m out) _ (load_run _ _ _ Ec))).
  destruct (P c).
  - destruct (backsp_run s m out) as [o E]. kcall E. apply IH. by eapply holds_prefix.
  - eexists. rewrite length_app, Nat.add_comm. done.
Qed.

(** The invariant of the loop. *)
Definition line_ok (m : mem) (l : list Z) : Prop :=
  holds m buf l ∧ len l < maxlen ∧ Forall (λ c, 32 ≤ c < 127) l ∧ buf + maxlen ≤ msize m.

Lemma line_ok_prefix m l1 l2 : line_ok m (l1 ++ l2) → line_ok m l1.
Proof.
  intros (H1 & H2 & H3 & H4). rewrite length_app in H2. apply Forall_app in H3 as [H3 _].
  split_and!; [by eapply holds_prefix|lia|done|done].
Qed.
Lemma line_ok_edit_back m l ch :
  line_ok m l → (32 <=? ch) && (ch <? 127) && (len l <? maxlen - 1) = false → line_ok m (edit maxlen l ch).
Proof.
  intros H E. unfold edit. rewrite E.
  destruct (_ || _); [destruct (removelast_prefix l) as [r Er]; rewrite Er in H; by eapply line_ok_prefix|].
  destruct (ch =? 21); [by eapply (line_ok_prefix m [] l)|].
  destruct (ch =? 23); [|done].
  destruct (strip_prefix (λ c, c =? 32) l) as [r1 E1]. destruct (strip_prefix (λ c, negb (c =? 32)) (strip (λ c, c =? 32) l)) as [r2 E2].
  rewrite E1, E2 in H. by do 2 eapply line_ok_prefix.
Qed.

Lemma kgets_key_run s m out l ch :
  line_ok m l →
  ∃ m' out', kgets_key buf maxlen (length l) ch (screen s m out) = Done (length (edit maxlen l ch), screen s m' out') ∧
    line_ok m' (edit maxlen l ch) ∧ unchanged m m' buf (buf + maxlen - 1).
Proof.
  intros H. pose proof H as (Hl & Hlen & Hch & Hm). unfold kgets_key. nowrap.
  assert (Hput : ∀ v, unchanged m (<[Z.to_nat (buf + len l) := v]> m) buf (buf + maxlen - 1)).
  { intros v. split; [apply length_insert|]. intros q Hq. rewrite mget_store by lia. zcase; [lia|done]. }
  destruct (_ && _) eqn:Epr.
  { rewrite (kbind_run _ _ _ _ _ (putch_run _ _ _ _)).
    rewrite (kbind_run _ _ _ _ _ (in_mem_run (store (buf + len l) ch) (screen s m _) _ _ (store_run m (buf + len l) ch ltac:(lia)))).
    unfold edit. rewrite Epr. apply andb_true_iff in Epr as [[Ea%Z.leb_le Eb%Z.ltb_lt]%andb_true_iff Ec%Z.ltb_lt].
    eexists _, _. rewrite length_app, Nat.add_comm. split; [done|]. split; [|by apply Hput].
    split_and!; [by apply holds_snoc; [|lia|]|rewrite length_app; cbn [length]; lia| |by rewrite length_insert].
    apply Forall_app. split; [done|]. by apply Forall_singleton. }
  pose proof (line_ok_edit_back m l ch H Epr) as Hback. unfold edit in *. rewrite Epr in *.
  destruct ((ch =? 8) || (ch =? 127)) eqn:Ebs; cbn [andb].
  { destruct l as [|c l _] using rev_ind.
    - change (0 <? len []) with false. cbn [removelast].
      assert (ch = 8 ∨ ch = 127) as [-> | ->] by (apply orb_true_iff in Ebs as [?%Z.eqb_eq|?%Z.eqb_eq]; auto);
        cbv [Z.eqb Pos.eqb]; rewrite (kbind_run _ _ _ _ _ (putch_run _ _ _ _)); eexists _, _;
        (split; [done|]; split; [done|apply unchanged_refl]).
    - rewrite (proj2 (Z.ltb_lt 0 _)) by (rewrite length_app; cbn [length]; lia).
      destruct (backsp_run s m out) as [o E]. kcall E. eexists _, _. split; [|split; [done|apply unchanged_refl]].
      rewrite removelast_last, length_app, Nat.add_comm. done. }
  destruct (Z.eqb_spec ch 18) as [->|H18].
  { rewrite (kbind_run _ _ _ _ _ (in_mem_run (store (buf + len l) 0) (screen s m _) _ _ (store_run m (buf + len l) 0 ltac:(lia)))).
    assert (C : cstr (<[Z.to_nat (buf + len l) := 0]> m) buf l).
    { apply holds_cstr; [done| |apply holds_end; [done|lia|done]|rewrite mget_store by lia; zcase; done].
      eapply Forall_impl; [exact Hch|]. cbn. lia. }
    rewrite (kbind_run _ _ _ _ _ (in_mem_read (read_str buf) (set_mem _ (screen s m out)) _ (read_str_run _ _ _ C))).
    destruct (putstr_run ([94; 82; 10] ++ l) s (<[Z.to_nat (buf + len l) := 0]> m) out) as [o E].
    unfold set_mem, screen. cbn [c_keys c_out c_log c_ticks]. unfold screen in E. kcall E.
    eexists _, o. split; [done|]. split; [|by apply Hput].
    cbv [Z.eqb Pos.eqb].
    split_and!; [apply holds_end; [done|lia|done]|lia|done|by rewrite length_insert]. }
  destruct (ch =? 21) eqn:E21.
  { destruct (erase_all_run (length l) s m out) as [o E]. kcall E. eexists _, o. split; [done|]. split; [done|apply unchanged_refl]. }
  destruct (ch =? 23) eqn:E23.
  { destruct (erase_run (λ c, c =? 32) l s m out Hl) as [o E]. kcall E.
    destruct (strip_prefix (λ c, c =? 32) l) as [r Er].
    destruct (erase_run (λ c, negb (c =? 32)) (strip (λ c, c =? 32) l) s m o) as [o' E'].
    { apply (holds_prefix _ _ _ r). by rewrite <- Er. }
    eexists _, o'. split; [exact E'|]. split; [done|apply unchanged_refl]. }
  rewrite (kbind_run _ _ _ _ _ (putch_run _ _ _ _)). eexists _, _. split; [done|]. split; [done|apply unchanged_refl].
Qed.

Lemma kgets_loop_run fuel s m out l :
  (length (c_keys s) < fuel)%nat → line_ok m l →
  match typed maxlen l (c_keys s) with
  | None => kgets_loop fuel buf maxlen (length l) (screen s m out) = Hang
  | Some (l', keys) => ∃ m' out', 
      kgets_loop fuel buf maxlen (length l) (screen s m out) =
        Done (length l', mk_console m' keys out' (c_log s) (c_ticks s)) ∧
      line_ok m' l' ∧ unchanged m m' buf (buf + maxlen - 1)
  end.
Proof.
  revert s m out l. induction fuel as [|fuel IH]; intros s m out l Hf H; [lia|].
  cbn [kgets_loop]. destruct (c_keys s) as [|ch keys] eqn:Ek; cbn [typed].
  { unfold getch, kbind, screen. cbn [c_keys]. by rewrite Ek. }
  set (s1 := mk_console (c_mem s) keys (c_out s) (c_log s) (c_ticks s)).
  assert (Eg : getch (screen s m out) = Done (ch, screen s1 m out)).
  { unfold getch, screen. cbn [c_keys]. by rewrite Ek. }
  rewrite (kbind_run _ _ _ _ _ Eg). clear Eg.
  destruct (_ || _); [eexists _, _; split; [reflexivity|]; split; [done|apply unchanged_refl]|].
  destruct (ch =? 3).
  { eexists _, _. split; [reflexivity|]. split; [by apply (line_ok_prefix m [] l)|apply unchanged_refl]. }
  destruct (kgets_key_run s1 m out l ch H) as (m1 & o1 & E & H1 & U1). kcall E.
  specialize (IH s1 m1 o1 (edit maxlen l ch)). cbn [c_keys s1] in IH.
  specialize (IH ltac:(cbn in Hf; lia) H1). change (c_keys s1) with keys in IH.
  destruct (typed maxlen (edit maxlen l ch) keys) as [[l' keys']|]; [|exact IH].
  destruct IH as (m' & o' & E' & H' & U'). exists m', o'. split; [exact E'|]. split; [done|]. by eapply unchanged_trans.
Qed.

Lemma kgets_run s :
  buf + maxlen ≤ msize (c_mem s) →
  match typed maxlen [] (c_keys s) with
  | None => kgets buf maxlen s = Hang
  | Some (l, keys) => ∃ m' out', 
      kgets buf maxlen s = Done (tt, mk_console m' keys out' (c_log s) (c_ticks s)) ∧
      cstr m' buf l ∧ bytes l ∧ len l < maxlen ∧ unchanged (c_mem s) m' buf (buf + maxlen - 1)
  end.
Proof.
  intros Hm. unfold kgets. ksteps.
  pose proof (kgets_loop_run (S (length (c_keys s))) s (c_mem s) (c_out s) []) as H.
  change (screen s (c_mem s) (c_out s)) with (mk_console (c_mem s) (c_keys s) (c_out s) (c_log s) (c_ticks s)) in H.
  replace (mk_console (c_mem s) (c_keys s) (c_out s) (c_log s) (c_ticks s)) with s in H by (by destruct s).
  specialize (H ltac:(lia)). cbn [length] in H.
  assert (H0 : line_ok (c_mem s) []) by (split_and!; [by intros i c Ei|cbn; lia|constructor|done]).
  specialize (H H0). destruct (typed maxlen [] (c_keys s)) as [[l keys]|]; [|unfold kbind; by rewrite H].
  destruct H as (m' & o & E & (Hl & Hlen & Hch & Hm') & U). kcall E.
  rewrite (in_mem_run (store (buf + len l) 0) (mk_console m' keys o (c_log s) (c_ticks s)) _ _
             (store_run m' (buf + len l) 0 ltac:(lia))).
  eexists _, _. split; [done|]. split_and!; [| |done|].
  - apply holds_cstr; [done| |apply holds_end; [done|lia|done]|rewrite mget_store by lia; zcase; done].
    eapply Forall_impl; [exact Hch|]. cbn. lia.
  - eapply Forall_impl; [exact Hch|]. cbn. lia.
  - eapply unchanged_trans; [done|]. split; [apply length_insert|]. intros q Hq. rewrite mget_store by lia. zcase; [lia|done].
Qed.
End Typing.

(** ** A session *)

Section Session.
Context (blanks semicolon : Z) (names : list Z).
Context (func : nat → list Z → K mem Z) (clock : nat → Z * Z) (status : nat → list (list Z) → Z).

(** [n] lines: the events, the keys left and the readings of the clock. *)
Fixpoint rounds_spec (n : nat) (keys : list Z) (t : nat) : option (list event * list Z * nat) :=
  match n with
  | O => Some ([], keys, t)
  | S n =>
      '(l, keys) ← typed 64 [] keys;
      '(es, t) ← execute_spec clock status false (words sep_semi l) t;
      '(es', keys, t) ← rounds_spec n keys t;
      Some (Prompt :: es ++ es', keys, t)
  end.

Lemma execute_spec_typed cmds t : execute_spec clock status false cmds t ≠ None.
Proof.
  revert t. induction cmds as [|c cmds IH]; intros t; [done|]. cbn [execute_spec].
  destruct (dispatch_spec _ _ _ _) as [[es r] t1]. rewrite andb_false_r.
  specialize (IH t1). by destruct (execute_spec _ _ _ cmds t1) as [[es' t2]|].
Qed.

Lemma menu_rounds_run n s buf :
  func_ok func status → 0 ≤ buf → buf + 64 ≤ msize (c_mem s) →
  consts blanks semicolon names (c_mem s) buf (buf + 63) →
  match rounds_spec n (c_keys s) (c_ticks s) with
  | None => menu_rounds blanks semicolon names func clock buf n s = Hang
  | Some (es, keys, t) => ∃ m' out',
      menu_rounds blanks semicolon names func clock buf n s = Done (tt, mk_console m' keys out' (c_log s ++ es) t) ∧
      unchanged (c_mem s) m' buf (buf + 63)
  end.
Proof.
  intros Hf Hb. revert s. induction n as [|n IH]; intros s Hm Hk; cbn [menu_rounds rounds_spec].
  { exists (c_mem s), (c_out s). split; [|apply unchanged_refl]. rewrite app_nil_r. by destruct s. }
  rewrite (kbind_run _ _ _ _ _ (say_run _ _)).
  pose proof (kgets_run buf 64 Hb ltac:(lia) (after s (c_mem s) [Prompt] (c_ticks s)) Hm) as Hg.
  change (c_keys (after s (c_mem s) [Prompt] (c_ticks s))) with (c_keys s) in Hg.
  destruct (typed 64 [] (c_keys s)) as [[l keys]|]; cbn [mbind option_bind]; [|unfold kbind at 1; by rewrite Hg].
  destruct Hg as (m1 & o1 & E1 & Cl & Bl & Hl & U1). kcall E1. cbn [c_log c_ticks c_mem after] in *.
  replace (buf + 64 - 1) with (buf + 63) in U1 by lia.
  set (s1 := mk_console m1 keys o1 (c_log s ++ [Prompt]) (c_ticks s)).
  assert (Hk1 : consts blanks semicolon names m1 buf (buf + 63)) by (eapply consts_unchanged; [exact Hk|exact U1]).
  pose proof (menu_execute_run blanks semicolon names func clock status s1 buf l false Hf Bl Cl
                ltac:(eapply consts_mono; [exact Hk1|lia|lia])) as He.
  change (c_ticks s1) with (c_ticks s) in He.
  pose proof (execute_spec_typed (words sep_semi l) (c_ticks s)) as Hs.
  destruct (execute_spec clock status false (words sep_semi l) (c_ticks s)) as [[es t]|]; [|done].
  cbn [mbind option_bind]. destruct He as (m2 & U2 & E2). kcall E2.
  assert (U12 : unchanged (c_mem s) m2 buf (buf + 63)).
  { eapply unchanged_trans; [exact U1|]. eapply unchanged_mono; [exact U2|lia|lia]. }
  specialize (IH (after s1 m2 es t)). cbn [c_mem c_keys c_ticks c_log after s1] in IH.
  specialize (IH ltac:(rewrite (proj1 U12); lia) ltac:(eapply consts_unchanged; [exact Hk|exact U12])).
  destruct (rounds_spec n keys t) as [[[es' keys'] t']|]; cbn [mbind option_bind]; [|exact IH].
  destruct IH as (m3 & o3 & E3 & U3). exists m3, o3. rewrite E3. split; [|by eapply unchanged_trans].
  by rewrite <- !app_assoc.
Qed.

(** The kernel menu does what was typed: given its boot line and any keys,
    [menu] runs exactly the commands that the words of the edited lines name,
    in order, with the words as arguments, reports too many words, unknown
    commands and failures, panics if a command of the boot line fails, waits
    for more keys when a line is not ended, and writes no memory but the two
    line buffers. *)
Theorem menu_runs_commands s args l buf n :
  func_ok func status → bytes l → cstr (c_mem s) args l →
  0 ≤ buf → buf + 64 ≤ msize (c_mem s) → args + len l < buf ∨ buf + 63 < args →
  consts blanks semicolon names (c_mem s) args (args + len l) →
  consts blanks semicolon names (c_mem s) buf (buf + 63) →
  match execute_spec clock status true (words sep_semi l) (c_ticks s) with
  | None => menu blanks semicolon names func clock args buf n s = Panic
  | Some (es, t) =>
      match rounds_spec n (c_keys s) t with
      | None => menu blanks semicolon names func clock args buf n s = Hang
      | Some (es', keys, t') => ∃ m' out',
          menu blanks semicolon names func clock args buf n s =
            Done (tt, mk_console m' keys out' (c_log s ++ es ++ es') t') ∧
          length m' = length (c_mem s) ∧
          ∀ q, q < args ∨ args + len l < q → q < buf ∨ buf + 63 < q → mget m' q = mget (c_mem s) q
      end
  end.
Proof.
  intros Hf Hb Hl Hbuf Hm Hap Hk1 Hk2. unfold menu.
  pose proof (menu_execute_run blanks semicolon names func clock status s args l true Hf Hb Hl Hk1) as He.
  destruct (execute_spec _ _ _ _ _) as [[es t]|]; [|unfold kbind; by rewrite He].
  destruct He as (m1 & U1 & E1). kcall E1.
  assert (Hc : consts blanks semicolon names m1 buf (buf + 63)).
  { assert (Ho : ∀ p w, outside (c_mem s) args (args + len l) p w → outside (c_mem s) buf (buf + 63) p w →
                 outside m1 buf (buf + 63) p w).
    { intros p w [C H1] [_ H2]. split; [by eapply cstr_unchanged|done]. }
    destruct Hk1 as (A1 & A2 & A3), Hk2 as (B1 & B2 & B3). split_and!; [by apply Ho..|].
    apply Forall2_same_length_lookup_2; [by eapply Forall2_length|].
    intros i p w Ep Ew. apply Ho; by eapply Forall2_lookup_lr. }
  pose proof (menu_rounds_run n (after s m1 es t) buf Hf Hbuf) as Hr. cbn [c_mem c_keys c_ticks c_log after] in Hr.
  specialize (Hr ltac:(rewrite (proj1 U1); lia) Hc).
  destruct (rounds_spec n (c_keys s) t) as [[[es' keys] t']|]; [|exact Hr].
  destruct Hr as (m2 & o & E2 & U2). exists m2, o. rewrite <- app_assoc in E2. split; [exact E2|].
  destruct U1 as [L1 H1], U2 as [L2 H2]. split; [congruence|]. intros q Hq1 Hq2. by rewrite H2, H1.
Qed.
End Session.

(** A session: the boot line runs [bootfs], then the line [p  ls; nosuch] is typed
    with a backspace in it. *)
Section Example.
#[local] Instance cstr_dec m p l : Decision (cstr m p l).
Proof. revert p. induction l as [|c l IH]; intros p; cbn [cstr]; apply _. Defined.
#[local] Instance outside_dec m lo hi p l : Decision (outside m lo hi p l).
Proof. unfold outside. apply _. Defined.

(** Strings one after another, each with its NUL. *)
Fixpoint lay (p : Z) (ls : list (list Z)) : list Z * mem :=
  match ls with
  | [] => ([], [])
  | l :: ls => let '(ps, m) := lay (p + len l + 1) ls in (p :: ps, l ++ [0] ++ m)
  end.

Definition ex_line : list Z := chars "bootfs lhd0:"%string.
Definition ex_names : list Z := (lay 100 cmdnames).1.
Definition ex_mem : mem :=
  [32; 9; 0; 59; 0] ++ ex_line ++ [0] ++ replicate 82 0 ++ (lay 100 cmdnames).2.
Definition ex_keys : list Z := chars "p  lx"%string ++ [8] ++ chars "s; nosuch"%string ++ [10].
Definition ex_console : console := mk_console ex_mem ex_keys [] [] 0.
Definition ex_clock (t : nat) : Z * Z := (Z.of_nat t, 0).

Lemma menu_runs_commands_witness :
  ∃ m' out',
    menu 0 3 ex_names (λ _ _, kret 0) ex_clock 5 20 1 ex_console =
      Done (tt, mk_console m' [] out'
        [Echo ex_line; Ran 9 [chars "bootfs"%string; chars "lhd0:"%string]; Took 1 0; Prompt;
         Ran 6 [chars "p"%string; chars "ls"%string]; Took 1 0; NotFound (chars "nosuch"%string); CommandFailed EINVAL] 4) ∧
    length m' = length ex_mem ∧
    ∀ q, q < 5 ∨ 5 + len ex_line < q → q < 20 ∨ 20 + 63 < q → mget m' q = mget ex_mem q.
Proof.
  pose proof (menu_runs_commands 0 3 ex_names (λ _ _, kret 0) ex_clock (λ _ _, 0) ex_console 5 ex_line 20 1) as H.
  assert (E1 : execute_spec ex_clock (λ _ _, 0) true (words sep_semi ex_line) (c_ticks ex_console) =
    Some ([Echo ex_line; Ran 9 [chars "bootfs"%string; chars "lhd0:"%string]; Took 1 0], 2%nat)) by (vm_compute; reflexivity).
  assert (E2 : rounds_spec ex_clock (λ _ _, 0) 1 (c_keys ex_console) 2 =
    Some ([Prompt; Ran 6 [chars "p"%string; chars "ls"%string]; Took 1 0; NotFound (chars "nosuch"%string); CommandFailed EINVAL], [], 4%nat))
    by (vm_compute; reflexivity).
  rewrite E1, E2 in H. apply H; clear H E1 E2.
  - intros i args ws m lo hi _. exists m. split; [reflexivity|apply unchanged_refl].
  - unfold bytes. apply (bool_decide_unpack _). vm_compute. exact I.
  - apply (bool_decide_unpack _). vm_compute. exact I.
  - lia.
  - vm_compute. discriminate.
  - vm_compute. left. reflexivity.
  - unfold consts. apply (bool_decide_unpack _). vm_compute. exact I.
  - unfold consts. apply (bool_decide_unpack _). vm_compute. exact I.
Defined.
End Example.
