(* ===== verification/Printf.v ===== *)
(** * Formatted printing (common/libc/printf)

    The state machine of [__printf.c] over any client that text is sent to, and
    [snprintf] as such a client.  Arguments are machine words or double words,
    taken in order; a string argument is the address of a string, whose bytes a
    parameter gives. *)

From Stdlib Require Import String Ascii.
From stdpp Require Import base numbers list.
From Stdlib Require Import ZArith Lia.
From S2P Require Import Prelude CString.

Open Scope Z_scope.
Open Scope kernel_scope.

(** An argument as [va_arg] finds it: 32 or 64 bits. *)
Inductive varg := Word (w : Z) | Dword (d : Z).

Inductive intsize := INTSZ | LONGSZ | LLONGSZ.

Record PF := mk_PF {
  pf_ap : list varg;
  pf_charcount : Z;
  pf_in_pct : bool;
  pf_size : intsize;
  pf_num : Z;
  pf_sign : bool;
  pf_spacing : Z;
  pf_rightspc : bool;
  pf_fillchar : Z;
  pf_base : Z;
  pf_baseprefix : bool;
  pf_altformat : bool
}.

Definition set_ap ap pf := mk_PF ap (pf_charcount pf) (pf_in_pct pf) (pf_size pf) (pf_num pf) (pf_sign pf) (pf_spacing pf) (pf_rightspc pf) (pf_fillchar pf) (pf_base pf) (pf_baseprefix pf) (pf_altformat pf).
Definition set_charcount n pf := mk_PF (pf_ap pf) n (pf_in_pct pf) (pf_size pf) (pf_num pf) (pf_sign pf) (pf_spacing pf) (pf_rightspc pf) (pf_fillchar pf) (pf_base pf) (pf_baseprefix pf) (pf_altformat pf).
Definition set_in_pct b pf := mk_PF (pf_ap pf) (pf_charcount pf) b (pf_size pf) (pf_num pf) (pf_sign pf) (pf_spacing pf) (pf_rightspc pf) (pf_fillchar pf) (pf_base pf) (pf_baseprefix pf) (pf_altformat pf).
Definition set_size z pf := mk_PF (pf_ap pf) (pf_charcount pf) (pf_in_pct pf) z (pf_num pf) (pf_sign pf) (pf_spacing pf) (pf_rightspc pf) (pf_fillchar pf) (pf_base pf) (pf_baseprefix pf) (pf_altformat pf).
Definition set_num sign n pf := mk_PF (pf_ap pf) (pf_charcount pf) (pf_in_pct pf) (pf_size pf) n sign (pf_spacing pf) (pf_rightspc pf) (pf_fillchar pf) (pf_base pf) (pf_baseprefix pf) (pf_altformat pf).
Definition set_spacing n pf := mk_PF (pf_ap pf) (pf_charcount pf) (pf_in_pct pf) (pf_size pf) (pf_num pf) (pf_sign pf) n (pf_rightspc pf) (pf_fillchar pf) (pf_base pf) (pf_baseprefix pf) (pf_altformat pf).
Definition set_rightspc pf := mk_PF (pf_ap pf) (pf_charcount pf) (pf_in_pct pf) (pf_size pf) (pf_num pf) (pf_sign pf) (pf_spacing pf) true (pf_fillchar pf) (pf_base pf) (pf_baseprefix pf) (pf_altformat pf).
Definition set_fillchar c pf := mk_PF (pf_ap pf) (pf_charcount pf) (pf_in_pct pf) (pf_size pf) (pf_num pf) (pf_sign pf) (pf_spacing pf) (pf_rightspc pf) c (pf_base pf) (pf_baseprefix pf) (pf_altformat pf).
Definition set_base b prefix pf := mk_PF (pf_ap pf) (pf_charcount pf) (pf_in_pct pf) (pf_size pf) (pf_num pf) (pf_sign pf) (pf_spacing pf) (pf_rightspc pf) (pf_fillchar pf) b prefix (pf_altformat pf).
Definition set_altformat pf := mk_PF (pf_ap pf) (pf_charcount pf) (pf_in_pct pf) (pf_size pf) (pf_num pf) (pf_sign pf) (pf_spacing pf) (pf_rightspc pf) (pf_fillchar pf) (pf_base pf) (pf_baseprefix pf) true.

Definition chr (a : ascii) : Z := Z.of_N (N_of_ascii a).

(** [strchr] on a string constant, for a character that is no NUL. *)
Definition one_of (s : string) (ch : Z) : bool :=
  match char_index ch (chars s) with Some _ => true | None => false end.

(** [NUMBER_BUF_SIZE] is [(sizeof(long long) * CHAR_BIT) / 3 + 2]. *)
Definition NUMBER_BUF_SIZE : Z := 8 * 8 / 3 + 2.

(** The result of a signed operation that must not overflow. *)
Definition kint {S} (z : Z) : K S Z := if (- 2 ^ 31 <=? z) && (z <? 2 ^ 31) then kret z else kundef.

Section Printf.
(** The client, its [sendfunc], and the strings of memory. *)
Context {C : Type} (sendfunc : list Z → K C unit) (string_at : Z → option (list Z)).

Abbreviation P := (K (PF * C)).

Definition getpf {A} (f : PF → A) : P A := kgets (λ s, f s.1).
Definition setpf (f : PF → PF) : P unit := kmodify (λ s, (f s.1, s.2)).

Definition __pf_print (txt : list Z) : P unit :=
  kzoom snd (λ c s, (s.1, c)) (sendfunc txt) ;;
  setpf (λ pf, set_charcount (i32 (pf_charcount pf + Z.of_nat (length txt))) pf).

Definition endfield (pf : PF) : PF :=
  mk_PF (pf_ap pf) (pf_charcount pf) false INTSZ 0 false 0 false (chr " ") 0 false false.
Definition __pf_endfield : P unit := setpf endfield.

Definition __pf_modifier (ch : Z) : P unit :=
  if ch =? chr "#" then setpf set_altformat
  else if ch =? chr "-" then setpf set_rightspc
  else if ch =? chr "l" then
    setpf (λ pf, set_size (match pf_size pf with LONGSZ => LLONGSZ | _ => LONGSZ end) pf)
  else if ch =? chr "0" then
    spacing <- getpf pf_spacing ;;
    if 0 <? spacing then n <- kint (spacing * 10) ;; setpf (set_spacing n)
    else setpf (set_fillchar (chr "0"))
  else
    kassert ((chr "0" <? ch) && (ch <=? chr "9")) ;;
    spacing <- getpf pf_spacing ;;
    n <- kint (spacing * 10) ;;
    n <- kint (n + (ch - chr "0")) ;;
    setpf (set_spacing n).

(** [va_arg] of a 32-bit and of a 64-bit type. *)
Definition va_word : P Z :=
  ap <- getpf pf_ap ;;
  match ap with Word w :: ap => setpf (set_ap ap) ;; kret (u32 w) | _ => kundef end.
Definition va_dword : P Z :=
  ap <- getpf pf_ap ;;
  match ap with Dword d :: ap => setpf (set_ap ap) ;; kret (u64 d) | _ => kundef end.

Definition __pf_getnum (ch : Z) : P unit :=
  size <- getpf pf_size ;;
  if ch =? chr "p" then
    n <- va_word ;; setpf (λ pf, set_num (pf_sign pf) n pf)
  else if ch =? chr "d" then
    signednum <- (match size with
                  | INTSZ => n <- va_word ;; kret (i32 n)
                  | LONGSZ => n <- va_word ;; kret (i32 n)
                  | LLONGSZ => n <- va_dword ;; kret (i64 n)
                  end) ;;
    if signednum <? 0 then
      if signednum =? - 2 ^ 63 then kundef
      else setpf (set_num true (u64 (- signednum)))
    else setpf (λ pf, set_num (pf_sign pf) (u64 signednum) pf)
  else
    n <- (match size with
          | INTSZ => va_word
          | LONGSZ => va_word
          | LLONGSZ => va_dword
          end) ;;
    setpf (λ pf, set_num (pf_sign pf) n pf).

Definition __pf_setbase (ch : Z) : P unit :=
  setpf (λ pf,
    set_base
      (if (ch =? chr "d") || (ch =? chr "u") then 10
       else if (ch =? chr "x") || (ch =? chr "p") then 16
       else if ch =? chr "o" then 8 else pf_base pf)
      (if pf_altformat pf || (ch =? chr "p") then true else pf_baseprefix pf) pf).

Fixpoint fill_loop (f : Z) (k : nat) : P unit :=
  match k with O => kret tt | S k => __pf_print [f] ;; fill_loop f k end.
Definition __pf_fill (spc : Z) : P unit :=
  f <- getpf pf_fillchar ;; fill_loop (u8 f) (Z.to_nat spc).

Definition __pf_printstuff (prefix prefix2 stuff : list Z) : P unit :=
  let len := i32 (u32 (Z.of_nat (length prefix + length prefix2 + length stuff))) in
  spacing <- getpf pf_spacing ;;
  rightspc <- getpf pf_rightspc ;;
  fillchar <- getpf pf_fillchar ;;
  let spc := if len <? spacing then spacing - len else 0 in
  (if (0 <? spc) && negb rightspc && negb (fillchar =? chr "0") then __pf_fill spc else kret tt) ;;
  __pf_print prefix ;;
  __pf_print prefix2 ;;
  (if (0 <? spc) && negb rightspc && (fillchar =? chr "0") then __pf_fill spc else kret tt) ;;
  __pf_print stuff ;;
  (if (0 <? spc) && rightspc then __pf_fill spc else kret tt).

(** The digits go into a buffer from its end; a slot is unset until written. *)
Definition digits16 : list Z := chars "0123456789abcdef".

Fixpoint num_loop (fuel : nat) (buf : list (option Z)) (x xnum base : Z) : P (list (option Z) * Z) :=
  match fuel with
  | O => khang
  | S fuel =>
      if base =? 0 then kundef
      else
        d <- kderef (digits16 !! Z.to_nat (xnum mod base)) ;;
        if (0 <=? x) && (x <? Z.of_nat (length buf)) then
          let buf := <[Z.to_nat x := Some d]> buf in
          let x := x - 1 in
          let xnum := xnum / base in
          if 0 <? xnum then num_loop fuel buf x xnum base else kret (buf, x)
        else kundef
  end.

(** The string at the start of some slots. *)
Fixpoint slots_str (buf : list (option Z)) : option (list Z) :=
  match buf with
  | Some c :: buf => if c =? 0 then Some [] else cons c <$> slots_str buf
  | _ => None
  end.

Definition __pf_printnum : P unit :=
  let buf := replicate (Z.to_nat NUMBER_BUF_SIZE) None in
  let x := NUMBER_BUF_SIZE - 1 in
  let buf := <[Z.to_nat x := Some 0]> buf in
  let x := x - 1 in
  xnum <- getpf pf_num ;;
  base <- getpf pf_base ;;
  let* (buf, x) := num_loop 64 buf x xnum base in
  let x := x + 1 in
  stuff <- kderef (slots_str (drop (Z.to_nat x) buf)) ;;
  baseprefix <- getpf pf_baseprefix ;;
  sign <- getpf pf_sign ;;
  let bprefix :=
    if baseprefix && (base =? 16) then chars "0x"
    else if baseprefix && (base =? 8) then chars "0" else [] in
  let sprefix := if sign then chars "-" else [] in
  __pf_printstuff sprefix bprefix stuff.

Definition __pf_send (ch : Z) : P unit :=
  kassert (negb (ch =? 0)) ;;
  in_pct <- getpf pf_in_pct ;;
  if negb in_pct && negb (ch =? chr "%") then __pf_print [u8 ch]
  else if negb in_pct then setpf (set_in_pct true)
  else if one_of "#-l0123456789" ch then __pf_modifier ch
  else if one_of "doupx" ch then
    __pf_getnum ch ;;
    __pf_setbase ch ;;
    __pf_printnum ;;
    __pf_endfield
  else if ch =? chr "s" then
    w <- va_word ;;
    str <- (if w =? 0 then kret (chars "(null)") else kderef (string_at w)) ;;
    __pf_printstuff [] [] str ;;
    __pf_endfield
  else
    x <- (if ch =? chr "c" then w <- va_word ;; kret (u8 w) else kret (u8 ch)) ;;
    __pf_printstuff [] [] (if x =? 0 then [] else [x]) ;;
    __pf_endfield.

Fixpoint send_all (format : list Z) : P unit :=
  match format with [] => kret tt | ch :: format => __pf_send ch ;; send_all format end.

Definition __vprintf (format : list Z) (ap : list varg) : K C Z := λ c,
  let pf := endfield (mk_PF ap 0 false INTSZ 0 false 0 false 0 0 false false) in
  match send_all format (pf, c) with
  | Done (_, (pf, c)) => Done (pf_charcount pf, c)
  | Panic => Panic
  | Undef => Undef
  | Hang => Hang
  end.
End Printf.

(** ** [snprintf] *)

Record SNP := mk_SNP { snp_mem : mem; snp_buf : Z; snp_buflen : Z; snp_bufpos : Z }.

Fixpoint __snprintf_send (data : list Z) : K SNP unit :=
  match data with
  | [] => kret tt
  | c :: data =>
      s <- kget ;;
      (if snp_bufpos s <? snp_buflen s then
         kzoom snp_mem (λ m s, mk_SNP m (snp_buf s) (snp_buflen s) (snp_bufpos s)) (store (snp_buf s + snp_bufpos s) c) ;;
         kmodify (λ s, mk_SNP (snp_mem s) (snp_buf s) (snp_buflen s) (u32 (snp_bufpos s + 1)))
       else kret tt) ;;
      __snprintf_send data
  end.

Definition vsnprintf (string_at : Z → option (list Z)) (buf len : Z) (fmt : list Z) (ap : list varg) : K mem Z := λ m,
  let snp := mk_SNP m buf (if len =? 0 then 0 else len - 1) 0 in
  match __vprintf __snprintf_send string_at fmt ap snp with
  | Done (chars, snp) =>
      (if 0 <? len then store (buf + snp_bufpos snp) 0 ;; kret chars else kret chars) (snp_mem snp)
  | Panic => Panic
  | Undef => Undef
  | Hang => Hang
  end.
