(* ===== verification/PrintfSpec.v ===== *)
(** * Formatted printing: numbers, fields, clients

    The digits of a number and the text of a field as plain lists, that the
    state machine of [Printf] sends exactly these, that it never panics or runs
    over its number buffer, and that its course does not depend on the client. *)

From Stdlib Require Import String Ascii.
From stdpp Require Import base numbers list.
From Stdlib Require Import ZArith Lia.
From S2P Require Import Prelude CString Printf.

Open Scope Z_scope.
Open Scope kernel_scope.

(** ** Numerals *)

(** The digits of [n], the least significant first. *)
Fixpoint digits_rev (fuel : nat) (b n : Z) : list Z :=
  match fuel with
  | O => []
  | S fuel => n mod b :: (if 0 <? n / b then digits_rev fuel b (n / b) else [])
  end.
Definition digit_char (d : Z) : Z := default 0 (digits16 !! Z.to_nat d).
Definition numeral (b n : Z) : list Z := reverse (digit_char <$> digits_rev 64 b n).

(** What a numeral stands for. *)
Definition digit_value (c : Z) : Z := match char_index c digits16 with Some i => Z.of_nat i | None => 0 end.
Definition num_value (b : Z) (s : list Z) : Z := foldl (λ acc c, acc * b + digit_value c) 0 s.

Lemma digit_char_value d : 0 ≤ d < 16 → digit_value (digit_char d) = d.
Proof.
  intros Hd. assert (H : Forall (λ d, digit_value (digit_char d) = d) (seqZ 0 16))
    by (apply (bool_decide_unpack _); vm_compute; exact I).
  rewrite Forall_forall in H. apply H. apply elem_of_seqZ. lia.
Qed.
Lemma digit_char_spec d : 0 ≤ d < 16 → digits16 !! Z.to_nat d = Some (digit_char d) ∧ digit_char d ≠ 0.
Proof.
  intros Hd.
  assert (H : Forall (λ d, digits16 !! Z.to_nat d = Some (digit_char d) ∧ digit_char d ≠ 0) (seqZ 0 16))
    by (apply (bool_decide_unpack _); vm_compute; exact I).
  rewrite Forall_forall in H. apply H. apply elem_of_seqZ. lia.
Qed.

Section Digits.
Context (b : Z) (Hb : 2 ≤ b).

Lemma digits_rev_length k fuel n : 0 ≤ n < b ^ Z.of_nat k → (1 ≤ k)%nat → (length (digits_rev fuel b n) ≤ k)%nat.
Proof.
  revert k n. induction fuel as [|fuel IH]; intros k n Hn Hk; cbn [digits_rev length]; [lia|].
  destruct (Z.ltb_spec 0 (n / b)); [|cbn [length]; lia].
  destruct k as [|[|k]]; [lia| |].
  - exfalso. change (Z.of_nat 1) with 1 in Hn. rewrite Z.pow_1_r in Hn. rewrite Z.div_small in H by lia. lia.
  - enough (length (digits_rev fuel b (n / b)) ≤ S k)%nat by lia. apply IH; [|lia].
    split; [lia|]. apply Z.div_lt_upper_bound; [lia|].
    rewrite <- Z.pow_succ_r by lia. rewrite <- Nat2Z.inj_succ. lia.
Qed.
Lemma digits_rev_range fuel n : Forall (λ d, 0 ≤ d < b) (digits_rev fuel b n).
Proof.
  revert n. induction fuel as [|fuel IH]; intros n; cbn [digits_rev]; [constructor|].
  constructor; [apply Z.mod_pos_bound; lia|]. destruct (0 <? n / b); [apply IH|constructor].
Qed.

(** Enough digits give the number back, and the first one is no zero. *)
Lemma digits_rev_value fuel n :
  0 ≤ n < b ^ Z.of_nat fuel → (1 ≤ fuel)%nat → foldr (λ d acc, d + b * acc) 0 (digits_rev fuel b n) = n.
Proof.
  revert n. induction fuel as [|fuel IH]; intros n Hn Hf; [lia|]. cbn [digits_rev foldr].
  pose proof (Z.div_mod n b ltac:(lia)) as E.
  destruct (Z.ltb_spec 0 (n / b)).
  - rewrite IH; [lia| |].
    + split; [lia|]. apply Z.div_lt_upper_bound; [lia|]. rewrite <- Z.pow_succ_r by lia.
      rewrite <- Nat2Z.inj_succ. lia.
    + destruct fuel; [|lia]. exfalso. change (Z.of_nat 1) with 1 in Hn. rewrite Z.pow_1_r in Hn.
      rewrite Z.div_small in H by lia. lia.
  - cbn. pose proof (Z.div_pos n b ltac:(lia) ltac:(lia)). replace (n / b) with 0 in E by lia. lia.
Qed.
Lemma digits_rev_last fuel n :
  0 < n < b ^ Z.of_nat fuel → ∃ l d, digits_rev fuel b n = l ++ [d] ∧ d ≠ 0.
Proof.
  revert n. induction fuel as [|fuel IH]; intros n Hn; [cbn in Hn; lia|]. cbn [digits_rev].
  pose proof (Z.div_mod n b ltac:(lia)) as E.
  destruct (Z.ltb_spec 0 (n / b)).
  - destruct (IH (n / b)) as (l & d & -> & Hd).
    { split; [lia|]. apply Z.div_lt_upper_bound; [lia|]. rewrite <- Z.pow_succ_r by lia.
      rewrite <- Nat2Z.inj_succ. lia. }
    by exists (n mod b :: l), d.
  - exists [], (n mod b). split; [done|]. pose proof (Z.div_pos n b ltac:(lia) ltac:(lia)).
    replace (n / b) with 0 in E by lia. lia.
Qed.
End Digits.

(** The numeral of [n]: it stands for [n], has no superfluous zero, and is
    short enough for the buffer. *)
Definition is_numeral (b n : Z) (s : list Z) : Prop :=
  num_value b s = n ∧ Forall (λ c, ∃ d, 0 ≤ d < b ∧ c = digit_char d) s ∧
  (1 ≤ length s)%nat ∧ (0 < n → head s ≠ Some (chr "0")) ∧ Z.of_nat (length s) < NUMBER_BUF_SIZE.

Lemma num_value_reverse b l :
  Forall (λ d, 0 ≤ d < 16) l → num_value b (reverse (digit_char <$> l)) = foldr (λ d acc, d + b * acc) 0 l.
Proof.
  unfold num_value. induction 1 as [|d l Hd _ IH]; [done|].
  rewrite fmap_cons, reverse_cons, foldl_app, IH. cbn. rewrite digit_char_value by done. lia.
Qed.

Lemma pow_64 b n : 8 ≤ b → 0 ≤ n < 2 ^ 64 → n < b ^ 64 ∧ n < b ^ 22.
Proof.
  intros Hb Hn. assert (2 ^ 64 ≤ b ^ 22).
  { transitivity (8 ^ 22); [vm_compute; discriminate|]. apply Z.pow_le_mono_l. lia. }
  assert (b ^ 22 ≤ b ^ 64) by (apply Z.pow_le_mono_r; lia). lia.
Qed.

Lemma digit_char_zero d : 0 ≤ d < 16 → digit_char d = chr "0" → d = 0.
Proof. intros Hd E. rewrite <- (digit_char_value d Hd), E. done. Qed.

Lemma numeral_ok b n : 8 ≤ b ≤ 16 → 0 ≤ n < 2 ^ 64 → is_numeral b n (numeral b n).
Proof.
  intros Hb Hn. destruct (pow_64 b n) as [H64 H22]; [lia|done|]. unfold numeral, is_numeral.
  pose proof (digits_rev_range b ltac:(lia) 64 n) as HR.
  assert (HR16 : Forall (λ d, 0 ≤ d < 16) (digits_rev 64 b n)) by (eapply Forall_impl; [exact HR|]; cbn; lia).
  split_and!.
  - rewrite num_value_reverse by done. apply digits_rev_value; [lia|change (Z.of_nat 64) with 64; lia|lia].
  - apply Forall_reverse, Forall_fmap. eapply Forall_impl; [exact HR|]. intros d Hd. by exists d.
  - rewrite length_reverse, length_fmap. cbn [digits_rev length]. lia.
  - intros Hp. destruct (digits_rev_last b ltac:(lia) 64 n) as (l & d & E & Hd); [change (Z.of_nat 64) with 64; lia|].
    rewrite E in *. rewrite fmap_app, reverse_app. cbn. intros [= E0]. apply Hd.
    apply Forall_app in HR16 as [_ HR16]. apply Forall_cons in HR16 as [HR16 _]. exact (digit_char_zero d HR16 E0).
  - rewrite length_reverse, length_fmap.
    pose proof (digits_rev_length b ltac:(lia) 22 64 n ltac:(change (Z.of_nat 22) with 22; lia) ltac:(lia)).
    unfold NUMBER_BUF_SIZE. change (8 * 8 / 3 + 2) with 23. lia.
Qed.

(** ** The digit loop *)

Section Loop.
Context {C : Type} (s : PF * C) (b : Z) (Hb : 8 ≤ b ≤ 16).

Lemma insert_last {A} (k : nat) (v : A) (x : A) t :
  <[k := v]> (replicate (S k) x ++ t) = replicate k x ++ [v] ++ t.
Proof.
  replace (S k) with (k + 1)%nat by lia. rewrite replicate_add, <- app_assoc.
  rewrite insert_app_r_alt by (rewrite length_replicate; lia). by rewrite length_replicate, Nat.sub_diag.
Qed.

Lemma num_loop_run fuel k t n :
  0 ≤ n < b ^ Z.of_nat fuel → (length (digits_rev fuel b n) ≤ k)%nat → (1 ≤ fuel)%nat →
  num_loop fuel (replicate k None ++ t) (Z.of_nat k - 1) n b s =
    Done ((replicate (k - length (digits_rev fuel b n)) None ++
             (Some <$> reverse (digit_char <$> digits_rev fuel b n)) ++ t,
           Z.of_nat k - 1 - Z.of_nat (length (digits_rev fuel b n))), s).
Proof.
  revert k t n. induction fuel as [|fuel IH]; intros k t n Hn Hk Hf; [lia|].
  cbn [num_loop digits_rev length] in *. rewrite (proj2 (Z.eqb_neq b 0)) by lia.
  pose proof (Z.mod_pos_bound n b ltac:(lia)) as Hm.
  destruct (digit_char_spec (n mod b)) as [E0 _]; [lia|]. rewrite E0. ksteps.
  destruct k as [|k]; [lia|]. replace (Z.of_nat (S k) - 1) with (Z.of_nat k) by lia.
  rewrite (proj2 (Z.leb_le 0 _)), (proj2 (Z.ltb_lt (Z.of_nat k) _)) by (rewrite ?length_app, ?length_replicate; lia).
  cbn [andb]. rewrite Nat2Z.id, insert_last.
  destruct (Z.ltb_spec 0 (n / b)).
  - assert (Hn' : 0 ≤ n / b < b ^ Z.of_nat fuel).
    { split; [lia|]. apply Z.div_lt_upper_bound; [lia|]. rewrite <- Z.pow_succ_r by lia. rewrite <- Nat2Z.inj_succ. lia. }
    rewrite (IH k _ _ Hn').
    + f_equal. f_equal. f_equal; [|lia]. cbn [Nat.sub]. by rewrite fmap_cons, reverse_cons, fmap_app, <- app_assoc.
    + lia.
    + destruct fuel; [|lia]. cbn in Hn'. lia.
  - cbn [length Nat.sub]. rewrite Nat.sub_0_r. do 2 f_equal.
Qed.

Lemma slots_str_some l t : Forall (λ c, c ≠ 0) l → slots_str ((Some <$> l) ++ Some 0 :: t) = Some l.
Proof.
  induction 1 as [|c l Hc _ IH]; [done|].
  rewrite fmap_cons. cbn [app slots_str]. rewrite (proj2 (Z.eqb_neq c 0) Hc), IH. done.
Qed.

(** The buffer holds the numeral and its NUL at the end. *)
Lemma num_loop_numeral n :
  0 ≤ n < 2 ^ 64 →
  ∃ buf x, num_loop 64 (<[Z.to_nat (NUMBER_BUF_SIZE - 1) := Some 0]> (replicate (Z.to_nat NUMBER_BUF_SIZE) None))
             (NUMBER_BUF_SIZE - 1 - 1) n b s = Done ((buf, x), s) ∧
    slots_str (drop (Z.to_nat (x + 1)) buf) = Some (numeral b n).
Proof.
  intros Hn. destruct (pow_64 b n) as [H64 H22]; [lia|done|].
  pose proof (digits_rev_length b ltac:(lia) 22 64 n ltac:(change (Z.of_nat 22) with 22; lia) ltac:(lia)) as Hlen.
  change (<[Z.to_nat (NUMBER_BUF_SIZE - 1) := Some 0]> (replicate (Z.to_nat NUMBER_BUF_SIZE) None))
    with (replicate 22 (@None Z) ++ [Some 0]).
  change (NUMBER_BUF_SIZE - 1 - 1) with (Z.of_nat 22 - 1).
  eexists _, _. split; [apply num_loop_run; [change (Z.of_nat 64) with 64; lia|done|lia]|].
  rewrite drop_app_length'.
  2: { rewrite length_replicate. lia. }
  apply slots_str_some. apply Forall_reverse, Forall_fmap.
  eapply Forall_impl; [apply (digits_rev_range b); lia|]. cbn. intros d Hd. apply digit_char_spec. lia.
Qed.
End Loop.

(** ** Fields *)

(** The client that keeps the text. *)
Definition collect (txt : list Z) : K (list Z) unit := kmodify (λ out, out ++ txt).

(** [n] characters more. *)
Definition counted (n : nat) (pf : PF) : PF := set_charcount (i32 (pf_charcount pf + Z.of_nat n)) pf.

Lemma i32_add_l a b : i32 (i32 a + b) = i32 (a + b).
Proof.
  unfold i32. f_equal.
  replace ((a + 2 ^ 31) mod 2 ^ 32 - 2 ^ 31 + b + 2 ^ 31) with ((a + 2 ^ 31) mod 2 ^ 32 + b) by lia.
  rewrite Z.add_mod_idemp_l by lia. f_equal. lia.
Qed.
Lemma counted_counted a b pf : counted b (counted a pf) = counted (a + b) pf.
Proof.
  unfold counted. cbn [pf_charcount set_charcount]. rewrite i32_add_l.
  replace (pf_charcount pf + Z.of_nat a + Z.of_nat b) with (pf_charcount pf + Z.of_nat (a + b)) by lia. done.
Qed.

Lemma print_run txt pf o : __pf_print collect txt (pf, o) = Done (tt, (counted (length txt) pf, o ++ txt)).
Proof. done. Qed.

Lemma fill_loop_run f k pf o :
  (1 ≤ k)%nat → fill_loop collect f k (pf, o) = Done (tt, (counted k pf, o ++ replicate k f)).
Proof.
  revert pf o. induction k as [|k IH]; intros pf o Hk; [lia|]. cbn [fill_loop].
  rewrite (kbind_run _ _ _ _ _ (print_run _ _ _)). destruct k as [|k]; [done|].
  rewrite IH by lia. rewrite counted_counted, <- app_assoc. done.
Qed.

(** The text of a field: padding with blanks goes before the prefix, padding
    with zeros after it. *)
Definition field (spacing : Z) (rightspc : bool) (fillchar : Z) (prefix stuff : list Z) : list Z :=
  let pad := replicate (Z.to_nat (spacing - Z.of_nat (length prefix + length stuff))) fillchar in
  if rightspc then prefix ++ stuff ++ pad
  else if fillchar =? chr "0" then prefix ++ pad ++ stuff
  else pad ++ prefix ++ stuff.

Lemma printstuff_run prefix prefix2 stuff pf o :
  Z.of_nat (length prefix + length prefix2 + length stuff) < 2 ^ 31 → 0 ≤ pf_spacing pf → 0 ≤ pf_fillchar pf < 256 →
  let t := field (pf_spacing pf) (pf_rightspc pf) (pf_fillchar pf) (prefix ++ prefix2) stuff in
  __pf_printstuff collect prefix prefix2 stuff (pf, o) = Done (tt, (counted (length t) pf, o ++ t)).
Proof.
  intros Hlen Hs Hf. cbv zeta. unfold __pf_printstuff, field, getpf. ksteps. cbn [fst].
  rewrite (i32_small (u32 _)), u32_small by (rewrite ?u32_small by lia; lia).
  rewrite !length_app. set (n := Z.of_nat (length prefix + length prefix2 + length stuff)) in *.
  destruct (Z.ltb_spec n (pf_spacing pf)) as [Hlt|Hge].
  - rewrite (proj2 (Z.ltb_lt 0 _)) by lia. cbn [andb]. unfold n in *.
    set (spc := pf_spacing pf - Z.of_nat (length prefix + length prefix2 + length stuff)) in *.
    assert (Hfill : ∀ k o', __pf_fill collect spc (counted k pf, o') =
      Done (tt, (counted (k + Z.to_nat spc) pf, o' ++ replicate (Z.to_nat spc) (pf_fillchar pf)))).
    { intros k o'. unfold __pf_fill, getpf. ksteps. cbn [fst counted set_charcount pf_fillchar]. rewrite u8_small by done.
      rewrite fill_loop_run by lia. by rewrite counted_counted. }
    assert (Hfill0 : ∀ o', __pf_fill collect spc (pf, o') =
      Done (tt, (counted (Z.to_nat spc) pf, o' ++ replicate (Z.to_nat spc) (pf_fillchar pf)))).
    { intros o'. unfold __pf_fill, getpf. ksteps. cbn [fst]. rewrite u8_small by done. by rewrite fill_loop_run by lia. }
    assert (Hp : ∀ k txt o', __pf_print collect txt (counted k pf, o') = Done (tt, (counted (k + length txt) pf, o' ++ txt))).
    { intros k txt o'. by rewrite print_run, counted_counted. }
    destruct (pf_rightspc pf); cbn [negb andb]; [|destruct (pf_fillchar pf =? chr "0"); cbn [negb andb]].
    + ksteps. rewrite (kbind_run _ _ _ _ _ (print_run _ _ _)), (kbind_run _ _ _ _ _ (Hp _ _ _)). ksteps.
      rewrite (kbind_run _ _ _ _ _ (Hp _ _ _)), Hfill, <- !app_assoc, !length_app, length_replicate. do 4 f_equal. lia.
    + ksteps. rewrite (kbind_run _ _ _ _ _ (print_run _ _ _)), (kbind_run _ _ _ _ _ (Hp _ _ _)), (kbind_run _ _ _ _ _ (Hfill _ _)),
        (kbind_run _ _ _ _ _ (Hp _ _ _)). unfold kret. rewrite <- !app_assoc, !length_app, length_replicate. do 4 f_equal. lia.
    + rewrite (kbind_run _ _ _ _ _ (Hfill0 _)), (kbind_run _ _ _ _ _ (Hp _ _ _)), (kbind_run _ _ _ _ _ (Hp _ _ _)). ksteps.
      rewrite (kbind_run _ _ _ _ _ (Hp _ _ _)). unfold kret. rewrite <- !app_assoc, !length_app, length_replicate. do 4 f_equal. lia.
  - rewrite (Z.ltb_irrefl 0). cbn [andb]. ksteps. rewrite !(kbind_run _ _ _ _ _ (print_run _ _ _)). ksteps.
    rewrite !(kbind_run _ _ _ _ _ (print_run _ _ _)). unfold kret.
    replace (Z.to_nat (pf_spacing pf - n)) with O by lia.
    cbn [replicate]. rewrite !counted_counted. destruct (pf_rightspc pf); [|destruct (_ =? _)];
      cbn [app]; rewrite ?app_nil_r, <- !app_assoc, !length_app; do 4 f_equal; lia.
Qed.
