(* ===== verification/PrintfTheorems.v ===== *)
(** * Formatted printing: theorems

    Formats as a list of items, the text each item stands for, and that
    [__vprintf] sends this text; [snprintf] against any other client; the
    round trip through [atoi]. *)

From Stdlib Require Import String Ascii.
From stdpp Require Import base numbers list sets.
From Stdlib Require Import ZArith Lia.
From S2P Require Import Prelude CString Printf PrintfSpec.

Open Scope Z_scope.
Open Scope kernel_scope.

(** ** Formats *)

Record flags := mk_flags { fl_alt : bool; fl_left : bool; fl_zero : bool; fl_width : Z; fl_size : intsize }.
Inductive conv := Cd | Cu | Co | Cx | Cp | Cs | Cc | Cother (c : Z).
Inductive item := Lit (c : Z) | Conv (f : flags) (cv : conv).

Definition conv_char (cv : conv) : Z :=
  match cv with
  | Cd => chr "d" | Cu => chr "u" | Co => chr "o" | Cx => chr "x" | Cp => chr "p"
  | Cs => chr "s" | Cc => chr "c" | Cother c => c
  end.
Definition size_text (z : intsize) : list Z :=
  match z with INTSZ => [] | LONGSZ => [chr "l"] | LLONGSZ => [chr "l"; chr "l"] end.
Definition width_text (w : Z) : list Z := if w =? 0 then [] else numeral 10 w.
Definition flag_text (f : flags) : list Z :=
  (if fl_alt f then [chr "#"] else []) ++ (if fl_left f then [chr "-"] else []) ++
  (if fl_zero f then [chr "0"] else []) ++ width_text (fl_width f) ++ size_text (fl_size f).
Definition item_text (it : item) : list Z :=
  match it with
  | Lit c => [c]
  | Conv f cv => chr "%" :: flag_text f ++ [conv_char cv]
  end.

Definition wf_item (it : item) : Prop :=
  match it with
  | Lit c => 0 < c < 256 ∧ c ≠ chr "%"
  | Conv f cv =>
      0 ≤ fl_width f < 2 ^ 31 ∧
      match cv with
      | Cother c => 0 < c < 256 ∧ one_of "#-l0123456789" c = false ∧ one_of "doupx" c = false ∧ c ≠ chr "s" ∧ c ≠ chr "c"
      | _ => True
      end
  end.

(** The arguments an item takes and its text. *)
Definition fl_fill (f : flags) : Z := if fl_zero f then chr "0" else chr " ".
Definition padded (f : flags) (prefix stuff : list Z) : list Z := field (fl_width f) (fl_left f) (fl_fill f) prefix stuff.

Definition word_arg (ap : list varg) : option (Z * list varg) :=
  match ap with Word w :: ap => Some (u32 w, ap) | _ => None end.
Definition dword_arg (ap : list varg) : option (Z * list varg) :=
  match ap with Dword d :: ap => Some (u64 d, ap) | _ => None end.
Definition unsigned_arg (z : intsize) (ap : list varg) : option (Z * list varg) :=
  match z with LLONGSZ => dword_arg ap | _ => word_arg ap end.
Definition signed_arg (z : intsize) (ap : list varg) : option (Z * list varg) :=
  match z with
  | LLONGSZ => '(d, ap) ← dword_arg ap; Some (i64 d, ap)
  | _ => '(w, ap) ← word_arg ap; Some (i32 w, ap)
  end.

Definition small (l : list Z) : bool := Z.of_nat (length l) <? 2 ^ 30.

Section Render.
Context (string_at : Z → option (list Z)).

Definition render_conv (f : flags) (cv : conv) (ap : list varg) : option (list Z * list varg) :=
  match cv with
  | Cd =>
      '(z, ap) ← signed_arg (fl_size f) ap;
      if z =? - 2 ^ 63 then None
      else Some (padded f (if z <? 0 then [chr "-"] else []) (numeral 10 (Z.abs z)), ap)
  | Cu => '(n, ap) ← unsigned_arg (fl_size f) ap; Some (padded f [] (numeral 10 n), ap)
  | Co => '(n, ap) ← unsigned_arg (fl_size f) ap; Some (padded f (if fl_alt f then [chr "0"] else []) (numeral 8 n), ap)
  | Cx => '(n, ap) ← unsigned_arg (fl_size f) ap; Some (padded f (if fl_alt f then chars "0x" else []) (numeral 16 n), ap)
  | Cp => '(n, ap) ← word_arg ap; Some (padded f (chars "0x") (numeral 16 n), ap)
  | Cs =>
      '(w, ap) ← word_arg ap;
      str ← (if w =? 0 then Some (chars "(null)") else string_at w);
      if small str then Some (padded f [] str, ap) else None
  | Cc => '(w, ap) ← word_arg ap; Some (padded f [] (if u8 w =? 0 then [] else [u8 w]), ap)
  | Cother c => Some (padded f [] [c], ap)
  end.
Definition render_item (it : item) (ap : list varg) : option (list Z * list varg) :=
  match it with Lit c => Some ([c], ap) | Conv f cv => render_conv f cv ap end.
Fixpoint render (its : list item) (ap : list varg) : option (list Z) :=
  match its with
  | [] => Some []
  | it :: its => '(t, ap) ← render_item it ap; t' ← render its ap; Some (t ++ t')
  end.

(** ** Modifiers *)

Abbreviation send := (__pf_send collect string_at).
Abbreviation sends := (send_all collect string_at).

Lemma sends_app a b s s' : sends a s = Done (tt, s') → sends (a ++ b) s = sends b s'.
Proof.
  revert s. induction a as [|c a IH]; intros s; cbn [app send_all]; [by intros [= <-]|].
  intros H. apply kbind_Done in H as ([] & s1 & E1 & E2). kcall E1. by apply IH.
Qed.

(** Inside a format, with what was read so far. *)
Definition in_format (ap : list varg) (cc : Z) (z : intsize) (w : Z) (left : bool) (fill : Z) (alt : bool) : PF :=
  mk_PF ap cc true z 0 false w left fill 0 false alt.

Lemma send_digit ap cc z w left fill alt o d :
  0 ≤ d < 10 → 0 ≤ w → 0 < w ∨ 0 < d → w * 10 + d < 2 ^ 31 →
  send (digit_char d) (in_format ap cc z w left fill alt, o) = Done (tt, (in_format ap cc z (w * 10 + d) left fill alt, o)).
Proof.
  intros Hd Hw H0 Hmax.
  assert (d = 0 ∨ d = 1 ∨ d = 2 ∨ d = 3 ∨ d = 4 ∨ d = 5 ∨ d = 6 ∨ d = 7 ∨ d = 8 ∨ d = 9) as Hc by lia.
  destruct Hc as [-> | Hc].
  - transitivity ((if 0 <? w then n <- kint (w * 10) ;; setpf (set_spacing n) else setpf (set_fillchar (chr "0")))
                    (in_format ap cc z w left fill alt, o)); [reflexivity|].
    rewrite (proj2 (Z.ltb_lt 0 w)) by lia. unfold kint.
    rewrite (proj2 (Z.leb_le _ (w * 10))), (proj2 (Z.ltb_lt (w * 10) _)) by lia. cbn [andb]. ksteps. by rewrite Z.add_0_r.
  - assert (E : ∀ e c, c - chr "0" = e → 0 < e < 10 → 
      (n <- kint (w * 10) ;; n <- kint (n + (c - chr "0")) ;; setpf (set_spacing n)) (in_format ap cc z w left fill alt, o)
      = Done (tt, (in_format ap cc z (w * 10 + e) left fill alt, o) : PF * list Z) ∨ 2 ^ 31 ≤ w * 10 + e).
    { intros e c Ee He. destruct (Z.ltb_spec (w * 10 + e) (2 ^ 31)); [left|right; lia].
      unfold kint. rewrite (proj2 (Z.leb_le _ (w * 10))), (proj2 (Z.ltb_lt (w * 10) _)) by lia. cbn [andb]. ksteps.
      rewrite Ee, (proj2 (Z.leb_le _ (w * 10 + e))), (proj2 (Z.ltb_lt (w * 10 + e) _)) by lia. done. }
    decompose [or] Hc; subst d; match goal with |- context [digit_char ?e] =>
      destruct (E e (digit_char e) eq_refl ltac:(lia)) as [E'|E']; [exact E'|lia] end.
Qed.

Lemma foldl_grows b l acc : 1 ≤ b → 0 ≤ acc → acc ≤ foldl (λ acc c, acc * b + digit_value c) acc l.
Proof.
  revert acc. induction l as [|c l IH]; intros acc Hb Ha; cbn [foldl]; [lia|].
  assert (0 ≤ digit_value c) by (unfold digit_value; destruct (char_index c digits16); lia).
  etrans; [|apply IH]; nia.
Qed.

Lemma sends_digits l ap cc z w left fill alt o :
  Forall (λ c, ∃ d, 0 ≤ d < 10 ∧ c = digit_char d) l → 0 ≤ w → 0 < w ∨ head l ≠ Some (chr "0") →
  foldl (λ acc c, acc * 10 + digit_value c) w l < 2 ^ 31 →
  sends l (in_format ap cc z w left fill alt, o) =
    Done (tt, (in_format ap cc z (foldl (λ acc c, acc * 10 + digit_value c) w l) left fill alt, o)).
Proof.
  intros F. revert w. induction F as [|c l (d & Hd & ->) F IH]; intros w Hw H0 Hmax; [done|].
  cbn [foldl send_all] in *. rewrite digit_char_value in * by lia.
  pose proof (foldl_grows 10 l (w * 10 + d) ltac:(lia) ltac:(lia)).
  assert (0 < w ∨ 0 < d).
  { destruct H0 as [?|H0]; [by left|]. right. destruct (decide (d = 0)) as [->|]; [|lia]. by destruct H0. }
  rewrite (kbind_run _ _ _ _ _ (send_digit ap cc z w left fill alt o d Hd Hw ltac:(lia) ltac:(lia))).
  apply IH; [lia|lia|done].
Qed.

Lemma sends_flags f ap cc o :
  0 ≤ fl_width f < 2 ^ 31 →
  sends (flag_text f) (in_format ap cc INTSZ 0 false (chr " ") false, o) =
    Done (tt, (in_format ap cc (fl_size f) (fl_width f) (fl_left f) (fl_fill f) (fl_alt f), o)).
Proof.
  intros Hw. destruct f as [alt left zero w z]. unfold flag_text, fl_fill. cbn [fl_alt fl_left fl_zero fl_width fl_size] in *.
  erewrite (sends_app _ _ _ (in_format ap cc INTSZ 0 false (chr " ") alt, o)); [|destruct alt; reflexivity].
  erewrite (sends_app _ _ _ (in_format ap cc INTSZ 0 left (chr " ") alt, o)); [|destruct alt, left; reflexivity].
  erewrite (sends_app _ _ _ (in_format ap cc INTSZ 0 left (if zero then chr "0" else chr " ") alt, o)); [|destruct alt, left, zero; reflexivity].
  erewrite (sends_app _ _ _ (in_format ap cc INTSZ w left (if zero then chr "0" else chr " ") alt, o)).
  - destruct z, alt, left, zero; reflexivity.
  - unfold width_text. destruct (Z.eqb_spec w 0) as [->|Hne]; [done|].
    destruct (numeral_ok 10 w) as (Ev & Fd & _ & Hh & _); [lia|lia|]. unfold num_value in Ev.
    rewrite sends_digits; [by rewrite Ev|done|lia|right; apply Hh; lia|lia].
Qed.

(** ** Conversions *)

Definition fresh (ap : list varg) (cc : Z) : PF := mk_PF ap cc false INTSZ 0 false 0 false (chr " ") 0 false false.

Definition base_prefix (baseprefix : bool) (base : Z) : list Z :=
  if baseprefix && (base =? 16) then chars "0x" else if baseprefix && (base =? 8) then chars "0" else [].

Lemma printnum_run pf o :
  8 ≤ pf_base pf ≤ 16 → 0 ≤ pf_num pf < 2 ^ 64 → 0 ≤ pf_spacing pf → 0 ≤ pf_fillchar pf < 256 →
  let t := field (pf_spacing pf) (pf_rightspc pf) (pf_fillchar pf)
             ((if pf_sign pf then chars "-" else []) ++ base_prefix (pf_baseprefix pf) (pf_base pf))
             (numeral (pf_base pf) (pf_num pf)) in
  __pf_printnum collect (pf, o) = Done (tt, (counted (length t) pf, o ++ t)).
Proof.
  intros Hb Hn Hs Hf. cbv zeta. unfold __pf_printnum, getpf. ksteps. cbn [fst].
  destruct (num_loop_numeral (pf, o) (pf_base pf) Hb (pf_num pf) Hn) as (buf & x & E & Et).
  kcall E. rewrite Et. ksteps. cbn [fst]. apply printstuff_run; [|done|done].
  destruct (numeral_ok (pf_base pf) (pf_num pf) Hb Hn) as (_ & _ & _ & _ & Hlen).
  unfold NUMBER_BUF_SIZE in Hlen. change (8 * 8 / 3 + 2) with 23 in Hlen.
  assert (length (if pf_sign pf then chars "-" else []) ≤ 1)%nat by (destruct (pf_sign pf); cbn; lia).
  assert (H2 : (length (base_prefix (pf_baseprefix pf) (pf_base pf)) ≤ 2)%nat)
    by (unfold base_prefix; repeat case_match; cbn; lia).
  lia.
Qed.

(** The end of a numeric conversion, once the number is there. *)
Lemma number_run ap cc z f ch o (sign : bool) num b :
  0 ≤ fl_width f → 0 ≤ num < 2 ^ 64 → 8 ≤ b ≤ 16 →
  (if (ch =? chr "d") || (ch =? chr "u") then 10
   else if (ch =? chr "x") || (ch =? chr "p") then 16 else if ch =? chr "o" then 8 else 0) = b →
  let t := padded f ((if sign then chars "-" else []) ++ base_prefix (fl_alt f || (ch =? chr "p")) b) (numeral b num) in
  (__pf_setbase ch ;; __pf_printnum collect ;; __pf_endfield)
    (mk_PF ap cc true z num sign (fl_width f) (fl_left f) (fl_fill f) 0 false (fl_alt f), o) =
  Done (tt, (fresh ap (i32 (cc + Z.of_nat (length t))), o ++ t)).
Proof.
  intros Hw Hn Hb Eb. cbv zeta. unfold __pf_setbase, setpf. ksteps. cbn [fst snd]. 
  unfold set_base. cbn [pf_ap pf_charcount pf_in_pct pf_size pf_num pf_sign pf_spacing pf_rightspc pf_fillchar pf_base pf_altformat pf_baseprefix].
  rewrite Eb.
  set (pf := mk_PF _ _ _ _ _ _ _ _ _ _ _ _).
  pose proof (printnum_run pf o) as H. cbn [pf pf_base pf_num pf_spacing pf_fillchar pf_rightspc pf_sign pf_baseprefix] in H.
  specialize (H Hb Hn Hw ltac:(unfold fl_fill; destruct (fl_zero f); vm_compute; split; congruence)). kcall H.
  unfold __pf_endfield, setpf, padded. by destruct (fl_alt f || (ch =? chr "p")).
Qed.

Abbreviation state_of ap cc f o := (in_format ap cc (fl_size f) (fl_width f) (fl_left f) (fl_fill f) (fl_alt f), o).

Lemma send_number f ap cc o ch ap' (sign : bool) num b :
  ch ∈ [chr "d"; chr "o"; chr "u"; chr "p"; chr "x"] →
  __pf_getnum ch (state_of ap cc f o) =
    Done (tt, (mk_PF ap' cc true (fl_size f) num sign (fl_width f) (fl_left f) (fl_fill f) 0 false (fl_alt f), o)) →
  0 ≤ fl_width f → 0 ≤ num < 2 ^ 64 → 8 ≤ b ≤ 16 →
  (if (ch =? chr "d") || (ch =? chr "u") then 10
   else if (ch =? chr "x") || (ch =? chr "p") then 16 else if ch =? chr "o" then 8 else 0) = b →
  let t := padded f ((if sign then chars "-" else []) ++ base_prefix (fl_alt f || (ch =? chr "p")) b) (numeral b num) in
  send ch (state_of ap cc f o) = Done (tt, (fresh ap' (i32 (cc + Z.of_nat (length t))), o ++ t)).
Proof.
  intros Hch Hg Hw Hn Hb Eb. cbv zeta.
  transitivity ((__pf_getnum ch ;; __pf_setbase ch ;; __pf_printnum collect ;; __pf_endfield) (state_of ap cc f o)).
  { rewrite !elem_of_cons in Hch. by destruct Hch as [-> | [-> | [-> | [-> | [-> | []%not_elem_of_nil]]]]]. }
  kcall Hg. by apply number_run.
Qed.

Lemma word_arg_run ap w ap' cc z wd l fl alt (o : list Z) :
  word_arg ap = Some (w, ap') →
  va_word (in_format ap cc z wd l fl alt, o) = Done (w, (in_format ap' cc z wd l fl alt, o)) ∧ 0 ≤ w < 2 ^ 32.
Proof.
  destruct ap as [|[v|v] ap]; cbn [word_arg]; try done. intros [= <- <-]. split; [done|]. apply u32_range.
Qed.
Lemma dword_arg_run ap w ap' cc z wd l fl alt (o : list Z) :
  dword_arg ap = Some (w, ap') →
  va_dword (in_format ap cc z wd l fl alt, o) = Done (w, (in_format ap' cc z wd l fl alt, o)) ∧ 0 ≤ w < 2 ^ 64.
Proof.
  destruct ap as [|[v|v] ap]; cbn [dword_arg]; try done. intros [= <- <-]. split; [done|]. apply u64_range.
Qed.

Lemma unsigned_run f ap n ap' cc ch (o : list Z) :
  ch ∈ [chr "o"; chr "u"; chr "x"] → unsigned_arg (fl_size f) ap = Some (n, ap') →
  __pf_getnum ch (state_of ap cc f o) =
    Done (tt, (mk_PF ap' cc true (fl_size f) n false (fl_width f) (fl_left f) (fl_fill f) 0 false (fl_alt f), o)) ∧ 0 ≤ n < 2 ^ 64.
Proof.
  intros Hch Ha. assert (En : (ch =? chr "p") = false ∧ (ch =? chr "d") = false).
  { rewrite !elem_of_cons in Hch. by destruct Hch as [-> | [-> | [-> | []%not_elem_of_nil]]]. }
  destruct En as [E1 E2]. unfold __pf_getnum, getpf. ksteps. rewrite E1, E2. cbn [fst].
  unfold in_format at 1. cbn [pf_size].
  destruct (fl_size f) eqn:Ez; cbn [unsigned_arg] in Ha;
    first [destruct (word_arg_run _ _ _ cc (fl_size f) (fl_width f) (fl_left f) (fl_fill f) (fl_alt f) o Ha) as [E Hr]
          |destruct (dword_arg_run _ _ _ cc (fl_size f) (fl_width f) (fl_left f) (fl_fill f) (fl_alt f) o Ha) as [E Hr]];
    rewrite Ez in E; kcall E; (split; [done|lia]).
Qed.

Lemma signed_run f ap n ap' cc (o : list Z) :
  signed_arg (fl_size f) ap = Some (n, ap') → n ≠ - 2 ^ 63 →
  __pf_getnum (chr "d") (state_of ap cc f o) =
    Done (tt, (mk_PF ap' cc true (fl_size f) (Z.abs n) (n <? 0) (fl_width f) (fl_left f) (fl_fill f) 0 false (fl_alt f), o)) ∧
  0 ≤ Z.abs n < 2 ^ 64.
Proof.
  intros Ha Hn.
  assert (Hr : - 2 ^ 63 < n < 2 ^ 63 ∧
    (match fl_size f with
     | INTSZ => m <- va_word ;; kret (i32 m)
     | LONGSZ => m <- va_word ;; kret (i32 m)
     | LLONGSZ => m <- va_dword ;; kret (i64 m)
     end) (state_of ap cc f o) =
    Done (n, (in_format ap' cc (fl_size f) (fl_width f) (fl_left f) (fl_fill f) (fl_alt f), o))).
  { destruct (fl_size f) eqn:Ez; cbn [signed_arg] in Ha.
    1,2: destruct (word_arg ap) as [[w ap1]|] eqn:Ew; [|done]; cbn in Ha; simplify_eq;
      destruct (word_arg_run _ _ _ cc (fl_size f) (fl_width f) (fl_left f) (fl_fill f) (fl_alt f) o Ew) as [E _];
      rewrite Ez in E; kcall E; (split; [|done]);
      pose proof (Z.mod_pos_bound (w + 2 ^ 31) (2 ^ 32) ltac:(lia)); unfold i32; lia.
    destruct (dword_arg ap) as [[w ap1]|] eqn:Ew; [|done]; cbn in Ha; simplify_eq.
    destruct (dword_arg_run _ _ _ cc (fl_size f) (fl_width f) (fl_left f) (fl_fill f) (fl_alt f) o Ew) as [E _].
    rewrite Ez in E; kcall E. split; [|done].
    pose proof (Z.mod_pos_bound (w + 2 ^ 63) (2 ^ 64) ltac:(lia)). unfold i64 in *. lia. }
  destruct Hr as [Hr E]. split; [|lia]. unfold __pf_getnum, getpf. ksteps. cbn [fst].
  unfold in_format at 1. cbn [pf_size].
  change (chr "d" =? chr "p") with false. change (chr "d" =? chr "d") with true. cbv iota.
  rewrite (kbind_run _ _ _ _ _ E). rewrite (proj2 (Z.eqb_neq n _)) by done.
  destruct (Z.ltb_spec n 0).
  - rewrite (u64_small (- n)), Z.abs_neq by lia. done.
  - rewrite (u64_small n), Z.abs_eq by lia. done.
Qed.

Lemma send_text f ap cc o stuff :
  0 ≤ fl_width f → Z.of_nat (length stuff) < 2 ^ 31 →
  (__pf_printstuff collect [] [] stuff ;; __pf_endfield) (state_of ap cc f o) =
    Done (tt, (fresh ap (i32 (cc + Z.of_nat (length (padded f [] stuff)))), o ++ padded f [] stuff)).
Proof.
  intros Hw Hl.
  pose proof (printstuff_run [] [] stuff (in_format ap cc (fl_size f) (fl_width f) (fl_left f) (fl_fill f) (fl_alt f)) o) as H.
  cbn [in_format pf_spacing pf_fillchar pf_rightspc] in H.
  specialize (H Hl Hw ltac:(unfold fl_fill; destruct (fl_zero f); vm_compute; split; congruence)).
  unfold in_format. kcall H. done.
Qed.

Lemma send_conv f cv ap t ap' cc o :
  wf_item (Conv f cv) → render_conv f cv ap = Some (t, ap') →
  send (conv_char cv) (state_of ap cc f o) = Done (tt, (fresh ap' (i32 (cc + Z.of_nat (length t))), o ++ t)).
Proof.
  intros [Hw Hcv] Hr. destruct cv; cbn [render_conv conv_char] in *.
  - destruct (signed_arg (fl_size f) ap) as [[z ap1]|] eqn:Ea; [|done]. cbn [mbind option_bind] in Hr.
    destruct (Z.eqb_spec z (- 2 ^ 63)); [done|]. injection Hr as <- <-.
    destruct (signed_run f ap z ap1 cc o Ea) as [E Hz]; [done|].
    rewrite (send_number f ap cc o (chr "d") ap1 (z <? 0) (Z.abs z) 10) by (done || lia || set_solver).
    unfold base_prefix. rewrite !andb_false_r. by destruct (z <? 0).
  - destruct (unsigned_arg (fl_size f) ap) as [[n ap1]|] eqn:Ea; [|done]. injection Hr as <- <-.
    destruct (unsigned_run f ap n ap1 cc (chr "u") o) as [E Hn]; [set_solver|done|].
    rewrite (send_number f ap cc o (chr "u") ap1 false n 10) by (done || lia || set_solver).
    unfold base_prefix. by rewrite !andb_false_r.
  - destruct (unsigned_arg (fl_size f) ap) as [[n ap1]|] eqn:Ea; [|done]. injection Hr as <- <-.
    destruct (unsigned_run f ap n ap1 cc (chr "o") o) as [E Hn]; [set_solver|done|].
    rewrite (send_number f ap cc o (chr "o") ap1 false n 8) by (done || lia || set_solver).
    unfold base_prefix. by destruct (fl_alt f).
  - destruct (unsigned_arg (fl_size f) ap) as [[n ap1]|] eqn:Ea; [|done]. injection Hr as <- <-.
    destruct (unsigned_run f ap n ap1 cc (chr "x") o) as [E Hn]; [set_solver|done|].
    rewrite (send_number f ap cc o (chr "x") ap1 false n 16) by (done || lia || set_solver).
    unfold base_prefix. by destruct (fl_alt f).
  - destruct (word_arg ap) as [[n ap1]|] eqn:Ea; [|done]. injection Hr as <- <-.
    destruct (word_arg_run _ _ _ cc (fl_size f) (fl_width f) (fl_left f) (fl_fill f) (fl_alt f) o Ea) as [E Hn].
    rewrite (send_number f ap cc o (chr "p") ap1 false n 16); [unfold base_prefix; by destruct (fl_alt f)|set_solver| |lia..|done].
    unfold __pf_getnum, getpf. ksteps. change (chr "p" =? chr "p") with true. cbv iota. kcall E. done.
  - destruct (word_arg ap) as [[w ap1]|] eqn:Ea; [|done]. cbn [mbind option_bind] in Hr.
    destruct (word_arg_run _ _ _ cc (fl_size f) (fl_width f) (fl_left f) (fl_fill f) (fl_alt f) o Ea) as [E Hn].
    transitivity ((w <- va_word ;; str <- (if w =? 0 then kret (chars "(null)") else kderef (string_at w)) ;;
      __pf_printstuff collect [] [] str ;; __pf_endfield) (state_of ap cc f o)); [reflexivity|].
    kcall E. destruct (w =? 0); cbn [mbind option_bind] in Hr; [|destruct (string_at w) as [str|]; [|done]; cbn [mbind option_bind] in Hr];
      destruct (small _) eqn:Es; try done; injection Hr as <- <-; apply Z.ltb_lt in Es; ksteps; apply send_text; lia.
  - destruct (word_arg ap) as [[w ap1]|] eqn:Ea; [|done]. injection Hr as <- <-.
    destruct (word_arg_run _ _ _ cc (fl_size f) (fl_width f) (fl_left f) (fl_fill f) (fl_alt f) o Ea) as [E Hn].
    transitivity ((x <- (w <- va_word ;; kret (u8 w)) ;; __pf_printstuff collect [] [] (if x =? 0 then [] else [x]) ;; __pf_endfield)
      (state_of ap cc f o)); [reflexivity|].
    ksteps. kcall E. ksteps. apply send_text; [lia|]. destruct (u8 w =? 0); cbn [length]; lia.
  - destruct Hcv as (Hc & E1 & E2 & Hs & Hcc). injection Hr as <- <-.
    unfold __pf_send, getpf. rewrite (proj2 (Z.eqb_neq c 0)), step_assert by (done || lia). ksteps. cbn [fst in_format pf_in_pct negb andb].
    rewrite E1, E2, (proj2 (Z.eqb_neq c _) Hs), (proj2 (Z.eqb_neq c _) Hcc). ksteps.
    rewrite u8_small by lia. rewrite (proj2 (Z.eqb_neq c 0)) by lia. apply send_text; [lia|cbn; lia].
Qed.

Lemma sends_item it ap t ap' cc o :
  wf_item it → render_item it ap = Some (t, ap') →
  sends (item_text it) (fresh ap cc, o) = Done (tt, (fresh ap' (i32 (cc + Z.of_nat (length t))), o ++ t)).
Proof.
  intros Hwf Hr. destruct it as [c|f cv]; cbn [item_text render_item] in *.
  - injection Hr as <- <-. destruct Hwf as [Hc Hp]. cbn [send_all]. unfold __pf_send, getpf.
    rewrite (proj2 (Z.eqb_neq c 0)) by lia. rewrite step_bind, step_assert by done. ksteps. cbn [fst fresh pf_in_pct negb andb]. rewrite (proj2 (Z.eqb_neq c _) Hp).
    cbn [negb]. rewrite u8_small by lia. rewrite (kbind_run _ _ _ _ _ (print_run _ _ _)). done.
  - cbn [send_all]. change (send (chr "%") (fresh ap cc, o)) with (@Done (unit * (PF * list Z)) (tt, (in_format ap cc INTSZ 0 false (chr " ") false, o))).
    assert (E0 : send (chr "%") (fresh ap cc, o) = Done (tt, (in_format ap cc INTSZ 0 false (chr " ") false, o))) by reflexivity.
    kcall E0. rewrite (sends_app _ _ _ _ (sends_flags f ap cc o (proj1 Hwf))). cbn [send_all].
    kcall (send_conv f cv ap t ap' cc o Hwf Hr). done.
Qed.

Lemma sends_items its ap t cc o :
  Forall wf_item its → render its ap = Some t → - 2 ^ 31 ≤ cc < 2 ^ 31 →
  ∃ ap', sends (concat (item_text <$> its)) (fresh ap cc, o) = Done (tt, (fresh ap' (i32 (cc + Z.of_nat (length t))), o ++ t)).
Proof.
  intros F. revert ap t cc o. induction F as [|it its Hwf F IH]; intros ap t cc o Hr Hcc; [|rewrite fmap_cons]; cbn [render concat] in *.
  - injection Hr as <-. exists ap. rewrite app_nil_r. cbn [length Z.of_nat]. rewrite Z.add_0_r, i32_small by done. done.
  - destruct (render_item it ap) as [[t1 ap1]|] eqn:E1; [|done]. cbn [mbind option_bind] in Hr.
    destruct (render its ap1) as [t2|] eqn:E2; [|done]. injection Hr as <-.
    rewrite (sends_app _ _ _ _ (sends_item it ap t1 ap1 cc o Hwf E1)).
    destruct (IH ap1 t2 (i32 (cc + Z.of_nat (length t1))) (o ++ t1) E2) as [ap' E].
    { pose proof (Z.mod_pos_bound (cc + Z.of_nat (length t1) + 2 ^ 31) (2 ^ 32) ltac:(lia)). unfold i32. lia. }
    exists ap'. rewrite E, i32_add_l, length_app, <- app_assoc. do 4 f_equal. f_equal. lia.
Qed.

Lemma vprintf_items its ap t o :
  Forall wf_item its → render its ap = Some t →
  __vprintf collect string_at (concat (item_text <$> its)) ap o = Done (i32 (Z.of_nat (length t)), o ++ t).
Proof.
  intros F Hr. unfold __vprintf. change (endfield _) with (fresh ap 0).
  destruct (sends_items its ap t 0 o F Hr ltac:(lia)) as [ap' E]. rewrite E. done.
Qed.
End Render.

(** ** Any two clients see the same course *)

Section Sim.
Context {C D : Type} (R : C → D → Prop) (send1 : list Z → K C unit) (send2 : list Z → K D unit).
Context (string_at : Z → option (list Z)).
Hypothesis Hsend : ∀ txt c d, R c d → ∃ c' d', send1 txt c = Done (tt, c') ∧ send2 txt d = Done (tt, d') ∧ R c' d'.

Definition osim {A} (r1 : outcome (A * (PF * C))) (r2 : outcome (A * (PF * D))) : Prop :=
  match r1, r2 with
  | Done (a1, (pf1, c)), Done (a2, (pf2, d)) => a1 = a2 ∧ pf1 = pf2 ∧ R c d
  | Panic, Panic | Undef, Undef | Hang, Hang => True
  | _, _ => False
  end.
Definition sim {A} (m1 : K (PF * C) A) (m2 : K (PF * D) A) : Prop :=
  ∀ pf c d, R c d → osim (m1 (pf, c)) (m2 (pf, d)).

Lemma sim_bind {A B} (m1 : K (PF * C) A) m2 (f1 : A → K (PF * C) B) f2 :
  sim m1 m2 → (∀ a, sim (f1 a) (f2 a)) → sim (kbind m1 f1) (kbind m2 f2).
Proof.
  intros Hm Hf pf c d HR. specialize (Hm pf c d HR). unfold kbind, osim in *.
  destruct (m1 (pf, c)) as [[a1 [pf1 c1]]| | |], (m2 (pf, d)) as [[a2 [pf2 d2]]| | |]; try done.
  destruct Hm as (-> & -> & HR'). by apply Hf.
Qed.
Lemma sim_ret {A} (a : A) : sim (kret a) (kret a).
Proof. by intros pf c d HR. Qed.
Lemma sim_getpf {A} (f : PF → A) : sim (getpf f) (getpf f).
Proof. by intros pf c d HR. Qed.
Lemma sim_setpf f : sim (setpf f) (setpf f).
Proof. by intros pf c d HR. Qed.
Lemma sim_undef {A} : sim (A := A) kundef kundef.
Proof. by intros pf c d HR. Qed.
Lemma sim_hang {A} : sim (A := A) khang khang.
Proof. by intros pf c d HR. Qed.
Lemma sim_assert b : sim (kassert b) (kassert b).
Proof. intros pf c d HR. by destruct b. Qed.
Lemma sim_deref {A} (x : option A) : sim (kderef x) (kderef x).
Proof. intros pf c d HR. by destruct x. Qed.
Lemma sim_kint z : sim (kint z) (kint z).
Proof. intros pf c d HR. unfold kint. by destruct (_ && _). Qed.
Lemma sim_print txt : sim (__pf_print send1 txt) (__pf_print send2 txt).
Proof.
  apply sim_bind; [|intros; apply sim_setpf]. intros pf c d HR. unfold kzoom. cbn [snd fst].
  destruct (Hsend txt c d HR) as (c' & d' & -> & -> & HR'). done.
Qed.

(** Walks through a definition, [known] closing the calls. *)
Ltac sim_tac known :=
  repeat lazymatch goal with
    | |- ∀ _, sim _ _ => intro
    | |- sim (kbind _ _) (kbind _ _) => apply sim_bind
    | |- sim (__pf_print _ _) _ => apply sim_print
    | |- sim (kret _) _ => apply sim_ret
    | |- sim (getpf _) _ => apply sim_getpf
    | |- sim (setpf _) _ => apply sim_setpf
    | |- sim kundef _ => apply sim_undef
    | |- sim khang _ => apply sim_hang
    | |- sim (kassert _) _ => apply sim_assert
    | |- sim (kderef _) _ => apply sim_deref
    | |- sim (kint _) _ => apply sim_kint
    | |- sim (match ?x with _ => _ end) _ => destruct x
    | |- _ => known
    end.

Lemma sim_modifier ch : sim (__pf_modifier ch) (__pf_modifier ch).
Proof. unfold __pf_modifier. sim_tac fail. Qed.
Lemma sim_va_word : sim va_word va_word.
Proof. unfold va_word. sim_tac fail. Qed.
Lemma sim_va_dword : sim va_dword va_dword.
Proof. unfold va_dword. sim_tac fail. Qed.
Lemma sim_getnum ch : sim (__pf_getnum ch) (__pf_getnum ch).
Proof. unfold __pf_getnum. sim_tac ltac:(first [apply sim_va_word|apply sim_va_dword]). Qed.
Lemma sim_fill_loop f k : sim (fill_loop send1 f k) (fill_loop send2 f k).
Proof. induction k as [|k IH]; cbn [fill_loop]; [apply sim_ret|]. apply sim_bind; [apply sim_print|done]. Qed.
Lemma sim_printstuff a b c : sim (__pf_printstuff send1 a b c) (__pf_printstuff send2 a b c).
Proof. unfold __pf_printstuff, __pf_fill. cbv zeta. sim_tac ltac:(apply sim_fill_loop). Qed.
Lemma sim_num_loop fuel buf x n b : sim (num_loop fuel buf x n b) (num_loop fuel buf x n b).
Proof. revert buf x n. induction fuel as [|fuel IH]; intros buf x n; cbn [num_loop]; cbv zeta; sim_tac ltac:(apply IH). Qed.
Lemma sim_printnum : sim (__pf_printnum send1) (__pf_printnum send2).
Proof. unfold __pf_printnum. cbv zeta. sim_tac ltac:(first [apply sim_num_loop|apply sim_printstuff]). Qed.
Lemma sim_send ch : sim (__pf_send send1 string_at ch) (__pf_send send2 string_at ch).
Proof.
  unfold __pf_send, __pf_setbase, __pf_endfield.
  sim_tac ltac:(first [apply sim_modifier|apply sim_getnum|apply sim_printnum|apply sim_printstuff|apply sim_va_word]).
Qed.
Lemma sim_send_all fmt : sim (send_all send1 string_at fmt) (send_all send2 string_at fmt).
Proof. induction fmt as [|ch fmt IH]; cbn [send_all]; [apply sim_ret|]. apply sim_bind; [apply sim_send|done]. Qed.

Lemma vprintf_sim fmt ap c d :
  R c d →
  match __vprintf send1 string_at fmt ap c with
  | Done (n, c') => ∃ d', __vprintf send2 string_at fmt ap d = Done (n, d') ∧ R c' d'
  | Panic => __vprintf send2 string_at fmt ap d = Panic
  | Undef => __vprintf send2 string_at fmt ap d = Undef
  | Hang => __vprintf send2 string_at fmt ap d = Hang
  end.
Proof.
  intros HR. unfold __vprintf. set (pf := endfield _). pose proof (sim_send_all fmt pf c d HR) as H. unfold osim in H.
  destruct (send_all send1 string_at fmt (pf, c)) as [[[] [pf1 c1]]| | |], (send_all send2 string_at fmt (pf, d)) as [[[] [pf2 d2]]| | |]; try done.
  destruct H as (_ & -> & HR'). by eexists.
Qed.
End Sim.

(** ** [snprintf] *)

Section Snprintf.
Context (m0 : mem) (buf n : Z) (Hbuf : 0 ≤ buf) (Hn : 0 ≤ n < 2 ^ 32) (Hm : buf + n ≤ msize m0).

(** The buffer has as much of the text as there is room for. *)
Definition snp_rel (out : list Z) (s : SNP) : Prop :=
  snp_buf s = buf ∧ snp_buflen s = n ∧ snp_bufpos s = Z.of_nat (length (take (Z.to_nat n) out)) ∧
  written m0 (snp_mem s) buf (take (Z.to_nat n) out).

Lemma snprintf_send_run txt out s :
  snp_rel out s → ∃ s', __snprintf_send txt s = Done (tt, s') ∧ snp_rel (out ++ txt) s'.
Proof.
  revert out s. induction txt as [|c txt IH]; intros out s H; cbn [__snprintf_send].
  { exists s. rewrite app_nil_r. done. }
  destruct H as (Eb & El & Ep & W). ksteps. rewrite El, Ep.
  rewrite length_take in *. destruct (Z.ltb_spec (Z.of_nat (Z.to_nat n `min` length out)) n).
  - assert (Hmin : (Z.to_nat n `min` length out = length out)%nat) by lia. rewrite Hmin in *.
    rewrite take_ge in W by lia. destruct (W) as [L _].
    assert (E : kzoom snp_mem (λ m s, mk_SNP m (snp_buf s) (snp_buflen s) (snp_bufpos s))
                  (store (snp_buf s + Z.of_nat (length out)) c) s =
                Done (tt, mk_SNP (<[Z.to_nat (buf + Z.of_nat (length out)) := c]> (snp_mem s)) buf n (snp_bufpos s))).
    { unfold kzoom. rewrite Eb, store_run, El by (rewrite L; lia). done. }
    ksteps. kcall E. ksteps. cbn [snp_mem snp_buf snp_buflen snp_bufpos].
    destruct (IH (out ++ [c]) (mk_SNP (<[Z.to_nat (buf + Z.of_nat (length out)) := c]> (snp_mem s)) buf n (u32 (snp_bufpos s + 1)))) as (s' & E' & H').
    { split_and!; [done|done| |]; cbn [snp_mem snp_bufpos]; rewrite take_ge by (rewrite length_app; cbn; lia).
      - rewrite Ep, length_app. cbn [length]. rewrite u32_small by lia. lia.
      - apply written_snoc; [done|done|lia]. }
    exists s'. rewrite <- app_assoc in H'. done.
  - ksteps. destruct (IH (out ++ [c]) s) as (s' & E' & H').
    { split_and!; [done|done| |]; rewrite take_app_le by lia; [|done]. rewrite length_take. done. }
    exists s'. rewrite <- app_assoc in H'. done.
Qed.
End Snprintf.

Lemma vsnprintf_run string_at fmt ap m buf len :
  0 ≤ buf → 0 ≤ len < 2 ^ 32 → buf + len ≤ msize m →
  match __vprintf collect string_at fmt ap [] with
  | Done (count, t) => ∃ m', vsnprintf string_at buf len fmt ap m = Done (count, m') ∧
      (if len =? 0 then m' = m else written m m' buf (take (Z.to_nat (len - 1)) t ++ [0]))
  | Panic => vsnprintf string_at buf len fmt ap m = Panic
  | Undef => vsnprintf string_at buf len fmt ap m = Undef
  | Hang => vsnprintf string_at buf len fmt ap m = Hang
  end.
Proof.
  intros Hb Hl Hm. unfold vsnprintf. set (n := if len =? 0 then 0 else len - 1).
  assert (Hn : 0 ≤ n < 2 ^ 32 ∧ n ≤ len) by (unfold n; destruct (Z.eqb_spec len 0); lia).
  pose proof (vprintf_sim (snp_rel m buf n) collect __snprintf_send string_at) as H.
  specialize (H ltac:(intros txt c d HR; destruct (snprintf_send_run m buf n Hb (proj1 Hn) ltac:(lia) txt c d HR) as (d' & E & HR');
                      exists (c ++ txt), d'; done) fmt ap [] (mk_SNP m buf n 0)).
  specialize (H ltac:(split_and!; [done|done|by rewrite take_nil|rewrite take_nil; split; [done|intros q; cbn [length]; zcase; [lia|done..]]])).
  destruct (__vprintf collect string_at fmt ap []) as [[count t]| | |]; [|by rewrite H..].
  destruct H as (s & -> & (Eb & En & Ep & W)). destruct W as [L W']. 
  destruct (Z.eqb_spec len 0) as [->|Hne].
  - exists (snp_mem s). split; [done|]. unfold n in *. cbn [Z.eqb] in *. rewrite take_0 in *.
    apply list_eq. intros i. specialize (W' (Z.of_nat i)). cbn [length] in W'.
    unfold mget in W'. rewrite (proj2 (Z.leb_le 0 (Z.of_nat i))), Nat2Z.id in W' by lia.
    rewrite W'. zcase; (done || lia).
  - rewrite (proj2 (Z.ltb_lt 0 len)) by lia. rewrite Ep.
    unfold n in *.
    assert (Hlen : (length (take (Z.to_nat (len - 1)) t) ≤ Z.to_nat (len - 1))%nat) by (rewrite length_take; lia).
    kcall (store_run (snp_mem s) (buf + Z.of_nat (length (take (Z.to_nat (len - 1)) t))) 0 ltac:(rewrite L; lia)).
    eexists. split; [done|]. apply written_snoc; [done|done|lia].
Qed.

(** ** Theorems *)

(** C21. [__vprintf] prints what its format means: for any format made of
    characters and of conversions with any flags, width and size, given the
    arguments they take, it sends exactly the text of each item, padded as the
    flags say, and returns the number of characters, without a panic and
    without leaving its 23-byte number buffer; and the numerals in this text
    stand for the numbers, without superfluous zeros, for every 64-bit number
    in bases 8 to 16. *)
Theorem printf_renders string_at its ap t out :
  Forall wf_item its → render string_at its ap = Some t →
  __vprintf collect string_at (concat (item_text <$> its)) ap out = Done (i32 (Z.of_nat (length t)), out ++ t) ∧
  ∀ b n, 8 ≤ b ≤ 16 → 0 ≤ n < 2 ^ 64 → is_numeral b n (numeral b n).
Proof. intros F Hr. split; [by apply vprintf_items|]. intros. by apply numeral_ok. Qed.

(** [n=%-5d|%012llx|%s] on -42, 3735928559 and a null pointer. *)
Definition ex_items : list item :=
  [Lit (chr "n"); Lit (chr "="); Conv (mk_flags false true false 5 INTSZ) Cd; Lit (chr "|");
   Conv (mk_flags false false true 12 LLONGSZ) Cx; Lit (chr "|"); Conv (mk_flags false false false 0 INTSZ) Cs].
Definition ex_args : list varg := [Word (2 ^ 32 - 42); Dword 3735928559; Word 0].

Lemma printf_renders_witness :
  concat (item_text <$> ex_items) = chars "n=%-5d|%012llx|%s" ∧
  __vprintf collect (λ _, None) (concat (item_text <$> ex_items)) ex_args [] =
    Done (27, chars "n=-42  |0000deadbeef|(null)").
Proof.
  split; [vm_compute; reflexivity|].
  apply (printf_renders (λ _, None) ex_items ex_args (chars "n=-42  |0000deadbeef|(null)") []).
  - unfold ex_items. repeat constructor; vm_compute; congruence.
  - vm_compute. reflexivity.
Defined.

(** [vsnprintf] prints into its buffer what [__vprintf] sends to any client
    that keeps the text, cut to the room there is, with a NUL, and returns the
    length of the whole text; it writes no byte outside the [len] bytes it was
    given, nothing at all when [len] is zero, and ends the way [__vprintf]
    ends. *)
Theorem snprintf_bounded string_at fmt ap m buf len :
  0 ≤ buf → 0 ≤ len < 2 ^ 32 → buf + len ≤ msize m →
  match __vprintf collect string_at fmt ap [] with
  | Done (count, t) => ∃ m', vsnprintf string_at buf len fmt ap m = Done (count, m') ∧
      (if len =? 0 then m' = m else written m m' buf (take (Z.to_nat (len - 1)) t ++ [0])) ∧
      length m' = length m ∧ (∀ q, q < buf ∨ buf + len ≤ q → mget m' q = mget m q)
  | Panic => vsnprintf string_at buf len fmt ap m = Panic
  | Undef => vsnprintf string_at buf len fmt ap m = Undef
  | Hang => vsnprintf string_at buf len fmt ap m = Hang
  end.
Proof.
  intros Hb Hl Hm. pose proof (vsnprintf_run string_at fmt ap m buf len Hb Hl Hm) as H.
  destruct (__vprintf collect string_at fmt ap []) as [[count t]| | |]; try done.
  destruct H as (m' & E & H). exists m'. split; [done|]. split; [done|].
  destruct (Z.eqb_spec len 0); [by subst|]. destruct H as [L Hq]. split; [done|].
  intros q Ho. rewrite Hq, length_app, length_take. cbn [length]. zcase; (done || lia).
Qed.

Lemma snprintf_bounded_witness :
  ∃ m', vsnprintf (λ _, None) 2 4 (chars "%d!") [Word 12345] (replicate 8 7) = Done (6, m') ∧
    written (replicate 8 7) m' 2 [49; 50; 51; 0].
Proof.
  pose proof (snprintf_bounded (λ _, None) (chars "%d!") [Word 12345] (replicate 8 7) 2 4
                ltac:(lia) ltac:(lia) ltac:(vm_compute; discriminate)) as H.
  assert (E : __vprintf collect (λ _, None) (chars "%d!") [Word 12345] [] = Done (6, chars "12345!")) by (vm_compute; reflexivity).
  rewrite E in H. destruct H as (m' & E1 & W & _). exists m'. split; [exact E1|exact W].
Defined.

(** ** Through [atoi] and back *)

Lemma char_index_digit d : 0 ≤ d < 10 → char_index (digit_char d) digits10 = Some (Z.to_nat d).
Proof.
  intros Hd. assert (H : Forall (λ d, char_index (digit_char d) digits10 = Some (Z.to_nat d)) (seqZ 0 10))
    by (apply (bool_decide_unpack _); vm_compute; exact I).
  rewrite Forall_forall in H. apply H. apply elem_of_seqZ. lia.
Qed.
Lemma atoi_digits_value l v :
  Forall (λ c, ∃ d, 0 ≤ d < 10 ∧ c = digit_char d) l → 0 ≤ v →
  foldl (λ acc c, acc * 10 + digit_value c) v l < 2 ^ 32 →
  atoi_digits l v = foldl (λ acc c, acc * 10 + digit_value c) v l.
Proof.
  intros F. revert v. induction F as [|c l (d & Hd & ->) F IH]; intros v Hv Hm; [done|].
  cbn [atoi_digits foldl] in *. rewrite char_index_digit by done. rewrite digit_char_value in * by lia.
  pose proof (foldl_grows 10 l (v * 10 + d) ltac:(lia) ltac:(lia)).
  rewrite Z2Nat.id by lia. rewrite u32_small by lia. apply IH; [lia|done].
Qed.
Lemma atoi_digits_numeral n : 0 ≤ n < 2 ^ 32 → atoi_digits (numeral 10 n) 0 = n.
Proof.
  intros Hn. destruct (numeral_ok 10 n) as (Ev & Fd & _); [lia|lia|]. unfold num_value in Ev.
  rewrite atoi_digits_value; [done|done|lia|lia].
Qed.
Lemma digit_char_range d : 0 ≤ d < 10 → 48 ≤ digit_char d < 58.
Proof.
  intros Hd. assert (H : Forall (λ d, 48 ≤ digit_char d < 58) (seqZ 0 10))
    by (apply (bool_decide_unpack _); vm_compute; exact I).
  rewrite Forall_forall in H. apply H. apply elem_of_seqZ. lia.
Qed.

(** What [%d] prints for [n]. *)
Definition decimal (n : Z) : list Z := (if n <? 0 then [chr "-"] else []) ++ numeral 10 (Z.abs n).

Lemma atoi_decimal n : - 2 ^ 31 ≤ n < 2 ^ 31 → atoi (decimal n) = n.
Proof.
  intros Hn. unfold decimal, atoi. destruct (numeral_ok 10 (Z.abs n)) as (_ & Fd & H1 & _); [lia|lia|].
  destruct (Z.ltb_spec n 0).
  - cbn [app skip_blanks orb Z.eqb]. change (chr "-") with 45. cbn [Z.eqb Pos.eqb orb skip_blanks].
    rewrite atoi_digits_numeral by lia. unfold u32, i32.
    rewrite Z.abs_neq, Z.opp_involutive by lia.
    rewrite <- (Z.mod_add n 1 (2 ^ 32)) by lia. rewrite (Z.mod_small (n + 1 * 2 ^ 32)) by lia.
    replace (n + 1 * 2 ^ 32 + 2 ^ 31) with (n + 2 ^ 31 + 1 * 2 ^ 32) by lia. rewrite Z.mod_add, Z.mod_small by lia. lia.
  - pose proof (atoi_digits_numeral (Z.abs n) ltac:(lia)) as E. rewrite Z.abs_eq in * by lia. cbn [app].
    destruct (numeral 10 n) as [|c l]; [cbn in H1; lia|]. apply Forall_cons in Fd as [(d & Hd & ->) Fd].
    pose proof (digit_char_range d Hd). cbn [skip_blanks].
    rewrite (proj2 (Z.eqb_neq _ 32)), (proj2 (Z.eqb_neq _ 9)) by lia. cbn [orb].
    rewrite (proj2 (Z.eqb_neq _ 45)), (proj2 (Z.eqb_neq _ 43)) by lia. rewrite E. apply i32_small. lia.
Qed.

Lemma decimal_length n : - 2 ^ 31 ≤ n < 2 ^ 31 → (length (decimal n) ≤ 11)%nat.
Proof.
  intros Hn. unfold decimal, numeral. rewrite length_app, length_reverse, length_fmap.
  pose proof (digits_rev_length 10 ltac:(lia) 10 64 (Z.abs n) ltac:(change (10 ^ Z.of_nat 10) with 10000000000; lia) ltac:(lia)).
  destruct (n <? 0); cbn [length]; lia.
Qed.

(** A 32-bit number survives being printed and read: [snprintf] with [%d]
    into a buffer of 12 bytes or more leaves a string there from which [atoi]
    gives the number back, for every [int], the least one included. *)
Theorem print_then_atoi string_at m buf len n :
  0 ≤ buf → 12 ≤ len < 2 ^ 32 → buf + len ≤ msize m → - 2 ^ 31 ≤ n < 2 ^ 31 →
  ∃ m' t, vsnprintf string_at buf len (chars "%d") [Word (u32 n)] m = Done (Z.of_nat (length t), m') ∧
    cstr m' buf t ∧ atoi t = n.
Proof.
  intros Hb Hl Hm Hn.
  assert (Ei : i32 (u32 (u32 n)) = n).
  { rewrite (u32_small (u32 n)) by apply u32_range. unfold i32, u32. rewrite Z.add_mod_idemp_l, Z.mod_small by lia. lia. }
  pose proof (vprintf_items string_at [Conv (mk_flags false false false 0 INTSZ) Cd] [Word (u32 n)] (decimal n) []) as E.
  pose proof (decimal_length n Hn) as Hlen.
  specialize (E ltac:(apply Forall_singleton; cbn; lia)). cbn [app] in E. change (concat _) with (chars "%d") in E.
  assert (Er : render string_at [Conv (mk_flags false false false 0 INTSZ) Cd] [Word (u32 n)] = Some (decimal n)).
  { cbn [render render_item render_conv signed_arg word_arg fl_size mbind option_bind]. rewrite Ei.
    rewrite (proj2 (Z.eqb_neq n _)) by lia. cbn [mbind option_bind]. rewrite app_nil_r. unfold padded, field, decimal.
    cbn [fl_width fl_left fl_fill fl_zero]. rewrite Z2Nat.nonpos by lia. done. }
  specialize (E Er). rewrite i32_small in E by lia.
  pose proof (vsnprintf_run string_at (chars "%d") [Word (u32 n)] m buf len Hb ltac:(lia) Hm) as H. rewrite E in H.
  destruct H as (m' & Ev & W). rewrite (proj2 (Z.eqb_neq len 0)), take_ge in W by lia.
  exists m', (decimal n). split; [done|]. split; [|by apply atoi_decimal].
  eapply written_cstr; [done| |exact W]. unfold decimal. apply Forall_app. split; [by destruct (n <? 0); repeat constructor|].
  destruct (numeral_ok 10 (Z.abs n)) as (_ & Fd & _); [lia|lia|].
  eapply Forall_impl; [exact Fd|]. intros c (d & Hd & ->). pose proof (digit_char_range d Hd). lia.
Qed.

Lemma print_then_atoi_witness :
  ∃ m' t, vsnprintf (λ _, None) 1 12 (chars "%d") [Word (u32 (-2147483648))] (replicate 14 0) = Done (Z.of_nat (length t), m') ∧
    cstr m' 1 t ∧ atoi t = -2147483648.
Proof.
  apply (print_then_atoi (λ _, None) (replicate 14 0) 1 12 (-2147483648)); rewrite ?length_replicate; lia.
Defined.

(** With both [-] and [0], zeros are added after the number: 7 comes out as
    70000. *)
Lemma left_and_zero_flags : 
  __vprintf collect (λ _, None) (chars "%-05d") [Word 7] [] = Done (5, chars "70000").
Proof. vm_compute. reflexivity. Qed.

(** The longest number takes all of the buffer: 22 octal digits and the NUL. *)
Lemma octal_fills_buffer :
  __vprintf collect (λ _, None) (chars "%llo") [Dword (2 ^ 64 - 1)] [] = Done (22, chars "1777777777777777777777") ∧
  NUMBER_BUF_SIZE = 23.
Proof. vm_compute. split; reflexivity. Qed.
