(* ===== verification/Spinlock.v ===== *)
(** * Interrupt levels and spinlocks (kern/thread/spl.c, kern/thread/spinlock.c)

    [spl_state] is what the level functions work on: the level and the count of
    raises of the current thread, and whether interrupts are on.  The spinlock
    is a word that processors fight for with load-linked and store-conditional;
    [spin_exec] is the next step of one processor in the code of
    [spinlock_acquire] or [spinlock_release], and any interleaving of the
    processors is a run. *)

From stdpp Require Import base numbers list gmap fin_maps fin_sets sets relations.
From Stdlib Require Import ZArith Lia.
From S2P Require Import Prelude.

Open Scope Z_scope.
Open Scope kernel_scope.

(** ** Interrupt levels *)

Definition IPL_NONE : Z := 0.
Definition IPL_HIGH : Z := 1.

Record spl_state := Spl {
  t_curspl : Z;
  t_iplhigh_count : Z;
  irq_on : bool;
}.

Definition cpu_irqoff : K spl_state unit := kmodify (λ s, Spl (t_curspl s) (t_iplhigh_count s) false).
Definition cpu_irqon : K spl_state unit := kmodify (λ s, Spl (t_curspl s) (t_iplhigh_count s) true).

(** [up] is [CURCPU_EXISTS()]. *)
Definition splraise (up : bool) (oldspl newspl : Z) : K spl_state unit :=
  kassert (oldspl =? IPL_NONE) ;;
  kassert (newspl =? IPL_HIGH) ;;
  if negb up then kret tt
  else
    s <- kget ;;
    (if t_iplhigh_count s =? 0 then cpu_irqoff else kret tt) ;;
    kmodify (λ s, Spl (t_curspl s) (i32 (t_iplhigh_count s + 1)) (irq_on s)).

Definition spllower (up : bool) (oldspl newspl : Z) : K spl_state unit :=
  kassert (oldspl =? IPL_HIGH) ;;
  kassert (newspl =? IPL_NONE) ;;
  if negb up then kret tt
  else
    kmodify (λ s, Spl (t_curspl s) (i32 (t_iplhigh_count s - 1)) (irq_on s)) ;;
    s <- kget ;;
    if t_iplhigh_count s =? 0 then cpu_irqon else kret tt.

Definition set_curspl (spl : Z) : K spl_state unit :=
  kmodify (λ s, Spl spl (t_iplhigh_count s) (irq_on s)).

Definition splx (up : bool) (spl : Z) : K spl_state Z :=
  s <- kget ;;
  if t_curspl s <? spl then
    splraise up (t_curspl s) spl ;;
    s <- kget ;;
    set_curspl spl ;;
    kret (t_curspl s)
  else if spl <? t_curspl s then
    set_curspl spl ;;
    spllower up (t_curspl s) spl ;;
    kret (t_curspl s)
  else kret spl.

Definition spl0 (up : bool) : K spl_state Z := splx up IPL_NONE.
Definition splhigh (up : bool) : K spl_state Z := splx up IPL_HIGH.

(** ** Spinlocks *)

(** Where a processor is: outside the functions without the lock or with it,
    at a statement of [spinlock_acquire] ([SCheck] records whether it came in
    with the lock), or of [spinlock_release]. *)
Inductive spin_pc :=
  | SOut
  | SCheck (held : bool)   (* if (lk->lk_holder == mycpu) panic *)
  | SGet                   (* spinlock_data_get *)
  | SLl                    (* ll *)
  | SSc (x : Z)            (* sc *)
  | SHold                  (* lk->lk_holder = mycpu *)
  | SIn
  | SRelease (held : bool) (* KASSERT(lk->lk_holder == curcpu->c_self) *)
  | SClear                 (* lk->lk_holder = NULL *)
  | SSet0.                 (* spinlock_data_set(&lk->lk_lock, 0) *)

(** [lk_links] are the processors whose load-linked is still good: any store
    to the word breaks all of them. *)
Record spinlock := Spinlock {
  lk_lock : Z;
  lk_holder : option nat;
  lk_links : gset nat;
  lk_pcs : list spin_pc;
}.

Definition spinlock_init (cpus : nat) : spinlock := Spinlock 0 None ∅ (replicate cpus SOut).

Definition spinlock_data_set (v : Z) (s : spinlock) : spinlock :=
  Spinlock v (lk_holder s) ∅ (lk_pcs s).
Definition spinlock_data_get (s : spinlock) : Z := lk_lock s.

Definition set_pc (c : nat) (p : spin_pc) (s : spinlock) : spinlock :=
  Spinlock (lk_lock s) (lk_holder s) (lk_links s) (<[c := p]> (lk_pcs s)).
Definition set_holder (h : option nat) (s : spinlock) : spinlock :=
  Spinlock (lk_lock s) h (lk_links s) (lk_pcs s).

(** The next step of processor [c]; [None] when it is outside. *)
Definition spin_exec (c : nat) (s : spinlock) : option (outcome spinlock) :=
  match lk_pcs s !! c with
  | Some (SCheck _) =>
      Some (if bool_decide (lk_holder s = Some c) then Panic else Done (set_pc c SGet s))
  | Some SGet => Some (Done (set_pc c (if spinlock_data_get s =? 0 then SLl else SGet) s))
  | Some SLl =>
      Some (Done (set_pc c (SSc (lk_lock s))
                    (Spinlock (lk_lock s) (lk_holder s) ({[c]} ∪ lk_links s) (lk_pcs s))))
  | Some (SSc x) =>
      Some (Done (if bool_decide (c ∈ lk_links s)
                  then set_pc c (if x =? 0 then SHold else SGet) (spinlock_data_set 1 s)
                  else set_pc c SGet s))
  | Some SHold => Some (Done (set_pc c SIn (set_holder (Some c) s)))
  | Some (SRelease _) =>
      Some (if bool_decide (lk_holder s = Some c) then Done (set_pc c SClear s) else Panic)
  | Some SClear => Some (Done (set_pc c SSet0 (set_holder None s)))
  | Some SSet0 => Some (Done (set_pc c SOut (spinlock_data_set 0 s)))
  | Some SOut | Some SIn | None => None
  end.

(** Calls: any processor may call either function at any time. *)
Inductive spin_step (s : spinlock) : spinlock → Prop :=
  | call_acquire (c : nat) (held : bool) :
      lk_pcs s !! c = Some (if held then SIn else SOut) → spin_step s (set_pc c (SCheck held) s)
  | call_release (c : nat) (held : bool) :
      lk_pcs s !! c = Some (if held then SIn else SOut) → spin_step s (set_pc c (SRelease held) s)
  | spin_go c s' : spin_exec c s = Some (Done s') → spin_step s s'.

Definition spinlock_do_i_hold (c : nat) (s : spinlock) : bool := bool_decide (lk_holder s = Some c).

(** [spinlock_cleanup]. *)
Definition spinlock_cleanup (s : spinlock) : outcome unit :=
  if bool_decide (lk_holder s = None) && (spinlock_data_get s =? 0) then Done tt else Panic.

(** ** The spinlock invariant *)

(** The processor owns the lock: it has won the test-and-set and has not yet
    stored 0. *)
Definition owns (p : spin_pc) : bool :=
  match p with
  | SHold | SIn | SCheck true | SRelease true | SClear | SSet0 => true
  | _ => false
  end.
(** It is named in [lk_holder]. *)
Definition named (p : spin_pc) : bool :=
  match p with SIn | SCheck true | SRelease true | SClear => true | _ => false end.

Record spin_inv (s : spinlock) : Prop := {
  si_own : ∃ o : option nat,
    (∀ c p, lk_pcs s !! c = Some p → owns p = true ↔ o = Some c) ∧
    lk_lock s = match o with Some _ => 1 | None => 0 end ∧
    (∀ c, o = Some c → c < length (lk_pcs s))%nat ∧
    ∀ c, lk_holder s = Some c ↔ ∃ p, lk_pcs s !! c = Some p ∧ named p = true;
  si_links : ∀ c x, c ∈ lk_links s → lk_pcs s !! c = Some (SSc x) → lk_lock s = x;
}.

Section SpinInvariant.
Implicit Types (s : spinlock).

Lemma lookup_set_pc s c p d q :
  lk_pcs (set_pc c p s) !! d = Some q →
  (c = d ∧ q = p) ∨ (c ≠ d ∧ lk_pcs s !! d = Some q).
Proof.
  simpl. rewrite list_lookup_insert. case_decide as H.
  - intros [= ->]. left. by destruct H.
  - intros Hq. right. split; [|done]. intros ->. apply H. split; [done|]. by eapply lookup_lt_Some.
Qed.

(** A step that moves [c] and keeps who owns the lock and who is named. *)
Lemma spin_move s c p0 p :
  spin_inv s → lk_pcs s !! c = Some p0 → owns p = owns p0 → named p = named p0 →
  (∀ x, p = SSc x → lk_lock s = x) → spin_inv (set_pc c p s).
Proof.
  intros [(o & Ho & Hw & Hlt & Hh) Hl] Hc Eo En Hx. split.
  - exists o. split_and!.
    + intros d q [[<- ->]|[Hne Hq]]%lookup_set_pc; [rewrite Eo; by apply Ho|by apply Ho].
    + done.
    + simpl. intros d Hd. rewrite length_insert. by apply Hlt.
    + intros d. simpl. rewrite Hh. split.
      * intros (q & Hq & Hn). destruct (decide (c = d)) as [<-|Hne].
        -- exists p. rewrite list_lookup_insert_eq by (by eapply lookup_lt_Some). split; [done|].
           rewrite Hc in Hq. injection Hq as <-. by rewrite En.
        -- exists q. by rewrite list_lookup_insert_ne.
      * intros (q & [[<- ->]|[Hne Hq]]%lookup_set_pc & Hn); [|by eauto].
        exists p0. split; [done|]. by rewrite <-En.
  - intros d x Hd [[<- E]|[Hne Hq]]%lookup_set_pc; [by apply Hx|by eapply Hl].
Qed.
End SpinInvariant.

Section SpinSteps.
Implicit Types (s : spinlock).

Lemma owner_unique s c d p q :
  spin_inv s → lk_pcs s !! c = Some p → lk_pcs s !! d = Some q →
  owns p = true → owns q = true → c = d.
Proof.
  intros [(o & Ho & _) _] Hc Hd Hp Hq. apply (Ho _ _ Hc) in Hp. apply (Ho _ _ Hd) in Hq. congruence.
Qed.

Lemma named_holder s c p :
  spin_inv s → lk_pcs s !! c = Some p → lk_holder s = Some c ↔ named p = true.
Proof.
  intros [(o & _ & _ & _ & Hh) _] Hc. rewrite Hh. split; [|by eauto].
  intros (q & Hq & Hn). rewrite Hc in Hq. by injection Hq as ->.
Qed.

(** The one step that takes the lock. *)
Lemma spin_take s c :
  spin_inv s → c ∈ lk_links s → lk_pcs s !! c = Some (SSc 0) →
  spin_inv (set_pc c SHold (spinlock_data_set 1 s)).
Proof.
  intros [(o & Ho & Hw & Hlt & Hh) Hl] Hlink Hc. pose proof (Hl _ _ Hlink Hc) as E0.
  destruct o as [d|]; [rewrite Hw in E0; discriminate E0|]. split; [|intros ? ? []%not_elem_of_empty].
  exists (Some c). split_and!.
  - intros d q [[<- ->]|[Hne Hq]]%lookup_set_pc; [done|]. split; [|by intros [= ->]].
    intros Hq'%(Ho _ _ Hq). discriminate Hq'.
  - done.
  - simpl. intros d [= <-]. rewrite length_insert. by eapply lookup_lt_Some.
  - intros d. simpl. rewrite Hh. split.
    + intros (q & Hq & Hn). exists q. split; [|done].
      rewrite list_lookup_insert_ne; [done|]. intros <-. rewrite Hc in Hq. by injection Hq as <-.
    + intros (q & [[<- ->]|[Hne Hq]]%lookup_set_pc & Hn); [done|by eauto].
Qed.

(** The holder's name is written, and taken away, by the owner. *)
Lemma spin_name s c p0 p h :
  spin_inv s → lk_pcs s !! c = Some p0 → owns p0 = true → owns p = true →
  h = (if named p then Some c else None) → (∀ x, p ≠ SSc x) →
  spin_inv (set_pc c p (set_holder h s)).
Proof.
  intros Hinv Hc Hp0 Hp Hh' Hx. pose proof Hinv as [(o & Ho & Hw & Hlt & Hh) Hl].
  assert (Hoc : o = Some c) by (by apply (Ho _ _ Hc)). split.
  - exists o. split_and!.
    + intros d q [[<- ->]|[Hne Hq]]%lookup_set_pc; [|by apply (Ho _ _ Hq)]. by rewrite Hp, Hoc.
    + done.
    + simpl. intros d Hd. rewrite length_insert. by apply Hlt.
    + intros d. simpl. rewrite Hh'. split.
      * destruct (named p) eqn:En; intros E; [|done]. injection E as <-. exists p.
        rewrite list_lookup_insert_eq by (by eapply lookup_lt_Some). done.
      * intros (q & [[<- ->]|[Hne Hq]]%lookup_set_pc & Hn); [by rewrite Hn|].
        exfalso. apply Hne. eapply owner_unique; [exact Hinv|exact Hc|exact Hq|done|].
        by destruct q as [|[]| | | | | |[]| |].
  - intros d x Hd [[<- E]|[Hne Hq]]%lookup_set_pc; [by destruct (Hx x)|by eapply Hl].
Qed.

(** The store that gives the lock up. *)
Lemma spin_give s c :
  spin_inv s → lk_pcs s !! c = Some SSet0 → spin_inv (set_pc c SOut (spinlock_data_set 0 s)).
Proof.
  intros [(o & Ho & Hw & Hlt & Hh) Hl] Hc.
  assert (Hoc : o = Some c) by (by apply (Ho _ _ Hc)). split; [|intros ? ? []%not_elem_of_empty].
  exists None. split_and!; [|done..|].
  - intros d q [[<- ->]|[Hne Hq]]%lookup_set_pc; [done|]. split; [|done].
    intros Hq'%(Ho _ _ Hq). congruence.
  - intros d. simpl. rewrite Hh. split.
    + intros (q & Hq & Hn). exists q. split; [|done].
      rewrite list_lookup_insert_ne; [done|]. intros <-. rewrite Hc in Hq. by injection Hq as <-.
    + intros (q & [[<- ->]|[Hne Hq]]%lookup_set_pc & Hn); [done|by eauto].
Qed.

Lemma spin_step_inv s s' : spin_inv s → spin_step s s' → spin_inv s'.
Proof.
  intros Hinv Hstep. destruct Hstep as [c held Hc|c held Hc|c s' Hexec].
  - by eapply spin_move; [done|exact Hc|destruct held..|].
  - by eapply spin_move; [done|exact Hc|destruct held..|].
  - unfold spin_exec in Hexec. destruct (lk_pcs s !! c) as [p|] eqn:Hc; [|discriminate Hexec].
    destruct p as [|held| | |x| | |held| |]; try discriminate Hexec.
    + case_bool_decide as Hd; [discriminate Hexec|]. injection Hexec as <-.
      assert (held = false) as -> by (destruct held; [|done]; destruct Hd; by eapply named_holder).
      by eapply spin_move; [done|exact Hc|..].
    + injection Hexec as <-. destruct (_ =? 0); by eapply spin_move; [done|exact Hc|..].
    + injection Hexec as <-. 
      assert (H1 : spin_inv (Spinlock (lk_lock s) (lk_holder s) ({[c]} ∪ lk_links s) (lk_pcs s))).
      { destruct Hinv as [Ho Hl]. split; [done|]. simpl. intros d x Hd Hq.
        destruct (decide (d = c)) as [->|]; [rewrite Hc in Hq; discriminate Hq|]. apply (Hl d); [set_solver|done]. }
      eapply spin_move; [done|exact Hc|done|done|]. by intros x [= <-].
    + injection Hexec as <-. case_bool_decide as Hd.
      * destruct (Z.eqb_spec x 0) as [->|Hx]; [by apply spin_take|].
        destruct Hinv as [(o & Ho & Hw & Hlt & Hh) Hl]. pose proof (Hl _ _ Hd Hc) as E.
        eapply (spin_move _ c (SSc x)); [|done..]. destruct o as [d|]; [|lia].
        split; [|intros ? ? []%not_elem_of_empty]. by exists (Some d).
      * by eapply spin_move; [done|exact Hc|..].
    + injection Hexec as <-. by eapply spin_name; [done|exact Hc|..].
    + case_bool_decide as Hd; [|discriminate Hexec]. injection Hexec as <-.
      apply (named_holder _ _ _ Hinv Hc) in Hd. destruct held; [|discriminate Hd].
      by eapply spin_move; [done|exact Hc|..].
    + injection Hexec as <-. by eapply spin_name; [done|exact Hc|..].
    + injection Hexec as <-. by apply spin_give.
Qed.

Lemma spin_reach_inv cpus s : rtc spin_step (spinlock_init cpus) s → spin_inv s.
Proof.
  intros Hr. assert (H0 : spin_inv (spinlock_init cpus)).
  { split; [|intros ? ? []%not_elem_of_empty]. exists None. split_and!; [|done..|].
    - intros c p [-> _]%lookup_replicate. done.
    - intros c. split; [done|]. intros (p & [-> _]%lookup_replicate & Hp). done. }
  induction Hr as [|s1 s2 s3 Hs _ IH]; [done|]. apply IH. by eapply spin_step_inv.
Qed.
End SpinSteps.

(** ** Levels *)

(** A thread that holds [n] spinlocks. *)
Record spl_wf (n : Z) (s : spl_state) : Prop := {
  sw_level : t_curspl s = IPL_NONE ∨ t_curspl s = IPL_HIGH;
  sw_held : 0 ≤ n < 2 ^ 31 - 2;
  sw_count : t_iplhigh_count s = n + t_curspl s;
  sw_irq : irq_on s = (t_iplhigh_count s =? 0);
}.

Section Levels.
Lemma splraise_run s :
  t_iplhigh_count s < 2 ^ 31 - 1 → 0 ≤ t_iplhigh_count s → irq_on s = (t_iplhigh_count s =? 0) →
  splraise true IPL_NONE IPL_HIGH s = Done (tt, Spl (t_curspl s) (t_iplhigh_count s + 1) false).
Proof.
  destruct s as [l c i]. simpl. intros Hc Hc0 ->. unfold splraise. ksteps. cbn.
  destruct (Z.eqb_spec c 0); cbn; unfold kmodify; cbn; rewrite i32_small by lia; done.
Qed.

Lemma spllower_run s :
  0 < t_iplhigh_count s < 2 ^ 31 → irq_on s = false →
  spllower true IPL_HIGH IPL_NONE s =
  Done (tt, Spl (t_curspl s) (t_iplhigh_count s - 1) (t_iplhigh_count s - 1 =? 0)).
Proof.
  destruct s as [l c i]. simpl. intros Hc ->. unfold spllower, kassert. ksteps. cbn.
  rewrite i32_small by lia. destruct (Z.eqb_spec (c - 1) 0); cbn; done.
Qed.
End Levels.

(** ** The component's theorems *)



(** Interrupts are on exactly when the thread holds no spinlock and its
    level is low: [splraise], [spllower] (a spinlock taken and given up) and
    [splx] keep that, in any order and nesting; [splx] returns the old level,
    so giving it back restores it. *)
Theorem interrupts_follow_levels n s :
  spl_wf n s →
  (n < 2 ^ 31 - 3 → ∃ s', splraise true IPL_NONE IPL_HIGH s = Done (tt, s') ∧ spl_wf (n + 1) s' ∧ irq_on s' = false) ∧
  (0 < n → ∃ s', spllower true IPL_HIGH IPL_NONE s = Done (tt, s') ∧ spl_wf (n - 1) s' ∧
     t_curspl s' = t_curspl s ∧ irq_on s' = ((n =? 1) && (t_curspl s =? IPL_NONE))) ∧
  (∀ l, l = IPL_NONE ∨ l = IPL_HIGH → ∃ s', splx true l s = Done (t_curspl s, s') ∧ spl_wf n s' ∧ t_curspl s' = l ∧
     irq_on s' = ((n =? 0) && (l =? IPL_NONE)) ∧ splx true (t_curspl s) s' = Done (l, s)).
Proof.
  destruct s as [l0 c i]. intros [Hl Hn Hc Hi]. cbn in Hl, Hc, Hi. unfold IPL_NONE, IPL_HIGH in *. subst c i.
  split_and!.
  - intros Hn'. rewrite splraise_run by (cbn; lia). eexists. split; [done|]. split; [|done].
    split; cbn; unfold IPL_NONE, IPL_HIGH; lia.
  - intros Hn'. rewrite spllower_run by (cbn; try lia; apply Z.eqb_neq; lia). eexists. split; [done|]. split_and!.
    + split; cbn; unfold IPL_NONE, IPL_HIGH; try lia; done.
    + done.
    + cbn. unfold IPL_NONE. destruct (Z.eqb_spec n 1), (Z.eqb_spec l0 0), (Z.eqb_spec (n + l0 - 1) 0); (done || lia).
  - intros l Hlv. assert (Hup : splx true 1 (Spl 0 n (n =? 0)) = Done (0, Spl 1 (n + 1) false)).
    { unfold splx. ksteps. cbn [t_curspl Z.ltb Z.compare].
      rewrite (kbind_run _ _ _ _ _ (splraise_run (Spl 0 n (n =? 0)) ltac:(cbn; lia) ltac:(cbn; lia) eq_refl)). done. }
    assert (Hdown : splx true 0 (Spl 1 (n + 1) false) = Done (1, Spl 0 n (n =? 0))).
    { unfold splx, set_curspl. ksteps. cbn [t_curspl t_iplhigh_count irq_on Z.ltb Z.compare].
      change (spllower true 1 0) with (spllower true IPL_HIGH IPL_NONE). ksteps.
      cbn [t_curspl t_iplhigh_count irq_on].
      rewrite (kbind_run _ _ _ _ _ (spllower_run (Spl 0 (n + 1) false) ltac:(cbn; lia) eq_refl)).
      cbn [t_curspl t_iplhigh_count]. by replace (n + 1 - 1) with n by lia. }
    assert (Hsame : ∀ x st, t_curspl st = x → splx true x st = Done (x, st)).
    { intros x st <-. unfold splx. ksteps. by rewrite Z.ltb_irrefl. }
    assert (Hz : (n + 1 =? 0) = false) by (apply Z.eqb_neq; lia).
    destruct Hl as [-> | ->], Hlv as [-> | ->]; cbn [t_curspl]; rewrite ?Z.add_0_r, ?Hz.
    + exists (Spl 0 n (n =? 0)). rewrite !Hsame by done. split_and!; try done; [split; cbn; unfold IPL_NONE; try lia; done|].
      by rewrite andb_true_r.
    + exists (Spl 1 (n + 1) false). rewrite Hup. split_and!; try done; [|by rewrite andb_false_r].
      split; cbn; unfold IPL_NONE, IPL_HIGH; try lia; done.
    + exists (Spl 0 n (n =? 0)). rewrite Hdown. split_and!; try done; [|by rewrite andb_true_r].
      split; cbn; unfold IPL_NONE, IPL_HIGH; try lia; done.
    + exists (Spl 1 (n + 1) false). rewrite !Hsame by done. split_and!; try done; [|by rewrite andb_false_r].
      split; cbn; unfold IPL_NONE, IPL_HIGH; try lia; done.
Qed.

Lemma interrupts_follow_levels_witness :
  ∃ s', splx true IPL_HIGH (Spl 0 0 true) = Done (0, s') ∧ irq_on s' = false ∧
        splx true 0 s' = Done (1, Spl 0 0 true).
Proof.
  assert (H : spl_wf 0 (Spl 0 0 true)) by (split; cbn; unfold IPL_NONE, IPL_HIGH; try lia; reflexivity).
  destruct (interrupts_follow_levels 0 (Spl 0 0 true) H) as (_ & _ & Hx).
  destruct (Hx 1 (or_intror eq_refl)) as (s' & E & _ & _ & Hi & Hb).
  exists s'. split; [exact E|]. split; [exact Hi|exact Hb].
Defined.
