(* ===== verification/Blocking.v ===== *)
(** * Sleeping for a resource (the common part of kern/thread/synch.c)

    [P] and [lock_acquire] are the same code around different data, and so are
    [V] and [lock_release]: under a spinlock, wait on a channel until the
    resource is ready and take it; under the spinlock, give it back and wake
    one thread of the channel.  [Resource] states what that code needs of the
    data.  [exec] is the next step of a thread in this code, one step for each
    statement that touches shared state, so that runs are all interleavings;
    the semaphore and the lock are instances (Synch.v). *)

From stdpp Require Import base numbers list relations.
From Stdlib Require Import ZArith Lia.
From S2P Require Import Prelude.

Open Scope nat_scope.

(** ** Resources *)

(** The operations: [ready] is the negation of the loop's condition, [take] and
    [give] are the updates with their assertions, [may_give] is what the
    releasing function asserts before it begins. *)
Class ResourceOps (R : Type) := {
  ready : R → bool;
  take : nat → R → outcome R;
  may_give : nat → R → bool;
  give : nat → R → outcome R;
  avail : R → nat;        (* how many threads could take it now *)
  res_ok : R → Prop;
}.

Class Resource (R : Type) `{!ResourceOps R} := {
  ready_avail d : res_ok d → ready d = bool_decide (0 < avail d);
  take_ok t d : res_ok d → ready d = true →
    ∃ d', take t d = Done d' ∧ res_ok d' ∧ avail d = S (avail d') ∧
          ∀ u, may_give u d = true → may_give u d' = true;
  give_ok t d d' : res_ok d → may_give t d = true → give t d = Done d' →
    res_ok d' ∧ avail d' = S (avail d) ∧
    ∀ u, u ≠ t → may_give u d = true → may_give u d' = true;
}.

(** ** Threads in the code *)

Inductive bpc :=
  | Outside
  (* waiting: P, lock_acquire *)
  | WSpin                    (* spinlock_acquire(&lock) *)
  | WTest                    (* while (not ready), on entry *)
  | WWclock                  (* wchan_lock(wchan) *)
  | WSpinrel                 (* spinlock_release(&lock) *)
  | WSleep                   (* wchan_sleep: onto the channel, unlock it *)
  | WAsleep                  (* switched away *)
  | WRespin                  (* spinlock_acquire(&lock) after waking up *)
  | WRetest                  (* while (not ready), again *)
  | WTake                    (* take it *)
  | WRel                     (* spinlock_release(&lock) *)
  (* giving: V, lock_release *)
  | GSpin                    (* spinlock_acquire(&lock) *)
  | GGive                    (* give it back *)
  | GWclock                  (* wchan_wakeone: spinlock_acquire(&wc_lock) *)
  | GRemhead                 (* threadlist_remhead *)
  | GWcrel (target : option nat)  (* spinlock_release(&wc_lock) *)
  | GRun (target : option nat)    (* thread_make_runnable(target) *)
  | GRel.                    (* spinlock_release(&lock) *)

#[global] Instance bpc_eq_dec : EqDecision bpc.
Proof. solve_decision. Defined.

Record bstate (R : Type) := BState {
  b_data : R;
  b_spin : option nat;       (* holder of the object's spinlock *)
  b_wclock : option nat;     (* holder of the channel's spinlock *)
  b_wait : list nat;         (* the threads on the channel *)
  b_pcs : list bpc;
}.
Arguments BState {R} _ _ _ _ _.
Arguments b_data {R} _.
Arguments b_spin {R} _.
Arguments b_wclock {R} _.
Arguments b_wait {R} _.
Arguments b_pcs {R} _.

Section Exec.
Context {R : Type} `{!ResourceOps R}.
Implicit Types (s : bstate R).

Definition set_bpc (t : nat) (p : bpc) s : bstate R :=
  BState (b_data s) (b_spin s) (b_wclock s) (b_wait s) (<[t := p]> (b_pcs s)).
Definition with_spin (h : option nat) s : bstate R :=
  BState (b_data s) h (b_wclock s) (b_wait s) (b_pcs s).
Definition with_wclock (h : option nat) s : bstate R :=
  BState (b_data s) (b_spin s) h (b_wait s) (b_pcs s).
Definition with_wait (l : list nat) s : bstate R :=
  BState (b_data s) (b_spin s) (b_wclock s) l (b_pcs s).
Definition with_data (d : R) s : bstate R :=
  BState d (b_spin s) (b_wclock s) (b_wait s) (b_pcs s).

(** [spinlock_acquire]: spins while another processor holds it, panics when
    this one does. *)
Definition acquire (h : option nat) (t : nat) (s' : bstate R) : option (outcome (bstate R)) :=
  match h with
  | None => Some (Done s')
  | Some u => if bool_decide (u = t) then Some Panic else None
  end.
(** [spinlock_release]: the caller must be the holder. *)
Definition release (h : option nat) (t : nat) (s' : bstate R) : option (outcome (bstate R)) :=
  Some (if bool_decide (h = Some t) then Done s' else Panic).

(** What a step does to the resource. *)
Inductive event := Took (t : nat) | Gave (t : nat).

Definition on_data (s : bstate R) (r : outcome R) (f : R → bstate R) : option (outcome (bstate R)) :=
  Some (match r with Done d => Done (f d) | Panic => Panic | Undef => Undef | Hang => Hang end).

(** The next step of thread [t]: [None] while it spins, sleeps or is outside. *)
Definition exec (t : nat) s : option (outcome (bstate R)) :=
  match b_pcs s !! t with
  | Some WSpin => acquire (b_spin s) t (set_bpc t WTest (with_spin (Some t) s))
  | Some WTest | Some WRetest =>
      Some (Done (set_bpc t (if ready (b_data s) then WTake else WWclock) s))
  | Some WWclock => acquire (b_wclock s) t (set_bpc t WSpinrel (with_wclock (Some t) s))
  | Some WSpinrel => release (b_spin s) t (set_bpc t WSleep (with_spin None s))
  | Some WSleep =>
      release (b_wclock s) t
        (set_bpc t WAsleep (with_wclock None (with_wait (b_wait s ++ [t]) s)))
  | Some WRespin => acquire (b_spin s) t (set_bpc t WRetest (with_spin (Some t) s))
  | Some WTake => on_data s (take t (b_data s)) (λ d, set_bpc t WRel (with_data d s))
  | Some WRel => release (b_spin s) t (set_bpc t Outside (with_spin None s))
  | Some GSpin => acquire (b_spin s) t (set_bpc t GGive (with_spin (Some t) s))
  | Some GGive => on_data s (give t (b_data s)) (λ d, set_bpc t GWclock (with_data d s))
  | Some GWclock => acquire (b_wclock s) t (set_bpc t GRemhead (with_wclock (Some t) s))
  | Some GRemhead =>
      Some (Done (match b_wait s with
                  | [] => set_bpc t (GWcrel None) s
                  | u :: l => set_bpc t (GWcrel (Some u)) (with_wait l s)
                  end))
  | Some (GWcrel o) => release (b_wclock s) t (set_bpc t (GRun o) (with_wclock None s))
  | Some (GRun None) => Some (Done (set_bpc t GRel s))
  | Some (GRun (Some u)) =>
      Some (if bool_decide (b_pcs s !! u = Some WAsleep)
            then Done (set_bpc t GRel (set_bpc u WRespin s)) else Undef)
  | Some GRel => release (b_spin s) t (set_bpc t Outside (with_spin None s))
  | Some Outside | Some WAsleep | None => None
  end.

Definition event_of (t : nat) s : list event :=
  match b_pcs s !! t with
  | Some WTake => [Took t]
  | Some GGive => [Gave t]
  | _ => []
  end.

(** Calls and steps, with what they do to the resource. *)
Inductive bstep s : list event → bstate R → Prop :=
  | call_wait t : b_pcs s !! t = Some Outside → bstep s [] (set_bpc t WSpin s)
  | call_give t :
      b_pcs s !! t = Some Outside → may_give t (b_data s) = true → bstep s [] (set_bpc t GSpin s)
  | bgo t s' : exec t s = Some (Done s') → bstep s (event_of t s) s'.

Inductive bsteps : bstate R → list event → bstate R → Prop :=
  | bsteps_nil s : bsteps s [] s
  | bsteps_snoc s1 es s2 e s3 : bsteps s1 es s2 → bstep s2 e s3 → bsteps s1 (es ++ e) s3.

Definition binit (threads : nat) (d : R) : bstate R := BState d None None [] (replicate threads Outside).
End Exec.

(** ** The invariant *)

Definition holds_spin (p : bpc) : bool :=
  match p with
  | WTest | WRetest | WWclock | WSpinrel | WTake | WRel
  | GGive | GWclock | GRemhead | GWcrel _ | GRun _ | GRel => true
  | _ => false
  end.
Definition holds_wc (p : bpc) : bool :=
  match p with WSpinrel | WSleep | GRemhead | GWcrel _ => true | _ => false end.
Definition waking (p : bpc) : option nat :=
  match p with GWcrel o | GRun o => o | _ => None end.
(** On the way to take the resource, or to wake somebody who will. *)
Definition active (p : bpc) : bool :=
  match p with
  | WRespin | WRetest | WTake | GWclock | GRemhead | GWcrel (Some _) | GRun (Some _) => true
  | _ => false
  end.
Definition nactive (l : list bpc) : nat := length (filter (λ p, active p = true) l).

Definition must_be_ready (p : bpc) : bool := match p with WTake => true | _ => false end.
Definition must_be_busy (p : bpc) : bool := match p with WWclock | WSpinrel => true | _ => false end.
Definition must_may_give (p : bpc) : bool := match p with GSpin | GGive => true | _ => false end.

Section Invariant.
Context {R : Type} `{!ResourceOps R}.
Implicit Types (s : bstate R).

(** Somebody is on the channel, or has let go of the object's spinlock and will
    be. *)
Definition sleepers s : Prop := b_wait s ≠ [] ∨ ∃ t, b_pcs s !! t = Some WSleep.

Record binv s : Prop := {
  bi_spin : ∀ t p, b_pcs s !! t = Some p → holds_spin p = true ↔ b_spin s = Some t;
  bi_wc : ∀ t p, b_pcs s !! t = Some p → holds_wc p = true ↔ b_wclock s = Some t;
  bi_range : ∀ t, b_spin s = Some t ∨ b_wclock s = Some t → is_Some (b_pcs s !! t);
  bi_nodup : NoDup (b_wait s);
  bi_wait : ∀ t, t ∈ b_wait s → b_pcs s !! t = Some WAsleep;
  bi_waking : ∀ t p u, b_pcs s !! t = Some p → waking p = Some u →
    b_pcs s !! u = Some WAsleep ∧ u ∉ b_wait s;
  bi_asleep : ∀ u, b_pcs s !! u = Some WAsleep →
    u ∈ b_wait s ∨ ∃ t p, b_pcs s !! t = Some p ∧ waking p = Some u;
  bi_ready : ∀ t p, b_pcs s !! t = Some p →
    (must_be_ready p = true → ready (b_data s) = true) ∧
    (must_be_busy p = true → ready (b_data s) = false) ∧
    (must_may_give p = true → may_give t (b_data s) = true);
  bi_ok : res_ok (b_data s);
  bi_lost : sleepers s → avail (b_data s) ≤ nactive (b_pcs s);
}.
End Invariant.

Section Counting.
Lemma lookup_moved (l : list bpc) t p u q :
  <[t := p]> l !! u = Some q → (t = u ∧ q = p) ∨ (t ≠ u ∧ l !! u = Some q).
Proof.
  rewrite list_lookup_insert. case_decide as H.
  - intros [= ->]. left. by destruct H.
  - intros Hq. right. split; [|done]. intros ->. apply H. split; [done|]. by eapply lookup_lt_Some.
Qed.

Lemma lookup_moved_same (l : list bpc) t p0 p : l !! t = Some p0 → <[t := p]> l !! t = Some p.
Proof. intros H. apply list_lookup_insert_eq. by eapply lookup_lt_Some. Qed.

Lemma nactive_moved (l : list bpc) t p0 p :
  l !! t = Some p0 →
  nactive (<[t := p]> l) + Nat.b2n (active p0) = nactive l + Nat.b2n (active p).
Proof.
  intros Ht. unfold nactive. rewrite insert_take_drop by (by eapply lookup_lt_Some).
  rewrite <-(take_drop_middle l t p0 Ht) at 3. rewrite !filter_app, !length_app, !filter_cons.
  repeat case_decide; simpl; destruct (active p0), (active p); simpl in *; (congruence || lia).
Qed.

Lemma nactive_pos (l : list bpc) t p : l !! t = Some p → active p = true → 0 < nactive l.
Proof.
  intros Ht Hp. unfold nactive. destruct (filter _ l) eqn:E; [|simpl; lia].
  assert (p ∈ filter (λ p, active p = true) l); [|by rewrite E in H; apply elem_of_nil in H].
  apply list_elem_of_filter. split; [done|]. by eapply list_elem_of_lookup_2.
Qed.
End Counting.

Section Steps.
Context {R : Type} `{!ResourceOps R} {HR : Resource R}.
Implicit Types (s : bstate R).

(** A thread moves from [p0] to [p] without touching the data or the channel;
    it may take or let go of either spinlock. *)
Lemma binv_move s t p0 p spin wc :
  binv s → b_pcs s !! t = Some p0 →
  spin = (if holds_spin p then Some t else if holds_spin p0 then None else b_spin s) →
  wc = (if holds_wc p then Some t else if holds_wc p0 then None else b_wclock s) →
  (holds_spin p = true → holds_spin p0 = true ∨ b_spin s = None) →
  (holds_wc p = true → holds_wc p0 = true ∨ b_wclock s = None) →
  waking p = waking p0 → p ≠ WAsleep → p0 ≠ WAsleep →
  (must_be_ready p = true → ready (b_data s) = true) →
  (must_be_busy p = true → ready (b_data s) = false) →
  (must_may_give p = true → may_give t (b_data s) = true) →
  (avail (b_data s) = 0 ∨ (p ≠ WSleep ∧ Nat.b2n (active p0) ≤ Nat.b2n (active p))) →
  binv (BState (b_data s) spin wc (b_wait s) (<[t := p]> (b_pcs s))).
Proof.
  intros [Hsp Hwc Hrg Hnd Hwt Hwk Has Hrd Hok Hlost] Ht -> -> Hs1 Hw1 Ewk Hp Hp0 H1 H2 H3 Hl.
  assert (Hother : ∀ u q, t ≠ u → b_pcs s !! u = Some q → b_spin s = Some t → holds_spin q = false).
  { intros u q Hne Hu Hb. destruct (holds_spin q) eqn:E; [|done]. apply (Hsp _ _ Hu) in E. congruence. }
  split; cbn [b_data b_spin b_wclock b_wait b_pcs].
  - intros u q [[<- ->]|[Hne Hu]]%lookup_moved.
    + destruct (holds_spin p) eqn:E; [done|]. split; [done|]. destruct (holds_spin p0) eqn:E0; [done|].
      intros Hb. apply (Hsp _ _ Ht) in Hb. congruence.
    + rewrite (Hsp _ _ Hu). pose proof (Hsp _ _ Ht) as Ht'. destruct (holds_spin p) eqn:E.
      * split; [|intros [= ->]; done]. intros Hb. destruct (Hs1 eq_refl) as [Hh|Hn]; [|congruence].
        apply Ht' in Hh. congruence.
      * destruct (holds_spin p0) eqn:E0; [|done]. split; [|done]. intros Hb.
        assert (b_spin s = Some t) by (by apply Ht'). congruence.
  - intros u q [[<- ->]|[Hne Hu]]%lookup_moved.
    + destruct (holds_wc p) eqn:E; [done|]. split; [done|]. destruct (holds_wc p0) eqn:E0; [done|].
      intros Hb. apply (Hwc _ _ Ht) in Hb. congruence.
    + rewrite (Hwc _ _ Hu). pose proof (Hwc _ _ Ht) as Ht'. destruct (holds_wc p) eqn:E.
      * split; [|intros [= ->]; done]. intros Hb. destruct (Hw1 eq_refl) as [Hh|Hn]; [|congruence].
        apply Ht' in Hh. congruence.
      * destruct (holds_wc p0) eqn:E0; [|done]. split; [|done]. intros Hb.
        assert (b_wclock s = Some t) by (by apply Ht'). congruence.
  - intros u Hu. assert (Hin : is_Some (b_pcs s !! u) ∨ u = t).
    { destruct Hu as [Hu|Hu].
      - destruct (holds_spin p); [injection Hu as <-; by right|]. destruct (holds_spin p0); [done|]. left. apply Hrg. by left.
      - destruct (holds_wc p); [injection Hu as <-; by right|]. destruct (holds_wc p0); [done|]. left. apply Hrg. by right. }
    destruct (decide (t = u)) as [<-|Hne]; [by rewrite (lookup_moved_same _ _ p0); eauto|].
    rewrite list_lookup_insert_ne by done. by destruct Hin.
  - done.
  - intros u Hu. rewrite list_lookup_insert_ne; [by apply Hwt|]. intros <-. apply Hwt in Hu. congruence.
  - intros u q v [[<- ->]|[Hne Hu]]%lookup_moved Hv.
    + rewrite Ewk in Hv. destruct (Hwk _ _ _ Ht Hv) as [Hv1 Hv2]. split; [|done].
      rewrite list_lookup_insert_ne; [done|]. intros <-. congruence.
    + destruct (Hwk _ _ _ Hu Hv) as [Hv1 Hv2]. split; [|done].
      rewrite list_lookup_insert_ne; [done|]. intros <-. congruence.
  - intros u [[<- E]|[Hne Hu]]%lookup_moved; [congruence|]. destruct (Has u Hu) as [|(v & q & Hv & Hq)]; [by left|].
    right. destruct (decide (t = v)) as [<-|].
    + exists t, p. rewrite (lookup_moved_same _ _ p0) by done. split; [done|]. rewrite Ht in Hv.
      injection Hv as <-. by rewrite Ewk.
    + exists v, q. by rewrite list_lookup_insert_ne.
  - intros u q [[<- ->]|[Hne Hu]]%lookup_moved; [by split_and!|by apply Hrd].
  - done.
  - unfold sleepers. cbn [b_wait b_pcs]. intros Hsl. pose proof (nactive_moved _ _ _ p Ht) as Hn.
    destruct Hl as [->|[Hns Hle]]; [lia|].
    assert (sleepers s); [|specialize (Hlost H); lia].
    destruct Hsl as [|(u & [[<- E]|[Hne Hu]]%lookup_moved)]; [by left|congruence|]. right. by exists u.
Qed.

(** The holder of the object's spinlock changes the data. *)
Lemma binv_change s t p0 p d :
  binv s → b_pcs s !! t = Some p0 →
  holds_spin p0 = true → holds_spin p = true → holds_wc p0 = false → holds_wc p = false →
  waking p0 = None → waking p = None → p ≠ WAsleep → p0 ≠ WAsleep → p ≠ WSleep →
  must_be_ready p = false → must_be_busy p = false → must_may_give p = false →
  res_ok d → (∀ u, u ≠ t → may_give u (b_data s) = true → may_give u d = true) →
  avail d + Nat.b2n (active p0) ≤ avail (b_data s) + Nat.b2n (active p) →
  binv (BState d (b_spin s) (b_wclock s) (b_wait s) (<[t := p]> (b_pcs s))).
Proof.
  intros Hinv Ht Hs0 Hs Hw0 Hw Hk0 Hk Ha Ha0 Hns Hr Hb Hg Hd Hgive Hav.
  destruct Hinv as [Hsp Hwc Hrg Hnd Hwt Hwk Has Hrd Hok Hlost].
  assert (Hspin : b_spin s = Some t) by (by apply (Hsp _ _ Ht)).
  split; cbn [b_data b_spin b_wclock b_wait b_pcs].
  - intros u q [[<- ->]|[Hne Hu]]%lookup_moved; [|by apply Hsp]. by rewrite Hs, Hspin.
  - intros u q [[<- ->]|[Hne Hu]]%lookup_moved; [|by apply Hwc]. rewrite Hw, <-Hw0. by apply Hwc.
  - intros u Hu. destruct (decide (t = u)) as [<-|Hne]; [by rewrite (lookup_moved_same _ _ p0); eauto|].
    rewrite list_lookup_insert_ne by done. by apply Hrg.
  - done.
  - intros u Hu. rewrite list_lookup_insert_ne; [by apply Hwt|]. intros <-. apply Hwt in Hu. congruence.
  - intros u q v [[<- ->]|[Hne Hu]]%lookup_moved Hv; [congruence|].
    destruct (Hwk _ _ _ Hu Hv) as [Hv1 Hv2]. split; [|done].
    rewrite list_lookup_insert_ne; [done|]. intros <-. congruence.
  - intros u [[<- E]|[Hne Hu]]%lookup_moved; [congruence|]. destruct (Has u Hu) as [|(v & q & Hv & Hq)]; [by left|].
    right. exists v, q. rewrite list_lookup_insert_ne; [done|]. intros <-. congruence.
  - intros u q [[<- ->]|[Hne Hu]]%lookup_moved.
    + rewrite Hr, Hb, Hg. done.
    + assert (Hq : holds_spin q = false).
      { destruct (holds_spin q) eqn:E; [|done]. apply (Hsp _ _ Hu) in E. congruence. }
      split_and!; [by destruct q..|]. intros Hm. apply Hgive; [done|]. by apply (Hrd _ _ Hu).
  - done.
  - intros Hsl. pose proof (nactive_moved _ _ _ p Ht) as Hn.
    assert (Hsl0 : sleepers s); [|specialize (Hlost Hsl0); lia].
    destruct Hsl as [|(u & [[<- E]|[Hne Hu]]%lookup_moved)]; [by left|congruence|]. right. by exists u.
Qed.

(** Going to sleep: onto the channel, with the channel's lock let go. *)
Lemma binv_sleep s t :
  binv s → b_pcs s !! t = Some WSleep →
  binv (BState (b_data s) (b_spin s) None (b_wait s ++ [t]) (<[t := WAsleep]> (b_pcs s))).
Proof.
  intros [Hsp Hwc Hrg Hnd Hwt Hwk Has Hrd Hok Hlost] Ht.
  assert (Hw : b_wclock s = Some t) by (by apply (Hwc _ _ Ht)).
  assert (Hni : t ∉ b_wait s) by (intros H%Hwt; congruence).
  split; cbn [b_data b_spin b_wclock b_wait b_pcs].
  - intros u q [[<- ->]|[Hne Hu]]%lookup_moved; [|by apply Hsp]. apply (Hsp _ _ Ht).
  - intros u q [[<- ->]|[Hne Hu]]%lookup_moved; [done|]. rewrite (Hwc _ _ Hu). split; [|done]. congruence.
  - intros u Hu. destruct (decide (t = u)) as [<-|Hne]; [by rewrite (lookup_moved_same _ _ WSleep); eauto|].
    rewrite list_lookup_insert_ne by done. apply Hrg. by destruct Hu as [|]; [left|].
  - apply NoDup_app. split_and!; [done| |apply NoDup_singleton]. intros u Hu Hs%list_elem_of_singleton. by subst.
  - intros u [Hu|Hu%list_elem_of_singleton]%elem_of_app; [|subst; by apply (lookup_moved_same _ _ WSleep)].
    rewrite list_lookup_insert_ne; [by apply Hwt|]. intros <-. done.
  - intros u q v [[<- ->]|[Hne Hu]]%lookup_moved Hv; [done|].
    destruct (Hwk _ _ _ Hu Hv) as [Hv1 Hv2]. assert (v ≠ t) by (intros ->; congruence). split.
    + by rewrite list_lookup_insert_ne.
    + rewrite elem_of_app, list_elem_of_singleton. by intros [].
  - intros u [[<- E]|[Hne Hu]]%lookup_moved; [left; apply elem_of_app; right; by apply list_elem_of_singleton|].
    destruct (Has u Hu) as [|(v & q & Hv & Hq)]; [left; apply elem_of_app; by left|].
    right. exists v, q. rewrite list_lookup_insert_ne; [done|]. intros <-. rewrite Ht in Hv. by injection Hv as <-.
  - intros u q [[<- ->]|[Hne Hu]]%lookup_moved; [done|by apply Hrd].
  - done.
  - intros _. pose proof (nactive_moved _ _ _ WAsleep Ht) as Hn. simpl in Hn.
    rewrite !Nat.add_0_r in Hn. rewrite Hn. apply Hlost. right. by exists t.
Qed.

(** [wchan_wakeone] takes the first thread off the channel. *)
Lemma binv_remhead s t u l :
  binv s → b_pcs s !! t = Some GRemhead → b_wait s = u :: l →
  binv (BState (b_data s) (b_spin s) (b_wclock s) l (<[t := GWcrel (Some u)]> (b_pcs s))).
Proof.
  intros [Hsp Hwc Hrg Hnd Hwt Hwk Has Hrd Hok Hlost] Ht El. rewrite El in *.
  apply NoDup_cons in Hnd as [Hul Hnd].
  assert (Hu : b_pcs s !! u = Some WAsleep) by (apply Hwt; left).
  assert (Hut : t ≠ u) by (intros ->; congruence).
  split; cbn [b_data b_spin b_wclock b_wait b_pcs].
  - intros v q [[<- ->]|[Hne Hv]]%lookup_moved; [|by apply Hsp]. apply (Hsp _ _ Ht).
  - intros v q [[<- ->]|[Hne Hv]]%lookup_moved; [|by apply Hwc]. apply (Hwc _ _ Ht).
  - intros v Hv. destruct (decide (t = v)) as [<-|Hne]; [by rewrite (lookup_moved_same _ _ GRemhead); eauto|].
    rewrite list_lookup_insert_ne by done. by apply Hrg.
  - done.
  - intros v Hv. rewrite list_lookup_insert_ne; [apply Hwt; by right|]. intros <-.
    assert (b_pcs s !! t = Some WAsleep) by (apply Hwt; by right). congruence.
  - intros v q w [[<- ->]|[Hne Hv]]%lookup_moved Hw.
    + injection Hw as <-. split; [by rewrite list_lookup_insert_ne|done].
    + destruct (Hwk _ _ _ Hv Hw) as [Hw1 Hw2]. split; [|by intros ?; apply Hw2; right].
      rewrite list_lookup_insert_ne; [done|]. intros <-. congruence.
  - intros v [[<- E]|[Hne Hv]]%lookup_moved; [congruence|].
    destruct (Has v Hv) as [[->|Hin]%elem_of_cons|(w & q & Hw & Hq)]; [|by left|].
    + right. exists t, (GWcrel (Some u)). by rewrite (lookup_moved_same _ _ GRemhead).
    + right. exists w, q. rewrite list_lookup_insert_ne; [done|]. intros <-. rewrite Ht in Hw. by injection Hw as <-.
  - intros v q [[<- ->]|[Hne Hv]]%lookup_moved; [done|by apply Hrd].
  - done.
  - intros _. pose proof (nactive_moved _ _ _ (GWcrel (Some u)) Ht) as Hn. simpl in Hn.
    assert (nactive (<[t:=GWcrel (Some u)]> (b_pcs s)) = nactive (b_pcs s)) as -> by lia.
    apply Hlost. left. by rewrite El.
Qed.

(** [wchan_wakeone] on an empty channel. *)
Lemma binv_remhead_empty s t :
  binv s → b_pcs s !! t = Some GRemhead → b_wait s = [] → binv (set_bpc t (GWcrel None) s).
Proof.
  intros Hinv Ht El. pose proof Hinv as [Hsp Hwc Hrg Hnd Hwt Hwk Has Hrd Hok Hlost].
  assert (Hw : b_wclock s = Some t) by (by apply (Hwc _ _ Ht)).
  split; unfold set_bpc; cbn [b_data b_spin b_wclock b_wait b_pcs]; try done.
  - intros v q [[<- ->]|[Hne Hv]]%lookup_moved; [|by apply Hsp]. apply (Hsp _ _ Ht).
  - intros v q [[<- ->]|[Hne Hv]]%lookup_moved; [|by apply Hwc]. apply (Hwc _ _ Ht).
  - intros v Hv. destruct (decide (t = v)) as [<-|Hne]; [by rewrite (lookup_moved_same _ _ GRemhead); eauto|].
    rewrite list_lookup_insert_ne by done. by apply Hrg.
  - rewrite El. intros u []%elem_of_nil.
  - intros v q w [[<- ->]|[Hne Hv]]%lookup_moved Hq; [done|].
    destruct (Hwk _ _ _ Hv Hq) as [Hw1 Hw2]. split; [|done].
    rewrite list_lookup_insert_ne; [done|]. intros <-. congruence.
  - intros v [[<- E]|[Hne Hv]]%lookup_moved; [congruence|].
    destruct (Has v Hv) as [|(w & q & Hq & Hk)]; [by left|].
    right. exists w, q. rewrite list_lookup_insert_ne; [done|]. intros <-. rewrite Ht in Hq. by injection Hq as <-.
  - intros v q [[<- ->]|[Hne Hv]]%lookup_moved; [done|by apply Hrd].
  - intros [H|(v & [[<- E]|[Hne Hv]]%lookup_moved)]; [by rewrite El in H|discriminate E|].
    assert (b_wclock s = Some v) by (by apply (Hwc _ _ Hv)). congruence.
Qed.

(** [thread_make_runnable]. *)
Lemma binv_run s t u :
  binv s → b_pcs s !! t = Some (GRun (Some u)) →
  b_pcs s !! u = Some WAsleep ∧ binv (set_bpc t GRel (set_bpc u WRespin s)).
Proof.
  intros Hinv Ht. pose proof Hinv as [Hsp Hwc Hrg Hnd Hwt Hwk Has Hrd Hok Hlost].
  destruct (Hwk _ _ _ Ht eq_refl) as [Hu Hni]. split; [done|].
  assert (Hut : t ≠ u) by (intros ->; congruence).
  assert (Hl : ∀ v q, <[t:=GRel]> (<[u:=WRespin]> (b_pcs s)) !! v = Some q →
    (v = t ∧ q = GRel) ∨ (v = u ∧ q = WRespin) ∨ (v ≠ t ∧ v ≠ u ∧ b_pcs s !! v = Some q)).
  { intros v q [[<- ->]|[Hne [[<- ->]|[Hne' Hv]]%lookup_moved]]%lookup_moved; [by left|right; by left|].
    right. right. by split_and!. }
  assert (Hin : ∀ v q, v ≠ t → v ≠ u → b_pcs s !! v = Some q →
    <[t:=GRel]> (<[u:=WRespin]> (b_pcs s)) !! v = Some q).
  { intros v q Hvt Hvu Hv. by rewrite !list_lookup_insert_ne. }
  split; unfold set_bpc; cbn [b_data b_spin b_wclock b_wait b_pcs]; try done.
  - intros v q [[-> ->]|[[-> ->]|(? & ? & Hv)]]%Hl; [apply (Hsp _ _ Ht)|apply (Hsp _ _ Hu)|by apply Hsp].
  - intros v q [[-> ->]|[[-> ->]|(? & ? & Hv)]]%Hl; [apply (Hwc _ _ Ht)|apply (Hwc _ _ Hu)|by apply Hwc].
  - intros v Hv. apply lookup_lt_is_Some. rewrite !length_insert. apply lookup_lt_is_Some. by apply Hrg.
  - intros v Hv. assert (v ≠ u) by (by intros ->). pose proof (Hwt _ Hv) as Hv'.
    apply Hin; [by intros ->; congruence|done|done].
  - intros v q w [[-> ->]|[[-> ->]|(Hvt & Hvu & Hv)]]%Hl Hq; [done..|].
    destruct (Hwk _ _ _ Hv Hq) as [Hw1 Hw2]. split; [|done].
    apply Hin; [by intros ->; congruence| |done]. intros ->.
    assert (b_spin s = Some v) by (apply (Hsp _ _ Hv); by destruct q).
    assert (b_spin s = Some t) by (by apply (Hsp _ _ Ht)). congruence.
  - intros v [[-> E]|[[-> E]|(Hvt & Hvu & Hv)]]%Hl; [discriminate E..|].
    destruct (Has v Hv) as [|(w & q & Hw & Hk)]; [by left|]. right. exists w, q. split; [|done].
    apply Hin; [|by intros ->; rewrite Hu in Hw; injection Hw as <-|done].
    intros ->. rewrite Ht in Hw. injection Hw as <-. simpl in Hk. congruence.
  - intros v q [[-> ->]|[[-> ->]|(? & ? & Hv)]]%Hl; [done..|by apply Hrd].
  - intros Hsl. assert (Hsl0 : sleepers s).
    { destruct Hsl as [|(v & [[-> E]|[[-> E]|(? & ? & Hv)]]%Hl)]; [by left|discriminate E..|]. right. by exists v. }
    specialize (Hlost Hsl0). pose proof (nactive_moved _ _ _ WRespin Hu) as H1.
    assert (Ht' : <[u:=WRespin]> (b_pcs s) !! t = Some (GRun (Some u))) by (by rewrite list_lookup_insert_ne).
    pose proof (nactive_moved _ _ _ GRel Ht') as H2. simpl in H1, H2. lia.
Qed.
End Steps.

(** ** What the code guarantees *)

Definition is_took (e : event) : bool := match e with Took _ => true | Gave _ => false end.
Definition taken (es : list event) : nat := length (filter (λ e, is_took e = true) es).
Definition given (es : list event) : nat := length (filter (λ e, is_took e = false) es).

Section Guarantees.
Context {R : Type} `{!ResourceOps R} {HR : Resource R}.
Implicit Types (s : bstate R).

Lemma acquire_done h t s r : acquire (R := R) h t s = Some (Done r) → h = None ∧ r = s.
Proof. unfold acquire. destruct h; [case_bool_decide; discriminate|]. by intros [= ->]. Qed.
Lemma release_done h t s r : release (R := R) h t s = Some (Done r) → h = Some t ∧ r = s.
Proof. unfold release. case_bool_decide; [|discriminate]. by intros [= ->]. Qed.
Lemma on_data_done s r f s' : on_data (R := R) s r f = Some (Done s') → ∃ d, r = Done d ∧ s' = f d.
Proof. unfold on_data. destruct r; try discriminate. intros [= <-]. by eauto. Qed.

Lemma avail_zero d : res_ok d → ready d = false → avail d = 0.
Proof. intros Hd H. rewrite (ready_avail d Hd) in H. apply bool_decide_eq_false in H. lia. Qed.

Ltac bmove p0 Hinv Ht :=
  lazymatch type of Ht with b_pcs ?s !! ?t = _ =>
    eapply (binv_move s t p0); try done; try (by intros _; left); try (by intros _; right);
      try (by apply (bi_spin _ Hinv _ _ Ht)); try (by apply (bi_wc _ Hinv _ _ Ht));
      try (right; split; [done|simpl; lia])
  end.

(** One step keeps the invariant. *)
Lemma exec_inv s t s' : binv s → exec t s = Some (Done s') → binv s'.
Proof.
  intros Hinv Hex. unfold exec in Hex. destruct (b_pcs s !! t) as [p|] eqn:Ht; [|discriminate Hex].
  pose proof (bi_ready _ Hinv _ _ Ht) as (Hr1 & Hr2 & Hr3). pose proof (avail_zero _ (bi_ok _ Hinv)) as Hz.
  destruct p as [| | | | | | | | | | | | | | |o|[u|]|]; try discriminate Hex; simpl in Hr1, Hr2, Hr3.
  - apply acquire_done in Hex as [E ->]. bmove WSpin Hinv Ht.
  - injection Hex as <-. destruct (ready (b_data s)) eqn:Er; bmove WTest Hinv Ht.
  - apply acquire_done in Hex as [E ->]. bmove WWclock Hinv Ht.
  - apply release_done in Hex as [E ->]. bmove WSpinrel Hinv Ht. left. apply Hz. by apply Hr2.
  - apply release_done in Hex as [E ->]. exact (binv_sleep s t Hinv Ht).
  - apply acquire_done in Hex as [E ->]. bmove WRespin Hinv Ht.
  - injection Hex as <-. destruct (ready (b_data s)) eqn:Er; bmove WRetest Hinv Ht. left. by apply Hz.
  - apply on_data_done in Hex as (d & Ed & ->).
    destruct (take_ok t (b_data s) (bi_ok _ Hinv) (Hr1 eq_refl)) as (d' & Ed' & Hd & Hav & Hg).
    rewrite Ed in Ed'. injection Ed' as <-. eapply (binv_change s t WTake); try done; [auto|simpl; lia].
  - apply release_done in Hex as [E ->]. bmove WRel Hinv Ht.
  - apply acquire_done in Hex as [E ->]. bmove GSpin Hinv Ht.
  - apply on_data_done in Hex as (d & Ed & ->).
    destruct (give_ok t (b_data s) d (bi_ok _ Hinv) (Hr3 eq_refl) Ed) as (Hd & Hav & Hg).
    eapply (binv_change s t GGive); try done. simpl. lia.
  - apply acquire_done in Hex as [E ->]. bmove GWclock Hinv Ht.
  - injection Hex as <-. destruct (b_wait s) as [|u l] eqn:El; [exact (binv_remhead_empty s t Hinv Ht El)|exact (binv_remhead s t u l Hinv Ht El)].
  - apply release_done in Hex as [E ->]. bmove (GWcrel o) Hinv Ht.
  - destruct (binv_run s t u Hinv Ht) as [Hu Hinv']. rewrite bool_decide_true in Hex by done. by injection Hex as <-.
  - injection Hex as <-. bmove (GRun None) Hinv Ht.
  - apply release_done in Hex as [E ->]. bmove GRel Hinv Ht.
Qed.

Lemma bstep_inv s e s' : binv s → bstep s e s' → binv s'.
Proof.
  intros Hinv [t Ht|t Ht Hg|t s1 Hex]; [bmove Outside Hinv Ht|bmove Outside Hinv Ht|by eapply exec_inv].
Qed.

(** What a step does to the resource, counted. *)
Lemma bstep_avail s e s' :
  binv s → bstep s e s' → avail (b_data s') + taken e = avail (b_data s) + given e.
Proof.
  intros Hinv [t Ht|t Ht Hg|t s1 Hex]; [done..|]. unfold event_of, exec in *.
  destruct (b_pcs s !! t) as [p|] eqn:Ht; [|discriminate Hex].
  pose proof (bi_ready _ Hinv _ _ Ht) as (Hr1 & Hr2 & Hr3).
  destruct p as [| | | | | | | | | | | | | | |o|[u|]|]; try discriminate Hex;
    try (apply acquire_done in Hex as [_ ->]; done); try (apply release_done in Hex as [_ ->]; done);
    try (injection Hex as <-; done).
  - apply on_data_done in Hex as (d & Ed & ->).
    destruct (take_ok t (b_data s) (bi_ok _ Hinv) (Hr1 eq_refl)) as (d' & Ed' & _ & Hav & _).
    rewrite Ed in Ed'. injection Ed' as <-. change (avail d + 1 = avail (b_data s) + 0). lia.
  - apply on_data_done in Hex as (d & Ed & ->).
    destruct (give_ok t (b_data s) d (bi_ok _ Hinv) (Hr3 eq_refl) Ed) as (_ & Hav & _).
    change (avail d + 0 = avail (b_data s) + 1). lia.
  - injection Hex as <-. by destruct (b_wait s).
  - case_bool_decide; [|discriminate Hex]. injection Hex as <-. done.
Qed.

Lemma binit_inv n d : res_ok d → binv (binit n d).
Proof.
  intros Hd. assert (Hl : ∀ t p, replicate n Outside !! t = Some p → p = Outside)
    by (by intros t p [-> _]%lookup_replicate).
  split; cbn [binit b_data b_spin b_wclock b_wait b_pcs]; try done.
  - by intros t p ->%Hl.
  - by intros t p ->%Hl.
  - by intros t [].
  - apply NoDup_nil_2.
  - by intros t ?%elem_of_nil.
  - by intros t p u ->%Hl.
  - by intros u ?%Hl.
  - by intros t p ->%Hl.
  - intros [H|(t & Ht%Hl)]; done.
Qed.

Lemma bsteps_inv n d es s :
  res_ok d → bsteps (binit n d) es s →
  binv s ∧ avail (b_data s) + taken es = avail d + given es.
Proof.
  intros Hd Hs. remember (binit n d) as s0 eqn:E0. induction Hs as [|s1 es s2 e s3 Hs IH He].
  - subst. split; [by apply binit_inv|done].
  - destruct (IH E0) as [Hinv Hav]. split; [by eapply bstep_inv|].
    pose proof (bstep_avail _ _ _ Hinv He). unfold taken, given in *. rewrite !filter_app, !length_app. lia.
Qed.

(** Nobody sleeps beside something to take. *)
Definition quiet s : Prop := ∀ t p, b_pcs s !! t = Some p → p = Outside ∨ p = WAsleep.

Lemma quiet_avail s t : binv s → quiet s → b_pcs s !! t = Some WAsleep → avail (b_data s) = 0.
Proof.
  intros Hinv Hq Ht. assert (Hn : nactive (b_pcs s) = 0).
  { unfold nactive. rewrite filter_none; [done|]. intros p [u Hu]%list_elem_of_lookup. by destruct (Hq _ _ Hu) as [->| ->]. }
  assert (Hin : t ∈ b_wait s).
  { destruct (bi_asleep _ Hinv _ Ht) as [|(u & p & Hu & Hp)]; [done|]. by destruct (Hq _ _ Hu) as [->| ->]. }
  pose proof (bi_lost _ Hinv) as Hl. rewrite Hn in Hl. assert (sleepers s); [left; by intros E; rewrite E in Hin; apply elem_of_nil in Hin|].
  specialize (Hl H). lia.
Qed.

(** Some thread can always go on. *)
Lemma exec_release s t p h s' :
  binv s → b_pcs s !! t = Some p → (holds_spin p = true ∧ h = b_spin s) ∨ (holds_wc p = true ∧ h = b_wclock s) →
  release h t s' = Some (Done s').
Proof.
  intros Hinv Ht [[Hp ->]|[Hp ->]]; unfold release; rewrite bool_decide_true; try done.
  - by apply (bi_spin _ Hinv _ _ Ht).
  - by apply (bi_wc _ Hinv _ _ Ht).
Qed.

(** A thread in the code is blocked only by a spinlock held by another one. *)
Lemma exec_blocked s t p :
  binv s → b_pcs s !! t = Some p → p ≠ Outside → p ≠ WAsleep → exec t s = None →
  (∃ u, b_spin s = Some u ∧ u ≠ t ∧ holds_spin p = false) ∨
  (∃ u, b_wclock s = Some u ∧ u ≠ t ∧ holds_spin p = true ∧ holds_wc p = false).
Proof.
  intros Hinv Ht H1 H2 Hex. unfold exec in Hex. rewrite Ht in Hex.
  assert (Hacq : ∀ h s', acquire (R := R) h t s' = None → ∃ u, h = Some u ∧ u ≠ t).
  { intros [u|] s'; simpl; [case_bool_decide; [discriminate|by eauto]|discriminate]. }
  destruct p as [| | | | | | | | | | | | | | |o|[u|]|]; try done;
    try (apply Hacq in Hex as (u & Hu & Hne); simpl; by eauto 6);
    try (by destruct (b_wait s)).
Qed.

Lemma bprogress s :
  binv s → ¬ quiet s → ∃ t r, exec t s = Some r.
Proof.
  intros Hinv Hq.
  assert (Hex : ∃ t p, b_pcs s !! t = Some p ∧ p ≠ Outside ∧ p ≠ WAsleep).
  { destruct (decide (Exists (λ p, p ≠ Outside ∧ p ≠ WAsleep) (b_pcs s))) as [He|Hne].
    - apply Exists_exists in He as (p & [t Ht]%list_elem_of_lookup & H1 & H2). by eauto.
    - destruct Hq. intros t p Ht. destruct (decide (p = Outside)); [by left|]. destruct (decide (p = WAsleep)); [by right|].
      destruct Hne. apply Exists_exists. exists p. split; [by eapply list_elem_of_lookup_2|done]. }
  destruct Hex as (t & p & Ht & H1 & H2).
  (* a holder of the channel's lock without the object's is at WSleep *)
  assert (Hwc : ∀ u, b_wclock s = Some u → b_spin s ≠ Some u → ∃ r, exec u s = Some r).
  { intros u Hu Hnu. destruct (bi_range _ Hinv u (or_intror Hu)) as [q Huq].
    assert (Hw : holds_wc q = true) by (by apply (bi_wc _ Hinv _ _ Huq)).
    assert (holds_spin q = false) by (destruct (holds_spin q) eqn:E; [|done]; by apply (bi_spin _ Hinv _ _ Huq) in E).
    destruct q; try discriminate. unfold exec. rewrite Huq. unfold release. by eauto. }
  assert (Hgo : ∀ u q, b_pcs s !! u = Some q → q ≠ Outside → q ≠ WAsleep → holds_spin q = true → ∃ v r, exec v s = Some r).
  { intros u q Hu Hq1 Hq2 Hq3. destruct (exec u s) as [r|] eqn:E; [by eauto|].
    destruct (exec_blocked s u q Hinv Hu Hq1 Hq2 E) as [(v & _ & _ & Hf)|(v & Hv & Hne & _)]; [congruence|].
    destruct (Hwc v Hv) as [r Hr]; [|by eauto]. assert (b_spin s = Some u) by (by apply (bi_spin _ Hinv _ _ Hu)). congruence. }
  destruct (exec t s) as [r|] eqn:E; [by eauto|].
  destruct (exec_blocked s t p Hinv Ht H1 H2 E) as [(u & Hu & Hne & _)|(u & _ & _ & Hf & _)]; [|by eauto].
  destruct (bi_range _ Hinv u (or_introl Hu)) as [q Huq].
  assert (Hsq : holds_spin q = true) by (by apply (bi_spin _ Hinv _ _ Huq)).
  apply (Hgo u q); [done|by intros ->..|done].
Qed.

(** The only way the code stops the machine is an assertion of [give]. *)
Lemma exec_panics s t r :
  binv s → exec t s = Some r → (∃ s', r = Done s') ∨ (b_pcs s !! t = Some GGive ∧ ∀ d, give t (b_data s) ≠ Done d).
Proof.
  intros Hinv Hex. unfold exec in Hex. destruct (b_pcs s !! t) as [p|] eqn:Ht; [|discriminate Hex].
  pose proof (bi_ready _ Hinv _ _ Ht) as (Hr1 & Hr2 & Hr3).
  assert (Hacq : ∀ h s', acquire h t s' = Some r → h ≠ Some t → ∃ s', r = Done s').
  { intros [u|] s'; simpl; [case_bool_decide; [by subst|discriminate]|intros [= <-]; by eauto]. }
  assert (Hspin : holds_spin p = false → b_spin s ≠ Some t).
  { intros Hf Hb. apply (bi_spin _ Hinv _ _ Ht) in Hb. congruence. }
  assert (Hwc : holds_wc p = false → b_wclock s ≠ Some t).
  { intros Hf Hb. apply (bi_wc _ Hinv _ _ Ht) in Hb. congruence. }
  assert (Hrel : ∀ h s', release h t s' = Some r →
    (holds_spin p = true ∧ h = b_spin s) ∨ (holds_wc p = true ∧ h = b_wclock s) → ∃ s', r = Done s').
  { intros h s' E Hh. rewrite (exec_release s t p h s' Hinv Ht Hh) in E. injection E as <-. by eauto. }
  destruct p as [| | | | | | | | | | | | | | |o|[u|]|]; try discriminate Hex;
    try (left; eapply Hacq; [exact Hex|by apply Hspin]); try (left; eapply Hacq; [exact Hex|by apply Hwc]);
    try (left; eapply Hrel; [exact Hex|by left]); try (left; eapply Hrel; [exact Hex|by right]);
    try (injection Hex as <-; left; by eauto).
  - destruct (take_ok t (b_data s) (bi_ok _ Hinv) (Hr1 eq_refl)) as (d' & Ed' & _).
    unfold on_data in Hex. rewrite Ed' in Hex. injection Hex as <-. left. by eauto.
  - unfold on_data in Hex. injection Hex as <-. destruct (give t (b_data s)) eqn:Eg; [left; by eauto|right; by split..].
  - destruct (binv_run s t u Hinv Ht) as [Hu _]. rewrite bool_decide_true in Hex by done. injection Hex as <-. left. by eauto.
Qed.
End Guarantees.

(** ** Schedules

    A schedule says which thread calls what and which thread makes the next
    step; running it is executable and gives a run. *)

Inductive baction := CallWait (t : nat) | CallGive (t : nat) | Go (t : nat).

Section Schedules.
Context {R : Type} `{!ResourceOps R}.
Implicit Types (s : bstate R).

Definition bact (a : baction) s : option (list event * bstate R) :=
  match a with
  | CallWait t =>
      if bool_decide (b_pcs s !! t = Some Outside) then Some ([], set_bpc t WSpin s) else None
  | CallGive t =>
      if bool_decide (b_pcs s !! t = Some Outside) && may_give t (b_data s)
      then Some ([], set_bpc t GSpin s) else None
  | Go t => match exec t s with Some (Done s') => Some (event_of t s, s') | _ => None end
  end.

Fixpoint brun (l : list baction) (es : list event) s : option (list event * bstate R) :=
  match l with
  | [] => Some (es, s)
  | a :: l => match bact a s with Some (e, s') => brun l (es ++ e) s' | None => None end
  end.

Lemma bact_sound a s e s' : bact a s = Some (e, s') → bstep s e s'.
Proof.
  destruct a as [t|t|t]; simpl.
  - case_bool_decide; [|done]. intros [= <- <-]. by apply call_wait.
  - case_bool_decide; [|done]. simpl. destruct (may_give t (b_data s)) eqn:E; [|done].
    intros [= <- <-]. by apply call_give.
  - destruct (exec t s) as [[s1| | |]|] eqn:E; try done. intros [= <- <-]. by apply bgo.
Qed.

Lemma brun_sound l s0 es s es' s' :
  bsteps s0 es s → brun l es s = Some (es', s') → bsteps s0 es' s'.
Proof.
  revert es s. induction l as [|a l IH]; intros es s Hs; simpl.
  - by intros [= <- <-].
  - destruct (bact a s) as [[e s1]|] eqn:E; [|done]. apply IH. eapply bsteps_snoc; [done|]. by apply bact_sound in E.
Qed.
End Schedules.
