(* ===== verification/CondVar.v ===== *)
(** * Condition variables (kern/thread/synch.c)

    [cexec] is the next step of a thread in [cv_wait], [cv_signal] or
    [cv_broadcast], one step for each statement that touches shared state; the
    lock given to them is taken and let go in one step each, which Synch.v
    justifies.  [cv_spec] is what callers rely on: waiting gives up the lock
    and joins a queue in one step, and signals take threads off that queue in
    order. *)

From stdpp Require Import base numbers list relations.
From Stdlib Require Import ZArith Lia.
From S2P Require Import Prelude.

Open Scope nat_scope.

Inductive cpc :=
  | COut
  (* cv_wait *)
  | CSpin                     (* spinlock_acquire(&cv->cv_spinlock) *)
  | CRelease                  (* lock_release(lock) *)
  | CWclock                   (* wchan_lock(cv->cv_wchan) *)
  | CSpinrel                  (* spinlock_release(&cv->cv_spinlock) *)
  | CSleep                    (* wchan_sleep: onto the channel, unlock it *)
  | CAsleep
  | CReacq                    (* lock_acquire(lock) *)
  (* cv_signal, and cv_broadcast when [all] *)
  | SSpin (all : bool)        (* spinlock_acquire(&cv->cv_spinlock) *)
  | SWclock (all : bool)      (* wchan_wake...: spinlock_acquire(&wc_lock) *)
  | SGrab (all : bool)        (* take one thread, or move all to a list *)
  | SWcrel (l : list nat)     (* spinlock_release(&wc_lock) *)
  | SRun (l : list nat)       (* thread_make_runnable, one after the other *)
  | SRel.                     (* spinlock_release(&cv->cv_spinlock) *)

#[global] Instance cpc_eq_dec : EqDecision cpc.
Proof. solve_decision. Defined.

Record cvstate := CvState {
  c_owner : option nat;       (* the lock's holder *)
  c_spin : option nat;        (* holder of cv_spinlock *)
  c_wclock : option nat;      (* holder of the channel's lock *)
  c_wait : list nat;          (* the channel *)
  c_pcs : list cpc;
}.

(** What a step means to the callers. *)
Inductive cevent :=
  | Locks (t : nat)
  | Unlocks (t : nat)
  | Waits (t : nat)
  | Signals (t : nat) (all : bool) (woken : list nat).

Definition set_cpc (t : nat) (p : cpc) (s : cvstate) : cvstate :=
  CvState (c_owner s) (c_spin s) (c_wclock s) (c_wait s) (<[t := p]> (c_pcs s)).

(** [spinlock_acquire] and [spinlock_release], as in Blocking.v. *)
Definition cacquire (h : option nat) (t : nat) (s' : cvstate) : option (outcome cvstate) :=
  match h with
  | None => Some (Done s')
  | Some u => if bool_decide (u = t) then Some Panic else None
  end.
Definition crelease (h : option nat) (t : nat) (s' : cvstate) : option (outcome cvstate) :=
  Some (if bool_decide (h = Some t) then Done s' else Panic).

(** [wchan_wakeone] takes the first thread, [wchan_wakeall] all of them. *)
Definition grab (all : bool) (l : list nat) : list nat * list nat :=
  if all then (l, []) else (firstn 1 l, skipn 1 l).

Definition cexec (t : nat) (s : cvstate) : option (outcome cvstate) :=
  let '(CvState o sp wc w pcs) := s in
  match pcs !! t with
  | Some CSpin => cacquire sp t (CvState o (Some t) wc w (<[t := CRelease]> pcs))
  | Some CRelease => crelease o t (CvState None sp wc w (<[t := CWclock]> pcs))
  | Some CWclock => cacquire wc t (CvState o sp (Some t) w (<[t := CSpinrel]> pcs))
  | Some CSpinrel => crelease sp t (CvState o None wc w (<[t := CSleep]> pcs))
  | Some CSleep => crelease wc t (CvState o sp None (w ++ [t]) (<[t := CAsleep]> pcs))
  | Some CReacq =>
      match o with
      | None => Some (Done (CvState (Some t) sp wc w (<[t := COut]> pcs)))
      | Some _ => None
      end
  | Some (SSpin all) => cacquire sp t (CvState o (Some t) wc w (<[t := SWclock all]> pcs))
  | Some (SWclock all) => cacquire wc t (CvState o sp (Some t) w (<[t := SGrab all]> pcs))
  | Some (SGrab all) =>
      Some (Done (CvState o sp wc (grab all w).2 (<[t := SWcrel (grab all w).1]> pcs)))
  | Some (SWcrel l) => crelease wc t (CvState o sp None w (<[t := SRun l]> pcs))
  | Some (SRun []) => Some (Done (CvState o sp wc w (<[t := SRel]> pcs)))
  | Some (SRun (u :: l)) =>
      Some (if bool_decide (pcs !! u = Some CAsleep)
            then Done (CvState o sp wc w (<[t := SRun l]> (<[u := CReacq]> pcs))) else Undef)
  | Some SRel => crelease sp t (CvState o None wc w (<[t := COut]> pcs))
  | Some COut | Some CAsleep | None => None
  end.

Definition cevent_of (t : nat) (s : cvstate) : list cevent :=
  match c_pcs s !! t with
  | Some CRelease => [Waits t]
  | Some CReacq => [Locks t]
  | Some (SGrab all) => [Signals t all (grab all (c_wait s)).1]
  | _ => []
  end.

(** [cv_wait], [cv_signal] and [cv_broadcast] begin by asserting that the
    caller holds the lock. *)
Inductive cstep (s : cvstate) : list cevent → cvstate → Prop :=
  | user_lock t : c_pcs s !! t = Some COut → c_owner s = None →
      cstep s [Locks t] (CvState (Some t) (c_spin s) (c_wclock s) (c_wait s) (c_pcs s))
  | user_unlock t : c_pcs s !! t = Some COut → c_owner s = Some t →
      cstep s [Unlocks t] (CvState None (c_spin s) (c_wclock s) (c_wait s) (c_pcs s))
  | cv_wait t : c_pcs s !! t = Some COut → c_owner s = Some t → cstep s [] (set_cpc t CSpin s)
  | cv_signal t : c_pcs s !! t = Some COut → c_owner s = Some t → cstep s [] (set_cpc t (SSpin false) s)
  | cv_broadcast t : c_pcs s !! t = Some COut → c_owner s = Some t → cstep s [] (set_cpc t (SSpin true) s)
  | cgo t s' : cexec t s = Some (Done s') → cstep s (cevent_of t s) s'.

Inductive csteps : cvstate → list cevent → cvstate → Prop :=
  | csteps_nil s : csteps s [] s
  | csteps_snoc s1 es s2 e s3 : csteps s1 es s2 → cstep s2 e s3 → csteps s1 (es ++ e) s3.

Definition cinit (threads : nat) : cvstate := CvState None None None [] (replicate threads COut).

(** ** The specification *)

Record cvspec := CvSpec { cs_owner : option nat; cs_queue : list nat }.

Definition cv_spec (e : cevent) (a : cvspec) : option cvspec :=
  match e with
  | Locks t => if bool_decide (cs_owner a = None) then Some (CvSpec (Some t) (cs_queue a)) else None
  | Unlocks t => if bool_decide (cs_owner a = Some t) then Some (CvSpec None (cs_queue a)) else None
  | Waits t => if bool_decide (cs_owner a = Some t) then Some (CvSpec None (cs_queue a ++ [t])) else None
  | Signals t all woken =>
      if bool_decide (cs_owner a = Some t ∧ woken = (grab all (cs_queue a)).1)
      then Some (CvSpec (cs_owner a) (grab all (cs_queue a)).2) else None
  end.

Fixpoint cv_run (es : list cevent) (a : cvspec) : option cvspec :=
  match es with
  | [] => Some a
  | e :: es => match cv_spec e a with Some a' => cv_run es a' | None => None end
  end.

(** ** The invariant *)

Definition has_spin (p : cpc) : bool :=
  match p with
  | CRelease | CWclock | CSpinrel | SWclock _ | SGrab _ | SWcrel _ | SRun _ | SRel => true
  | _ => false
  end.
Definition has_wc (p : cpc) : bool :=
  match p with CSpinrel | CSleep | SGrab _ | SWcrel _ => true | _ => false end.
Definition has_lock (p : cpc) : bool :=
  match p with
  | CSpin | CRelease | SSpin _ | SWclock _ | SGrab _ | SWcrel _ | SRun _ | SRel => true
  | _ => false
  end.
Definition cwaking (p : cpc) : list nat :=
  match p with SWcrel l | SRun l => l | _ => [] end.

Record cinv (s : cvstate) : Prop := {
  ci_spin : ∀ t p, c_pcs s !! t = Some p → has_spin p = true ↔ c_spin s = Some t;
  ci_wc : ∀ t p, c_pcs s !! t = Some p → has_wc p = true ↔ c_wclock s = Some t;
  ci_lock : ∀ t p, c_pcs s !! t = Some p → has_lock p = true → c_owner s = Some t;
  ci_nodup : NoDup (c_wait s);
  ci_wait : ∀ t, t ∈ c_wait s → c_pcs s !! t = Some CAsleep;
  ci_waking : ∀ t p, c_pcs s !! t = Some p → NoDup (cwaking p) ∧
    ∀ u, u ∈ cwaking p → c_pcs s !! u = Some CAsleep ∧ u ∉ c_wait s;
}.

(** The queue of the specification: the threads on the channel, then the one
    that holds its lock on the way there, then the one waiting for that. *)
Definition q_wc (wc : option nat) (pcs : list cpc) : list nat :=
  match wc with
  | Some t => match pcs !! t with Some CSpinrel | Some CSleep => [t] | _ => [] end
  | None => []
  end.
Definition q_spin (sp : option nat) (pcs : list cpc) : list nat :=
  match sp with
  | Some t => match pcs !! t with Some CWclock => [t] | _ => [] end
  | None => []
  end.
Definition queued (s : cvstate) : list nat :=
  c_wait s ++ q_wc (c_wclock s) (c_pcs s) ++ q_spin (c_spin s) (c_pcs s).

Section Invariant.
Implicit Types (s : cvstate).

Lemma cmoved (l : list cpc) t p u q :
  <[t := p]> l !! u = Some q → (t = u ∧ q = p) ∨ (t ≠ u ∧ l !! u = Some q).
Proof.
  rewrite list_lookup_insert. case_decide as H.
  - intros [= ->]. left. by destruct H.
  - intros Hq. right. split; [|done]. intros ->. apply H. split; [done|]. by eapply lookup_lt_Some.
Qed.

Lemma cmoved_same (l : list cpc) t p0 p : l !! t = Some p0 → <[t := p]> l !! t = Some p.
Proof. intros H. apply list_lookup_insert_eq. by eapply lookup_lt_Some. Qed.

(** A thread moves from [p0] to [p], neither of them asleep, taking or letting
    go of locks as the two say. *)
Lemma cinv_move s t p0 p o sp wc :
  cinv s → c_pcs s !! t = Some p0 → p0 ≠ CAsleep → p ≠ CAsleep → cwaking p = cwaking p0 →
  (if has_spin p then sp = Some t ∧ (has_spin p0 = true ∨ c_spin s = None)
   else sp = if has_spin p0 then None else c_spin s) →
  (if has_wc p then wc = Some t ∧ (has_wc p0 = true ∨ c_wclock s = None)
   else wc = if has_wc p0 then None else c_wclock s) →
  (o = c_owner s ∨ c_owner s = None ∨ c_owner s = Some t) → (has_lock p = true → o = Some t) →
  cinv (CvState o sp wc (c_wait s) (<[t := p]> (c_pcs s))).
Proof.
  intros [Hsp Hwc Hlk Hnd Hwt Hwk] Ht Hp0 Hp Ewk Hs Hw Ho1 Ho2.
  pose proof (Hsp _ _ Ht) as Hst. pose proof (Hwc _ _ Ht) as Hwct.
  split; cbn [c_owner c_spin c_wclock c_wait c_pcs].
  - intros u q [[<- ->]|[Hne Hu]]%cmoved.
    + destruct (has_spin p); [by destruct Hs as [-> _]|]. subst sp. split; [done|]. destruct (has_spin p0); [done|].
      intros Hb. by apply Hst in Hb.
    + rewrite (Hsp _ _ Hu). destruct (has_spin p).
      * destruct Hs as [-> Hs]. split; [|by intros [= ->]]. intros Hb. destruct Hs as [Hs|Hs]; [apply Hst in Hs|]; congruence.
      * subst sp. destruct (has_spin p0); [|done]. split; [|done]. destruct Hst as [Hst _]. intros Hb. specialize (Hst eq_refl). congruence.
  - intros u q [[<- ->]|[Hne Hu]]%cmoved.
    + destruct (has_wc p); [by destruct Hw as [-> _]|]. subst wc. split; [done|]. destruct (has_wc p0); [done|].
      intros Hb. by apply Hwct in Hb.
    + rewrite (Hwc _ _ Hu). destruct (has_wc p).
      * destruct Hw as [-> Hw]. split; [|by intros [= ->]]. intros Hb. destruct Hw as [Hw|Hw]; [apply Hwct in Hw|]; congruence.
      * subst wc. destruct (has_wc p0); [|done]. split; [|done]. destruct Hwct as [Hwct _]. intros Hb. specialize (Hwct eq_refl). congruence.
  - intros u q [[<- ->]|[Hne Hu]]%cmoved Hl; [by apply Ho2|]. apply (Hlk _ _ Hu) in Hl.
    destruct Ho1 as [->|[|]]; congruence.
  - done.
  - intros u Hu. rewrite list_lookup_insert_ne; [by apply Hwt|]. intros <-. apply Hwt in Hu. congruence.
  - assert (Hk : ∀ v q, c_pcs s !! v = Some q → NoDup (cwaking q) ∧
      ∀ u, u ∈ cwaking q → <[t := p]> (c_pcs s) !! u = Some CAsleep ∧ u ∉ c_wait s).
    { intros v q Hv. destruct (Hwk _ _ Hv) as [Hq1 Hq2]. split; [done|]. intros u Hu.
      destruct (Hq2 u Hu) as [Hu1 Hu2]. split; [|done]. rewrite list_lookup_insert_ne; [done|]. intros <-. congruence. }
    intros u q [[<- ->]|[Hne Hu]]%cmoved; [rewrite Ewk|]; by eapply Hk.
Qed.

(** The user's own use of the lock. *)
Lemma cinv_owner s t o :
  cinv s → c_pcs s !! t = Some COut → c_owner s = None ∨ c_owner s = Some t →
  cinv (CvState o (c_spin s) (c_wclock s) (c_wait s) (c_pcs s)).
Proof.
  intros [Hsp Hwc Hlk Hnd Hwt Hwk] Ht Ho. split; cbn [c_owner c_spin c_wclock c_wait c_pcs]; try done.
  intros u q Hu Hl. pose proof (Hlk _ _ Hu Hl). destruct Ho as [Ho|Ho]; [congruence|].
  assert (u = t) as -> by congruence. rewrite Ht in Hu. by injection Hu as <-.
Qed.

Lemma cinv_sleep s t :
  cinv s → c_pcs s !! t = Some CSleep →
  cinv (CvState (c_owner s) (c_spin s) None (c_wait s ++ [t]) (<[t := CAsleep]> (c_pcs s))).
Proof.
  intros [Hsp Hwc Hlk Hnd Hwt Hwk] Ht.
  assert (Hw : c_wclock s = Some t) by (by apply (Hwc _ _ Ht)).
  assert (Hni : t ∉ c_wait s) by (intros H%Hwt; congruence).
  split; cbn [c_owner c_spin c_wclock c_wait c_pcs].
  - intros u q [[<- ->]|[Hne Hu]]%cmoved; [|by apply Hsp]. apply (Hsp _ _ Ht).
  - intros u q [[<- ->]|[Hne Hu]]%cmoved; [done|]. rewrite (Hwc _ _ Hu). split; [|done]. congruence.
  - intros u q [[<- ->]|[Hne Hu]]%cmoved; [done|by apply Hlk].
  - apply NoDup_app. split_and!; [done| |apply NoDup_singleton]. intros u Hu Hs%list_elem_of_singleton. by subst.
  - intros u [Hu|Hu%list_elem_of_singleton]%elem_of_app; [|subst; by apply (cmoved_same _ _ CSleep)].
    rewrite list_lookup_insert_ne; [by apply Hwt|]. intros <-. done.
  - intros u q [[<- ->]|[Hne Hu]]%cmoved; [split; [apply NoDup_nil_2|by intros v ?%elem_of_nil]|].
    destruct (Hwk _ _ Hu) as [Hq1 Hq2]. split; [done|]. intros v Hv. destruct (Hq2 v Hv) as [Hv1 Hv2].
    assert (v ≠ t) by (intros ->; congruence). split; [by rewrite list_lookup_insert_ne|].
    rewrite elem_of_app, list_elem_of_singleton. by intros [].
Qed.

Lemma grab_app all l : (grab all l).1 ++ (grab all l).2 = l.
Proof. destruct all; simpl; [apply app_nil_r|]. by destruct l. Qed.

Lemma cinv_grab s t all :
  cinv s → c_pcs s !! t = Some (SGrab all) →
  cinv (CvState (c_owner s) (c_spin s) (c_wclock s) (grab all (c_wait s)).2
          (<[t := SWcrel (grab all (c_wait s)).1]> (c_pcs s))).
Proof.
  intros [Hsp Hwc Hlk Hnd Hwt Hwk] Ht. pose proof (grab_app all (c_wait s)) as Hg.
  destruct (grab all (c_wait s)) as [l r]. cbn [fst snd] in *. rewrite <-Hg in *.
  apply NoDup_app in Hnd as (Hl & Hlr & Hr).
  split; cbn [c_owner c_spin c_wclock c_wait c_pcs].
  - intros u q [[<- ->]|[Hne Hu]]%cmoved; [|by apply Hsp]. apply (Hsp _ _ Ht).
  - intros u q [[<- ->]|[Hne Hu]]%cmoved; [|by apply Hwc]. apply (Hwc _ _ Ht).
  - intros u q [[<- ->]|[Hne Hu]]%cmoved; [intros _; by apply (Hlk _ _ Ht)|by apply Hlk].
  - done.
  - intros u Hu. assert (Hua : c_pcs s !! u = Some CAsleep) by (apply Hwt, elem_of_app; by right).
    rewrite list_lookup_insert_ne; [done|]. intros <-. congruence.
  - intros u q [[<- ->]|[Hne Hu]]%cmoved.
    + split; [done|]. intros v Hv. simpl in Hv. split; [|by apply Hlr].
      assert (Hva : c_pcs s !! v = Some CAsleep) by (apply Hwt, elem_of_app; by left).
      rewrite list_lookup_insert_ne; [done|]. intros <-. congruence.
    + destruct (Hwk _ _ Hu) as [Hq1 Hq2]. split; [done|]. intros v Hv. destruct (Hq2 v Hv) as [Hv1 Hv2].
      split; [|intros Hin; apply Hv2, elem_of_app; by right].
      rewrite list_lookup_insert_ne; [done|]. intros <-. congruence.
Qed.

Lemma cinv_run s t u l :
  cinv s → c_pcs s !! t = Some (SRun (u :: l)) →
  c_pcs s !! u = Some CAsleep ∧
  cinv (CvState (c_owner s) (c_spin s) (c_wclock s) (c_wait s) (<[t := SRun l]> (<[u := CReacq]> (c_pcs s)))).
Proof.
  intros [Hsp Hwc Hlk Hnd Hwt Hwk] Ht. destruct (Hwk _ _ Ht) as [Hnd' Hin]. simpl in Hnd', Hin.
  apply NoDup_cons in Hnd' as [Hul Hnd']. destruct (Hin u) as [Hu Huw]; [left|]. split; [done|].
  assert (Hut : t ≠ u) by (intros ->; congruence).
  assert (Hl : ∀ v q, <[t:=SRun l]> (<[u:=CReacq]> (c_pcs s)) !! v = Some q →
    (v = t ∧ q = SRun l) ∨ (v = u ∧ q = CReacq) ∨ (v ≠ t ∧ v ≠ u ∧ c_pcs s !! v = Some q)).
  { intros v q [[<- ->]|[Hne [[<- ->]|[Hne' Hv]]%cmoved]]%cmoved; [by left|right; by left|]. right. right. by split_and!. }
  assert (Has : ∀ v, v ≠ u → c_pcs s !! v = Some CAsleep → <[t:=SRun l]> (<[u:=CReacq]> (c_pcs s)) !! v = Some CAsleep).
  { intros v Hvu Hv. assert (t ≠ v) by (intros ->; congruence). by rewrite !list_lookup_insert_ne. }
  split; cbn [c_owner c_spin c_wclock c_wait c_pcs]; try done.
  - intros v q [[-> ->]|[[-> ->]|(? & ? & Hv)]]%Hl; [apply (Hsp _ _ Ht)|apply (Hsp _ _ Hu)|by apply Hsp].
  - intros v q [[-> ->]|[[-> ->]|(? & ? & Hv)]]%Hl; [apply (Hwc _ _ Ht)|apply (Hwc _ _ Hu)|by apply Hwc].
  - intros v q [[-> ->]|[[-> ->]|(? & ? & Hv)]]%Hl; [intros _; by apply (Hlk _ _ Ht)|done|by apply Hlk].
  - intros v Hv. apply Has; [by intros ->|by apply Hwt].
  - intros v q [[-> ->]|[[-> ->]|(Hvt & Hvu & Hv)]]%Hl.
    + split; [done|]. intros w Hw. destruct (Hin w) as [Hw1 Hw2]; [by right|]. split; [|done].
      apply Has; [by intros ->|done].
    + split; [apply NoDup_nil_2|by intros w ?%elem_of_nil].
    + destruct (cwaking q) as [|w k] eqn:Eq; [split; [apply NoDup_nil_2|by intros w ?%elem_of_nil]|].
      assert (c_spin s = Some v) by (apply (Hsp _ _ Hv); by destruct q).
      assert (c_spin s = Some t) by (by apply (Hsp _ _ Ht)). congruence.
Qed.
End Invariant.

Section Refinement.
Implicit Types (s : cvstate).

Lemma q_wc_self t p0 p pcs :
  pcs !! t = Some p0 → q_wc (Some t) (<[t := p]> pcs) = match p with CSpinrel | CSleep => [t] | _ => [] end.
Proof. intros Ht. unfold q_wc. rewrite (cmoved_same _ _ _ p Ht). by destruct p. Qed.
Lemma q_spin_self t p0 p pcs :
  pcs !! t = Some p0 → q_spin (Some t) (<[t := p]> pcs) = match p with CWclock => [t] | _ => [] end.
Proof. intros Ht. unfold q_spin. rewrite (cmoved_same _ _ _ p Ht). by destruct p. Qed.
Lemma q_wc_other t p0 p wc pcs :
  pcs !! t = Some p0 → (has_wc p0 = true ↔ wc = Some t) → has_wc p0 = false →
  q_wc wc (<[t := p]> pcs) = q_wc wc pcs.
Proof.
  intros Ht Hw H0. unfold q_wc. destruct wc as [v|]; [|done]. rewrite list_lookup_insert_ne; [done|].
  intros <-. rewrite H0 in Hw. by destruct Hw as [_ Hw]; specialize (Hw eq_refl).
Qed.
Lemma q_spin_other t p0 p sp pcs :
  pcs !! t = Some p0 → (has_spin p0 = true ↔ sp = Some t) → has_spin p0 = false →
  q_spin sp (<[t := p]> pcs) = q_spin sp pcs.
Proof.
  intros Ht Hw H0. unfold q_spin. destruct sp as [v|]; [|done]. rewrite list_lookup_insert_ne; [done|].
  intros <-. rewrite H0 in Hw. by destruct Hw as [_ Hw]; specialize (Hw eq_refl).
Qed.
Lemma q_wc_at t p0 pcs :
  pcs !! t = Some p0 → q_wc (Some t) pcs = match p0 with CSpinrel | CSleep => [t] | _ => [] end.
Proof. intros Ht. unfold q_wc. rewrite Ht. by destruct p0. Qed.
Lemma q_spin_at t p0 pcs :
  pcs !! t = Some p0 → q_spin (Some t) pcs = match p0 with CWclock => [t] | _ => [] end.
Proof. intros Ht. unfold q_spin. rewrite Ht. by destruct p0. Qed.

Lemma cacquire_done h t s r : cacquire h t s = Some (Done r) → h = None ∧ r = s.
Proof. unfold cacquire. destruct h; [case_bool_decide; discriminate|]. by intros [= ->]. Qed.
Lemma crelease_done h t s r : crelease h t s = Some (Done r) → h = Some t ∧ r = s.
Proof. unfold crelease. case_bool_decide; [|discriminate]. by intros [= ->]. Qed.

Ltac cmove p0 Hinv Ht :=
  lazymatch type of Ht with c_pcs ?s !! ?t = _ =>
    apply (cinv_move s t p0); try done; try (by simpl; auto);
      try (by intros _; apply (ci_lock _ Hinv _ _ Ht)); try (by right; right); try (by right; left);
      try (split; [by apply (ci_spin _ Hinv _ _ Ht)|by left]);
      try (split; [by apply (ci_wc _ Hinv _ _ Ht)|by left])
  end.

Lemma cexec_inv s t s' : cinv s → cexec t s = Some (Done s') → cinv s'.
Proof.
  intros Hinv Hex. unfold cexec in Hex. destruct s as [o sp wc w pcs] eqn:Es.
  destruct (pcs !! t) as [p|] eqn:Hp; [|discriminate Hex].
  assert (Ht : c_pcs s !! t = Some p) by (by rewrite Es). rewrite <-Es in Hinv.
  assert (o = c_owner s ∧ sp = c_spin s ∧ wc = c_wclock s ∧ w = c_wait s ∧ pcs = c_pcs s)
    as (-> & -> & -> & -> & ->) by (by rewrite Es).
  destruct p as [| | | | | | | |all|all|all|l|[|u l]|]; try discriminate Hex.
  - apply cacquire_done in Hex as [E ->]. cmove CSpin Hinv Ht.
  - apply crelease_done in Hex as [E ->]. cmove CRelease Hinv Ht.
  - apply cacquire_done in Hex as [E ->]. cmove CWclock Hinv Ht.
  - apply crelease_done in Hex as [E ->]. cmove CSpinrel Hinv Ht.
  - apply crelease_done in Hex as [E ->]. exact (cinv_sleep s t Hinv Ht).
  - destruct (c_owner s) eqn:Eo; [discriminate Hex|]. injection Hex as <-. cmove CReacq Hinv Ht.
  - apply cacquire_done in Hex as [E ->]. cmove (SSpin all) Hinv Ht.
  - apply cacquire_done in Hex as [E ->]. cmove (SWclock all) Hinv Ht.
  - injection Hex as <-. exact (cinv_grab s t all Hinv Ht).
  - apply crelease_done in Hex as [E ->]. cmove (SWcrel l) Hinv Ht.
  - injection Hex as <-. cmove (SRun []) Hinv Ht.
  - destruct (cinv_run s t u l Hinv Ht) as [Hu Hinv']. rewrite bool_decide_true in Hex by done. by injection Hex as <-.
  - apply crelease_done in Hex as [E ->]. cmove SRel Hinv Ht.
Qed.

Lemma cstep_inv s e s' : cinv s → cstep s e s' → cinv s'.
Proof.
  intros Hinv [t Ht Ho|t Ht Ho|t Ht Ho|t Ht Ho|t Ht Ho|t s1 Hex].
  - apply (cinv_owner s t); auto.
  - apply (cinv_owner s t); auto.
  - cmove COut Hinv Ht.
  - cmove COut Hinv Ht.
  - cmove COut Hinv Ht.
  - by eapply cexec_inv.
Qed.

Definition abs s : cvspec := CvSpec (c_owner s) (queued s).

(** Calling changes nothing the specification sees. *)
Lemma queued_call s t p :
  cinv s → c_pcs s !! t = Some COut → queued (set_cpc t p s) = queued s.
Proof.
  intros Hinv Ht. unfold queued, set_cpc. cbn [c_wait c_wclock c_spin c_pcs].
  rewrite (q_wc_other t COut) by (done || apply (ci_wc _ Hinv _ _ Ht)).
  by rewrite (q_spin_other t COut) by (done || apply (ci_spin _ Hinv _ _ Ht)).
Qed.

Ltac qwc p0 Hinv Ht := rewrite (q_wc_other _ p0) by (done || apply (ci_wc _ Hinv _ _ Ht)).
Ltac qspin p0 Hinv Ht := rewrite (q_spin_other _ p0) by (done || apply (ci_spin _ Hinv _ _ Ht)).
Ltac held_spin p0 Hinv Ht :=
  let E := fresh "E" in
  lazymatch type of Ht with c_pcs ?s !! ?t = _ =>
    assert (E : c_spin s = Some t) by (by apply (ci_spin _ Hinv _ _ Ht));
    rewrite E; rewrite (q_spin_at t p0 _ Ht); try rewrite (q_spin_self t p0 _ _ Ht)
  end.
Ltac held_wc p0 Hinv Ht :=
  let E := fresh "E" in
  lazymatch type of Ht with c_pcs ?s !! ?t = _ =>
    assert (E : c_wclock s = Some t) by (by apply (ci_wc _ Hinv _ _ Ht));
    rewrite E; rewrite (q_wc_at t p0 _ Ht); try rewrite (q_wc_self t p0 _ _ Ht)
  end.

(** Each step is a step of the specification, or none. *)
Lemma cexec_refines s t s' :
  cinv s → cexec t s = Some (Done s') → cv_run (cevent_of t s) (abs s) = Some (abs s').
Proof.
  intros Hinv Hex. unfold cexec in Hex. destruct s as [o sp wc w pcs] eqn:Es.
  destruct (pcs !! t) as [p|] eqn:Hp; [|discriminate Hex].
  assert (Ht : c_pcs s !! t = Some p) by (by rewrite Es). rewrite <-Es in Hinv |- *.
  assert (o = c_owner s ∧ sp = c_spin s ∧ wc = c_wclock s ∧ w = c_wait s ∧ pcs = c_pcs s)
    as (-> & -> & -> & -> & ->) by (by rewrite Es). clear Es Hp.
  unfold cevent_of. rewrite Ht. pose proof (ci_lock _ Hinv _ _ Ht) as Hlk.
  destruct p as [| | | | | | | |all|all|all|l|[|u l]|]; try discriminate Hex;
    cbn [cv_run cv_spec]; unfold abs; cbn [cs_owner cs_queue].
  - apply cacquire_done in Hex as [E ->]. unfold queued. cbn [c_owner c_wait c_wclock c_spin c_pcs]. rewrite E.
    qwc CSpin Hinv Ht. by rewrite (q_spin_self t CSpin _ _ Ht).
  - apply crelease_done in Hex as [E ->]. rewrite bool_decide_true by done. unfold queued. cbn [c_owner c_wait c_wclock c_spin c_pcs].
    qwc CRelease Hinv Ht. held_spin CRelease Hinv Ht. by rewrite app_nil_r, <-app_assoc.
  - apply cacquire_done in Hex as [E ->]. unfold queued. cbn [c_owner c_wait c_wclock c_spin c_pcs]. rewrite E.
    held_spin CWclock Hinv Ht. by rewrite (q_wc_self t CWclock _ _ Ht).
  - apply crelease_done in Hex as [E ->]. unfold queued. cbn [c_owner c_wait c_wclock c_spin c_pcs].
    held_spin CSpinrel Hinv Ht. by held_wc CSpinrel Hinv Ht.
  - apply crelease_done in Hex as [E ->]. unfold queued. cbn [c_owner c_wait c_wclock c_spin c_pcs].
    qspin CSleep Hinv Ht. rewrite E, (q_wc_at t CSleep _ Ht). by rewrite <-app_assoc.
  - destruct (c_owner s) eqn:Eo; [discriminate Hex|]. injection Hex as <-. rewrite bool_decide_true by done.
    unfold queued. cbn [c_owner c_wait c_wclock c_spin c_pcs]. qwc CReacq Hinv Ht. by qspin CReacq Hinv Ht.
  - apply cacquire_done in Hex as [E ->]. unfold queued. cbn [c_owner c_wait c_wclock c_spin c_pcs]. rewrite E.
    qwc (SSpin all) Hinv Ht. by rewrite (q_spin_self t (SSpin all) _ _ Ht).
  - apply cacquire_done in Hex as [E ->]. unfold queued. cbn [c_owner c_wait c_wclock c_spin c_pcs]. rewrite E.
    held_spin (SWclock all) Hinv Ht. by rewrite (q_wc_self t (SWclock all) _ _ Ht).
  - injection Hex as <-. unfold queued. cbn [c_owner c_wait c_wclock c_spin c_pcs].
    held_spin (SGrab all) Hinv Ht. held_wc (SGrab all) Hinv Ht. rewrite !app_nil_r. rewrite bool_decide_true by auto. done.
  - apply crelease_done in Hex as [E ->]. unfold queued. cbn [c_owner c_wait c_wclock c_spin c_pcs].
    held_spin (SWcrel l) Hinv Ht. by rewrite E, (q_wc_at t (SWcrel l) _ Ht).
  - injection Hex as <-. unfold queued. cbn [c_owner c_wait c_wclock c_spin c_pcs].
    held_spin (SRun []) Hinv Ht. by qwc (SRun []) Hinv Ht.
  - destruct (cinv_run s t u l Hinv Ht) as [Hu _]. rewrite bool_decide_true in Hex by done. injection Hex as <-.
    unfold queued. cbn [c_owner c_wait c_wclock c_spin c_pcs].
    assert (Hut : u ≠ t) by (intros ->; congruence).
    assert (Ht' : <[u:=CReacq]> (c_pcs s) !! t = Some (SRun (u :: l))) by (by rewrite list_lookup_insert_ne).
    rewrite (q_wc_other t (SRun (u :: l))) by (done || apply (ci_wc _ Hinv _ _ Ht)).
    rewrite (q_wc_other u CAsleep) by (done || apply (ci_wc _ Hinv _ _ Hu)).
    held_spin (SRun (u :: l)) Hinv Ht. by rewrite (q_spin_self t _ _ _ Ht').
  - apply crelease_done in Hex as [E ->]. unfold queued. cbn [c_owner c_wait c_wclock c_spin c_pcs].
    qwc SRel Hinv Ht. by rewrite E, (q_spin_at t SRel _ Ht).
Qed.

Lemma cstep_refines s e s' : cinv s → cstep s e s' → cv_run e (abs s) = Some (abs s').
Proof.
  intros Hinv [t Ht Ho|t Ht Ho|t Ht Ho|t Ht Ho|t Ht Ho|t s1 Hex]; [| | | | |by apply cexec_refines].
  - cbn [cv_run cv_spec]. unfold abs. cbn [cs_owner]. by rewrite bool_decide_true.
  - cbn [cv_run cv_spec]. unfold abs. cbn [cs_owner]. by rewrite bool_decide_true.
  - cbn [cv_run]. unfold abs. by rewrite (queued_call s t).
  - cbn [cv_run]. unfold abs. by rewrite (queued_call s t).
  - cbn [cv_run]. unfold abs. by rewrite (queued_call s t).
Qed.

Lemma cv_run_app es es' a :
  cv_run (es ++ es') a = match cv_run es a with Some a' => cv_run es' a' | None => None end.
Proof. revert a. induction es as [|e es IH]; intros a; simpl; [done|]. by destruct (cv_spec e a). Qed.

Lemma cinit_inv n : cinv (cinit n).
Proof.
  assert (Hl : ∀ t p, replicate n COut !! t = Some p → p = COut) by (by intros t p [-> _]%lookup_replicate).
  split; cbn [cinit c_owner c_spin c_wclock c_wait c_pcs].
  - by intros t p ->%Hl.
  - by intros t p ->%Hl.
  - by intros t p ->%Hl.
  - apply NoDup_nil_2.
  - by intros t ?%elem_of_nil.
  - intros t p ->%Hl. split; [apply NoDup_nil_2|by intros u ?%elem_of_nil].
Qed.

Lemma csteps_inv n es s :
  csteps (cinit n) es s → cinv s ∧ cv_run es (CvSpec None []) = Some (abs s).
Proof.
  intros Hs. remember (cinit n) as s0 eqn:E0. induction Hs as [|s1 es s2 e s3 Hs IH He].
  - subst. split; [by apply cinit_inv|done].
  - destruct (IH E0) as [Hinv Hr]. split; [by eapply cstep_inv|]. rewrite cv_run_app, Hr. by apply cstep_refines.
Qed.

(** No step of the code panics or is undefined. *)
Lemma cexec_safe s t r : cinv s → cexec t s = Some r → ∃ s', r = Done s'.
Proof.
  intros Hinv Hex. unfold cexec in Hex. destruct s as [o sp wc w pcs] eqn:Es.
  destruct (pcs !! t) as [p|] eqn:Hp; [|discriminate Hex].
  assert (Ht : c_pcs s !! t = Some p) by (by rewrite Es). rewrite <-Es in Hinv.
  assert (o = c_owner s ∧ sp = c_spin s ∧ wc = c_wclock s ∧ w = c_wait s ∧ pcs = c_pcs s)
    as (-> & -> & -> & -> & ->) by (by rewrite Es). clear Es Hp.
  pose proof (ci_lock _ Hinv _ _ Ht) as Hlk. pose proof (ci_spin _ Hinv _ _ Ht) as Hsp. pose proof (ci_wc _ Hinv _ _ Ht) as Hwc.
  assert (Hacq : ∀ h s', cacquire h t s' = Some r → h ≠ Some t → ∃ s', r = Done s').
  { intros [u|] s'; simpl; [case_bool_decide; [by subst|discriminate]|intros [= <-]; by eauto]. }
  assert (Hrel : ∀ h s', crelease h t s' = Some r → h = Some t → ∃ s', r = Done s').
  { intros h s'. unfold crelease. intros [= <-] ->. rewrite bool_decide_true by done. by eauto. }
  assert (Hnsp : has_spin p = false → c_spin s ≠ Some t) by (intros E Hb; apply Hsp in Hb; congruence).
  assert (Hnwc : has_wc p = false → c_wclock s ≠ Some t) by (intros E Hb; apply Hwc in Hb; congruence).
  destruct p as [| | | | | | | |all|all|all|l|[|u l]|]; try discriminate Hex;
    try (eapply Hacq; [exact Hex|by apply Hnsp]); try (eapply Hacq; [exact Hex|by apply Hnwc]);
    try (eapply Hrel; [exact Hex|by apply Hsp]); try (eapply Hrel; [exact Hex|by apply Hwc]);
    try (eapply Hrel; [exact Hex|by apply Hlk]); try (injection Hex as <-; by eauto).
  - destruct (c_owner s); [discriminate Hex|]. injection Hex as <-. by eauto.
  - destruct (cinv_run s t u l Hinv Ht) as [Hu _]. rewrite bool_decide_true in Hex by done. injection Hex as <-. by eauto.
Qed.
End Refinement.

(** ** Schedules *)

Inductive caction := ALock (t : nat) | AUnlock (t : nat) | AWait (t : nat) | ASignal (t : nat) (all : bool) | AGo (t : nat).

Definition cact (a : caction) (s : cvstate) : option (list cevent * cvstate) :=
  let at_out t := bool_decide (c_pcs s !! t = Some COut) in
  let owns t := bool_decide (c_owner s = Some t) in
  match a with
  | ALock t =>
      if at_out t && bool_decide (c_owner s = None)
      then Some ([Locks t], CvState (Some t) (c_spin s) (c_wclock s) (c_wait s) (c_pcs s)) else None
  | AUnlock t =>
      if at_out t && owns t
      then Some ([Unlocks t], CvState None (c_spin s) (c_wclock s) (c_wait s) (c_pcs s)) else None
  | AWait t => if at_out t && owns t then Some ([], set_cpc t CSpin s) else None
  | ASignal t all => if at_out t && owns t then Some ([], set_cpc t (SSpin all) s) else None
  | AGo t => match cexec t s with Some (Done s') => Some (cevent_of t s, s') | _ => None end
  end.

Fixpoint crun (l : list caction) (es : list cevent) (s : cvstate) : option (list cevent * cvstate) :=
  match l with
  | [] => Some (es, s)
  | a :: l => match cact a s with Some (e, s') => crun l (es ++ e) s' | None => None end
  end.

Lemma cact_sound a s e s' : cact a s = Some (e, s') → cstep s e s'.
Proof.
  destruct a as [t|t|t|t all|t]; simpl; repeat case_bool_decide; simpl; try done.
  - intros [= <- <-]. by apply user_lock.
  - intros [= <- <-]. by apply user_unlock.
  - intros [= <- <-]. by apply cv_wait.
  - intros [= <- <-]. destruct all; [by apply cv_broadcast|by apply cv_signal].
  - destruct (cexec t s) as [[s1| | |]|] eqn:E; try done. intros [= <- <-]. by apply cgo.
Qed.

Lemma crun_sound l s0 es s es' s' :
  csteps s0 es s → crun l es s = Some (es', s') → csteps s0 es' s'.
Proof.
  revert es s. induction l as [|a l IH]; intros es s Hs; simpl.
  - by intros [= <- <-].
  - destruct (cact a s) as [[e s1]|] eqn:E; [|done]. apply IH. eapply csteps_snoc; [done|]. by apply cact_sound in E.
Qed.

(** C9. Condition variables refine their specification in every interleaving:
    giving up the lock and joining the queue of waiters is one step to every
    other thread, a signal wakes the first waiter and a broadcast all of them,
    in the order they began to wait, no thread that began to wait before the
    signal is missed, and a woken thread returns with the lock.  No step panics
    or is undefined. *)
Theorem condvar_refines_spec (n : nat) es s :
  csteps (cinit n) es s →
  cv_run es (CvSpec None []) = Some (CvSpec (c_owner s) (queued s)) ∧
  ∀ t r, cexec t s = Some r → ∃ s', r = Done s'.
Proof.
  intros Hs. destruct (csteps_inv n es s Hs) as [Hinv Hr]. split; [done|]. intros t r. by apply cexec_safe.
Qed.

(** Threads 0 and 1 wait, 2 broadcasts while 1 is still on its way to the
    channel. *)
Definition cv_schedule : list caction :=
  [ALock 0; AWait 0; AGo 0; AGo 0; AGo 0; AGo 0; AGo 0;
   ALock 1; AWait 1; AGo 1; AGo 1; AGo 1; AGo 1;
   ALock 2; ASignal 2 true; AGo 2; AGo 1; AGo 2; AGo 2; AGo 2; AGo 2; AGo 2; AGo 2; AGo 2; AUnlock 2;
   AGo 1].

Lemma condvar_refines_spec_witness :
  match crun cv_schedule [] (cinit 3) with
  | Some (es, s) =>
      es = [Locks 0; Waits 0; Locks 1; Waits 1; Locks 2; Signals 2 true [0; 1]; Unlocks 2; Locks 1] ∧
      cv_run es (CvSpec None []) = Some (CvSpec (c_owner s) (queued s))
  | None => False
  end.
Proof.
  destruct (crun cv_schedule [] (cinit 3)) as [[es s]|] eqn:E; [|by vm_compute in E].
  assert (Hes : es = [Locks 0; Waits 0; Locks 1; Waits 1; Locks 2; Signals 2 true [0; 1]; Unlocks 2; Locks 1])
    by (vm_compute in E; by injection E as <- _). split; [done|].
  apply (condvar_refines_spec 3 es s). eapply crun_sound; [apply csteps_nil|exact E].
Defined.
