(* ===== verification/KernelHeap.v ===== *)
(** * The kernel heap as its clients see it

    What the rest of the kernel relies on when it calls [kmalloc] and [kfree]
    (kern/vm/kmalloc.c): a successful allocation hands out an address nobody
    holds, a failing one changes nothing, and freeing takes back exactly the
    block it is given.  The
    clients' allocation and error paths are proved against this class;
    [Kmalloc.v] discharges it for the real allocator. *)

From stdpp Require Import base numbers list gmap fin_maps.
From Stdlib Require Import ZArith Lia.
From S2P Require Import Prelude.

Open Scope Z_scope.
Open Scope kernel_scope.

(** Sizes whose rounding up to whole pages does not wrap. *)
Definition heap_size (sz : Z) : Prop := 0 ≤ sz ≤ 2 ^ 31.

Class KernelHeap (H : Type) := {
  kmalloc : Z → K H (option Z);
  kfree : option Z → K H unit;
  heap_ok : H → Prop;
  allocated : H → gset Z;
  kmalloc_some h sz p h' :
    heap_ok h → heap_size sz → kmalloc sz h = Done (Some p, h') →
    heap_ok h' ∧ p ∉ allocated h ∧ allocated h' = {[p]} ∪ allocated h;
  kmalloc_none h sz h' :
    heap_ok h → heap_size sz → kmalloc sz h = Done (None, h') →
    heap_ok h' ∧ allocated h' = allocated h;
  kmalloc_defined h sz :
    heap_ok h → heap_size sz → kmalloc sz h ≠ Undef ∧ kmalloc sz h ≠ Hang;
  kfree_some h p :
    heap_ok h → p ∈ allocated h →
    ∃ h', kfree (Some p) h = Done (tt, h') ∧ heap_ok h' ∧
          allocated h' = allocated h ∖ {[p]};
  kfree_null h : kfree None h = Done (tt, h);
}.

(** ** A reference heap

    The simplest allocator with these laws: fresh addresses from a counter,
    NULL once the budget is used up.  It shows that the laws can hold and
    serves as the heap of the concrete runs. *)

Record refheap := RefHeap { rh_next : Z; rh_budget : nat; rh_live : gset Z }.

Definition ref_kmalloc (sz : Z) : K refheap (option Z) :=
  λ h, match rh_budget h with
       | O => Done (None, h)
       | S n => Done (Some (rh_next h),
                      RefHeap (rh_next h + Z.max 16 sz) n
                              ({[rh_next h]} ∪ rh_live h))
       end.

Definition ref_kfree (p : option Z) : K refheap unit :=
  λ h, match p with
       | None => Done (tt, h)
       | Some p => Done (tt, RefHeap (rh_next h) (rh_budget h) (rh_live h ∖ {[p]}))
       end.

Definition ref_ok (h : refheap) : Prop := ∀ p, p ∈ rh_live h → p < rh_next h.

#[global, program] Instance refheap_heap : KernelHeap refheap := {|
  kmalloc := ref_kmalloc;
  kfree := ref_kfree;
  heap_ok := ref_ok;
  allocated := rh_live;
|}.
Next Obligation.
  unfold ref_ok, ref_kmalloc. intros h sz p h' Hok _ Hm.
  destruct (rh_budget h); simplify_eq; simpl.
  repeat split; [|by intros ?%Hok; lia].
  intros q [->%elem_of_singleton|Hq%Hok]%elem_of_union; lia.
Qed.
Next Obligation.
  unfold ref_kmalloc. intros h sz h' Hok _ Hm.
  by destruct (rh_budget h); simplify_eq.
Qed.
Next Obligation. intros h sz _ _. unfold ref_kmalloc. by destruct (rh_budget h). Qed.
Next Obligation.
  intros h p Hok Hp. eexists. split_and!; [done| |done].
  intros q [Hq _]%elem_of_difference. simpl in *. by apply Hok.
Qed.
Next Obligation. done. Qed.

Definition empty_refheap (budget : nat) : refheap := RefHeap 2147483648 budget ∅.

Lemma empty_refheap_ok n : heap_ok (empty_refheap n).
Proof. intros p Hp. set_solver. Qed.

(** ** What an allocation does, for the clients' proofs *)

Section Clients.
Context {H : Type} {HH : KernelHeap H}.

(** Freeing the block just allocated gives the old set of blocks back. *)
Lemma kfree_after_kmalloc h sz p h1 :
  heap_ok h → heap_size sz → kmalloc sz h = Done (Some p, h1) →
  ∃ h2, kfree (Some p) h1 = Done (tt, h2) ∧ heap_ok h2 ∧
        allocated h2 = allocated h.
Proof.
  intros Hok Hsz Hm.
  destruct (kmalloc_some _ _ _ _ Hok Hsz Hm) as (Hok1 & Hfresh & Hall).
  destruct (kfree_some h1 p Hok1) as (h2 & Hf & Hok2 & Hall2); [set_solver|].
  exists h2. split_and!; [done..|]. rewrite Hall2, Hall. set_solver.
Qed.
End Clients.
