(* ===== verification/Wchan.v ===== *)
(** * Wait channels as objects (kern/thread/thread.c, kern/lib/misc.c)

    Creating and destroying channels and copying their names.  What the
    channel operations do to threads is in Sched.v. *)

From stdpp Require Import base numbers list gmap fin_maps strings.
From Stdlib Require Import ZArith Lia.
From S2P Require Import Prelude KernelHeap.

Open Scope Z_scope.
Open Scope kernel_scope.

(** [wc_threads] is the list of the threads asleep (ThreadList.v shows the
    linked lists to be lists), [wc_lock] the processor that holds the lock. *)
Record wchan := Wchan {
  wc_name : string;
  wc_threads : list Z;
  wc_lock : option nat;
}.

Definition sizeof_wchan : Z := 40.

(** [spinlock_cleanup] on the holder. *)
Definition spin_cleanup {S} (l : option nat) : K S unit := kassert (bool_decide (l = None)).

Section Heap.
Context {H : Type} {HH : KernelHeap H}.

(** A copy of the string, with its address. *)
Definition kstrdup (s : string) : K H (option (Z * string)) :=
  z <- kmalloc (u32 (Z.of_nat (String.length s) + 1)) ;;
  match z with
  | None => kret None
  | Some z => kret (Some (z, s))
  end.

Definition wchan_create (name : string) : K H (option (Z * wchan)) :=
  wc <- kmalloc sizeof_wchan ;;
  match wc with
  | None => kret None
  | Some wc => kret (Some (wc, Wchan name [] None))
  end.

Definition wchan_destroy (wc : Z * wchan) : K H unit :=
  spin_cleanup (wc_lock wc.2) ;;
  kassert (bool_decide (wc_threads wc.2 = [])) ;;
  kfree (Some wc.1).

Definition short_name (s : string) : Prop := Z.of_nat (String.length s) < 2 ^ 31.

Lemma kstrdup_spec h s r h' :
  heap_ok h → short_name s → kstrdup s h = Done (r, h') →
  heap_ok h' ∧ match r with
               | None => allocated h' = allocated h
               | Some (z, s') => s' = s ∧ z ∉ allocated h ∧ allocated h' = {[z]} ∪ allocated h
               end.
Proof.
  intros Hok Hs Hk. unfold short_name in Hs.
  assert (Hsz : heap_size (u32 (Z.of_nat (String.length s) + 1))) by (unfold heap_size; nowrap; lia).
  unfold kstrdup in Hk. apply kbind_Done in Hk as (z & h1 & Hm & Hk). destruct z as [z|]; injection Hk as <- <-.
  - by destruct (kmalloc_some _ _ _ _ Hok Hsz Hm) as (? & ? & ?).
  - by apply (kmalloc_none _ _ _ Hok Hsz Hm).
Qed.

Lemma wchan_create_spec h name r h' :
  heap_ok h → wchan_create name h = Done (r, h') →
  heap_ok h' ∧ match r with
               | None => allocated h' = allocated h
               | Some (p, wc) => wc = Wchan name [] None ∧ p ∉ allocated h ∧ allocated h' = {[p]} ∪ allocated h
               end.
Proof.
  intros Hok Hk. assert (Hsz : heap_size sizeof_wchan) by (unfold heap_size, sizeof_wchan; lia).
  unfold wchan_create in Hk. apply kbind_Done in Hk as (z & h1 & Hm & Hk). destruct z as [z|]; injection Hk as <- <-.
  - by destruct (kmalloc_some _ _ _ _ Hok Hsz Hm) as (? & ? & ?).
  - by apply (kmalloc_none _ _ _ Hok Hsz Hm).
Qed.

(** Destroying an idle channel gives its block back. *)
Lemma wchan_destroy_spec h p name :
  heap_ok h → p ∈ allocated h →
  ∃ h', wchan_destroy (p, Wchan name [] None) h = Done (tt, h') ∧ heap_ok h' ∧
        allocated h' = allocated h ∖ {[p]}.
Proof. intros Hok Hp. unfold wchan_destroy, spin_cleanup. simpl. by apply kfree_some. Qed.
End Heap.
