(* ===== verification/Synch.v ===== *)
(** * Semaphores and locks (kern/thread/synch.c)

    The data of a semaphore and of a lock are instances of [Resource]
    (Blocking.v), so [P] and [lock_acquire] are its waiting code and [V] and
    [lock_release] its giving code, with all interleavings.  Creation and
    destruction work on the kernel heap. *)

From stdpp Require Import base numbers list gmap fin_maps strings.
From Stdlib Require Import ZArith Lia.
From S2P Require Import Prelude KernelHeap Wchan Blocking.

Open Scope Z_scope.
Open Scope kernel_scope.

(** ** Semaphores *)

Record semdata := Sem { sem_count : Z }.

Definition P_take (d : semdata) : outcome semdata :=
  if 0 <? sem_count d then Done (Sem (i32 (sem_count d - 1))) else Panic.
Definition V_give (d : semdata) : outcome semdata :=
  let c := i32 (sem_count d + 1) in
  if 0 <? c then Done (Sem c) else Panic.

Lemma P_take_eq c : 0 < c < 2 ^ 31 → P_take (Sem c) = Done (Sem (c - 1)).
Proof. intros Hc. unfold P_take. cbn [sem_count]. rewrite (proj2 (Z.ltb_lt 0 c)) by lia. by nowrap. Qed.
(** [V] panics where the count would wrap. *)
Lemma V_give_eq c :
  0 ≤ c < 2 ^ 31 → V_give (Sem c) = if c =? 2 ^ 31 - 1 then Panic else Done (Sem (c + 1)).
Proof.
  intros Hc. unfold V_give. cbn [sem_count]. destruct (Z.eqb_spec c (2 ^ 31 - 1)) as [->|].
  - done.
  - rewrite i32_small by lia. by rewrite (proj2 (Z.ltb_lt 0 (c + 1))) by lia.
Qed.

#[global] Instance sem_ops : ResourceOps semdata := {|
  ready d := negb (sem_count d =? 0);
  take _ d := P_take d;
  may_give _ _ := true;
  give _ d := V_give d;
  avail d := Z.to_nat (sem_count d);
  res_ok d := 0 ≤ sem_count d < 2 ^ 31;
|}.

#[global] Instance sem_resource : Resource semdata.
Proof.
  split.
  - intros [c] Hd. cbn in *. destruct (Z.eqb_spec c 0); case_bool_decide; simpl; try done; lia.
  - intros t [c] Hd Hr. cbn in Hd, Hr. apply negb_true_iff, Z.eqb_neq in Hr. exists (Sem (c - 1)).
    split; [by apply P_take_eq; lia|]. cbn. split_and!; [lia..|done].
  - intros t [c] d' Hd _. cbn in Hd. change (V_give (Sem c) = Done d' → res_ok d' ∧ Z.to_nat (sem_count d') = S (Z.to_nat c) ∧ ∀ u : nat, u ≠ t → true = true → true = true).
    rewrite V_give_eq by done. destruct (Z.eqb_spec c (2 ^ 31 - 1)); [done|]. intros [= <-]. cbn. split_and!; [lia..|done].
Qed.

Record semaphore := Semaphore {
  sem_self : Z;
  sem_name : Z * string;
  sem_wchan : Z * wchan;
  sem_lock : option nat;
  sem_data : semdata;
}.
Definition sizeof_semaphore : Z := 20.

(** ** Locks *)

Record lockdata := LockData { is_locked : bool; lk_owner : option nat }.

Definition lock_do_i_hold (t : nat) (d : lockdata) : bool := bool_decide (lk_owner d = Some t).
Definition lock_take (t : nat) (d : lockdata) : outcome lockdata :=
  if is_locked d then Panic else Done (LockData true (Some t)).
Definition lock_give : lockdata := LockData false None.

#[global] Instance lock_ops : ResourceOps lockdata := {|
  ready d := negb (is_locked d);
  take := lock_take;
  may_give := lock_do_i_hold;
  give _ _ := Done lock_give;
  avail d := if is_locked d then 0%nat else 1%nat;
  res_ok d := is_Some (lk_owner d) ↔ is_locked d = true;
|}.

#[global] Instance lock_resource : Resource lockdata.
Proof.
  split.
  - by intros [[] o] Hd.
  - intros t [l o] Hd Hr. cbn in *. apply negb_true_iff in Hr as ->. eexists. split; [done|]. cbn.
    split_and!; [done|done|]. intros u Hu%bool_decide_eq_true. cbn in Hu. destruct Hd as [Hd _]. by discriminate Hd.
  - intros t [l o] d' Hd Hm%bool_decide_eq_true [= <-]. cbn in *. subst o.
    destruct Hd as [Hd _]. rewrite (Hd ltac:(eauto)). split_and!; [by split; [intros []|]|done|].
    intros u Hne Hu%bool_decide_eq_true. cbn in Hu. congruence.
Qed.

Record lock := Lock {
  lk_self : Z;
  lk_name : Z * string;
  lk_wchan : Z * wchan;
  lk_spinlock : option nat;
  lk_data : lockdata;
}.
Definition sizeof_lock : Z := 24.

Record cv := Cv {
  cv_self : Z;
  cv_name : Z * string;
  cv_wchan : Z * wchan;
  cv_spinlock : option nat;
}.
Definition sizeof_cv : Z := 16.

(** ** Creating and destroying *)

Lemma small_size z : bool_decide (0 ≤ z ≤ 2 ^ 31) = true → heap_size z.
Proof. apply bool_decide_eq_true. Qed.

Section Create.
Context {H : Type} {HH : KernelHeap H}.

Definition sem_create (name : string) (initial_count : Z) : K H (option semaphore) :=
  kassert (0 <=? initial_count) ;;
  sem <- kmalloc sizeof_semaphore ;;
  match sem with
  | None => kret None
  | Some sem =>
      sem_name <- kstrdup name ;;
      match sem_name with
      | None => kfree (Some sem) ;; kret None
      | Some sem_name =>
          sem_wchan <- wchan_create sem_name.2 ;;
          match sem_wchan with
          | None => kfree (Some sem_name.1) ;; kfree (Some sem) ;; kret None
          | Some sem_wchan => kret (Some (Semaphore sem sem_name sem_wchan None (Sem initial_count)))
          end
      end
  end.

Definition sem_destroy (sem : semaphore) : K H unit :=
  spin_cleanup (sem_lock sem) ;;
  wchan_destroy (sem_wchan sem) ;;
  kfree (Some (sem_name sem).1) ;;
  kfree (Some (sem_self sem)).

(** [owner] is what the block held where [lk_owner] is: nothing sets it. *)
Definition lock_create (owner : option nat) (name : string) : K H (option lock) :=
  lock <- kmalloc sizeof_lock ;;
  match lock with
  | None => kret None
  | Some lock =>
      lk_name <- kstrdup name ;;
      match lk_name with
      | None => kfree (Some lock) ;; kret None
      | Some lk_name =>
          lk_wchan <- wchan_create lk_name.2 ;;
          match lk_wchan with
          | None => kfree (Some lk_name.1) ;; kfree (Some lock) ;; kret None
          | Some lk_wchan => kret (Some (Lock lock lk_name lk_wchan None (LockData false owner)))
          end
      end
  end.

Definition lock_destroy (lock : lock) : K H unit :=
  spin_cleanup (lk_spinlock lock) ;;
  wchan_destroy (lk_wchan lock) ;;
  kfree (Some (lk_name lock).1) ;;
  kfree (Some (lk_self lock)).

Definition cv_create (name : string) : K H (option cv) :=
  cv <- kmalloc sizeof_cv ;;
  match cv with
  | None => kret None
  | Some cv =>
      cv_name <- kstrdup name ;;
      match cv_name with
      | None => kfree (Some cv) ;; kret None
      | Some cv_name =>
          cv_wchan <- wchan_create cv_name.2 ;;
          match cv_wchan with
          | None => kfree (Some cv_name.1) ;; kfree (Some cv) ;; kret None
          | Some cv_wchan => kret (Some (Cv cv cv_name cv_wchan None))
          end
      end
  end.

Definition cv_destroy (cv : cv) : K H unit :=
  spin_cleanup (cv_spinlock cv) ;;
  wchan_destroy (cv_wchan cv) ;;
  kfree (Some (cv_name cv).1) ;;
  kfree (Some (cv_self cv)).

(** The three constructors are one: a block, a copy of the name, a channel. *)
Definition create_named {A} (size : Z) (name : string) (mk : Z → Z * string → Z * wchan → A) : K H (option A) :=
  p <- kmalloc size ;;
  match p with
  | None => kret None
  | Some p =>
      n <- kstrdup name ;;
      match n with
      | None => kfree (Some p) ;; kret None
      | Some n =>
          w <- wchan_create n.2 ;;
          match w with
          | None => kfree (Some n.1) ;; kfree (Some p) ;; kret None
          | Some w => kret (Some (mk p n w))
          end
      end
  end.

(** And so are the destructors. *)
Definition destroy_named (l : option nat) (w : Z * wchan) (n p : Z) : K H unit :=
  spin_cleanup l ;; wchan_destroy w ;; kfree (Some n) ;; kfree (Some p).

Lemma destroy_named_spec h p n w name :
  heap_ok h → p ∈ allocated h → n ∈ allocated h → w ∈ allocated h → p ≠ n → p ≠ w → n ≠ w →
  ∃ h', destroy_named None (w, Wchan name [] None) n p h = Done (tt, h') ∧ heap_ok h' ∧
        allocated h' = allocated h ∖ {[p; n; w]}.
Proof.
  intros Hok Hp Hn Hw H1 H2 H3. unfold destroy_named, spin_cleanup. cbn [bool_decide].
  rewrite step_assert by done. destruct (wchan_destroy_spec h w name Hok Hw) as (h1 & E1 & Hok1 & Ha1). kcall E1.
  destruct (kfree_some h1 n Hok1) as (h2 & E2 & Hok2 & Ha2); [set_solver|]. kcall E2.
  destruct (kfree_some h2 p Hok2) as (h3 & E3 & Hok3 & Ha3); [set_solver|]. exists h3.
  split_and!; [done..|]. rewrite Ha3, Ha2, Ha1. set_solver.
Qed.

(** Either the three blocks are new, or the heap is as it was. *)
Lemma create_named_spec {A} size name (mk : Z → Z * string → Z * wchan → A) h r h' :
  heap_ok h → heap_size size → short_name name → create_named size name mk h = Done (r, h') →
  heap_ok h' ∧
  match r with
  | None => allocated h' = allocated h
  | Some a => ∃ p n w, a = mk p (n, name) (w, Wchan name [] None) ∧
      {[p; n; w]} ## allocated h ∧ p ≠ n ∧ p ≠ w ∧ n ≠ w ∧ allocated h' = {[p; n; w]} ∪ allocated h
  end.
Proof.
  intros Hok Hsz Hname Hc. unfold create_named in Hc.
  apply kbind_Done in Hc as (p & h1 & Hm & Hc). destruct p as [p|]; [|injection Hc as <- <-; by apply (kmalloc_none _ _ _ Hok Hsz Hm)].
  destruct (kmalloc_some _ _ _ _ Hok Hsz Hm) as (Hok1 & Hf1 & Ha1).
  apply kbind_Done in Hc as (n & h2 & Hn & Hc). destruct (kstrdup_spec _ _ _ _ Hok1 Hname Hn) as [Hok2 Hn2].
  destruct n as [[n s]|].
  - destruct Hn2 as (-> & Hf2 & Ha2). apply kbind_Done in Hc as (w & h3 & Hw & Hc).
    destruct (wchan_create_spec _ _ _ _ Hok2 Hw) as [Hok3 Hw3]. destruct w as [[w wc]|].
    + destruct Hw3 as (-> & Hf3 & Ha3). injection Hc as <- <-. split; [done|]. exists p, n, w.
      rewrite Ha3, Ha2, Ha1 in *. split_and!; [done|set_solver..].
    + simpl in Hc. destruct (kfree_some h3 n Hok3) as (h4 & E4 & Hok4 & Ha4); [set_solver|]. revert Hc. kcall E4.
      destruct (kfree_some h4 p Hok4) as (h5 & E5 & Hok5 & Ha5); [set_solver|]. kcall E5. intros [= <- <-].
      split; [done|]. rewrite Ha5, Ha4, Hw3, Ha2, Ha1. set_solver.
  - destruct (kfree_some h2 p Hok2) as (h3 & E3 & Hok3 & Ha3); [set_solver|]. revert Hc. kcall E3.
    intros [= <- <-]. split; [done|]. rewrite Ha3, Hn2, Ha1. set_solver.
Qed.

(** Creating and destroying again. *)
Lemma create_destroy {A} size name (mk : Z → Z * string → Z * wchan → A) (destroy : A → K H unit) h r h' :
  heap_ok h → heap_size size → short_name name → create_named size name mk h = Done (r, h') →
  (∀ p n w, destroy (mk p n w) = destroy_named None w n.1 p) →
  heap_ok h' ∧
  match r with
  | None => allocated h' = allocated h
  | Some a => ∃ h'', destroy a h' = Done (tt, h'') ∧ heap_ok h'' ∧ allocated h'' = allocated h
  end.
Proof.
  intros Hok Hsz Hname Hc Hd. destruct (create_named_spec _ _ _ _ _ _ Hok Hsz Hname Hc) as [Hok' Hr]. split; [done|].
  destruct r as [a|]; [|done]. destruct Hr as (p & n & w & -> & Hdis & H1 & H2 & H3 & Ha). rewrite Hd. cbn [fst].
  destruct (destroy_named_spec h' p n w name Hok') as (h'' & E & Hok'' & Ha''); [set_solver..|done|done|done|].
  exists h''. split_and!; [done..|]. rewrite Ha'', Ha. set_solver.
Qed.
End Create.

(** ** What the creators promise *)

(** Creating a semaphore, a lock or a condition variable takes three new
    blocks or, when any of the allocations fails, leaves the set of allocated
    blocks as it was; destroying the unused object gives exactly those blocks
    back. *)
Theorem create_destroy_balanced {H} {HH : KernelHeap H} (h : H) name c owner :
  heap_ok h → short_name name →
  (∀ r h', sem_create name c h = Done (r, h') →
     heap_ok h' ∧
     match r with
     | None => allocated h' = allocated h
     | Some a => sem_data a = Sem c ∧
         ∃ h'', sem_destroy a h' = Done (tt, h'') ∧ heap_ok h'' ∧ allocated h'' = allocated h
     end) ∧
  (∀ r h', lock_create owner name h = Done (r, h') →
     heap_ok h' ∧
     match r with
     | None => allocated h' = allocated h
     | Some a => lk_data a = LockData false owner ∧
         ∃ h'', lock_destroy a h' = Done (tt, h'') ∧ heap_ok h'' ∧ allocated h'' = allocated h
     end) ∧
  (∀ r h', cv_create name h = Done (r, h') →
     heap_ok h' ∧
     match r with
     | None => allocated h' = allocated h
     | Some a => ∃ h'', cv_destroy a h' = Done (tt, h'') ∧ heap_ok h'' ∧ allocated h'' = allocated h
     end).
Proof.
  intros Hok Hname. split_and!; intros r h' Hc.
  - unfold sem_create in Hc. apply kbind_Done in Hc as ([] & h1 & [_ <-]%kassert_Done & Hc).
    change (create_named sizeof_semaphore name (λ p n w, Semaphore p n w None (Sem c)) h = Done (r, h')) in Hc.
    destruct (create_named_spec _ _ _ _ _ _ Hok (small_size sizeof_semaphore ltac:(done)) Hname Hc) as [_ Hr].
    destruct (create_destroy _ _ _ sem_destroy _ _ _ Hok (small_size sizeof_semaphore ltac:(done)) Hname Hc (λ _ _ _, eq_refl)) as [Hok' Hr']. split; [done|].
    destruct r as [a|]; [|done]. split; [|done]. by destruct Hr as (? & ? & ? & -> & _).
  - change (create_named sizeof_lock name (λ p n w, Lock p n w None (LockData false owner)) h = Done (r, h')) in Hc.
    destruct (create_named_spec _ _ _ _ _ _ Hok (small_size sizeof_lock ltac:(done)) Hname Hc) as [_ Hr].
    destruct (create_destroy _ _ _ lock_destroy _ _ _ Hok (small_size sizeof_lock ltac:(done)) Hname Hc (λ _ _ _, eq_refl)) as [Hok' Hr']. split; [done|].
    destruct r as [a|]; [|done]. split; [|done]. by destruct Hr as (? & ? & ? & -> & _).
  - change (create_named sizeof_cv name (λ p n w, Cv p n w None) h = Done (r, h')) in Hc.
    by apply (create_destroy _ _ _ cv_destroy _ _ _ Hok (small_size sizeof_cv ltac:(done)) Hname Hc (λ _ _ _, eq_refl)).
Qed.

(** The third allocation fails: nothing is left behind. *)
Lemma create_destroy_balanced_witness :
  match sem_create "tty" 1 (empty_refheap 2) with
  | Done (r, h') => r = None ∧ allocated h' = ∅
  | _ => False
  end.
Proof.
  destruct (sem_create "tty" 1 (empty_refheap 2)) as [[r h']| | |] eqn:E; [|by vm_compute in E..].
  pose proof (create_destroy_balanced (empty_refheap 2) "tty" 1 None (empty_refheap_ok 2) ltac:(done)) as (Hs & _ & _).
  destruct (Hs _ _ E) as [_ Hr].
  assert (Hn : r = None) by (vm_compute in E; by injection E as <- _). split; [done|]. rewrite Hn in Hr. exact Hr.
Defined.

(** ** Semaphores under all interleavings *)

(** C18. From a semaphore created with count [c], whatever [n] threads do with
    [P] and [V] in any interleaving of their steps, the count is [c] plus the
    number of [V]s done minus the number of [P]s done and stays in the range of
    a positive int, so no more [P]s complete than [c] plus the [V]s; no step is undefined, and
    the only assertion that can fail is the one in [V] when the count would
    pass 2^31 - 1. *)
Theorem semaphore_counts (n : nat) (c : Z) es s :
  0 ≤ c < 2 ^ 31 → bsteps (binit n (Sem c)) es s →
  sem_count (b_data s) = c + Z.of_nat (given es) - Z.of_nat (taken es) ∧
  0 ≤ sem_count (b_data s) < 2 ^ 31 ∧
  ∀ t r, exec t s = Some r →
    (∃ s', r = Done s') ∨ (r = Panic ∧ b_pcs s !! t = Some GGive ∧ sem_count (b_data s) = 2 ^ 31 - 1).
Proof.
  intros Hc Hs. assert (H0 : res_ok (Sem c)) by done. destruct (bsteps_inv n (Sem c) es s H0 Hs) as [Hinv Hav]. pose proof (bi_ok _ Hinv) as Hok.
  cbn in Hav, Hok. split_and!; [lia..|]. intros t r Hex.
  destruct (exec_panics _ _ _ Hinv Hex) as [|[Hg Hd]]; [by left|right].
  unfold exec in Hex. rewrite Hg in Hex. destruct (b_data s) as [k] eqn:Ek. cbn in Hok. cbn [sem_count].
  pose proof (V_give_eq k Hok) as Hv. unfold on_data in Hex.
  change (give t (Sem k)) with (V_give (Sem k)) in Hex. rewrite Hv in Hex.
  destruct (Z.eqb_spec k (2 ^ 31 - 1)); [by injection Hex as <-|].
  destruct (Hd (Sem (k + 1))). exact Hv.
Qed.

(** Thread 0 sleeps in [P], thread 1 does [V], thread 0 goes on. *)
Definition sem_schedule : list baction :=
  [CallWait 0; Go 0; Go 0; Go 0; Go 0; Go 0;
   CallGive 1; Go 1; Go 1; Go 1; Go 1; Go 1; Go 1; Go 1;
   Go 0; Go 0; Go 0; Go 0].

Lemma semaphore_counts_witness :
  match brun sem_schedule [] (binit 2 (Sem 0)) with
  | Some (es, s) => es = [Gave 1; Took 0] ∧ sem_count (b_data s) = 0 + Z.of_nat (given es) - Z.of_nat (taken es)
  | None => False
  end.
Proof.
  destruct (brun sem_schedule [] (binit 2 (Sem 0))) as [[es s]|] eqn:E; [|by vm_compute in E].
  assert (Hes : es = [Gave 1; Took 0]) by (vm_compute in E; by injection E as <- _). split; [done|].
  apply (semaphore_counts 2 0 es s); [lia|]. eapply brun_sound; [apply bsteps_nil|exact E].
Defined.

(** ** Locks under all interleavings *)

(** The lock as its users see it: the events must alternate, each release by
    the thread that took it.  The result is the holder. *)
Fixpoint run_lock (h : option nat) (es : list event) : option (option nat) :=
  match es with
  | [] => Some h
  | Took t :: es => match h with None => run_lock (Some t) es | Some _ => None end
  | Gave t :: es =>
      match h with
      | Some u => if bool_decide (t = u) then run_lock None es else None
      | None => None
      end
  end.

Lemma run_lock_app h es es' :
  run_lock h (es ++ es') = match run_lock h es with Some h' => run_lock h' es' | None => None end.
Proof.
  revert h. induction es as [|[t|t] es IH]; intros h; simpl; [done|..]; destruct h as [u|]; try done.
  by case_bool_decide.
Qed.

Lemma lock_step_refines s e s' :
  binv s → bstep s e s' → run_lock (lk_owner (b_data s)) e = Some (lk_owner (b_data s')).
Proof.
  intros Hinv [t Ht|t Ht Hg|t s1 Hex]; [done..|]. unfold event_of, exec in *.
  destruct (b_pcs s !! t) as [p|] eqn:Ht; [|discriminate Hex].
  pose proof (bi_ready _ Hinv _ _ Ht) as (Hr1 & _ & Hr3). pose proof (bi_ok _ Hinv) as Hok.
  destruct p as [| | | | | | | | | | | | | | |o|[u|]|]; try discriminate Hex;
    try (apply acquire_done in Hex as [_ ->]; done); try (apply release_done in Hex as [_ ->]; done);
    try (injection Hex as <-; done).
  - apply on_data_done in Hex as (d & Ed & ->). specialize (Hr1 eq_refl). cbn in Hr1, Hok, Ed.
    apply negb_true_iff in Hr1. unfold lock_take in Ed. rewrite Hr1 in Ed. injection Ed as <-.
    simpl. destruct (lk_owner (b_data s)); [|done]. rewrite Hr1 in Hok. destruct Hok as [Hok _]. by discriminate Hok.
  - apply on_data_done in Hex as (d & Ed & ->). specialize (Hr3 eq_refl). apply bool_decide_eq_true in Hr3.
    injection Ed as <-. simpl. rewrite Hr3. by rewrite bool_decide_true.
  - injection Hex as <-. by destruct (b_wait s).
  - case_bool_decide; [|discriminate Hex]. by injection Hex as <-.
Qed.

(** C6. From a new lock whose uninitialised owner is no thread, in any
    interleaving, acquisitions and releases alternate and each release is by
    the thread that acquired: at most one thread holds the lock.  [is_locked]
    and [lk_owner] always name that holder, and no step panics or is
    undefined. *)
Theorem lock_excludes (n : nat) es s :
  bsteps (binit n (LockData false None)) es s →
  run_lock None es = Some (lk_owner (b_data s)) ∧
  (is_locked (b_data s) = true ↔ is_Some (lk_owner (b_data s))) ∧
  ∀ t r, exec t s = Some r → ∃ s', r = Done s'.
Proof.
  intros Hs. assert (H0 : res_ok (LockData false None)) by (by split; [intros []|]).
  destruct (bsteps_inv _ _ _ _ H0 Hs) as [Hinv _]. split_and!.
  - remember (binit n (LockData false None)) as s0 eqn:E0. clear Hinv.
    induction Hs as [|s1 es s2 e s3 Hs IH He]; [by subst|].
    destruct (bsteps_inv n _ es s2 H0 ltac:(by subst)) as [Hinv2 _].
    rewrite run_lock_app, (IH E0). by apply lock_step_refines.
  - symmetry. apply (bi_ok _ Hinv).
  - intros t r Hex. destruct (exec_panics _ _ _ Hinv Hex) as [|[_ Hd]]; [done|]. by destruct (Hd lock_give).
Qed.

(** Two threads compete: 1 sleeps until 0 releases. *)
Definition lock_schedule : list baction :=
  [CallWait 0; Go 0; Go 0; Go 0; Go 0;
   CallWait 1; Go 1; Go 1; Go 1; Go 1; Go 1;
   CallGive 0; Go 0; Go 0; Go 0; Go 0; Go 0; Go 0; Go 0;
   Go 1; Go 1; Go 1; Go 1].

Lemma lock_excludes_witness :
  match brun lock_schedule [] (binit 2 (LockData false None)) with
  | Some (es, s) =>
      es = [Took 0; Gave 0; Took 1] ∧ run_lock None es = Some (lk_owner (b_data s)) ∧
      lk_owner (b_data s) = Some 1%nat
  | None => False
  end.
Proof.
  destruct (brun lock_schedule [] (binit 2 (LockData false None))) as [[es s]|] eqn:E; [|by vm_compute in E].
  assert (Hes : es = [Took 0; Gave 0; Took 1] ∧ lk_owner (b_data s) = Some 1%nat)
    by (vm_compute in E; by injection E as <- <-).
  split; [apply Hes|]. split; [|apply Hes].
  apply (lock_excludes 2 es s). eapply brun_sound; [apply bsteps_nil|exact E].
Defined.

(** ** Nobody sleeps for nothing *)

(** C8. No lost wakeup and no deadlock inside the primitives: in every
    reachable state, as long as some thread is in the code and not asleep on
    the channel, some thread can make a step; and once all threads are outside
    or asleep, the sleepers have nothing to take, the count is 0 or the lock is
    held. *)
Theorem sleepers_have_a_reason (n : nat) (c : Z) :
  0 ≤ c < 2 ^ 31 →
  (∀ es s, bsteps (binit n (Sem c)) es s →
     (¬ quiet s → ∃ t r, exec t s = Some r) ∧
     (∀ t, quiet s → b_pcs s !! t = Some WAsleep → sem_count (b_data s) = 0)) ∧
  (∀ es s, bsteps (binit n (LockData false None)) es s →
     (¬ quiet s → ∃ t s', exec t s = Some (Done s')) ∧
     (∀ t, quiet s → b_pcs s !! t = Some WAsleep → ∃ u, lk_owner (b_data s) = Some u)).
Proof.
  intros Hc. split; intros es s Hs.
  - assert (H0 : res_ok (Sem c)) by done. destruct (bsteps_inv n (Sem c) es s H0 Hs) as [Hinv _]. split; [by apply bprogress|].
    intros t Hq Ht. pose proof (quiet_avail _ _ Hinv Hq Ht) as Ha. pose proof (bi_ok _ Hinv) as Hok. cbn in Ha, Hok. lia.
  - assert (H0 : res_ok (LockData false None)) by (by split; [intros []|]).
    destruct (bsteps_inv _ _ _ _ H0 Hs) as [Hinv _]. split.
    + intros Hq. destruct (bprogress _ Hinv Hq) as (t & r & Hex). exists t.
      destruct (exec_panics _ _ _ Hinv Hex) as [[s' ->]|[_ Hd]]; [by eauto|]. by destruct (Hd lock_give).
    + intros t Hq Ht. pose proof (quiet_avail _ _ Hinv Hq Ht) as Ha. pose proof (bi_ok _ Hinv) as Hok. cbn in Ha, Hok.
      destruct (is_locked (b_data s)); [|done]. by apply Hok.
Qed.

Lemma sleepers_have_a_reason_witness :
  match brun (firstn 6 sem_schedule) [] (binit 2 (Sem 0)) with
  | Some (es, s) => b_pcs s = [WAsleep; Outside] ∧ sem_count (b_data s) = 0
  | None => False
  end.
Proof.
  destruct (brun (firstn 6 sem_schedule) [] (binit 2 (Sem 0))) as [[es s]|] eqn:E; [|by vm_compute in E].
  assert (Hp : b_pcs s = [WAsleep; Outside]) by (vm_compute in E; by injection E as _ <-). split; [done|].
  apply (proj2 (proj1 (sleepers_have_a_reason 2 0 ltac:(lia)) es s
    (brun_sound _ _ _ _ _ _ (bsteps_nil _) E)) 0%nat).
  - intros t p. rewrite Hp. destruct t as [|[|t]]; intros [= <-]; by auto.
  - by rewrite Hp.
Defined.
