(* ===== verification/Bitmap.v ===== *)
(** * Bitmaps (kern/lib/bitmap.c)

    A fixed-size array of bits kept in bytes, used for storage management.
    [bitmap] is the C structure with the buffer it owns; the operations follow
    the C functions loop by loop.  The abstract view of a bitmap is the set of
    marked indices, [bm_set]; the theorems show that allocation hands out the
    least free index, that marking and unmarking are the set operations, and
    that the padding bits of the last byte are never handed out. *)

From stdpp Require Import base numbers list gmap fin_maps.
From Stdlib Require Import ZArith Lia.
From S2P Require Import Prelude KernelHeap.

Open Scope Z_scope.
Open Scope kernel_scope.

Definition BITS_PER_WORD : Z := 8.
Definition WORD_ALLBITS : Z := 255.

Record bitmap := Bitmap {
  bm_addr : Z;       (* address of the structure *)
  bm_vaddr : Z;      (* address of its buffer *)
  nbits : Z;
  v : list Z;        (* the buffer, a byte per element *)
}.

Definition set_v (w : list Z) (b : bitmap) : bitmap :=
  Bitmap (bm_addr b) (bm_vaddr b) (nbits b) w.

(** [b->v[ix]], read and written. *)
Definition get_word (ix : Z) : K bitmap Z :=
  b <- kget ;;
  kderef (v b !! Z.to_nat ix).

Definition put_word (ix w : Z) : K bitmap unit :=
  _ <- get_word ix ;;
  kmodify (λ b, set_v (<[Z.to_nat ix := u8 w]> (v b)) b).

(** The bits past [nbits] in the last byte are marked in use:
    [for (j=overbits; j<BITS_PER_WORD; j++) b->v[ix] |= 1 << j]. *)
Fixpoint mark_overbits (ix : Z) (js : list Z) : K bitmap unit :=
  match js with
  | [] => kret tt
  | j :: js =>
      w <- get_word ix ;;
      put_word ix (Z.lor w (u8 (Z.shiftl 1 j))) ;;
      mark_overbits ix js
  end.

(** The part of [bitmap_create] after the two allocations. *)
Definition bitmap_init : K bitmap unit :=
  b <- kget ;;
  let nbits := nbits b in
  let words := DIVROUNDUP nbits BITS_PER_WORD in
  if nbits / BITS_PER_WORD <? words then
    let ix := u32 (words - 1) in
    let overbits := u32 (nbits - ix * BITS_PER_WORD) in
    kassert (nbits / BITS_PER_WORD =? u32 (words - 1)) ;;
    kassert ((0 <? overbits) && (overbits <? BITS_PER_WORD)) ;;
    mark_overbits ix (seqZ overbits (BITS_PER_WORD - overbits))
  else kret tt.

(** [for (offset = 0; offset < BITS_PER_WORD; offset++)] in [bitmap_alloc];
    [None] when the loop falls through. *)
Fixpoint scan_bits (ix : Z) (offsets : list Z) : K bitmap (option Z) :=
  match offsets with
  | [] => kret None
  | offset :: offsets =>
      w <- get_word ix ;;
      let mask := u8 (Z.shiftl 1 offset) in
      if Z.land w mask =? 0 then
        put_word ix (Z.lor w mask) ;;
        let index := u32 (ix * BITS_PER_WORD + offset) in
        n <- kgets nbits ;;
        kassert (index <? n) ;;
        kret (Some index)
      else scan_bits ix offsets
  end.

(** [for (ix=0; ix<maxix; ix++)]; the result is [inl] an error or [inr] the
    index stored through the [index] pointer. *)
Fixpoint scan_words (ixs : list Z) : K bitmap (Z + Z) :=
  match ixs with
  | [] => kret (inl ENOSPC)
  | ix :: ixs =>
      w <- get_word ix ;;
      if negb (w =? WORD_ALLBITS) then
        r <- scan_bits ix (seqZ 0 BITS_PER_WORD) ;;
        match r with
        | Some index => kret (inr index)
        | None => kpanic (* KASSERT(0) *)
        end
      else scan_words ixs
  end.

Definition bitmap_alloc : K bitmap (Z + Z) :=
  b <- kget ;;
  let maxix := DIVROUNDUP (nbits b) BITS_PER_WORD in
  scan_words (seqZ 0 maxix).

Definition bitmap_translate (bitno : Z) : Z * Z :=
  let ix := bitno / BITS_PER_WORD in
  let offset := bitno mod BITS_PER_WORD in
  (ix, u8 (Z.shiftl 1 offset)).

Definition bitmap_mark (index : Z) : K bitmap unit :=
  b <- kget ;;
  kassert (index <? nbits b) ;;
  let '(ix, mask) := bitmap_translate index in
  w <- get_word ix ;;
  kassert (Z.land w mask =? 0) ;;
  put_word ix (Z.lor w mask).

Definition bitmap_unmark (index : Z) : K bitmap unit :=
  b <- kget ;;
  kassert (index <? nbits b) ;;
  let '(ix, mask) := bitmap_translate index in
  w <- get_word ix ;;
  kassert (negb (Z.land w mask =? 0)) ;;
  put_word ix (Z.land w (Z.lnot mask)).

Definition bitmap_isset (index : Z) : K bitmap Z :=
  let '(ix, mask) := bitmap_translate index in
  w <- get_word ix ;;
  kret (Z.land w mask).

Definition bitmap_getdata : K bitmap (list Z) := kgets v.

Section Create.
Context {H : Type} {HH : KernelHeap H}.

Definition bitmap_create (nbits : Z) : K H (option bitmap) :=
  let words := DIVROUNDUP nbits BITS_PER_WORD in
  b <- kmalloc 8 (* sizeof(struct bitmap) *) ;;
  match b with
  | None => kret None
  | Some b =>
      vp <- kmalloc words ;;
      match vp with
      | None => kfree (Some b) ;; kret None
      | Some vp =>
          λ h,
            match bitmap_init (Bitmap b vp nbits (replicate (Z.to_nat words) 0)) with
            | Done (_, bm) => Done (Some bm, h)
            | Panic => Panic
            | Undef => Undef
            | Hang => Hang
            end
      end
  end.

Definition bitmap_destroy (b : bitmap) : K H unit :=
  kfree (Some (bm_vaddr b)) ;;
  kfree (Some (bm_addr b)).
End Create.

(** ** The abstract view *)

Definition bit_at (w : list Z) (i : Z) : bool :=
  Z.testbit (w !!! Z.to_nat (i / 8)) (i mod 8).

(** The indices in use. *)
Definition bm_set (b : bitmap) : gset Z :=
  list_to_set (filter (λ i, bit_at (v b) i = true) (seqZ 0 (nbits b))).

(** What allocation is to return: the least index of [0..n) not in [X]. *)
Definition first_free (n : Z) (X : gset Z) : option Z :=
  head (filter (λ i, i ∉ X) (seqZ 0 n)).

(** Well-formed: the buffer has the length [bitmap_create] gave it, holds
    bytes, and every padding bit is marked. *)
Record bm_wf (b : bitmap) : Prop := {
  wf_nbits : 0 ≤ nbits b < 2 ^ 32 - 8;
  wf_length : Z.of_nat (length (v b)) = (nbits b + 7) / 8;
  wf_bytes : Forall (λ w, 0 ≤ w < 256) (v b);
  wf_padding i : nbits b ≤ i < 8 * Z.of_nat (length (v b)) → bit_at (v b) i = true;
}.

Definition set_bit (i : Z) (b : bitmap) : bitmap :=
  set_v (<[Z.to_nat (i / 8) :=
          u8 (Z.lor (v b !!! Z.to_nat (i / 8)) (u8 (Z.shiftl 1 (i mod 8))))]> (v b)) b.

Definition clear_bit (i : Z) (b : bitmap) : bitmap :=
  set_v (<[Z.to_nat (i / 8) :=
          u8 (Z.land (v b !!! Z.to_nat (i / 8))
                     (Z.lnot (u8 (Z.shiftl 1 (i mod 8)))))]> (v b)) b.

Section Facts.
Implicit Types (b : bitmap) (w : list Z) (i : Z).

Lemma index_split i : 0 ≤ i → i = 8 * (i / 8) + i mod 8 ∧ 0 ≤ i mod 8 < 8.
Proof. intros. Z.to_euclidean_division_equations. lia. Qed.

Lemma index_join ix k : 0 ≤ k < 8 → (8 * ix + k) / 8 = ix ∧ (8 * ix + k) mod 8 = k.
Proof. intros. Z.to_euclidean_division_equations. lia. Qed.

Lemma mask_small k : 0 ≤ k < 8 → u8 (Z.shiftl 1 k) = Z.shiftl 1 k.
Proof.
  intros. apply u8_small. rewrite Z.shiftl_1_l.
  pose proof (Z.pow_pos_nonneg 2 k). pose proof (Z.pow_lt_mono_r 2 k 8). lia.
Qed.

Lemma byte_full x :
  0 ≤ x < 256 → (∀ k, 0 ≤ k < 8 → Z.testbit x k = true) → x = 255.
Proof.
  intros Hx Hk. change 255 with (Z.ones 8). apply Z.bits_inj'. intros n Hn.
  destruct (decide (n < 8)).
  - rewrite Hk by lia. by rewrite Z.ones_spec_low by lia.
  - rewrite Z.ones_spec_high by lia. rewrite <- (u8_small x) by lia.
    apply testbit_u8_high. lia.
Qed.

Lemma byte_full_bits k : 0 ≤ k < 8 → Z.testbit 255 k = true.
Proof. intros. change 255 with (Z.ones 8). by rewrite Z.ones_spec_low by lia. Qed.

Lemma bit_at_insert w ix x i :
  (Z.to_nat ix < length w)%nat → 0 ≤ ix → 0 ≤ i →
  bit_at (<[Z.to_nat ix := x]> w) i =
  if i / 8 =? ix then Z.testbit x (i mod 8) else bit_at w i.
Proof.
  intros Hn Hix Hi. unfold bit_at. pose proof (Z.div_pos i 8 Hi).
  destruct (Z.eqb_spec (i / 8) ix) as [<-|E].
  - by rewrite list_lookup_total_insert_eq.
  - by rewrite list_lookup_total_insert_ne by lia.
Qed.

Lemma elem_of_bm_set b i :
  i ∈ bm_set b ↔ 0 ≤ i < nbits b ∧ bit_at (v b) i = true.
Proof.
  unfold bm_set. rewrite elem_of_list_to_set, list_elem_of_filter, elem_of_seqZ.
  intuition lia.
Qed.

Lemma word_in_range b i :
  bm_wf b → 0 ≤ i < nbits b → (Z.to_nat (i / 8) < length (v b))%nat.
Proof.
  intros Hwf Hi. pose proof (wf_length _ Hwf).
  apply Nat2Z.inj_lt. rewrite Z2Nat.id by (apply Z.div_pos; lia).
  rewrite H. Z.to_euclidean_division_equations. lia.
Qed.

Lemma get_word_ok b ix :
  0 ≤ ix < Z.of_nat (length (v b)) →
  get_word ix b = Done (v b !!! Z.to_nat ix, b).
Proof.
  intros Hix. unfold get_word, kbind, kget, kderef.
  by rewrite (list_lookup_lookup_total_lt (v b)) by lia.
Qed.

Lemma put_word_ok b ix x :
  0 ≤ ix < Z.of_nat (length (v b)) →
  put_word ix x b = Done (tt, set_v (<[Z.to_nat ix := u8 x]> (v b)) b).
Proof. intros Hix. unfold put_word, kbind. by rewrite get_word_ok. Qed.

Lemma word_byte b n : bm_wf b → (n < length (v b))%nat → 0 ≤ v b !!! n < 256.
Proof.
  intros Hwf Hn. pose proof (wf_bytes _ Hwf) as HF.
  eapply Forall_lookup_1 in HF; [exact HF|].
  by apply list_lookup_lookup_total_lt.
Qed.

Lemma set_bit_at b i j :
  bm_wf b → 0 ≤ i < nbits b → 0 ≤ j →
  bit_at (v (set_bit i b)) j = (bit_at (v b) j || (j =? i))%bool.
Proof.
  intros Hwf Hi Hj. unfold set_bit; simpl.
  pose proof (index_split i). pose proof (index_split j).
  rewrite bit_at_insert
    by (first [by apply word_in_range | done | apply Z.div_pos; lia]).
  rewrite mask_small by lia.
  destruct (Z.eqb_spec (j / 8) (i / 8)) as [E|E].
  - rewrite testbit_u8, testbit_setbit by lia. unfold bit_at. rewrite E.
    f_equal. apply eq_true_iff_eq. rewrite !Z.eqb_eq. lia.
  - replace (j =? i) with false; [by rewrite orb_false_r|].
    symmetry. apply Z.eqb_neq. congruence.
Qed.

Lemma clear_bit_at b i j :
  bm_wf b → 0 ≤ i < nbits b → 0 ≤ j →
  bit_at (v (clear_bit i b)) j = (bit_at (v b) j && negb (j =? i))%bool.
Proof.
  intros Hwf Hi Hj. unfold clear_bit; simpl.
  pose proof (index_split i). pose proof (index_split j).
  rewrite bit_at_insert
    by (first [by apply word_in_range | done | apply Z.div_pos; lia]).
  rewrite mask_small by lia.
  destruct (Z.eqb_spec (j / 8) (i / 8)) as [E|E].
  - rewrite testbit_u8, testbit_clearbit by lia. unfold bit_at. rewrite E.
    do 2 f_equal. apply eq_true_iff_eq. rewrite !Z.eqb_eq. lia.
  - replace (j =? i) with false; [by rewrite andb_true_r|].
    symmetry. apply Z.eqb_neq. congruence.
Qed.

(** Any change of one byte keeps the shape; the padding is the caller's. *)
Lemma update_byte_wf b n x :
  bm_wf b →
  (∀ i, nbits b ≤ i < 8 * Z.of_nat (length (v b)) →
        bit_at (<[n := u8 x]> (v b)) i = true) →
  bm_wf (set_v (<[n := u8 x]> (v b)) b).
Proof.
  intros [Hn Hl Hb Hp] Hpad. constructor; simpl; [done| |  | ].
  - by rewrite length_insert.
  - apply Forall_insert; [done|]. apply u8_range.
  - by rewrite length_insert.
Qed.

Lemma set_bit_wf b i : bm_wf b → 0 ≤ i < nbits b → bm_wf (set_bit i b).
Proof.
  intros Hwf Hi. apply update_byte_wf; [done|]. intros j Hj.
  change (bit_at (v (set_bit i b)) j = true).
  pose proof (wf_nbits _ Hwf).
  rewrite set_bit_at by (done || lia). by rewrite wf_padding.
Qed.

Lemma clear_bit_wf b i : bm_wf b → 0 ≤ i < nbits b → bm_wf (clear_bit i b).
Proof.
  intros Hwf Hi. apply update_byte_wf; [done|]. intros j Hj.
  change (bit_at (v (clear_bit i b)) j = true).
  pose proof (wf_nbits _ Hwf).
  rewrite clear_bit_at by (done || lia). rewrite wf_padding by done. simpl.
  rewrite negb_true_iff. apply Z.eqb_neq. lia.
Qed.

Lemma set_bit_set b i :
  bm_wf b → 0 ≤ i < nbits b → bm_set (set_bit i b) = {[i]} ∪ bm_set b.
Proof.
  intros Hwf Hi. apply set_eq. intros j.
  rewrite elem_of_union, elem_of_singleton, !elem_of_bm_set.
  change (nbits (set_bit i b)) with (nbits b).
  split.
  - intros [Hj Hb]. rewrite set_bit_at in Hb by (done || lia).
    apply orb_true_iff in Hb as [Hb|Hb%Z.eqb_eq]; auto.
  - intros [->|[Hj Hb]]; (split; [done|]); rewrite set_bit_at by (done || lia).
    + by rewrite Z.eqb_refl, orb_true_r.
    + by rewrite Hb.
Qed.

Lemma clear_bit_set b i :
  bm_wf b → 0 ≤ i < nbits b → bm_set (clear_bit i b) = bm_set b ∖ {[i]}.
Proof.
  intros Hwf Hi. apply set_eq. intros j.
  rewrite elem_of_difference, elem_of_singleton, !elem_of_bm_set.
  change (nbits (clear_bit i b)) with (nbits b).
  split.
  - intros [Hj Hb]. rewrite clear_bit_at in Hb by (done || lia).
    apply andb_true_iff in Hb as [Hb Hne%negb_true_iff%Z.eqb_neq]. auto.
  - intros [[Hj Hb] Hne]. split; [done|]. rewrite clear_bit_at by (done || lia).
    rewrite Hb. simpl. by rewrite negb_true_iff, Z.eqb_neq.
Qed.
End Facts.

(** ** The operations on the abstract view *)

Section Alloc.
Implicit Types (b : bitmap) (i k : Z).

Lemma first_free_some n X i :
  0 ≤ i < n → i ∉ X → (∀ j, 0 ≤ j < i → j ∈ X) → first_free n X = Some i.
Proof.
  intros Hi HiX Hbelow. unfold first_free.
  replace n with (i + (n - i)) by lia. rewrite seqZ_app by lia.
  rewrite (seqZ_cons (0 + i) (n - i)) by lia. rewrite filter_app.
  replace (filter (λ i, i ∉ X) (seqZ 0 i)) with (@nil Z).
  2:{ symmetry. apply filter_none. intros j Hj%elem_of_seqZ Hn. apply Hn, Hbelow; lia. }
  rewrite filter_cons_True by done. done.
Qed.

Lemma first_free_none n X : (∀ j, 0 ≤ j < n → j ∈ X) → first_free n X = None.
Proof.
  intros Hall. unfold first_free.
  replace (filter (λ i, i ∉ X) (seqZ 0 n)) with (@nil Z); [done|].
  symmetry. apply filter_none. intros j Hj%elem_of_seqZ Hn.
  apply Hn, Hall; lia.
Qed.

(** The clear bit of least offset in a byte is taken. *)
Lemma scan_bits_ok b ix k m :
  bm_wf b → 0 ≤ ix < Z.of_nat (length (v b)) → 0 ≤ k → k + Z.of_nat m = 8 →
  (∀ j, 0 ≤ j < k → bit_at (v b) (8 * ix + j) = true) →
  (∃ i, 8 * ix ≤ i < 8 * ix + 8 ∧ i < nbits b ∧ bit_at (v b) i = false ∧
        (∀ j, 8 * ix ≤ j < i → bit_at (v b) j = true) ∧
        scan_bits ix (seqZ k (Z.of_nat m)) b = Done (Some i, set_bit i b)) ∨
  (∀ j, 8 * ix ≤ j < 8 * ix + 8 → bit_at (v b) j = true) ∧
    scan_bits ix (seqZ k (Z.of_nat m)) b = Done (None, b).
Proof.
  intros Hwf Hix. revert k. induction m as [|m IH]; intros k Hk Hkm Hbelow.
  { right. split; [|done]. intros j Hj.
    replace j with (8 * ix + (j - 8 * ix)) by lia. apply Hbelow. lia. }
  rewrite seqZ_cons by lia. cbn [scan_bits].
  rewrite (kbind_run _ _ _ _ _ (get_word_ok b ix Hix)). cbv zeta.
  rewrite mask_small, land_bit_zero by lia.
  destruct (index_join ix k) as [Ed Em]; [lia|].
  assert (Ebit : Z.testbit (v b !!! Z.to_nat ix) k = bit_at (v b) (8 * ix + k)).
  { unfold bit_at. by rewrite Ed, Em. }
  rewrite Ebit. destruct (bit_at (v b) (8 * ix + k)) eqn:E; cbn [negb].
  - replace (Z.pred (Z.of_nat (S m))) with (Z.of_nat m) by lia.
    apply IH; [lia..|]. intros j Hj.
    destruct (decide (j = k)) as [->|]; [done|]. apply Hbelow. lia.
  - left. pose proof (wf_nbits _ Hwf).
    assert (Hin : 8 * ix + k < nbits b).
    { destruct (decide (8 * ix + k < nbits b)) as [|Hge]; [done|].
      rewrite (wf_padding _ Hwf) in E by lia. done. }
    exists (8 * ix + k). split_and!; [lia..|done| |].
    { intros j Hj. replace j with (8 * ix + (j - 8 * ix)) by lia.
      apply Hbelow. lia. }
    rewrite (kbind_run _ _ _ _ _ (put_word_ok b ix _ Hix)).
    assert (Eset : set_v (<[Z.to_nat ix := u8 (Z.lor (v b !!! Z.to_nat ix)
                     (Z.shiftl 1 k))]> (v b)) b = set_bit (8 * ix + k) b).
    { unfold set_bit. by rewrite Ed, Em, mask_small by lia. }
    rewrite Eset. unfold kbind, kgets, kassert, BITS_PER_WORD.
    change (nbits (set_bit _ b)) with (nbits b).
    rewrite (Z.mul_comm ix 8). nowrap.
    by rewrite (proj2 (Z.ltb_lt _ _) Hin).
Qed.

Lemma scan_words_ok b ix m :
  bm_wf b → 0 ≤ ix → ix + Z.of_nat m = Z.of_nat (length (v b)) →
  (∀ j, 0 ≤ j < 8 * ix → bit_at (v b) j = true) →
  (∃ i, 0 ≤ i < nbits b ∧ bit_at (v b) i = false ∧
        (∀ j, 0 ≤ j < i → bit_at (v b) j = true) ∧
        scan_words (seqZ ix (Z.of_nat m)) b = Done (inr i, set_bit i b)) ∨
  (∀ j, 0 ≤ j < 8 * Z.of_nat (length (v b)) → bit_at (v b) j = true) ∧
    scan_words (seqZ ix (Z.of_nat m)) b = Done (inl ENOSPC, b).
Proof.
  intros Hwf. revert ix. induction m as [|m IH]; intros ix Hix Hm Hbelow.
  { right. split; [|done]. intros j Hj. apply Hbelow. lia. }
  rewrite seqZ_cons by lia. cbn [scan_words].
  assert (Hr : 0 ≤ ix < Z.of_nat (length (v b))) by lia.
  rewrite (kbind_run _ _ _ _ _ (get_word_ok b ix Hr)).
  replace (Z.pred (Z.of_nat (S m))) with (Z.of_nat m) by lia.
  assert (Hnext : (∀ j, 8 * ix ≤ j < 8 * ix + 8 → bit_at (v b) j = true) →
                  ∀ j, 0 ≤ j < 8 * (ix + 1) → bit_at (v b) j = true).
  { intros Hw j Hj. destruct (decide (j < 8 * ix)).
    - apply Hbelow. lia.
    - apply Hw. lia. }
  destruct (Z.eqb_spec (v b !!! Z.to_nat ix) WORD_ALLBITS) as [E|E]; cbn [negb].
  - apply IH; [lia..|]. apply Hnext. intros j Hj. unfold bit_at.
    replace j with (8 * ix + (j - 8 * ix)) by lia.
    destruct (index_join ix (j - 8 * ix)) as [-> ->]; [lia|].
    rewrite E. apply byte_full_bits. lia.
  - destruct (scan_bits_ok b ix 0 8 Hwf Hr) as
      [(i & Hi & Hn & Hbit & Hb & Hrun)|[Hall _]]; [lia..|intros; lia| |].
    + left. exists i. split_and!; [lia..|done| |].
      * intros j Hj. destruct (decide (j < 8 * ix)); [apply Hbelow|apply Hb]; lia.
      * change (seqZ 0 BITS_PER_WORD) with (seqZ 0 (Z.of_nat 8)).
        by rewrite (kbind_run _ _ _ _ _ Hrun).
    + destruct E. apply byte_full; [apply word_byte; [done|lia]|].
      intros k Hk. specialize (Hall (8 * ix + k)). unfold bit_at in Hall.
      destruct (index_join ix k) as [Ed Em]; [done|].
      rewrite Ed, Em in Hall. apply Hall. lia.
Qed.

Lemma wf_words b : bm_wf b → DIVROUNDUP (nbits b) BITS_PER_WORD = Z.of_nat (length (v b)).
Proof.
  intros Hwf. pose proof (wf_nbits _ Hwf). unfold BITS_PER_WORD.
  rewrite DIVROUNDUP_small by lia. rewrite (wf_length _ Hwf). f_equal. lia.
Qed.
End Alloc.

Lemma bitmap_alloc_ok b :
  bm_wf b →
  ∃ b', bm_wf b' ∧ nbits b' = nbits b ∧
    match first_free (nbits b) (bm_set b) with
    | Some i => bitmap_alloc b = Done (inr i, b') ∧ bm_set b' = {[i]} ∪ bm_set b
    | None => bitmap_alloc b = Done (inl ENOSPC, b') ∧ b' = b
    end.
Proof.
  intros Hwf. pose proof (wf_nbits _ Hwf).
  assert (Hlen : nbits b ≤ 8 * Z.of_nat (length (v b))).
  { rewrite (wf_length _ Hwf). Z.to_euclidean_division_equations. lia. }
  unfold bitmap_alloc. cbn [kbind kget]. rewrite wf_words by done.
  destruct (scan_words_ok b 0 (length (v b)) Hwf) as
    [(i & Hi & Hbit & Hb & Hrun)|[Hall Hrun]]; [lia..|intros; lia| |].
  - rewrite (first_free_some _ _ i); [|done| |].
    + exists (set_bit i b). split_and!; auto using set_bit_wf, set_bit_set.
    + rewrite elem_of_bm_set. intros [_ ?]. congruence.
    + intros j Hj. apply elem_of_bm_set. split; [lia|]. by apply Hb.
  - rewrite first_free_none; [by exists b|].
    intros j Hj. apply elem_of_bm_set. split; [lia|]. apply Hall. lia.
Qed.

Section Marking.
Implicit Types (b : bitmap) (i : Z).

(** Looking at one index of a well-formed bitmap. *)
Lemma test_index b i :
  bm_wf b → 0 ≤ i < nbits b →
  get_word (i / 8) b = Done (v b !!! Z.to_nat (i / 8), b) ∧
  (Z.land (v b !!! Z.to_nat (i / 8)) (u8 (Z.shiftl 1 (i mod 8))) =? 0)
    = negb (bit_at (v b) i).
Proof.
  intros Hwf Hi. pose proof (index_split i). split.
  - apply get_word_ok. split; [apply Z.div_pos; lia|].
    apply Z2Nat.inj_lt; [apply Z.div_pos; lia|lia|].
    rewrite Nat2Z.id. by apply word_in_range.
  - rewrite mask_small, land_bit_zero by lia. done.
Qed.

Lemma put_index b i x :
  bm_wf b → 0 ≤ i < nbits b →
  put_word (i / 8) x b = Done (tt, set_v (<[Z.to_nat (i / 8) := u8 x]> (v b)) b).
Proof.
  intros Hwf Hi. apply put_word_ok. split; [apply Z.div_pos; lia|].
  apply Z2Nat.inj_lt; [apply Z.div_pos; lia|lia|].
  rewrite Nat2Z.id. by apply word_in_range.
Qed.

Lemma not_in_set b i : 0 ≤ i < nbits b → i ∉ bm_set b → bit_at (v b) i = false.
Proof.
  intros Hi Hn. destruct (bit_at (v b) i) eqn:E; [|done].
  destruct Hn. by apply elem_of_bm_set.
Qed.
End Marking.

(** Marking adds a free index to the set, and stops the machine on an index
    that is out of range or already in use. *)
Lemma bitmap_mark_ok b i :
  bm_wf b → 0 ≤ i →
  bitmap_mark i b =
    (if decide (i < nbits b ∧ i ∉ bm_set b) then Done (tt, set_bit i b) else Panic) ∧
  (i < nbits b → bm_wf (set_bit i b) ∧ bm_set (set_bit i b) = {[i]} ∪ bm_set b).
Proof.
  intros Hwf Hi. split; [|auto using set_bit_wf, set_bit_set].
  unfold bitmap_mark. cbn [kbind kget bitmap_translate]. unfold BITS_PER_WORD.
  destruct (Z.ltb_spec i (nbits b)).
  - destruct (test_index b i) as [Hg Ht]; [done..|].
    cbn [kbind kassert]. rewrite (kbind_run _ _ _ _ _ Hg), Ht.
    case_decide as Hd.
    + rewrite not_in_set by (done || apply Hd). cbn [kbind kassert negb].
      by rewrite put_index.
    + destruct (bit_at (v b) i) eqn:E; [done|]. destruct Hd. split; [done|].
      rewrite elem_of_bm_set. intros [_ ?]. congruence.
  - cbn. rewrite decide_False by lia. done.
Qed.

(** Unmarking removes an index in use from the set, and stops the machine on
    an index that is out of range or free. *)
Lemma bitmap_unmark_ok b i :
  bm_wf b → 0 ≤ i →
  bitmap_unmark i b =
    (if decide (i ∈ bm_set b) then Done (tt, clear_bit i b) else Panic) ∧
  (i < nbits b → bm_wf (clear_bit i b) ∧ bm_set (clear_bit i b) = bm_set b ∖ {[i]}).
Proof.
  intros Hwf Hi. split; [|auto using clear_bit_wf, clear_bit_set].
  unfold bitmap_unmark. cbn [kbind kget bitmap_translate]. unfold BITS_PER_WORD.
  destruct (Z.ltb_spec i (nbits b)).
  - destruct (test_index b i) as [Hg Ht]; [done..|].
    cbn [kbind kassert]. rewrite (kbind_run _ _ _ _ _ Hg), Ht, negb_involutive.
    case_decide as Hd.
    + apply elem_of_bm_set in Hd as [_ ->]. cbn [kbind kassert].
      by rewrite put_index.
    + by rewrite not_in_set.
  - cbn. rewrite decide_False; [done|]. rewrite elem_of_bm_set. lia.
Qed.

(** The test is non-zero exactly on the indices in use. *)
Lemma bitmap_isset_ok b i :
  bm_wf b → 0 ≤ i < nbits b →
  ∃ r, bitmap_isset i b = Done (r, b) ∧ (r ≠ 0 ↔ i ∈ bm_set b).
Proof.
  intros Hwf Hi. destruct (test_index b i) as [Hg Ht]; [done..|].
  unfold bitmap_isset. cbn [bitmap_translate]. unfold BITS_PER_WORD.
  rewrite (kbind_run _ _ _ _ _ Hg). eexists. split; [done|].
  rewrite <- Z.eqb_neq, Ht, elem_of_bm_set.
  destruct (bit_at (v b) i); simpl; naive_solver lia.
Qed.

(** ** Creation *)

Section Creation.
Implicit Types (b : bitmap).

(** The loop over the padding sets the bits from [k] up and no other. *)
Lemma mark_overbits_ok b ix k m :
  0 ≤ ix < Z.of_nat (length (v b)) → 0 ≤ k → k + Z.of_nat m = 8 →
  0 ≤ v b !!! Z.to_nat ix < 256 →
  ∃ x, mark_overbits ix (seqZ k (Z.of_nat m)) b
       = Done (tt, set_v (<[Z.to_nat ix := x]> (v b)) b) ∧
    0 ≤ x < 256 ∧
    ∀ n, 0 ≤ n < 8 →
         Z.testbit x n = (Z.testbit (v b !!! Z.to_nat ix) n || (k <=? n))%bool.
Proof.
  revert b k. induction m as [|m IH]; intros b k Hix Hk Hkm Hbyte.
  { exists (v b !!! Z.to_nat ix). split; [|split; [done|]].
    - rewrite list_insert_id by (apply list_lookup_lookup_total_lt; lia).
      by destruct b.
    - intros n Hn. rewrite (proj2 (Z.leb_gt k n)) by lia. by rewrite orb_false_r. }
  rewrite seqZ_cons by lia. cbn [mark_overbits].
  rewrite (kbind_run _ _ _ _ _ (get_word_ok b ix Hix)).
  rewrite (kbind_run _ _ _ _ _ (put_word_ok b ix _ Hix)).
  replace (Z.pred (Z.of_nat (S m))) with (Z.of_nat m) by lia.
  set (x0 := u8 _). set (b1 := set_v _ b).
  assert (Hx0 : v b1 !!! Z.to_nat ix = x0).
  { apply list_lookup_total_insert_eq. lia. }
  destruct (IH b1 (Z.succ k)) as (x & Hrun & Hx & Hbits); [|lia..| |].
  { subst b1; simpl. by rewrite length_insert. }
  { rewrite Hx0. apply u8_range. }
  exists x. split; [|split; [done|]].
  - rewrite Hrun. subst b1; simpl. unfold set_v; simpl.
    by rewrite list_insert_insert_eq.
  - intros n Hn. rewrite Hbits, Hx0 by done. subst x0.
    rewrite testbit_u8, mask_small, testbit_setbit by lia.
    rewrite <- orb_assoc. f_equal. apply eq_true_iff_eq.
    rewrite orb_true_iff, Z.eqb_eq, !Z.leb_le. lia.
Qed.

Lemma bit_at_zero n i : 0 ≤ i < 8 * Z.of_nat n → bit_at (replicate n 0) i = false.
Proof.
  intros Hi. unfold bit_at. pose proof (index_split i).
  rewrite lookup_total_replicate_2 by lia. apply Z.bits_0.
Qed.

Lemma bitmap_init_ok a va n :
  0 ≤ n < 2 ^ 32 - 8 →
  ∃ b, bitmap_init (Bitmap a va n (replicate (Z.to_nat (DIVROUNDUP n 8)) 0))
       = Done (tt, b) ∧
    bm_addr b = a ∧ bm_vaddr b = va ∧ nbits b = n ∧ bm_wf b ∧ bm_set b = ∅.
Proof.
  intros Hn. rewrite DIVROUNDUP_small by lia.
  set (words := (n + 8 - 1) / 8).
  assert (Hw : words = (n + 7) / 8) by (subst words; f_equal; lia).
  assert (Hw0 : 0 ≤ words) by (apply Z.div_pos; lia).
  set (b0 := Bitmap _ _ _ _). unfold bitmap_init. cbn [kbind kget].
  subst b0; cbn [nbits]. unfold BITS_PER_WORD.
  rewrite DIVROUNDUP_small by lia. fold words.
  assert (Hlen : Z.of_nat (length (replicate (Z.to_nat words) 0)) = words).
  { rewrite length_replicate. lia. }
  destruct (Z.ltb_spec (n / 8) words) as [Hlt|Hge].
  - assert (Hix : n / 8 = words - 1 ∧ 0 < n - (words - 1) * 8 < 8).
    { rewrite Hw in *. Z.to_euclidean_division_equations. lia. }
    destruct Hix as [Hix Hover].
    assert (0 ≤ n / 8) by (apply Z.div_pos; lia).
    assert (words < 2 ^ 32) by (rewrite Hw; apply Z.div_lt_upper_bound; lia).
    nowrap. rewrite Hix, Z.eqb_refl.
    rewrite (proj2 (Z.ltb_lt _ _) (proj1 Hover)), (proj2 (Z.ltb_lt _ _) (proj2 Hover)).
    cbn [kbind kassert andb].
    set (k := n - (words - 1) * 8) in *.
    replace (8 - k) with (Z.of_nat (Z.to_nat (8 - k))) by lia.
    destruct (mark_overbits_ok
      (Bitmap a va n (replicate (Z.to_nat words) 0)) (words - 1) k
      (Z.to_nat (8 - k))) as (x & Hrun & Hx & Hbits); cbn [v]; [lia..| |].
    { rewrite lookup_total_replicate_2 by lia. lia. }
    cbn [v] in *. rewrite lookup_total_replicate_2 in Hbits by lia.
    rewrite Hrun. eexists. split; [done|]. unfold set_v; cbn.
    assert (Hat : ∀ i, 0 ≤ i < 8 * words → bit_at (<[Z.to_nat (words - 1):=x]>
               (replicate (Z.to_nat words) 0)) i = true ↔ n ≤ i).
    { intros i Hi. pose proof (index_split i).
      rewrite bit_at_insert by (rewrite ?length_replicate; lia).
      destruct (Z.eqb_spec (i / 8) (words - 1)).
      - rewrite Hbits, Z.bits_0 by lia. simpl. rewrite Z.leb_le. lia.
      - rewrite bit_at_zero by lia. split; [done|]. subst k. lia. }
    split_and!; [done..| |].
    + constructor; cbn [nbits v]; [lia|rewrite length_insert; lia| |].
      * apply Forall_insert; [|lia]. apply Forall_replicate. lia.
      * intros i Hi. rewrite length_insert in Hi. apply Hat; lia.
    + apply set_eq. intros i. rewrite elem_of_bm_set. cbn [nbits v].
      split; [|set_solver]. intros [Hi Hb]. apply Hat in Hb; lia.
  - eexists. split_and!; [done..| |].
    + constructor; cbn [nbits v]; [lia|lia| |].
      * apply Forall_replicate. lia.
      * intros i Hi. rewrite Hlen in Hi. rewrite Hw in *.
        Z.to_euclidean_division_equations. lia.
    + apply set_eq. intros i. rewrite elem_of_bm_set. cbn [nbits v].
      split; [|set_solver]. intros [Hi Hb].
      rewrite bit_at_zero in Hb; [done|]. rewrite Hw in *.
      Z.to_euclidean_division_equations. lia.
Qed.
End Creation.

Lemma bitmap_destroy_ok {H} {HH : KernelHeap H} b (h : H) X :
  heap_ok h → bm_addr b ≠ bm_vaddr b → bm_addr b ∉ X → bm_vaddr b ∉ X →
  allocated h = {[bm_addr b; bm_vaddr b]} ∪ X →
  ∃ h', bitmap_destroy b h = Done (tt, h') ∧ allocated h' = X.
Proof.
  intros Hok Hne Ha Hv Hall. unfold bitmap_destroy, kbind.
  destruct (kfree_some h (bm_vaddr b) Hok) as (h1 & -> & Hok1 & Ha1).
  { rewrite Hall. clear. set_solver. }
  destruct (kfree_some h1 (bm_addr b) Hok1) as (h2 & -> & Hok2 & Ha2).
  { rewrite Ha1, Hall. clear -Hne. set_solver. }
  eexists. split; [done|]. rewrite Ha2, Ha1, Hall. clear -Ha Hv. set_solver.
Qed.

(** ** The component's theorems *)

(** A bitmap of ten bits with the first two in use. *)
Definition ten_bits : bitmap := Bitmap 2147483648 2147483664 10 [3; 252].

Lemma ten_bits_wf : bm_wf ten_bits.
Proof.
  constructor; cbn; [lia|reflexivity|repeat constructor; lia|].
  intros i Hi.
  assert (i = 10 ∨ i = 11 ∨ i = 12 ∨ i = 13 ∨ i = 14 ∨ i = 15) as Hc by lia.
  destruct_or! Hc; subst; reflexivity.
Qed.

(** C31. Allocation refines "take the least free index": on a well-formed
    bitmap [bitmap_alloc] fails no assertion, returns the least index not in
    use and marks exactly that one, and returns ENOSPC, changing nothing,
    exactly when every index is in use; the padding bits are never returned. *)
Theorem bitmap_alloc_refines b :
  bm_wf b →
  ∃ b', bm_wf b' ∧ nbits b' = nbits b ∧
    match first_free (nbits b) (bm_set b) with
    | Some i => bitmap_alloc b = Done (inr i, b') ∧ bm_set b' = {[i]} ∪ bm_set b
    | None => bitmap_alloc b = Done (inl ENOSPC, b') ∧ b' = b
    end.
Proof. apply bitmap_alloc_ok. Qed.

Lemma bitmap_alloc_refines_witness :
  bitmap_alloc ten_bits = Done (inr 2, set_bit 2 ten_bits).
Proof.
  destruct (bitmap_alloc_refines ten_bits ten_bits_wf) as (b' & _ & _ & Hm).
  change (first_free (nbits ten_bits) (bm_set ten_bits)) with (Some 2) in Hm.
  destruct Hm as [Hrun _]. rewrite Hrun. f_equal. f_equal.
  enough (Done (inr 2 : Z + Z, b') = Done (inr 2, set_bit 2 ten_bits)) by congruence.
  rewrite <- Hrun. reflexivity.
Defined.

(** Marking and unmarking are insertion and removal on the set of indices
    in use, the test is membership, and an index that is out of range, or in
    the wrong state, stops the machine. *)
Theorem bitmap_mark_unmark_refines b i :
  bm_wf b → 0 ≤ i →
  bitmap_mark i b =
    (if decide (i < nbits b ∧ i ∉ bm_set b) then Done (tt, set_bit i b) else Panic) ∧
  bitmap_unmark i b =
    (if decide (i ∈ bm_set b) then Done (tt, clear_bit i b) else Panic) ∧
  (i < nbits b →
     bm_wf (set_bit i b) ∧ bm_set (set_bit i b) = {[i]} ∪ bm_set b ∧
     bm_wf (clear_bit i b) ∧ bm_set (clear_bit i b) = bm_set b ∖ {[i]} ∧
     ∃ r, bitmap_isset i b = Done (r, b) ∧ (r ≠ 0 ↔ i ∈ bm_set b)).
Proof.
  intros Hwf Hi.
  destruct (bitmap_mark_ok b i Hwf Hi) as [Hm Hm'].
  destruct (bitmap_unmark_ok b i Hwf Hi) as [Hu Hu'].
  split_and!; [done..|]. intros Hlt.
  destruct (Hm' Hlt), (Hu' Hlt). split_and!; [done..|].
  by apply bitmap_isset_ok.
Qed.

Lemma bitmap_mark_unmark_refines_witness :
  bitmap_mark 7 ten_bits = Done (tt, set_bit 7 ten_bits) ∧
  bitmap_mark 1 ten_bits = Panic ∧ bitmap_unmark 12 ten_bits = Panic.
Proof.
  split_and!.
  - rewrite (proj1 (bitmap_mark_unmark_refines ten_bits 7 ten_bits_wf ltac:(lia))).
    reflexivity.
  - rewrite (proj1 (bitmap_mark_unmark_refines ten_bits 1 ten_bits_wf ltac:(lia))).
    reflexivity.
  - rewrite (proj1 (proj2 (bitmap_mark_unmark_refines ten_bits 12 ten_bits_wf
                             ltac:(lia)))). reflexivity.
Defined.

(** [bitmap_create] returns a well-formed bitmap with every index free
    that owns two new heap blocks, or NULL with the heap as it was: neither
    allocation failure leaks.  It goes wrong only where the allocator does,
    and [bitmap_destroy] gives both blocks back. *)
Theorem bitmap_create_destroy {H} {HH : KernelHeap H} n h :
  heap_ok h → 0 ≤ n < 2 ^ 32 - 8 →
  match bitmap_create n h with
  | Done (Some b, h') =>
      bm_wf b ∧ nbits b = n ∧ bm_set b = ∅ ∧
      bm_addr b ≠ bm_vaddr b ∧ heap_ok h' ∧
      bm_addr b ∉ allocated h ∧ bm_vaddr b ∉ allocated h ∧
      allocated h' = {[bm_addr b; bm_vaddr b]} ∪ allocated h ∧
      ∃ h'', bitmap_destroy b h' = Done (tt, h'') ∧ allocated h'' = allocated h
  | Done (None, h') => heap_ok h' ∧ allocated h' = allocated h
  | Panic => ∃ h1 sz, kmalloc sz h1 = Panic
  | Undef | Hang => False
  end.
Proof.
  intros Hok Hn. unfold bitmap_create, kbind. unfold BITS_PER_WORD.
  assert (Hsz : heap_size (DIVROUNDUP n 8)).
  { rewrite DIVROUNDUP_small by lia. unfold heap_size.
    Z.to_euclidean_division_equations. lia. }
  assert (H8 : heap_size 8) by (unfold heap_size; lia).
  destruct (kmalloc 8 h) as [[[a|] h1]| | |] eqn:E1.
  - destruct (kmalloc_some _ _ _ _ Hok H8 E1) as (Hok1 & Hf1 & Ha1).
    destruct (kmalloc _ h1) as [[[va|] h2]| | |] eqn:E2.
    + destruct (kmalloc_some _ _ _ _ Hok1 Hsz E2) as (Hok2 & Hf2 & Ha2).
      destruct (bitmap_init_ok a va n) as (b & -> & <- & <- & Hnb & Hwf & Hset); [lia|].
      rewrite Ha1, not_elem_of_union, not_elem_of_singleton in Hf2.
      destruct Hf2 as [Hne Hf2]. rewrite Ha1 in Ha2.
      split_and!; [done..|clear -Ha2; set_solver|].
      apply bitmap_destroy_ok; [done|congruence|done..|]. clear -Ha2. set_solver.
    + destruct (kmalloc_none _ _ _ Hok1 Hsz E2) as [Hok2 Ha2].
      destruct (kfree_some h2 a Hok2) as (h3 & -> & Hok3 & Ha3).
      { rewrite Ha2, Ha1. apply elem_of_union_l, elem_of_singleton_2. done. }
      split; [done|]. rewrite Ha3, Ha2, Ha1. clear -Hf1. set_solver.
    + by eauto.
    + by apply (kmalloc_defined h1 (DIVROUNDUP n 8)) in E2.
    + by apply (kmalloc_defined h1 (DIVROUNDUP n 8)) in E2.
  - by apply (kmalloc_none _ _ _ Hok H8 E1).
  - by eauto.
  - by apply (kmalloc_defined h 8) in E1.
  - by apply (kmalloc_defined h 8) in E1.
Qed.

Lemma bitmap_create_destroy_witness :
  ∃ b h', bitmap_create 10 (empty_refheap 2) = Done (Some b, h') ∧
          bm_set b = ∅ ∧ v b = [0; 252].
Proof.
  pose proof (bitmap_create_destroy 10 (empty_refheap 2) (empty_refheap_ok 2)
                ltac:(lia)) as Hc.
  destruct (bitmap_create 10 (empty_refheap 2)) as [[[b|] h']| | |] eqn:E;
    try (vm_compute in E; discriminate E).
  exists b, h'. split; [done|]. split; [apply Hc|].
  vm_compute in E. by injection E as <- _.
Defined.
