(* ===== verification/Array.v ===== *)
(** * Resizable arrays of pointers (kern/lib/array.c, kern/include/array.h)

    [array] is the C structure with the block of cells it owns; a cell is
    [None] until something is stored there.  The abstract view is the list of
    the first [num] cells.  The growth loop of [array_setsize] doubles a 32-bit
    counter; the theorems say when it ends and show that adding, removing,
    reading and writing are the list operations. *)

From stdpp Require Import base numbers list gmap fin_maps.
From Stdlib Require Import ZArith Lia.
From S2P Require Import Prelude KernelHeap.

Open Scope Z_scope.
Open Scope kernel_scope.

Record array := Array {
  arr_ptr : option Z;          (* a->v, NULL or the address of the block *)
  arr_v : list (option Z);     (* the cells of the block *)
  arr_num : Z;
  arr_max : Z;
}.

(** [while (num > newmax) newmax = newmax ? newmax*2 : 4]. *)
Fixpoint grow_max (fuel : nat) (num newmax : Z) : option Z :=
  match fuel with
  | O => None
  | S fuel =>
      if newmax <? num
      then grow_max fuel num (if newmax =? 0 then 4 else u32 (newmax * 2))
      else Some newmax
  end.

#[global] Arguments grow_max : simpl never.

(** A doubling counter reaches 2^31 from 4 in 29 rounds. *)
Definition grow_fuel : nat := 33.

Definition array_init : array := Array None [] 0 0.

Section Ops.
Context {H : Type} {HH : KernelHeap H}.

(** The heap and the array the functions work on. *)
Abbreviation AS := (H * array)%type.

Definition on_heap {A} (c : K H A) : K AS A := kzoom fst (λ h s, (h, s.2)) c.
Definition the_array : K AS array := kgets snd.
Definition set_array (a : array) : K AS unit := kmodify (λ s, (s.1, a)).

Definition array_cleanup : K AS unit :=
  a <- the_array ;;
  kassert (arr_num a =? 0) ;;
  on_heap (kfree (arr_ptr a)) ;;
  set_array (Array None [] (arr_num a) (arr_max a)).

Definition array_setsize (num : Z) : K AS Z :=
  a <- the_array ;;
  if arr_max a <? num then
    match grow_max grow_fuel num (arr_max a) with
    | None => khang
    | Some newmax =>
        newptr <- on_heap (kmalloc (u32 (newmax * 4))) ;;
        match newptr with
        | None => kret ENOMEM
        | Some p =>
            cells <- kderef (copy_cells (Z.to_nat (arr_num a))
                               (replicate (Z.to_nat (u32 (newmax * 4) / 4)) None)
                               (arr_v a)) ;;
            on_heap (kfree (arr_ptr a)) ;;
            set_array (Array (Some p) cells num newmax) ;;
            kret 0
        end
    end
  else
    set_array (Array (arr_ptr a) (arr_v a) num (arr_max a)) ;;
    kret 0.

Definition array_remove (index : Z) : K AS unit :=
  a <- the_array ;;
  kassert (arr_num a <=? arr_max a) ;;
  kassert (index <? arr_num a) ;;
  let num_to_move := u32 (arr_num a - (index + 1)) in
  cells <- kderef (move_cells (Z.to_nat index) (Z.to_nat (index + 1))
                     (Z.to_nat num_to_move) (arr_v a)) ;;
  set_array (Array (arr_ptr a) cells (u32 (arr_num a - 1)) (arr_max a)).

Definition array_num : K AS Z :=
  a <- the_array ;; kret (arr_num a).

Definition array_get (index : Z) : K AS Z :=
  a <- the_array ;;
  kassert (index <? arr_num a) ;;
  kderef (arr_v a !! Z.to_nat index ≫= id).

Definition array_set (index val : Z) : K AS unit :=
  a <- the_array ;;
  kassert (index <? arr_num a) ;;
  _ <- kderef (arr_v a !! Z.to_nat index) ;;
  set_array (Array (arr_ptr a) (<[Z.to_nat index := Some val]> (arr_v a))
                   (arr_num a) (arr_max a)).

(** The result is [inl] an error or [inr] the index of the new element. *)
Definition array_add (val : Z) : K AS (Z + Z) :=
  a <- the_array ;;
  let index := arr_num a in
  ret <- array_setsize (u32 (index + 1)) ;;
  if negb (ret =? 0) then kret (inl ret)
  else
    a <- the_array ;;
    _ <- kderef (arr_v a !! Z.to_nat index) ;;
    set_array (Array (arr_ptr a) (<[Z.to_nat index := Some val]> (arr_v a))
                     (arr_num a) (arr_max a)) ;;
    kret (inr index).

Definition array_create : K H (option (Z * array)) :=
  a <- kmalloc 12 (* sizeof(struct array) *) ;;
  match a with
  | None => kret None
  | Some p => kret (Some (p, array_init))
  end.
End Ops.

(** ** The growth loop *)

Section Growth.
(** The capacities an array can have: none, or a power of two from 4. *)
Definition capacity (m : Z) : Prop := m = 0 ∨ ∃ k, 2 ≤ k ≤ 31 ∧ m = 2 ^ k.

Lemma grow_max_step f num m :
  grow_max (S f) num m =
  if m <? num then grow_max f num (if m =? 0 then 4 else u32 (m * 2)) else Some m.
Proof. done. Qed.

Lemma grow_from_pow f num k :
  2 ≤ k ≤ 31 → num ≤ 2 ^ 31 → 32 - k ≤ Z.of_nat f →
  ∃ j, grow_max f num (2 ^ k) = Some (2 ^ j) ∧ k ≤ j ≤ 31 ∧ num ≤ 2 ^ j ∧
       (2 ^ k < num → 2 ^ j < 2 * num).
Proof.
  revert k. induction f as [|f IH]; intros k Hk Hnum Hf; [lia|].
  rewrite grow_max_step. destruct (Z.ltb_spec (2 ^ k) num) as [Hlt|Hge].
  2:{ exists k. split_and!; [done|lia..|]. lia. }
  assert (k ≠ 31) by (intros ->; lia).
  rewrite (proj2 (Z.eqb_neq _ _)) by (apply Z.pow_nonzero; lia).
  assert (Hs : 2 ^ k * 2 = 2 ^ (k + 1)) by (rewrite Z.pow_add_r by lia; lia).
  assert (2 ^ (k + 1) ≤ 2 ^ 31) by (apply Z.pow_le_mono_r; lia).
  pose proof (Z.pow_pos_nonneg 2 k).
  rewrite Hs, u32_small by lia.
  destruct (IH (k + 1)) as (j & Hj & Hkj & Hn & Hb); [lia..|].
  exists j. split_and!; [done|lia..|]. intros _.
  destruct (decide (2 ^ (k + 1) < num)); [auto|].
  destruct f; [lia|]. rewrite grow_max_step in Hj.
  rewrite (proj2 (Z.ltb_ge _ _)) in Hj by lia.
  injection Hj as Hj. rewrite <- Hj. lia.
Qed.

(** Up to 2^31 elements the loop ends, with a capacity that is enough and,
    unless it is the smallest one, less than twice what was asked. *)
Lemma grow_max_ends num m :
  capacity m → 0 ≤ m < num → num ≤ 2 ^ 31 →
  ∃ m', grow_max grow_fuel num m = Some m' ∧ capacity m' ∧ num ≤ m' ∧
        (m' = 4 ∨ m' < 2 * num).
Proof.
  intros [->|(k & Hk & ->)] Hm Hnum; unfold grow_fuel.
  - rewrite grow_max_step. rewrite (proj2 (Z.ltb_lt _ _)) by lia. cbn [Z.eqb].
    destruct (grow_from_pow 32 num 2) as (j & Hj & Hkj & Hn & Hb); [lia..|].
    change (2 ^ 2) with 4 in *. exists (2 ^ j). split_and!; [done| |done|].
    + right. by exists j; split; [lia|].
    + destruct (decide (4 < num)); [by auto|]. left.
      rewrite grow_max_step in Hj. rewrite (proj2 (Z.ltb_ge _ _)) in Hj by lia. congruence.
  - destruct (grow_from_pow 33 num k) as (j & Hj & Hkj & Hn & Hb); [lia..|].
    exists (2 ^ j). split_and!; [done| |done|right; apply Hb; lia].
    right. by exists j; split; [lia|].
Qed.

(** Above 2^31 it never does: the counter wraps to 0 and starts over. *)
Lemma grow_max_diverges fuel num m :
  capacity m → 2 ^ 31 < num → grow_max fuel num m = None.
Proof.
  revert m. induction fuel as [|fuel IH]; intros m Hm Hnum; [done|].
  assert (Hlt : m < num).
  { destruct Hm as [->|(k & Hk & ->)]; [lia|].
    assert (2 ^ k ≤ 2 ^ 31) by (apply Z.pow_le_mono_r; lia). lia. }
  rewrite grow_max_step. rewrite (proj2 (Z.ltb_lt _ _) Hlt). apply IH; [|done].
  destruct Hm as [->|(k & Hk & ->)]; [right; by exists 2|].
  rewrite (proj2 (Z.eqb_neq _ _)) by (apply Z.pow_nonzero; lia).
  replace (2 ^ k * 2) with (2 ^ (k + 1)) by (rewrite Z.pow_add_r by lia; lia).
  destruct (decide (k = 31)) as [->|]; [by left|].
  assert (2 ^ (k + 1) ≤ 2 ^ 31) by (apply Z.pow_le_mono_r; lia).
  pose proof (Z.pow_pos_nonneg 2 (k + 1)).
  rewrite u32_small by lia. right. exists (k + 1). split; [lia|done].
Qed.
End Growth.

(** ** The abstract view *)

Definition elems (a : array) : list (option Z) := take (Z.to_nat (arr_num a)) (arr_v a).

(** The block the array owns, as a set. *)
Definition own (a : array) : gset Z :=
  match arr_ptr a with Some p => {[p]} | None => ∅ end.

Record arr_wf (a : array) : Prop := {
  wf_num : 0 ≤ arr_num a ≤ arr_max a;
  wf_cap : capacity (arr_max a) ∧ arr_max a ≤ 2 ^ 29;
  wf_cells : length (arr_v a) = Z.to_nat (arr_max a);
}.

Section Refinement.
Context {H : Type} {HH : KernelHeap H}.
Implicit Types (h : H) (a : array).

Definition arr_inv h a : Prop := heap_ok h ∧ arr_wf a ∧ own a ⊆ allocated h.

Lemma length_elems a : arr_wf a → length (elems a) = Z.to_nat (arr_num a).
Proof.
  intros [Hn _ Hl]. unfold elems. rewrite length_take, Hl. lia.
Qed.

Lemma wf_num_bound a : arr_wf a → 0 ≤ arr_num a ≤ 2 ^ 29.
Proof. intros [? [? ?] ?]. lia. Qed.

Lemma new_capacity num m :
  capacity m → num ≤ 2 ^ 29 → num ≤ m → m = 4 ∨ m < 2 * num → m ≤ 2 ^ 29.
Proof.
  intros [->|(k & Hk & ->)] Hn Hle Hb; [lia|].
  destruct (decide (k ≤ 29)); [apply Z.pow_le_mono_r; lia|].
  assert (2 ^ 30 ≤ 2 ^ k) by (apply Z.pow_le_mono_r; lia). lia.
Qed.

(** Moving the cells to a block that is large enough. *)
Lemma moved_wf a p num m cells :
  arr_wf a → capacity m → m ≤ 2 ^ 29 → 0 ≤ num ≤ m → arr_num a ≤ num →
  copy_cells (Z.to_nat (arr_num a)) (replicate (Z.to_nat m) None) (arr_v a)
    = Some cells →
  arr_wf (Array p cells num m) ∧
  take (Z.to_nat (arr_num a)) cells = elems a.
Proof.
  intros [Hn Hc Hl] Hm Hm' Hnum Hle. unfold copy_cells.
  case_decide as Hd; [intros [= <-]|done].
  rewrite length_replicate in Hd. split.
  - constructor; simpl; [lia|done|].
    rewrite length_app, length_take, length_drop, length_replicate. lia.
  - unfold elems. apply take_app_length'. rewrite length_take. lia.
Qed.

Lemma array_setsize_ok h a num :
  arr_inv h a → arr_num a ≤ num ≤ 2 ^ 29 →
  match array_setsize num (h, a) with
  | Done (r, (h', a')) =>
      arr_inv h' a' ∧ allocated h' ∖ own a' = allocated h ∖ own a ∧
      (r = 0 ∧ arr_num a' = num ∧
         take (Z.to_nat (arr_num a)) (arr_v a') = elems a
       ∨ r = ENOMEM ∧ a' = a)
  | Panic => ∃ sz h1, kmalloc sz h1 = Panic
  | Undef | Hang => False
  end.
Proof.
  intros (Hok & Hwf & Hown) Hnum. pose proof Hwf as [Hn [Hc Hm29] Hl].
  unfold array_setsize, kbind, the_array, kgets. simpl.
  destruct (Z.ltb_spec (arr_max a) num) as [Hlt|Hge].
  2:{ simpl. unfold arr_inv. split; [split; [done|split; [|done]]|split; [done|by left]].
      constructor; simpl; [lia|done|done]. }
  destruct (grow_max_ends num (arr_max a)) as (m & -> & Hcm & Hle & Hb); [done|lia..|].
  assert (Hm : m ≤ 2 ^ 29) by (apply (new_capacity num m); done || lia).
  unfold on_heap, kzoom, kbind, kderef, set_array, kmodify, kret; simpl.
  rewrite u32_small by lia.
  assert (Hsz : heap_size (m * 4)) by (unfold heap_size; lia).
  destruct (kmalloc (m * 4) h) as [[[p|] h1]| | |] eqn:E; simpl.
  - destruct (kmalloc_some _ _ _ _ Hok Hsz E) as (Hok1 & Hf & Ha1).
    rewrite Z.div_mul by done.
    destruct (copy_cells _ _ (arr_v a)) as [cells|] eqn:Ec.
    2:{ unfold copy_cells in Ec. case_decide as Hd; [done|].
        rewrite length_replicate in Hd. lia. }
    simpl. destruct (moved_wf a (Some p) num m cells) as [Hwf' Hel]; [done|done|lia..|done|].
    assert (∃ h2, kfree (arr_ptr a) h1 = Done (tt, h2) ∧ heap_ok h2 ∧
                  allocated h2 = allocated h1 ∖ own a) as (h2 & -> & Hok2 & Ha2).
    { unfold own in *. destruct (arr_ptr a) as [q|].
      - apply kfree_some; [done|]. rewrite Ha1. clear -Hown. set_solver.
      - exists h1. rewrite kfree_null. split_and!; [done..|]. clear. set_solver. }
    simpl. rewrite Ha2, Ha1. unfold arr_inv. split_and!; [done|done| | |].
    + change (own (Array (Some p) cells num m)) with ({[p]} : gset Z).
      rewrite Ha2, Ha1. clear -Hf Hown. set_solver.
    + change (own (Array (Some p) cells num m)) with ({[p]} : gset Z).
      clear -Hf. set_solver.
    + by left.
  - destruct (kmalloc_none _ _ _ Hok Hsz E) as [Hok1 Ha1].
    unfold arr_inv. rewrite Ha1. split; [done|split; [done|by right]].
  - by eauto.
  - by apply (kmalloc_defined h (m * 4)) in E.
  - by apply (kmalloc_defined h (m * 4)) in E.
Qed.

Lemma array_add_ok h a val :
  arr_inv h a → arr_num a < 2 ^ 29 →
  match array_add val (h, a) with
  | Done (inr i, (h', a')) =>
      arr_inv h' a' ∧ allocated h' ∖ own a' = allocated h ∖ own a ∧
      i = arr_num a ∧ elems a' = elems a ++ [Some val]
  | Done (inl e, (h', a')) =>
      e = ENOMEM ∧ a' = a ∧ arr_inv h' a ∧
      allocated h' ∖ own a = allocated h ∖ own a
  | Panic => ∃ sz h1, kmalloc sz h1 = Panic
  | Undef | Hang => False
  end.
Proof.
  intros Hinv Hlt. pose proof Hinv as (_ & Hwf & _). pose proof (wf_num_bound a Hwf).
  unfold array_add. unfold kbind at 1, the_array, kgets; simpl.
  rewrite u32_small by lia.
  pose proof (array_setsize_ok h a (arr_num a + 1) Hinv ltac:(lia)) as Hs.
  unfold kbind at 1.
  destruct (array_setsize _ _) as [[r [h' a']]| | |]; [|done..].
  destruct Hs as (Hinv' & Hall & [(-> & Hnum & Hel)|(-> & ->)]); [|done].
  simpl. unfold kbind, kgets, kderef; simpl.
  destruct Hinv' as (Hok' & Hwf' & Hown'). pose proof Hwf' as [Hn' Hc' Hl'].
  assert (Hi : (Z.to_nat (arr_num a) < length (arr_v a'))%nat) by lia.
  destruct (lookup_lt_is_Some_2 _ _ Hi) as [c ->]. simpl.
  unfold arr_inv. split_and!; [done| |done|done|done|].
  - constructor; simpl; [done..|]. by rewrite length_insert.
  - unfold elems at 1; simpl. rewrite Hnum, Z2Nat.inj_add, Nat.add_1_r by lia.
    rewrite (take_S_r _ _ (Some val)) by (apply list_lookup_insert_eq; lia).
    rewrite take_insert_ge by lia. by rewrite Hel.
Qed.

Lemma array_remove_ok h a i :
  arr_inv h a → 0 ≤ i →
  if decide (i < arr_num a)
  then ∃ a', array_remove i (h, a) = Done (tt, (h, a')) ∧ arr_inv h a' ∧
             own a' = own a ∧ elems a' = delete (Z.to_nat i) (elems a)
  else array_remove i (h, a) = Panic.
Proof.
  intros (Hok & Hwf & Hown) Hi. pose proof Hwf as [Hn Hc Hl].
  unfold array_remove, kbind, the_array, kgets, kassert; simpl.
  rewrite (proj2 (Z.leb_le _ _)) by lia.
  case_decide as Hlt; [|by rewrite (proj2 (Z.ltb_ge _ _)) by lia].
  rewrite (proj2 (Z.ltb_lt _ _)) by lia. rewrite !u32_small by lia.
  unfold move_cells, kderef. rewrite decide_True by lia.
  eexists. split; [done|]. unfold arr_inv. split_and!; [done| |done|done|].
  - constructor; simpl; [lia|done|].
    rewrite !length_app, !length_take, !length_drop. lia.
  - unfold elems; simpl. apply list_eq. intros j.
    destruct (decide (j < Z.to_nat (arr_num a - 1))%nat) as [Hj|Hj].
    + rewrite lookup_take_lt by done.
      destruct (decide (j < Z.to_nat i)%nat).
      * rewrite lookup_app_l by (rewrite length_take; lia).
        rewrite lookup_take_lt by done.
        rewrite list_lookup_delete_lt by done. by rewrite lookup_take_lt by lia.
      * rewrite lookup_app_r by (rewrite length_take; lia).
        rewrite length_take, Nat.min_l by lia.
        rewrite lookup_app_l by (rewrite length_take, length_drop; lia).
        rewrite lookup_take_lt by lia. rewrite lookup_drop.
        rewrite list_lookup_delete_ge by lia. rewrite lookup_take_lt by lia.
        f_equal. lia.
    + rewrite lookup_take_ge by lia. symmetry. apply lookup_ge_None.
      rewrite length_delete; rewrite ?length_take; [lia|].
      apply lookup_lt_is_Some_2. rewrite length_take. lia.
Qed.

Lemma array_get_ok h a i :
  arr_inv h a → 0 ≤ i →
  array_get i (h, a) =
  if decide (i < arr_num a)
  then match elems a !! Z.to_nat i with
       | Some (Some x) => Done (x, (h, a))
       | _ => Undef
       end
  else Panic.
Proof.
  intros (Hok & Hwf & Hown) Hi. pose proof Hwf as [Hn Hc Hl].
  unfold array_get, kbind, the_array, kgets, kassert, kderef; simpl.
  case_decide as Hlt; [|by rewrite (proj2 (Z.ltb_ge _ _)) by lia].
  rewrite (proj2 (Z.ltb_lt _ _)) by lia.
  unfold elems. rewrite lookup_take_lt by lia.
  by destruct (arr_v a !! Z.to_nat i) as [[x|]|].
Qed.

Lemma array_set_ok h a i val :
  arr_inv h a → 0 ≤ i →
  if decide (i < arr_num a)
  then ∃ a', array_set i val (h, a) = Done (tt, (h, a')) ∧ arr_inv h a' ∧
             own a' = own a ∧ elems a' = <[Z.to_nat i := Some val]> (elems a)
  else array_set i val (h, a) = Panic.
Proof.
  intros (Hok & Hwf & Hown) Hi. pose proof Hwf as [Hn Hc Hl].
  unfold array_set, kbind, the_array, kgets, kassert, kderef; simpl.
  case_decide as Hlt; [|by rewrite (proj2 (Z.ltb_ge _ _)) by lia].
  rewrite (proj2 (Z.ltb_lt _ _)) by lia.
  destruct (lookup_lt_is_Some_2 (arr_v a) (Z.to_nat i)) as [c ->]; [lia|].
  eexists. split; [done|]. unfold arr_inv. split_and!; [done| |done|done|].
  - constructor; simpl; [done..|]. by rewrite length_insert.
  - unfold elems; simpl. by rewrite take_insert_lt by lia.
Qed.
End Refinement.

(** ** The component's theorems *)

(** An array of three elements in a block of four cells. *)
Definition three_elems : array :=
  Array (Some 2147483648) [Some 7; Some 8; Some 9; None] 3 4.
Definition three_heap : refheap := RefHeap 2147483664 1 {[2147483648]}.

Lemma three_inv : arr_inv three_heap three_elems.
Proof.
  split_and!.
  - intros p Hp. simpl in Hp. apply elem_of_singleton in Hp. by subst.
  - constructor; simpl; [lia| |done]. split; [|lia]. right. by exists 2.
  - done.
Qed.

(** The growth loop of [array_setsize] ends for every size up to 2^31,
    with a capacity that suffices and is below twice the size (or the minimum
    4); for a larger size the 32-bit counter wraps to 0 and the loop runs
    forever. *)
Theorem array_growth_terminates num m :
  capacity m → 0 ≤ m < num →
  (num ≤ 2 ^ 31 →
     ∃ m', grow_max grow_fuel num m = Some m' ∧ capacity m' ∧ num ≤ m' ∧
           (m' = 4 ∨ m' < 2 * num)) ∧
  (2 ^ 31 < num → ∀ fuel, grow_max fuel num m = None).
Proof.
  intros Hc Hm. split.
  - by apply grow_max_ends.
  - intros Hnum fuel. by apply grow_max_diverges.
Qed.

Lemma array_growth_terminates_witness :
  grow_max grow_fuel 100 16 = Some 128 ∧ ∀ f, grow_max f (2 ^ 31 + 1) 16 = None.
Proof.
  assert (Hc : capacity 16) by (right; exists 4; split; [lia|done]).
  split.
  - destruct (proj1 (array_growth_terminates 100 16 Hc ltac:(lia)) ltac:(lia))
      as (m' & Hm & _). vm_compute in Hm. injection Hm as <-. reflexivity.
  - intros f. apply (proj2 (array_growth_terminates (2 ^ 31 + 1) 16 Hc ltac:(lia))). lia.
Defined.

(** C32. A resizable array refines a list: adding appends (or returns ENOMEM
    and changes nothing), removing deletes and closes the gap, reading and
    writing are list lookup and update, and an index past the end stops the
    machine.  Each operation keeps the array well formed and touches no heap
    block but its own. *)
Theorem array_refines_list {H} {HH : KernelHeap H} (h : H) a i val :
  arr_inv h a → 0 ≤ i → arr_num a < 2 ^ 29 →
  match array_add val (h, a) with
  | Done (inr j, (h', a')) =>
      arr_inv h' a' ∧ allocated h' ∖ own a' = allocated h ∖ own a ∧
      j = arr_num a ∧ elems a' = elems a ++ [Some val]
  | Done (inl e, (h', a')) =>
      e = ENOMEM ∧ a' = a ∧ arr_inv h' a ∧ allocated h' ∖ own a = allocated h ∖ own a
  | Panic => ∃ sz h1, kmalloc sz h1 = Panic
  | Undef | Hang => False
  end ∧
  (if decide (i < arr_num a) then
     (∃ a', array_remove i (h, a) = Done (tt, (h, a')) ∧ arr_inv h a' ∧
            own a' = own a ∧ elems a' = delete (Z.to_nat i) (elems a)) ∧
     (∃ a', array_set i val (h, a) = Done (tt, (h, a')) ∧ arr_inv h a' ∧
            own a' = own a ∧ elems a' = <[Z.to_nat i := Some val]> (elems a)) ∧
     (∀ x, elems a !! Z.to_nat i = Some (Some x) →
           array_get i (h, a) = Done (x, (h, a)))
   else
     array_remove i (h, a) = Panic ∧ array_set i val (h, a) = Panic ∧
     array_get i (h, a) = Panic).
Proof.
  intros Hinv Hi Hlt. split; [by apply array_add_ok|].
  pose proof (array_remove_ok h a i Hinv Hi) as Hr.
  pose proof (array_set_ok h a i val Hinv Hi) as Hs.
  pose proof (array_get_ok h a i Hinv Hi) as Hg.
  case_decide; [|done]. split_and!; [done..|]. intros x Hx. by rewrite Hg, Hx.
Qed.

Lemma array_refines_list_witness :
  ∃ a', array_remove 1 (three_heap, three_elems) = Done (tt, (three_heap, a')) ∧
        elems a' = [Some 7; Some 9].
Proof.
  pose proof (array_refines_list three_heap three_elems 1 5 three_inv
                ltac:(lia) ltac:(reflexivity)) as [_ Hd].
  rewrite decide_True in Hd by reflexivity.
  destruct Hd as [(a' & Hrun & _ & _ & Hel) _]. exists a'. by split.
Defined.
