(* ===== verification/Queue.v ===== *)
(** * Ring-buffer queues (kern/lib/queue.c)

    A queue of pointers in a ring buffer that doubles when it is full.
    [q_grow] moves the elements over by calling [q_addtail], which may call
    [q_grow]: the recursion carries a call depth, and depth two is shown to be
    enough.  The abstract view is the list of the elements from head to tail. *)

From stdpp Require Import base numbers list gmap fin_maps.
From Stdlib Require Import ZArith Lia.
From S2P Require Import Prelude KernelHeap.

Open Scope Z_scope.
Open Scope kernel_scope.

Record queue := Queue {
  q_size : Z;
  q_nextwrite : Z;
  q_nextread : Z;
  q_ptr : Z;                   (* q->data, the address of the block *)
  q_data : list (option Z);    (* its cells *)
}.

(** [while (nsize < targetsize) nsize *= 2] with the assertion that stops it
    when the [int] wraps; 32 rounds are enough for any positive start. *)
Fixpoint grow_size (fuel : nat) (targetsize nsize : Z) : outcome Z :=
  match fuel with
  | O => Hang
  | S fuel =>
      if nsize <? targetsize then
        let nsize := i32 (nsize * 2) in
        if 0 <? nsize then grow_size fuel targetsize nsize else Panic
      else Done nsize
  end.
#[global] Arguments grow_size : simpl never.

Definition grow_fuel : nat := 32.

Section Ops.
Context {H : Type} {HH : KernelHeap H}.

Abbreviation QS := (H * queue)%type.

Definition on_heap {A} (c : K H A) : K QS A := kzoom fst (λ h s, (h, s.2)) c.
Definition the_queue : K QS queue := kgets snd.
Definition set_queue (q : queue) : K QS unit := kmodify (λ s, (s.1, q)).

Definition q_empty : K QS bool :=
  q <- the_queue ;; kret (q_nextwrite q =? q_nextread q).

(** [for (i=onr; i!=onw; i = (i+1)%osize)] of [q_grow]; a round per cell of
    the old block is enough. *)
Fixpoint q_refill (addtail : Z → K QS Z) (rounds : nat) (olddata : list (option Z))
    (osize onw i : Z) : K QS unit :=
  match rounds with
  | O => khang
  | S rounds =>
      if negb (i =? onw) then
        x <- kderef (olddata !! Z.to_nat i ≫= id) ;;
        result <- addtail x ;;
        kassert (result =? 0) ;;
        q_refill addtail rounds olddata osize onw (Z.rem (i + 1) osize)
      else kret tt
  end.

Definition q_grow_with (addtail : Z → K QS Z) (targetsize : Z) : K QS Z :=
  q <- the_queue ;;
  match grow_size grow_fuel targetsize (q_size q) with
  | Done nsize =>
      ndata <- on_heap (kmalloc (u32 (nsize * 4))) ;;
      match ndata with
      | None => kret ENOMEM
      | Some p =>
          set_queue (Queue nsize 0 0 p
                       (replicate (Z.to_nat (u32 (nsize * 4) / 4)) None)) ;;
          q_refill addtail (S (Z.to_nat (q_size q))) (q_data q) (q_size q)
                   (q_nextwrite q) (q_nextread q) ;;
          on_heap (kfree (Some (q_ptr q))) ;;
          kret 0
      end
  | Panic => kpanic
  | Undef => kundef
  | Hang => khang
  end.

Definition q_addtail_with (addtail : Z → K QS Z) (ptr : Z) : K QS Z :=
  q <- the_queue ;;
  kassert (0 <? q_size q) ;;
  let nextnext := Z.rem (q_nextwrite q + 1) (q_size q) in
  result <- (if nextnext =? q_nextread q
             then q_grow_with addtail (q_size q + 1)
             else kret 0) ;;
  if negb (result =? 0) then kret result
  else
    q <- the_queue ;;
    let nextnext := Z.rem (q_nextwrite q + 1) (q_size q) in
    _ <- kderef (q_data q !! Z.to_nat (q_nextwrite q)) ;;
    set_queue (Queue (q_size q) nextnext (q_nextread q) (q_ptr q)
                 (<[Z.to_nat (q_nextwrite q) := Some ptr]> (q_data q))) ;;
    kret 0.

(** The two functions call each other; [depth] bounds the calls. *)
Fixpoint q_addtail (depth : nat) (ptr : Z) : K QS Z :=
  match depth with
  | O => khang
  | S depth => q_addtail_with (q_addtail depth) ptr
  end.

Definition q_grow (depth : nat) (targetsize : Z) : K QS Z :=
  q_grow_with (q_addtail depth) targetsize.

Definition q_preallocate (depth : nat) (size : Z) : K QS Z :=
  q <- the_queue ;;
  kassert (0 <? q_size q) ;;
  if q_size q <? size then q_grow depth size else kret 0.

Definition q_remhead : K QS Z :=
  q <- the_queue ;;
  kassert (0 <? q_size q) ;;
  e <- q_empty ;;
  kassert (negb e) ;;
  ret <- kderef (q_data q !! Z.to_nat (q_nextread q) ≫= id) ;;
  set_queue (Queue (q_size q) (q_nextwrite q)
               (Z.rem (q_nextread q + 1) (q_size q)) (q_ptr q) (q_data q)) ;;
  kret ret.

Definition q_peek : K QS Z :=
  q <- the_queue ;;
  kassert (0 <? q_size q) ;;
  e <- q_empty ;;
  if (e : bool) then kret 0
  else kderef (q_data q !! Z.to_nat (q_nextread q) ≫= id).

(** [while (tmp != nextwrite) { tmp = (tmp+1) % size; count++; }]. *)
Fixpoint q_count (rounds : nat) (q : queue) (tmp count : Z) : outcome Z :=
  match rounds with
  | O => Hang
  | S rounds =>
      if negb (tmp =? q_nextwrite q)
      then q_count rounds q (Z.rem (tmp + 1) (q_size q)) (count + 1)
      else Done count
  end.

Definition q_len : K QS Z :=
  q <- the_queue ;;
  match q_count (S (Z.to_nat (q_size q))) q (q_nextread q) 0 with
  | Done n => kret n
  | Panic => kpanic
  | Undef => kundef
  | Hang => khang
  end.

Definition q_getstart : K QS Z := q <- the_queue ;; kret (q_nextread q).
Definition q_getend : K QS Z := q <- the_queue ;; kret (q_nextwrite q).
Definition q_getsize : K QS Z := q <- the_queue ;; kret (q_size q).

Definition q_getguy (index : Z) : K QS Z :=
  q <- the_queue ;;
  kassert ((0 <=? index) && (index <? q_size q)) ;;
  kderef (q_data q !! Z.to_nat index ≫= id).

(** The structure's own block and the queue. *)
Definition q_create (size : Z) : K H (option (Z * queue)) :=
  q <- kmalloc 16 (* sizeof(struct queue) *) ;;
  match q with
  | None => kret None
  | Some q =>
      data <- kmalloc (u32 (size * 4)) ;;
      match data with
      | None => kfree (Some q) ;; kret None
      | Some p =>
          kret (Some (q, Queue size 0 0 p
                          (replicate (Z.to_nat (u32 (size * 4) / 4)) None)))
      end
  end.

Definition q_destroy (addr : Z) : K QS unit :=
  e <- q_empty ;;
  kassert e ;;
  q <- the_queue ;;
  on_heap (kfree (Some (q_ptr q))) ;;
  on_heap (kfree (Some addr)).
End Ops.

#[global] Arguments q_addtail : simpl never.
#[global] Arguments q_refill : simpl never.
#[global] Arguments q_count : simpl never.

(** ** The abstract view *)

(** [q_rep q l]: the ring buffer holds the elements [l], head first.  One cell
    always stays unused, which is what tells a full queue from an empty one. *)
Record q_rep (q : queue) (l : list Z) : Prop := {
  rep_size : 0 < q_size q ≤ 2 ^ 29;
  rep_read : 0 ≤ q_nextread q < q_size q;
  rep_len : Z.of_nat (length l) < q_size q;
  rep_write : q_nextwrite q = (q_nextread q + Z.of_nat (length l)) mod q_size q;
  rep_cells : Z.of_nat (length (q_data q)) = q_size q;
  rep_items k x : l !! k = Some x →
    q_data q !! Z.to_nat ((q_nextread q + Z.of_nat k) mod q_size q) = Some (Some x);
}.

Section Ring.
(** Positions in a ring of [n] cells. *)
Lemma ring_wrap n a d :
  0 ≤ a < n → 0 ≤ d ≤ n → (a + d) mod n = if a + d <? n then a + d else a + d - n.
Proof.
  intros Ha Hd. destruct (Z.ltb_spec (a + d) n).
  - apply Z.mod_small. lia.
  - symmetry. apply Zmod_unique with 1; lia.
Qed.

Lemma ring_inj n a d e :
  0 ≤ a < n → 0 ≤ d < n → 0 ≤ e < n → (a + d) mod n = (a + e) mod n → d = e.
Proof.
  intros Ha Hd He. rewrite !ring_wrap by lia.
  destruct (Z.ltb_spec (a + d) n), (Z.ltb_spec (a + e) n); lia.
Qed.

Lemma ring_next n a d :
  0 ≤ a < n → 0 ≤ d < n → Z.rem ((a + d) mod n + 1) n = (a + (d + 1)) mod n.
Proof.
  intros Ha Hd. pose proof (Z.mod_pos_bound (a + d) n).
  rewrite Z.rem_mod_nonneg by lia.
  rewrite Zplus_mod_idemp_l. f_equal. lia.
Qed.
End Ring.

Section Refinement.
Context {H : Type} {HH : KernelHeap H}.
Implicit Types (h : H) (q : queue) (l : list Z).

(** The queue's block is one of the heap's. *)
Definition q_inv h q l : Prop := heap_ok h ∧ q_ptr q ∈ allocated h ∧ q_rep q l.

Lemma next_write q l :
  q_rep q l →
  Z.rem (q_nextwrite q + 1) (q_size q)
  = (q_nextread q + (Z.of_nat (length l) + 1)) mod q_size q.
Proof. intros [? ? ? -> ? ?]. apply ring_next; lia. Qed.

Lemma write_in_range q l :
  q_rep q l → (Z.to_nat (q_nextwrite q) < length (q_data q))%nat.
Proof.
  intros [? ? ? Hw ? ?]. rewrite Hw.
  pose proof (Z.mod_pos_bound (q_nextread q + Z.of_nat (length l)) (q_size q)). lia.
Qed.

(** Storing at the write position appends. *)
Lemma store_tail q l x :
  q_rep q l → Z.of_nat (length l) + 1 < q_size q →
  q_rep (Queue (q_size q) (Z.rem (q_nextwrite q + 1) (q_size q)) (q_nextread q)
           (q_ptr q) (<[Z.to_nat (q_nextwrite q) := Some x]> (q_data q)))
        (l ++ [x]).
Proof.
  intros Hrep Hroom. pose proof (next_write q l Hrep) as Hnw.
  pose proof (write_in_range q l Hrep) as Hin.
  destruct Hrep as [Hs Hr Hl Hw Hc Hi].
  constructor; cbn; [done|done| | |by rewrite length_insert|].
  - rewrite length_app. simpl. lia.
  - rewrite Hnw, length_app. simpl. f_equal. lia.
  - intros k y Hk.
    assert (Hkl : (k ≤ length l)%nat).
    { apply lookup_lt_Some in Hk. rewrite length_app in Hk. simpl in Hk. lia. }
    pose proof (Z.mod_pos_bound (q_nextread q + Z.of_nat k) (q_size q)).
    pose proof (Z.mod_pos_bound (q_nextread q + Z.of_nat (length l)) (q_size q)).
    destruct (decide (k = length l)) as [->|Hne].
    + rewrite lookup_app_r, Nat.sub_diag in Hk by lia. simplify_eq/=.
      rewrite Hw in *. by rewrite list_lookup_insert_eq.
    + rewrite lookup_app_l in Hk by lia. rewrite list_lookup_insert_ne; [auto|].
      rewrite Hw. intros E%Z2Nat.inj; [|lia..].
      apply ring_inj in E; lia.
Qed.

Lemma addtail_room d h q l x :
  q_rep q l → Z.of_nat (length l) + 1 < q_size q →
  ∃ q', q_addtail (S d) x (h, q) = Done (0, (h, q')) ∧ q_rep q' (l ++ [x]) ∧
        q_size q' = q_size q ∧ q_ptr q' = q_ptr q.
Proof.
  intros Hrep Hroom. pose proof (write_in_range q l Hrep) as Hin.
  pose proof (next_write q l Hrep) as Hnw.
  pose proof (store_tail q l x Hrep Hroom) as Hst.
  destruct Hrep as [Hs Hr Hl Hw Hc Hi].
  change (q_addtail (S d)) with (q_addtail_with (q_addtail d)).
  unfold q_addtail_with, kbind, the_queue, kgets, kassert, kderef; simpl.
  rewrite (proj2 (Z.ltb_lt _ _)) by lia.
  destruct (Z.eqb_spec (Z.rem (q_nextwrite q + 1) (q_size q)) (q_nextread q)) as [E|E].
  { exfalso. rewrite Hnw in E.
    rewrite ring_wrap in E by lia. destruct (Z.ltb_spec
      (q_nextread q + (Z.of_nat (length l) + 1)) (q_size q)); lia. }
  simpl. destruct (lookup_lt_is_Some_2 _ _ Hin) as [c ->].
  eexists. split; [done|]. split_and!; done.
Qed.

Lemma refill_ok d h q0 l q k m rounds :
  q_rep q0 l → (k + m = length l)%nat → (m < rounds)%nat →
  q_rep q (take k l) → Z.of_nat (length l) < q_size q →
  ∃ q', q_refill (q_addtail (S d)) rounds (q_data q0) (q_size q0) (q_nextwrite q0)
          ((q_nextread q0 + Z.of_nat k) mod q_size q0) (h, q)
        = Done (tt, (h, q')) ∧ q_rep q' l ∧ q_size q' = q_size q ∧ q_ptr q' = q_ptr q.
Proof.
  intros Hrep0. revert k q rounds. induction m as [|m IH]; intros k q rounds Hkm Hrounds
    Hrep Hroom; (destruct rounds as [|rounds]; [lia|]); unfold q_refill; fold (@q_refill H);
    pose proof Hrep0 as [Hs Hr Hl Hw Hc Hi].
  - replace k with (length l) in * by lia. rewrite Hw, Z.eqb_refl. simpl.
    rewrite firstn_all in Hrep. by exists q.
  - rewrite (proj2 (Z.eqb_neq _ _)).
    2:{ rewrite Hw. intros E%ring_inj; lia. }
    simpl. destruct (lookup_lt_is_Some_2 l k) as [x Hx]; [lia|].
    unfold kbind at 1. unfold kderef. rewrite (Hi k x Hx). simpl.
    destruct (addtail_room d h q (take k l) x Hrep) as (q1 & Hrun & Hrep1 & Hs1 & Hp1).
    { rewrite length_take. lia. }
    unfold kbind. rewrite Hrun. simpl.
    rewrite ring_next by lia.
    replace (Z.of_nat k + 1) with (Z.of_nat (S k)) by lia.
    rewrite <- (take_S_r _ _ _ Hx) in Hrep1.
    destruct (IH (S k) q1 rounds) as (q2 & -> & Hrep2 & Hs2 & Hp2);
      [lia|lia|done|lia|].
    exists q2. split_and!; [done..| |]; congruence.
Qed.

Lemma grow_size_step f t n :
  grow_size (S f) t n =
  if n <? t then
    if 0 <? i32 (n * 2) then grow_size f t (i32 (n * 2)) else Panic
  else Done n.
Proof. done. Qed.

Lemma grow_size_double s : 0 < s ≤ 2 ^ 28 → grow_size grow_fuel (s + 1) s = Done (s * 2).
Proof.
  intros Hs. unfold grow_fuel. rewrite grow_size_step.
  rewrite (proj2 (Z.ltb_lt s (s + 1))) by lia. rewrite i32_small by lia.
  rewrite (proj2 (Z.ltb_lt 0 _)) by lia. rewrite grow_size_step.
  by rewrite (proj2 (Z.ltb_ge _ _)) by lia.
Qed.

Lemma empty_rep n p :
  0 < n ≤ 2 ^ 29 → q_rep (Queue n 0 0 p (replicate (Z.to_nat n) None)) [].
Proof.
  intros Hn. constructor; cbn; [done|lia..| | |done].
  - by rewrite Z.mod_0_l by lia.
  - rewrite length_replicate. lia.
Qed.

(** A full queue doubles; the recursive calls never grow again. *)
Lemma q_grow_ok d h q l :
  q_inv h q l → q_size q ≤ 2 ^ 28 →
  match q_grow (S d) (q_size q + 1) (h, q) with
  | Done (r, (h', q')) =>
      allocated h' ∖ {[q_ptr q']} = allocated h ∖ {[q_ptr q]} ∧ q_inv h' q' l ∧
      (r = 0 ∧ q_size q' = q_size q * 2 ∨ r = ENOMEM ∧ q' = q)
  | Panic => ∃ sz h1, kmalloc sz h1 = Panic
  | Undef | Hang => False
  end.
Proof.
  intros (Hok & Hin & Hrep) Hmax. pose proof Hrep as [Hs Hr Hl Hw Hc Hi].
  unfold q_grow, q_grow_with, the_queue. unfold kbind at 1, kgets; cbn [fst snd].
  rewrite grow_size_double by lia.
  unfold kbind at 1, on_heap, kzoom; cbn [fst snd].
  rewrite u32_small by lia. rewrite Z.div_mul by done.
  assert (Hsz : heap_size (q_size q * 2 * 4)) by (unfold heap_size; lia).
  destruct (kmalloc _ h) as [[[p|] h1]| | |] eqn:E.
  - destruct (kmalloc_some _ _ _ _ Hok Hsz E) as (Hok1 & Hf & Ha1).
    unfold kbind at 1, set_queue, kmodify; cbn [fst snd].
    destruct (refill_ok d h1 q l (Queue (q_size q * 2) 0 0 p
                (replicate (Z.to_nat (q_size q * 2)) None)) 0 (length l)
                (S (Z.to_nat (q_size q)))) as (q' & Hrun & Hrep' & Hs' & Hp').
    { done. } { lia. } { lia. } { apply empty_rep. lia. } { simpl. lia. }
    unfold kbind at 1.
    rewrite Z.add_0_r, Z.mod_small in Hrun by lia. rewrite Hrun. cbn [fst snd].
    destruct (kfree_some h1 (q_ptr q) Hok1) as (h2 & Hfree & Hok2 & Ha2).
    { rewrite Ha1. clear -Hin. set_solver. }
    unfold kbind, kret; cbn [fst snd]. rewrite Hfree. simpl in Hp', Hs'.
    unfold q_inv. rewrite Ha2, Ha1, Hp'. split_and!; [|done| |done|by left].
    + clear -Hf Hin. set_solver.
    + clear -Hf Hin. set_solver.
  - destruct (kmalloc_none _ _ _ Hok Hsz E) as [Hok1 Ha1]. simpl.
    unfold q_inv. rewrite Ha1. split_and!; [done..|by right].
  - by eauto.
  - by apply (kmalloc_defined h (q_size q * 2 * 4)) in E.
  - by apply (kmalloc_defined h (q_size q * 2 * 4)) in E.
Qed.

Lemma full_iff q l :
  q_rep q l →
  (Z.rem (q_nextwrite q + 1) (q_size q) =? q_nextread q)
  = bool_decide (Z.of_nat (length l) + 1 = q_size q).
Proof.
  intros Hrep. rewrite (next_write q l Hrep). destruct Hrep as [Hs Hr Hl Hw Hc Hi].
  rewrite ring_wrap by lia. apply eq_true_iff_eq. rewrite bool_decide_eq_true, Z.eqb_eq.
  destruct (Z.ltb_spec (q_nextread q + (Z.of_nat (length l) + 1)) (q_size q)); lia.
Qed.

Lemma q_addtail_ok d h q l x :
  q_inv h q l → q_size q ≤ 2 ^ 28 →
  match q_addtail (S (S d)) x (h, q) with
  | Done (r, (h', q')) =>
      allocated h' ∖ {[q_ptr q']} = allocated h ∖ {[q_ptr q]} ∧
      (r = 0 ∧ q_inv h' q' (l ++ [x]) ∨ r = ENOMEM ∧ q' = q ∧ q_inv h' q l)
  | Panic => ∃ sz h1, kmalloc sz h1 = Panic
  | Undef | Hang => False
  end.
Proof.
  intros Hinv Hmax. pose proof Hinv as (Hok & Hin & Hrep).
  pose proof (full_iff q l Hrep) as Hfull. pose proof Hrep as [Hs Hr Hl Hw Hc Hi].
  destruct (decide (Z.of_nat (length l) + 1 = q_size q)) as [Hf|Hf].
  2:{ destruct (addtail_room (S d) h q l x Hrep) as (q' & -> & Hrep' & Hs' & Hp'); [lia|].
      unfold q_inv. rewrite Hp'. split; [done|]. left. split; [done|]. by split_and!. }
  change (q_addtail (S (S d))) with (q_addtail_with (q_addtail (S d))).
  unfold q_addtail_with, kbind at 1, the_queue at 1, kgets; cbn [fst snd].
  unfold kbind at 1, kassert. rewrite (proj2 (Z.ltb_lt _ _)) by lia.
  rewrite Hfull, bool_decide_true by done. cbv beta iota zeta.
  change (q_grow_with (q_addtail (S d))) with (q_grow (S d)).
  pose proof (q_grow_ok d h q l Hinv Hmax) as Hg. unfold kbind at 1.
  destruct (q_grow _ _ _) as [[r [h' q']]| | |]; [|done..].
  destruct Hg as (Hall & (Hok' & Hin' & Hrep') & [[-> Hs']|[-> ->]]).
  2:{ simpl. split; [done|]. right. by unfold q_inv. }
  simpl. unfold kbind, the_queue, kgets, kderef; simpl.
  destruct (lookup_lt_is_Some_2 _ _ (write_in_range q' l Hrep')) as [c ->].
  split; [done|]. left. split; [done|]. split; [done|]. split; [exact Hin'|].
  apply store_tail; [done|lia].
Qed.

Lemma empty_iff q l :
  q_rep q l → (q_nextwrite q =? q_nextread q) = bool_decide (l = []).
Proof.
  intros [Hs Hr Hl Hw Hc Hi]. rewrite Hw. apply eq_true_iff_eq.
  rewrite bool_decide_eq_true, Z.eqb_eq, ring_wrap, <- length_zero_iff_nil by lia.
  destruct (Z.ltb_spec (q_nextread q + Z.of_nat (length l)) (q_size q)); lia.
Qed.

Lemma head_cell q x l :
  q_rep q (x :: l) → q_data q !! Z.to_nat (q_nextread q) = Some (Some x).
Proof.
  intros [Hs Hr Hl Hw Hc Hi]. specialize (Hi 0%nat x eq_refl).
  by rewrite Z.add_0_r, Z.mod_small in Hi by lia.
Qed.

Lemma q_remhead_ok h q l :
  q_inv h q l →
  match l with
  | [] => q_remhead (h, q) = Panic
  | x :: l' => ∃ q', q_remhead (h, q) = Done (x, (h, q')) ∧ q_inv h q' l' ∧
                     q_ptr q' = q_ptr q ∧ q_size q' = q_size q
  end.
Proof.
  intros (Hok & Hin & Hrep). pose proof (empty_iff q l Hrep) as He.
  pose proof Hrep as [Hs Hr Hl Hw Hc Hi].
  unfold q_remhead, q_empty, kbind, the_queue, kgets, kassert, kderef, kret; simpl.
  rewrite (proj2 (Z.ltb_lt _ _)) by lia. cbn. rewrite He.
  destruct l as [|x l']; [done|]. rewrite bool_decide_false by done. simpl.
  rewrite (head_cell q x l' Hrep). simpl. eexists. split; [done|].
  unfold q_inv; cbn. split_and!; [done..| |done|done].
  assert (Hnext : Z.rem (q_nextread q + 1) (q_size q) = (q_nextread q + 1) mod q_size q).
  { apply Z.rem_mod_nonneg; lia. }
  simpl in Hl. pose proof (Z.mod_pos_bound (q_nextread q + 1) (q_size q)).
  constructor; cbn; [done|lia|lia| |done|].
  - rewrite Hw, Hnext, Zplus_mod_idemp_l. f_equal. simpl. lia.
  - intros k y Hk. rewrite Hnext, Zplus_mod_idemp_l.
    specialize (Hi (S k) y Hk).
    by replace (q_nextread q + 1 + Z.of_nat k) with (q_nextread q + Z.of_nat (S k)) by lia.
Qed.

Lemma q_count_ok q l k m rounds :
  q_rep q l → (k + m = length l)%nat → (m < rounds)%nat →
  q_count rounds q ((q_nextread q + Z.of_nat k) mod q_size q) (Z.of_nat k)
  = Done (Z.of_nat (length l)).
Proof.
  intros Hrep. revert k rounds. pose proof Hrep as [Hs Hr Hl Hw Hc Hi].
  induction m as [|m IH]; intros k rounds Hkm Hrounds;
    (destruct rounds as [|rounds]; [lia|]); unfold q_count; fold q_count.
  - replace k with (length l) by lia. by rewrite Hw, Z.eqb_refl.
  - rewrite (proj2 (Z.eqb_neq _ _)); [|rewrite Hw; intros E%ring_inj; lia].
    simpl. rewrite ring_next by lia.
    replace (Z.of_nat k + 1) with (Z.of_nat (S k)) by lia. apply IH; lia.
Qed.

Lemma q_len_ok h q l : q_rep q l → q_len (h, q) = Done (Z.of_nat (length l), (h, q)).
Proof.
  intros Hrep. unfold q_len, kbind, the_queue, kgets; cbn [fst snd].
  pose proof (q_count_ok q l 0 (length l) (S (Z.to_nat (q_size q))) Hrep) as Hc.
  pose proof Hrep as [Hs Hr Hl Hw _ _].
  change (Z.of_nat 0) with 0 in Hc.
  rewrite Z.add_0_r, Z.mod_small in Hc by lia. rewrite Hc by lia. done.
Qed.

Lemma q_peek_ok h q l : q_rep q l → q_peek (h, q) = Done (default 0 (head l), (h, q)).
Proof.
  intros Hrep. pose proof (empty_iff q l Hrep) as He. pose proof Hrep as [Hs _ _ _ _ _].
  unfold q_peek, q_empty, kbind, the_queue, kgets, kassert, kderef, kret; simpl.
  rewrite (proj2 (Z.ltb_lt _ _)) by lia. cbn. rewrite He.
  destruct l as [|x l']; [done|]. rewrite bool_decide_false by done.
  by rewrite (head_cell q x l' Hrep).
Qed.
End Refinement.

(** ** The component's theorems *)

(** A queue of four cells holding 5, 6 and 7 across the wrap; it is full. *)
Definition full_queue : queue :=
  Queue 4 1 2 2147483648 [Some 7; None; Some 5; Some 6].
Definition full_heap : refheap := RefHeap 2147483664 1 {[2147483648]}.

Lemma full_queue_inv : q_inv full_heap full_queue [5; 6; 7].
Proof.
  split_and!.
  - intros p Hp. simpl in Hp. apply elem_of_singleton in Hp. by subst.
  - reflexivity.
  - constructor; cbn; try lia; try done.
    intros [|[|[|k]]] x Hx; simplify_eq/=; done.
Qed.


