(* ===== verification/ThreadList.v ===== *)
(** * Thread lists (kern/thread/threadlist.c, kern/include/threadlist.h)

    Doubly linked lists with two bookend nodes in the list structure and one
    node embedded in each thread.  The store maps each node to its fields, so
    the pointer updates are modelled one by one and two lists may share the
    store.  The abstract view of a list is the sequence of its threads; the
    theorems show that every operation is the list operation, keeps [tl_count]
    the length, and leaves all nodes outside the list alone. *)

From Stdlib Require Import ZArith Lia.
From stdpp Require Import countable base numbers list gmap fin_maps.
From S2P Require Import Prelude.

Open Scope Z_scope.
Open Scope kernel_scope.

(** The address of a node: a bookend of list [l], or the node in thread [t]. *)
Inductive nptr :=
| HeadOf (l : Z)     (* &tl->tl_head *)
| TailOf (l : Z)     (* &tl->tl_tail *)
| NodeOf (t : Z).    (* &t->t_listnode *)

#[global] Instance nptr_eq_dec : EqDecision nptr.
Proof. solve_decision. Defined.

#[global] Instance nptr_countable : Countable nptr.
Proof.
  refine (inj_countable'
    (λ p, match p with HeadOf l => inl l | TailOf l => inr (inl l) | NodeOf t => inr (inr t) end)
    (λ s : Z + (Z + Z),
       match s with inl l => HeadOf l | inr (inl l) => TailOf l | inr (inr t) => NodeOf t end)
    _).
  by intros [].
Defined.

Record threadlistnode := Node {
  tln_prev : option nptr;
  tln_next : option nptr;
  tln_self : option Z;
}.

(** The nodes, and the [tl_count] of each list. *)
Record store := Store {
  nodes : gmap nptr threadlistnode;
  tl_count : gmap Z Z;
}.

Definition read (p : nptr) : K store threadlistnode :=
  s <- kget ;; kderef (nodes s !! p).

Definition write (p : nptr) (n : threadlistnode) : K store unit :=
  kmodify (λ s, Store (<[p := n]> (nodes s)) (tl_count s)).

Definition set_prev (p : nptr) (x : option nptr) : K store unit :=
  n <- read p ;; write p (Node x (tln_next n) (tln_self n)).

Definition set_next (p : nptr) (x : option nptr) : K store unit :=
  n <- read p ;; write p (Node (tln_prev n) x (tln_self n)).

Definition get_count (l : Z) : K store Z :=
  s <- kget ;; kderef (tl_count s !! l).

Definition set_count (l c : Z) : K store unit :=
  kmodify (λ s, Store (nodes s) (<[l := c]> (tl_count s))).

(** [KASSERT(t != NULL)]: [None] is NULL. *)
Definition threadlistnode_init (tln : nptr) (t : option Z) : K store unit :=
  kassert (match t with Some _ => true | None => false end) ;;
  write tln (Node None None t).

Definition threadlistnode_cleanup (tln : nptr) : K store unit :=
  n <- read tln ;;
  kassert (match tln_next n with None => true | _ => false end) ;;
  kassert (match tln_prev n with None => true | _ => false end) ;;
  kassert (match tln_self n with None => false | _ => true end).

Definition threadlist_init (tl : Z) : K store unit :=
  write (HeadOf tl) (Node None (Some (TailOf tl)) None) ;;
  write (TailOf tl) (Node (Some (HeadOf tl)) None None) ;;
  set_count tl 0.

Definition threadlist_isempty (tl : Z) : K store bool :=
  c <- get_count tl ;; kret (c =? 0).

Definition threadlist_cleanup (tl : Z) : K store unit :=
  e <- threadlist_isempty tl ;;
  kassert e ;;
  c <- get_count tl ;;
  kassert (c =? 0).

Definition threadlist_insertafternode (onlist : nptr) (t : Z) : K store unit :=
  let addee := NodeOf t in
  set_prev addee (Some onlist) ;;
  o <- read onlist ;;
  set_next addee (tln_next o) ;;
  a <- read addee ;;
  p <- kderef (tln_prev a) ;;
  set_next p (Some addee) ;;
  a <- read addee ;;
  n <- kderef (tln_next a) ;;
  set_prev n (Some addee).

Definition threadlist_insertbeforenode (t : Z) (onlist : nptr) : K store unit :=
  let addee := NodeOf t in
  o <- read onlist ;;
  set_prev addee (tln_prev o) ;;
  set_next addee (Some onlist) ;;
  a <- read addee ;;
  p <- kderef (tln_prev a) ;;
  set_next p (Some addee) ;;
  a <- read addee ;;
  n <- kderef (tln_next a) ;;
  set_prev n (Some addee).

Definition threadlist_removenode (tln : nptr) : K store unit :=
  x <- read tln ;;
  p <- kderef (tln_prev x) ;;
  set_next p (tln_next x) ;;
  x <- read tln ;;
  n <- kderef (tln_next x) ;;
  set_prev n (tln_prev x) ;;
  set_prev tln None ;;
  set_next tln None.

Definition threadlist_addhead (tl t : Z) : K store unit :=
  threadlist_insertafternode (HeadOf tl) t ;;
  c <- get_count tl ;;
  set_count tl (u32 (c + 1)).

Definition threadlist_addtail (tl t : Z) : K store unit :=
  threadlist_insertbeforenode t (TailOf tl) ;;
  c <- get_count tl ;;
  set_count tl (u32 (c + 1)).

Definition threadlist_remhead (tl : Z) : K store (option Z) :=
  h <- read (HeadOf tl) ;;
  tln <- kderef (tln_next h) ;;
  x <- read tln ;;
  match tln_next x with
  | None => kret None
  | Some _ =>
      threadlist_removenode tln ;;
      c <- get_count tl ;;
      set_count tl (u32 (c - 1)) ;;
      x <- read tln ;;
      kret (tln_self x)
  end.

Definition threadlist_remtail (tl : Z) : K store (option Z) :=
  h <- read (TailOf tl) ;;
  tln <- kderef (tln_prev h) ;;
  x <- read tln ;;
  match tln_prev x with
  | None => kret None
  | Some _ =>
      threadlist_removenode tln ;;
      c <- get_count tl ;;
      set_count tl (u32 (c - 1)) ;;
      x <- read tln ;;
      kret (tln_self x)
  end.

Definition threadlist_insertafter (tl onlist addee : Z) : K store unit :=
  threadlist_insertafternode (NodeOf onlist) addee ;;
  c <- get_count tl ;;
  set_count tl (u32 (c + 1)).

Definition threadlist_insertbefore (tl addee onlist : Z) : K store unit :=
  threadlist_insertbeforenode addee (NodeOf onlist) ;;
  c <- get_count tl ;;
  set_count tl (u32 (c + 1)).

Definition threadlist_remove (tl t : Z) : K store unit :=
  threadlist_removenode (NodeOf t) ;;
  c <- get_count tl ;;
  set_count tl (u32 (c - 1)).

(** ** The abstract view *)

Definition self_of (p : nptr) : option Z :=
  match p with NodeOf t => Some t | _ => None end.

(** The nodes of a list in order, bookends included. *)
Definition path (tl : Z) (ts : list Z) : list nptr :=
  HeadOf tl :: (NodeOf <$> ts) ++ [TailOf tl].

(** A linked segment entered from [prev] and left to [next]. *)
Fixpoint dseg (m : gmap nptr threadlistnode) (prev : option nptr)
    (ps : list nptr) (next : option nptr) : Prop :=
  match ps with
  | [] => True
  | p :: ps' =>
      m !! p = Some (Node prev (match ps' with [] => next | q :: _ => Some q end)
                          (self_of p)) ∧
      dseg m (Some p) ps' next
  end.

(** [tl_rep s tl ts]: in store [s], list [tl] holds the threads [ts]. *)
Record tl_rep (s : store) (tl : Z) (ts : list Z) : Prop := {
  rep_links : dseg (nodes s) None (path tl ts) None;
  rep_nodup : NoDup ts;
  rep_count : tl_count s !! tl = Some (Z.of_nat (length ts));
  rep_bound : Z.of_nat (length ts) < 2 ^ 32;
}.

(** The node of a thread that is on no list. *)
Definition detached (s : store) (t : Z) : Prop :=
  nodes s !! NodeOf t = Some (Node None None (Some t)).

Section Segments.
Implicit Types (m : gmap nptr threadlistnode) (ps qs : list nptr).

Definition first_or ps (next : option nptr) : option nptr :=
  match ps with [] => next | q :: _ => Some q end.
Definition last_or ps (prev : option nptr) : option nptr :=
  match last ps with None => prev | Some q => Some q end.

Lemma dseg_app m prev ps qs next :
  dseg m prev (ps ++ qs) next ↔
  dseg m prev ps (first_or qs next) ∧ dseg m (last_or ps prev) qs next.
Proof.
  revert prev. induction ps as [|p ps IH]; intros prev; [simpl; tauto|].
  cbn [app dseg]. rewrite IH.
  replace (last_or (p :: ps) prev) with (last_or ps (Some p)).
  2:{ unfold last_or. destruct ps as [|q ps]; [done|].
      change (last (p :: q :: ps)) with (last (q :: ps)).
      destruct (last (q :: ps)) eqn:E; [done|]. by apply last_None in E. }
  destruct ps as [|q ps]; simpl; [|tauto].
  unfold first_or. destruct qs; tauto.
Qed.

Lemma dseg_frame m m' prev ps next :
  (∀ p, p ∈ ps → m' !! p = m !! p) → dseg m prev ps next → dseg m' prev ps next.
Proof.
  revert prev. induction ps as [|p ps IH]; intros prev Hf; [done|].
  intros [Hp Hs]. split.
  - rewrite Hf; [done|]. left.
  - apply IH; [|done]. intros q Hq. apply Hf. by right.
Qed.

Lemma NoDup_path tl ts : NoDup ts → NoDup (path tl ts).
Proof.
  intros Hnd. unfold path. apply NoDup_cons. split.
  - rewrite elem_of_app, list_elem_of_fmap, list_elem_of_singleton. naive_solver.
  - apply NoDup_app. split_and!.
    + by apply NoDup_fmap_2; [intros ?? [=]|].
    + intros p (t & -> & _)%list_elem_of_fmap. by intros [=]%list_elem_of_singleton.
    + apply NoDup_singleton.
Qed.
End Segments.

(** ** Linking in and out *)

Section Links.
Implicit Types (m : gmap nptr threadlistnode) (s : store).

(** [m'] is [m] with the neighbours [a] and [b] pointing to [a'] and [b'],
    and node [n] set to [x]; every other node is as in [m]. *)
Record relinked m m' (a b n : nptr) (a' b' : option nptr) (x : threadlistnode) : Prop := {
  rl_a pa na sa : m !! a = Some (Node pa na sa) → m' !! a = Some (Node pa a' sa);
  rl_b pb nb sb : m !! b = Some (Node pb nb sb) → m' !! b = Some (Node b' nb sb);
  rl_n : m' !! n = Some x;
  rl_frame p : p ≠ a → p ≠ b → p ≠ n → m' !! p = m !! p;
}.

(** Peeling two neighbours out of the middle of a list. *)
Lemma dseg_middle m xs a b ys :
  dseg m None (xs ++ a :: b :: ys) None ↔
  dseg m None xs (Some a) ∧
  m !! a = Some (Node (last_or xs None) (Some b) (self_of a)) ∧
  m !! b = Some (Node (Some a) (first_or ys None) (self_of b)) ∧
  dseg m (Some b) ys None.
Proof. rewrite dseg_app. simpl. tauto. Qed.

Lemma dseg_middle3 m xs a n b ys :
  dseg m None (xs ++ a :: n :: b :: ys) None ↔
  dseg m None xs (Some a) ∧
  m !! a = Some (Node (last_or xs None) (Some n) (self_of a)) ∧
  m !! n = Some (Node (Some a) (Some b) (self_of n)) ∧
  m !! b = Some (Node (Some n) (first_or ys None) (self_of b)) ∧
  dseg m (Some b) ys None.
Proof. rewrite dseg_app. simpl. tauto. Qed.

Ltac in_path := rewrite ?elem_of_app, ?elem_of_cons in *; naive_solver.

Lemma dseg_link m m' xs a b ys n t :
  NoDup (xs ++ a :: b :: ys) → n ∉ xs ++ a :: b :: ys → self_of n = Some t →
  relinked m m' a b n (Some n) (Some n) (Node (Some a) (Some b) (Some t)) →
  dseg m None (xs ++ a :: b :: ys) None →
  dseg m' None (xs ++ a :: n :: b :: ys) None.
Proof.
  intros Hnd Hn Hself [Ha Hb Hx Hf] (Hxs & Hma & Hmb & Hys)%dseg_middle.
  apply NoDup_app in Hnd as (_ & Hdisj & Hnd').
  apply NoDup_cons in Hnd' as [Hab Hnd']. apply NoDup_cons in Hnd' as [Hby _].
  apply dseg_middle3. split_and!.
  - eapply dseg_frame, Hxs. intros p Hp. specialize (Hdisj p Hp). apply Hf; in_path.
  - by eapply Ha.
  - by rewrite Hself.
  - by eapply Hb.
  - eapply dseg_frame, Hys. intros p Hp. apply Hf; in_path.
Qed.

Lemma dseg_unlink m m' xs a n b ys x :
  NoDup (xs ++ a :: n :: b :: ys) →
  relinked m m' a b n (Some b) (Some a) x →
  dseg m None (xs ++ a :: n :: b :: ys) None →
  dseg m' None (xs ++ a :: b :: ys) None.
Proof.
  intros Hnd [Ha Hb Hx Hf] (Hxs & Hma & _ & Hmb & Hys)%dseg_middle3.
  apply NoDup_app in Hnd as (_ & Hdisj & Hnd').
  apply NoDup_cons in Hnd' as [Han Hnd']. apply NoDup_cons in Hnd' as [Hnb Hnd'].
  apply NoDup_cons in Hnd' as [Hby _].
  apply dseg_middle. split_and!.
  - eapply dseg_frame, Hxs. intros p Hp. specialize (Hdisj p Hp). apply Hf; in_path.
  - by eapply Ha.
  - by eapply Hb.
  - eapply dseg_frame, Hys. intros p Hp. apply Hf; in_path.
Qed.

Ltac run_store :=
  unfold set_prev, set_next, read, write, kbind, kget, kderef, kmodify; simpl;
  repeat (progress simplify_map_eq; simpl).

Lemma insertafternode_run s a b t pa sa nb sb n0 :
  a ≠ b → a ≠ NodeOf t → b ≠ NodeOf t →
  nodes s !! NodeOf t = Some n0 → tln_self n0 = Some t →
  nodes s !! a = Some (Node pa (Some b) sa) → nodes s !! b = Some (Node (Some a) nb sb) →
  ∃ m', threadlist_insertafternode a t s = Done (tt, Store m' (tl_count s)) ∧
    relinked (nodes s) m' a b (NodeOf t) (Some (NodeOf t)) (Some (NodeOf t))
      (Node (Some a) (Some b) (Some t)).
Proof.
  intros Hab Hat Hbt Hn Hself Ha Hb. unfold threadlist_insertafternode. run_store.
  rewrite Hself. eexists. split; [reflexivity|].
  constructor; intros; simplify_map_eq; done.
Qed.

Lemma insertbeforenode_run s a b t pa sa nb sb n0 :
  a ≠ b → a ≠ NodeOf t → b ≠ NodeOf t →
  nodes s !! NodeOf t = Some n0 → tln_self n0 = Some t →
  nodes s !! a = Some (Node pa (Some b) sa) → nodes s !! b = Some (Node (Some a) nb sb) →
  ∃ m', threadlist_insertbeforenode t b s = Done (tt, Store m' (tl_count s)) ∧
    relinked (nodes s) m' a b (NodeOf t) (Some (NodeOf t)) (Some (NodeOf t))
      (Node (Some a) (Some b) (Some t)).
Proof.
  intros Hab Hat Hbt Hn Hself Ha Hb. unfold threadlist_insertbeforenode. run_store.
  rewrite Hself. eexists. split; [reflexivity|].
  constructor; intros; simplify_map_eq; done.
Qed.

Lemma removenode_run s a b n pa sa nb sb self :
  a ≠ b → a ≠ n → b ≠ n →
  nodes s !! n = Some (Node (Some a) (Some b) self) →
  nodes s !! a = Some (Node pa (Some n) sa) → nodes s !! b = Some (Node (Some n) nb sb) →
  ∃ m', threadlist_removenode n s = Done (tt, Store m' (tl_count s)) ∧
    relinked (nodes s) m' a b n (Some b) (Some a) (Node None None self).
Proof.
  intros Hab Hat Hbt Hn Ha Hb. unfold threadlist_removenode. run_store.
  eexists. split; [reflexivity|].
  constructor; intros; simplify_map_eq; done.
Qed.
End Links.

(** ** The operations on the abstract view *)

Section Refinement.
Implicit Types (s : store) (ts xs ys : list Z).

(** Everything outside list [tl], holding [ts], and thread [t] is as before. *)
Definition untouched s s' (tl : Z) ts (t : Z) : Prop :=
  (∀ p, p ∉ path tl ts → p ≠ NodeOf t → nodes s' !! p = nodes s !! p) ∧
  (∀ l, l ≠ tl → tl_count s' !! l = tl_count s !! l).

Definition pred_of (tl : Z) xs : nptr :=
  match last xs with Some x => NodeOf x | None => HeadOf tl end.
Definition succ_of (tl : Z) ys : nptr :=
  match ys with y :: _ => NodeOf y | [] => TailOf tl end.

Lemma path_split tl xs ys :
  ∃ ps qs, ∀ zs, path tl (xs ++ zs ++ ys)
    = ps ++ pred_of tl xs :: (NodeOf <$> zs) ++ succ_of tl ys :: qs.
Proof.
  assert (∃ qs, (NodeOf <$> ys) ++ [TailOf tl] = succ_of tl ys :: qs) as [qs Hqs].
  { destruct ys; simpl; eauto. }
  assert (∃ ps, HeadOf tl :: (NodeOf <$> xs) = ps ++ [pred_of tl xs]) as [ps Hps].
  { unfold pred_of. destruct xs as [|x xs _] using rev_ind; [by exists []|].
    rewrite fmap_app, last_snoc. simpl. by exists (HeadOf tl :: (NodeOf <$> xs)). }
  exists ps, qs. intros zs. unfold path.
  rewrite !fmap_app, <- app_assoc, <- app_assoc, app_comm_cons.
  rewrite Hps, Hqs, <- app_assoc. done.
Qed.

Lemma node_in_path tl ts t : NodeOf t ∈ path tl ts ↔ t ∈ ts.
Proof.
  unfold path. rewrite elem_of_cons, elem_of_app, list_elem_of_fmap, list_elem_of_singleton.
  naive_solver.
Qed.

Lemma count_run s tl c f :
  tl_count s !! tl = Some c →
  kbind (get_count tl) (λ c, set_count tl (f c)) s
  = Done (tt, Store (nodes s) (<[tl := f c]> (tl_count s))).
Proof. intros Hc. unfold get_count, kbind, kget, kderef. by rewrite Hc. Qed.

Lemma relinked_untouched s m' c tl ts t (a b : nptr) a' b' x :
  relinked (nodes s) m' a b (NodeOf t) a' b' x → a ∈ path tl ts → b ∈ path tl ts →
  untouched s (Store m' (<[tl := c]> (tl_count s))) tl ts t.
Proof.
  intros [_ _ _ Hf] Ha Hb. split.
  - intros p Hp Hpt. apply Hf; congruence.
  - intros l Hl. simpl. by rewrite lookup_insert_ne.
Qed.

(** Linking a detached thread in at any point of the list, from either side. *)
Lemma insert_ok s tl xs ys t (op : K store unit) :
  tl_rep s tl (xs ++ ys) → detached s t → t ∉ xs ++ ys →
  Z.of_nat (length (xs ++ ys)) + 1 < 2 ^ 32 →
  op = threadlist_insertafternode (pred_of tl xs) t ∨
  op = threadlist_insertbeforenode t (succ_of tl ys) →
  ∃ s', kbind op (λ _, kbind (get_count tl) (λ c, set_count tl (u32 (c + 1)))) s
        = Done (tt, s') ∧
    tl_rep s' tl (xs ++ t :: ys) ∧ untouched s s' tl (xs ++ ys) t.
Proof.
  intros Hrep Hdet Ht Hlen Hop. pose proof Hrep as [Hl Hnd Hc Hb].
  destruct (path_split tl xs ys) as (ps & qs & Hpath).
  pose proof (Hpath []) as Hold. pose proof (Hpath [t]) as Hnew. simpl in Hold, Hnew.
  pose proof (NoDup_path tl _ Hnd) as Hndp.
  rewrite Hold in Hl, Hndp.
  assert (Hnt : NodeOf t ∉ ps ++ pred_of tl xs :: succ_of tl ys :: qs).
  { rewrite <- Hold. by rewrite node_in_path. }
  pose proof Hl as (_ & Hma & Hmb & _)%dseg_middle.
  pose proof Hndp as (_ & _ & [Hab _]%NoDup_cons)%NoDup_app.
  rewrite elem_of_app, !elem_of_cons in Hnt.
  rewrite elem_of_cons in Hab.
  assert (∃ m', op s = Done (tt, Store m' (tl_count s)) ∧
     relinked (nodes s) m' (pred_of tl xs) (succ_of tl ys) (NodeOf t)
       (Some (NodeOf t)) (Some (NodeOf t))
       (Node (Some (pred_of tl xs)) (Some (succ_of tl ys)) (Some t))) as (m' & Hrun & Hrl).
  { destruct Hop as [-> | ->];
      [eapply insertafternode_run|eapply insertbeforenode_run]; naive_solver. }
  unfold kbind at 1. rewrite Hrun. rewrite (count_run (Store m' (tl_count s)) tl _ (λ c, u32 (c + 1)) Hc).
  eexists. split; [done|]. split.
  - constructor; cbn [nodes tl_count].
    + rewrite Hnew. eapply dseg_link; [done| |done|done|done].
      by rewrite elem_of_app, !elem_of_cons.
    + rewrite <- (Permutation_middle xs ys t). apply NoDup_cons. done.
    + rewrite lookup_insert_eq. rewrite u32_small by lia.
      f_equal. rewrite !length_app. simpl. lia.
    + rewrite length_app in *. simpl. lia.
  - cbn [nodes tl_count]. eapply relinked_untouched; [done|rewrite Hold..]; set_solver.
Qed.

(** Unlinking a thread from any point of the list. *)
Lemma remove_ok s tl xs ys t :
  tl_rep s tl (xs ++ t :: ys) →
  ∃ s', kbind (threadlist_removenode (NodeOf t))
          (λ _, kbind (get_count tl) (λ c, set_count tl (u32 (c - 1)))) s = Done (tt, s') ∧
    tl_rep s' tl (xs ++ ys) ∧ detached s' t ∧ untouched s s' tl (xs ++ t :: ys) t.
Proof.
  intros Hrep. pose proof Hrep as [Hl Hnd Hc Hb].
  destruct (path_split tl xs ys) as (ps & qs & Hpath).
  pose proof (Hpath []) as Hnew. pose proof (Hpath [t]) as Hold. simpl in Hold, Hnew.
  pose proof (NoDup_path tl _ Hnd) as Hndp.
  rewrite Hold in Hl, Hndp.
  pose proof Hl as (_ & Hma & Hmt & Hmb & _)%dseg_middle3.
  pose proof Hndp as (_ & _ & [Hab [Htb _]%NoDup_cons]%NoDup_cons)%NoDup_app.
  rewrite !elem_of_cons in Hab. rewrite elem_of_cons in Htb.
  destruct (removenode_run s (pred_of tl xs) (succ_of tl ys) (NodeOf t)
              _ _ _ _ _ ltac:(naive_solver) ltac:(naive_solver) ltac:(naive_solver)
              Hmt Hma Hmb) as (m' & Hrun & Hrl).
  unfold kbind at 1. rewrite Hrun. rewrite (count_run (Store m' (tl_count s)) tl _ (λ c, u32 (c - 1)) Hc).
  eexists. split; [done|]. rewrite length_app in *. simpl in Hb. split_and!.
  - constructor; cbn [nodes tl_count].
    + rewrite Hnew. eapply dseg_unlink; done.
    + rewrite <- (Permutation_middle xs ys t) in Hnd. by apply NoDup_cons in Hnd as [_ ?].
    + rewrite lookup_insert_eq. rewrite u32_small by (simpl; lia).
      f_equal. rewrite !length_app. simpl. lia.
    + rewrite length_app. lia.
  - apply Hrl.
  - cbn [nodes tl_count]. eapply relinked_untouched; [done|rewrite Hold..]; set_solver.
Qed.

(** A list that shares no thread with the one changed stays as it is. *)
Lemma other_list s s' tl ts t l us :
  untouched s s' tl ts t → l ≠ tl → (∀ u, u ∈ us → u ∉ ts ∧ u ≠ t) →
  tl_rep s l us → tl_rep s' l us.
Proof.
  intros [Hf Hcf] Hne Hdisj [Hl Hnd Hc Hb].
  constructor; [|done|by rewrite Hcf|done].
  eapply dseg_frame, Hl. intros p Hp. unfold path in Hp.
  rewrite elem_of_cons, elem_of_app, list_elem_of_fmap, list_elem_of_singleton in Hp.
  destruct Hp as [->|[(u & -> & Hu)| ->]]; apply Hf; unfold path;
    rewrite ?elem_of_cons, ?elem_of_app, ?list_elem_of_fmap, ?list_elem_of_singleton;
    naive_solver.
Qed.

Lemma head_node s tl ts :
  tl_rep s tl ts →
  nodes s !! HeadOf tl = Some (Node None (Some (succ_of tl ts)) None).
Proof.
  intros [Hl _ _ _]. unfold path in Hl. simpl in Hl. destruct Hl as [Hh _].
  by destruct ts.
Qed.

Lemma tail_node s tl ts :
  tl_rep s tl ts →
  nodes s !! TailOf tl = Some (Node (Some (pred_of tl ts)) None None).
Proof.
  intros [Hl _ _ _]. unfold path in Hl. rewrite app_comm_cons in Hl.
  apply dseg_app in Hl as [_ [Ht _]]. rewrite Ht. do 2 f_equal.
  unfold last_or, pred_of. destruct ts as [|t ts _] using rev_ind; [done|].
  rewrite fmap_app. change (NodeOf <$> [t]) with [NodeOf t].
  by rewrite app_comm_cons, !last_snoc.
Qed.

(** The node of a thread on the list, with its two neighbours. *)
Lemma inner_node s tl xs t ys :
  tl_rep s tl (xs ++ t :: ys) →
  nodes s !! NodeOf t = Some (Node (Some (pred_of tl xs)) (Some (succ_of tl ys)) (Some t)).
Proof.
  intros [Hl _ _ _]. destruct (path_split tl xs ys) as (ps & qs & Hp).
  specialize (Hp [t]). simpl in Hp. rewrite Hp in Hl.
  by apply dseg_middle3 in Hl as (_ & _ & Ht & _).
Qed.

(** Removing the thread found at an end, and reading it back. *)
Lemma take_ok s tl xs t ys :
  tl_rep s tl (xs ++ t :: ys) →
  ∃ s', kbind (threadlist_removenode (NodeOf t))
          (λ _, kbind (get_count tl)
            (λ c, kbind (set_count tl (u32 (c - 1)))
              (λ _, kbind (read (NodeOf t)) (λ x, kret (tln_self x))))) s
        = Done (Some t, s') ∧
    tl_rep s' tl (xs ++ ys) ∧ detached s' t ∧ untouched s s' tl (xs ++ t :: ys) t.
Proof.
  intros Hrep. destruct (remove_ok s tl xs ys t Hrep) as (s' & Hrun & Hrep' & Hdet & Hu).
  exists s'. split; [|done].
  apply kbind_Done in Hrun as (? & s1 & Hrm & Hrun).
  apply kbind_Done in Hrun as (c & s2 & Hc & Hrun).
  rewrite (kbind_run _ _ _ _ _ Hrm), (kbind_run _ _ _ _ _ Hc).
  rewrite (kbind_run _ _ _ _ _ Hrun).
  unfold read, kbind, kget, kderef, kret. by rewrite Hdet.
Qed.

Lemma remhead_ok s tl ts :
  tl_rep s tl ts →
  match ts with
  | [] => threadlist_remhead tl s = Done (None, s)
  | t :: ts' =>
      ∃ s', threadlist_remhead tl s = Done (Some t, s') ∧ tl_rep s' tl ts' ∧
            detached s' t ∧ untouched s s' tl ts t
  end.
Proof.
  intros Hrep. unfold threadlist_remhead. unfold read, kbind, kget, kderef at 1.
  rewrite (head_node s tl ts Hrep). simpl. destruct ts as [|t ts].
  - simpl. unfold kderef. by rewrite (tail_node s tl [] Hrep).
  - pose proof (inner_node s tl [] t ts Hrep) as Hn. simpl. unfold kderef at 1.
    rewrite Hn. simpl. apply (take_ok s tl [] t ts Hrep).
Qed.

Lemma remtail_ok s tl ts :
  tl_rep s tl ts →
  (ts = [] → threadlist_remtail tl s = Done (None, s)) ∧
  (∀ us t, ts = us ++ [t] →
     ∃ s', threadlist_remtail tl s = Done (Some t, s') ∧ tl_rep s' tl us ∧
           detached s' t ∧ untouched s s' tl ts t).
Proof.
  intros Hrep. pose proof (tail_node s tl ts Hrep) as Ht. split.
  - intros ->. pose proof (head_node s tl [] Hrep) as Hh.
    change (pred_of tl []) with (HeadOf tl) in Ht.
    unfold threadlist_remtail, read, kbind, kget, kderef. rewrite Ht. simpl.
    by rewrite Hh.
  - intros us t ->. unfold threadlist_remtail. unfold read, kbind, kget, kderef at 1.
    rewrite Ht. simpl. unfold pred_of. rewrite last_snoc. unfold kderef at 1.
    rewrite (inner_node s tl us t [] Hrep). simpl.
    pose proof (take_ok s tl us t [] Hrep) as Hk. rewrite app_nil_r in Hk. apply Hk.
Qed.
End Refinement.

(** ** The component's theorems *)

(** Two lists in one store: list 1 holds threads 10 and 20, list 2 thread 30;
    thread 40 is on no list. *)
Definition two_lists : store := Store
  (list_to_map
    [ (HeadOf 1, Node None (Some (NodeOf 10)) None);
      (NodeOf 10, Node (Some (HeadOf 1)) (Some (NodeOf 20)) (Some 10));
      (NodeOf 20, Node (Some (NodeOf 10)) (Some (TailOf 1)) (Some 20));
      (TailOf 1, Node (Some (NodeOf 20)) None None);
      (HeadOf 2, Node None (Some (NodeOf 30)) None);
      (NodeOf 30, Node (Some (HeadOf 2)) (Some (TailOf 2)) (Some 30));
      (TailOf 2, Node (Some (NodeOf 30)) None None);
      (NodeOf 40, Node None None (Some 40)) ])
  (list_to_map [(1, 2); (2, 1)]).

Lemma two_lists_rep : tl_rep two_lists 1 [10; 20].
Proof.
  constructor; [by repeat split| |done|done].
  apply (bool_decide_unpack _). by vm_compute.
Qed.

(** C34. Insertion is list insertion: a thread on no list goes to the front,
    to the back, or next to a thread already there; [tl_count] stays the
    length, the links stay consistent in both directions, and no node outside
    the list changes, so every other list in the store is unaffected. *)
Theorem threadlist_insertion_refines s tl xs ys t :
  tl_rep s tl (xs ++ ys) → detached s t → t ∉ xs ++ ys →
  Z.of_nat (length (xs ++ ys)) + 1 < 2 ^ 32 →
  let inserted op :=
    ∃ s', op s = Done (tt, s') ∧ tl_rep s' tl (xs ++ t :: ys) ∧
          untouched s s' tl (xs ++ ys) t ∧
          (∀ l us, l ≠ tl → (∀ u, u ∈ us → u ∉ xs ++ ys ∧ u ≠ t) →
                   tl_rep s l us → tl_rep s' l us) in
  (xs = [] → inserted (threadlist_addhead tl t)) ∧
  (ys = [] → inserted (threadlist_addtail tl t)) ∧
  (∀ u, last xs = Some u → inserted (threadlist_insertafter tl u t)) ∧
  (∀ u, head ys = Some u → inserted (threadlist_insertbefore tl t u)).
Proof.
  intros Hrep Hdet Ht Hlen. cbv zeta.
  assert (Hgen : ∀ op,
    op = threadlist_insertafternode (pred_of tl xs) t ∨
    op = threadlist_insertbeforenode t (succ_of tl ys) →
    ∃ s', kbind op (λ _, kbind (get_count tl) (λ c, set_count tl (u32 (c + 1)))) s
          = Done (tt, s') ∧ tl_rep s' tl (xs ++ t :: ys) ∧ untouched s s' tl (xs ++ ys) t ∧
          (∀ l us, l ≠ tl → (∀ u, u ∈ us → u ∉ xs ++ ys ∧ u ≠ t) →
                   tl_rep s l us → tl_rep s' l us)).
  { intros op Hop.
    destruct (insert_ok s tl xs ys t op Hrep Hdet Ht Hlen Hop) as (s' & ? & ? & ?).
    exists s'. split_and!; eauto using other_list. }
  split_and!.
  - intros ->. apply (Hgen (threadlist_insertafternode (HeadOf tl) t)). by left.
  - intros ->. apply (Hgen (threadlist_insertbeforenode t (TailOf tl))). by right.
  - intros u Hu. apply (Hgen (threadlist_insertafternode (NodeOf u) t)).
    left. unfold pred_of. by rewrite Hu.
  - intros u Hu. apply (Hgen (threadlist_insertbeforenode t (NodeOf u))).
    right. by destruct ys; simplify_eq/=.
Qed.

Lemma threadlist_insertion_refines_witness :
  ∃ s', threadlist_insertafter 1 10 40 two_lists = Done (tt, s') ∧
        tl_rep s' 1 [10; 40; 20].
Proof.
  destruct (threadlist_insertion_refines two_lists 1 [10] [20] 40 two_lists_rep
              eq_refl ltac:(by apply (bool_decide_unpack _); vm_compute)
              ltac:(vm_compute; reflexivity)) as (_ & _ & Ha & _).
  destruct (Ha 10 eq_refl) as (s' & Hrun & Hrep & _). by exists s'.
Defined.

(** Removal is list removal: taking the first or the last thread returns
    it, or NULL and no change when the list is empty, and a given thread can
    be taken out of the middle; the thread removed is on no list afterwards,
    so it can be inserted again, and nothing outside the list changes. *)
Theorem threadlist_removal_refines s tl ts :
  tl_rep s tl ts →
  match ts with
  | [] => threadlist_remhead tl s = Done (None, s)
  | t :: ts' =>
      ∃ s', threadlist_remhead tl s = Done (Some t, s') ∧ tl_rep s' tl ts' ∧
            detached s' t ∧ untouched s s' tl ts t
  end ∧
  (ts = [] → threadlist_remtail tl s = Done (None, s)) ∧
  (∀ us t, ts = us ++ [t] →
     ∃ s', threadlist_remtail tl s = Done (Some t, s') ∧ tl_rep s' tl us ∧
           detached s' t ∧ untouched s s' tl ts t) ∧
  (∀ xs t ys, ts = xs ++ t :: ys →
     ∃ s', threadlist_remove tl t s = Done (tt, s') ∧ tl_rep s' tl (xs ++ ys) ∧
           detached s' t ∧ untouched s s' tl ts t) ∧
  threadlist_isempty tl s = Done (bool_decide (ts = []), s).
Proof.
  intros Hrep. pose proof (remtail_ok s tl ts Hrep) as [Ht1 Ht2]. split_and!.
  - by apply remhead_ok.
  - done.
  - done.
  - intros xs t ys ->. by apply remove_ok.
  - unfold threadlist_isempty, get_count, kbind, kget, kderef, kret.
    rewrite (rep_count _ _ _ Hrep). do 2 f_equal. apply eq_true_iff_eq.
    rewrite bool_decide_eq_true, Z.eqb_eq, <- length_zero_iff_nil. lia.
Qed.

Lemma threadlist_removal_refines_witness :
  ∃ s', threadlist_remhead 1 two_lists = Done (Some 10, s') ∧ tl_rep s' 1 [20] ∧
        detached s' 10.
Proof.
  destruct (threadlist_removal_refines two_lists 1 [10; 20] two_lists_rep)
    as ((s' & Hrun & Hrep & Hdet & _) & _).
  by exists s'.
Defined.
