(* ===== verification/Threads.v ===== *)
(** * Threads and processors (kern/thread/thread.c, kern/thread/clock.c, kern/proc/proc.c)

    The state of the thread system and its operations.  The functions take the
    number of the processor they run on ([me], the code's [curcpu]); thread
    lists are lists (ThreadList.v), the arrays of threads are those of Array.v,
    and blocks come from the kernel heap.  A function runs in one step, except
    that [thread_switch] leaves its idle loop to the other processors: an idle
    processor comes back through [idle_return].  Interrupt levels are in
    Spinlock.v and address spaces in Vm.v. *)

From stdpp Require Import base numbers list gmap fin_maps strings pretty.
From Stdlib Require Import ZArith Lia.
From S2P Require Import Prelude KernelHeap Array Wchan Spinlock.

Open Scope Z_scope.
Open Scope kernel_scope.

(** ** Data *)

Inductive threadstate_t := S_RUN | S_READY | S_SLEEP | S_ZOMBIE.
#[global] Instance threadstate_eq_dec : EqDecision threadstate_t.
Proof. solve_decision. Defined.

(** [t_guard] are the four words at the bottom of the stack, [t_context] is the
    entry point with its arguments until the thread has started. *)
Record thread := Thread {
  t_name : Z * string;
  t_wchan_name : option string;
  t_state : threadstate_t;
  t_stack : option Z;
  t_guard : list Z;
  t_context : option (Z * Z * Z);
  t_cpu : option nat;
  t_proc : option Z;
  t_in_interrupt : bool;
  t_spl : Z * Z;              (* t_curspl, t_iplhigh_count *)
}.

(** [c_ipi_line] is the interrupt line of the processor on the bus. *)
Record cpu := Cpu {
  c_self : Z;
  c_hardware_number : Z;
  c_curthread : Z;
  c_zombies : list Z;
  c_hardclocks : Z;
  c_isidle : bool;
  c_runqueue : list Z;
  c_runqueue_lock : option nat;
  c_ipi_pending : Z;
  c_shootdown : list (Z * Z);
  c_numshootdown : Z;
  c_ipi_lock : option nat;
  c_ipi_line : bool;
}.

(** What thread.c needs of a process: the threads in it. *)
Record tproc := Tproc { p_threads : array; p_lock : option nat }.

Record sys (H : Type) := Sys {
  s_heap : H;
  s_threads : gmap Z thread;
  s_allcpus : array;
  s_cpus : list cpu;
  s_wchans : gmap Z wchan;
  s_procs : gmap Z tproc;
  s_runprogram : option (Z * Z);  (* sem_runprogram: its count and its channel *)
}.
Arguments Sys {H} _ _ _ _ _ _ _.
Arguments s_heap {H} _.
Arguments s_threads {H} _.
Arguments s_allcpus {H} _.
Arguments s_cpus {H} _.
Arguments s_wchans {H} _.
Arguments s_procs {H} _.
Arguments s_runprogram {H} _.

Definition THREAD_STACK_MAGIC : Z := 0xbaadf00d.
Definition STACK_SIZE : Z := 4096.
Definition TLBSHOOTDOWN_MAX : Z := 16.
Definition TLBSHOOTDOWN_ALL : Z := -1.
Definition IPI_PANIC : Z := 0.
Definition IPI_OFFLINE : Z := 1.
Definition IPI_UNIDLE : Z := 2.
Definition IPI_TLBSHOOTDOWN : Z := 3.
Definition SCHEDULE_HARDCLOCKS : Z := 4.
Definition MIGRATE_HARDCLOCKS : Z := 16.

Definition sizeof_thread : Z := 100.
Definition sizeof_cpu : Z := 232.

(** Updates of a field. *)
Definition th_wchan_name n t := Thread (t_name t) n (t_state t) (t_stack t) (t_guard t) (t_context t) (t_cpu t) (t_proc t) (t_in_interrupt t) (t_spl t).
Definition th_state x t := Thread (t_name t) (t_wchan_name t) x (t_stack t) (t_guard t) (t_context t) (t_cpu t) (t_proc t) (t_in_interrupt t) (t_spl t).
Definition th_stack x t := Thread (t_name t) (t_wchan_name t) (t_state t) x (t_guard t) (t_context t) (t_cpu t) (t_proc t) (t_in_interrupt t) (t_spl t).
Definition th_guard x t := Thread (t_name t) (t_wchan_name t) (t_state t) (t_stack t) x (t_context t) (t_cpu t) (t_proc t) (t_in_interrupt t) (t_spl t).
Definition th_context x t := Thread (t_name t) (t_wchan_name t) (t_state t) (t_stack t) (t_guard t) x (t_cpu t) (t_proc t) (t_in_interrupt t) (t_spl t).
Definition th_cpu x t := Thread (t_name t) (t_wchan_name t) (t_state t) (t_stack t) (t_guard t) (t_context t) x (t_proc t) (t_in_interrupt t) (t_spl t).
Definition th_proc x t := Thread (t_name t) (t_wchan_name t) (t_state t) (t_stack t) (t_guard t) (t_context t) (t_cpu t) x (t_in_interrupt t) (t_spl t).
Definition th_spl x t := Thread (t_name t) (t_wchan_name t) (t_state t) (t_stack t) (t_guard t) (t_context t) (t_cpu t) (t_proc t) (t_in_interrupt t) x.

Definition cp_curthread x c := Cpu (c_self c) (c_hardware_number c) x (c_zombies c) (c_hardclocks c) (c_isidle c) (c_runqueue c) (c_runqueue_lock c) (c_ipi_pending c) (c_shootdown c) (c_numshootdown c) (c_ipi_lock c) (c_ipi_line c).
Definition cp_zombies x c := Cpu (c_self c) (c_hardware_number c) (c_curthread c) x (c_hardclocks c) (c_isidle c) (c_runqueue c) (c_runqueue_lock c) (c_ipi_pending c) (c_shootdown c) (c_numshootdown c) (c_ipi_lock c) (c_ipi_line c).
Definition cp_hardclocks x c := Cpu (c_self c) (c_hardware_number c) (c_curthread c) (c_zombies c) x (c_isidle c) (c_runqueue c) (c_runqueue_lock c) (c_ipi_pending c) (c_shootdown c) (c_numshootdown c) (c_ipi_lock c) (c_ipi_line c).
Definition cp_isidle x c := Cpu (c_self c) (c_hardware_number c) (c_curthread c) (c_zombies c) (c_hardclocks c) x (c_runqueue c) (c_runqueue_lock c) (c_ipi_pending c) (c_shootdown c) (c_numshootdown c) (c_ipi_lock c) (c_ipi_line c).
Definition cp_runqueue x c := Cpu (c_self c) (c_hardware_number c) (c_curthread c) (c_zombies c) (c_hardclocks c) (c_isidle c) x (c_runqueue_lock c) (c_ipi_pending c) (c_shootdown c) (c_numshootdown c) (c_ipi_lock c) (c_ipi_line c).
Definition cp_rqlock x c := Cpu (c_self c) (c_hardware_number c) (c_curthread c) (c_zombies c) (c_hardclocks c) (c_isidle c) (c_runqueue c) x (c_ipi_pending c) (c_shootdown c) (c_numshootdown c) (c_ipi_lock c) (c_ipi_line c).
Definition cp_ipi pending shootdown num line c := Cpu (c_self c) (c_hardware_number c) (c_curthread c) (c_zombies c) (c_hardclocks c) (c_isidle c) (c_runqueue c) (c_runqueue_lock c) pending shootdown num (c_ipi_lock c) line.
Definition cp_ipilock x c := Cpu (c_self c) (c_hardware_number c) (c_curthread c) (c_zombies c) (c_hardclocks c) (c_isidle c) (c_runqueue c) (c_runqueue_lock c) (c_ipi_pending c) (c_shootdown c) (c_numshootdown c) x (c_ipi_line c).

Definition wc_with (l : list Z) (k : option nat) (w : wchan) : wchan := Wchan (wc_name w) l k.

Section Threads.
Context {H : Type} {HH : KernelHeap H}.
Implicit Types (s : sys H) (me : nat).

(** ** Access *)

Definition upd_threads (f : gmap Z thread → gmap Z thread) s : sys H :=
  Sys (s_heap s) (f (s_threads s)) (s_allcpus s) (s_cpus s) (s_wchans s) (s_procs s) (s_runprogram s).
Definition upd_cpus (f : list cpu → list cpu) s : sys H :=
  Sys (s_heap s) (s_threads s) (s_allcpus s) (f (s_cpus s)) (s_wchans s) (s_procs s) (s_runprogram s).
Definition upd_wchans (f : gmap Z wchan → gmap Z wchan) s : sys H :=
  Sys (s_heap s) (s_threads s) (s_allcpus s) (s_cpus s) (f (s_wchans s)) (s_procs s) (s_runprogram s).
Definition upd_procs (f : gmap Z tproc → gmap Z tproc) s : sys H :=
  Sys (s_heap s) (s_threads s) (s_allcpus s) (s_cpus s) (s_wchans s) (f (s_procs s)) (s_runprogram s).
Definition upd_heap (h : H) s : sys H :=
  Sys h (s_threads s) (s_allcpus s) (s_cpus s) (s_wchans s) (s_procs s) (s_runprogram s).

Definition the_thread (t : Z) : K (sys H) thread := s <- kget ;; kderef (s_threads s !! t).
Definition the_cpu (c : nat) : K (sys H) cpu := s <- kget ;; kderef (s_cpus s !! c).
Definition the_wchan (w : Z) : K (sys H) wchan := s <- kget ;; kderef (s_wchans s !! w).
Definition the_proc (p : Z) : K (sys H) tproc := s <- kget ;; kderef (s_procs s !! p).
Definition set_thread (t : Z) (f : thread → thread) : K (sys H) unit := kmodify (upd_threads (alter f t)).
Definition set_cpu (c : nat) (f : cpu → cpu) : K (sys H) unit := kmodify (upd_cpus (alter f c)).
Definition set_wchan (w : Z) (f : wchan → wchan) : K (sys H) unit := kmodify (upd_wchans (alter f w)).
Definition set_proc (p : Z) (x : tproc) : K (sys H) unit := kmodify (upd_procs <[p := x]>).
Definition heap {A} (c : K H A) : K (sys H) A := kzoom s_heap upd_heap c.

Definition curthread me : K (sys H) Z := c <- the_cpu me ;; kret (c_curthread c).

(** [spinlock_acquire] on a lock whose holder is [l]: a processor that holds it
    already panics; one that another holds is never released within a step. *)
Definition spin_get me (l : option nat) : K (sys H) unit :=
  match l with
  | None => kret tt
  | Some c => if bool_decide (c = me) then kpanic else khang
  end.
Definition spin_put me (l : option nat) : K (sys H) unit := kassert (bool_decide (l = Some me)).

Definition rq_acquire me (c : nat) : K (sys H) unit :=
  x <- the_cpu c ;; spin_get me (c_runqueue_lock x) ;; set_cpu c (cp_rqlock (Some me)).
Definition rq_release me (c : nat) : K (sys H) unit :=
  x <- the_cpu c ;; spin_put me (c_runqueue_lock x) ;; set_cpu c (cp_rqlock None).
Definition ipi_acquire me (c : nat) : K (sys H) unit :=
  x <- the_cpu c ;; spin_get me (c_ipi_lock x) ;; set_cpu c (cp_ipilock (Some me)).
Definition ipi_release me (c : nat) : K (sys H) unit :=
  x <- the_cpu c ;; spin_put me (c_ipi_lock x) ;; set_cpu c (cp_ipilock None).

(** ** Processes' arrays of threads (proc.c) *)

Definition on_threads {A} (p : Z) (c : K (H * array) A) : K (sys H) A :=
  x <- the_proc p ;;
  s <- kget ;;
  match c (s_heap s, p_threads x) with
  | Done (r, (h, a)) => kput (upd_heap h s) ;; set_proc p (Tproc a (p_lock x)) ;; kret r
  | Panic => kpanic
  | Undef => kundef
  | Hang => khang
  end.

Definition plock_acquire me (p : Z) : K (sys H) unit :=
  x <- the_proc p ;; spin_get me (p_lock x) ;; set_proc p (Tproc (p_threads x) (Some me)).
Definition plock_release me (p : Z) : K (sys H) unit :=
  x <- the_proc p ;; spin_put me (p_lock x) ;; set_proc p (Tproc (p_threads x) None).

Definition proc_addthread me (p t : Z) : K (sys H) Z :=
  th <- the_thread t ;;
  kassert (bool_decide (t_proc th = None)) ;;
  plock_acquire me p ;;
  result <- on_threads p (array_add t) ;;
  plock_release me p ;;
  match result with
  | inl e => kret e
  | inr _ => set_thread t (th_proc (Some p)) ;; kret 0
  end.

(** The search, [k] steps from the end. *)
Fixpoint find_thread (p t num : Z) (k : nat) : K (sys H) (option Z) :=
  match k with
  | O => kret None
  | S k =>
      let i := num - Z.of_nat (S k) in
      u <- on_threads p (array_get i) ;;
      if u =? t then kret (Some i) else find_thread p t num k
  end.

Definition proc_remthread me (t : Z) : K (sys H) unit :=
  th <- the_thread t ;;
  match t_proc th with
  | None => kpanic
  | Some p =>
      plock_acquire me p ;;
      num <- on_threads p array_num ;;
      i <- find_thread p t num (Z.to_nat num) ;;
      match i with
      | Some i =>
          on_threads p (array_remove i) ;;
          plock_release me p ;;
          set_thread t (th_proc None)
      | None => plock_release me p ;; kpanic
      end
  end.

(** ** Threads *)

Definition thread_checkstack_init (t : Z) : K (sys H) unit :=
  set_thread t (th_guard (replicate 4 THREAD_STACK_MAGIC)).

Definition thread_checkstack (t : Z) : K (sys H) unit :=
  th <- the_thread t ;;
  match t_stack th with
  | None => kret tt
  | Some _ => kassert (bool_decide (t_guard th = replicate 4 THREAD_STACK_MAGIC))
  end.

Definition thread_create (name : string) : K (sys H) (option Z) :=
  p <- heap (kmalloc sizeof_thread) ;;
  match p with
  | None => kret None
  | Some t =>
      n <- heap (kstrdup name) ;;
      match n with
      | None => heap (kfree (Some t)) ;; kret None
      | Some n =>
          kmodify (upd_threads <[t := Thread n (Some "NEW") S_READY None [] None None None false (IPL_HIGH, 1)]>) ;;
          kret (Some t)
      end
  end.

Definition thread_destroy me (t : Z) : K (sys H) unit :=
  cur <- curthread me ;;
  kassert (negb (t =? cur)) ;;
  th <- the_thread t ;;
  kassert (negb (bool_decide (t_state th = S_RUN))) ;;
  kassert (bool_decide (t_proc th = None)) ;;
  heap (kfree (t_stack th)) ;;
  heap (kfree (Some (t_name th).1)) ;;
  heap (kfree (Some t)) ;;
  kmodify (upd_threads (delete t)).

(** [exorcise]; [zs] is the list when it begins. *)
Fixpoint exorcise_list me (zs : list Z) : K (sys H) unit :=
  match zs with
  | [] => kret tt
  | z :: zs =>
      set_cpu me (cp_zombies zs) ;;
      cur <- curthread me ;;
      kassert (negb (z =? cur)) ;;
      th <- the_thread z ;;
      kassert (bool_decide (t_state th = S_ZOMBIE)) ;;
      thread_destroy me z ;;
      exorcise_list me zs
  end.
Definition exorcise me : K (sys H) unit :=
  c <- the_cpu me ;; exorcise_list me (c_zombies c).

(** ** Interprocessor interrupts *)

Definition ipi_send me (target : nat) (code : Z) : K (sys H) unit :=
  kassert ((0 <=? code) && (code <? 32)) ;;
  ipi_acquire me target ;;
  set_cpu target (λ c, cp_ipi (Z.lor (c_ipi_pending c) (Z.shiftl 1 code)) (c_shootdown c) (c_numshootdown c) true c) ;;
  ipi_release me target.

Fixpoint ipi_broadcast_from me (code : Z) (i k : nat) : K (sys H) unit :=
  match k with
  | O => kret tt
  | S k =>
      (if bool_decide (i = me) then kret tt else ipi_send me i code) ;;
      ipi_broadcast_from me code (S i) k
  end.
Definition ipi_broadcast me (code : Z) : K (sys H) unit :=
  s <- kget ;; ipi_broadcast_from me code 0 (length (s_cpus s)).

Definition ipi_tlbshootdown me (target : nat) (mapping : Z * Z) : K (sys H) unit :=
  ipi_acquire me target ;;
  c <- the_cpu target ;;
  let n := c_numshootdown c in
  (if n =? TLBSHOOTDOWN_MAX
   then set_cpu target (λ c, cp_ipi (c_ipi_pending c) (c_shootdown c) TLBSHOOTDOWN_ALL (c_ipi_line c) c)
   else if (0 <=? n) && (n <? TLBSHOOTDOWN_MAX)
   then set_cpu target (λ c, cp_ipi (c_ipi_pending c) (<[Z.to_nat n := mapping]> (c_shootdown c)) (n + 1) (c_ipi_line c) c)
   else kundef) ;;
  set_cpu target (λ c, cp_ipi (Z.lor (c_ipi_pending c) (Z.shiftl 1 IPI_TLBSHOOTDOWN)) (c_shootdown c) (c_numshootdown c) true c) ;;
  ipi_release me target.

(** [vm_tlbshootdown_all] and [vm_tlbshootdown] panic (vm.c); the result says
    whether the processor halted. *)
Definition interprocessor_interrupt me : K (sys H) bool :=
  ipi_acquire me me ;;
  c <- the_cpu me ;;
  let bits := c_ipi_pending c in
  if Z.testbit bits IPI_PANIC then kret true
  else if Z.testbit bits IPI_OFFLINE then
    rq_acquire me me ;; rq_release me me ;; kret true
  else
    (if Z.testbit bits IPI_TLBSHOOTDOWN then
       (if c_numshootdown c =? TLBSHOOTDOWN_ALL then kpanic
        else if 0 <? c_numshootdown c then kpanic else kret tt) ;;
       set_cpu me (λ c, cp_ipi (c_ipi_pending c) (c_shootdown c) 0 (c_ipi_line c) c)
     else kret tt) ;;
    set_cpu me (λ c, cp_ipi 0 (c_shootdown c) (c_numshootdown c) (c_ipi_line c) c) ;;
    ipi_release me me ;;
    kret false.

Definition thread_panic me : K (sys H) unit :=
  ipi_broadcast me IPI_PANIC ;;
  set_cpu me (cp_runqueue []).
Definition thread_shutdown me : K (sys H) unit := ipi_broadcast me IPI_OFFLINE.

(** ** Running threads *)

Definition thread_make_runnable me (target : Z) (already_have_lock : bool) : K (sys H) unit :=
  th <- the_thread target ;;
  targetcpu <- kderef (t_cpu th) ;;
  (if already_have_lock
   then c <- the_cpu targetcpu ;; kassert (bool_decide (c_runqueue_lock c = Some me))
   else rq_acquire me targetcpu) ;;
  c <- the_cpu targetcpu ;;
  let isidle := c_isidle c in
  set_cpu targetcpu (cp_runqueue (c_runqueue c ++ [target])) ;;
  (if isidle then ipi_send me targetcpu IPI_UNIDLE else kret tt) ;;
  if already_have_lock then kret tt else rq_release me targetcpu.

Definition thread_fork me (name : string) (proc : option Z) (entrypoint data1 data2 : Z) : K (sys H) Z :=
  newthread <- thread_create name ;;
  match newthread with
  | None => kret ENOMEM
  | Some t =>
      stack <- heap (kmalloc STACK_SIZE) ;;
      set_thread t (th_stack stack) ;;
      match stack with
      | None => thread_destroy me t ;; kret ENOMEM
      | Some _ =>
          thread_checkstack_init t ;;
          cur <- curthread me ;;
          ct <- the_thread cur ;;
          set_thread t (th_cpu (t_cpu ct)) ;;
          proc <- kderef (match proc with Some p => Some p | None => t_proc ct end) ;;
          result <- proc_addthread me proc t ;;
          if negb (result =? 0) then thread_destroy me t ;; kret result
          else
            set_thread t (λ th, th_spl ((t_spl th).1, i32 ((t_spl th).2 + 1)) th) ;;
            set_thread t (th_context (Some (entrypoint, data1, data2))) ;;
            thread_make_runnable me t false ;;
            kret 0
      end
  end.

(** The tail of [thread_switch], in the thread that now runs; [thread_startup]
    begins with the same statements. *)
Definition switch_in me : K (sys H) unit :=
  cur <- curthread me ;;
  set_thread cur (th_wchan_name None) ;;
  set_thread cur (th_state S_RUN) ;;
  rq_release me me ;;
  exorcise me.

(** One round of the idle loop, with the run queue locked: the next thread, or
    none and the queue unlocked. *)
Definition idle_round me : K (sys H) unit :=
  c <- the_cpu me ;;
  match c_runqueue c with
  | [] => rq_release me me
  | next :: q =>
      set_cpu me (cp_runqueue q) ;;
      set_cpu me (cp_isidle false) ;;
      set_cpu me (cp_curthread next) ;;
      switch_in me
  end.

(** [cpu_idle] has returned. *)
Definition idle_return me : K (sys H) unit :=
  rq_acquire me me ;; idle_round me.

Definition wchan_lock me (w : Z) : K (sys H) unit :=
  x <- the_wchan w ;; spin_get me (wc_lock x) ;; set_wchan w (λ x, wc_with (wc_threads x) (Some me) x).
Definition wchan_unlock me (w : Z) : K (sys H) unit :=
  x <- the_wchan w ;; spin_put me (wc_lock x) ;; set_wchan w (λ x, wc_with (wc_threads x) None x).

(** The switch statement: put the thread in the right place. *)
Definition park_thread me (cur : Z) (newstate : threadstate_t) (wc : option Z) : K (sys H) unit :=
  match newstate with
  | S_RUN => kpanic
  | S_READY => thread_make_runnable me cur true
  | S_SLEEP =>
      w <- kderef wc ;;
      x <- the_wchan w ;;
      set_thread cur (th_wchan_name (Some (wc_name x))) ;;
      set_wchan w (λ x, wc_with (wc_threads x ++ [cur]) (wc_lock x) x) ;;
      wchan_unlock me w
  | S_ZOMBIE =>
      set_thread cur (th_wchan_name (Some "ZOMBIE")) ;;
      set_cpu me (λ c, cp_zombies (c_zombies c ++ [cur]) c)
  end.

Definition thread_switch me (newstate : threadstate_t) (wc : option Z) : K (sys H) unit :=
  c <- the_cpu me ;;
  let cur := c_curthread c in
  if c_isidle c then kret tt
  else
    thread_checkstack cur ;;
    rq_acquire me me ;;
    if bool_decide (newstate = S_READY) && bool_decide (c_runqueue c = []) then rq_release me me
    else
      park_thread me cur newstate wc ;;
      set_thread cur (th_state newstate) ;;
      set_cpu me (cp_isidle true) ;;
      idle_round me.

Definition thread_yield me : K (sys H) unit := thread_switch me S_READY None.

(** ** Wait channels *)

Definition wchan_sleep me (w : Z) : K (sys H) unit :=
  cur <- curthread me ;;
  th <- the_thread cur ;;
  kassert (negb (t_in_interrupt th)) ;;
  thread_switch me S_SLEEP (Some w).

Definition wchan_wakeone me (w : Z) : K (sys H) unit :=
  wchan_lock me w ;;
  x <- the_wchan w ;;
  match wc_threads x with
  | [] => wchan_unlock me w
  | target :: l =>
      set_wchan w (λ x, wc_with l (wc_lock x) x) ;;
      wchan_unlock me w ;;
      thread_make_runnable me target false
  end.

Fixpoint make_all_runnable me (l : list Z) : K (sys H) unit :=
  match l with
  | [] => kret tt
  | target :: l => thread_make_runnable me target false ;; make_all_runnable me l
  end.

Definition wchan_wakeall me (w : Z) : K (sys H) unit :=
  wchan_lock me w ;;
  x <- the_wchan w ;;
  let l := wc_threads x in
  set_wchan w (λ x, wc_with [] (wc_lock x) x) ;;
  wchan_unlock me w ;;
  make_all_runnable me l.

Definition wchan_isempty me (w : Z) : K (sys H) bool :=
  wchan_lock me w ;;
  x <- the_wchan w ;;
  wchan_unlock me w ;;
  kret (bool_decide (wc_threads x = [])).

(** ** Exiting *)

(** [V(sem_runprogram)], as one step. *)
Definition V_runprogram me : K (sys H) unit :=
  s <- kget ;;
  match s_runprogram s with
  | None => kret tt
  | Some (count, w) =>
      kmodify (λ s, Sys (s_heap s) (s_threads s) (s_allcpus s) (s_cpus s) (s_wchans s) (s_procs s)
                        (Some (i32 (count + 1), w))) ;;
      kassert (0 <? i32 (count + 1)) ;;
      wchan_wakeone me w
  end.

Definition thread_exit me : K (sys H) unit :=
  cur <- curthread me ;;
  proc_remthread me cur ;;
  th <- the_thread cur ;;
  kassert (bool_decide (t_proc th = None)) ;;
  thread_checkstack cur ;;
  V_runprogram me ;;
  thread_switch me S_ZOMBIE None.

(** ** Migration *)

(** The counts of the run queues, and that of [me]. *)
Fixpoint count_threads me (i k : nat) (my_count total_count : Z) : K (sys H) (Z * Z) :=
  match k with
  | O => kret (my_count, total_count)
  | S k =>
      rq_acquire me i ;;
      c <- the_cpu i ;;
      let n := Z.of_nat (length (c_runqueue c)) in
      rq_release me i ;;
      count_threads me (S i) k (if bool_decide (i = me) then n else my_count) (u32 (total_count + n))
  end.

(** Take [k] threads off the end of the run queue, each to the front of
    [victims]. *)
Fixpoint take_victims me (k : nat) (victims : list Z) : K (sys H) (list Z) :=
  match k with
  | O => kret victims
  | S k =>
      c <- the_cpu me ;;
      t <- kderef (last (c_runqueue c)) ;;
      set_cpu me (cp_runqueue (removelast (c_runqueue c))) ;;
      take_victims me k (t :: victims)
  end.

(** Hand victims to processor [i] until it has its share. *)
Fixpoint give_victims me (i : nat) (one_share : Z) (to_send : nat) (victims : list Z) : K (sys H) (nat * list Z) :=
  match to_send with
  | O => kret (O, victims)
  | S k =>
      c <- the_cpu i ;;
      if Z.of_nat (length (c_runqueue c)) <? one_share then
        match victims with
        | [] => kundef
        | t :: victims =>
            cur <- curthread me ;;
            if t =? cur then give_victims me i one_share k (victims ++ [t])
            else
              set_thread t (th_cpu (Some i)) ;;
              set_cpu i (cp_runqueue (c_runqueue c ++ [t])) ;;
              (if c_isidle c then ipi_send me i IPI_UNIDLE else kret tt) ;;
              give_victims me i one_share k victims
        end
      else kret (S k, victims)
  end.

Fixpoint spread_victims me (i k : nat) (one_share : Z) (to_send : nat) (victims : list Z) : K (sys H) (list Z) :=
  match k with
  | O => kret victims
  | S k =>
      match to_send with
      | O => kret victims
      | S _ =>
          if bool_decide (i = me) then spread_victims me (S i) k one_share to_send victims
          else
            rq_acquire me i ;;
            r <- give_victims me i one_share to_send victims ;;
            rq_release me i ;;
            spread_victims me (S i) k one_share r.1 r.2
      end
  end.

Definition thread_consider_migration me : K (sys H) unit :=
  s <- kget ;;
  let numcpus := length (s_cpus s) in
  r <- count_threads me 0 numcpus 0 0 ;;
  let my_count := r.1 in
  let one_share := DIVROUNDUP r.2 (Z.of_nat numcpus) in
  if my_count <? one_share then kret tt
  else
    let to_send := Z.to_nat (my_count - one_share) in
    rq_acquire me me ;;
    victims <- take_victims me to_send [] ;;
    rq_release me me ;;
    victims <- spread_victims me 0 numcpus one_share to_send victims ;;
    match victims with
    | [] => kret tt
    | _ =>
        rq_acquire me me ;;
        set_cpu me (λ c, cp_runqueue (c_runqueue c ++ victims) c) ;;
        rq_release me me
    end.

(** ** The clock *)

Definition hardclock me : K (sys H) unit :=
  set_cpu me (λ c, cp_hardclocks (u32 (c_hardclocks c + 1)) c) ;;
  c <- the_cpu me ;;
  (if c_hardclocks c mod MIGRATE_HARDCLOCKS =? 0 then thread_consider_migration me else kret tt) ;;
  thread_yield me.

Definition timerclock me (lbolt : Z) : K (sys H) unit := wchan_wakeall me lbolt.

(** ** New processors *)

(** What [snprintf] leaves in [namebuf], of 16 bytes. *)
Definition boot_name (number : nat) : string :=
  String.substring 0 15 ("<boot #" +:+ pretty (Z.of_nat number) +:+ ">").

(** The boot processor's thread keeps the boot stack. *)
Definition boot_stack (number : nat) (t : Z) : K (sys H) unit :=
  if bool_decide (number = O) then kret tt
  else
    stack <- heap (kmalloc STACK_SIZE) ;;
    set_thread t (th_stack stack) ;;
    match stack with None => kpanic | Some _ => thread_checkstack_init t end.

(** [kproc] is the kernel's own process. *)
Definition cpu_create (kproc hardware_number : Z) : K (sys H) unit :=
  c <- heap (kmalloc sizeof_cpu) ;;
  match c with
  | None => kpanic
  | Some c =>
      s <- kget ;;
      match array_add c (s_heap s, s_allcpus s) with
      | Done (inr _, (h, a)) =>
          let number := length (s_cpus s) in
          kput (Sys h (s_threads s) a (s_cpus s) (s_wchans s) (s_procs s) (s_runprogram s)) ;;
          t <- thread_create (boot_name number) ;;
          match t with
          | None => kpanic
          | Some t =>
              result <- proc_addthread number kproc t ;;
              (if negb (result =? 0) then kpanic else kret tt) ;;
              boot_stack number t ;;
              set_thread t (th_cpu (Some number)) ;;
              kmodify (upd_cpus (λ l, l ++ [Cpu c hardware_number t [] 0 false [] None 0
                                               (replicate (Z.to_nat TLBSHOOTDOWN_MAX) (0, 0)) 0 None false]))
          end
      | Done (inl _, _) => kpanic
      | Panic => kpanic
      | Undef => kundef
      | Hang => khang
      end
  end.
End Threads.
