(* ===== verification/ThreadsRun.v ===== *)
(** * Running the thread system's operations

    Equations that say what the operations of Threads.v do to a state in which
    the locks are free: which fields change, and to what. *)

From stdpp Require Import base numbers list gmap fin_maps strings.
From Stdlib Require Import ZArith Lia.
From S2P Require Import Prelude KernelHeap Array Wchan Spinlock Threads.

Open Scope Z_scope.
Open Scope kernel_scope.

(** [kcall] with holes for what the goal determines. *)
Tactic Notation "kgo" uconstr(E) := erewrite (kbind_run _ _ _ _ _ E); cbv beta iota.

(** The processor with [t] at the end of its run queue, and the interrupt that
    wakes it up if it was idle. *)
Definition enq (t : Z) (x : cpu) : cpu :=
  let x1 := cp_runqueue (c_runqueue x ++ [t]) x in
  if c_isidle x
  then cp_ipi (Z.lor (c_ipi_pending x) (Z.shiftl 1 IPI_UNIDLE)) (c_shootdown x) (c_numshootdown x) true x1
  else x1.

Section CpuFields.
Lemma cp_rqlock_twice a b x : cp_rqlock a (cp_rqlock b x) = cp_rqlock a x.
Proof. done. Qed.
Lemma cp_rqlock_id x : cp_rqlock (c_runqueue_lock x) x = x.
Proof. by destruct x. Qed.
Lemma cp_ipilock_id x : cp_ipilock (c_ipi_lock x) x = x.
Proof. by destruct x. Qed.
Lemma enq_fields t x :
  c_runqueue (enq t x) = c_runqueue x ++ [t] ∧ c_zombies (enq t x) = c_zombies x ∧
  c_curthread (enq t x) = c_curthread x ∧ c_isidle (enq t x) = c_isidle x ∧
  c_runqueue_lock (enq t x) = c_runqueue_lock x ∧ c_ipi_lock (enq t x) = c_ipi_lock x ∧
  c_shootdown (enq t x) = c_shootdown x ∧ c_numshootdown (enq t x) = c_numshootdown x ∧
  c_ipi_pending (enq t x) =
    (if c_isidle x then Z.lor (c_ipi_pending x) (Z.shiftl 1 IPI_UNIDLE) else c_ipi_pending x).
Proof. unfold enq. by destruct x as [? ? ? ? ? []]. Qed.
End CpuFields.

Section Run.
Context {H : Type} {HH : KernelHeap H}.
Implicit Types (h : H) (T : gmap Z thread) (a : array) (C : list cpu) (W : gmap Z wchan) (P : gmap Z tproc) (r : option (Z * Z)) (me c : nat).

Lemma insert_twice C c (x y : cpu) : <[c := x]> (<[c := y]> C) = <[c := x]> C.
Proof. by rewrite list_insert_insert_eq. Qed.
Lemma lookup_cpu_same C c (x y : cpu) : C !! c = Some x → <[c := y]> C !! c = Some y.
Proof. intros Hc. apply list_lookup_insert_eq. by eapply lookup_lt_Some. Qed.
Lemma alter_cpu C c x (f : cpu → cpu) : C !! c = Some x → alter f c C = <[c := f x]> C.
Proof.
  intros Hc. apply list_eq. intros i. destruct (decide (i = c)) as [->|Hne].
  - rewrite list_lookup_alter_eq, Hc, (lookup_cpu_same _ _ x) by done. done.
  - by rewrite list_lookup_alter_ne, list_lookup_insert_ne by done.
Qed.
Lemma alter_map {A} (M : gmap Z A) k x (f : A → A) : M !! k = Some x → alter f k M = <[k := f x]> M.
Proof. intros Hk. apply map_eq. intros i. destruct (decide (i = k)) as [->|]; by simplify_map_eq. Qed.

(** *** Access *)

Lemma run_the_cpu h T a C W P r c x :
  C !! c = Some x → the_cpu c (Sys h T a C W P r) = Done (x, Sys h T a C W P r).
Proof. intros Hc. unfold the_cpu. ksteps. unfold kderef. simpl. by rewrite Hc. Qed.
Lemma run_the_thread h T a C W P r t x :
  T !! t = Some x → the_thread t (Sys h T a C W P r) = Done (x, Sys h T a C W P r).
Proof. intros Hc. unfold the_thread. ksteps. unfold kderef. simpl. by rewrite Hc. Qed.
Lemma run_the_wchan h T a C W P r w x :
  W !! w = Some x → the_wchan w (Sys h T a C W P r) = Done (x, Sys h T a C W P r).
Proof. intros Hc. unfold the_wchan. ksteps. unfold kderef. simpl. by rewrite Hc. Qed.
Lemma run_the_proc h T a C W P r p x :
  P !! p = Some x → the_proc p (Sys h T a C W P r) = Done (x, Sys h T a C W P r).
Proof. intros Hc. unfold the_proc. ksteps. unfold kderef. simpl. by rewrite Hc. Qed.
Lemma run_set_cpu h T a C W P r c x f :
  C !! c = Some x → set_cpu c f (Sys h T a C W P r) = Done (tt, Sys h T a (<[c := f x]> C) W P r).
Proof. intros Hc. unfold set_cpu, kmodify, upd_cpus. simpl. by rewrite (alter_cpu _ _ x). Qed.
Lemma run_set_thread h T a C W P r t x f :
  T !! t = Some x → set_thread t f (Sys h T a C W P r) = Done (tt, Sys h (<[t := f x]> T) a C W P r).
Proof. intros Hc. unfold set_thread, kmodify, upd_threads. simpl. by rewrite (alter_map _ _ x). Qed.
Lemma run_set_wchan h T a C W P r w x f :
  W !! w = Some x → set_wchan w f (Sys h T a C W P r) = Done (tt, Sys h T a C (<[w := f x]> W) P r).
Proof. intros Hc. unfold set_wchan, kmodify, upd_wchans. simpl. by rewrite (alter_map _ _ x). Qed.
Lemma run_curthread h T a C W P r me x :
  C !! me = Some x → curthread me (Sys h T a C W P r) = Done (c_curthread x, Sys h T a C W P r).
Proof. intros Hc. unfold curthread. by kgo (run_the_cpu h T a C W P r me x Hc). Qed.

(** *** Locks *)

Lemma run_rq_acquire h T a C W P r me c x :
  C !! c = Some x → c_runqueue_lock x = None →
  rq_acquire me c (Sys h T a C W P r) = Done (tt, Sys h T a (<[c := cp_rqlock (Some me) x]> C) W P r).
Proof.
  intros Hc Hl. unfold rq_acquire. kgo (run_the_cpu h T a C W P r c x Hc). rewrite Hl. simpl. ksteps. by apply run_set_cpu.
Qed.
Lemma run_rq_release h T a C W P r me c x :
  C !! c = Some x → c_runqueue_lock x = Some me →
  rq_release me c (Sys h T a C W P r) = Done (tt, Sys h T a (<[c := cp_rqlock None x]> C) W P r).
Proof.
  intros Hc Hl. unfold rq_release. kgo (run_the_cpu h T a C W P r c x Hc). unfold spin_put.
  rewrite step_assert by (by rewrite bool_decide_true). by apply run_set_cpu.
Qed.
Lemma run_wchan_lock h T a C W P r me w x :
  W !! w = Some x → wc_lock x = None →
  wchan_lock me w (Sys h T a C W P r) = Done (tt, Sys h T a C (<[w := wc_with (wc_threads x) (Some me) x]> W) P r).
Proof.
  intros Hc Hl. unfold wchan_lock. kgo (run_the_wchan h T a C W P r w x Hc). rewrite Hl. simpl. ksteps. by rewrite (run_set_wchan _ _ _ _ _ _ _ _ x).
Qed.
Lemma run_wchan_unlock h T a C W P r me w x :
  W !! w = Some x → wc_lock x = Some me →
  wchan_unlock me w (Sys h T a C W P r) = Done (tt, Sys h T a C (<[w := wc_with (wc_threads x) None x]> W) P r).
Proof.
  intros Hc Hl. unfold wchan_unlock. kgo (run_the_wchan h T a C W P r w x Hc). unfold spin_put.
  rewrite step_assert by (by rewrite bool_decide_true). by rewrite (run_set_wchan _ _ _ _ _ _ _ _ x).
Qed.

(** *** Interrupts and run queues *)

Lemma run_ipi_send h T a C W P r me c x code :
  C !! c = Some x → c_ipi_lock x = None → 0 ≤ code < 32 →
  ipi_send me c code (Sys h T a C W P r) =
  Done (tt, Sys h T a (<[c := cp_ipi (Z.lor (c_ipi_pending x) (Z.shiftl 1 code)) (c_shootdown x) (c_numshootdown x) true x]> C) W P r).
Proof.
  intros Hc Hl Hcode. unfold ipi_send. rewrite step_assert by lia. unfold ipi_acquire. ksteps.
  kgo (run_the_cpu h T a C W P r c x Hc). rewrite Hl. simpl. ksteps.
  kgo (run_set_cpu h T a C W P r c x (cp_ipilock (Some me)) Hc).
  kgo (run_set_cpu h T a _ W P r c _ (λ y : cpu, cp_ipi (Z.lor (c_ipi_pending y) (Z.shiftl 1 code)) (c_shootdown y) (c_numshootdown y) true y)
    (lookup_cpu_same C c x _ Hc)).
  rewrite insert_twice. unfold ipi_release. kgo (run_the_cpu h T a _ W P r c _ (lookup_cpu_same C c x _ Hc)).
  unfold spin_put. rewrite step_assert by (by rewrite bool_decide_true).
  rewrite (run_set_cpu h T a _ W P r c _ _ (lookup_cpu_same C c x _ Hc)). rewrite insert_twice.
  do 3 f_equal. destruct x. simpl in *. by subst.
Qed.

Lemma run_make_runnable h T a C W P r me t th c x :
  T !! t = Some th → t_cpu th = Some c → C !! c = Some x → c_runqueue_lock x = None → c_ipi_lock x = None →
  thread_make_runnable me t false (Sys h T a C W P r) = Done (tt, Sys h T a (<[c := enq t x]> C) W P r).
Proof.
  intros Ht Hcpu Hc Hl Hi. unfold thread_make_runnable. kgo (run_the_thread h T a C W P r t th Ht). rewrite Hcpu. ksteps.
  kgo (run_rq_acquire h T a C W P r me c x Hc Hl).
  set (x1 := cp_rqlock (Some me) x). pose proof (lookup_cpu_same C c x x1 Hc) as H1.
  kgo (run_the_cpu h T a _ W P r c x1 H1). kgo (run_set_cpu h T a _ W P r c x1 (cp_runqueue (c_runqueue x1 ++ [t])) H1).
  rewrite insert_twice. set (x2 := cp_runqueue _ x1). pose proof (lookup_cpu_same C c x x2 Hc) as H2.
  destruct (c_isidle x1) eqn:Ei.
  - kgo (run_ipi_send h T a _ W P r me c x2 IPI_UNIDLE H2 Hi ltac:(done)). rewrite insert_twice.
    rewrite (run_rq_release h T a _ W P r me c _ (lookup_cpu_same C c x _ Hc)) by done. rewrite insert_twice.
    do 3 f_equal. unfold x2, x1, enq in *. destruct x. simpl in *. by subst.
  - ksteps. rewrite (run_rq_release h T a _ W P r me c _ (lookup_cpu_same C c x _ Hc)) by done. rewrite insert_twice.
    do 3 f_equal. unfold x2, x1, enq in *. destruct x. simpl in *. by subst.
Qed.

Lemma run_make_runnable_locked h T a C W P r me t th c x :
  T !! t = Some th → t_cpu th = Some c → C !! c = Some x → c_runqueue_lock x = Some me → c_ipi_lock x = None →
  thread_make_runnable me t true (Sys h T a C W P r) = Done (tt, Sys h T a (<[c := enq t x]> C) W P r).
Proof.
  intros Ht Hcpu Hc Hl Hi. unfold thread_make_runnable. kgo (run_the_thread h T a C W P r t th Ht). rewrite Hcpu. ksteps.
  kgo (run_the_cpu h T a C W P r c x Hc). rewrite step_assert by (by rewrite bool_decide_true).
  kgo (run_the_cpu h T a C W P r c x Hc). kgo (run_set_cpu h T a C W P r c x (cp_runqueue (c_runqueue x ++ [t])) Hc).
  destruct (c_isidle x) eqn:Ei.
  - set (x1 := cp_runqueue _ x). kgo (run_ipi_send h T a _ W P r me c x1 IPI_UNIDLE (lookup_cpu_same C c x _ Hc) Hi ltac:(done)). rewrite insert_twice.
    unfold enq. by rewrite Ei.
  - ksteps. unfold enq. by rewrite Ei.
Qed.
End Run.
