(* ===== verification/ThreadsInv.v ===== *)
(** * Where the threads are

    The invariant of the thread system: a ghost map says where each thread is,
    running on a processor, ready in its run queue, among its zombies or asleep
    on a channel, and every list of threads is what the map says.  Threads an
    operation has taken off a list and not yet put elsewhere are in limbo
    ([X]).  The lemmas are the moves the operations make. *)

From stdpp Require Import base numbers list gmap fin_maps fin_sets sets strings.
From Stdlib Require Import ZArith Lia.
From S2P Require Import Prelude KernelHeap Array Wchan Spinlock Threads ThreadsRun.

Open Scope Z_scope.

Inductive place := PRun (c : nat) | PReady (c : nat) | PZombie (c : nat) | PSleep (w : Z).
#[global] Instance place_eq_dec : EqDecision place.
Proof. solve_decision. Defined.

Definition cpu_of (p : place) : option nat :=
  match p with PRun c | PReady c | PZombie c => Some c | PSleep _ => None end.
Definition wchan_of (p : place) : option Z := match p with PSleep w => Some w | _ => None end.

Record cpu_ok (loc : gmap Z place) (T : gmap Z thread) (c : nat) (x : cpu) : Prop := {
  co_rq_nodup : NoDup (c_runqueue x);
  co_z_nodup : NoDup (c_zombies x);
  co_rq : ∀ t, t ∈ c_runqueue x ↔ loc !! t = Some (PReady c);
  co_z : ∀ t, t ∈ c_zombies x ↔ loc !! t = Some (PZombie c);
  co_run : ∀ t, loc !! t = Some (PRun c) ↔ c_isidle x = false ∧ c_curthread x = t;
  co_cur : ∃ th, T !! c_curthread x = Some th ∧ t_cpu th = Some c;
  co_locks : c_runqueue_lock x = None ∧ c_ipi_lock x = None;
  co_ipi : c_ipi_pending x = 0 ∨ c_ipi_pending x = 4;
}.

Record wchan_ok (loc : gmap Z place) (w : Z) (x : wchan) : Prop := {
  wo_nodup : NoDup (wc_threads x);
  wo_in : ∀ t, t ∈ wc_threads x ↔ loc !! t = Some (PSleep w);
  wo_lock : wc_lock x = None;
}.

Definition state_ok (p : place) (th : thread) : Prop :=
  match p with
  | PRun _ => t_state th = S_RUN ∨ t_state th = S_READY
  | PReady _ => t_state th = S_READY ∨ t_state th = S_SLEEP
  | PZombie _ => t_state th = S_ZOMBIE ∧ t_proc th = None
  | PSleep _ => t_state th = S_SLEEP
  end.

Record thread_ok (C : list cpu) (p : place) (th : thread) : Prop := {
  to_cpu : ∃ c, t_cpu th = Some c ∧ is_Some (C !! c) ∧ ∀ d, cpu_of p = Some d → d = c;
  to_state : state_ok p th;
  to_guard : ∀ st, t_stack th = Some st → t_guard th = replicate 4 THREAD_STACK_MAGIC;
}.

Record pinv (X : gset Z) (loc : gmap Z place) (T : gmap Z thread) (C : list cpu) (W : gmap Z wchan) : Prop := {
  pi_dom : ∀ t, is_Some (loc !! t) ↔ is_Some (T !! t) ∧ t ∉ X;
  pi_cpus : ∀ c x, C !! c = Some x → cpu_ok loc T c x;
  pi_wchans : ∀ w x, W !! w = Some x → wchan_ok loc w x;
  pi_wplace : ∀ t w, loc !! t = Some (PSleep w) → is_Some (W !! w);
  pi_threads : ∀ t th p, T !! t = Some th → loc !! t = Some p → thread_ok C p th;
}.

Section Moves.
Implicit Types (X : gset Z) (loc : gmap Z place) (T : gmap Z thread) (C : list cpu) (W : gmap Z wchan) (x y : cpu) (th : thread) (c d me : nat) (t u w : Z).

(** A change of the map at [t] does not concern processors that neither place
    names. *)
Lemma cpu_ok_other loc loc' T T' c x t :
  cpu_ok loc T c x → (∀ u, u ≠ t → loc' !! u = loc !! u) →
  (∀ p, loc !! t = Some p → cpu_of p ≠ Some c) → (∀ p, loc' !! t = Some p → cpu_of p ≠ Some c) →
  (∀ th, T !! c_curthread x = Some th → ∃ th', T' !! c_curthread x = Some th' ∧ t_cpu th' = t_cpu th) →
  cpu_ok loc' T' c x.
Proof.
  intros [H1 H2 H3 H4 H5 (th & H6 & H6') H7 H8] Ho Hl Hl' HT.
  assert (Hp : ∀ u p, cpu_of p = Some c → loc !! u = Some p ↔ loc' !! u = Some p).
  { intros u p Hp. destruct (decide (u = t)) as [->|Hne]; [|by rewrite Ho].
    split; intros E; [by apply Hl in E|by apply Hl' in E]. }
  split; try done.
  - intros u. rewrite H3. by apply Hp.
  - intros u. rewrite H4. by apply Hp.
  - intros u. rewrite <-H5. symmetry. by apply Hp.
  - destruct (HT th H6) as (th' & ? & ?). exists th'. split; [done|]. congruence.
Qed.

Lemma wchan_ok_other loc loc' w (x : wchan) t :
  wchan_ok loc w x → (∀ u, u ≠ t → loc' !! u = loc !! u) →
  (∀ p, loc !! t = Some p → wchan_of p ≠ Some w) → (∀ p, loc' !! t = Some p → wchan_of p ≠ Some w) →
  wchan_ok loc' w x.
Proof.
  intros [H1 H2 H3] Ho Hl Hl'. split; try done. intros u. rewrite H2.
  destruct (decide (u = t)) as [->|Hne]; [|by rewrite Ho]. split; intros E; [by apply Hl in E|by apply Hl' in E].
Qed.

Lemma cur_same T : ∀ x th, T !! c_curthread x = Some th → ∃ th', T !! c_curthread x = Some th' ∧ t_cpu th' = t_cpu th.
Proof. by eauto. Qed.

Lemma thread_ok_cpus C C' p th :
  thread_ok C p th → (∀ c, is_Some (C !! c) → is_Some (C' !! c)) → thread_ok C' p th.
Proof. intros [(c & H1 & H2 & H3) ? ?] HC. split; [|done..]. exists c. by auto. Qed.

Lemma insert_is_Some C c x d : is_Some (C !! d) → is_Some (<[c := x]> C !! d).
Proof. intros H%lookup_lt_is_Some. apply lookup_lt_is_Some. by rewrite length_insert. Qed.

(** Fields of a processor the invariant does not look at. *)
Lemma pinv_cpu X loc T C W c x y :
  pinv X loc T C W → C !! c = Some x →
  c_runqueue y = c_runqueue x → c_zombies y = c_zombies x → c_isidle y = c_isidle x → c_curthread y = c_curthread x →
  c_runqueue_lock y = None ∧ c_ipi_lock y = None → c_ipi_pending y = 0 ∨ c_ipi_pending y = 4 →
  pinv X loc T (<[c := y]> C) W.
Proof.
  intros [Hd Hc Hw Hwp Ht] Hx E1 E2 E3 E4 E5 E6. split; try done.
  - intros d z Hz. destruct (decide (d = c)) as [->|Hne]; [|rewrite list_lookup_insert_ne in Hz by done; by apply Hc].
    rewrite (lookup_cpu_same _ _ x) in Hz by done. injection Hz as <-.
    destruct (Hc _ _ Hx) as [H1 H2 H3 H4 H5 H6 H7 H8]. split; rewrite ?E1, ?E2, ?E3, ?E4; done.
  - intros t th p HT Hl. eapply thread_ok_cpus; [by eapply Ht|]. intros d. apply insert_is_Some.
Qed.

(** A processor's lists change at one thread. *)
Lemma pinv_step X X' loc loc' T C W c x y t :
  pinv X loc T C W → C !! c = Some x → (∀ u, u ≠ t → loc' !! u = loc !! u) →
  (∀ p, loc !! t = Some p → cpu_of p = Some c) → (∀ p, loc' !! t = Some p → cpu_of p = Some c) →
  (is_Some (loc' !! t) ↔ is_Some (T !! t) ∧ t ∉ X') → (∀ u, u ≠ t → u ∈ X' ↔ u ∈ X) →
  cpu_ok loc' T c y →
  (∀ p th, loc' !! t = Some p → T !! t = Some th → thread_ok C p th) →
  pinv X' loc' T (<[c := y]> C) W.
Proof.
  intros [Hd Hc Hw Hwp Ht] Hx Ho Hl Hl' Hdt HX Hy Htt. split.
  - intros u. destruct (decide (u = t)) as [->|Hne]; [done|]. by rewrite Ho, Hd, HX.
  - intros d z Hz. destruct (decide (d = c)) as [->|Hne].
    + rewrite (lookup_cpu_same _ _ x) in Hz by done. by injection Hz as <-.
    + rewrite list_lookup_insert_ne in Hz by done. apply (cpu_ok_other loc _ T _ d z t); auto; [| |apply cur_same].
      * intros p Hp ?. apply Hl in Hp. congruence.
      * intros p Hp ?. apply Hl' in Hp. congruence.
  - intros w z Hz. apply (wchan_ok_other loc _ w z t); auto.
    + intros p Hp. apply Hl in Hp. by destruct p.
    + intros p Hp. apply Hl' in Hp. by destruct p.
  - intros u w Hu. destruct (decide (u = t)) as [->|Hne]; [by apply Hl' in Hu|]. rewrite Ho in Hu by done. by eapply Hwp.
  - intros u th p HT Hu. apply (thread_ok_cpus C); [|intros d; apply insert_is_Some].
    destruct (decide (u = t)) as [->|Hne]; [by eapply Htt|]. rewrite Ho in Hu by done. by eapply Ht.
Qed.

(** Onto a run queue. *)
Lemma enq_pending t x : c_ipi_pending x = 0 ∨ c_ipi_pending x = 4 → c_ipi_pending (enq t x) = 0 ∨ c_ipi_pending (enq t x) = 4.
Proof.
  destruct (enq_fields t x) as (_ & _ & _ & _ & _ & _ & _ & _ & ->). destruct (c_isidle x); [|done]. by intros [->| ->]; right.
Qed.

Lemma pinv_enq X loc T C W c x t th :
  pinv X loc T C W → C !! c = Some x → t ∈ X → T !! t = Some th → t_cpu th = Some c →
  (t_state th = S_READY ∨ t_state th = S_SLEEP) → (∀ st, t_stack th = Some st → t_guard th = replicate 4 THREAD_STACK_MAGIC) →
  pinv (X ∖ {[t]}) (<[t := PReady c]> loc) T (<[c := enq t x]> C) W.
Proof.
  intros Hinv Hx HtX HT Hcpu Hst Hg. pose proof Hinv as [Hd Hc _ _ _].
  assert (Hl : loc !! t = None) by (apply eq_None_not_Some; intros [_ ?]%Hd; done).
  eapply (pinv_step X); try done.
  - intros u Hne. by rewrite lookup_insert_ne.
  - intros p Hp. congruence.
  - intros p Hp. rewrite lookup_insert_eq in Hp. by injection Hp as <-.
  - rewrite lookup_insert_eq. split; [intros _; split; [by eauto|set_solver]|by eauto].
  - set_solver.
  - destruct (Hc _ _ Hx) as [H1 H2 H3 H4 H5 H6 H7 H8].
    destruct (enq_fields t x) as (E1 & E2 & E3 & E4 & E5 & E6 & _).
    assert (Hni : t ∉ c_runqueue x) by (rewrite H3; congruence).
    split; rewrite ?E1, ?E2, ?E3, ?E4, ?E5, ?E6; try done; [|intros u|intros u|intros u|by apply enq_pending].
    + apply NoDup_app. split_and!; [done| |apply NoDup_singleton]. intros u Hu Hs%list_elem_of_singleton. by subst.
    + rewrite elem_of_app, list_elem_of_singleton. destruct (decide (u = t)) as [->|Hne].
      * rewrite lookup_insert_eq. by split; [|auto].
      * rewrite lookup_insert_ne, <-H3 by done. naive_solver.
    + destruct (decide (u = t)) as [->|Hne]; [|by rewrite lookup_insert_ne].
      rewrite H4, Hl, lookup_insert_eq. done.
    + destruct (decide (u = t)) as [->|Hne]; [|by rewrite lookup_insert_ne].
      rewrite <-H5, Hl, lookup_insert_eq. done.
  - intros p th' Hp HT'. rewrite lookup_insert_eq in Hp. injection Hp as <-. rewrite HT in HT'. injection HT' as <-.
    split; [|done..]. exists c. split_and!; [done|by eauto|]. by intros d [= ->].
Qed.

(** Into limbo: from a run queue, from the zombies, from running. *)
Lemma pinv_leave X loc T C W c x y t :
  pinv X loc T C W → C !! c = Some x → (∃ p, loc !! t = Some p ∧ cpu_of p = Some c) →
  cpu_ok (delete t loc) T c y → pinv ({[t]} ∪ X) (delete t loc) T (<[c := y]> C) W.
Proof.
  intros Hinv Hx (p & Hp & Hpc) Hy. eapply (pinv_step X); try done.
  - intros u Hne. by rewrite lookup_delete_ne.
  - intros q Hq. by simplify_eq.
  - intros q Hq. by rewrite lookup_delete_eq in Hq.
  - rewrite lookup_delete_eq. split; [by intros []|]. set_solver.
  - set_solver.
  - intros q th Hq. by rewrite lookup_delete_eq in Hq.
Qed.

Lemma pinv_rq_take X loc T C W c x l1 t l2 :
  pinv X loc T C W → C !! c = Some x → c_runqueue x = l1 ++ t :: l2 →
  loc !! t = Some (PReady c) ∧
  pinv ({[t]} ∪ X) (delete t loc) T (<[c := cp_runqueue (l1 ++ l2) x]> C) W.
Proof.
  intros Hinv Hx Erq. destruct (pi_cpus _ _ _ _ _ Hinv _ _ Hx) as [H1 H2 H3 H4 H5 H6 H7 H8].
  assert (Ht : loc !! t = Some (PReady c)) by (apply H3; rewrite Erq; set_solver). split; [done|].
  apply (pinv_leave X loc T C W c x); [done..|by eauto|]. rewrite Erq in H1.
  apply NoDup_app in H1 as (Hn1 & Hn12 & [Hn2 Hn3]%NoDup_cons).
  split; cbn [cp_runqueue c_runqueue c_zombies c_isidle c_curthread c_runqueue_lock c_ipi_lock c_ipi_pending]; try done.
  - apply NoDup_app. split_and!; [done| |done]. intros u Hu Hu2. apply (Hn12 u Hu). by right.
  - intros u. destruct (decide (u = t)) as [->|Hne].
    + rewrite lookup_delete_eq. split; [|done]. intros [Hu|Hu]%elem_of_app; [|done]. destruct (Hn12 t Hu). by left.
    + rewrite lookup_delete_ne, <-H3, Erq by done. rewrite !elem_of_app, elem_of_cons. naive_solver.
  - intros u. destruct (decide (u = t)) as [->|Hne]; [|by rewrite lookup_delete_ne].
    rewrite H4, Ht, lookup_delete_eq. done.
  - intros u. destruct (decide (u = t)) as [->|Hne]; [|by rewrite lookup_delete_ne].
    rewrite <-H5, Ht, lookup_delete_eq. done.
Qed.

Lemma pinv_z_take X loc T C W c x t l :
  pinv X loc T C W → C !! c = Some x → c_zombies x = t :: l →
  loc !! t = Some (PZombie c) ∧
  pinv ({[t]} ∪ X) (delete t loc) T (<[c := cp_zombies l x]> C) W.
Proof.
  intros Hinv Hx Ez. destruct (pi_cpus _ _ _ _ _ Hinv _ _ Hx) as [H1 H2 H3 H4 H5 H6 H7 H8].
  assert (Ht : loc !! t = Some (PZombie c)) by (apply H4; rewrite Ez; left). split; [done|].
  apply (pinv_leave X loc T C W c x); [done..|by eauto|]. rewrite Ez in H2. apply NoDup_cons in H2 as [Hn1 Hn2].
  split; cbn [cp_zombies c_runqueue c_zombies c_isidle c_curthread c_runqueue_lock c_ipi_lock c_ipi_pending]; try done.
  - intros u. destruct (decide (u = t)) as [->|Hne]; [|by rewrite lookup_delete_ne].
    rewrite H3, Ht, lookup_delete_eq. done.
  - intros u. destruct (decide (u = t)) as [->|Hne]; [by rewrite lookup_delete_eq|].
    rewrite lookup_delete_ne, <-H4, Ez by done. rewrite elem_of_cons. naive_solver.
  - intros u. destruct (decide (u = t)) as [->|Hne]; [|by rewrite lookup_delete_ne].
    rewrite <-H5, Ht, lookup_delete_eq. done.
Qed.

Lemma pinv_park X loc T C W c x :
  pinv X loc T C W → C !! c = Some x → c_isidle x = false →
  loc !! c_curthread x = Some (PRun c) ∧
  pinv ({[c_curthread x]} ∪ X) (delete (c_curthread x) loc) T (<[c := cp_isidle true x]> C) W.
Proof.
  intros Hinv Hx Hidle. destruct (pi_cpus _ _ _ _ _ Hinv _ _ Hx) as [H1 H2 H3 H4 H5 H6 H7 H8].
  assert (Ht : loc !! c_curthread x = Some (PRun c)) by (by apply H5). split; [done|].
  apply (pinv_leave X loc T C W c x); [done..|by eauto|]. set (t := c_curthread x) in *.
  split; cbn [cp_isidle c_runqueue c_zombies c_isidle c_curthread c_runqueue_lock c_ipi_lock c_ipi_pending]; try done.
  - intros u. destruct (decide (u = t)) as [->|Hne]; [|by rewrite lookup_delete_ne].
    rewrite H3, Ht, lookup_delete_eq. done.
  - intros u. destruct (decide (u = t)) as [->|Hne]; [|by rewrite lookup_delete_ne].
    rewrite H4, Ht, lookup_delete_eq. done.
  - intros u. destruct (decide (u = t)) as [->|Hne]; [by rewrite lookup_delete_eq; split; [|intros []]|].
    rewrite lookup_delete_ne, H5 by done. split; [|intros []; done]. intros [_ E]. congruence.
Qed.

(** Out of limbo, on a processor. *)
Lemma pinv_enter X loc T C W c x y t th p :
  pinv X loc T C W → C !! c = Some x → t ∈ X → T !! t = Some th → cpu_of p = Some c → t_cpu th = Some c →
  state_ok p th → (∀ st, t_stack th = Some st → t_guard th = replicate 4 THREAD_STACK_MAGIC) →
  (loc !! t = None → cpu_ok (<[t := p]> loc) T c y) → pinv (X ∖ {[t]}) (<[t := p]> loc) T (<[c := y]> C) W.
Proof.
  intros Hinv Hx HtX HT Hp Hcpu Hst Hg Hy.
  assert (Hl : loc !! t = None) by (apply eq_None_not_Some; intros [_ ?]%(pi_dom _ _ _ _ _ Hinv); done).
  eapply (pinv_step X); try done; [| | | |set_solver|by apply Hy|].
  - intros u Hne. by rewrite lookup_insert_ne.
  - intros q Hq. congruence.
  - intros q Hq. rewrite lookup_insert_eq in Hq. by injection Hq as <-.
  - rewrite lookup_insert_eq. split; [intros _; split; [by eauto|set_solver]|by eauto].
  - intros q th' Hq HT'. rewrite lookup_insert_eq in Hq. injection Hq as <-. rewrite HT in HT'. injection HT' as <-.
    split; [|done..]. exists c. split_and!; [done|by eauto|]. intros d Hd. congruence.
Qed.

Lemma pinv_z_add X loc T C W c x t th :
  pinv X loc T C W → C !! c = Some x → t ∈ X → T !! t = Some th → t_cpu th = Some c →
  t_state th = S_ZOMBIE → t_proc th = None → (∀ st, t_stack th = Some st → t_guard th = replicate 4 THREAD_STACK_MAGIC) →
  pinv (X ∖ {[t]}) (<[t := PZombie c]> loc) T (<[c := cp_zombies (c_zombies x ++ [t]) x]> C) W.
Proof.
  intros Hinv Hx HtX HT Hcpu Hst Hpr Hg. eapply pinv_enter; try done. intros Hl.
  destruct (pi_cpus _ _ _ _ _ Hinv _ _ Hx) as [H1 H2 H3 H4 H5 H6 H7 H8].
  assert (Hni : t ∉ c_zombies x) by (rewrite H4; congruence).
  split; cbn [cp_zombies c_runqueue c_zombies c_isidle c_curthread c_runqueue_lock c_ipi_lock c_ipi_pending]; try done.
  - apply NoDup_app. split_and!; [done| |apply NoDup_singleton]. intros u Hu Hs%list_elem_of_singleton. by subst.
  - intros u. destruct (decide (u = t)) as [->|Hne]; [|by rewrite lookup_insert_ne]. rewrite H3, Hl, lookup_insert_eq. done.
  - intros u. rewrite elem_of_app, list_elem_of_singleton. destruct (decide (u = t)) as [->|Hne].
    + rewrite lookup_insert_eq. by split; [|auto].
    + rewrite lookup_insert_ne, <-H4 by done. naive_solver.
  - intros u. destruct (decide (u = t)) as [->|Hne]; [|by rewrite lookup_insert_ne]. rewrite <-H5, Hl, lookup_insert_eq. done.
Qed.

Lemma pinv_run X loc T C W c x t th :
  pinv X loc T C W → C !! c = Some x → c_isidle x = true → t ∈ X → T !! t = Some th → t_cpu th = Some c →
  t_state th = S_RUN → (∀ st, t_stack th = Some st → t_guard th = replicate 4 THREAD_STACK_MAGIC) →
  pinv (X ∖ {[t]}) (<[t := PRun c]> loc) T (<[c := cp_curthread t (cp_isidle false x)]> C) W.
Proof.
  intros Hinv Hx Hidle HtX HT Hcpu Hst Hg. eapply pinv_enter; try done; [by left|]. intros Hl.
  destruct (pi_cpus _ _ _ _ _ Hinv _ _ Hx) as [H1 H2 H3 H4 H5 H6 H7 H8].
  split; cbn [cp_curthread cp_isidle c_runqueue c_zombies c_isidle c_curthread c_runqueue_lock c_ipi_lock c_ipi_pending]; try done.
  - intros u. destruct (decide (u = t)) as [->|Hne]; [|by rewrite lookup_insert_ne]. rewrite H3, Hl, lookup_insert_eq. done.
  - intros u. destruct (decide (u = t)) as [->|Hne]; [|by rewrite lookup_insert_ne]. rewrite H4, Hl, lookup_insert_eq. done.
  - intros u. destruct (decide (u = t)) as [->|Hne]; [by rewrite lookup_insert_eq|].
    rewrite lookup_insert_ne, H5, Hidle by done. split; [by intros []|]. intros []. congruence.
  - by eauto.
Qed.

(** Channels. *)
Lemma pinv_wchan_add X loc T C W w (x : wchan) t th :
  pinv X loc T C W → W !! w = Some x → t ∈ X → T !! t = Some th →
  (∃ c, t_cpu th = Some c ∧ is_Some (C !! c)) → t_state th = S_SLEEP →
  (∀ st, t_stack th = Some st → t_guard th = replicate 4 THREAD_STACK_MAGIC) →
  pinv (X ∖ {[t]}) (<[t := PSleep w]> loc) T C (<[w := wc_with (wc_threads x ++ [t]) None x]> W).
Proof.
  intros [Hd Hc Hw Hwp Ht] Hx HtX HT (c & Hcpu & Hci) Hst Hg.
  assert (Hl : loc !! t = None) by (apply eq_None_not_Some; intros [_ ?]%Hd; done). split.
  - intros u. destruct (decide (u = t)) as [->|Hne].
    + rewrite lookup_insert_eq. split; [intros _; split; [by eauto|set_solver]|by eauto].
    + rewrite lookup_insert_ne, Hd by done. set_solver.
  - intros d z Hz. apply (cpu_ok_other loc _ T _ d z t); [by apply Hc| |congruence| |apply cur_same].
    + intros u Hne. by rewrite lookup_insert_ne.
    + intros q Hq. rewrite lookup_insert_eq in Hq. by injection Hq as <-.
  - intros v z Hz. destruct (decide (v = w)) as [->|Hne].
    + rewrite lookup_insert_eq in Hz. injection Hz as <-. destruct (Hw _ _ Hx) as [H1 H2 H3].
      assert (Hni : t ∉ wc_threads x) by (rewrite H2; congruence).
      split; simpl; [|intros u|done].
      * apply NoDup_app. split_and!; [done| |apply NoDup_singleton]. intros u Hu Hs%list_elem_of_singleton. by subst.
      * rewrite elem_of_app, list_elem_of_singleton. destruct (decide (u = t)) as [->|Hne].
        -- rewrite lookup_insert_eq. by split; [|auto].
        -- rewrite lookup_insert_ne, <-H2 by done. naive_solver.
    + rewrite lookup_insert_ne in Hz by done. apply (wchan_ok_other loc _ v z t); [by apply Hw| |congruence|].
      * intros u Hu. by rewrite lookup_insert_ne.
      * intros q Hq. rewrite lookup_insert_eq in Hq. injection Hq as <-. simpl. congruence.
  - intros u v Hu. destruct (decide (v = w)) as [->|Hne]; [rewrite lookup_insert_eq; by eauto|]. rewrite lookup_insert_ne by done.
    destruct (decide (u = t)) as [->|Hne']; [rewrite lookup_insert_eq in Hu; congruence|].
    rewrite lookup_insert_ne in Hu by done. by eapply Hwp.
  - intros u thu p HT' Hu. destruct (decide (u = t)) as [->|Hne].
    + rewrite lookup_insert_eq in Hu. injection Hu as <-. rewrite HT in HT'. injection HT' as <-.
      split; [|done..]. exists c. by split_and!.
    + rewrite lookup_insert_ne in Hu by done. by eapply Ht.
Qed.

(** The first threads of a channel. *)
Lemma pinv_wchan_take X loc T C W w (x : wchan) l1 l2 :
  pinv X loc T C W → W !! w = Some x → wc_threads x = l1 ++ l2 →
  pinv (list_to_set l1 ∪ X) (foldr delete loc l1) T C (<[w := wc_with l2 None x]> W) ∧
  ∀ t, t ∈ l1 → loc !! t = Some (PSleep w).
Proof.
  intros [Hd Hc Hw Hwp Ht] Hx El. destruct (Hw _ _ Hx) as [H1 H2 H3].
  assert (Hin : ∀ t, t ∈ l1 → loc !! t = Some (PSleep w)) by (intros t Ht1; apply H2; rewrite El; set_solver).
  assert (Hlk : ∀ u p, foldr delete loc l1 !! u = Some p ↔ u ∉ l1 ∧ loc !! u = Some p).
  { intros u p. destruct (decide (u ∈ l1)) as [Hu|Hu].
    - rewrite lookup_foldr_delete by done. naive_solver.
    - rewrite lookup_foldr_delete_not_elem_of by done. naive_solver. }
  assert (Hne : ∀ u p, loc !! u = Some p → wchan_of p ≠ Some w → u ∉ l1).
  { intros u p Hu Hp Hu1. apply Hin in Hu1. rewrite Hu in Hu1. injection Hu1 as ->. done. }
  rewrite El in H1. apply NoDup_app in H1 as (Hn1 & Hn12 & Hn2).
  split; [|done]. split.
  - intros u. unfold is_Some. setoid_rewrite Hlk. rewrite elem_of_union, elem_of_list_to_set. split.
    + intros (p & Hu & Hp). destruct (proj1 (Hd u)) as [HTu HXu]; [by eauto|]. split; [done|]. by intros [].
    + intros [HTu HXu]. destruct (proj2 (Hd u)) as [p Hp]; [naive_solver|]. naive_solver.
  - intros d z Hz. destruct (Hc _ _ Hz) as [G1 G2 G3 G4 G5 G6 G7 G8]. split; try done; intros u.
    + rewrite G3, Hlk. split; [|by intros []]. intros Hu. split; [by eapply Hne|done].
    + rewrite G4, Hlk. split; [|by intros []]. intros Hu. split; [by eapply Hne|done].
    + rewrite <-G5, Hlk. split; [by intros []|]. intros Hu. split; [by eapply Hne|done].
  - intros v z Hz. destruct (decide (v = w)) as [->|Hvw].
    + rewrite lookup_insert_eq in Hz. injection Hz as <-. split; simpl; [done| |done]. intros u.
      rewrite Hlk, <-H2, El, elem_of_app. split; [|naive_solver]. intros Hu. split; [|by right].
      intros Hu1. by apply (Hn12 u Hu1).
    + rewrite lookup_insert_ne in Hz by done. destruct (Hw _ _ Hz) as [G1 G2 G3]. split; try done. intros u.
      rewrite G2, Hlk. split; [|by intros []]. intros Hu. split; [|done]. eapply Hne; [done|]. simpl. congruence.
  - intros u v [Hu Hp]%Hlk. destruct (decide (v = w)) as [->|Hvw]; [rewrite lookup_insert_eq; by eauto|].
    rewrite lookup_insert_ne by done. by eapply Hwp.
  - intros u thu p HT' [_ Hu]%Hlk. by eapply Ht.
Qed.

(** Threads in limbo: changed, deleted, new. *)
Lemma pinv_thread X loc T C W t th th' :
  pinv X loc T C W → t ∈ X → T !! t = Some th →
  (t_cpu th' = t_cpu th ∨ ∀ c x, C !! c = Some x → c_curthread x ≠ t) →
  pinv X loc (<[t := th']> T) C W.
Proof.
  intros [Hd Hc Hw Hwp Ht] HtX HT Hcpu.
  assert (Hl : loc !! t = None) by (apply eq_None_not_Some; intros [_ ?]%Hd; done). split; try done.
  - intros u. rewrite Hd. destruct (decide (u = t)) as [->|Hne]; [|by rewrite lookup_insert_ne].
    rewrite lookup_insert_eq. naive_solver.
  - intros d z Hz. apply (cpu_ok_other loc _ T _ d z t); [by apply Hc|done|congruence..|]. intros thz Hthz.
    destruct (decide (c_curthread z = t)) as [E|Hne].
    + destruct Hcpu as [Hcpu|Hcpu]; [|by destruct (Hcpu _ _ Hz)]. exists th'. rewrite E, lookup_insert_eq.
      rewrite E, HT in Hthz. by injection Hthz as <-.
    + exists thz. by rewrite lookup_insert_ne.
  - intros u thu p HT' Hu. destruct (decide (u = t)) as [->|Hne]; [congruence|].
    rewrite lookup_insert_ne in HT' by done. by eapply Ht.
Qed.

Lemma pinv_delete X loc T C W t :
  pinv X loc T C W → t ∈ X → (∀ c x, C !! c = Some x → c_curthread x ≠ t) →
  pinv (X ∖ {[t]}) loc (delete t T) C W.
Proof.
  intros [Hd Hc Hw Hwp Ht] HtX Hcur.
  assert (Hl : loc !! t = None) by (apply eq_None_not_Some; intros [_ ?]%Hd; done). split; try done.
  - intros u. destruct (decide (u = t)) as [->|Hne].
    + rewrite lookup_delete_eq, Hl. split; [by intros []|by intros [[] _]].
    + rewrite lookup_delete_ne, Hd by done. set_solver.
  - intros d z Hz. apply (cpu_ok_other loc _ T _ d z t); [by apply Hc|done|congruence..|]. intros thz Hthz.
    exists thz. rewrite lookup_delete_ne; [done|]. by apply not_eq_sym, (Hcur d z).
  - intros u thu p HT' Hu. destruct (decide (u = t)) as [->|Hne]; [congruence|].
    rewrite lookup_delete_ne in HT' by done. by eapply Ht.
Qed.

Lemma pinv_new X loc T C W t th :
  pinv X loc T C W → T !! t = None → pinv ({[t]} ∪ X) loc (<[t := th]> T) C W.
Proof.
  intros [Hd Hc Hw Hwp Ht] HT.
  assert (Hl : loc !! t = None) by (apply eq_None_not_Some; intros [H _]%Hd; rewrite HT in H; by destruct H). split; try done.
  - intros u. destruct (decide (u = t)) as [->|Hne].
    + rewrite lookup_insert_eq, Hl. split; [by intros []|set_solver].
    + rewrite lookup_insert_ne, Hd by done. set_solver.
  - intros d z Hz. apply (cpu_ok_other loc _ T _ d z t); [by apply Hc|done|congruence..|]. intros thz Hthz.
    exists thz. rewrite lookup_insert_ne; [done|]. intros E. congruence.
  - intros u thu p HT' Hu. destruct (decide (u = t)) as [->|Hne]; [congruence|].
    rewrite lookup_insert_ne in HT' by done. by eapply Ht.
Qed.

(** A new processor, running its boot thread. *)
Lemma pinv_new_cpu X loc T C W x t th :
  pinv X loc T C W → t ∈ X → T !! t = Some th → t_cpu th = Some (length C) → t_state th = S_READY →
  (∀ st, t_stack th = Some st → t_guard th = replicate 4 THREAD_STACK_MAGIC) →
  c_runqueue x = [] → c_zombies x = [] → c_isidle x = false → c_curthread x = t →
  c_runqueue_lock x = None ∧ c_ipi_lock x = None → c_ipi_pending x = 0 →
  pinv (X ∖ {[t]}) (<[t := PRun (length C)]> loc) T (C ++ [x]) W.
Proof.
  intros [Hd Hc Hw Hwp Ht] HtX HT Hcpu Hst Hg E1 E2 E3 E4 E5 E6.
  assert (Hl : loc !! t = None) by (apply eq_None_not_Some; intros [_ ?]%Hd; done).
  assert (Hnew : ∀ u p, loc !! u = Some p → cpu_of p ≠ Some (length C)).
  { intros u p Hu Hp. destruct (proj1 (Hd u)) as [[thu HTu] _]; [by eauto|].
    destruct (Ht _ _ _ HTu Hu) as [(d & _ & Hdd & Hpd) _ _]. pose proof (Hpd _ Hp). apply lookup_lt_is_Some in Hdd. lia. }
  split.
  - intros u. destruct (decide (u = t)) as [->|Hne].
    + rewrite lookup_insert_eq. split; [intros _; split; [by eauto|set_solver]|by eauto].
    + rewrite lookup_insert_ne, Hd by done. set_solver.
  - intros d z [Hz|[Hlen Hz]]%lookup_app_Some.
    + apply (cpu_ok_other loc _ T _ d z t); [by apply Hc| |congruence| |apply cur_same].
      * intros u Hne. by rewrite lookup_insert_ne.
      * intros p Hp. rewrite lookup_insert_eq in Hp. injection Hp as <-. simpl. apply lookup_lt_Some in Hz. intros [= E]. lia.
    + apply list_lookup_singleton_Some in Hz as [Hz <-]. assert (d = length C) as -> by lia.
      assert (Hno : ∀ u p, cpu_of p = Some (length C) → p ≠ PRun (length C) → <[t:=PRun (length C)]> loc !! u ≠ Some p).
      { intros u p Hp Hpr Hu. destruct (decide (u = t)) as [->|Hne]; [rewrite lookup_insert_eq in Hu; congruence|].
        rewrite lookup_insert_ne in Hu by done. by apply (Hnew u p). }
      split; rewrite ?E1, ?E2, ?E3, ?E4; try done; [apply NoDup_nil_2|apply NoDup_nil_2| | | |by eauto|by left].
      * intros u. split; [by intros ?%elem_of_nil|]. intros Hu. by apply Hno in Hu.
      * intros u. split; [by intros ?%elem_of_nil|]. intros Hu. by apply Hno in Hu.
      * intros u. destruct (decide (u = t)) as [->|Hne]; [by rewrite lookup_insert_eq|].
        rewrite lookup_insert_ne by done. split; [|intros [_ E]; congruence]. intros Hu. by destruct (Hnew _ _ Hu).
  - intros v z Hz. apply (wchan_ok_other loc _ v z t); [by apply Hw| |congruence|].
    + intros u Hne. by rewrite lookup_insert_ne.
    + intros p Hp. rewrite lookup_insert_eq in Hp. by injection Hp as <-.
  - intros u w Hu. destruct (decide (u = t)) as [->|Hne]; [by rewrite lookup_insert_eq in Hu|].
    rewrite lookup_insert_ne in Hu by done. by eapply Hwp.
  - assert (HC : ∀ d, is_Some (C !! d) → is_Some ((C ++ [x]) !! d)).
    { intros d H%lookup_lt_is_Some. apply lookup_lt_is_Some. rewrite length_app. lia. }
    intros u thu p HT' Hu. destruct (decide (u = t)) as [->|Hne].
    + rewrite lookup_insert_eq in Hu. injection Hu as <-. rewrite HT in HT'. injection HT' as <-.
      split; [|by right|done]. exists (length C). split_and!; [done| |by intros d [= ->]].
      apply lookup_lt_is_Some. rewrite length_app. simpl. lia.
    + rewrite lookup_insert_ne in Hu by done. eapply thread_ok_cpus; [by eapply Ht|done].
Qed.
End Moves.
