(* ===== verification/ThreadsHeap.v ===== *)
(** * The blocks of threads and arrays

    Which block of the kernel heap belongs to whom: a thread owns its
    structure, its name and its stack, a process and the list of processors the
    cells of their arrays.  No block has two owners, so freeing a thread frees
    nothing else. *)

From stdpp Require Import base numbers list gmap fin_maps fin_sets sets strings.
From Stdlib Require Import ZArith Lia.
From S2P Require Import Prelude KernelHeap Array Wchan Spinlock Threads ThreadsRun.

Open Scope Z_scope.
Open Scope kernel_scope.

Inductive owner := OThread (t : Z) | OProc (p : Z) | OCpus.
#[global] Instance owner_eq_dec : EqDecision owner.
Proof. solve_decision. Defined.

Definition thread_blocks (bl : gmap Z owner) (t : Z) (th : thread) : Prop :=
  bl !! t = Some (OThread t) ∧ bl !! (t_name th).1 = Some (OThread t) ∧ t ≠ (t_name th).1 ∧
  ∀ st, t_stack th = Some st → bl !! st = Some (OThread t) ∧ st ≠ t ∧ st ≠ (t_name th).1.

Definition array_blocks (bl : gmap Z owner) (o : owner) (a : array) : Prop :=
  arr_wf a ∧ ∀ b, arr_ptr a = Some b → bl !! b = Some o.

Section Blocks.
Context {H : Type} {HH : KernelHeap H}.
Implicit Types (bl : gmap Z owner) (h : H) (T : gmap Z thread) (a : array) (P : gmap Z tproc).

Record hinv bl h T a P : Prop := {
  ho_ok : heap_ok h;
  ho_alloc : ∀ b o, bl !! b = Some o → b ∈ allocated h;
  ho_thread : ∀ t th, T !! t = Some th → thread_blocks bl t th;
  ho_proc : ∀ p x, P !! p = Some x → array_blocks bl (OProc p) (p_threads x);
  ho_cpus : array_blocks bl OCpus a;
}.

(** What other owners have is theirs still. *)
Definition keeps bl bl' o : Prop := ∀ b o', o' ≠ o → bl !! b = Some o' → bl' !! b = Some o'.

Lemma thread_blocks_keep bl bl' o t th :
  thread_blocks bl t th → keeps bl bl' o → o ≠ OThread t → thread_blocks bl' t th.
Proof.
  intros (H1 & H2 & H3 & H4) Hk Ho. split_and!; [by apply Hk|by apply Hk|done|].
  intros st Hst. destruct (H4 st Hst) as (? & ? & ?). split_and!; [by apply Hk|done..].
Qed.
Lemma array_blocks_keep bl bl' o o' a :
  array_blocks bl o' a → keeps bl bl' o → o' ≠ o → array_blocks bl' o' a.
Proof. intros [H1 H2] Hk Ho. split; [done|]. intros b Hb. apply Hk; [done|]. by apply H2. Qed.

(** The heap changes for one owner. *)
Lemma hinv_owner bl bl' h h' T T' a a' P P' o :
  hinv bl h T a P → keeps bl bl' o → heap_ok h' → (∀ b o, bl' !! b = Some o → b ∈ allocated h') →
  (∀ t th, T' !! t = Some th → T !! t = Some th ∧ o ≠ OThread t ∨ thread_blocks bl' t th) →
  (∀ p x, P' !! p = Some x → P !! p = Some x ∧ o ≠ OProc p ∨ array_blocks bl' (OProc p) (p_threads x)) →
  (a' = a ∧ o ≠ OCpus ∨ array_blocks bl' OCpus a') → hinv bl' h' T' a' P'.
Proof.
  intros [H1 H2 H3 H4 H5] Hk Hok Hal HT HP Ha. split; try done.
  - intros t th Ht. destruct (HT t th Ht) as [[Ht' Ho]|]; [|done]. apply (thread_blocks_keep bl _ o); [by apply H3|done|done].
  - intros p x Hp. destruct (HP p x Hp) as [[Hp' Ho]|]; [|done]. apply (array_blocks_keep bl _ o); [by apply H4|done|congruence].
  - destruct Ha as [[-> Ho]|]; [|done]. apply (array_blocks_keep bl _ o); [done..|congruence].
Qed.

(** Fields of a thread that are no blocks, and locks of processes. *)
Lemma hinv_thread bl h T a P t th th' :
  hinv bl h T a P → T !! t = Some th → t_name th' = t_name th → t_stack th' = t_stack th →
  hinv bl h (<[t := th']> T) a P.
Proof.
  intros [H1 H2 H3 H4 H5] Ht E1 E2. split; try done. intros u thu Hu. destruct (decide (u = t)) as [->|Hne].
  - rewrite lookup_insert_eq in Hu. injection Hu as <-. unfold thread_blocks. rewrite E1, E2. by apply H3.
  - rewrite lookup_insert_ne in Hu by done. by apply H3.
Qed.
Lemma hinv_plock bl h T a P p x l :
  hinv bl h T a P → P !! p = Some x → hinv bl h T a (<[p := Tproc (p_threads x) l]> P).
Proof.
  intros [H1 H2 H3 H4 H5] Hp. split; try done. intros q y Hq. destruct (decide (q = p)) as [->|Hne].
  - rewrite lookup_insert_eq in Hq. injection Hq as <-. exact (H4 p x Hp).
  - rewrite lookup_insert_ne in Hq by done. by apply H4.
Qed.

(** A new block. *)
Lemma keeps_fresh bl h b o : (∀ b o, bl !! b = Some o → b ∈ allocated h) → b ∉ allocated h → keeps bl (<[b := o]> bl) o.
Proof.
  intros Hal Hb c o' Ho Hc. destruct (decide (c = b)) as [->|Hne]; [by apply Hal in Hc|]. by rewrite lookup_insert_ne.
Qed.
Lemma alloc_fresh bl (h h' : H) b o :
  (∀ b o, bl !! b = Some o → b ∈ allocated h) → allocated h' = {[b]} ∪ allocated h →
  ∀ c o', <[b := o]> bl !! c = Some o' → c ∈ allocated h'.
Proof.
  intros Hal Ha c o' Hc. rewrite Ha. destruct (decide (c = b)) as [->|Hne]; [set_solver|].
  rewrite lookup_insert_ne in Hc by done. apply Hal in Hc. set_solver.
Qed.

(** An array has moved to another block. *)
Lemma array_moved bl h h' o a a' :
  (∀ b o, bl !! b = Some o → b ∈ allocated h) → array_blocks bl o a → arr_inv h' a' →
  allocated h' ∖ own a' = allocated h ∖ own a →
  ∃ bl', keeps bl bl' o ∧ (∀ b o, bl' !! b = Some o → b ∈ allocated h') ∧ array_blocks bl' o a' ∧
         (∀ b, own a' = own a → bl' !! b = bl !! b).
Proof.
  intros Hal [Hwf Hp] (Hok' & Hwf' & Hown') Hall. destruct (decide (own a' = own a)) as [E|Hne].
  - assert (Hpp : arr_ptr a' = arr_ptr a).
    { unfold own in E. destruct (arr_ptr a) as [b|], (arr_ptr a') as [b'|]; try done; [f_equal|..]; set_solver. }
    exists bl. split_and!; [by intros b o'| |split; [done|by rewrite Hpp]|done].
    intros b o' Hb. apply Hal in Hb. destruct (decide (b ∈ own a)); set_solver.
  - exists (match arr_ptr a' with
            | Some b => <[b := o]> (filter (λ '(_, o'), o' ≠ o) bl)
            | None => filter (λ '(_, o'), o' ≠ o) bl
            end).
    assert (Hout : ∀ b o', o' ≠ o → bl !! b = Some o' → b ∈ allocated h ∖ own a).
    { intros b o' Ho Hb. apply elem_of_difference. split; [by eapply Hal|]. unfold own.
      destruct (arr_ptr a) as [c|] eqn:Ec; [|set_solver]. intros ->%elem_of_singleton.
      specialize (Hp c eq_refl). congruence. }
    assert (Hnew : ∀ b, arr_ptr a' = Some b → ∀ o', o' ≠ o → bl !! b ≠ Some o').
    { intros b Hb o' Ho Hbl. apply Hout in Hbl; [|done]. rewrite <-Hall in Hbl. unfold own in Hbl at 1. rewrite Hb in Hbl. set_solver. }
    split_and!.
    + intros b o' Ho Hb. destruct (arr_ptr a') as [c|].
      * destruct (decide (b = c)) as [->|]; [by destruct (Hnew c eq_refl o')|]. rewrite lookup_insert_ne by done.
        by apply map_lookup_filter_Some.
      * by apply map_lookup_filter_Some.
    + intros b o' Hb. assert (Hcase : (arr_ptr a' = Some b) ∨ (bl !! b = Some o' ∧ o' ≠ o)).
      { destruct (arr_ptr a') as [c|].
        - destruct (decide (b = c)) as [->|]; [by left|]. rewrite lookup_insert_ne in Hb by done.
          apply map_lookup_filter_Some in Hb. by right.
        - apply map_lookup_filter_Some in Hb. by right. }
      destruct Hcase as [Hb'|[Hb' Ho]].
      * unfold own in Hown'. rewrite Hb' in Hown'. set_solver.
      * apply Hout in Hb'; [|done]. rewrite <-Hall in Hb'. set_solver.
    + split; [done|]. intros b ->. by rewrite lookup_insert_eq.
    + intros b E. done.
Qed.

(** Freeing the blocks of a thread. *)
Lemma hinv_destroy bl h T a P t th :
  hinv bl h T a P → T !! t = Some th →
  ∃ h1 h2 h3, kfree (t_stack th) h = Done (tt, h1) ∧ kfree (Some (t_name th).1) h1 = Done (tt, h2) ∧
    kfree (Some t) h2 = Done (tt, h3) ∧ ∃ bl', hinv bl' h3 (delete t T) a P.
Proof.
  intros Hinv Ht. pose proof Hinv as [H1 H2 H3 H4 H5]. destruct (H3 _ _ Ht) as (B1 & B2 & B3 & B4).
  set (n := (t_name th).1) in *.
  assert (∃ h1, kfree (t_stack th) h = Done (tt, h1) ∧ heap_ok h1 ∧
    ∀ b, b ∈ allocated h → t_stack th ≠ Some b → b ∈ allocated h1) as (h1 & E1 & Hok1 & Ha1).
  { destruct (t_stack th) as [st|] eqn:Est.
    - destruct (kfree_some h st H1) as (h1 & ? & ? & Ha); [by eapply H2, B4|]. exists h1. split_and!; [done..|]. set_solver.
    - exists h. rewrite kfree_null. by split_and!. }
  assert (Hn1 : n ∈ allocated h1) by (apply Ha1; [by eapply H2|]; intros E; by destruct (B4 _ E) as (_ & _ & ?)).
  destruct (kfree_some h1 n Hok1 Hn1) as (h2 & E2 & Hok2 & Ha2).
  assert (Ht2 : t ∈ allocated h2).
  { rewrite Ha2. apply elem_of_difference. split; [|set_solver]. apply Ha1; [by eapply H2|]. intros E. by destruct (B4 _ E) as (_ & ? & _). }
  destruct (kfree_some h2 t Hok2 Ht2) as (h3 & E3 & Hok3 & Ha3).
  exists h1, h2, h3. split_and!; [done..|]. exists (filter (λ '(_, o), o ≠ OThread t) bl).
  apply (hinv_owner bl _ h _ T _ a _ P _ (OThread t)); try done.
  - intros b o Ho Hb. by apply map_lookup_filter_Some.
  - intros b o [Hb Ho]%map_lookup_filter_Some. rewrite Ha3, Ha2. assert (b ≠ t ∧ b ≠ n) by (split; intros ->; congruence).
    apply elem_of_difference. split; [apply elem_of_difference; split; [|set_solver]|set_solver].
    apply Ha1; [by eapply H2|]. intros E. destruct (B4 _ E) as (? & _ & _). congruence.
  - intros u thu [Hne Hu]%lookup_delete_Some. left. split; [done|congruence].
  - intros p x Hp. left. split; [done|congruence].
  - by left.
Qed.
End Blocks.
