(* ===== verification/ThreadsOps.v ===== *)
(** * The operations keep the invariant

    Each operation of the thread system, run in a state with the invariant,
    returns and leaves a state with the invariant: no assertion fails, nothing
    undefined happens, no lock is left held. *)

From stdpp Require Import base numbers list gmap fin_maps fin_sets sets strings.
From Stdlib Require Import ZArith Lia.
From S2P Require Import Prelude KernelHeap Array Wchan Spinlock Threads ThreadsRun ThreadsInv ThreadsHeap.

Open Scope Z_scope.
Open Scope kernel_scope.

(** Processes: no lock held, no hole in the arrays, and a thread's process has
    it in its array. *)
Record rinv (T : gmap Z thread) (P : gmap Z tproc) : Prop := {
  ri_lock : ∀ p x, P !! p = Some x → p_lock x = None;
  ri_some : ∀ p x, P !! p = Some x → Forall is_Some (elems (p_threads x));
  ri_in : ∀ t th p, T !! t = Some th → t_proc th = Some p →
    ∃ x, P !! p = Some x ∧ Some t ∈ elems (p_threads x);
}.

Definition run_ok (W : gmap Z wchan) (r : option (Z * Z)) : Prop :=
  ∀ n w, r = Some (n, w) → is_Some (W !! w).

Definition same_cur (C C' : list cpu) : Prop :=
  ∀ c x, C !! c = Some x → ∃ x', C' !! c = Some x' ∧ c_isidle x' = c_isidle x ∧ c_curthread x' = c_curthread x.

Section Ops.
Context {H : Type} {HH : KernelHeap H}.
Implicit Types (X : gset Z) (loc : gmap Z place) (h : H) (T : gmap Z thread) (a : array) (C : list cpu) (W : gmap Z wchan) (P : gmap Z tproc) (r : option (Z * Z)) (me c : nat) (t w : Z) (th : thread).

Definition sinv X (s : sys H) : Prop :=
  ∃ loc bl, pinv X loc (s_threads s) (s_cpus s) (s_wchans s) ∧
    hinv bl (s_heap s) (s_threads s) (s_allcpus s) (s_procs s) ∧
    rinv (s_threads s) (s_procs s) ∧ run_ok (s_wchans s) (s_runprogram s).

Lemma same_cur_refl C : same_cur C C.
Proof. intros c x Hx. by eauto. Qed.
Lemma same_cur_trans C1 C2 C3 : same_cur C1 C2 → same_cur C2 C3 → same_cur C1 C3.
Proof.
  intros H1 H2 c x Hx. destruct (H1 _ _ Hx) as (y & Hy & E1 & E2). destruct (H2 _ _ Hy) as (z & Hz & E3 & E4).
  exists z. split_and!; congruence.
Qed.
Lemma same_cur_insert C c x y :
  C !! c = Some x → c_isidle y = c_isidle x → c_curthread y = c_curthread x → same_cur C (<[c := y]> C).
Proof.
  intros Hx E1 E2 d z Hz. destruct (decide (d = c)) as [->|Hne].
  - exists y. rewrite (lookup_cpu_same _ _ x) by done. rewrite Hx in Hz. by injection Hz as <-.
  - exists z. by rewrite list_lookup_insert_ne.
Qed.

(** ** Waking up *)

(** A thread off its list that may be made ready. *)
Definition wakeable C T t : Prop :=
  ∃ th c, T !! t = Some th ∧ t_cpu th = Some c ∧ is_Some (C !! c) ∧
    (t_state th = S_READY ∨ t_state th = S_SLEEP) ∧
    ∀ st, t_stack th = Some st → t_guard th = replicate 4 THREAD_STACK_MAGIC.

Lemma make_runnable_ok X loc h T a C W P r me t :
  pinv X loc T C W → t ∈ X → wakeable C T t →
  ∃ C' loc', thread_make_runnable me t false (Sys h T a C W P r) = Done (tt, Sys h T a C' W P r) ∧
    pinv (X ∖ {[t]}) loc' T C' W ∧ same_cur C C' ∧ length C' = length C.
Proof.
  intros Hp HtX (th & c & HT & Hc & [x Hx] & Hst & Hg).
  pose proof (co_locks _ _ _ _ (pi_cpus _ _ _ _ _ Hp _ _ Hx)) as [Hl Hi].
  exists (<[c := enq t x]> C), (<[t := PReady c]> loc). split_and!.
  - by apply (run_make_runnable h T a C W P r me t th c x).
  - by eapply pinv_enq.
  - destruct (enq_fields t x) as (_ & _ & E3 & E4 & _). by eapply same_cur_insert.
  - apply length_insert.
Qed.

Lemma wakeable_cpus C C' T t : length C' = length C → wakeable C T t → wakeable C' T t.
Proof.
  intros Hl (th & c & HT & Hc & Hx & Hst). exists th, c. split_and!; try apply Hst; try done.
  apply lookup_lt_is_Some. rewrite Hl. by apply lookup_lt_is_Some.
Qed.

Lemma make_all_ok X loc h T a C W P r me l :
  pinv X loc T C W → NoDup l → (∀ t, t ∈ l → t ∈ X ∧ wakeable C T t) →
  ∃ C' loc', make_all_runnable me l (Sys h T a C W P r) = Done (tt, Sys h T a C' W P r) ∧
    pinv (X ∖ list_to_set l) loc' T C' W ∧ same_cur C C' ∧ length C' = length C.
Proof.
  revert X loc C. induction l as [|t l IH]; intros X loc C Hp Hnd Hl.
  - exists C, loc. split_and!; [done| |apply same_cur_refl|done]. replace (X ∖ list_to_set []) with X; [done|set_solver].
  - apply NoDup_cons in Hnd as [Htl Hnd]. destruct (Hl t) as [HtX Hw]; [left|].
    destruct (make_runnable_ok X loc h T a C W P r me t Hp HtX Hw) as (C1 & loc1 & E1 & Hp1 & Hs1 & Hl1).
    destruct (IH (X ∖ {[t]}) loc1 C1 Hp1 Hnd) as (C2 & loc2 & E2 & Hp2 & Hs2 & Hl2).
    { intros u Hu. destruct (Hl u) as [HuX Hwu]; [by right|]. split; [|by apply (wakeable_cpus C)].
      apply elem_of_difference. split; [done|]. intros ->%elem_of_singleton. done. }
    exists C2, loc2. simpl. kgo E1. split_and!; [done| |by eapply same_cur_trans|lia].
    replace (X ∖ ({[t]} ∪ list_to_set l)) with (X ∖ {[t]} ∖ list_to_set l); [done|set_solver].
Qed.

Lemma sleeper_wakeable X loc T C W w t :
  pinv X loc T C W → loc !! t = Some (PSleep w) → wakeable C T t.
Proof.
  intros Hp Ht. destruct (proj1 (pi_dom _ _ _ _ _ Hp t)) as [[th HT] _]; [by eauto|].
  destruct (pi_threads _ _ _ _ _ Hp _ _ _ HT Ht) as [(c & Hc & Hx & _) Hst Hg]. exists th, c. split_and!; try done. by right.
Qed.

(** What waking changes: run queues and the channel. *)
Definition woken (s s' : sys H) : Prop :=
  s_heap s' = s_heap s ∧ s_threads s' = s_threads s ∧ s_allcpus s' = s_allcpus s ∧ s_procs s' = s_procs s ∧
  s_runprogram s' = s_runprogram s ∧ same_cur (s_cpus s) (s_cpus s') ∧
  ∀ w, is_Some (s_wchans s !! w) → is_Some (s_wchans s' !! w).

Lemma run_ok_insert W r w (x : wchan) : run_ok W r → run_ok (<[w := x]> W) r.
Proof.
  intros Hr n v E. destruct (decide (v = w)) as [->|]; [rewrite lookup_insert_eq; by eauto|].
  rewrite lookup_insert_ne by done. by apply (Hr n).
Qed.
Lemma insert_keeps W w (x : wchan) v : is_Some (W !! v) → is_Some (<[w := x]> W !! v).
Proof. intros Hv. destruct (decide (v = w)) as [->|]; [rewrite lookup_insert_eq; by eauto|by rewrite lookup_insert_ne]. Qed.

Lemma wakeone_ok s me w :
  sinv ∅ s → is_Some (s_wchans s !! w) → ∃ s', wchan_wakeone me w s = Done (tt, s') ∧ sinv ∅ s' ∧ woken s s'.
Proof.
  destruct s as [h T a C W P r]. intros (loc & bl & Hp & Hh & Hr & Hrun) [x Hx]. simpl in *.
  pose proof (wo_lock _ _ _ (pi_wchans _ _ _ _ _ Hp _ _ Hx)) as Hlk.
  unfold wchan_wakeone. kgo (run_wchan_lock h T a C W P r me w x Hx Hlk).
  set (x1 := wc_with (wc_threads x) (Some me) x).
  kgo (run_the_wchan h T a C _ P r w x1 (lookup_insert_eq W w x1)).
  change (wc_threads x1) with (wc_threads x). destruct (wc_threads x) as [|t l] eqn:El.
  - rewrite (run_wchan_unlock h T a C _ P r me w x1 (lookup_insert_eq W w x1) eq_refl). rewrite insert_insert_eq.
    change (wc_threads x1) with (@nil Z). destruct (pinv_wchan_take ∅ loc T C W w x [] [] Hp Hx El) as [Hp1 _].
    eexists. split; [done|]. split.
    + exists loc, bl. simpl. split_and!; [|done|done|by apply run_ok_insert].
      replace (list_to_set [] ∪ ∅ : gset Z) with (∅ : gset Z) in Hp1 by set_solver. exact Hp1.
    + unfold woken. simpl. split_and!; [done..|apply same_cur_refl|]. intros v. apply insert_keeps.
  - kgo (run_set_wchan h T a C _ P r w x1 _ (lookup_insert_eq W w x1)). rewrite insert_insert_eq.
    set (x2 := wc_with l _ x1). kgo (run_wchan_unlock h T a C _ P r me w x2 (lookup_insert_eq W w x2) eq_refl).
    rewrite insert_insert_eq. destruct (pinv_wchan_take ∅ loc T C W w x [t] l Hp Hx El) as [Hp1 Hin].
    destruct (make_runnable_ok _ _ h T a C _ P r me t Hp1) as (C' & loc' & E & Hp2 & Hs & Hlen).
    { set_solver. }
    { apply (sleeper_wakeable ∅ loc T C W w t Hp). apply Hin. set_solver. }
    exists (Sys h T a C' (<[w := wc_with l None x]> W) P r). split; [exact E|]. split.
    + exists loc', bl. simpl. split_and!; [|done|done|by apply run_ok_insert].
      replace ((list_to_set [t] ∪ ∅) ∖ {[t]} : gset Z) with (∅ : gset Z) in Hp2 by set_solver. exact Hp2.
    + unfold woken. simpl. split_and!; [done..|]. intros v. apply insert_keeps.
Qed.

Lemma wakeall_ok s me w :
  sinv ∅ s → is_Some (s_wchans s !! w) → ∃ s', wchan_wakeall me w s = Done (tt, s') ∧ sinv ∅ s' ∧ woken s s'.
Proof.
  destruct s as [h T a C W P r]. intros (loc & bl & Hp & Hh & Hr & Hrun) [x Hx]. simpl in *.
  pose proof (pi_wchans _ _ _ _ _ Hp _ _ Hx) as [Hnd Hwin Hlk].
  unfold wchan_wakeall. kgo (run_wchan_lock h T a C W P r me w x Hx Hlk).
  set (x1 := wc_with (wc_threads x) (Some me) x).
  kgo (run_the_wchan h T a C _ P r w x1 (lookup_insert_eq W w x1)).
  change (wc_threads x1) with (wc_threads x).
  kgo (run_set_wchan h T a C _ P r w x1 _ (lookup_insert_eq W w x1)). rewrite insert_insert_eq.
  set (x2 := wc_with [] _ x1). kgo (run_wchan_unlock h T a C _ P r me w x2 (lookup_insert_eq W w x2) eq_refl).
  rewrite insert_insert_eq. destruct (pinv_wchan_take ∅ loc T C W w x (wc_threads x) [] Hp Hx) as [Hp1 Hin]; [by rewrite app_nil_r|].
  destruct (make_all_ok _ _ h T a C _ P r me (wc_threads x) Hp1 Hnd) as (C' & loc' & E & Hp2 & Hs & Hlen).
  { intros t Ht. split; [set_solver|]. apply (sleeper_wakeable ∅ loc T C W w t Hp). by apply Hin. }
  exists (Sys h T a C' (<[w := wc_with [] None x]> W) P r). split; [exact E|]. split.
  + exists loc', bl. simpl. split_and!; [|done|done|by apply run_ok_insert].
    replace ((list_to_set (wc_threads x) ∪ ∅) ∖ list_to_set (wc_threads x) : gset Z) with (∅ : gset Z) in Hp2 by set_solver. exact Hp2.
  + unfold woken. simpl. split_and!; [done..|]. intros v. apply insert_keeps.
Qed.

(** ** Destroying *)

Lemma run_heap {A} (k : K H A) (v : A) h h' T a C W P r :
  k h = Done (v, h') → heap k (Sys h T a C W P r) = Done (v, Sys h' T a C W P r).
Proof. intros E. unfold heap, kzoom. simpl. by rewrite E. Qed.

Lemma rinv_delete T P t : rinv T P → rinv (delete t T) P.
Proof. intros [H1 H2 H3]. split; try done. intros u th p [_ Hu]%lookup_delete_Some. by apply (H3 _ th). Qed.

Lemma thread_destroy_ok X loc bl h T a C W P r me x t th :
  pinv X loc T C W → hinv bl h T a P → rinv T P → t ∈ X → C !! me = Some x → T !! t = Some th →
  (∀ c y, C !! c = Some y → c_curthread y ≠ t) → t_state th ≠ S_RUN → t_proc th = None →
  ∃ h' bl', thread_destroy me t (Sys h T a C W P r) = Done (tt, Sys h' (delete t T) a C W P r) ∧
    pinv (X ∖ {[t]}) loc (delete t T) C W ∧ hinv bl' h' (delete t T) a P ∧ rinv (delete t T) P.
Proof.
  intros Hp Hh Hr HtX Hx HT Hcur Hst Hpr.
  destruct (hinv_destroy bl h T a P t th Hh HT) as (h1 & h2 & h3 & E1 & E2 & E3 & bl' & Hh').
  exists h3, bl'. split_and!; [|by apply pinv_delete|done|by apply rinv_delete].
  unfold thread_destroy. kgo (run_curthread h T a C W P r me x Hx).
  rewrite step_assert by (apply negb_true_iff, Z.eqb_neq; by apply not_eq_sym, (Hcur me)).
  kgo (run_the_thread h T a C W P r t th HT). rewrite step_assert by (by rewrite bool_decide_false).
  rewrite step_assert by (by rewrite bool_decide_true). kgo (run_heap _ _ _ _ T a C W P r E1).
  kgo (run_heap _ _ _ _ T a C W P r E2). by kgo (run_heap _ _ _ _ T a C W P r E3).
Qed.

Lemma exorcise_ok loc bl h T a C W P r me x :
  pinv ∅ loc T C W → hinv bl h T a P → rinv T P → C !! me = Some x → c_isidle x = false →
  ∃ h' T' C' loc' bl', exorcise_list me (c_zombies x) (Sys h T a C W P r) = Done (tt, Sys h' T' a C' W P r) ∧
    pinv ∅ loc' T' C' W ∧ hinv bl' h' T' a P ∧ rinv T' P ∧ same_cur C C'.
Proof.
  intros Hp Hh Hr Hx Hidle. remember (c_zombies x) as zs eqn:Ez. symmetry in Ez.
  revert x loc bl h T C Hp Hh Hr Hx Hidle Ez. induction zs as [|z zs IH]; intros x loc bl h T C Hp Hh Hr Hx Hidle Ez.
  - exists h, T, C, loc, bl. split_and!; [done..|apply same_cur_refl].
  - destruct (pinv_z_take ∅ loc T C W me x z zs Hp Hx Ez) as [Hz Hp1].
    destruct (proj1 (pi_dom _ _ _ _ _ Hp z)) as [[th HT] _]; [by eauto|].
    destruct (pi_threads _ _ _ _ _ Hp _ _ _ HT Hz) as [(c & Hc & _ & Hcm) [Hst Hpr] _].
    assert (c = me) as -> by (symmetry; by apply Hcm).
    assert (Hcurz : c_curthread x ≠ z).
    { intros E. assert (loc !! z = Some (PRun me)) by (by apply (co_run _ _ _ _ (pi_cpus _ _ _ _ _ Hp _ _ Hx))). congruence. }
    set (y := cp_zombies zs x) in *. pose proof (lookup_cpu_same C me x y Hx) as Hy.
    assert (Hcur : ∀ c v, <[me := y]> C !! c = Some v → c_curthread v ≠ z).
    { intros c v Hv. destruct (decide (c = me)) as [->|Hne].
      - rewrite Hy in Hv. by injection Hv as <-.
      - rewrite list_lookup_insert_ne in Hv by done. intros E.
        destruct (co_cur _ _ _ _ (pi_cpus _ _ _ _ _ Hp _ _ Hv)) as (thv & HTv & Hcv). rewrite E, HT in HTv. congruence. }
    assert (Hst' : t_state th ≠ S_RUN) by congruence.
    destruct (thread_destroy_ok _ _ _ h T a _ W P r me y z th Hp1 Hh Hr ltac:(set_solver) Hy HT Hcur Hst' Hpr)
      as (h1 & bl1 & E1 & Hp2 & Hh2 & Hr2).
    replace (({[z]} ∪ ∅) ∖ {[z]} : gset Z) with (∅ : gset Z) in Hp2 by set_solver.
    destruct (IH y _ bl1 h1 (delete z T) (<[me:=y]> C) Hp2 Hh2 Hr2 Hy Hidle eq_refl) as (h' & T' & C' & loc' & bl' & E & Hp' & Hh' & Hr' & Hs').
    exists h', T', C', loc', bl'. split_and!; try done; [|by eapply same_cur_trans; [eapply (same_cur_insert C me x y)|]].
    cbn [exorcise_list]. kgo (run_set_cpu h T a C W P r me x _ Hx). fold y. kgo (run_curthread h T a _ W P r me y Hy).
    rewrite step_assert by (apply negb_true_iff, Z.eqb_neq; by apply not_eq_sym, (Hcur me)).
    kgo (run_the_thread h T a _ W P r z th HT). rewrite step_assert by (by rewrite bool_decide_true). by kgo E1.
Qed.

(** ** Switching *)

(** One round of the idle loop, from a state that has the invariant but for the
    run queue's lock. *)
Lemma idle_round_ok loc bl h T a C W P r me x :
  C !! me = Some x → c_runqueue_lock x = Some me → c_isidle x = true →
  pinv ∅ loc T (<[me := cp_rqlock None x]> C) W → hinv bl h T a P → rinv T P → run_ok W r →
  ∃ s', idle_round me (Sys h T a C W P r) = Done (tt, s') ∧ sinv ∅ s' ∧ s_wchans s' = W ∧ s_procs s' = P.
Proof.
  intros Hx Hlk Hidle Hp Hh Hr Hrun. unfold idle_round. kgo (run_the_cpu h T a C W P r me x Hx).
  set (x0 := cp_rqlock None x) in *. pose proof (lookup_cpu_same C me x x0 Hx) as Hx0.
  destruct (c_runqueue x) as [|next q] eqn:Eq.
  { rewrite (run_rq_release h T a C W P r me me x Hx Hlk). eexists. split; [done|]. split; [|done]. by exists loc, bl. }
  destruct (pinv_rq_take ∅ loc T _ W me x0 [] next q Hp Hx0 Eq) as [Hn Hp1].
  destruct (proj1 (pi_dom _ _ _ _ _ Hp next)) as [[th HT] _]; [by eauto|].
  destruct (pi_threads _ _ _ _ _ Hp _ _ _ HT Hn) as [(c & Hc & _ & Hcm) _ Hg]. assert (c = me) as -> by (symmetry; by apply Hcm).
  set (th' := th_state S_RUN (th_wchan_name None th)).
  pose proof (pinv_thread _ _ _ _ _ next th th' Hp1 ltac:(set_solver) HT (or_introl eq_refl)) as Hp2.
  rewrite insert_twice in Hp2. set (x1 := cp_runqueue ([] ++ q) x0) in *.
  pose proof (lookup_cpu_same C me x x1 Hx) as Hx1.
  pose proof (pinv_run _ _ _ _ _ me x1 next th' Hp2 Hx1 Hidle ltac:(set_solver) (lookup_insert_eq T next th') Hc eq_refl Hg) as Hp3.
  rewrite insert_twice in Hp3. replace (({[next]} ∪ ∅) ∖ {[next]} : gset Z) with (∅ : gset Z) in Hp3 by set_solver.
  set (y := cp_curthread next (cp_isidle false x1)) in *. pose proof (lookup_cpu_same C me x y Hx) as Hy.
  assert (Hh3 : hinv bl h (<[next := th']> T) a P) by (by apply (hinv_thread _ _ _ _ _ next th)).
  assert (Hr3 : rinv (<[next := th']> T) P).
  { destruct Hr as [R1 R2 R3]. split; try done. intros u thu p Hu Hpu. destruct (decide (u = next)) as [->|Hne].
    - rewrite lookup_insert_eq in Hu. injection Hu as <-. by apply (R3 next th).
    - rewrite lookup_insert_ne in Hu by done. by apply (R3 u thu). }
  destruct (exorcise_ok _ bl h _ a _ W P r me y Hp3 Hh3 Hr3 Hy eq_refl) as (h' & T' & C' & loc' & bl' & E & Hp' & Hh' & Hr' & _).
  exists (Sys h' T' a C' W P r). split; [|split; [by exists loc', bl'|done]].
  kgo (run_set_cpu h T a C W P r me x _ Hx). set (z1 := cp_runqueue q x).
  kgo (run_set_cpu h T a _ W P r me z1 _ (lookup_cpu_same C me x z1 Hx)). rewrite insert_twice. set (z2 := cp_isidle false z1).
  kgo (run_set_cpu h T a _ W P r me z2 _ (lookup_cpu_same C me x z2 Hx)). rewrite insert_twice. set (z3 := cp_curthread next z2).
  pose proof (lookup_cpu_same C me x z3 Hx) as Hz3. unfold switch_in. kgo (run_curthread h T a _ W P r me z3 Hz3).
  change (c_curthread z3) with next. kgo (run_set_thread h T a _ W P r next th _ HT).
  kgo (run_set_thread h _ a _ W P r next _ _ (lookup_insert_eq T next (th_wchan_name None th))). rewrite insert_insert_eq. fold th'.
  kgo (run_rq_release h _ a _ W P r me me z3 Hz3 Hlk). rewrite insert_twice.
  unfold exorcise. kgo (run_the_cpu h _ a _ W P r me y Hy). exact E.
Qed.

Lemma idle_return_ok s me x :
  sinv ∅ s → s_cpus s !! me = Some x → c_isidle x = true →
  ∃ s', idle_return me s = Done (tt, s') ∧ sinv ∅ s' ∧ s_wchans s' = s_wchans s ∧ s_procs s' = s_procs s.
Proof.
  destruct s as [h T a C W P r]. simpl. intros (loc & bl & Hp & Hh & Hr & Hrun) Hx Hidle. simpl in *.
  pose proof (co_locks _ _ _ _ (pi_cpus _ _ _ _ _ Hp _ _ Hx)) as [Hl _].
  unfold idle_return. kgo (run_rq_acquire h T a C W P r me me x Hx Hl). set (y := cp_rqlock (Some me) x).
  apply (idle_round_ok loc bl h T a _ W P r me y); try done; [by apply (lookup_cpu_same C me x)|].
  rewrite insert_twice. unfold y. rewrite cp_rqlock_twice, <-Hl, cp_rqlock_id. by rewrite list_insert_id.
Qed.

Lemma run_checkstack h T a C W P r t th :
  T !! t = Some th → (∀ st, t_stack th = Some st → t_guard th = replicate 4 THREAD_STACK_MAGIC) →
  thread_checkstack t (Sys h T a C W P r) = Done (tt, Sys h T a C W P r).
Proof.
  intros HT Hg. unfold thread_checkstack. kgo (run_the_thread h T a C W P r t th HT).
  destruct (t_stack th) as [st|]; [|done]. unfold kassert. by rewrite bool_decide_true by (by apply (Hg st)).
Qed.

(** Where the running thread of a processor is. *)
Lemma running loc T C W me x :
  pinv ∅ loc T C W → C !! me = Some x → c_isidle x = false →
  ∃ th, T !! c_curthread x = Some th ∧ t_cpu th = Some me ∧ loc !! c_curthread x = Some (PRun me) ∧
    (t_state th = S_RUN ∨ t_state th = S_READY) ∧
    (∀ st, t_stack th = Some st → t_guard th = replicate 4 THREAD_STACK_MAGIC) ∧
    c_runqueue_lock x = None ∧ c_ipi_lock x = None ∧ (c_ipi_pending x = 0 ∨ c_ipi_pending x = 4).
Proof.
  intros Hp Hx Hidle. destruct (pi_cpus _ _ _ _ _ Hp _ _ Hx) as [_ _ _ _ H5 (th & HT & Hc) [H6 H7] H8].
  assert (Hl : loc !! c_curthread x = Some (PRun me)) by (by apply H5).
  destruct (pi_threads _ _ _ _ _ Hp _ _ _ HT Hl) as [_ Hst Hg]. exists th. by split_and!.
Qed.

(** [thread_switch] up to its idle loop. *)
Lemma run_switch h T a C W P r me ns wc x th T1 C1 W1 x2 th1 :
  C !! me = Some x → c_isidle x = false → T !! c_curthread x = Some th → c_runqueue_lock x = None →
  (∀ st, t_stack th = Some st → t_guard th = replicate 4 THREAD_STACK_MAGIC) → ns ≠ S_READY ∨ c_runqueue x ≠ [] →
  park_thread me (c_curthread x) ns wc (Sys h T a (<[me := cp_rqlock (Some me) x]> C) W P r) = Done (tt, Sys h T1 a C1 W1 P r) →
  T1 !! c_curthread x = Some th1 → C1 !! me = Some x2 →
  thread_switch me ns wc (Sys h T a C W P r) =
  idle_round me (Sys h (<[c_curthread x := th_state ns th1]> T1) a (<[me := cp_isidle true x2]> C1) W1 P r).
Proof.
  intros Hx Hidle HT Hl Hg Hne Hpark HT1 Hx2. unfold thread_switch. kgo (run_the_cpu h T a C W P r me x Hx). rewrite Hidle.
  kgo (run_checkstack h T a C W P r _ th HT Hg). kgo (run_rq_acquire h T a C W P r me me x Hx Hl).
  assert (bool_decide (ns = S_READY) && bool_decide (c_runqueue x = []) = false) as ->.
  { destruct Hne; [by rewrite bool_decide_false|]. rewrite (bool_decide_false (c_runqueue x = [])) by done. apply andb_false_r. }
  kgo Hpark. kgo (run_set_thread h T1 a C1 W1 P r _ th1 _ HT1). by kgo (run_set_cpu h _ a C1 W1 P r me x2 _ Hx2).
Qed.

Lemma rinv_thread T P t th th' :
  rinv T P → T !! t = Some th → t_proc th' = t_proc th ∨ t_proc th' = None → rinv (<[t := th']> T) P.
Proof.
  intros [R1 R2 R3] HT Hpr. split; try done. intros u thu p Hu Hpu. destruct (decide (u = t)) as [->|Hne].
  - rewrite lookup_insert_eq in Hu. injection Hu as <-. apply (R3 t th); [done|]. destruct Hpr as [<-|]; congruence.
  - rewrite lookup_insert_ne in Hu by done. by apply (R3 u thu).
Qed.

Lemma yield_ok s me :
  sinv ∅ s → is_Some (s_cpus s !! me) →
  ∃ s', thread_yield me s = Done (tt, s') ∧ sinv ∅ s' ∧ s_wchans s' = s_wchans s ∧ s_procs s' = s_procs s.
Proof.
  destruct s as [h T a C W P r]. simpl. intros (loc & bl & Hp & Hh & Hr & Hrun) [x Hx]. simpl in *. unfold thread_yield.
  destruct (c_isidle x) eqn:Hidle.
  { eexists. unfold thread_switch. kgo (run_the_cpu h T a C W P r me x Hx). rewrite Hidle. split; [done|]. split; [by exists loc, bl|done]. }
  destruct (running _ _ _ _ _ _ Hp Hx Hidle) as (th & HT & Hcpu & Hl & Hst & Hg & Hlk & Hilk & Hpd).
  set (x1 := cp_rqlock (Some me) x). pose proof (lookup_cpu_same C me x x1 Hx) as Hx1.
  destruct (decide (c_runqueue x = [])) as [Hq|Hq].
  { exists (Sys h T a C W P r). split; [|split; [by exists loc, bl|done]]. unfold thread_switch.
    kgo (run_the_cpu h T a C W P r me x Hx). rewrite Hidle. kgo (run_checkstack h T a C W P r _ th HT Hg).
    kgo (run_rq_acquire h T a C W P r me me x Hx Hlk). rewrite !bool_decide_true by done. cbv beta iota delta [andb]. fold x1.
    rewrite (run_rq_release h T a _ W P r me me x1 Hx1 eq_refl). rewrite insert_twice.
    change (cp_rqlock None x1) with (cp_rqlock None x). rewrite <-Hlk, cp_rqlock_id. by rewrite list_insert_id. }
  set (t := c_curthread x) in *. set (x2 := enq t x1).
  destruct (pinv_park ∅ loc T C W me x Hp Hx Hidle) as [_ Hp1]. fold t in Hp1. set (y0 := cp_isidle true x) in *.
  set (th' := th_state S_READY th).
  pose proof (pinv_thread _ _ _ _ _ t th th' Hp1 ltac:(set_solver) HT (or_introl eq_refl)) as Hp2.
  pose proof (lookup_cpu_same C me x y0 Hx) as Hy0.
  pose proof (pinv_enq _ _ _ _ _ me y0 t th' Hp2 Hy0 ltac:(set_solver) (lookup_insert_eq T t th') Hcpu (or_introl eq_refl) Hg) as Hp3.
  replace (({[t]} ∪ ∅) ∖ {[t]} : gset Z) with (∅ : gset Z) in Hp3 by set_solver. rewrite insert_twice in Hp3.
  assert (Hx2 : <[me := x2]> (<[me := x1]> C) !! me = Some x2) by (rewrite insert_twice; by apply (lookup_cpu_same C me x)).
  rewrite (run_switch h T a C W P r me S_READY None x th T (<[me := x2]> (<[me := x1]> C)) W x2 th); try done; [|by right|].
  2:{ exact (run_make_runnable_locked h T a _ W P r me t th me x1 HT Hcpu Hx1 eq_refl Hilk). }
  fold t th'. rewrite !insert_twice. destruct (enq_fields t x1) as (E1 & E2 & E3 & E4 & E5 & E6 & _ & _ & E9). fold x2 in E1, E2, E3, E4, E5, E6, E9.
  apply (idle_round_ok (<[t:=PReady me]> (delete t loc)) bl _ _ _ _ _ _ _ me (cp_isidle true x2)); try done.
  - by apply (lookup_cpu_same C me x).
  - rewrite insert_twice. rewrite <-(insert_twice C me _ (enq t y0)).
    apply (pinv_cpu _ _ _ _ _ me (enq t y0)); try done.
    + by apply (lookup_cpu_same C me x).
    + cbn [c_runqueue_lock c_ipi_lock cp_rqlock cp_isidle]. by rewrite E6.
    + cbn [c_ipi_pending cp_rqlock cp_isidle]. rewrite E9. change (c_isidle x1) with (c_isidle x). by rewrite Hidle.
  - by apply (hinv_thread _ _ _ _ _ t th).
  - apply (rinv_thread _ _ t th); [done..|]. by left.
Qed.

(** [wchan_lock] and [wchan_sleep]. *)
Lemma sleep_ok s me w x :
  sinv ∅ s → s_cpus s !! me = Some x → c_isidle x = false → is_Some (s_wchans s !! w) →
  (∀ th, s_threads s !! c_curthread x = Some th → t_in_interrupt th = false) →
  ∃ s', (wchan_lock me w ;; wchan_sleep me w) s = Done (tt, s') ∧ sinv ∅ s' ∧ s_procs s' = s_procs s ∧
    ∀ v, is_Some (s_wchans s !! v) → is_Some (s_wchans s' !! v).
Proof.
  destruct s as [h T a C W P r]. simpl. intros (loc & bl & Hp & Hh & Hr & Hrun) Hx Hidle [xw Hw] Hint. simpl in *.
  destruct (running _ _ _ _ _ _ Hp Hx Hidle) as (th & HT & Hcpu & Hl & Hst & Hg & Hlk & Hilk & Hpd).
  pose proof (wo_lock _ _ _ (pi_wchans _ _ _ _ _ Hp _ _ Hw)) as Hwl.
  kgo (run_wchan_lock h T a C W P r me w xw Hw Hwl). set (w1 := wc_with (wc_threads xw) (Some me) xw).
  unfold wchan_sleep. kgo (run_curthread h T a C _ P r me x Hx). kgo (run_the_thread h T a C _ P r _ th HT).
  rewrite step_assert by (by rewrite (Hint th HT)).
  set (t := c_curthread x) in *. set (x1 := cp_rqlock (Some me) x). pose proof (lookup_cpu_same C me x x1 Hx) as Hx1.
  set (tha := th_wchan_name (Some (wc_name w1)) th). set (w2 := wc_with (wc_threads w1 ++ [t]) (wc_lock w1) w1).
  set (w3 := wc_with (wc_threads w2) None w2).
  rewrite (run_switch h T a C _ P r me S_SLEEP (Some w) x th (<[t := tha]> T) (<[me := x1]> C) (<[w := w3]> W) x1 tha); try done;
    [|by left| |apply lookup_insert_eq].
  2:{ fold t. unfold park_thread. ksteps. kgo (run_the_wchan h T a _ _ P r w w1 (lookup_insert_eq W w w1)).
      kgo (run_set_thread h T a _ _ P r t th _ HT). kgo (run_set_wchan h _ a _ _ P r w w1 _ (lookup_insert_eq W w w1)).
      rewrite insert_insert_eq. rewrite (run_wchan_unlock h _ a _ _ P r me w w2 (lookup_insert_eq W w w2) eq_refl).
      by rewrite insert_insert_eq. }
  fold t. rewrite insert_insert_eq, insert_twice. set (th' := th_state S_SLEEP tha).
  destruct (pinv_park ∅ loc T C W me x Hp Hx Hidle) as [_ Hp1]. fold t in Hp1.
  pose proof (pinv_thread _ _ _ _ _ t th th' Hp1 ltac:(set_solver) HT (or_introl eq_refl)) as Hp2.
  pose proof (pinv_wchan_add _ _ _ _ _ w xw t th' Hp2 Hw ltac:(set_solver) (lookup_insert_eq T t th')) as Hp3.
  replace (({[t]} ∪ ∅) ∖ {[t]} : gset Z) with (∅ : gset Z) in Hp3 by set_solver.
  destruct (idle_round_ok (<[t:=PSleep w]> (delete t loc)) bl h (<[t := th']> T) a (<[me := cp_isidle true x1]> C) (<[w := w3]> W) P r me (cp_isidle true x1))
    as (s' & E & Hs' & HW' & HP'); try done.
  - by apply (lookup_cpu_same C me x).
  - rewrite insert_twice. replace (cp_rqlock None (cp_isidle true x1)) with (cp_isidle true x) by (destruct x; simpl in *; by subst).
    apply Hp3; [|done|done]. exists me. split; [done|]. rewrite (lookup_cpu_same C me x) by done. by eauto.
  - by apply (hinv_thread _ _ _ _ _ t th).
  - apply (rinv_thread _ _ t th); [done..|]. by left.
  - by apply run_ok_insert.
  - exists s'. split_and!; [exact E|done|done|]. intros v Hv. rewrite HW'. by apply insert_keeps.
Qed.

(** ** Processes *)

Lemma run_on_threads {A} h T a C W P r p x (k : K (H * array) A) v h' a' :
  P !! p = Some x → k (h, p_threads x) = Done (v, (h', a')) →
  on_threads p k (Sys h T a C W P r) = Done (v, Sys h' T a C W (<[p := Tproc a' (p_lock x)]> P) r).
Proof. intros Hx E. unfold on_threads. kgo (run_the_proc h T a C W P r p x Hx). ksteps. cbn [s_heap]. by rewrite E. Qed.

Lemma run_plock_acquire h T a C W P r me p x :
  P !! p = Some x → p_lock x = None →
  plock_acquire me p (Sys h T a C W P r) = Done (tt, Sys h T a C W (<[p := Tproc (p_threads x) (Some me)]> P) r).
Proof. intros Hx Hl. unfold plock_acquire. kgo (run_the_proc h T a C W P r p x Hx). by rewrite Hl. Qed.
Lemma run_plock_release h T a C W P r me p x :
  P !! p = Some x → p_lock x = Some me →
  plock_release me p (Sys h T a C W P r) = Done (tt, Sys h T a C W (<[p := Tproc (p_threads x) None]> P) r).
Proof.
  intros Hx Hl. unfold plock_release. kgo (run_the_proc h T a C W P r p x Hx). unfold spin_put.
  by rewrite step_assert by (by rewrite bool_decide_true).
Qed.

Lemma hinv_arr bl h T a P p x : hinv bl h T a P → P !! p = Some x → arr_inv h (p_threads x).
Proof.
  intros [H1 H2 H3 H4 H5] Hx. destruct (H4 _ _ Hx) as [Hwf Hp]. split_and!; [done|done|]. unfold own.
  destruct (arr_ptr (p_threads x)) as [b|]; [|set_solver]. apply singleton_subseteq_l. by eapply H2, Hp.
Qed.

(** The search finds the thread. *)
Lemma find_thread_ok h T a C W P r p x t k :
  P !! p = Some x → arr_inv h (p_threads x) → Forall is_Some (elems (p_threads x)) →
  (k ≤ Z.to_nat (arr_num (p_threads x)))%nat →
  (∃ j, (Z.to_nat (arr_num (p_threads x)) - k ≤ j)%nat ∧ elems (p_threads x) !! j = Some (Some t)) →
  ∃ i, 0 ≤ i < arr_num (p_threads x) ∧ elems (p_threads x) !! Z.to_nat i = Some (Some t) ∧
    find_thread p t (arr_num (p_threads x)) k (Sys h T a C W P r) = Done (Some i, Sys h T a C W P r).
Proof.
  intros Hx Harr Hall. pose proof Harr as (_ & Hwf & _). pose proof (length_elems _ Hwf) as Hlen. pose proof (wf_num _ Hwf) as Hnum.
  set (e := elems (p_threads x)) in *. set (n := arr_num (p_threads x)) in *.
  induction k as [|k IH]; intros Hk (j & Hj & Hjt).
  { apply lookup_lt_Some in Hjt. lia. }
  cbn [find_thread]. set (i := n - Z.of_nat (S k)). assert (Hi : 0 ≤ i < n) by lia.
  destruct (lookup_lt_is_Some_2 e (Z.to_nat i)) as [o Ho]; [lia|].
  destruct (proj1 (Forall_lookup _ _) Hall _ _ Ho) as [u ->].
  assert (Hget : array_get i (h, p_threads x) = Done (u, (h, p_threads x))).
  { rewrite array_get_ok by (done || lia). fold n e. rewrite decide_True by lia. by rewrite Ho. }
  kgo (run_on_threads h T a C W P r p x _ u h (p_threads x) Hx Hget).
  replace (<[p := Tproc (p_threads x) (p_lock x)]> P) with P by (symmetry; apply insert_id; by destruct x).
  destruct (Z.eqb_spec u t) as [->|Hne]; [by exists i|].
  apply IH; [lia|]. exists j. split; [|done]. assert (j ≠ Z.to_nat i) by (intros ->; congruence). lia.
Qed.

(** Fields of a thread where it is. *)
Lemma pinv_thread_in X loc T C W t th th' :
  pinv X loc T C W → T !! t = Some th → t_cpu th' = t_cpu th → t_stack th' = t_stack th → t_guard th' = t_guard th →
  (∀ p, state_ok p th → state_ok p th') → pinv X loc (<[t := th']> T) C W.
Proof.
  intros [Hd Hc Hw Hwp Ht] HT E1 E2 E3 Hst. split; try done.
  - intros u. rewrite Hd. destruct (decide (u = t)) as [->|Hne]; [|by rewrite lookup_insert_ne]. rewrite lookup_insert_eq. naive_solver.
  - intros d z Hz. destruct (Hc _ _ Hz) as [H1 H2 H3 H4 H5 (thz & H6 & H6') H7 H8]. split; try done.
    destruct (decide (c_curthread z = t)) as [E|Hne].
    + exists th'. rewrite E, lookup_insert_eq. split; [done|]. rewrite E, HT in H6. injection H6 as <-. congruence.
    + exists thz. by rewrite lookup_insert_ne.
  - intros u thu p Hu Hl. destruct (decide (u = t)) as [->|Hne]; [|rewrite lookup_insert_ne in Hu by done; by eapply Ht].
    rewrite lookup_insert_eq in Hu. injection Hu as <-. destruct (Ht _ _ _ HT Hl) as [G1 G2 G3]. split.
    + by rewrite E1.
    + by apply Hst.
    + by rewrite E2, E3.
Qed.

Lemma remthread_ok loc bl h T a C W P r me t th p :
  pinv ∅ loc T C W → hinv bl h T a P → rinv T P → T !! t = Some th → t_proc th = Some p →
  ∃ P' bl', proc_remthread me t (Sys h T a C W P r) = Done (tt, Sys h (<[t := th_proc None th]> T) a C W P' r) ∧
    pinv ∅ loc (<[t := th_proc None th]> T) C W ∧ hinv bl' h (<[t := th_proc None th]> T) a P' ∧
    rinv (<[t := th_proc None th]> T) P' ∧ ∀ q, is_Some (P !! q) → is_Some (P' !! q).
Proof.
  intros Hp Hh Hr HT Hpr. pose proof Hr as [R1 R2 R3]. destruct (R3 _ _ _ HT Hpr) as (x & Hx & Hin).
  pose proof (hinv_arr _ _ _ _ _ _ _ Hh Hx) as Harr. pose proof Harr as (_ & Hwf & _). pose proof (wf_num _ Hwf) as Hnum.
  unfold proc_remthread. kgo (run_the_thread h T a C W P r t th HT). rewrite Hpr.
  kgo (run_plock_acquire h T a C W P r me p x Hx (R1 _ _ Hx)). set (x1 := Tproc (p_threads x) (Some me)).
  kgo (run_on_threads h T a C W _ r p x1 _ (arr_num (p_threads x)) h (p_threads x) (lookup_insert_eq P p x1) eq_refl).
  rewrite insert_insert_eq. fold x1.
  destruct (find_thread_ok h T a C W (<[p := x1]> P) r p x1 t (Z.to_nat (arr_num (p_threads x1))))
    as (i & Hi & Hit & Efind); [apply lookup_insert_eq|done|exact (R2 p x Hx)|done| |].
  { apply list_elem_of_lookup in Hin as [j Hj]. exists j. split; [lia|done]. }
  change (p_threads x1) with (p_threads x) in *. kgo Efind.
  pose proof (array_remove_ok h (p_threads x) i Harr ltac:(lia)) as Hrem. rewrite decide_True in Hrem by lia.
  destruct Hrem as (a' & Erem & Harr' & Hown & Hel).
  kgo (run_on_threads h T a C W _ r p x1 _ tt h a' (lookup_insert_eq P p x1) Erem). rewrite insert_insert_eq.
  set (x2 := Tproc a' (p_lock x1)). kgo (run_plock_release h T a C W _ r me p x2 (lookup_insert_eq P p x2) eq_refl).
  rewrite insert_insert_eq. set (x3 := Tproc (p_threads x2) None).
  rewrite (run_set_thread h T a C W _ r t th _ HT).
  destruct (array_moved bl h h (OProc p) (p_threads x) a') as (bl' & Hk & Hal & Hab & _);
    [apply (ho_alloc _ _ _ _ _ Hh)|by apply (ho_proc _ _ _ _ _ Hh)|done|by rewrite Hown|].
  exists (<[p := x3]> P), bl'. split_and!; [done| | | |].
  - apply (pinv_thread_in _ _ _ _ _ t th); try done. by intros [] Hs; [..|destruct Hs|].
  - apply (hinv_thread _ _ _ _ _ t th); try done.
    apply (hinv_owner bl _ h _ T _ a _ P _ (OProc p)); try done; [apply (ho_ok _ _ _ _ _ Hh)|by left| |by left].
    intros q y Hy. destruct (decide (q = p)) as [->|Hne].
    + rewrite lookup_insert_eq in Hy. injection Hy as <-. by right.
    + rewrite lookup_insert_ne in Hy by done. left. split; [done|congruence].
  - split.
    + intros q y Hy. destruct (decide (q = p)) as [->|Hne]; [rewrite lookup_insert_eq in Hy; by injection Hy as <-|].
      rewrite lookup_insert_ne in Hy by done. by eapply R1.
    + intros q y Hy. destruct (decide (q = p)) as [->|Hne].
      * rewrite lookup_insert_eq in Hy. injection Hy as <-. simpl. rewrite Hel. apply Forall_delete. by eapply R2.
      * rewrite lookup_insert_ne in Hy by done. by eapply R2.
    + intros u thu q Hu Hq. destruct (decide (u = t)) as [->|Hne].
      { rewrite lookup_insert_eq in Hu. by injection Hu as <-. }
      rewrite lookup_insert_ne in Hu by done. destruct (R3 _ _ _ Hu Hq) as (y & Hy & Hyin).
      destruct (decide (q = p)) as [->|Hqp]; [|exists y; by rewrite lookup_insert_ne].
      exists x3. rewrite lookup_insert_eq. split; [done|]. simpl. rewrite Hel. rewrite Hx in Hy. injection Hy as <-.
      apply list_elem_of_lookup in Hyin as [j Hj]. apply list_elem_of_lookup.
      destruct (decide (j < Z.to_nat i)%nat).
      * exists j. by rewrite list_lookup_delete_lt.
      * assert (j ≠ Z.to_nat i) by (intros ->; rewrite Hit in Hj; congruence). exists (j - 1)%nat.
        rewrite list_lookup_delete_ge by lia. by replace (S (j - 1)) with j by lia.
  - intros q Hq. destruct (decide (q = p)) as [->|Hne]; [rewrite lookup_insert_eq; by eauto|by rewrite lookup_insert_ne].
Qed.

(** ** Exiting *)

Lemma exit_ok s me x th :
  sinv ∅ s → s_cpus s !! me = Some x → c_isidle x = false → s_threads s !! c_curthread x = Some th →
  is_Some (t_proc th) → (∀ n w, s_runprogram s = Some (n, w) → 0 ≤ n < 2 ^ 31 - 1) →
  ∃ s', thread_exit me s = Done (tt, s') ∧ sinv ∅ s' ∧
    (∀ v, is_Some (s_wchans s !! v) → is_Some (s_wchans s' !! v)) ∧ (∀ q, is_Some (s_procs s !! q) → is_Some (s_procs s' !! q)).
Proof.
  destruct s as [h T a C W P r]. simpl. intros (loc & bl & Hp & Hh & Hr & Hrun) Hx Hidle HT [p Hpr] Hn. simpl in *.
  destruct (running _ _ _ _ _ _ Hp Hx Hidle) as (th0 & HT0 & Hcpu & Hl & Hst & Hg & _). rewrite HT in HT0. injection HT0 as <-.
  set (t := c_curthread x) in *.
  destruct (remthread_ok loc bl h T a C W P r me t th p Hp Hh Hr HT Hpr) as (P1 & bl1 & E1 & Hp1 & Hh1 & Hr1 & HP1).
  set (th1 := th_proc None th) in *. set (T1 := <[t := th1]> T) in *.
  assert (HT1 : T1 !! t = Some th1) by apply lookup_insert_eq.
  unfold thread_exit. kgo (run_curthread h T a C W P r me x Hx). fold t. kgo E1.
  kgo (run_the_thread h T1 a C W P1 r t th1 HT1). rewrite step_assert by (by rewrite bool_decide_true).
  kgo (run_checkstack h T1 a C W P1 r t th1 HT1 Hg).
  assert (Hv : ∃ s1, V_runprogram me (Sys h T1 a C W P1 r) = Done (tt, s1) ∧ sinv ∅ s1 ∧ s_threads s1 = T1 ∧ s_procs s1 = P1 ∧
    same_cur C (s_cpus s1) ∧ ∀ v, is_Some (W !! v) → is_Some (s_wchans s1 !! v)).
  { unfold V_runprogram. ksteps. cbn [s_runprogram]. destruct r as [[n w]|].
    - ksteps. cbn [s_heap s_threads s_allcpus s_cpus s_wchans s_procs]. specialize (Hn n w eq_refl).
      rewrite i32_small by lia. rewrite step_assert by lia.
      destruct (wakeone_ok (Sys h T1 a C W P1 (Some (n + 1, w))) me w) as (s1 & E & Hs1 & Hw1).
      { exists loc, bl1. split_and!; try done. intros m v [= _ <-]. by apply (Hrun n). }
      { by apply (Hrun n). }
      exists s1. destruct Hw1 as (_ & F2 & _ & F4 & _ & F6 & F7). by split_and!.
    - eexists. split; [done|]. split_and!; try done; [|apply same_cur_refl]. exists loc, bl1. by split_and!. }
  destruct Hv as ([h2 T2 a2 C2 W2 P2 r2] & E2 & (loc2 & bl2 & Hp2 & Hh2 & Hr2 & Hrun2) & F1 & F2 & F3 & F4). kgo E2. simpl in *. subst T2 P2.
  destruct (F3 _ _ Hx) as (x2 & Hx2 & Hi2 & Hc2). rewrite Hidle in Hi2. fold t in Hc2.
  destruct (running _ _ _ _ _ _ Hp2 Hx2 Hi2) as (thx & HTx & Hcpux & Hl2 & _ & _ & Hlk & Hilk & Hpd).
  set (x3 := cp_rqlock (Some me) x2). pose proof (lookup_cpu_same C2 me x2 x3 Hx2) as Hx3.
  set (tha := th_wchan_name (Some "ZOMBIE") th1). set (x4 := cp_zombies (c_zombies x3 ++ [t]) x3).
  assert (Hx4 : <[me := x4]> (<[me := x3]> C2) !! me = Some x4) by (rewrite insert_twice; by apply (lookup_cpu_same C2 me x2)).
  rewrite (run_switch h2 T1 a2 C2 W2 P1 r2 me S_ZOMBIE None x2 th1 (<[t := tha]> T1) (<[me := x4]> (<[me := x3]> C2)) W2 x4 tha);
    try done; [|by rewrite Hc2|by left| |rewrite Hc2; apply lookup_insert_eq].
  2:{ rewrite Hc2. unfold park_thread. kgo (run_set_thread h2 T1 a2 _ W2 P1 r2 t th1 _ HT1).
      by rewrite (run_set_cpu h2 _ a2 _ W2 P1 r2 me x3 _ Hx3). }
  rewrite Hc2, insert_insert_eq, !insert_twice. set (th' := th_state S_ZOMBIE tha).
  destruct (pinv_park ∅ loc2 T1 C2 W2 me x2 Hp2 Hx2 Hi2) as [_ Hq1]. rewrite Hc2 in Hq1. set (y0 := cp_isidle true x2) in *.
  pose proof (pinv_thread _ _ _ _ _ t th1 th' Hq1 ltac:(set_solver) HT1 (or_introl eq_refl)) as Hq2.
  pose proof (lookup_cpu_same C2 me x2 y0 Hx2) as Hy0.
  pose proof (pinv_z_add _ _ _ _ _ me y0 t th' Hq2 Hy0 ltac:(set_solver) (lookup_insert_eq T1 t th') Hcpu eq_refl eq_refl Hg) as Hq3.
  replace (({[t]} ∪ ∅) ∖ {[t]} : gset Z) with (∅ : gset Z) in Hq3 by set_solver. rewrite insert_twice in Hq3.
  destruct (idle_round_ok (<[t:=PZombie me]> (delete t loc2)) bl2 h2 (<[t := th']> T1) a2 (<[me := cp_isidle true x4]> C2) W2 P1 r2 me (cp_isidle true x4))
    as (s' & E & Hs' & HW' & HP'); try done.
  - by apply (lookup_cpu_same C2 me x2).
  - rewrite insert_twice.
    replace (cp_rqlock None (cp_isidle true x4)) with (cp_zombies (c_zombies y0 ++ [t]) y0) by (unfold x4, x3, y0; destruct x2; simpl in *; by subst).
    exact Hq3.
  - by apply (hinv_thread _ _ _ _ _ t th1).
  - apply (rinv_thread _ _ t th1); [done..|]. by left.
  - exists s'. split_and!; [exact E|done| |].
    + intros v Hv. rewrite HW'. by apply F4.
    + intros q Hq. rewrite HP'. by apply HP1.
Qed.
End Ops.
