(* ===== verification/ThreadsMigrate.v ===== *)
(** * Migration keeps the invariant

    [thread_consider_migration]: threads taken off the end of the processor's
    own run queue go to processors below their share, and what is left goes
    back.  No thread is lost, and a processor that is still on the stack of a
    thread in its own run queue keeps that thread. *)

From stdpp Require Import base numbers list gmap fin_maps fin_sets sets strings.
From Stdlib Require Import ZArith Lia.
From S2P Require Import Prelude KernelHeap Array Wchan Spinlock Threads ThreadsRun ThreadsInv ThreadsHeap ThreadsOps.

Open Scope Z_scope.
Open Scope kernel_scope.

(** The threads in the run queues. *)
Definition ready_on (C : list cpu) (t : Z) : Prop := ∃ c x, C !! c = Some x ∧ t ∈ c_runqueue x.

(** A victim: a thread of processor [me] off its run queue. *)
Definition victim (me : nat) (T : gmap Z thread) (t : Z) : Prop :=
  ∃ th, T !! t = Some th ∧ t_cpu th = Some me ∧ (t_state th = S_READY ∨ t_state th = S_SLEEP) ∧
    ∀ st, t_stack th = Some st → t_guard th = replicate 4 THREAD_STACK_MAGIC.

(** The sum [total_count] is left with, counting from processor [i]. *)
Definition count_from (C : list cpu) (i : nat) (total : Z) : Z :=
  foldl (λ n x, u32 (n + Z.of_nat (length (c_runqueue x)))) total (drop i C).

Section Lists.
Implicit Types (C : list cpu) (x y : cpu) (c d : nat) (t : Z).

Lemma ready_split C c x t :
  C !! c = Some x → ready_on C t ↔ t ∈ c_runqueue x ∨ ∃ d z, d ≠ c ∧ C !! d = Some z ∧ t ∈ c_runqueue z.
Proof.
  intros Hx. split.
  - intros (d & z & Hz & Ht). destruct (decide (d = c)) as [->|Hne]; [left; congruence|right; by exists d, z].
  - intros [Ht|(d & z & Hne & Hz & Ht)]; [by exists c, x|by exists d, z].
Qed.

Lemma ready_insert C c x y t :
  C !! c = Some x →
  ready_on (<[c := y]> C) t ↔ t ∈ c_runqueue y ∨ ∃ d z, d ≠ c ∧ C !! d = Some z ∧ t ∈ c_runqueue z.
Proof.
  intros Hx. rewrite (ready_split _ c y) by (by apply (lookup_cpu_same _ _ x)). f_equiv.
  split; intros (d & z & Hne & Hz & Ht); exists d, z; (split_and!; [done| |done]).
  - by rewrite list_lookup_insert_ne in Hz.
  - by rewrite list_lookup_insert_ne.
Qed.
End Lists.

Section Migrate.
Context {H : Type} {HH : KernelHeap H}.
Implicit Types (X : gset Z) (loc : gmap Z place) (bl : gmap Z owner) (h : H) (T : gmap Z thread) (a : array) (C : list cpu) (W : gmap Z wchan) (P : gmap Z tproc) (r : option (Z * Z)) (me c i : nat) (t w : Z) (th : thread) (vs : list Z).

(** ** Counting *)

Lemma run_count X loc h T a C W P r me k i my total :
  pinv X loc T C W → (i + k = length C)%nat →
  count_threads me i k my total (Sys h T a C W P r) =
  Done ((match C !! me with
         | Some x => if decide (i ≤ me)%nat then Z.of_nat (length (c_runqueue x)) else my
         | None => my
         end, count_from C i total), Sys h T a C W P r).
Proof.
  intros Hp. revert i my total. induction k as [|k IH]; intros i my total Hk.
  - cbn [count_threads]. unfold kret, count_from. rewrite drop_ge by lia. simpl. do 3 f_equal.
    destruct (C !! me) as [x|] eqn:Hx; [|done]. apply lookup_lt_Some in Hx. by rewrite decide_False by lia.
  - destruct (lookup_lt_is_Some_2 C i) as [x Hx]; [lia|]. pose proof (co_locks _ _ _ _ (pi_cpus _ _ _ _ _ Hp _ _ Hx)) as [Hl _].
    cbn [count_threads]. kgo (run_rq_acquire h T a C W P r me i x Hx Hl). set (x1 := cp_rqlock (Some me) x).
    pose proof (lookup_cpu_same C i x x1 Hx) as Hx1. kgo (run_the_cpu h T a _ W P r i x1 Hx1).
    kgo (run_rq_release h T a _ W P r me i x1 Hx1 eq_refl). rewrite insert_twice.
    change (cp_rqlock None x1) with (cp_rqlock None x). rewrite <-Hl, cp_rqlock_id. rewrite (list_insert_id C i x) by done.
    change (c_runqueue x1) with (c_runqueue x). rewrite IH by lia. unfold count_from. rewrite (drop_S C x i Hx). cbn [foldl].
    do 3 f_equal. destruct (C !! me) as [y|] eqn:Hy.
    + case_bool_decide as Him; [subst i; rewrite Hx in Hy; injection Hy as <-; by rewrite decide_False, decide_True by lia|].
      destruct (decide (S i ≤ me)%nat); [by rewrite decide_True by lia|by rewrite decide_False by lia].
    + case_bool_decide as Him; [subst; congruence|done].
Qed.

(** ** Taking threads off the run queue *)

Lemma run_take_victims h T a C W P r me x q1 q2 vs :
  C !! me = Some x → c_runqueue x = q1 ++ q2 →
  take_victims me (length q2) vs (Sys h T a C W P r) =
  Done (q2 ++ vs, Sys h T a (<[me := cp_runqueue q1 x]> C) W P r).
Proof.
  revert C x vs. induction q2 as [|t q2 IH] using rev_ind; intros C x vs Hx Eq.
  - simpl. rewrite app_nil_r in Eq. unfold kret. do 3 f_equal. rewrite list_insert_id; [done|]. rewrite Hx, <-Eq. by destruct x.
  - rewrite length_app, Nat.add_comm. cbn [length Nat.add take_victims]. kgo (run_the_cpu h T a C W P r me x Hx).
    rewrite Eq, app_assoc, last_snoc, removelast_last. ksteps.
    kgo (run_set_cpu h T a C W P r me x _ Hx). set (x1 := cp_runqueue (q1 ++ q2) x).
    rewrite (IH (<[me := x1]> C) x1 (t :: vs) (lookup_cpu_same C me x x1 Hx) eq_refl). rewrite insert_twice, <-app_assoc. done.
Qed.

Lemma pinv_rq_takes X loc T C W c x q1 q2 :
  pinv X loc T C W → C !! c = Some x → c_runqueue x = q1 ++ q2 →
  NoDup q2 ∧ (∀ t, t ∈ q2 → victim c T t) ∧
  ∃ loc', pinv (list_to_set q2 ∪ X) loc' T (<[c := cp_runqueue q1 x]> C) W.
Proof.
  intros Hp Hx Eq. pose proof (co_rq_nodup _ _ _ _ (pi_cpus _ _ _ _ _ Hp _ _ Hx)) as Hnd. rewrite Eq in Hnd. apply NoDup_app in Hnd as (_ & _ & Hnd).
  split; [done|]. clear Hnd. revert X loc C x Hp Hx Eq. induction q2 as [|t q2 IH]; intros X loc C x Hp Hx Eq.
  - split; [by intros t ?%elem_of_nil|]. exists loc. rewrite app_nil_r in Eq. rewrite list_insert_id; [|rewrite Hx, <-Eq; by destruct x].
    replace (list_to_set [] ∪ X) with X by set_solver. done.
  - destruct (pinv_rq_take X loc T C W c x q1 t q2 Hp Hx Eq) as [Hl Hp1]. set (x1 := cp_runqueue (q1 ++ q2) x) in *.
    destruct (IH _ _ _ x1 Hp1 (lookup_cpu_same C c x x1 Hx) eq_refl) as [Hv (loc' & Hp2)]. split.
    + intros u [->|Hu]%elem_of_cons; [|by apply Hv].
      destruct (proj1 (pi_dom _ _ _ _ _ Hp t)) as [[th HT] _]; [by eauto|].
      destruct (pi_threads _ _ _ _ _ Hp _ _ _ HT Hl) as [(d & Hd & _ & Hdc) Hst Hg]. exists th. split_and!; [done| |done|done].
      rewrite Hd. f_equal. symmetry. by apply Hdc.
    + exists loc'. rewrite insert_twice in Hp2. change (cp_runqueue q1 x1) with (cp_runqueue q1 x) in Hp2.
      replace (list_to_set (t :: q2) ∪ X) with (list_to_set q2 ∪ ({[t]} ∪ X)) by set_solver. done.
Qed.

(** And back onto it. *)
Lemma pinv_rq_adds X loc T C W c x l :
  pinv X loc T C W → C !! c = Some x → NoDup l → (∀ t, t ∈ l → t ∈ X ∧ victim c T t) →
  ∃ loc', pinv (X ∖ list_to_set l) loc' T (<[c := cp_runqueue (c_runqueue x ++ l) x]> C) W.
Proof.
  revert X loc C x. induction l as [|t l IH]; intros X loc C x Hp Hx Hnd Hl.
  - exists loc. rewrite app_nil_r. rewrite list_insert_id; [|rewrite Hx; by destruct x]. by replace (X ∖ list_to_set []) with X by set_solver.
  - apply NoDup_cons in Hnd as [Htl Hnd]. destruct (Hl t) as (HtX & th & HT & Hc & Hst & Hg); [left|].
    pose proof (pinv_enq _ _ _ _ _ c x t th Hp Hx HtX HT Hc Hst Hg) as Hp1. set (x1 := cp_runqueue (c_runqueue x ++ [t]) x).
    destruct (enq_fields t x) as (E1 & E2 & E3 & E4 & E5 & E6 & _).
    destruct (pi_cpus _ _ _ _ _ Hp _ _ Hx) as [_ _ _ _ _ _ Hlk Hpd].
    pose proof (pinv_cpu _ _ _ _ _ c (enq t x) x1 Hp1 (lookup_cpu_same C c x _ Hx) (eq_sym E1) (eq_sym E2) (eq_sym E4) (eq_sym E3) Hlk Hpd) as Hp2.
    rewrite insert_twice in Hp2.
    destruct (IH _ _ _ x1 Hp2 (lookup_cpu_same C c x x1 Hx) Hnd) as (loc' & Hp3).
    { intros u Hu. destruct (Hl u) as [HuX Hv]; [by right|]. split; [|done]. assert (u ≠ t) by (by intros ->). set_solver. }
    exists loc'. rewrite insert_twice in Hp3. replace (X ∖ list_to_set (t :: l)) with (X ∖ {[t]} ∖ list_to_set l) by set_solver.
    change (cp_runqueue (c_runqueue x1 ++ l) x1) with (cp_runqueue ((c_runqueue x ++ [t]) ++ l) x) in Hp3.
    by rewrite <-app_assoc in Hp3.
Qed.

(** ** Handing threads to another processor *)

(** What stays true while victims are handed out: they are in limbo, still
    belong to [me], and only [t_cpu] of the others changes. *)
Record spreading me (T0 : gmap Z thread) (loc : gmap Z place) T C W vs : Prop := {
  sp_pinv : pinv (list_to_set vs) loc T C W;
  sp_nodup : NoDup vs;
  sp_victims : ∀ t, t ∈ vs → victim me T t;
  sp_threads : ∀ bl h a P, hinv bl h T0 a P → hinv bl h T a P;
  sp_procs : ∀ P, rinv T0 P → rinv T P;
}.

(** A victim that is not the current thread of [me] is nobody's. *)
Lemma victim_not_cur X loc T C W me xm t :
  pinv X loc T C W → C !! me = Some xm → victim me T t → t ≠ c_curthread xm →
  ∀ c y, C !! c = Some y → c_curthread y ≠ t.
Proof.
  intros Hp Hxm (th & HT & Hc & _) Hne c y Hy E.
  destruct (co_cur _ _ _ _ (pi_cpus _ _ _ _ _ Hp _ _ Hy)) as (thy & HTy & Hcy). rewrite E, HT in HTy. injection HTy as <-.
  assert (c = me) as -> by congruence. congruence.
Qed.

Lemma enq_rqlock l t x : cp_rqlock l (enq t x) = enq t (cp_rqlock l x).
Proof. unfold enq. by destruct x as [? ? ? ? ? []]. Qed.

(** One victim moves to processor [i]. *)
Lemma spreading_move me T0 loc T C W vs i x t xm th :
  spreading me T0 loc T (<[i := cp_rqlock None x]> C) W (t :: vs) → C !! i = Some x → i ≠ me → C !! me = Some xm →
  T !! t = Some th → t ≠ c_curthread xm →
  spreading me T0 (<[t := PReady i]> loc) (<[t := th_cpu (Some i) th]> T) (<[i := cp_rqlock None (enq t x)]> C) W vs.
Proof.
  intros [Hp Hnd Hv Hh Hr] Hx Him Hxm HT Hcur. apply NoDup_cons in Hnd as [Htv Hnd].
  destruct (Hv t) as (th0 & HT0 & Hcpu & Hst & Hg); [left|]. rewrite HT in HT0. injection HT0 as <-.
  set (x0 := cp_rqlock None x) in *. pose proof (lookup_cpu_same C i x x0 Hx) as Hx0.
  assert (Hxm0 : <[i := x0]> C !! me = Some xm) by (by rewrite list_lookup_insert_ne by done).
  assert (Htn : ∀ c y, <[i := x0]> C !! c = Some y → c_curthread y ≠ t).
  { apply (victim_not_cur _ _ _ _ _ me xm t Hp Hxm0); [|done]. apply Hv. left. }
  set (th' := th_cpu (Some i) th).
  pose proof (pinv_thread _ _ _ _ _ t th th' Hp ltac:(set_solver) HT (or_intror Htn)) as Hp1.
  pose proof (pinv_enq _ _ _ _ _ i x0 t th' Hp1 Hx0 ltac:(set_solver) (lookup_insert_eq T t th') eq_refl Hst Hg) as Hp2.
  rewrite insert_twice in Hp2. unfold x0 in Hp2. rewrite <-enq_rqlock in Hp2. split.
  - replace (list_to_set vs : gset Z) with (list_to_set (t :: vs) ∖ {[t]} : gset Z) by set_solver. done.
  - done.
  - intros u Hu. destruct (Hv u) as (thu & HTu & Hu'); [by right|]. exists thu. rewrite lookup_insert_ne; [done|]. by intros ->.
  - intros bl h a P Hh0. apply (hinv_thread _ _ _ _ _ t th); [by apply Hh|done..].
  - intros P Hr0. apply (rinv_thread _ _ t th); [by apply Hr|done|]. by left.
Qed.

Lemma spreading_rotate me T0 loc T C W t vs :
  spreading me T0 loc T C W (t :: vs) → spreading me T0 loc T C W (vs ++ [t]).
Proof.
  intros [Hp Hnd Hv Hh Hr]. split; try done.
  - replace (list_to_set (vs ++ [t]) : gset Z) with (list_to_set (t :: vs) : gset Z); [done|]. set_solver.
  - apply NoDup_cons in Hnd as [Htv Hnd]. apply NoDup_app. split_and!; [done| |apply NoDup_singleton].
    intros u Hu Hs%list_elem_of_singleton. by subst.
  - intros u Hu. apply Hv. set_solver.
Qed.

Lemma give_victims_ok me i share T0 h a W P r xm n : ∀ loc T C x vs,
  spreading me T0 loc T (<[i := cp_rqlock None x]> C) W vs → C !! i = Some x → c_runqueue_lock x = Some me →
  i ≠ me → C !! me = Some xm → (n ≤ length vs)%nat →
  ∃ n' vs' T' x' loc' moved,
    give_victims me i share n vs (Sys h T a C W P r) = Done ((n', vs'), Sys h T' a (<[i := x']> C) W P r) ∧
    spreading me T0 loc' T' (<[i := cp_rqlock None x']> C) W vs' ∧ c_runqueue_lock x' = Some me ∧ (n' ≤ length vs')%nat ∧
    c_runqueue x' = c_runqueue x ++ moved ∧ (moved = [] ∨ Z.of_nat (length (c_runqueue x')) ≤ share) ∧
    (∀ t, t ∈ vs ↔ t ∈ moved ∨ t ∈ vs') ∧ c_isidle x' = c_isidle x ∧ c_curthread x' = c_curthread x.
Proof.
  induction n as [|n IH]; intros loc T C x vs Hs Hx Hlk Him Hxm Hn.
  { exists O, vs, T, x, loc, []. cbn [give_victims]. rewrite list_insert_id by done. rewrite app_nil_r. split_and!; try done; try lia; [by left|set_solver]. }
  cbn [give_victims]. kgo (run_the_cpu h T a C W P r i x Hx). destruct (Z.ltb_spec (Z.of_nat (length (c_runqueue x))) share) as [Hlt|Hge].
  2:{ exists (S n), vs, T, x, loc, []. rewrite list_insert_id by done. rewrite app_nil_r. split_and!; try done; [by left|set_solver]. }
  destruct vs as [|t vs]; [simpl in Hn; lia|]. kgo (run_curthread h T a C W P r me xm Hxm).
  destruct (Z.eqb_spec t (c_curthread xm)) as [Ht|Ht].
  { destruct (IH loc T C x (vs ++ [t]) (spreading_rotate _ _ _ _ _ _ _ _ Hs) Hx Hlk Him Hxm) as (n' & vs' & T' & x' & loc' & moved & E & Hrest);
      [rewrite length_app; simpl in *; lia|]. exists n', vs', T', x', loc', moved. split; [done|].
    destruct Hrest as (R1 & R2 & R3 & R4 & R5 & R6 & R7). split_and!; try done; try apply R7. intros u. rewrite <-R6. set_solver. }
  destruct (sp_victims _ _ _ _ _ _ _ Hs t) as (th & HT & _); [left|]. set (th' := th_cpu (Some i) th).
  kgo (run_set_thread h T a C W P r t th _ HT). fold th'.
  pose proof (spreading_move _ _ _ _ _ _ _ _ _ _ _ _ Hs Hx Him Hxm HT Ht) as Hs1. fold th' in Hs1.
  kgo (run_set_cpu h _ a C W P r i x _ Hx). set (x1 := cp_runqueue (c_runqueue x ++ [t]) x).
  assert (Hilk : c_ipi_lock x = None).
  { apply (co_locks _ _ _ _ (pi_cpus _ _ _ _ _ (sp_pinv _ _ _ _ _ _ _ Hs) i (cp_rqlock None x) (lookup_cpu_same C i x _ Hx))). }
  assert (Eipi : (if c_isidle x then ipi_send me i IPI_UNIDLE else kret tt) (Sys h (<[t:=th']> T) a (<[i:=x1]> C) W P r) =
    Done (tt, Sys h (<[t:=th']> T) a (<[i:=enq t x]> C) W P r)).
  { destruct (c_isidle x) eqn:Ei.
    - rewrite (run_ipi_send h _ a _ W P r me i x1 IPI_UNIDLE (lookup_cpu_same C i x x1 Hx) Hilk ltac:(done)). rewrite insert_twice.
      unfold enq. by rewrite Ei.
    - unfold kret. do 3 f_equal. unfold enq. by rewrite Ei. }
  kgo Eipi. destruct (enq_fields t x) as (E1 & E2 & E3 & E4 & E5 & E6 & _).
  rewrite <-(insert_twice C i _ (enq t x)) in Hs1.
  destruct (IH _ _ (<[i := enq t x]> C) (enq t x) vs Hs1 (lookup_cpu_same C i x _ Hx)) as (n' & vs' & T' & x' & loc' & moved & E & R1 & R2 & R3 & R4 & R5 & R6 & R7 & R8);
    [congruence|done|by rewrite list_lookup_insert_ne by done|simpl in *; lia|].
  rewrite insert_twice in E, R1. exists n', vs', T', x', loc', (t :: moved). rewrite E1 in R4. split_and!; try done; try congruence.
  - rewrite R4, <-app_assoc. done.
  - right. destruct R5 as [->|]; [|done]. rewrite R4, app_nil_r, length_app. simpl. lia.
  - intros u. rewrite !elem_of_cons, R6. tauto.
Qed.

(** What a processor other than [me] gets: threads at the end of its queue, up
    to the share. *)
Definition gains (share : Z) me C C' : Prop :=
  ∀ c x, c ≠ me → C !! c = Some x →
    ∃ x' moved, C' !! c = Some x' ∧ c_runqueue x' = c_runqueue x ++ moved ∧
      (moved = [] ∨ Z.of_nat (length (c_runqueue x')) ≤ share) ∧
      c_isidle x' = c_isidle x ∧ c_curthread x' = c_curthread x.

Lemma gains_refl share me C : gains share me C C.
Proof. intros c x _ Hx. exists x, []. rewrite app_nil_r. by split_and!; [..|left|done|done]. Qed.

Lemma gains_trans share me C1 C2 C3 : gains share me C1 C2 → gains share me C2 C3 → gains share me C1 C3.
Proof.
  intros H1 H2 c x Hc Hx. destruct (H1 c x Hc Hx) as (y & m1 & Hy & E1 & B1 & I1 & U1).
  destruct (H2 c y Hc Hy) as (z & m2 & Hz & E2 & B2 & I2 & U2). exists z, (m1 ++ m2). split_and!; try congruence.
  - rewrite E2, E1. by rewrite app_assoc.
  - destruct B2 as [->|]; [|by right]. rewrite app_nil_r in E2. rewrite E2, app_nil_r. destruct B1 as [->|]; [by left|by right].
Qed.

Lemma spread_victims_ok me share T0 h a W P r xm k : ∀ loc T C i n vs,
  spreading me T0 loc T C W vs → (i + k = length C)%nat → C !! me = Some xm → (n ≤ length vs)%nat →
  ∃ vs' T' C' loc',
    spread_victims me i k share n vs (Sys h T a C W P r) = Done (vs', Sys h T' a C' W P r) ∧
    spreading me T0 loc' T' C' W vs' ∧ C' !! me = Some xm ∧ gains share me C C' ∧
    ∀ t, (ready_on C t ∨ t ∈ vs) ↔ (ready_on C' t ∨ t ∈ vs').
Proof.
  induction k as [|k IH]; intros loc T C i n vs Hs Hk Hxm Hn; cbn [spread_victims].
  { exists vs, T, C, loc. split_and!; try done. apply gains_refl. }
  destruct n as [|n]; [exists vs, T, C, loc; split_and!; try done; apply gains_refl|].
  case_bool_decide as Him; [apply (IH loc); [done|lia|done|done]|].
  destruct (lookup_lt_is_Some_2 C i) as [x Hx]; [lia|].
  pose proof (co_locks _ _ _ _ (pi_cpus _ _ _ _ _ (sp_pinv _ _ _ _ _ _ _ Hs) _ _ Hx)) as [Hl _].
  kgo (run_rq_acquire h T a C W P r me i x Hx Hl). set (x1 := cp_rqlock (Some me) x). set (C1 := <[i := x1]> C).
  assert (Hx1 : C1 !! i = Some x1) by (by apply (lookup_cpu_same C i x)).
  assert (EC : <[i := cp_rqlock None x1]> C1 = C).
  { unfold C1. rewrite insert_twice. change (cp_rqlock None x1) with (cp_rqlock None x). rewrite <-Hl, cp_rqlock_id. by apply list_insert_id. }
  assert (Hxm1 : C1 !! me = Some xm) by (unfold C1; by rewrite list_lookup_insert_ne by done).
  destruct (give_victims_ok me i share T0 h a W P r xm (S n) loc T C1 x1 vs) as (n' & vs' & T' & x' & loc' & moved & E & R1 & R2 & R3 & R4 & R5 & R6 & R7 & R8);
    [by rewrite EC|done|done|done|done|done|]. kgo E. set (C2 := <[i := x']> C1).
  assert (Hx2 : C2 !! i = Some x') by (by apply (lookup_cpu_same C1 i x1)).
  kgo (run_rq_release h T' a C2 W P r me i x' Hx2 R2). set (x3 := cp_rqlock None x').
  assert (EC3 : <[i := x3]> C2 = <[i := x3]> C) by (unfold C2, C1; by rewrite !insert_twice). rewrite EC3.
  assert (EC1 : <[i := x3]> C1 = <[i := x3]> C) by (unfold C1; by rewrite insert_twice). fold x3 in R1. rewrite EC1 in R1.
  destruct (IH loc' T' (<[i := x3]> C) (S i) n' vs' R1) as (vs'' & T'' & C'' & loc'' & E'' & S1 & S2 & S3 & S4);
    [rewrite length_insert; lia|by rewrite list_lookup_insert_ne by done|done|].
  exists vs'', T'', C'', loc''. cbn [fst snd]. split_and!; try done.
  - eapply gains_trans; [|done]. intros c y Hc Hy. destruct (decide (c = i)) as [->|Hci].
    + exists x3, moved. rewrite Hx in Hy. injection Hy as <-. by rewrite (lookup_cpu_same C i x) by done.
    + exists y, []. rewrite list_lookup_insert_ne by done. rewrite app_nil_r. by split_and!; [..|left|done|done].
  - intros t. rewrite <-S4. rewrite (ready_insert C i x x3) by done. rewrite (ready_split C i x) by done.
    change (c_runqueue x3) with (c_runqueue x'). rewrite R4, elem_of_app. change (c_runqueue x1) with (c_runqueue x). rewrite R6. tauto.
Qed.

(** ** The whole of it *)

Definition the_share C : Z := DIVROUNDUP (count_from C 0 0) (Z.of_nat (length C)).

Lemma count_range C i n : 0 ≤ n < 2 ^ 32 → 0 ≤ count_from C i n < 2 ^ 32.
Proof.
  unfold count_from. generalize (drop i C). intros l. revert n. induction l as [|x l IH]; intros n Hn; simpl; [done|].
  apply IH. apply u32_range.
Qed.

Lemma the_share_nonneg C : 0 ≤ the_share C.
Proof. unfold the_share, DIVROUNDUP. destruct C; [done|]. apply Z.div_pos; [|simpl; lia]. apply u32_range. Qed.

Lemma migrate_ok s me x :
  sinv ∅ s → s_cpus s !! me = Some x →
  ∃ s', thread_consider_migration me s = Done (tt, s') ∧ sinv ∅ s' ∧ s_wchans s' = s_wchans s ∧ s_procs s' = s_procs s ∧
    gains (the_share (s_cpus s)) me (s_cpus s) (s_cpus s') ∧ (∀ t, ready_on (s_cpus s) t ↔ ready_on (s_cpus s') t) ∧
    ∃ x', s_cpus s' !! me = Some x' ∧ c_isidle x' = c_isidle x ∧ c_curthread x' = c_curthread x ∧
      (Z.of_nat (length (c_runqueue x)) < the_share (s_cpus s) ∧ x' = x ∨
       the_share (s_cpus s) ≤ Z.of_nat (length (c_runqueue x'))).
Proof.
  destruct s as [h T a C W P r]. simpl. intros (loc & bl & Hp & Hh & Hr & Hrun) Hx. simpl in *.
  pose proof (co_locks _ _ _ _ (pi_cpus _ _ _ _ _ Hp _ _ Hx)) as [Hl _].
  unfold thread_consider_migration. ksteps. cbn [s_cpus].
  kgo (run_count ∅ loc h T a C W P r me (length C) 0 0 0 Hp eq_refl). cbn [fst snd]. rewrite Hx. cbn [decide].
  rewrite decide_True by lia. fold (the_share C). pose proof (the_share_nonneg C) as Hsh.
  destruct (Z.ltb_spec (Z.of_nat (length (c_runqueue x))) (the_share C)) as [Hlt|Hge].
  { eexists. split; [done|]. split_and!; try done; [by exists loc, bl|apply gains_refl|]. exists x. split_and!; try done. by left. }
  set (q := c_runqueue x) in *. set (n := Z.to_nat (Z.of_nat (length q) - the_share C)).
  set (q1 := take (length q - n) q). set (q2 := drop (length q - n) q).
  assert (Eq : c_runqueue x = q1 ++ q2) by (symmetry; apply take_drop). assert (Hq2 : length q2 = n) by (unfold q2; rewrite length_drop; lia).
  assert (Hq1 : Z.of_nat (length q1) = the_share C) by (unfold q1; rewrite length_take; lia).
  kgo (run_rq_acquire h T a C W P r me me x Hx Hl). set (x1 := cp_rqlock (Some me) x).
  rewrite <-Hq2. kgo (run_take_victims h T a _ W P r me x1 q1 q2 [] (lookup_cpu_same C me x x1 Hx) Eq). rewrite insert_twice, app_nil_r.
  set (x2 := cp_runqueue q1 x1). kgo (run_rq_release h T a _ W P r me me x2 (lookup_cpu_same C me x x2 Hx) eq_refl). rewrite insert_twice.
  set (x3 := cp_rqlock None x2). assert (Ex : cp_rqlock None x = x) by (rewrite <-Hl; apply cp_rqlock_id).
  assert (E3 : x3 = cp_runqueue q1 x) by (change x3 with (cp_runqueue q1 (cp_rqlock None x)); by rewrite Ex).
  destruct (pinv_rq_takes ∅ loc T C W me x q1 q2 Hp Hx Eq) as (Hnd & Hv & loc1 & Hp1). rewrite <-E3 in Hp1.
  replace (list_to_set q2 ∪ ∅ : gset Z) with (list_to_set q2 : gset Z) in Hp1 by set_solver.
  assert (Hs : spreading me T loc1 T (<[me := x3]> C) W q2) by (by split).
  destruct (spread_victims_ok me (the_share C) T h a W P r x3 (length C) loc1 T (<[me := x3]> C) 0 (length q2) q2 Hs)
    as (vs & T' & C' & loc' & E & S1 & S2 & S3 & S4); [by rewrite length_insert|by apply (lookup_cpu_same C me x)|done|].
  kgo E. destruct S1 as [Hp' Hnd' Hv' Hh' Hr'].
  assert (Hready : ∀ t, ready_on C t ↔ ready_on C' t ∨ t ∈ vs).
  { intros t. rewrite <-S4. rewrite (ready_insert C me x x3) by done. rewrite (ready_split C me x) by done. rewrite Eq, elem_of_app, E3. simpl. tauto. }
  assert (Hgain : gains (the_share C) me C C').
  { intros c y Hc Hy. apply (S3 c y Hc). by rewrite list_lookup_insert_ne. }
  assert (Hfin : ∀ x', cp_runqueue (q1 ++ vs) x = x' → ∃ loc'', pinv ∅ loc'' T' (<[me := x']> C') W).
  { intros x' <-. destruct (pinv_rq_adds _ _ _ _ _ me x3 vs Hp' S2 Hnd') as (loc'' & Hp''); [intros t Ht; split; [set_solver|by apply Hv']|].
    exists loc''. replace (list_to_set vs ∖ list_to_set vs : gset Z) with (∅ : gset Z) in Hp'' by set_solver. by rewrite E3 in Hp''. }
  exists (Sys h T' a (<[me := cp_runqueue (q1 ++ vs) x]> C') W P r). split.
  - destruct vs as [|v vs].
    + unfold kret. do 3 f_equal. rewrite app_nil_r, <-E3. symmetry. by apply list_insert_id.
    + pose proof (co_locks _ _ _ _ (pi_cpus _ _ _ _ _ Hp' _ _ S2)) as [Hl3 _].
      kgo (run_rq_acquire h T' a C' W P r me me x3 S2 Hl3). set (x4 := cp_rqlock (Some me) x3).
      kgo (run_set_cpu h T' a _ W P r me x4 _ (lookup_cpu_same C' me x3 x4 S2)). rewrite insert_twice. set (x5 := cp_runqueue _ x4).
      rewrite (run_rq_release h T' a _ W P r me me x5 (lookup_cpu_same C' me x3 x5 S2) eq_refl). rewrite insert_twice.
      do 4 f_equal. change (cp_rqlock None x5) with (cp_runqueue (c_runqueue x3 ++ v :: vs) (cp_rqlock None x3)). rewrite E3.
      change (cp_runqueue (q1 ++ v :: vs) (cp_rqlock None x) = cp_runqueue (q1 ++ v :: vs) x). by rewrite Ex.
  - cbn [s_threads s_cpus s_wchans s_procs s_heap s_allcpus s_runprogram]. split_and!; try done.
    + destruct (Hfin _ eq_refl) as (loc'' & Hp''). exists loc'', bl. split_and!; simpl; try done; [by apply Hh'|by apply Hr'].
    + intros c y Hc Hy. destruct (Hgain c y Hc Hy) as (z & m & Hz & Hrest). exists z, m. rewrite list_lookup_insert_ne by done. done.
    + intros t. rewrite Hready. rewrite (ready_insert C' me x3) by done. rewrite (ready_split C' me x3) by done. simpl. rewrite elem_of_app. tauto.
    + exists (cp_runqueue (q1 ++ vs) x). rewrite (lookup_cpu_same C' me x3) by done. split_and!; try done. right. simpl. rewrite length_app. lia.
Qed.
End Migrate.
