(* ===== verification/ThreadsCreate.v ===== *)
(** * Creating threads and processors keeps the invariant

    [thread_fork] and [cpu_create], with every way an allocation can fail. *)

From stdpp Require Import base numbers list gmap fin_maps fin_sets sets strings pretty.
From Stdlib Require Import ZArith Lia.
From S2P Require Import Prelude KernelHeap Array Wchan Spinlock Threads ThreadsRun ThreadsInv ThreadsHeap ThreadsOps.

Open Scope Z_scope.
Open Scope kernel_scope.

Definition new_thread (n : Z * string) : thread :=
  Thread n (Some "NEW") S_READY None [] None None None false (IPL_HIGH, 1).

Section Create.
Context {H : Type} {HH : KernelHeap H}.
Implicit Types (X : gset Z) (loc : gmap Z place) (bl : gmap Z owner) (h : H) (T : gmap Z thread) (a : array) (C : list cpu) (W : gmap Z wchan) (P : gmap Z tproc) (r : option (Z * Z)) (me c : nat) (t w : Z) (th : thread).

(** The allocator itself panicked. *)
Definition heap_panics : Prop := ∃ sz (h : H), kmalloc sz h = Panic.

Lemma kstrdup_outcome h s :
  heap_ok h → short_name s → match kstrdup s h with Done _ => True | Panic => heap_panics | _ => False end.
Proof.
  intros Hok Hs. unfold short_name in Hs. unfold kstrdup, kbind.
  assert (Hsz : heap_size (u32 (Z.of_nat (String.length s) + 1))) by (unfold heap_size; nowrap; lia).
  destruct (kmalloc_defined h _ Hok Hsz) as [H1 H2].
  destruct (kmalloc (u32 (Z.of_nat (String.length s) + 1)) h) as [[[z|] h']| | |] eqn:E; try done. unfold heap_panics. by eauto.
Qed.

(** A new block for [t]. *)
Lemma hinv_alloc bl h h' T a P t b :
  hinv bl h T a P → heap_ok h' → b ∉ allocated h → allocated h' = {[b]} ∪ allocated h → T !! t = None →
  hinv (<[b := OThread t]> bl) h' T a P.
Proof.
  intros Hh Hok Hb Ha HT. apply (hinv_owner bl _ h _ T _ a _ P _ (OThread t)); try done.
  - apply (keeps_fresh _ h); [apply (ho_alloc _ _ _ _ _ Hh)|done].
  - apply (alloc_fresh bl h); [apply (ho_alloc _ _ _ _ _ Hh)|done].
  - intros u th Hu. left. split; [done|]. intros [= ->]. congruence.
  - intros p x Hx. left. by split.
  - by left.
Qed.

Lemma thread_create_ok X loc bl h T a C W P r name :
  pinv X loc T C W → hinv bl h T a P → rinv T P → short_name name →
  match thread_create name (Sys h T a C W P r) with
  | Done (Some t, s') => ∃ n h' bl', s' = Sys h' (<[t := new_thread n]> T) a C W P r ∧ T !! t = None ∧
      hinv bl' h' (<[t := new_thread n]> T) a P
  | Done (None, s') => ∃ h' bl', s' = Sys h' T a C W P r ∧ hinv bl' h' T a P
  | Panic => heap_panics
  | _ => False
  end.
Proof.
  intros Hp Hh Hr Hname. pose proof Hh as [Hok Hal Hth _ _]. unfold thread_create, kbind at 1, heap at 1, kzoom at 1.
  cbn [s_heap]. assert (Hsz : heap_size sizeof_thread) by (by vm_compute).
  destruct (kmalloc_defined h _ Hok Hsz) as [Hd1 Hd2].
  destruct (kmalloc sizeof_thread h) as [[[t|] h1]| | |] eqn:E1; try done; [| |unfold heap_panics; by eauto].
  2:{ destruct (kmalloc_none _ _ _ Hok Hsz E1) as [Hok1 Ha1]. exists h1, bl. split; [done|].
      destruct Hh as [_ _ H3 H4 H5]. split; try done. intros b o. rewrite Ha1. apply Hal. }
  destruct (kmalloc_some _ _ _ _ Hok Hsz E1) as (Hok1 & Hf1 & Ha1).
  assert (HT : T !! t = None).
  { apply eq_None_not_Some. intros [th Ht]. destruct (Hth _ _ Ht) as [Hb _]. by apply Hal in Hb. }
  pose proof (hinv_alloc bl h h1 T a P t t Hh Hok1 Hf1 Ha1 HT) as Hh1. set (bl1 := <[t := OThread t]> bl) in *.
  pose proof (kstrdup_outcome h1 name Hok1 Hname) as Hk. unfold kbind at 1, heap at 1, kzoom. cbn [s_heap upd_heap].
  destruct (kstrdup name h1) as [[n h2]| | |] eqn:E2; try done.
  destruct (kstrdup_spec _ _ _ _ Hok1 Hname E2) as [Hok2 Hn]. cbn [upd_heap s_threads s_allcpus s_cpus s_wchans s_procs s_runprogram].
  destruct n as [[n nm]|].
  - destruct Hn as (-> & Hf2 & Ha2). ksteps. cbn [upd_threads s_heap s_threads s_allcpus s_cpus s_wchans s_procs s_runprogram].
    exists (n, name), h2, (<[n := OThread t]> bl1). split_and!; [done..|].
    pose proof (hinv_alloc bl1 h1 h2 T a P t n Hh1 Hok2 Hf2 Ha2 HT) as [G1 G2 G3 G4 G5]. split; try done.
    assert (Hnt : t ≠ n) by (intros ->; apply Hf2; rewrite Ha1; set_solver).
    intros u thu Hu. destruct (decide (u = t)) as [->|Hne]; [|rewrite lookup_insert_ne in Hu by done; by apply G3].
    rewrite lookup_insert_eq in Hu. injection Hu as <-. split_and!; simpl.
    + rewrite lookup_insert_ne by done. apply lookup_insert_eq.
    + apply lookup_insert_eq.
    + done.
    + done.
  - assert (Ht2 : t ∈ allocated h2) by (rewrite Hn, Ha1; set_solver).
    destruct (kfree_some h2 t Hok2 Ht2) as (h3 & E3 & Hok3 & Ha3).
    unfold kbind, heap, kzoom. cbn [s_heap upd_heap]. rewrite E3. exists h3, bl. split; [done|].
    destruct Hh as [_ _ H3 H4 H5]. split; try done. intros b o Hb. apply Hal in Hb. rewrite Ha3, Hn, Ha1. set_solver.
Qed.

Lemma not_cur X loc T C W t :
  pinv X loc T C W → T !! t = None → ∀ c y, C !! c = Some y → c_curthread y ≠ t.
Proof.
  intros Hp HT c y Hy E. destruct (co_cur _ _ _ _ (pi_cpus _ _ _ _ _ Hp _ _ Hy)) as (th & Hth & _). congruence.
Qed.

(** [proc_addthread] on a thread in no process. *)
Lemma addthread_ok bl h T a C W P r me p x t th :
  hinv bl h T a P → rinv T P → T !! t = Some th → t_proc th = None → P !! p = Some x → arr_num (p_threads x) < 2 ^ 29 →
  match proc_addthread me p t (Sys h T a C W P r) with
  | Done (e, s') => ∃ h' P' bl', (∀ q, is_Some (P !! q) → is_Some (P' !! q)) ∧
      ((e = 0 ∧ s' = Sys h' (<[t := th_proc (Some p) th]> T) a C W P' r ∧
        hinv bl' h' (<[t := th_proc (Some p) th]> T) a P' ∧ rinv (<[t := th_proc (Some p) th]> T) P') ∨
       (e = ENOMEM ∧ s' = Sys h' T a C W P' r ∧ hinv bl' h' T a P' ∧ rinv T P'))
  | Panic => heap_panics
  | _ => False
  end.
Proof.
  intros Hh Hr HT Hpr Hx Hnum. pose proof Hr as [R1 R2 R3]. pose proof (hinv_arr _ _ _ _ _ _ _ Hh Hx) as Harr.
  unfold proc_addthread. kgo (run_the_thread h T a C W P r t th HT). rewrite step_assert by (by rewrite bool_decide_true).
  kgo (run_plock_acquire h T a C W P r me p x Hx (R1 _ _ Hx)). set (x1 := Tproc (p_threads x) (Some me)).
  pose proof (array_add_ok h (p_threads x) t Harr Hnum) as Hadd. unfold on_threads. ksteps.
  kgo (run_the_proc h T a C W _ r p x1 (lookup_insert_eq P p x1)). ksteps. cbn [s_heap]. change (p_threads x1) with (p_threads x).
  destruct (array_add t (h, p_threads x)) as [[v [h' a']]| | |]; try done.
  assert (Hx2 : ∃ bl', keeps bl bl' (OProc p) ∧ (∀ b o, bl' !! b = Some o → b ∈ allocated h') ∧ array_blocks bl' (OProc p) a' ∧ heap_ok h').
  { destruct v as [e|i].
    - destruct Hadd as (_ & -> & Harr' & Hall). destruct (array_moved bl h h' (OProc p) (p_threads x) (p_threads x)) as (bl' & K1 & K2 & K3 & _);
        [apply (ho_alloc _ _ _ _ _ Hh)|by apply (ho_proc _ _ _ _ _ Hh)|done|done|]. exists bl'. split_and!; try done. apply Harr'.
    - destruct Hadd as (Harr' & Hall & _ & _). destruct (array_moved bl h h' (OProc p) (p_threads x) a') as (bl' & K1 & K2 & K3 & _);
        [apply (ho_alloc _ _ _ _ _ Hh)|by apply (ho_proc _ _ _ _ _ Hh)|done|done|]. exists bl'. split_and!; try done. apply Harr'. }
  destruct Hx2 as (bl' & K1 & K2 & K3 & K4). ksteps. unfold set_proc. ksteps.
  unfold upd_heap, upd_procs. cbn [s_heap s_threads s_allcpus s_cpus s_wchans s_procs s_runprogram].
  rewrite insert_insert_eq. change (p_lock x1) with (Some me). set (x2 := Tproc a' (Some me)).
  kgo (run_plock_release h' T a C W _ r me p x2 (lookup_insert_eq P p x2) eq_refl). rewrite insert_insert_eq.
  change (p_threads x2) with a'. set (x3 := Tproc a' None).
  assert (HP : ∀ q, is_Some (P !! q) → is_Some (<[p := x3]> P !! q)).
  { intros q Hq. destruct (decide (q = p)) as [->|Hne]; [rewrite lookup_insert_eq; by eauto|by rewrite lookup_insert_ne]. }
  assert (Hh3 : hinv bl' h' T a (<[p := x3]> P)).
  { apply (hinv_owner bl _ h _ T _ a _ P _ (OProc p)); try done; [by left| |by left].
    intros q y Hy. destruct (decide (q = p)) as [->|Hne].
    - rewrite lookup_insert_eq in Hy. injection Hy as <-. by right.
    - rewrite lookup_insert_ne in Hy by done. left. split; [done|congruence]. }
  assert (Hin : ∀ o, o ∈ elems (p_threads x) → o ∈ elems a').
  { intros o Ho. destruct v as [e|i]; [by destruct Hadd as (_ & -> & _)|]. destruct Hadd as (_ & _ & _ & ->). set_solver. }
  assert (Hr3 : rinv T (<[p := x3]> P)).
  { split.
    - intros q y Hy. destruct (decide (q = p)) as [->|Hne]; [rewrite lookup_insert_eq in Hy; by injection Hy as <-|].
      rewrite lookup_insert_ne in Hy by done. by eapply R1.
    - intros q y Hy. destruct (decide (q = p)) as [->|Hne]; [|rewrite lookup_insert_ne in Hy by done; by eapply R2].
      rewrite lookup_insert_eq in Hy. injection Hy as <-. simpl. pose proof (R2 _ _ Hx) as Hall.
      destruct v as [e|i]; [by destruct Hadd as (_ & -> & _)|]. destruct Hadd as (_ & _ & _ & ->). apply Forall_app. split; [done|].
      apply Forall_singleton. by eauto.
    - intros u thu q Hu Hq. destruct (R3 _ _ _ Hu Hq) as (y & Hy & Hyin). destruct (decide (q = p)) as [->|Hqp].
      + exists x3. rewrite lookup_insert_eq. split; [done|]. rewrite Hx in Hy. injection Hy as <-. by apply Hin.
      + exists y. by rewrite lookup_insert_ne. }
  destruct v as [e|i].
  - destruct Hadd as (-> & _). exists h', (<[p := x3]> P), bl'. split; [done|]. right. by split_and!.
  - kgo (run_set_thread h' T a C W _ r t th _ HT). exists h', (<[p := x3]> P), bl'. split; [done|]. left. split_and!; try done.
    + by apply (hinv_thread _ _ _ _ _ t th).
    + destruct Hr3 as [S1 S2 S3]. split; try done. intros u thu q Hu Hq. destruct (decide (u = t)) as [->|Hne].
      * rewrite lookup_insert_eq in Hu. injection Hu as <-. injection Hq as <-. exists x3. rewrite lookup_insert_eq. split; [done|].
        simpl. destruct Hadd as (_ & _ & _ & ->). set_solver.
      * rewrite lookup_insert_ne in Hu by done. by apply (S3 u thu).
Qed.

(** The stack of a new thread. *)
Lemma hinv_stack bl h h' T a P t th st :
  hinv bl h T a P → T !! t = Some th → heap_ok h' → st ∉ allocated h → allocated h' = {[st]} ∪ allocated h →
  hinv (<[st := OThread t]> bl) h' (<[t := th_stack (Some st) th]> T) a P.
Proof.
  intros Hh HT Hok Hst Ha. pose proof Hh as [_ Hal Hth _ _]. destruct (Hth _ _ HT) as (B1 & B2 & B3 & _).
  assert (st ≠ t) by (intros ->; by apply Hal in B1). assert (st ≠ (t_name th).1) by (intros E; apply Hal in B2; by rewrite <-E in B2).
  apply (hinv_owner bl _ h _ T _ a _ P _ (OThread t)); try done.
  - by apply (keeps_fresh _ h).
  - by apply (alloc_fresh bl h).
  - intros u thu Hu. destruct (decide (u = t)) as [->|Hne].
    + rewrite lookup_insert_eq in Hu. injection Hu as <-. right. split_and!; simpl.
      * by rewrite lookup_insert_ne.
      * by rewrite lookup_insert_ne.
      * done.
      * intros st' [= <-]. split_and!; [apply lookup_insert_eq|done..].
    + rewrite lookup_insert_ne in Hu by done. left. split; [done|congruence].
  - intros p x Hx. left. by split.
  - by left.
Qed.

Lemma ENOMEM_nz : (ENOMEM =? 0) = false.
Proof. done. Qed.

(** Giving a new thread up leaves the system as it was. *)
Lemma drop_new loc bl h T T1 a C W P r me x t th :
  pinv ∅ loc T C W → T !! t = None → T1 = <[t := th]> T → hinv bl h T1 a P → rinv T P → C !! me = Some x → t_state th = S_READY → t_proc th = None →
  ∃ h' bl', thread_destroy me t (Sys h T1 a C W P r) = Done (tt, Sys h' T a C W P r) ∧ hinv bl' h' T a P.
Proof.
  intros Hp HT -> Hh Hr Hx Hst Hpr.
  assert (Hd : delete t (<[t := th]> T) = T) by (by apply delete_insert_id).
  assert (Hr1 : rinv (<[t := th]> T) P).
  { destruct Hr as [R1 R2 R3]. split; try done. intros u thu q Hu Hq. destruct (decide (u = t)) as [->|Hne].
    - rewrite lookup_insert_eq in Hu. injection Hu as <-. congruence.
    - rewrite lookup_insert_ne in Hu by done. by apply (R3 u thu). }
  destruct (thread_destroy_ok _ _ bl h _ a C W P r me x t th (pinv_new _ _ _ _ _ t th Hp HT) Hh Hr1 ltac:(set_solver) Hx (lookup_insert_eq T t th))
    as (h' & bl' & E & _ & Hh' & _); [by apply (not_cur _ _ _ _ _ _ Hp)|congruence|done|].
  rewrite Hd in E, Hh'. by exists h', bl'.
Qed.

Lemma thread_fork_ok s me x ct name proc p y entrypoint data1 data2 :
  sinv ∅ s → s_cpus s !! me = Some x → c_isidle x = false → s_threads s !! c_curthread x = Some ct →
  match proc with Some p => Some p | None => t_proc ct end = Some p → s_procs s !! p = Some y →
  arr_num (p_threads y) < 2 ^ 29 → short_name name →
  match thread_fork me name proc entrypoint data1 data2 s with
  | Done (v, s') =>
      sinv ∅ s' ∧ s_wchans s' = s_wchans s ∧ (∀ q, is_Some (s_procs s !! q) → is_Some (s_procs s' !! q)) ∧
      same_cur (s_cpus s) (s_cpus s') ∧
      ((v = 0 ∧ ∃ t th, s_threads s !! t = None ∧ s_threads s' = <[t := th]> (s_threads s) ∧
          t_context th = Some (entrypoint, data1, data2) ∧ t_proc th = Some p ∧ is_Some (t_stack th) ∧
          s_cpus s' = <[me := enq t x]> (s_cpus s)) ∨
       (v = ENOMEM ∧ s_threads s' = s_threads s ∧ s_cpus s' = s_cpus s))
  | Panic => heap_panics
  | _ => False
  end.
Proof.
  destruct s as [h T a C W P r]. simpl. intros (loc & bl & Hp & Hh & Hr & Hrun) Hx Hidle HT Hproc Hy Hnum Hname. simpl in *.
  destruct (running _ _ _ _ _ _ Hp Hx Hidle) as (ct0 & HT0 & Hcpu & _ & _ & _ & Hlk & Hilk & _). rewrite HT in HT0. injection HT0 as <-.
  unfold thread_fork. pose proof (thread_create_ok ∅ loc bl h T a C W P r name Hp Hh Hr Hname) as Hcr. unfold kbind at 1.
  destruct (thread_create name (Sys h T a C W P r)) as [[[t|] s1]| | |]; try done.
  2:{ destruct Hcr as (h1 & bl1 & -> & Hh1). unfold kret. split_and!; simpl; try done; [by exists loc, bl1|apply same_cur_refl|by right]. }
  destruct Hcr as (n & h1 & bl1 & -> & HTt & Hh1). set (th0 := new_thread n) in *.
  assert (Hok1 : heap_ok h1) by apply Hh1. assert (Hsz : heap_size STACK_SIZE) by (by vm_compute).
  destruct (kmalloc_defined h1 _ Hok1 Hsz) as [Hd1 Hd2].
  unfold kbind at 1, heap at 1, kzoom at 1. cbn [s_heap].
  destruct (kmalloc STACK_SIZE h1) as [[[st|] h2]| | |] eqn:E2; try done; [| |unfold heap_panics; by eauto].
  2:{ destruct (kmalloc_none _ _ _ Hok1 Hsz E2) as [Hok2 Ha2]. unfold upd_heap. cbn [s_heap s_threads s_allcpus s_cpus s_wchans s_procs s_runprogram].
      kgo (run_set_thread h2 _ a C W P r t th0 _ (lookup_insert_eq T t th0)). rewrite insert_insert_eq.
      change (th_stack None th0) with th0.
      assert (Hh2 : hinv bl1 h2 (<[t := th0]> T) a P).
      { destruct Hh1 as [_ G2 G3 G4 G5]. split; try done. intros b o. rewrite Ha2. apply G2. }
      destruct (drop_new loc bl1 h2 T _ a C W P r me x t th0 Hp HTt eq_refl Hh2 Hr Hx eq_refl eq_refl) as (h3 & bl3 & E3 & Hh3).
      kgo E3. unfold kret. split_and!; simpl; try done; [by exists loc, bl3|apply same_cur_refl|by right]. }
  destruct (kmalloc_some _ _ _ _ Hok1 Hsz E2) as (Hok2 & Hf2 & Ha2). unfold upd_heap. cbn [s_heap s_threads s_allcpus s_cpus s_wchans s_procs s_runprogram].
  kgo (run_set_thread h2 _ a C W P r t th0 _ (lookup_insert_eq T t th0)).
  pose proof (hinv_stack bl1 h1 h2 _ a P t th0 st Hh1 (lookup_insert_eq T t th0) Hok2 Hf2 Ha2) as Hh2. rewrite insert_insert_eq in Hh2 |- *.
  set (th1 := th_stack (Some st) th0) in *. unfold thread_checkstack_init.
  kgo (run_set_thread h2 _ a C W P r t th1 _ (lookup_insert_eq T t th1)). rewrite insert_insert_eq. set (th2 := th_guard _ th1).
  kgo (run_curthread h2 _ a C W P r me x Hx). assert (Hct : c_curthread x ≠ t) by (intros E; rewrite E in HT; congruence).
  kgo (run_the_thread h2 _ a C W P r _ ct (eq_trans (lookup_insert_ne T t _ th2 (not_eq_sym Hct)) HT)).
  kgo (run_set_thread h2 _ a C W P r t th2 _ (lookup_insert_eq T t th2)). rewrite insert_insert_eq. set (th3 := th_cpu _ th2).
  rewrite Hproc. ksteps.
  assert (Hh3 : hinv (<[st := OThread t]> bl1) h2 (<[t := th3]> T) a P).
  { rewrite <-(insert_insert_eq T t th3 th1). by apply (hinv_thread _ _ _ _ _ t th1 th3 Hh2 (lookup_insert_eq T t th1)). }
  assert (Hr3 : rinv (<[t := th3]> T) P).
  { destruct Hr as [R1 R2 R3]. split; try done. intros u thu q Hu Hq. destruct (decide (u = t)) as [->|Hne].
    - rewrite lookup_insert_eq in Hu. by injection Hu as <-.
    - rewrite lookup_insert_ne in Hu by done. by apply (R3 u thu). }
  pose proof (addthread_ok _ h2 _ a C W P r me p y t th3 Hh3 Hr3 (lookup_insert_eq T t th3) eq_refl Hy Hnum) as Hadd. unfold kbind at 1.
  destruct (proc_addthread me p t _) as [[e s4]| | |]; try done.
  destruct Hadd as (h4 & P4 & bl4 & HP4 & [(-> & -> & Hh4 & Hr4)|(-> & -> & Hh4 & Hr4)]).
  2:{ rewrite ENOMEM_nz. cbn [negb].
      assert (HrT : rinv T P4).
      { destruct Hr4 as [R1 R2 R3]. split; try done. intros u thu q Hu Hq. assert (u ≠ t) by (intros ->; congruence).
        apply (R3 u thu); [by rewrite lookup_insert_ne|done]. }
      destruct (drop_new loc bl4 h4 T _ a C W P4 r me x t th3 Hp HTt eq_refl Hh4 HrT Hx eq_refl eq_refl) as (h5 & bl5 & E5 & Hh5).
      kgo E5. unfold kret. split_and!; simpl; try done; [by exists loc, bl5|apply same_cur_refl|by right]. }
  rewrite insert_insert_eq in Hh4, Hr4 |- *. set (th4 := th_proc (Some p) th3) in *. cbn [Z.eqb negb].
  kgo (run_set_thread h4 _ a C W P4 r t th4 _ (lookup_insert_eq T t th4)). rewrite insert_insert_eq. set (th5 := th_spl _ th4).
  kgo (run_set_thread h4 _ a C W P4 r t th5 _ (lookup_insert_eq T t th5)). rewrite insert_insert_eq. set (th6 := th_context _ th5).
  kgo (run_make_runnable h4 _ a C W P4 r me t th6 me x (lookup_insert_eq T t th6) Hcpu Hx Hlk Hilk).
  pose proof (pinv_new _ _ _ _ _ t th6 Hp HTt) as Hp6.
  pose proof (pinv_enq _ _ _ _ _ me x t th6 Hp6 Hx ltac:(set_solver) (lookup_insert_eq T t th6) Hcpu (or_introl eq_refl) (λ _ _, eq_refl)) as Hp7.
  replace (({[t]} ∪ ∅) ∖ {[t]} : gset Z) with (∅ : gset Z) in Hp7 by set_solver.
  unfold kret. split_and!; simpl; try done.
  - exists (<[t:=PReady me]> loc), bl4. split_and!; simpl; try done.
    + rewrite <-(insert_insert_eq T t th6 th4). by apply (hinv_thread _ _ _ _ _ t th4 th6 Hh4 (lookup_insert_eq T t th4)).
    + rewrite <-(insert_insert_eq T t th6 th4). apply (rinv_thread _ _ t th4 th6 Hr4 (lookup_insert_eq T t th4)). by left.
  - destruct (enq_fields t x) as (_ & _ & E3 & E4 & _). by eapply same_cur_insert.
  - left. split; [done|]. exists t, th6. by split_and!.
Qed.

(** ** Processors *)

Lemma length_substring n s : (String.length (String.substring 0 n s) ≤ n)%nat.
Proof. revert s. induction n as [|n IH]; intros [|b s]; simpl; [lia..|]. specialize (IH s). lia. Qed.

Lemma boot_name_short n : short_name (boot_name n).
Proof. unfold short_name. pose proof (length_substring 15 ("<boot #" +:+ pretty (Z.of_nat n) +:+ ">")). unfold boot_name. lia. Qed.

(** A block nobody tracks. *)
Lemma hinv_other bl h h' T a P :
  hinv bl h T a P → heap_ok h' → allocated h ⊆ allocated h' → hinv bl h' T a P.
Proof. intros [H1 H2 H3 H4 H5] Hok Ha. split; try done. intros b o Hb. apply H2 in Hb. set_solver. Qed.

(** The list of processors has moved. *)
Lemma hinv_allcpus bl h h' T a a' P :
  hinv bl h T a P → arr_inv h' a' → allocated h' ∖ own a' = allocated h ∖ own a →
  ∃ bl', hinv bl' h' T a' P.
Proof.
  intros Hh Harr Hall. destruct (array_moved bl h h' OCpus a a') as (bl' & K1 & K2 & K3 & _);
    [apply (ho_alloc _ _ _ _ _ Hh)|apply (ho_cpus _ _ _ _ _ Hh)|done|done|].
  exists bl'. apply (hinv_owner bl _ h _ T _ a _ P _ OCpus); try done; [apply Harr|by left|by left|by right].
Qed.

(** The stack of a boot thread: none on the first processor. *)
Lemma boot_stack_ok bl h T a C W P r number t th :
  hinv bl h T a P → T !! t = Some th → t_stack th = None →
  match boot_stack number t (Sys h T a C W P r) with
  | Done (u, s') => ∃ h' bl' th', u = tt ∧ s' = Sys h' (<[t := th']> T) a C W P r ∧ hinv bl' h' (<[t := th']> T) a P ∧
      t_state th' = t_state th ∧ t_proc th' = t_proc th ∧
      ∀ st, t_stack th' = Some st → t_guard th' = replicate 4 THREAD_STACK_MAGIC
  | Panic => True
  | _ => False
  end.
Proof.
  intros Hh HT Hst. unfold boot_stack. case_bool_decide.
  { unfold kret. exists h, bl, th. rewrite insert_id by done. split_and!; try done. congruence. }
  assert (Hok : heap_ok h) by apply Hh. assert (Hsz : heap_size STACK_SIZE) by (by vm_compute).
  destruct (kmalloc_defined h _ Hok Hsz) as [Hd1 Hd2]. unfold kbind at 1, heap, kzoom. cbn [s_heap].
  destruct (kmalloc STACK_SIZE h) as [[[st|] h2]| | |] eqn:E2; try done.
  destruct (kmalloc_some _ _ _ _ Hok Hsz E2) as (Hok2 & Hf2 & Ha2). unfold upd_heap. cbn [s_threads s_allcpus s_cpus s_wchans s_procs s_runprogram].
  kgo (run_set_thread h2 _ a C W P r t th _ HT). unfold thread_checkstack_init.
    set (th1 := th_stack (Some st) th). rewrite (run_set_thread h2 _ a C W P r t th1 _ (lookup_insert_eq T t th1)). rewrite insert_insert_eq.
    exists h2, (<[st := OThread t]> bl), (th_guard (replicate 4 THREAD_STACK_MAGIC) th1). split_and!; try done.
    rewrite <-(insert_insert_eq T t _ th1). apply (hinv_thread _ _ _ _ _ t th1); [|apply lookup_insert_eq|done|done].
    by apply (hinv_stack bl h).
Qed.

Lemma cpu_create_ok s kproc hw y :
  sinv ∅ s → s_procs s !! kproc = Some y → arr_num (p_threads y) < 2 ^ 29 → arr_num (s_allcpus s) < 2 ^ 29 →
  match cpu_create kproc hw s with
  | Done (_, s') => sinv ∅ s' ∧ s_wchans s' = s_wchans s ∧ length (s_cpus s') = S (length (s_cpus s)) ∧
      ∀ q, is_Some (s_procs s !! q) → is_Some (s_procs s' !! q)
  | Panic => True
  | _ => False
  end.
Proof.
  destruct s as [h T a C W P r]. simpl. intros (loc & bl & Hp & Hh & Hr & Hrun) Hy Hnum Hcpus. simpl in *.
  assert (Hok : heap_ok h) by apply Hh. assert (Hsz : heap_size sizeof_cpu) by (by vm_compute).
  destruct (kmalloc_defined h _ Hok Hsz) as [Hd1 Hd2]. unfold cpu_create. unfold kbind at 1, heap at 1, kzoom at 1. cbn [s_heap].
  destruct (kmalloc sizeof_cpu h) as [[[c|] h1]| | |] eqn:E1; try done.
  destruct (kmalloc_some _ _ _ _ Hok Hsz E1) as (Hok1 & Hf1 & Ha1). unfold upd_heap. cbn [s_heap s_threads s_allcpus s_cpus s_wchans s_procs s_runprogram].
  pose proof (hinv_other bl h h1 T a P Hh Hok1 ltac:(rewrite Ha1; set_solver)) as Hh1. ksteps. cbn [s_heap s_threads s_allcpus s_cpus s_wchans s_procs s_runprogram].
  assert (Harr : arr_inv h1 a).
  { destruct (ho_cpus _ _ _ _ _ Hh1) as [Hwf Hb]. split_and!; [done..|]. unfold own. destruct (arr_ptr a) as [b|]; [|set_solver].
    apply singleton_subseteq_l. eapply (ho_alloc _ _ _ _ _ Hh1), Hb. done. }
  pose proof (array_add_ok h1 a c Harr Hcpus) as Hadd.
  destruct (array_add c (h1, a)) as [[[e|i] [h2 a2]]| | |]; try done. destruct Hadd as (Harr2 & Hall2 & _ & _).
  destruct (hinv_allcpus bl h1 h2 T a a2 P Hh1 Harr2 Hall2) as (bl2 & Hh2). ksteps.
  pose proof (thread_create_ok ∅ loc bl2 h2 T a2 C W P r (boot_name (length C)) Hp Hh2 Hr (boot_name_short _)) as Hcr. unfold kbind at 1.
  destruct (thread_create _ _) as [[[t|] s3]| | |]; try done. destruct Hcr as (n & h3 & bl3 & -> & HTt & Hh3). set (th0 := new_thread n) in *.
  assert (Hr3 : rinv (<[t := th0]> T) P).
  { destruct Hr as [R1 R2 R3]. split; try done. intros u thu q Hu Hq. destruct (decide (u = t)) as [->|Hne].
    - rewrite lookup_insert_eq in Hu. by injection Hu as <-.
    - rewrite lookup_insert_ne in Hu by done. by apply (R3 u thu). }
  pose proof (addthread_ok _ h3 _ a2 C W P r (length C) kproc y t th0 Hh3 Hr3 (lookup_insert_eq T t th0) eq_refl Hy Hnum) as Had. unfold kbind at 1.
  destruct (proc_addthread (length C) kproc t _) as [[e s4]| | |]; try done.
  destruct Had as (h4 & P4 & bl4 & HP4 & [(-> & -> & Hh4 & Hr4)|(-> & -> & Hh4 & Hr4)]); [|done].
  rewrite insert_insert_eq in Hh4, Hr4 |- *. set (th1 := th_proc (Some kproc) th0) in *. cbn [Z.eqb negb]. ksteps.
  pose proof (boot_stack_ok bl4 h4 _ a2 C W P4 r (length C) t th1 Hh4 (lookup_insert_eq T t th1) eq_refl) as Hbs. unfold kbind at 1.
  destruct (boot_stack (length C) t _) as [[u s5]| | |]; try done.
  destruct Hbs as (h5 & bl5 & th5 & -> & -> & Hh5 & Hst5 & Hpr5 & Hg5). rewrite insert_insert_eq in Hh5 |- *.
  kgo (run_set_thread h5 _ a2 C W P4 r t th5 _ (lookup_insert_eq T t th5)). rewrite insert_insert_eq. set (th6 := th_cpu (Some (length C)) th5).
  unfold kmodify, upd_cpus. cbn [s_heap s_threads s_allcpus s_cpus s_wchans s_procs s_runprogram]. split_and!; [|done|rewrite length_app; simpl; lia|done].
  pose proof (pinv_new _ _ _ _ _ t th6 Hp HTt) as Hp6.
  set (x := Cpu c hw t [] 0 false [] None 0 (replicate (Z.to_nat TLBSHOOTDOWN_MAX) (0, 0)) 0 None false).
  pose proof (pinv_new_cpu _ _ _ _ _ x t th6 Hp6 ltac:(set_solver) (lookup_insert_eq T t th6) eq_refl Hst5 Hg5 eq_refl eq_refl eq_refl eq_refl (conj eq_refl eq_refl) eq_refl) as Hp7.
  replace (({[t]} ∪ ∅) ∖ {[t]} : gset Z) with (∅ : gset Z) in Hp7 by set_solver.
  exists (<[t := PRun (length C)]> loc), bl5. split_and!; simpl; try done.
  - rewrite <-(insert_insert_eq T t th6 th5). by apply (hinv_thread _ _ _ _ _ t th5 th6 Hh5 (lookup_insert_eq T t th5)).
  - rewrite <-(insert_insert_eq T t th6 th1). apply (rinv_thread _ _ t th1 th6 Hr4 (lookup_insert_eq T t th1)). by left.
Qed.
End Create.
