(* ===== verification/ThreadsTheorems.v ===== *)
(** * The thread system's theorems

    Every sequence of thread operations on any number of processors keeps every
    thread in exactly one place; what [thread_fork], migration and the TLB
    shootdown queue do. *)

From stdpp Require Import base numbers list gmap fin_maps fin_sets sets strings relations.
From Stdlib Require Import ZArith Lia.
From S2P Require Import Prelude KernelHeap Array Wchan Spinlock Threads ThreadsRun ThreadsInv ThreadsHeap ThreadsOps ThreadsMigrate ThreadsCreate.

Open Scope Z_scope.
Open Scope kernel_scope.

(** ** Runs *)

Inductive sop :=
  | OpFork (name : string) (proc : option Z) (entrypoint data1 data2 : Z)
  | OpYield
  | OpSleep (w : Z)
  | OpExit
  | OpWakeone (w : Z)
  | OpWakeall (w : Z)
  | OpIdle                        (* cpu_idle returns *)
  | OpHardclock                   (* the timer interrupt *)
  | OpInterrupt                   (* an interprocessor interrupt *)
  | OpCpuCreate (kproc hardware_number : Z).

(** Only these may panic, when memory runs out. *)
Definition may_panic (op : sop) : bool :=
  match op with OpFork _ _ _ _ _ | OpCpuCreate _ _ => true | _ => false end.

Section Runs.
Context {H : Type} {HH : KernelHeap H}.
Implicit Types (s : sys H) (me : nat).

Definition run_op me (op : sop) : K (sys H) unit :=
  match op with
  | OpFork name proc e d1 d2 => _ <- thread_fork me name proc e d1 d2 ;; kret tt
  | OpYield => thread_yield me
  | OpSleep w => wchan_lock me w ;; wchan_sleep me w
  | OpExit => thread_exit me
  | OpWakeone w => wchan_wakeone me w
  | OpWakeall w => wchan_wakeall me w
  | OpIdle => idle_return me
  | OpHardclock => hardclock me
  | OpInterrupt => _ <- interprocessor_interrupt me ;; kret tt
  | OpCpuCreate kproc hw => cpu_create kproc hw
  end.

(** The current thread, on a processor that is not idle. *)
Definition running_thread me s : option thread :=
  match s_cpus s !! me with
  | Some x => if c_isidle x then None else s_threads s !! c_curthread x
  | None => None
  end.

(** Fewer threads in a process than an array can hold. *)
Definition has_room s (p : Z) : bool :=
  match s_procs s !! p with Some y => arr_num (p_threads y) <? 2 ^ 29 | None => false end.

Definition is_there {A} (o : option A) : bool := match o with Some _ => true | None => false end.

(** Who may do what: threads run on processors that are not idle and do not
    sleep in interrupts, interrupts come anywhere, channels and processes
    exist. *)
Definition enabled me (op : sop) s : bool :=
  match op with
  | OpFork name proc _ _ _ =>
      (Z.of_nat (String.length name) <? 2 ^ 31) &&
      match running_thread me s with
      | Some ct => match match proc with Some p => Some p | None => t_proc ct end with
                   | Some p => has_room s p
                   | None => false
                   end
      | None => false
      end
  | OpYield | OpHardclock | OpInterrupt => is_there (s_cpus s !! me)
  | OpSleep w =>
      is_there (s_wchans s !! w) &&
      match running_thread me s with Some ct => negb (t_in_interrupt ct) | None => false end
  | OpExit =>
      match running_thread me s with Some ct => is_there (t_proc ct) | None => false end &&
      match s_runprogram s with Some (n, _) => (0 <=? n) && (n <? 2 ^ 31 - 1) | None => true end
  | OpWakeone w | OpWakeall w => is_there (s_wchans s !! w)
  | OpIdle => match s_cpus s !! me with Some x => c_isidle x | None => false end
  | OpCpuCreate kproc _ => has_room s kproc && (arr_num (s_allcpus s) <? 2 ^ 29)
  end.

Definition sstep s s' : Prop := ∃ me op, enabled me op s = true ∧ run_op me op s = Done (tt, s').

Fixpoint sys_run (l : list (nat * sop)) s : option (sys H) :=
  match l with
  | [] => Some s
  | (me, op) :: l =>
      if enabled me op s then match run_op me op s with Done (_, s') => sys_run l s' | _ => None end else None
  end.

Lemma sys_run_sound l s s' : sys_run l s = Some s' → rtc sstep s s'.
Proof.
  revert s. induction l as [|[me op] l IH]; intros s; simpl; [by intros [= ->]|].
  destruct (enabled me op s) eqn:E; [|done]. destruct (run_op me op s) as [[[] s1]| | |] eqn:E1; try done.
  intros Hr. eapply rtc_l; [|by apply IH]. by exists me, op.
Qed.

Lemma is_there_true {A} (o : option A) : is_there o = true → is_Some o.
Proof. destruct o; [by eauto|done]. Qed.

Lemma running_thread_Some me s ct :
  running_thread me s = Some ct →
  ∃ x, s_cpus s !! me = Some x ∧ c_isidle x = false ∧ s_threads s !! c_curthread x = Some ct.
Proof.
  unfold running_thread. destruct (s_cpus s !! me) as [x|]; [|done]. destruct (c_isidle x) eqn:E; [done|]. by exists x.
Qed.

Lemma has_room_true s p : has_room s p = true → ∃ y, s_procs s !! p = Some y ∧ arr_num (p_threads y) < 2 ^ 29.
Proof. unfold has_room. destruct (s_procs s !! p) as [y|]; [|done]. intros Hy%Z.ltb_lt. by eauto. Qed.

(** Before the first processor: channels nobody sleeps on, processes without
    threads. *)
Definition boot_ok s : Prop :=
  heap_ok (s_heap s) ∧ s_threads s = ∅ ∧ s_allcpus s = array_init ∧ s_cpus s = [] ∧
  (∀ w x, s_wchans s !! w = Some x → wc_threads x = [] ∧ wc_lock x = None) ∧
  (∀ p x, s_procs s !! p = Some x → x = Tproc array_init None) ∧ run_ok (s_wchans s) (s_runprogram s).

Lemma array_init_wf : arr_wf array_init.
Proof. split; simpl; [lia| |done]. split; [by left|lia]. Qed.

Lemma boot_sinv s : boot_ok s → sinv ∅ s.
Proof.
  destruct s as [h T a C W P r]. intros (Hok & HT & Ha & HC & HW & HP & Hr). simpl in *. subst.
  exists ∅, ∅. split_and!; simpl; [| | |done].
  - split; try done.
    + intros t. rewrite !lookup_empty. split; [by intros []|by intros [[] _]].
    + intros w x Hx. destruct (HW _ _ Hx) as [E1 E2]. split; [rewrite E1; apply NoDup_nil_2| |done].
      intros t. rewrite E1, lookup_empty. split; [by intros ?%elem_of_nil|done].
  - split; try done.
    + intros p x Hx. rewrite (HP _ _ Hx). split; [apply array_init_wf|done].
    + split; [apply array_init_wf|done].
  - split; try done.
    + intros p x Hx. by rewrite (HP _ _ Hx).
    + intros p x Hx. rewrite (HP _ _ Hx). apply Forall_nil_2.
Qed.

(** ** Interrupts *)

Lemma interrupt_ok s me x :
  sinv ∅ s → s_cpus s !! me = Some x →
  ∃ s', interprocessor_interrupt me s = Done (false, s') ∧ sinv ∅ s' ∧ s_cpus s' = <[me := cp_ipi 0 (c_shootdown x) (c_numshootdown x) (c_ipi_line x) x]> (s_cpus s).
Proof.
  destruct s as [h T a C W P r]. simpl. intros (loc & bl & Hp & Hh & Hr & Hrun) Hx. simpl in *.
  destruct (pi_cpus _ _ _ _ _ Hp _ _ Hx) as [_ _ _ _ _ _ [Hl Hi] Hpd].
  unfold interprocessor_interrupt, ipi_acquire. ksteps. kgo (run_the_cpu h T a C W P r me x Hx). rewrite Hi. cbn [spin_get]. ksteps.
  kgo (run_set_cpu h T a C W P r me x _ Hx). set (x1 := cp_ipilock (Some me) x). pose proof (lookup_cpu_same C me x x1 Hx) as Hx1.
  kgo (run_the_cpu h T a _ W P r me x1 Hx1). change (c_ipi_pending x1) with (c_ipi_pending x).
  assert (Z.testbit (c_ipi_pending x) IPI_PANIC = false ∧ Z.testbit (c_ipi_pending x) IPI_OFFLINE = false ∧
    Z.testbit (c_ipi_pending x) IPI_TLBSHOOTDOWN = false) as (-> & -> & ->) by (by destruct Hpd as [->| ->]).
  ksteps. kgo (run_set_cpu h T a _ W P r me x1 _ Hx1). rewrite insert_twice. set (x2 := cp_ipi 0 _ _ _ x1).
  pose proof (lookup_cpu_same C me x x2 Hx) as Hx2. unfold ipi_release. ksteps. kgo (run_the_cpu h T a _ W P r me x2 Hx2).
  unfold spin_put. ksteps. rewrite step_assert by (by rewrite bool_decide_true). kgo (run_set_cpu h T a _ W P r me x2 _ Hx2). rewrite insert_twice.
  set (x3 := cp_ipilock None x2). assert (E3 : x3 = cp_ipi 0 (c_shootdown x) (c_numshootdown x) (c_ipi_line x) x) by (unfold x3, x2, x1; destruct x; simpl in *; by subst).
  eexists. split; [done|]. rewrite E3. split; [|done]. exists loc, bl. split_and!; simpl; try done.
  apply (pinv_cpu _ _ _ _ _ me x); try done. by left.
Qed.

Lemma hardclock_ok s me :
  sinv ∅ s → is_Some (s_cpus s !! me) → ∃ s', hardclock me s = Done (tt, s') ∧ sinv ∅ s'.
Proof.
  destruct s as [h T a C W P r]. simpl. intros (loc & bl & Hp & Hh & Hr & Hrun) [x Hx]. simpl in *.
  unfold hardclock. kgo (run_set_cpu h T a C W P r me x _ Hx). set (x1 := cp_hardclocks _ x). pose proof (lookup_cpu_same C me x x1 Hx) as Hx1.
  kgo (run_the_cpu h T a _ W P r me x1 Hx1).
  assert (Hs : sinv ∅ (Sys h T a (<[me := x1]> C) W P r)).
  { exists loc, bl. split_and!; simpl; try done. destruct (pi_cpus _ _ _ _ _ Hp _ _ Hx) as [_ _ _ _ _ _ Hl Hpd]. by apply (pinv_cpu _ _ _ _ _ me x). }
  destruct (c_hardclocks x1 mod MIGRATE_HARDCLOCKS =? 0).
  - destruct (migrate_ok _ me x1 Hs Hx1) as (s1 & E1 & Hs1 & _ & _ & _ & _ & x2 & Hx2 & _). kgo E1.
    destruct (yield_ok s1 me Hs1) as (s2 & E2 & Hs2 & _); [by eauto|]. by exists s2.
  - ksteps. destruct (yield_ok _ me Hs) as (s2 & E2 & Hs2 & _); [simpl; by eauto|]. by exists s2.
Qed.

(** ** Every operation *)

Lemma op_ok s me op :
  sinv ∅ s → enabled me op s = true →
  match run_op me op s with
  | Done (_, s') => sinv ∅ s'
  | Panic => may_panic op = true
  | _ => False
  end.
Proof.
  intros Hs. destruct op as [name proc e d1 d2| |w| |w|w| | | |kproc hw]; cbn [run_op enabled may_panic].
  - intros [Hname%Z.ltb_lt Hct]%andb_true_iff. destruct (running_thread me s) as [ct|] eqn:E; [|done].
    apply running_thread_Some in E as (x & Hx & Hidle & HT).
    destruct (match proc with Some p => Some p | None => t_proc ct end) as [p|] eqn:Hp; [|done].
    apply has_room_true in Hct as (y & Hy & Hnum).
    pose proof (thread_fork_ok s me x ct name proc p y e d1 d2 Hs Hx Hidle HT Hp Hy Hnum Hname) as Hf. unfold kbind.
    destruct (thread_fork me name proc e d1 d2 s) as [[v s']| | |]; [apply Hf|done|done|done].
  - intros Hx%is_there_true. by destruct (yield_ok s me Hs Hx) as (s' & -> & ? & _).
  - intros [Hw%is_there_true Hct]%andb_true_iff. destruct (running_thread me s) as [ct|] eqn:E; [|done].
    apply running_thread_Some in E as (x & Hx & Hidle & HT). apply negb_true_iff in Hct.
    destruct (sleep_ok s me w x Hs Hx Hidle Hw) as (s' & -> & ? & _); [|done]. intros th Hth. congruence.
  - intros [Hct Hn]%andb_true_iff. destruct (running_thread me s) as [ct|] eqn:E; [|done].
    apply running_thread_Some in E as (x & Hx & Hidle & HT). apply is_there_true in Hct.
    destruct (exit_ok s me x ct Hs Hx Hidle HT Hct) as (s' & -> & ? & _); [|done].
    intros n w Hw. rewrite Hw in Hn. lia.
  - intros Hw%is_there_true. by destruct (wakeone_ok s me w Hs Hw) as (s' & -> & ? & _).
  - intros Hw%is_there_true. by destruct (wakeall_ok s me w Hs Hw) as (s' & -> & ? & _).
  - destruct (s_cpus s !! me) as [x|] eqn:Hx; [|done]. intros Hidle. by destruct (idle_return_ok s me x Hs Hx Hidle) as (s' & -> & ? & _).
  - intros Hx%is_there_true. by destruct (hardclock_ok s me Hs Hx) as (s' & -> & ?).
  - intros [x Hx]%is_there_true. destruct (interrupt_ok s me x Hs Hx) as (s' & E & ? & _). by kgo E.
  - intros [(y & Hy & Hnum)%has_room_true Hcpus%Z.ltb_lt]%andb_true_iff. pose proof (cpu_create_ok s kproc hw y Hs Hy Hnum Hcpus) as Hc.
    destruct (cpu_create kproc hw s) as [[u s']| | |]; [apply Hc|done|done|done].
Qed.

Lemma reachable_sinv s0 s : boot_ok s0 → rtc sstep s0 s → sinv ∅ s.
Proof.
  intros H0 Hr. assert (Hs0 : sinv ∅ s0) by (by apply boot_sinv). clear H0.
  induction Hr as [s|s s1 s2 (me & op & Hen & Hrun) _ IH]; [done|]. apply IH.
  pose proof (op_ok s me op Hs0 Hen) as Ho. by rewrite Hrun in Ho.
Qed.

(** ** Where a thread is *)

Definition at_place s (t : Z) (p : place) : Prop :=
  match p with
  | PRun c => ∃ x, s_cpus s !! c = Some x ∧ c_isidle x = false ∧ c_curthread x = t
  | PReady c => ∃ x, s_cpus s !! c = Some x ∧ t ∈ c_runqueue x
  | PZombie c => ∃ x, s_cpus s !! c = Some x ∧ t ∈ c_zombies x
  | PSleep w => ∃ x, s_wchans s !! w = Some x ∧ t ∈ wc_threads x
  end.

Lemma at_place_loc s loc t p :
  pinv ∅ loc (s_threads s) (s_cpus s) (s_wchans s) → at_place s t p ↔ loc !! t = Some p.
Proof.
  intros Hp. split.
  - destruct p as [c|c|c|w]; intros (x & Hx & Ht).
    + by apply (co_run _ _ _ _ (pi_cpus _ _ _ _ _ Hp _ _ Hx)).
    + by apply (co_rq _ _ _ _ (pi_cpus _ _ _ _ _ Hp _ _ Hx)).
    + by apply (co_z _ _ _ _ (pi_cpus _ _ _ _ _ Hp _ _ Hx)).
    + by apply (wo_in _ _ _ (pi_wchans _ _ _ _ _ Hp _ _ Hx)).
  - intros Hl. destruct (proj1 (pi_dom _ _ _ _ _ Hp t)) as [[th HT] _]; [by eauto|].
    destruct (pi_threads _ _ _ _ _ Hp _ _ _ HT Hl) as [(c & Hc & [x Hx] & Hcp) _ _]. destruct p as [d|d|d|w]; simpl in *.
    + rewrite (Hcp d eq_refl) in *. exists x. split; [done|]. by apply (co_run _ _ _ _ (pi_cpus _ _ _ _ _ Hp _ _ Hx)).
    + rewrite (Hcp d eq_refl) in *. exists x. split; [done|]. by apply (co_rq _ _ _ _ (pi_cpus _ _ _ _ _ Hp _ _ Hx)).
    + rewrite (Hcp d eq_refl) in *. exists x. split; [done|]. by apply (co_z _ _ _ _ (pi_cpus _ _ _ _ _ Hp _ _ Hx)).
    + destruct (pi_wplace _ _ _ _ _ Hp _ _ Hl) as [y Hy]. exists y. split; [done|]. by apply (wo_in _ _ _ (pi_wchans _ _ _ _ _ Hp _ _ Hy)).
Qed.

End Runs.

(** ** A run

    Two processors; the first forks two threads, sleeps, and is woken by the
    second. *)

Definition demo_boot : sys refheap :=
  Sys (empty_refheap 100) ∅ array_init [] {[7 := Wchan "chan" [] None]} {[1 := Tproc array_init None]} None.

Lemma demo_boot_ok : boot_ok demo_boot.
Proof.
  split; [apply empty_refheap_ok|]. do 3 (split; [done|]). split_and!; [| |done].
  - intros w x Hx. simpl in Hx. apply lookup_singleton_Some in Hx as [<- <-]. done.
  - intros p x Hx. simpl in Hx. by apply lookup_singleton_Some in Hx as [<- <-].
Qed.

Definition demo_ops : list (nat * sop) :=
  [(0%nat, OpCpuCreate 1 0); (0%nat, OpCpuCreate 1 1);
   (0%nat, OpFork "one" None 100 0 0); (0%nat, OpFork "two" None 200 0 0);
   (0%nat, OpSleep 7); (1%nat, OpWakeone 7); (0%nat, OpHardclock); (0%nat, OpExit); (1%nat, OpExit); (1%nat, OpIdle)].

(** What the processors look like: current thread, idle, run queue, zombies. *)
Definition cpu_view {H} (s : sys H) : list (Z * bool * list Z * list Z) :=
  (λ x, (c_curthread x, c_isidle x, c_runqueue x, c_zombies x)) <$> s_cpus s.


(** ** Migration *)

(** C29. Migration moves threads and loses none: the threads in the run queues
    afterwards are those before; another processor only gains threads at the
    end of its queue and never beyond the average rounded up; the calling
    processor keeps at least that share (or does nothing, having less), and a
    current thread that sits in its own processor's queue, whose stack the
    processor is still using, stays there. *)
Theorem migration_balances {H} {HH : KernelHeap H} (s0 s : sys H) me x :
  boot_ok s0 → rtc sstep s0 s → s_cpus s !! me = Some x →
  ∃ s' x', thread_consider_migration me s = Done (tt, s') ∧ s_cpus s' !! me = Some x' ∧
    (∀ t, ready_on (s_cpus s) t ↔ ready_on (s_cpus s') t) ∧
    gains (the_share (s_cpus s)) me (s_cpus s) (s_cpus s') ∧
    (Z.of_nat (length (c_runqueue x)) < the_share (s_cpus s) ∧ x' = x ∨
     the_share (s_cpus s) ≤ Z.of_nat (length (c_runqueue x'))) ∧
    (c_curthread x ∈ c_runqueue x → c_curthread x ∈ c_runqueue x').
Proof.
  intros H0 Hr Hx. pose proof (reachable_sinv _ _ H0 Hr) as Hs.
  destruct (migrate_ok s me x Hs Hx) as (s' & E & (loc & bl & Hp & _) & _ & _ & Hg & Hrd & x' & Hx' & _ & Hcur & Hown).
  exists s', x'. split_and!; try done. intros Hin.
  destruct (proj1 (Hrd (c_curthread x))) as (c & y & Hy & Hyin); [by exists me, x|].
  destruct (co_cur _ _ _ _ (pi_cpus _ _ _ _ _ Hp _ _ Hx')) as (th & HT & Hc). rewrite Hcur in HT.
  assert (Hl : loc !! c_curthread x = Some (PReady c)) by (by apply (co_rq _ _ _ _ (pi_cpus _ _ _ _ _ Hp _ _ Hy))).
  destruct (pi_threads _ _ _ _ _ Hp _ _ _ HT Hl) as [(d & Hd & _ & Hdc) _ _]. rewrite <-(Hdc c eq_refl) in Hd.
  assert (c = me) as -> by congruence. congruence.
Qed.

(** The first processor, with two threads in its queue and the second with
    none, gives one away. *)
Lemma migration_balances_witness :
  match sys_run (firstn 4 demo_ops) demo_boot with
  | Some s =>
      match s_cpus s !! 0%nat with
      | Some x => length (c_runqueue x) = 2%nat ∧
          ∃ s' x', thread_consider_migration 0 s = Done (tt, s') ∧ s_cpus s' !! 0%nat = Some x' ∧
            the_share (s_cpus s) ≤ Z.of_nat (length (c_runqueue x')) ∧
            gains (the_share (s_cpus s)) 0 (s_cpus s) (s_cpus s')
      | None => False
      end
  | None => False
  end.
Proof.
  assert (Hv : option_map cpu_view (sys_run (firstn 4 demo_ops) demo_boot) =
    Some [(2147483896, false, [2147488472; 2147492684], []); (2147484260, false, [], [])]) by (vm_compute; reflexivity).
  destruct (sys_run (firstn 4 demo_ops) demo_boot) as [s|] eqn:E; [|done]. injection Hv as Hv. unfold cpu_view in Hv.
  assert (Hd : (λ x, (c_curthread x, c_isidle x, c_runqueue x, c_zombies x)) <$> s_cpus s !! 0%nat =
    Some (2147483896, false, [2147488472; 2147492684], [])) by (by rewrite <-list_lookup_fmap, Hv).
  destruct (s_cpus s !! 0%nat) as [x|] eqn:Hx; [|done]. injection Hd as _ _ Hq _. split; [by rewrite Hq|].
  destruct (migration_balances demo_boot s 0 x demo_boot_ok (sys_run_sound _ _ _ E) Hx) as (s' & x' & E' & Hx' & _ & Hg & Hown & _).
  exists s', x'. split; [exact E'|]. split; [exact Hx'|]. split; [|exact Hg].
  destruct Hown as [[Hlt _]|Hown]; [|exact Hown]. exfalso. revert Hlt. rewrite Hq. unfold the_share, count_from.
  rewrite drop_0. assert (Hf : ∀ l n, foldl (λ n y, u32 (n + Z.of_nat (length (c_runqueue y)))) n l =
    foldl (λ n v, u32 (n + Z.of_nat (length v.1.2))) n ((λ y, (c_curthread y, c_isidle y, c_runqueue y, c_zombies y)) <$> l)).
  { induction l as [|y l IH]; intros n; [done|]. apply IH. }
  rewrite Hf, Hv. assert (Hlen : length (s_cpus s) = 2%nat) by (by rewrite <-(length_fmap (λ x, (c_curthread x, c_isidle x, c_runqueue x, c_zombies x))), Hv).
  rewrite Hlen. by vm_compute.
Defined.

(** ** Creating a thread *)

(** C13. [thread_fork] on a running processor either returns 0 with one new
    thread, in the given process, with a stack, set to start at the entry point
    and last in this processor's run queue; or it returns ENOMEM with the
    threads and processors as they were, giving back what it had allocated.
    It never panics of itself. *)
Theorem thread_fork_spec {H} {HH : KernelHeap H} (s0 s : sys H) me x ct name proc p y entrypoint data1 data2 :
  boot_ok s0 → rtc sstep s0 s → s_cpus s !! me = Some x → c_isidle x = false → s_threads s !! c_curthread x = Some ct →
  match proc with Some p => Some p | None => t_proc ct end = Some p → s_procs s !! p = Some y →
  arr_num (p_threads y) < 2 ^ 29 → short_name name →
  match thread_fork me name proc entrypoint data1 data2 s with
  | Done (v, s') =>
      sinv ∅ s' ∧
      ((v = 0 ∧ ∃ t th, s_threads s !! t = None ∧ s_threads s' = <[t := th]> (s_threads s) ∧
          t_context th = Some (entrypoint, data1, data2) ∧ t_proc th = Some p ∧ is_Some (t_stack th) ∧
          s_cpus s' = <[me := enq t x]> (s_cpus s)) ∨
       (v = ENOMEM ∧ s_threads s' = s_threads s ∧ s_cpus s' = s_cpus s))
  | Panic => ∃ sz (h : H), kmalloc sz h = Panic
  | _ => False
  end.
Proof.
  intros H0 Hr Hx Hidle HT Hp Hy Hnum Hname. pose proof (reachable_sinv _ _ H0 Hr) as Hs.
  pose proof (thread_fork_ok s me x ct name proc p y entrypoint data1 data2 Hs Hx Hidle HT Hp Hy Hnum Hname) as Hf.
  destruct (thread_fork me name proc entrypoint data1 data2 s) as [[v s']| | |]; try done.
  destruct Hf as (H1 & _ & _ & _ & H2). by split.
Qed.

(** No memory for the stack. *)
Definition tight_boot : sys refheap :=
  Sys (empty_refheap 7) ∅ array_init [] ∅ {[1 := Tproc array_init None]} None.

Lemma tight_boot_ok : boot_ok tight_boot.
Proof.
  split; [apply empty_refheap_ok|]. do 3 (split; [done|]). split_and!; [done| |done].
  intros p x Hx. simpl in Hx. by apply lookup_singleton_Some in Hx as [<- <-].
Qed.

(** What the theorem needs of the state: the first processor, its thread's
    process and that process's array. *)
Definition fork_view {H} (s : sys H) : option (bool * option Z * option Z) :=
  match s_cpus s !! 0%nat with
  | Some x => match s_threads s !! c_curthread x with
              | Some ct => Some (c_isidle x, t_proc ct, (λ y, arr_num (p_threads y)) <$> s_procs s !! 1)
              | None => None
              end
  | None => None
  end.

Lemma thread_fork_spec_witness :
  match sys_run [(0%nat, OpCpuCreate 1 0)] tight_boot with
  | Some s =>
      fork_view s = Some (false, Some 1, Some 1) ∧
      match thread_fork 0 "new" None 100 0 0 s with
      | Done (v, s') => v = ENOMEM ∧ s_threads s' = s_threads s
      | _ => False
      end
  | None => False
  end.
Proof.
  assert (Hview : match sys_run [(0%nat, OpCpuCreate 1 0)] tight_boot with Some s => fork_view s | None => None end = Some (false, Some 1, Some 1))
    by (vm_compute; reflexivity).
  assert (Hv : match sys_run [(0%nat, OpCpuCreate 1 0)] tight_boot with
    | Some s => match thread_fork 0 "new" None 100 0 0 s with Done (v, _) => v =? ENOMEM | _ => false end
    | None => false end = true) by (vm_compute; reflexivity).
  destruct (sys_run [(0%nat, OpCpuCreate 1 0)] tight_boot) as [s|] eqn:E; [|done]. split; [done|]. unfold fork_view in Hview.
  destruct (s_cpus s !! 0%nat) as [x|] eqn:Hx; [|done]. destruct (s_threads s !! c_curthread x) as [ct|] eqn:Hct; [|done].
  destruct (s_procs s !! 1) as [y|] eqn:Hy; [|done]. injection Hview as Hidle Hp Hn.
  pose proof (thread_fork_spec tight_boot s 0 x ct "new" None 1 y 100 0 0 tight_boot_ok (sys_run_sound _ _ _ E) Hx Hidle Hct Hp Hy
    ltac:(rewrite Hn; done) ltac:(done)) as Hf.
  destruct (thread_fork 0 "new" None 100 0 0 s) as [[v s']| | |]; [|discriminate Hv..]. apply Z.eqb_eq in Hv. split; [exact Hv|].
  destruct Hf as (_ & [[Hv0 _]|(_ & HT & _)]); [rewrite Hv in Hv0; discriminate Hv0|exact HT].
Defined.

(** ** TLB shootdowns *)

(** Queueing a TLB shootdown for a processor: while fewer than 16 are
    queued the mapping is recorded after them, the 17th makes the processor
    drop all mappings, and one more, before the processor has answered, writes
    to index -1 of the array: nothing keeps the code from it.  In the first two
    cases the interrupt is pending and the line raised. *)
Theorem tlbshootdown_queue {H} (s : sys H) me c x (mapping : Z * Z) :
  s_cpus s !! c = Some x → c_ipi_lock x = None → length (c_shootdown x) = Z.to_nat TLBSHOOTDOWN_MAX →
  let queued := cp_ipi (Z.lor (c_ipi_pending x) (Z.shiftl 1 IPI_TLBSHOOTDOWN)) in
  (0 ≤ c_numshootdown x < TLBSHOOTDOWN_MAX →
     ∃ sd, ipi_tlbshootdown me c mapping s =
       Done (tt, upd_cpus <[c := queued sd (c_numshootdown x + 1) true x]> s) ∧
       length sd = length (c_shootdown x) ∧ sd !! Z.to_nat (c_numshootdown x) = Some mapping ∧
       ∀ i, i ≠ Z.to_nat (c_numshootdown x) → sd !! i = c_shootdown x !! i) ∧
  (c_numshootdown x = TLBSHOOTDOWN_MAX →
     ipi_tlbshootdown me c mapping s =
       Done (tt, upd_cpus <[c := queued (c_shootdown x) TLBSHOOTDOWN_ALL true x]> s)) ∧
  (c_numshootdown x = TLBSHOOTDOWN_ALL → ipi_tlbshootdown me c mapping s = Undef).
Proof.
  destruct s as [h T a C W P r]. simpl. intros Hx Hi Hlen.
  set (x1 := cp_ipilock (Some me) x). pose proof (lookup_cpu_same C c x x1 Hx) as Hx1.
  assert (Hfin : ∀ z sd n, z = cp_ipi (c_ipi_pending x1) sd n (c_ipi_line x1) x1 →
    (set_cpu c (λ c, cp_ipi (Z.lor (c_ipi_pending c) (Z.shiftl 1 IPI_TLBSHOOTDOWN)) (c_shootdown c) (c_numshootdown c) true c) ;;
     ipi_release me c) (Sys h T a (<[c := z]> C) W P r) =
    Done (tt, Sys h T a (<[c := cp_ipi (Z.lor (c_ipi_pending x) (Z.shiftl 1 IPI_TLBSHOOTDOWN)) sd n true x]> C) W P r)).
  { intros z sd n ->. set (z := cp_ipi _ _ _ _ x1). kgo (run_set_cpu h T a _ W P r c z _ (lookup_cpu_same C c x z Hx)). rewrite insert_twice.
    set (z1 := cp_ipi _ _ _ _ z). unfold ipi_release. kgo (run_the_cpu h T a _ W P r c z1 (lookup_cpu_same C c x z1 Hx)).
    unfold spin_put. rewrite step_assert by (by rewrite bool_decide_true).
    rewrite (run_set_cpu h T a _ W P r c z1 _ (lookup_cpu_same C c x z1 Hx)). rewrite insert_twice.
    do 4 f_equal. unfold z1, z, x1. destruct x. simpl in *. by subst. }
  unfold ipi_tlbshootdown, ipi_acquire. ksteps. kgo (run_the_cpu h T a C W P r c x Hx). rewrite Hi. cbn [spin_get]. ksteps.
  kgo (run_set_cpu h T a C W P r c x _ Hx). fold x1. kgo (run_the_cpu h T a _ W P r c x1 Hx1).
  change (c_numshootdown x1) with (c_numshootdown x). unfold upd_cpus. cbn [s_heap s_threads s_allcpus s_cpus s_wchans s_procs s_runprogram]. split_and!.
  - intros Hn. rewrite (proj2 (Z.eqb_neq _ _)) by lia. rewrite (proj2 (Z.leb_le 0 _)), (proj2 (Z.ltb_lt _ TLBSHOOTDOWN_MAX)) by lia. cbn [andb].
    exists (<[Z.to_nat (c_numshootdown x) := mapping]> (c_shootdown x)). split_and!.
    + kgo (run_set_cpu h T a _ W P r c x1 _ Hx1). rewrite insert_twice. by apply Hfin.
    + apply length_insert.
    + apply list_lookup_insert_eq. rewrite Hlen. lia.
    + intros i Hi'. by rewrite list_lookup_insert_ne.
  - intros ->. rewrite Z.eqb_refl. kgo (run_set_cpu h T a _ W P r c x1 _ Hx1). rewrite insert_twice. by apply Hfin.
  - intros ->. done.
Qed.

(** Eighteen shootdowns in a row. *)
Definition shot_cpu : cpu :=
  Cpu 0 0 0 [] 0 false [] None 0 (replicate (Z.to_nat TLBSHOOTDOWN_MAX) (0, 0)) TLBSHOOTDOWN_ALL None false.

Lemma tlbshootdown_queue_witness :
  c_numshootdown shot_cpu = TLBSHOOTDOWN_ALL ∧
  ipi_tlbshootdown 0 0 (1, 2) (Sys (empty_refheap 0) ∅ array_init [shot_cpu] ∅ ∅ None) = Undef.
Proof.
  split; [reflexivity|].
  apply (tlbshootdown_queue (Sys (empty_refheap 0) ∅ array_init [shot_cpu] ∅ ∅ None) 0 0 shot_cpu (1, 2)); reflexivity.
Defined.
