(* ===== verification/PhysMem.v ===== *)
(** * Physical memory (kern/arch/mips/vm/ram.c, and the page functions of
      kern/vm/addrspace.c and kern/vm/vm.c)

    Physical memory is handed out in whole pages from a frontier that only
    moves up: [ram_stealmem] below [getppages] (which stops the machine when
    memory runs out) below [alloc_kpages].  [free_kpages] gives nothing back.
    The spinlock around the call in [getppages] is taken and released inside
    the function and leaves no trace in its result. *)

From stdpp Require Import base numbers list gmap fin_maps.
From Stdlib Require Import ZArith Lia.
From S2P Require Import Prelude.

Open Scope Z_scope.
Open Scope kernel_scope.

Definition PAGE_SIZE : Z := 4096.
Definition PAGE_FRAME : Z := 4294963200.       (* 0xfffff000 *)
Definition MIPS_KSEG0 : Z := 2147483648.       (* 0x80000000 *)
Definition MIPS_KSEG1 : Z := 2684354560.       (* 0xa0000000 *)

Definition PADDR_TO_KVADDR (paddr : Z) : Z := u32 (paddr + MIPS_KSEG0).

Record ram := Ram { firstpaddr : Z; lastpaddr : Z }.

(** [ramsize] is what [mainbus_ramsize] reports and [firstfree] the address
    start.S leaves behind. *)
Definition ram_bootstrap (ramsize firstfree : Z) : ram :=
  let ramsize := if 508 * 1024 * 1024 <? ramsize then 508 * 1024 * 1024 else ramsize in
  Ram (u32 (firstfree - MIPS_KSEG0)) ramsize.

Definition ram_stealmem (npages : Z) : K ram Z :=
  r <- kget ;;
  let size := u32 (npages * PAGE_SIZE) in
  if lastpaddr r <? u32 (firstpaddr r + size) then kret 0
  else
    kput (Ram (u32 (firstpaddr r + size)) (lastpaddr r)) ;;
    kret (firstpaddr r).

Definition ram_getsize : K ram (Z * Z) :=
  r <- kget ;;
  kput (Ram 0 0) ;;
  kret (firstpaddr r, lastpaddr r).

Definition getppages (npages : Z) : K ram Z :=
  pa <- ram_stealmem npages ;;
  if pa =? 0 then kpanic else kret pa.

Definition alloc_kpages (npages : Z) : K ram Z :=
  pa <- getppages npages ;;
  if pa =? 0 then kret 0 else kret (PADDR_TO_KVADDR pa).

Definition free_kpages (addr : Z) : K ram unit := kret tt.

(** ** The frontier *)

Section PageFrame.
Lemma page_frame_mask x : 0 ≤ x < 2 ^ 32 → Z.land x PAGE_FRAME = x / PAGE_SIZE * PAGE_SIZE.
Proof.
  intros Hx. change PAGE_FRAME with (Z.ldiff (Z.ones 32) (Z.ones 12)).
  change PAGE_SIZE with (2 ^ 12).
  rewrite <-Z.shiftr_div_pow2, <-Z.shiftl_mul_pow2 by lia.
  rewrite <-Z.ldiff_ones_r by lia. apply Z.bits_inj'. intros n Hn.
  rewrite Z.land_spec, !Z.ldiff_spec, (Z.testbit_ones _ n) by lia.
  rewrite (proj2 (Z.leb_le 0 n)) by lia.
  destruct (Z.ltb_spec n 32) as [?|Hhigh]; [by destruct (Z.testbit x n)|].
  rewrite <-(Z.mod_small x (2 ^ 32)) by lia.
  by rewrite Z.mod_pow2_bits_high by lia.
Qed.

Lemma page_offset_mask x : Z.land x (u32 (Z.lnot PAGE_FRAME)) = x mod PAGE_SIZE.
Proof. change (u32 (Z.lnot PAGE_FRAME)) with (Z.ones 12). by rewrite Z.land_ones. Qed.

Lemma page_frame_aligned x :
  0 ≤ x < 2 ^ 32 → x mod PAGE_SIZE = 0 → Z.land x PAGE_FRAME = x.
Proof. intros Hx Ha. rewrite page_frame_mask by done. pose proof (Z_div_mod_eq_full x PAGE_SIZE). lia. Qed.
End PageFrame.

(** What start.S and the mainbus guarantee and stealing keeps: page-aligned
    bounds, above the exception vectors and below 508 megabytes. *)
Record ram_ok (r : ram) : Prop := {
  ok_first : 0 < firstpaddr r ≤ lastpaddr r;
  ok_last : lastpaddr r ≤ 508 * 1024 * 1024;
  ok_align : firstpaddr r mod PAGE_SIZE = 0;
}.

Section Frontier.
Implicit Types (r : ram) (n : Z).

Lemma page_multiple a n : a mod PAGE_SIZE = 0 → (a + n * PAGE_SIZE) mod PAGE_SIZE = 0.
Proof. intros. rewrite Z.mod_add by done. done. Qed.

(** Up to 2^19 pages the size computation does not wrap. *)
Lemma stealmem_ok r n :
  ram_ok r → 0 ≤ n ≤ 2 ^ 19 →
  ram_stealmem n r =
  if decide (firstpaddr r + n * PAGE_SIZE ≤ lastpaddr r)
  then Done (firstpaddr r, Ram (firstpaddr r + n * PAGE_SIZE) (lastpaddr r))
  else Done (0, r).
Proof.
  intros [Hf Hl Ha] Hn. unfold ram_stealmem, kbind, kget, kput, kret, PAGE_SIZE in *.
  nowrap. case_decide.
  - by rewrite (proj2 (Z.ltb_ge _ _)) by lia.
  - by rewrite (proj2 (Z.ltb_lt _ _)) by lia.
Qed.

Lemma stolen_ok r n :
  ram_ok r → 0 ≤ n → firstpaddr r + n * PAGE_SIZE ≤ lastpaddr r →
  ram_ok (Ram (firstpaddr r + n * PAGE_SIZE) (lastpaddr r)).
Proof.
  intros [Hf Hl Ha] Hn Hle. unfold PAGE_SIZE in *.
  constructor; cbn; [lia|done|]. by apply page_multiple.
Qed.

Lemma getppages_ok r n :
  ram_ok r → 0 ≤ n ≤ 2 ^ 19 →
  getppages n r =
  if decide (firstpaddr r + n * PAGE_SIZE ≤ lastpaddr r)
  then Done (firstpaddr r, Ram (firstpaddr r + n * PAGE_SIZE) (lastpaddr r))
  else Panic.
Proof.
  intros Hr Hn. unfold getppages, kbind. rewrite stealmem_ok by done.
  destruct Hr as [Hf _ _]. case_decide; [|done].
  by rewrite (proj2 (Z.eqb_neq _ _)) by lia.
Qed.

Lemma alloc_kpages_ok r n :
  ram_ok r → 0 ≤ n ≤ 2 ^ 19 →
  alloc_kpages n r =
  if decide (firstpaddr r + n * PAGE_SIZE ≤ lastpaddr r)
  then Done (firstpaddr r + MIPS_KSEG0, Ram (firstpaddr r + n * PAGE_SIZE) (lastpaddr r))
  else Panic.
Proof.
  intros Hr Hn. unfold alloc_kpages, kbind. rewrite getppages_ok by done.
  pose proof Hr as [Hf Hl _]. case_decide; [|done].
  rewrite (proj2 (Z.eqb_neq _ _)) by lia.
  unfold PADDR_TO_KVADDR, MIPS_KSEG0, kret. by nowrap.
Qed.
End Frontier.

(** A sequence of requests, as the kernel makes them one after the other. *)
Fixpoint steal_all (ns : list Z) : K ram (list Z) :=
  match ns with
  | [] => kret []
  | n :: ns =>
      pa <- getppages n ;;
      pas <- steal_all ns ;;
      kret (pa :: pas)
  end.

(** The physical range of a request. *)
Definition in_range (x : Z * Z) (a : Z) : Prop := x.1 ≤ a < x.1 + x.2 * PAGE_SIZE.

Section Requests.
Implicit Types (r : ram).

Lemma steal_all_ok ns r pas r' :
  ram_ok r → Forall (λ n, 0 ≤ n ≤ 2 ^ 19) ns → steal_all ns r = Done (pas, r') →
  ram_ok r' ∧ lastpaddr r' = lastpaddr r ∧ length pas = length ns ∧
  Forall (λ x, x.1 mod PAGE_SIZE = 0 ∧ firstpaddr r ≤ x.1 ∧
               x.1 + x.2 * PAGE_SIZE ≤ firstpaddr r') (zip pas ns) ∧
  firstpaddr r ≤ firstpaddr r'.
Proof.
  intros Hr Hns. revert r pas Hr. induction Hns as [|n ns Hn Hns IH]; intros r pas Hr Hrun.
  { cbn [steal_all] in Hrun. kinv Hrun. by split_and!. }
  cbn [steal_all] in Hrun. kinv Hrun. rewrite getppages_ok in Hrun0 by done.
  case_decide; [|done]. simplify_eq.
  pose proof (stolen_ok r n Hr (proj1 Hn) ltac:(done)) as Hr1.
  destruct (IH _ _ Hr1 Hrun1) as (Hr' & Hl & Hlen & Hall & Hmono). cbn in Hmono, Hl.
  unfold PAGE_SIZE in *. split_and!; [done|done|by simpl; f_equal| |lia].
  cbn [zip zip_with]. constructor.
  - split_and!; cbn; [apply Hr|lia|lia].
  - eapply Forall_impl; [exact Hall|]. intros x (? & ? & ?). cbn in *. split_and!; lia || done.
Qed.

Lemma steal_all_disjoint ns r pas r' :
  ram_ok r → Forall (λ n, 0 ≤ n ≤ 2 ^ 19) ns → steal_all ns r = Done (pas, r') →
  ∀ i j x y a, i ≠ j → zip pas ns !! i = Some x → zip pas ns !! j = Some y →
    in_range x a → ¬ in_range y a.
Proof.
  intros Hr Hns. revert r pas Hr. induction Hns as [|n ns Hn Hns IH]; intros r pas Hr Hrun.
  { cbn [steal_all] in Hrun. kinv Hrun. by intros []. }
  cbn [steal_all] in Hrun. kinv Hrun. rewrite getppages_ok in Hrun0 by done.
  case_decide; [|done]. simplify_eq.
  pose proof (stolen_ok r n Hr (proj1 Hn) ltac:(done)) as Hr1.
  destruct (steal_all_ok ns _ _ _ Hr1 Hns Hrun1) as (_ & _ & _ & Hall & _).
  assert (Hlater : ∀ k z, zip a0 ns !! k = Some z → firstpaddr r + n * PAGE_SIZE ≤ z.1).
  { intros k z Hz. eapply Forall_lookup_1 in Hall; [|done]. apply Hall. }
  intros [|i] [|j] x y a Hij Hx Hy; cbn in Hx, Hy; unfold in_range; [done|..].
  - simplify_eq. cbn. apply Hlater in Hy. lia.
  - simplify_eq. cbn. apply Hlater in Hx. lia.
  - eapply (IH _ _ Hr1 Hrun1 i j x y a); [congruence|done..].
Qed.
End Requests.

(** ** The component's theorems *)

(** C30. Pages are never handed out twice: however the requests come, the
    ranges [getppages] returns are page aligned, lie between the frontier and
    the end of memory, and are pairwise disjoint; the frontier only moves up. *)
Theorem getppages_disjoint ns r pas r' :
  ram_ok r → Forall (λ n, 0 ≤ n ≤ 2 ^ 19) ns → steal_all ns r = Done (pas, r') →
  ram_ok r' ∧ lastpaddr r' = lastpaddr r ∧ length pas = length ns ∧
  Forall (λ x, x.1 mod PAGE_SIZE = 0 ∧ firstpaddr r ≤ x.1 ∧
               x.1 + x.2 * PAGE_SIZE ≤ lastpaddr r) (zip pas ns) ∧
  ∀ i j x y a, i ≠ j → zip pas ns !! i = Some x → zip pas ns !! j = Some y →
    in_range x a → ¬ in_range y a.
Proof.
  intros Hr Hns Hrun.
  destruct (steal_all_ok ns r pas r' Hr Hns Hrun) as (Hr' & Hl & Hlen & Hall & _).
  split_and!; [done..| |exact (steal_all_disjoint ns r pas r' Hr Hns Hrun)].
  eapply Forall_impl; [exact Hall|]. intros x (? & ? & ?).
  pose proof (ok_first _ Hr'). split_and!; [done..|lia].
Qed.

Lemma getppages_disjoint_witness :
  ∃ pas r', steal_all [1; 3] (Ram 4096 1048576) = Done (pas, r') ∧
    ¬ in_range (8192, 3) 4096.
Proof.
  pose proof (getppages_disjoint [1; 3] (Ram 4096 1048576) [4096; 8192] (Ram 20480 1048576)
    ltac:(constructor; cbn; [lia|lia|reflexivity])
    ltac:(repeat constructor; lia) ltac:(reflexivity)) as (_ & _ & _ & _ & Hd).
  exists [4096; 8192], (Ram 20480 1048576). split; [reflexivity|].
  apply (Hd 0%nat 1%nat (4096, 1) (8192, 3) 4096); [done|reflexivity|reflexivity|].
  unfold in_range, PAGE_SIZE. cbn. lia.
Defined.
