(* ===== verification/Kmalloc.v ===== *)
(** * The kernel allocator (kern/vm/kmalloc.c): model

    A pool allocator: one page at a time is cut into blocks of one of eight
    sizes; the free blocks of a page form a list threaded through the blocks
    themselves, and page references (at most 256) record for each page its
    address, block size, free-list head and free count.  Requests of 2048
    bytes and more get whole pages.

    [kheap] holds the C globals: the page references and their bitmap, the
    list heads by size and overall, the words of memory, and the physical page
    frontier below.  [kh_big] is not in the program: it records the whole-page
    blocks that are out and their lengths in pages, for the specification only;
    no operation looks at it.
    The functions run under [kmalloc_spinlock]; the sequential model has one
    caller at a time, as the lock gives. *)

From stdpp Require Import base numbers list gmap fin_maps.
From Stdlib Require Import ZArith Lia.
From S2P Require Import Prelude PhysMem.

Open Scope Z_scope.
Open Scope kernel_scope.

Definition NSIZES : nat := 8.
Definition sizes : list Z := [16; 32; 64; 128; 256; 512; 1024; 2048].
Definition LARGEST_SUBPAGE_SIZE : Z := 2048.

Record pageref := Pageref {
  next_samesize : option nat;
  next_all : option nat;
  pageaddr_and_blocktype : Z;
  freelist_offset : Z;
  nfree : Z;
}.

Definition set_next_samesize (x : option nat) (p : pageref) : pageref :=
  Pageref x (next_all p) (pageaddr_and_blocktype p) (freelist_offset p) (nfree p).
Definition set_next_all (x : option nat) (p : pageref) : pageref :=
  Pageref (next_samesize p) x (pageaddr_and_blocktype p) (freelist_offset p) (nfree p).
Definition set_pab (x : Z) (p : pageref) : pageref :=
  Pageref (next_samesize p) (next_all p) x (freelist_offset p) (nfree p).
Definition set_offset (x : Z) (p : pageref) : pageref :=
  Pageref (next_samesize p) (next_all p) (pageaddr_and_blocktype p) x (nfree p).
Definition set_nfree (x : Z) (p : pageref) : pageref :=
  Pageref (next_samesize p) (next_all p) (pageaddr_and_blocktype p) (freelist_offset p) x.

Definition INVALID_OFFSET : Z := 65535.
Definition PR_PAGEADDR (pr : pageref) : Z := Z.land (pageaddr_and_blocktype pr) PAGE_FRAME.
Definition PR_BLOCKTYPE (pr : pageref) : Z :=
  Z.land (pageaddr_and_blocktype pr) (u32 (Z.lnot PAGE_FRAME)).
Definition MKPAB (pa blk : Z) : Z :=
  Z.lor (Z.land pa PAGE_FRAME) (Z.land blk (u32 (Z.lnot PAGE_FRAME))).

(** PAGE_SIZE / sizeof(struct pageref), and the words of its bitmap. *)
Definition NPAGEREFS : Z := 256.
Definition INUSE_WORDS : Z := 8.

Record kheap := Kheap {
  kh_pagerefs : list pageref;
  kh_inuse : list Z;
  kh_sizebases : list (option nat);
  kh_allbase : option nat;
  kh_mem : gmap Z Z;
  kh_ram : ram;
  kh_big : gmap Z Z;
}.

Definition set_pagerefs (x : list pageref) (h : kheap) : kheap :=
  Kheap x (kh_inuse h) (kh_sizebases h) (kh_allbase h) (kh_mem h) (kh_ram h) (kh_big h).
Definition set_inuse (x : list Z) (h : kheap) : kheap :=
  Kheap (kh_pagerefs h) x (kh_sizebases h) (kh_allbase h) (kh_mem h) (kh_ram h) (kh_big h).
Definition set_sizebases (x : list (option nat)) (h : kheap) : kheap :=
  Kheap (kh_pagerefs h) (kh_inuse h) x (kh_allbase h) (kh_mem h) (kh_ram h) (kh_big h).
Definition set_allbase (x : option nat) (h : kheap) : kheap :=
  Kheap (kh_pagerefs h) (kh_inuse h) (kh_sizebases h) x (kh_mem h) (kh_ram h) (kh_big h).
Definition set_mem (x : gmap Z Z) (h : kheap) : kheap :=
  Kheap (kh_pagerefs h) (kh_inuse h) (kh_sizebases h) (kh_allbase h) x (kh_ram h) (kh_big h).
Definition set_ram (x : ram) (h : kheap) : kheap :=
  Kheap (kh_pagerefs h) (kh_inuse h) (kh_sizebases h) (kh_allbase h) (kh_mem h) x (kh_big h).
Definition set_big (x : gmap Z Z) (h : kheap) : kheap :=
  Kheap (kh_pagerefs h) (kh_inuse h) (kh_sizebases h) (kh_allbase h) (kh_mem h) (kh_ram h) x.

Definition get_pr (i : nat) : K kheap pageref :=
  h <- kget ;; kderef (kh_pagerefs h !! i).
Definition upd_pr (i : nat) (f : pageref → pageref) : K kheap unit :=
  _ <- get_pr i ;;
  kmodify (λ h, set_pagerefs (alter f i (kh_pagerefs h)) h).

(** A word of memory; reading one nobody wrote is undefined. *)
Definition load (a : Z) : K kheap Z := h <- kget ;; kderef (kh_mem h !! a).
Definition store (a x : Z) : K kheap unit :=
  kmodify (λ h, set_mem (<[a := x]> (kh_mem h)) h).

(** [sizes[blk]]. *)
Definition size_of (blk : Z) : K kheap Z := kderef (sizes !! Z.to_nat blk).

Definition on_ram {A} (c : K ram A) : K kheap A := kzoom kh_ram set_ram c.

(** [for (i=0; i<len/sizeof(uint32_t); i++) ptr[i] = 0xdeadbeef]. *)
Fixpoint fill_words (ptr : Z) (ixs : list Z) : K kheap unit :=
  match ixs with
  | [] => kret tt
  | i :: ixs => store (u32 (ptr + 4 * i)) 3735928559 ;; fill_words ptr ixs
  end.
Definition fill_deadbeef (ptr len : Z) : K kheap unit := fill_words ptr (seqZ 0 (len / 4)).

(** ** Page references *)

(** [for (k=1,j=0; k!=0; k<<=1,j++)]: the 32 bits of one word. *)
Fixpoint scan_inuse (i : Z) (js : list Z) : K kheap (option nat) :=
  match js with
  | [] => kret None
  | j :: js =>
      h <- kget ;;
      w <- kderef (kh_inuse h !! Z.to_nat i) ;;
      let k := u32 (Z.shiftl 1 j) in
      if Z.land w k =? 0 then
        kput (set_inuse (<[Z.to_nat i := Z.lor w k]> (kh_inuse h)) h) ;;
        kret (Some (Z.to_nat (i * 32 + j)))
      else scan_inuse i js
  end.

Fixpoint scan_inuse_words (ixs : list Z) : K kheap (option nat) :=
  match ixs with
  | [] => kret None
  | i :: ixs =>
      h <- kget ;;
      w <- kderef (kh_inuse h !! Z.to_nat i) ;;
      if w =? 4294967295 then scan_inuse_words ixs
      else
        r <- scan_inuse i (seqZ 0 32) ;;
        match r with
        | Some p => kret (Some p)
        | None => kpanic (* KASSERT(0) *)
        end
  end.

Definition allocpageref : K kheap (option nat) := scan_inuse_words (seqZ 0 INUSE_WORDS).

Definition freepageref (p : nat) : K kheap unit :=
  let j := Z.of_nat p in
  kassert (j <? NPAGEREFS) ;;
  let i := j / 32 in
  let k := u32 (Z.shiftl 1 (j mod 32)) in
  h <- kget ;;
  w <- kderef (kh_inuse h !! Z.to_nat i) ;;
  kassert (negb (Z.land w k =? 0)) ;;
  kput (set_inuse (<[Z.to_nat i := Z.land w (u32 (Z.lnot k))]> (kh_inuse h)) h).

(** ** The lists of pages

    A [struct pageref **]: a base, or the link field of a page reference. *)
Inductive linkref :=
  | SizeBase (b : nat) | AllBase | NextSame (i : nat) | NextAll (i : nat).

Definition rd (r : linkref) (h : kheap) : option (option nat) :=
  match r with
  | SizeBase b => kh_sizebases h !! b
  | AllBase => Some (kh_allbase h)
  | NextSame i => next_samesize <$> kh_pagerefs h !! i
  | NextAll i => next_all <$> kh_pagerefs h !! i
  end.
Definition wr (r : linkref) (x : option nat) (h : kheap) : kheap :=
  match r with
  | SizeBase b => set_sizebases (<[b := x]> (kh_sizebases h)) h
  | AllBase => set_allbase x h
  | NextSame i => set_pagerefs (alter (set_next_samesize x) i (kh_pagerefs h)) h
  | NextAll i => set_pagerefs (alter (set_next_all x) i (kh_pagerefs h)) h
  end.

Definition read_link (r : linkref) : K kheap (option nat) :=
  h <- kget ;; kderef (rd r h).
Definition write_link (r : linkref) (x : option nat) : K kheap unit :=
  _ <- read_link r ;; kmodify (wr r x).

(** A list has at most [NPAGEREFS] elements; the fuel is one more. *)
Definition list_fuel : nat := 257.

(** The two loops of [remove_lists]: [next] names the link field that the loop
    follows, [guy] points to the link looked at. *)
Fixpoint unlink (fuel : nat) (next : nat → linkref) (guy : linkref) (pr : nat)
    : K kheap unit :=
  match fuel with
  | O => khang
  | S fuel =>
      g <- read_link guy ;;
      match g with
      | None => kret tt
      | Some g =>
          if (g =? pr)%nat then
            n <- read_link (next pr) ;;
            write_link guy n
          else unlink fuel next (next g) pr
      end
  end.

Definition remove_lists (pr : nat) (blktype : Z) : K kheap unit :=
  kassert ((0 <=? blktype) && (blktype <? Z.of_nat NSIZES)) ;;
  unlink list_fuel NextSame (SizeBase (Z.to_nat blktype)) pr ;;
  unlink list_fuel NextAll AllBase pr.

(** [for (i=0; i<NSIZES; i++) if (sz <= sizes[i]) return i], else panic. *)
Fixpoint blocktype_from (i : Z) (ss : list Z) (sz : Z) : K kheap Z :=
  match ss with
  | [] => kpanic
  | s :: ss => if sz <=? s then kret i else blocktype_from (i + 1) ss sz
  end.
Definition blocktype (sz : Z) : K kheap Z := blocktype_from 0 sizes sz.

(** ** Allocation *)

(** The code at the label [doalloc]. *)
Definition doalloc (pr : nat) : K kheap Z :=
  p <- get_pr pr ;;
  kassert (freelist_offset p <? PAGE_SIZE) ;;
  let prpage := PR_PAGEADDR p in
  let retptr := u32 (prpage + freelist_offset p) in
  fl <- load retptr ;;
  upd_pr pr (set_nfree (u16 (nfree p - 1))) ;;
  p <- get_pr pr ;;
  if negb (fl =? 0) then
    kassert (0 <? nfree p) ;;
    kassert (u32 (fl - prpage) <? PAGE_SIZE) ;;
    upd_pr pr (set_offset (u16 (u32 (fl - prpage)))) ;;
    kret retptr
  else
    kassert (nfree p =? 0) ;;
    upd_pr pr (set_offset INVALID_OFFSET) ;;
    kret retptr.

(** [for (pr = sizebases[blktype]; pr != NULL; pr = pr->next_samesize)]: the
    first page of the size with a free block. *)
Fixpoint find_page (fuel : nat) (blktype : Z) (pr : option nat) : K kheap (option nat) :=
  match fuel with
  | O => khang
  | S fuel =>
      match pr with
      | None => kret None
      | Some i =>
          p <- get_pr i ;;
          kassert (PR_BLOCKTYPE p =? blktype) ;;
          if 0 <? nfree p then kret (Some i)
          else find_page fuel blktype (next_samesize p)
      end
  end.

(** The loop that threads the free list through a new page; the result is the
    last block, which heads the list. *)
Fixpoint thread_blocks (fla sz : Z) (ixs : list Z) (fl : Z) : K kheap Z :=
  match ixs with
  | [] => kret fl
  | i :: ixs =>
      let fl := u32 (fla + i * sz) in
      let next := u32 (fla + (i - 1) * sz) in
      store fl next ;;
      kassert (negb (fl =? next)) ;;
      thread_blocks fla sz ixs fl
  end.

(** From the allocation of a page to the [goto]. *)
Definition new_page (blktype : Z) : K kheap (option Z) :=
  prpage <- on_ram (alloc_kpages 1) ;;
  if prpage =? 0 then kret None
  else
    pr <- allocpageref ;;
    match pr with
    | None => on_ram (free_kpages prpage) ;; kret None
    | Some pr =>
        sz <- size_of blktype ;;
        upd_pr pr (set_pab (MKPAB prpage blktype)) ;;
        upd_pr pr (set_nfree (u16 (PAGE_SIZE / sz))) ;;
        p <- get_pr pr ;;
        store prpage 0 ;;
        fl <- thread_blocks prpage sz (seqZ 1 (nfree p - 1)) prpage ;;
        upd_pr pr (set_offset (u16 (u32 (fl - prpage)))) ;;
        p <- get_pr pr ;;
        kassert (freelist_offset p =? u32 ((nfree p - 1) * sz)) ;;
        base <- read_link (SizeBase (Z.to_nat blktype)) ;;
        write_link (NextSame pr) base ;;
        write_link (SizeBase (Z.to_nat blktype)) (Some pr) ;;
        base <- read_link AllBase ;;
        write_link (NextAll pr) base ;;
        write_link AllBase (Some pr) ;;
        a <- doalloc pr ;;
        kret (Some a)
    end.

Definition subpage_kmalloc (sz : Z) : K kheap (option Z) :=
  blktype <- blocktype sz ;;
  base <- read_link (SizeBase (Z.to_nat blktype)) ;;
  pr <- find_page list_fuel blktype base ;;
  match pr with
  | Some pr => a <- doalloc pr ;; kret (Some a)
  | None => new_page blktype
  end.

Definition kmalloc (sz : Z) : K kheap (option Z) :=
  if LARGEST_SUBPAGE_SIZE <=? sz then
    let npages := u32 (u32 (sz + PAGE_SIZE) - 1) / PAGE_SIZE in
    address <- on_ram (alloc_kpages npages) ;;
    if address =? 0 then kret None
    else
      kmodify (λ h, set_big (<[address := npages]> (kh_big h)) h) ;;
      kret (Some address)
  else subpage_kmalloc sz.

(** ** Freeing *)

(** [for (pr = allbase; pr; pr = pr->next_all)]: the page the address is on,
    with its address and block type. *)
Fixpoint find_owner (fuel : nat) (ptraddr : Z) (pr : option nat)
    : K kheap (option (nat * Z * Z)) :=
  match fuel with
  | O => khang
  | S fuel =>
      match pr with
      | None => kret None
      | Some i =>
          p <- get_pr i ;;
          let prpage := PR_PAGEADDR p in
          let blktype := PR_BLOCKTYPE p in
          kassert ((0 <=? blktype) && (blktype <? Z.of_nat NSIZES)) ;;
          if (prpage <=? ptraddr) && (ptraddr <? u32 (prpage + PAGE_SIZE))
          then kret (Some (i, prpage, blktype))
          else find_owner fuel ptraddr (next_all p)
      end
  end.

(** [true] when the block was one of ours (the C function returns 0), [false]
    when it is on none of the pages (-1). *)
Definition subpage_kfree (ptraddr : Z) : K kheap bool :=
  base <- read_link AllBase ;;
  o <- find_owner list_fuel ptraddr base ;;
  match o with
  | None => kret false
  | Some (pr, prpage, blktype) =>
      let offset := u32 (ptraddr - prpage) in
      sz <- size_of blktype ;;
      if (PAGE_SIZE <=? offset) || negb (offset mod sz =? 0) then kpanic
      else
        fill_deadbeef ptraddr sz ;;
        let fla := u32 (prpage + offset) in
        p <- get_pr pr ;;
        store fla (if freelist_offset p =? INVALID_OFFSET then 0
                   else u32 (prpage + freelist_offset p)) ;;
        upd_pr pr (set_offset (u16 offset)) ;;
        upd_pr pr (set_nfree (u16 (nfree p + 1))) ;;
        p <- get_pr pr ;;
        kassert (nfree p <=? PAGE_SIZE / sz) ;;
        (if nfree p =? PAGE_SIZE / sz then
           remove_lists pr blktype ;;
           freepageref pr ;;
           on_ram (free_kpages prpage)
         else kret tt) ;;
        kret true
  end.

Definition kfree (ptr : option Z) : K kheap unit :=
  match ptr with
  | None => kret tt
  | Some ptr =>
      r <- subpage_kfree ptr ;;
      if (r : bool) then kret tt
      else
        kassert (ptr mod PAGE_SIZE =? 0) ;;
        on_ram (free_kpages ptr) ;;
        kmodify (λ h, set_big (delete ptr (kh_big h)) h)
  end.

(** The state the kernel starts with: no page in use. *)
Definition kheap_init (r : ram) : kheap :=
  Kheap (replicate 256 (Pageref None None 0 0 0)) (replicate 8 0) (replicate 8 None)
        None ∅ r ∅.
