(* ===== verification/KmallocSpec.v ===== *)
(** * The kernel allocator: what it promises

    [kh_rep h pgs] ties the concrete heap to its abstract contents: the pages
    in use, each with its address, block size and the list of its free blocks.
    The operations of [Kmalloc] are proved to act on the abstract pages, and
    the allocator is shown to be an instance of the [KernelHeap] interface the
    other components are proved against. *)

From stdpp Require Import base numbers list gmap fin_maps.
From Stdlib Require Import ZArith Lia.
From S2P Require Import Prelude PhysMem KernelHeap Kmalloc.

Open Scope Z_scope.
Open Scope kernel_scope.

(** ** Links and chains *)

#[global] Instance linkref_eq_dec : EqDecision linkref.
Proof. solve_decision. Defined.

(** The part of a page reference that is not a link. *)
Definition pdata (h : kheap) (i : nat) : option (Z * Z * Z) :=
  (λ p, (pageaddr_and_blocktype p, freelist_offset p, nfree p)) <$> kh_pagerefs h !! i.

(** The list that starts at the link [guy]. *)
Fixpoint chain (h : kheap) (next : nat → linkref) (guy : linkref) (l : list nat) : Prop :=
  match l with
  | [] => rd guy h = Some None
  | i :: l => rd guy h = Some (Some i) ∧ chain h next (next i) l
  end.

Section Links.
Implicit Types (h : kheap) (r : linkref).

Lemma rd_wr r r' x h :
  rd r (wr r' x h) = if decide (r = r') then (λ _, x) <$> rd r h else rd r h.
Proof.
  destruct r as [b| |i|i], r' as [b'| |j|j]; simpl; try done;
    rewrite ?list_lookup_alter, ?list_lookup_insert; repeat case_decide; simplify_eq;
    try done; try (by destruct (kh_pagerefs h !! _)).
  - destruct (kh_sizebases h !! b') eqn:E; [done|]. apply lookup_ge_None in E. lia.
  - naive_solver.
  - destruct (kh_sizebases h !! b') eqn:E; [|done]. apply lookup_lt_Some in E. naive_solver lia.
Qed.

Lemma rd_wr_ne r r' x h : r ≠ r' → rd r (wr r' x h) = rd r h.
Proof. intros. rewrite rd_wr. by rewrite decide_False. Qed.
Lemma rd_wr_eq r x y h : rd r h = Some y → rd r (wr r x h) = Some x.
Proof. intros E. rewrite rd_wr, decide_True, E by done. done. Qed.

Lemma pdata_wr r x h i : pdata (wr r x h) i = pdata h i.
Proof.
  unfold pdata. destruct r; simpl; try done;
    rewrite list_lookup_alter; case_decide; subst; try done; by destruct (kh_pagerefs h !! i).
Qed.

Lemma read_link_run r x h : rd r h = Some x → read_link r h = Done (x, h).
Proof. intros E. unfold read_link. ksteps. by rewrite E. Qed.
Lemma write_link_run r x y h : rd r h = Some y → write_link r x h = Done (tt, wr r x h).
Proof. intros E. unfold write_link. by kcall (read_link_run _ _ _ E). Qed.

Lemma chain_ext h h' next guy l :
  (∀ r, r = guy ∨ (∃ i, i ∈ l ∧ r = next i) → rd r h' = rd r h) →
  chain h next guy l → chain h' next guy l.
Proof.
  revert guy. induction l as [|i l IH]; intros guy Hr; simpl.
  { by rewrite Hr by auto. }
  intros [Hg Hl]. split; [by rewrite Hr by auto|]. apply IH; [|done].
  intros r [->|(j & ? & ->)]; apply Hr; right; eauto using list_elem_of_here, list_elem_of_further.
Qed.

Lemma chain_frame h next guy l r x :
  r ≠ guy → (∀ i, i ∈ l → r ≠ next i) →
  chain h next guy l → chain (wr r x h) next guy l.
Proof.
  intros Hg Hl. apply chain_ext. intros r' [->|(i & Hi & ->)]; apply rd_wr_ne;
    [done|]. intros E. by apply (Hl i Hi).
Qed.

Lemma chain_base h next guy l : chain h next guy l → rd guy h = Some (head l).
Proof. destruct l; simpl; [done|]. by intros [-> _]. Qed.

(** Unlinking a member writes one link of the chain. *)
Lemma unlink_ok h next guy l1 pr l2 fuel :
  Inj (=) (=) next → NoDup (l1 ++ pr :: l2) →
  (∀ i, i ∈ l1 ++ pr :: l2 → guy ≠ next i) →
  chain h next guy (l1 ++ pr :: l2) → (length l1 < fuel)%nat →
  ∃ r x, unlink fuel next guy pr h = Done (tt, wr r x h) ∧
    (r = guy ∨ ∃ i, i ∈ l1 ∧ r = next i) ∧
    chain (wr r x h) next guy (l1 ++ l2).
Proof.
  intros Hinj. revert guy fuel.
  induction l1 as [|i l1 IH]; intros guy [|fuel] Hnd Hne Hc Hf; simpl in Hf; try lia.
  - destruct Hc as [Hg Hc]. exists guy, (head l2). cbn [unlink].
    kcall (read_link_run _ _ _ Hg). rewrite Nat.eqb_refl.
    kcall (read_link_run _ _ _ (chain_base _ _ _ _ Hc)).
    rewrite (write_link_run _ _ _ _ Hg). split; [done|]. split; [by left|]. simpl.
    destruct l2 as [|j l2]; simpl; [by eapply rd_wr_eq|].
    split; [by eapply rd_wr_eq|]. destruct Hc as [_ Hc]. apply chain_frame; [| |done].
    + apply Hne. set_solver.
    + intros k Hk. apply Hne. set_solver.
  - destruct Hc as [Hg Hc]. simpl in *. apply NoDup_cons in Hnd as [Hi Hnd].
    destruct (IH (next i) fuel) as (r & x & Hrun & Hr & Hc'); [done| |done|lia|].
    { intros k Hk E. apply Hinj in E as ->. done. }
    exists r, x. cbn [unlink]. kcall (read_link_run _ _ _ Hg).
    rewrite (proj2 (Nat.eqb_neq i pr)) by (intros ->; set_solver).
    split; [done|]. split.
    { right. destruct Hr as [->|(k & ? & ->)]; [exists i|exists k]; set_solver. }
    simpl. split; [|done]. rewrite rd_wr_ne; [done|].
    destruct Hr as [->|(k & Hk & ->)]; apply Hne; set_solver.
Qed.
End Links.

(** ** The bitmap of page references in use *)

Definition inuse_bit (w : list Z) (j : nat) : bool :=
  match w !! (j / 32)%nat with
  | Some x => Z.testbit x (Z.of_nat j mod 32)
  | None => false
  end.

Definition inuse_wf (w : list Z) : Prop := length w = 8%nat ∧ Forall (λ x, 0 ≤ x < 2 ^ 32) w.

Section Inuse.
Implicit Types (h : kheap) (w : list Z) (j p : nat).

Lemma inuse_bit_insert w i x j :
  (i < length w)%nat →
  inuse_bit (<[i := x]> w) j =
  if decide ((j / 32)%nat = i) then Z.testbit x (Z.of_nat j mod 32) else inuse_bit w j.
Proof.
  intros Hi. unfold inuse_bit. rewrite list_lookup_insert.
  case_decide as H1; case_decide as H2; try done; naive_solver.
Qed.

Lemma nat_divmod j : (j = 32 * (j / 32) + j mod 32)%nat ∧ (j mod 32 < 32)%nat ∧
  Z.of_nat j mod 32 = Z.of_nat (j mod 32).
Proof.
  pose proof (Nat.div_mod_eq j 32). pose proof (Nat.mod_upper_bound j 32).
  split_and!; [lia|lia|]. by rewrite Nat2Z.inj_mod.
Qed.

Lemma same_index j p : (j / 32 = p / 32)%nat → (Z.of_nat j mod 32 =? Z.of_nat p mod 32) = (j =? p)%nat.
Proof.
  intros E. pose proof (nat_divmod j) as (? & ? & ->). pose proof (nat_divmod p) as (? & ? & ->).
  destruct (Nat.eqb_spec j p) as [->|?]; [by rewrite Z.eqb_refl|]. apply Z.eqb_neq. lia.
Qed.

Lemma not_full x : 0 ≤ x < 2 ^ 32 → (x =? 4294967295) = false → ∃ k, 0 ≤ k < 32 ∧ Z.testbit x k = false.
Proof.
  intros Hx Hne%Z.eqb_neq.
  destruct (decide (Exists (λ k, Z.testbit x k = false) (seqZ 0 32))) as [Hex|Hall].
  - apply Exists_exists in Hex as (k & Hk%elem_of_seqZ & ?). exists k. split; [lia|done].
  - exfalso. apply Hne. change 4294967295 with (Z.ones 32). apply Z.bits_inj'. intros n Hn.
    rewrite Z.testbit_ones_nonneg by lia. destruct (Z.ltb_spec n 32).
    + apply not_Exists_Forall in Hall; [|solve_decision]. rewrite Forall_forall in Hall.
      destruct (Z.testbit x n) eqn:E; [done|].
      destruct (Hall n); [apply elem_of_seqZ; lia|done].
    + rewrite <-(Z.mod_small x (2 ^ 32)) by lia. by rewrite Z.mod_pow2_bits_high by lia.
Qed.

Lemma shift_small k : 0 ≤ k < 32 → u32 (Z.shiftl 1 k) = Z.shiftl 1 k.
Proof.
  intros. apply u32_small. rewrite Z.shiftl_1_l. split; [lia|]. apply Z.pow_lt_mono_r; lia.
Qed.

Lemma word_setbit x k : 0 ≤ x < 2 ^ 32 → 0 ≤ k < 32 → 0 ≤ Z.lor x (Z.shiftl 1 k) < 2 ^ 32.
Proof.
  intros Hx Hk. rewrite Z.shiftl_1_l. assert (0 ≤ 2 ^ k < 2 ^ 32) by (split; [lia|apply Z.pow_lt_mono_r; lia]).
  split; [apply Z.lor_nonneg; lia|].
  destruct (decide (Z.lor x (2 ^ k) = 0)); [lia|].
  apply Z.log2_lt_pow2; [pose proof (Z.lor_nonneg x (2 ^ k)); lia|].
  rewrite Z.log2_lor by lia. apply Z.max_lub_lt.
  - destruct (decide (x = 0)) as [->|]; [done|]. apply Z.log2_lt_pow2; lia.
  - rewrite Z.log2_pow2 by lia. lia.
Qed.

Lemma word_land x y : 0 ≤ x < 2 ^ 32 → 0 ≤ y → 0 ≤ Z.land x y < 2 ^ 32.
Proof.
  intros Hx Hy. rewrite <-(Z.mod_small x (2 ^ 32)) by lia.
  rewrite <-Z.land_ones, <-Z.land_assoc, (Z.land_comm (Z.ones 32)), Z.land_assoc by lia.
  rewrite Z.land_ones by lia. apply Z.mod_pos_bound. lia.
Qed.

Lemma scan_inuse_ok h i x js :
  kh_inuse h !! i = Some x → Forall (λ k, 0 ≤ k < 32) js →
  Exists (λ k, Z.testbit x k = false) js →
  ∃ k, 0 ≤ k < 32 ∧ Z.testbit x k = false ∧
    scan_inuse (Z.of_nat i) js h =
      Done (Some (i * 32 + Z.to_nat k)%nat,
            set_inuse (<[i := Z.lor x (Z.shiftl 1 k)]> (kh_inuse h)) h).
Proof.
  intros Hi Hjs Hex. induction Hjs as [|k js Hk Hjs IH]; [by inversion Hex|].
  cbn [scan_inuse]. rewrite Nat2Z.id. ksteps. rewrite (step_lookup _ _ _ _ Hi).
  rewrite shift_small, land_bit_zero by lia.
  destruct (Z.testbit x k) eqn:Hb; simpl.
  - apply IH. apply Exists_cons in Hex as [?|?]; [congruence|done].
  - exists k. split_and!; [lia|lia|done|]. ksteps. unfold kret. do 3 f_equal. lia.
Qed.

Lemma inuse_word w i : inuse_wf w → (i < 8)%nat → ∃ x, w !! i = Some x ∧ 0 ≤ x < 2 ^ 32.
Proof.
  intros [Hl Hf] Hi. destruct (lookup_lt_is_Some_2 w i) as [x Hx]; [lia|].
  exists x. split; [done|]. by eapply Forall_lookup_1 in Hf.
Qed.

Lemma inuse_wf_insert w i x : inuse_wf w → 0 ≤ x < 2 ^ 32 → inuse_wf (<[i := x]> w).
Proof. intros [Hl Hf] Hx. split; [by rewrite length_insert|]. by apply Forall_insert. Qed.

(** What allocation of a page reference does to the bitmap. *)
Definition taken (w w' : list Z) p : Prop :=
  (p < 256)%nat ∧ inuse_bit w p = false ∧ inuse_wf w' ∧
  ∀ j, inuse_bit w' j = inuse_bit w j || (j =? p)%nat.

Lemma scan_inuse_words_ok h n i :
  inuse_wf (kh_inuse h) → (i + n = 8)%nat →
  (∃ p w', scan_inuse_words (seqZ (Z.of_nat i) (Z.of_nat n)) h = Done (Some p, set_inuse w' h) ∧
           taken (kh_inuse h) w' p) ∨
  (scan_inuse_words (seqZ (Z.of_nat i) (Z.of_nat n)) h = Done (None, h) ∧
   ∀ j, (32 * i ≤ j < 256)%nat → inuse_bit (kh_inuse h) j = true).
Proof.
  intros Hwf. revert i. induction n as [|n IH]; intros i Hn.
  { right. split; [done|]. intros j Hj. lia. }
  rewrite seqZ_cons by lia. cbn [scan_inuse_words].
  destruct (inuse_word _ i Hwf) as (x & Hx & Hr); [lia|].
  ksteps. rewrite Nat2Z.id, (step_lookup _ _ _ _ Hx).
  destruct (x =? 4294967295) eqn:Hfull.
  - replace (Z.succ (Z.of_nat i)) with (Z.of_nat (S i)) by lia.
    replace (Z.pred (Z.of_nat (S n))) with (Z.of_nat n) by lia.
    destruct (IH (S i)) as [Hs|[Hs Hall]]; [lia|by left|right]. split; [done|].
    intros j Hj. destruct (decide ((j / 32)%nat = i)) as [E|Hne].
    + unfold inuse_bit. rewrite E, Hx. apply Z.eqb_eq in Hfull as ->.
      change 4294967295 with (Z.ones 32). pose proof (nat_divmod j) as (_ & ? & ->).
      rewrite Z.testbit_ones_nonneg by lia. apply Z.ltb_lt. lia.
    + apply Hall. pose proof (nat_divmod j). lia.
  - destruct (not_full x Hr Hfull) as (k0 & Hk0 & Hb0).
    destruct (scan_inuse_ok h i x (seqZ 0 32) Hx) as (k & Hk & Hb & Hrun).
    { apply Forall_seqZ. lia. }
    { apply Exists_exists. exists k0. split; [apply elem_of_seqZ; lia|done]. }
    left. kcall Hrun. eexists _, _. split; [done|].
    assert (Hp : ((i * 32 + Z.to_nat k) / 32 = i)%nat).
    { pose proof (nat_divmod (i * 32 + Z.to_nat k)). lia. }
    assert (Hm : Z.of_nat (i * 32 + Z.to_nat k) mod 32 = k).
    { pose proof (nat_divmod (i * 32 + Z.to_nat k)) as (? & ? & ->). lia. }
    split_and!; [lia| |apply inuse_wf_insert; [done|by apply word_setbit]|].
    + unfold inuse_bit. by rewrite Hp, Hx, Hm.
    + intros j. rewrite inuse_bit_insert by (destruct Hwf; lia). case_decide as Hj.
      * pose proof (nat_divmod j). rewrite testbit_setbit by lia.
        rewrite <-same_index, Hm by lia. unfold inuse_bit. by rewrite Hj, Hx.
      * destruct (Nat.eqb_spec j (i * 32 + Z.to_nat k)); [subst; lia|]. by rewrite orb_false_r.
Qed.

Lemma allocpageref_ok h :
  inuse_wf (kh_inuse h) →
  (∃ p w', allocpageref h = Done (Some p, set_inuse w' h) ∧ taken (kh_inuse h) w' p) ∨
  (allocpageref h = Done (None, h) ∧
   ∀ j, (j < 256)%nat → inuse_bit (kh_inuse h) j = true).
Proof.
  intros Hwf. destruct (scan_inuse_words_ok h 8 0 Hwf eq_refl) as [Hs|[Hs Hall]];
    [by left|right]. split; [done|]. intros j Hj. apply Hall. lia.
Qed.

Lemma freepageref_ok h p :
  inuse_wf (kh_inuse h) → (p < 256)%nat → inuse_bit (kh_inuse h) p = true →
  ∃ w', freepageref p h = Done (tt, set_inuse w' h) ∧ inuse_wf w' ∧
    ∀ j, inuse_bit w' j = inuse_bit (kh_inuse h) j && negb (j =? p)%nat.
Proof.
  intros Hwf Hp Hb. pose proof (nat_divmod p) as (Hdm & Hlt & Hmz).
  destruct (inuse_word _ (p / 32) Hwf) as (x & Hx & Hr); [lia|].
  pose proof Hb as Hb'. unfold inuse_bit in Hb'. rewrite Hx in Hb'.
  unfold freepageref, NPAGEREFS. rewrite step_assert by (apply Z.ltb_lt; lia).
  replace (Z.to_nat (Z.of_nat p / 32)) with (p / 32)%nat
    by (change 32 with (Z.of_nat 32); by rewrite <-Nat2Z.inj_div, Nat2Z.id).
  ksteps. rewrite (step_lookup _ _ _ _ Hx). rewrite shift_small by lia.
  rewrite step_assert by (rewrite land_bit_zero by lia; by rewrite Hb').
  eexists. split; [done|]. split.
  { apply inuse_wf_insert; [done|]. apply word_land; [done|apply u32_range]. }
  intros j. rewrite inuse_bit_insert by (destruct Hwf; lia). case_decide as Hj.
  - pose proof (nat_divmod j). rewrite Z.land_spec, testbit_u32 by lia.
    rewrite <-Z.land_spec, testbit_clearbit by lia.
    rewrite same_index by done. unfold inuse_bit. by rewrite Hj, Hx.
  - destruct (Nat.eqb_spec j p); [subst; lia|]. by rewrite andb_true_r.
Qed.
End Inuse.

(** ** Abstract pages *)

Record apage := APage { ap_addr : Z; ap_blk : nat; ap_free : list Z }.

Definition bsize (b : nat) : Z := default 0 (sizes !! b).
Definition nblk (b : nat) : Z := PAGE_SIZE / bsize b.

(** The addresses of the blocks of a page. *)
Definition blocks (pg : apage) : list Z :=
  (λ i, ap_addr pg + i * bsize (ap_blk pg)) <$> seqZ 0 (nblk (ap_blk pg)).

Definition first_off (pg : apage) : Z :=
  match ap_free pg with [] => INVALID_OFFSET | a :: _ => a - ap_addr pg end.

(** The free list threaded through memory; the last block holds NULL. *)
Fixpoint linked (m : gmap Z Z) (l : list Z) : Prop :=
  match l with
  | [] => True
  | a :: l => m !! a = Some (default 0 (head l)) ∧ linked m l
  end.

(** The first address past the pages handed out. *)
Definition frontier (h : kheap) : Z := firstpaddr (kh_ram h) + MIPS_KSEG0.

Record page_ok (h : kheap) (i : nat) (pg : apage) : Prop := {
  po_index : (i < 256)%nat;
  po_blk : (ap_blk pg < 8)%nat;
  po_align : ap_addr pg mod PAGE_SIZE = 0;
  po_range : MIPS_KSEG0 < ap_addr pg ∧ ap_addr pg + PAGE_SIZE ≤ frontier h;
  po_data : pdata h i = Some (ap_addr pg + Z.of_nat (ap_blk pg), first_off pg,
                              Z.of_nat (length (ap_free pg)));
  po_sub : ap_free pg ⊆ blocks pg;
  po_nodup : NoDup (ap_free pg);
  po_linked : linked (kh_mem h) (ap_free pg);
}.

Record kh_rep (h : kheap) (pgs : list (nat * apage)) : Prop := {
  rep_ram : ram_ok (kh_ram h);
  rep_refs : ∀ i, (i < 256)%nat → is_Some (kh_pagerefs h !! i);
  rep_inuse_wf : inuse_wf (kh_inuse h);
  rep_inuse : ∀ i, (i < 256)%nat → inuse_bit (kh_inuse h) i = bool_decide (i ∈ pgs.*1);
  rep_nodup : NoDup pgs.*1;
  rep_all : chain h NextAll AllBase pgs.*1;
  rep_same : ∀ b, (b < 8)%nat →
    chain h NextSame (SizeBase b) (filter (λ x, ap_blk x.2 = b) pgs).*1;
  rep_pages : ∀ i pg, (i, pg) ∈ pgs → page_ok h i pg;
  rep_addrs : ∀ i pg j qg, (i, pg) ∈ pgs → (j, qg) ∈ pgs → ap_addr pg = ap_addr qg → i = j;
  rep_big : ∀ a n, kh_big h !! a = Some n →
    a mod PAGE_SIZE = 0 ∧ 1 ≤ n ∧ MIPS_KSEG0 < a ∧ a + n * PAGE_SIZE ≤ frontier h;
  rep_big_big : ∀ a n b m, kh_big h !! a = Some n → kh_big h !! b = Some m → a ≠ b →
    a + n * PAGE_SIZE ≤ b ∨ b + m * PAGE_SIZE ≤ a;
  rep_big_page : ∀ a n i pg, kh_big h !! a = Some n → (i, pg) ∈ pgs →
    a + n * PAGE_SIZE ≤ ap_addr pg ∨ ap_addr pg + PAGE_SIZE ≤ a;
}.

Section Pages.
Implicit Types (h : kheap) (pg : apage) (i : nat) (pgs : list (nat * apage)).

Lemma bsize_facts b :
  (b < 8)%nat → sizes !! b = Some (bsize b) ∧ bsize b * nblk b = PAGE_SIZE ∧
  16 ≤ bsize b ≤ 2048 ∧ 2 ≤ nblk b ≤ 256 ∧ bsize b mod 16 = 0.
Proof.
  intros Hb. do 8 (destruct b as [|b]; [vm_compute; split_and!; congruence|]). lia.
Qed.

Lemma elem_of_blocks a pg :
  a ∈ blocks pg ↔ ∃ k, 0 ≤ k < nblk (ap_blk pg) ∧ a = ap_addr pg + k * bsize (ap_blk pg).
Proof.
  unfold blocks. rewrite list_elem_of_fmap. setoid_rewrite elem_of_seqZ.
  split; intros (k & ? & ?); exists k; split; done || lia.
Qed.

Lemma NoDup_blocks pg : (ap_blk pg < 8)%nat → NoDup (blocks pg).
Proof.
  intros Hb. pose proof (bsize_facts _ Hb) as (_ & _ & ? & _). apply NoDup_fmap_2_strong.
  - intros x y _ _ E. nia.
  - apply NoDup_seqZ.
Qed.

Lemma length_blocks pg : length (blocks pg) = Z.to_nat (nblk (ap_blk pg)).
Proof. unfold blocks. by rewrite length_fmap, length_seqZ. Qed.

Lemma block_range a pg :
  (ap_blk pg < 8)%nat → a ∈ blocks pg →
  ap_addr pg ≤ a ∧ a + bsize (ap_blk pg) ≤ ap_addr pg + PAGE_SIZE ∧
  (a - ap_addr pg) mod bsize (ap_blk pg) = 0.
Proof.
  intros Hb (k & Hk & ->)%elem_of_blocks.
  pose proof (bsize_facts _ Hb) as (_ & ? & ? & ? & _). split_and!; [nia|nia|].
  replace (ap_addr pg + k * bsize (ap_blk pg) - ap_addr pg) with (k * bsize (ap_blk pg)) by lia.
  apply Z.mod_mul. lia.
Qed.

(** An address in a page at a multiple of the block size is a block. *)
Lemma aligned_block a pg :
  (ap_blk pg < 8)%nat → ap_addr pg ≤ a < ap_addr pg + PAGE_SIZE →
  (a - ap_addr pg) mod bsize (ap_blk pg) = 0 → a ∈ blocks pg.
Proof.
  intros Hb Ha Hm. pose proof (bsize_facts _ Hb) as (_ & ? & ? & ? & _).
  apply elem_of_blocks. exists ((a - ap_addr pg) / bsize (ap_blk pg)).
  pose proof (Z_div_mod_eq_full (a - ap_addr pg) (bsize (ap_blk pg))).
  split; [split|lia]; [apply Z.div_pos; lia|apply Z.div_lt_upper_bound; lia].
Qed.

(** Distinct blocks of a page do not overlap. *)
Lemma block_disjoint a b pg :
  (ap_blk pg < 8)%nat → a ∈ blocks pg → b ∈ blocks pg → a ≠ b →
  a + bsize (ap_blk pg) ≤ b ∨ b + bsize (ap_blk pg) ≤ a.
Proof.
  intros Hb (k & Hk & ->)%elem_of_blocks (l & Hl & ->)%elem_of_blocks Hne.
  pose proof (bsize_facts _ Hb) as (_ & _ & ? & _).
  destruct (Z.lt_trichotomy k l) as [?|[->|?]]; [left; nia|done|right; nia].
Qed.

Lemma linked_ext m m' l :
  (∀ a, a ∈ l → m' !! a = m !! a) → linked m l → linked m' l.
Proof.
  induction l as [|a l IH]; intros He; simpl; [done|]. intros [Ha Hl].
  split; [rewrite He by left; done|]. apply IH; [|done]. intros b Hb. apply He. by right.
Qed.

Lemma page_ok_frame h h' i pg :
  page_ok h i pg → pdata h' i = pdata h i → frontier h ≤ frontier h' →
  (∀ a, ap_addr pg ≤ a < ap_addr pg + PAGE_SIZE → kh_mem h' !! a = kh_mem h !! a) →
  page_ok h' i pg.
Proof.
  intros [Hi Hb Ha [Hr1 Hr2] Hd Hs Hn Hl] Hd' Hf Hm. constructor; try done; [lia|congruence|].
  eapply linked_ext; [|done]. intros a Hin. apply Hm.
  pose proof (bsize_facts _ Hb) as (_ & _ & ? & _).
  destruct (block_range a pg Hb) as (? & ? & _); [by apply Hs|]. lia.
Qed.

Lemma page_functional h pgs i pg qg :
  kh_rep h pgs → (i, pg) ∈ pgs → (i, qg) ∈ pgs → pg = qg.
Proof.
  intros Hr [k Hk]%list_elem_of_lookup [l Hl]%list_elem_of_lookup.
  assert (k = l) as ->; [|congruence].
  eapply (NoDup_lookup _ _ _ i (rep_nodup _ _ Hr)); rewrite list_lookup_fmap;
    [by rewrite Hk|by rewrite Hl].
Qed.

(** Pages are whole: two that share an address are the same page. *)
Lemma page_unique h pgs i pg j qg a :
  kh_rep h pgs → (i, pg) ∈ pgs → (j, qg) ∈ pgs →
  ap_addr pg ≤ a < ap_addr pg + PAGE_SIZE → ap_addr qg ≤ a < ap_addr qg + PAGE_SIZE →
  i = j ∧ pg = qg.
Proof.
  intros Hr Hp Hq Ha Hb.
  assert (i = j) as ->.
  { eapply (rep_addrs h pgs Hr); [done..|].
    pose proof (po_align _ _ _ (rep_pages _ _ Hr _ _ Hp)) as H1.
    pose proof (po_align _ _ _ (rep_pages _ _ Hr _ _ Hq)) as H2.
    pose proof (Z_div_mod_eq_full (ap_addr pg) PAGE_SIZE).
    pose proof (Z_div_mod_eq_full (ap_addr qg) PAGE_SIZE). unfold PAGE_SIZE in *. lia. }
  split; [done|]. by eapply page_functional.
Qed.
End Pages.

(** ** Updates of one page reference *)

Definition alter_pr (f : pageref → pageref) (i : nat) (h : kheap) : kheap :=
  set_pagerefs (alter f i (kh_pagerefs h)) h.

Definition keeps_links (f : pageref → pageref) : Prop :=
  ∀ p, next_samesize (f p) = next_samesize p ∧ next_all (f p) = next_all p.

Section PageRefs.
Implicit Types (h : kheap) (i : nat).

Lemma get_pr_run i p h : kh_pagerefs h !! i = Some p → get_pr i h = Done (p, h).
Proof. intros E. unfold get_pr. ksteps. by rewrite E. Qed.

Lemma upd_pr_run i f p h :
  kh_pagerefs h !! i = Some p → upd_pr i f h = Done (tt, alter_pr f i h).
Proof. intros E. unfold upd_pr. by kcall (get_pr_run _ _ _ E). Qed.

Lemma alter_pr_lookup f i p h :
  kh_pagerefs h !! i = Some p → kh_pagerefs (alter_pr f i h) !! i = Some (f p).
Proof. intros E. simpl. by rewrite list_lookup_alter_eq, E. Qed.

Lemma alter_pr_refs f i j h :
  is_Some (kh_pagerefs h !! j) → is_Some (kh_pagerefs (alter_pr f i h) !! j).
Proof.
  intros [p Hp]. simpl. rewrite list_lookup_alter. case_decide; subst; rewrite ?Hp; simpl; eauto.
Qed.

Lemma rd_alter_pr f i r h : keeps_links f → rd r (alter_pr f i h) = rd r h.
Proof.
  intros Hf. destruct r; simpl; try done; rewrite list_lookup_alter; case_decide; subst;
    try done; destruct (kh_pagerefs h !! i0); simpl; try done; by rewrite ?(proj1 (Hf _)), ?(proj2 (Hf _)).
Qed.

Lemma pdata_alter_ne f i j h : j ≠ i → pdata (alter_pr f i h) j = pdata h j.
Proof. intros. unfold pdata. simpl. by rewrite list_lookup_alter_ne. Qed.

Lemma pdata_run h i a b c :
  pdata h i = Some (a, b, c) →
  ∃ p, kh_pagerefs h !! i = Some p ∧ pageaddr_and_blocktype p = a ∧
       freelist_offset p = b ∧ nfree p = c.
Proof. unfold pdata. destruct (kh_pagerefs h !! i) as [p|]; [|done]. intros [= <- <- <-]. eauto. Qed.

Lemma pdata_pr h i p : kh_pagerefs h !! i = Some p →
  pdata h i = Some (pageaddr_and_blocktype p, freelist_offset p, nfree p).
Proof. unfold pdata. by intros ->. Qed.

Lemma pab_page a b : 0 ≤ a → a + 4096 < 2 ^ 32 → a mod PAGE_SIZE = 0 → (b < 8)%nat →
  Z.land (a + Z.of_nat b) PAGE_FRAME = a ∧
  Z.land (a + Z.of_nat b) (u32 (Z.lnot PAGE_FRAME)) = Z.of_nat b ∧
  MKPAB a (Z.of_nat b) = a + Z.of_nat b.
Proof.
  intros Ha Ha' Hm Hb. pose proof (Z_div_mod_eq_full a PAGE_SIZE) as Hd.
  assert (E1 : (a + Z.of_nat b) / PAGE_SIZE = a / PAGE_SIZE).
  { symmetry. apply (Z.div_unique _ _ _ (Z.of_nat b)); unfold PAGE_SIZE in *; lia. }
  assert (E2 : (a + Z.of_nat b) mod PAGE_SIZE = Z.of_nat b).
  { symmetry. apply (Z.mod_unique _ _ (a / PAGE_SIZE)); unfold PAGE_SIZE in *; lia. }
  split_and!.
  - rewrite page_frame_mask by lia. rewrite E1. lia.
  - by rewrite page_offset_mask.
  - unfold MKPAB. rewrite page_offset_mask, (page_frame_aligned a) by (done || lia).
    rewrite (Z.mod_small (Z.of_nat b)) by (unfold PAGE_SIZE; lia).
    assert (Hl : Z.land a (Z.of_nat b) = 0).
    { change PAGE_SIZE with (2 ^ 12) in *. rewrite Hd, Hm, Z.add_0_r, Z.mul_comm.
      rewrite <-Z.shiftl_mul_pow2 by lia. apply Z.bits_inj'. intros n Hn.
      rewrite Z.land_spec, Z.bits_0, Z.shiftl_spec by lia.
      destruct (decide (n < 12)); [by rewrite Z.testbit_neg_r by lia|].
      apply andb_false_intro2. rewrite <-(Z.mod_small (Z.of_nat b) (2 ^ 12)) by lia.
      by rewrite Z.mod_pow2_bits_high by lia. }
    by rewrite (Z.add_nocarry_lxor _ _ Hl), Z.lxor_lor.
Qed.
End PageRefs.

(** Replace the page with reference [i]. *)
Definition upd_page (i : nat) (pg : apage) (pgs : list (nat * apage)) : list (nat * apage) :=
  (λ x, if decide (x.1 = i) then (i, pg) else x) <$> pgs.

Section Update.
Implicit Types (h : kheap) (pg : apage) (i : nat) (pgs : list (nat * apage)).

Lemma upd_page_fst i pg pgs : (upd_page i pg pgs).*1 = pgs.*1.
Proof.
  unfold upd_page. rewrite <-list_fmap_compose. apply list_fmap_ext. intros k x _. simpl.
  by case_decide.
Qed.

Lemma elem_of_upd i pg pgs j qg :
  (j, qg) ∈ upd_page i pg pgs ↔
  (j ≠ i ∧ (j, qg) ∈ pgs) ∨ (j = i ∧ qg = pg ∧ i ∈ pgs.*1).
Proof.
  unfold upd_page. rewrite list_elem_of_fmap. split.
  - intros ([k x] & E & Hin). simpl in E. case_decide; simplify_eq.
    + right. split_and!; [done..|]. apply list_elem_of_fmap. by exists (i, x).
    + by left.
  - intros [[Hne Hin]|(-> & -> & ([k x] & -> & Hin)%list_elem_of_fmap)].
    + exists (j, qg). simpl. by rewrite decide_False.
    + exists (k, x). simpl. by rewrite decide_True.
Qed.

Lemma upd_page_filter i pg pg' pgs b :
  NoDup pgs.*1 → (i, pg) ∈ pgs → ap_blk pg' = ap_blk pg →
  (filter (λ x, ap_blk x.2 = b) (upd_page i pg' pgs)).*1
  = (filter (λ x, ap_blk x.2 = b) pgs).*1.
Proof.
  intros Hnd Hin Hb. unfold upd_page. induction pgs as [|[k x] pgs IH]; [done|].
  csimpl in *. apply NoDup_cons in Hnd as [Hk Hnd].
  assert (Hnot : k = i → (λ x, if decide (x.1 = i) then (i, pg') else x) <$> pgs = pgs).
  { intros ->. rewrite <-(list_fmap_id pgs) at 2. apply list_fmap_ext. intros n y Hy.
    rewrite decide_False; [done|]. intros <-. apply Hk. apply list_elem_of_fmap.
    exists y. split; [done|]. by eapply list_elem_of_lookup_2. }
  case_decide as Hki; simpl in Hki.
  - subst k. rewrite (Hnot eq_refl). apply elem_of_cons in Hin as [[= <-]|Hin].
    + rewrite !filter_cons. simpl. rewrite Hb. by case_decide.
    + destruct Hk. apply list_elem_of_fmap. by exists (i, pg).
  - apply elem_of_cons in Hin as [[= <- <-]|Hin]; [done|].
    rewrite !filter_cons. case_decide; simpl; [f_equal|]; by apply IH.
Qed.

Lemma rep_update h h' pgs i pg pg' :
  kh_rep h pgs → (i, pg) ∈ pgs →
  ap_addr pg' = ap_addr pg → ap_blk pg' = ap_blk pg →
  (∀ r, rd r h' = rd r h) → (∀ j, is_Some (kh_pagerefs h !! j) → is_Some (kh_pagerefs h' !! j)) →
  (∀ j, j ≠ i → pdata h' j = pdata h j) →
  kh_inuse h' = kh_inuse h → kh_ram h' = kh_ram h → kh_big h' = kh_big h →
  (∀ a, ¬ (ap_addr pg ≤ a < ap_addr pg + PAGE_SIZE) → kh_mem h' !! a = kh_mem h !! a) →
  page_ok h' i pg' →
  kh_rep h' (upd_page i pg' pgs).
Proof.
  intros Hrep Hin Haddr Hblk Hrd Hsome Hpd Hiu Hram Hbig Hmem Hok.
  pose proof Hrep as [Rram Rrefs Rwf Riu Rnd Rall Rsame Rpg Raddr Rbig Rbb Rbp].
  assert (Hfr : frontier h' = frontier h) by (unfold frontier; by rewrite Hram).
  assert (Haddrs : ∀ j qg, (j, qg) ∈ upd_page i pg' pgs →
            ∃ qg', (j, qg') ∈ pgs ∧ ap_addr qg' = ap_addr qg).
  { intros j qg [[??]|(-> & -> & ?)]%elem_of_upd; [by exists qg|by exists pg]. }
  constructor; rewrite ?Hiu, ?Hram, ?Hbig, ?upd_page_fst; try done.
  - intros j Hj. by apply Hsome, Rrefs.
  - eapply chain_ext; [|exact Rall]. intros; apply Hrd.
  - intros b Hb. rewrite (upd_page_filter i pg) by done.
    eapply chain_ext; [|by apply Rsame]. intros; apply Hrd.
  - intros j qg [[Hne Hq]|(-> & -> & _)]%elem_of_upd; [|done].
    eapply page_ok_frame; [by apply Rpg|by apply Hpd|lia|].
    intros a Ha. apply Hmem. intros Ha'.
    by destruct (page_unique h pgs j qg i pg a Hrep Hq Hin Ha Ha') as [-> _].
  - intros j qg k rg (qg' & Hq & E1)%Haddrs (rg' & Hr & E2)%Haddrs E.
    eapply Raddr; [done..|congruence].
  - rewrite Hfr. done.
  - intros a n j qg Ha (qg' & Hq & <-)%Haddrs. by eapply Rbp.
Qed.
End Update.

(** ** What the heap occupies *)

Definition in_page (pg : apage) (a : Z) : Prop := ap_addr pg ≤ a < ap_addr pg + PAGE_SIZE.

Definition footprint (pgs : list (nat * apage)) (big : gmap Z Z) (a : Z) : Prop :=
  (∃ i pg, (i, pg) ∈ pgs ∧ in_page pg a) ∨
  (∃ b n, big !! b = Some n ∧ b ≤ a < b + n * PAGE_SIZE).

(** A step of the heap takes memory beyond the old frontier only. *)
Record evolves (h : kheap) (pgs : list (nat * apage)) (h' : kheap) (pgs' : list (nat * apage))
    : Prop := {
  ev_frontier : frontier h ≤ frontier h';
  ev_footprint : ∀ x, footprint pgs' (kh_big h') x → footprint pgs (kh_big h) x ∨ frontier h ≤ x;
}.

(** ** Taking a block off a page *)

Definition with_free (f : list Z) (pg : apage) : apage := APage (ap_addr pg) (ap_blk pg) f.

Lemma blocks_with_free f pg : blocks (with_free f pg) = blocks pg.
Proof. done. Qed.

Lemma evolves_same_pages h pgs h' pgs' :
  kh_ram h' = kh_ram h → kh_big h' = kh_big h →
  (∀ i pg, (i, pg) ∈ pgs' → ∃ j qg, (j, qg) ∈ pgs ∧ ap_addr qg = ap_addr pg) →
  evolves h pgs h' pgs'.
Proof.
  intros Hram Hbig Hpgs. constructor; [unfold frontier; rewrite Hram; lia|].
  intros x [(i & pg & Hin & Hx)|Hx]; left; [left|right; by rewrite <-Hbig].
  destruct (Hpgs _ _ Hin) as (j & qg & ? & E). exists j, qg. split; [done|].
  unfold in_page in *. by rewrite E.
Qed.

Lemma upd_page_addrs i f pg pgs j qg :
  (i, pg) ∈ pgs → (j, qg) ∈ upd_page i (with_free f pg) pgs →
  ∃ k rg, (k, rg) ∈ pgs ∧ ap_addr rg = ap_addr qg.
Proof.
  intros Hin [[_ Hq]|(-> & -> & _)]%elem_of_upd; [by exists j, qg|by exists i, pg].
Qed.

Section Alloc.
Implicit Types (h : kheap) (pg : apage) (i : nat) (pgs : list (nat * apage)).

Lemma frontier_small h pgs : kh_rep h pgs → frontier h ≤ 2684354560.
Proof. intros Hr. destruct (rep_ram _ _ Hr) as [? ? _]. unfold frontier, MIPS_KSEG0. lia. Qed.

Lemma page_ref_data h pgs i pg :
  kh_rep h pgs → (i, pg) ∈ pgs →
  ∃ p, kh_pagerefs h !! i = Some p ∧ PR_PAGEADDR p = ap_addr pg ∧
    PR_BLOCKTYPE p = Z.of_nat (ap_blk pg) ∧ freelist_offset p = first_off pg ∧
    nfree p = Z.of_nat (length (ap_free pg)) ∧
    pageaddr_and_blocktype p = ap_addr pg + Z.of_nat (ap_blk pg).
Proof.
  intros Hr Hin. pose proof (frontier_small _ _ Hr).
  destruct (rep_pages _ _ Hr _ _ Hin) as [Hi Hb Ha [Hr1 Hr2] Hd _ _ _].
  destruct (pdata_run _ _ _ _ _ Hd) as (p & Hp & Hpab & Ho & Hn). exists p.
  unfold MIPS_KSEG0, PAGE_SIZE in Hr1, Hr2.
  destruct (pab_page (ap_addr pg) (ap_blk pg)) as (E1 & E2 & _); [lia|lia|done|done|].
  unfold PR_PAGEADDR, PR_BLOCKTYPE. rewrite Hpab. done.
Qed.

Lemma length_free_bound h pgs i pg :
  kh_rep h pgs → (i, pg) ∈ pgs → Z.of_nat (length (ap_free pg)) ≤ nblk (ap_blk pg).
Proof.
  intros Hr Hin. destruct (rep_pages _ _ Hr _ _ Hin) as [_ Hb _ _ _ Hs Hn _].
  pose proof (submseteq_length _ _ (NoDup_submseteq _ _ Hn Hs)) as Hl.
  rewrite length_blocks in Hl. pose proof (bsize_facts _ Hb). lia.
Qed.

(** The two updates [doalloc] makes. *)
Definition taken_page (p : pageref) (i : nat) (o : Z) h : kheap :=
  alter_pr (set_offset o) i (alter_pr (set_nfree (u16 (nfree p - 1))) i h).

Lemma taken_page_rep h pgs i pg p a f :
  kh_rep h pgs → (i, pg) ∈ pgs → ap_free pg = a :: f → kh_pagerefs h !! i = Some p →
  nfree p = Z.of_nat (length (ap_free pg)) →
  pageaddr_and_blocktype p = ap_addr pg + Z.of_nat (ap_blk pg) →
  kh_rep (taken_page p i (first_off (with_free f pg)) h) (upd_page i (with_free f pg) pgs).
Proof.
  intros Hr Hin Hf Hp Hn Hpab. pose proof (length_free_bound _ _ _ _ Hr Hin) as Hlen.
  pose proof (rep_pages _ _ Hr _ _ Hin) as [Hi Hb Ha Hrng Hd Hs Hnd Hl].
  pose proof (bsize_facts _ Hb) as (_ & _ & _ & ? & _). rewrite Hf in *. simpl in Hn, Hlen.
  eapply (rep_update h); try done.
  - intros r. unfold taken_page. by rewrite !rd_alter_pr.
  - intros j Hj. by do 2 apply alter_pr_refs.
  - intros j Hj. unfold taken_page. by rewrite !pdata_alter_ne.
  - apply NoDup_cons in Hnd as [? ?]. destruct Hl as [_ Hl].
    constructor; try done; [|by rewrite blocks_with_free; set_solver].
    unfold taken_page. erewrite pdata_pr by (by apply alter_pr_lookup, alter_pr_lookup).
    simpl. rewrite Hpab. do 2 f_equal. nowrap. lia.
Qed.

Lemma doalloc_ok h pgs i pg a f :
  kh_rep h pgs → (i, pg) ∈ pgs → ap_free pg = a :: f →
  ∃ h', doalloc i h = Done (a, h') ∧ kh_rep h' (upd_page i (with_free f pg) pgs) ∧
        kh_big h' = kh_big h ∧ kh_ram h' = kh_ram h.
Proof.
  intros Hr Hin Hf. pose proof (frontier_small _ _ Hr). pose proof (length_free_bound _ _ _ _ Hr Hin) as Hlen.
  destruct (page_ref_data _ _ _ _ Hr Hin) as (p & Hp & Epg & _ & Eo & En & Epab).
  pose proof (rep_pages _ _ Hr _ _ Hin) as [Hi Hb Ha [Hr1 Hr2] Hd Hs Hnd Hl].
  pose proof (bsize_facts _ Hb) as (_ & _ & ? & ? & _).
  pose proof (λ x Hx, block_range x pg Hb (Hs x Hx)) as Hblk. rewrite Hf in *.
  destruct (Hblk a) as (? & ? & _); [left|]. unfold first_off in Eo. rewrite Hf in Eo.
  unfold PAGE_SIZE, MIPS_KSEG0 in *. destruct Hl as [Hma Hl].
  exists (taken_page p i (first_off (with_free f pg)) h).
  split; [|split; [eapply taken_page_rep; rewrite ?Hf; done|done]].
  assert (Hp1 : ∀ g, kh_pagerefs (alter_pr g i h) !! i = Some (g p)) by (intros; by apply alter_pr_lookup).
  unfold doalloc. kcall (get_pr_run _ _ _ Hp). rewrite Eo, Epg.
  rewrite step_assert by (unfold PAGE_SIZE; apply Z.ltb_lt; lia).
  rewrite (u32_small (ap_addr pg + (a - ap_addr pg))) by lia.
  replace (ap_addr pg + (a - ap_addr pg)) with a by lia.
  assert (Hload : load a h = Done (default 0 (head f), h)) by (unfold load; ksteps; by rewrite Hma).
  kcall Hload. kcall (upd_pr_run i (set_nfree (u16 (nfree p - 1))) _ _ Hp).
  kcall (get_pr_run i _ _ (Hp1 (set_nfree (u16 (nfree p - 1))))).
  pose proof (λ o, upd_pr_run i (set_offset o) _ _ (Hp1 (set_nfree (u16 (nfree p - 1))))) as Hupd.
  simpl in En, Hlen. cbn [nfree set_nfree]. rewrite En, (u16_small (_ - 1)) by lia.
  destruct f as [|b f]; cbn [head from_option id]; rewrite En in Hupd; nowrap in Hupd.
  - cbn [negb Z.eqb]. rewrite step_assert by (apply Z.eqb_eq; simpl; lia).
    kcall (Hupd INVALID_OFFSET). unfold taken_page, kret. rewrite En. by nowrap.
  - destruct (Hblk b) as (? & ? & _); [set_solver|].
    rewrite (proj2 (Z.eqb_neq b 0)) by lia. cbn [negb].
    rewrite step_assert by (apply Z.ltb_lt; simpl; lia). nowrap.
    rewrite step_assert by (apply Z.ltb_lt; unfold PAGE_SIZE; lia).
    kcall (Hupd (b - ap_addr pg)). unfold taken_page, kret. rewrite En. by nowrap.
Qed.
End Alloc.

(** ** Finding a page, and making a new one *)

Section NewPage.
Implicit Types (h : kheap) (pg : apage) (i : nat) (pgs : list (nat * apage)).

Lemma pages_bound h pgs : kh_rep h pgs → (length pgs ≤ 256)%nat.
Proof.
  intros Hr. pose proof (NoDup_submseteq pgs.*1 (seq 0 256) (rep_nodup _ _ Hr)) as Hs.
  apply submseteq_length in Hs.
  - by rewrite length_fmap, length_seq in Hs.
  - intros i ([j pg] & -> & Hin)%list_elem_of_fmap. apply elem_of_seq. simpl.
    pose proof (po_index _ _ _ (rep_pages _ _ Hr _ _ Hin)). lia.
Qed.

Lemma find_page_ok h pgs b guy l fuel :
  kh_rep h pgs → chain h NextSame guy l → (length l < fuel)%nat →
  (∀ i, i ∈ l → ∃ pg, (i, pg) ∈ pgs ∧ ap_blk pg = b) →
  (∃ i pg a f, find_page fuel (Z.of_nat b) (head l) h = Done (Some i, h) ∧
     (i, pg) ∈ pgs ∧ ap_blk pg = b ∧ ap_free pg = a :: f) ∨
  (find_page fuel (Z.of_nat b) (head l) h = Done (None, h) ∧
   ∀ i pg, i ∈ l → (i, pg) ∈ pgs → ap_free pg = []).
Proof.
  intros Hr. revert guy fuel. induction l as [|i l IH]; intros guy [|fuel] Hc Hf Hl;
    simpl in Hf; try lia.
  { right. split; [done|]. intros i pg Hi. set_solver. }
  destruct Hc as [_ Hc]. destruct (Hl i) as (pg & Hin & Hb); [left|].
  destruct (page_ref_data _ _ _ _ Hr Hin) as (p & Hp & _ & Eb & _ & En & _).
  cbn [find_page head]. kcall (get_pr_run _ _ _ Hp).
  rewrite step_assert by (apply Z.eqb_eq; congruence). rewrite En.
  destruct (ap_free pg) as [|a f] eqn:Hfree.
  - cbn [length]. change (0 <? Z.of_nat 0) with false. cbv iota.
    assert (E : next_samesize p = head l).
    { pose proof (chain_base _ _ _ _ Hc) as E. simpl in E. rewrite Hp in E. simpl in E. congruence. }
    rewrite E. destruct (IH (NextSame i) fuel) as [?|[Hrun Hnone]]; [done|lia| |by left|right].
    { intros j Hj. apply Hl. by right. }
    split; [done|]. intros j qg [->|Hj]%elem_of_cons Hq; [|by eapply Hnone].
    by rewrite (page_functional _ _ _ _ _ Hr Hq Hin).
  - left. exists i, pg, a, f. rewrite (proj2 (Z.ltb_lt _ _)) by (simpl; lia). done.
Qed.

(** The loop that builds the free list. *)
Lemma thread_blocks_ok fla sz n k h :
  0 < sz → 0 ≤ fla → 1 ≤ k → fla + (k + Z.of_nat n) * sz < 2 ^ 32 →
  ∃ m, thread_blocks fla sz (seqZ k (Z.of_nat n)) (fla + (k - 1) * sz) h =
       Done (fla + (k + Z.of_nat n - 1) * sz, set_mem m h) ∧
    (∀ i : Z, k ≤ i < k + Z.of_nat n → m !! (fla + i * sz) = Some (fla + (i - 1) * sz)) ∧
    (∀ a, (∀ i : Z, k ≤ i < k + Z.of_nat n → a ≠ fla + i * sz) → m !! a = kh_mem h !! a).
Proof.
  intros Hsz Hfla. revert k h. induction n as [|n IH]; intros k h Hk Hb.
  { exists (kh_mem h). change (seqZ k (Z.of_nat 0)) with (@nil Z). simpl. split_and!.
    - unfold kret. do 2 f_equal; [lia|by destruct h].
    - lia.
    - done. }
  rewrite seqZ_cons by lia. cbn [thread_blocks].
  replace (Z.pred (Z.of_nat (S n))) with (Z.of_nat n) by lia. unfold Z.succ.
  assert (0 ≤ k * sz ∧ (k + 1) * sz ≤ (k + Z.of_nat (S n)) * sz) by (split; [lia|nia]).
  assert (0 ≤ (k - 1) * sz ≤ k * sz - sz) by nia.
  rewrite (u32_small (fla + k * sz)), (u32_small (fla + (k - 1) * sz)) by lia.
  unfold store at 1. ksteps. rewrite step_assert by (apply negb_true_iff, Z.eqb_neq; lia).
  set (h1 := set_mem _ h).
  destruct (IH (k + 1) h1) as (m & Hrun & Hm & Hsame); [lia|nia|].
  replace (k + 1 - 1) with k in Hrun by lia. rewrite Hrun. exists m. split_and!.
  - do 2 f_equal. lia.
  - intros i Hi. destruct (decide (i = k)) as [->|]; [|apply Hm; lia].
    rewrite Hsame; [by apply lookup_insert_eq|]. intros j Hj. nia.
  - intros a Ha. rewrite Hsame by (intros j Hj; apply Ha; lia).
    apply lookup_insert_ne. intros E. apply (Ha k); [lia|done].
Qed.

(** The blocks of a new page, last one first. *)
Definition fresh_free (fla sz : Z) (n : nat) : list Z :=
  (λ i : Z, fla + i * sz) <$> reverse (seqZ 0 (Z.of_nat n)).

Lemma fresh_free_S fla sz n :
  fresh_free fla sz (S n) = (fla + Z.of_nat n * sz) :: fresh_free fla sz n.
Proof.
  unfold fresh_free. replace (Z.of_nat (S n)) with (Z.of_nat n + 1) by lia.
  rewrite seqZ_app, reverse_app by lia. by rewrite Z.add_0_l.
Qed.

Lemma fresh_free_linked m fla sz n :
  (∀ i : Z, 1 ≤ i < Z.of_nat n → m !! (fla + i * sz) = Some (fla + (i - 1) * sz)) →
  m !! fla = Some 0 → linked m (fresh_free fla sz n).
Proof.
  intros Hm H0. induction n as [|n IH]; [done|]. rewrite fresh_free_S. split.
  - destruct n as [|n]; [simpl; by rewrite Z.add_0_r|]. rewrite fresh_free_S. simpl.
    rewrite Hm by lia. do 2 f_equal. lia.
  - apply IH. intros i Hi. apply Hm. lia.
Qed.

Lemma rep_push h h' pgs i pg :
  kh_rep h pgs → i ∉ pgs.*1 → page_ok h' i pg →
  (∀ j qg, (j, qg) ∈ pgs → ap_addr qg + PAGE_SIZE ≤ ap_addr pg) →
  (∀ a n, kh_big h !! a = Some n → a + n * PAGE_SIZE ≤ ap_addr pg) →
  ram_ok (kh_ram h') → frontier h ≤ frontier h' → kh_big h' = kh_big h →
  (∀ j, is_Some (kh_pagerefs h !! j) → is_Some (kh_pagerefs h' !! j)) →
  taken (kh_inuse h) (kh_inuse h') i →
  (∀ j, j ≠ i → pdata h' j = pdata h j) →
  (∀ a, ¬ (ap_addr pg ≤ a < ap_addr pg + PAGE_SIZE) → kh_mem h' !! a = kh_mem h !! a) →
  rd AllBase h' = Some (Some i) → rd (NextAll i) h' = rd AllBase h →
  rd (SizeBase (ap_blk pg)) h' = Some (Some i) →
  rd (NextSame i) h' = rd (SizeBase (ap_blk pg)) h →
  (∀ r, r ≠ AllBase → r ≠ NextAll i → r ≠ SizeBase (ap_blk pg) → r ≠ NextSame i →
        rd r h' = rd r h) →
  kh_rep h' ((i, pg) :: pgs).
Proof.
  intros Hrep Hi Hok Hbelow Hbbelow Hram Hfr Hbig Hsome (_ & _ & Hwf & Hbits) Hpd Hmem
    H1 H2 H3 H4 Hother.
  pose proof Hrep as [Rram Rrefs Rwf Riu Rnd Rall Rsame Rpg Raddr Rbig Rbb Rbp].
  assert (Hnew : ∀ next guy l, (∀ r, r = guy ∨ (∃ j, j ∈ l ∧ r = next j) → rd r h' = rd r h) →
    chain h next guy l → chain h' next guy l) by (intros; by eapply chain_ext).
  constructor; rewrite ?Hbig; try done.
  - intros j Hj. by apply Hsome, Rrefs.
  - intros j Hj. rewrite Hbits, Riu by done. csimpl. destruct (Nat.eqb_spec j i) as [->|Hne].
    + rewrite orb_true_r. symmetry. apply bool_decide_eq_true. left.
    + rewrite orb_false_r. apply bool_decide_ext. rewrite elem_of_cons. naive_solver.
  - csimpl. by apply NoDup_cons.
  - csimpl. split; [done|]. destruct pgs as [|[j qg] pgs]; csimpl in *; [by rewrite H2|].
    destruct Rall as [Hh Hc]. split; [by rewrite H2|]. apply Hnew; [|done].
    intros r [->|(k & Hk & ->)]; apply Hother; (done || (intros [= ->]; set_solver)).
  - intros b Hb. pose proof (Rsame b Hb) as Hc. rewrite filter_cons. csimpl.
    assert (Hni : ∀ k, k ∈ (filter (λ x, ap_blk x.2 = b) pgs).*1 → k ≠ i).
    { intros k (x & Ek & [_ Hx]%list_elem_of_filter)%list_elem_of_fmap ->. apply Hi.
      apply list_elem_of_fmap. by exists x. }
    case_decide as Hbb; csimpl.
    + subst b. split; [done|]. destruct (filter _ pgs) as [|[j qg] l]; csimpl in *; [by rewrite H4|].
      destruct Hc as [Hh Hc]. split; [by rewrite H4|]. apply Hnew; [|done].
      intros r [->|(k & Hk & ->)]; apply Hother; try done; intros [= ->]; by eapply (Hni i); set_solver.
    + apply Hnew; [|done]. intros r [->|(k & Hk & ->)]; apply Hother; try done; intros [= ->]; [done|].
      by eapply Hni.
  - intros j qg [[= -> ->]|Hq]%elem_of_cons; [done|].
    assert (j ≠ i) by (intros ->; apply Hi, list_elem_of_fmap; by exists (i, qg)).
    eapply page_ok_frame; [by apply Rpg|by apply Hpd|done|].
    intros a Ha. apply Hmem. specialize (Hbelow _ _ Hq). lia.
  - intros j qg k rg [[= -> ->]|Hq]%elem_of_cons [[= -> ->]|Hq']%elem_of_cons E; try done.
    + specialize (Hbelow _ _ Hq'). unfold PAGE_SIZE in *. lia.
    + specialize (Hbelow _ _ Hq). unfold PAGE_SIZE in *. lia.
    + by eapply Raddr.
  - intros a n Ha. destruct (Rbig _ _ Ha) as (? & ? & ? & ?). split_and!; [done..|lia].
  - intros a n j qg Ha [[= -> ->]|Hq]%elem_of_cons; [left; by apply Hbbelow|by eapply Rbp].
Qed.
End NewPage.

Section Fresh.
Implicit Types (h : kheap) (pg : apage) (i : nat) (pgs : list (nat * apage)).

Definition grown h (n : Z) : kheap :=
  set_ram (Ram (firstpaddr (kh_ram h) + n * PAGE_SIZE) (lastpaddr (kh_ram h))) h.

Definition has_pages h (n : Z) : Prop :=
  firstpaddr (kh_ram h) + n * PAGE_SIZE ≤ lastpaddr (kh_ram h).

Lemma on_ram_alloc h n :
  ram_ok (kh_ram h) → 0 ≤ n ≤ 2 ^ 19 →
  (has_pages h n ∧ on_ram (alloc_kpages n) h = Done (frontier h, grown h n)) ∨
  (¬ has_pages h n ∧ on_ram (alloc_kpages n) h = Panic).
Proof.
  intros Hr Hn. unfold on_ram, kzoom, has_pages. rewrite alloc_kpages_ok by done.
  case_decide; [by left|by right].
Qed.

Lemma frontier_aligned h : ram_ok (kh_ram h) → frontier h mod PAGE_SIZE = 0.
Proof.
  intros [_ _ Ha]. unfold frontier. change MIPS_KSEG0 with (524288 * PAGE_SIZE).
  by apply page_multiple.
Qed.

Lemma rep_grow h pgs n : kh_rep h pgs → 0 ≤ n → has_pages h n → kh_rep (grown h n) pgs.
Proof.
  intros Hr Hn Hroom. pose proof Hr as [Rram Rrefs Rwf Riu Rnd Rall Rsame Rpg Raddr Rbig Rbb Rbp].
  assert (Hfr : frontier h ≤ frontier (grown h n)).
  { unfold frontier, grown. cbn. unfold PAGE_SIZE. lia. }
  constructor; try done.
  - by apply stolen_ok.
  - eapply chain_ext; [|exact Rall]. by intros [].
  - intros b Hb. eapply chain_ext; [|by apply Rsame]. by intros [].
  - intros i pg Hin. by eapply page_ok_frame; [apply Rpg| | |].
  - intros a k Ha. destruct (Rbig _ _ Ha) as (? & ? & ? & ?). split_and!; [done..|lia].
Qed.

(** A page for blocks of size [b] at [addr], all of it free. *)
Definition fresh_page (addr : Z) (b : nat) : apage :=
  APage addr b (fresh_free addr (bsize b) (Z.to_nat (nblk b))).

Lemma fresh_page_blocks addr b :
  (b < 8)%nat → ap_free (fresh_page addr b) ≡ₚ blocks (fresh_page addr b).
Proof.
  intros Hb. pose proof (bsize_facts _ Hb) as (_ & _ & _ & ? & _).
  unfold fresh_page, fresh_free, blocks. simpl. rewrite Z2Nat.id by lia.
  by rewrite reverse_Permutation.
Qed.

Lemma fresh_page_ok h i b :
  (i < 256)%nat → (b < 8)%nat → frontier h mod PAGE_SIZE = 0 →
  ∀ h', MIPS_KSEG0 < frontier h → frontier h + PAGE_SIZE ≤ frontier h' →
  pdata h' i = Some (frontier h + Z.of_nat b, (nblk b - 1) * bsize b, nblk b) →
  linked (kh_mem h') (ap_free (fresh_page (frontier h) b)) →
  page_ok h' i (fresh_page (frontier h) b).
Proof.
  intros Hi Hb Ha h' Hlo Hhi Hd Hl. pose proof (bsize_facts _ Hb) as (_ & _ & _ & ? & _).
  pose proof (fresh_page_blocks (frontier h) b Hb) as Hperm.
  constructor; try done.
  - rewrite Hd. do 2 f_equal; [f_equal|].
    + unfold first_off, fresh_page. simpl.
      replace (Z.to_nat (nblk b)) with (S (Z.to_nat (nblk b - 1))) by lia.
      rewrite fresh_free_S. lia.
    + apply Permutation_length in Hperm. rewrite Hperm, length_blocks. simpl. lia.
  - by rewrite Hperm.
  - rewrite Hperm. by apply NoDup_blocks.
Qed.

(** The links written when page reference [i] goes to the front of its lists. *)
Definition pushed h (i b : nat) (s a : option nat) : kheap :=
  wr AllBase (Some i) (wr (NextAll i) a
    (wr (SizeBase b) (Some i) (wr (NextSame i) s h))).

Lemma push_links_run {A} h i b s a p (k : K kheap A) :
  rd (SizeBase b) h = Some s → rd AllBase h = Some a → kh_pagerefs h !! i = Some p →
  (base <- read_link (SizeBase b) ;;
   write_link (NextSame i) base ;;
   write_link (SizeBase b) (Some i) ;;
   base <- read_link AllBase ;;
   write_link (NextAll i) base ;;
   write_link AllBase (Some i) ;; k) h = k (pushed h i b s a).
Proof.
  intros Hs Ha Hp. kcall (read_link_run _ _ _ Hs).
  assert (Hn : rd (NextSame i) h = Some (next_samesize p)) by (simpl; by rewrite Hp).
  assert (Hn' : rd (NextAll i) h = Some (next_all p)) by (simpl; by rewrite Hp).
  kcall (write_link_run _ s _ _ Hn). unfold pushed. set (h1 := wr (NextSame i) s h).
  assert (H1 : rd (SizeBase b) h1 = Some s) by (unfold h1; by rewrite rd_wr_ne).
  kcall (write_link_run _ (Some i) _ _ H1). set (h2 := wr (SizeBase b) (Some i) h1).
  assert (H2 : rd AllBase h2 = Some a) by (unfold h2, h1; by rewrite !rd_wr_ne).
  assert (H2' : rd (NextAll i) h2 = Some (next_all p)) by (unfold h2, h1; by rewrite !rd_wr_ne).
  kcall (read_link_run _ _ _ H2). kcall (write_link_run _ a _ _ H2').
  set (h3 := wr (NextAll i) a h2).
  assert (H3 : rd AllBase h3 = Some a) by (unfold h3; by rewrite !rd_wr_ne).
  by kcall (write_link_run _ (Some i) _ _ H3).
Qed.

Lemma pushed_facts h i b s a p :
  rd (SizeBase b) h = Some s → kh_pagerefs h !! i = Some p →
  let h' := pushed h i b s a in
  rd AllBase h' = Some (Some i) ∧ rd (NextAll i) h' = Some a ∧
  rd (SizeBase b) h' = Some (Some i) ∧ rd (NextSame i) h' = Some s ∧
  (∀ r, r ≠ AllBase → r ≠ NextAll i → r ≠ SizeBase b → r ≠ NextSame i → rd r h' = rd r h) ∧
  (∀ j, pdata h' j = pdata h j) ∧ kh_mem h' = kh_mem h ∧ kh_ram h' = kh_ram h ∧
  kh_inuse h' = kh_inuse h ∧ kh_big h' = kh_big h ∧
  (∀ j, is_Some (kh_pagerefs h !! j) → is_Some (kh_pagerefs h' !! j)).
Proof.
  intros Hs Hp h'. unfold h', pushed. split_and!; try done.
  - rewrite rd_wr_ne by done. rewrite rd_wr, decide_True by done. simpl.
    rewrite list_lookup_alter_eq, Hp. done.
  - rewrite !(rd_wr_ne (SizeBase b)) by done. rewrite rd_wr, decide_True by done.
    rewrite rd_wr_ne by done. by rewrite Hs.
  - rewrite !(rd_wr_ne (NextSame i)) by done. rewrite rd_wr, decide_True by done.
    simpl. by rewrite Hp.
  - intros r H1 H2 H3 H4. by rewrite !rd_wr_ne.
  - intros j. by rewrite !pdata_wr.
  - intros j Hj. simpl. rewrite !list_lookup_alter. repeat case_decide; subst;
      destruct Hj as [q Hq]; rewrite ?Hq; simpl; eauto.
Qed.
End Fresh.

Section NewPageRuns.
Implicit Types (h : kheap) (pg : apage) (i : nat) (pgs : list (nat * apage)).

Lemma below_frontier h pgs :
  kh_rep h pgs →
  (∀ j qg, (j, qg) ∈ pgs → ap_addr qg + PAGE_SIZE ≤ frontier h) ∧
  (∀ a n, kh_big h !! a = Some n → a + n * PAGE_SIZE ≤ frontier h).
Proof.
  intros Hr. split.
  - intros j qg Hq. apply (po_range _ _ _ (rep_pages _ _ Hr _ _ Hq)).
  - intros a n Ha. by destruct (rep_big _ _ Hr _ _ Ha) as (_ & _ & _ & ?).
Qed.

(** The memory of a new page: its free list, and nothing else changed. *)
Definition threaded (m m' : gmap Z Z) (fr : Z) (b : nat) : Prop :=
  linked m' (ap_free (fresh_page fr b)) ∧
  ∀ x, ¬ (fr ≤ x < fr + PAGE_SIZE) → m' !! x = m !! x.

Lemma thread_page h fr b :
  (b < 8)%nat → 0 ≤ fr → fr + 4096 < 2 ^ 32 →
  ∃ m, thread_blocks fr (bsize b) (seqZ 1 (nblk b - 1)) fr (set_mem (<[fr := 0]> (kh_mem h)) h) =
       Done (fr + (nblk b - 1) * bsize b, set_mem m h) ∧ threaded (kh_mem h) m fr b.
Proof.
  intros Hb Hfr Hfr'. pose proof (bsize_facts _ Hb) as (_ & Hmul & Hs & Hn & _).
  unfold PAGE_SIZE in Hmul. set (h1 := set_mem _ h).
  destruct (thread_blocks_ok fr (bsize b) (Z.to_nat (nblk b - 1)) 1 h1)
    as (m & Hthr & Hm & Hmo); [lia|lia|lia| |].
  { rewrite Z2Nat.id by lia. replace (1 + (nblk b - 1)) with (nblk b) by lia. lia. }
  rewrite Z2Nat.id in Hthr, Hm, Hmo by lia.
  replace (fr + (1 - 1) * bsize b) with fr in Hthr by lia.
  replace (1 + (nblk b - 1) - 1) with (nblk b - 1) in Hthr by lia.
  replace (1 + (nblk b - 1)) with (nblk b) in * by lia.
  exists m. split; [done|]. split.
  - apply fresh_free_linked.
    + intros k Hk. apply Hm. rewrite Z2Nat.id in Hk by lia. lia.
    + rewrite Hmo by (intros k Hk; nia). apply lookup_insert_eq.
  - intros x Hx. unfold PAGE_SIZE in Hx. rewrite Hmo by (intros k Hk ->; apply Hx; nia).
    apply lookup_insert_ne. lia.
Qed.

(** The state before the new page goes on the lists. *)
Definition prepared h (i b : nat) (w : list Z) (m : gmap Z Z) : kheap :=
  alter_pr (set_offset ((nblk b - 1) * bsize b)) i
    (set_mem m (alter_pr (set_nfree (nblk b)) i
      (alter_pr (set_pab (frontier h + Z.of_nat b)) i (set_inuse w (grown h 1))))).

Lemma prepared_rd h i b w m r : rd r (prepared h i b w m) = rd r h.
Proof.
  unfold prepared. rewrite rd_alter_pr by done.
  transitivity (rd r (alter_pr (set_nfree (nblk b)) i
    (alter_pr (set_pab (frontier h + Z.of_nat b)) i (set_inuse w (grown h 1))))); [by destruct r|].
  rewrite !rd_alter_pr by done. by destruct r.
Qed.

Lemma prepared_lookup h i b w m p :
  kh_pagerefs h !! i = Some p →
  kh_pagerefs (prepared h i b w m) !! i =
  Some (set_offset ((nblk b - 1) * bsize b)
         (set_nfree (nblk b) (set_pab (frontier h + Z.of_nat b) p))).
Proof. intros Hp. unfold prepared. simpl. by rewrite !list_lookup_alter_eq, Hp. Qed.

Lemma prepared_other h i b w m j :
  (is_Some (kh_pagerefs h !! j) → is_Some (kh_pagerefs (prepared h i b w m) !! j)) ∧
  (j ≠ i → pdata (prepared h i b w m) j = pdata h j).
Proof.
  unfold prepared, pdata. simpl. rewrite !list_lookup_alter.
  split; [intros [q Hq]|intros]; repeat case_decide; subst; rewrite ?Hq; simpl; done || eauto.
Qed.

Lemma new_page_prepared h pgs b i w :
  kh_rep h pgs → (b < 8)%nat → has_pages h 1 → (i < 256)%nat →
  allocpageref (grown h 1) = Done (Some i, set_inuse w (grown h 1)) →
  ∃ m, new_page (Z.of_nat b) h =
         (base <- read_link (SizeBase b) ;;
          write_link (NextSame i) base ;;
          write_link (SizeBase b) (Some i) ;;
          base <- read_link AllBase ;;
          write_link (NextAll i) base ;;
          write_link AllBase (Some i) ;;
          a <- doalloc i ;; kret (Some a)) (prepared h i b w m) ∧
       threaded (kh_mem h) m (frontier h) b.
Proof.
  intros Hr Hb Hroom Hi Hal. pose proof (rep_ram _ _ Hr) as Rram.
  pose proof (bsize_facts _ Hb) as (Hsz & Hmul & Hs & Hn & _). unfold PAGE_SIZE in Hmul.
  pose proof (frontier_small _ _ Hr) as Hfs.
  assert (Hlo : 2147483648 < frontier h).
  { pose proof (ok_first _ Rram). unfold frontier, MIPS_KSEG0. lia. }
  destruct (rep_refs _ _ Hr i Hi) as [p Hp]. set (fr := frontier h) in *.
  destruct (pab_page fr b) as (_ & _ & Epab); [lia|lia|by apply frontier_aligned|done|].
  set (h2 := set_inuse w (grown h 1)) in *. assert (Hp2 : kh_pagerefs h2 !! i = Some p) by done.
  apply (alter_pr_lookup (set_pab (fr + Z.of_nat b))) in Hp2 as Hp3.
  apply (alter_pr_lookup (set_nfree (nblk b))) in Hp3 as Hp4.
  destruct (thread_page (alter_pr (set_nfree (nblk b)) i (alter_pr (set_pab (fr + Z.of_nat b)) i h2))
              fr b) as (m & Hthr & Hm); [done|lia|lia|].
  exists m. split; [|exact Hm]. unfold new_page.
  destruct (on_ram_alloc h 1 Rram) as [[_ Hrun]|[? _]]; [lia| |done]. kcall Hrun.
  fold fr. rewrite (proj2 (Z.eqb_neq fr 0)) by lia. kcall Hal.
  unfold size_of. rewrite (step_lookup _ (bsize b)) by (by rewrite Nat2Z.id).
  rewrite Epab. fold (nblk b). rewrite (u16_small (nblk b)) by lia.
  kcall (upd_pr_run i (set_pab (fr + Z.of_nat b)) p h2 Hp2).
  kcall (upd_pr_run i (set_nfree (nblk b)) _ _ Hp3).
  kcall (get_pr_run i _ _ Hp4). unfold store at 1. ksteps. cbn [nfree set_nfree].
  kcall Hthr. assert (0 ≤ (nblk b - 1) * bsize b < 4096) by (split; [nia|lia]).
  replace (fr + (nblk b - 1) * bsize b - fr) with ((nblk b - 1) * bsize b) by lia.
  rewrite (u32_small ((nblk b - 1) * bsize b)), (u16_small ((nblk b - 1) * bsize b)) by lia.
  set (h6 := set_mem m _).
  assert (Hp6 : kh_pagerefs h6 !! i = Some (set_nfree (nblk b) (set_pab (fr + Z.of_nat b) p))) by exact Hp4.
  kcall (upd_pr_run i (set_offset ((nblk b - 1) * bsize b)) _ h6 Hp6).
  apply (alter_pr_lookup (set_offset ((nblk b - 1) * bsize b))) in Hp6 as Hp7.
  kcall (get_pr_run i _ _ Hp7).
  rewrite step_assert by (apply Z.eqb_eq; cbn; by rewrite u32_small by lia).
  by rewrite Nat2Z.id.
Qed.

Lemma prepared_rep h pgs b i w m s a :
  kh_rep h pgs → (b < 8)%nat → has_pages h 1 → taken (kh_inuse h) w i → i ∉ pgs.*1 →
  threaded (kh_mem h) m (frontier h) b →
  rd (SizeBase b) h = Some s → rd AllBase h = Some a →
  kh_rep (pushed (prepared h i b w m) i b s a) ((i, fresh_page (frontier h) b) :: pgs).
Proof.
  intros Hr Hb Hroom Htk Hni [Hlink Hmem] Hs Ha. pose proof (rep_ram _ _ Hr) as Rram.
  destruct (rep_refs _ _ Hr i) as [p Hp]; [apply Htk|].
  pose proof (prepared_lookup h i b w m p Hp) as Hp7.
  assert (Hsb := Hs). assert (Hall := Ha). rewrite <-(prepared_rd h i b w m) in Hsb, Hall.
  destruct (pushed_facts _ i b s a _ Hsb Hp7)
    as (F1 & F2 & F3 & F4 & F5 & F6 & F7 & F8 & F9 & F10 & F11).
  destruct (below_frontier _ _ Hr) as [Hb1 Hb2].
  assert (Hfr : frontier (pushed (prepared h i b w m) i b s a) = frontier h + PAGE_SIZE).
  { unfold frontier. rewrite F8. unfold prepared, grown. cbn. lia. }
  apply (rep_push h); try done.
  - apply fresh_page_ok; [apply Htk|done|by apply frontier_aligned| |lia| |].
    + pose proof (ok_first _ Rram). unfold frontier. lia.
    + rewrite F6. by rewrite (pdata_pr _ _ _ Hp7).
    + by rewrite F7.
  - rewrite F8. by apply stolen_ok.
  - rewrite Hfr. unfold PAGE_SIZE. lia.
  - intros j Hj. by apply F11, prepared_other.
  - intros j Hj. rewrite F6. by apply prepared_other.
  - by rewrite F2.
  - by rewrite F4.
  - intros r H1 H2 H3 H4. by rewrite F5, prepared_rd.
Qed.

(** Up to the [goto], a new page is all free and in front of its lists. *)
Lemma new_page_built h pgs b i w :
  kh_rep h pgs → (b < 8)%nat → has_pages h 1 →
  allocpageref (grown h 1) = Done (Some i, set_inuse w (grown h 1)) →
  taken (kh_inuse h) w i → i ∉ pgs.*1 →
  ∃ h', new_page (Z.of_nat b) h = (a <- doalloc i ;; kret (Some a)) h' ∧
    kh_rep h' ((i, fresh_page (frontier h) b) :: pgs) ∧ kh_big h' = kh_big h.
Proof.
  intros Hr Hb Hroom Hal Htk Hni.
  destruct (new_page_prepared h pgs b i w) as (m & Hrun & Hm); try done; [apply Htk|].
  pose proof (chain_base _ _ _ _ (rep_same _ _ Hr b Hb)) as Hs.
  pose proof (chain_base _ _ _ _ (rep_all _ _ Hr)) as Ha.
  destruct (rep_refs _ _ Hr i) as [p Hp]; [apply Htk|].
  eexists. split; [rewrite Hrun; eapply push_links_run|split].
  - by rewrite prepared_rd.
  - by rewrite prepared_rd.
  - by apply prepared_lookup.
  - by apply prepared_rep.
  - done.
Qed.

Lemma upd_page_head i pg pg' pgs :
  i ∉ pgs.*1 → upd_page i pg' ((i, pg) :: pgs) = (i, pg') :: pgs.
Proof.
  intros Hi. unfold upd_page. csimpl. rewrite decide_True by done. f_equal.
  rewrite <-(list_fmap_id pgs) at 2. apply list_fmap_ext. intros n y Hy.
  rewrite decide_False; [done|]. intros <-. apply Hi, list_elem_of_fmap.
  exists y. split; [done|]. by eapply list_elem_of_lookup_2.
Qed.

Lemma all_refs_used h pgs :
  kh_rep h pgs → (∀ j, (j < 256)%nat → inuse_bit (kh_inuse h) j = true) → length pgs = 256%nat.
Proof.
  intros Hr Hfull. apply Nat.le_antisymm; [by eapply pages_bound|].
  pose proof (NoDup_submseteq (seq 0 256) pgs.*1 (NoDup_seq _ _)) as Hs.
  apply submseteq_length in Hs; [by rewrite length_fmap, length_seq in Hs|].
  intros i [_ Hi]%elem_of_seq. specialize (Hfull i Hi). rewrite (rep_inuse _ _ Hr i Hi) in Hfull.
  by apply bool_decide_eq_true in Hfull.
Qed.

Lemma new_page_ok h pgs b :
  kh_rep h pgs → (b < 8)%nat →
  (new_page (Z.of_nat b) h = Panic ∧ ¬ has_pages h 1) ∨
  (∃ h', new_page (Z.of_nat b) h = Done (None, h') ∧ kh_rep h' pgs ∧ kh_big h' = kh_big h ∧
         frontier h ≤ frontier h' ∧ length pgs = 256%nat) ∨
  (∃ i a f h', new_page (Z.of_nat b) h = Done (Some a, h') ∧ i ∉ pgs.*1 ∧
     ap_free (fresh_page (frontier h) b) = a :: f ∧ kh_big h' = kh_big h ∧
     kh_rep h' ((i, with_free f (fresh_page (frontier h) b)) :: pgs)).
Proof.
  intros Hr Hb. pose proof (rep_ram _ _ Hr) as Rram.
  destruct (on_ram_alloc h 1 Rram) as [[Hroom Hrun]|[? Hrun]]; [lia| |].
  2: { left. split; [|done]. unfold new_page, kbind. by rewrite Hrun. }
  right. destruct (allocpageref_ok (grown h 1) (rep_inuse_wf _ _ Hr)) as [(i & w & Hal & Htk)|[Hal Hfull]].
  - right. assert (Hi : i ∉ pgs.*1).
    { destruct Htk as (Hi & Hbit & _). change (kh_inuse (grown h 1)) with (kh_inuse h) in Hbit.
      rewrite (rep_inuse _ _ Hr i Hi) in Hbit. by apply bool_decide_eq_false in Hbit. }
    destruct (new_page_built h pgs b i w) as (h1 & Hrun1 & Hr1 & Hbig); [done..|].
    pose proof (bsize_facts _ Hb) as (_ & _ & _ & ? & _).
    destruct (ap_free (fresh_page (frontier h) b)) as [|a f] eqn:Hfree.
    { unfold fresh_page in Hfree. simpl in Hfree.
      replace (Z.to_nat (nblk b)) with (S (Z.to_nat (nblk b - 1))) in Hfree by lia.
      by rewrite fresh_free_S in Hfree. }
    destruct (doalloc_ok h1 _ i _ a f Hr1 ltac:(left) Hfree) as (h2 & Hrun2 & Hr2 & Hbig2 & _).
    exists i, a, f, h2. rewrite Hrun1. kcall Hrun2. rewrite upd_page_head in Hr2 by done.
    split_and!; try done. congruence.
  - left. exists (grown h 1). split_and!; [|by apply rep_grow|done| |by eapply all_refs_used].
    2: { unfold frontier, grown, PAGE_SIZE. cbn. lia. }
    unfold new_page. kcall Hrun.
    rewrite (proj2 (Z.eqb_neq (frontier h) 0)); [by kcall Hal|].
    destruct Rram. unfold frontier, MIPS_KSEG0. lia.
Qed.
End NewPageRuns.

(** ** The blocks in use *)

(** A block of [len] bytes at [a] that some client holds. *)
Definition live_at (pgs : list (nat * apage)) (a len : Z) : Prop :=
  ∃ i pg, (i, pg) ∈ pgs ∧ a ∈ blocks pg ∧ a ∉ ap_free pg ∧ len = bsize (ap_blk pg).
Definition extent (pgs : list (nat * apage)) (big : gmap Z Z) (a len : Z) : Prop :=
  live_at pgs a len ∨ ∃ n, big !! a = Some n ∧ len = n * PAGE_SIZE.

Section Live.
Implicit Types (h : kheap) (pg : apage) (i : nat) (pgs : list (nat * apage)).

Lemma live_range h pgs a len :
  kh_rep h pgs → live_at pgs a len →
  ∃ i pg, (i, pg) ∈ pgs ∧ a ∈ blocks pg ∧ a ∉ ap_free pg ∧ (ap_blk pg < 8)%nat ∧
    len = bsize (ap_blk pg) ∧ 16 ≤ len ∧ MIPS_KSEG0 < ap_addr pg ∧ ap_addr pg ≤ a ∧
    a + len ≤ ap_addr pg + PAGE_SIZE ∧ ap_addr pg + PAGE_SIZE ≤ frontier h.
Proof.
  intros Hr (i & pg & Hin & Hb & Hf & ->).
  pose proof (rep_pages _ _ Hr _ _ Hin) as [_ Hblk _ [? ?] _ _ _ _].
  pose proof (bsize_facts _ Hblk) as (_ & _ & ? & _).
  destruct (block_range a pg Hblk Hb) as (? & ? & _).
  exists i, pg. split_and!; done || lia.
Qed.

(** No two blocks in use overlap. *)
Lemma extent_disjoint h pgs a n b m :
  kh_rep h pgs → extent pgs (kh_big h) a n → extent pgs (kh_big h) b m → a ≠ b →
  a + n ≤ b ∨ b + m ≤ a.
Proof.
  intros Hr [Ha|(k & Ha & ->)] [Hb|(l & Hb & ->)] Hne.
  - destruct (live_range _ _ _ _ Hr Ha) as (i & pg & Hi & Hab & _ & Hblk & -> & ? & ? & ? & ? & ?).
    destruct (live_range _ _ _ _ Hr Hb) as (j & qg & Hj & Hbb & _ & _ & -> & ? & ? & ? & ? & ?).
    destruct (decide (ap_addr pg = ap_addr qg)) as [E|Hd].
    + assert (i = j) as -> by (by eapply (rep_addrs _ _ Hr)).
      pose proof (page_functional _ _ _ _ _ Hr Hi Hj) as ->. by apply block_disjoint.
    + pose proof (po_align _ _ _ (rep_pages _ _ Hr _ _ Hi)) as Ea.
      pose proof (po_align _ _ _ (rep_pages _ _ Hr _ _ Hj)) as Eb.
      pose proof (Z_div_mod_eq_full (ap_addr pg) PAGE_SIZE).
      pose proof (Z_div_mod_eq_full (ap_addr qg) PAGE_SIZE). unfold PAGE_SIZE in *. lia.
  - destruct (live_range _ _ _ _ Hr Ha) as (i & pg & Hi & _ & _ & _ & -> & ? & ? & ? & ? & ?).
    destruct (rep_big_page _ _ Hr _ _ _ _ Hb Hi); lia.
  - destruct (live_range _ _ _ _ Hr Hb) as (i & pg & Hi & _ & _ & _ & -> & ? & ? & ? & ? & ?).
    destruct (rep_big_page _ _ Hr _ _ _ _ Ha Hi); lia.
  - by eapply (rep_big_big _ _ Hr).
Qed.

Lemma extent_functional h pgs a n m :
  kh_rep h pgs → extent pgs (kh_big h) a n → extent pgs (kh_big h) a m → n = m.
Proof.
  intros Hr [Ha|(k & Ha & ->)] [Hb|(l & Hb & ->)].
  - destruct (live_range _ _ _ _ Hr Ha) as (i & pg & Hi & _ & _ & _ & -> & ? & ? & ? & ? & ?).
    destruct (live_range _ _ _ _ Hr Hb) as (j & qg & Hj & _ & _ & _ & -> & ? & ? & ? & ? & ?).
    destruct (page_unique _ _ _ _ _ _ a Hr Hi Hj) as [_ ->]; lia || done.
  - destruct (live_range _ _ _ _ Hr Ha) as (i & pg & Hi & _ & _ & _ & -> & ? & ? & ? & ? & ?).
    destruct (rep_big _ _ Hr _ _ Hb) as (_ & ? & _). unfold PAGE_SIZE in *.
    destruct (rep_big_page _ _ Hr _ _ _ _ Hb Hi); unfold PAGE_SIZE in *; lia.
  - destruct (live_range _ _ _ _ Hr Hb) as (i & pg & Hi & _ & _ & _ & -> & ? & ? & ? & ? & ?).
    destruct (rep_big _ _ Hr _ _ Ha) as (_ & ? & _). unfold PAGE_SIZE in *.
    destruct (rep_big_page _ _ Hr _ _ _ _ Ha Hi); unfold PAGE_SIZE in *; lia.
  - congruence.
Qed.

Lemma live_taken h pgs i pg a f x len :
  kh_rep h pgs → (i, pg) ∈ pgs → ap_free pg = a :: f →
  live_at (upd_page i (with_free f pg) pgs) x len ↔
  live_at pgs x len ∨ (x = a ∧ len = bsize (ap_blk pg)).
Proof.
  intros Hr Hin Hf. pose proof (rep_pages _ _ Hr _ _ Hin) as [_ _ _ _ _ Hs Hnd _].
  rewrite Hf in Hs, Hnd. apply NoDup_cons in Hnd as [Ha _]. split.
  - intros (j & qg & [[Hne Hq]|(-> & -> & _)]%elem_of_upd & Hb & Hnf & ->).
    + left. by exists j, qg.
    + destruct (decide (x = a)) as [->|]; [by right|left]. exists i, pg.
      rewrite Hf. simpl in Hnf. split_and!; [done..| |done]. set_solver.
  - intros [(j & qg & Hq & Hb & Hnf & ->)|[-> ->]].
    + destruct (decide (j = i)) as [->|].
      * pose proof (page_functional _ _ _ _ _ Hr Hq Hin) as ->.
        exists i, (with_free f pg). rewrite Hf in Hnf. split_and!; [|done| |done].
        -- apply elem_of_upd. right. split_and!; [done..|]. apply list_elem_of_fmap. by exists (i, pg).
        -- simpl. set_solver.
      * exists j, qg. split_and!; [|done..]. apply elem_of_upd. by left.
    + exists i, (with_free f pg). split_and!; [|apply Hs; left|done|done].
      apply elem_of_upd. right. split_and!; [done..|]. apply list_elem_of_fmap. by exists (i, pg).
Qed.

Lemma live_pushed addr b pgs i a f x len :
  (b < 8)%nat → ap_free (fresh_page addr b) = a :: f →
  live_at ((i, with_free f (fresh_page addr b)) :: pgs) x len ↔
  live_at pgs x len ∨ (x = a ∧ len = bsize b).
Proof.
  intros Hb Hf. pose proof (fresh_page_blocks addr b Hb) as Hperm.
  pose proof (NoDup_blocks (fresh_page addr b) Hb) as Hnd. rewrite <-Hperm, Hf in Hnd.
  apply NoDup_cons in Hnd as [Ha _]. split.
  - intros (j & qg & [[= -> ->]|Hq]%elem_of_cons & Hblk & Hnf & ->); [right|left; by exists j, qg].
    split; [|done]. rewrite blocks_with_free, <-Hperm, Hf in Hblk. simpl in Hnf. set_solver.
  - intros [(j & qg & Hq & Hblk & Hnf & ->)|[-> ->]].
    + exists j, qg. split_and!; [by right|done..].
    + exists i, (with_free f (fresh_page addr b)). split_and!; [left| |done|done].
      rewrite blocks_with_free, <-Hperm, Hf. left.
Qed.
End Live.

(** ** Allocation *)

Section Kmalloc.
Implicit Types (h : kheap) (pg : apage) (i : nat) (pgs : list (nat * apage)).

Lemma blocktype_from_ok ss k sz h :
  (∃ s, s ∈ ss ∧ sz ≤ s) →
  ∃ b s, blocktype_from (Z.of_nat k) ss sz h = Done (Z.of_nat (k + b), h) ∧
         ss !! b = Some s ∧ sz ≤ s ∧ (∀ c t, (c < b)%nat → ss !! c = Some t → t < sz).
Proof.
  revert k. induction ss as [|s ss IH]; intros k (x & Hx & Hle); [set_solver|].
  cbn [blocktype_from]. destruct (Z.leb_spec sz s) as [Hs|Hs].
  - exists 0%nat, s. rewrite Nat.add_0_r. split_and!; try done. lia.
  - destruct (IH (S k)) as (b & t & Hrun & Hb & Ht & Hmin).
    { apply elem_of_cons in Hx as [->|Hx]; [lia|by exists x]. }
    exists (S b), t. replace (Z.of_nat k + 1) with (Z.of_nat (S k)) by lia.
    replace (k + S b)%nat with (S k + b)%nat by lia. split_and!; [done..|].
    intros [|c] u Hc Hu; simpl in Hu; [by simplify_eq|]. apply (Hmin c); [lia|done].
Qed.

(** The smallest size that fits. *)
Lemma blocktype_ok sz h :
  sz ≤ 2048 →
  ∃ b, (b < 8)%nat ∧ blocktype sz h = Done (Z.of_nat b, h) ∧ sz ≤ bsize b ∧
       ∀ c, (c < b)%nat → bsize c < sz.
Proof.
  intros Hsz. destruct (blocktype_from_ok sizes 0 sz h) as (b & s & Hrun & Hb & Hle & Hmin).
  { exists 2048. split; [|done]. unfold sizes. set_solver. }
  assert (Hlt : (b < 8)%nat) by (by apply lookup_lt_Some in Hb).
  exists b. split_and!; [done|done| |].
  - unfold bsize. by rewrite Hb.
  - intros c Hc. destruct (lookup_lt_is_Some_2 sizes c) as [t Ht]; [simpl; lia|].
    unfold bsize. rewrite Ht. simpl. by apply (Hmin c).
Qed.

(** What a successful allocation of [len] bytes at [a] does. *)
Definition allocates h pgs h' (a len : Z) : Prop :=
  ∃ pgs', kh_rep h' pgs' ∧ evolves h pgs h' pgs' ∧
    ∀ x l, extent pgs' (kh_big h') x l ↔ extent pgs (kh_big h) x l ∨ (x = a ∧ l = len).

Lemma subpage_kmalloc_ok h pgs sz :
  kh_rep h pgs → sz ≤ 2048 →
  (subpage_kmalloc sz h = Panic ∧ ¬ has_pages h 1) ∨
  (∃ h', subpage_kmalloc sz h = Done (None, h') ∧ kh_rep h' pgs ∧ kh_big h' = kh_big h ∧
         evolves h pgs h' pgs ∧ length pgs = 256%nat) ∨
  (∃ a b h', subpage_kmalloc sz h = Done (Some a, h') ∧ (b < 8)%nat ∧ sz ≤ bsize b ∧
     (∀ c, (c < b)%nat → bsize c < sz) ∧ (∀ l, ¬ live_at pgs a l) ∧
     allocates h pgs h' a (bsize b)).
Proof.
  intros Hr Hsz. destruct (blocktype_ok sz h Hsz) as (b & Hb & Hrun & Hfit & Hmin).
  pose proof (rep_same _ _ Hr b Hb) as Hc. unfold subpage_kmalloc. kcall Hrun.
  rewrite Nat2Z.id. kcall (read_link_run _ _ _ (chain_base _ _ _ _ Hc)).
  destruct (find_page_ok h pgs b (SizeBase b) _ list_fuel Hr Hc)
    as [(i & pg & a & f & Hfind & Hin & <- & Hf)|[Hfind _]].
  { rewrite length_fmap. pose proof (pages_bound _ _ Hr).
    pose proof (length_filter (λ x : nat * apage, ap_blk x.2 = b) pgs). unfold list_fuel. lia. }
  { intros i ([j pg] & -> & [? ?]%list_elem_of_filter)%list_elem_of_fmap. by exists pg. }
  - kcall Hfind. right. right.
    destruct (doalloc_ok h pgs i pg a f Hr Hin Hf) as (h' & Hal & Hr' & Hbig & Hram). kcall Hal.
    exists a, (ap_blk pg), h'. split_and!; try done.
    + intros l (j & qg & Hq & Hqb & Hqf & _).
      pose proof (rep_pages _ _ Hr _ _ Hin) as [_ ? _ _ _ Hs _ _].
      destruct (block_range a pg) as (? & ? & _); [done|apply Hs; rewrite Hf; left|].
      pose proof (rep_pages _ _ Hr _ _ Hq) as [_ ? _ _ _ _ _ _].
      destruct (block_range a qg) as (? & ? & _); [done..|].
      pose proof (bsize_facts (ap_blk pg)). pose proof (bsize_facts (ap_blk qg)).
      destruct (page_unique _ _ _ _ _ _ a Hr Hin Hq) as [_ ->]; [lia|lia|].
      apply Hqf. rewrite Hf. left.
    + exists (upd_page i (with_free f pg) pgs). split; [done|]. split.
      { apply evolves_same_pages; [done..|]. intros j qg Hq. by eapply upd_page_addrs. }
      intros x l. unfold extent.
      rewrite Hbig, (live_taken h) by done. tauto.
  - kcall Hfind. destruct (new_page_ok h pgs b Hr Hb)
      as [?|[(h' & Hnew & Hr' & Hbig & Hfr & Hlen)|(i & a & f & h' & Hnew & Hi & Hf & Hbig & Hr')]];
      [by left|right; left|].
    { exists h'. split_and!; try done. constructor; [done|]. intros x Hx. rewrite Hbig in Hx. by left. }
    right. right. exists a, b, h'. split_and!; try done.
    + intros l Hl. destruct (live_range _ _ _ _ Hr Hl) as (j & qg & _ & _ & _ & _ & _ & ? & ? & ? & ? & ?).
      assert (Ha : a ∈ blocks (fresh_page (frontier h) b)).
      { rewrite <-fresh_page_blocks by done. rewrite Hf. left. }
      apply block_range in Ha as (? & ? & _); [|done]. simpl in *. lia.
    + eexists. split; [exact Hr'|]. split; [|intros x l; unfold extent].
      { pose proof (rep_pages _ _ Hr' i _ ltac:(left)) as [_ _ _ [_ Hrng] _ _ _ _]. simpl in Hrng.
        constructor; [unfold PAGE_SIZE in *; lia|]. intros x [(j & qg & Hq & Hx)|Hx].
        - apply elem_of_cons in Hq as [[= -> ->]|Hq]; [|left; left; eauto].
          right. unfold in_page in Hx. simpl in Hx. lia.
        - left. right. by rewrite <-Hbig. }
      rewrite Hbig, live_pushed by done. tauto.
Qed.

(** Whole pages. *)
Lemma rep_big_insert h pgs n :
  kh_rep h pgs → 1 ≤ n ≤ 2 ^ 19 → has_pages h n →
  kh_rep (set_big (<[frontier h := n]> (kh_big h)) (grown h n)) pgs.
Proof.
  intros Hr Hn Hroom. destruct (below_frontier _ _ Hr) as [Hb1 Hb2].
  pose proof (rep_ram _ _ Hr) as Rram. pose proof (ok_first _ Rram).
  pose proof (rep_grow h pgs n Hr ltac:(lia) Hroom)
    as [Rr Rrefs Rwf Riu Rnd Rall Rsame Rpg Raddr Rbig Rbb Rbp].
  assert (Hfr : frontier (grown h n) = frontier h + n * PAGE_SIZE).
  { unfold frontier, grown. cbn. lia. }
  constructor; try done; simpl.
  - eapply chain_ext; [|exact Rall]. by intros [].
  - intros b Hb. eapply chain_ext; [|by apply Rsame]. by intros [].
  - intros i pg Hin. by eapply page_ok_frame; [apply Rpg| | |].
  - intros a k [[<- <-]|[_ Ha]]%lookup_insert_Some; [|by apply Rbig].
    split_and!; [by apply frontier_aligned|lia|unfold frontier; lia|].
    change (frontier h + n * PAGE_SIZE ≤ frontier (grown h n)). lia.
  - intros a k b l [[<- <-]|[_ Ha]]%lookup_insert_Some [[<- <-]|[_ Hb]]%lookup_insert_Some Hne; try done.
    + right. by apply Hb2.
    + left. by apply Hb2.
    + by eapply Rbb.
  - intros a k i pg [[<- <-]|[_ Ha]]%lookup_insert_Some Hin; [|by eapply Rbp].
    right. by eapply Hb1.
Qed.

(** The pages a large request takes. *)
Definition pages_for (sz : Z) : Z := (sz + PAGE_SIZE - 1) / PAGE_SIZE.

Lemma pages_for_run sz : 0 ≤ sz ≤ 2 ^ 31 → u32 (u32 (sz + PAGE_SIZE) - 1) / PAGE_SIZE = pages_for sz.
Proof. intros. unfold pages_for, PAGE_SIZE. by nowrap. Qed.

Lemma pages_for_range sz :
  2048 ≤ sz ≤ 2 ^ 31 → 1 ≤ pages_for sz ≤ 2 ^ 19 ∧ sz ≤ pages_for sz * PAGE_SIZE < sz + PAGE_SIZE.
Proof.
  intros. unfold pages_for, PAGE_SIZE.
  pose proof (Z_div_mod_eq_full (sz + 4096 - 1) 4096).
  pose proof (Z.mod_pos_bound (sz + 4096 - 1) 4096). lia.
Qed.

Lemma kmalloc_big_ok h pgs sz :
  kh_rep h pgs → 2048 ≤ sz ≤ 2 ^ 31 →
  (kmalloc sz h = Panic ∧ ¬ has_pages h (pages_for sz)) ∨
  (∃ h', kmalloc sz h = Done (Some (frontier h), h') ∧ (∀ l, ¬ extent pgs (kh_big h) (frontier h) l) ∧
     allocates h pgs h' (frontier h) (pages_for sz * PAGE_SIZE)).
Proof.
  intros Hr Hsz. pose proof (pages_for_range _ Hsz) as [Hn _].
  pose proof (rep_ram _ _ Hr) as Rram.
  unfold kmalloc, LARGEST_SUBPAGE_SIZE. rewrite (proj2 (Z.leb_le 2048 sz)) by lia.
  rewrite pages_for_run by lia.
  destruct (on_ram_alloc h (pages_for sz) Rram) as [[Hroom Hrun]|[? Hrun]]; [lia| |].
  2: { left. split; [|done]. unfold kbind. by rewrite Hrun. }
  right. kcall Hrun. rewrite (proj2 (Z.eqb_neq (frontier h) 0))
    by (pose proof (ok_first _ Rram); unfold frontier, MIPS_KSEG0; lia).
  eexists. split; [reflexivity|]. destruct (below_frontier _ _ Hr) as [Hb1 Hb2].
  assert (Hfresh : ∀ l, ¬ extent pgs (kh_big h) (frontier h) l).
  { intros l [Hl|(k & Hk & ->)].
    - destruct (live_range _ _ _ _ Hr Hl) as (? & ? & _ & _ & _ & _ & _ & ? & ? & ? & ? & ?). lia.
    - specialize (Hb2 _ _ Hk). destruct (rep_big _ _ Hr _ _ Hk). unfold PAGE_SIZE in *. lia. }
  split; [done|]. exists pgs. split; [exact (rep_big_insert h pgs _ Hr Hn Hroom)|]. split.
  { constructor; [unfold frontier; cbn; unfold PAGE_SIZE; lia|]. intros x [Hx|(b & n & Hb & Hx)].
    - left. by left.
    - simpl in Hb. apply lookup_insert_Some in Hb as [[<- <-]|[_ Hb]]; [right; lia|].
      left. right. eauto. }
  intros x l. unfold extent. simpl. setoid_rewrite lookup_insert_Some. split.
  - intros [?|(k & [[<- <-]|[_ Hk]] & ->)]; [by left; left|by right|left; right; eauto].
  - intros [[?|(k & Hk & ->)]|[-> ->]]; [by left| |right; eauto].
    right. exists k. split; [|done]. right. split; [|done]. intros <-.
    eapply Hfresh. right. eauto.
Qed.
End Kmalloc.
