(* ===== verification/KmallocFree.v ===== *)
(** * The kernel allocator: freeing, and the theorems

    [kfree] finds the page a block is on, poisons the block, puts it in front
    of the page's free list and gives the page reference back when the page is
    all free.  The last section shows that the allocator is a [KernelHeap] and
    states its properties. *)

From stdpp Require Import base numbers list gmap fin_maps.
From Stdlib Require Import ZArith Lia.
From S2P Require Import Prelude PhysMem KernelHeap Kmalloc KmallocSpec.

Open Scope Z_scope.
Open Scope kernel_scope.

Section FindOwner.
Implicit Types (h : kheap) (pg : apage) (i : nat) (pgs : list (nat * apage)).

Lemma find_owner_ok h pgs ptr guy l fuel :
  kh_rep h pgs → chain h NextAll guy l → (length l < fuel)%nat →
  (∀ i, i ∈ l → ∃ pg, (i, pg) ∈ pgs) →
  (∃ i pg, i ∈ l ∧ (i, pg) ∈ pgs ∧ in_page pg ptr ∧
     find_owner fuel ptr (head l) h =
       Done (Some (i, ap_addr pg, Z.of_nat (ap_blk pg)), h)) ∨
  (find_owner fuel ptr (head l) h = Done (None, h) ∧
   ∀ i pg, i ∈ l → (i, pg) ∈ pgs → ¬ in_page pg ptr).
Proof.
  intros Hr. revert guy fuel. induction l as [|i l IH]; intros guy [|fuel] Hc Hf Hl;
    simpl in Hf; try lia.
  { right. split; [done|]. intros i pg Hi. set_solver. }
  destruct Hc as [_ Hc]. destruct (Hl i) as (pg & Hin); [left|].
  destruct (page_ref_data _ _ _ _ Hr Hin) as (p & Hp & Ea & Eb & _).
  pose proof (rep_pages _ _ Hr _ _ Hin) as [_ Hb _ [Hlo Hhi] _ _ _ _].
  pose proof (frontier_small _ _ Hr). unfold MIPS_KSEG0, PAGE_SIZE in Hlo, Hhi.
  cbn [find_owner head]. kcall (get_pr_run _ _ _ Hp). rewrite Ea, Eb.
  rewrite step_assert by (apply andb_true_intro; split; [apply Z.leb_le|apply Z.ltb_lt];
    unfold NSIZES; lia).
  rewrite (u32_small (ap_addr pg + PAGE_SIZE)) by (unfold PAGE_SIZE; lia).
  destruct (decide (in_page pg ptr)) as [Hpage|Hpage]; unfold in_page in Hpage.
  - left. exists i, pg. rewrite (proj2 (Z.leb_le _ _)), (proj2 (Z.ltb_lt _ _)) by lia.
    split_and!; [left|done|apply Hpage..|done].
  - replace ((ap_addr pg <=? ptr) && (ptr <? ap_addr pg + PAGE_SIZE))%bool with false.
    2: { symmetry. apply andb_false_iff. rewrite Z.leb_gt, Z.ltb_ge. lia. }
    assert (E : next_all p = head l).
    { pose proof (chain_base _ _ _ _ Hc) as E. simpl in E. rewrite Hp in E. simpl in E. congruence. }
    rewrite E. destruct (IH (NextAll i) fuel) as [(j & qg & ? & ? & ? & ?)|[Hrun Hnone]]; [done|lia| | |].
    { intros j Hj. apply Hl. by right. }
    + left. exists j, qg. split_and!; [by right|done..].
    + right. split; [done|]. intros j qg [->|Hj]%elem_of_cons Hq; [|by eapply Hnone].
      by rewrite (page_functional _ _ _ _ _ Hr Hq Hin).
Qed.

(** The page an address is on, from the head of the list of all pages. *)
Lemma find_owner_all h pgs ptr base :
  kh_rep h pgs → rd AllBase h = Some base →
  (∃ i pg, (i, pg) ∈ pgs ∧ in_page pg ptr ∧
     find_owner list_fuel ptr base h = Done (Some (i, ap_addr pg, Z.of_nat (ap_blk pg)), h)) ∨
  (find_owner list_fuel ptr base h = Done (None, h) ∧
   ∀ i pg, (i, pg) ∈ pgs → ¬ in_page pg ptr).
Proof.
  intros Hr Hbase. pose proof (rep_all _ _ Hr) as Hc.
  rewrite (chain_base _ _ _ _ Hc) in Hbase. injection Hbase as <-.
  destruct (find_owner_ok h pgs ptr AllBase pgs.*1 list_fuel Hr Hc)
    as [(i & pg & _ & ?)|[Hrun Hnone]].
  - rewrite length_fmap. pose proof (pages_bound _ _ Hr). unfold list_fuel. lia.
  - intros i ([j pg] & -> & ?)%list_elem_of_fmap. by exists pg.
  - left. eauto.
  - right. split; [done|]. intros i pg Hin. apply (Hnone i); [|done].
    apply list_elem_of_fmap. by exists (i, pg).
Qed.

(** Poisoning writes the block's own words only. *)
Lemma fill_words_ok ptr n k h :
  0 ≤ ptr → 0 ≤ k → ptr + 4 * (k + Z.of_nat n) < 2 ^ 32 →
  ∃ m, fill_words ptr (seqZ k (Z.of_nat n)) h = Done (tt, set_mem m h) ∧
    ∀ a, ¬ (ptr + 4 * k ≤ a < ptr + 4 * (k + Z.of_nat n)) → m !! a = kh_mem h !! a.
Proof.
  intros Hp. revert k h. induction n as [|n IH]; intros k h Hk Hb.
  { exists (kh_mem h). by destruct h. }
  rewrite seqZ_cons by lia. cbn [fill_words]. unfold Z.succ.
  replace (Z.pred (Z.of_nat (S n))) with (Z.of_nat n) by lia.
  unfold store at 1. ksteps. rewrite u32_small by lia. set (h1 := set_mem _ h).
  destruct (IH (k + 1) h1) as (m & Hrun & Hm); [lia|lia|].
  exists m. split; [by rewrite Hrun|]. intros a Ha. rewrite Hm by lia.
  apply lookup_insert_ne. lia.
Qed.

Lemma fill_deadbeef_ok ptr len h :
  0 ≤ ptr → 0 ≤ len → ptr + len < 2 ^ 32 →
  ∃ m, fill_deadbeef ptr len h = Done (tt, set_mem m h) ∧
    ∀ a, ¬ (ptr ≤ a < ptr + len) → m !! a = kh_mem h !! a.
Proof.
  intros Hp Hl Hb. pose proof (Z_div_mod_eq_full len 4). pose proof (Z.mod_pos_bound len 4).
  destruct (fill_words_ok ptr (Z.to_nat (len / 4)) 0 h) as (m & Hrun & Hm); [lia|lia|lia|].
  exists m. unfold fill_deadbeef. rewrite Z2Nat.id in Hrun, Hm by lia. split; [done|].
  intros a Ha. apply Hm. lia.
Qed.
End FindOwner.

(** ** Putting a block back *)

Section PutBack.
Implicit Types (h : kheap) (pg : apage) (i : nat) (pgs : list (nat * apage)).

Definition put_back h i (p : pageref) (o : Z) (m : gmap Z Z) : kheap :=
  alter_pr (set_nfree (nfree p + 1)) i (alter_pr (set_offset o) i (set_mem m h)).

Lemma put_back_rep h pgs i pg p a m :
  kh_rep h pgs → (i, pg) ∈ pgs → a ∈ blocks pg → a ∉ ap_free pg →
  kh_pagerefs h !! i = Some p → nfree p = Z.of_nat (length (ap_free pg)) →
  pageaddr_and_blocktype p = ap_addr pg + Z.of_nat (ap_blk pg) →
  m !! a = Some (default 0 (head (ap_free pg))) →
  (∀ x, ¬ (a ≤ x < a + bsize (ap_blk pg)) → m !! x = kh_mem h !! x) →
  kh_rep (put_back h i p (a - ap_addr pg) m) (upd_page i (with_free (a :: ap_free pg) pg) pgs).
Proof.
  intros Hr Hin Ha Hna Hp En Epab Hma Hmo.
  pose proof (rep_pages _ _ Hr _ _ Hin) as [Hi Hb Hal Hrng Hd Hs Hnd Hl].
  destruct (block_range a pg Hb Ha) as (? & ? & _). pose proof (bsize_facts _ Hb) as (_ & _ & ? & _).
  eapply (rep_update h); try done.
  - intros r. unfold put_back. rewrite !rd_alter_pr by done. by destruct r.
  - intros j Hj. by do 2 apply alter_pr_refs.
  - intros j Hj. unfold put_back. by rewrite !pdata_alter_ne.
  - intros x Hx. apply Hmo. lia.
  - constructor; try done.
    + assert (Hp1 : kh_pagerefs (set_mem m h) !! i = Some p) by done.
      unfold put_back. erewrite pdata_pr by (by apply alter_pr_lookup, alter_pr_lookup).
      simpl. rewrite Epab, En. do 2 f_equal. lia.
    + intros x [->|Hx]%elem_of_cons; [done|by apply Hs].
    + by apply NoDup_cons.
    + split; [done|]. eapply linked_ext; [|exact Hl]. intros x Hx. apply Hmo.
      destruct (block_disjoint a x pg Hb Ha) as [?|?]; [by apply Hs|by intros ->|lia|].
      destruct (block_range x pg Hb) as (? & ? & _); [by apply Hs|]. lia.
Qed.

Lemma live_put_back h pgs i pg a x len :
  kh_rep h pgs → (i, pg) ∈ pgs → a ∈ blocks pg →
  live_at (upd_page i (with_free (a :: ap_free pg) pg) pgs) x len ↔
  live_at pgs x len ∧ x ≠ a.
Proof.
  intros Hr Hin Ha. pose proof (rep_pages _ _ Hr _ _ Hin) as [_ Hb _ _ _ _ _ _].
  assert (Hother : ∀ j qg, (j, qg) ∈ pgs → j ≠ i → x ∈ blocks qg → x ≠ a).
  { intros j qg Hq Hne Hx ->. pose proof (rep_pages _ _ Hr _ _ Hq) as [_ Hb' _ _ _ _ _ _].
    destruct (block_range a pg Hb Ha) as (? & ? & _), (block_range a qg Hb' Hx) as (? & ? & _).
    pose proof (bsize_facts _ Hb) as (_ & _ & ? & _). pose proof (bsize_facts _ Hb') as (_ & _ & ? & _).
    by destruct (page_unique _ _ _ _ _ _ a Hr Hin Hq) as [-> _]; [lia|lia|]. }
  split.
  - intros (j & qg & [[Hne Hq]|(-> & -> & _)]%elem_of_upd & Hx & Hnf & ->).
    + split; [by exists j, qg|by eapply Hother].
    + simpl in Hnf. split; [|set_solver]. exists i, pg. split_and!; [done..| |done]. set_solver.
  - intros [(j & qg & Hq & Hx & Hnf & ->) Hne]. destruct (decide (j = i)) as [->|Hj].
    + pose proof (page_functional _ _ _ _ _ Hr Hq Hin) as ->.
      exists i, (with_free (a :: ap_free pg) pg). split_and!; [|done| |done].
      * apply elem_of_upd. right. split_and!; [done..|]. apply list_elem_of_fmap. by exists (i, pg).
      * simpl. set_solver.
    + exists j, qg. split_and!; [|done..]. apply elem_of_upd. by left.
Qed.

End PutBack.

(** ** Giving a page up *)

(** The references of the pages of one block size. *)
Definition of_size (b : nat) (pgs : list (nat * apage)) : list nat :=
  (filter (λ x, ap_blk x.2 = b) pgs).*1.

Section GiveUp.
Implicit Types (h : kheap) (pg : apage) (i : nat) (pgs : list (nat * apage)).

Lemma of_size_app b l1 l2 : of_size b (l1 ++ l2) = of_size b l1 ++ of_size b l2.
Proof. unfold of_size. by rewrite filter_app, fmap_app. Qed.

Lemma of_size_cons b i pg l :
  of_size b ((i, pg) :: l) = if decide (ap_blk pg = b) then i :: of_size b l else of_size b l.
Proof. unfold of_size. rewrite filter_cons. simpl. by case_decide. Qed.

Lemma elem_of_of_size b i pgs : i ∈ of_size b pgs ↔ ∃ pg, (i, pg) ∈ pgs ∧ ap_blk pg = b.
Proof.
  unfold of_size. rewrite list_elem_of_fmap. split.
  - intros ([j pg] & -> & [? ?]%list_elem_of_filter). by exists pg.
  - intros (pg & ? & ?). exists (i, pg). split; [done|]. by apply list_elem_of_filter.
Qed.

Lemma NoDup_of_size b pgs : NoDup pgs.*1 → NoDup (of_size b pgs).
Proof.
  intros Hnd. eapply sublist_NoDup; [exact Hnd|]. apply fmap_sublist, sublist_filter.
Qed.

Lemma length_of_size b pgs : (length (of_size b pgs) ≤ length pgs)%nat.
Proof. unfold of_size. rewrite length_fmap. apply length_filter. Qed.

Lemma remove_lists_ok h l1 i pg l2 :
  kh_rep h (l1 ++ (i, pg) :: l2) →
  ∃ r1 x1 r2 x2, let h' := wr r2 x2 (wr r1 x1 h) in
    remove_lists i (Z.of_nat (ap_blk pg)) h = Done (tt, h') ∧
    chain h' NextAll AllBase (l1 ++ l2).*1 ∧
    (∀ b, (b < 8)%nat → chain h' NextSame (SizeBase b) (of_size b (l1 ++ l2))).
Proof.
  intros Hr. pose proof (rep_nodup _ _ Hr) as Hnd.
  pose proof (po_blk _ _ _ (rep_pages _ _ Hr i pg ltac:(set_solver))) as Hb.
  pose proof (pages_bound _ _ Hr) as Hlen. rewrite length_app in Hlen. simpl in Hlen.
  pose proof (rep_same _ _ Hr _ Hb) as Hsame.
  change (chain h NextSame (SizeBase (ap_blk pg)) (of_size (ap_blk pg) (l1 ++ (i, pg) :: l2))) in Hsame.
  pose proof (NoDup_of_size (ap_blk pg) _ Hnd) as Hnds.
  rewrite of_size_app, of_size_cons, decide_True in Hsame, Hnds by done.
  pose proof (length_of_size (ap_blk pg) l1) as Hl1.
  destruct (unlink_ok h NextSame (SizeBase (ap_blk pg)) _ i _ list_fuel (ltac:(by intros ?? [=]))
    Hnds ltac:(done) Hsame) as (r1 & x1 & Hrun1 & Hr1 & Hc1); [unfold list_fuel; lia|].
  pose proof (rep_all _ _ Hr) as Hall. rewrite fmap_app in Hall, Hnd. csimpl in Hall.
  destruct (unlink_ok (wr r1 x1 h) NextAll AllBase l1.*1 i l2.*1 list_fuel (ltac:(by intros ?? [=])))
    as (r2 & x2 & Hrun2 & Hr2 & Hc2); [done|done| |rewrite length_fmap; unfold list_fuel; lia|].
  { apply chain_frame; [| |done]; destruct Hr1 as [->|(k & _ & ->)]; done. }
  exists r1, x1, r2, x2. cbn zeta. split_and!.
  - unfold remove_lists. rewrite step_assert
      by (apply andb_true_intro; split; [apply Z.leb_le|apply Z.ltb_lt]; unfold NSIZES; lia).
    rewrite Nat2Z.id. by kcall Hrun1.
  - by rewrite fmap_app.
  - intros b Hb'. apply chain_frame; [by destruct Hr2 as [->|(k & _ & ->)]..|].
    destruct (decide (b = ap_blk pg)) as [->|Hne]; [by rewrite of_size_app|].
    pose proof (rep_same _ _ Hr _ Hb') as Hsame'.
    change (chain h NextSame (SizeBase b) (of_size b (l1 ++ (i, pg) :: l2))) in Hsame'.
    rewrite of_size_app, of_size_cons, decide_False, <-of_size_app in Hsame' by done.
    apply chain_frame; [|intros k Hk|done].
    + destruct Hr1 as [->|(k & _ & ->)]; [|done]. congruence.
    + destruct Hr1 as [->|(j & Hj & ->)]; [done|]. intros [= ->].
      apply elem_of_of_size in Hk as (qg & Hq & Hqb). apply elem_of_of_size in Hj as (rg & Hrg & Hrb).
      assert (qg = rg) as ->; [|congruence].
      eapply (page_functional _ _ k _ _ Hr); set_solver.
Qed.

(** A page with no block in use can leave the lists. *)
Lemma rep_give_up h h' l1 i pg l2 w :
  kh_rep h (l1 ++ (i, pg) :: l2) →
  chain h' NextAll AllBase (l1 ++ l2).*1 →
  (∀ b, (b < 8)%nat → chain h' NextSame (SizeBase b) (of_size b (l1 ++ l2))) →
  (∀ j, pdata h' j = pdata h j) → (∀ j, is_Some (kh_pagerefs h !! j) → is_Some (kh_pagerefs h' !! j)) →
  kh_mem h' = kh_mem h → kh_ram h' = kh_ram h → kh_big h' = kh_big h → kh_inuse h' = w →
  inuse_wf w → (∀ j, inuse_bit w j = inuse_bit (kh_inuse h) j && negb (j =? i)%nat) →
  kh_rep h' (l1 ++ l2).
Proof.
  intros Hr Hc Hcs Hpd Hsome Hmem Hram Hbig Hw Hwf Hbits.
  pose proof Hr as [Rram Rrefs Rwf Riu Rnd Rall Rsame Rpg Raddr Rbig Rbb Rbp].
  assert (Hsub : ∀ x, x ∈ l1 ++ l2 → x ∈ l1 ++ (i, pg) :: l2) by set_solver.
  assert (Hfr : frontier h' = frontier h) by (unfold frontier; by rewrite Hram).
  rewrite fmap_app in Rnd. csimpl in Rnd.
  assert (Hi : i ∉ (l1 ++ l2).*1).
  { apply NoDup_app in Rnd as (_ & Hd & [Hi _]%NoDup_cons). rewrite fmap_app.
    intros [Hx|Hx]%elem_of_app; [|done]. apply (Hd i Hx). left. }
  constructor; rewrite ?Hmem, ?Hram, ?Hbig, ?Hw; try done.
  - intros j Hj. by apply Hsome, Rrefs.
  - intros j Hj. rewrite Hbits, Riu, fmap_app by done. csimpl.
    destruct (Nat.eqb_spec j i) as [->|Hne].
    + rewrite andb_false_r. symmetry. by apply bool_decide_eq_false.
    + rewrite andb_true_r, fmap_app. apply bool_decide_ext. set_solver.
  - rewrite fmap_app. eapply sublist_NoDup; [exact Rnd|].
    apply sublist_app; [done|]. by apply sublist_cons.
  - intros j qg Hq. eapply page_ok_frame; [by apply Rpg, Hsub|done|lia|by rewrite Hmem].
  - intros j qg k rg Hq Hk. apply (Raddr j qg k rg); by apply Hsub.
  - rewrite Hfr. done.
  - intros a n j qg Ha Hq. eapply Rbp; [done|]. by apply Hsub.
Qed.
End GiveUp.

(** ** kfree *)

Section Kfree.
Implicit Types (h : kheap) (pg : apage) (i : nat) (pgs : list (nat * apage)).

(** The end of [subpage_kfree], from the assertion on the free count. *)
Definition kfree_tail (pr : nat) (prpage blktype sz : Z) : K kheap bool :=
  p <- get_pr pr ;;
  kassert (nfree p <=? PAGE_SIZE / sz) ;;
  (if nfree p =? PAGE_SIZE / sz then
     remove_lists pr blktype ;;
     freepageref pr ;;
     on_ram (free_kpages prpage)
   else kret tt) ;;
  kret true.

Lemma subpage_kfree_run h pgs i pg a :
  kh_rep h pgs → (i, pg) ∈ pgs → a ∈ blocks pg → a ∉ ap_free pg →
  ∃ h', subpage_kfree a h = kfree_tail i (ap_addr pg) (Z.of_nat (ap_blk pg)) (bsize (ap_blk pg)) h' ∧
    kh_rep h' (upd_page i (with_free (a :: ap_free pg) pg) pgs) ∧
    kh_big h' = kh_big h ∧ kh_ram h' = kh_ram h.
Proof.
  intros Hr Hin Ha Hna. pose proof (length_free_bound _ _ _ _ Hr Hin) as Hlen.
  pose proof (rep_pages _ _ Hr _ _ Hin) as [Hi Hb Hal [Hlo Hhi] Hd Hs Hnd Hl].
  pose proof (bsize_facts _ Hb) as (Hsz & _ & ? & ? & _). pose proof (frontier_small _ _ Hr).
  destruct (block_range a pg Hb Ha) as (? & ? & Hmod).
  destruct (page_ref_data _ _ _ _ Hr Hin) as (p & Hp & _ & _ & Eo & En & Epab).
  unfold MIPS_KSEG0, PAGE_SIZE in Hlo, Hhi. unfold PAGE_SIZE in *.
  destruct (fill_deadbeef_ok a (bsize (ap_blk pg)) h) as (m & Hfill & Hm); [lia|lia|lia|].
  set (m' := <[a := default 0 (head (ap_free pg))]> m).
  exists (put_back h i p (a - ap_addr pg) m'). split_and!; [|eapply put_back_rep; try done|done..].
  2: { apply lookup_insert_eq. }
  2: { intros x Hx. unfold m'. rewrite lookup_insert_ne by (intros ->; lia). by apply Hm. }
  unfold subpage_kfree.
  pose proof (chain_base _ _ _ _ (rep_all _ _ Hr)) as Hbase.
  kcall (read_link_run _ _ _ Hbase).
  destruct (find_owner_all _ _ a _ Hr Hbase) as [(j & qg & Hq & Hpage & Hfind)|[_ Hno]].
  2: { destruct (Hno i pg Hin). unfold in_page, PAGE_SIZE. lia. }
  unfold in_page in Hpage.
  destruct (page_unique h pgs j qg i pg a Hr Hq Hin Hpage) as [-> ->]; [unfold PAGE_SIZE; lia|].
  kcall Hfind. unfold size_of. rewrite (step_lookup _ (bsize (ap_blk pg))) by (by rewrite Nat2Z.id).
  rewrite (u32_small (a - ap_addr pg)) by lia. rewrite Hmod.
  rewrite (proj2 (Z.leb_gt PAGE_SIZE (a - ap_addr pg))) by (unfold PAGE_SIZE; lia).
  cbn [orb negb Z.eqb]. kcall Hfill.
  assert (Hp1 : kh_pagerefs (set_mem m h) !! i = Some p) by done.
  kcall (get_pr_run i p _ Hp1). unfold store at 1. ksteps. rewrite (u32_small (ap_addr pg + _)) by lia.
  replace (ap_addr pg + (a - ap_addr pg)) with a by lia.
  replace (if freelist_offset p =? INVALID_OFFSET then 0 else u32 (ap_addr pg + freelist_offset p))
    with (default 0 (head (ap_free pg))).
  2: { rewrite Eo. unfold first_off, INVALID_OFFSET. destruct (ap_free pg) as [|b f] eqn:Ef; [done|].
       destruct (block_range b pg Hb) as (? & ? & _); [apply Hs; left|]. unfold PAGE_SIZE in *.
       rewrite (proj2 (Z.eqb_neq _ _)) by lia. nowrap. simpl. lia. }
  set (h1 := set_mem _ _). change h1 with (set_mem m' h). clear h1.
  rewrite (u16_small (a - ap_addr pg)), (u16_small (nfree p + 1)) by (rewrite ?En; lia).
  assert (Hp2 : kh_pagerefs (set_mem m' h) !! i = Some p) by done.
  kcall (upd_pr_run i (set_offset (a - ap_addr pg)) p _ Hp2).
  apply (alter_pr_lookup (set_offset (a - ap_addr pg))) in Hp2 as Hp3.
  by kcall (upd_pr_run i (set_nfree (nfree p + 1)) _ _ Hp3).
Qed.

Lemma all_free_not_live l1 i pg l2 x len :
  blocks pg ⊆ ap_free pg → live_at (l1 ++ (i, pg) :: l2) x len ↔ live_at (l1 ++ l2) x len.
Proof.
  intros Hall. split; intros (j & qg & Hq & Hx & Hnf & ->).
  - exists j, qg. split_and!; try done. apply elem_of_app in Hq as [?|[[= -> ->]|?]%elem_of_cons];
      [set_solver| |set_solver]. destruct Hnf. by apply Hall.
  - exists j, qg. split_and!; try done. set_solver.
Qed.

Lemma free_page_full pg :
  NoDup (ap_free pg) → ap_free pg ⊆ blocks pg → (ap_blk pg < 8)%nat →
  Z.of_nat (length (ap_free pg)) = nblk (ap_blk pg) → blocks pg ⊆ ap_free pg.
Proof.
  intros Hnd Hs Hb Hlen. pose proof (NoDup_submseteq _ _ Hnd Hs) as Hsub.
  assert (Hperm : ap_free pg ≡ₚ blocks pg).
  { apply submseteq_length_Permutation; [done|]. rewrite length_blocks. lia. }
  by rewrite Hperm.
Qed.

Lemma kfree_tail_ok h pgs i pg :
  kh_rep h pgs → (i, pg) ∈ pgs →
  ∃ h' pgs', kfree_tail i (ap_addr pg) (Z.of_nat (ap_blk pg)) (bsize (ap_blk pg)) h = Done (true, h') ∧
    kh_rep h' pgs' ∧ kh_big h' = kh_big h ∧ kh_ram h' = kh_ram h ∧ (∀ x, x ∈ pgs' → x ∈ pgs) ∧
    ∀ x l, live_at pgs' x l ↔ live_at pgs x l.
Proof.
  intros Hr Hin. pose proof (length_free_bound _ _ _ _ Hr Hin) as Hlen.
  pose proof (rep_pages _ _ Hr _ _ Hin) as [Hi Hb _ _ _ Hs Hnd _].
  destruct (page_ref_data _ _ _ _ Hr Hin) as (p & Hp & _ & _ & _ & En & _).
  unfold kfree_tail. kcall (get_pr_run _ _ _ Hp). rewrite En. fold (nblk (ap_blk pg)).
  rewrite step_assert by (apply Z.leb_le; lia).
  destruct (Z.eqb_spec (Z.of_nat (length (ap_free pg))) (nblk (ap_blk pg))) as [Hfull|Hpart].
  2: { exists h, pgs. by ksteps. }
  pose proof Hin as (l1 & l2 & ->)%list_elem_of_split.
  destruct (remove_lists_ok h l1 i pg l2 Hr) as (r1 & x1 & r2 & x2 & Hrun & Hc & Hcs).
  ksteps. kcall Hrun. set (h1 := wr r2 x2 _) in *.
  assert (Hsame : kh_inuse h1 = kh_inuse h ∧ kh_mem h1 = kh_mem h ∧ kh_ram h1 = kh_ram h ∧ kh_big h1 = kh_big h).
  { unfold h1. by destruct r1, r2. }
  destruct Hsame as (Eiu & Emem & Eram & Ebig).
  destruct (freepageref_ok h1 i) as (w & Hfree & Hw & Hbits); [rewrite Eiu; by apply Hr|done| |].
  { rewrite Eiu, (rep_inuse _ _ Hr i Hi). apply bool_decide_eq_true, list_elem_of_fmap.
    by exists (i, pg). }
  rewrite Eiu in Hbits. ksteps. kcall Hfree.
  exists (set_inuse w h1), (l1 ++ l2). split_and!; [by destruct h1| |done|done|set_solver|].
  - eapply (rep_give_up h); try done.
    + eapply chain_ext; [|exact Hc]. by intros [].
    + intros b Hb'. eapply chain_ext; [|by apply Hcs]. by intros [].
    + intros j. change (pdata h1 j = pdata h j). unfold h1. by rewrite !pdata_wr.
    + intros j Hj. simpl. unfold h1. destruct r1, r2; simpl; rewrite ?list_lookup_alter;
        repeat case_decide; subst; destruct Hj as [q Hq]; rewrite ?Hq; simpl; eauto.
  - intros x l. symmetry. apply all_free_not_live. by apply free_page_full.
Qed.

Lemma subpage_kfree_ok h pgs i pg a :
  kh_rep h pgs → (i, pg) ∈ pgs → a ∈ blocks pg → a ∉ ap_free pg →
  ∃ h' pgs', subpage_kfree a h = Done (true, h') ∧ kh_rep h' pgs' ∧ kh_big h' = kh_big h ∧
    evolves h pgs h' pgs' ∧ ∀ x l, live_at pgs' x l ↔ live_at pgs x l ∧ x ≠ a.
Proof.
  intros Hr Hin Ha Hna. destruct (subpage_kfree_run _ _ _ _ _ Hr Hin Ha Hna) as (h1 & Hrun & Hr1 & Hbig1 & Hram1).
  assert (Hin1 : (i, with_free (a :: ap_free pg) pg) ∈ upd_page i (with_free (a :: ap_free pg) pg) pgs).
  { apply elem_of_upd. right. split_and!; [done..|]. apply list_elem_of_fmap. by exists (i, pg). }
  destruct (kfree_tail_ok _ _ _ _ Hr1 Hin1) as (h' & pgs' & Htail & Hr' & Hbig & Hram & Hsub & Hlive).
  exists h', pgs'. rewrite Hrun. split_and!; [done|done|congruence| |].
  { apply evolves_same_pages; [congruence..|]. intros j qg Hq%Hsub. by eapply upd_page_addrs. }
  intros x l. rewrite Hlive. by eapply live_put_back.
Qed.

(** Freeing a block in use takes exactly that block away. *)
Lemma kfree_ok h pgs a len :
  kh_rep h pgs → extent pgs (kh_big h) a len →
  ∃ h' pgs', kfree (Some a) h = Done (tt, h') ∧ kh_rep h' pgs' ∧ evolves h pgs h' pgs' ∧
    ∀ x l, extent pgs' (kh_big h') x l ↔ extent pgs (kh_big h) x l ∧ x ≠ a.
Proof.
  intros Hr [Ha|(n & Ha & ->)].
  - pose proof Ha as (i & pg & Hin & Hblk & Hnf & _).
    destruct (subpage_kfree_ok _ _ _ _ _ Hr Hin Hblk Hnf) as (h' & pgs' & Hrun & Hr' & Hbig & Hev & Hlive).
    exists h', pgs'. unfold kfree. kcall Hrun. split_and!; [done..|].
    intros x l. unfold extent. rewrite Hlive, Hbig. split; [|naive_solver].
    intros [[? ?]|(k & Hk & ->)]; [by auto|]. split; [right; eauto|]. intros ->.
    destruct (live_range _ _ _ _ Hr Ha) as (j & qg & Hq & _ & _ & _ & _ & ? & ? & ? & ? & ?).
    destruct (rep_big _ _ Hr _ _ Hk) as (_ & ? & _).
    destruct (rep_big_page _ _ Hr _ _ _ _ Hk Hq); unfold PAGE_SIZE in *; lia.
  - pose proof (chain_base _ _ _ _ (rep_all _ _ Hr)) as Hbase.
    destruct (rep_big _ _ Hr _ _ Ha) as (Halign & Hn & _ & _).
    destruct (find_owner_all _ _ a _ Hr Hbase) as [(j & qg & Hq & Hpage & _)|[Hfind Hno]].
    { destruct (rep_big_page _ _ Hr _ _ _ _ Ha Hq); unfold in_page, PAGE_SIZE in *; lia. }
    exists (set_big (delete a (kh_big h)) h), pgs. unfold kfree, subpage_kfree. ksteps.
    kcall (read_link_run _ _ _ Hbase). ksteps. kcall Hfind. ksteps.
    rewrite step_assert by (by apply Z.eqb_eq).
    pose proof Hr as [Rram Rrefs Rwf Riu Rnd Rall Rsame Rpg Raddr Rbig Rbb Rbp].
    split_and!; [by destruct h| | |].
    2: { constructor; [unfold frontier; simpl; lia|]. intros x [Hx|(b & k & Hb & Hx)];
         left; [by left|right]. simpl in Hb. apply lookup_delete_Some in Hb as [_ Hb]. eauto. }
    + constructor; try done; simpl.
      * eapply chain_ext; [|exact Rall]. by intros [].
      * intros b Hb. eapply chain_ext; [|by apply Rsame]. by intros [].
      * intros i pg Hin. by eapply page_ok_frame; [apply Rpg| | |].
      * intros x k [_ Hx]%lookup_delete_Some. by apply Rbig.
      * intros x k y l [_ Hx]%lookup_delete_Some [_ Hy]%lookup_delete_Some. by apply Rbb.
      * intros x k i pg [_ Hx]%lookup_delete_Some. by apply Rbp.
    + intros x l. unfold extent. simpl. setoid_rewrite lookup_delete_Some. split.
      * intros [Hx|(k & [? Hk] & ->)]; [|split; [right; eauto|done]]. split; [by left|]. intros ->.
        destruct (live_range _ _ _ _ Hr Hx) as (j & qg & Hq & _ & _ & _ & _ & ? & ? & ? & ? & ?).
        apply (Hno _ _ Hq). unfold in_page. lia.
      * naive_solver.
Qed.
End Kfree.

(** ** The contents of a heap, read off its state *)

Fixpoint walk_free (m : gmap Z Z) (n : nat) (a : Z) : list Z :=
  match n with
  | O => []
  | S n => a :: walk_free m n (default 0 (m !! a))
  end.

Definition page_of (h : kheap) (p : pageref) : apage :=
  APage (PR_PAGEADDR p) (Z.to_nat (PR_BLOCKTYPE p))
    (walk_free (kh_mem h) (Z.to_nat (nfree p)) (PR_PAGEADDR p + freelist_offset p)).

Fixpoint walk_pages (h : kheap) (fuel : nat) (pr : option nat) : list (nat * apage) :=
  match fuel, pr with
  | S fuel, Some i =>
      match kh_pagerefs h !! i with
      | Some p => (i, page_of h p) :: walk_pages h fuel (next_all p)
      | None => []
      end
  | _, _ => []
  end.
Definition pages_of (h : kheap) : list (nat * apage) := walk_pages h list_fuel (kh_allbase h).

(** The heap is well formed; [block_at h a len]: a client holds the [len] bytes
    at [a]. *)
Definition kh_ok (h : kheap) : Prop := kh_rep h (pages_of h).
Definition block_at (h : kheap) (a len : Z) : Prop := extent (pages_of h) (kh_big h) a len.

(** What a step of the heap leaves alone: memory below the old frontier that
    the heap did not hold. *)
Definition kh_evolves (h h' : kheap) : Prop := evolves h (pages_of h) h' (pages_of h').

Definition kh_allocated (h : kheap) : gset Z :=
  list_to_set (pages_of h ≫= λ x, filter (λ a, a ∉ ap_free x.2) (blocks x.2)) ∪ dom (kh_big h).

Section Contents.
Implicit Types (h : kheap) (pgs : list (nat * apage)).

Lemma walk_free_linked m l : linked m l → walk_free m (length l) (default 0 (head l)) = l.
Proof.
  induction l as [|a l IH]; [done|]. intros [Ha Hl]. simpl. f_equal. rewrite Ha. by apply IH.
Qed.

Lemma page_of_rep h pgs i pg p :
  kh_rep h pgs → (i, pg) ∈ pgs → kh_pagerefs h !! i = Some p → page_of h p = pg.
Proof.
  intros Hr Hin Hp. destruct (page_ref_data _ _ _ _ Hr Hin) as (p' & Hp' & Ea & Eb & Eo & En & _).
  simplify_eq. pose proof (walk_free_linked _ _ (po_linked _ _ _ (rep_pages _ _ Hr _ _ Hin))) as Hw.
  unfold page_of. rewrite Ea, Eb, En, !Nat2Z.id, Eo. unfold first_off.
  destruct pg as [addr b [|a f]]; [done|]. cbn [ap_addr ap_blk ap_free] in *.
  replace (addr + (a - addr)) with a by lia. f_equal. exact Hw.
Qed.

Lemma walk_pages_rep h pgs l guy fuel :
  kh_rep h pgs → (∀ x, x ∈ l → x ∈ pgs) → chain h NextAll guy l.*1 → (length l < fuel)%nat →
  walk_pages h fuel (head l.*1) = l.
Proof.
  intros Hr. revert guy fuel. induction l as [|[i pg] l IH]; intros guy [|fuel] Hl Hc Hf;
    simpl in Hf; try lia; [done|]. csimpl in *. destruct Hc as [_ Hc].
  assert (Hin : (i, pg) ∈ pgs) by (apply Hl; left).
  destruct (page_ref_data _ _ _ _ Hr Hin) as (p & Hp & _). rewrite Hp.
  rewrite (page_of_rep _ _ _ _ _ Hr Hin Hp). f_equal.
  replace (next_all p) with (head l.*1).
  - eapply IH; [|exact Hc|lia]. intros x Hx. apply Hl. by right.
  - pose proof (chain_base _ _ _ _ Hc) as E. simpl in E. rewrite Hp in E. simpl in E. congruence.
Qed.

Lemma pages_of_rep h pgs : kh_rep h pgs → pages_of h = pgs.
Proof.
  intros Hr. pose proof (rep_all _ _ Hr) as Hc. unfold pages_of.
  pose proof (chain_base _ _ _ _ Hc) as E. simpl in E. injection E as ->.
  eapply walk_pages_rep; [done|done|exact Hc|]. pose proof (pages_bound _ _ Hr). unfold list_fuel. lia.
Qed.

Lemma rep_ok h pgs : kh_rep h pgs → kh_ok h ∧ pages_of h = pgs.
Proof. intros Hr. pose proof (pages_of_rep _ _ Hr) as E. unfold kh_ok. by rewrite E. Qed.

Lemma elem_of_kh_allocated h a : a ∈ kh_allocated h ↔ ∃ len, block_at h a len.
Proof.
  unfold kh_allocated, block_at, extent, live_at.
  rewrite elem_of_union, elem_of_list_to_set, elem_of_dom, list_elem_of_bind. split.
  - intros [([i pg] & [? ?]%list_elem_of_filter & Hin)|[n Hn]]; [|by eauto 6].
    eexists. left. exists i, pg. done.
  - intros (len & [(i & pg & Hin & Hb & Hf & _)|(n & Hn & _)]); [left|right; eauto].
    exists (i, pg). split; [|done]. by apply list_elem_of_filter.
Qed.

Lemma extent_bounds h pgs a len :
  kh_rep h pgs → extent pgs (kh_big h) a len →
  a mod 16 = 0 ∧ MIPS_KSEG0 < a ∧ 16 ≤ len ∧ a + len ≤ MIPS_KSEG1.
Proof.
  intros Hr Hx. pose proof (frontier_small _ _ Hr). unfold MIPS_KSEG1.
  destruct Hx as [Hx|(n & Hn & ->)].
  - destruct (live_range _ _ _ _ Hr Hx) as (i & pg & Hin & Hb & _ & Hblk & -> & ? & ? & ? & ? & ?).
    pose proof (bsize_facts _ Hblk) as (_ & _ & _ & _ & Hm16).
    pose proof (po_align _ _ _ (rep_pages _ _ Hr _ _ Hin)) as Hal.
    apply elem_of_blocks in Hb as (k & Hk & ->). split_and!; [|lia..].
    pose proof (Z_div_mod_eq_full (ap_addr pg) PAGE_SIZE) as E1.
    pose proof (Z_div_mod_eq_full (bsize (ap_blk pg)) 16) as E2. rewrite Hal in E1. rewrite Hm16 in E2.
    rewrite E1, E2. unfold PAGE_SIZE.
    replace (4096 * _ + 0 + k * _) with (0 + (256 * (ap_addr pg / 4096) + k * (bsize (ap_blk pg) / 16)) * 16) by lia.
    by rewrite Z.mod_add.
  - destruct (rep_big _ _ Hr _ _ Hn) as (Hal & ? & ? & ?).
    pose proof (Z_div_mod_eq_full a PAGE_SIZE) as E1. unfold PAGE_SIZE in *. split_and!; [|lia..].
    rewrite E1, Hal. replace (4096 * (a / 4096) + 0) with (0 + (256 * (a / 4096)) * 16) by lia.
    by rewrite Z.mod_add.
Qed.

(** Words of blocks in use are the client's own. *)
Lemma client_write_rep h pgs a len x y :
  kh_rep h pgs → extent pgs (kh_big h) a len → a ≤ x < a + len →
  kh_rep (set_mem (<[x := y]> (kh_mem h)) h) pgs.
Proof.
  intros Hr Ha Hx. pose proof Hr as [Rram Rrefs Rwf Riu Rnd Rall Rsame Rpg Raddr Rbig Rbb Rbp].
  constructor; try done.
  - eapply chain_ext; [|exact Rall]. by intros [].
  - intros b Hb. eapply chain_ext; [|by apply Rsame]. by intros [].
  - intros i pg Hin. destruct (Rpg i pg Hin) as [Hi Hb Hal Hrng Hd Hs Hnd Hl].
    constructor; try done. eapply linked_ext; [|exact Hl]. intros f Hf. simpl.
    apply lookup_insert_ne. intros ->.
    destruct (block_range f pg Hb (Hs f Hf)) as (? & ? & _).
    pose proof (bsize_facts _ Hb) as (_ & _ & ? & _).
    destruct Ha as [Ha|(n & Ha & ->)]; [|destruct (Rbp _ _ _ _ Ha Hin); lia].
    destruct (live_range _ _ _ _ Hr Ha) as (j & qg & Hq & Haq & Hnf & Hqb & -> & ? & ? & ? & ? & ?).
    destruct (page_unique _ _ _ _ _ _ f Hr Hin Hq) as [-> ->]; [lia|lia|].
    destruct (block_disjoint a f qg Hqb Haq (Hs f Hf)); [|lia|lia]. by intros ->.
Qed.

Lemma kheap_init_rep r : ram_ok r → kh_rep (kheap_init r) [].
Proof.
  intros Hram. constructor; try done; unfold kheap_init;
    cbn [kh_pagerefs kh_inuse kh_big kh_ram fmap list_fmap].
  - intros i Hi. exists (Pageref None None 0 0 0). by apply lookup_replicate_2.
  - split; [done|]. apply Forall_replicate. lia.
  - intros i Hi. rewrite bool_decide_eq_false_2 by set_solver. unfold inuse_bit.
    rewrite lookup_replicate_2; [apply Z.bits_0|]. pose proof (nat_divmod i). lia.
  - constructor.
  - intros b Hb. cbn [chain rd kh_sizebases filter list_filter fmap list_fmap].
    by apply lookup_replicate_2.
  - intros i pg Hin. set_solver.
  - intros i pg j qg Hin. set_solver.
Qed.
End Contents.

(** ** The allocator's contract *)

Section Contract.
Implicit Types (h : kheap).

(** The physical pages a request needs at most. *)
Definition pages_needed (sz : Z) : Z := if sz <? LARGEST_SUBPAGE_SIZE then 1 else pages_for sz.

Lemma kmalloc_contract h sz :
  kh_ok h → 0 ≤ sz ≤ 2 ^ 31 →
  (kmalloc sz h = Panic ∧ ¬ has_pages h (pages_needed sz)) ∨
  (∃ h', kmalloc sz h = Done (None, h') ∧ kh_ok h' ∧ kh_evolves h h' ∧
         length (pages_of h) = 256%nat ∧ ∀ x l, block_at h' x l ↔ block_at h x l) ∨
  (∃ a len h', kmalloc sz h = Done (Some a, h') ∧ kh_ok h' ∧ kh_evolves h h' ∧ sz ≤ len ∧
     (∀ l, ¬ block_at h a l) ∧
     ∀ x l, block_at h' x l ↔ block_at h x l ∨ (x = a ∧ l = len)).
Proof.
  intros Hr Hsz. unfold pages_needed, LARGEST_SUBPAGE_SIZE.
  destruct (Z.ltb_spec sz 2048) as [Hsmall|Hbig].
  - assert (E : kmalloc sz h = subpage_kmalloc sz h).
    { unfold kmalloc, LARGEST_SUBPAGE_SIZE. by rewrite (proj2 (Z.leb_gt 2048 sz)). }
    rewrite E. destruct (subpage_kmalloc_ok h _ sz Hr) as [?|[(h' & Hrun & Hr' & Hb & Hev & Hlen)|
      (a & b & h' & Hrun & Hb & Hfit & _ & Hfresh & pgs' & Hr' & Hev & Hext)]]; [lia|by left| |].
    + right. left. exists h'. destruct (rep_ok _ _ Hr') as [Hok Hpg].
      unfold block_at, kh_evolves. rewrite Hpg. split_and!; try done. by rewrite Hb.
    + right. right. exists a, (bsize b), h'. destruct (rep_ok _ _ Hr') as [Hok Hpg].
      split_and!; [done|done|unfold kh_evolves; by rewrite Hpg|done| |unfold block_at; by rewrite Hpg].
      intros l [Hl|(n & Hn & ->)]; [by eapply Hfresh|].
      assert (Hx : extent pgs' (kh_big h') a (bsize b)) by (apply Hext; by right).
      assert (Hy : extent pgs' (kh_big h') a (n * PAGE_SIZE)) by (apply Hext; left; right; eauto).
      pose proof (extent_functional _ _ _ _ _ Hr' Hx Hy) as E'.
      pose proof (bsize_facts b Hb). destruct (rep_big _ _ Hr _ _ Hn). unfold PAGE_SIZE in *. lia.
  - destruct (kmalloc_big_ok h _ sz Hr) as [?|(h' & Hrun & Hfresh & pgs' & Hr' & Hev & Hext)]; [lia|by left|].
    right. right. eexists _, _, h'. destruct (rep_ok _ _ Hr') as [Hok Hpg].
    split_and!; [exact Hrun|done|unfold kh_evolves; by rewrite Hpg| |done|unfold block_at; by rewrite Hpg].
    pose proof (pages_for_range sz). lia.
Qed.

Lemma kfree_contract h a len :
  kh_ok h → block_at h a len →
  ∃ h', kfree (Some a) h = Done (tt, h') ∧ kh_ok h' ∧ kh_evolves h h' ∧
        ∀ x l, block_at h' x l ↔ block_at h x l ∧ x ≠ a.
Proof.
  intros Hr Ha. destruct (kfree_ok _ _ _ _ Hr Ha) as (h' & pgs' & Hrun & Hr' & Hev & Hext).
  exists h'. destruct (rep_ok _ _ Hr') as [Hok Hpg].
  unfold block_at, kh_evolves. by rewrite Hpg.
Qed.
End Contract.

(** The allocator keeps the promises the rest of the kernel relies on. *)
#[global, program] Instance kmalloc_heap : KernelHeap kheap := {|
  KernelHeap.kmalloc := kmalloc;
  KernelHeap.kfree := kfree;
  heap_ok := kh_ok;
  allocated := kh_allocated;
|}.
Next Obligation.
  intros h sz p h' Hok Hsz Hrun.
  destruct (kmalloc_contract h sz Hok Hsz) as [[? _]|[(? & ? & _)|(a & len & h1 & E & Hok' & _ & _ & Hf & Hx)]];
    [congruence|congruence|]. rewrite Hrun in E. simplify_eq. split_and!; [done| |].
  - intros (l & Hl)%elem_of_kh_allocated. by eapply Hf.
  - apply set_eq. intros x. rewrite elem_of_union, elem_of_singleton, !elem_of_kh_allocated.
    setoid_rewrite Hx. naive_solver.
Qed.
Next Obligation.
  intros h sz h' Hok Hsz Hrun.
  destruct (kmalloc_contract h sz Hok Hsz) as [[? _]|[(h1 & E & Hok' & _ & _ & Hx)|(a & len & h1 & E & _)]];
    [congruence| |congruence]. rewrite Hrun in E. simplify_eq. split; [done|].
  apply set_eq. intros x. rewrite !elem_of_kh_allocated. by setoid_rewrite Hx.
Qed.
Next Obligation.
  intros h sz Hok Hsz.
  by destruct (kmalloc_contract h sz Hok Hsz) as [[E _]|[(h1 & E & _)|(a & len & h1 & E & _)]]; rewrite E.
Qed.
Next Obligation.
  intros h p Hok (len & Hp)%elem_of_kh_allocated.
  destruct (kfree_contract _ _ _ Hok Hp) as (h' & Hrun & Hok' & _ & Hx). exists h'. split_and!; [done..|].
  apply set_eq. intros x. rewrite elem_of_difference, elem_of_singleton, !elem_of_kh_allocated.
  setoid_rewrite Hx. naive_solver.
Qed.
Next Obligation. done. Qed.

(** A small machine, and its state after one allocation of 100 bytes. *)
Definition small_heap : kheap := kheap_init (Ram 65536 1048576).
Definition one_block : kheap :=
  match kmalloc 100 small_heap with Done (_, h) => h | _ => small_heap end.

Lemma small_heap_ok : kh_ok small_heap.
Proof.
  apply (rep_ok _ []), kheap_init_rep. constructor; simpl; (lia || reflexivity).
Qed.

Lemma one_block_run : kmalloc 100 small_heap = Done (Some 2147553152, one_block).
Proof.
  assert (H : match kmalloc 100 small_heap with Done (Some a, _) => a =? 2147553152 | _ => false end = true)
    by (vm_compute; reflexivity).
  unfold one_block. destruct (kmalloc 100 small_heap) as [[[a|] h]| | |]; try discriminate H.
  apply Z.eqb_eq in H as ->. reflexivity.
Qed.
Lemma small_pages : pages_of small_heap = [].
Proof. reflexivity. Qed.
#[global] Opaque small_heap one_block.

Lemma one_block_ok : kh_ok one_block ∧ ∃ len, 100 ≤ len ∧ block_at one_block 2147553152 len.
Proof.
  destruct (kmalloc_contract small_heap 100 small_heap_ok) as [[E _]|[(h' & E & _)|
    (a & len & h' & E & Hok & _ & Hfit & _ & Hx)]]; [lia|rewrite one_block_run in E; discriminate E..|].
  rewrite one_block_run in E. injection E as <- <-.
  split; [exact Hok|]. exists len. split; [exact Hfit|]. apply Hx. by right.
Qed.

(** ** The component's theorems *)

(** C3. The contract of [kmalloc].  From a well-formed heap it either returns a
    block of at least the size asked for, aligned to 16 bytes, inside the
    direct-mapped segment and apart from every block in use, after which
    exactly that block is in use more; or NULL, with the blocks in use as they
    were, when all 256 page references are taken; or the kernel panics, and
    then physical memory has no page for it.  The heap stays well formed. *)
Theorem kmalloc_fresh_block h sz :
  kh_ok h → 0 ≤ sz ≤ 2 ^ 31 →
  (kmalloc sz h = Panic ∧ ¬ has_pages h (pages_needed sz)) ∨
  (∃ h', kmalloc sz h = Done (None, h') ∧ kh_ok h' ∧ length (pages_of h) = 256%nat ∧
         ∀ x l, block_at h' x l ↔ block_at h x l) ∨
  (∃ a len h', kmalloc sz h = Done (Some a, h') ∧ kh_ok h' ∧ sz ≤ len ∧
     a mod 16 = 0 ∧ MIPS_KSEG0 < a ∧ a + len ≤ MIPS_KSEG1 ∧
     (∀ x l, block_at h x l → a + len ≤ x ∨ x + l ≤ a) ∧
     ∀ x l, block_at h' x l ↔ block_at h x l ∨ (x = a ∧ l = len)).
Proof.
  intros Hok Hsz. destruct (kmalloc_contract h sz Hok Hsz)
    as [?|[(h' & ? & ? & _ & ? & ?)|(a & len & h' & Hrun & Hok' & _ & Hfit & Hfresh & Hx)]];
    [by left|by right; left; exists h'|].
  right. right. exists a, len, h'.
  assert (Ha : block_at h' a len) by (apply Hx; by right).
  destruct (extent_bounds _ _ _ _ Hok' Ha) as (? & ? & _ & ?). split_and!; try done.
  intros x l Hl. apply (extent_disjoint h' (pages_of h') a len x l Hok' Ha).
  - apply Hx. by left.
  - intros <-. by eapply Hfresh.
Qed.

Lemma kmalloc_fresh_block_witness :
  ∃ a h', kmalloc 100 small_heap = Done (Some a, h') ∧ a mod 16 = 0.
Proof.
  destruct (kmalloc_fresh_block small_heap 100 small_heap_ok)
    as [[E _]|[(h' & E & _)|(a & len & h' & E & _ & _ & Hm & _)]].
  - lia.
  - rewrite one_block_run in E. discriminate E.
  - exfalso. rewrite one_block_run in E. discriminate E.
  - exists a, h'. split; [exact E|exact Hm].
Defined.

(** C11. The contract of [kfree].  Freeing a block in use succeeds, and from
    then on exactly that block is no longer in use; freeing NULL does
    nothing.  The heap stays well formed. *)
Theorem kfree_takes_block_back h a len :
  kh_ok h → block_at h a len →
  kfree None h = Done (tt, h) ∧
  ∃ h', kfree (Some a) h = Done (tt, h') ∧ kh_ok h' ∧
        ∀ x l, block_at h' x l ↔ block_at h x l ∧ x ≠ a.
Proof.
  intros Hok Ha. split; [done|].
  destruct (kfree_contract _ _ _ Hok Ha) as (h' & ? & ? & _ & ?). by exists h'.
Qed.

Lemma kfree_takes_block_back_witness :
  ∃ h', kfree (Some 2147553152) one_block = Done (tt, h') ∧ kh_ok h'.
Proof.
  destruct one_block_ok as (Hok & len & _ & Hb).
  destruct (kfree_takes_block_back one_block 2147553152 len Hok Hb) as (_ & h' & E & Hok' & _).
  exists h'. split; [exact E|exact Hok'].
Defined.

(** [kfree] stops the machine on an address it never handed out: one
    inside a page of blocks but not at the start of a block, and one on no
    such page that is not page aligned. *)
Theorem kfree_bad_address_panics h a :
  kh_ok h →
  (∃ i pg, (i, pg) ∈ pages_of h ∧ in_page pg a ∧ a ∉ blocks pg) ∨
  ((∀ i pg, (i, pg) ∈ pages_of h → ¬ in_page pg a) ∧ a mod PAGE_SIZE ≠ 0) →
  kfree (Some a) h = Panic.
Proof.
  intros Hok Hbad. pose proof (chain_base _ _ _ _ (rep_all _ _ Hok)) as Hbase.
  unfold kfree, subpage_kfree. ksteps. kcall (read_link_run _ _ _ Hbase). ksteps.
  destruct (find_owner_all _ _ a _ Hok Hbase) as [(j & qg & Hq & Hpage & Hfind)|[Hfind Hno]];
    kcall Hfind; ksteps.
  - destruct Hbad as [(i & pg & Hin & Hp & Hnb)|[Hno _]]; [|by destruct (Hno _ _ Hq)].
    destruct (page_unique _ _ _ _ _ _ a Hok Hq Hin Hpage Hp) as [-> ->].
    pose proof (rep_pages _ _ Hok _ _ Hin) as [_ Hb _ [Hlo Hhi] _ _ _ _].
    pose proof (frontier_small _ _ Hok). unfold in_page, PAGE_SIZE, MIPS_KSEG0 in *.
    pose proof (bsize_facts _ Hb) as (Hsz & _). unfold size_of.
    rewrite (step_lookup _ (bsize (ap_blk pg))) by (by rewrite Nat2Z.id). rewrite u32_small by lia.
    replace ((a - ap_addr pg) mod bsize (ap_blk pg) =? 0) with false; [by rewrite orb_true_r|].
    symmetry. apply Z.eqb_neq. intros E. apply Hnb, aligned_block; unfold PAGE_SIZE; done || lia.
  - destruct Hbad as [(i & pg & Hin & Hp & _)|[_ Ha]]; [by destruct (Hno _ _ Hin)|].
    by rewrite step_panic by (by apply Z.eqb_neq).
Qed.

Lemma kfree_bad_address_panics_witness : kfree (Some 2147483649) small_heap = Panic.
Proof.
  apply (kfree_bad_address_panics small_heap 2147483649 small_heap_ok).
  right. split; [|vm_compute; discriminate].
  intros i pg Hin. rewrite small_pages in Hin. inversion Hin.
Defined.

(** The allocator's bookkeeping is out of its clients' reach: a client
    that writes inside a block it holds leaves the heap well formed and every
    block as it was. *)
Theorem client_write_keeps_heap h a len x y :
  kh_ok h → block_at h a len → a ≤ x < a + len →
  kh_ok (set_mem (<[x := y]> (kh_mem h)) h) ∧
  ∀ b l, block_at (set_mem (<[x := y]> (kh_mem h)) h) b l ↔ block_at h b l.
Proof.
  intros Hok Ha Hx. destruct (rep_ok _ _ (client_write_rep _ _ _ _ _ y Hok Ha Hx)) as [Hok' Hpg].
  split; [done|]. intros b l. unfold block_at. by rewrite Hpg.
Qed.

Lemma client_write_keeps_heap_witness :
  kh_ok (set_mem (<[2147553152 := 0]> (kh_mem one_block)) one_block).
Proof.
  destruct one_block_ok as (Hok & len & Hlen & Hb).
  apply (client_write_keeps_heap one_block 2147553152 len 2147553152 0 Hok Hb). lia.
Defined.
