(* ===== verification/Vm.v ===== *)
(** * Virtual memory: model (kern/vm/vm.c, addrspace.c, segments.c, pt.c,
      uw-vmstats.c)

    An address space has a code, a data and a stack segment, each with a page
    table of its own; pages get a frame when they are first touched.  [machine]
    holds what the code works on: the kernel heap (physical memory included),
    the address spaces by address, the TLB, the round-robin victim, the
    statistics (present once [vmstats_init] has made their lock) and which
    address space the current process has.

    Interrupts are off around the TLB updates and the statistics are counted
    under a lock of their own; one processor runs a fault handler to its end
    before the next, and that is the model's order.  A struct from [kmalloc] is
    uninitialised: a field nobody wrote is [None] and reading it is undefined. *)

From stdpp Require Import base numbers list gmap fin_maps.
From Stdlib Require Import ZArith Lia.
From S2P Require Import Prelude PhysMem Kmalloc.

Open Scope Z_scope.
Open Scope kernel_scope.

Definition USERSTACK : Z := 2147483648.
Definition STACKPAGES : Z := 12.
Definition NUM_TLB : Z := 64.
Definition TLBLO_DIRTY : Z := 1024.
Definition TLBLO_VALID : Z := 512.
Definition TLBHI_INVALID (entryno : Z) : Z := u32 (Z.shiftl (524288 + entryno) 12).
Definition TLBLO_INVALID : Z := 0.

Definition VM_FAULT_READ : Z := 0.
Definition VM_FAULT_WRITE : Z := 1.
Definition VM_FAULT_READONLY : Z := 2.

Definition VMSTAT_TLB_FAULT : Z := 0.
Definition VMSTAT_TLB_FAULT_FREE : Z := 1.
Definition VMSTAT_TLB_FAULT_REPLACE : Z := 2.
Definition VMSTAT_TLB_INVALIDATE : Z := 3.
Definition VMSTAT_TLB_RELOAD : Z := 4.
Definition VMSTAT_PAGE_FAULT_ZERO : Z := 5.
Definition VMSTAT_PAGE_FAULT_DISK : Z := 6.
Definition VMSTAT_ELF_FILE_READ : Z := 7.
Definition VMSTAT_SWAP_FILE_READ : Z := 8.
Definition VMSTAT_SWAP_FILE_WRITE : Z := 9.
Definition VMSTAT_COUNT : Z := 10.

(** ** Data *)

Record pte := Pte { valid : option Z; dirty : option Z; paddr : option Z }.

Inductive segment_t := CODE | STACK | DATA.

Record segment := Segment {
  vbase : Z;
  npages : Z;
  ptable : option (Z * list pte);   (* its address and cells; NULL *)
  tsegment : segment_t;
}.

Record addrspace := Addrspace {
  as_vbase1 : Z; as_pbase1 : Z; as_npages1 : Z;
  as_vbase2 : Z; as_pbase2 : Z; as_npages2 : Z;
  as_stackpbase : Z;
  code : segment; data : segment; stack : segment;
  loaded : bool;
}.

Record machine := Machine {
  m_heap : kheap;
  m_spaces : gmap Z addrspace;
  m_tlb : list (Z * Z);
  m_victim : Z;
  m_stats : option (list Z);
  m_curproc : option (option Z);   (* no process; its p_addrspace *)
}.

Definition set_heap (x : kheap) (m : machine) : machine :=
  Machine x (m_spaces m) (m_tlb m) (m_victim m) (m_stats m) (m_curproc m).
Definition set_spaces (x : gmap Z addrspace) (m : machine) : machine :=
  Machine (m_heap m) x (m_tlb m) (m_victim m) (m_stats m) (m_curproc m).
Definition set_tlb (x : list (Z * Z)) (m : machine) : machine :=
  Machine (m_heap m) (m_spaces m) x (m_victim m) (m_stats m) (m_curproc m).
Definition set_victim (x : Z) (m : machine) : machine :=
  Machine (m_heap m) (m_spaces m) (m_tlb m) x (m_stats m) (m_curproc m).
Definition set_stats (x : option (list Z)) (m : machine) : machine :=
  Machine (m_heap m) (m_spaces m) (m_tlb m) (m_victim m) x (m_curproc m).

Definition on_kheap {A} (c : K kheap A) : K machine A := kzoom m_heap set_heap c.

(** ** Statistics (uw-vmstats.c) *)

Definition _vmstats_inc (index : Z) (counts : list Z) : outcome (list Z) :=
  if index <? VMSTAT_COUNT then
    match counts !! Z.to_nat index with
    | Some n => Done (<[Z.to_nat index := u32 (n + 1)]> counts)
    | None => Undef
    end
  else Panic.

(** [stats_lock == 0] is [m_stats = None]. *)
Definition vmstats_inc (index : Z) : K machine unit := λ m,
  match m_stats m with
  | None => Panic
  | Some counts =>
      match _vmstats_inc index counts with
      | Done counts => Done (tt, set_stats (Some counts) m)
      | Panic => Panic | Undef => Undef | Hang => Hang
      end
  end.

Definition _vmstats_init : list Z := replicate (Z.to_nat VMSTAT_COUNT) 0.

(** [lockp] is what [lock_create] returned. *)
Definition vmstats_init (lockp : option Z) : K machine unit :=
  m <- kget ;;
  kassert (bool_decide (m_stats m = None)) ;;
  kassert (bool_decide (lockp ≠ None)) ;;
  kput (set_stats (Some _vmstats_init) m).

(** The three warnings [_vmstats_print] may print; the sums are [int]s. *)
Definition _vmstats_print (counts : list Z) : bool * bool * bool :=
  let c i := default 0 (counts !! Z.to_nat i) in
  let tlb_faults := i32 (c VMSTAT_TLB_FAULT) in
  let free_plus_replace := i32 (c VMSTAT_TLB_FAULT_FREE + c VMSTAT_TLB_FAULT_REPLACE) in
  let disk_plus_zeroed_plus_reload :=
    i32 (c VMSTAT_PAGE_FAULT_DISK + c VMSTAT_PAGE_FAULT_ZERO + c VMSTAT_TLB_RELOAD) in
  let elf_plus_swap_reads := i32 (c VMSTAT_ELF_FILE_READ + c VMSTAT_SWAP_FILE_READ) in
  let disk_reads := i32 (c VMSTAT_PAGE_FAULT_DISK) in
  (negb (tlb_faults =? free_plus_replace),
   negb (tlb_faults =? disk_plus_zeroed_plus_reload),
   negb (disk_reads =? elf_plus_swap_reads)).

(** ** Address spaces and page table entries in the store *)

Definition get_as (p : Z) : K machine addrspace :=
  m <- kget ;; kderef (m_spaces m !! p).
Definition put_as (p : Z) (a : addrspace) : K machine unit :=
  kmodify (λ m, set_spaces (<[p := a]> (m_spaces m)) m).

Definition seg_of (t : segment_t) (a : addrspace) : segment :=
  match t with CODE => code a | STACK => stack a | DATA => data a end.
Definition set_seg (t : segment_t) (s : segment) (a : addrspace) : addrspace :=
  Addrspace (as_vbase1 a) (as_pbase1 a) (as_npages1 a) (as_vbase2 a) (as_pbase2 a)
    (as_npages2 a) (as_stackpbase a)
    (match t with CODE => s | _ => code a end)
    (match t with DATA => s | _ => data a end)
    (match t with STACK => s | _ => stack a end)
    (loaded a).

(** A [struct pte *] into segment [t] of address space [p]. *)
Definition get_pte (p : Z) (t : segment_t) (vpn : Z) : K machine pte :=
  a <- get_as p ;;
  pt <- kderef (ptable (seg_of t a)) ;;
  kderef (pt.2 !! Z.to_nat vpn).
Definition put_pte (p : Z) (t : segment_t) (vpn : Z) (x : pte) : K machine unit :=
  a <- get_as p ;;
  let s := seg_of t a in
  pt <- kderef (ptable s) ;;
  _ <- kderef (pt.2 !! Z.to_nat vpn) ;;
  put_as p (set_seg t (Segment (vbase s) (npages s)
                         (Some (pt.1, <[Z.to_nat vpn := x]> pt.2)) (tsegment s)) a).

(** ** Page table entries (pt.c) *)

Definition pte_create (x : pte) : pte := Pte (Some 0) (dirty x) (paddr x).

Definition pte_load (p : Z) (t : segment_t) (vpn : Z) : K machine Z :=
  pa <- on_kheap (on_ram (getppages 1)) ;;
  x <- get_pte p t vpn ;;
  put_pte p t vpn (Pte (Some 1) (dirty x) (Some pa)) ;;
  kret pa.

Definition pte_reload (p : Z) (t : segment_t) (vpn offset : Z) : K machine Z :=
  vmstats_inc VMSTAT_TLB_RELOAD ;;
  x <- get_pte p t vpn ;;
  pa <- kderef (paddr x) ;;
  kret (u32 (pa + offset)).

(** ** Segments (segments.c) *)

(** [for (i = 0; i < npages; i++) pte_create(&ptable[i])]; a NULL table is
    written through as soon as there is an entry. *)
Fixpoint create_ptes (ixs : list Z) (cells : list pte) : K machine (list pte) :=
  match ixs with
  | [] => kret cells
  | i :: ixs =>
      x <- kderef (cells !! Z.to_nat i) ;;
      create_ptes ixs (<[Z.to_nat i := pte_create x]> cells)
  end.

Definition segment_prepare (s : segment) : K machine (Z * list pte) :=
  kassert (negb (npages s =? 0)) ;;
  base <- on_kheap (kmalloc (u32 (12 * npages s))) ;;
  base <- kderef base ;;
  cells <- create_ptes (seqZ 0 (npages s)) (replicate (Z.to_nat (npages s)) (Pte None None None)) ;;
  kassert (negb (npages s =? 0)) ;; (* KASSERT(i != 0), i being npages here *)
  kret (base, cells).

Definition segment_create (t : segment_t) : K machine segment :=
  match t with
  | STACK =>
      pt <- segment_prepare (Segment 0 STACKPAGES None t) ;;
      kret (Segment (u32 (USERSTACK - STACKPAGES * PAGE_SIZE)) STACKPAGES (Some pt) t)
  | _ => kret (Segment 0 0 None t)
  end.

Definition segment_lookup (p : Z) (t : segment_t) (vaddr : Z) (is_write : bool) : K machine Z :=
  a <- get_as p ;;
  let seg := seg_of t a in
  let vpn := u32 (vaddr - vbase seg) / PAGE_SIZE in
  (if is_write then
     x <- get_pte p t vpn ;;
     put_pte p t vpn (Pte (valid x) (Some 1) (paddr x))
   else kret tt) ;;
  x <- get_pte p t vpn ;;
  v <- kderef (valid x) ;;
  if v =? 0 then pte_load p t vpn
  else pte_reload p t vpn (u32 (vaddr - vbase seg) mod PAGE_SIZE).

(** ** Address spaces (addrspace.c) *)

Definition as_create : K machine (option Z) :=
  p <- on_kheap (kmalloc 80) ;;
  match p with
  | None => kret None
  | Some p =>
      c <- segment_create CODE ;;
      d <- segment_create DATA ;;
      s <- segment_create STACK ;;
      put_as p (Addrspace 0 0 0 0 0 0 0 c d s false) ;;
      kret (Some p)
  end.

Definition as_destroy (p : Z) : K machine unit :=
  on_kheap (kfree (Some p)) ;;
  kmodify (λ m, set_spaces (delete p (m_spaces m)) m).

Definition as_prepare_load (p : Z) : K machine Z := kret 0.

(** [memmove] of words between two ranges that do not overlap. *)
Fixpoint copy_words (dst src : Z) (ixs : list Z) (mem : gmap Z Z) : gmap Z Z :=
  match ixs with
  | [] => mem
  | i :: ixs =>
      copy_words dst src ixs
        (partial_alter (λ _, mem !! u32 (src + 4 * i)) (u32 (dst + 4 * i)) mem)
  end.
Definition move_pages (dst src n : Z) : K machine unit :=
  on_kheap (kmodify (λ h, set_mem
    (copy_words (PADDR_TO_KVADDR dst) (PADDR_TO_KVADDR src)
       (seqZ 0 (u32 (n * PAGE_SIZE) / 4)) (kh_mem h)) h)).

(** An error number, or the new address space. *)
Definition as_copy (old : Z) : K machine (Z + Z) :=
  new <- as_create ;;
  match new with
  | None => kret (inl ENOMEM)
  | Some new =>
      o <- get_as old ;;
      n <- get_as new ;;
      put_as new (Addrspace (as_vbase1 o) (as_pbase1 n) (as_npages1 o)
                            (as_vbase2 o) (as_pbase2 n) (as_npages2 o) (as_stackpbase n)
                            (code n) (data n) (stack n) (loaded n)) ;;
      r <- as_prepare_load new ;;
      if negb (r =? 0) then as_destroy new ;; kret (inl ENOMEM)
      else
        n <- get_as new ;;
        kassert (negb (as_pbase1 n =? 0)) ;;
        kassert (negb (as_pbase2 n =? 0)) ;;
        kassert (negb (as_stackpbase n =? 0)) ;;
        move_pages (as_pbase1 n) (as_pbase1 o) (as_npages1 o) ;;
        move_pages (as_pbase2 n) (as_pbase2 o) (as_npages2 o) ;;
        move_pages (as_stackpbase n) (as_stackpbase o) STACKPAGES ;;
        kret (inr new)
  end.

Definition curproc_getas : K machine (option Z) :=
  m <- kget ;; kret (mjoin (m_curproc m)).

Definition tlb_write (ehi elo i : Z) : K machine unit :=
  m <- kget ;;
  _ <- kderef (m_tlb m !! Z.to_nat i) ;;
  kput (set_tlb (<[Z.to_nat i := (ehi, elo)]> (m_tlb m)) m).
Definition tlb_read (i : Z) : K machine (Z * Z) :=
  m <- kget ;; kderef (m_tlb m !! Z.to_nat i).

Fixpoint tlb_clear (ixs : list Z) : K machine unit :=
  match ixs with
  | [] => kret tt
  | i :: ixs => tlb_write (TLBHI_INVALID i) TLBLO_INVALID i ;; tlb_clear ixs
  end.

Definition as_activate : K machine unit :=
  a <- curproc_getas ;;
  match a with
  | None => kret tt
  | Some _ =>
      tlb_clear (seqZ 0 NUM_TLB) ;;
      vmstats_inc VMSTAT_TLB_INVALIDATE
  end.

Definition as_deactivate : K machine unit := kret tt.

(** Base and length in pages of a region, as [as_define_region] computes them. *)
Definition align_region (vaddr sz : Z) : Z * Z :=
  let sz := u32 (sz + Z.land vaddr (u32 (Z.lnot PAGE_FRAME))) in
  let vaddr := Z.land vaddr PAGE_FRAME in
  let sz := Z.land (u32 (u32 (sz + PAGE_SIZE) - 1)) PAGE_FRAME in
  (vaddr, sz / PAGE_SIZE).

Definition as_define_region (p vaddr sz : Z) : K machine Z :=
  let '(vaddr, np) := align_region vaddr sz in
  a <- get_as p ;;
  if (as_vbase1 a =? 0) && (vbase (code a) =? 0) then
    put_as p (Addrspace vaddr (as_pbase1 a) np (as_vbase2 a) (as_pbase2 a) (as_npages2 a)
                (as_stackpbase a)
                (Segment (vbase (code a)) np (ptable (code a)) (tsegment (code a)))
                (data a) (stack a) (loaded a)) ;;
    a <- get_as p ;;
    pt <- segment_prepare (code a) ;;
    a <- get_as p ;;
    put_as p (set_seg CODE (Segment vaddr (npages (code a)) (Some pt) (tsegment (code a))) a) ;;
    kret 0
  else if (as_vbase2 a =? 0) && (vbase (data a) =? 0) then
    put_as p (Addrspace (as_vbase1 a) (as_pbase1 a) (as_npages1 a) vaddr (as_pbase2 a) np
                (as_stackpbase a) (code a)
                (Segment (vbase (data a)) np (ptable (data a)) (tsegment (data a)))
                (stack a) (loaded a)) ;;
    a <- get_as p ;;
    pt <- segment_prepare (data a) ;;
    a <- get_as p ;;
    put_as p (set_seg DATA (Segment vaddr (npages (data a)) (Some pt) (tsegment (data a))) a) ;;
    kret 0
  else kret EUNIMP.

Definition as_complete_load (p : Z) : K machine Z :=
  a <- get_as p ;;
  put_as p (Addrspace (as_vbase1 a) (as_pbase1 a) (as_npages1 a) (as_vbase2 a) (as_pbase2 a)
              (as_npages2 a) (as_stackpbase a) (code a) (data a) (stack a) true) ;;
  kret 0.

(** The result is [*stackptr]. *)
Definition as_define_stack (p : Z) : K machine Z := kret USERSTACK.

(** ** The fault handler (vm.c) *)

Definition tlb_get_rr_victim : K machine Z :=
  m <- kget ;;
  kput (set_victim (u32 (m_victim m + 1) mod NUM_TLB) m) ;;
  kret (m_victim m).

(** The first invalid slot, which the loop writes. *)
Fixpoint tlb_fill_free (ixs : list Z) (ehi elo : Z) : K machine bool :=
  match ixs with
  | [] => kret false
  | i :: ixs =>
      e <- tlb_read i ;;
      if negb (Z.land e.2 TLBLO_VALID =? 0) then tlb_fill_free ixs ehi elo
      else
        tlb_write ehi elo i ;;
        vmstats_inc VMSTAT_TLB_FAULT_FREE ;;
        kret true
  end.

(** From [splhigh] to the end of [vm_fault]. *)
Definition tlb_load (faultaddress pa : Z) (readonly : bool) : K machine Z :=
  kassert (Z.land pa PAGE_FRAME =? pa) ;;
  vmstats_inc VMSTAT_TLB_FAULT ;;
  let elo := if readonly then Z.lor pa TLBLO_VALID
             else Z.lor (Z.lor pa TLBLO_DIRTY) TLBLO_VALID in
  done <- tlb_fill_free (seqZ 0 NUM_TLB) faultaddress elo ;;
  if (done : bool) then kret 0
  else
    i <- tlb_get_rr_victim ;;
    tlb_write faultaddress elo i ;;
    vmstats_inc VMSTAT_TLB_FAULT_REPLACE ;;
    kret 0.

(** What the handler does: return a code, or leave through [sys__exit]. *)
Inductive fault_result := FaultReturns (code : Z) | FaultExits (status : Z).

(** From the [switch] on, for a read or a write. *)
Definition handle_fault (faultaddress : Z) (attempting_write : bool) : K machine fault_result :=
  m <- kget ;;
  match m_curproc m with
  | None => kret (FaultReturns EFAULT)
  | Some _ =>
    ap <- curproc_getas ;;
    match ap with
    | None => kret (FaultReturns EFAULT)
    | Some p =>
      a <- get_as p ;;
      kassert (negb (vbase (code a) =? 0)) ;;
      kassert (negb (npages (code a) =? 0)) ;;
      kassert (negb (vbase (data a) =? 0)) ;;
      kassert (negb (npages (data a) =? 0)) ;;
      kassert (negb (vbase (stack a) =? 0)) ;;
      kassert (Z.land (vbase (code a)) PAGE_FRAME =? vbase (code a)) ;;
      kassert (Z.land (vbase (code a)) PAGE_FRAME =? vbase (code a)) ;;
      kassert (Z.land (vbase (stack a)) PAGE_FRAME =? vbase (stack a)) ;;
      let vbase1 := vbase (code a) in
      let vtop1 := u32 (vbase1 + npages (code a) * PAGE_SIZE) in
      let vbase2 := vbase (data a) in
      let vtop2 := u32 (vbase2 + npages (data a) * PAGE_SIZE) in
      let stackbase := u32 (USERSTACK - STACKPAGES * PAGE_SIZE) in
      let stacktop := USERSTACK in
      if (vbase1 <=? faultaddress) && (faultaddress <? vtop1) then
        pa <- segment_lookup p CODE faultaddress attempting_write ;;
        r <- tlb_load faultaddress pa (loaded a) ;;
        kret (FaultReturns r)
      else if (vbase2 <=? faultaddress) && (faultaddress <? vtop2) then
        pa <- segment_lookup p DATA faultaddress attempting_write ;;
        r <- tlb_load faultaddress pa false ;;
        kret (FaultReturns r)
      else if (stackbase <=? faultaddress) && (faultaddress <? stacktop) then
        pa <- segment_lookup p STACK faultaddress attempting_write ;;
        r <- tlb_load faultaddress pa false ;;
        kret (FaultReturns r)
      else kret (FaultReturns EFAULT)
    end
  end.

Definition vm_fault (faulttype faultaddress : Z) : K machine fault_result :=
  let faultaddress := Z.land faultaddress PAGE_FRAME in
  if faulttype =? VM_FAULT_READONLY then kret (FaultExits 0)
  else if faulttype =? VM_FAULT_READ then handle_fault faultaddress false
  else if faulttype =? VM_FAULT_WRITE then handle_fault faultaddress true
  else kret (FaultReturns EINVAL).

(** [vm_tlbshootdown_all] and [vm_tlbshootdown] are not implemented. *)
Definition vm_tlbshootdown_all : K machine unit := kpanic.
Definition vm_tlbshootdown (ts : Z * Z) : K machine unit := kpanic.
