(* ===== verification/VmSpec.v ===== *)
(** * Virtual memory: what it promises

    [mapped m p t i] is the frame that page [i] of segment [t] of address space
    [p] has.  The machine invariant [minv] says that frames are page aligned,
    below the frontier, never shared between two pages and never part of the
    kernel heap; every operation keeps it.  The fault handler is shown to give
    a page its frame once, to put the translation into the TLB with the right
    permission and to touch nothing else. *)

From stdpp Require Import base numbers list gmap fin_maps.
From Stdlib Require Import ZArith Lia.
From S2P Require Import Prelude PhysMem Kmalloc KmallocSpec KmallocFree Vm.

Open Scope Z_scope.
Open Scope kernel_scope.

#[global] Instance segment_t_eq_dec : EqDecision segment_t.
Proof. solve_decision. Defined.

(** ** Page tables as functions *)

Definition pte_at (m : machine) (p : Z) (t : segment_t) (i : nat) : option pte :=
  a ← m_spaces m !! p; pt ← ptable (seg_of t a); pt.2 !! i.

Definition pte_frame (x : pte) : option Z :=
  match valid x with
  | Some v => if v =? 0 then None else paddr x
  | None => None
  end.

Definition mapped (m : machine) (p : Z) (t : segment_t) (i : nat) : option Z :=
  pte_at m p t i ≫= pte_frame.

Definition upd_seg (i : nat) (x : pte) (s : segment) : segment :=
  Segment (vbase s) (npages s) ((λ pt, (pt.1, <[i := x]> pt.2)) <$> ptable s) (tsegment s).
Definition upd_pte (p : Z) (t : segment_t) (i : nat) (x : pte) (m : machine) : machine :=
  set_spaces (alter (λ a, set_seg t (upd_seg i x (seg_of t a)) a) p (m_spaces m)) m.

Section Tables.
Implicit Types (m : machine) (p : Z) (t : segment_t) (i : nat).

Lemma seg_of_set t u s a : seg_of t (set_seg u s a) = if decide (t = u) then s else seg_of t a.
Proof. by destruct t, u. Qed.

Lemma get_pte_run m p t i x : pte_at m p t i = Some x → get_pte p t (Z.of_nat i) m = Done (x, m).
Proof.
  unfold pte_at, get_pte, get_as. ksteps. intros H.
  destruct (m_spaces m !! p) as [a|] eqn:Ha; [|done]. simpl in H.
  ksteps. destruct (ptable (seg_of t a)) as [pt|] eqn:Hpt; [|done]. simpl in H.
  ksteps. by rewrite Nat2Z.id, H.
Qed.

Lemma put_pte_run m p t i x y :
  pte_at m p t i = Some y → put_pte p t (Z.of_nat i) x m = Done (tt, upd_pte p t i x m).
Proof.
  unfold pte_at, put_pte, get_as. ksteps. intros H.
  destruct (m_spaces m !! p) as [a|] eqn:Ha; [|done]. simpl in H.
  ksteps. destruct (ptable (seg_of t a)) as [pt|] eqn:Hpt; [|done]. simpl in H.
  ksteps. rewrite Nat2Z.id, H. ksteps. unfold put_as, kmodify, upd_pte, upd_seg.
  do 3 f_equal. unfold alter, map_alter. apply map_eq. intros q.
  destruct (decide (q = p)) as [->|Hq].
  - rewrite lookup_insert_eq, lookup_partial_alter_eq, Ha. simpl. by rewrite Hpt.
  - by rewrite lookup_insert_ne, lookup_partial_alter_ne.
Qed.

Lemma pte_at_upd m p t i x y q u j :
  pte_at m p t i = Some y →
  pte_at (upd_pte p t i x m) q u j =
  if decide (q = p ∧ u = t ∧ j = i) then Some x else pte_at m q u j.
Proof.
  unfold pte_at, upd_pte. simpl. intros H.
  destruct (m_spaces m !! p) as [a|] eqn:Ha; [|done]. simpl in H.
  destruct (ptable (seg_of t a)) as [[base cells]|] eqn:Hpt; [|done]. simpl in H.
  destruct (decide (q = p)) as [->|Hq].
  2: { rewrite lookup_alter_ne by done. by rewrite decide_False by naive_solver. }
  rewrite lookup_alter_eq, Ha. simpl. rewrite seg_of_set.
  destruct (decide (u = t)) as [->|Hu].
  2: { by rewrite decide_False by naive_solver. }
  unfold upd_seg. simpl. rewrite Hpt. simpl. rewrite list_lookup_insert.
  apply lookup_lt_Some in H. repeat case_decide; naive_solver.
Qed.

Lemma mapped_upd m p t i x y q u j :
  pte_at m p t i = Some y →
  mapped (upd_pte p t i x m) q u j =
  if decide (q = p ∧ u = t ∧ j = i) then pte_frame x else mapped m q u j.
Proof. intros H. unfold mapped. rewrite (pte_at_upd _ _ _ _ _ _ _ _ _ H). by case_decide. Qed.
End Tables.

(** ** Statistics *)

Definition stats_ok (m : machine) : Prop := ∃ c, m_stats m = Some c ∧ length c = 10%nat.
Definition stat (m : machine) (ix : Z) : Z :=
  default 0 (m_stats m ≫= λ c, c !! Z.to_nat ix).
Definition bump (ix : Z) (m : machine) : machine :=
  set_stats (alter (λ n, u32 (n + 1)) (Z.to_nat ix) <$> m_stats m) m.

Section Stats.
Implicit Types (m : machine).

Lemma vmstats_inc_run m ix : stats_ok m → 0 ≤ ix < 10 → vmstats_inc ix m = Done (tt, bump ix m).
Proof.
  intros (c & Hc & Hl) Hix. unfold vmstats_inc, _vmstats_inc, bump, VMSTAT_COUNT. rewrite Hc.
  rewrite (proj2 (Z.ltb_lt ix 10)) by lia.
  destruct (lookup_lt_is_Some_2 c (Z.to_nat ix)) as [n Hn]; [lia|]. rewrite Hn. simpl.
  do 4 f_equal. apply list_eq. intros k. rewrite list_lookup_insert, list_lookup_alter.
  apply lookup_lt_Some in Hn as Hlt. repeat case_decide; subst; try naive_solver. by rewrite Hn.
Qed.

Lemma bump_ok m ix : stats_ok m → stats_ok (bump ix m).
Proof.
  intros (c & Hc & Hl). unfold stats_ok, bump. rewrite Hc. simpl. eexists. split; [done|].
  by rewrite length_alter.
Qed.

Lemma stat_bump m ix jx :
  stats_ok m → 0 ≤ ix < 10 → 0 ≤ jx < 10 →
  stat (bump ix m) jx = if decide (jx = ix) then u32 (stat m jx + 1) else stat m jx.
Proof.
  intros (c & Hc & Hl) Hi Hj. unfold stat, bump. rewrite Hc. simpl. rewrite list_lookup_alter.
  destruct (lookup_lt_is_Some_2 c (Z.to_nat jx)) as [n Hn]; [lia|].
  case_decide as H1; case_decide as H2; try lia; subst; by rewrite ?Hn.
Qed.
End Stats.

(** ** The machine invariant *)

Definition pte_ok (x : pte) : Prop :=
  valid x = Some 0 ∨ (valid x = Some 1 ∧ is_Some (paddr x)).

Definition seg_wf (s : segment) : Prop :=
  0 ≤ vbase s < 2 ^ 32 ∧ vbase s mod PAGE_SIZE = 0 ∧
  match ptable s with
  | None => npages s = 0
  | Some (_, cells) =>
      0 < npages s < 2 ^ 20 ∧ length cells = Z.to_nat (npages s) ∧ Forall pte_ok cells
  end.

Record as_wf (a : addrspace) : Prop := {
  aw_segs : ∀ t, seg_wf (seg_of t a);
  aw_stack : vbase (stack a) = USERSTACK - STACKPAGES * PAGE_SIZE;
  aw_stack_pages : npages (stack a) = STACKPAGES;
}.

(** The kernel address of a frame lies in what the heap holds. *)
Definition heap_holds (h : kheap) (x : Z) : Prop := footprint (pages_of h) (kh_big h) x.

Record minv (m : machine) : Prop := {
  mi_heap : kh_ok (m_heap m);
  mi_spaces : ∀ p a, m_spaces m !! p = Some a → as_wf a ∧ ∃ len, block_at (m_heap m) p len;
  mi_frames : ∀ p t i pa, mapped m p t i = Some pa →
    pa mod PAGE_SIZE = 0 ∧ 0 < pa ∧ pa + PAGE_SIZE ≤ firstpaddr (kh_ram (m_heap m));
  mi_distinct : ∀ p t i q u j pa,
    mapped m p t i = Some pa → mapped m q u j = Some pa → p = q ∧ t = u ∧ i = j;
  mi_private : ∀ p t i pa x, mapped m p t i = Some pa →
    pa + MIPS_KSEG0 ≤ x < pa + MIPS_KSEG0 + PAGE_SIZE → ¬ heap_holds (m_heap m) x;
  mi_tlb : length (m_tlb m) = 64%nat;
  mi_victim : 0 ≤ m_victim m < NUM_TLB;
  mi_stats : stats_ok m;
}.

Section Invariant.
Implicit Types (m : machine) (p : Z) (t : segment_t) (i : nat) (h : kheap).

Lemma minv_heap m h' :
  minv m → kh_ok h' → kh_evolves (m_heap m) h' →
  (∀ p a, m_spaces m !! p = Some a → ∃ len, block_at h' p len) →
  minv (set_heap h' m).
Proof.
  intros [Ih Is If Id Ip It Iv Ist] Hok [Hfr Hfoot] Hblk. constructor; try done.
  - intros p a Ha. split; [by apply (Is p a)|]. by eapply Hblk.
  - intros p t i pa Hm. destruct (If _ _ _ _ Hm) as (? & ? & ?). split_and!; [done..|].
    unfold frontier in Hfr. simpl. lia.
  - intros p t i pa x Hm Hx Hf. apply Hfoot in Hf as [Hf|Hf]; [by eapply Ip|].
    destruct (If _ _ _ _ Hm) as (? & ? & ?). unfold frontier in Hf. lia.
Qed.

Lemma minv_other m m' :
  minv m → m_heap m' = m_heap m → m_spaces m' = m_spaces m →
  length (m_tlb m') = 64%nat → 0 ≤ m_victim m' < NUM_TLB → stats_ok m' → minv m'.
Proof.
  intros [Ih Is If Id Ip It Iv Ist] Eh Es Ht Hv Hst.
  assert (Em : ∀ p t i, mapped m' p t i = mapped m p t i).
  { intros. unfold mapped, pte_at. by rewrite Es. }
  constructor; try done; rewrite ?Eh; try done.
  - intros p a. rewrite Es. apply Is.
  - intros p t i pa. rewrite Em. apply If.
  - intros p t i q u j pa. rewrite !Em. apply Id.
  - intros p t i pa x. rewrite Em. apply Ip.
Qed.

Lemma minv_bump m ix : minv m → minv (bump ix m).
Proof.
  intros Hm. apply (minv_other m); [done|done|done|apply Hm|apply Hm|apply bump_ok, Hm].
Qed.

Lemma upd_pte_lookup m p t i x q b :
  m_spaces (upd_pte p t i x m) !! q = Some b →
  ∃ a, m_spaces m !! q = Some a ∧
    (b = a ∨ (q = p ∧ b = set_seg t (upd_seg i x (seg_of t a)) a)).
Proof.
  unfold upd_pte. simpl. destruct (decide (q = p)) as [->|Hq].
  - rewrite lookup_alter_eq. destruct (m_spaces m !! p) as [a|]; [|done]. intros [= <-]. eauto.
  - rewrite lookup_alter_ne by done. intros ->. eauto.
Qed.

Lemma as_wf_upd a t i x : as_wf a → pte_ok x → as_wf (set_seg t (upd_seg i x (seg_of t a)) a).
Proof.
  intros [Hs H1 H2] Hx. constructor.
  - intros u. rewrite seg_of_set. case_decide; [subst u|apply Hs].
    destruct (Hs t) as (? & ? & Ht). unfold upd_seg, seg_wf. simpl. split_and!; [lia|lia|done|].
    destruct (ptable (seg_of t a)) as [[base cells]|]; simpl in *; [|done].
    destruct Ht as (? & ? & ?). split_and!; [lia|lia|by rewrite length_insert|by apply Forall_insert].
  - by destruct t.
  - by destruct t.
Qed.

(** Recording a use or a frame nobody has. *)
Lemma minv_upd m p t i x y :
  minv m → pte_at m p t i = Some y → pte_ok x →
  (pte_frame x = pte_frame y ∨
   ∃ pa, pte_frame x = Some pa ∧ pa mod PAGE_SIZE = 0 ∧ 0 < pa ∧
     pa + PAGE_SIZE ≤ firstpaddr (kh_ram (m_heap m)) ∧
     (∀ q u j, mapped m q u j ≠ Some pa) ∧
     (∀ z, pa + MIPS_KSEG0 ≤ z < pa + MIPS_KSEG0 + PAGE_SIZE → ¬ heap_holds (m_heap m) z)) →
  minv (upd_pte p t i x m).
Proof.
  intros Hm Hy Hx Hf. pose proof Hm as [Ih Is If Id Ip It Iv Ist].
  assert (Emap : ∀ q u j, mapped (upd_pte p t i x m) q u j =
    if decide (q = p ∧ u = t ∧ j = i) then pte_frame x else mapped m q u j)
    by (intros; by eapply mapped_upd).
  assert (Ey : mapped m p t i = pte_frame y) by (unfold mapped; by rewrite Hy).
  destruct Hf as [Hsame|(pa & Hpa & Hal & Hpos & Hle & Hnew & Hpriv)].
  - assert (Eall : ∀ q u j, mapped (upd_pte p t i x m) q u j = mapped m q u j).
    { intros. rewrite Emap. case_decide as Hd; [|done]. destruct Hd as (-> & -> & ->). congruence. }
    constructor; try done.
    + intros q b Hb. destruct (upd_pte_lookup _ _ _ _ _ _ _ Hb) as (a & Ha & [->|[-> ->]]).
      * by apply Is.
      * destruct (Is _ _ Ha) as [? ?]. split; [by apply as_wf_upd|done].
    + intros *. rewrite Eall. apply If.
    + intros *. rewrite !Eall. apply Id.
    + intros *. rewrite Eall. apply Ip.
  - constructor; try done.
    + intros q b Hb. destruct (upd_pte_lookup _ _ _ _ _ _ _ Hb) as (a & Ha & [->|[-> ->]]).
      * by apply Is.
      * destruct (Is _ _ Ha) as [? ?]. split; [by apply as_wf_upd|done].
    + intros q u j pb. rewrite Emap. case_decide; [|apply If]. rewrite Hpa. by intros [= <-].
    + intros q u j q' u' j' pb. rewrite !Emap. case_decide as H1; case_decide as H2.
      * destruct H1 as (-> & -> & ->), H2 as (-> & -> & ->). done.
      * rewrite Hpa. intros [= <-] Hb. by apply Hnew in Hb.
      * rewrite Hpa. intros Hb [= <-]. by apply Hnew in Hb.
      * apply Id.
    + intros q u j pb z. rewrite Emap. case_decide; [|apply Ip]. rewrite Hpa. intros [= <-]. apply Hpriv.
Qed.

(** A frame from [getppages]. *)
Lemma getppages_machine m :
  minv m →
  (has_pages (m_heap m) 1 ∧
   on_kheap (on_ram (getppages 1)) m =
     Done (firstpaddr (kh_ram (m_heap m)), set_heap (grown (m_heap m) 1) m)) ∨
  (¬ has_pages (m_heap m) 1 ∧ on_kheap (on_ram (getppages 1)) m = Panic).
Proof.
  intros Hm. pose proof (rep_ram _ _ (mi_heap _ Hm)) as Hram.
  unfold on_kheap, on_ram, kzoom, has_pages. rewrite getppages_ok by (done || lia).
  case_decide; [by left|by right].
Qed.

Lemma grown_machine m :
  minv m → has_pages (m_heap m) 1 → minv (set_heap (grown (m_heap m) 1) m).
Proof.
  intros Hm Hroom. pose proof (mi_heap _ Hm) as Hok.
  destruct (rep_ok _ _ (rep_grow _ _ 1 Hok ltac:(lia) Hroom)) as [Hok' Hpg].
  apply minv_heap; [done|done| |].
  - constructor; rewrite ?Hpg; [unfold frontier, grown, PAGE_SIZE; cbn; lia|by left].
  - intros p a Ha. unfold block_at. rewrite Hpg. by eapply mi_spaces.
Qed.

Lemma new_frame_machine m p t i x y :
  minv m → has_pages (m_heap m) 1 → pte_at m p t i = Some y →
  valid x = Some 1 → paddr x = Some (firstpaddr (kh_ram (m_heap m))) →
  minv (upd_pte p t i x (set_heap (grown (m_heap m) 1) m)).
Proof.
  intros Hm Hroom Hy Hv Hpa. pose proof (mi_heap _ Hm) as Hok.
  destruct (rep_ok _ _ (rep_grow _ _ 1 Hok ltac:(lia) Hroom)) as [_ Hpg].
  pose proof (rep_ram _ _ Hok) as [Hpos _ Hal].
  eapply minv_upd; [by apply grown_machine|exact Hy|right; split; [done|by rewrite Hpa]|].
  right. exists (firstpaddr (kh_ram (m_heap m))). split_and!; [|done|lia| | |].
  - unfold pte_frame. by rewrite Hv, Hpa.
  - simpl. unfold PAGE_SIZE. lia.
  - intros q u j Hq. change (mapped m q u j = Some (firstpaddr (kh_ram (m_heap m)))) in Hq.
    destruct (mi_frames _ Hm _ _ _ _ Hq) as (_ & _ & ?). unfold PAGE_SIZE in *. lia.
  - intros z Hz. unfold heap_holds. simpl. rewrite Hpg. intros Hf.
    destruct (below_frontier _ _ Hok) as [Hb1 Hb2]. unfold frontier in *.
    destruct Hf as [(j & qg & Hq & Hin)|(b & n & Hb & Hin)].
    + specialize (Hb1 _ _ Hq). unfold in_page in Hin. lia.
    + specialize (Hb2 _ _ Hb). lia.
Qed.
End Invariant.

(** ** Loading the TLB *)

Definition tlb_valid (e : Z * Z) : bool := negb (Z.land e.2 TLBLO_VALID =? 0).

(** The slot the next translation goes to: the first invalid one, or the
    round-robin victim when all are valid. *)
Definition first_invalid (tlb : list (Z * Z)) : option nat :=
  fst <$> list_find (λ e, tlb_valid e = false) tlb.
Definition next_slot (m : machine) : nat :=
  default (Z.to_nat (m_victim m)) (first_invalid (m_tlb m)).

Definition tlb_lo (pa : Z) (readonly : bool) : Z :=
  if readonly then Z.lor pa TLBLO_VALID else Z.lor (Z.lor pa TLBLO_DIRTY) TLBLO_VALID.

(** The machine after a translation has been loaded. *)
Definition loaded_tlb (fa pa : Z) (readonly : bool) (m : machine) : machine :=
  let m1 := bump VMSTAT_TLB_FAULT m in
  let m2 := set_tlb (<[next_slot m := (fa, tlb_lo pa readonly)]> (m_tlb m)) m1 in
  match first_invalid (m_tlb m) with
  | Some _ => bump VMSTAT_TLB_FAULT_FREE m2
  | None => bump VMSTAT_TLB_FAULT_REPLACE (set_victim ((m_victim m + 1) mod NUM_TLB) m2)
  end.

Section TlbLoad.
Implicit Types (m : machine).

Lemma tlb_fill_free_ok m hi lo k n :
  stats_ok m → length (m_tlb m) = 64%nat → (k + n = 64)%nat →
  tlb_fill_free (seqZ (Z.of_nat k) (Z.of_nat n)) hi lo m =
  match first_invalid (drop k (m_tlb m)) with
  | Some i => Done (true, bump VMSTAT_TLB_FAULT_FREE
                            (set_tlb (<[(k + i)%nat := (hi, lo)]> (m_tlb m)) m))
  | None => Done (false, m)
  end.
Proof.
  intros Hst Hl. revert k. induction n as [|n IH]; intros k Hk.
  { rewrite drop_ge by lia. done. }
  rewrite seqZ_cons by lia. cbn [tlb_fill_free].
  destruct (lookup_lt_is_Some_2 (m_tlb m) k) as [e He]; [lia|].
  assert (Hread : tlb_read (Z.of_nat k) m = Done (e, m)).
  { unfold tlb_read. ksteps. by rewrite Nat2Z.id, He. }
  kcall Hread. rewrite (drop_S _ _ _ He). unfold first_invalid. simpl.
  fold (tlb_valid e). destruct (tlb_valid e) eqn:Hv; case_decide; try done.
  - replace (Z.succ (Z.of_nat k)) with (Z.of_nat (S k)) by lia.
    replace (Z.pred (Z.of_nat (S n))) with (Z.of_nat n) by lia.
    rewrite IH by lia. unfold first_invalid. destruct (list_find _ _) as [[i x]|]; simpl; [|done].
    by rewrite Nat.add_succ_r.
  - unfold tlb_write. ksteps. rewrite Nat2Z.id, He. ksteps.
    rewrite (kbind_run _ _ _ _ _ (vmstats_inc_run (set_tlb (<[k:=(hi, lo)]> (m_tlb m)) m) VMSTAT_TLB_FAULT_FREE Hst ltac:(done))).
    simpl. by rewrite Nat.add_0_r.
Qed.

Lemma first_invalid_lt tlb i : first_invalid tlb = Some i → (i < length tlb)%nat.
Proof.
  unfold first_invalid. destruct (list_find _ _) as [[j x]|] eqn:E; [|done]. intros [= <-].
  apply list_find_Some in E as (E & _). by eapply lookup_lt_Some.
Qed.

Lemma next_slot_lt m : minv m → (next_slot m < 64)%nat.
Proof.
  intros Hm. unfold next_slot. destruct (first_invalid (m_tlb m)) as [i|] eqn:E; simpl.
  - apply first_invalid_lt in E. by rewrite (mi_tlb _ Hm) in E.
  - pose proof (mi_victim _ Hm). unfold NUM_TLB in *. lia.
Qed.

Lemma tlb_load_ok m fa pa ro :
  minv m → 0 ≤ pa < 2 ^ 32 → pa mod PAGE_SIZE = 0 →
  tlb_load fa pa ro m = Done (0, loaded_tlb fa pa ro m) ∧ minv (loaded_tlb fa pa ro m).
Proof.
  intros Hm Hpa Hal. pose proof (mi_stats _ Hm) as Hst. pose proof (mi_tlb _ Hm) as Hl.
  pose proof (mi_victim _ Hm) as Hv. unfold NUM_TLB in Hv. split.
  - unfold tlb_load. rewrite step_assert by (apply Z.eqb_eq; by apply page_frame_aligned).
    kcall (vmstats_inc_run m VMSTAT_TLB_FAULT Hst ltac:(done)). fold (tlb_lo pa ro).
    pose proof (tlb_fill_free_ok (bump VMSTAT_TLB_FAULT m) fa (tlb_lo pa ro) 0 64 (bump_ok _ _ Hst) Hl eq_refl) as Hfill.
    change (Z.of_nat 0) with 0 in Hfill. change (Z.of_nat 64) with NUM_TLB in Hfill.
    rewrite drop_0 in Hfill. change (m_tlb (bump VMSTAT_TLB_FAULT m)) with (m_tlb m) in Hfill.
    unfold loaded_tlb, next_slot. destruct (first_invalid (m_tlb m)) as [i|] eqn:Hfi.
    + kcall Hfill. done.
    + kcall Hfill. unfold tlb_get_rr_victim. ksteps. unfold tlb_write. ksteps.
      change (m_tlb (set_victim _ _)) with (m_tlb m).
      destruct (lookup_lt_is_Some_2 (m_tlb m) (Z.to_nat (m_victim m))) as [e He]; [lia|].
      change (m_victim (bump VMSTAT_TLB_FAULT m)) with (m_victim m). rewrite He. ksteps.
      rewrite (u32_small (m_victim m + 1)) by lia. set (m2 := set_tlb _ _).
      assert (Hst2 : stats_ok m2) by exact (bump_ok _ VMSTAT_TLB_FAULT Hst).
      by kcall (vmstats_inc_run m2 VMSTAT_TLB_FAULT_REPLACE Hst2 ltac:(done)).
  - unfold loaded_tlb. pose proof (next_slot_lt m Hm).
    destruct (first_invalid (m_tlb m)); apply minv_bump.
    + apply (minv_other m); try done; [by simpl; rewrite length_insert|exact (bump_ok _ VMSTAT_TLB_FAULT Hst)].
    + apply (minv_other m); try done; [by simpl; rewrite length_insert| |exact (bump_ok _ VMSTAT_TLB_FAULT Hst)].
      simpl. apply Z.mod_pos_bound. done.
Qed.

(** What it leaves alone. *)
Lemma loaded_tlb_keeps fa pa ro m :
  m_heap (loaded_tlb fa pa ro m) = m_heap m ∧ m_spaces (loaded_tlb fa pa ro m) = m_spaces m ∧
  m_curproc (loaded_tlb fa pa ro m) = m_curproc m ∧
  m_tlb (loaded_tlb fa pa ro m) = <[next_slot m := (fa, tlb_lo pa ro)]> (m_tlb m).
Proof. unfold loaded_tlb. by destruct (first_invalid (m_tlb m)). Qed.

Lemma loaded_tlb_stat fa pa ro m ix :
  stats_ok m → 0 ≤ ix < 10 →
  stat (loaded_tlb fa pa ro m) ix =
  if decide (ix = VMSTAT_TLB_FAULT) then u32 (stat m ix + 1)
  else if decide (ix = if first_invalid (m_tlb m) then VMSTAT_TLB_FAULT_FREE else VMSTAT_TLB_FAULT_REPLACE)
       then u32 (stat m ix + 1) else stat m ix.
Proof.
  intros Hst Hix. unfold loaded_tlb. destruct (first_invalid (m_tlb m)).
  - rewrite stat_bump by (done || exact (bump_ok _ VMSTAT_TLB_FAULT Hst)).
    set (m2 := set_tlb _ _). change (stat m2 ix) with (stat (bump VMSTAT_TLB_FAULT m) ix).
    rewrite stat_bump by done. repeat case_decide; subst; done.
  - rewrite stat_bump by (done || exact (bump_ok _ VMSTAT_TLB_FAULT Hst)).
    set (m2 := set_victim _ _). change (stat m2 ix) with (stat (bump VMSTAT_TLB_FAULT m) ix).
    rewrite stat_bump by done. repeat case_decide; subst; done.
Qed.
End TlbLoad.

(** ** Looking a page up *)

(** The layout of an address space: everything but the entries of its tables. *)
Definition same_layout (a b : addrspace) : Prop :=
  (∀ t, vbase (seg_of t a) = vbase (seg_of t b) ∧ npages (seg_of t a) = npages (seg_of t b)) ∧
  loaded a = loaded b.
Definition same_layouts (m m' : machine) : Prop :=
  ∀ p a, m_spaces m !! p = Some a → ∃ b, m_spaces m' !! p = Some b ∧ same_layout a b.

#[global] Instance same_layouts_trans : Transitive same_layouts.
Proof.
  intros m1 m2 m3 H12 H23 p a Ha. destruct (H12 _ _ Ha) as (b & Hb & [E1 E2]).
  destruct (H23 _ _ Hb) as (c & Hc & [E3 E4]). exists c. split; [done|]. split; [|congruence].
  intros t. destruct (E1 t), (E3 t). split; congruence.
Qed.

Lemma same_layouts_eq m m' : m_spaces m' = m_spaces m → same_layouts m m'.
Proof. intros E p a Ha. exists a. rewrite E. done. Qed.

Lemma same_layouts_upd p t i x m : same_layouts m (upd_pte p t i x m).
Proof.
  intros q a Ha. unfold upd_pte. simpl. destruct (decide (q = p)) as [->|].
  - rewrite lookup_alter_eq, Ha. eexists. split; [done|]. split; [|by destruct t].
    intros u. rewrite seg_of_set. by case_decide; subst.
  - rewrite lookup_alter_ne by done. by exists a.
Qed.

Section Lookup.
Implicit Types (m : machine) (p : Z) (t : segment_t) (i : nat).

(** The page table after a lookup that found or made the frame [pa]. *)
Record looked_up m p t i (pa : Z) m' : Prop := {
  lu_inv : minv m';
  lu_page : mapped m' p t i = Some pa;
  lu_others : ∀ q u j, ¬ (q = p ∧ u = t ∧ j = i) → mapped m' q u j = mapped m q u j;
  lu_stable : ∀ pb, mapped m p t i = Some pb → pa = pb;
  lu_fresh : mapped m p t i = None → pa = firstpaddr (kh_ram (m_heap m));
  lu_tlb : m_tlb m' = m_tlb m;
  lu_victim : m_victim m' = m_victim m;
  lu_cur : m_curproc m' = m_curproc m;
  lu_layout : same_layouts m m';
  lu_stat : ∀ ix, 0 ≤ ix < 10 →
    stat m' ix = if mapped m p t i then
                   (if decide (ix = VMSTAT_TLB_RELOAD) then u32 (stat m ix + 1) else stat m ix)
                 else stat m ix;
}.

Lemma pte_at_ok m p t i x : minv m → pte_at m p t i = Some x → pte_ok x.
Proof.
  intros Hm. unfold pte_at. destruct (m_spaces m !! p) as [a|] eqn:Ha; [|done]. simpl.
  destruct (mi_spaces _ Hm _ _ Ha) as [[Hs _ _] _]. destruct (Hs t) as (_ & _ & Ht).
  destruct (ptable (seg_of t a)) as [[base cells]|]; [|done]. simpl. intros Hx.
  destruct Ht as (_ & _ & Hall). by eapply Forall_lookup_1.
Qed.

Lemma pte_exists m p t i a :
  minv m → m_spaces m !! p = Some a → (Z.of_nat i < npages (seg_of t a)) →
  ∃ x, pte_at m p t i = Some x.
Proof.
  intros Hm Ha Hi. unfold pte_at. rewrite Ha. simpl.
  destruct (mi_spaces _ Hm _ _ Ha) as [[Hs _ _] _]. destruct (Hs t) as (_ & _ & Ht).
  destruct (ptable (seg_of t a)) as [[base cells]|]; [|lia]. simpl.
  destruct Ht as (_ & Hl & _). apply lookup_lt_is_Some_2. lia.
Qed.

(** Noting a write changes no translation. *)
Lemma touch_run m p t i x (w : bool) :
  minv m → pte_at m p t i = Some x →
  ∃ m1 x1, (if w then y <- get_pte p t (Z.of_nat i) ;;
                      put_pte p t (Z.of_nat i) (Pte (valid y) (Some 1) (paddr y))
            else kret tt) m = Done (tt, m1) ∧
    minv m1 ∧ pte_at m1 p t i = Some x1 ∧ valid x1 = valid x ∧ paddr x1 = paddr x ∧
    (∀ q u j, mapped m1 q u j = mapped m q u j) ∧ m_heap m1 = m_heap m ∧ m_tlb m1 = m_tlb m ∧
    m_victim m1 = m_victim m ∧ m_curproc m1 = m_curproc m ∧ m_stats m1 = m_stats m ∧
    same_layouts m m1.
Proof.
  intros Hm Hx. destruct w.
  2: { exists m, x. split_and!; try done. by apply same_layouts_eq. }
  set (x1 := Pte (valid x) (Some 1) (paddr x)). exists (upd_pte p t i x1 m), x1.
  kcall (get_pte_run _ _ _ _ _ Hx). rewrite (put_pte_run _ _ _ _ _ _ Hx).
  split_and!; try done.
  - eapply minv_upd; [done|done|exact (pte_at_ok _ _ _ _ _ Hm Hx)|by left].
  - rewrite (pte_at_upd _ _ _ _ _ _ _ _ _ Hx). by rewrite decide_True.
  - intros q u j. rewrite (mapped_upd _ _ _ _ _ _ _ _ _ Hx). case_decide as Hd; [|done].
    destruct Hd as (-> & -> & ->). unfold mapped. by rewrite Hx.
  - apply same_layouts_upd.
Qed.

Lemma segment_lookup_ok m p t a i vaddr w :
  minv m → m_spaces m !! p = Some a → (Z.of_nat i < npages (seg_of t a)) →
  vaddr = vbase (seg_of t a) + Z.of_nat i * PAGE_SIZE → vaddr < 2 ^ 32 →
  (segment_lookup p t vaddr w m = Panic ∧ mapped m p t i = None ∧ ¬ has_pages (m_heap m) 1) ∨
  (∃ pa m', segment_lookup p t vaddr w m = Done (pa, m') ∧ looked_up m p t i pa m').
Proof.
  intros Hm Ha Hi -> Hlt. destruct (pte_exists _ _ _ _ _ Hm Ha Hi) as [x Hx].
  destruct (mi_spaces _ Hm _ _ Ha) as [[Hs _ _] _]. destruct (Hs t) as (Hvb & Hva & _).
  destruct (touch_run m p t i x w Hm Hx) as (m1 & x1 & Htouch & Hm1 & Hx1 & Ev & Ep & Emap & Eh & Et & Evi & Ec & Est & Elay).
  assert (Estat : ∀ ix, stat m1 ix = stat m ix) by (intros; unfold stat; by rewrite Est).
  unfold segment_lookup, get_as. ksteps. rewrite Ha. ksteps.
  unfold PAGE_SIZE in *.
  replace (vbase (seg_of t a) + Z.of_nat i * 4096 - vbase (seg_of t a)) with (Z.of_nat i * 4096) by lia.
  rewrite u32_small by lia. rewrite Z.div_mul, Z.mod_mul by done. kcall Htouch.
  kcall (get_pte_run _ _ _ _ _ Hx1). pose proof (Emap p t i) as Em1.
  unfold mapped in Em1 at 1. rewrite Hx1 in Em1. simpl in Em1.
  destruct (pte_at_ok _ _ _ _ _ Hm1 Hx1) as [Hv|[Hv [pa Hpa]]]; rewrite Hv; ksteps.
  - assert (Hnone : mapped m p t i = None) by (rewrite <-Em1; unfold pte_frame; by rewrite Hv).
    cbn [Z.eqb]. unfold pte_load.
    destruct (getppages_machine m1 Hm1) as [[Hroom Hget]|[Hno Hget]].
    2: { left. rewrite Eh in Hno. split_and!; [|done..]. unfold kbind. by rewrite Hget. }
    right. kcall Hget. set (m2 := set_heap _ m1).
    assert (Hx2 : pte_at m2 p t i = Some x1) by exact Hx1.
    kcall (get_pte_run _ _ _ _ _ Hx2). rewrite Eh in *.
    set (y := Pte (Some 1) (dirty x1) (Some (firstpaddr (kh_ram (m_heap m))))).
    rewrite (kbind_run _ _ _ _ _ (put_pte_run _ _ _ _ y _ Hx2)).
    eexists _, _. split; [reflexivity|]. constructor; try done.
    + unfold m2. eapply new_frame_machine; try done; by rewrite Eh.
    + rewrite (mapped_upd _ _ _ _ _ _ _ _ _ Hx2). by rewrite decide_True.
    + intros q u j Hne. rewrite (mapped_upd _ _ _ _ _ _ _ _ _ Hx2), decide_False by done.
      change (mapped m2 q u j) with (mapped m1 q u j). apply Emap.
    + rewrite Hnone. done.
    + etrans; [exact Elay|]. etrans; [|apply same_layouts_upd]. by apply same_layouts_eq.
    + intros ix Hix. rewrite Hnone. change (stat (upd_pte p t i y m2) ix) with (stat m1 ix). apply Estat.
  - assert (Hsome : mapped m p t i = Some pa) by (rewrite <-Em1; unfold pte_frame; by rewrite Hv).
    right. cbn [Z.eqb]. unfold pte_reload.
    kcall (vmstats_inc_run m1 VMSTAT_TLB_RELOAD (mi_stats _ Hm1) ltac:(done)).
    assert (Hx2 : pte_at (bump VMSTAT_TLB_RELOAD m1) p t i = Some x1) by exact Hx1.
    kcall (get_pte_run _ _ _ _ _ Hx2). rewrite Hpa. ksteps.
    destruct (mi_frames _ Hm _ _ _ _ Hsome) as (_ & Hpos & Hle).
    pose proof (rep_ram _ _ (mi_heap _ Hm)) as [_ Hlast _]. unfold PAGE_SIZE in Hle.
    rewrite Z.add_0_r, u32_small.
    2: { pose proof (ok_first _ (rep_ram _ _ (mi_heap _ Hm))). lia. }
    eexists _, _. split; [reflexivity|]. constructor; try done.
    + by apply minv_bump.
    + change (mapped m1 p t i = Some pa). by rewrite Emap.
    + intros q u j _. apply Emap.
    + congruence.
    + congruence.
    + intros ix Hix. rewrite Hsome, stat_bump by (done || apply Hm1). by rewrite Estat.
Qed.
End Lookup.
