(* ===== verification/VmProps.v ===== *)
(** * Virtual memory: the handler, the address space operations, the theorems *)

From stdpp Require Import base numbers list gmap fin_maps relations.
From Stdlib Require Import ZArith Lia.
From S2P Require Import Prelude PhysMem Kmalloc KmallocSpec KmallocFree Vm VmSpec.

Open Scope Z_scope.
Open Scope kernel_scope.

(** ** Which segment a page is in *)

Definition covers (s : segment) (fa : Z) : bool :=
  (vbase s <=? fa) && (fa <? u32 (vbase s + npages s * PAGE_SIZE)).

Definition region (a : addrspace) (fa : Z) : option segment_t :=
  if covers (code a) fa then Some CODE
  else if covers (data a) fa then Some DATA
  else if covers (stack a) fa then Some STACK
  else None.

(** What the handler asserts of an address space. *)
Definition as_ready (a : addrspace) : bool :=
  negb (vbase (code a) =? 0) && negb (npages (code a) =? 0) &&
  negb (vbase (data a) =? 0) && negb (npages (data a) =? 0).

Definition page_no (s : segment) (fa : Z) : nat := Z.to_nat ((fa - vbase s) / PAGE_SIZE).

Section Handler.
Implicit Types (m : machine) (p : Z) (t : segment_t) (a : addrspace).

Lemma covers_page s fa :
  seg_wf s → covers s fa = true → fa mod PAGE_SIZE = 0 →
  Z.of_nat (page_no s fa) < npages s ∧ fa = vbase s + Z.of_nat (page_no s fa) * PAGE_SIZE ∧
  fa < 2 ^ 32.
Proof.
  intros (Hvb & Hva & Ht) [Hlo%Z.leb_le Hhi%Z.ltb_lt]%andb_true_iff Hal.
  pose proof (u32_range (vbase s + npages s * PAGE_SIZE)) as Hr.
  assert (Hnp : 0 ≤ npages s < 2 ^ 20) by (destruct (ptable s) as [[? ?]|]; lia).
  assert (Htop : fa < vbase s + npages s * PAGE_SIZE).
  { unfold u32, PAGE_SIZE in *. destruct (decide (vbase s + npages s * 4096 < 2 ^ 32)).
    - rewrite Z.mod_small in Hhi by lia. lia.
    - lia. }
  unfold page_no, PAGE_SIZE in *.
  pose proof (Z_div_mod_eq_full fa 4096). pose proof (Z_div_mod_eq_full (vbase s) 4096).
  assert (E : (fa - vbase s) / 4096 = fa / 4096 - vbase s / 4096).
  { symmetry. apply (Z.div_unique _ _ _ 0); lia. }
  rewrite E, Z2Nat.id by lia. split_and!; lia.
Qed.

Lemma stack_covers a fa :
  as_wf a →
  (u32 (USERSTACK - STACKPAGES * PAGE_SIZE) <=? fa) && (fa <? USERSTACK) = covers (stack a) fa.
Proof. intros [_ H1 H2]. unfold covers. by rewrite H1, H2. Qed.

Lemma masked_page addr : 0 ≤ addr < 2 ^ 32 → Z.land addr PAGE_FRAME mod PAGE_SIZE = 0.
Proof. intros. rewrite page_frame_mask by done. by apply Z.mod_mul. Qed.

(** The handler on an address space that is ready: by the region. *)
Lemma handle_fault_region m p a fa w :
  minv m → m_curproc m = Some (Some p) → m_spaces m !! p = Some a → as_ready a = true →
  handle_fault fa w m =
  match region a fa with
  | Some t =>
      (pa <- segment_lookup p t fa w ;;
       r <- tlb_load fa pa (match t with CODE => loaded a | _ => false end) ;;
       kret (FaultReturns r)) m
  | None => Done (FaultReturns EFAULT, m)
  end.
Proof.
  intros Hm Hc Ha Hready. destruct (mi_spaces _ Hm _ _ Ha) as [Hwf _].
  apply andb_true_iff in Hready as [[[H1 H2]%andb_true_iff H3]%andb_true_iff H4].
  unfold handle_fault, curproc_getas. ksteps. rewrite Hc. ksteps. rewrite Hc. cbn [mjoin option_join].
  unfold get_as. ksteps. rewrite Ha. ksteps.
  assert (Hal : ∀ t, Z.land (vbase (seg_of t a)) PAGE_FRAME =? vbase (seg_of t a) = true).
  { intros t. destruct (aw_segs _ Hwf t) as (? & ? & _). apply Z.eqb_eq. by apply page_frame_aligned. }
  rewrite !step_assert by (done || exact (Hal CODE) || exact (Hal STACK) || (rewrite (aw_stack _ Hwf); done)).
  rewrite (stack_covers a fa Hwf). fold (covers (code a) fa). fold (covers (data a) fa).
  unfold region. by destruct (covers (code a) fa), (covers (data a) fa), (covers (stack a) fa).
Qed.

(** A fault on a page of region [t] that the machine can serve. *)
Record served m p t (i : nat) (fa pa : Z) (ro : bool) m' : Prop := {
  sv_inv : minv m';
  sv_page : mapped m' p t i = Some pa;
  sv_others : ∀ q u j, ¬ (q = p ∧ u = t ∧ j = i) → mapped m' q u j = mapped m q u j;
  sv_stable : ∀ pb, mapped m p t i = Some pb → pa = pb;
  sv_fresh : mapped m p t i = None → pa = firstpaddr (kh_ram (m_heap m));
  sv_tlb : m_tlb m' = <[next_slot m := (fa, tlb_lo pa ro)]> (m_tlb m);
  sv_cur : m_curproc m' = m_curproc m;
  sv_layout : same_layouts m m';
  sv_stat : ∀ ix, 0 ≤ ix < 10 →
    stat m' ix =
    if decide (ix = VMSTAT_TLB_FAULT ∨
               ix = (if first_invalid (m_tlb m) then VMSTAT_TLB_FAULT_FREE
                     else VMSTAT_TLB_FAULT_REPLACE) ∨
               (ix = VMSTAT_TLB_RELOAD ∧ mapped m p t i ≠ None))
    then u32 (stat m ix + 1) else stat m ix;
}.

Lemma region_covers a fa t : region a fa = Some t → covers (seg_of t a) fa = true.
Proof.
  unfold region. destruct (covers (code a) fa) eqn:H1; [by intros [= <-]|].
  destruct (covers (data a) fa) eqn:H2; [by intros [= <-]|].
  destruct (covers (stack a) fa) eqn:H3; [by intros [= <-]|done].
Qed.

Lemma looked_up_served m p t i pa m1 fa ro :
  looked_up m p t i pa m1 → minv (loaded_tlb fa pa ro m1) →
  served m p t i fa pa ro (loaded_tlb fa pa ro m1).
Proof.
  intros [Linv Lpage Loth Lst Lfr Ltlb Lvic Lcur Llay Lstat] Hinv.
  destruct (loaded_tlb_keeps fa pa ro m1) as (Kh & Ks & Kc & Kt).
  assert (Emap : ∀ q u j, mapped (loaded_tlb fa pa ro m1) q u j = mapped m1 q u j).
  { intros. unfold mapped, pte_at. by rewrite Ks. }
  assert (Eslot : next_slot m1 = next_slot m) by (unfold next_slot; by rewrite Ltlb, Lvic).
  constructor; try done.
  - by rewrite Emap.
  - intros. rewrite Emap. by apply Loth.
  - by rewrite Kt, Ltlb, Eslot.
  - by rewrite Kc.
  - etrans; [exact Llay|]. by apply same_layouts_eq.
  - intros ix Hix. rewrite loaded_tlb_stat by (done || apply Linv). rewrite Lstat, Ltlb by done.
    destruct (mapped m p t i); destruct (first_invalid (m_tlb m)); repeat case_decide;
      subst; naive_solver.
Qed.

Lemma handle_fault_ok m p a fa w t :
  minv m → m_curproc m = Some (Some p) → m_spaces m !! p = Some a → as_ready a = true →
  fa mod PAGE_SIZE = 0 → region a fa = Some t →
  let i := page_no (seg_of t a) fa in
  (handle_fault fa w m = Panic ∧ mapped m p t i = None ∧ ¬ has_pages (m_heap m) 1) ∨
  (∃ pa m', handle_fault fa w m = Done (FaultReturns 0, m') ∧
     served m p t i fa pa (match t with CODE => loaded a | _ => false end) m').
Proof.
  intros Hm Hc Ha Hready Hal Hreg i. rewrite (handle_fault_region m p a) by done. rewrite Hreg.
  destruct (mi_spaces _ Hm _ _ Ha) as [[Hs _ _] _].
  destruct (covers_page _ _ (Hs t) (region_covers _ _ _ Hreg) Hal) as (Hi & Hfa & Hlt). fold i in Hi, Hfa.
  destruct (segment_lookup_ok m p t a i fa w Hm Ha Hi Hfa Hlt) as [(E & ? & ?)|(pa & m1 & E & Hlu)].
  - left. split_and!; try done. unfold kbind at 1. by rewrite E.
  - right. kcall E. set (ro := match t with CODE => _ | _ => _ end).
    destruct (mi_frames _ (lu_inv _ _ _ _ _ _ Hlu) _ _ _ _ (lu_page _ _ _ _ _ _ Hlu)) as (Hpal & Hpos & Hle).
    pose proof (rep_ram _ _ (mi_heap _ (lu_inv _ _ _ _ _ _ Hlu))) as [Hf Hlast _].
    destruct (tlb_load_ok m1 fa pa ro (lu_inv _ _ _ _ _ _ Hlu)) as [Eload Hinv];
      [unfold PAGE_SIZE in Hle; lia|done|].
    kcall Eload. eexists _, _. split; [reflexivity|]. by apply looked_up_served.
Qed.
End Handler.

(** ** The address space operations keep the invariant *)

Definition as_frame (a : addrspace) (t : segment_t) (i : nat) : option Z :=
  (pt ← ptable (seg_of t a); pt.2 !! i) ≫= pte_frame.

Section Operations.
Implicit Types (m : machine) (p : Z) (t : segment_t) (a : addrspace) (i : nat).

Lemma mapped_as m p a t i : m_spaces m !! p = Some a → mapped m p t i = as_frame a t i.
Proof. intros Ha. unfold mapped, pte_at, as_frame. by rewrite Ha. Qed.

Lemma get_as_run m p a : m_spaces m !! p = Some a → get_as p m = Done (a, m).
Proof. intros Ha. unfold get_as. ksteps. by rewrite Ha. Qed.

(** Replacing an address space by one with no frame it did not have. *)
Lemma minv_put_as m p a :
  minv m → as_wf a → (∃ len, block_at (m_heap m) p len) →
  (∀ t i, as_frame a t i = None ∨ as_frame a t i = mapped m p t i) →
  minv (set_spaces (<[p := a]> (m_spaces m)) m).
Proof.
  intros Hm Hwf Hblk Hfr. pose proof Hm as [Ih Is If Id Ip It Iv Ist].
  set (m' := set_spaces _ m).
  assert (Hsub : ∀ q u j pa, mapped m' q u j = Some pa → mapped m q u j = Some pa).
  { intros q u j pa. destruct (decide (q = p)) as [->|Hq].
    - rewrite (mapped_as m' p a) by apply lookup_insert_eq. destruct (Hfr u j) as [->| ->]; done.
    - unfold mapped, pte_at. simpl. by rewrite lookup_insert_ne. }
  constructor; try done.
  - intros q b. simpl. intros [[<- <-]|[_ Hb]]%lookup_insert_Some; [done|by apply Is].
  - intros q u j pa Hq%Hsub. by eapply If.
  - intros q u j q' u' j' pa Hq%Hsub Hq'%Hsub. by eapply Id.
  - intros q u j pa x Hq%Hsub. by eapply Ip.
Qed.

(** A heap step that keeps every block. *)
Definition heap_step (h h' : kheap) : Prop :=
  kh_ok h' ∧ kh_evolves h h' ∧ ∀ x l, block_at h x l → block_at h' x l.

Lemma heap_step_minv m h' : minv m → heap_step (m_heap m) h' → minv (set_heap h' m).
Proof.
  intros Hm (Hok & Hev & Hx). apply minv_heap; try done. intros q a Ha.
  destruct (mi_spaces _ Hm _ _ Ha) as [_ [l Hl]]. exists l. by apply Hx.
Qed.

Lemma kmalloc_machine m sz r m' :
  kh_ok (m_heap m) → 0 ≤ sz ≤ 2 ^ 31 → on_kheap (kmalloc sz) m = Done (r, m') →
  ∃ h', m' = set_heap h' m ∧ heap_step (m_heap m) h' ∧
    (∀ p, r = Some p → (∃ len, block_at h' p len) ∧ ∀ l, ¬ block_at (m_heap m) p l).
Proof.
  intros Hok Hsz Hrun. unfold on_kheap, kzoom in Hrun.
  destruct (kmalloc_contract (m_heap m) sz Hok Hsz)
    as [[E _]|[(h' & E & Hok' & Hev & _ & Hx)|(p & len & h' & E & Hok' & Hev & _ & Hfresh & Hx)]];
    rewrite E in Hrun; simplify_eq; exists h'.
  - split_and!; try done. split_and!; try done. intros. by apply Hx.
  - split_and!; try done; [split_and!; try done; intros; apply Hx; by left|].
    intros q [= <-]. split; [|done]. exists len. apply Hx. by right.
Qed.

Definition blank : pte := Pte (Some 0) None None.

Lemma create_ptes_ok n k m :
  create_ptes (seqZ (Z.of_nat k) (Z.of_nat n)) (replicate k blank ++ replicate n (Pte None None None)) m
  = Done (replicate (k + n) blank, m).
Proof.
  revert k. induction n as [|n IH]; intros k.
  { by rewrite app_nil_r, Nat.add_0_r. }
  rewrite seqZ_cons by lia. cbn [create_ptes]. rewrite Nat2Z.id.
  rewrite (step_lookup _ (Pte None None None)).
  2: { by rewrite lookup_app_r, length_replicate, Nat.sub_diag by (rewrite length_replicate; lia). }
  replace (Z.succ (Z.of_nat k)) with (Z.of_nat (S k)) by lia.
  replace (Z.pred (Z.of_nat (S n))) with (Z.of_nat n) by lia.
  rewrite insert_app_r_alt by (rewrite length_replicate; lia).
  rewrite length_replicate, Nat.sub_diag. simpl.
  replace (k + S n)%nat with (S k + n)%nat by lia.
  rewrite <-(IH (S k)). f_equal. rewrite replicate_S_end, <-app_assoc. done.
Qed.

Lemma segment_prepare_machine m s pt m' :
  kh_ok (m_heap m) → 0 ≤ npages s < 2 ^ 20 → segment_prepare s m = Done (pt, m') →
  ∃ h', m' = set_heap h' m ∧ heap_step (m_heap m) h' ∧
    0 < npages s ∧ pt.2 = replicate (Z.to_nat (npages s)) blank.
Proof.
  intros Hok Hn Hrun. unfold segment_prepare in Hrun. kinv Hrun.
  apply kmalloc_machine in Hrun0 as (h' & -> & Hstep & _); [|done|rewrite u32_small; lia].
  pose proof (create_ptes_ok (Z.to_nat (npages s)) 0 (set_heap h' s0)) as Hc.
  rewrite Z2Nat.id in Hc by lia. change (Z.of_nat 0) with 0 in Hc. simpl in Hc.
  rewrite Hc in Hrun1. simplify_eq. exists h'.
  apply negb_true_iff, Z.eqb_neq in Hassert. split_and!; [done..|lia|done].
Qed.

Lemma blank_seg_wf v n t base :
  0 ≤ v < 2 ^ 32 → v mod PAGE_SIZE = 0 → 0 < n < 2 ^ 20 →
  seg_wf (Segment v n (Some (base, replicate (Z.to_nat n) blank)) t).
Proof.
  intros. split_and!; cbn; [lia|lia|done|]. rewrite length_replicate.
  split_and!; [lia|lia|done|]. apply Forall_replicate. by left.
Qed.

Lemma blank_frames n i : (replicate n blank !! i) ≫= pte_frame = None.
Proof.
  destruct (replicate n blank !! i) eqn:E; [|done]. by apply lookup_replicate_1 in E as [-> _].
Qed.

Lemma empty_seg_wf t : seg_wf (Segment 0 0 None t).
Proof. split_and!; cbn; lia || done. Qed.

Lemma as_create_machine m r m' :
  minv m → as_create m = Done (r, m') →
  minv m' ∧ m_tlb m' = m_tlb m ∧ m_curproc m' = m_curproc m ∧ m_stats m' = m_stats m ∧
  (∀ p, r = Some p → m_spaces m !! p = None ∧
     ∃ a, m_spaces m' = <[p := a]> (m_spaces m) ∧ ∀ t i, as_frame a t i = None) ∧
  (r = None → m_spaces m' = m_spaces m).
Proof.
  intros Hm Hrun. unfold as_create in Hrun. kinv Hrun.
  apply kmalloc_machine in Hrun0 as (h1 & -> & Hst1 & Hp); [|apply Hm|lia].
  pose proof (heap_step_minv _ _ Hm Hst1) as Hm1.
  destruct a as [p|]; [|kinv Hrun; by split_and!].
  destruct (Hp p eq_refl) as [[len Hblk] Hfresh].
  unfold segment_create in Hrun. kinv Hrun.
  apply segment_prepare_machine in Hrun1 as (h2 & -> & Hst2 & _ & Hpt); [|apply Hm1|done].
  pose proof (heap_step_minv _ _ Hm1 Hst2) as Hm2.
  kinv Hrun0. unfold put_as in Hrun2. kinv Hrun2. destruct a0 as [base cells]. simpl in Hpt. subst cells.
  assert (Hnew : m_spaces m !! p = None).
  { destruct (m_spaces m !! p) as [b|] eqn:Hb; [|done].
    destruct (mi_spaces _ Hm _ _ Hb) as [_ [l Hl]]. by apply Hfresh in Hl. }
  set (a := Addrspace _ _ _ _ _ _ _ _ _ _ _).
  assert (Hnone : ∀ t i, as_frame a t i = None).
  { intros [] i; cbn; [done| |done]. apply (blank_frames 12). }
  split_and!; try done.
  - apply (minv_put_as _ p a Hm2).
    + constructor; [|done|done]. intros []; cbn; [apply empty_seg_wf| |apply empty_seg_wf].
      apply (blank_seg_wf _ 12); done.
    + exists len. by apply Hst2.
    + intros t i. left. apply Hnone.
  - intros q [= <-]. split; [done|]. exists a. done.
Qed.

Lemma align_region_range vaddr sz :
  0 ≤ vaddr < 2 ^ 32 →
  let '(v, np) := align_region vaddr sz in
  0 ≤ v < 2 ^ 32 ∧ v mod PAGE_SIZE = 0 ∧ 0 ≤ np < 2 ^ 20.
Proof.
  intros Hv. unfold align_region. set (s := u32 (u32 (u32 _ + _) - 1)).
  pose proof (u32_range (u32 (u32 (sz + Z.land vaddr (u32 (Z.lnot PAGE_FRAME))) + PAGE_SIZE) - 1)) as Hs.
  fold s in Hs. rewrite !page_frame_mask by lia. unfold PAGE_SIZE.
  pose proof (Z_div_mod_eq_full vaddr 4096). pose proof (Z.mod_pos_bound vaddr 4096).
  pose proof (Z_div_mod_eq_full s 4096). pose proof (Z.mod_pos_bound s 4096).
  rewrite Z.div_mul, Z.mod_mul by done. split_and!; lia.
Qed.

(** Either branch of [as_define_region]: [a1] is the address space with the
    number of pages of segment [t] set. *)
Definition define_segment p a1 t v : K machine Z :=
  put_as p a1 ;;
  a <- get_as p ;;
  pt <- segment_prepare (seg_of t a) ;;
  a <- get_as p ;;
  put_as p (set_seg t (Segment v (npages (seg_of t a)) (Some pt) (tsegment (seg_of t a))) a) ;;
  kret 0.

Lemma define_segment_machine m p a0 a1 t v r m' :
  minv m → m_spaces m !! p = Some a0 → 0 ≤ v < 2 ^ 32 → v mod PAGE_SIZE = 0 →
  0 ≤ npages (seg_of t a1) < 2 ^ 20 → t ≠ STACK →
  (∀ u, u ≠ t → seg_of u a1 = seg_of u a0) →
  define_segment p a1 t v m = Done (r, m') →
  let np := npages (seg_of t a1) in
  minv m' ∧ r = 0 ∧ 0 < np ∧ m_tlb m' = m_tlb m ∧ m_curproc m' = m_curproc m ∧
  ∃ base, m_spaces m' =
    <[p := set_seg t (Segment v np (Some (base, replicate (Z.to_nat np) blank))
                        (tsegment (seg_of t a1))) a1]> (m_spaces m).
Proof.
  intros Hm Ha Hv Hva Hnp Hts Hsegs Hrun np. destruct (mi_spaces _ Hm _ _ Ha) as [Hwf [len Hblk]].
  unfold define_segment, put_as, get_as in Hrun. kinv Hrun.
  kinv Hrun0. simpl in Hderef. rewrite lookup_insert_eq in Hderef. simplify_eq.
  apply segment_prepare_machine in Hrun1 as (h2 & -> & Hst & Hpos & Hpt); [|apply Hm|done].
  kinv Hrun2. simpl in Hst. cbn [set_heap set_spaces m_spaces] in *.
  rewrite lookup_insert_eq in Hderef. simplify_eq.
  destruct a2 as [base cells]. simpl in Hpt. subst cells. fold np in Hpos |- *.
  rewrite insert_insert_eq. set (s' := Segment v np _ _). set (a' := set_seg t s' _).
  split_and!; try done; [|by exists base].
  change (minv (set_spaces (<[p := a']> (m_spaces (set_heap h2 m))) (set_heap h2 m))).
  apply minv_put_as; [by apply heap_step_minv| |exists len; by apply Hst|].
  - unfold a'. constructor.
    + intros u. rewrite seg_of_set. case_decide; [apply blank_seg_wf; [done..|unfold np in *; lia]|rewrite Hsegs by done; apply Hwf].
    + change (stack ?x) with (seg_of STACK x). rewrite seg_of_set, decide_False, Hsegs by done. apply Hwf.
    + change (stack ?x) with (seg_of STACK x). rewrite seg_of_set, decide_False, Hsegs by done. apply Hwf.
  - intros u i. unfold as_frame, a'. rewrite seg_of_set. case_decide; [left; apply blank_frames|right].
    rewrite Hsegs by done. change (mapped (set_heap h2 m) p u i) with (mapped m p u i).
    by rewrite (mapped_as _ _ _ _ _ Ha).
Qed.

(** What [as_define_region] does to an address space whose first or second
    region is still free. *)
Definition defined_space a t v np base : addrspace :=
  set_seg t (Segment v np (Some (base, replicate (Z.to_nat np) blank)) (tsegment (seg_of t a)))
    (match t with
     | CODE => Addrspace v (as_pbase1 a) np (as_vbase2 a) (as_pbase2 a) (as_npages2 a)
                 (as_stackpbase a) (code a) (data a) (stack a) (loaded a)
     | _ => Addrspace (as_vbase1 a) (as_pbase1 a) (as_npages1 a) v (as_pbase2 a) np
                 (as_stackpbase a) (code a) (data a) (stack a) (loaded a)
     end).

Definition free_region a : option segment_t :=
  if (as_vbase1 a =? 0) && (vbase (code a) =? 0) then Some CODE
  else if (as_vbase2 a =? 0) && (vbase (data a) =? 0) then Some DATA
  else None.

Lemma as_define_region_machine m p a vaddr sz r m' :
  minv m → m_spaces m !! p = Some a → 0 ≤ vaddr < 2 ^ 32 →
  as_define_region p vaddr sz m = Done (r, m') →
  let '(v, np) := align_region vaddr sz in
  match free_region a with
  | Some t => minv m' ∧ r = 0 ∧ 0 < np ∧ m_tlb m' = m_tlb m ∧ m_curproc m' = m_curproc m ∧
              ∃ base, m_spaces m' = <[p := defined_space a t v np base]> (m_spaces m)
  | None => m' = m ∧ r = EUNIMP
  end.
Proof.
  intros Hm Ha Hv Hrun. unfold as_define_region in Hrun.
  pose proof (align_region_range vaddr sz Hv) as Hal.
  destruct (align_region vaddr sz) as [v np]. destruct Hal as (Hv1 & Hv2 & Hnp).
  rewrite (kbind_run _ _ _ _ _ (get_as_run m p a Ha)) in Hrun. cbv beta in Hrun.
  unfold free_region. destruct (_ && _); [|destruct (_ && _)].
  - set (a1 := Addrspace _ _ _ _ _ _ _ _ _ _ _) in Hrun.
    by apply (define_segment_machine m p a a1 CODE v r m' Hm Ha Hv1 Hv2 Hnp) in Hrun; [|done|by intros []].
  - set (a1 := Addrspace _ _ _ _ _ _ _ _ _ _ _) in Hrun.
    by apply (define_segment_machine m p a a1 DATA v r m' Hm Ha Hv1 Hv2 Hnp) in Hrun; [|done|by intros []].
  - kinv Hrun. done.
Qed.

Lemma as_complete_load_machine m p r m' :
  minv m → as_complete_load p m = Done (r, m') → minv m' ∧ m_tlb m' = m_tlb m.
Proof.
  intros Hm Hrun. unfold as_complete_load, get_as, put_as in Hrun. kinv Hrun. kinv Hrun0.
  destruct (mi_spaces _ Hm _ _ Hderef) as [[Hs H1 H2] Hblk]. split; [|done].
  apply minv_put_as; [done| |done|].
  - constructor; [|done|done]. intros t. specialize (Hs t). by destruct t.
  - intros t i. right. rewrite (mapped_as _ _ _ _ _ Hderef). unfold as_frame. by destruct t.
Qed.

Lemma as_destroy_machine m p a r m' :
  minv m → m_spaces m !! p = Some a → as_destroy p m = Done (r, m') → minv m'.
Proof.
  intros Hm Ha Hrun. destruct (mi_spaces _ Hm _ _ Ha) as [_ [len Hblk]].
  destruct (kfree_contract _ _ _ (mi_heap _ Hm) Hblk) as (h' & E & Hok & Hev & Hx).
  unfold as_destroy in Hrun. kinv Hrun. unfold on_kheap, kzoom in Hrun0. rewrite E in Hrun0. simplify_eq.
  set (m1 := set_spaces (delete p (m_spaces m)) m).
  assert (Hm1 : minv m1).
  { pose proof Hm as [Ih Is If Id Ip It Iv Ist].
    assert (Hsub : ∀ q u j pa, mapped m1 q u j = Some pa → mapped m q u j = Some pa).
    { intros q u j pa. unfold mapped, pte_at. simpl. destruct (decide (q = p)) as [->|].
      - by rewrite lookup_delete_eq.
      - by rewrite lookup_delete_ne. }
    constructor; try done.
    - intros q b. simpl. intros [_ Hb]%lookup_delete_Some. by apply Is.
    - intros q u j pa Hq%Hsub. by eapply If.
    - intros q u j q' u' j' pa Hq%Hsub Hq'%Hsub. by eapply Id.
    - intros q u j pa x Hq%Hsub. by eapply Ip. }
  apply (minv_heap m1 h' Hm1); try done. intros q b. simpl. intros [Hne Hb]%lookup_delete_Some.
  destruct (mi_spaces _ Hm _ _ Hb) as [_ [l Hl]]. exists l. by apply Hx.
Qed.

Lemma tlb_clear_ok m k n :
  length (m_tlb m) = 64%nat → (k + n ≤ 64)%nat →
  ∃ tlb, tlb_clear (seqZ (Z.of_nat k) (Z.of_nat n)) m = Done (tt, set_tlb tlb m) ∧
    length tlb = 64%nat ∧
    ∀ j, tlb !! j = if decide (k ≤ j < k + n)%nat
                    then Some (TLBHI_INVALID (Z.of_nat j), TLBLO_INVALID) else m_tlb m !! j.
Proof.
  revert k m. induction n as [|n IH]; intros k m Hl Hk.
  { exists (m_tlb m). split_and!; [by destruct m|done|]. intros j. rewrite decide_False by lia. done. }
  rewrite seqZ_cons by lia. cbn [tlb_clear].
  replace (Z.succ (Z.of_nat k)) with (Z.of_nat (S k)) by lia.
  replace (Z.pred (Z.of_nat (S n))) with (Z.of_nat n) by lia.
  destruct (lookup_lt_is_Some_2 (m_tlb m) k) as [e He]; [lia|].
  unfold tlb_write at 1. ksteps. rewrite Nat2Z.id, He. ksteps. set (m1 := set_tlb _ m).
  destruct (IH (S k) m1) as (tlb & Hrun & Hlen & Hj); [by simpl; rewrite length_insert|lia|].
  exists tlb. split_and!; [by rewrite Hrun|done|]. intros j. rewrite Hj. simpl.
  rewrite list_lookup_insert. repeat case_decide; subst; try lia; try done; naive_solver lia.
Qed.

(** Switching to an address space empties the TLB. *)
Lemma as_activate_ok m p :
  minv m → m_curproc m = Some (Some p) →
  ∃ m', as_activate m = Done (tt, m') ∧ minv m' ∧ m_spaces m' = m_spaces m ∧
    m_curproc m' = m_curproc m ∧ ∀ e, e ∈ m_tlb m' → tlb_valid e = false.
Proof.
  intros Hm Hc. unfold as_activate, curproc_getas. ksteps. rewrite Hc. cbn [mjoin option_join].
  destruct (tlb_clear_ok m 0 64 (mi_tlb _ Hm)) as (tlb & Hrun & Hlen & Hj); [lia|].
  change (Z.of_nat 0) with 0 in Hrun. change (Z.of_nat 64) with NUM_TLB in Hrun. kcall Hrun.
  rewrite vmstats_inc_run by (done || apply Hm). eexists. split; [done|]. split_and!; try done.
  - apply minv_bump, (minv_other m); try done; apply Hm.
  - intros e [j He]%list_elem_of_lookup. simpl in He. rewrite Hj in He. case_decide; [by simplify_eq|].
    apply lookup_lt_Some in He. rewrite (mi_tlb _ Hm) in He. lia.
Qed.
End Operations.
