(* ===== verification/VmTheorems.v ===== *)
(** * Virtual memory: the theorems *)

From stdpp Require Import base numbers list gmap fin_maps relations.
From Stdlib Require Import ZArith Lia.
From S2P Require Import Prelude PhysMem Kmalloc KmallocSpec KmallocFree Vm VmSpec VmProps.

Open Scope Z_scope.
Open Scope kernel_scope.

(** ** Runs of the machine

    The calls the kernel makes, one after the other: address spaces come and
    go, processes are switched, fault, and the rest of the kernel allocates and
    frees blocks of its own. *)

Definition set_curproc (c : option (option Z)) (m : machine) : machine :=
  Machine (m_heap m) (m_spaces m) (m_tlb m) (m_victim m) (m_stats m) c.

Inductive vm_step (m m' : machine) : Prop :=
  | step_create r : as_create m = Done (r, m') → vm_step m m'
  | step_define p a v sz r :
      m_spaces m !! p = Some a → 0 ≤ v < 2 ^ 32 →
      as_define_region p v sz m = Done (r, m') → vm_step m m'
  | step_complete p r : as_complete_load p m = Done (r, m') → vm_step m m'
  | step_destroy p a r :
      m_spaces m !! p = Some a → as_destroy p m = Done (r, m') → vm_step m m'
  | step_switch c : m' = set_curproc c m → vm_step m m'
  | step_activate p :
      m_curproc m = Some (Some p) → as_activate m = Done (tt, m') → vm_step m m'
  | step_fault faulttype addr r :
      0 ≤ addr < 2 ^ 32 → vm_fault faulttype addr m = Done (r, m') → vm_step m m'
  | step_kmalloc sz r :
      0 ≤ sz ≤ 2 ^ 31 → on_kheap (kmalloc sz) m = Done (r, m') → vm_step m m'
  | step_kfree x l r :
      m_spaces m !! x = None → block_at (m_heap m) x l →
      on_kheap (kfree (Some x)) m = Done (r, m') → vm_step m m'.

Definition boot_machine (r : ram) : machine :=
  Machine (kheap_init r) ∅ (replicate 64 (0, 0)) 0 (Some _vmstats_init) None.

Section Runs.
Implicit Types (m : machine).

Lemma handle_fault_noas m fa w :
  mjoin (m_curproc m) = None → handle_fault fa w m = Done (FaultReturns EFAULT, m).
Proof.
  intros Hc. unfold handle_fault, curproc_getas. ksteps.
  destruct (m_curproc m) as [c|] eqn:E; [|done]. ksteps. by rewrite E, Hc.
Qed.

Lemma handle_fault_dangling m p fa w :
  m_curproc m = Some (Some p) → m_spaces m !! p = None → handle_fault fa w m = Undef.
Proof.
  intros Hc Ha. unfold handle_fault, curproc_getas, get_as. ksteps. rewrite Hc. ksteps.
  rewrite Hc. cbn [mjoin option_join]. ksteps. by rewrite Ha.
Qed.

Lemma handle_fault_not_ready m p a fa w :
  m_curproc m = Some (Some p) → m_spaces m !! p = Some a → as_ready a = false →
  handle_fault fa w m = Panic.
Proof.
  intros Hc Ha Hready. unfold handle_fault, curproc_getas, get_as. ksteps. rewrite Hc. ksteps.
  rewrite Hc. cbn [mjoin option_join]. ksteps. rewrite Ha. ksteps. unfold as_ready in Hready.
  destruct (negb (vbase (code a) =? 0)); [|done]. rewrite step_assert by done.
  destruct (negb (npages (code a) =? 0)); [|done]. rewrite step_assert by done.
  destruct (negb (vbase (data a) =? 0)); [|done]. rewrite step_assert by done.
  by destruct (negb (npages (data a) =? 0)).
Qed.

(** A fault that returns left the machine alone or served a page. *)
Lemma vm_fault_cases m faulttype addr r m' :
  minv m → 0 ≤ addr < 2 ^ 32 → vm_fault faulttype addr m = Done (r, m') →
  m' = m ∨
  ∃ p a t pa, m_curproc m = Some (Some p) ∧ m_spaces m !! p = Some a ∧
    let fa := Z.land addr PAGE_FRAME in
    region a fa = Some t ∧ fa mod PAGE_SIZE = 0 ∧
    served m p t (page_no (seg_of t a) fa) fa pa (match t with CODE => loaded a | _ => false end) m'.
Proof.
  intros Hm Haddr Hrun.
  assert (Hh : ∀ w, handle_fault (Z.land addr PAGE_FRAME) w m = Done (r, m') → m' = m ∨
    ∃ p a t pa, m_curproc m = Some (Some p) ∧ m_spaces m !! p = Some a ∧
    let fa := Z.land addr PAGE_FRAME in
    region a fa = Some t ∧ fa mod PAGE_SIZE = 0 ∧
    served m p t (page_no (seg_of t a) fa) fa pa (match t with CODE => loaded a | _ => false end) m').
  { clear Hrun. intros w Hrun. set (fa := Z.land addr PAGE_FRAME) in *.
    pose proof (masked_page addr Haddr) as Hal. fold fa in Hal.
    destruct (m_curproc m) as [[p|]|] eqn:Hc;
      [|left; rewrite handle_fault_noas in Hrun by (by rewrite Hc); by simplify_eq..].
    destruct (m_spaces m !! p) as [a|] eqn:Ha; [|by rewrite (handle_fault_dangling m p) in Hrun].
    destruct (as_ready a) eqn:Hready; [|by rewrite (handle_fault_not_ready m p a) in Hrun].
    destruct (region a fa) as [t|] eqn:Hreg.
    - right. exists p, a, t. destruct (handle_fault_ok m p a fa w t Hm Hc Ha Hready Hal Hreg)
        as [(E & _)|(pa & m1 & E & Hsv)]; rewrite E in Hrun; simplify_eq. by exists pa.
    - left. rewrite (handle_fault_region m p a), Hreg in Hrun by done. by simplify_eq. }
  unfold vm_fault in Hrun. destruct (faulttype =? VM_FAULT_READONLY); [left; by kinv Hrun|].
  destruct (faulttype =? VM_FAULT_READ); [by eapply Hh|].
  destruct (faulttype =? VM_FAULT_WRITE); [by eapply Hh|left; by kinv Hrun].
Qed.

Lemma vm_step_minv m m' : minv m → vm_step m m' → minv m'.
Proof.
  intros Hm [r Hrun|p a v sz r Ha Hv Hrun|p r Hrun|p a r Ha Hrun|c ->|p Hc Hrun|ft addr r Haddr Hrun
            |sz r Hsz Hrun|x l r Hx Hl Hrun].
  - by apply (as_create_machine _ _ _ Hm Hrun).
  - pose proof (as_define_region_machine _ _ _ _ _ _ _ Hm Ha Hv Hrun) as H.
    destruct (align_region v sz) as [v' np]. destruct (free_region a); [by apply H|].
    by destruct H as [-> _].
  - by apply (as_complete_load_machine _ _ _ _ Hm Hrun).
  - by eapply as_destroy_machine.
  - apply (minv_other m); try done; apply Hm.
  - destruct (as_activate_ok m p Hm Hc) as (m1 & E & Hm1 & _). rewrite E in Hrun. by simplify_eq.
  - destruct (vm_fault_cases m ft addr r m' Hm Haddr Hrun) as [->|(p & a & t & pa & _ & _ & _ & _ & Hsv)];
      [done|]. by apply Hsv.
  - apply kmalloc_machine in Hrun as (h' & -> & Hst & _); [|apply Hm|done]. by apply heap_step_minv.
  - destruct (kfree_contract _ _ _ (mi_heap _ Hm) Hl) as (h' & E & Hok & Hev & Hb).
    unfold on_kheap, kzoom in Hrun. rewrite E in Hrun. simplify_eq.
    apply minv_heap; try done. intros p a Ha. destruct (mi_spaces _ Hm _ _ Ha) as [_ [k Hk]].
    exists k. apply Hb. split; [done|]. intros ->. congruence.
Qed.

Lemma boot_machine_minv r : ram_ok r → minv (boot_machine r).
Proof.
  intros Hr. constructor; simpl; try done.
  - by apply (rep_ok _ [] (kheap_init_rep r Hr)).
  - by eexists.
Qed.

Lemma reachable_minv r m : ram_ok r → rtc vm_step (boot_machine r) m → minv m.
Proof.
  intros Hr Hsteps. pose proof (boot_machine_minv r Hr) as Hm. revert Hm.
  induction Hsteps; [done|]. intros Hm. apply IHHsteps. by eapply vm_step_minv.
Qed.
End Runs.

(** ** An example: a process with a page of code and two of data *)

Definition demo : K machine Z :=
  p <- as_create ;;
  p <- kderef p ;;
  kmodify (set_curproc (Some (Some p))) ;;
  as_activate ;;
  _ <- as_define_region p 4194304 4096 ;;
  _ <- as_define_region p 268435456 8192 ;;
  kret p.
Lemma define_keeps m p a v sz r m' :
  minv m → m_spaces m !! p = Some a → 0 ≤ v < 2 ^ 32 → as_define_region p v sz m = Done (r, m') →
  minv m' ∧ m_curproc m' = m_curproc m ∧ ∃ b, m_spaces m' !! p = Some b.
Proof.
  intros Hm Ha Hv Hrun. pose proof (as_define_region_machine _ _ _ _ _ _ _ Hm Ha Hv Hrun) as H.
  destruct (align_region v sz) as [v' np]. destruct (free_region a) as [t|].
  - destruct H as (? & _ & _ & _ & ? & base & Hs). split_and!; [done..|]. rewrite Hs.
    eexists. apply lookup_insert_eq.
  - destruct H as [-> _]. by eauto.
Qed.

Lemma demo_minv m p m' :
  minv m → demo m = Done (p, m') →
  minv m' ∧ m_curproc m' = Some (Some p) ∧ rtc vm_step m m'.
Proof.
  intros Hm0 Hrun. unfold demo in Hrun. kinv Hrun. rename p into q.
  destruct (as_create_machine _ _ _ Hm0 Hrun0) as (Hm1 & _ & _ & _ & Hp & _).
  destruct (Hp q eq_refl) as (_ & a0 & Hs0 & _).
  assert (Hm2 : minv (set_curproc (Some (Some q)) s0)) by (apply (minv_other s0); try done; apply Hm1).
  destruct (as_activate_ok _ q Hm2 eq_refl) as (m3 & E & Hm3 & Hs3 & Hc3 & _).
  rewrite E in Hrun1. simplify_eq. simpl in Hs3. rewrite Hs0 in Hs3.
  destruct (define_keeps s q a0 4194304 4096 _ _ Hm3 ltac:(rewrite Hs3; apply lookup_insert_eq) ltac:(lia) Hrun2)
    as (Hm4 & Hc4 & b & Hb).
  destruct (define_keeps s1 q b 268435456 8192 _ _ Hm4 Hb ltac:(lia) Hrun3) as (Hm5 & Hc5 & _).
  split_and!; [done|by rewrite Hc5, Hc4|].
  eapply rtc_l; [by eapply step_create|]. eapply rtc_l; [by eapply step_switch|].
  eapply rtc_l; [by eapply (step_activate _ _ q)|].
  eapply rtc_l; [eapply (step_define _ _ q a0 4194304); [rewrite Hs3; apply lookup_insert_eq|lia|done]|].
  apply rtc_once. eapply (step_define _ _ q b 268435456); [done|lia|done].
Qed.

Definition demo_ram : ram := Ram 65536 1048576.
Definition demo_machine : machine :=
  match demo (boot_machine demo_ram) with Done (_, m) => m | _ => boot_machine demo_ram end.
Definition demo_as : Z := 2147553152.
Definition demo_space : addrspace :=
  default (Addrspace 0 0 0 0 0 0 0 (Segment 0 0 None CODE) (Segment 0 0 None DATA)
             (Segment 0 0 None STACK) false) (m_spaces demo_machine !! demo_as).

Lemma demo_ram_ok : ram_ok demo_ram.
Proof. constructor; simpl; (lia || reflexivity). Qed.

Lemma demo_run : demo (boot_machine demo_ram) = Done (demo_as, demo_machine).
Proof.
  assert (H : match demo (boot_machine demo_ram) with Done (p, _) => p =? demo_as | _ => false end = true)
    by (vm_compute; reflexivity).
  unfold demo_machine. destruct (demo (boot_machine demo_ram)) as [[p m]| | |]; try discriminate H.
  apply Z.eqb_eq in H as ->. reflexivity.
Qed.

Lemma demo_lookup : m_spaces demo_machine !! demo_as = Some demo_space.
Proof. vm_compute. reflexivity. Qed.
Lemma demo_ready : as_ready demo_space = true ∧ region demo_space 4194304 = Some CODE.
Proof. vm_compute. done. Qed.
Lemma demo_loaded : loaded demo_space = false.
Proof. vm_compute. reflexivity. Qed.

(** The same after a write to its code page. *)
Definition demo_touched : machine :=
  match vm_fault VM_FAULT_WRITE 4194400 demo_machine with Done (_, m) => m | _ => demo_machine end.
Lemma demo_touched_run :
  vm_fault VM_FAULT_WRITE 4194400 demo_machine = Done (FaultReturns 0, demo_touched) ∧
  mapped demo_touched demo_as CODE 0 = Some 81920.
Proof.
  assert (H : match vm_fault VM_FAULT_WRITE 4194400 demo_machine with
              | Done (FaultReturns c, m) => (c, mapped m demo_as CODE 0)
              | _ => (1, None)
              end = (0, Some 81920)) by (vm_compute; reflexivity).
  unfold demo_touched. destruct (vm_fault VM_FAULT_WRITE 4194400 demo_machine) as [[[c|c] m]| | |];
    try discriminate H. injection H as -> ->. split; reflexivity.
Qed.
(** There is room for a second address space. *)
Lemma demo_create_again : ∃ q m, as_create demo_machine = Done (Some q, m).
Proof.
  assert (H : match as_create demo_machine with Done (Some _, _) => true | _ => false end = true)
    by (vm_compute; reflexivity).
  destruct (as_create demo_machine) as [[[q|] m]| | |]; try discriminate H. by exists q, m.
Qed.
Lemma demo_no_free_region : free_region demo_space = None.
Proof. vm_compute. reflexivity. Qed.
#[global] Opaque demo_machine demo_space demo_touched.

Lemma demo_ok : minv demo_machine ∧ m_curproc demo_machine = Some (Some demo_as).
Proof.
  destruct (demo_minv _ _ _ (boot_machine_minv _ demo_ram_ok) demo_run) as (H1 & H2 & _).
  exact (conj H1 H2).
Qed.
Lemma demo_reachable : rtc vm_step (boot_machine demo_ram) demo_touched.
Proof.
  destruct (demo_minv _ _ _ (boot_machine_minv _ demo_ram_ok) demo_run) as (_ & _ & H).
  eapply rtc_r; [exact H|]. eapply (step_fault _ _ _ 4194400); [lia|exact (proj1 demo_touched_run)].
Qed.

(** ** The component's theorems *)

(** C5. The fault handler serves every page of a process: a read or write
    fault on a page of one of its three regions returns 0, and then the page
    has a frame, the one it had if it had one and otherwise the next free frame
    of physical memory; no other page's frame changes; the translation is in
    the TLB, in the first invalid slot or over the round-robin victim, read-only
    exactly when it is loaded code; and the machine invariant holds.  The
    kernel panics only when a new frame is needed and memory has run out. *)
Theorem vm_fault_serves m p a faulttype addr t :
  minv m → m_curproc m = Some (Some p) → m_spaces m !! p = Some a → as_ready a = true →
  faulttype = VM_FAULT_READ ∨ faulttype = VM_FAULT_WRITE → 0 ≤ addr < 2 ^ 32 →
  let fa := Z.land addr PAGE_FRAME in
  let i := page_no (seg_of t a) fa in
  region a fa = Some t →
  (vm_fault faulttype addr m = Panic ∧ mapped m p t i = None ∧ ¬ has_pages (m_heap m) 1) ∨
  (∃ pa m', vm_fault faulttype addr m = Done (FaultReturns 0, m') ∧
     served m p t i fa pa (match t with CODE => loaded a | _ => false end) m').
Proof.
  intros Hm Hc Ha Hready Hft Haddr fa i Hreg. pose proof (masked_page addr Haddr) as Hal.
  destruct Hft as [-> | ->]; by apply handle_fault_ok.
Qed.

Lemma vm_fault_serves_witness :
  vm_fault VM_FAULT_READ 4194400 demo_machine = Panic ∨
  ∃ m', vm_fault VM_FAULT_READ 4194400 demo_machine = Done (FaultReturns 0, m') ∧ minv m'.
Proof.
  destruct (vm_fault_serves demo_machine demo_as demo_space VM_FAULT_READ 4194400 CODE
    (proj1 demo_ok) (proj2 demo_ok) demo_lookup (proj1 demo_ready) (or_introl eq_refl))
    as [(E & _)|(pa & m' & E & Hs)].
  - lia.
  - exact (proj2 demo_ready).
  - left. exact E.
  - right. exists m'. split; [exact E|exact (sv_inv _ _ _ _ _ _ _ _ Hs)].
Defined.

(** C23. The handler's errors leave the machine alone: a write to a read-only
    page ends the process with status 0, a fault type it does not know is
    EINVAL, a fault without a process or an address space and one outside
    every region is EFAULT; an address space whose regions have not been
    defined stops the machine. *)
Theorem vm_fault_errors m faulttype addr :
  let fa := Z.land addr PAGE_FRAME in
  vm_fault VM_FAULT_READONLY addr m = Done (FaultExits 0, m) ∧
  (faulttype < 0 ∨ 2 < faulttype → vm_fault faulttype addr m = Done (FaultReturns EINVAL, m)) ∧
  (faulttype = VM_FAULT_READ ∨ faulttype = VM_FAULT_WRITE →
   (mjoin (m_curproc m) = None → vm_fault faulttype addr m = Done (FaultReturns EFAULT, m)) ∧
   ∀ p a, m_curproc m = Some (Some p) → m_spaces m !! p = Some a →
     (as_ready a = false → vm_fault faulttype addr m = Panic) ∧
     (minv m → as_ready a = true → region a fa = None →
      vm_fault faulttype addr m = Done (FaultReturns EFAULT, m))).
Proof.
  intros fa. split_and!; [done| |].
  - intros Hft. unfold vm_fault, VM_FAULT_READONLY, VM_FAULT_READ, VM_FAULT_WRITE.
    rewrite !(proj2 (Z.eqb_neq faulttype _)) by lia. done.
  - intros Hft. assert (E : ∃ w, vm_fault faulttype addr m = handle_fault fa w m)
      by (destruct Hft as [-> | ->]; [by exists false|by exists true]).
    destruct E as [w ->]. split; [apply handle_fault_noas|].
    intros p a Hc Ha. split; [intros; by eapply handle_fault_not_ready|].
    intros Hm Hready Hreg. by rewrite (handle_fault_region m p a), Hreg.
Qed.

Lemma vm_fault_errors_witness :
  vm_fault 7 4096 (boot_machine demo_ram) = Done (FaultReturns EINVAL, boot_machine demo_ram).
Proof. apply (vm_fault_errors (boot_machine demo_ram) 7 4096). lia. Defined.

(** C4. Isolation.  From boot, whatever address spaces, faults, switches and
    kernel allocations happen, no two pages of any processes ever have the same
    frame, and no frame of a process is part of the kernel heap. *)
Theorem frames_isolated r m p t i pa :
  ram_ok r → rtc vm_step (boot_machine r) m → mapped m p t i = Some pa →
  pa mod PAGE_SIZE = 0 ∧
  (∀ q u j, mapped m q u j = Some pa → q = p ∧ u = t ∧ j = i) ∧
  (∀ x, pa + MIPS_KSEG0 ≤ x < pa + MIPS_KSEG0 + PAGE_SIZE → ¬ heap_holds (m_heap m) x).
Proof.
  intros Hr Hsteps Hpa. pose proof (reachable_minv r m Hr Hsteps) as Hm. split_and!.
  - by apply (mi_frames _ Hm _ _ _ _ Hpa).
  - intros q u j Hq. by apply (mi_distinct _ Hm _ _ _ _ _ _ _ Hq Hpa).
  - intros x. by apply (mi_private _ Hm _ _ _ _ _ Hpa).
Qed.

Lemma frames_isolated_witness :
  mapped demo_touched demo_as CODE 0 = Some 81920 ∧
  ∀ q u j, mapped demo_touched q u j = Some 81920 → q = demo_as ∧ u = CODE ∧ j = 0%nat.
Proof.
  split; [exact (proj2 demo_touched_run)|].
  exact (proj1 (proj2 (frames_isolated demo_ram demo_touched demo_as CODE 0 81920
    demo_ram_ok demo_reachable (proj2 demo_touched_run)))).
Defined.

(** ** The TLB and the page tables *)

(** Every valid TLB entry is a translation of the current process. *)
Definition tlb_coherent (m : machine) : Prop :=
  ∀ hi lo, (hi, lo) ∈ m_tlb m → tlb_valid (hi, lo) = true →
  ∃ p a t pa ro, m_curproc m = Some (Some p) ∧ m_spaces m !! p = Some a ∧
    region a hi = Some t ∧ mapped m p t (page_no (seg_of t a) hi) = Some pa ∧ lo = tlb_lo pa ro.

Section Coherence.
Implicit Types (m : machine) (a b : addrspace).

Lemma same_layout_region a b fa :
  same_layout a b → region b fa = region a fa ∧ ∀ t, page_no (seg_of t b) fa = page_no (seg_of t a) fa.
Proof.
  intros [Hs _]. split.
  - assert (Hc : ∀ t, covers (seg_of t b) fa = covers (seg_of t a) fa).
    { intros t. unfold covers. by destruct (Hs t) as [-> ->]. }
    unfold region. pose proof (Hc CODE) as H1. pose proof (Hc DATA) as H2. pose proof (Hc STACK) as H3.
    simpl in H1, H2, H3. by rewrite H1, H2, H3.
  - intros t. unfold page_no. by destruct (Hs t) as [-> _].
Qed.

Lemma served_coherent m p a t fa pa ro m' :
  m_curproc m = Some (Some p) → m_spaces m !! p = Some a → region a fa = Some t →
  served m p t (page_no (seg_of t a) fa) fa pa ro m' → tlb_coherent m → tlb_coherent m'.
Proof.
  intros Hc Ha Hreg [Sinv Spage Soth Sst Sfr Stlb Scur Slay Sstat] Hcoh hi lo Hin Hv.
  destruct (Slay _ _ Ha) as (a' & Ha' & Hl). destruct (same_layout_region a a' hi Hl) as [Er Ep].
  rewrite Stlb in Hin. apply list_elem_of_lookup in Hin as [k Hk].
  rewrite list_lookup_insert in Hk. case_decide.
  - simplify_eq. exists p, a', t, pa, ro. rewrite Scur, Ep, Er. done.
  - destruct (Hcoh hi lo) as (q & b & u & pb & ro' & Hq & Hb & Hru & Hmu & ->);
      [by eapply list_elem_of_lookup_2|done|]. rewrite Hc in Hq. injection Hq as <-. rewrite Ha in Hb. injection Hb as <-.
    destruct (decide (u = t ∧ page_no (seg_of u a) hi = page_no (seg_of t a) fa)) as [[-> E]|Hne].
    + exists p, a', t, pa, ro'. rewrite Scur, Ep, Er. split_and!; try done.
      * by rewrite E.
      * rewrite E in Hmu. by rewrite (Sst _ Hmu).
    + exists p, a', u, pb, ro'. rewrite Scur, Ep, Er. split_and!; try done.
      rewrite Soth; [done|]. naive_solver.
Qed.
End Coherence.



(** ** Statistics *)

(** What [_vmstats_print] checks, modulo the width of a counter. *)
Definition free_replace_gap (m : machine) : Z :=
  u32 (stat m VMSTAT_TLB_FAULT - (stat m VMSTAT_TLB_FAULT_FREE + stat m VMSTAT_TLB_FAULT_REPLACE)).
Definition reload_gap (m : machine) : Z :=
  u32 (stat m VMSTAT_TLB_FAULT -
       (stat m VMSTAT_PAGE_FAULT_DISK + stat m VMSTAT_PAGE_FAULT_ZERO + stat m VMSTAT_TLB_RELOAD)).

Lemma u32_shift a b c k : u32 (u32 (a + k) - (u32 (b + k) + c)) = u32 (a - (b + c)).
Proof.
  unfold u32. rewrite Zminus_mod, (Zplus_mod (_ mod _) c), !Zmod_mod, <-Zplus_mod, <-Zminus_mod.
  f_equal. lia.
Qed.

(** The counters: each fault served keeps the number of TLB faults equal to
    those into a free slot plus those over a victim.  The second identity that
    [_vmstats_print] checks, faults equal to reloads plus zeroed plus disk page
    faults, is kept when the page already had a frame and is off by one more
    for each page touched the first time: [pte_load] counts nothing. *)
Theorem vmstats_identities m p t i fa pa ro m' :
  served m p t i fa pa ro m' → stats_ok m →
  free_replace_gap m' = free_replace_gap m ∧
  (mapped m p t i ≠ None → reload_gap m' = reload_gap m) ∧
  (mapped m p t i = None → reload_gap m' = u32 (reload_gap m + 1)).
Proof.
  intros Hsv Hst. pose proof (λ ix, sv_stat _ _ _ _ _ _ _ _ Hsv ix) as Hs.
  unfold free_replace_gap, reload_gap. split_and!.
  - rewrite (Hs VMSTAT_TLB_FAULT), (Hs VMSTAT_TLB_FAULT_FREE), (Hs VMSTAT_TLB_FAULT_REPLACE) by done.
    destruct (first_invalid (m_tlb m)).
    + rewrite !decide_True, decide_False by naive_solver. apply u32_shift.
    + rewrite decide_True, decide_False, decide_True by naive_solver.
      rewrite !(Z.add_comm (stat m VMSTAT_TLB_FAULT_FREE)). apply u32_shift.
  - intros Hmap. rewrite (Hs VMSTAT_TLB_FAULT), (Hs VMSTAT_PAGE_FAULT_DISK), (Hs VMSTAT_PAGE_FAULT_ZERO),
      (Hs VMSTAT_TLB_RELOAD) by done.
    assert (H5 : ∀ ix, ix = VMSTAT_PAGE_FAULT_DISK ∨ ix = VMSTAT_PAGE_FAULT_ZERO →
      ¬ (ix = VMSTAT_TLB_FAULT ∨
         ix = (if first_invalid (m_tlb m) then VMSTAT_TLB_FAULT_FREE else VMSTAT_TLB_FAULT_REPLACE) ∨
         ix = VMSTAT_TLB_RELOAD ∧ mapped m p t i ≠ None)).
    { intros ix [-> | ->]; destruct (first_invalid (m_tlb m)); naive_solver. }
    rewrite decide_True, !decide_False, decide_True by (auto || naive_solver).
    rewrite !(Z.add_comm _ (stat m VMSTAT_TLB_RELOAD)), (Z.add_comm _ (u32 _)). apply u32_shift.
  - intros Hmap. rewrite (Hs VMSTAT_TLB_FAULT), (Hs VMSTAT_PAGE_FAULT_DISK), (Hs VMSTAT_PAGE_FAULT_ZERO),
      (Hs VMSTAT_TLB_RELOAD) by done.
    rewrite decide_True by auto. rewrite !decide_False
      by (destruct (first_invalid (m_tlb m)); naive_solver).
    unfold u32. rewrite Zminus_mod_idemp_l, Zplus_mod_idemp_l. f_equal. lia.
Qed.

Lemma vmstats_identities_witness :
  ∃ pa m', served demo_machine demo_as CODE 0 4194304 pa false m' ∧
    free_replace_gap m' = free_replace_gap demo_machine.
Proof.
  destruct (handle_fault_ok demo_machine demo_as demo_space 4194304 true CODE
    (proj1 demo_ok) (proj2 demo_ok) demo_lookup (proj1 demo_ready) eq_refl (proj2 demo_ready))
    as [(E & _)|(pa & m' & E & Hs)].
  - pose proof (proj1 demo_touched_run) as E'. change (vm_fault VM_FAULT_WRITE 4194400 demo_machine)
      with (handle_fault 4194304 true demo_machine) in E'. rewrite E in E'. discriminate E'.
  - rewrite demo_loaded in Hs. exists pa, m'. split; [exact Hs|].
    exact (proj1 (vmstats_identities _ _ _ _ _ _ _ _ Hs (mi_stats _ (proj1 demo_ok)))).
Defined.

Lemma as_copy_panics m old new m1 :
  as_create m = Done (Some new, m1) → is_Some (m_spaces m1 !! old) → new ≠ old →
  as_copy old m = Panic.
Proof.
  intros Hcr [o Ho] Hne. unfold as_copy. kcall Hcr. kcall (get_as_run _ _ _ Ho).
  assert (Hn : ∃ n, m_spaces m1 !! new = Some n ∧ as_pbase1 n = 0).
  { unfold as_create in Hcr. kinv Hcr. destruct a as [q|]; kinv Hcr. unfold put_as in Hcr4. kinv Hcr4.
    eexists. split; [simpl; apply lookup_insert_eq|done]. }
  destruct Hn as (n & Hn & Hpb). kcall (get_as_run _ _ _ Hn). unfold put_as. ksteps.
  unfold as_prepare_load. ksteps. cbn [Z.eqb negb]. set (m2 := set_spaces _ m1).
  assert (H2 : m_spaces m2 !! new = Some _) by apply lookup_insert_eq.
  kcall (get_as_run _ _ _ H2). apply step_panic. cbn. by rewrite Hpb.
Qed.

(** Copying an address space cannot succeed: once [as_create] has made the
    new one, [as_copy] stops the machine, because the physical bases it asserts
    are never assigned since [as_prepare_load] allocates nothing.  So [fork]
    of a user process always panics the kernel. *)
Theorem as_copy_always_panics m old :
  minv m → is_Some (m_spaces m !! old) →
  (∀ new m1, as_create m = Done (Some new, m1) → as_copy old m = Panic) ∧
  (∀ new m', as_copy old m ≠ Done (inr new, m')).
Proof.
  intros Hm Hold.
  assert (H : ∀ new m1, as_create m = Done (Some new, m1) → as_copy old m = Panic).
  { intros new m1 Hcr. destruct (as_create_machine _ _ _ Hm Hcr) as (_ & _ & _ & _ & Hp & _).
    destruct (Hp new eq_refl) as (Hnew & a & Hs & _). destruct Hold as [o Ho].
    assert (Hne : new ≠ old) by congruence.
    apply (as_copy_panics m old new m1); [done| |done]. rewrite Hs, lookup_insert_ne by done. by eauto. }
  split; [exact H|]. intros new m' Hrun. assert (Hrun' := Hrun). unfold as_copy in Hrun'.
  apply kbind_Done in Hrun' as ([q|] & m1 & Hcr & Hrun'); [|kinv Hrun'].
  rewrite (H q m1 Hcr) in Hrun. discriminate Hrun.
Qed.

Lemma as_copy_always_panics_witness : as_copy demo_as demo_machine = Panic.
Proof.
  destruct demo_create_again as (q & m & E).
  exact (proj1 (as_copy_always_panics demo_machine demo_as (proj1 demo_ok)
    (mk_is_Some _ _ demo_lookup)) q m E).
Defined.

(** Defining a region.  The first free one of the code and data regions
    gets the page-aligned base and the number of pages that cover
    [vaddr, vaddr + sz), with an empty page table; a third region is EUNIMP and
    changes nothing; an empty one, which is not rejected, stops the machine. *)
Theorem as_define_region_spec m p a vaddr sz :
  minv m → m_spaces m !! p = Some a → 0 ≤ vaddr → 0 ≤ sz → vaddr + sz + PAGE_SIZE ≤ 2 ^ 32 →
  let v := vaddr / PAGE_SIZE * PAGE_SIZE in
  let np := (vaddr + sz + PAGE_SIZE - 1) / PAGE_SIZE - vaddr / PAGE_SIZE in
  (free_region a = None → as_define_region p vaddr sz m = Done (EUNIMP, m)) ∧
  (free_region a ≠ None → np = 0 → as_define_region p vaddr sz m = Panic) ∧
  (∀ t r m', free_region a = Some t → as_define_region p vaddr sz m = Done (r, m') →
     r = 0 ∧ minv m' ∧ v ≤ vaddr ∧ vaddr + sz ≤ v + np * PAGE_SIZE < vaddr + sz + PAGE_SIZE ∧
     ∃ base, m_spaces m' = <[p := defined_space a t v np base]> (m_spaces m)).
Proof.
  intros Hm Ha Hv Hsz Hlim v np.
  assert (Hal : align_region vaddr sz = (v, np)).
  { unfold align_region, v, np. rewrite page_offset_mask, (page_frame_mask vaddr) by (unfold PAGE_SIZE in *; lia).
    unfold PAGE_SIZE in *. pose proof (Z_div_mod_eq_full vaddr 4096). pose proof (Z.mod_pos_bound vaddr 4096).
    rewrite (u32_small (sz + vaddr mod 4096)) by lia.
    assert (E : u32 (u32 (sz + vaddr mod 4096 + 4096) - 1) = sz + vaddr mod 4096 + 4095).
    { unfold u32. rewrite Zminus_mod_idemp_l, Z.mod_small by lia. lia. }
    rewrite E.
    rewrite page_frame_mask by lia. unfold PAGE_SIZE. rewrite Z.div_mul by done. f_equal.
    replace (vaddr + sz + 4096 - 1) with (sz + vaddr mod 4096 + 4095 + (vaddr / 4096) * 4096) by lia.
    rewrite Z.div_add by done. lia. }
  split_and!.
  - intros Hfree. unfold as_define_region. rewrite Hal. kcall (get_as_run _ _ _ Ha).
    unfold free_region in Hfree. by repeat destruct (_ && _).
  - intros Hfree Hz. unfold as_define_region. rewrite Hal. kcall (get_as_run _ _ _ Ha).
    unfold free_region in Hfree. destruct (_ && _); [|destruct (_ && _); [|done]]; unfold put_as at 1; ksteps;
      set (m1 := set_spaces _ m);
      (assert (H1 : m_spaces m1 !! p = Some _) by apply lookup_insert_eq); kcall (get_as_run _ _ _ H1);
      unfold kbind at 1, segment_prepare; rewrite step_panic by (cbn; by rewrite Hz); done.
  - intros t r m' Hfree Hrun. pose proof (as_define_region_machine m p a vaddr sz r m' Hm Ha) as H.
    rewrite Hal, Hfree in H. destruct H as (Hm' & -> & Hpos & _ & _ & Hs); [unfold PAGE_SIZE in *; lia|done|].
    unfold v, np, PAGE_SIZE in *. pose proof (Z_div_mod_eq_full vaddr 4096).
    pose proof (Z.mod_pos_bound vaddr 4096). pose proof (Z_div_mod_eq_full (vaddr + sz + 4096 - 1) 4096).
    pose proof (Z.mod_pos_bound (vaddr + sz + 4096 - 1) 4096). split_and!; (done || lia).
Qed.

Lemma as_define_region_spec_witness :
  as_define_region demo_as 4194304 4096 demo_machine = Done (EUNIMP, demo_machine).
Proof.
  apply (as_define_region_spec demo_machine demo_as demo_space 4194304 4096
    (proj1 demo_ok) demo_lookup); [lia|lia|unfold PAGE_SIZE; lia|exact demo_no_free_region].
Defined.
