(* ===== verification/Uio.v ===== *)
(** * Data movement descriptors (kern/lib/uio.c, kern/include/uio.h)

    A [uio] describes where the other side of a transfer is.  Each iovec is the
    bytes its pointer and length still cover: the bytes to be taken when
    writing, the room to be filled when reading; what a read has put there is
    recorded in order.  The results that [copyin] and [copyout] give for user
    memory are an input. *)

From stdpp Require Import base numbers list.
From Stdlib Require Import ZArith Lia.
From S2P Require Import Prelude.

Open Scope Z_scope.
Open Scope kernel_scope.

Inductive uio_rw := UIO_READ | UIO_WRITE.
Inductive uio_seg := UIO_USERISPACE | UIO_USERSPACE | UIO_SYSSPACE.
#[global] Instance uio_rw_dec : EqDecision uio_rw.
Proof. solve_decision. Defined.
#[global] Instance uio_seg_dec : EqDecision uio_seg.
Proof. solve_decision. Defined.

Record uio := mk_uio {
  uio_iov : list (list Z);
  uio_offset : Z;              (** [off_t], 64 bits *)
  uio_resid : Z;               (** [size_t] *)
  uio_segflg : uio_seg;
  uio_dir : uio_rw;            (** the field [uio_rw] *)
  uio_space : option nat;
  uio_copies : list Z;         (** results of the next copies to or from user memory *)
  uio_done : list Z            (** what reading has delivered *)
}.

Definition set_iov v u := mk_uio v (uio_offset u) (uio_resid u) (uio_segflg u) (uio_dir u) (uio_space u) (uio_copies u) (uio_done u).
Definition set_offset o u := mk_uio (uio_iov u) o (uio_resid u) (uio_segflg u) (uio_dir u) (uio_space u) (uio_copies u) (uio_done u).
Definition set_resid r u := mk_uio (uio_iov u) (uio_offset u) r (uio_segflg u) (uio_dir u) (uio_space u) (uio_copies u) (uio_done u).

Definition uio_kinit (kbuf : list Z) (pos : Z) (rw : uio_rw) : uio :=
  mk_uio [kbuf] pos (u32 (Z.of_nat (length kbuf))) UIO_SYSSPACE rw None [] [].

Definition is_read (u : uio) : bool := match uio_dir u with UIO_READ => true | UIO_WRITE => false end.

(** The copy of [size] bytes between the buffer at [ptr] and the iovec [d]: the
    result, and the buffer and descriptor after it. *)
Definition copy_chunk (buf : list Z) (ptr size : nat) (d : list Z) (rest : list (list Z)) (u : uio) : Z * (list Z * uio) :=
  let '(result, copies) :=
    match uio_segflg u, uio_copies u with
    | UIO_SYSSPACE, cs => (0, cs)
    | _, [] => (0, [])
    | _, c :: cs => (c, cs)
    end in
  if negb (result =? 0) then
    (result, (buf, mk_uio (uio_iov u) (uio_offset u) (uio_resid u) (uio_segflg u) (uio_dir u) (uio_space u) copies (uio_done u)))
  else
    let out := if is_read u then take size (drop ptr buf) else [] in
    let buf := if is_read u then buf else take ptr buf ++ take size d ++ drop (ptr + size) buf in
    (0, (buf, mk_uio (drop size d :: rest) (i64 (uio_offset u + Z.of_nat size)) (u32 (uio_resid u - Z.of_nat size))
                (uio_segflg u) (uio_dir u) (uio_space u) copies (uio_done u ++ out))).

Fixpoint uiomove_loop (fuel : nat) (ptr : nat) (n : Z) : K (list Z * uio) Z := λ s,
  match fuel with
  | O => Hang
  | S fuel =>
      let '(buf, u) := s in
      if (0 <? n) && (0 <? uio_resid u) then
        match uio_iov u with
        | [] => Undef
        | d :: rest =>
            let size := Z.min (Z.of_nat (length d)) n in
            if size =? 0 then
              match rest with
              | [] => Panic
              | _ => uiomove_loop fuel ptr n (buf, set_iov rest u)
              end
            else
              let '(result, s) := copy_chunk buf ptr (Z.to_nat size) d rest u in
              if negb (result =? 0) then Done (result, s)
              else uiomove_loop fuel (ptr + Z.to_nat size) (n - size) s
        end
      else Done (0, s)
  end.

Section Uio.
(** The address space of the current process. *)
Context (curproc_as : option nat).

(** [uiomove]: the buffer is what the pointer and the length give. *)
Definition uiomove : K (list Z * uio) Z :=
  s <- kget ;;
  kassert (match uio_segflg s.2 with
           | UIO_SYSSPACE => bool_decide (uio_space s.2 = None)
           | _ => bool_decide (uio_space s.2 = curproc_as)
           end) ;;
  uiomove_loop (S (length (uio_iov s.2) + length s.1)) 0 (Z.of_nat (length s.1)).

Fixpoint movezeros_loop (fuel : nat) (n : Z) : K uio Z := λ u,
  match fuel with
  | O => Hang
  | S fuel =>
      if 0 <? n then
        let amt := Z.min 16 n in
        match uiomove (replicate (Z.to_nat amt) 0, u) with
        | Done (result, (_, u)) => if negb (result =? 0) then Done (result, u) else movezeros_loop fuel (n - amt) u
        | Panic => Panic
        | Undef => Undef
        | Hang => Hang
        end
      else Done (0, u)
  end.
Definition uiomovezeros (n : Z) : K uio Z :=
  u <- kget ;;
  kassert (is_read u) ;;
  movezeros_loop (S (Z.to_nat n)) n.

(** ** What a transfer does *)

(** A descriptor whose copies succeed. *)
Definition uio_good (u : uio) : Prop :=
  match uio_segflg u with
  | UIO_SYSSPACE => uio_space u = None
  | _ => uio_space u = curproc_as ∧ Forall (λ c, c = 0) (uio_copies u)
  end.

(** [n] bytes further; [out] has been delivered. *)
Record uio_moved (n : nat) (out : list Z) (u u' : uio) : Prop := {
  mv_iov : concat (uio_iov u') = drop n (concat (uio_iov u));
  mv_offset : uio_offset u' = uio_offset u + Z.of_nat n;
  mv_resid : uio_resid u' = uio_resid u - Z.of_nat n;
  mv_segflg : uio_segflg u' = uio_segflg u;
  mv_dir : uio_dir u' = uio_dir u;
  mv_space : uio_space u' = uio_space u;
  mv_done : uio_done u' = uio_done u ++ out;
  mv_good : uio_good u → uio_good u'
}.

Lemma uio_moved_trans n1 n2 o1 o2 u1 u2 u3 :
  uio_moved n1 o1 u1 u2 → uio_moved n2 o2 u2 u3 → uio_moved (n1 + n2) (o1 ++ o2) u1 u3.
Proof.
  intros [a1 b1 c1 d1 e1 f1 g1 h1] [a2 b2 c2 d2 e2 f2 g2 h2]. split; try congruence; [|lia|lia| |tauto].
  - rewrite a2, a1, drop_drop. done.
  - rewrite g2, g1, app_assoc. done.
Qed.
Lemma uio_moved_refl u : uio_moved 0 [] u u.
Proof. split; try done; [lia|lia|]. by rewrite app_nil_r. Qed.

Lemma copy_chunk_good buf ptr size d rest u :
  uio_good u → uio_iov u = d :: rest → (1 ≤ size ≤ length d)%nat → (ptr + size ≤ length buf)%nat →
  Z.of_nat size ≤ uio_resid u < 2 ^ 32 → 0 ≤ uio_offset u → uio_offset u + Z.of_nat size < 2 ^ 63 →
  ∃ u', copy_chunk buf ptr size d rest u =
      (0, (if is_read u then buf else take ptr buf ++ take size d ++ drop (ptr + size) buf, u')) ∧
    uio_iov u' = drop size d :: rest ∧
    uio_moved size (if is_read u then take size (drop ptr buf) else []) u u'.
Proof.
  intros Hg Hi Hs Hp Hr Ho Ho'. unfold copy_chunk.
  assert (Hc : ∃ cs, (match uio_segflg u, uio_copies u with
    | UIO_SYSSPACE, cs => (0, cs) | _, [] => (0, []) | _, c :: cs => (c, cs) end) = (0, cs) ∧
    (uio_segflg u ≠ UIO_SYSSPACE → Forall (λ c, c = 0) cs)).
  { unfold uio_good in Hg. destruct (uio_segflg u); [| |by eexists]; destruct Hg as [_ F];
      (destruct F as [|c cs -> F]; [by exists []|by exists cs]). }
  destruct Hc as (cs & -> & Hcs). cbn [Z.eqb negb]. eexists. split; [reflexivity|]. split; [done|].
  split; cbn [uio_iov uio_offset uio_resid uio_segflg uio_dir uio_space uio_done uio_copies]; try done.
  - rewrite Hi. cbn [concat]. rewrite drop_app_le by lia. done.
  - apply i64_small. lia.
  - apply u32_small. lia.
  - unfold uio_good. cbn [uio_segflg uio_space uio_copies]. destruct (uio_segflg u); [| |done];
      (intros [? _]; split; [done|by apply Hcs]).
Qed.

Lemma take_drop_split (buf : list Z) (ptr size n : nat) :
  (size ≤ n)%nat → take size (drop ptr buf) ++ take (n - size) (drop (ptr + size) buf) = take n (drop ptr buf).
Proof.
  intros H. rewrite <- (take_drop size (take n (drop ptr buf))). rewrite take_take, Nat.min_l by lia.
  f_equal. rewrite skipn_firstn_comm, drop_drop. done.
Qed.

(** Two chunks one after the other. *)
Lemma chunks_join (buf d r : list Z) (ptr size n : nat) :
  (size ≤ length d)%nat → (ptr + n ≤ length buf)%nat → (size ≤ n)%nat → (n ≤ length (d ++ r))%nat →
  let buf1 := take ptr buf ++ take size d ++ drop (ptr + size) buf in
  take (ptr + size) buf1 ++ take (n - size) (drop size (d ++ r)) ++ drop (ptr + size + (n - size)) buf1 =
  take ptr buf ++ take n (d ++ r) ++ drop (ptr + n) buf.
Proof.
  intros H1 H2 H3 H4. cbv zeta.
  assert (Hl : length (take ptr buf ++ take size d) = (ptr + size)%nat) by (rewrite length_app, !length_take; lia).
  rewrite (app_assoc (take ptr buf) (take size d)), take_app_length' by lia. rewrite <- (app_assoc (take ptr buf)). f_equal.
  rewrite app_assoc. f_equal.
  - rewrite <- (take_app_le d r size) by lia. apply (take_drop_split (d ++ r) 0 size n). lia.
  - replace (ptr + size + (n - size))%nat with (length (take ptr buf ++ take size d) + (n - size))%nat by lia.
    rewrite drop_app_add, drop_drop. f_equal. lia.
Qed.

Definition room (u : uio) : Z := Z.of_nat (length (concat (uio_iov u))).

Lemma uiomove_loop_ok fuel ptr n buf u :
  (length (uio_iov u) + n < fuel)%nat → uio_good u → (ptr + n ≤ length buf)%nat →
  Z.of_nat n ≤ uio_resid u ≤ room u → uio_resid u < 2 ^ 32 →
  0 ≤ uio_offset u → uio_offset u + Z.of_nat n < 2 ^ 63 →
  ∃ u', uiomove_loop fuel ptr (Z.of_nat n) (buf, u) =
      Done (0, (if is_read u then buf else take ptr buf ++ take n (concat (uio_iov u)) ++ drop (ptr + n) buf, u')) ∧
    uio_moved n (if is_read u then take n (drop ptr buf) else []) u u'.
Proof.
  unfold room. revert ptr n buf u. induction fuel as [|fuel IH]; intros ptr n buf u Hf Hg Hp Hr Hr2 Ho Ho2; [lia|].
  cbn [uiomove_loop].
  destruct n as [|n].
  { cbn [Z.of_nat]. rewrite Z.ltb_irrefl. cbn [andb]. exists u. split; [|destruct (is_read u); [rewrite take_0|]; apply uio_moved_refl].
    rewrite take_0, Nat.add_0_r. cbn [app]. rewrite take_drop. by destruct (is_read u). }
  rewrite (proj2 (Z.ltb_lt 0 (Z.of_nat (S n)))), (proj2 (Z.ltb_lt 0 (uio_resid u))) by lia. cbn [andb].
  destruct (uio_iov u) as [|d rest] eqn:Ei; [cbn in Hr; lia|].
  destruct (decide (d = [])) as [->|Hd].
  { cbn [length Z.of_nat]. rewrite Z.min_l by lia. cbn [Z.eqb].
    destruct rest as [|d2 rest2]; [cbn in Hr; lia|].
    destruct (IH ptr (S n) buf (set_iov (d2 :: rest2) u)) as (u' & E & M); cbn [set_iov uio_iov uio_resid uio_offset]; try done;
      [cbn [length] in *; lia|].
    exists u'. split; [exact E|]. destruct M. split; cbn [set_iov uio_iov uio_offset uio_resid uio_segflg uio_dir uio_space uio_done] in *; try done.
    by rewrite Ei. }
  assert (Hd1 : (1 ≤ length d)%nat) by (destruct d; [done|cbn [length]; lia]).
  set (size := Nat.min (length d) (S n)).
  replace (Z.min (Z.of_nat (length d)) (Z.of_nat (S n))) with (Z.of_nat size) by lia.
  rewrite (proj2 (Z.eqb_neq (Z.of_nat size) 0)), Nat2Z.id by lia.
  destruct (copy_chunk_good buf ptr size d rest u) as (u1 & E1 & Ei1 & M1); [done|done|lia|lia|lia|lia|lia|].
  rewrite E1. cbn [Z.eqb negb]. pose proof M1 as [m1 m2 m3 m4 m5 m6 m7 m8].
  assert (Er : is_read u1 = is_read u) by (unfold is_read; by rewrite m5).
  set (buf1 := if is_read u then buf else take ptr buf ++ take size d ++ drop (ptr + size) buf).
  assert (Hlen : length buf1 = length buf).
  { unfold buf1. destruct (is_read u); [done|]. rewrite !length_app, !length_take, length_drop. lia. }
  replace (Z.of_nat (S n) - Z.of_nat size) with (Z.of_nat (S n - size)) by lia.
  destruct (IH (ptr + size)%nat (S n - size)%nat buf1 u1) as (u' & E & M).
  - rewrite Ei1. cbn [length] in *. lia.
  - by apply m8.
  - rewrite Hlen. lia.
  - rewrite m3, m1, Ei, length_drop. cbn [concat] in *. rewrite length_app in *. lia.
  - lia.
  - lia.
  - lia.
  - exists u'. rewrite E, Er. split.
    + f_equal. f_equal. f_equal. unfold buf1. destruct (is_read u); [done|].
      rewrite m1, Ei. cbn [concat]. apply chunks_join; cbn [concat] in Hr; lia.
    + pose proof (uio_moved_trans _ _ _ _ _ _ _ M1 M) as MT. replace (size + (S n - size))%nat with (S n) in MT by lia.
      rewrite Er in MT. unfold buf1 in MT. destruct (is_read u); [|done].
      rewrite take_drop_split in MT by lia. done.
Qed.

(** Room for [n] bytes, without overflow of the position. *)
Definition uio_fits (n : nat) (u : uio) : Prop :=
  uio_good u ∧ Z.of_nat n ≤ uio_resid u ≤ room u ∧ uio_resid u < 2 ^ 32 ∧
  0 ≤ uio_offset u ∧ uio_offset u + Z.of_nat n < 2 ^ 63.

Lemma uiomove_assert u : uio_good u →
  match uio_segflg u with
  | UIO_SYSSPACE => bool_decide (uio_space u = None)
  | _ => bool_decide (uio_space u = curproc_as)
  end = true.
Proof. unfold uio_good. destruct (uio_segflg u); intros H; apply bool_decide_eq_true; naive_solver. Qed.

Lemma uiomove_read buf u :
  is_read u = true → uio_fits (length buf) u →
  ∃ u', uiomove (buf, u) = Done (0, (buf, u')) ∧ uio_moved (length buf) buf u u'.
Proof.
  intros Hd (Hg & Hr & Hr2 & Ho & Ho2). unfold uiomove. ksteps. cbn [fst snd]. rewrite step_assert by (by apply uiomove_assert).
  destruct (uiomove_loop_ok (S (length (uio_iov u) + length buf)) 0 (length buf) buf u) as (u' & E & M); [lia|done|lia|done..|].
  rewrite Hd in E, M. rewrite drop_0, take_ge in M by lia. by exists u'.
Qed.
Lemma uiomove_write buf u :
  is_read u = false → uio_fits (length buf) u →
  ∃ u', uiomove (buf, u) = Done (0, (take (length buf) (concat (uio_iov u)), u')) ∧ uio_moved (length buf) [] u u'.
Proof.
  intros Hd (Hg & Hr & Hr2 & Ho & Ho2). unfold uiomove. ksteps. cbn [fst snd]. rewrite step_assert by (by apply uiomove_assert).
  destruct (uiomove_loop_ok (S (length (uio_iov u) + length buf)) 0 (length buf) buf u) as (u' & E & M); [lia|done|lia|done..|].
  rewrite Hd in E, M. rewrite take_0, Nat.add_0_l, drop_all, app_nil_r in E. by exists u'.
Qed.

Lemma uio_fits_moved n k out u u' : uio_fits (n + k) u → uio_moved n out u u' → uio_fits k u'.
Proof.
  intros (Hg & Hr & Hr2 & Ho & Ho2) [a b c d e f g h]. unfold uio_fits, room in *. rewrite a, length_drop, b, c.
  split; [by apply h|]. lia.
Qed.
Lemma uio_fits_le n k u : (k ≤ n)%nat → uio_fits n u → uio_fits k u.
Proof. intros H (Hg & Hr & Hr2 & Ho & Ho2). unfold uio_fits. split; [done|]. lia. Qed.
Lemma is_read_moved n out u u' : uio_moved n out u u' → is_read u' = is_read u.
Proof. intros H. unfold is_read. by rewrite (mv_dir _ _ _ _ H). Qed.

Lemma uiomovezeros_ok n u :
  is_read u = true → uio_fits n u →
  ∃ u', uiomovezeros (Z.of_nat n) u = Done (0, u') ∧ uio_moved n (replicate n 0) u u'.
Proof.
  intros Hd Hf. unfold uiomovezeros. ksteps. rewrite Hd, step_assert by done. rewrite Nat2Z.id.
  assert (H : ∀ fuel n u, (n < fuel)%nat → is_read u = true → uio_fits n u →
    ∃ u', movezeros_loop fuel (Z.of_nat n) u = Done (0, u') ∧ uio_moved n (replicate n 0) u u').
  { clear. induction fuel as [|fuel IH]; intros n u Hn Hd Hf; [lia|]. cbn [movezeros_loop].
    destruct n as [|n]; [exists u; split; [done|apply uio_moved_refl]|].
    rewrite (proj2 (Z.ltb_lt 0 (Z.of_nat (S n)))) by lia. set (k := Nat.min 16 (S n)).
    replace (Z.min 16 (Z.of_nat (S n))) with (Z.of_nat k) by lia. rewrite Nat2Z.id.
    destruct (uiomove_read (replicate k 0) u Hd) as (u1 & E & M).
    { rewrite length_replicate. eapply uio_fits_le; [|done]. lia. }
    rewrite E. cbn [Z.eqb negb]. rewrite length_replicate in M.
    replace (Z.of_nat (S n) - Z.of_nat k) with (Z.of_nat (S n - k)) by lia.
    destruct (IH (S n - k)%nat u1) as (u' & E' & M').
    - lia.
    - by rewrite (is_read_moved _ _ _ _ M).
    - eapply (uio_fits_moved k); [|done]. by replace (k + (S n - k))%nat with (S n) by lia.
    - exists u'. split; [exact E'|]. pose proof (uio_moved_trans _ _ _ _ _ _ _ M M') as MT.
      rewrite <- replicate_add in MT. by replace (k + (S n - k))%nat with (S n) in MT by lia. }
  apply H; [lia|done|done].
Qed.

(** Transfers between kernel memory and what a descriptor describes: when
    the descriptor has room for the buffer and its copies succeed, [uiomove]
    returns 0 with the whole buffer delivered, or filled with the next bytes,
    over any number of segments, some of them empty; [uiomovezeros] delivers
    zeros.  Position and rest are advanced by exactly that much. *)
Theorem uiomove_transfers buf u :
  uio_fits (length buf) u →
  if is_read u
  then (∃ u', uiomove (buf, u) = Done (0, (buf, u')) ∧ uio_moved (length buf) buf u u') ∧
    (∃ u', uiomovezeros (Z.of_nat (length buf)) u = Done (0, u') ∧ uio_moved (length buf) (replicate (length buf) 0) u u')
  else ∃ u', uiomove (buf, u) = Done (0, (take (length buf) (concat (uio_iov u)), u')) ∧ uio_moved (length buf) [] u u'.
Proof.
  intros Hf. destruct (is_read u) eqn:Hr; [split|]; [by apply uiomove_read|by apply uiomovezeros_ok|by apply uiomove_write].
Qed.
End Uio.

(** Three segments, one of them empty. *)
Definition scattered : uio := mk_uio [[1; 2]; []; [3; 4; 5]] 7 5 UIO_USERSPACE UIO_WRITE (Some 3%nat) [0; 0] [].
Lemma uiomove_transfers_witness :
  uio_fits (Some 3%nat) 4 scattered ∧
  ∃ u', uiomove (Some 3%nat) ([9; 9; 9; 9], scattered) = Done (0, ([1; 2; 3; 4], u')) ∧ uio_moved (Some 3%nat) 4 [] scattered u'.
Proof.
  assert (H : uio_fits (Some 3%nat) 4 scattered).
  { split; [split; [done|by repeat constructor]|]. unfold room. cbn. lia. }
  split; [exact H|]. exact (uiomove_transfers (Some 3%nat) [9; 9; 9; 9] scattered H).
Defined.
