(* ===== verification/Device.v ===== *)
(** * Block devices (kern/include/device.h)

    What a block device promises to a file system: its operation, the sectors
    it holds, and that a transfer of one sector within range succeeds, delivers
    the sector, or replaces it and no other. *)

From stdpp Require Import base numbers list.
From Stdlib Require Import ZArith Lia.
From S2P Require Import Prelude Uio.

Open Scope Z_scope.

Abbreviation sectsize := 512%nat.

(** A transfer of the sector [b]. *)
Definition one_sector (cur : option nat) (b : Z) (u : uio) : Prop :=
  uio_offset u = 512 * b ∧ uio_resid u = 512 ∧ uio_fits cur sectsize u.

(** The part of [struct device] that a file system uses. *)
Class Device (D : Type) := {
  d_blocks : D → Z;
  d_io : K (uio * D) Z
}.

(** What it may rely on when the device works. *)
Class BlockDevice (cur : option nat) (D : Type) {DV : Device D} := {
  d_data : D → Z → list Z;
  d_ok : D → Prop;
  d_blocks_range : ∀ d, d_ok d → 0 ≤ d_blocks d < 2 ^ 32;
  d_data_len : ∀ d b, d_ok d → 0 ≤ b < d_blocks d → length (d_data d b) = sectsize;
  d_read_ok : ∀ d b u, d_ok d → 0 ≤ b < d_blocks d → one_sector cur b u → is_read u = true →
    ∃ u' d', d_io (u, d) = Done (0, (u', d')) ∧ uio_moved cur sectsize (d_data d b) u u' ∧
      d_ok d' ∧ d_blocks d' = d_blocks d ∧ ∀ c, 0 ≤ c < d_blocks d → d_data d' c = d_data d c;
  d_write_ok : ∀ d b u, d_ok d → 0 ≤ b < d_blocks d → one_sector cur b u → is_read u = false →
    ∃ u' d', d_io (u, d) = Done (0, (u', d')) ∧ uio_moved cur sectsize [] u u' ∧
      d_ok d' ∧ d_blocks d' = d_blocks d ∧ d_data d' b = take sectsize (concat (uio_iov u)) ∧
      ∀ c, 0 ≤ c < d_blocks d → c ≠ b → d_data d' c = d_data d c
}.
