(* ===== verification/Lhd.v ===== *)
(** * The LAMEbus disk (kern/dev/lamebus/lhd.c)

    The disk driver, and that it is a block device.  The drive itself is a parameter: an operation on a
    sector gives a status code, the on-card buffer and the drive after it.  The
    driver waits for the completion interrupt; the drive finishes, and the
    handler runs, while it waits. *)

From stdpp Require Import base numbers list.
From Stdlib Require Import ZArith Lia.
From S2P Require Import Prelude Uio Device.

Open Scope Z_scope.
Open Scope kernel_scope.

Definition LHD_SECTSIZE : Z := 512.

(** ** Status codes *)

Definition LHD_IDLE : Z := 0.
Definition LHD_WORKING : Z := 1.
Definition LHD_OK : Z := 4.
Definition LHD_INVSECT : Z := 12.
Definition LHD_MEDIA : Z := 20.
Definition LHD_ISWRITE : Z := 2.
Definition LHD_STATEMASK : Z := 29.

Definition lhd_code_to_errno (code : Z) : Z :=
  let c := Z.land code LHD_STATEMASK in
  if c =? LHD_OK then 0 else if c =? LHD_INVSECT then EINVAL else if c =? LHD_MEDIA then EIO else EAGAIN.

(** ** The drive *)

Class DiskHw (D : Type) := {
  hw_sector : D → Z → list Z;
  hw_op : bool → Z → list Z → D → Z * list Z * D;
  (** The status ends as one of the three, whatever the write bit. *)
  hw_codes : ∀ w s b d, Z.land (hw_op w s b d).1.1 LHD_STATEMASK ∈ [LHD_OK; LHD_INVSECT; LHD_MEDIA];
  hw_sector_len : ∀ d s, length (hw_sector d s) = sectsize;
  hw_buf_len : ∀ w s b d, length b = sectsize → length (hw_op w s b d).1.2 = sectsize;
  hw_read : ∀ s b d, Z.land (hw_op false s b d).1.1 LHD_STATEMASK = LHD_OK →
    (hw_op false s b d).1.2 = hw_sector d s;
  hw_read_keeps : ∀ s b d t, hw_sector (hw_op false s b d).2 t = hw_sector d t;
  hw_write : ∀ s b d, Z.land (hw_op true s b d).1.1 LHD_STATEMASK = LHD_OK →
    hw_sector (hw_op true s b d).2 s = b;
  hw_write_keeps : ∀ s b d t, t ≠ s → hw_sector (hw_op true s b d).2 t = hw_sector d t
}.

(** ** The driver *)

Section Lhd.
Context (curproc_as : option nat) {D : Type} `{DiskHw D}.

Record lhd_softc := mk_lhd {
  lh_blocks : Z;               (** [lh_dev.d_blocks] *)
  lh_buf : list Z;             (** the on-card buffer *)
  lh_clear : Z;                (** counts of the two semaphores *)
  lh_done : Z;
  lh_result : Z;
  lh_stat : Z;                 (** the registers *)
  lh_sect : Z;
  lh_disk : D
}.

Definition set_clear n l := mk_lhd (lh_blocks l) (lh_buf l) n (lh_done l) (lh_result l) (lh_stat l) (lh_sect l) (lh_disk l).
Definition set_done n l := mk_lhd (lh_blocks l) (lh_buf l) (lh_clear l) n (lh_result l) (lh_stat l) (lh_sect l) (lh_disk l).
Definition set_result r l := mk_lhd (lh_blocks l) (lh_buf l) (lh_clear l) (lh_done l) r (lh_stat l) (lh_sect l) (lh_disk l).
Definition set_stat v l := mk_lhd (lh_blocks l) (lh_buf l) (lh_clear l) (lh_done l) (lh_result l) v (lh_sect l) (lh_disk l).
Definition set_sect v l := mk_lhd (lh_blocks l) (lh_buf l) (lh_clear l) (lh_done l) (lh_result l) (lh_stat l) v (lh_disk l).
Definition set_buf b l := mk_lhd (lh_blocks l) b (lh_clear l) (lh_done l) (lh_result l) (lh_stat l) (lh_sect l) (lh_disk l).

Abbreviation L := (K (uio * lhd_softc)).
Definition getl {A} (f : lhd_softc → A) : L A := kgets (λ s, f s.2).
Definition setl (f : lhd_softc → lhd_softc) : L unit := kmodify (λ s, (s.1, f s.2)).
Definition getu {A} (f : uio → A) : L A := kgets (λ s, f s.1).

Definition lhd_iodone (err : Z) (l : lhd_softc) : lhd_softc :=
  set_done (lh_done l + 1) (set_result err l).
Definition lhd_irq (l : lhd_softc) : lhd_softc :=
  let val := lh_stat l in
  let st := Z.land val LHD_STATEMASK in
  if (st =? LHD_OK) || (st =? LHD_INVSECT) || (st =? LHD_MEDIA)
  then lhd_iodone (lhd_code_to_errno val) (set_stat 0 l)
  else l.

(** The drive finishes an operation that is under way and interrupts. *)
Definition hw_finish (l : lhd_softc) : lhd_softc :=
  if Z.land (lh_stat l) LHD_STATEMASK =? LHD_WORKING then
    let '(code, buf, disk) := hw_op (negb (Z.land (lh_stat l) LHD_ISWRITE =? 0)) (lh_sect l) (lh_buf l) (lh_disk l) in
    lhd_irq (mk_lhd (lh_blocks l) buf (lh_clear l) (lh_done l) (lh_result l) code (lh_sect l) disk)
  else l.

Definition P_clear : L unit :=
  n <- getl lh_clear ;; if 0 <? n then setl (set_clear (n - 1)) else khang.
Definition V_clear : L unit := setl (λ l, set_clear (lh_clear l + 1) l).
Definition P_done : L unit :=
  n <- getl lh_done ;;
  (if 0 <? n then kret tt else setl hw_finish) ;;
  n <- getl lh_done ;;
  if 0 <? n then setl (set_done (n - 1)) else khang.

(** [uiomove] on the on-card buffer. *)
Definition move_buf : L Z := λ s,
  match uiomove curproc_as (lh_buf s.2, s.1) with
  | Done (result, (buf, u)) => Done (result, (u, set_buf buf s.2))
  | Panic => Panic
  | Undef => Undef
  | Hang => Hang
  end.

Definition lhd_sector (sector : Z) (statval : Z) : L Z :=
  P_clear ;;
  wr <- getu (λ u, negb (is_read u)) ;;
  result <- (if wr : bool then move_buf else kret 0) ;;
  if negb (result =? 0) then V_clear ;; kret result
  else
    setl (set_sect sector) ;;
    setl (set_stat statval) ;;
    P_done ;;
    result <- getl lh_result ;;
    result <- (if (result =? 0) && negb wr then move_buf else kret result) ;;
    V_clear ;;
    kret result.

Fixpoint lhd_loop (sector statval i : Z) (k : nat) : L Z :=
  match k with
  | O => kret 0
  | S k =>
      result <- lhd_sector (u32 (sector + i)) statval ;;
      if negb (result =? 0) then kret result else lhd_loop sector statval (i + 1) k
  end.

Definition lhd_io : L Z :=
  off <- getu uio_offset ;;
  resid <- getu uio_resid ;;
  wr <- getu (λ u, negb (is_read u)) ;;
  blocks <- getl lh_blocks ;;
  let sector := u32 (Z.quot off LHD_SECTSIZE) in
  let sectoff := u32 (Z.rem off LHD_SECTSIZE) in
  let len := resid / LHD_SECTSIZE in
  let lenoff := resid mod LHD_SECTSIZE in
  if negb (sectoff =? 0) || negb (lenoff =? 0) then kret EINVAL
  else if blocks <? u32 (sector + len) then kret EINVAL
  else lhd_loop sector (if wr : bool then Z.lor LHD_WORKING LHD_ISWRITE else LHD_WORKING) 0 (Z.to_nat len).

Definition lhd_open : Z := 0.
Definition lhd_close : Z := 0.
Definition lhd_ioctl : Z := EIOCTL.

(** ** One sector *)

(** Nobody is using the device. *)
Definition lhd_idle (l : lhd_softc) : Prop :=
  lh_clear l = 1 ∧ lh_done l = 0 ∧ length (lh_buf l) = sectsize ∧ 0 ≤ lh_blocks l < 2 ^ 32.

(** The end of an operation: the code, as an error number, and the new state. *)
Lemma P_done_run u l wr :
  lh_done l = 0 → lh_stat l = (if wr : bool then 3 else 1) →
  let '(code, buf, disk) := hw_op wr (lh_sect l) (lh_buf l) (lh_disk l) in
  P_done (u, l) = Done (tt, (u, mk_lhd (lh_blocks l) buf (lh_clear l) 0 (lhd_code_to_errno code) 0 (lh_sect l) disk)).
Proof.
  intros Hd Hs. destruct l as [blocks lbuf clear ldone res stat sect disk0]. cbn [lh_done lh_stat lh_sect lh_buf lh_disk lh_blocks lh_clear] in *.
  subst. destruct (hw_op wr sect lbuf disk0) as [[code buf] disk] eqn:E.
  pose proof (hw_codes wr sect lbuf disk0) as Hc. rewrite E in Hc. cbn [fst] in Hc.
  unfold P_done, getl, setl. ksteps. cbn [snd lh_done]. change (0 <? 0) with false. cbv iota. ksteps. cbn [fst snd].
  assert (Hf : hw_finish (mk_lhd blocks lbuf clear 0 res (if wr then 3 else 1) sect disk0) =
    mk_lhd blocks buf clear 1 (lhd_code_to_errno code) 0 sect disk).
  { unfold hw_finish. cbn [lh_stat lh_sect lh_buf lh_disk lh_blocks lh_clear lh_done lh_result].
    replace (Z.land (if wr then 3 else 1) LHD_STATEMASK =? LHD_WORKING) with true by (by destruct wr).
    replace (negb (Z.land (if wr then 3 else 1) LHD_ISWRITE =? 0)) with wr by (by destruct wr).
    rewrite E. unfold lhd_irq. cbn [lh_stat].
    replace ((Z.land code LHD_STATEMASK =? LHD_OK) || (Z.land code LHD_STATEMASK =? LHD_INVSECT) || (Z.land code LHD_STATEMASK =? LHD_MEDIA)) with true; [done|].
    symmetry. rewrite !elem_of_cons in Hc. destruct Hc as [-> | [-> | [-> | []%not_elem_of_nil]]]; done. }
  rewrite Hf. cbn [lh_done]. done.
Qed.

Lemma errno_zero code :
  Z.land code LHD_STATEMASK ∈ [LHD_OK; LHD_INVSECT; LHD_MEDIA] →
  (lhd_code_to_errno code = 0 ↔ Z.land code LHD_STATEMASK = LHD_OK).
Proof.
  intros Hc. unfold lhd_code_to_errno. rewrite !elem_of_cons in Hc.
  destruct Hc as [-> | [-> | [-> | []%not_elem_of_nil]]]; split; done.
Qed.

(** Reading: on success the sector is delivered, on failure nothing moves. *)
Lemma lhd_sector_read u l s :
  lhd_idle l → is_read u = true → uio_fits curproc_as sectsize u →
  ∃ r u' l', lhd_sector s LHD_WORKING (u, l) = Done (r, (u', l')) ∧
    lhd_idle l' ∧ lh_blocks l' = lh_blocks l ∧ (∀ t, hw_sector (lh_disk l') t = hw_sector (lh_disk l) t) ∧
    lh_disk l' = (hw_op false s (lh_buf l) (lh_disk l)).2 ∧
    r = lhd_code_to_errno (hw_op false s (lh_buf l) (lh_disk l)).1.1 ∧
    (if r =? 0 then uio_moved curproc_as sectsize (hw_sector (lh_disk l) s) u u' else u' = u).
Proof.
  intros (Hc & Hd & Hb & Hn) Hr Hf. unfold lhd_sector, P_clear, V_clear, getl, getu. ksteps. cbn [fst snd].
  rewrite Hc. cbn [Z.ltb Z.compare]. unfold setl. ksteps. cbn [fst snd]. rewrite Hr. cbn [negb]. ksteps. cbn [Z.eqb negb]. ksteps. cbn [fst snd].
  set (l1 := set_stat LHD_WORKING (set_sect s (set_clear (1 - 1) l))).
  pose proof (P_done_run u l1 false Hd eq_refl) as E.
  pose proof (hw_codes false s (lh_buf l) (lh_disk l)) as Hcodes. pose proof (hw_buf_len false s (lh_buf l) (lh_disk l) Hb) as Hbl.
  pose proof (hw_read s (lh_buf l) (lh_disk l)) as Hread. pose proof (hw_read_keeps s (lh_buf l) (lh_disk l)) as Hkeep.
  change (lh_sect l1) with s in E. change (lh_buf l1) with (lh_buf l) in E. change (lh_disk l1) with (lh_disk l) in E.
  destruct (hw_op false s (lh_buf l) (lh_disk l)) as [[code buf] disk]. cbn [fst snd] in *. kcall E. ksteps. cbn [snd lh_result].
  destruct (Z.eqb_spec (lhd_code_to_errno code) 0) as [E0|E0]; cbn [andb].
  - apply errno_zero in E0 as Hok; [|done]. specialize (Hread Hok). subst buf.
    destruct (uiomove_read curproc_as (hw_sector (lh_disk l) s) u Hr) as (u' & Em & M); [by rewrite Hbl|].
    rewrite Hbl in M. unfold kbind at 1. unfold move_buf. cbn [fst snd lh_buf]. rewrite Em. ksteps.
    eexists _, u', _. split; [reflexivity|]. cbn [lh_blocks lh_disk set_clear set_buf lh_clear lh_done lh_buf].
    split_and!; try done.
  - ksteps. eexists _, u, _. split; [reflexivity|]. cbn [lh_blocks lh_disk set_clear lh_clear lh_done lh_buf].
    rewrite (proj2 (Z.eqb_neq _ 0) E0). split_and!; try done.
Qed.

(** Writing: the data is taken from the descriptor in any case. *)
Lemma lhd_sector_write u l s :
  lhd_idle l → is_read u = false → uio_fits curproc_as sectsize u →
  let data := take sectsize (concat (uio_iov u)) in
  ∃ r u' l', lhd_sector s (Z.lor LHD_WORKING LHD_ISWRITE) (u, l) = Done (r, (u', l')) ∧
    lhd_idle l' ∧ lh_blocks l' = lh_blocks l ∧ uio_moved curproc_as sectsize [] u u' ∧
    lh_disk l' = (hw_op true s data (lh_disk l)).2 ∧
    r = lhd_code_to_errno (hw_op true s data (lh_disk l)).1.1 ∧
    (∀ t, t ≠ s → hw_sector (lh_disk l') t = hw_sector (lh_disk l) t) ∧
    (r = 0 → hw_sector (lh_disk l') s = data).
Proof.
  intros (Hc & Hd & Hb & Hn) Hr Hf. cbv zeta. unfold lhd_sector, P_clear, V_clear, getl, getu. ksteps. cbn [fst snd].
  rewrite Hc. cbn [Z.ltb Z.compare]. unfold setl. ksteps. cbn [fst snd]. rewrite Hr. cbn [negb].
  destruct (uiomove_write curproc_as (lh_buf l) u Hr) as (u' & Em & M); [by rewrite Hb|]. rewrite Hb in Em, M.
  unfold kbind at 1. unfold move_buf. cbn [fst snd set_clear lh_buf]. rewrite Em. cbn [Z.eqb negb]. ksteps. cbn [fst snd].
  set (data := take sectsize (concat (uio_iov u))) in *.
  set (l1 := set_stat (Z.lor LHD_WORKING LHD_ISWRITE) (set_sect s (set_buf data (set_clear (1 - 1) l)))).
  pose proof (P_done_run u' l1 true Hd eq_refl) as E.
  assert (Hdl : length data = sectsize).
  { unfold data. rewrite length_take. destruct Hf as (_ & Hroom & _). unfold room in Hroom. lia. }
  pose proof (hw_codes true s data (lh_disk l)) as Hcodes. pose proof (hw_buf_len true s data (lh_disk l) Hdl) as Hbl.
  pose proof (hw_write s data (lh_disk l)) as Hwrite. pose proof (hw_write_keeps s data (lh_disk l)) as Hkeep.
  change (lh_sect l1) with s in E. change (lh_buf l1) with data in E. change (lh_disk l1) with (lh_disk l) in E.
  unfold l1 in E. cbn [set_stat set_sect set_buf set_clear lh_blocks lh_buf lh_clear lh_done lh_result lh_stat lh_sect lh_disk] in E.
  cbn [set_stat set_sect set_buf set_clear lh_blocks lh_buf lh_clear lh_done lh_result lh_stat lh_sect lh_disk].
  destruct (hw_op true s data (lh_disk l)) as [[code buf] disk]. cbn [fst snd] in *. kcall E. ksteps. cbn [snd lh_result].
  rewrite andb_false_r. ksteps.
  eexists _, u', _. split; [reflexivity|]. cbn [lh_blocks lh_disk set_clear lh_clear lh_done lh_buf].
  split_and!; try done. intros E0. apply Hwrite. by apply errno_zero.
Qed.

(** A transfer of one sector is the loop's one turn. *)
Lemma lhd_io_one u l b :
  lhd_idle l → 0 ≤ b < lh_blocks l → uio_offset u = 512 * b → uio_resid u = 512 →
  lhd_io (u, l) =
    (result <- lhd_sector b (if is_read u then LHD_WORKING else Z.lor LHD_WORKING LHD_ISWRITE) ;;
     if negb (result =? 0) then kret result else kret 0) (u, l).
Proof.
  intros (_ & _ & _ & Hn) Hb Ho Hr. unfold lhd_io, getu, getl. ksteps. cbn [fst snd]. rewrite Ho, Hr.
  unfold LHD_SECTSIZE. rewrite (Z.mul_comm 512 b), Z.quot_mul, Z.rem_mul by lia.
  change (u32 0) with 0. change (512 mod 512) with 0. change (512 / 512) with 1.
  rewrite (u32_small b), (u32_small (b + 1)) by lia. cbn [Z.eqb negb orb].
  rewrite (proj2 (Z.ltb_ge _ _)) by lia. change (Z.to_nat 1) with 1%nat. cbn [lhd_loop]. rewrite Z.add_0_r, u32_small by lia.
  by destruct (is_read u).
Qed.

Lemma lhd_io_read u l b :
  lhd_idle l → 0 ≤ b < lh_blocks l → one_sector curproc_as b u → is_read u = true →
  ∃ r u' l', lhd_io (u, l) = Done (r, (u', l')) ∧
    lhd_idle l' ∧ lh_blocks l' = lh_blocks l ∧ (∀ t, hw_sector (lh_disk l') t = hw_sector (lh_disk l) t) ∧
    lh_disk l' = (hw_op false b (lh_buf l) (lh_disk l)).2 ∧
    r = lhd_code_to_errno (hw_op false b (lh_buf l) (lh_disk l)).1.1 ∧
    (if r =? 0 then uio_moved curproc_as sectsize (hw_sector (lh_disk l) b) u u' else u' = u).
Proof.
  intros Hi Hb (Ho & Hr & Hf) Hrd. rewrite (lhd_io_one u l b) by done. rewrite Hrd.
  destruct (lhd_sector_read u l b Hi Hrd Hf) as (r & u' & l' & E & H'). kcall E. exists r, u', l'. split; [|done].
  destruct (Z.eqb_spec r 0) as [->|]; done.
Qed.
Lemma lhd_io_write u l b :
  lhd_idle l → 0 ≤ b < lh_blocks l → one_sector curproc_as b u → is_read u = false →
  let data := take sectsize (concat (uio_iov u)) in
  ∃ r u' l', lhd_io (u, l) = Done (r, (u', l')) ∧
    lhd_idle l' ∧ lh_blocks l' = lh_blocks l ∧ uio_moved curproc_as sectsize [] u u' ∧
    lh_disk l' = (hw_op true b data (lh_disk l)).2 ∧
    r = lhd_code_to_errno (hw_op true b data (lh_disk l)).1.1 ∧
    (∀ t, t ≠ b → hw_sector (lh_disk l') t = hw_sector (lh_disk l) t) ∧
    (r = 0 → hw_sector (lh_disk l') b = data).
Proof.
  intros Hi Hb (Ho & Hr & Hf) Hrd. cbv zeta. rewrite (lhd_io_one u l b) by done. rewrite Hrd.
  destruct (lhd_sector_write u l b Hi Hrd Hf) as (r & u' & l' & E & H'). kcall E. exists r, u', l'. split; [|done].
  destruct (Z.eqb_spec r 0) as [->|]; done.
Qed.

(** With nothing left to move, the driver does nothing and reports success. *)
Lemma lhd_io_empty u l b :
  lhd_idle l → 0 ≤ b ≤ lh_blocks l → uio_offset u = 512 * b → uio_resid u = 0 → lhd_io (u, l) = Done (0, (u, l)).
Proof.
  intros (_ & _ & _ & Hn) Hb Ho Hr. unfold lhd_io, getu, getl. ksteps. cbn [fst snd]. rewrite Ho, Hr.
  unfold LHD_SECTSIZE. rewrite (Z.mul_comm 512 b), Z.quot_mul, Z.rem_mul by lia.
  change (u32 0) with 0. change (0 mod 512) with 0. change (0 / 512) with 0. rewrite Z.add_0_r.
  rewrite !(u32_small b) by lia. cbn [Z.eqb negb orb]. rewrite (proj2 (Z.ltb_ge _ _)) by lia. done.
Qed.

(** ** Any number of sectors *)

Abbreviation sectors d b k := ((λ j, hw_sector d (b + Z.of_nat j)) <$> seq 0 k).
Definition errors : list Z := [0; EINVAL; EIO].

Lemma errno_range code : Z.land code LHD_STATEMASK ∈ [LHD_OK; LHD_INVSECT; LHD_MEDIA] → lhd_code_to_errno code ∈ errors.
Proof.
  intros Hc. unfold lhd_code_to_errno, errors. rewrite !elem_of_cons in *.
  destruct Hc as [-> | [-> | [-> | []%not_elem_of_nil]]]; cbn; auto.
Qed.

Lemma lhd_loop_read n : ∀ u l b i,
  lhd_idle l → is_read u = true → uio_fits curproc_as (512 * n) u → 0 ≤ b → 0 ≤ i → b + i + Z.of_nat n < 2 ^ 32 →
  ∃ r u' l' k, lhd_loop b LHD_WORKING i n (u, l) = Done (r, (u', l')) ∧ lhd_idle l' ∧ lh_blocks l' = lh_blocks l ∧
    (∀ t, hw_sector (lh_disk l') t = hw_sector (lh_disk l) t) ∧ r ∈ errors ∧ (k ≤ n)%nat ∧ (r = 0 ↔ k = n) ∧
    uio_moved curproc_as (512 * k) (concat (sectors (lh_disk l) (b + i) k)) u u'.
Proof.
  induction n as [|n IH]; intros u l b i Hi Hr Hf Hb Hi0 Hlim.
  { exists 0, u, l, 0%nat. split_and!; try done; [by left|apply uio_moved_refl]. }
  cbn [lhd_loop]. rewrite (u32_small (b + i)) by lia.
  destruct (lhd_sector_read u l (b + i) Hi Hr) as (r & u1 & l1 & E & Hi1 & Hn1 & Hs1 & _ & Er & M); [by eapply uio_fits_le; [|done]; lia|].
  kcall E. pose proof (errno_range _ (hw_codes false (b + i) (lh_buf l) (lh_disk l))) as Hre. rewrite <- Er in Hre. clear Er.
  destruct (Z.eqb_spec r 0) as [->|Hr0]; cbn [negb].
  - destruct (IH u1 l1 b (i + 1)) as (r & u' & l' & k & E' & Hi' & Hn' & Hs' & Hre' & Hk & Hrk & M'); try lia; [done|by rewrite (is_read_moved _ _ _ _ _ M)| |].
    { eapply uio_fits_moved; [|done]. by replace (sectsize + 512 * n)%nat with (512 * S n)%nat by lia. }
    exists r, u', l', (S k). split; [done|]. split_and!; try done; try congruence; try lia.
    replace (512 * S k)%nat with (sectsize + 512 * k)%nat by lia. cbn [seq fmap list_fmap concat]. rewrite Z.add_0_r.
    eapply uio_moved_trans; [done|]. rewrite <- seq_shift, <- list_fmap_compose.
    rewrite (list_fmap_ext _ (λ j, hw_sector (lh_disk l1) (b + (i + 1) + Z.of_nat j))) by (intros j x _; cbn; rewrite Hs1; f_equal; lia). done.
  - subst u1. exists r, u, l1, 0%nat. split; [done|]. split_and!; try done; try lia. apply uio_moved_refl.
Qed.

Lemma lhd_loop_write n : ∀ u l b i,
  lhd_idle l → is_read u = false → uio_fits curproc_as (512 * n) u → 0 ≤ b → 0 ≤ i → b + i + Z.of_nat n < 2 ^ 32 →
  ∃ r u' l' k, lhd_loop b (Z.lor LHD_WORKING LHD_ISWRITE) i n (u, l) = Done (r, (u', l')) ∧ lhd_idle l' ∧ lh_blocks l' = lh_blocks l ∧
    r ∈ errors ∧ (k ≤ n)%nat ∧ (r = 0 ↔ k = n) ∧ uio_moved curproc_as (512 * (if r =? 0 then n else S k)) [] u u' ∧
    (∀ t, t < b + i ∨ b + i + Z.of_nat (if r =? 0 then n else S k) ≤ t → hw_sector (lh_disk l') t = hw_sector (lh_disk l) t) ∧
    (∀ j, (j < k)%nat → hw_sector (lh_disk l') (b + i + Z.of_nat j) = take sectsize (drop (512 * j) (concat (uio_iov u)))).
Proof.
  induction n as [|n IH]; intros u l b i Hi Hr Hf Hb Hi0 Hlim.
  { exists 0, u, l, 0%nat. split_and!; try done; try lia; [by left|apply uio_moved_refl]. }
  cbn [lhd_loop]. rewrite (u32_small (b + i)) by lia.
  destruct (lhd_sector_write u l (b + i) Hi Hr) as (r & u1 & l1 & E & Hi1 & Hn1 & M & _ & Er & Hk1 & Hw1); [by eapply uio_fits_le; [|done]; lia|].
  kcall E. pose proof (errno_range _ (hw_codes true (b + i) (take sectsize (concat (uio_iov u))) (lh_disk l))) as Hre. rewrite <- Er in Hre. clear Er.
  destruct (Z.eqb_spec r 0) as [->|Hr0]; cbn [negb].
  - destruct (IH u1 l1 b (i + 1)) as (r & u' & l' & k & E' & Hi' & Hn' & Hre' & Hk & Hrk & M' & Ho' & Hw'); try lia; [done|by rewrite (is_read_moved _ _ _ _ _ M)| |].
    { eapply uio_fits_moved; [|done]. by replace (sectsize + 512 * n)%nat with (512 * S n)%nat by lia. }
    exists r, u', l', (S k). split; [done|]. split_and!; try done; try congruence; try lia.
    + pose proof (uio_moved_trans _ _ _ _ _ _ _ _ M M') as MT. cbn [app] in MT. by destruct (r =? 0); match goal with |- uio_moved _ ?x _ _ _ => match type of MT with uio_moved _ ?y _ _ _ => replace x with y by lia end end.
    + intros t Ht. rewrite Ho' by (destruct (r =? 0); lia). apply Hk1. destruct (r =? 0); lia.
    + intros [|j] Hj.
      * rewrite Z.add_0_r, Ho' by lia. rewrite Hw1 by done. by rewrite Nat.mul_0_r, drop_0.
      * replace (b + i + Z.of_nat (S j)) with (b + (i + 1) + Z.of_nat j) by lia. rewrite Hw' by lia. rewrite (mv_iov _ _ _ _ _ M), drop_drop. do 2 f_equal. lia.
  - exists r, u1, l1, 0%nat. split; [done|]. rewrite (proj2 (Z.eqb_neq r 0) Hr0). split_and!; try done; try lia. intros t Ht. apply Hk1. lia.
Qed.

(** C37. The disk driver: a request that is not made of whole sectors or
    reaches past the disk is refused and changes nothing; a read delivers the
    sectors in order, up to the first that fails, and changes none; a write
    replaces the sectors in order up to the first that fails, whose data is
    consumed all the same, and touches no sector outside the request.  The
    device is free again afterwards, and success means that all was done. *)
Theorem lhd_io_spec u l :
  lhd_idle l → 0 ≤ uio_offset u < 2 ^ 40 → 0 ≤ uio_resid u < 2 ^ 32 →
  let b := uio_offset u / 512 in let n := Z.to_nat (uio_resid u / 512) in
  if decide (uio_offset u mod 512 ≠ 0 ∨ uio_resid u mod 512 ≠ 0 ∨ lh_blocks l < b + Z.of_nat n)
  then lhd_io (u, l) = Done (EINVAL, (u, l))
  else uio_fits curproc_as (512 * n) u →
    ∃ r u' l' k, lhd_io (u, l) = Done (r, (u', l')) ∧ lhd_idle l' ∧ lh_blocks l' = lh_blocks l ∧ r ∈ errors ∧ (k ≤ n)%nat ∧ (r = 0 ↔ k = n) ∧
      if is_read u
      then (∀ t, hw_sector (lh_disk l') t = hw_sector (lh_disk l) t) ∧ uio_moved curproc_as (512 * k) (concat (sectors (lh_disk l) b k)) u u'
      else (∀ t, t < b ∨ b + Z.of_nat n ≤ t → hw_sector (lh_disk l') t = hw_sector (lh_disk l) t) ∧
        (∀ j, (j < k)%nat → hw_sector (lh_disk l') (b + Z.of_nat j) = take sectsize (drop (512 * j) (concat (uio_iov u)))) ∧
        uio_moved curproc_as (512 * (if r =? 0 then n else S k)) [] u u'.
Proof.
  intros Hi Ho Hr b n. pose proof Hi as (_ & _ & _ & Hn).
  assert (Hq : Z.quot (uio_offset u) LHD_SECTSIZE = b) by (apply Z.quot_div_nonneg; unfold LHD_SECTSIZE; lia).
  assert (Hm : Z.rem (uio_offset u) LHD_SECTSIZE = uio_offset u mod 512) by (apply Z.rem_mod_nonneg; unfold LHD_SECTSIZE; lia).
  assert (Hb : 0 ≤ b < 2 ^ 31) by (unfold b; split; [apply Z.div_pos|apply Z.div_lt_upper_bound]; lia).
  assert (Hn' : 0 ≤ uio_resid u / 512 < 2 ^ 23) by (split; [apply Z.div_pos|apply Z.div_lt_upper_bound]; lia).
  pose proof (Z.mod_pos_bound (uio_offset u) 512 ltac:(lia)) as Hmb.
  assert (Hnn : Z.of_nat n = uio_resid u / 512) by (unfold n; lia).
  unfold lhd_io, getu, getl. ksteps. cbn [fst snd]. rewrite Hq, Hm. unfold LHD_SECTSIZE. rewrite (u32_small b), (u32_small (uio_offset u mod 512)) by lia.
  rewrite <- Hnn, (u32_small (b + Z.of_nat n)) by lia. rewrite Nat2Z.id.
  case_decide as Hbad.
  - destruct (Z.eqb_spec (uio_offset u mod 512) 0), (Z.eqb_spec (uio_resid u mod 512) 0); cbn [negb orb]; try done.
    rewrite (proj2 (Z.ltb_lt _ _)) by lia. done.
  - apply Decidable.not_or in Hbad as [Hb1 Hb2]. apply Decidable.not_or in Hb2 as [Hb2 Hb3]. intros Hf.
    destruct (Z.eqb_spec (uio_offset u mod 512) 0), (Z.eqb_spec (uio_resid u mod 512) 0); cbn [negb orb]; try done.
    rewrite (proj2 (Z.ltb_ge _ _)) by lia. destruct (is_read u) eqn:Hrd; cbn [negb].
    + destruct (lhd_loop_read n u l b 0) as (r & u' & l' & k & E & Hi' & Hbl & Hs & Hre & Hk & Hrk & M); try done; try lia.
      rewrite Z.add_0_r in M. exists r, u', l', k. by split_and!.
    + destruct (lhd_loop_write n u l b 0) as (r & u' & l' & k & E & Hi' & Hbl & Hre & Hk & Hrk & M & Hs & Hw); try done; try lia.
      rewrite Z.add_0_r in Hs, Hw. exists r, u', l', k. split_and!; try done. intros t Ht. apply Hs. destruct (Z.eqb_spec r 0); lia.
Qed.
End Lhd.

(** ** The disk as a block device *)

(** A drive that does what it is told. *)
Class ReliableHw (D : Type) `{DiskHw D} :=
  hw_reliable : ∀ w s b d, length b = sectsize → Z.land (hw_op w s b d).1.1 LHD_STATEMASK = LHD_OK.

#[global] Instance lhd_dev (cur : option nat) {D : Type} {HD : DiskHw D} : Device (@lhd_softc D) := {|
  d_blocks := lh_blocks;
  d_io := lhd_io cur
|}.

Section LhdDevice.
Context (cur : option nat) {D : Type} {HD : DiskHw D} {HR : ReliableHw D}.

#[global] Instance lhd_device : BlockDevice cur (@lhd_softc D) (DV := lhd_dev cur).
Proof.
  refine (Build_BlockDevice cur (@lhd_softc D) (lhd_dev cur) (λ l b, hw_sector (lh_disk l) b) lhd_idle _ _ _ _).
  - by intros l (_ & _ & _ & ?).
  - intros l b _ _. apply hw_sector_len.
  - intros l b u Hi Hb Hs Hr.
    destruct (lhd_io_read cur u l b Hi Hb Hs Hr) as (r & u' & l' & E & Hi' & Hn & Hk & _ & Er & M).
    assert (r = 0) as -> by (rewrite Er; apply errno_zero; [apply hw_codes|apply hw_reliable; apply Hi]).
    exists u', l'. by split_and!.
  - intros l b u Hi Hb Hs Hr.
    destruct (lhd_io_write cur u l b Hi Hb Hs Hr) as (r & u' & l' & E & Hi' & Hn & M & _ & Er & Hk & Hw).
    assert (r = 0) as ->.
    { rewrite Er. apply errno_zero; [apply hw_codes|apply hw_reliable]. destruct Hs as (_ & _ & _ & Hroom & _).
      unfold room in Hroom. rewrite length_take. lia. }
    exists u', l'. split_and!; try done; [by apply Hw|]. intros c _. apply Hk.
Defined.
End LhdDevice.
