(* ===== verification/SfsDisk.v ===== *)
(** * The disk format of SFS (kern/include/kern/sfs.h)

    Superblock, inode and directory entry, and how they lie in blocks of 512
    bytes: 32-bit words, most significant byte first as on MIPS.  Reading back
    what was written gives the same structure. *)

From stdpp Require Import base numbers list.
From Stdlib Require Import ZArith Lia.
From S2P Require Import Prelude.

Open Scope Z_scope.

(** ** Constants and structures *)


Definition SFS_MAGIC : Z := 2880303105.
Definition SFS_BLOCKSIZE : Z := 512.
Definition SFS_VOLNAME_SIZE : Z := 32.
Definition SFS_NDIRECT : Z := 15.
Definition SFS_DBPERIDB : Z := 128.
Definition SFS_NAMELEN : Z := 60.
Definition SFS_SB_LOCATION : Z := 0.
Definition SFS_ROOT_LOCATION : Z := 1.
Definition SFS_MAP_LOCATION : Z := 2.
Definition SFS_NOINO : Z := 0.
Definition SFS_BLOCKBITS : Z := SFS_BLOCKSIZE * 8.
Definition SFS_ROUNDUP (a b : Z) : Z := u32 (u32 (a + b - 1) / b * b).
Definition SFS_BITMAPSIZE (nblocks : Z) : Z := SFS_ROUNDUP nblocks SFS_BLOCKBITS.
Definition SFS_BITBLOCKS (nblocks : Z) : Z := SFS_BITMAPSIZE nblocks / SFS_BLOCKBITS.
Definition SFS_TYPE_INVAL : Z := 0.
Definition SFS_TYPE_FILE : Z := 1.
Definition SFS_TYPE_DIR : Z := 2.

Record sfs_super := mk_super { sp_magic : Z; sp_nblocks : Z; sp_volname : list Z; sp_reserved : list Z }.
Record sfs_inode := mk_inode {
  sfi_size : Z; sfi_type : Z; sfi_linkcount : Z; sfi_direct : list Z; sfi_indirect : Z; sfi_waste : list Z
}.
Record sfs_dir := mk_dir { sfd_ino : Z; sfd_name : list Z }.

(** Words in memory, most significant byte first. *)
Definition be32 (x : Z) : list Z := [x / 2 ^ 24 mod 256; x / 2 ^ 16 mod 256; x / 2 ^ 8 mod 256; x mod 256].
Definition word (a b c d : Z) : Z := a * 2 ^ 24 + b * 2 ^ 16 + c * 2 ^ 8 + d.
Fixpoint words_of (l : list Z) : list Z :=
  match l with a :: b :: c :: d :: l => word a b c d :: words_of l | _ => [] end.
Definition bytes_of (ws : list Z) : list Z := concat (be32 <$> ws).

Definition inode_words (i : sfs_inode) : list Z :=
  sfi_size i :: (sfi_type i * 2 ^ 16 + sfi_linkcount i) :: sfi_direct i ++ sfi_indirect i :: sfi_waste i.
Definition inode_of (ws : list Z) : sfs_inode :=
  let w i := default 0 (ws !! i) in
  mk_inode (w 0%nat) (w 1%nat / 2 ^ 16) (w 1%nat mod 2 ^ 16) (take 15 (drop 2 ws)) (w 17%nat) (drop 18 ws).
Definition super_bytes (sp : sfs_super) : list Z :=
  be32 (sp_magic sp) ++ be32 (sp_nblocks sp) ++ sp_volname sp ++ sp_reserved sp.
Definition super_of (b : list Z) : sfs_super :=
  let ws := words_of b in
  mk_super (default 0 (ws !! 0%nat)) (default 0 (ws !! 1%nat)) (take 32 (drop 8 b)) (drop 40 b).
Definition dir_bytes (sd : sfs_dir) : list Z := be32 (sfd_ino sd) ++ sfd_name sd.
Definition dir_of (b : list Z) : sfs_dir := mk_dir (default 0 (words_of b !! 0%nat)) (drop 4 b).

Definition set_size z i := mk_inode z (sfi_type i) (sfi_linkcount i) (sfi_direct i) (sfi_indirect i) (sfi_waste i).
Definition set_type t i := mk_inode (sfi_size i) t (sfi_linkcount i) (sfi_direct i) (sfi_indirect i) (sfi_waste i).
Definition set_linkcount n i := mk_inode (sfi_size i) (sfi_type i) n (sfi_direct i) (sfi_indirect i) (sfi_waste i).
Definition set_direct k b i := mk_inode (sfi_size i) (sfi_type i) (sfi_linkcount i) (<[k := b]> (sfi_direct i)) (sfi_indirect i) (sfi_waste i).
Definition set_indirect b i := mk_inode (sfi_size i) (sfi_type i) (sfi_linkcount i) (sfi_direct i) b (sfi_waste i).


(** ** Reading back what was written *)

Definition is_u32 (x : Z) : Prop := 0 ≤ x < 2 ^ 32.

Record inode_wf (i : sfs_inode) : Prop := {
  iw_size : is_u32 (sfi_size i);
  iw_type : 0 ≤ sfi_type i < 2 ^ 16;
  iw_linkcount : 0 ≤ sfi_linkcount i < 2 ^ 16;
  iw_direct_len : length (sfi_direct i) = 15%nat;
  iw_direct : Forall is_u32 (sfi_direct i);
  iw_indirect : is_u32 (sfi_indirect i);
  iw_waste_len : length (sfi_waste i) = 110%nat;
  iw_waste : Forall is_u32 (sfi_waste i)
}.
Record super_wf (sp : sfs_super) : Prop := {
  spw_magic : is_u32 (sp_magic sp);
  spw_nblocks : is_u32 (sp_nblocks sp);
  spw_volname : length (sp_volname sp) = 32%nat;
  spw_reserved : length (sp_reserved sp) = 472%nat
}.
Definition dir_wf (sd : sfs_dir) : Prop := is_u32 (sfd_ino sd) ∧ length (sfd_name sd) = 60%nat.

Lemma word_be32 x : is_u32 x →
  word (x / 2 ^ 24 mod 256) (x / 2 ^ 16 mod 256) (x / 2 ^ 8 mod 256) (x mod 256) = x.
Proof.
  unfold is_u32, word. intros Hx. change (2 ^ 24) with (256 * (256 * 256)). change (2 ^ 16) with (256 * 256).
  change (2 ^ 8) with 256. rewrite <- !Z.div_div by lia.
  set (x1 := x / 256). set (x2 := x1 / 256). set (x3 := x2 / 256).
  pose proof (Z.div_mod x 256). pose proof (Z.div_mod x1 256). pose proof (Z.div_mod x2 256).
  assert (x3 < 256) by (repeat apply Z.div_lt_upper_bound; lia).
  assert (0 ≤ x3) by (repeat apply Z.div_pos; lia).
  rewrite (Z.mod_small x3) by lia. lia.
Qed.

Lemma words_of_bytes_app ws l : Forall is_u32 ws → words_of (bytes_of ws ++ l) = ws ++ words_of l.
Proof.
  unfold bytes_of. induction 1 as [|x ws Hx _ IH]; [done|]. cbn [fmap list_fmap concat be32 app words_of].
  rewrite word_be32, IH by done. done.
Qed.
Lemma words_of_bytes ws : Forall is_u32 ws → words_of (bytes_of ws) = ws.
Proof. intros H. rewrite <- (app_nil_r (bytes_of ws)), words_of_bytes_app by done. apply app_nil_r. Qed.
Lemma length_bytes_of ws : length (bytes_of ws) = (4 * length ws)%nat.
Proof. unfold bytes_of. induction ws as [|x ws IH]; [done|]. cbn [fmap list_fmap concat be32 app length]. rewrite IH. lia. Qed.
Lemma words_of_zeros n : words_of (replicate (4 * n) 0) = replicate n 0.
Proof.
  induction n as [|n IH]; [done|]. replace (4 * S n)%nat with (S (S (S (S (4 * n))))) by lia.
  cbn [replicate words_of]. by rewrite IH.
Qed.
Lemma length_words_of l n : length l = (4 * n)%nat → length (words_of l) = n.
Proof.
  revert l. induction n as [|n IH]; intros l Hl; [by destruct l|].
  destruct l as [|a [|b [|c [|d l]]]]; cbn [length] in Hl; try lia. cbn [words_of length]. rewrite IH; lia.
Qed.

Lemma inode_words_length i : inode_wf i → length (inode_words i) = 128%nat.
Proof. intros []. unfold inode_words. cbn [length]. rewrite length_app. cbn [length]. lia. Qed.
Lemma inode_words_range i : inode_wf i → Forall is_u32 (inode_words i).
Proof.
  intros []. unfold inode_words. constructor; [done|]. constructor; [unfold is_u32; lia|].
  apply Forall_app. split; [done|]. by constructor.
Qed.
Lemma inode_of_words i : inode_wf i → inode_of (inode_words i) = i.
Proof.
  intros []. destruct i as [sz ty lc di ind wa]. cbn in *. unfold inode_of, inode_words. cbn [sfi_size sfi_type sfi_linkcount sfi_direct sfi_indirect sfi_waste].
  f_equal.
  - cbn. rewrite Z.div_add_l by lia. rewrite Z.div_small by lia. lia.
  - cbn. rewrite Z.add_comm, Z.mod_add by lia. apply Z.mod_small. lia.
  - rewrite !skipn_cons, drop_0. by rewrite take_app_length' by lia.
  - change (default 0 ((di ++ ind :: wa) !! 15%nat) = ind). rewrite lookup_app_r by lia. by rewrite iw_direct_len0.
  - rewrite !skipn_cons. replace 16%nat with (length di + 1)%nat by lia. by rewrite drop_app_add.
Qed.

Lemma dir_bytes_wf sd : dir_wf sd → length (dir_bytes sd) = 64%nat ∧ dir_of (dir_bytes sd) = sd.
Proof.
  destruct sd as [ino nm]. intros [Hi Hn]. cbn in Hi, Hn. unfold dir_bytes, dir_of. cbn [sfd_ino sfd_name be32 app length words_of].
  split; [lia|]. change (mk_dir (word (ino / 2 ^ 24 mod 256) (ino / 2 ^ 16 mod 256) (ino / 2 ^ 8 mod 256) (ino mod 256)) nm = mk_dir ino nm).
  by rewrite word_be32.
Qed.

Lemma super_bytes_wf sp : super_wf sp → length (super_bytes sp) = 512%nat ∧ super_of (super_bytes sp) = sp.
Proof.
  destruct sp as [mg nb vn rs]. intros []. cbn in *. unfold super_bytes, super_of. cbn [sp_magic sp_nblocks sp_volname sp_reserved].
  rewrite !length_app. split; [cbn [length be32]; lia|]. cbn [be32 app words_of skipn].
  change (mk_super (word (mg / 2 ^ 24 mod 256) (mg / 2 ^ 16 mod 256) (mg / 2 ^ 8 mod 256) (mg mod 256))
    (word (nb / 2 ^ 24 mod 256) (nb / 2 ^ 16 mod 256) (nb / 2 ^ 8 mod 256) (nb mod 256)) (take 32 (vn ++ rs)) (drop 32 (vn ++ rs)) = mk_super mg nb vn rs).
  rewrite !word_be32 by done. f_equal; [by rewrite take_app_length' by lia|].
  by rewrite <- spw_volname0, drop_app_length.
Qed.

(** The disk format loses nothing: an inode, a superblock or a directory
    entry whose fields have the widths the format gives them takes exactly its
    512 or 64 bytes and is the same when it is read back; so are the block
    numbers of an indirect block. *)
Theorem disk_format_roundtrips :
  (∀ i, inode_wf i → length (bytes_of (inode_words i)) = 512%nat ∧ inode_of (words_of (bytes_of (inode_words i))) = i) ∧
  (∀ sp, super_wf sp → length (super_bytes sp) = 512%nat ∧ super_of (super_bytes sp) = sp) ∧
  (∀ sd, dir_wf sd → length (dir_bytes sd) = 64%nat ∧ dir_of (dir_bytes sd) = sd) ∧
  (∀ ws, length ws = 128%nat → Forall is_u32 ws → length (bytes_of ws) = 512%nat ∧ words_of (bytes_of ws) = ws).
Proof.
  split; [|split; [|split]].
  - intros i Hi. rewrite length_bytes_of, words_of_bytes, inode_words_length, inode_of_words; auto using inode_words_range.
  - apply super_bytes_wf.
  - apply dir_bytes_wf.
  - intros ws Hl Hw. rewrite length_bytes_of, words_of_bytes by done. split; [lia|done].
Qed.

Definition an_inode : sfs_inode := mk_inode 70000 SFS_TYPE_FILE 2 ([5; 9; 700000] ++ replicate 12 0) 8 (replicate 110 0).
Lemma an_inode_wf : inode_wf an_inode.
Proof. split; try done; repeat (apply Forall_cons_2 || apply Forall_nil_2 || apply Forall_replicate); done. Qed.

Lemma disk_format_roundtrips_witness :
  inode_wf an_inode ∧ inode_of (words_of (bytes_of (inode_words an_inode))) = an_inode.
Proof. split; [apply an_inode_wf|]. destruct disk_format_roundtrips as [H _]. apply H, an_inode_wf. Defined.
