(* ===== verification/Sfs.v ===== *)
(** * The file system SFS: definitions (kern/fs/sfs, kern/vfs/vnode.c)

    The mounted file system as one state: superblock, free map, the table of
    loaded vnodes, the device.  A vnode is named by a number that stands for
    its address.  Whether an allocation succeeds is an input.  The big lock is
    held through each operation, so an operation is one step of the state. *)

From stdpp Require Import base numbers list gmap.
From Stdlib Require Import ZArith Lia.
From S2P Require Import Prelude CString Bitmap Uio Device SfsDisk.

Open Scope Z_scope.
Open Scope kernel_scope.

(** ** State *)


(** The two tables of operations. *)
Inductive sfs_ops := sfs_fileops | sfs_dirops.

Record sfs_vnode := mk_vnode {
  sv_i : sfs_inode;
  sv_ino : Z;
  sv_dirty : bool;
  vn_refcount : Z;
  vn_opencount : Z;
  vn_ops : sfs_ops
}.
Definition set_i i sv := mk_vnode i (sv_ino sv) (sv_dirty sv) (vn_refcount sv) (vn_opencount sv) (vn_ops sv).
Definition set_dirty d sv := mk_vnode (sv_i sv) (sv_ino sv) d (vn_refcount sv) (vn_opencount sv) (vn_ops sv).
Definition set_refcount n sv := mk_vnode (sv_i sv) (sv_ino sv) (sv_dirty sv) n (vn_opencount sv) (vn_ops sv).
Definition set_opencount n sv := mk_vnode (sv_i sv) (sv_ino sv) (sv_dirty sv) (vn_refcount sv) n (vn_ops sv).
(** A change to the inode, which makes it dirty. *)
Definition touch (f : sfs_inode → sfs_inode) (sv : sfs_vnode) : sfs_vnode := set_dirty true (set_i (f (sv_i sv)) sv).

Section Sfs.
Context (cur : option nat) {D : Type} {DV : Device D}.

Record sfs_fs := mk_fs {
  fs_super : sfs_super;
  fs_superdirty : bool;
  fs_freemap : bitmap;
  fs_freemapdirty : bool;
  fs_vnodes : list nat;                (** the table of loaded vnodes *)
  fs_vn : gmap nat sfs_vnode;          (** vnodes in memory *)
  fs_next : nat;                       (** addresses from here on are unused *)
  fs_oom : list bool;                  (** which of the next allocations fail *)
  fs_dev : D;
  fs_depth : Z                         (** depth of the big lock *)
}.
Definition set_super x s := mk_fs x (fs_superdirty s) (fs_freemap s) (fs_freemapdirty s) (fs_vnodes s) (fs_vn s) (fs_next s) (fs_oom s) (fs_dev s) (fs_depth s).
Definition set_superdirty x s := mk_fs (fs_super s) x (fs_freemap s) (fs_freemapdirty s) (fs_vnodes s) (fs_vn s) (fs_next s) (fs_oom s) (fs_dev s) (fs_depth s).
Definition set_freemap x s := mk_fs (fs_super s) (fs_superdirty s) x (fs_freemapdirty s) (fs_vnodes s) (fs_vn s) (fs_next s) (fs_oom s) (fs_dev s) (fs_depth s).
Definition set_freemapdirty x s := mk_fs (fs_super s) (fs_superdirty s) (fs_freemap s) x (fs_vnodes s) (fs_vn s) (fs_next s) (fs_oom s) (fs_dev s) (fs_depth s).
Definition set_vnodes x s := mk_fs (fs_super s) (fs_superdirty s) (fs_freemap s) (fs_freemapdirty s) x (fs_vn s) (fs_next s) (fs_oom s) (fs_dev s) (fs_depth s).
Definition set_vn x s := mk_fs (fs_super s) (fs_superdirty s) (fs_freemap s) (fs_freemapdirty s) (fs_vnodes s) x (fs_next s) (fs_oom s) (fs_dev s) (fs_depth s).
Definition set_next x s := mk_fs (fs_super s) (fs_superdirty s) (fs_freemap s) (fs_freemapdirty s) (fs_vnodes s) (fs_vn s) x (fs_oom s) (fs_dev s) (fs_depth s).
Definition set_oom x s := mk_fs (fs_super s) (fs_superdirty s) (fs_freemap s) (fs_freemapdirty s) (fs_vnodes s) (fs_vn s) (fs_next s) x (fs_dev s) (fs_depth s).
Definition set_dev x s := mk_fs (fs_super s) (fs_superdirty s) (fs_freemap s) (fs_freemapdirty s) (fs_vnodes s) (fs_vn s) (fs_next s) (fs_oom s) x (fs_depth s).
Definition set_depth x s := mk_fs (fs_super s) (fs_superdirty s) (fs_freemap s) (fs_freemapdirty s) (fs_vnodes s) (fs_vn s) (fs_next s) (fs_oom s) (fs_dev s) x.

Abbreviation F := (K sfs_fs).
(** A result that may be an error number. *)
Abbreviation res A := (Z + A)%type.

Definition ebind {A B} (c : F (res A)) (f : A → F (res B)) : F (res B) :=
  r <- c ;; match r with inl e => kret (inl e) | inr a => f a end.

Definition getvn (v : nat) : F sfs_vnode := m <- kgets fs_vn ;; kderef (m !! v).
Definition modvn (v : nat) (f : sfs_vnode → sfs_vnode) : F unit :=
  sv <- getvn v ;; kmodify (λ s, set_vn (<[v := f sv]> (fs_vn s)) s).
Definition nblocks (s : sfs_fs) : Z := sp_nblocks (fs_super s).

(** The big lock is recursive; the thread has it when its depth is positive. *)
Definition vfs_biglock_acquire : F unit := kmodify (λ s, set_depth (fs_depth s + 1) s).
Definition vfs_biglock_release : F unit :=
  n <- kgets fs_depth ;; kassert (0 <? n) ;; kmodify (set_depth (n - 1)).
Definition locked {A} (c : F A) : F A :=
  vfs_biglock_acquire ;; a <- c ;; vfs_biglock_release ;; kret a.

(** ** Blocks (sfs_io.c) *)

(** [tries] calls may still be repeated. *)
Fixpoint rw_retry (tries : nat) (u : uio) : F (Z * uio) :=
  result <- (λ s, match d_io (u, fs_dev s) with
                  | Done (result, (u, d)) => Done ((result, u), set_dev d s)
                  | Panic => Panic
                  | Undef => Undef
                  | Hang => Hang
                  end) ;;
  let '(result, u) := result in
  if result =? EINVAL then kpanic
  else if result =? EIO then
    match tries with
    | O => kret (result, u)
    | S tries => rw_retry tries u
    end
  else kret (result, u).

Definition sfs_rwblock (u : uio) : F (Z * uio) :=
  n <- kgets fs_depth ;;
  kassert (0 <? n) ;;
  rw_retry 10 u.

(** [SFSUIO]; a read gives the bytes that were delivered. *)
Definition sfs_rblock (block : Z) : F (res (list Z)) :=
  let* (result, u) := sfs_rwblock (uio_kinit (replicate 512 0) (block * SFS_BLOCKSIZE) UIO_READ) in
  kret (if negb (result =? 0) then inl result else inr (uio_done u)).
Definition sfs_wblock (data : list Z) (block : Z) : F Z :=
  let* (result, u) := sfs_rwblock (uio_kinit data (block * SFS_BLOCKSIZE) UIO_WRITE) in
  kret result.

(** ** Simple stuff, space allocation *)

Definition sfs_clearblock (block : Z) : F Z := sfs_wblock (replicate 512 0) block.

Definition sfs_sync_inode (v : nat) : F Z :=
  sv <- getvn v ;;
  if sv_dirty sv then
    result <- sfs_wblock (bytes_of (inode_words (sv_i sv))) (sv_ino sv) ;;
    if negb (result =? 0) then kret result
    else modvn v (set_dirty false) ;; kret 0
  else kret 0.

Definition sfs_balloc : F (res Z) :=
  r <- kzoom fs_freemap set_freemap bitmap_alloc ;;
  match r with
  | inl e => kret (inl e)
  | inr block =>
      kmodify (set_freemapdirty true) ;;
      n <- kgets nblocks ;;
      if n <=? block then kpanic
      else
        result <- sfs_clearblock block ;;
        kret (if negb (result =? 0) then inl result else inr block)
  end.

Definition sfs_bfree (block : Z) : F unit :=
  kzoom fs_freemap set_freemap (bitmap_unmark block) ;;
  kmodify (set_freemapdirty true).

Definition sfs_bused (block : Z) : F bool :=
  n <- kgets nblocks ;;
  if n <=? block then kpanic
  else
    r <- kzoom fs_freemap set_freemap (bitmap_isset block) ;;
    kret (negb (r =? 0)).

(** ** Block mapping *)

(** The end of [sfs_bmap]: a block that is handed back must be in use. *)
Definition hand_back (block : Z) : F (res Z) :=
  if negb (block =? 0) then
    used <- sfs_bused block ;; if used : bool then kret (inr block) else kpanic
  else kret (inr block).

(** The number and the contents of the indirect block, which is allocated
    when there is none. *)
Definition indirect_block (v : nat) (idblock : Z) : F (res (Z * list Z)) :=
  if idblock =? 0 then
    ebind sfs_balloc (λ idblock,
      modvn v (touch (set_indirect idblock)) ;;
      kret (inr (idblock, replicate 128 0)))
  else
    ebind (sfs_rblock idblock) (λ b, kret (inr (idblock, words_of b))).

(** The block at an offset of the indirect block. *)
Definition indirect_entry (idblock : Z) (idbuf : list Z) (idoff : Z) (doalloc : bool) : F (res Z) :=
  block <- kderef (idbuf !! Z.to_nat idoff) ;;
  if (block =? 0) && doalloc then
    ebind sfs_balloc (λ block,
      result <- sfs_wblock (bytes_of (<[Z.to_nat idoff := block]> idbuf)) idblock ;;
      if negb (result =? 0) then kret (inl result) else hand_back block)
  else hand_back block.

Definition sfs_bmap (v : nat) (fileblock : Z) (doalloc : bool) : F (res Z) :=
  sv <- getvn v ;;
  if fileblock <? SFS_NDIRECT then
    block <- kderef (sfi_direct (sv_i sv) !! Z.to_nat fileblock) ;;
    if (block =? 0) && doalloc then
      ebind sfs_balloc (λ block,
        modvn v (touch (set_direct (Z.to_nat fileblock) block)) ;;
        hand_back block)
    else hand_back block
  else
    let fileblock := fileblock - SFS_NDIRECT in
    let idnum := fileblock / SFS_DBPERIDB in
    let idoff := fileblock mod SFS_DBPERIDB in
    if 0 <? idnum then kret (inl EFBIG)
    else
      let idblock := sfi_indirect (sv_i sv) in
      if (idblock =? 0) && negb doalloc then kret (inr 0)
      else
        ebind (indirect_block v idblock) (λ '(idblock, idbuf), indirect_entry idblock idbuf idoff doalloc).

(** ** File-level I/O *)

(** Each gives the result and the descriptor after it. *)
Definition move (buf : list Z) (u : uio) : F (Z * list Z * uio) := λ s,
  match uiomove cur (buf, u) with
  | Done (result, (buf, u)) => Done ((result, buf, u), s)
  | Panic => Panic
  | Undef => Undef
  | Hang => Hang
  end.
Definition move_zeros (n : Z) (u : uio) : F (Z * uio) := λ s,
  match uiomovezeros cur n u with
  | Done (result, u) => Done ((result, u), s)
  | Panic => Panic
  | Undef => Undef
  | Hang => Hang
  end.

Definition sfs_partialio (v : nat) (u : uio) (skipstart len : Z) : F (Z * uio) :=
  let doalloc := negb (is_read u) in
  kassert (u32 (skipstart + len) <=? SFS_BLOCKSIZE) ;;
  let fileblock := u32 (Z.quot (uio_offset u) SFS_BLOCKSIZE) in
  r <- sfs_bmap v fileblock doalloc ;;
  match r with
  | inl e => kret (e, u)
  | inr diskblock =>
      r <- (if diskblock =? 0 then kassert (is_read u) ;; kret (inr (replicate 512 0))
            else sfs_rblock diskblock) ;;
      match r with
      | inl e => kret (e, u)
      | inr iobuf =>
          let pre := take (Z.to_nat skipstart) iobuf in
          let post := drop (Z.to_nat (skipstart + len)) iobuf in
          let* (result, part, u) := move (take (Z.to_nat len) (drop (Z.to_nat skipstart) iobuf)) u in
          if negb (result =? 0) then kret (result, u)
          else if is_read u then kret (0, u)
          else
            result <- sfs_wblock (pre ++ part ++ post) diskblock ;;
            kret (result, u)
      end
  end.

Definition sfs_blockio (v : nat) (u : uio) : F (Z * uio) :=
  let doalloc := negb (is_read u) in
  let fileblock := u32 (Z.quot (uio_offset u) SFS_BLOCKSIZE) in
  r <- sfs_bmap v fileblock doalloc ;;
  match r with
  | inl e => kret (e, u)
  | inr diskblock =>
      if diskblock =? 0 then
        kassert (is_read u) ;;
        move_zeros SFS_BLOCKSIZE u
      else
        let saveoff := uio_offset u in
        let diskoff := u32 (diskblock * SFS_BLOCKSIZE) in
        kassert (SFS_BLOCKSIZE <=? uio_resid u) ;;
        let saveres := uio_resid u in
        let* (result, u) := sfs_rwblock (set_resid SFS_BLOCKSIZE (set_offset diskoff u)) in
        kret (result, set_resid (u32 (uio_resid u - SFS_BLOCKSIZE + saveres))
                        (set_offset (i64 (uio_offset u - diskoff + saveoff)) u))
  end.

Fixpoint blocks_loop (v : nat) (k : nat) (u : uio) : F (Z * uio) :=
  match k with
  | O => kret (0, u)
  | S k =>
      let* (result, u) := sfs_blockio v u in
      if negb (result =? 0) then kret (result, u) else blocks_loop v k u
  end.

(** The transfer proper, up to the label [out]. *)
Definition io_body (v : nat) (u : uio) : F (Z * uio) :=
  let blkoff := u32 (Z.rem (uio_offset u) SFS_BLOCKSIZE) in
  let* (result, u) :=
    (if negb (blkoff =? 0) then
       let len := SFS_BLOCKSIZE - blkoff in
       let len := if uio_resid u <? len then uio_resid u else len in
       sfs_partialio v u blkoff len
     else kret (0, u)) in
  if negb (result =? 0) then kret (result, u)
  else if uio_resid u =? 0 then kret (0, u)
  else
    kassert (Z.rem (uio_offset u) SFS_BLOCKSIZE =? 0) ;;
    let* (result, u) := blocks_loop v (Z.to_nat (uio_resid u / SFS_BLOCKSIZE)) u in
    if negb (result =? 0) then kret (result, u)
    else
      kassert (uio_resid u <? SFS_BLOCKSIZE) ;;
      if 0 <? uio_resid u then sfs_partialio v u 0 (uio_resid u) else kret (0, u).

Definition sfs_io (v : nat) (u : uio) : F (Z * uio) :=
  sv <- getvn v ;;
  let size := sfi_size (sv_i sv) in
  let endpos := uio_offset u + uio_resid u in
  if is_read u && (size <=? uio_offset u) then kret (0, u)
  else
    let extraresid := if is_read u && (size <? endpos) then u32 (endpos - size) else 0 in
    (if is_read u && (size <? endpos) then kassert (extraresid <? uio_resid u) else kret tt) ;;
    let* (result, u) := io_body v (set_resid (uio_resid u - extraresid) u) in
    sv <- getvn v ;;
    (if negb (is_read u) && (sfi_size (sv_i sv) <? uio_offset u)
     then modvn v (touch (set_size (u32 (uio_offset u)))) else kret tt) ;;
    kret (result, set_resid (u32 (uio_resid u + extraresid)) u).

(** ** Directories *)

Definition sizeof_dir : Z := 64.

(** An entry read into a variable that holds 64 bytes. *)
Definition sfs_readdir (v : nat) (slot : Z) : F (res sfs_dir) :=
  let actualpos := u32 (slot * sizeof_dir) in
  let* (result, u) := sfs_io v (uio_kinit (replicate 64 0) actualpos UIO_READ) in
  if negb (result =? 0) then kret (inl result)
  else if 0 <? uio_resid u then kpanic
  else kret (inr (dir_of (uio_done u))).

Definition sfs_writedir (v : nat) (sd : sfs_dir) (slot : Z) : F Z :=
  kassert (0 <=? slot) ;;
  let actualpos := u32 (slot * sizeof_dir) in
  let* (result, u) := sfs_io v (uio_kinit (dir_bytes sd) actualpos UIO_WRITE) in
  if negb (result =? 0) then kret result
  else if 0 <? uio_resid u then kpanic
  else kret 0.

Definition sfs_dir_nentries (v : nat) : F Z :=
  sv <- getvn v ;;
  kassert (sfi_type (sv_i sv) =? SFS_TYPE_DIR) ;;
  let size := sfi_size (sv_i sv) in
  if negb (size mod sizeof_dir =? 0) then kpanic
  else kret (size / sizeof_dir).

(** The bytes of a name up to its NUL; the last byte of an entry's name counts
    as NUL. *)
Definition name_str (name : list Z) : list Z := takew (λ c, c =? 0) (<[59%nat := 0]> name).

(** The search: where the name was found, with its inode, and the last empty
    slot. *)
Fixpoint find_loop (v : nat) (name : list Z) (i : Z) (k : nat) (found : option (Z * Z)) (empty : option Z)
    : F (res (option (Z * Z) * option Z)) :=
  match k with
  | O => kret (inr (found, empty))
  | S k =>
      ebind (sfs_readdir v i) (λ tsd,
        if sfd_ino tsd =? SFS_NOINO then find_loop v name (i + 1) k found (Some i)
        else if bool_decide (name_str (sfd_name tsd) = name) then
          kassert (match found with None => true | Some _ => false end) ;;
          find_loop v name (i + 1) k (Some (i, sfd_ino tsd)) empty
        else find_loop v name (i + 1) k found empty)
  end.

(** [sfs_dir_findname] also gives the empty slot when it does not find the
    name, as its callers need: not found is [None]. *)
Definition sfs_dir_findname (v : nat) (name : list Z) : F (res (option (Z * Z) * option Z)) :=
  n <- sfs_dir_nentries v ;; find_loop v name 0 (Z.to_nat n) None None.

Definition sfs_dir_link (v : nat) (name : list Z) (ino : Z) : F (res Z) :=
  ebind (sfs_dir_findname v name) (λ '(found, empty),
    match found with
    | Some _ => kret (inl EEXIST)
    | None =>
        if SFS_NAMELEN <? Z.of_nat (length name) + 1 then kret (inl ENAMETOOLONG)
        else
          slot <- match empty with Some i => kret i | None => sfs_dir_nentries v end ;;
          let sd := mk_dir ino (name ++ replicate (60 - length name) 0) in
          result <- sfs_writedir v sd slot ;;
          kret (if negb (result =? 0) then inl result else inr slot)
    end).

Definition sfs_dir_unlink (v : nat) (slot : Z) : F Z :=
  sfs_writedir v (mk_dir SFS_NOINO (replicate 60 0)) slot.

(** ** Truncation *)

Fixpoint free_direct (v : nat) (blocklen i : Z) (k : nat) : F unit :=
  match k with
  | O => kret tt
  | S k =>
      sv <- getvn v ;;
      block <- kderef (sfi_direct (sv_i sv) !! Z.to_nat i) ;;
      (if (blocklen <=? i) && negb (block =? 0) then
         sfs_bfree block ;;
         modvn v (touch (set_direct (Z.to_nat i) 0))
       else kret tt) ;;
      free_direct v blocklen (i + 1) k
  end.

(** The indirect block as it is left, whether it has a block, whether it changed. *)
Fixpoint free_indirect (blocklen baseblock j : Z) (idbuf : list Z) : F (list Z * bool * bool) :=
  match idbuf with
  | [] => kret ([], false, false)
  | b :: idbuf =>
      let cut := (blocklen <? baseblock + j) && negb (b =? 0) in
      (if cut : bool then sfs_bfree b else kret tt) ;;
      let b := if cut then 0 else b in
      let* (rest, nonzero, dirty) := free_indirect blocklen baseblock (j + 1) idbuf in
      kret (b :: rest, negb (b =? 0) || nonzero, cut || dirty)
  end.

(** The part that goes through the indirect block. *)
Definition truncate_indirect (v : nat) (blocklen : Z) : F Z :=
  sv <- getvn v ;;
  let idblock := sfi_indirect (sv_i sv) in
  let baseblock := SFS_NDIRECT in
  let highblock := baseblock + SFS_DBPERIDB - 1 in
  if (blocklen <? highblock) && negb (idblock =? 0) then
    r <- sfs_rblock idblock ;;
    match r with
    | inl e => kret e
    | inr b =>
        let* (idbuf, hasnonzero, iddirty) := free_indirect blocklen baseblock 0 (words_of b) in
        if negb hasnonzero then
          sfs_bfree idblock ;;
          modvn v (touch (set_indirect 0)) ;;
          kret 0
        else if iddirty : bool then sfs_wblock (bytes_of idbuf) idblock
        else kret 0
    end
  else kret 0.

Definition sfs_truncate (v : nat) (len : Z) : F Z :=
  let blocklen := u32 (Z.quot (len + SFS_BLOCKSIZE - 1) SFS_BLOCKSIZE) in
  locked (
    free_direct v blocklen 0 (Z.to_nat SFS_NDIRECT) ;;
    result <- truncate_indirect v blocklen ;;
    if negb (result =? 0) then kret result
    else modvn v (touch (set_size (u32 len))) ;; kret 0).

(** ** Vnodes *)

Definition next_alloc : F bool := λ s,
  Done (match fs_oom s with b :: _ => negb b | [] => true end,
        set_oom (tail (fs_oom s)) s).

(** The search of the table; every inode in it must be in a used block. *)
Fixpoint find_vnode (ino : Z) (vs : list nat) : F (option nat) :=
  match vs with
  | [] => kret None
  | v :: vs =>
      sv <- getvn v ;;
      used <- sfs_bused (sv_ino sv) ;;
      if negb used then kpanic
      else if sv_ino sv =? ino then kret (Some v) else find_vnode ino vs
  end.

Definition vnode_init (i : sfs_inode) (ino : Z) (dirty : bool) (ops : sfs_ops) : sfs_vnode :=
  mk_vnode i ino dirty 1 0 ops.
Definition vnode_cleanup (v : nat) : F unit :=
  sv <- getvn v ;;
  kassert (vn_refcount sv =? 1) ;;
  kassert (vn_opencount sv =? 0).

Definition vnode_incref (v : nat) : F unit :=
  locked (modvn v (λ sv, set_refcount (vn_refcount sv + 1) sv)).

Definition sfs_loadvnode (ino : Z) (forcetype : Z) : F (res nat) :=
  vs <- kgets fs_vnodes ;;
  found <- find_vnode ino vs ;;
  match found with
  | Some v =>
      kassert (forcetype =? SFS_TYPE_INVAL) ;;
      vnode_incref v ;;
      kret (inr v)
  | None =>
      ok <- next_alloc ;;
      if negb ok then kret (inl ENOMEM)
      else
        used <- sfs_bused ino ;;
        if negb used then kpanic
        else
          ebind (sfs_rblock ino) (λ b,
            let i := inode_of (words_of b) in
            kassert ((forcetype =? SFS_TYPE_INVAL) || (sfi_type i =? SFS_TYPE_INVAL)) ;;
            let '(i, dirty) := if forcetype =? SFS_TYPE_INVAL then (i, false) else (set_type forcetype i, true) in
            match (if sfi_type i =? SFS_TYPE_FILE then Some sfs_fileops
                   else if sfi_type i =? SFS_TYPE_DIR then Some sfs_dirops else None) with
            | None => kpanic
            | Some ops =>
                let sv := vnode_init i ino dirty ops in
                ok <- next_alloc ;;
                if negb ok then kret (inl ENOMEM)
                else
                  v <- kgets fs_next ;;
                  kmodify (λ s, set_next (S v) (set_vnodes (fs_vnodes s ++ [v]) (set_vn (<[v := sv]> (fs_vn s)) s))) ;;
                  kret (inr v)
            end)
  end.

Definition sfs_lookonce (v : nat) (name : list Z) : F (res (nat * Z)) :=
  ebind (sfs_dir_findname v name) (λ '(found, _),
    match found with
    | None => kret (inl ENOENT)
    | Some (slot, ino) =>
        ebind (sfs_loadvnode ino SFS_TYPE_INVAL) (λ w,
          sv <- getvn w ;;
          if sfi_linkcount (sv_i sv) =? 0 then kpanic else kret (inr (w, slot)))
    end).

Definition sfs_makeobj (type : Z) : F (res nat) :=
  ebind sfs_balloc (λ ino, sfs_loadvnode ino type).

(** [vnode_check], before each call through a table of operations. *)
Definition vnode_check (reclaim : bool) (v : nat) : F unit :=
  locked (
    sv <- getvn v ;;
    kassert (0 <=? vn_refcount sv) ;;
    kassert (negb (vn_refcount sv =? 0) || reclaim) ;;
    kassert (0 <=? vn_opencount sv)).

(** A call through the table: what a file does, what a directory does. *)
Definition vop {A} (v : nat) (file dir : F A) : F A :=
  vnode_check false v ;;
  sv <- getvn v ;;
  match vn_ops sv with sfs_fileops => file | sfs_dirops => dir end.

Definition vop_truncate (v : nat) (len : Z) : F Z := vop v (sfs_truncate v len) (kret EISDIR).

Definition sfs_reclaim (v : nat) : F Z :=
  locked (
    sv <- getvn v ;;
    if negb (vn_refcount sv =? 1) then
      kassert (1 <? vn_refcount sv) ;;
      modvn v (λ sv, set_refcount (vn_refcount sv - 1) sv) ;;
      kret EBUSY
    else
      result <- (if sfi_linkcount (sv_i sv) =? 0 then vop_truncate v 0 else kret 0) ;;
      if negb (result =? 0) then kret result
      else
        result <- sfs_sync_inode v ;;
        if negb (result =? 0) then kret result
        else
          sv <- getvn v ;;
          (if sfi_linkcount (sv_i sv) =? 0 then sfs_bfree (sv_ino sv) else kret tt) ;;
          vs <- kgets fs_vnodes ;;
          match list_find (eq v) vs with
          | None => kpanic
          | Some (ix, _) =>
              kmodify (set_vnodes (take ix vs ++ drop (S ix) vs)) ;;
              vnode_cleanup v ;;
              kmodify (λ s, set_vn (delete v (fs_vn s)) s) ;;
              kret 0
          end).

Definition vnode_decref (v : nat) : F unit :=
  locked (
    sv <- getvn v ;;
    kassert (0 <? vn_refcount sv) ;;
    if 1 <? vn_refcount sv then modvn v (λ sv, set_refcount (vn_refcount sv - 1) sv)
    else vnode_check true v ;; result <- sfs_reclaim v ;; kret tt).

Definition vnode_incopen (v : nat) : F unit :=
  locked (modvn v (λ sv, set_opencount (vn_opencount sv + 1) sv)).

Definition sfs_fsync (v : nat) : F Z := locked (sfs_sync_inode v).
Definition vop_fsync (v : nat) : F Z := vop v (sfs_fsync v) (sfs_fsync v).
Definition sfs_close (v : nat) : F Z := vop_fsync v.
Definition vop_close (v : nat) : F Z := vop v (sfs_close v) (sfs_close v).

Definition vnode_decopen (v : nat) : F unit :=
  locked (
    sv <- getvn v ;;
    kassert (0 <? vn_opencount sv) ;;
    modvn v (λ sv, set_opencount (vn_opencount sv - 1) sv) ;;
    if 0 <? vn_opencount sv - 1 then kret tt
    else result <- vop_close v ;; kret tt).

(** ** Vnode operations *)

Definition O_ACCMODE : Z := 3.
Definition O_APPEND : Z := 32.
Definition sfs_open (openflags : Z) : Z := if negb (Z.land openflags O_APPEND =? 0) then EUNIMP else 0.
Definition sfs_opendir (openflags : Z) : Z :=
  if negb (Z.land openflags O_ACCMODE =? 0) then EISDIR
  else if negb (Z.land openflags O_APPEND =? 0) then EISDIR else 0.

Definition sfs_read (v : nat) (u : uio) : F (Z * uio) := kassert (is_read u) ;; locked (sfs_io v u).
Definition sfs_write (v : nat) (u : uio) : F (Z * uio) := kassert (negb (is_read u)) ;; locked (sfs_io v u).
Definition sfs_ioctl : Z := EINVAL.
Definition sfs_tryseek (pos : Z) : Z := if pos <? 0 then EINVAL else 0.
Definition sfs_mmap : Z := EUNIMP.

Definition S_IFREG : Z := 4096.
Definition S_IFDIR : Z := 8192.
Definition sfs_gettype (v : nat) : F Z :=
  vfs_biglock_acquire ;;
  sv <- getvn v ;;
  if sfi_type (sv_i sv) =? SFS_TYPE_FILE then vfs_biglock_release ;; kret S_IFREG
  else if sfi_type (sv_i sv) =? SFS_TYPE_DIR then vfs_biglock_release ;; kret S_IFDIR
  else kpanic.

Definition vop_gettype (v : nat) : F Z := vop v (sfs_gettype v) (sfs_gettype v).

(** Mode, size, links, blocks. *)
Definition sfs_stat (v : nat) : F (Z * Z * Z * Z) :=
  mode <- vop_gettype v ;;
  sv <- getvn v ;;
  kret (mode, sfi_size (sv_i sv), 0, 0).

Definition sfs_namefile (v : nat) : F Z :=
  sv <- getvn v ;; kassert (sv_ino sv =? SFS_ROOT_LOCATION) ;; kret 0.

Definition incr_link (sv : sfs_vnode) : sfs_vnode := touch (λ i, set_linkcount (u16 (sfi_linkcount i + 1)) i) sv.
Definition decr_link (sv : sfs_vnode) : sfs_vnode := touch (λ i, set_linkcount (u16 (sfi_linkcount i - 1)) i) sv.

Definition sfs_creat (v : nat) (name : list Z) (excl : bool) : F (res nat) :=
  locked (
    ebind (sfs_dir_findname v name) (λ '(found, _),
      match found with
      | Some (_, ino) =>
          if excl then kret (inl EEXIST) else sfs_loadvnode ino SFS_TYPE_INVAL
      | None =>
          ebind (sfs_makeobj SFS_TYPE_FILE) (λ newguy,
            sv <- getvn newguy ;;
            r <- sfs_dir_link v name (sv_ino sv) ;;
            match r with
            | inl e => vnode_decref newguy ;; kret (inl e)
            | inr _ => modvn newguy incr_link ;; kret (inr newguy)
            end)
      end)).

Definition sfs_link (dir : nat) (name : list Z) (file : nat) : F Z :=
  locked (
    f <- getvn file ;;
    r <- sfs_dir_link dir name (sv_ino f) ;;
    match r with
    | inl e => kret e
    | inr _ => modvn file incr_link ;; kret 0
    end).

Definition sfs_remove (dir : nat) (name : list Z) : F Z :=
  locked (
    r <- sfs_lookonce dir name ;;
    match r with
    | inl e => kret e
    | inr (victim, slot) =>
        result <- sfs_dir_unlink dir slot ;;
        (if result =? 0 then
           sv <- getvn victim ;;
           kassert (0 <? sfi_linkcount (sv_i sv)) ;;
           modvn victim decr_link
         else kret tt) ;;
        vnode_decref victim ;;
        kret result
    end).

Definition sfs_rename (d1 : nat) (n1 : list Z) (d2 : nat) (n2 : list Z) : F Z :=
  locked (
    kassert (bool_decide (d1 = d2)) ;;
    sv <- getvn d1 ;;
    kassert (sv_ino sv =? SFS_ROOT_LOCATION) ;;
    r <- sfs_lookonce d1 n1 ;;
    match r with
    | inl e => kret e
    | inr (g1, slot1) =>
        gv <- getvn g1 ;;
        kassert (sfi_type (sv_i gv) =? SFS_TYPE_FILE) ;;
        r <- sfs_dir_link d1 n2 (sv_ino gv) ;;
        match r with
        | inl e => vnode_decref g1 ;; kret e
        | inr slot2 =>
            modvn g1 incr_link ;;
            result <- sfs_dir_unlink d1 slot1 ;;
            if negb (result =? 0) then
              result2 <- sfs_dir_unlink d1 slot2 ;;
              if negb (result2 =? 0) then kpanic
              else
                modvn g1 (λ sv, set_i (set_linkcount (u16 (sfi_linkcount (sv_i sv) - 1)) (sv_i sv)) sv) ;;
                vnode_decref g1 ;;
                kret result
            else
              gv <- getvn g1 ;;
              kassert (0 <? sfi_linkcount (sv_i gv)) ;;
              modvn g1 decr_link ;;
              vnode_decref g1 ;;
              kret 0
        end
    end).

Definition sfs_lookparent (v : nat) (path : list Z) (buflen : Z) : F (res (nat * list Z)) :=
  locked (
    sv <- getvn v ;;
    if negb (sfi_type (sv_i sv) =? SFS_TYPE_DIR) then kret (inl ENOTDIR)
    else if buflen <? Z.of_nat (length path) + 1 then kret (inl ENAMETOOLONG)
    else vnode_incref v ;; kret (inr (v, path))).

Definition sfs_lookup (v : nat) (path : list Z) : F (res nat) :=
  locked (
    sv <- getvn v ;;
    if negb (sfi_type (sv_i sv) =? SFS_TYPE_DIR) then kret (inl ENOTDIR)
    else ebind (sfs_lookonce v path) (λ '(final, _), kret (inr final))).

Definition sfs_getroot : F nat :=
  locked (
    r <- sfs_loadvnode SFS_ROOT_LOCATION SFS_TYPE_INVAL ;;
    match r with inl _ => kpanic | inr v => kret v end).

(** ** The file system (sfs_fs.c) *)

(** One block after another, between the disk and the bytes of the free map. *)
Fixpoint mapio_loop (rw : uio_rw) (j : nat) (k : nat) : F Z :=
  match k with
  | O => kret 0
  | S k =>
      let block := SFS_MAP_LOCATION + Z.of_nat j in
      bitdata <- kgets (λ s, v (fs_freemap s)) ;;
      result <- match rw with
                | UIO_READ =>
                    r <- sfs_rblock block ;;
                    match r with
                    | inl e => kret e
                    | inr b =>
                        kmodify (λ s, set_freemap (set_v (take (j * 512) bitdata ++ b ++ drop (j * 512 + 512) bitdata) (fs_freemap s)) s) ;;
                        kret 0
                    end
                | UIO_WRITE => sfs_wblock (take 512 (drop (j * 512) bitdata)) block
                end ;;
      if negb (result =? 0) then kret result else mapio_loop rw (S j) k
  end.
Definition sfs_mapio (rw : uio_rw) : F Z :=
  n <- kgets nblocks ;; mapio_loop rw 0 (Z.to_nat (SFS_BITBLOCKS n)).

Fixpoint sync_vnodes (vs : list nat) : F unit :=
  match vs with
  | [] => kret tt
  | v :: vs => result <- vop_fsync v ;; sync_vnodes vs
  end.
Definition sync_freemap : F Z :=
  dirty <- kgets fs_freemapdirty ;;
  if dirty : bool then
    result <- sfs_mapio UIO_WRITE ;;
    if negb (result =? 0) then kret result
    else kmodify (set_freemapdirty false) ;; kret 0
  else kret 0.
Definition sync_super : F Z :=
  dirty <- kgets fs_superdirty ;;
  if dirty : bool then
    sp <- kgets fs_super ;;
    result <- sfs_wblock (super_bytes sp) SFS_SB_LOCATION ;;
    if negb (result =? 0) then kret result
    else kmodify (set_superdirty false) ;; kret 0
  else kret 0.
Definition sfs_sync : F Z :=
  locked (
    vs <- kgets fs_vnodes ;;
    sync_vnodes vs ;;
    result <- sync_freemap ;;
    if negb (result =? 0) then kret result else sync_super).

Definition sfs_getvolname : F (list Z) := locked (kgets (λ s, sp_volname (fs_super s))).

(** Nothing of the state is used after a successful unmount. *)
Definition sfs_unmount : F Z :=
  locked (
    vs <- kgets fs_vnodes ;;
    if 0 <? Z.of_nat (length vs) then kret EBUSY
    else
      sd <- kgets fs_superdirty ;;
      kassert (negb sd) ;;
      fd <- kgets fs_freemapdirty ;;
      kassert (negb fd) ;;
      kret 0).

(** [bitmap_create], with the results of its two allocations. *)
Definition create_freemap (nbits : Z) : F bool :=
  ok1 <- next_alloc ;;
  if negb ok1 then kret false
  else
    ok2 <- next_alloc ;;
    if negb ok2 then kret false
    else
      kmodify (set_freemap (Bitmap 0 0 nbits (replicate (Z.to_nat (DIVROUNDUP nbits BITS_PER_WORD)) 0))) ;;
      kzoom fs_freemap set_freemap bitmap_init ;;
      kret true.

(** Mounting: the fields of the new structure are set up one by one, whatever
    they hold before. *)
Definition sfs_domount (blocksize : Z) : F Z :=
  locked (
    if negb (blocksize =? SFS_BLOCKSIZE) then kret ENXIO
    else
      ok1 <- next_alloc ;;
      if negb ok1 then kret ENOMEM
      else
        ok2 <- next_alloc ;;
        if negb ok2 then kret ENOMEM
        else
          kmodify (set_vnodes []) ;;
          r <- sfs_rblock SFS_SB_LOCATION ;;
          match r with
          | inl e => kret e
          | inr b =>
              let sp := super_of b in
              if negb (sp_magic sp =? SFS_MAGIC) then kret EINVAL
              else
                kmodify (set_super (mk_super (sp_magic sp) (sp_nblocks sp) (<[31%nat := 0]> (sp_volname sp)) (sp_reserved sp))) ;;
                ok <- create_freemap (SFS_BITMAPSIZE (sp_nblocks sp)) ;;
                if negb ok then kret ENOMEM
                else
                  result <- sfs_mapio UIO_READ ;;
                  if negb (result =? 0) then kret result
                  else
                    kmodify (set_superdirty false) ;;
                    kmodify (set_freemapdirty false) ;;
                    kret 0
          end).

(** ** The tables of operations *)

Definition vop_open (v : nat) (openflags : Z) : F Z := vop v (kret (sfs_open openflags)) (kret (sfs_opendir openflags)).
Definition vop_read (v : nat) (u : uio) : F (Z * uio) := vop v (sfs_read v u) (kret (EISDIR, u)).
Definition vop_write (v : nat) (u : uio) : F (Z * uio) := vop v (sfs_write v u) (kret (EISDIR, u)).
Definition vop_readlink (v : nat) : F Z := vop v (kret ENOTDIR) (kret EISDIR).
Definition vop_getdirentry (v : nat) : F Z := vop v (kret ENOTDIR) (kret EUNIMP).
Definition vop_ioctl (v : nat) : F Z := vop v (kret sfs_ioctl) (kret sfs_ioctl).
Definition vop_stat (v : nat) : F (Z * Z * Z * Z) := vop v (sfs_stat v) (sfs_stat v).
Definition vop_tryseek (v : nat) (pos : Z) : F Z := vop v (kret (sfs_tryseek pos)) (kret EUNIMP).
Definition vop_mmap (v : nat) : F Z := vop v (kret sfs_mmap) (kret EISDIR).
Definition vop_namefile (v : nat) : F Z := vop v (kret ENOTDIR) (sfs_namefile v).
Definition vop_creat (v : nat) (name : list Z) (excl : bool) : F (res nat) := vop v (kret (inl ENOTDIR)) (sfs_creat v name excl).
Definition vop_symlink (v : nat) : F Z := vop v (kret ENOTDIR) (kret EUNIMP).
Definition vop_mkdir (v : nat) : F Z := vop v (kret ENOTDIR) (kret EUNIMP).
Definition vop_link (v : nat) (name : list Z) (file : nat) : F Z := vop v (kret ENOTDIR) (sfs_link v name file).
Definition vop_remove (v : nat) (name : list Z) : F Z := vop v (kret ENOTDIR) (sfs_remove v name).
Definition vop_rmdir (v : nat) : F Z := vop v (kret ENOTDIR) (kret EUNIMP).
Definition vop_rename (d1 : nat) (n1 : list Z) (d2 : nat) (n2 : list Z) : F Z := vop d1 (kret ENOTDIR) (sfs_rename d1 n1 d2 n2).
Definition vop_lookup (v : nat) (path : list Z) : F (res nat) := vop v (kret (inl ENOTDIR)) (sfs_lookup v path).
Definition vop_lookparent (v : nat) (path : list Z) (buflen : Z) : F (res (nat * list Z)) :=
  vop v (kret (inl ENOTDIR)) (sfs_lookparent v path buflen).
End Sfs.
