(* ===== verification/SfsBlocks.v ===== *)
(** * SFS: blocks, the free map, the blocks of a file

    When the device works, a block is read and written as a value and an
    allocation takes a block that was free.  A file is the blocks its inode
    names, directly or through the indirect block; [sfs_bmap] finds them, and
    fills a hole with a block of zeros without changing what the file holds. *)

From stdpp Require Import base numbers list gmap sets.
From Stdlib Require Import ZArith Lia.
From S2P Require Import Prelude Bitmap Uio Device SfsDisk Sfs.

Open Scope Z_scope.
Open Scope kernel_scope.

Section Blocks.
Context (cur : option nat) {D : Type} {DV : Device D} {BD : BlockDevice cur D}.
Abbreviation fs := (@sfs_fs D).
Implicit Types (s : fs) (sv : sfs_vnode) (d : D) (b c : Z).

Definition data s b : list Z := d_data (cur := cur) (fs_dev s) b.
Definition inuse s : gset Z := bm_set (fs_freemap s).

(** The mounted file system: the device holds all its blocks, a free map with
    the superblock and everything past the end marked, offsets of blocks fit
    in 32 bits. *)
Record fs_ok s : Prop := {
  ok_dev : d_ok (cur := cur) (fs_dev s);
  ok_depth : 0 < fs_depth s;
  ok_map : bm_wf (fs_freemap s);
  ok_blocks : nblocks s ≤ d_blocks (fs_dev s);
  ok_bits : nbits (fs_freemap s) = SFS_BITMAPSIZE (nblocks s);
  ok_tail b : nblocks s ≤ b < nbits (fs_freemap s) → b ∈ inuse s;
  ok_zero : 0 ∈ inuse s;
  ok_small : nblocks s ≤ 2 ^ 23
}.

(** The parts of the state that file transfers leave alone. *)
Record same_rest s s' : Prop := {
  sr_super : fs_super s' = fs_super s;
  sr_superdirty : fs_superdirty s' = fs_superdirty s;
  sr_vnodes : fs_vnodes s' = fs_vnodes s;
  sr_next : fs_next s' = fs_next s;
  sr_oom : fs_oom s' = fs_oom s;
  sr_depth : fs_depth s' = fs_depth s
}.
Lemma same_rest_refl s : same_rest s s.
Proof. done. Qed.
Lemma same_rest_trans s1 s2 s3 : same_rest s1 s2 → same_rest s2 s3 → same_rest s1 s3.
Proof. intros [] []. split; congruence. Qed.
Lemma same_rest_nblocks s s' : same_rest s s' → nblocks s' = nblocks s.
Proof. intros []. unfold nblocks. congruence. Qed.

(** ** Blocks of the device *)

(** The device holds the same, or the same but for one block. *)
Record dev_same d d' : Prop := {
  ds_ok : d_ok (cur := cur) d';
  ds_blocks : d_blocks d' = d_blocks d;
  ds_data c : 0 ≤ c < d_blocks d → d_data (cur := cur) d' c = d_data (cur := cur) d c
}.
Record dev_upd b (l : list Z) d d' : Prop := {
  du_ok : d_ok (cur := cur) d';
  du_blocks : d_blocks d' = d_blocks d;
  du_new : d_data (cur := cur) d' b = l;
  du_data c : 0 ≤ c < d_blocks d → c ≠ b → d_data (cur := cur) d' c = d_data (cur := cur) d c
}.

Lemma dev_same_trans d1 d2 d3 : dev_same d1 d2 → dev_same d2 d3 → dev_same d1 d3.
Proof. intros [o1 b1 e1] [o2 b2 e2]. split; [done|congruence|]. intros c Hc. rewrite e2, e1 by (rewrite ?b1; done). done. Qed.
Lemma dev_same_refl d : d_ok (cur := cur) d → dev_same d d.
Proof. by split. Qed.

Lemma fs_ok_dev s d' : fs_ok s → d_ok (cur := cur) d' → d_blocks d' = d_blocks (fs_dev s) → fs_ok (set_dev d' s).
Proof. intros [] Ho Hb. split; cbn; try done. by rewrite Hb. Qed.
Lemma fs_ok_same s d' : fs_ok s → dev_same (fs_dev s) d' → fs_ok (set_dev d' s).
Proof. intros Ho []. by apply fs_ok_dev. Qed.

(** One transfer of a sector through [sfs_rwblock]. *)
Lemma rw_retry_done k u s u' d' :
  d_io (u, fs_dev s) = Done (0, (u', d')) → rw_retry k u s = Done ((0, u'), set_dev d' s).
Proof. intros E. destruct k; cbn [rw_retry]; unfold kbind at 1; rewrite E; reflexivity. Qed.
Lemma rwblock_done u s u' d' :
  0 < fs_depth s → d_io (u, fs_dev s) = Done (0, (u', d')) → sfs_rwblock u s = Done ((0, u'), set_dev d' s).
Proof.
  intros Hd E. unfold sfs_rwblock. ksteps. rewrite step_assert by (apply Z.ltb_lt; lia). by apply rw_retry_done.
Qed.

Lemma rwblock_read_dev b u s :
  d_ok (cur := cur) (fs_dev s) → 0 < fs_depth s → 0 ≤ b < d_blocks (fs_dev s) → one_sector cur b u → is_read u = true →
  ∃ u' d', sfs_rwblock u s = Done ((0, u'), set_dev d' s) ∧ uio_moved cur 512 (data s b) u u' ∧ dev_same (fs_dev s) d'.
Proof.
  intros Ho Hd Hb Hs Hr. destruct (d_read_ok (cur := cur) (fs_dev s) b u) as (u' & d' & E & M & O1 & O2 & O3); [done..|].
  exists u', d'. split; [by apply rwblock_done|]. by split.
Qed.
Lemma rwblock_read b u s :
  fs_ok s → 0 ≤ b < nblocks s → one_sector cur b u → is_read u = true →
  ∃ u' d', sfs_rwblock u s = Done ((0, u'), set_dev d' s) ∧ uio_moved cur 512 (data s b) u u' ∧ dev_same (fs_dev s) d'.
Proof. intros Ho Hb. pose proof (ok_blocks _ Ho). apply rwblock_read_dev; [apply Ho|apply Ho|lia]. Qed.
Lemma rwblock_write b u s :
  fs_ok s → 0 ≤ b < nblocks s → one_sector cur b u → is_read u = false →
  ∃ u' d', sfs_rwblock u s = Done ((0, u'), set_dev d' s) ∧ uio_moved cur 512 [] u u' ∧
    dev_upd b (take 512 (concat (uio_iov u))) (fs_dev s) d'.
Proof.
  intros Ho Hb Hs Hr. destruct (d_write_ok (cur := cur) (fs_dev s) b u) as (u' & d' & E & M & O1 & O2 & O3 & O4);
    [apply Ho|pose proof (ok_blocks _ Ho); lia|done..|].
  exists u', d'. split; [by apply rwblock_done; [apply Ho|]|]. by split.
Qed.

Lemma kinit_sector b l rw :
  0 ≤ b < 2 ^ 23 → length l = 512%nat → one_sector cur b (uio_kinit l (b * SFS_BLOCKSIZE) rw).
Proof.
  intros Hb Hl. unfold one_sector, uio_fits, room, uio_kinit, uio_good, SFS_BLOCKSIZE.
  cbn [uio_offset uio_resid uio_iov uio_segflg uio_space concat]. rewrite app_nil_r, Hl.
  change (u32 (Z.of_nat 512)) with 512. split_and!; try done; lia.
Qed.

Lemma data_length s b : fs_ok s → 0 ≤ b < nblocks s → length (data s b) = 512%nat.
Proof. intros Ho Hb. apply d_data_len; [apply Ho|]. pose proof (ok_blocks _ Ho). lia. Qed.

(** A block of a device that need not be mounted. *)
Lemma rblock_dev s b :
  d_ok (cur := cur) (fs_dev s) → 0 < fs_depth s → 0 ≤ b < d_blocks (fs_dev s) → b < 2 ^ 23 →
  ∃ d', sfs_rblock b s = Done (inr (data s b), set_dev d' s) ∧ dev_same (fs_dev s) d'.
Proof.
  intros Ho Hd Hb H23. unfold sfs_rblock.
  destruct (rwblock_read_dev b (uio_kinit (replicate 512 0) (b * SFS_BLOCKSIZE) UIO_READ) s) as (u' & d' & E & M & S);
    [done|done|done|apply kinit_sector; [lia|done]|done|].
  exists d'. split; [|done]. kcall E. cbn [Z.eqb negb]. by rewrite (mv_done _ _ _ _ _ M).
Qed.
Lemma rblock_ok s b :
  fs_ok s → 0 ≤ b < nblocks s →
  ∃ d', sfs_rblock b s = Done (inr (data s b), set_dev d' s) ∧ dev_same (fs_dev s) d'.
Proof. intros Ho Hb. pose proof (ok_blocks _ Ho). pose proof (ok_small _ Ho). apply rblock_dev; [apply Ho|apply Ho|lia|lia]. Qed.
Lemma wblock_ok s b l :
  fs_ok s → 0 ≤ b < nblocks s → length l = 512%nat →
  ∃ d', sfs_wblock l b s = Done (0, set_dev d' s) ∧ dev_upd b l (fs_dev s) d'.
Proof.
  intros Ho Hb Hl. unfold sfs_wblock.
  destruct (rwblock_write b (uio_kinit l (b * SFS_BLOCKSIZE) UIO_WRITE) s) as (u' & d' & E & M & S);
    [done|done|apply kinit_sector; [pose proof (ok_small _ Ho); lia|done]|done|].
  exists d'. split; [by kcall E|]. cbn [uio_kinit uio_iov concat] in S. by rewrite app_nil_r, take_ge in S by lia.
Qed.

(** ** The free map *)

(** The map is a whole number of blocks, enough for every bit. *)
Lemma bitmap_size n : 0 ≤ n ≤ 2 ^ 23 → SFS_BITMAPSIZE n = 4096 * SFS_BITBLOCKS n ∧ n ≤ SFS_BITMAPSIZE n < n + 4096.
Proof.
  intros Hn. unfold SFS_BITBLOCKS, SFS_BITMAPSIZE, SFS_ROUNDUP. change SFS_BLOCKBITS with 4096. rewrite (u32_small (n + 4096 - 1)) by lia.
  pose proof (Z.div_mod (n + 4096 - 1) 4096 ltac:(lia)). pose proof (Z.mod_pos_bound (n + 4096 - 1) 4096 ltac:(lia)).
  set (q := (n + 4096 - 1) / 4096) in *. rewrite u32_small by lia. rewrite Z.div_mul by lia. lia.
Qed.

Lemma bused_ok s b :
  fs_ok s → 0 ≤ b < nblocks s → sfs_bused b s = Done (bool_decide (b ∈ inuse s), s).
Proof.
  intros Ho Hb. unfold sfs_bused. ksteps. rewrite (proj2 (Z.leb_gt _ _)) by lia.
  destruct (bitmap_isset_ok (fs_freemap s) b) as (r & E & Hr); [apply Ho|rewrite (ok_bits _ Ho); pose proof (ok_small _ Ho); pose proof (bitmap_size (nblocks s)); lia|].
  unfold kzoom, kbind. rewrite E. unfold kret. f_equal. f_equal; [|by destruct s].
  unfold inuse. destruct (Z.eqb_spec r 0) as [->|Hn]; cbn [negb]; symmetry.
  - apply bool_decide_eq_false. intros Hi. by apply Hr in Hi.
  - apply bool_decide_eq_true. by apply Hr.
Qed.

(** A block that was free, now in use and zero. *)
Record took b s s' : Prop := {
  tk_range : 0 < b < nblocks s;
  tk_free : b ∉ inuse s;
  tk_inuse : inuse s' = {[b]} ∪ inuse s;
  tk_ok : fs_ok s';
  tk_vn : fs_vn s' = fs_vn s;
  tk_rest : same_rest s s';
  tk_dirty : fs_freemapdirty s' = true;
  tk_zero : data s' b = replicate 512 0;
  tk_data c : 0 ≤ c < nblocks s → c ≠ b → data s' c = data s c
}.

Definition full s : Prop := ∀ b, 0 ≤ b < nblocks s → b ∈ inuse s.

Lemma first_free_elem n X i : first_free n X = Some i → 0 ≤ i < n ∧ i ∉ X.
Proof.
  unfold first_free. intros H. apply head_Some_elem_of in H. apply list_elem_of_filter in H as [Hx Hi].
  apply elem_of_seqZ in Hi. split; [lia|done].
Qed.
Lemma first_free_full n X : first_free n X = None → ∀ i, 0 ≤ i < n → i ∈ X.
Proof.
  unfold first_free. intros H i Hi. apply head_None in H. destruct (decide (i ∈ X)) as [|Hn]; [done|].
  assert (He : i ∈ filter (λ i, i ∉ X) (seqZ 0 n)) by (apply list_elem_of_filter; split; [done|apply elem_of_seqZ; lia]).
  rewrite H in He. by apply not_elem_of_nil in He.
Qed.

Lemma balloc_ok s :
  fs_ok s →
  (sfs_balloc s = Done (inl ENOSPC, s) ∧ full s) ∨
  (∃ b s', sfs_balloc s = Done (inr b, s') ∧ took b s s').
Proof.
  intros Ho. pose proof Ho as [o1 o2 o3 o4 o5 o6 o7 o8]. unfold sfs_balloc.
  destruct (bitmap_alloc_ok (fs_freemap s) o3) as (m' & Hwf & Hn & Hm).
  destruct (first_free (nbits (fs_freemap s)) (bm_set (fs_freemap s))) as [b|] eqn:Ef; destruct Hm as [E Es].
  - right. apply first_free_elem in Ef as [Hb Hfree].
    assert (Hbn : 0 < b < nblocks s).
    { split; [destruct (decide (b = 0)) as [->|]; [by destruct Hfree|lia]|].
      destruct (decide (b < nblocks s)); [done|]. destruct Hfree. apply o6. lia. }
    set (s1 := set_freemapdirty true (set_freemap m' s)).
    assert (Ho1 : fs_ok s1).
    { split; try done; cbn; [by rewrite Hn| |].
      - intros c Hc. unfold inuse. cbn. rewrite Es. apply elem_of_union_r, o6. cbn in Hc. by rewrite Hn in Hc.
      - unfold inuse. cbn. rewrite Es. by apply elem_of_union_r. }
    destruct (wblock_ok s1 b (replicate 512 0)) as (d' & Ew & Hd); [done|change (0 ≤ b < nblocks s); lia|apply length_replicate|].
    exists b, (set_dev d' s1). split.
    + unfold kzoom, kbind at 1. rewrite E. ksteps. change (nblocks _) with (nblocks s). rewrite (proj2 (Z.leb_gt _ _)) by lia.
      unfold sfs_clearblock. change (kmodify _ _) with (@Done (unit * fs) (tt, s1)). by kcall Ew.
    + destruct Hd as [h1 h2 h3 h4]. split; try done; [by apply fs_ok_dev|].
      intros c Hc Hne. apply h4; [change (0 ≤ c < d_blocks (fs_dev s)); lia|done].
  - left. pose proof (first_free_full _ _ Ef) as Hall. split.
    + unfold kzoom, kbind. rewrite E, Es. unfold kret. by destruct s.
    + intros b Hb. apply Hall. pose proof (bitmap_size (nblocks s)). lia.
Qed.
End Blocks.
