(* ===== verification/SfsFile.v ===== *)
(** * SFS: the blocks of a file

    What a file holds, which blocks it owns, and the relation between the
    states before and after an operation on it: blocks in use that the file
    does not own keep their data, every block taken is owned by the file, no
    block is owned twice.  [sfs_bmap] finds the block of a position, and fills
    a hole with a block of zeros without changing what the file holds. *)

From stdpp Require Import base numbers list gmap sets.
From Stdlib Require Import ZArith Lia.
From S2P Require Import Prelude Bitmap Uio Device SfsDisk Sfs SfsBlocks.

Open Scope Z_scope.
Open Scope kernel_scope.

Section File.
Context (cur : option nat) {D : Type} {DV : Device D} {BD : BlockDevice cur D}.
Abbreviation fs := (@sfs_fs D).
Abbreviation data := (data cur).
Abbreviation fs_ok := (fs_ok cur).
Implicit Types (s : fs) (sv : sfs_vnode) (b c : Z) (v : nat).

(** ** What a file is *)

Definition idwords s sv : list Z :=
  if sfi_indirect (sv_i sv) =? 0 then replicate 128 0 else words_of (data s (sfi_indirect (sv_i sv))).
(** Every place that holds a block number: the indirect block, then the blocks
    of the file in order. *)
Definition blocks s sv : list Z := sfi_direct (sv_i sv) ++ idwords s sv.
Definition slots s sv : list Z := sfi_indirect (sv_i sv) :: blocks s sv.
Definition owns s sv : list Z := filter (λ b, b ≠ 0) (slots s sv).

Definition holds s b : list Z := if b =? 0 then replicate 512 0 else data s b.
Definition fblocks s sv : list (list Z) := holds s <$> blocks s sv.
(** The 143 blocks a file can have, with zeros in the holes. *)
Definition contents s sv : list Z := concat (fblocks s sv).
Definition MAXBLOCKS : nat := 143.
Definition MAXSIZE : Z := 73216.

Record file_ok s sv : Prop := {
  fo_inode : inode_wf (sv_i sv);
  fo_nodup : NoDup (owns s sv);
  fo_range b : b ∈ owns s sv → 0 < b < nblocks s ∧ b ∈ inuse s;
  fo_ino : 0 < sv_ino sv < nblocks s ∧ sv_ino sv ∈ inuse s ∧ sv_ino sv ∉ owns s sv
}.

(** Only the block numbers and the size of the inode may differ. *)
Record same_vnode sv sv' : Prop := {
  sm_ino : sv_ino sv' = sv_ino sv;
  sm_refcount : vn_refcount sv' = vn_refcount sv;
  sm_opencount : vn_opencount sv' = vn_opencount sv;
  sm_ops : vn_ops sv' = vn_ops sv;
  sm_type : sfi_type (sv_i sv') = sfi_type (sv_i sv);
  sm_linkcount : sfi_linkcount (sv_i sv') = sfi_linkcount (sv_i sv)
}.

(** The vnode [v] and its file before and after. *)
Record vstep v s sv s' sv' : Prop := {
  vs_ok : fs_ok s';
  vs_file : file_ok s' sv';
  vs_vn : fs_vn s' = <[v := sv']> (fs_vn s);
  vs_rest : same_rest s s';
  vs_same : same_vnode sv sv';
  vs_dirty : sv_dirty sv' = false → sv_i sv' = sv_i sv ∧ sv_dirty sv = false;
  vs_mapdirty : fs_freemapdirty s' = false → fs_freemap s' = fs_freemap s ∧ fs_freemapdirty s = false;
  vs_inuse : inuse s' = inuse s ∪ list_to_set (owns s' sv');
  vs_new b : b ∈ owns s' sv' → b ∈ owns s sv ∨ b ∉ inuse s;
  vs_kept b : b ∈ owns s sv → b ∈ owns s' sv';
  vs_frame b : 0 ≤ b < nblocks s → b ∈ inuse s → b ∉ owns s sv → data s' b = data s b
}.

Lemma vstep_trans v s1 sv1 s2 sv2 s3 sv3 :
  vstep v s1 sv1 s2 sv2 → vstep v s2 sv2 s3 sv3 → vstep v s1 sv1 s3 sv3.
Proof.
  intros [a1 a2 a3 a4 a5 ad am a6 a7 a8 a9] [b1 b2 b3 b4 b5 bd bm b6 b7 b8 b9]. split; try done.
  - by rewrite b3, a3, insert_insert_eq.
  - by eapply same_rest_trans.
  - destruct a5, b5. split; congruence.
  - intros H. destruct (bd H) as [-> H1]. by apply ad.
  - intros H. destruct (bm H) as [-> H1]. by apply am.
  - rewrite b6, a6. set_solver.
  - intros b Hb. destruct (b7 b Hb) as [?|Hn]; [by apply a7|]. right. set_solver.
  - auto.
  - intros b Hb Hu Hn. rewrite b9, a9; [done|done|done|done| | |].
    + by rewrite (same_rest_nblocks _ _ a4).
    + set_solver.
    + intros H. destruct (a7 b H); done.
Qed.

Lemma owns_inuse s sv : file_ok s sv → list_to_set (owns s sv) ⊆ inuse s.
Proof. intros H b Hb. apply elem_of_list_to_set in Hb. by apply H. Qed.

Lemma vstep_refl v s sv : fs_ok s → file_ok s sv → fs_vn s !! v = Some sv → vstep v s sv s sv.
Proof.
  intros Ho Hf Hv. split; try done; [by rewrite insert_id| |by left].
  pose proof (owns_inuse _ _ Hf). set_solver.
Qed.

(** ** What depends on the data of which blocks *)

Lemma elem_of_owns s sv b : b ∈ owns s sv ↔ b ≠ 0 ∧ b ∈ slots s sv.
Proof. unfold owns. by rewrite list_elem_of_filter. Qed.

Lemma indirect_owned s sv : sfi_indirect (sv_i sv) ≠ 0 → sfi_indirect (sv_i sv) ∈ owns s sv.
Proof. intros H. apply elem_of_owns. split; [done|by left]. Qed.

Lemma block_owned s sv n b : blocks s sv !! n = Some b → b ≠ 0 → b ∈ owns s sv.
Proof. intros H Hb. apply elem_of_owns. split; [done|]. right. by eapply list_elem_of_lookup_2. Qed.

Lemma block_not_indirect s sv n b : file_ok s sv → blocks s sv !! n = Some b → b ≠ 0 → b ≠ sfi_indirect (sv_i sv).
Proof.
  intros Hf Hb Hn ->. pose proof (fo_nodup _ _ Hf) as Hd. unfold owns, slots in Hd.
  rewrite filter_cons_True in Hd by done. apply NoDup_cons in Hd as [Hd _]. apply Hd.
  apply list_elem_of_filter. split; [done|]. by eapply list_elem_of_lookup_2.
Qed.

Lemma slots_frame s s' sv :
  (sfi_indirect (sv_i sv) ≠ 0 → data s' (sfi_indirect (sv_i sv)) = data s (sfi_indirect (sv_i sv))) →
  slots s' sv = slots s sv.
Proof. intros H. unfold slots, blocks, idwords. destruct (Z.eqb_spec (sfi_indirect (sv_i sv)) 0); [done|]. by rewrite H. Qed.

Lemma fblocks_frame s s' sv :
  (∀ b, b ∈ owns s sv → data s' b = data s b) → slots s' sv = slots s sv ∧ fblocks s' sv = fblocks s sv.
Proof.
  intros H. assert (Hs : slots s' sv = slots s sv).
  { apply slots_frame. intros Hn. apply H. by apply indirect_owned. }
  split; [done|]. unfold fblocks. assert (Hb : blocks s' sv = blocks s sv) by (by injection Hs).
  rewrite Hb. apply list_fmap_ext. intros i b Hi. unfold holds. destruct (Z.eqb_spec b 0); [done|]. apply H. by eapply block_owned.
Qed.

Lemma file_ok_frame s s' sv :
  file_ok s sv → nblocks s' = nblocks s → inuse s' = inuse s → slots s' sv = slots s sv → file_ok s' sv.
Proof. intros [f1 f2 f3 f4] Hn Hu Hs. split; try done; unfold owns in *; rewrite ?Hs, ?Hn, ?Hu; done. Qed.

(** A state whose device holds the same. *)
Lemma same_dev s d' sv :
  fs_ok s → file_ok s sv → dev_same cur (fs_dev s) d' →
  file_ok (set_dev d' s) sv ∧ slots (set_dev d' s) sv = slots s sv ∧ fblocks (set_dev d' s) sv = fblocks s sv.
Proof.
  intros Ho Hf Hd. destruct (fblocks_frame s (set_dev d' s) sv) as [H1 H2].
  { intros b Hb. apply (ds_data _ _ _ Hd). destruct (fo_range _ _ Hf b Hb) as [? _]. pose proof (ok_blocks _ _ Ho). lia. }
  split; [by eapply file_ok_frame|done].
Qed.

Lemma vstep_dev v s d' sv :
  fs_ok s → file_ok s sv → fs_vn s !! v = Some sv → dev_same cur (fs_dev s) d' → vstep v s sv (set_dev d' s) sv.
Proof.
  intros Ho Hf Hv Hd. destruct (same_dev s d' sv Ho Hf Hd) as (H1 & H2 & H3).
  assert (Hw : owns (set_dev d' s) sv = owns s sv) by (unfold owns; by rewrite H2).
  split; rewrite ?Hw; try done.
  - by apply fs_ok_same.
  - cbn. by rewrite insert_id.
  - change (inuse (set_dev d' s)) with (inuse s). pose proof (owns_inuse _ _ Hf). set_solver.
  - by left.
  - intros b Hb _ _. apply (ds_data _ _ _ Hd). pose proof (ok_blocks _ _ Ho). lia.
Qed.

(** ** Lengths *)

Lemma idwords_length s sv : fs_ok s → file_ok s sv → length (idwords s sv) = 128%nat.
Proof.
  intros Ho Hf. unfold idwords. destruct (Z.eqb_spec (sfi_indirect (sv_i sv)) 0) as [|Hn]; [apply length_replicate|].
  apply length_words_of. apply data_length; [done|].
  destruct (fo_range _ _ Hf _ (indirect_owned s sv Hn)) as [? _]. lia.
Qed.
Lemma blocks_length s sv : fs_ok s → file_ok s sv → length (blocks s sv) = MAXBLOCKS.
Proof.
  intros Ho Hf. unfold blocks. rewrite length_app, idwords_length by done.
  by rewrite (iw_direct_len _ (fo_inode _ _ Hf)).
Qed.
Lemma slots_range s sv b : fs_ok s → file_ok s sv → b ∈ slots s sv → 0 ≤ b < nblocks s.
Proof.
  intros Ho Hf Hb. destruct (fo_ino _ _ Hf) as [? _]. destruct (decide (b = 0)) as [->|Hn]; [lia|].
  destruct (fo_range _ _ Hf b) as [? _]; [by apply elem_of_owns|lia].
Qed.
Lemma idwords_range s sv : fs_ok s → file_ok s sv → Forall is_u32 (idwords s sv).
Proof.
  intros Ho Hf. apply Forall_forall. intros b Hb. pose proof (ok_small _ _ Ho).
  pose proof (slots_range s sv b Ho Hf). unfold is_u32, slots, blocks in *. set_solver by lia.
Qed.
Lemma holds_length s sv b : fs_ok s → file_ok s sv → b ∈ slots s sv → length (holds s b) = 512%nat.
Proof.
  intros Ho Hf Hb. unfold holds. destruct (Z.eqb_spec b 0); [apply length_replicate|]. apply data_length; [done|].
  by eapply slots_range.
Qed.
Lemma fblocks_length s sv : fs_ok s → file_ok s sv → length (fblocks s sv) = MAXBLOCKS ∧ Forall (λ l, length l = 512%nat) (fblocks s sv).
Proof.
  intros Ho Hf. unfold fblocks. rewrite length_fmap, blocks_length by done. split; [done|].
  apply Forall_fmap, Forall_forall. intros b Hb. eapply holds_length; [done|done|]. by right.
Qed.

(** ** Filling a place, writing a block *)

Lemma insert_cons (x : Z) l k b : <[S k := b]> (x :: l) = x :: <[k := b]> l.
Proof. done. Qed.
Lemma filter_insert (l : list Z) k b :
  l !! k = Some 0 → b ≠ 0 → filter (λ c, c ≠ 0) (<[k := b]> l) ≡ₚ b :: filter (λ c, c ≠ 0) l.
Proof.
  intros Hk Hb. rewrite (insert_take_drop l k b) by (by eapply lookup_lt_Some).
  rewrite <- (take_drop_middle l k 0 Hk) at 3. rewrite !filter_app, filter_cons_True, filter_cons_False by (done || naive_solver).
  by rewrite Permutation_middle.
Qed.

Lemma fill v k b s sv s1 s' sv' :
  fs_ok s → file_ok s sv → took cur b s s1 → slots s sv !! k = Some 0 →
  fs_ok s' → same_rest s1 s' → inuse s' = inuse s1 → fs_vn s' = <[v := sv']> (fs_vn s) →
  (∀ c, 0 ≤ c < nblocks s → (c ≠ 0 → c ≠ sfi_indirect (sv_i sv)) → data s' c = data s1 c) →
  same_vnode sv sv' → inode_wf (sv_i sv') → (sv_dirty sv' = false → sv_i sv' = sv_i sv ∧ sv_dirty sv = false) →
  fs_freemapdirty s' = true → slots s' sv' = <[k := b]> (slots s sv) →
  vstep v s sv s' sv' ∧ fblocks s' sv' = fblocks s sv.
Proof.
  intros Ho Hf [t1 t2 t3 t4 t5 t6 td t7 t8] Hk Ho' Hr Hu Hvn Hd Hsm Hi Hdi Hmd Hs.
  assert (Hw : owns s' sv' ≡ₚ b :: owns s sv) by (unfold owns; rewrite Hs; apply filter_insert; [done|lia]).
  assert (Hnb : nblocks s' = nblocks s) by (apply same_rest_nblocks; by eapply same_rest_trans).
  assert (Hbo : b ∉ owns s sv) by (intros H; by apply t2, (fo_range _ _ Hf)).
  assert (Hin : ∀ c, c ∈ owns s' sv' ↔ c = b ∨ c ∈ owns s sv) by (intros c; rewrite Hw, elem_of_cons; done).
  assert (Hkeep : ∀ c, 0 ≤ c < nblocks s → c ∈ inuse s → (c ≠ 0 → c ≠ sfi_indirect (sv_i sv)) → data s' c = data s c).
  { intros c Hc Hcu Hci. rewrite Hd, t8 by (done || congruence). done. }
  assert (Hbi : b ≠ sfi_indirect (sv_i sv)).
  { intros ->. apply Hbo, indirect_owned. lia. }
  split.
  - split; try done.
    + destruct (fo_ino _ _ Hf) as (i1 & i2 & i3). split; [done| | |].
      * rewrite Hw. constructor; [done|apply Hf].
      * intros c Hc. rewrite Hnb, Hu, t3. apply Hin in Hc as [->|Hc]; [set_solver|].
        destruct (fo_range _ _ Hf c Hc). set_solver.
      * rewrite (sm_ino _ _ Hsm), Hnb, Hu, t3, Hin. split_and!; [lia|lia|set_solver|]. intros [E|?]; [by rewrite E in i2|done].
    + by eapply same_rest_trans.
    + by rewrite Hmd.
    + rewrite Hu, t3. apply set_eq. intros c. rewrite elem_of_union, elem_of_union, elem_of_list_to_set, elem_of_singleton, Hin.
      pose proof (fo_range _ _ Hf c). naive_solver.
    + intros c Hc. apply Hin in Hc as [->|?]; [by right|by left].
    + intros c Hc. apply Hin. by right.
    + intros c Hc Hcu Hcn. apply Hkeep; [done|done|]. intros Hc0 ->. by apply Hcn, indirect_owned.
  - assert (Hb0 : holds s' b = replicate 512 0).
    { unfold holds. rewrite (proj2 (Z.eqb_neq _ _)), Hd by (lia || done). done. }
    assert (Hother : ∀ n c, blocks s sv !! n = Some c → holds s' c = holds s c).
    { intros n c Hc. unfold holds. destruct (Z.eqb_spec c 0); [done|].
      destruct (fo_range _ _ Hf c) as [? ?]; [by eapply block_owned|].
      apply Hkeep; [lia|done|]. intros _. by eapply block_not_indirect. }
    unfold fblocks. unfold slots in Hs, Hk. destruct k as [|k]; cbn in Hs, Hk; injection Hs as _ ->.
    + apply list_fmap_ext. intros n c Hc. by eapply Hother.
    + change (blocks s sv !! k = Some 0) in Hk. etrans; [exact (list_fmap_insert (holds s') (blocks s sv) k b)|]. rewrite Hb0. apply list_eq. intros n. destruct (decide (n = k)) as [->|Hne].
      * rewrite list_lookup_insert_eq, list_lookup_fmap, Hk; [done|].
        rewrite length_fmap. by eapply lookup_lt_Some.
      * rewrite list_lookup_insert_ne, !list_lookup_fmap by done.
        destruct (blocks s sv !! n) as [c|] eqn:E; [|done]. cbn. f_equal. by eapply Hother.
Qed.
Lemma filter_NoDup_inj (l : list Z) i j b :
  NoDup (filter (λ c, c ≠ 0) l) → b ≠ 0 → l !! i = Some b → l !! j = Some b → i = j.
Proof.
  intros Hd Hb. revert i j. induction l as [|c l IH]; intros i j Hi Hj; [done|].
  assert (Hd' : NoDup (filter (λ c, c ≠ 0) l)).
  { destruct (decide (c ≠ 0)); [rewrite filter_cons_True in Hd by done; by apply NoDup_cons in Hd as [_ ?]|].
    by rewrite filter_cons_False in Hd. }
  assert (Hc : ∀ k, l !! k = Some b → c = b → False).
  { intros k Hk ->. rewrite filter_cons_True in Hd by done. apply NoDup_cons in Hd as [Hn _]. apply Hn.
    apply list_elem_of_filter. split; [done|]. by eapply list_elem_of_lookup_2. }
  destruct i as [|i], j as [|j]; cbn in Hi, Hj; [done| | |f_equal; by apply IH]; [injection Hi as ->|injection Hj as ->]; exfalso; eauto.
Qed.

Lemma poke v n b l s sv d' :
  fs_ok s → file_ok s sv → fs_vn s !! v = Some sv → blocks s sv !! n = Some b → b ≠ 0 →
  dev_upd cur b l (fs_dev s) d' →
  vstep v s sv (set_dev d' s) sv ∧ fblocks (set_dev d' s) sv = <[n := l]> (fblocks s sv).
Proof.
  intros Ho Hf Hv Hn Hb [u1 u2 u3 u4]. set (s' := set_dev d' s).
  assert (Hbw : b ∈ owns s sv) by (by eapply block_owned).
  assert (Hoth : ∀ c, 0 ≤ c < nblocks s → c ≠ b → data s' c = data s c).
  { intros c Hc Hne. apply u4; [|done]. pose proof (ok_blocks _ _ Ho). lia. }
  assert (Hrng : ∀ c, c ∈ slots s sv → 0 ≤ c < nblocks s) by (intros c; by apply slots_range).
  assert (Hs : slots s' sv = slots s sv).
  { apply slots_frame. intros H0. apply Hoth; [apply Hrng; by left|].
    intros E. by eapply (block_not_indirect s sv n b). }
  assert (Hw : owns s' sv = owns s sv) by (unfold owns; by rewrite Hs).
  split.
  - split; rewrite ?Hw; try done.
    + by apply fs_ok_dev.
    + by eapply file_ok_frame.
    + cbn. by rewrite insert_id.
    + change (inuse s') with (inuse s). pose proof (owns_inuse _ _ Hf). set_solver.
    + by left.
    + intros c Hc _ Hcn. apply Hoth; [done|]. by intros ->.
  - unfold fblocks. assert (Hbl : blocks s' sv = blocks s sv) by (by injection Hs). rewrite Hbl.
    apply list_eq. intros m. destruct (decide (m = n)) as [->|Hne].
    + rewrite list_lookup_insert_eq by (rewrite length_fmap; by eapply lookup_lt_Some).
      rewrite list_lookup_fmap, Hn. cbn. unfold holds. rewrite (proj2 (Z.eqb_neq _ _)) by done. by f_equal.
    + rewrite list_lookup_insert_ne, !list_lookup_fmap by done.
      destruct (blocks s sv !! m) as [c|] eqn:E; [|done]. cbn. f_equal. unfold holds.
      destruct (Z.eqb_spec c 0); [done|]. apply Hoth; [apply Hrng; right; by eapply list_elem_of_lookup_2|].
      intros ->. destruct Hne. enough (S m = S n) by lia.
      by apply (filter_NoDup_inj (slots s sv) _ _ b); [apply Hf|..].
Qed.

(** ** The block of a position *)

Lemma getvn_ok v s sv : fs_vn s !! v = Some sv → getvn v s = Done (sv, s).
Proof. intros H. unfold getvn. ksteps. by rewrite H. Qed.
Lemma modvn_ok v f s sv : fs_vn s !! v = Some sv → modvn v f s = Done (tt, set_vn (<[v := f sv]> (fs_vn s)) s).
Proof. intros H. unfold modvn. by kcall (getvn_ok _ _ _ H). Qed.

Lemma hand_back_ok s b : fs_ok s → 0 ≤ b < nblocks s → (b ≠ 0 → b ∈ inuse s) → hand_back b s = Done (inr b, s).
Proof.
  intros Ho Hb Hu. unfold hand_back. destruct (Z.eqb_spec b 0) as [|Hn]; [done|]. cbn [negb].
  kcall (bused_ok _ _ _ Ho Hb). by rewrite bool_decide_eq_true_2 by auto.
Qed.
Lemma hand_back_slot s sv b : fs_ok s → file_ok s sv → b ∈ slots s sv → hand_back b s = Done (inr b, s).
Proof.
  intros Ho Hf Hb. apply hand_back_ok; [done|by eapply slots_range|]. intros Hn. apply (fo_range _ _ Hf). by apply elem_of_owns.
Qed.

Lemma ebind_inr {A B} (c : K fs (Z + A)) (f : A → K fs (Z + B)) s a s' :
  c s = Done (inr a, s') → ebind c f s = f a s'.
Proof. intros E. unfold ebind. by kcall E. Qed.
Lemma ebind_inl {A B} (c : K fs (Z + A)) (f : A → K fs (Z + B)) s e s' :
  c s = Done (inl e, s') → ebind c f s = Done (inl e, s').
Proof. intros E. unfold ebind. by kcall E. Qed.

Lemma blocks_direct s sv n : inode_wf (sv_i sv) → 0 ≤ n < 15 → blocks s sv !! Z.to_nat n = sfi_direct (sv_i sv) !! Z.to_nat n.
Proof. intros Hi Hn. unfold blocks. apply lookup_app_l. rewrite (iw_direct_len _ Hi). lia. Qed.
Lemma blocks_indirect s sv n : inode_wf (sv_i sv) → 0 ≤ n → blocks s sv !! Z.to_nat (n + 15) = idwords s sv !! Z.to_nat n.
Proof.
  intros Hi Hn. unfold blocks. rewrite lookup_app_r; rewrite (iw_direct_len _ Hi); [|lia]. f_equal. lia.
Qed.

Lemma bmap_beyond v s sv n doalloc :
  fs_vn s !! v = Some sv → 143 ≤ n → sfs_bmap v n doalloc s = Done (inl EFBIG, s).
Proof.
  intros Hv Hn. unfold sfs_bmap, SFS_NDIRECT, SFS_DBPERIDB. kcall (getvn_ok _ _ _ Hv).
  rewrite (proj2 (Z.ltb_ge _ _)) by lia. rewrite (proj2 (Z.ltb_lt _ _)); [done|].
  assert (1 ≤ (n - 15) / 128) by (apply Z.div_le_lower_bound; lia). lia.
Qed.

Lemma bmap_read v s sv n :
  fs_ok s → file_ok s sv → fs_vn s !! v = Some sv → 0 ≤ n < 143 →
  ∃ b d', sfs_bmap v n false s = Done (inr b, set_dev d' s) ∧ blocks s sv !! Z.to_nat n = Some b ∧ dev_same cur (fs_dev s) d'.
Proof.
  intros Ho Hf Hv Hn. pose proof (fo_inode _ _ Hf) as Hi. pose proof (blocks_length _ _ Ho Hf) as Hl. unfold MAXBLOCKS in Hl.
  destruct (lookup_lt_is_Some_2 (blocks s sv) (Z.to_nat n)) as [b Hb]; [lia|].
  assert (Hbs : b ∈ slots s sv) by (right; by eapply list_elem_of_lookup_2). exists b.
  unfold sfs_bmap, SFS_NDIRECT, SFS_DBPERIDB. kcall (getvn_ok _ _ _ Hv).
  assert (Hself : set_dev (fs_dev s) s = s) by (by destruct s).
  destruct (Z.ltb_spec n 15).
  - exists (fs_dev s). rewrite blocks_direct in Hb by (done || lia). rewrite (step_lookup _ _ _ _ Hb), andb_false_r, Hself.
    rewrite (hand_back_slot s sv b) by done. rewrite blocks_direct by (done || lia).
    split_and!; [done|done|apply dev_same_refl, Ho].
  - rewrite Z.div_small, Z.mod_small by lia. cbn [Z.ltb Z.compare negb]. rewrite andb_true_r.
    assert (Hw : idwords s sv !! Z.to_nat (n - 15) = Some b).
    { rewrite <- blocks_indirect by (done || lia). by replace (n - 15 + 15) with n by lia. }
    unfold idwords in Hw. destruct (Z.eqb_spec (sfi_indirect (sv_i sv)) 0) as [E|E].
    + exists (fs_dev s). apply lookup_replicate in Hw as [-> _]. rewrite Hself. split_and!; [done|done|apply dev_same_refl, Ho].
    + destruct (rblock_ok cur s (sfi_indirect (sv_i sv))) as (d' & Er & Hd); [done|apply (slots_range s sv _ Ho Hf); by left|].
      exists d'. split_and!; [|done|done]. unfold indirect_block. rewrite (proj2 (Z.eqb_neq _ _) E).
      erewrite ebind_inr; [|by rewrite (ebind_inr _ _ _ _ _ Er)].
      cbv beta iota. unfold indirect_entry. rewrite (step_lookup _ _ _ _ Hw), andb_false_r.
      destruct (same_dev s d' sv Ho Hf Hd) as (F1 & F2 & _). apply (hand_back_slot _ sv); [by apply fs_ok_same|done|by rewrite F2].
Qed.

Lemma set_direct_wf k b i : inode_wf i → is_u32 b → inode_wf (set_direct k b i).
Proof. intros [] Hb. split; try done; cbn; [by rewrite length_insert|by apply Forall_insert]. Qed.
Lemma set_indirect_wf b i : inode_wf i → is_u32 b → inode_wf (set_indirect b i).
Proof. by intros []. Qed.
Lemma touch_same f sv :
  sfi_type (f (sv_i sv)) = sfi_type (sv_i sv) → sfi_linkcount (f (sv_i sv)) = sfi_linkcount (sv_i sv) → same_vnode sv (touch f sv).
Proof. by split. Qed.

Lemma hole_zeros s sv n : blocks s sv !! n = Some 0 → fblocks s sv !! n = Some (replicate 512 0).
Proof. intros H. unfold fblocks. by rewrite list_lookup_fmap, H. Qed.

(** What [sfs_bmap] leaves when it may allocate; without a free block the
    position is in a hole. *)
Definition bmap_post v s sv (n : Z) (r : Z + Z) s' sv' : Prop :=
  vstep v s sv s' sv' ∧ fblocks s' sv' = fblocks s sv ∧ sfi_size (sv_i sv') = sfi_size (sv_i sv) ∧
  match r with
  | inl e => e = ENOSPC ∧ full s' ∧ fblocks s' sv' !! Z.to_nat n = Some (replicate 512 0)
  | inr b => b ≠ 0 ∧ blocks s' sv' !! Z.to_nat n = Some b
  end.

Lemma took_u32 b s s1 : fs_ok s → took cur b s s1 → is_u32 b.
Proof. intros Ho Ht. pose proof (tk_range _ _ _ _ Ht). pose proof (ok_small _ _ Ho). unfold is_u32. lia. Qed.

(** The data of the file's blocks when a fresh block was taken. *)
Lemma took_idwords b s sv s1 : fs_ok s → file_ok s sv → took cur b s s1 → idwords s1 sv = idwords s sv.
Proof.
  intros Ho Hf Ht. unfold idwords. destruct (Z.eqb_spec (sfi_indirect (sv_i sv)) 0) as [|E]; [done|].
  pose proof (indirect_owned s sv E) as Hi. destruct (fo_range _ _ Hf _ Hi). f_equal.
  apply (tk_data _ _ _ _ Ht); [lia|]. intros E2. rewrite E2 in *. by apply (tk_free _ _ _ _ Ht).
Qed.

(** A fresh block put into a place of the inode. *)
Lemma fill_inode v k b f s sv s1 :
  fs_ok s → file_ok s sv → fs_vn s !! v = Some sv → took cur b s s1 → slots s sv !! k = Some 0 →
  same_vnode sv (touch f sv) → inode_wf (f (sv_i sv)) → sfi_size (f (sv_i sv)) = sfi_size (sv_i sv) →
  let sv' := touch f sv in
  let s' := set_vn (<[v := sv']> (fs_vn s1)) s1 in
  slots s1 sv' = <[k := b]> (slots s sv) →
  vstep v s sv s' sv' ∧ fblocks s' sv' = fblocks s sv.
Proof.
  intros Ho Hf Hv Ht Hk Hsm Hi Hsz sv' s' Hs. apply (fill v k b s sv s1); try done.
  - destruct Ht as [_ _ _ [] _ _ _ _ _]. by split.
  - cbn. by rewrite (tk_vn _ _ _ _ Ht).
  - apply Ht.
Qed.

Lemma bmap_direct v s sv n :
  fs_ok s → file_ok s sv → fs_vn s !! v = Some sv → 0 ≤ n < 15 →
  ∃ r s' sv', sfs_bmap v n true s = Done (r, s') ∧ bmap_post v s sv n r s' sv'.
Proof.
  intros Ho Hf Hv Hn. pose proof (fo_inode _ _ Hf) as Hi. pose proof (iw_direct_len _ Hi) as Hl.
  destruct (lookup_lt_is_Some_2 (sfi_direct (sv_i sv)) (Z.to_nat n)) as [b Hb]; [lia|].
  assert (Hbb : blocks s sv !! Z.to_nat n = Some b) by (by rewrite blocks_direct).
  unfold sfs_bmap, SFS_NDIRECT. kcall (getvn_ok _ _ _ Hv). rewrite (proj2 (Z.ltb_lt n 15)) by lia.
  rewrite (step_lookup _ _ _ _ Hb), andb_true_r. destruct (Z.eqb_spec b 0) as [->|E].
  - destruct (balloc_ok cur s Ho) as [[Ea Hfull]|(b & s1 & Ea & Ht)].
    { exists (inl ENOSPC), s, sv. split; [by rewrite (ebind_inl _ _ _ _ _ Ea)|]. split; [by apply vstep_refl|]. by pose proof (hole_zeros _ _ _ Hbb). }
    set (sv' := touch (set_direct (Z.to_nat n) b) sv).
    destruct (fill_inode v (S (Z.to_nat n)) b (set_direct (Z.to_nat n) b) s sv s1) as [V F]; try done.
    { apply set_direct_wf; [done|by eapply took_u32]. }
    { unfold slots, blocks. rewrite insert_cons, insert_app_l by lia. do 2 f_equal. exact (took_idwords b s sv s1 Ho Hf Ht). }
    eexists (inr b), _, sv'. split; [|split; [exact V|]].
    + rewrite (ebind_inr _ _ _ _ _ Ea). rewrite <- (tk_vn _ _ _ _ Ht) in Hv. kcall (modvn_ok v (touch (set_direct (Z.to_nat n) b)) s1 sv Hv).
      apply (hand_back_slot _ sv'); [apply V|apply V|]. right. apply elem_of_app. left. cbn.
      eapply list_elem_of_lookup_2, list_lookup_insert_eq. lia.
    + split; [done|]. split; [done|]. pose proof (tk_range _ _ _ _ Ht). split; [lia|].
      rewrite blocks_direct; [|apply V|done]. cbn. by rewrite list_lookup_insert_eq by lia.
  - exists (inr b), s, sv. split; [|split; [by apply vstep_refl|done]].
    apply (hand_back_slot _ sv); [done|done|]. right. by eapply list_elem_of_lookup_2.
Qed.

Lemma indirect_block_ok v s sv :
  fs_ok s → file_ok s sv → fs_vn s !! v = Some sv →
  ∃ r s' sv', indirect_block v (sfi_indirect (sv_i sv)) s = Done (r, s') ∧
    vstep v s sv s' sv' ∧ fblocks s' sv' = fblocks s sv ∧ sfi_size (sv_i sv') = sfi_size (sv_i sv) ∧
    match r with
    | inl e => e = ENOSPC ∧ full s' ∧ sfi_indirect (sv_i sv') = 0
    | inr (idblock, idbuf) => idblock ≠ 0 ∧ sfi_indirect (sv_i sv') = idblock ∧ idbuf = idwords s' sv'
    end.
Proof.
  intros Ho Hf Hv. pose proof (fo_inode _ _ Hf) as Hi. unfold indirect_block.
  destruct (Z.eqb_spec (sfi_indirect (sv_i sv)) 0) as [E|E].
  - destruct (balloc_ok cur s Ho) as [[Ea Hfull]|(b & s1 & Ea & Ht)].
    { exists (inl ENOSPC), s, sv. split; [by rewrite (ebind_inl _ _ _ _ _ Ea)|]. by split; [apply vstep_refl|]. }
    set (sv' := touch (set_indirect b) sv). pose proof (tk_range _ _ _ _ Ht).
    assert (Hw : idwords s1 sv' = replicate 128 0).
    { unfold idwords. cbn. rewrite (proj2 (Z.eqb_neq _ _)), (tk_zero _ _ _ _ Ht) by lia. apply (words_of_zeros 128). }
    destruct (fill_inode v 0 b (set_indirect b) s sv s1) as [V F]; try done.
    { unfold slots. by rewrite E. }
    { apply set_indirect_wf; [done|by eapply took_u32]. }
    { unfold slots, blocks. fold sv'. rewrite Hw. cbn. f_equal. f_equal. unfold idwords. by rewrite E. }
    eexists (inr (b, replicate 128 0)), _, sv'. split; [|split; [exact V|]].
    + rewrite (ebind_inr _ _ _ _ _ Ea). rewrite <- (tk_vn _ _ _ _ Ht) in Hv. by kcall (modvn_ok v (touch (set_indirect b)) s1 sv Hv).
    + split; [done|]. split; [done|]. split; [lia|]. split; [done|]. by rewrite <- Hw.
  - destruct (rblock_ok cur s (sfi_indirect (sv_i sv))) as (d' & Er & Hd); [done|apply (slots_range s sv _ Ho Hf); by left|].
    destruct (same_dev s d' sv Ho Hf Hd) as (F1 & F2 & F3).
    eexists (inr (_, _)), _, sv. split; [by rewrite (ebind_inr _ _ _ _ _ Er)|].
    split; [by apply vstep_dev|]. split; [done|]. split; [done|]. split; [done|]. split; [done|].
    assert (Hb : blocks (set_dev d' s) sv = blocks s sv) by (by injection F2).
    apply app_inv_head in Hb. rewrite Hb. unfold idwords. by rewrite (proj2 (Z.eqb_neq _ _) E).
Qed.

Lemma indirect_entry_ok v s sv n :
  fs_ok s → file_ok s sv → fs_vn s !! v = Some sv → sfi_indirect (sv_i sv) ≠ 0 → 0 ≤ n < 128 →
  ∃ r s' sv', indirect_entry (sfi_indirect (sv_i sv)) (idwords s sv) n true s = Done (r, s') ∧ bmap_post v s sv (n + 15) r s' sv'.
Proof.
  intros Ho Hf Hv Hind Hn. pose proof (fo_inode _ _ Hf) as Hi. pose proof (idwords_length _ _ Ho Hf) as Hl.
  destruct (lookup_lt_is_Some_2 (idwords s sv) (Z.to_nat n)) as [b Hb]; [lia|].
  assert (Hbb : blocks s sv !! Z.to_nat (n + 15) = Some b) by (by rewrite blocks_indirect by (done || lia)).
  unfold indirect_entry. rewrite (step_lookup _ _ _ _ Hb), andb_true_r. destruct (Z.eqb_spec b 0) as [->|E].
  - destruct (balloc_ok cur s Ho) as [[Ea Hfull]|(b & s1 & Ea & Ht)].
    { exists (inl ENOSPC), s, sv. split; [by rewrite (ebind_inl _ _ _ _ _ Ea)|]. split; [by apply vstep_refl|]. by pose proof (hole_zeros _ _ _ Hbb). }
    set (ids := <[Z.to_nat n := b]> (idwords s sv)).
    assert (Hids : Forall is_u32 ids) by (apply Forall_insert; [by apply idwords_range|by eapply took_u32]).
    assert (Hidl : length (bytes_of ids) = 512%nat) by (unfold ids; rewrite length_bytes_of, length_insert, Hl; done).
    destruct (fo_range _ _ Hf _ (indirect_owned s sv Hind)) as [Hir Hiu].
    pose proof (tk_ok _ _ _ _ Ht) as Ho1. pose proof (same_rest_nblocks _ _ (tk_rest _ _ _ _ Ht)) as Hnb.
    destruct (wblock_ok cur s1 (sfi_indirect (sv_i sv)) (bytes_of ids)) as (d' & Ew & Hd); [done|lia|done|].
    set (s' := set_dev d' s1).
    assert (Hw : idwords s' sv = ids).
    { unfold idwords. rewrite (proj2 (Z.eqb_neq _ _) Hind). change (data s' (sfi_indirect (sv_i sv))) with (d_data (cur := cur) d' (sfi_indirect (sv_i sv))).
      rewrite (du_new _ _ _ _ _ Hd). by apply words_of_bytes. }
    assert (Ho' : fs_ok s') by (apply fs_ok_dev; [done|apply Hd|apply Hd]).
    destruct (fill v (S (Z.to_nat (n + 15))) b s sv s1 s' sv) as [V F]; try done.
    { cbn. by rewrite (tk_vn _ _ _ _ Ht), insert_id. }
    2: { apply Ht. }
    { intros c Hc Hci. apply (du_data _ _ _ _ _ Hd); [pose proof (ok_blocks _ _ Ho1); lia|]. destruct (decide (c = 0)); [congruence|auto]. }
    { unfold slots, blocks. rewrite Hw, insert_cons, insert_app_r_alt by (rewrite (iw_direct_len _ Hi); lia).
      unfold ids. rewrite (iw_direct_len _ Hi). do 3 f_equal. lia. }
    assert (Hbn : blocks s' sv !! Z.to_nat (n + 15) = Some b).
    { rewrite blocks_indirect, Hw by (done || lia). apply list_lookup_insert_eq. lia. }
    exists (inr b), s', sv. split; [|split; [done|split; [done|split; [done|split; [|done]]]]].
    + rewrite (ebind_inr _ _ _ _ _ Ea). kcall Ew. cbn [Z.eqb negb].
      apply (hand_back_slot _ sv); [done|apply V|]. right. by eapply list_elem_of_lookup_2.
    + pose proof (tk_range _ _ _ _ Ht). lia.
  - exists (inr b), s, sv. split; [|split; [by apply vstep_refl|done]].
    apply (hand_back_slot _ sv); [done|done|]. right. by eapply list_elem_of_lookup_2.
Qed.

(** A position within the size of a file: its block is found, in place of a
    hole a block of zeros is taken, or there is no free block. *)
Lemma bmap_write v s sv n :
  fs_ok s → file_ok s sv → fs_vn s !! v = Some sv → 0 ≤ n < 143 →
  ∃ r s' sv', sfs_bmap v n true s = Done (r, s') ∧ bmap_post v s sv n r s' sv'.
Proof.
  intros Ho Hf Hv Hn. destruct (decide (n < 15)); [apply bmap_direct; (done || lia)|].
  unfold sfs_bmap, SFS_NDIRECT, SFS_DBPERIDB. kcall (getvn_ok _ _ _ Hv).
  rewrite (proj2 (Z.ltb_ge _ _)) by lia. rewrite Z.div_small, Z.mod_small by lia. cbn [Z.ltb Z.compare negb]. rewrite andb_false_r.
  destruct (indirect_block_ok v s sv Ho Hf Hv) as ([e|[idb ids]] & s1 & sv1 & E & V & F & Z1 & R).
  - exists (inl e), s1, sv1. split; [by rewrite (ebind_inl _ _ _ _ _ E)|]. destruct R as (-> & Hfull & H0).
    split_and!; try done. apply hole_zeros. replace n with (n - 15 + 15) by lia. rewrite blocks_indirect by (apply V || lia).
    unfold idwords. rewrite H0. apply lookup_replicate_2. lia.
  - destruct R as (Hi0 & <- & ->). rewrite (ebind_inr _ _ _ _ _ E).
    destruct (indirect_entry_ok v s1 sv1 (n - 15)) as (r & s2 & sv2 & E2 & V2 & F2 & Z2 & R2);
      [apply V|apply V|rewrite (vs_vn _ _ _ _ _ V); apply lookup_insert_eq|done|lia|].
    exists r, s2, sv2. split; [done|]. split; [by eapply vstep_trans|]. split; [congruence|]. split; [congruence|].
    by replace (n - 15 + 15) with n in R2 by lia.
Qed.
End File.
