(* ===== verification/SfsIo.v ===== *)
(** * SFS: reading and writing files

    A transfer moves a stretch of the file's contents: reading delivers it,
    writing replaces it.  The lemmas go up from partial and whole blocks to
    [sfs_io]; a transfer that stops early has moved a prefix, and the reason is
    that the disk is full or that the position is past the largest file. *)

From stdpp Require Import base numbers list gmap sets.
From Stdlib Require Import ZArith Lia.
From S2P Require Import Prelude Bitmap Uio Device SfsDisk Sfs SfsBlocks SfsFile.

Open Scope Z_scope.
Open Scope kernel_scope.

(** ** Stretches of a list *)

Section Stretches.
Implicit Types (l d : list Z) (ls : list (list Z)).

Definition slice (off n : nat) l : list Z := take n (drop off l).
Definition splice (off : nat) d l : list Z := take off l ++ d ++ drop (off + length d) l.

Lemma slice_app off n1 n2 l : slice off n1 l ++ slice (off + n1) n2 l = slice off (n1 + n2) l.
Proof. unfold slice. rewrite <- drop_drop, <- (take_drop n1 (take (n1 + n2) (drop off l))). rewrite take_take, Nat.min_l by lia. f_equal. rewrite skipn_firstn_comm. f_equal. lia. Qed.

Lemma splice_length off d l : (off + length d ≤ length l)%nat → length (splice off d l) = length l.
Proof. intros H. unfold splice. rewrite !length_app, length_take, length_drop. lia. Qed.
Lemma splice_nil off l : splice off [] l = l.
Proof. unfold splice. cbn [length app]. rewrite Nat.add_0_r. apply take_drop. Qed.
Lemma splice_app off d1 d2 l :
  ((0 < length d1)%nat → (off + length d1 ≤ length l)%nat) → splice (off + length d1) d2 (splice off d1 l) = splice off (d1 ++ d2) l.
Proof.
  intros H. destruct (decide (d1 = [])) as [->|Hd]; [by rewrite splice_nil, Nat.add_0_r|].
  specialize (H ltac:(destruct d1; [done|cbn; lia])). unfold splice.
  assert (Hl : length (take off l ++ d1) = (off + length d1)%nat) by (rewrite length_app, length_take; lia).
  rewrite (app_assoc (take off l) d1), take_app_length' by done. rewrite <- !app_assoc. do 3 f_equal.
  rewrite length_app, app_assoc. rewrite <- Hl at 1. rewrite drop_app_add, drop_drop. f_equal. lia.
Qed.

Lemma concat_length ls : Forall (λ l, length l = 512%nat) ls → length (concat ls) = (512 * length ls)%nat.
Proof. induction 1 as [|l ls Hl _ IH]; [done|]. cbn [concat length]. rewrite length_app, IH, Hl. lia. Qed.

Lemma concat_split ls i b :
  Forall (λ l, length l = 512%nat) ls → ls !! i = Some b →
  ∃ p q, concat ls = p ++ b ++ q ∧ length p = (512 * i)%nat ∧ length b = 512%nat ∧ ∀ b', concat (<[i := b']> ls) = p ++ b' ++ q.
Proof.
  intros Hf Hi. exists (concat (take i ls)), (concat (drop (S i) ls)). pose proof (lookup_lt_Some _ _ _ Hi).
  split_and!.
  - rewrite <- (take_drop_middle ls i b Hi) at 1. rewrite concat_app. done.
  - rewrite concat_length by (by apply Forall_take). rewrite length_take. lia.
  - by eapply (Forall_lookup_1 _ _ _ _ Hf).
  - intros b'. rewrite insert_take_drop, concat_app by done. done.
Qed.

Lemma concat_slice ls i b skip len :
  Forall (λ l, length l = 512%nat) ls → ls !! i = Some b → (skip + len ≤ 512)%nat →
  slice (512 * i + skip) len (concat ls) = slice skip len b.
Proof.
  intros Hf Hi Hl. destruct (concat_split _ _ _ Hf Hi) as (p & q & -> & Hp & Hb & _). unfold slice.
  rewrite <- Hp, drop_app_add, drop_app_le, take_app_le by (rewrite ?length_drop; lia). done.
Qed.
Lemma concat_splice ls i b skip d :
  Forall (λ l, length l = 512%nat) ls → ls !! i = Some b → (skip + length d ≤ 512)%nat →
  concat (<[i := splice skip d b]> ls) = splice (512 * i + skip) d (concat ls).
Proof.
  intros Hf Hi Hl. destruct (concat_split _ _ _ Hf Hi) as (p & q & E & Hp & Hb & Hc). rewrite Hc, E. unfold splice.
  rewrite <- Hp, take_app_add, (take_app_le b) by lia. rewrite <- Nat.add_assoc, drop_app_add, drop_app_le by lia.
  by rewrite <- !app_assoc.
Qed.
End Stretches.

Section Io.
Context (cur : option nat) {D : Type} {DV : Device D} {BD : BlockDevice cur D}.
Abbreviation fs := (@sfs_fs D).
Abbreviation data := (data cur).
Abbreviation fs_ok := (fs_ok cur).
Abbreviation file_ok := (file_ok cur).
Abbreviation contents := (contents cur).
Abbreviation vstep := (vstep cur).
Implicit Types (s : fs) (sv : sfs_vnode) (b c : Z) (v : nat) (u : uio).

(** ** The result of a transfer *)

(** Why a transfer stops early. *)
Definition in_hole (o : Z) s sv : Prop := ∃ i, 512 * i ≤ o < 512 * (i + 1) ∧ fblocks cur s sv !! Z.to_nat i = Some (replicate 512 0).
Definition fails (r : Z) u' s' sv' : Prop :=
  (r = ENOSPC ∧ is_read u' = false ∧ full s' ∧ in_hole (uio_offset u') s' sv') ∨ (r = EFBIG ∧ MAXSIZE ≤ uio_offset u').

Record moved v u s sv (k : nat) (r : Z) u' s' sv' : Prop := {
  m_step : vstep v s sv s' sv';
  m_size : sfi_size (sv_i sv') = sfi_size (sv_i sv);
  m_uio : uio_moved cur k (if is_read u then slice (Z.to_nat (uio_offset u)) k (contents s sv) else []) u u';
  m_contents : contents s' sv' =
    if is_read u then contents s sv else splice (Z.to_nat (uio_offset u)) (take k (concat (uio_iov u))) (contents s sv);
  m_read : is_read u = true → sv' = sv ∧ ∃ d', s' = set_dev d' s ∧ dev_same cur (fs_dev s) d';
  m_result : r ≠ 0 → fails r u' s' sv'
}.

(** The state of the mounted file system and one of its files. *)
Definition ready v s sv : Prop := fs_ok s ∧ file_ok s sv ∧ fs_vn s !! v = Some sv.
Lemma vstep_ready v s sv s' sv' : vstep v s sv s' sv' → ready v s' sv'.
Proof. intros V. split_and!; [apply V|apply V|]. rewrite (vs_vn _ _ _ _ _ _ V). apply lookup_insert_eq. Qed.
Lemma ready_refl v s sv : ready v s sv → vstep v s sv s sv.
Proof. intros (? & ? & ?). by apply vstep_refl. Qed.

Lemma contents_length s sv : fs_ok s → file_ok s sv → length (contents s sv) = Z.to_nat MAXSIZE.
Proof.
  intros Ho Hf. destruct (fblocks_length cur s sv Ho Hf) as [Hl Hb]. unfold SfsFile.contents. rewrite concat_length, Hl by done. done.
Qed.

Lemma moved_none v u s sv r : ready v s sv → (r ≠ 0 → fails r u s sv) → moved v u s sv 0 r u s sv.
Proof.
  intros Hr Hf. pose proof Hr as (Ho & _ & _). split; try done.
  - by apply ready_refl.
  - destruct (is_read u); [unfold slice; rewrite take_0|]; apply uio_moved_refl.
  - rewrite take_0, splice_nil. by destruct (is_read u).
  - intros _. split; [done|]. exists (fs_dev s). split; [by destruct s|]. apply dev_same_refl, Ho.
Qed.

Lemma moved_trans v u1 s1 sv1 k1 u2 s2 sv2 k2 r u3 s3 sv3 :
  fs_ok s1 → file_ok s1 sv1 → 0 ≤ uio_offset u1 → (k1 ≤ length (concat (uio_iov u1)))%nat →
  ((0 < k1)%nat → uio_offset u1 + Z.of_nat k1 ≤ MAXSIZE) →
  moved v u1 s1 sv1 k1 0 u2 s2 sv2 → moved v u2 s2 sv2 k2 r u3 s3 sv3 → moved v u1 s1 sv1 (k1 + k2) r u3 s3 sv3.
Proof.
  intros Ho Hf H0 Hk Hmax [a1 a2 a3 a4 a5 _] [b1 b2 b3 b4 b5 b6]. pose proof (is_read_moved _ _ _ _ _ a3) as Er.
  pose proof a3 as [i1 i2 i3 i4 i5 i6 i7 i8]. rewrite Er in *.
  replace (Z.to_nat (uio_offset u2)) with (Z.to_nat (uio_offset u1) + k1)%nat in * by lia. split; try done.
  - by eapply vstep_trans.
  - congruence.
  - pose proof (uio_moved_trans _ _ _ _ _ _ _ _ a3 b3) as M. destruct (is_read u1); [|done].
    rewrite a4, slice_app in M. done.
  - rewrite b4. destruct (is_read u1); [done|]. rewrite a4, i1.
    assert (Hl : length (take k1 (concat (uio_iov u1))) = k1) by (rewrite length_take; lia).
    rewrite <- Hl at 1. rewrite splice_app by (rewrite Hl, contents_length by done; lia). f_equal.
    pose proof (slice_app 0 k1 k2 (concat (uio_iov u1))) as T. unfold slice in T. by rewrite !drop_0 in T.
  - intros Hr. destruct (a5 Hr) as [-> (d1 & -> & D1)]. destruct (b5 Hr) as [-> (d2 & -> & D2)]. split; [done|].
    exists d2. split; [done|]. by eapply dev_same_trans.
Qed.

(** ** Part of a block *)

Lemma quot_block o i skip : o = 512 * i + skip → 0 ≤ i < 2 ^ 32 → 0 ≤ skip < 512 → u32 (Z.quot o SFS_BLOCKSIZE) = i.
Proof.
  intros -> Hi Hs. unfold SFS_BLOCKSIZE. rewrite Z.quot_div_nonneg by lia.
  replace ((512 * i + skip) / 512) with i; [by apply u32_small|]. apply (Z.div_unique _ _ _ skip); lia.
Qed.

Lemma fblock_at s sv i b : blocks cur s sv !! i = Some b → fblocks cur s sv !! i = Some (holds cur s b).
Proof. intros H. unfold fblocks. rewrite list_lookup_fmap, H. done. Qed.

(** The block found for a position is read, or is all zeros. *)
Lemma read_found s sv i b :
  fs_ok s → file_ok s sv → blocks cur s sv !! i = Some b → b ≠ 0 →
  ∃ d', sfs_rblock b s = Done (inr (holds cur s b), set_dev d' s) ∧ dev_same cur (fs_dev s) d'.
Proof.
  intros Ho Hf Hb Hn. unfold holds. rewrite (proj2 (Z.eqb_neq _ _) Hn). apply rblock_ok; [done|].
  eapply slots_range; [done|done|]. right. by eapply list_elem_of_lookup_2.
Qed.

Lemma moved_read v u s sv k u' d' :
  ready v s sv → is_read u = true → dev_same cur (fs_dev s) d' →
  uio_moved cur k (slice (Z.to_nat (uio_offset u)) k (contents s sv)) u u' → moved v u s sv k 0 u' (set_dev d' s) sv.
Proof.
  intros (Ho & Hf & Hv) Hr Hd M. destruct (same_dev cur s d' sv Ho Hf Hd) as (_ & _ & F3). split; rewrite ?Hr; try done.
  - by apply vstep_dev.
  - unfold SfsFile.contents. by rewrite F3.
  - intros _. split; [done|]. by exists d'.
Qed.

Lemma partialio_read v u s sv i skip len :
  ready v s sv → is_read u = true → uio_offset u = 512 * i + skip → 0 ≤ i < 143 → 0 ≤ skip < 512 → 0 ≤ len → skip + len ≤ 512 →
  uio_fits cur (Z.to_nat len) u →
  ∃ u' s', sfs_partialio cur v u skip len s = Done ((0, u'), s') ∧ moved v u s sv (Z.to_nat len) 0 u' s' sv.
Proof.
  intros Hrd Hr Hoff Hi Hs Hl Hsl Hfit. pose proof Hrd as (Ho & Hf & Hv). unfold sfs_partialio. rewrite Hr. cbn [negb].
  rewrite step_assert by (unfold SFS_BLOCKSIZE; apply Z.leb_le; nowrap; lia).
  rewrite (quot_block _ i skip) by (done || lia). destruct (bmap_read cur v s sv i Ho Hf Hv Hi) as (b & d1 & E1 & Hb & D1). kcall E1.
  destruct (same_dev cur s d1 sv Ho Hf D1) as (Hf1 & Hs1 & Hc1). set (s1 := set_dev d1 s) in *.
  assert (Ho1 : fs_ok s1) by (by apply fs_ok_same).
  assert (Hb1 : blocks cur s1 sv !! Z.to_nat i = Some b) by (injection Hs1 as ->; done).
  destruct (fblocks_length cur s sv Ho Hf) as [_ Hfb].
  set (iobuf := holds cur s1 b).
  assert (Hblk : fblocks cur s sv !! Z.to_nat i = Some iobuf) by (rewrite <- Hc1; by apply fblock_at).
  assert (Hlen : length iobuf = 512%nat) by (exact (Forall_lookup_1 _ _ _ _ Hfb Hblk)).
  assert (Hrun : ∃ d2, (if b =? 0 then kassert true ;; kret (inr (replicate 512 0)) else sfs_rblock b) s1
      = Done (inr iobuf, set_dev d2 s) ∧ dev_same cur (fs_dev s) d2).
  { destruct (Z.eqb_spec b 0) as [Eb|Eb].
    - exists d1. rewrite step_assert by done. unfold iobuf, holds. by rewrite Eb.
    - destruct (read_found s1 sv (Z.to_nat i) b) as (d2 & E2 & D2); [done..|]. exists d2. split; [done|]. by eapply dev_same_trans. }
  destruct Hrun as (d2 & E2 & D2). kcall E2.
  set (part := take (Z.to_nat len) (drop (Z.to_nat skip) iobuf)).
  assert (Hpl : length part = Z.to_nat len) by (unfold part; rewrite length_take, length_drop; lia).
  destruct (uiomove_read cur part u Hr) as (u' & E3 & M); [by rewrite Hpl|].
  exists u', (set_dev d2 s). split.
  - unfold move. unfold kbind at 1. rewrite E3. cbn [Z.eqb negb]. by rewrite (is_read_moved _ _ _ _ _ M), Hr.
  - apply moved_read; [done..|]. rewrite Hpl in M. replace (slice _ _ _) with part; [done|].
    rewrite Hoff. replace (Z.to_nat (512 * i + skip)) with (512 * Z.to_nat i + Z.to_nat skip)%nat by lia.
    symmetry. apply concat_slice; [done|done|lia].
Qed.

Lemma partialio_write v u s sv i skip len :
  ready v s sv → is_read u = false → uio_offset u = 512 * i + skip → 0 ≤ i < 143 → 0 ≤ skip < 512 → 0 ≤ len → skip + len ≤ 512 →
  uio_fits cur (Z.to_nat len) u →
  ∃ k r u' s' sv', sfs_partialio cur v u skip len s = Done ((r, u'), s') ∧ moved v u s sv k r u' s' sv' ∧
    (r = 0 → k = Z.to_nat len) ∧ (r ≠ 0 → k = 0%nat).
Proof.
  intros Hrd Hr Hoff Hi Hs Hl Hsl Hfit. pose proof Hrd as (Ho & Hf & Hv). unfold sfs_partialio. rewrite Hr. cbn [negb].
  rewrite step_assert by (unfold SFS_BLOCKSIZE; apply Z.leb_le; nowrap; lia).
  rewrite (quot_block _ i skip) by (done || lia).
  destruct (bmap_write cur v s sv i Ho Hf Hv Hi) as ([e|b] & s1 & sv1 & E1 & V1 & F1 & Z1 & R1); kcall E1.
  { destruct R1 as (-> & Hfull & Hhole). exists 0%nat, ENOSPC, u, s1, sv1. split; [done|]. split; [|done].
    split; rewrite ?Hr; try done; [apply uio_moved_refl| |left; split_and!; [done..|exists i; split; [lia|done]]].
    rewrite take_0, splice_nil. unfold SfsFile.contents. by rewrite F1. }
  destruct R1 as [Hb0 Hb]. destruct (vstep_ready _ _ _ _ _ V1) as (Ho1 & Hf1 & Hv1).
  rewrite (proj2 (Z.eqb_neq _ _) Hb0). destruct (read_found s1 sv1 _ b Ho1 Hf1 Hb Hb0) as (d2 & E2 & D2). kcall E2.
  set (iobuf := holds cur s1 b). set (s2 := set_dev d2 s1).
  pose proof (fblock_at _ _ _ _ Hb) as Hblk. destruct (fblocks_length cur s1 sv1 Ho1 Hf1) as [_ Hfb].
  assert (Hlen : length iobuf = 512%nat) by (exact (Forall_lookup_1 _ _ _ _ Hfb Hblk)).
  set (part := take (Z.to_nat len) (drop (Z.to_nat skip) iobuf)).
  assert (Hpl : length part = Z.to_nat len) by (unfold part; rewrite length_take, length_drop; lia).
  destruct (uiomove_write cur part u Hr) as (u' & E3 & M); [by rewrite Hpl|]. rewrite Hpl in E3, M.
  set (out := take (Z.to_nat len) (concat (uio_iov u))) in *.
  assert (Hol : length out = Z.to_nat len).
  { unfold out. rewrite length_take. destruct Hfit as (_ & Hroom & _). unfold room in Hroom. lia. }
  destruct (same_dev cur s1 d2 sv1 Ho1 Hf1 D2) as (Hf2 & Hs2 & Hc2). fold s2 in Hf2, Hs2, Hc2.
  assert (Ho2 : fs_ok s2) by (by apply fs_ok_same).
  assert (Hb2 : blocks cur s2 sv1 !! Z.to_nat i = Some b) by (injection Hs2 as ->; done).
  assert (Hsp : take (Z.to_nat skip) iobuf ++ out ++ drop (Z.to_nat (skip + len)) iobuf = splice (Z.to_nat skip) out iobuf).
  { unfold splice. rewrite Hol. do 3 f_equal. lia. }
  destruct (wblock_ok cur s2 b (splice (Z.to_nat skip) out iobuf)) as (d3 & E4 & D3); [done| |rewrite splice_length; lia|].
  { eapply slots_range; [done|done|]. right. by eapply list_elem_of_lookup_2. }
  destruct (poke cur v (Z.to_nat i) b (splice (Z.to_nat skip) out iobuf) s2 sv1 d3) as [V3 F3]; [done..|].
  exists (Z.to_nat len), 0, u', (set_dev d3 s2), sv1. split; [|split; [|done]].
  - unfold move. unfold kbind at 1. rewrite E3. cbn [Z.eqb negb]. rewrite (is_read_moved _ _ _ _ _ M), Hr.
    fold iobuf. rewrite Hsp. by kcall E4.
  - split; rewrite ?Hr; try done.
    + eapply vstep_trans; [done|]. eapply vstep_trans; [|done]. by apply vstep_dev.
    + unfold SfsFile.contents. rewrite F3, Hc2. fold out. rewrite Hoff.
      replace (Z.to_nat (512 * i + skip)) with (512 * Z.to_nat i + Z.to_nat skip)%nat by lia.
      rewrite concat_splice by (done || lia). by rewrite F1.
Qed.

(** A position past the largest file. *)
Lemma moved_beyond v u s sv i : ready v s sv → 143 ≤ i → 512 * i ≤ uio_offset u → moved v u s sv 0 EFBIG u s sv.
Proof. intros Hr Hi Ho. apply moved_none; [done|]. intros _. right. unfold MAXSIZE. split; [done|lia]. Qed.

Lemma partialio_ok v u s sv i skip len :
  ready v s sv → uio_offset u = 512 * i + skip → 0 ≤ i < 2 ^ 32 → 0 ≤ skip < 512 → 0 ≤ len → skip + len ≤ 512 →
  uio_fits cur (Z.to_nat len) u →
  ∃ k r u' s' sv', sfs_partialio cur v u skip len s = Done ((r, u'), s') ∧ moved v u s sv k r u' s' sv' ∧
    (r = 0 → k = Z.to_nat len ∧ i < 143) ∧ (r ≠ 0 → k = 0%nat).
Proof.
  intros Hrd Hoff Hi Hs Hl Hsl Hfit. destruct (decide (i < 143)).
  - destruct (is_read u) eqn:Hr.
    + destruct (partialio_read v u s sv i skip len) as (u' & s' & E & M); [done..|lia|done|done|done|done|].
      exists (Z.to_nat len), 0, u', s', sv. by split_and!.
    + destruct (partialio_write v u s sv i skip len) as (k & r & u' & s' & sv' & E & M & Hk & Hkl); [done..|lia|done|done|done|done|].
      exists k, r, u', s', sv'. split_and!; auto.
  - exists 0%nat, EFBIG, u, s, sv. split; [|split; [apply (moved_beyond _ _ _ _ i); [done|lia|lia]|done]].
    pose proof Hrd as (_ & _ & Hv). unfold sfs_partialio.
    rewrite step_assert by (unfold SFS_BLOCKSIZE; apply Z.leb_le; nowrap; lia).
    rewrite (quot_block _ i skip) by (done || lia). by kcall (bmap_beyond v s sv i (negb (is_read u)) Hv ltac:(lia)).
Qed.

(** ** A whole block *)

(** The descriptor that [sfs_blockio] hands to the device, and what it makes of
    it afterwards. *)
Lemma device_uio u b :
  uio_fits cur 512 u → 0 ≤ b < 2 ^ 23 → one_sector cur b (set_resid 512 (set_offset (u32 (b * 512)) u)).
Proof.
  intros (Hg & Hr & Hr2 & Ho & Ho2) Hb. unfold one_sector, uio_fits, room in *. cbn. rewrite u32_small by lia. split_and!; (done || lia).
Qed.
Lemma restore_uio u b out u2 :
  uio_fits cur 512 u → 0 ≤ b < 2 ^ 23 → uio_moved cur 512 out (set_resid 512 (set_offset (u32 (b * 512)) u)) u2 →
  uio_moved cur 512 out u
    (set_resid (u32 (uio_resid u2 - 512 + uio_resid u)) (set_offset (i64 (uio_offset u2 - u32 (b * 512) + uio_offset u)) u2)).
Proof.
  intros (Hg & Hr & Hr2 & Ho & Ho2) Hb [a1 a2 a3 a4 a5 a6 a7 a8]. cbn in *. split; cbn; try done.
  - rewrite a2, i64_small; lia.
  - rewrite a3, u32_small; lia.
Qed.

Lemma blockio_read v u s sv i :
  ready v s sv → is_read u = true → uio_offset u = 512 * i → 0 ≤ i < 143 → uio_fits cur 512 u →
  ∃ u' s', sfs_blockio cur v u s = Done ((0, u'), s') ∧ moved v u s sv 512 0 u' s' sv.
Proof.
  intros Hrd Hr Hoff Hi Hfit. pose proof Hrd as (Ho & Hf & Hv). unfold sfs_blockio. rewrite Hr. cbn [negb].
  rewrite (quot_block _ i 0) by lia. destruct (bmap_read cur v s sv i Ho Hf Hv Hi) as (b & d1 & E1 & Hb & D1). kcall E1.
  destruct (same_dev cur s d1 sv Ho Hf D1) as (Hf1 & Hs1 & Hc1). set (s1 := set_dev d1 s) in *.
  assert (Ho1 : fs_ok s1) by (by apply fs_ok_same).
  assert (Hb1 : blocks cur s1 sv !! Z.to_nat i = Some b) by (injection Hs1 as ->; done).
  destruct (fblocks_length cur s sv Ho Hf) as [_ Hfb].
  assert (Hblk : fblocks cur s sv !! Z.to_nat i = Some (holds cur s1 b)) by (rewrite <- Hc1; by apply fblock_at).
  assert (Hlen : length (holds cur s1 b) = 512%nat) by (exact (Forall_lookup_1 _ _ _ _ Hfb Hblk)).
  assert (Hsl : slice (Z.to_nat (uio_offset u)) 512 (contents s sv) = holds cur s1 b).
  { rewrite Hoff. replace (Z.to_nat (512 * i)) with (512 * Z.to_nat i + 0)%nat by lia.
    unfold SfsFile.contents. rewrite (concat_slice _ _ _ 0 512 Hfb Hblk) by lia. unfold slice. rewrite drop_0. apply take_ge. lia. }
  destruct (Z.eqb_spec b 0) as [Eb|Eb].
  - rewrite step_assert by done. destruct (uiomovezeros_ok cur 512 u Hr Hfit) as (u' & E2 & M).
    exists u', s1. split; [unfold move_zeros, SFS_BLOCKSIZE; change 512 with (Z.of_nat 512); by rewrite E2|].
    apply moved_read; [done..|]. rewrite Hsl. unfold holds. by rewrite Eb.
  - assert (Hbr : 0 ≤ b < nblocks s1) by (eapply slots_range; [done|done|]; right; by eapply list_elem_of_lookup_2).
    pose proof (ok_small _ _ Ho1). unfold SFS_BLOCKSIZE.
    rewrite step_assert by (destruct Hfit as (_ & ? & _); apply Z.leb_le; lia).
    destruct (rwblock_read cur b (set_resid 512 (set_offset (u32 (b * 512)) u)) s1) as (u2 & d2 & E2 & M & D2);
      [done|done|apply device_uio; [done|lia]|done|].
    kcall E2. eexists _, _. split; [reflexivity|]. apply (moved_read v u s sv 512 _ d2); [done..|by eapply dev_same_trans|].
    rewrite Hsl. unfold holds. rewrite (proj2 (Z.eqb_neq _ _) Eb). apply restore_uio; [done|lia|done].
Qed.

Lemma blockio_write v u s sv i :
  ready v s sv → is_read u = false → uio_offset u = 512 * i → 0 ≤ i < 143 → uio_fits cur 512 u →
  ∃ k r u' s' sv', sfs_blockio cur v u s = Done ((r, u'), s') ∧ moved v u s sv k r u' s' sv' ∧ (r = 0 → k = 512%nat) ∧ (r ≠ 0 → k = 0%nat).
Proof.
  intros Hrd Hr Hoff Hi Hfit. pose proof Hrd as (Ho & Hf & Hv). unfold sfs_blockio. rewrite Hr. cbn [negb].
  rewrite (quot_block _ i 0) by lia.
  destruct (bmap_write cur v s sv i Ho Hf Hv Hi) as ([e|b] & s1 & sv1 & E1 & V1 & F1 & Z1 & R1); kcall E1.
  { destruct R1 as (-> & Hfull & Hhole). exists 0%nat, ENOSPC, u, s1, sv1. split; [done|]. split; [|done].
    split; rewrite ?Hr; try done; [apply uio_moved_refl| |left; split_and!; [done..|exists i; split; [lia|done]]].
    rewrite take_0, splice_nil. unfold SfsFile.contents. by rewrite F1. }
  destruct R1 as [Hb0 Hb]. destruct (vstep_ready _ _ _ _ _ V1) as (Ho1 & Hf1 & Hv1).
  rewrite (proj2 (Z.eqb_neq _ _) Hb0). unfold SFS_BLOCKSIZE.
  assert (Hbr : 0 ≤ b < nblocks s1) by (eapply slots_range; [done|done|]; right; by eapply list_elem_of_lookup_2).
  pose proof (ok_small _ _ Ho1). rewrite step_assert by (destruct Hfit as (_ & ? & _); apply Z.leb_le; lia).
  destruct (rwblock_write cur b (set_resid 512 (set_offset (u32 (b * 512)) u)) s1) as (u2 & d2 & E2 & M & D2);
    [done|done|apply device_uio; [done|lia]|done|].
  cbn [set_resid set_offset uio_iov] in D2. set (out := take 512 (concat (uio_iov u))) in *.
  destruct (poke cur v (Z.to_nat i) b out s1 sv1 d2) as [V2 F2]; [done..|].
  destruct (fblocks_length cur s1 sv1 Ho1 Hf1) as [_ Hfb]. pose proof (fblock_at _ _ _ _ Hb) as Hblk.
  assert (Hol : length out = 512%nat).
  { unfold out. rewrite length_take. destruct Hfit as (_ & Hroom & _). unfold room in Hroom. lia. }
  kcall E2. eexists 512%nat, 0, _, (set_dev d2 s1), sv1. split; [reflexivity|]. split; [|done].
  split; rewrite ?Hr; try done.
  - by eapply vstep_trans.
  - apply restore_uio; [done|lia|done].
  - unfold SfsFile.contents. rewrite F2. fold out. rewrite <- F1, Hoff.
    replace (Z.to_nat (512 * i)) with (512 * Z.to_nat i + 0)%nat by lia.
    rewrite <- (concat_splice _ _ _ 0 out Hfb Hblk) by lia. do 2 f_equal. unfold splice. cbn [take app].
    rewrite drop_ge, app_nil_r; [done|]. rewrite (Forall_lookup_1 _ _ _ _ Hfb Hblk). lia.
Qed.

Lemma blockio_ok v u s sv i :
  ready v s sv → uio_offset u = 512 * i → 0 ≤ i < 2 ^ 32 → uio_fits cur 512 u →
  ∃ k r u' s' sv', sfs_blockio cur v u s = Done ((r, u'), s') ∧ moved v u s sv k r u' s' sv' ∧
    (r = 0 → k = 512%nat ∧ i < 143) ∧ (r ≠ 0 → k = 0%nat).
Proof.
  intros Hrd Hoff Hi Hfit. destruct (decide (i < 143)).
  - destruct (is_read u) eqn:Hr.
    + destruct (blockio_read v u s sv i) as (u' & s' & E & M); [done..|lia|done|].
      exists 512%nat, 0, u', s', sv. by split_and!.
    + destruct (blockio_write v u s sv i) as (k & r & u' & s' & sv' & E & M & Hk & Hkl); [done..|lia|done|].
      exists k, r, u', s', sv'. split_and!; auto.
  - exists 0%nat, EFBIG, u, s, sv. split; [|split; [apply (moved_beyond _ _ _ _ i); [done|lia|lia]|done]].
    pose proof Hrd as (_ & _ & Hv). unfold sfs_blockio.
    rewrite (quot_block _ i 0) by lia. by kcall (bmap_beyond v s sv i (negb (is_read u)) Hv ltac:(lia)).
Qed.

(** ** Whole transfers *)

Lemma fits_iov n u : uio_fits cur n u → (n ≤ length (concat (uio_iov u)))%nat.
Proof. intros (_ & H & _). unfold room in H. lia. Qed.

(** [m] of [n] bytes were moved; a transfer stops early only at a block. *)
Definition short (o r : Z) (m n : nat) : Prop :=
  (r = 0 → m = n) ∧ (r ≠ 0 → m = 0%nat ∨ (m < n)%nat ∧ (512 | o + Z.of_nat m)).

Lemma blocks_loop_ok v k : ∀ u s sv i,
  ready v s sv → uio_offset u = 512 * i → 0 ≤ i → i + Z.of_nat k < 2 ^ 32 → uio_fits cur (512 * k) u →
  ∃ m r u' s' sv', blocks_loop cur v k u s = Done ((r, u'), s') ∧ moved v u s sv m r u' s' sv' ∧
    short (uio_offset u) r m (512 * k) ∧ (r = 0 → (0 < k)%nat → i + Z.of_nat k ≤ 143).
Proof.
  induction k as [|k IH]; intros u s sv i Hrd Hoff Hi Hik Hfit.
  { exists 0%nat, 0, u, s, sv. split; [done|]. split; [by apply moved_none|]. unfold short. split_and!; (done || lia). }
  destruct (blockio_ok v u s sv i) as (m & r & u1 & s1 & sv1 & E & M & Hm & Hml); [done|done|lia|eapply uio_fits_le; [|done]; lia|].
  cbn [blocks_loop]. kcall E. destruct (Z.eqb_spec r 0) as [->|Hr]; cbn [negb].
  2: { exists m, r, u1, s1, sv1. split; [done|]. split; [done|]. unfold short. split_and!; [done|left; by apply Hml|done]. }
  destruct (Hm eq_refl) as [-> Hi143]. pose proof (m_uio _ _ _ _ _ _ _ _ _ M) as MU.
  destruct (IH u1 s1 sv1 (i + 1)) as (m2 & r & u2 & s2 & sv2 & E2 & M2 & [Hm2 Hl2] & Hk2).
  - eapply vstep_ready. apply M.
  - rewrite (mv_offset _ _ _ _ _ MU). lia.
  - lia.
  - lia.
  - eapply (uio_fits_moved cur 512); [|apply MU]. by replace (512 + 512 * k)%nat with (512 * S k)%nat by lia.
  - exists (512 + m2)%nat, r, u2, s2, sv2. split; [done|]. split.
    + pose proof Hrd as (Ho & Hf & _). apply (moved_trans v u s sv 512 u1 s1 sv1); try done; [lia| |unfold MAXSIZE; lia].
      eapply Nat.le_trans; [|by eapply fits_iov]. lia.
    + split; [split; intros Hr; [rewrite Hm2 by done; lia|specialize (Hl2 Hr)]|].
      * destruct k as [|k]; [cbn in E2; by injection E2|]. right. rewrite (mv_offset _ _ _ _ _ MU) in Hl2. destruct Hl2 as [->|[Hlt Hdv]].
        -- split; [lia|]. exists (i + 1). lia.
        -- split; [lia|]. by replace (uio_offset u + Z.of_nat (512 + m2)) with (uio_offset u + Z.of_nat 512 + Z.of_nat m2) by lia.
      * intros Hr _. destruct k as [|k]; [lia|]. specialize (Hk2 Hr ltac:(lia)). lia.
Qed.

(** A stage of a transfer followed by the rest, which runs only when the stage
    succeeds. *)
Lemma stage v u s sv m u1 s1 sv1 n (c : uio → K fs (Z * uio)) :
  ready v s sv → (0 < n)%nat → (512 | uio_offset u + Z.of_nat m) → uio_fits cur (m + n) u → ((0 < m)%nat → uio_offset u + Z.of_nat m ≤ MAXSIZE) → moved v u s sv m 0 u1 s1 sv1 →
  (ready v s1 sv1 → uio_fits cur n u1 →
   ∃ m2 r u' s' sv', c u1 s1 = Done ((r, u'), s') ∧ moved v u1 s1 sv1 m2 r u' s' sv' ∧ short (uio_offset u1) r m2 n) →
  ∃ m2 r u' s' sv', c u1 s1 = Done ((r, u'), s') ∧ moved v u s sv m2 r u' s' sv' ∧ short (uio_offset u) r m2 (m + n).
Proof.
  intros (Ho & Hf & Hv) Hn Hdiv Hfit Hmax M Hc. pose proof (m_uio _ _ _ _ _ _ _ _ _ M) as MU.
  destruct Hc as (m2 & r & u' & s' & sv' & E & M2 & [Hr Hl]); [eapply vstep_ready; apply M|by eapply uio_fits_moved|].
  exists (m + m2)%nat, r, u', s', sv'. split; [done|]. split.
  - pose proof Hfit as (_ & _ & _ & H0 & _). pose proof (fits_iov _ _ Hfit).
    apply (moved_trans v u s sv m u1 s1 sv1); (done || lia).
  - split; intros H; [by rewrite Hr|right; rewrite (mv_offset _ _ _ _ _ MU) in Hl; destruct (Hl H) as [->|[Hlt Hdv]]].
    + split; [lia|]. by rewrite Nat.add_0_r.
    + split; [lia|]. by rewrite Nat2Z.inj_add, Z.add_assoc.
Qed.

(** The whole blocks and the last part, from a position at a block. *)
Lemma io_aligned v u s sv i n :
  ready v s sv → uio_offset u = 512 * i → 0 ≤ i → uio_resid u = Z.of_nat n → uio_fits cur n u → uio_offset u + Z.of_nat n < 2 ^ 32 →
  ∃ m r u' s' sv',
    (kassert (Z.rem (uio_offset u) SFS_BLOCKSIZE =? 0) ;;
     let* (result, u) := blocks_loop cur v (Z.to_nat (uio_resid u / SFS_BLOCKSIZE)) u in
     if negb (result =? 0) then kret (result, u)
     else
       kassert (uio_resid u <? SFS_BLOCKSIZE) ;;
       if 0 <? uio_resid u then sfs_partialio cur v u 0 (uio_resid u) else kret (0, u)) s = Done ((r, u'), s') ∧
    moved v u s sv m r u' s' sv' ∧ short (uio_offset u) r m n.
Proof.
  intros Hrd Hoff Hi Hn Hfit Hlim. unfold SFS_BLOCKSIZE.
  rewrite step_assert. 2: { rewrite Hoff, Z.rem_mod_nonneg, Z.mul_comm, Z.mod_mul by lia. done. }
  rewrite Hn. set (k := Z.to_nat (Z.of_nat n / 512)).
  assert (Hk : n = (512 * k + (n - 512 * k))%nat ∧ (n - 512 * k < 512)%nat).
  { unfold k. pose proof (Z.div_mod (Z.of_nat n) 512). pose proof (Z.mod_pos_bound (Z.of_nat n) 512). lia. }
  destruct Hk as [Hk Hrem]. set (rem := (n - 512 * k)%nat) in *.
  destruct (blocks_loop_ok v k u s sv i) as (m & r & u1 & s1 & sv1 & E & M & [Hm Hml] & Hk143); [done|done|done|lia| |].
  { eapply uio_fits_le; [|done]. lia. }
  kcall E. destruct (Z.eqb_spec r 0) as [->|Hr]; cbn [negb].
  2: { exists m, r, u1, s1, sv1. split; [done|]. split; [done|]. split; [done|]. intros H. destruct (Hml H) as [|[]]; [by left|right; split; [lia|done]]. }
  rewrite (Hm eq_refl) in M. specialize (Hk143 eq_refl). pose proof (m_uio _ _ _ _ _ _ _ _ _ M) as MU.
  assert (Hr1 : uio_resid u1 = Z.of_nat rem) by (rewrite (mv_resid _ _ _ _ _ MU); lia).
  rewrite Hr1, step_assert by (apply Z.ltb_lt; lia). rewrite Hk in Hfit |- *.
  destruct (decide (0 < rem)%nat) as [H0|H0].
  - rewrite (proj2 (Z.ltb_lt _ _)) by lia.
    apply (stage v u s sv (512 * k) u1 s1 sv1 rem (λ u, sfs_partialio cur v u 0 (Z.of_nat rem))); try done; [exists (i + Z.of_nat k); lia|unfold MAXSIZE; lia|].
    intros Hrd1 Hfit1. destruct (partialio_ok v u1 s1 sv1 (i + Z.of_nat k) 0 (Z.of_nat rem)) as (m2 & r & u2 & s2 & sv2 & E2 & M2 & Hm2 & Hl2);
      [done|rewrite (mv_offset _ _ _ _ _ MU); lia|lia|lia|lia|lia|by rewrite Nat2Z.id|].
    rewrite Nat2Z.id in Hm2. exists m2, r, u2, s2, sv2. split; [done|]. split; [done|]. split; [intros H; by apply Hm2|left; by apply Hl2].
  - rewrite (proj2 (Z.ltb_ge _ _)) by lia. exists (512 * k)%nat, 0, u1, s1, sv1.
    split; [done|]. split; [done|]. split; [lia|done].
Qed.

Lemma io_body_ok v u s sv n :
  ready v s sv → uio_resid u = Z.of_nat n → uio_fits cur n u → uio_offset u + Z.of_nat n < 2 ^ 32 →
  ∃ m r u' s' sv', io_body cur v u s = Done ((r, u'), s') ∧ moved v u s sv m r u' s' sv' ∧ short (uio_offset u) r m n.
Proof.
  intros Hrd Hn Hfit Hlim. pose proof Hfit as (_ & _ & _ & H0 & _). unfold io_body, SFS_BLOCKSIZE.
  set (i := uio_offset u / 512). set (skip := uio_offset u mod 512).
  assert (Hsplit : uio_offset u = 512 * i + skip ∧ 0 ≤ skip < 512 ∧ 0 ≤ i).
  { pose proof (Z.div_mod (uio_offset u) 512). pose proof (Z.mod_pos_bound (uio_offset u) 512).
    pose proof (Z.div_pos (uio_offset u) 512). unfold i, skip. lia. }
  destruct Hsplit as (Hoff & Hskip & Hi). rewrite Z.rem_mod_nonneg by lia. fold skip. rewrite (u32_small skip) by lia.
  destruct (Z.eqb_spec skip 0) as [Es|Es]; cbn [negb].
  - rewrite step_ret. cbn [Z.eqb negb]. destruct (Z.eqb_spec (uio_resid u) 0) as [Er|Er].
    + exists 0%nat, 0, u, s, sv. split; [done|]. split; [by apply moved_none|]. split; [lia|done].
    + apply (io_aligned v u s sv i n); (done || lia).
  - set (len := if uio_resid u <? 512 - skip then uio_resid u else 512 - skip).
    assert (Hlen : len = Z.min (Z.of_nat n) (512 - skip)) by (unfold len; rewrite Hn; destruct (Z.ltb_spec (Z.of_nat n) (512 - skip)); lia).
    destruct (partialio_ok v u s sv i skip len) as (m & r & u1 & s1 & sv1 & E & M & Hm & Hml); [done|done|lia|lia|lia|lia| |].
    { eapply uio_fits_le; [|done]. lia. }
    kcall E. destruct (Z.eqb_spec r 0) as [->|Hr]; cbn [negb].
    2: { exists m, r, u1, s1, sv1. split; [done|]. split; [done|]. split; [done|]. left. by apply Hml. }
    destruct (Hm eq_refl) as [-> H143]. pose proof (m_uio _ _ _ _ _ _ _ _ _ M) as MU.
    assert (Hr1 : uio_resid u1 = Z.of_nat (n - Z.to_nat len)) by (rewrite (mv_resid _ _ _ _ _ MU); lia).
    pose proof (mv_offset _ _ _ _ _ MU) as Ho1.
    destruct (Z.eqb_spec (uio_resid u1) 0) as [Er|Er].
    + exists (Z.to_nat len), 0, u1, s1, sv1. split; [done|]. split; [done|]. split; [lia|done].
    + assert (Hnn : n = (Z.to_nat len + (n - Z.to_nat len))%nat) by lia. rewrite Hnn in Hfit. rewrite Hnn.
      apply (stage v u s sv (Z.to_nat len) u1 s1 sv1 (n - Z.to_nat len) (λ u,
        kassert (Z.rem (uio_offset u) 512 =? 0) ;;
        let* (result, u) := blocks_loop cur v (Z.to_nat (uio_resid u / 512)) u in
        if negb (result =? 0) then kret (result, u)
        else
          kassert (uio_resid u <? 512) ;;
          if 0 <? uio_resid u then sfs_partialio cur v u 0 (uio_resid u) else kret (0, u))); try done; [lia|exists (i + 1); lia|unfold MAXSIZE; lia|].
      intros Hrd1 Hfit1. apply (io_aligned v u1 s1 sv1 (i + 1)); (done || lia).
Qed.

Lemma set_size_ok v s sv z :
  ready v s sv → is_u32 z →
  let sv' := touch (set_size z) sv in
  let s' := set_vn (<[v := sv']> (fs_vn s)) s in
  vstep v s sv s' sv' ∧ contents s' sv' = contents s sv.
Proof.
  intros (Ho & Hf & Hv) Hz sv' s'. split; [|done]. split; try done.
  - destruct Ho. by split.
  - destruct Hf as [[] f2 f3 f4]. by split.
  - change (inuse s') with (inuse s). change (owns cur s' sv') with (owns cur s sv). pose proof (owns_inuse _ _ _ Hf). set_solver.
  - by left.
Qed.

(** Reading: what the file holds from the position on, up to its size. *)
Lemma sfs_io_read v u s sv :
  ready v s sv → sfi_size (sv_i sv) ≤ MAXSIZE → is_read u = true → uio_fits cur (Z.to_nat (uio_resid u)) u → 0 ≤ uio_resid u →
  let n := Z.to_nat (Z.min (uio_resid u) (sfi_size (sv_i sv) - uio_offset u)) in
  ∃ u' d', sfs_io cur v u s = Done ((0, u'), set_dev d' s) ∧ dev_same cur (fs_dev s) d' ∧
    uio_moved cur n (slice (Z.to_nat (uio_offset u)) n (contents s sv)) u u'.
Proof.
  intros Hrd Hsz Hr Hfit Hres n. pose proof Hrd as (Ho & Hf & Hv). pose proof Hfit as (Hg & Hroom & Hr32 & H0 & _).
  unfold sfs_io. kcall (getvn_ok _ _ _ Hv). rewrite Hr. cbn [andb].
  destruct (Z.leb_spec (sfi_size (sv_i sv)) (uio_offset u)) as [Heof|Heof].
  { exists u, (fs_dev s). split; [by destruct s|]. split; [apply dev_same_refl, Ho|].
    replace n with 0%nat by lia. unfold slice. rewrite take_0. apply uio_moved_refl. }
  set (size := sfi_size (sv_i sv)) in *. unfold MAXSIZE in Hsz.
  set (extra := if size <? uio_offset u + uio_resid u then u32 (uio_offset u + uio_resid u - size) else 0).
  assert (Hex : extra = uio_resid u - Z.of_nat n ∧ 0 ≤ extra).
  { unfold extra. destruct (Z.ltb_spec size (uio_offset u + uio_resid u)); [rewrite u32_small by lia|]; lia. }
  rewrite (kbind_run _ _ _ tt s) by (destruct (Z.ltb_spec size (uio_offset u + uio_resid u)); [unfold kassert; by rewrite (proj2 (Z.ltb_lt _ _)) by lia|done]).
  set (u0 := set_resid (uio_resid u - extra) u).
  destruct (io_body_ok v u0 s sv n) as (m & r & u1 & s1 & sv1 & E & M & [Hm Hml]).
  { done. }
  { cbn. lia. }
  { unfold uio_fits, room in *. cbn. split_and!; try done; lia. }
  { cbn. lia. }
  kcall E. destruct M as [V _ MU _ MR MF]. destruct (MR Hr) as [-> (d' & -> & Hd)].
  pose proof (is_read_moved _ _ _ _ _ MU) as Hr1. change (is_read u0) with (is_read u) in Hr1. change (is_read u0) with (is_read u) in MU. rewrite Hr in Hr1, MU.
  assert (r = 0) as ->.
  { destruct (decide (r = 0)) as [|Hn0]; [done|]. destruct (MF Hn0) as [(_ & Hbad & _)|[_ Hbad]]; [congruence|].
    rewrite (mv_offset _ _ _ _ _ MU) in Hbad. cbn in Hbad. unfold MAXSIZE in Hbad. specialize (Hml Hn0). lia. }
  rewrite (Hm eq_refl) in MU. kcall (getvn_ok v (set_dev d' s) sv Hv). rewrite Hr1. cbn [negb andb]. rewrite step_ret.
  eexists _, d'. split; [reflexivity|]. split; [done|]. destruct MU as [a1 a2 a3 a4 a5 a6 a7 a8]. cbn in *.
  split; cbn; try done. rewrite a3, u32_small; lia.
Qed.

(** Writing: the first [m] bytes go into the file at the position, which is
    extended to the end of the transfer. *)
Lemma sfs_io_write v u s sv :
  ready v s sv → is_read u = false → 0 ≤ uio_resid u → uio_fits cur (Z.to_nat (uio_resid u)) u →
  uio_offset u + uio_resid u < 2 ^ 32 →
  ∃ m r u' s' sv', sfs_io cur v u s = Done ((r, u'), s') ∧ vstep v s sv s' sv' ∧ uio_moved cur m [] u u' ∧
    contents s' sv' = splice (Z.to_nat (uio_offset u)) (take m (concat (uio_iov u))) (contents s sv) ∧
    sfi_size (sv_i sv') = Z.max (sfi_size (sv_i sv)) (uio_offset u + Z.of_nat m) ∧
    short (uio_offset u) r m (Z.to_nat (uio_resid u)) ∧ (r ≠ 0 → fails r u' s' sv').
Proof.
  intros Hrd Hr Hres Hfit Hlim. pose proof Hrd as (Ho & Hf & Hv). pose proof Hfit as (Hg & Hroom & Hr32 & H0 & _).
  unfold sfs_io. kcall (getvn_ok _ _ _ Hv). rewrite Hr. cbn [andb]. rewrite step_ret, Z.sub_0_r.
  set (u0 := set_resid (uio_resid u) u).
  assert (Hu0 : u0 = u) by (by destruct u). rewrite Hu0.
  destruct (io_body_ok v u s sv (Z.to_nat (uio_resid u))) as (m & r & u1 & s1 & sv1 & E & [V Z1 MU C1 _ MF] & Hm); [done|lia|done|lia|].
  kcall E. pose proof (vstep_ready _ _ _ _ _ V) as Hrd1. pose proof Hrd1 as (Ho1 & Hf1 & Hv1). kcall (getvn_ok _ _ _ Hv1).
  rewrite Hr in *. rewrite (is_read_moved _ _ _ _ _ MU), Hr. cbn [negb andb].
  pose proof (mv_offset _ _ _ _ _ MU) as Hoff. pose proof (mv_resid _ _ _ _ _ MU) as Hres1. destruct Hm as [Hm1 Hm2].
  assert (Hml : Z.of_nat m ≤ uio_resid u).
  { destruct (decide (r = 0)) as [H|H]; [rewrite (Hm1 H); lia|destruct (Hm2 H); lia]. }
  assert (MU' : uio_moved cur m [] u (set_resid (u32 (uio_resid u1 + 0)) u1)).
  { destruct MU as [a1 a2 a3 a4 a5 a6 a7 a8]. split; cbn; try done. rewrite a3, u32_small; lia. }
  destruct (Z.ltb_spec (sfi_size (sv_i sv1)) (uio_offset u1)) as [Hlt|Hge].
  - assert (Hz : is_u32 (u32 (uio_offset u1))) by (apply u32_range).
    destruct (set_size_ok v s1 sv1 _ Hrd1 Hz) as [V2 C2]. kcall (modvn_ok v (touch (set_size (u32 (uio_offset u1)))) s1 sv1 Hv1).
    eexists m, r, _, _, _. split; [reflexivity|]. split; [by eapply vstep_trans|]. split; [done|].
    split; [by rewrite C2, C1|]. split; [cbn; rewrite u32_small by lia; lia|]. split; [done|].
    intros Hn0. destruct (MF Hn0) as [(-> & ? & ? & ?)|?]; [by left|by right].
  - rewrite step_ret. eexists m, r, _, s1, sv1. split; [reflexivity|]. split; [done|]. split; [done|]. split; [done|].
    split; [lia|]. split; [done|]. intros Hn0. destruct (MF Hn0) as [(-> & ? & ? & ?)|?]; [by left|by right].
Qed.
End Io.
