(* ===== verification/SfsDir.v ===== *)
(** * SFS: directories

    A directory is a file of 64-byte entries.  What it means is a finite map
    from names to inode numbers; searching it, adding an entry and erasing one
    are lookup, insertion and deletion of that map. *)

From stdpp Require Import base numbers list gmap sets.
From Stdlib Require Import ZArith Lia.
From S2P Require Import Prelude CString Bitmap Uio Device SfsDisk Sfs SfsBlocks SfsFile SfsIo.

Open Scope Z_scope.
Open Scope kernel_scope.

(** ** Stretches again *)

Section Stretches.
Implicit Types (l d : list Z).

Lemma splice_lookup off d l k :
  (off + length d ≤ length l)%nat →
  splice off d l !! k = if decide (off ≤ k < off + length d)%nat then d !! (k - off)%nat else l !! k.
Proof.
  intros H. unfold splice. assert (Hl : length (take off l) = off) by (rewrite length_take; lia).
  destruct (decide (k < off)%nat).
  - rewrite decide_False by lia. rewrite lookup_app_l, lookup_take_lt by lia. done.
  - rewrite lookup_app_r, Hl by lia. destruct (decide (k < off + length d)%nat).
    + rewrite decide_True, lookup_app_l by lia. done.
    + rewrite decide_False, lookup_app_r, lookup_drop by lia. f_equal. lia.
Qed.
Lemma slice_lookup o n l k : slice o n l !! k = if decide (k < n)%nat then l !! (o + k)%nat else None.
Proof.
  unfold slice. case_decide; [by rewrite lookup_take_lt, lookup_drop|]. apply lookup_take_ge. lia.
Qed.
Lemma slice_splice_eq off d l : (off + length d ≤ length l)%nat → slice off (length d) (splice off d l) = d.
Proof.
  intros H. apply list_eq. intros k. rewrite slice_lookup, splice_lookup by done. case_decide.
  - rewrite decide_True by lia. f_equal. lia.
  - symmetry. apply lookup_ge_None_2. lia.
Qed.
Lemma slice_splice_ne o n off d l :
  (off + length d ≤ length l)%nat → (o + n ≤ off ∨ off + length d ≤ o)%nat → slice o n (splice off d l) = slice o n l.
Proof.
  intros H Ho. apply list_eq. intros k. rewrite !slice_lookup. case_decide; [|done].
  rewrite splice_lookup, decide_False by lia. done.
Qed.
Lemma slice_length o n l : (o + n ≤ length l)%nat → length (slice o n l) = n.
Proof. intros H. unfold slice. rewrite length_take, length_drop. lia. Qed.
End Stretches.

Section Dir.
Context (cur : option nat) {D : Type} {DV : Device D} {BD : BlockDevice cur D}.
Abbreviation fs := (@sfs_fs D).
Abbreviation fs_ok := (fs_ok cur).
Abbreviation file_ok := (file_ok cur).
Abbreviation contents := (contents cur).
Abbreviation vstep := (vstep cur).
Abbreviation ready := (ready cur).
Implicit Types (s : fs) (sv : sfs_vnode) (v : nat) (name : list Z).

Lemma kinit_fits l pos rw :
  Z.of_nat (length l) < 2 ^ 32 → 0 ≤ pos < 2 ^ 62 → let u := uio_kinit l pos rw in
  uio_fits cur (Z.to_nat (uio_resid u)) u ∧ uio_resid u = Z.of_nat (length l) ∧ concat (uio_iov u) = l.
Proof.
  intros Hl Hp u. unfold uio_fits, room, uio_good, u, uio_kinit. cbn [uio_resid uio_iov uio_offset uio_segflg uio_space concat].
  rewrite app_nil_r, u32_small by lia. split_and!; (done || lia).
Qed.

(** ** Entries *)

Definition nentries sv : nat := Z.to_nat (sfi_size (sv_i sv) / 64).
Definition entries s sv : list sfs_dir := (λ i, dir_of (slice (64 * i) 64 (contents s sv))) <$> seq 0 (nentries sv).

(** Slot [i] has the name. *)
Definition named s sv (i : nat) name (ino : Z) : Prop :=
  ∃ e, entries s sv !! i = Some e ∧ sfd_ino e = ino ∧ ino ≠ 0 ∧ name_str (sfd_name e) = name.

Record dir_ok s sv : Prop := {
  do_type : sfi_type (sv_i sv) = SFS_TYPE_DIR;
  do_size : sfi_size (sv_i sv) mod 64 = 0;
  do_max : sfi_size (sv_i sv) ≤ MAXSIZE;
  do_names i j name ino ino' : named s sv i name ino → named s sv j name ino' → i = j
}.

Lemma entries_length s sv : length (entries s sv) = nentries sv.
Proof. unfold entries. by rewrite length_fmap, length_seq. Qed.
Lemma entries_lookup s sv i : (i < nentries sv)%nat → entries s sv !! i = Some (dir_of (slice (64 * i) 64 (contents s sv))).
Proof. intros H. unfold entries. rewrite list_lookup_fmap, lookup_seq_lt by done. done. Qed.

Lemma size_entries s sv : file_ok s sv → dir_ok s sv → sfi_size (sv_i sv) = 64 * Z.of_nat (nentries sv) ∧ (nentries sv ≤ 1144)%nat.
Proof.
  intros Hf Hd. pose proof (do_size _ _ Hd). pose proof (do_max _ _ Hd). unfold MAXSIZE in *.
  pose proof (iw_size _ (fo_inode _ _ _ Hf)) as [? _]. pose proof (Z.div_mod (sfi_size (sv_i sv)) 64). unfold nentries.
  pose proof (Z.div_pos (sfi_size (sv_i sv)) 64). lia.
Qed.

(** The view of a directory depends on what the file holds. *)
Lemma entries_same s s' sv : contents s' sv = contents s sv → entries s' sv = entries s sv.
Proof. intros H. unfold entries. by rewrite H. Qed.
Lemma dir_ok_same s s' sv : contents s' sv = contents s sv → dir_ok s sv → dir_ok s' sv.
Proof. intros H [? ? ? d4]. split; try done. unfold named in *. by rewrite (entries_same s s' sv H). Qed.

Lemma contents_dev s d' sv : fs_ok s → file_ok s sv → dev_same cur (fs_dev s) d' → contents (set_dev d' s) sv = contents s sv.
Proof. intros Ho Hf Hd. destruct (same_dev cur s d' sv Ho Hf Hd) as (_ & _ & F). unfold SfsFile.contents. by rewrite F. Qed.
Lemma ready_dev v s d' sv : ready v s sv → dev_same cur (fs_dev s) d' → ready v (set_dev d' s) sv.
Proof. intros (Ho & Hf & Hv) Hd. eapply vstep_ready, vstep_dev; done. Qed.

Lemma nentries_ok v s sv : ready v s sv → dir_ok s sv → sfs_dir_nentries v s = Done (Z.of_nat (nentries sv), s).
Proof.
  intros (Ho & Hf & Hv) Hd. unfold sfs_dir_nentries, sizeof_dir. kcall (getvn_ok _ _ _ Hv).
  rewrite step_assert by (by rewrite (do_type _ _ Hd)). rewrite (do_size _ _ Hd). cbn [Z.eqb negb].
  destruct (size_entries _ _ Hf Hd) as [Hs _]. unfold kret. do 2 f_equal. rewrite Hs, Z.mul_comm, Z.div_mul; lia.
Qed.

(** ** Searching *)

Lemma readdir_ok v s sv i :
  ready v s sv → dir_ok s sv → (i < nentries sv)%nat →
  ∃ e d', sfs_readdir cur v (Z.of_nat i) s = Done (inr e, set_dev d' s) ∧ entries s sv !! i = Some e ∧ dev_same cur (fs_dev s) d'.
Proof.
  intros Hrd Hd Hi. pose proof Hrd as (Ho & Hf & Hv). destruct (size_entries _ _ Hf Hd) as [Hs Hn].
  unfold sfs_readdir, sizeof_dir. rewrite u32_small by lia.
  set (u := uio_kinit (replicate 64 0) (Z.of_nat i * 64) UIO_READ).
  destruct (sfs_io_read cur v u s sv) as (u' & d' & E & Dv & M); [done|apply Hd|done|apply kinit_fits; [done|lia]|done|].
  change (uio_resid u) with 64 in M. change (uio_offset u) with (Z.of_nat i * 64) in M.
  rewrite Hs, Z.min_l in M by lia.
  exists (dir_of (uio_done u')), d'. split; [|split; [|done]].
  - kcall E. cbn [Z.eqb negb]. rewrite (mv_resid _ _ _ _ _ M). done.
  - rewrite entries_lookup by done. rewrite (mv_done _ _ _ _ _ M). cbn [uio_kinit uio_done app u]. do 3 f_equal. lia.
Qed.

(** What the search has found in the slots before [n]. *)
Definition found_in s sv (n : nat) name (found : option (Z * Z)) : Prop :=
  match found with
  | Some (j, ino) => ∃ i, j = Z.of_nat i ∧ (i < n)%nat ∧ named s sv i name ino
  | None => ∀ i ino, (i < n)%nat → ¬ named s sv i name ino
  end.
Definition empty_in s sv (n : nat) (empty : option Z) : Prop :=
  match empty with
  | Some j => ∃ i e, j = Z.of_nat i ∧ (i < n)%nat ∧ entries s sv !! i = Some e ∧ sfd_ino e = 0
  | None => True
  end.

Lemma found_skip s sv n name found e :
  found_in s sv n name found → entries s sv !! n = Some e → (sfd_ino e = 0 ∨ name_str (sfd_name e) ≠ name) → found_in s sv (S n) name found.
Proof.
  intros H He Hne. unfold found_in in *. destruct found as [[j ino]|].
  - destruct H as (i & -> & Hi & Hn). exists i. split; [done|]. split; [lia|done].
  - intros i ino Hi (e' & He' & <- & Hi0 & Hnm). destruct (decide (i = n)) as [->|]; [|apply (H i (sfd_ino e')); [lia|by exists e']].
    rewrite He in He'. injection He' as <-. naive_solver.
Qed.
Lemma empty_skip s sv n empty : empty_in s sv n empty → empty_in s sv (S n) empty.
Proof. destruct empty; [|done]. intros (i & e & -> & Hi & ?). exists i, e. split; [done|]. split; [lia|done]. Qed.

Lemma find_loop_ok v s sv name k : ∀ i found empty s0 d0,
  ready v s0 sv → dir_ok s0 sv → s = set_dev d0 s0 → dev_same cur (fs_dev s0) d0 →
  (i + k)%nat = nentries sv → found_in s0 sv i name found → empty_in s0 sv i empty →
  ∃ found' empty' d', find_loop cur v name (Z.of_nat i) k found empty s = Done (inr (found', empty'), set_dev d' s0) ∧
    dev_same cur (fs_dev s0) d' ∧ found_in s0 sv (nentries sv) name found' ∧ empty_in s0 sv (nentries sv) empty'.
Proof.
  revert s. induction k as [|k IH]; intros s i found empty s0 d0 Hrd Hd -> D0 Hik HF HE.
  { cbn [find_loop]. exists found, empty, d0. replace (nentries sv) with i by lia. done. }
  cbn [find_loop]. pose proof Hrd as (Ho & Hf & Hv). pose proof (ready_dev _ _ _ _ Hrd D0) as Hrd1.
  pose proof (contents_dev _ _ _ Ho Hf D0) as Hc.
  destruct (readdir_ok v (set_dev d0 s0) sv i) as (e & d1 & E & He & D1); [done|by eapply dir_ok_same|lia|].
  rewrite (entries_same _ _ _ Hc) in He. rewrite (ebind_inr _ _ _ _ _ E). change (set_dev d1 (set_dev d0 s0)) with (set_dev d1 s0).
  pose proof (dev_same_trans _ _ _ _ D0 D1) as D2. replace (Z.of_nat i + 1) with (Z.of_nat (S i)) by lia. unfold SFS_NOINO.
  destruct (Z.eqb_spec (sfd_ino e) 0) as [E0|E0].
  { apply (IH (set_dev d1 s0) (S i) found _ s0 d1); try done; [lia|eapply found_skip; [done|done|by left]|].
    exists i, e. split_and!; (done || lia). }
  destruct (decide (name_str (sfd_name e) = name)) as [En|En].
  - rewrite bool_decide_eq_true_2 by done.
    assert (Hnm : named s0 sv i name (sfd_ino e)) by (by exists e).
    destruct found as [[j ino]|].
    { destruct HF as (j' & _ & Hj & Hn). pose proof (do_names _ _ Hd _ _ _ _ _ Hn Hnm). lia. }
    rewrite step_assert by done. apply (IH (set_dev d1 s0) (S i) _ empty s0 d1); try done; [lia| |by apply empty_skip].
    exists i. split_and!; (done || lia).
  - rewrite bool_decide_eq_false_2 by done.
    apply (IH (set_dev d1 s0) (S i) found empty s0 d1); try done; [lia|eapply found_skip; [done|done|by right]|by apply empty_skip].
Qed.

(** What a directory means. *)
Definition dir_map s sv (m : gmap (list Z) Z) : Prop := ∀ name ino, m !! name = Some ino ↔ ∃ i, named s sv i name ino.

Lemma named_lt s sv i name ino : named s sv i name ino → (i < nentries sv)%nat.
Proof. intros (e & He & _). apply lookup_lt_Some in He. by rewrite entries_length in He. Qed.

Lemma findname_ok v s sv name m :
  ready v s sv → dir_ok s sv → dir_map s sv m →
  ∃ found empty d', sfs_dir_findname cur v name s = Done (inr (found, empty), set_dev d' s) ∧ dev_same cur (fs_dev s) d' ∧
    snd <$> found = m !! name ∧ found_in s sv (nentries sv) name found ∧ empty_in s sv (nentries sv) empty.
Proof.
  intros Hrd Hd Hm. pose proof Hrd as (Ho & _). unfold sfs_dir_findname. kcall (nentries_ok v s sv Hrd Hd). rewrite Nat2Z.id.
  destruct (find_loop_ok v s sv name (nentries sv) 0 None None s (fs_dev s)) as (found & empty & d' & E & D1 & HF & HE); try done.
  { by destruct s. }
  { apply dev_same_refl, Ho. }
  { intros i ino Hi. lia. }
  exists found, empty, d'. split_and!; try done. destruct found as [[j ino]|]; cbn.
  - destruct HF as (i & _ & _ & Hn). symmetry. apply Hm. by exists i.
  - symmetry. apply eq_None_not_Some. intros [ino Hi]. apply Hm in Hi as [i Hn]. by eapply HF; [eapply named_lt|].
Qed.

(** ** Adding and erasing entries *)

(** The entries when one was stored in a slot, or added at the end. *)
Definition put_entry (slot : nat) (sd : sfs_dir) (l : list sfs_dir) : list sfs_dir :=
  if decide (slot < length l)%nat then <[slot := sd]> l else l ++ [sd].

Lemma put_entry_lookup slot sd l i :
  (slot ≤ length l)%nat → put_entry slot sd l !! i = if decide (i = slot) then Some sd else l !! i.
Proof.
  intros H. unfold put_entry. case_decide as Hs.
  - case_decide as Hi; [subst; by apply list_lookup_insert_eq|]. by rewrite list_lookup_insert_ne.
  - assert (slot = length l) as -> by lia. case_decide as Hi; [subst; by rewrite lookup_app_r, Nat.sub_diag|].
    destruct (decide (i < length l)%nat); [by rewrite lookup_app_l|].
    rewrite !lookup_ge_None_2; [done|lia|rewrite length_app; cbn; lia].
Qed.

Lemma entries_put s sv s' sv' slot sd :
  fs_ok s → file_ok s sv → dir_ok s sv → (slot ≤ nentries sv)%nat → dir_wf sd → (64 * slot + 64 ≤ Z.to_nat MAXSIZE)%nat →
  contents s' sv' = splice (64 * slot) (dir_bytes sd) (contents s sv) →
  sfi_size (sv_i sv') = Z.max (sfi_size (sv_i sv)) (64 * Z.of_nat slot + 64) →
  entries s' sv' = put_entry slot sd (entries s sv) ∧ sfi_size (sv_i sv') mod 64 = 0 ∧ sfi_size (sv_i sv') ≤ MAXSIZE.
Proof.
  intros Ho Hf Hd Hs Hsd Hmax Hc Hz. destruct (size_entries _ _ Hf Hd) as [Hsz Hn]. destruct (dir_bytes_wf sd Hsd) as [Hl Hof].
  pose proof (contents_length cur s sv Ho Hf) as Hcl.
  assert (Hz' : sfi_size (sv_i sv') = 64 * Z.of_nat (Nat.max (nentries sv) (S slot))) by lia.
  assert (Hne : nentries sv' = Nat.max (nentries sv) (S slot)) by (unfold nentries at 1; rewrite Hz', Z.mul_comm, Z.div_mul; lia).
  split; [|rewrite Hz'; split; [rewrite Z.mul_comm; apply Z.mod_mul; lia|pose proof (do_max _ _ Hd); unfold MAXSIZE in *; lia]].
  apply list_eq. intros i. rewrite put_entry_lookup by (rewrite entries_length; lia).
  destruct (decide (i < nentries sv')%nat) as [Hi|Hi].
  - rewrite entries_lookup by done. rewrite Hc. case_decide as His.
    + subst i. rewrite <- Hl at 2. rewrite slice_splice_eq by lia. by rewrite Hof.
    + rewrite entries_lookup by lia. rewrite slice_splice_ne by lia. done.
  - rewrite decide_False by lia. rewrite !lookup_ge_None_2; [done|rewrite entries_length; lia..].
Qed.

Lemma put_in_bounds s sv s' sv' off (d : list Z) :
  fs_ok s → file_ok s sv → fs_ok s' → file_ok s' sv' → (0 < length d)%nat →
  contents s' sv' = splice off d (contents s sv) → (off + length d ≤ Z.to_nat MAXSIZE)%nat.
Proof.
  intros Ho Hf Ho' Hf' Hd Hc. pose proof (contents_length cur s sv Ho Hf) as H1. pose proof (contents_length cur s' sv' Ho' Hf') as H2.
  rewrite Hc in H2. unfold splice in H2. rewrite !length_app, length_take, length_drop, H1 in H2. lia.
Qed.

Definition write_error (r : Z) s' : Prop := (r = ENOSPC ∧ full s') ∨ r = EFBIG.

(** A slot in a hole has no name. *)
Lemma hole_unnamed s sv slot name ino :
  fs_ok s → file_ok s sv → in_hole cur (64 * Z.of_nat slot) s sv → ¬ named s sv slot name ino.
Proof.
  intros Ho Hf (i & Hi & Hz) (e & He & <- & Hne & _). unfold entries in He. apply list_lookup_fmap_Some in He as (k & -> & Hk).
  apply lookup_seq in Hk as [-> Hk]. destruct Hne. destruct (fblocks_length cur s sv Ho Hf) as [_ Hfb].
  replace (64 * (0 + slot))%nat with (512 * Z.to_nat i + (64 * slot - 512 * Z.to_nat i))%nat by lia.
  unfold contents. rewrite (concat_slice _ _ _ _ _ Hfb Hz).
  - unfold slice. rewrite drop_replicate, take_replicate. replace (64 `min` _)%nat with 64%nat by lia. done.
  - lia.
Qed.

Lemma writedir_ok v s sv sd slot :
  ready v s sv → dir_ok s sv → dir_wf sd → (slot ≤ nentries sv)%nat →
  ∃ r s' sv', sfs_writedir cur v sd (Z.of_nat slot) s = Done (r, s') ∧ vstep v s sv s' sv' ∧
    (r = 0 → entries s' sv' = put_entry slot sd (entries s sv) ∧ sfi_size (sv_i sv') mod 64 = 0 ∧ sfi_size (sv_i sv') ≤ MAXSIZE) ∧
    (r ≠ 0 → write_error r s' ∧ contents s' sv' = contents s sv ∧ sfi_size (sv_i sv') = sfi_size (sv_i sv) ∧ ∀ n a, ¬ named s sv slot n a).
Proof.
  intros Hrd Hd Hsd Hslot. pose proof Hrd as (Ho & Hf & Hv). destruct (size_entries _ _ Hf Hd) as [Hsz Hn].
  destruct (dir_bytes_wf sd Hsd) as [Hl _]. unfold sfs_writedir, sizeof_dir. rewrite step_assert by (apply Z.leb_le; lia).
  rewrite u32_small by lia. set (u := uio_kinit (dir_bytes sd) (Z.of_nat slot * 64) UIO_WRITE).
  destruct (kinit_fits (dir_bytes sd) (Z.of_nat slot * 64) UIO_WRITE) as (Hfit & Hres & Hiov); [rewrite Hl; lia|lia|]. fold u in Hfit, Hres, Hiov.
  rewrite Hl in Hres. change (Z.of_nat 64) with 64 in Hres. assert (Hoff : uio_offset u = 64 * Z.of_nat slot) by (cbn; lia).
  destruct (sfs_io_write cur v u s sv) as (m & r & u' & s' & sv' & E & V & M & C & Z1 & [Sh1 Sh2] & Fl); [done|done|lia|done|lia|].
  kcall E. rewrite Hiov, Hoff in *. replace (Z.to_nat (64 * Z.of_nat slot)) with (64 * slot)%nat in C by lia.
  rewrite Hres in *. exists r. destruct (Z.eqb_spec r 0) as [->|Hr]; cbn [negb].
  - specialize (Sh1 eq_refl). rewrite Sh1 in *. change (Z.to_nat 64) with 64%nat in *. rewrite take_ge in C by lia.
    exists s', sv'. rewrite (mv_resid _ _ _ _ _ M), Hres. split; [done|]. split; [done|]. split; [|done]. intros _.
    apply entries_put; try done. rewrite <- Hl at 2. eapply (put_in_bounds s sv s' sv'); [done|done|apply V|apply V|lia|done].
  - assert (m = 0%nat) as ->.
    { destruct (Sh2 Hr) as [|[Hm [q Hq]]]; [done|]. change (Z.to_nat 64) with 64%nat in Hm. lia. }
    rewrite take_0, splice_nil in C. exists s', sv'. split; [done|]. split; [done|]. split; [done|]. intros _.
    assert (Hz : sfi_size (sv_i sv') = sfi_size (sv_i sv)) by lia. unfold fails in Fl. rewrite (mv_offset _ _ _ _ _ M), Hoff, Z.add_0_r in Fl.
    split_and!; [|done|done|intros n a Hnm; pose proof (named_lt _ _ _ _ _ Hnm)]; destruct (Fl Hr) as [(-> & _ & ? & Hh)|[-> Hbig]];
      [by left|by right| |unfold MAXSIZE in Hbig; lia].
    apply (hole_unnamed s' sv' slot n a); [apply V|apply V|done|]. unfold named, entries, nentries in *. by rewrite C, Hz.
Qed.

Lemma named_put s sv s' sv' slot sd i name ino :
  entries s' sv' = put_entry slot sd (entries s sv) → (slot ≤ nentries sv)%nat →
  named s' sv' i name ino ↔
    (i = slot ∧ sfd_ino sd = ino ∧ ino ≠ 0 ∧ name_str (sfd_name sd) = name) ∨ (i ≠ slot ∧ named s sv i name ino).
Proof.
  intros He Hs. unfold named. rewrite He, put_entry_lookup by (by rewrite entries_length).
  case_decide as Hi; naive_solver.
Qed.

Lemma takew_app P (l r : list Z) : Forall (λ c, P c = false) l → takew P (l ++ r) = l ++ takew P r.
Proof. induction 1 as [|c l Hc _ IH]; [done|]. cbn. by rewrite Hc, IH. Qed.

(** A string that is a name: no NUL in it. *)
Definition name_ok name : Prop := Forall (λ c, c ≠ 0) name.

Lemma name_str_entry name : name_ok name → (length name < 60)%nat → name_str (name ++ replicate (60 - length name) 0) = name.
Proof.
  intros Hn Hl. unfold name_str.
  assert (E : <[59%nat := 0]> (name ++ replicate (60 - length name) 0) = name ++ replicate (60 - length name) 0).
  { apply list_insert_id. rewrite lookup_app_r, lookup_replicate_2 by lia. done. }
  rewrite E, takew_app by (eapply Forall_impl; [exact Hn|]; intros c Hc; by apply Z.eqb_neq).
  replace (60 - length name)%nat with (S (59 - length name)) by lia. cbn. apply app_nil_r.
Qed.

(** A directory after an entry was put where there was none. *)
Lemma link_map s sv s' sv' slot sd name ino m :
  dir_ok s sv → dir_map s sv m → m !! name = None → (slot ≤ nentries sv)%nat → (∀ n i, ¬ named s sv slot n i) →
  entries s' sv' = put_entry slot sd (entries s sv) → sfd_ino sd = ino → ino ≠ 0 → name_str (sfd_name sd) = name →
  dir_map s' sv' (<[name := ino]> m) ∧ (∀ i j n a b, named s' sv' i n a → named s' sv' j n b → i = j).
Proof.
  intros Hd Hm Hno Hs Hfree He Hi Hi0 Hn.
  assert (Hnone : ∀ i a, ¬ named s sv i name a).
  { intros i a H. assert (H' : m !! name = Some a) by (apply Hm; by exists i). congruence. }
  split.
  - intros n a. rewrite lookup_insert_Some. setoid_rewrite (named_put _ _ _ _ _ _ _ _ _ He Hs). split.
    + intros [[<- <-]|[Hne H]]; [exists slot; by left|]. apply Hm in H as [i Hi1]. exists i. right. split; [|done].
      intros ->. by eapply Hfree.
    + intros [i [(-> & H1 & H2 & H3)|[Hne H]]]; [left; split; congruence|]. right. split; [|apply Hm; by exists i].
      intros ->. by eapply Hnone.
  - intros i j n a b. rewrite !(named_put _ _ _ _ _ _ _ _ _ He Hs).
    intros [(-> & ? & ? & <-)|[? H1]] [(-> & ? & ? & E2)|[? H2]]; try done.
    + exfalso. rewrite Hn in H2. by eapply Hnone.
    + exfalso. rewrite <- E2, Hn in H1. by eapply Hnone.
    + by eapply (do_names _ _ Hd).
Qed.

Lemma unlink_map s sv s' sv' slot sd name ino m :
  dir_ok s sv → dir_map s sv m → named s sv slot name ino →
  entries s' sv' = put_entry slot sd (entries s sv) → sfd_ino sd = 0 →
  dir_map s' sv' (delete name m) ∧ (∀ i j n a b, named s' sv' i n a → named s' sv' j n b → i = j).
Proof.
  intros Hd Hm Hnm He Hi. pose proof (named_lt _ _ _ _ _ Hnm) as Hs.
  assert (Hp : ∀ i n a, named s' sv' i n a ↔ i ≠ slot ∧ named s sv i n a).
  { intros i n a. rewrite (named_put _ _ _ _ _ _ _ _ _ He) by lia. naive_solver. }
  split.
  - intros n a. rewrite lookup_delete_Some. setoid_rewrite Hp. split.
    + intros [Hne H]. apply Hm in H as [i H]. exists i. split; [|done]. intros ->. destruct Hne.
      destruct Hnm as (e & H1 & _ & _ & <-), H as (e' & H2 & _ & _ & <-). congruence.
    + intros (i & Hne & H). split; [|apply Hm; by exists i]. intros <-. by pose proof (do_names _ _ Hd _ _ _ _ _ H Hnm).
  - intros i j n a b. rewrite !Hp. intros [_ H1] [_ H2]. by eapply (do_names _ _ Hd).
Qed.

Lemma dir_map_same s s' sv sv' m : contents s' sv' = contents s sv → sfi_size (sv_i sv') = sfi_size (sv_i sv) → dir_map s sv m → dir_map s' sv' m.
Proof. intros Hc Hz Hm name ino. unfold named, entries, nentries. rewrite Hc, Hz. apply Hm. Qed.
Lemma dir_ok_same_size s s' sv sv' :
  contents s' sv' = contents s sv → sfi_size (sv_i sv') = sfi_size (sv_i sv) → sfi_type (sv_i sv') = sfi_type (sv_i sv) → dir_ok s sv → dir_ok s' sv'.
Proof.
  intros Hc Hz Ht [d1 d2 d3 d4]. split; [congruence|congruence|congruence|]. unfold named, entries, nentries in *. by rewrite Hc, Hz.
Qed.

(** Why an entry cannot be added. *)
Definition link_error (e : Z) name (m : gmap (list Z) Z) s' : Prop :=
  (e = EEXIST ∧ is_Some (m !! name)) ∨
  (e = ENAMETOOLONG ∧ m !! name = None ∧ (60 ≤ length name)%nat) ∨
  (write_error e s' ∧ m !! name = None ∧ (length name < 60)%nat).

Lemma dir_link_ok v s sv name ino m :
  ready v s sv → dir_ok s sv → dir_map s sv m → name_ok name → 0 < ino < 2 ^ 32 →
  ∃ r s' sv', sfs_dir_link cur v name ino s = Done (r, s') ∧ vstep v s sv s' sv' ∧ dir_ok s' sv' ∧
    match r with
    | inr slot => m !! name = None ∧ dir_map s' sv' (<[name := ino]> m) ∧ (∀ i n a, named s sv i n a → named s' sv' i n a) ∧
        ∃ i, slot = Z.of_nat i ∧ named s' sv' i name ino
    | inl e => dir_map s' sv' m ∧ link_error e name m s'
    end.
Proof.
  intros Hrd Hd Hm Hname Hino. pose proof Hrd as (Ho & Hf & Hv).
  destruct (findname_ok v s sv name m Hrd Hd Hm) as (found & empty & d1 & E & D1 & Hfm & HF & HE).
  pose proof (contents_dev _ _ _ Ho Hf D1) as Hc1. pose proof (ready_dev _ _ _ _ Hrd D1) as Hrd1.
  pose proof (dir_ok_same _ _ _ Hc1 Hd) as Hd1. pose proof (dir_map_same s _ sv sv m Hc1 eq_refl Hm) as Hm1.
  pose proof (vstep_dev cur v s d1 sv Ho Hf Hv D1) as V1. set (s1 := set_dev d1 s) in *.
  unfold sfs_dir_link. rewrite (ebind_inr _ _ _ _ _ E). destruct found as [[j i0]|]; cbn in Hfm.
  { exists (inl EEXIST), s1, sv. split; [done|]. split; [done|]. split; [done|]. split; [done|]. left. by rewrite <- Hfm. }
  unfold SFS_NAMELEN. destruct (Z.ltb_spec 60 (Z.of_nat (length name) + 1)) as [Hlong|Hlen].
  { exists (inl ENAMETOOLONG), s1, sv. split; [done|]. split; [done|]. split; [done|]. split; [done|]. right. left. split_and!; (done || lia). }
  set (slot := match empty with Some i => Z.to_nat i | None => nentries sv end).
  assert (Hslot : (match empty with Some i => kret i | None => sfs_dir_nentries v end) s1 = Done (Z.of_nat slot, s1) ∧
    (slot ≤ nentries sv)%nat ∧ ∀ n i, ¬ named s1 sv slot n i).
  { unfold slot. destruct empty as [i|].
    - destruct HE as (i' & e & -> & Hi & He & He0). rewrite Nat2Z.id. split_and!; [done|lia|].
      intros n a (e' & He' & <- & Hn0 & _). rewrite (entries_same _ _ _ Hc1), He in He'. congruence.
    - split_and!; [by apply nentries_ok|lia|]. intros n a H. pose proof (named_lt _ _ _ _ _ H). lia. }
  destruct Hslot as (Es & Hsl & Hfree). kcall Es.
  set (sd := mk_dir ino (name ++ replicate (60 - length name) 0)).
  assert (Hsd : dir_wf sd) by (split; [cbn; unfold is_u32; lia|cbn; rewrite length_app, length_replicate; lia]).
  destruct (writedir_ok v s1 sv sd slot) as (r & s2 & sv2 & E2 & V2 & R1 & R2); [done..|]. kcall E2.
  pose proof (vstep_trans _ _ _ _ _ _ _ _ V1 V2) as V.
  destruct (Z.eqb_spec r 0) as [->|Hr]; cbn [negb].
  - destruct (R1 eq_refl) as (He2 & Hz1 & Hz2).
    destruct (link_map s1 sv s2 sv2 slot sd name ino m) as [Hmap Huniq]; [done..|lia|by apply name_str_entry; [|lia]|].
    exists (inr (Z.of_nat slot)), s2, sv2. split; [done|]. split; [done|]. split.
    { split; [|done..]. rewrite (sm_type _ _ (vs_same _ _ _ _ _ _ V)). apply Hd. }
    split; [done|]. split; [done|]. split; [|exists slot; split; [done|]].
    { intros i n a Hk. apply (named_put _ _ _ _ _ _ _ _ _ He2 Hsl). right.
      assert (Hk1 : named s1 sv i n a) by (unfold named; by rewrite (entries_same _ _ _ Hc1)).
      split; [|done]. intros ->. by eapply Hfree. }
    apply (named_put _ _ _ _ _ _ _ _ _ He2 Hsl). left. split_and!; [done|done|lia|by apply name_str_entry; [|lia]].
  - destruct (R2 Hr) as (Hwe & Hc2 & Hz2 & _). exists (inl r), s2, sv2. split; [done|]. split; [done|].
    split; [eapply dir_ok_same_size; [done|done|apply V2|done]|].
    split; [by eapply dir_map_same|]. right. right. split_and!; [done|done|lia].
Qed.

(** Taking out an entry that is there never fails. *)
Lemma dir_unlink_ok v s sv slot name ino m :
  ready v s sv → dir_ok s sv → dir_map s sv m → named s sv slot name ino →
  ∃ s' sv', sfs_dir_unlink cur v (Z.of_nat slot) s = Done (0, s') ∧ vstep v s sv s' sv' ∧ dir_ok s' sv' ∧ dir_map s' sv' (delete name m).
Proof.
  intros Hrd Hd Hm Hnm. pose proof (named_lt _ _ _ _ _ Hnm) as Hs. unfold sfs_dir_unlink, SFS_NOINO.
  set (sd := mk_dir 0 (replicate 60 0)). assert (Hsd : dir_wf sd) by done.
  destruct (writedir_ok v s sv sd slot) as (r & s2 & sv2 & E2 & V2 & R1 & R2); [done|done|done|lia|].
  assert (r = 0) as ->. { destruct (decide (r = 0)) as [|Hr]; [done|]. destruct (R2 Hr) as (_ & _ & _ & Hno). by destruct (Hno name ino). }
  exists s2, sv2. split; [done|]. split; [done|]. destruct (R1 eq_refl) as (He2 & Hz1 & Hz2).
  destruct (unlink_map s sv s2 sv2 slot sd name ino m) as [Hmap Huniq]; [done..|].
  split; [|done]. split; [|done..]. rewrite (sm_type _ _ (vs_same _ _ _ _ _ _ V2)). apply Hd.
Qed.
End Dir.
