(* ===== verification/SfsInv.v ===== *)
(** * SFS: the whole file system

    The invariant of a mounted file system.  Every block in use is reserved,
    holds an inode, or belongs to exactly one file; a loaded inode that is not
    dirty is what the disk has; no inode is loaded twice.  An operation that
    changes one file keeps the invariant and every other file. *)

From stdpp Require Import base numbers list gmap sets.
From Stdlib Require Import ZArith Lia.
From S2P Require Import Prelude CString Bitmap Uio Device SfsDisk Sfs SfsBlocks SfsFile SfsIo SfsDir.

Open Scope Z_scope.
Open Scope kernel_scope.

Section Inv.
Context (cur : option nat) {D : Type} {DV : Device D} {BD : BlockDevice cur D}.
Abbreviation fs := (@sfs_fs D).
Abbreviation data := (data cur).
Abbreviation fs_ok := (fs_ok cur).
Abbreviation file_ok := (file_ok cur).
Abbreviation owns := (owns cur).
Abbreviation contents := (contents cur).
Abbreviation vstep := (vstep cur).
Implicit Types (s : fs) (sv : sfs_vnode) (v : nat) (b ino : Z) (i : sfs_inode).

(** ** The current inode of a number *)

Definition unloaded s ino : Prop := ∀ v sv, fs_vn s !! v = Some sv → sv_ino sv ≠ ino.
Definition disk_inode s ino : sfs_inode := inode_of (words_of (data s ino)).
Definition inode_is s ino i : Prop :=
  (∃ v sv, fs_vn s !! v = Some sv ∧ sv_ino sv = ino ∧ sv_i sv = i) ∨ (unloaded s ino ∧ i = disk_inode s ino).

(** A file as such, without the vnode's counts. *)
Definition vn i ino : sfs_vnode := mk_vnode i ino false 0 0 sfs_fileops.

Lemma file_ok_vn s sv : file_ok s sv ↔ file_ok s (vn (sv_i sv) (sv_ino sv)).
Proof. split; intros []; by split. Qed.

Definition ops_ok sv : Prop :=
  match vn_ops sv with
  | sfs_fileops => sfi_type (sv_i sv) = SFS_TYPE_FILE
  | sfs_dirops => sfi_type (sv_i sv) = SFS_TYPE_DIR
  end.

(** The superblock and the free map have their blocks; what is not dirty is on
    the disk. *)
Definition meta s b : Prop := b = SFS_SB_LOCATION ∨ SFS_MAP_LOCATION ≤ b < SFS_MAP_LOCATION + SFS_BITBLOCKS (nblocks s).
Definition map_block s (j : nat) : list Z := slice (512 * j) 512 (v (fs_freemap s)).
Record meta_ok (R : gset Z) s : Prop := {
  mo_reserved b : meta s b → b ∈ R ∧ 0 ≤ b < nblocks s;
  mo_wf : super_wf (fs_super s) ∧ sp_magic (fs_super s) = SFS_MAGIC ∧ sp_volname (fs_super s) !! 31%nat = Some 0;
  mo_super : fs_superdirty s = false → data s SFS_SB_LOCATION = super_bytes (fs_super s);
  mo_map j : fs_freemapdirty s = false → 0 ≤ Z.of_nat j < SFS_BITBLOCKS (nblocks s) → data s (SFS_MAP_LOCATION + Z.of_nat j) = map_block s j
}.
Record meta_kept s s' : Prop := {
  mt_data b : meta s b → data s' b = data s b;
  mt_super : fs_super s' = fs_super s;
  mt_superdirty : fs_superdirty s' = fs_superdirty s;
  mt_dirty : fs_freemapdirty s' = false → fs_freemap s' = fs_freemap s ∧ fs_freemapdirty s = false
}.
Lemma meta_frame R s s' : meta_ok R s → meta_kept s s' → meta_ok R s'.
Proof.
  intros [m1 m2 m3 m4] [k1 k2 k3 k4]. assert (Hnb : nblocks s' = nblocks s) by (unfold nblocks; by rewrite k2).
  split; [intros b; unfold meta; rewrite Hnb; apply m1|by rewrite k2|..].
  - intros Hd. rewrite k1, k2 by (by left). apply m3. congruence.
  - intros j Hd Hj. rewrite Hnb in Hj. destruct (k4 Hd) as [Hm Hd']. unfold map_block. rewrite Hm, k1 by (right; lia). by apply m4.
Qed.

Record sfs_inv (R I : gset Z) s : Prop := {
  inv_ok : fs_ok s;
  inv_oom : fs_oom s = [];
  inv_nodup : NoDup (fs_vnodes s);
  inv_table v : v ∈ fs_vnodes s ↔ is_Some (fs_vn s !! v);
  inv_next v : (fs_next s ≤ v)%nat → fs_vn s !! v = None;
  inv_one v w sv sw : fs_vn s !! v = Some sv → fs_vn s !! w = Some sw → sv_ino sv = sv_ino sw → v = w;
  inv_loaded v sv : fs_vn s !! v = Some sv → sv_ino sv ∈ I ∧ 0 < vn_refcount sv ∧ 0 ≤ vn_opencount sv ∧ ops_ok sv;
  inv_clean v sv : fs_vn s !! v = Some sv → sv_dirty sv = false → disk_inode s (sv_ino sv) = sv_i sv;
  inv_file ino i : ino ∈ I → inode_is s ino i → file_ok s (vn i ino) ∧ sfi_type i ∈ [SFS_TYPE_FILE; SFS_TYPE_DIR];
  inv_disj ino ino' i i' : ino ∈ I → ino' ∈ I → ino ≠ ino' → inode_is s ino i → inode_is s ino' i' →
    ino' ∉ owns s (vn i ino) ∧ ∀ b, b ∈ owns s (vn i ino) → b ∉ owns s (vn i' ino');
  inv_reserved b : b ∈ R → b ∉ I ∧ ∀ ino i, ino ∈ I → inode_is s ino i → b ∉ owns s (vn i ino);
  inv_account b : b ∈ inuse s ↔ b ∈ R ∨ b ∈ I ∨ ∃ ino i, ino ∈ I ∧ inode_is s ino i ∧ b ∈ owns s (vn i ino);
  inv_meta : meta_ok R s
}.

Lemma inode_is_ex s ino : ∃ i, inode_is s ino i.
Proof.
  destruct (decide (map_Exists (λ _ sv, sv_ino sv = ino) (fs_vn s))) as [(v & sv & Hv & Hi)|Hn].
  - exists (sv_i sv). left. by exists v, sv.
  - exists (disk_inode s ino). right. split; [|done]. intros v sv Hv Hi. apply Hn. by exists v, sv.
Qed.
Lemma inode_is_fun R I s ino i i' : sfs_inv R I s → inode_is s ino i → inode_is s ino i' → i = i'.
Proof.
  intros Hinv [(v & sv & Hv & Hi & <-)|[Hu ->]] [(w & sw & Hw & Hi' & <-)|[Hu' ->]]; [|by destruct (Hu' v sv)|by destruct (Hu w sw)|done].
  assert (v = w) as -> by (eapply (inv_one _ _ _ Hinv); [done|done|congruence]). congruence.
Qed.
Lemma inode_is_loaded v s sv : fs_vn s !! v = Some sv → inode_is s (sv_ino sv) (sv_i sv).
Proof. intros H. left. by exists v, sv. Qed.
Lemma inv_ready R I s v sv : sfs_inv R I s → fs_vn s !! v = Some sv → ready cur v s sv.
Proof.
  intros Hinv Hv. split; [apply Hinv|]. split; [|done]. apply file_ok_vn.
  destruct (inv_loaded _ _ _ Hinv v sv Hv) as [HI _]. by apply (inv_file _ _ _ Hinv _ _ HI (inode_is_loaded _ _ _ Hv)).
Qed.

(** ** A change of one file *)

Record vchange v s sv s' sv' : Prop := {
  vc_ok : fs_ok s';
  vc_file : file_ok s' sv';
  vc_vn : fs_vn s' = <[v := sv']> (fs_vn s);
  vc_rest : same_rest s s';
  vc_ino : sv_ino sv' = sv_ino sv;
  vc_counts : 0 < vn_refcount sv' ∧ 0 ≤ vn_opencount sv' ∧ ops_ok sv';
  vc_dirty : sv_dirty sv' = false → sv_i sv' = sv_i sv ∧ sv_dirty sv = false;
  vc_account b : b ∈ inuse s' ↔ (b ∈ inuse s ∧ b ∉ owns s sv) ∨ b ∈ owns s' sv';
  vc_new b : b ∈ owns s' sv' → b ∈ owns s sv ∨ b ∉ inuse s;
  vc_frame b : 0 ≤ b < nblocks s → b ∈ inuse s → b ∉ owns s sv → data s' b = data s b;
  vc_mapdirty : fs_freemapdirty s' = false → fs_freemap s' = fs_freemap s ∧ fs_freemapdirty s = false
}.

Lemma vstep_vchange v s sv s' sv' :
  file_ok s sv → 0 < vn_refcount sv → 0 ≤ vn_opencount sv → ops_ok sv → vstep v s sv s' sv' → vchange v s sv s' sv'.
Proof.
  intros Hf Hr Ho Hops [a1 a2 a3 a4 [b1 b2 b3 b4 b5 b6] ad am a6 a7 a8 a9]. split; try done.
  - unfold ops_ok in *. rewrite b2, b3, b4, b5. done.
  - intros b. rewrite a6, elem_of_union, elem_of_list_to_set. pose proof (fo_range _ _ _ Hf b). pose proof (a8 b).
    destruct (decide (b ∈ owns s sv)); naive_solver.
Qed.

(** A vnode of another inode was stored. *)
Lemma inode_is_insert v s s' sv' j i :
  fs_vn s' = <[v := sv']> (fs_vn s) → sv_ino sv' ≠ j → (∀ sv, fs_vn s !! v = Some sv → sv_ino sv ≠ j) →
  disk_inode s' j = disk_inode s j → inode_is s' j i ↔ inode_is s j i.
Proof.
  intros Hvn Hne Hold Hd. unfold inode_is, unloaded. rewrite Hd, Hvn. split.
  - intros [(w & sw & Hw & Hi & Hii)|[Hu ->]]; [left|right].
    + apply lookup_insert_Some in Hw as [[<- <-]|[Hvw Hw]]; [done|]. by exists w, sw.
    + split; [|done]. intros w sw Hw. destruct (decide (w = v)) as [->|Hvw]; [by apply Hold|]. apply (Hu w). by rewrite lookup_insert_ne.
  - intros [(w & sw & Hw & Hi & Hii)|[Hu ->]]; [left|right].
    + exists w, sw. rewrite lookup_insert_ne; [done|]. intros <-. by destruct (Hold sw).
    + split; [|done]. intros w sw Hw. apply lookup_insert_Some in Hw as [[<- <-]|[_ Hw]]; [done|]. by apply (Hu w).
Qed.

(** Files whose inode and blocks are not touched stay as they are. *)
Lemma other_file R I v s sv s' sv' j i :
  sfs_inv R I s → fs_vn s !! v = Some sv → vchange v s sv s' sv' → j ∈ I → j ≠ sv_ino sv →
  (inode_is s' j i ↔ inode_is s j i) ∧
  (inode_is s j i → slots cur s' (vn i j) = slots cur s (vn i j) ∧ contents s' (vn i j) = contents s (vn i j) ∧ file_ok s' (vn i j)).
Proof.
  intros Hinv Hv [c1 c2 c3 c4 c5 c6 c7 c8 c9 c10 c11] Hj Hne.
  destruct (inv_loaded _ _ _ Hinv v sv Hv) as [HI _]. pose proof (inode_is_loaded _ _ _ Hv) as His.
  assert (Hdata : data s' j = data s j).
  { destruct (inode_is_ex s j) as [i0 Hi0]. destruct (inv_file _ _ _ Hinv _ _ Hj Hi0) as [[_ _ _ (f1 & f2 & _)] _]. cbn in *.
    apply c10; [lia|done|]. by destruct (inv_disj _ _ _ Hinv _ _ _ _ HI Hj (not_eq_sym Hne) His Hi0). }
  split.
  - apply (inode_is_insert v s s' sv'); [done|congruence|by intros sv0 ?; simplify_eq; congruence|unfold disk_inode; by rewrite Hdata].
  - intros Hi. destruct (inv_file _ _ _ Hinv _ _ Hj Hi) as [Hf _]. destruct (inv_disj _ _ _ Hinv _ _ _ _ HI Hj (not_eq_sym Hne) His Hi) as [_ Hdis].
    assert (Hb : ∀ b, b ∈ owns s (vn i j) → b ∈ inuse s ∧ b ∉ owns s sv ∧ 0 < b < nblocks s).
    { intros b Hb. destruct (fo_range _ _ _ Hf b Hb). split_and!; [done| |lia|lia]. intros Hb2. by apply (Hdis b). }
    destruct (fblocks_frame cur s s' (vn i j)) as [Hs Hfb].
    { intros b Hb'. destruct (Hb b Hb') as (? & ? & ?). apply c10; (done || lia). }
    split; [done|]. split; [unfold SfsFile.contents; by rewrite Hfb|].
    pose proof (same_rest_nblocks _ _ c4) as Hnb. destruct Hf as [f1 f2 f3 (f4 & f5 & f6)].
    assert (Hw : owns s' (vn i j) = owns s (vn i j)) by (unfold SfsFile.owns; by rewrite Hs).
    split; rewrite ?Hw, ?Hnb; try done.
    + intros b Hb'. destruct (Hb b Hb') as (? & ? & ?). split; [done|]. apply c8. by left.
    + split; [done|]. split; [|done]. apply c8. left. split; [done|]. cbn.
      by destruct (inv_disj _ _ _ Hinv _ _ _ _ HI Hj (not_eq_sym Hne) His Hi).
Qed.

Lemma changed_file v s sv s' sv' i : fs_vn s' = <[v := sv']> (fs_vn s) → (∀ w sw, fs_vn s !! w = Some sw → sv_ino sw = sv_ino sv' → w = v) →
  inode_is s' (sv_ino sv') i ↔ i = sv_i sv'.
Proof.
  intros Hvn Hone. split.
  - intros [(w & sw & Hw & Hi & <-)|[Hu _]].
    + rewrite Hvn in Hw. apply lookup_insert_Some in Hw as [[<- <-]|[Hne Hw]]; [done|]. destruct Hne. symmetry. by eapply Hone.
    + destruct (Hu v sv'); [|done]. rewrite Hvn. apply lookup_insert_eq.
  - intros ->. left. exists v, sv'. rewrite Hvn. by rewrite lookup_insert_eq.
Qed.

Lemma owns_vn s sv : owns s (vn (sv_i sv) (sv_ino sv)) = owns s sv.
Proof. done. Qed.

(** In the new state an inode is the changed one or one of the others, and
    what the old state says of it. *)
Lemma inode_cases R I v s sv s' sv' j i :
  sfs_inv R I s → fs_vn s !! v = Some sv → vchange v s sv s' sv' → j ∈ I → inode_is s' j i →
  (j = sv_ino sv ∧ i = sv_i sv') ∨
  (j ≠ sv_ino sv ∧ inode_is s j i ∧ owns s' (vn i j) = owns s (vn i j) ∧ file_ok s' (vn i j)).
Proof.
  intros Hinv Hv Hc Hj Hi. destruct (decide (j = sv_ino sv)) as [->|Hne].
  - left. split; [done|]. rewrite <- (vc_ino _ _ _ _ _ Hc) in Hi.
    apply (changed_file v s sv s' sv') in Hi; [done|apply Hc|].
    intros w sw Hw Hi'. rewrite (vc_ino _ _ _ _ _ Hc) in Hi'. by eapply (inv_one _ _ _ Hinv).
  - right. destruct (other_file R I v s sv s' sv' j i Hinv Hv Hc Hj Hne) as [Hiff Hsame]. apply Hiff in Hi.
    destruct (Hsame Hi) as (Hs & _ & Hf). split_and!; try done. unfold SfsFile.owns. by rewrite Hs.
Qed.

Lemma inv_vchange R I v s sv s' sv' :
  sfs_inv R I s → fs_vn s !! v = Some sv → vchange v s sv s' sv' → sfs_inv R I s'.
Proof.
  intros Hinv Hv Hc. pose proof Hc as [c1 c2 c3 [r1 r2 r3 r4 r5 r6] c5 c6 c7 c8 c9 c10 c11].
  destruct (inv_loaded _ _ _ Hinv v sv Hv) as [HI _]. pose proof (inode_is_loaded _ _ _ Hv) as His.
  assert (Hf : file_ok s sv) by (apply (inv_ready _ _ _ _ _ Hinv Hv)).
  assert (Hcase := inode_cases R I v s sv s' sv').
  assert (Hold : ∀ j i b, j ∈ I → j ≠ sv_ino sv → inode_is s j i → b ∈ owns s (vn i j) → b ∈ inuse s ∧ b ∉ owns s sv).
  { intros j i b Hj Hne Hi Hb. destruct (inv_file _ _ _ Hinv _ _ Hj Hi) as [Hfj _]. split; [by apply (fo_range _ _ _ Hfj)|].
    intros Hb2. by destruct (inv_disj _ _ _ Hinv _ _ _ _ HI Hj (not_eq_sym Hne) His Hi) as [_ Hd]; apply (Hd b). }
  assert (Hino : ∀ j, j ∈ I → j ∈ inuse s) by (intros j Hj; apply (inv_account _ _ _ Hinv); by right; left).
  assert (Hnew : ∀ j i, j ∈ I → j ≠ sv_ino sv → inode_is s j i → j ∉ owns s' sv' ∧ sv_ino sv ∉ owns s (vn i j) ∧ ∀ b, b ∈ owns s' sv' → b ∉ owns s (vn i j)).
  { intros j i Hj Hne Hi. destruct (inv_disj _ _ _ Hinv _ _ _ _ HI Hj (not_eq_sym Hne) His Hi) as [Hd1 _].
    destruct (inv_disj _ _ _ Hinv _ _ _ _ Hj HI Hne Hi His) as [Hd2 _]. split_and!; [|done|].
    - intros Hb. destruct (c9 j Hb) as [?|Hn]; [by apply Hd1|by apply Hn, Hino].
    - intros b Hb Hb2. destruct (Hold j i b Hj Hne Hi Hb2). destruct (c9 b Hb); done. }
  split; [done|rewrite r5; apply Hinv|rewrite r3; apply Hinv|..].
  - intros w. rewrite r3, (inv_table _ _ _ Hinv), c3. destruct (decide (w = v)) as [->|]; [|by rewrite lookup_insert_ne].
    rewrite lookup_insert_eq, Hv. done.
  - intros w Hw. rewrite c3, lookup_insert_ne; [apply (inv_next _ _ _ Hinv); lia|]. intros <-. rewrite (inv_next _ _ _ Hinv) in Hv by lia. done.
  - intros w x sw sx. rewrite c3, !lookup_insert_Some. intros [[<- <-]|[Hw1 Hw]] [[<- <-]|[Hx1 Hx]] He; [done| | |by eapply (inv_one _ _ _ Hinv)].
    + eapply (inv_one _ _ _ Hinv); [done|done|congruence].
    + eapply (inv_one _ _ _ Hinv); [done|done|congruence].
  - intros w sw. rewrite c3, lookup_insert_Some. intros [[<- <-]|[Hw1 Hw]]; [by rewrite c5|by apply (inv_loaded _ _ _ Hinv w)].
  - intros w sw. rewrite c3, lookup_insert_Some. destruct (fo_ino _ _ _ Hf) as (f1 & f2 & f3).
    intros [[<- <-]|[Hw1 Hw]] Hd; unfold disk_inode.
    + destruct (c7 Hd) as [-> Hd2]. rewrite c5, (c10 (sv_ino sv)); [by apply (inv_clean _ _ _ Hinv v)|lia|exact f2|exact f3].
    + destruct (inv_loaded _ _ _ Hinv w sw Hw) as [HIw _]. pose proof (inode_is_loaded _ _ _ Hw) as Hisw.
      assert (Hne : sv_ino sw ≠ sv_ino sv) by (intros E; apply Hw1; symmetry; by eapply (inv_one _ _ _ Hinv)).
      destruct (inv_file _ _ _ Hinv _ _ HIw Hisw) as [[_ _ _ (g1 & g2 & g3)] _]. cbn in g1, g2.
      destruct (inv_disj _ _ _ Hinv _ _ _ _ HI HIw (not_eq_sym Hne) His Hisw) as [Hd1 _].
      rewrite (c10 (sv_ino sw)); [by apply (inv_clean _ _ _ Hinv w)|lia|exact g2|exact Hd1].
  - intros j i Hj Hi. destruct (Hcase j i) as [[-> ->]|(Hne & Hi0 & _ & Hfj)]; try done.
    + rewrite <- c5. split; [exact (proj1 (file_ok_vn s' sv') c2)|]. destruct c6 as (_ & _ & Ho). unfold ops_ok in Ho. rewrite !elem_of_cons.
      destruct (vn_ops sv'); auto.
    + split; [done|]. by apply (inv_file _ _ _ Hinv j).
  - intros j k i i' Hj Hk Hjk Hi Hi'.
    destruct (Hcase j i) as [[-> ->]|(Hne & Hi0 & Hw & _)]; try done; destruct (Hcase k i') as [[-> ->]|(Hne' & Hi0' & Hw' & _)]; try done.
    + rewrite Hw'. change (owns s' (vn (sv_i sv') (sv_ino sv))) with (owns s' sv'). by destruct (Hnew k i' Hk Hne' Hi0') as (? & _ & ?).
    + rewrite Hw. change (owns s' (vn (sv_i sv') (sv_ino sv))) with (owns s' sv'). destruct (Hnew j i Hj Hne Hi0) as (_ & ? & Hn).
      split; [done|]. intros b Hb Hb2. by apply (Hn b).
    + rewrite Hw, Hw'. by apply (inv_disj _ _ _ Hinv).
  - intros b Hb. destruct (inv_reserved _ _ _ Hinv b Hb) as [Hb1 Hb2]. split; [done|]. intros j i Hj Hi.
    destruct (Hcase j i) as [[-> ->]|(Hne & Hi0 & Hw & _)]; try done; [|rewrite Hw; by apply Hb2].
    change (owns s' (vn (sv_i sv') (sv_ino sv))) with (owns s' sv'). intros Hbo. destruct (c9 b Hbo) as [Hb3|Hb3].
    + by apply (Hb2 _ _ HI His).
    + apply Hb3. apply (inv_account _ _ _ Hinv). by left.
  - intros b. rewrite c8, (inv_account _ _ _ Hinv). split.
    + intros [[[HR|[HIb|(j & i & Hj & Hi & Hb)]] Hno]|Hb]; [by left|by right; left| |].
      * right. right. assert (Hne : j ≠ sv_ino sv).
        { intros ->. rewrite (inode_is_fun _ _ _ _ _ _ Hinv Hi His) in Hb. done. }
        destruct (other_file R I v s sv s' sv' j i Hinv Hv Hc Hj Hne) as [Hiff Hsame]. destruct (Hsame Hi) as (Hs & _).
        exists j, i. split; [done|]. split; [by apply Hiff|]. unfold SfsFile.owns. by rewrite Hs.
      * right. right. exists (sv_ino sv), (sv_i sv'). split; [done|]. split; [|done].
        left. exists v, sv'. rewrite c3, lookup_insert_eq. done.
    + intros [HR|[HIb|(j & i & Hj & Hi & Hb)]].
      * left. split; [by left|]. destruct (inv_reserved _ _ _ Hinv b HR) as [_ Hb2]. by apply (Hb2 _ _ HI His).
      * left. split; [by right; left|]. destruct (decide (b = sv_ino sv)) as [->|Hne]; [apply Hf|].
        destruct (inode_is_ex s b) as [i Hi]. by destruct (inv_disj _ _ _ Hinv _ _ _ _ HI HIb (not_eq_sym Hne) His Hi).
      * destruct (Hcase j i) as [[-> ->]|(Hne & Hi0 & Hw & _)]; try done; [by right|]. rewrite Hw in Hb. left.
        split; [right; right; by exists j, i|]. by apply (Hold j i).
  - apply (meta_frame R s); [apply Hinv|]. split; try done. intros b [HR Hb]%(mo_reserved _ _ (inv_meta _ _ _ Hinv)).
    apply c10; [done|apply (inv_account _ _ _ Hinv); by left|]. destruct (inv_reserved _ _ _ Hinv b HR) as [_ Hno]. by apply (Hno _ _ HI His).
Qed.
End Inv.
