(* ===== verification/SfsVnode.v ===== *)
(** * SFS: vnodes

    Loading an inode, counting references, writing an inode back, giving up a
    vnode, emptying a file.  Each keeps the invariant of the file system. *)

From stdpp Require Import base numbers list gmap sets.
From Stdlib Require Import ZArith Lia.
From S2P Require Import Prelude CString Bitmap Uio Device SfsDisk Sfs SfsBlocks SfsFile SfsIo SfsDir SfsInv.

Open Scope Z_scope.
Open Scope kernel_scope.

Section Vnode.
Context (cur : option nat) {D : Type} {DV : Device D} {BD : BlockDevice cur D}.
Abbreviation fs := (@sfs_fs D).
Abbreviation data := (data cur).
Abbreviation fs_ok := (fs_ok cur).
Abbreviation file_ok := (file_ok cur).
Abbreviation owns := (owns cur).
Abbreviation contents := (contents cur).
Abbreviation vstep := (vstep cur).
Abbreviation inode_is := (inode_is cur).
Abbreviation sfs_inv := (sfs_inv cur).
Abbreviation vchange := (vchange cur).
Implicit Types (s : fs) (sv : sfs_vnode) (v w : nat) (b ino : Z) (i : sfs_inode) (R I : gset Z).

(** ** The big lock *)

Lemma depth_back s n : set_depth (fs_depth s) (set_depth n s) = s.
Proof. by destruct s. Qed.
Lemma file_ok_depth s sv n : file_ok s sv → file_ok (set_depth n s) sv.
Proof. intros []. by split. Qed.
Lemma inv_depth R I s n : sfs_inv R I s → 0 < n → sfs_inv R I (set_depth n s).
Proof.
  intros [[] ? ? ? ? ? ? ? Hf ? ? ? []] Hn. split; try assumption; [by split| |by split].
  intros ino i HI Hi. destruct (Hf ino i HI Hi). split; [by apply file_ok_depth|done].
Qed.

Lemma locked_run {A} (c : K fs A) s a s1 :
  c (set_depth (fs_depth s + 1) s) = Done (a, s1) → fs_depth s1 = fs_depth s + 1 → 0 ≤ fs_depth s →
  locked c s = Done (a, set_depth (fs_depth s) s1).
Proof.
  intros E Hd H0. unfold locked, vfs_biglock_acquire, vfs_biglock_release. ksteps. kcall E. ksteps.
  rewrite Hd, step_assert by (apply Z.ltb_lt; lia). ksteps. unfold kret. do 3 f_equal. lia.
Qed.

Lemma locked_modvn v f s sv :
  0 ≤ fs_depth s → fs_vn s !! v = Some sv → locked (modvn v f) s = Done (tt, set_vn (<[v := f sv]> (fs_vn s)) s).
Proof.
  intros Hd Hv. erewrite locked_run; [|exact (modvn_ok v f (set_depth (fs_depth s + 1) s) sv Hv)|done|done]. by destruct s.
Qed.

(** ** Changes of the vnode alone *)

(** A change that leaves the places of the block numbers as they are. *)
Lemma modvn_change R I v s sv sv' :
  sfs_inv R I s → fs_vn s !! v = Some sv →
  sfi_direct (sv_i sv') = sfi_direct (sv_i sv) → sfi_indirect (sv_i sv') = sfi_indirect (sv_i sv) → inode_wf (sv_i sv') →
  sv_ino sv' = sv_ino sv → 0 < vn_refcount sv' → 0 ≤ vn_opencount sv' → ops_ok sv' →
  (sv_dirty sv' = false → sv_i sv' = sv_i sv ∧ sv_dirty sv = false) →
  vchange v s sv (set_vn (<[v := sv']> (fs_vn s)) s) sv'.
Proof.
  intros Hinv Hv Hdi Hin Hwf Hino Hr Ho Hops Hdirty. pose proof (inv_ready _ _ _ _ _ _ Hinv Hv) as (Hok & Hf & _).
  set (s' := set_vn (<[v := sv']> (fs_vn s)) s).
  assert (Hs : slots cur s' sv' = slots cur s sv) by (unfold slots, blocks, idwords; rewrite Hdi, Hin; done).
  assert (Hw : owns s' sv' = owns s sv) by (unfold SfsFile.owns; by rewrite Hs).
  split; try done.
  - destruct Hok. by split.
  - destruct Hf as [f1 f2 f3 f4]. split; rewrite ?Hw, ?Hino; done.
  - intros b. rewrite Hw. change (inuse s') with (inuse s). pose proof (fo_range _ _ _ Hf b). destruct (decide (b ∈ owns s sv)); naive_solver.
  - intros b. rewrite Hw. by left.
Qed.

(** ** Finding an inode *)

Definition inos_used s : Prop := ∀ v sv, fs_vn s !! v = Some sv → 0 ≤ sv_ino sv < nblocks s ∧ sv_ino sv ∈ inuse s.
Lemma inv_inos_used R I s : sfs_inv R I s → inos_used s.
Proof.
  intros Hinv v sv Hv. pose proof (inv_ready _ _ _ _ _ _ Hinv Hv) as (_ & Hf & _). destruct (fo_ino _ _ _ Hf) as (f1 & f2 & _). split; [lia|done].
Qed.

Lemma find_vnode_ok s ino vs :
  fs_ok s → inos_used s → (∀ v, v ∈ vs → is_Some (fs_vn s !! v)) →
  ∃ r, find_vnode ino vs s = Done (r, s) ∧
    match r with
    | Some v => ∃ sv, fs_vn s !! v = Some sv ∧ sv_ino sv = ino
    | None => ∀ v sv, v ∈ vs → fs_vn s !! v = Some sv → sv_ino sv ≠ ino
    end.
Proof.
  intros Ho Hus. induction vs as [|v vs IH]; intros Hvs.
  { exists None. split; [done|]. by intros v sv ?%elem_of_nil. }
  destruct (Hvs v) as [sv Hv]; [by left|]. cbn [find_vnode]. kcall (getvn_ok _ _ _ Hv).
  destruct (Hus v sv Hv) as [f1 f2].
  kcall (bused_ok cur s (sv_ino sv) Ho ltac:(lia)). rewrite bool_decide_eq_true_2 by done. cbn [negb].
  destruct (Z.eqb_spec (sv_ino sv) ino) as [E|E]; [exists (Some v); split; [done|by exists sv]|].
  destruct IH as (r & Er & Hr); [intros w Hw; apply Hvs; by right|]. exists r. split; [done|]. destruct r; [done|].
  intros w sw Hw Hlw. apply elem_of_cons in Hw as [->|Hw]; [congruence|by eapply Hr].
Qed.

Lemma find_loaded R I s ino :
  sfs_inv R I s →
  (∃ v sv, fs_vn s !! v = Some sv ∧ sv_ino sv = ino ∧ find_vnode ino (fs_vnodes s) s = Done (Some v, s)) ∨
  (unloaded s ino ∧ find_vnode ino (fs_vnodes s) s = Done (None, s)).
Proof.
  intros Hinv. destruct (find_vnode_ok s ino (fs_vnodes s)) as (r & E & Hr); [apply Hinv|by eapply inv_inos_used|intros v; apply Hinv|].
  destruct r as [v|]; [left|right].
  - destruct Hr as (sv & ? & ?). by exists v, sv.
  - split; [|done]. intros v sv Hv. apply (Hr v); [|done]. apply Hinv. by rewrite Hv.
Qed.

(** Nothing the files hold has changed. *)
Record quiet I s s' : Prop := {
  q_inode j i : j ∈ I → inode_is s' j i ↔ inode_is s j i;
  q_owns j i : j ∈ I → inode_is s j i → slots cur s' (vn i j) = slots cur s (vn i j);
  q_contents j i : j ∈ I → inode_is s j i → contents s' (vn i j) = contents s (vn i j);
  q_inuse : inuse s' = inuse s;
  q_super : fs_super s' = fs_super s;
  q_depth : fs_depth s' = fs_depth s
}.
Lemma quiet_refl I s : quiet I s s.
Proof. by split. Qed.
Lemma quiet_trans I s1 s2 s3 : quiet I s1 s2 → quiet I s2 s3 → quiet I s1 s3.
Proof.
  intros [a1 a2 a3 a4 a5 a6] [b1 b2 b3 b4 b5 b6]. split; try congruence.
  - intros j i Hj. by rewrite b1, a1.
  - intros j i Hj Hi. pose proof (proj2 (a1 j i Hj) Hi). by rewrite b2, a2.
  - intros j i Hj Hi. pose proof (proj2 (a1 j i Hj) Hi). by rewrite b3, a3.
Qed.

(** A change of counts and dirtiness only. *)
Lemma quiet_counts R I v s sv sv' :
  sfs_inv R I s → fs_vn s !! v = Some sv → sv_i sv' = sv_i sv → sv_ino sv' = sv_ino sv →
  quiet I s (set_vn (<[v := sv']> (fs_vn s)) s).
Proof.
  intros Hinv Hv Hi Hino. split; try done. intros j i Hj. destruct (decide (j = sv_ino sv)) as [->|Hne].
  - rewrite <- Hino at 1. rewrite (changed_file cur v s sv _ sv'); [|done|intros w sw Hw E; rewrite Hino in E; by eapply (inv_one _ _ _ _ Hinv)].
    rewrite Hi. split; [intros ->; by eapply inode_is_loaded|]. intros His. eapply (inode_is_fun cur R I s); [done|done|by eapply inode_is_loaded].
  - apply (inode_is_insert cur v s _ sv'); [done|congruence|congruence|done].
Qed.

(** A vnode that is not in the table yet. *)
Definition add_vnode v sv s : fs := set_next (S v) (set_vnodes (fs_vnodes s ++ [v]) (set_vn (<[v := sv]> (fs_vn s)) s)).

Lemma inode_is_add s sv j i :
  fs_vn s !! fs_next s = None → unloaded s (sv_ino sv) →
  inode_is (add_vnode (fs_next s) sv s) j i ↔ if decide (j = sv_ino sv) then i = sv_i sv else inode_is s j i.
Proof.
  intros Hn Hu. case_decide as Hj.
  - subst j. apply (changed_file cur (fs_next s) s sv (add_vnode (fs_next s) sv s) sv); [done|]. intros w sw Hw Hi. by destruct (Hu w sw).
  - apply (inode_is_insert cur (fs_next s) s _ sv); [done|done|congruence|done].
Qed.

(** ** Keeping the invariant when no file changes *)

Record table_ok I s : Prop := {
  tb_nodup : NoDup (fs_vnodes s);
  tb_table v : v ∈ fs_vnodes s ↔ is_Some (fs_vn s !! v);
  tb_next v : (fs_next s ≤ v)%nat → fs_vn s !! v = None;
  tb_one v w sv sw : fs_vn s !! v = Some sv → fs_vn s !! w = Some sw → sv_ino sv = sv_ino sw → v = w;
  tb_loaded v sv : fs_vn s !! v = Some sv → sv_ino sv ∈ I ∧ 0 < vn_refcount sv ∧ 0 ≤ vn_opencount sv ∧ ops_ok sv;
  tb_clean v sv : fs_vn s !! v = Some sv → sv_dirty sv = false → disk_inode cur s (sv_ino sv) = sv_i sv
}.
Lemma inv_tables R I s : sfs_inv R I s → table_ok I s.
Proof. by intros []. Qed.

Lemma inv_quiet_meta R I s s' :
  sfs_inv R I s → quiet I s s' → meta_ok cur R s' → fs_ok s' → fs_oom s' = [] → table_ok I s' → sfs_inv R I s'.
Proof.
  intros Hinv [q1 q2 q3 q4 q5 q6] Hmk Ho Hoom []. pose proof Hinv as [_ _ _ _ _ _ _ _ i1 i2 i3 i4 im].
  assert (Hw : ∀ j i, j ∈ I → inode_is s j i → owns s' (vn i j) = owns s (vn i j)).
  { intros j i Hj Hi. unfold SfsFile.owns. by rewrite q2. }
  assert (Hnb : nblocks s' = nblocks s) by (unfold nblocks; by rewrite q5).
  split; try done.
  - intros j i Hj Hi. apply q1 in Hi; [|done]. destruct (i1 j i Hj Hi) as [Hf Ht]. split; [|done].
    eapply file_ok_frame; [done|done|done|by apply q2].
  - intros j k i i' Hj Hk Hne Hi Hi'. apply q1 in Hi; [|done]. apply q1 in Hi'; [|done]. rewrite !Hw by done. by apply i2.
  - intros b Hb. destruct (i3 b Hb) as [Hb1 Hb2]. split; [done|]. intros j i Hj Hi. apply q1 in Hi; [|done]. rewrite Hw by done. by apply Hb2.
  - intros b. rewrite q4, i4. split; (intros [|[|(j & i & Hj & Hi & Hb)]]; [by left|by right; left|right; right; exists j, i]).
    + split_and!; [done|by apply q1|by rewrite Hw].
    + apply q1 in Hi; [|done]. rewrite Hw in Hb by done. done.
Qed.
Lemma inv_quiet R I s s' :
  sfs_inv R I s → quiet I s s' → meta_kept cur s s' → fs_ok s' → fs_oom s' = [] → table_ok I s' → sfs_inv R I s'.
Proof. intros Hinv Q Hmk. apply (inv_quiet_meta R I s s' Hinv Q). eapply meta_frame; [apply Hinv|done]. Qed.

(** The device was read. *)
Lemma quiet_dev R I s d' : sfs_inv R I s → dev_same cur (fs_dev s) d' → quiet I s (set_dev d' s) ∧ sfs_inv R I (set_dev d' s).
Proof.
  intros Hinv Hd. pose proof (inv_ok _ _ _ _ Hinv) as Ho.
  assert (Hdi : ∀ b, 0 ≤ b < nblocks s → data (set_dev d' s) b = data s b).
  { intros b Hb. apply (ds_data _ _ _ Hd). pose proof (ok_blocks _ _ Ho). lia. }
  assert (HI : ∀ j, j ∈ I → disk_inode cur (set_dev d' s) j = disk_inode cur s j).
  { intros j Hj. destruct (inode_is_ex cur s j) as [i Hi]. destruct (inv_file _ _ _ _ Hinv _ _ Hj Hi) as [[_ _ _ (f1 & _)] _]. cbn in f1.
    unfold disk_inode. rewrite Hdi by lia. done. }
  assert (Q : quiet I s (set_dev d' s)).
  { split; try done.
    - intros j i Hj. unfold SfsInv.inode_is. rewrite HI by done. done.
    - intros j i Hj Hi. destruct (inv_file _ _ _ _ Hinv _ _ Hj Hi) as [Hf _]. by apply same_dev.
    - intros j i Hj Hi. destruct (inv_file _ _ _ _ Hinv _ _ Hj Hi) as [Hf _]. by apply contents_dev. }
  split; [done|]. apply (inv_quiet R I s); [done|done| |by apply fs_ok_same|apply Hinv|].
  { split; try done. intros b [_ Hb]%(mo_reserved _ _ _ (inv_meta _ _ _ _ Hinv)). by apply Hdi. }
  destruct (inv_tables _ _ _ Hinv) as [t1 t2 t3 t4 t5 t6]. split; try done.
  intros v sv Hv Hdt. rewrite HI by (by apply (t5 v)). by apply (t6 v).
Qed.

(** A count went up or down. *)
Lemma counts_ok R I v s sv sv' :
  sfs_inv R I s → fs_vn s !! v = Some sv → sv_i sv' = sv_i sv → sv_ino sv' = sv_ino sv → vn_ops sv' = vn_ops sv → sv_dirty sv' = sv_dirty sv →
  0 < vn_refcount sv' → 0 ≤ vn_opencount sv' →
  let s' := set_vn (<[v := sv']> (fs_vn s)) s in quiet I s s' ∧ sfs_inv R I s'.
Proof.
  intros Hinv Hv Hi Hino Hops Hdt Hr Ho s'. split; [by eapply quiet_counts|].
  destruct (inv_loaded _ _ _ _ Hinv v sv Hv) as (_ & _ & _ & Hop). pose proof (inv_ready _ _ _ _ _ _ Hinv Hv) as (_ & [Hwf _ _ _] & _).
  eapply inv_vchange; [done|done|]. apply (modvn_change R I); try done; rewrite ?Hi; try done.
  - unfold ops_ok in *. by rewrite Hops, Hi.
  - by rewrite Hdt.
Qed.

Lemma incref_ok R I v s sv :
  sfs_inv R I s → fs_vn s !! v = Some sv →
  let sv' := set_refcount (vn_refcount sv + 1) sv in
  let s' := set_vn (<[v := sv']> (fs_vn s)) s in
  vnode_incref v s = Done (tt, s') ∧ quiet I s s' ∧ sfs_inv R I s'.
Proof.
  intros Hinv Hv sv' s'. destruct (inv_loaded _ _ _ _ Hinv v sv Hv) as (_ & ? & ? & _). split.
  - pose proof (ok_depth _ _ (inv_ok _ _ _ _ Hinv)). unfold vnode_incref. rewrite (locked_modvn v _ s sv); [done|lia|done].
  - apply (counts_ok R I v s sv sv'); try done; cbn; lia.
Qed.

(** ** Loading an inode *)

Lemma add_vnode_table I s sv :
  table_ok I s → unloaded s (sv_ino sv) → sv_ino sv ∈ I → 0 < vn_refcount sv → 0 ≤ vn_opencount sv → ops_ok sv →
  (sv_dirty sv = false → disk_inode cur s (sv_ino sv) = sv_i sv) → table_ok I (add_vnode (fs_next s) sv s).
Proof.
  intros [t1 t2 t3 t4 t5 t6] Hu HI Hr Ho Hops Hcl. pose proof (t3 (fs_next s) ltac:(lia)) as Hn. split; cbn.
  - apply NoDup_app. split_and!; [done| |apply NoDup_singleton]. intros v Hv ->%list_elem_of_singleton. apply t2 in Hv. rewrite Hn in Hv. by destruct Hv.
  - intros v. rewrite elem_of_app, list_elem_of_singleton, t2, lookup_insert. case_decide; naive_solver.
  - intros v Hv. rewrite lookup_insert_ne by lia. apply t3. lia.
  - intros v w sv' sw. rewrite !lookup_insert_Some. intros [[<- <-]|[? Hv]] [[<- <-]|[? Hw]] E; [done| | |by eapply t4].
    + by destruct (Hu w sw).
    + by destruct (Hu v sv').
  - intros v sv'. rewrite lookup_insert_Some. intros [[<- <-]|[? Hv]]; [done|by apply (t5 v)].
  - intros v sv'. rewrite lookup_insert_Some. intros [[<- <-]|[? Hv]]; [done|by apply (t6 v)].
Qed.

Lemma load_existing R I s ino i :
  sfs_inv R I s → unloaded s ino → ino ∈ I → inode_is s ino i →
  ∀ ops, ops_ok (mk_vnode i ino false 1 0 ops) →
  let s' := add_vnode (fs_next s) (mk_vnode i ino false 1 0 ops) s in quiet I s s' ∧ sfs_inv R I s'.
Proof.
  intros Hinv Hu HI Hi ops Hops s'. assert (Ei : i = disk_inode cur s ino) by (destruct Hi as [(w & sw & Hw & Hi & _)|[_ ->]]; [by destruct (Hu w sw)|done]).
  assert (Q : quiet I s s').
  { split; try done. intros j i' Hj. unfold s'. rewrite inode_is_add by (done || apply (inv_next _ _ _ _ Hinv); lia). cbn. case_decide as Ej; [|done]. subst j. split.
    - by intros ->.
    - intros Hi'. by eapply (inode_is_fun cur R I s). }
  split; [done|]. apply (inv_quiet R I s); [done|done|done| |apply Hinv|].
  - destruct (inv_ok _ _ _ _ Hinv). by split.
  - apply add_vnode_table; try done. by apply (inv_tables R).
Qed.

Lemma next_alloc_ok s : fs_oom s = [] → next_alloc s = Done (true, s).
Proof. intros H. unfold next_alloc. destruct s. cbn in *. by subst. Qed.

(** The number of an inode of the file system gives its vnode, with one more
    reference. *)
Lemma loadvnode_ok R I s ino :
  sfs_inv R I s → ino ∈ I →
  ∃ v sv s', sfs_loadvnode ino SFS_TYPE_INVAL s = Done (inr v, s') ∧ fs_vn s' !! v = Some sv ∧ sv_ino sv = ino ∧
    quiet I s s' ∧ sfs_inv R I s' ∧
    ((fs_vn s !! v = None ∧ vn_refcount sv = 1 ∧ vn_opencount sv = 0) ∨
     (∃ sv0, fs_vn s !! v = Some sv0 ∧ sv = set_refcount (vn_refcount sv0 + 1) sv0)) ∧
    (∀ w, w ≠ v → fs_vn s' !! w = fs_vn s !! w).
Proof.
  intros Hinv HI. unfold sfs_loadvnode. ksteps. destruct (find_loaded R I s ino Hinv) as [(v & sv & Hv & Hi & E)|[Hu E]]; kcall E.
  - destruct (incref_ok R I v s sv Hinv Hv) as (E2 & Q & Hinv2). rewrite step_assert by done. kcall E2.
    eexists v, _, _. split; [reflexivity|]. split; [apply lookup_insert_eq|]. split_and!; try done.
    + right. by exists sv.
    + intros w Hw. cbn. by rewrite lookup_insert_ne.
  - kcall (next_alloc_ok s (inv_oom _ _ _ _ Hinv)). cbn [negb]. destruct (inode_is_ex cur s ino) as [i Hi]. destruct (inv_file _ _ _ _ Hinv _ _ HI Hi) as [[_ _ _ (f1 & f2 & _)] Ht]. cbn in f1, f2.
    pose proof (inv_ok _ _ _ _ Hinv) as Ho.
    kcall (bused_ok cur s ino Ho ltac:(lia)). rewrite bool_decide_eq_true_2 by done. cbn [negb].
    destruct (rblock_ok cur s ino Ho ltac:(lia)) as (d' & Er & Hd). rewrite (ebind_inr _ _ _ _ _ Er). cbn zeta.
    destruct (quiet_dev R I s d' Hinv Hd) as [Q1 Hinv1]. set (s1 := set_dev d' s) in *.
    assert (Ei : inode_of (words_of (data s ino)) = i) by (destruct Hi as [(w & sw & Hw & Hi & _)|[_ ->]]; [by destruct (Hu w sw)|done]).
    rewrite Ei. rewrite step_assert by done. change (SFS_TYPE_INVAL =? SFS_TYPE_INVAL) with true. cbn iota.
    set (ops := if sfi_type i =? SFS_TYPE_FILE then sfs_fileops else sfs_dirops).
    assert (Hops : (if sfi_type i =? SFS_TYPE_FILE then Some sfs_fileops else if sfi_type i =? SFS_TYPE_DIR then Some sfs_dirops else None) = Some ops ∧
      ops_ok (mk_vnode i ino false 1 0 ops)).
    { unfold ops, ops_ok. cbn. rewrite !elem_of_cons in Ht. destruct Ht as [-> | [-> | []%not_elem_of_nil]]; done. }
    destruct Hops as [-> Hops]. kcall (next_alloc_ok s1 (inv_oom _ _ _ _ Hinv1)). cbn [negb]. ksteps.
    destruct (load_existing R I s1 ino i) with (ops := ops) as [Q2 Hinv2]; [done|done|done|by apply Q1|done|].
    eexists (fs_next s), _, _. split; [reflexivity|]. split; [apply lookup_insert_eq|]. split_and!; try done.
    + by eapply quiet_trans.
    + left. split; [|done]. apply (inv_next _ _ _ _ Hinv). lia.
    + intros w Hw. cbn. by rewrite lookup_insert_ne.
Qed.

(** ** A new inode *)

Definition new_inode : sfs_inode := set_type SFS_TYPE_FILE (inode_of (replicate 128 0)).
Definition new_vnode ino : sfs_vnode := mk_vnode new_inode ino true 1 0 sfs_fileops.

Lemma new_inode_wf : inode_wf new_inode.
Proof. split; try done; [exact (Forall_replicate is_u32 15 0 ltac:(done))|exact (Forall_replicate is_u32 110 0 ltac:(done))]. Qed.
Lemma new_owns s ino : owns s (vn new_inode ino) = [].
Proof. done. Qed.

(** The files when a block was taken for nobody yet. *)
Lemma took_quiet R I ino s s1 : sfs_inv R I s → took cur ino s s1 →
  (∀ j i, j ∈ I → j ≠ ino ∧ (inode_is s1 j i ↔ inode_is s j i)) ∧
  (∀ j i, j ∈ I → inode_is s j i → slots cur s1 (vn i j) = slots cur s (vn i j) ∧ contents s1 (vn i j) = contents s (vn i j)).
Proof.
  intros Hinv [t1 t2 t3 t4 t5 t6 t7 t8 t9].
  assert (Hne : ∀ j, j ∈ I → j ≠ ino ∧ 0 ≤ j < nblocks s).
  { intros j Hj. destruct (inode_is_ex cur s j) as [i Hi]. destruct (inv_file _ _ _ _ Hinv _ _ Hj Hi) as [[_ _ _ (f1 & f2 & _)] _]. cbn in *.
    split; [|lia]. by intros ->. }
  split.
  - intros j i Hj. destruct (Hne j Hj). split; [done|]. unfold SfsInv.inode_is, unloaded, disk_inode. rewrite t5, t9 by done. done.
  - intros j i Hj Hi. destruct (inv_file _ _ _ _ Hinv _ _ Hj Hi) as [Hf _].
    destruct (fblocks_frame cur s s1 (vn i j)) as [Hs Hb].
    { intros b Hb. destruct (fo_range _ _ _ Hf b Hb). apply t9; [lia|]. by intros ->. }
    split; [done|]. unfold SfsFile.contents. by rewrite Hb.
Qed.

Lemma took_table R I ino s s1 : sfs_inv R I s → took cur ino s s1 → table_ok ({[ino]} ∪ I) s1.
Proof.
  intros Hinv Ht. destruct (took_quiet R I ino s s1 Hinv Ht) as [T1 _]. destruct Ht as [t1 t2 t3 t4 t5 [r1 r2 r3 r4 r5 r6] t7 t8 t9].
  destruct (inv_tables _ _ _ Hinv) as [u1 u2 u3 u4 u5 u6]. split; unfold disk_inode; rewrite ?r3, ?r4, ?t5; try done.
  - intros v sv Hv. destruct (u5 v sv Hv). split; [by apply elem_of_union_r|done].
  - intros v sv Hv Hd. destruct (u5 v sv Hv) as [HI _]. destruct (T1 (sv_ino sv) (sv_i sv) HI) as [Hne _].
    pose proof (inv_ready _ _ _ _ _ _ Hinv Hv) as (_ & [_ _ _ (f1 & _)] & _). rewrite t9 by (done || lia). by apply (u6 v).
Qed.

Record grown I ino s s' : Prop := {
  gr_inode j i : j ∈ I → inode_is s' j i ↔ inode_is s j i;
  gr_slots j i : j ∈ I → inode_is s j i → slots cur s' (vn i j) = slots cur s (vn i j);
  gr_contents j i : j ∈ I → inode_is s j i → contents s' (vn i j) = contents s (vn i j);
  gr_inuse : inuse s' = {[ino]} ∪ inuse s;
  gr_super : fs_super s' = fs_super s;
  gr_depth : fs_depth s' = fs_depth s
}.

Lemma inv_new R I ino s s1 :
  sfs_inv R I s → took cur ino s s1 →
  let s' := add_vnode (fs_next s1) (new_vnode ino) s1 in grown I ino s s' ∧ sfs_inv R ({[ino]} ∪ I) s'.
Proof.
  intros Hinv Ht s'. destruct (took_quiet R I ino s s1 Hinv Ht) as [T1 T2]. pose proof Ht as [t1 t2 t3 t4 t5 [r1 r2 r3 r4 r5 r6] t7 t8 t9].
  assert (HnI : ino ∉ I) by (intros H; destruct (inode_is_ex cur s ino) as [i _]; by destruct (T1 ino i H)).
  assert (Hu : unloaded s1 ino).
  { intros v sv Hv E. rewrite t5 in Hv. apply HnI. rewrite <- E. by apply (inv_loaded _ _ _ _ Hinv v). }
  pose proof (took_table R I ino s s1 Hinv Ht) as Htab.
  assert (His : ∀ j i, inode_is s' j i ↔ if decide (j = ino) then i = new_inode else inode_is s1 j i).
  { intros j i. apply (inode_is_add s1 (new_vnode ino)); [|done]. apply (tb_next _ _ Htab). lia. }
  assert (G : grown I ino s s').
  { split; try done.
    - intros j i Hj. destruct (T1 j i Hj) as [Hne Hiff]. rewrite His, decide_False by done. done.
    - intros j i Hj Hi. apply (T2 j i Hj Hi).
    - intros j i Hj Hi. apply (T2 j i Hj Hi). }
  split; [done|]. destruct G as [g1 g2 g3 g4 g5 g6]. pose proof Hinv as [_ i0 _ _ _ _ _ _ i1 i2 i3 i4 im].
  assert (Ho' : fs_ok s') by (destruct t4; by split).
  assert (Hnb : nblocks s' = nblocks s) by (unfold nblocks; by rewrite g5).
  assert (Hcase : ∀ j i, j ∈ {[ino]} ∪ I → inode_is s' j i → (j = ino ∧ i = new_inode) ∨
    (j ∈ I ∧ j ≠ ino ∧ inode_is s j i ∧ owns s' (vn i j) = owns s (vn i j))).
  { intros j i Hj Hi. destruct (decide (j = ino)) as [->|Hne]; [left; split; [done|]; by rewrite His, decide_True in Hi|right].
    assert (Hj' : j ∈ I) by (apply elem_of_union in Hj as [->%elem_of_singleton|]; done). apply g1 in Hi; [|done]. split_and!; try done. unfold SfsFile.owns. by rewrite g2. }
  assert (Hold : ∀ j i b, j ∈ I → inode_is s j i → b ∈ owns s (vn i j) → b ∈ inuse s ∧ b ≠ ino).
  { intros j i b Hj Hi Hb. destruct (i1 j i Hj Hi) as [Hf _]. destruct (fo_range _ _ _ Hf b Hb). split; [done|]. by intros ->. }
  destruct (add_vnode_table ({[ino]} ∪ I) s1 (new_vnode ino)) as [u1 u2 u3 u4 u5 u6]; try done; [by apply elem_of_union_l, elem_of_singleton|].
  split; try done; [by rewrite <- i0| | | | |].
  - intros j i Hj Hi. destruct (Hcase j i Hj Hi) as [[-> ->]|(Hj' & Hne & Hi' & Hw)].
    + split; [|by left]. split; [apply new_inode_wf|apply NoDup_nil_2|by intros b ?%elem_of_nil|].
      rewrite Hnb, g4, new_owns. split_and!; cbn; [lia|lia|by apply elem_of_union_l, elem_of_singleton|by intros ?%elem_of_nil].
    + destruct (i1 j i Hj' Hi') as [[f1 f2 f3 (f4 & f5 & f6)] Hty]. split; [|done]. split; rewrite ?Hw, ?Hnb, ?g4; try done.
      * intros b Hb. destruct (f3 b Hb). split; [done|by apply elem_of_union_r].
      * split; [done|split; [by apply elem_of_union_r|done]].
  - intros j k i i' Hj Hk Hjk Hi Hi'.
    destruct (Hcase j i Hj Hi) as [[-> ->]|(Hj' & Hne & Hi0 & Hw)]; destruct (Hcase k i' Hk Hi') as [[-> ->]|(Hk' & Hne' & Hi0' & Hw')]; [done| | |].
    + split; [by intros ?%elem_of_nil|]. by intros b ?%elem_of_nil.
    + rewrite Hw. split; [intros Hb; by destruct (Hold j i ino Hj' Hi0 Hb)|]. by intros b _ ?%elem_of_nil.
    + rewrite Hw, Hw'. by apply i2.
  - intros b Hb. destruct (i3 b Hb) as [Hb1 Hb2]. assert (b ∈ inuse s) by (apply i4; by left).
    split; [apply not_elem_of_union; split; [|done]; intros ->%elem_of_singleton; done|].
    intros j i Hj Hi. destruct (Hcase j i Hj Hi) as [[-> ->]|(Hj' & Hne & Hi' & Hw)]; [by intros ?%elem_of_nil|]. rewrite Hw. by apply Hb2.
  - intros b. rewrite g4, elem_of_union, elem_of_singleton, i4. split.
    + intros [->|[HR|[HI|(j & i & Hj & Hi & Hb)]]]; [right; left; by apply elem_of_union_l, elem_of_singleton|by left|right; left; by apply elem_of_union_r|].
      right. right. exists j, i. split; [by apply elem_of_union_r|]. split; [by apply g1|]. unfold SfsFile.owns. by rewrite g2.
    + intros [HR|[HI|(j & i & Hj & Hi & Hb)]]; [right; by left|apply elem_of_union in HI as [?%elem_of_singleton|?]; [by left|right; right; by left]|].
      destruct (Hcase j i Hj Hi) as [[-> ->]|(Hj' & Hne & Hi' & Hw)]; [by apply elem_of_nil in Hb|].
      right. right. right. exists j, i. by rewrite <- Hw.
  - apply (meta_frame cur R s); [done|]. split; try done; [|intros Hx; change (fs_freemapdirty s1 = false) in Hx; congruence].
    intros b [HR Hb]%(mo_reserved _ _ _ im). apply t9; [done|]. intros ->. apply t2, i4. by left.
Qed.

Lemma took_dev ino s s1 d' : took cur ino s s1 → dev_same cur (fs_dev s1) d' → took cur ino s (set_dev d' s1).
Proof.
  intros [t1 t2 t3 t4 t5 t6 t7 t8 t9] Hd. pose proof (same_rest_nblocks _ _ t6) as Hnb. pose proof (ok_blocks _ _ t4).
  split; try done; [by apply fs_ok_same|by destruct t6| |].
  - etrans; [|exact t8]. apply (ds_data _ _ _ Hd). lia.
  - intros c Hc Hne. etrans; [|by apply t9]. apply (ds_data _ _ _ Hd). lia.
Qed.

(** A new object, or no free block for its inode. *)
Lemma makeobj_ok R I s :
  sfs_inv R I s →
  (sfs_makeobj SFS_TYPE_FILE s = Done (inl ENOSPC, s) ∧ full s) ∨
  (∃ ino v s', sfs_makeobj SFS_TYPE_FILE s = Done (inr v, s') ∧ 0 < ino < nblocks s ∧ ino ∉ I ∧ fs_vn s !! v = None ∧
    fs_vn s' = <[v := new_vnode ino]> (fs_vn s) ∧ grown I ino s s' ∧ sfs_inv R ({[ino]} ∪ I) s').
Proof.
  intros Hinv. pose proof (inv_ok _ _ _ _ Hinv) as Ho. unfold sfs_makeobj.
  destruct (balloc_ok cur s Ho) as [[Ea Hfull]|(ino & s1 & Ea & Ht)].
  { left. split; [by rewrite (ebind_inl _ _ _ _ _ Ea)|done]. }
  right. rewrite (ebind_inr _ _ _ _ _ Ea). destruct (took_quiet R I ino s s1 Hinv Ht) as [T1 T2].
  pose proof (tk_ok _ _ _ _ Ht) as Ho1. pose proof (tk_range _ _ _ _ Ht) as Hr. pose proof (same_rest_nblocks _ _ (tk_rest _ _ _ _ Ht)) as Hnb.
  assert (HnI : ino ∉ I) by (intros H; destruct (inode_is_ex cur s ino) as [i _]; by destruct (T1 ino i H)).
  assert (Hus : inos_used s1).
  { intros v sv Hv. rewrite (tk_vn _ _ _ _ Ht) in Hv. destruct (inv_inos_used _ _ _ Hinv v sv Hv). rewrite Hnb, (tk_inuse _ _ _ _ Ht).
    split; [done|by apply elem_of_union_r]. }
  assert (Hun : ∀ v sv, fs_vn s1 !! v = Some sv → sv_ino sv ≠ ino).
  { intros v sv Hv E. rewrite (tk_vn _ _ _ _ Ht) in Hv. apply HnI. rewrite <- E. by apply (inv_loaded _ _ _ _ Hinv v). }
  destruct (find_vnode_ok s1 ino (fs_vnodes s1) Ho1 Hus) as (r & Ef & Hf).
  { intros v. rewrite (sr_vnodes _ _ (tk_rest _ _ _ _ Ht)), (tk_vn _ _ _ _ Ht). apply Hinv. }
  destruct r as [v|]; [destruct Hf as (sv & Hv & Hi); by destruct (Hun v sv)|].
  unfold sfs_loadvnode. ksteps. kcall Ef.
  assert (Hoom : fs_oom s1 = []) by (rewrite (sr_oom _ _ (tk_rest _ _ _ _ Ht)); apply Hinv).
  kcall (next_alloc_ok s1 Hoom). cbn [negb]. kcall (bused_ok cur s1 ino Ho1 ltac:(lia)).
  rewrite bool_decide_eq_true_2 by (rewrite (tk_inuse _ _ _ _ Ht); by apply elem_of_union_l, elem_of_singleton). cbn [negb].
  destruct (rblock_ok cur s1 ino Ho1 ltac:(lia)) as (d' & Er & Hd). rewrite (ebind_inr _ _ _ _ _ Er). cbn zeta.
  rewrite (tk_zero _ _ _ _ Ht). change (replicate 512 0) with (replicate (4 * 128) 0). rewrite (words_of_zeros 128). rewrite step_assert by done.
  change (SFS_TYPE_FILE =? SFS_TYPE_INVAL) with false. cbn iota. fold new_inode. change (sfi_type new_inode =? SFS_TYPE_FILE) with true. cbn iota.
  kcall (next_alloc_ok (set_dev d' s1) Hoom). cbn [negb]. ksteps.
  pose proof (took_dev ino s s1 d' Ht Hd) as Ht2. destruct (inv_new R I ino s (set_dev d' s1) Hinv Ht2) as [G Hinv2].
  assert (Hn1 : fs_next s1 = fs_next s) by apply (tk_rest _ _ _ _ Ht).
  eexists ino, (fs_next s1), _. split; [reflexivity|]. split_and!; try done; [lia|lia| |].
  - rewrite Hn1. apply (inv_next _ _ _ _ Hinv). lia.
  - cbn. by rewrite (tk_vn _ _ _ _ Ht).
Qed.
End Vnode.
