(* ===== verification/SfsTrunc.v ===== *)
(** * SFS: truncation

    [sfs_truncate] gives back the blocks past the new end and leaves the rest
    of the file as it is.  Among the blocks reached through the indirect block
    it keeps one more than the new length needs. *)

From stdpp Require Import base numbers list gmap sets.
From Stdlib Require Import ZArith Lia.
From S2P Require Import Prelude CString Bitmap Uio Device SfsDisk Sfs SfsBlocks SfsFile SfsIo SfsDir SfsInv SfsVnode.

Open Scope Z_scope.
Open Scope kernel_scope.

(** ** Cutting a list of block numbers *)

Section Cut.
Context (p : Z → bool).

(** Positions from [j] on; where [p] holds the block is cut. *)
Fixpoint cut (j : Z) (l : list Z) : list Z :=
  match l with [] => [] | b :: l => (if p j then 0 else b) :: cut (j + 1) l end.
Fixpoint cut_set (j : Z) (l : list Z) : gset Z :=
  match l with [] => ∅ | b :: l => (if p j && negb (b =? 0) then {[b]} else ∅) ∪ cut_set (j + 1) l end.

Lemma cut_length j l : length (cut j l) = length l.
Proof. revert j. induction l as [|b l IH]; intros j; [done|]. cbn. by rewrite IH. Qed.
Lemma cut_lookup l : ∀ j n, cut j l !! n = (λ b, if p (j + Z.of_nat n) then 0 else b) <$> l !! n.
Proof.
  induction l as [|b l IH]; intros j n; [done|]. destruct n as [|n]; cbn; [by rewrite Z.add_0_r|].
  change (cut (j + 1) l !! n = (λ b0, if p (j + Z.of_nat (S n)) then 0 else b0) <$> l !! n).
  rewrite IH. by replace (j + 1 + Z.of_nat n) with (j + Z.of_nat (S n)) by lia.
Qed.
Lemma cut_none j l : (∀ n, (n < length l)%nat → p (j + Z.of_nat n) = false) → cut j l = l.
Proof.
  intros H. apply list_eq. intros n. rewrite cut_lookup. destruct (l !! n) as [b|] eqn:E; [|done]. cbn.
  rewrite H; [done|]. by eapply lookup_lt_Some.
Qed.
Lemma elem_of_cut_set b l : ∀ j, b ∈ cut_set j l ↔ b ≠ 0 ∧ ∃ n, l !! n = Some b ∧ p (j + Z.of_nat n) = true.
Proof.
  induction l as [|c l IH]; intros j; cbn [cut_set].
  { split; [by intros ?%elem_of_empty|]. by intros (_ & n & ? & _). }
  rewrite elem_of_union, IH. split.
  - intros [Hb|(Hb & n & Hn & Hp)].
    + destruct (p j) eqn:Ep; [|by apply elem_of_empty in Hb]. destruct (Z.eqb_spec c 0); [by apply elem_of_empty in Hb|].
      apply elem_of_singleton in Hb as ->. split; [done|]. exists 0%nat. by rewrite Z.add_0_r.
    + split; [done|]. exists (S n). split; [done|]. by replace (j + Z.of_nat (S n)) with (j + 1 + Z.of_nat n) by lia.
  - intros (Hb & n & Hn & Hp). destruct n as [|n]; cbn in Hn.
    + injection Hn as ->. rewrite Z.add_0_r in Hp. left. rewrite Hp, (proj2 (Z.eqb_neq _ _) Hb). by apply elem_of_singleton.
    + right. split; [done|]. exists n. split; [done|]. by replace (j + 1 + Z.of_nat n) with (j + Z.of_nat (S n)) by lia.
Qed.
(** A block of the list is left in it or is cut. *)
Lemma cut_elem l b : NoDup (filter (λ b, b ≠ 0) l) → b ≠ 0 → b ∈ l → b ∈ cut 0 l ↔ b ∉ cut_set 0 l.
Proof.
  intros Hd Hn Hin. rewrite elem_of_cut_set, list_elem_of_lookup. split.
  - intros [m Hm] (_ & n & Hln & Hp). rewrite cut_lookup in Hm. destruct (l !! m) as [c|] eqn:Em; [|done]. cbn [fmap option_fmap option_map] in Hm.
    injection Hm as Hm. destruct (p (0 + Z.of_nat m)) eqn:Epm; [congruence|]. subst c.
    rewrite (filter_NoDup_inj l m n b Hd Hn Em Hln) in Epm. congruence.
  - intros H. apply list_elem_of_lookup in Hin as [n Hln]. exists n. rewrite cut_lookup, Hln. cbn [fmap option_fmap option_map].
    destruct (p (0 + Z.of_nat n)) eqn:Ep; [|done]. destruct H. split; [done|]. by exists n.
Qed.
Lemma cut_not_elem l b : b ≠ 0 → b ∉ l → b ∉ cut 0 l ∧ b ∉ cut_set 0 l.
Proof.
  intros Hn Hin. rewrite elem_of_cut_set. split; [|by intros (_ & n & Hln & _); apply Hin, (list_elem_of_lookup_2 _ n)].
  intros [m Hm]%list_elem_of_lookup. rewrite cut_lookup in Hm. destruct (l !! m) as [c|] eqn:Em; [|done]. cbn [fmap option_fmap option_map] in Hm.
  injection Hm as Hm. destruct (p (0 + Z.of_nat m)); [congruence|]. subst c. by apply Hin, (list_elem_of_lookup_2 _ m).
Qed.
End Cut.

Section Trunc.
Context (cur : option nat) {D : Type} {DV : Device D} {BD : BlockDevice cur D}.
Abbreviation fs := (@sfs_fs D).
Abbreviation data := (data cur).
Abbreviation fs_ok := (fs_ok cur).
Abbreviation file_ok := (file_ok cur).
Abbreviation owns := (owns cur).
Abbreviation contents := (contents cur).
Implicit Types (s : fs) (sv : sfs_vnode) (v : nat) (b : Z) (X : gset Z).

(** ** Giving blocks back *)

Record freed X s s' : Prop := {
  fr_ok : fs_ok s';
  fr_rest : same_rest s s';
  fr_dev : fs_dev s' = fs_dev s;
  fr_inuse : inuse s' = inuse s ∖ X;
  fr_mapdirty : fs_freemapdirty s' = false → fs_freemap s' = fs_freemap s ∧ fs_freemapdirty s = false
}.
Lemma freed_trans X Y s1 s2 s3 : freed X s1 s2 → freed Y s2 s3 → freed (X ∪ Y) s1 s3.
Proof.
  intros [a1 a2 a3 a4 a5] [b1 b2 b3 b4 b5]. split; [done|by eapply same_rest_trans|congruence| |].
  - rewrite b4, a4. apply set_eq. intros b. rewrite !elem_of_difference, elem_of_union. tauto.
  - intros H. destruct (b5 H) as [-> ?]. by apply a5.
Qed.
Lemma freed_none s : fs_ok s → freed ∅ s s.
Proof. intros H. split; try done. by rewrite difference_empty_L. Qed.
Lemma freed_vn X s s' m : freed X s s' → freed X s (set_vn m s').
Proof. intros [a1 a2 a3 a4 a5]. split; try done; [by destruct a1|by destruct a2]. Qed.

Lemma bfree_ok s b :
  fs_ok s → 0 < b < nblocks s → b ∈ inuse s →
  ∃ s', sfs_bfree b s = Done (tt, s') ∧ freed {[b]} s s' ∧ fs_vn s' = fs_vn s.
Proof.
  intros [o1 o2 o3 o4 o5 o6 o7 o8] Hb Hu. pose proof (bitmap_size (nblocks s)) as Hbs. destruct (bitmap_unmark_ok (fs_freemap s) b o3 ltac:(lia)) as [E Hset].
  rewrite decide_True in E by done. destruct (Hset ltac:(lia)) as [Hwf Hs].
  exists (set_freemapdirty true (set_freemap (clear_bit b (fs_freemap s)) s)). split.
  - unfold sfs_bfree, kzoom, kbind. rewrite E. done.
  - split; [|done]. split; [|done..|].
    + split; try done; unfold inuse; cbn; rewrite Hs.
      * intros c Hc. apply elem_of_difference. split; [by apply o6|]. intros ->%elem_of_singleton. change (nblocks _) with (nblocks s) in Hc. lia.
      * apply elem_of_difference. split; [done|]. intros H0%elem_of_singleton. lia.
    + done.
Qed.

(** Every block named in the list can be given back. *)
Definition freeable s (l : list Z) : Prop :=
  NoDup (filter (λ b, b ≠ 0) l) ∧ ∀ b, b ∈ l → b ≠ 0 → 0 < b < nblocks s ∧ b ∈ inuse s.
Lemma freeable_tail s b l : freeable s (b :: l) → freeable s l ∧ (b ≠ 0 → b ∉ l).
Proof.
  intros [Hd Hb]. split.
  - split; [|intros c Hc; apply Hb; by right]. destruct (decide (b ≠ 0)); [rewrite filter_cons_True in Hd by done; by apply NoDup_cons in Hd as [_ ?]|].
    by rewrite filter_cons_False in Hd.
  - intros Hn Hin. rewrite filter_cons_True in Hd by done. apply NoDup_cons in Hd as [Hd _]. apply Hd. by apply list_elem_of_filter.
Qed.
Lemma freeable_freed X s s' l : freeable s l → freed X s s' → (∀ b, b ∈ l → b ≠ 0 → b ∉ X) → freeable s' l.
Proof.
  intros [Hd Hb] Hf HX. split; [done|]. intros b Hin Hn. destruct (Hb b Hin Hn). rewrite (same_rest_nblocks _ _ (fr_rest _ _ _ Hf)), (fr_inuse _ _ _ Hf).
  split; [done|]. apply elem_of_difference. auto.
Qed.

Definition nonzero (l : list Z) : bool := existsb (λ b, negb (b =? 0)) l.

Lemma free_indirect_ok bl base l : ∀ j s,
  fs_ok s → freeable s l →
  let p := λ n, bl <? base + n in
  ∃ s', free_indirect bl base j l s = Done ((cut p j l, nonzero (cut p j l), negb (bool_decide (cut p j l = l))), s') ∧
    freed (cut_set p j l) s s' ∧ fs_vn s' = fs_vn s.
Proof.
  induction l as [|b l IH]; intros j s Ho Hfr p.
  { exists s. split; [done|]. split; [by apply freed_none|done]. }
  destruct (freeable_tail _ _ _ Hfr) as [Hfr1 Hnin]. cbn [free_indirect]. fold (p j).
  set (c := p j && negb (b =? 0)).
  assert (Hstep : ∃ s1, (if c then sfs_bfree b else kret tt) s = Done (tt, s1) ∧ freed (if c then {[b]} else ∅) s s1 ∧ fs_vn s1 = fs_vn s).
  { destruct c eqn:Ec; [|exists s; split; [done|split; [by apply freed_none|done]]]. unfold c in Ec. apply andb_true_iff in Ec as [_ Hb].
    apply negb_true_iff, Z.eqb_neq in Hb. destruct (proj2 Hfr b) as [? ?]; [by left|done|]. by apply bfree_ok. }
  destruct Hstep as (s1 & E1 & F1 & V1). kcall E1.
  destruct (IH (j + 1) s1) as (s2 & E2 & F2 & V2); [apply F1| |].
  { eapply freeable_freed; [done|done|]. intros b' Hb' Hn. unfold c. destruct (p j); [|apply not_elem_of_empty].
    destruct (Z.eqb_spec b 0); cbn; [apply not_elem_of_empty|]. intros ->%elem_of_singleton. by apply Hnin. }
  fold p in E2, F2. kcall E2. exists s2. split; [|split; [by eapply freed_trans|congruence]].
  unfold kret. do 2 f_equal. assert (Eb : (if c then 0 else b) = if p j then 0 else b).
  { unfold c. destruct (p j); [|done]. destruct (Z.eqb_spec b 0); done. }
  rewrite Eb. cbn [cut nonzero existsb]. do 2 f_equal. unfold c. destruct (p j) eqn:Ep; cbn [andb].
  - destruct (Z.eqb_spec b 0) as [->|Hb]; cbn [negb orb].
    + f_equal. apply bool_decide_ext. split; [by intros ->|by intros [= ->]].
    + symmetry. apply negb_true_iff, bool_decide_eq_false. intros [= H _]. done.
  - cbn [orb]. f_equal. apply bool_decide_ext. split; [by intros ->|by intros [= ->]].
Qed.

(** ** The direct blocks *)

Definition set_directs (l : list Z) (i : sfs_inode) : sfs_inode :=
  mk_inode (sfi_size i) (sfi_type i) (sfi_linkcount i) l (sfi_indirect i) (sfi_waste i).

Lemma same_vnode_trans sv1 sv2 sv3 : same_vnode sv1 sv2 → same_vnode sv2 sv3 → same_vnode sv1 sv3.
Proof. intros [] []. split; congruence. Qed.

Lemma free_direct_ok v bl rest : ∀ pre s sv,
  fs_ok s → fs_vn s !! v = Some sv → sfi_direct (sv_i sv) = pre ++ rest → freeable s rest →
  let p := λ n, bl <=? n in let j := Z.of_nat (length pre) in
  ∃ s' sv', free_direct v bl j (length rest) s = Done (tt, s') ∧ freed (cut_set p j rest) s s' ∧ fs_vn s' = <[v := sv']> (fs_vn s) ∧
    same_vnode sv sv' ∧ sv_i sv' = set_directs (pre ++ cut p j rest) (sv_i sv) ∧
    (sv_dirty sv' = false → sv_i sv' = sv_i sv ∧ sv_dirty sv = false).
Proof.
  induction rest as [|b rest IH]; intros pre s sv Ho Hv Hdi Hfr p j; cbn [length free_direct].
  { exists s, sv. split; [done|]. split; [by apply freed_none|]. split; [by rewrite insert_id|]. split; [done|]. split; [|done].
    cbn [cut]. rewrite app_nil_r in *. rewrite <- Hdi. by destruct (sv_i sv). }
  destruct (freeable_tail _ _ _ Hfr) as [Hfr1 Hnin]. kcall (getvn_ok _ _ _ Hv).
  assert (Hlk : sfi_direct (sv_i sv) !! Z.to_nat j = Some b).
  { rewrite Hdi. unfold j. rewrite Nat2Z.id, lookup_app_r, Nat.sub_diag by lia. done. }
  rewrite (step_lookup _ _ _ _ Hlk). fold (p j). set (c := p j && negb (b =? 0)).
  set (b' := if p j then 0 else b).
  assert (Hstep : ∃ s1 sv1, (if c then sfs_bfree b ;; modvn v (touch (set_direct (Z.to_nat j) 0)) else kret tt) s = Done (tt, s1) ∧
    freed (if c then {[b]} else ∅) s s1 ∧ fs_vn s1 = <[v := sv1]> (fs_vn s) ∧ same_vnode sv sv1 ∧
    sv_i sv1 = set_directs (pre ++ b' :: rest) (sv_i sv) ∧ (sv_dirty sv1 = false → sv_i sv1 = sv_i sv ∧ sv_dirty sv = false)).
  { destruct c eqn:Ec; unfold c in Ec.
    - apply andb_true_iff in Ec as [Ep Hb]. apply negb_true_iff, Z.eqb_neq in Hb.
      destruct (proj2 Hfr b) as [? ?]; [by left|done|]. destruct (bfree_ok s b) as (s1 & E1 & F1 & V1); [done..|].
      rewrite <- V1 in Hv. eexists _, (touch (set_direct (Z.to_nat j) 0) sv). split; [kcall E1; by apply modvn_ok|].
      split; [by apply freed_vn|]. split; [cbn; by rewrite V1|]. split; [done|]. split; [|done].
      unfold b'. rewrite Ep. unfold touch, set_direct, set_directs, j. cbn. f_equal. rewrite Hdi, Nat2Z.id.
      rewrite insert_app_r_alt, Nat.sub_diag by lia. done.
    - exists s, sv. split; [done|]. split; [by apply freed_none|]. split; [by rewrite insert_id|]. split; [done|]. split; [|done].
      assert (b' = b) as ->.
      { unfold b'. destruct (p j); [|done]. cbn in Ec. apply negb_false_iff, Z.eqb_eq in Ec. done. }
      rewrite <- Hdi. by destruct (sv_i sv). }
  destruct Hstep as (s1 & sv1 & E1 & F1 & V1 & S1 & I1 & D1). kcall E1.
  replace (j + 1) with (Z.of_nat (length (pre ++ [b']))) by (rewrite length_app; cbn; lia).
  destruct (IH (pre ++ [b']) s1 sv1) as (s2 & sv2 & E2 & F2 & V2 & S2 & I2 & D2).
  { apply F1. }
  { rewrite V1. apply lookup_insert_eq. }
  { rewrite I1. cbn. by rewrite <- app_assoc. }
  { eapply freeable_freed; [done|done|]. intros c' Hc' Hn. unfold c. destruct (p j); [|apply not_elem_of_empty].
    destruct (Z.eqb_spec b 0); cbn; [apply not_elem_of_empty|]. intros ->%elem_of_singleton. by apply Hnin. }
  replace (Z.of_nat (length (pre ++ [b']))) with (j + 1) in * by (rewrite length_app; cbn; lia). fold p in F2, I2.
  exists s2, sv2. split; [done|]. split; [by eapply freed_trans|]. split; [by rewrite V2, V1, insert_insert_eq|].
  split; [by eapply same_vnode_trans|]. split.
  - rewrite I2, I1. unfold set_directs. cbn. f_equal. by rewrite <- app_assoc.
  - intros H. destruct (D2 H) as [-> H1]. by apply D1.
Qed.

(** ** The whole truncation *)

Lemma NoDup_filter_inj (l : list Z) :
  (∀ i j b, b ≠ 0 → l !! i = Some b → l !! j = Some b → i = j) → NoDup (filter (λ b, b ≠ 0) l).
Proof.
  induction l as [|c l IH]; intros H; [apply NoDup_nil_2|].
  assert (IH' : NoDup (filter (λ b, b ≠ 0) l)).
  { apply IH. intros i j b Hb Hi Hj. enough (S i = S j) by lia. by apply (H (S i) (S j) b). }
  destruct (decide (c ≠ 0)) as [Hc|Hc]; [|by rewrite filter_cons_False]. rewrite filter_cons_True by done.
  constructor; [|done]. intros [_ Hin]%list_elem_of_filter. apply list_elem_of_lookup in Hin as [j Hj].
  by pose proof (H 0%nat (S j) c Hc eq_refl Hj).
Qed.

(** The file after its blocks past the end were cut. *)
Record truncated v bl s sv s' sv' : Prop := {
  tr_ok : fs_ok s';
  tr_rest : same_rest s s';
  tr_vn : fs_vn s' = <[v := sv']> (fs_vn s);
  tr_same : same_vnode sv sv';
  tr_wf : inode_wf (sv_i sv');
  tr_mapdirty : fs_freemapdirty s' = false → fs_freemap s' = fs_freemap s ∧ fs_freemapdirty s = false;
  tr_blocks : blocks cur s' sv' = cut (λ n, bl <=? n) 0 (sfi_direct (sv_i sv)) ++ cut (λ n, bl <? 15 + n) 0 (idwords cur s sv);
  tr_indirect : sfi_indirect (sv_i sv') = sfi_indirect (sv_i sv) ∨ sfi_indirect (sv_i sv') = 0;
  tr_empty : bl < 142 → nonzero (idwords cur s' sv') = false → sfi_indirect (sv_i sv') = 0;
  tr_inuse b : b ∈ inuse s' ↔ b ∈ inuse s ∧ (b ∈ owns s sv → b ∈ owns s' sv');
  tr_data b : 0 ≤ b < nblocks s → (b ≠ 0 → b ≠ sfi_indirect (sv_i sv)) → data s' b = data s b
}.

Lemma slots_truncated v bl s sv s' sv' n b :
  file_ok s sv → truncated v bl s sv s' sv' → slots cur s' sv' !! n = Some b → b ≠ 0 → slots cur s sv !! n = Some b.
Proof.
  intros Hf Ht Hn Hb. pose proof (iw_direct_len _ (fo_inode _ _ _ Hf)) as Hl. destruct n as [|n]; cbn in *.
  - injection Hn as <-. destruct (tr_indirect _ _ _ _ _ _ Ht) as [->|E]; [done|congruence].
  - change (blocks cur s' sv' !! n = Some b) in Hn. change (blocks cur s sv !! n = Some b). rewrite (tr_blocks _ _ _ _ _ _ Ht) in Hn.
    unfold blocks. destruct (decide (n < 15)%nat).
    + rewrite lookup_app_l in Hn |- * by (rewrite ?cut_length; lia). rewrite cut_lookup in Hn.
      destruct (sfi_direct (sv_i sv) !! n) as [c|]; [|done]. cbn in Hn. case_match; congruence.
    + rewrite lookup_app_r in Hn |- * by (rewrite ?cut_length; lia). rewrite cut_length, cut_lookup, Hl in Hn. rewrite Hl.
      destruct (idwords cur s sv !! (n - 15)%nat) as [c|]; [|done]. cbn in Hn. case_match; congruence.
Qed.

Lemma owns_truncated v bl s sv s' sv' b : file_ok s sv → truncated v bl s sv s' sv' → b ∈ owns s' sv' → b ∈ owns s sv.
Proof.
  intros Hf Ht Hb. apply elem_of_owns in Hb as [Hb [n Hn]%list_elem_of_lookup]. apply elem_of_owns. split; [done|].
  eapply list_elem_of_lookup_2. by eapply slots_truncated.
Qed.

Lemma file_truncated v bl s sv s' sv' : file_ok s sv → truncated v bl s sv s' sv' → file_ok s' sv'.
Proof.
  intros Hf Ht. pose proof Hf as [f1 f2 f3 (f4 & f5 & f6)]. pose proof (same_rest_nblocks _ _ (tr_rest _ _ _ _ _ _ Ht)) as Hnb.
  split; [apply Ht| | |].
  - apply NoDup_filter_inj. intros i j b Hb Hi Hj.
    eapply (filter_NoDup_inj (slots cur s sv)); [apply f2|done|by eapply slots_truncated..].
  - intros b Hb. pose proof (owns_truncated _ _ _ _ _ _ _ Hf Ht Hb) as Hb0. destruct (f3 b Hb0). rewrite Hnb. split; [done|]. by apply (tr_inuse _ _ _ _ _ _ Ht).
  - rewrite (sm_ino _ _ (tr_same _ _ _ _ _ _ Ht)), Hnb. split; [done|].
    split; [apply (tr_inuse _ _ _ _ _ _ Ht); split; [done|by intros ?%f6]|]. intros H. by apply f6, (owns_truncated _ _ _ _ _ _ _ Hf Ht).
Qed.

(** What the part that goes through the indirect block does. *)
Record indirect_cut v bl s sv s' sv' : Prop := {
  ic_ok : fs_ok s';
  ic_rest : same_rest s s';
  ic_vn : fs_vn s' = <[v := sv']> (fs_vn s);
  ic_same : same_vnode sv sv';
  ic_direct : sfi_direct (sv_i sv') = sfi_direct (sv_i sv);
  ic_wf : inode_wf (sv_i sv) → inode_wf (sv_i sv');
  ic_mapdirty : fs_freemapdirty s' = false → fs_freemap s' = fs_freemap s ∧ fs_freemapdirty s = false;
  ic_words : idwords cur s' sv' = cut (λ n, bl <? 15 + n) 0 (idwords cur s sv);
  ic_indirect : sfi_indirect (sv_i sv') = sfi_indirect (sv_i sv) ∨ sfi_indirect (sv_i sv') = 0;
  ic_empty : bl < 142 → nonzero (idwords cur s' sv') = false → sfi_indirect (sv_i sv') = 0;
  ic_inuse b : b ∈ inuse s' ↔ b ∈ inuse s ∧ b ∉ cut_set (λ n, bl <? 15 + n) 0 (idwords cur s sv) ∧
    (b = sfi_indirect (sv_i sv) → b ≠ 0 → sfi_indirect (sv_i sv') = b);
  ic_data b : 0 ≤ b < nblocks s → (b ≠ 0 → b ≠ sfi_indirect (sv_i sv)) → data s' b = data s b
}.

Lemma cut_set_none p j l : (∀ n b, l !! n = Some b → b ≠ 0 → p (j + Z.of_nat n) = false) → cut_set p j l = ∅.
Proof. intros H. apply set_eq. intros b. rewrite elem_of_cut_set. split; [|by intros ?%elem_of_empty]. intros (Hb & n & Hn & Hp). by rewrite (H n b) in Hp. Qed.

(** Nothing to cut: every block that is there stays. *)
Lemma indirect_cut_none v bl s sv :
  fs_ok s → fs_vn s !! v = Some sv → (∀ n b, idwords cur s sv !! n = Some b → b ≠ 0 → (bl <? 15 + Z.of_nat n) = false) →
  (bl < 142 → sfi_indirect (sv_i sv) = 0) → indirect_cut v bl s sv s sv.
Proof.
  intros Ho Hv Hn He. split; try done.
  - by rewrite insert_id.
  - apply list_eq. intros n. rewrite cut_lookup. destruct (idwords cur s sv !! n) as [b|] eqn:E; [|done].
    change (Some b = Some (if bl <? 15 + (0 + Z.of_nat n) then 0 else b)). rewrite Z.add_0_l.
    destruct (decide (b = 0)) as [->|Hb]; [by case_match|]. by rewrite (Hn n b).
  - by left.
  - intros H _. by apply He.
  - intros b. rewrite cut_set_none by (intros n c; rewrite Z.add_0_l; apply Hn). split; [|tauto].
    intros H. split_and!; [done|apply not_elem_of_empty|done].
Qed.

(** Blocks were given back and the device holds the same. *)
Record gave X s s' : Prop := {
  gv_ok : fs_ok s';
  gv_rest : same_rest s s';
  gv_vn : fs_vn s' = fs_vn s;
  gv_inuse : inuse s' = inuse s ∖ X;
  gv_mapdirty : fs_freemapdirty s' = false → fs_freemap s' = fs_freemap s ∧ fs_freemapdirty s = false;
  gv_data b : 0 ≤ b < nblocks s → data s' b = data s b
}.
Lemma gave_freed X s d1 s' : fs_ok s → dev_same cur (fs_dev s) d1 → freed X (set_dev d1 s) s' → fs_vn s' = fs_vn s → gave X s s'.
Proof.
  intros Ho Hd [f1 f2 f3 f4 f5] Hv. split; try done; [by destruct f2|]. intros b Hb. unfold SfsBlocks.data. rewrite f3.
  apply (ds_data _ _ _ Hd). pose proof (ok_blocks _ _ Ho). lia.
Qed.

Section Indirect.
Context (v : nat) (bl : Z) (s : fs) (sv : sfs_vnode) (s2 : fs).
Let ind := sfi_indirect (sv_i sv).
Let ids := idwords cur s sv.
Let p := λ n, bl <? 15 + n.
Hypotheses (Hv : fs_vn s !! v = Some sv) (Hind : ind ≠ 0) (Hr : 0 < ind < nblocks s) (Hiu : ind ∈ inuse s) (Hnin : ind ∉ ids)
  (Hl : length ids = 128%nat) (Hu : Forall is_u32 ids) (G : gave (cut_set p 0 ids) s s2).

Lemma indirect_not_cut : ind ∉ cut_set p 0 ids.
Proof. intros H. apply elem_of_cut_set in H as (_ & n & Hn & _). by apply Hnin, (list_elem_of_lookup_2 _ n). Qed.

Lemma indirect_kept d3 :
  nonzero (cut p 0 ids) = true → d_ok (cur := cur) d3 → d_blocks d3 = d_blocks (fs_dev s2) → words_of (d_data (cur := cur) d3 ind) = cut p 0 ids →
  (∀ b, 0 ≤ b < nblocks s → b ≠ ind → d_data (cur := cur) d3 b = data s2 b) →
  indirect_cut v bl s sv (set_dev d3 s2) sv.
Proof.
  intros Hnz D1 D2 D3 D4. destruct G as [g1 g2 g3 g4 g5 g6].
  assert (Hw : idwords cur (set_dev d3 s2) sv = cut p 0 ids) by (unfold idwords; fold ind; by rewrite (proj2 (Z.eqb_neq _ _) Hind)).
  split; try done.
  - by apply fs_ok_dev.
  - by destruct g2.
  - cbn. by rewrite g3, insert_id.
  - by left.
  - rewrite Hw. congruence.
  - intros b. change (inuse (set_dev d3 s2)) with (inuse s2). rewrite g4, elem_of_difference. naive_solver.
  - intros b Hb Hne. fold ind in Hne. etrans; [apply D4; [done|]|by apply g6]. destruct (decide (b = 0)); [congruence|auto].
Qed.

Lemma indirect_dropped s3 :
  nonzero (cut p 0 ids) = false → freed {[ind]} s2 s3 → fs_vn s3 = fs_vn s2 →
  let sv' := touch (set_indirect 0) sv in indirect_cut v bl s sv (set_vn (<[v := sv']> (fs_vn s3)) s3) sv'.
Proof.
  intros Hz [f1 f2 f3 f4 f5] V3 sv'. destruct G as [g1 g2 g3 g4 g5 g6]. split; try done.
  - by destruct f1.
  - destruct f2, g2. split; cbn; congruence.
  - cbn. by rewrite V3, g3.
  - intros Hwf. by apply set_indirect_wf.
  - intros H. destruct (f5 H) as [Hf ?]. cbn. rewrite Hf. by apply g5.
  - change (replicate 128 0 = cut p 0 ids). apply replicate_as_elem_of. split; [by rewrite cut_length|].
    intros b Hb. destruct (decide (b = 0)) as [|Hn]; [done|]. exfalso. unfold nonzero in Hz.
    assert (existsb (λ b, negb (b =? 0)) (cut p 0 ids) = true) by (apply existsb_exists; exists b; split; [by apply list_elem_of_In|by apply negb_true_iff, Z.eqb_neq]).
    congruence.
  - by right.
  - intros b. change (inuse (set_vn (<[v := sv']> (fs_vn s3)) s3)) with (inuse s3). rewrite f4, g4, !elem_of_difference, elem_of_singleton.
    fold ind ids p. cbn. split; [intros [[? ?] ?]; split_and!; [done|done|congruence]|].
    intros (H1 & H2 & H3). split; [done|]. intros ->. by specialize (H3 eq_refl Hind).
  - intros b Hb Hne. unfold SfsBlocks.data. cbn. rewrite f3. by apply g6.
Qed.
End Indirect.

Lemma truncate_indirect_ok v bl s sv :
  fs_ok s → fs_vn s !! v = Some sv → length (idwords cur s sv) = 128%nat → Forall is_u32 (idwords cur s sv) →
  freeable s (sfi_indirect (sv_i sv) :: idwords cur s sv) →
  ∃ s' sv', truncate_indirect v bl s = Done (0, s') ∧ indirect_cut v bl s sv s' sv'.
Proof.
  intros Ho Hv Hl Hu Hfr. unfold truncate_indirect. kcall (getvn_ok _ _ _ Hv). unfold SFS_NDIRECT, SFS_DBPERIDB. change (15 + 128 - 1) with 142.
  set (p := λ n, bl <? 15 + n). set (ids := idwords cur s sv) in *. set (ind := sfi_indirect (sv_i sv)) in *.
  destruct (Z.eqb_spec ind 0) as [E0|E0]; cbn [negb]; [rewrite andb_false_r|rewrite andb_true_r; destruct (Z.ltb_spec bl 142) as [Hbl|Hbl]].
  - exists s, sv. split; [done|]. apply indirect_cut_none; [done|done| |done]. intros n b Hn Hb. unfold idwords in Hn. fold ind in Hn. rewrite E0 in Hn.
    by apply (lookup_replicate_1 128) in Hn as [-> _].
  - destruct (freeable_tail _ _ _ Hfr) as [Hfr1 Hnin]. specialize (Hnin E0). destruct (proj2 Hfr ind) as [Hir Hiu]; [by left|done|].
    destruct (rblock_ok cur s ind Ho ltac:(lia)) as (d1 & E1 & D1). kcall E1.
    assert (Hw : words_of (data s ind) = ids) by (unfold ids, idwords; fold ind; by rewrite (proj2 (Z.eqb_neq _ _) E0)).
    rewrite Hw. destruct (free_indirect_ok bl 15 ids 0 (set_dev d1 s)) as (s2 & E2 & F2 & V2); [by apply fs_ok_same|done|]. kcall E2. fold p in F2 |- *.
    pose proof (gave_freed _ _ _ _ Ho D1 F2 V2) as G. pose proof (gv_ok _ _ _ G) as Ho2. pose proof (same_rest_nblocks _ _ (gv_rest _ _ _ G)) as Hnb.
    pose proof (indirect_not_cut bl s sv Hnin) as Hnc. fold ind ids p in Hnc.
    destruct (nonzero (cut p 0 ids)) eqn:Enz; cbn [negb].
    + destruct (bool_decide_reflect (cut p 0 ids = ids)) as [Ec|Ec]; cbn [negb].
      * exists s2, sv. split; [done|]. replace s2 with (set_dev (fs_dev s2) s2) by (by destruct s2).
        apply (indirect_kept v bl s sv s2); try done; [apply Ho2|]. fold p ids ind. rewrite Ec, <- Hw. f_equal. apply (gv_data _ _ _ G). lia.
      * destruct (wblock_ok cur s2 ind (bytes_of (cut p 0 ids))) as (d3 & E3 & D3); [done|lia|rewrite length_bytes_of, cut_length, Hl; done|].
        exists (set_dev d3 s2), sv. split; [exact E3|]. apply (indirect_kept v bl s sv s2); try done; [apply D3|apply D3| |].
        -- fold ind p ids. rewrite (du_new _ _ _ _ _ D3). apply words_of_bytes. apply Forall_lookup_2. intros n b Hn.
           rewrite cut_lookup in Hn. destruct (ids !! n) as [c|] eqn:Ec'; [|done]. cbn in Hn. injection Hn as <-.
           case_match; [done|]. exact (Forall_lookup_1 _ _ _ _ Hu Ec').
        -- intros b Hb Hne. apply (du_data _ _ _ _ _ D3); [pose proof (ok_blocks _ _ Ho2); lia|done].
    + destruct (bfree_ok s2 ind) as (s3 & E3 & F3 & V3); [done|lia|rewrite (gv_inuse _ _ _ G); by apply elem_of_difference|]. kcall E3.
      assert (Hv3 : fs_vn s3 !! v = Some sv) by (by rewrite V3, (gv_vn _ _ _ G)). kcall (modvn_ok v (touch (set_indirect 0)) s3 sv Hv3).
      eexists _, (touch (set_indirect 0) sv). split; [reflexivity|]. by apply (indirect_dropped v bl s sv s2).
  - exists s, sv. split; [done|]. apply indirect_cut_none; [done|done| |lia]. intros n b Hn Hb. apply lookup_lt_Some in Hn. fold ids in Hn. apply Z.ltb_ge. lia.
Qed.

Lemma freeable_app s l1 l2 : freeable s (l1 ++ l2) → freeable s l1 ∧ freeable s l2 ∧ ∀ b, b ∈ l1 → b ≠ 0 → b ∉ l2.
Proof.
  intros [Hd Hb]. rewrite filter_app in Hd. apply NoDup_app in Hd as (H1 & H2 & H3).
  split_and!; [split; [done|intros b Hin; apply Hb, elem_of_app; by left]|split; [done|intros b Hin; apply Hb, elem_of_app; by right]|].
  intros b Hin Hn Hin2. apply (H2 b); by apply list_elem_of_filter.
Qed.
Lemma freeable_slots s sv : file_ok s sv → freeable s (slots cur s sv).
Proof. intros Hf. split; [apply Hf|]. intros b Hb Hn. apply Hf. by apply elem_of_owns. Qed.

Lemma div_up_u32 len : 0 ≤ len < 2 ^ 32 → u32 (Z.quot (len + SFS_BLOCKSIZE - 1) SFS_BLOCKSIZE) = (len + 511) / 512.
Proof.
  intros H. unfold SFS_BLOCKSIZE. replace (len + 512 - 1) with (len + 511) by lia. rewrite Z.quot_div_nonneg by lia.
  apply u32_small. split; [apply Z.div_pos; lia|]. apply Z.div_lt_upper_bound; lia.
Qed.

(** Which blocks are in use when both parts have been cut. *)
Lemma cut_inuse bl s sv ind' (Hf : file_ok s sv) (l' : list Z) b :
  l' = cut (λ n, bl <=? n) 0 (sfi_direct (sv_i sv)) ++ cut (λ n, bl <? 15 + n) 0 (idwords cur s sv) →
  (ind' = sfi_indirect (sv_i sv) ∨ ind' = 0) →
  b ∈ owns s sv →
  (b ∉ cut_set (λ n, bl <=? n) 0 (sfi_direct (sv_i sv)) ∧ b ∉ cut_set (λ n, bl <? 15 + n) 0 (idwords cur s sv) ∧
    (b = sfi_indirect (sv_i sv) → b ≠ 0 → ind' = b)) ↔
  b ∈ filter (λ b, b ≠ 0) (ind' :: l').
Proof.
  intros -> Hind Hb. apply elem_of_owns in Hb as [Hn Hb]. pose proof (freeable_slots s sv Hf) as Hfr. unfold slots, blocks in *.
  destruct (freeable_tail _ _ _ Hfr) as [Hfr1 Hni]. destruct (freeable_app _ _ _ Hfr1) as (Hfd & Hfi & Hdi).
  rewrite list_elem_of_filter, elem_of_cons, elem_of_app.
  apply elem_of_cons in Hb as [->|Hb].
  - assert (Hi : sfi_indirect (sv_i sv) ∉ sfi_direct (sv_i sv) ∧ sfi_indirect (sv_i sv) ∉ idwords cur s sv) by (specialize (Hni Hn); by apply not_elem_of_app in Hni).
    destruct Hi as [Hi1 Hi2]. destruct (cut_not_elem (λ n, bl <=? n) _ _ Hn Hi1) as [A1 A2]. destruct (cut_not_elem (λ n, bl <? 15 + n) _ _ Hn Hi2) as [B1 B2]. naive_solver.
  - assert (Hbi : b ≠ sfi_indirect (sv_i sv)).
    { intros ->. by apply Hni. }
    assert (Hbi' : b ≠ ind') by (destruct Hind; congruence).
    apply elem_of_app in Hb as [Hb|Hb].
    + pose proof (cut_elem (λ n, bl <=? n) _ b (proj1 Hfd) Hn Hb). destruct (cut_not_elem (λ n, bl <? 15 + n) (idwords cur s sv) b Hn) as [B1 B2]; [by apply Hdi|]. tauto.
    + pose proof (cut_elem (λ n, bl <? 15 + n) _ b (proj1 Hfi) Hn Hb). destruct (cut_not_elem (λ n, bl <=? n) (sfi_direct (sv_i sv)) b Hn) as [B1 B2]; [intros Hd; by apply (Hdi b)|]. tauto.
Qed.

(** Both parts, and the new size. *)
Lemma truncate_join v bl s sv s1 sv1 s2 sv2 sz :
  fs_ok s → file_ok s sv → freed (cut_set (λ n, bl <=? n) 0 (sfi_direct (sv_i sv))) s s1 →
  fs_vn s1 = <[v := sv1]> (fs_vn s) → same_vnode sv sv1 →
  sv_i sv1 = set_directs (cut (λ n, bl <=? n) 0 (sfi_direct (sv_i sv))) (sv_i sv) →
  indirect_cut v bl s1 sv1 s2 sv2 → is_u32 sz →
  let sv3 := touch (set_size sz) sv2 in
  truncated v bl s sv (set_vn (<[v := sv3]> (fs_vn s2)) s2) sv3.
Proof.
  intros Ho Hf [f1 f2 f3 f4 f5] V1 S1 I1 [c1 c2 c3 c4 c5 cw c7 c8 c9 ce c10 c11] Hsz sv3.
  set (s' := set_vn (<[v := sv3]> (fs_vn s2)) s2).
  assert (Hind1 : sfi_indirect (sv_i sv1) = sfi_indirect (sv_i sv)) by (by rewrite I1).
  assert (Hdata1 : ∀ b, data s1 b = data s b) by (intros b; unfold SfsBlocks.data; by rewrite f3).
  assert (Hw1 : idwords cur s1 sv1 = idwords cur s sv) by (unfold idwords; rewrite Hind1, Hdata1; done).
  rewrite Hw1, Hind1 in *. pose proof (same_rest_nblocks _ _ f2) as Hnb1.
  assert (Hbl : blocks cur s' sv3 = cut (λ n, bl <=? n) 0 (sfi_direct (sv_i sv)) ++ cut (λ n, bl <? 15 + n) 0 (idwords cur s sv)).
  { unfold blocks. rewrite <- c8. f_equal. cbn. by rewrite c5, I1. }
  pose proof (fo_inode _ _ _ Hf) as [w1 w2 w3 w4 w5 w6 w7 w8]. split; try done.
  - by destruct c1; split.
  - destruct f2, c2. split; cbn in *; congruence.
  - cbn. by rewrite c3, V1, !insert_insert_eq.
  - eapply same_vnode_trans; [done|]. eapply same_vnode_trans; [done|]. by apply touch_same.
  - assert (inode_wf (sv_i sv2)) as [].
    { apply cw. rewrite I1. split; try done; cbn; [by rewrite cut_length|]. apply Forall_lookup_2. intros m b Hm.
      rewrite cut_lookup in Hm. destruct (sfi_direct (sv_i sv) !! m) as [c|] eqn:Em; [|done]. cbn [fmap option_fmap option_map] in Hm.
      injection Hm as <-. case_match; [done|]. exact (Forall_lookup_1 _ _ _ _ w5 Em). }
    by split.
  - intros H. destruct (c7 H) as [Hm H1]. change (fs_freemap s') with (fs_freemap s2). rewrite Hm. by apply f5.
  - intros b. change (inuse s') with (inuse s2). rewrite c10, f4, elem_of_difference.
    assert (Hw : owns s' sv3 = filter (λ b, b ≠ 0) (sfi_indirect (sv_i sv2) :: blocks cur s' sv3)) by done.
    assert (Hci := cut_inuse bl s sv (sfi_indirect (sv_i sv2)) Hf (blocks cur s' sv3) b Hbl c9). rewrite <- Hw in Hci.
    split.
    + intros ([H1 H2] & H3 & H4). split; [done|]. intros H5. by apply Hci.
    + intros [H1 H2]. destruct (decide (b ∈ owns s sv)) as [H5|H5]; [by apply Hci in H5 as Hci'; destruct Hci' as [_ Hc2]; destruct (Hc2 (H2 H5)) as (? & ? & ?)|].
      split; [split; [done|]|split].
      * intros (Hn & m & Hm & _)%elem_of_cut_set. apply H5, elem_of_owns. split; [done|]. right. apply elem_of_app. left. by eapply list_elem_of_lookup_2.
      * intros (Hn & m & Hm & _)%elem_of_cut_set. apply H5, elem_of_owns. split; [done|]. right. apply elem_of_app. right. by eapply list_elem_of_lookup_2.
      * intros -> Hn. destruct H5. by apply indirect_owned.
  - intros b Hb Hne. change (data s' b) with (data s2 b). rewrite c11 by (rewrite ?Hnb1; done). apply Hdata1.
Qed.

Lemma truncate_body v len s sv :
  ready cur v s sv → 0 ≤ len < 2 ^ 32 → let bl := (len + 511) / 512 in
  ∃ s' sv', (free_direct v bl 0 (Z.to_nat SFS_NDIRECT) ;;
    result <- truncate_indirect v bl ;;
    if negb (result =? 0) then kret result
    else modvn v (touch (set_size (u32 len))) ;; kret 0) s = Done (0, s') ∧ truncated v bl s sv s' sv' ∧
    sfi_size (sv_i sv') = len ∧ sv_dirty sv' = true.
Proof.
  intros (Ho & Hf & Hv) Hlen bl.
  pose proof (freeable_slots s sv Hf) as Hfr. unfold slots, blocks in Hfr. destruct (freeable_tail _ _ _ Hfr) as [Hfr1 Hni].
  destruct (freeable_app _ _ _ Hfr1) as (Hfd & Hfi & Hdi). pose proof (iw_direct_len _ (fo_inode _ _ _ Hf)) as Hdl.
  destruct (free_direct_ok v bl (sfi_direct (sv_i sv)) [] s sv Ho Hv eq_refl Hfd) as (s1 & sv1 & E1 & F1 & V1 & S1 & I1 & _).
  rewrite Hdl in E1. cbn [length app] in E1, F1, I1. change (Z.of_nat 0) with 0 in *.
  pose proof (fr_ok _ _ _ F1) as Ho1. assert (Hv1 : fs_vn s1 !! v = Some sv1) by (rewrite V1; apply lookup_insert_eq).
  assert (Hind1 : sfi_indirect (sv_i sv1) = sfi_indirect (sv_i sv)) by (by rewrite I1).
  assert (Hdata1 : ∀ b, data s1 b = data s b) by (intros b; unfold SfsBlocks.data; by rewrite (fr_dev _ _ _ F1)).
  assert (Hw1 : idwords cur s1 sv1 = idwords cur s sv) by (unfold idwords; rewrite Hind1, Hdata1; done).
  destruct (truncate_indirect_ok v bl s1 sv1) as (s2 & sv2 & E2 & C2); [done|done| | | |].
  { rewrite Hw1. by apply idwords_length. }
  { rewrite Hw1. by apply idwords_range. }
  { rewrite Hw1, Hind1. eapply freeable_freed; [|exact F1|].
    - destruct Hfi as [Hi1 Hi2]. split; [|by intros b [->|?]%elem_of_cons Hn; apply Hfr; (done || left || right; apply elem_of_app; right)].
      destruct (decide (sfi_indirect (sv_i sv) ≠ 0)) as [H0|H0]; [|by rewrite filter_cons_False]. rewrite filter_cons_True by done.
      constructor; [|done]. intros [_ H]%list_elem_of_filter. apply (Hni H0). apply elem_of_app. by right.
    - intros b Hb Hn (_ & n & Hd & _)%elem_of_cut_set. apply (list_elem_of_lookup_2 _ n) in Hd.
      apply elem_of_cons in Hb as [->|Hb]; [apply (Hni Hn), elem_of_app; by left|by apply (Hdi b)]. }
  pose proof C2 as [_ c2 c3 _ _ _ _ _ _ _ _ _].
  assert (Hv2 : fs_vn s2 !! v = Some sv2) by (rewrite c3; apply lookup_insert_eq).
  set (sv3 := touch (set_size (u32 len)) sv2).
  eexists _, sv3. split; [|split; [|split; [cbn; by rewrite u32_small|done]]].
  - kcall E1. kcall E2. cbn [Z.eqb negb]. by kcall (modvn_ok v (touch (set_size (u32 len))) s2 sv2 Hv2).
  - apply (truncate_join v bl s sv s1 sv1 s2 sv2 (u32 len)); try done. apply u32_range.
Qed.

Lemma truncated_depth v bl s sv s' sv' n : 0 < n → truncated v bl (set_depth n s) sv s' sv' → 0 < fs_depth s → truncated v bl s sv (set_depth (fs_depth s) s') sv'.
Proof.
  intros Hn [t1 t2 t3 t4 t5 t6 t7 t8 te t9 t10] Hs. split; try done; [destruct t1; by split|destruct t2; by split].
Qed.

Lemma truncate_ok v len s sv :
  ready cur v s sv → 0 ≤ len < 2 ^ 32 →
  ∃ s' sv', sfs_truncate v len s = Done (0, s') ∧ truncated v ((len + 511) / 512) s sv s' sv' ∧
    sfi_size (sv_i sv') = len ∧ sv_dirty sv' = true.
Proof.
  intros (Ho & Hf & Hv) Hlen. pose proof (ok_depth _ _ Ho) as Hdep. set (s0 := set_depth (fs_depth s + 1) s).
  assert (Hrd0 : ready cur v s0 sv).
  { split; [destruct Ho; split; (done || cbn; lia)|]. split; [|done]. by destruct Hf; split. }
  destruct (truncate_body v len s0 sv Hrd0 Hlen) as (s1 & sv1 & E & T & Hz & Hd).
  exists (set_depth (fs_depth s) s1), sv1. split; [|split; [by eapply (truncated_depth _ _ s _ _ _ (fs_depth s + 1)); [lia|..]|done]].
  unfold sfs_truncate. rewrite div_up_u32 by done. apply locked_run; [exact E|apply (sr_depth _ _ (tr_rest _ _ _ _ _ _ T))|lia].
Qed.

Lemma truncated_vchange v bl s sv s' sv' :
  file_ok s sv → 0 < vn_refcount sv → 0 ≤ vn_opencount sv → ops_ok sv → sv_dirty sv' = true → truncated v bl s sv s' sv' →
  vchange cur v s sv s' sv'.
Proof.
  intros Hf Hr Hop Hops Hd Ht. pose proof (owns_truncated v bl s sv s' sv') as Hsub. pose proof Ht as [t1 t2 t3 t4 t5 t6 t7 t8 te t9 t10].
  destruct t4 as [m1 m2 m3 m4 m5 m6]. split; try done.
  - by eapply file_truncated.
  - unfold ops_ok in *. by rewrite m2, m3, m4, m5.
  - congruence.
  - intros b. rewrite t9. pose proof (fo_range _ _ _ Hf b). pose proof (Hsub b Hf Ht). destruct (decide (b ∈ owns s sv)); naive_solver.
  - intros b Hb. left. by apply Hsub.
  - intros b Hb _ Hno. apply t10; [done|]. intros Hn ->. by apply Hno, indirect_owned.
Qed.

(** What is left of the file: each block is as it was or is cut. *)
Lemma truncated_blocks v bl s sv s' sv' n :
  fs_ok s → file_ok s sv → truncated v bl s sv s' sv' → (n < MAXBLOCKS)%nat →
  fblocks cur s' sv' !! n =
    (if (if decide (n < 15)%nat then bl <=? Z.of_nat n else bl <? Z.of_nat n) then Some (replicate 512 0) else fblocks cur s sv !! n).
Proof.
  intros Ho Hf Ht Hn. pose proof (iw_direct_len _ (fo_inode _ _ _ Hf)) as Hl. pose proof (blocks_length _ _ _ Ho Hf) as Hbl. unfold MAXBLOCKS in *.
  set (c := if decide (n < 15)%nat then bl <=? Z.of_nat n else bl <? Z.of_nat n).
  assert (Hlk : blocks cur s' sv' !! n = if c then Some 0 else blocks cur s sv !! n).
  { rewrite (tr_blocks _ _ _ _ _ _ Ht). destruct (lookup_lt_is_Some_2 (blocks cur s sv) n) as [b Hb]; [lia|]. rewrite Hb.
    unfold blocks in Hb. unfold c. case_decide as Hd.
    - rewrite lookup_app_l in Hb |- * by (rewrite ?cut_length; lia). rewrite cut_lookup, Hb. cbn [fmap option_fmap option_map]. rewrite Z.add_0_l. by case_match.
    - rewrite lookup_app_r in Hb |- * by (rewrite ?cut_length; lia). rewrite cut_length, cut_lookup, Hl in *. rewrite Hb. cbn [fmap option_fmap option_map].
      replace (15 + (0 + Z.of_nat (n - 15))) with (Z.of_nat n) by lia. by case_match. }
  unfold fblocks. rewrite !list_lookup_fmap, Hlk. destruct c; [done|]. destruct (blocks cur s sv !! n) as [b|] eqn:Eb; [|done]. cbn. f_equal.
  unfold holds. destruct (Z.eqb_spec b 0); [done|]. apply (tr_data _ _ _ _ _ _ Ht).
  - destruct (fo_range _ _ _ Hf b (block_owned _ _ _ _ _ Eb ltac:(done))). lia.
  - intros _. by eapply block_not_indirect.
Qed.

(** Cut at the very beginning, a file has no block left. *)
Lemma truncated_zero v s sv s' sv' : file_ok s sv → truncated v 0 s sv s' sv' → owns s' sv' = [].
Proof.
  intros Hf Ht. pose proof (iw_direct_len _ (fo_inode _ _ _ Hf)) as Hl.
  assert (Hz : ∀ b, b ∈ blocks cur s' sv' → b = 0).
  { intros b [n Hn]%list_elem_of_lookup. rewrite (tr_blocks _ _ _ _ _ _ Ht) in Hn. destruct (decide (n < 15)%nat).
    - rewrite lookup_app_l, cut_lookup in Hn by (rewrite cut_length; lia). destruct (sfi_direct (sv_i sv) !! n); [|done].
      cbn [fmap option_fmap option_map] in Hn. rewrite (proj2 (Z.leb_le _ _)) in Hn by lia. congruence.
    - rewrite lookup_app_r, cut_lookup in Hn by (rewrite cut_length; lia). destruct (idwords cur s sv !! _); [|done].
      cbn [fmap option_fmap option_map] in Hn. rewrite (proj2 (Z.ltb_lt _ _)) in Hn by lia. congruence. }
  apply filter_none. intros b Hb Hn. apply Hn. apply elem_of_cons in Hb as [->|Hb]; [|by apply Hz].
  apply (tr_empty _ _ _ _ _ _ Ht); [lia|]. unfold nonzero. apply not_true_iff_false. intros (c & Hc & Hc0)%existsb_exists.
  apply negb_true_iff, Z.eqb_neq in Hc0. apply Hc0, Hz, elem_of_app. right. by apply list_elem_of_In.
Qed.
End Trunc.
