(* ===== verification/SfsReclaim.v ===== *)
(** * SFS: writing inodes back and giving up vnodes

    A vnode whose last reference goes is written back and leaves the table;
    when no name is left for its file either, the file's blocks and its inode
    are given back. *)

From stdpp Require Import base numbers list gmap sets.
From Stdlib Require Import ZArith Lia.
From S2P Require Import Prelude CString Bitmap Uio Device SfsDisk Sfs SfsBlocks SfsFile SfsIo SfsDir SfsInv SfsVnode SfsTrunc.

Open Scope Z_scope.
Open Scope kernel_scope.

Section Reclaim.
Context (cur : option nat) {D : Type} {DV : Device D} {BD : BlockDevice cur D}.
Abbreviation fs := (@sfs_fs D).
Abbreviation data := (data cur).
Abbreviation fs_ok := (fs_ok cur).
Abbreviation file_ok := (file_ok cur).
Abbreviation owns := (owns cur).
Abbreviation contents := (contents cur).
Abbreviation inode_is := (inode_is cur).
Abbreviation sfs_inv := (sfs_inv cur).
Abbreviation quiet := (quiet cur).
Abbreviation table_ok := (table_ok cur).
Abbreviation disk_inode := (disk_inode cur).
Implicit Types (s : fs) (sv : sfs_vnode) (v w : nat) (b ino : Z) (i : sfs_inode) (R I : gset Z).

(** ** Writing an inode back *)

(** The block of a loaded inode was written: every file is as before. *)
Lemma quiet_sync R I v s sv d' :
  sfs_inv R I s → fs_vn s !! v = Some sv → dev_upd cur (sv_ino sv) (bytes_of (inode_words (sv_i sv))) (fs_dev s) d' →
  let s' := set_vn (<[v := set_dirty false sv]> (fs_vn s)) (set_dev d' s) in
  quiet I s s' ∧ sfs_inv R I s' ∧ disk_inode s' (sv_ino sv) = sv_i sv.
Proof.
  intros Hinv Hv [u1 u2 u3 u4] s'. pose proof (inv_ok _ _ _ _ Hinv) as Ho.
  destruct (inv_loaded _ _ _ _ Hinv v sv Hv) as (HI & Hr & Hop & Hops). pose proof (inode_is_loaded cur _ _ _ Hv) as His.
  pose proof (inv_ready _ _ _ _ _ _ Hinv Hv) as (_ & Hf & _). pose proof (fo_inode _ _ _ Hf) as Hwf.
  assert (Hd : ∀ b, 0 ≤ b < nblocks s → b ≠ sv_ino sv → data s' b = data s b).
  { intros b Hb Hne. apply u4; [pose proof (ok_blocks _ _ Ho); lia|done]. }
  assert (Hdi : disk_inode s' (sv_ino sv) = sv_i sv).
  { unfold SfsInv.disk_inode, SfsBlocks.data. cbn. rewrite u3, words_of_bytes by (by apply inode_words_range). by apply inode_of_words. }
  assert (HdI : ∀ j, j ∈ I → j ≠ sv_ino sv → disk_inode s' j = disk_inode s j).
  { intros j Hj Hne. destruct (inode_is_ex cur s j) as [i Hi]. destruct (inv_file _ _ _ _ Hinv _ _ Hj Hi) as [[_ _ _ (f1 & _)] _]. cbn in f1.
    unfold SfsInv.disk_inode. rewrite Hd by (done || lia). done. }
  assert (Hown : ∀ j i b, j ∈ I → inode_is s j i → b ∈ owns s (vn i j) → data s' b = data s b).
  { intros j i b Hj Hi Hb. destruct (inv_file _ _ _ _ Hinv _ _ Hj Hi) as [Hfj _]. destruct (fo_range _ _ _ Hfj b Hb).
    apply Hd; [lia|]. intros ->. destruct (decide (j = sv_ino sv)) as [->|Hne].
    - rewrite (inode_is_fun _ _ _ _ _ _ _ Hinv Hi His) in Hb. by destruct (fo_ino _ _ _ Hf) as (_ & _ & ?).
    - by destruct (inv_disj _ _ _ _ Hinv _ _ _ _ Hj HI Hne Hi His). }
  assert (Q : quiet I s s').
  { split; try done.
    - intros j i Hj. destruct (decide (j = sv_ino sv)) as [->|Hne].
      + rewrite (changed_file cur v (set_dev d' s) sv s' (set_dirty false sv)); [|done|intros w sw Hw Hi; by eapply (inv_one _ _ _ _ Hinv)].
        cbn. split; [by intros ->|]. intros Hi. by eapply (inode_is_fun cur R I s).
      + apply (inode_is_insert cur v s s' (set_dirty false sv)); [done|done|congruence|by apply HdI].
    - intros j i Hj Hi. apply fblocks_frame. intros b. by apply Hown.
    - intros j i Hj Hi. unfold SfsFile.contents. destruct (fblocks_frame cur s s' (vn i j)) as [_ ->]; [|done]. intros b. by apply Hown. }
  split; [done|]. split; [|done]. apply (inv_quiet cur R I s); [done|done| | |apply Hinv|].
  - split; try done. intros b [HR Hb]%(mo_reserved _ _ _ (inv_meta _ _ _ _ Hinv)). apply Hd; [done|]. intros ->. by destruct (inv_reserved _ _ _ _ Hinv _ HR).
  - destruct Ho. split; try done. cbn. by rewrite u2.
  - destruct (inv_tables _ _ _ _ Hinv) as [t1 t2 t3 t4 t5 t6]. split; cbn; try done.
    + intros w. rewrite t2, lookup_insert. case_decide; [subst; by rewrite Hv|done].
    + intros w Hw. rewrite lookup_insert_ne; [by apply t3|]. intros <-. by rewrite t3 in Hv.
    + intros w x sw sx. rewrite !lookup_insert_Some. intros [[<- <-]|[? Hw]] [[<- <-]|[? Hx]] E; [done|by eapply (t4 v)|by eapply (t4 w v)|by eapply t4].
    + intros w sw. rewrite lookup_insert_Some. intros [[<- <-]|[? Hw]]; [done|by apply (t5 w)].
    + intros w sw. rewrite lookup_insert_Some. intros [[<- <-]|[Hne Hw]] Hdt; [done|].
      rewrite HdI; [by apply (t6 w)|by apply (t5 w)|]. intros E. apply Hne. symmetry. by eapply (t4 w v).
Qed.

Lemma sync_inode_ok R I v s sv :
  sfs_inv R I s → fs_vn s !! v = Some sv →
  ∃ s', sfs_sync_inode v s = Done (0, s') ∧ fs_vn s' = <[v := set_dirty false sv]> (fs_vn s) ∧ same_rest s s' ∧
    quiet I s s' ∧ sfs_inv R I s' ∧ disk_inode s' (sv_ino sv) = sv_i sv.
Proof.
  intros Hinv Hv. unfold sfs_sync_inode. kcall (getvn_ok _ _ _ Hv). destruct (sv_dirty sv) eqn:Ed.
  - pose proof (inv_ready _ _ _ _ _ _ Hinv Hv) as (Ho & Hf & _). destruct (fo_ino _ _ _ Hf) as (f1 & _).
    destruct (wblock_ok cur s (sv_ino sv) (bytes_of (inode_words (sv_i sv)))) as (d' & E & Hd); [done|lia| |].
    { rewrite length_bytes_of, inode_words_length by apply Hf. done. }
    destruct (quiet_sync R I v s sv d' Hinv Hv Hd) as (Q & Hinv' & Hdi). kcall E. cbn [Z.eqb negb].
    kcall (modvn_ok v (set_dirty false) (set_dev d' s) sv Hv). eexists. split; [reflexivity|]. done.
  - exists s. assert (set_dirty false sv = sv) as -> by (destruct sv; cbn in *; by subst).
    split; [done|]. rewrite insert_id by done. split_and!; try done. by eapply (inv_clean _ _ _ _ Hinv).
Qed.

(** ** Leaving the table *)

Definition drop_vnode v (vs : list nat) s : fs := set_vn (delete v (fs_vn s)) (set_vnodes vs s).

Lemma find_in_table vs v :
  NoDup vs → v ∈ vs →
  ∃ ix, list_find (eq v) vs = Some (ix, v) ∧
    NoDup (take ix vs ++ drop (S ix) vs) ∧ ∀ w, w ∈ take ix vs ++ drop (S ix) vs ↔ w ∈ vs ∧ w ≠ v.
Proof.
  intros Hnd Hv. destruct (list_find_elem_of (eq v) vs v Hv eq_refl) as [[ix w] Hf]. pose proof Hf as (Hix & <- & _)%list_find_Some.
  exists ix. split; [done|]. rewrite <- (take_drop_middle vs ix v Hix) in Hnd. rewrite <- Permutation_middle in Hnd.
  apply NoDup_cons in Hnd as [Hni Hnd]. split; [done|]. intros w.
  assert (Hw : w ∈ vs ↔ w = v ∨ w ∈ take ix vs ++ drop (S ix) vs).
  { rewrite <- (take_drop_middle vs ix v Hix) at 1. rewrite <- Permutation_middle. apply elem_of_cons. }
  rewrite Hw. split; [|tauto]. intros H. split; [by right|]. by intros ->.
Qed.

Lemma inode_is_drop R I v s sv vs j i :
  sfs_inv R I s → fs_vn s !! v = Some sv →
  inode_is (drop_vnode v vs s) j i ↔ if decide (j = sv_ino sv) then i = disk_inode s j else inode_is s j i.
Proof.
  intros Hinv Hv. unfold SfsInv.inode_is, unloaded, drop_vnode. cbn. case_decide as Hj.
  - subst j. split.
    + intros [(w & sw & [Hne Hw]%lookup_delete_Some & E & _)|[_ ->]]; [|done]. destruct Hne. by eapply (inv_one _ _ _ _ Hinv).
    + intros ->. right. split; [|done]. intros w sw [Hne Hw]%lookup_delete_Some E. apply Hne. by eapply (inv_one _ _ _ _ Hinv).
  - split.
    + intros [(w & sw & [Hne Hw]%lookup_delete_Some & ? & ?)|[Hu ->]]; [left; by exists w, sw|right]. split; [|done].
      intros w sw Hw. destruct (decide (v = w)) as [->|Hne]; [congruence|]. apply (Hu w). by rewrite lookup_delete_ne.
    + intros [(w & sw & Hw & ? & ?)|[Hu ->]]; [left|right].
      * exists w, sw. rewrite lookup_delete_ne; [done|]. intros <-. congruence.
      * split; [|done]. intros w sw [_ Hw]%lookup_delete_Some. by apply (Hu w).
Qed.

Lemma table_drop I v s sv vs :
  table_ok I s → fs_vn s !! v = Some sv → NoDup vs → (∀ w, w ∈ vs ↔ w ∈ fs_vnodes s ∧ w ≠ v) →
  table_ok (I ∖ {[sv_ino sv]}) (drop_vnode v vs s) ∧ table_ok I (drop_vnode v vs s).
Proof.
  intros [t1 t2 t3 t4 t5 t6] Hv Hnd Hvs.
  assert (Hs : ∀ w, is_Some (delete v (fs_vn s) !! w) ↔ is_Some (fs_vn s !! w) ∧ w ≠ v).
  { intros w. destruct (decide (w = v)) as [->|Hne]; [rewrite lookup_delete_eq|rewrite lookup_delete_ne by done]; [|tauto].
    split; [by intros [? ?]|tauto]. }
  split; split; cbn; try done.
  - intros w. rewrite Hvs, Hs, t2. done.
  - intros w Hw. apply lookup_delete_None. right. by apply t3.
  - intros w x sw sx [_ Hw]%lookup_delete_Some [_ Hx]%lookup_delete_Some. by apply t4.
  - intros w sw [Hne Hw]%lookup_delete_Some. destruct (t5 w sw Hw) as (? & ? & ? & ?). split; [|done].
    apply elem_of_difference. split; [done|]. intros E%elem_of_singleton. apply Hne. symmetry. by eapply t4.
  - intros w sw [_ Hw]%lookup_delete_Some. by apply (t6 w).
  - intros w. rewrite Hvs, Hs, t2. done.
  - intros w Hw. apply lookup_delete_None. right. by apply t3.
  - intros w x sw sx [_ Hw]%lookup_delete_Some [_ Hx]%lookup_delete_Some. by apply t4.
  - intros w sw [Hne Hw]%lookup_delete_Some. by apply (t5 w).
  - intros w sw [_ Hw]%lookup_delete_Some. by apply (t6 w).
Qed.

(** A vnode that was written back can go. *)
Lemma quiet_drop R I v s sv vs :
  sfs_inv R I s → fs_vn s !! v = Some sv → disk_inode s (sv_ino sv) = sv_i sv → NoDup vs → (∀ w, w ∈ vs ↔ w ∈ fs_vnodes s ∧ w ≠ v) →
  quiet I s (drop_vnode v vs s) ∧ sfs_inv R I (drop_vnode v vs s).
Proof.
  intros Hinv Hv Hd Hnd Hvs.
  assert (Q : quiet I s (drop_vnode v vs s)).
  { split; try done. intros j i Hj. rewrite (inode_is_drop R I v s sv vs j i Hinv Hv). case_decide as E; [|done]. subst j. rewrite Hd.
    split; [intros ->; by eapply inode_is_loaded|]. intros Hi. eapply (inode_is_fun cur R I s); [done|done|by eapply inode_is_loaded]. }
  split; [done|]. apply (inv_quiet cur R I s); [done|done|done| |apply Hinv|].
  - destruct (inv_ok _ _ _ _ Hinv). by split.
  - by apply (table_drop I v s sv vs (inv_tables _ _ _ _ Hinv) Hv Hnd Hvs).
Qed.

(** The files other than one are as they were. *)
Record others I ino s s' : Prop := {
  er_inode j i : j ∈ I → j ≠ ino → inode_is s' j i ↔ inode_is s j i;
  er_contents j i : j ∈ I → j ≠ ino → inode_is s j i → contents s' (vn i j) = contents s (vn i j);
  er_super : fs_super s' = fs_super s;
  er_depth : fs_depth s' = fs_depth s
}.
Lemma others_trans I ino s1 s2 s3 : others I ino s1 s2 → others I ino s2 s3 → others I ino s1 s3.
Proof.
  intros [a1 a2 a3 a4] [b1 b2 b3 b4]. split; try congruence.
  - intros j i Hj Hne. by rewrite b1, a1.
  - intros j i Hj Hne Hi. pose proof (proj2 (a1 j i Hj Hne) Hi). by rewrite b2, a2.
Qed.
Lemma quiet_others I ino s s' : quiet I s s' → others I ino s s'.
Proof. intros [q1 q2 q3 q4 q5 q6]. split; auto. Qed.
Lemma change_others R I v s sv s' sv' :
  sfs_inv R I s → fs_vn s !! v = Some sv → vchange cur v s sv s' sv' → others I (sv_ino sv) s s'.
Proof.
  intros Hinv Hv Hc. split; [| |apply Hc|apply Hc].
  - intros j i Hj Hne. by apply (other_file cur R I v s sv s' sv').
  - intros j i Hj Hne Hi. by apply (other_file cur R I v s sv s' sv').
Qed.

(** The inode of a file without blocks is given back, and its vnode goes. *)
Lemma inv_erase R I v s sv s1 vs :
  sfs_inv R I s → fs_vn s !! v = Some sv → owns s sv = [] → freed cur {[sv_ino sv]} s s1 → fs_vn s1 = fs_vn s →
  NoDup vs → (∀ w, w ∈ vs ↔ w ∈ fs_vnodes s ∧ w ≠ v) →
  let s' := drop_vnode v vs s1 in others I (sv_ino sv) s s' ∧ sfs_inv R (I ∖ {[sv_ino sv]}) s'.
Proof.
  intros Hinv Hv Hown [f1 [r1 r2 r3 r4 r5 r6] f3 f4 f5] V1 Hnd Hvs s'. set (ino := sv_ino sv) in *.
  destruct (inv_loaded _ _ _ _ Hinv v sv Hv) as (HI & _). pose proof (inode_is_loaded cur _ _ _ Hv) as His.
  assert (Hdata : ∀ b, data s' b = data s b) by (intros b; unfold SfsBlocks.data; cbn; by rewrite f3).
  assert (Hslots : ∀ x, slots cur s' x = slots cur s x) by (intros x; unfold slots, blocks, idwords; by rewrite Hdata).
  assert (Hw : ∀ x, owns s' x = owns s x) by (intros x; unfold SfsFile.owns; by rewrite Hslots).
  assert (Hii : ∀ j i, j ≠ ino → inode_is s' j i ↔ inode_is s j i).
  { intros j i Hne. pose proof (inode_is_drop R I v s sv vs j i Hinv Hv) as Hdr. rewrite decide_False in Hdr by done. rewrite <- Hdr.
    unfold SfsInv.inode_is, unloaded, SfsInv.disk_inode. cbn. rewrite V1, Hdata. done. }
  assert (Hnb : nblocks s' = nblocks s) by (unfold nblocks; cbn; by rewrite r1).
  split; [split; try done|].
  { intros j i Hj Hne. by apply Hii. }
  { intros j i Hj Hne Hi. unfold SfsFile.contents, fblocks, blocks, idwords, holds. by setoid_rewrite Hdata. }
  pose proof Hinv as [_ i0 _ _ _ _ _ _ i1 i2 i3 i4 im].
  assert (Hin : ∀ b, b ∈ inuse s' ↔ b ∈ inuse s ∧ b ≠ ino) by (intros b; change (inuse s') with (inuse s1); rewrite f4, elem_of_difference, elem_of_singleton; done).
  assert (Hni : ∀ j i, j ∈ I → j ≠ ino → inode_is s j i → ino ∉ owns s (vn i j)).
  { intros j i Hj Hne Hi. by destruct (i2 _ _ _ _ Hj HI Hne Hi His). }
  assert (Htab : table_ok I s1).
  { destruct (inv_tables _ _ _ _ Hinv) as [t1 t2 t3 t4 t5 t6]. split; rewrite ?V1, ?r3, ?r4; try done.
    intros w sw Hw' Hdt. unfold SfsInv.disk_inode, SfsBlocks.data. rewrite f3. by apply (t6 w). }
  rewrite <- V1 in Hv. rewrite <- r3 in Hvs. destruct (table_drop I v s1 sv vs Htab Hv Hnd Hvs) as [[t1 t2 t3 t4 t5 t6] _].
  split; try done.
  - by destruct f1.
  - cbn. by rewrite r5.
  - intros j i [Hj Hne]%elem_of_difference Hi. rewrite elem_of_singleton in Hne. apply Hii in Hi; [|done].
    destruct (i1 j i Hj Hi) as [[g1 g2 g3 (g4 & g5 & g6)] Hty]. split; [|done]. split; rewrite ?Hw, ?Hnb; try done.
    + intros b Hb. destruct (g3 b Hb). split; [done|]. apply Hin. split; [done|]. intros ->. by apply (Hni j i).
    + split; [done|]. split; [by apply Hin|done].
  - intros j k i i' [Hj Hne]%elem_of_difference [Hk Hne']%elem_of_difference Hjk Hi Hi'. rewrite elem_of_singleton in Hne, Hne'.
    apply Hii in Hi; [|done]. apply Hii in Hi'; [|done]. rewrite !Hw. by apply i2.
  - intros b Hb. destruct (i3 b Hb) as [Hb1 Hb2]. split; [by intros [? _]%elem_of_difference|].
    intros j i [Hj Hne]%elem_of_difference Hi. rewrite elem_of_singleton in Hne. apply Hii in Hi; [|done]. rewrite Hw. by apply Hb2.
  - intros b. rewrite Hin, i4. split.
    + intros [[HR|[HIb|(j & i & Hj & Hi & Hb)]] Hne]; [by left|right; left; apply elem_of_difference; by rewrite elem_of_singleton|].
      assert (Hj' : j ≠ ino) by (intros ->; rewrite (inode_is_fun _ _ _ _ _ _ _ Hinv Hi His), owns_vn, Hown in Hb; by apply elem_of_nil in Hb).
      right. right. exists j, i. rewrite elem_of_difference, elem_of_singleton, Hw. split_and!; try done. by apply Hii.
    + intros [HR|[[HIb Hne]%elem_of_difference|(j & i & [Hj Hne]%elem_of_difference & Hi & Hb)]].
      * split; [by left|]. intros ->. by destruct (i3 ino HR).
      * rewrite elem_of_singleton in Hne. split; [by right; left|done].
      * rewrite elem_of_singleton in Hne. apply Hii in Hi; [|done]. rewrite Hw in Hb. split; [right; right; by exists j, i|].
        intros ->. by apply (Hni j i).
  - apply (meta_frame cur R s); [done|]. by split.
Qed.

(** ** Giving up a vnode *)

Lemma quiet_depth I s s1 n : quiet I (set_depth n s) s1 → quiet I s (set_depth (fs_depth s) s1).
Proof. intros [q1 q2 q3 q4 q5 q6]. split; assumption || done. Qed.
Lemma others_depth I ino s s1 n : others I ino (set_depth n s) s1 → others I ino s (set_depth (fs_depth s) s1).
Proof. intros [q1 q2 q3 q4]. split; assumption || done. Qed.

Lemma check_ok r v s sv :
  0 ≤ fs_depth s → fs_vn s !! v = Some sv → 0 < vn_refcount sv → 0 ≤ vn_opencount sv → vnode_check r v s = Done (tt, s).
Proof.
  intros Hd Hv Hr Ho. unfold vnode_check. rewrite (locked_run _ _ tt (set_depth (fs_depth s + 1) s)); [by rewrite depth_back| |done|done].
  kcall (getvn_ok v (set_depth (fs_depth s + 1) s) sv Hv). rewrite step_assert by (apply Z.leb_le; lia).
  rewrite (proj2 (Z.eqb_neq (vn_refcount sv) 0)) by lia. rewrite step_assert by done. unfold kassert. by rewrite (proj2 (Z.leb_le _ _)) by lia.
Qed.

Lemma vop_ok {A} v s sv (file dir : K fs A) :
  0 ≤ fs_depth s → fs_vn s !! v = Some sv → 0 < vn_refcount sv → 0 ≤ vn_opencount sv →
  vop v file dir s = (match vn_ops sv with sfs_fileops => file | sfs_dirops => dir end) s.
Proof. intros Hd Hv Hr Ho. unfold vop. kcall (check_ok false v s sv Hd Hv Hr Ho). by kcall (getvn_ok _ _ _ Hv). Qed.

(** The end of [sfs_reclaim]: the vnode leaves the table. *)
Lemma drop_run I v s sv :
  table_ok I s → fs_vn s !! v = Some sv → vn_refcount sv = 1 → vn_opencount sv = 0 →
  ∃ vs, NoDup vs ∧ (∀ w, w ∈ vs ↔ w ∈ fs_vnodes s ∧ w ≠ v) ∧
    (vs <- kgets fs_vnodes ;;
     match list_find (eq v) vs with
     | None => kpanic
     | Some (ix, _) =>
         kmodify (set_vnodes (take ix vs ++ drop (S ix) vs)) ;;
         vnode_cleanup v ;;
         kmodify (λ s, set_vn (delete v (fs_vn s)) s) ;;
         kret 0
     end) s = Done (0, drop_vnode v vs s).
Proof.
  intros [t1 t2 t3 t4 t5 t6] Hv Hr Ho. destruct (find_in_table (fs_vnodes s) v t1) as (ix & E & Hnd & Hvs); [apply t2; by rewrite Hv|].
  exists (take ix (fs_vnodes s) ++ drop (S ix) (fs_vnodes s)). split; [done|]. split; [done|]. ksteps. rewrite E. ksteps.
  unfold vnode_cleanup. rewrite step_bind. set (s1 := set_vnodes _ s). kcall (getvn_ok v s1 sv Hv). rewrite step_bind.
  rewrite step_assert by (by rewrite Hr). rewrite step_assert by (by rewrite Ho). done.
Qed.

Lemma reclaim_kept R I v s sv :
  sfs_inv R I s → fs_vn s !! v = Some sv → vn_refcount sv = 1 → vn_opencount sv = 0 → sfi_linkcount (sv_i sv) ≠ 0 →
  ∃ s', sfs_reclaim v s = Done (0, s') ∧ fs_vn s' = delete v (fs_vn s) ∧ quiet I s s' ∧ sfs_inv R I s'.
Proof.
  intros Hinv Hv Hr Ho Hl. pose proof (ok_depth _ _ (inv_ok _ _ _ _ Hinv)) as Hd. set (s0 := set_depth (fs_depth s + 1) s).
  assert (Hinv0 : sfs_inv R I s0) by (apply inv_depth; [done|lia]).
  destruct (sync_inode_ok R I v s0 sv Hinv0 Hv) as (s1 & E1 & V1 & R1 & Q1 & Hinv1 & Hd1).
  assert (Hv1 : fs_vn s1 !! v = Some (set_dirty false sv)) by (rewrite V1; apply lookup_insert_eq).
  destruct (drop_run I v s1 (set_dirty false sv) (inv_tables _ _ _ _ Hinv1) Hv1 Hr Ho) as (vs & Hnd & Hvs & E2).
  destruct (quiet_drop R I v s1 (set_dirty false sv) vs Hinv1 Hv1 Hd1 Hnd Hvs) as [Q2 Hinv2].
  pose proof (quiet_trans _ _ _ _ _ Q1 Q2) as Q. exists (set_depth (fs_depth s) (drop_vnode v vs s1)). split_and!.
  - unfold sfs_reclaim. apply locked_run; [|apply Q|lia]. kcall (getvn_ok v s0 sv Hv). rewrite Hr. cbn [Z.eqb Pos.eqb negb].
    rewrite (proj2 (Z.eqb_neq _ _) Hl). ksteps. cbn [Z.eqb negb]. kcall E1. cbn [Z.eqb negb]. kcall (getvn_ok _ _ _ Hv1). cbn [set_dirty sv_i].
    rewrite (proj2 (Z.eqb_neq _ _) Hl). ksteps. exact E2.
  - cbn. by rewrite V1, delete_insert_eq.
  - by eapply quiet_depth.
  - by apply inv_depth.
Qed.

Lemma reclaim_erased R I v s sv :
  sfs_inv R I s → fs_vn s !! v = Some sv → vn_refcount sv = 1 → vn_opencount sv = 0 → sfi_linkcount (sv_i sv) = 0 → vn_ops sv = sfs_fileops →
  ∃ s', sfs_reclaim v s = Done (0, s') ∧ fs_vn s' = delete v (fs_vn s) ∧ others I (sv_ino sv) s s' ∧ sfs_inv R (I ∖ {[sv_ino sv]}) s'.
Proof.
  intros Hinv Hv Hr Ho Hl Hops. pose proof (ok_depth _ _ (inv_ok _ _ _ _ Hinv)) as Hd. set (s0 := set_depth (fs_depth s + 1) s).
  assert (Hinv0 : sfs_inv R I s0) by (apply inv_depth; [done|lia]).
  pose proof (inv_ready _ _ _ _ _ _ Hinv0 Hv) as Hrd. pose proof Hrd as (Ho0 & Hf0 & _).
  destruct (inv_loaded _ _ _ _ Hinv0 v sv Hv) as (HI & _ & _ & Hop).
  destruct (truncate_ok cur v 0 s0 sv Hrd ltac:(lia)) as (s1 & sv1 & E1 & T1 & Hz1 & Hd1). change ((0 + 511) / 512) with 0 in T1.
  pose proof (truncated_vchange cur v 0 s0 sv s1 sv1 Hf0 ltac:(lia) ltac:(lia) Hop Hd1 T1) as C1.
  pose proof (inv_vchange _ _ _ _ _ _ _ _ Hinv0 Hv C1) as Hinv1. pose proof (change_others _ _ _ _ _ _ _ Hinv0 Hv C1) as O1.
  pose proof (truncated_zero cur v s0 sv s1 sv1 Hf0 T1) as Hown1. destruct (tr_same _ _ _ _ _ _ _ T1) as [m1 m2 m3 m4 m5 m6].
  assert (Hv1 : fs_vn s1 !! v = Some sv1) by (rewrite (tr_vn _ _ _ _ _ _ _ T1); apply lookup_insert_eq).
  destruct (sync_inode_ok R I v s1 sv1 Hinv1 Hv1) as (s2 & E2 & V2 & R2 & Q2 & Hinv2 & Hd2). set (sv2 := set_dirty false sv1) in *.
  assert (Hv2 : fs_vn s2 !! v = Some sv2) by (rewrite V2; apply lookup_insert_eq).
  pose proof (inv_ready _ _ _ _ _ _ Hinv2 Hv2) as (Ho2 & Hf2 & _). destruct (fo_ino _ _ _ Hf2) as (g1 & g2 & _).
  assert (Hown2 : owns s2 sv2 = []).
  { rewrite <- Hown1. pose proof (q_owns _ _ _ _ Q2 (sv_ino sv1) (sv_i sv1)) as Hs. unfold SfsFile.owns. f_equal. apply Hs; [by rewrite m1|by eapply inode_is_loaded]. }
  destruct (bfree_ok cur s2 (sv_ino sv2) Ho2 g1 g2) as (s3 & E3 & F3 & V3).
  assert (Hv3 : fs_vn s3 !! v = Some sv2) by (by rewrite V3).
  destruct (drop_run I v s3 sv2) as (vs & Hnd & Hvs & E4); [|done|cbn; congruence|cbn; congruence|].
  { destruct (inv_tables _ _ _ _ Hinv2) as [t1 t2 t3 t4 t5 t6]. destruct F3 as [_ [r1 r2 r3 r4 r5 r6] f3 _ _].
    split; rewrite ?V3, ?r3, ?r4; try done. intros w sw Hw Hdt. unfold SfsInv.disk_inode, SfsBlocks.data. rewrite f3. by apply (t6 w). }
  rewrite (sr_vnodes _ _ (fr_rest _ _ _ _ F3)) in Hvs.
  destruct (inv_erase R I v s2 sv2 s3 vs Hinv2 Hv2 Hown2 F3 V3 Hnd Hvs) as [O3 Hinv3].
  change (sv_ino sv2) with (sv_ino sv1) in O3, Hinv3, E3. rewrite m1 in *.
  pose proof (others_trans _ _ _ _ _ O1 (others_trans _ _ _ _ _ (quiet_others I (sv_ino sv) _ _ Q2) O3)) as O.
  exists (set_depth (fs_depth s) (drop_vnode v vs s3)). split_and!.
  - unfold sfs_reclaim. apply locked_run; [|apply O|lia]. kcall (getvn_ok v s0 sv Hv). rewrite Hr. cbn [Z.eqb Pos.eqb negb].
    rewrite Hl. cbn [Z.eqb]. unfold vop_truncate.
    assert (Et : vop v (sfs_truncate v 0) (kret EISDIR) s0 = Done (0, s1)) by (rewrite (vop_ok v s0 sv) by (done || cbn; lia); by rewrite Hops).
    kcall Et. cbn [Z.eqb negb]. kcall E2. cbn [Z.eqb negb]. kcall (getvn_ok _ _ _ Hv2). change (sv_i sv2) with (sv_i sv1). rewrite m6, Hl. cbn [Z.eqb].
    change (sv_ino sv2) with (sv_ino sv1). rewrite m1. kcall E3. exact E4.
  - cbn. rewrite V3, V2, (tr_vn _ _ _ _ _ _ _ T1). by rewrite !delete_insert_eq.
  - by eapply others_depth.
  - by apply inv_depth.
Qed.

(** One reference less: the vnode stays, it goes, or the file goes with it. *)
Definition dereferenced R I v sv s s' : Prop :=
  (1 < vn_refcount sv ∧ fs_vn s' = <[v := set_refcount (vn_refcount sv - 1) sv]> (fs_vn s) ∧ quiet I s s' ∧ sfs_inv R I s') ∨
  (vn_refcount sv = 1 ∧ fs_vn s' = delete v (fs_vn s) ∧ sfi_linkcount (sv_i sv) ≠ 0 ∧ quiet I s s' ∧ sfs_inv R I s') ∨
  (vn_refcount sv = 1 ∧ fs_vn s' = delete v (fs_vn s) ∧ sfi_linkcount (sv_i sv) = 0 ∧
   others I (sv_ino sv) s s' ∧ sfs_inv R (I ∖ {[sv_ino sv]}) s').

Lemma dereferenced_depth R I v sv s s' : dereferenced R I v sv s s' → fs_depth s' = fs_depth s.
Proof. intros [(_ & _ & Q & _)|[(_ & _ & _ & Q & _)|(_ & _ & _ & Q & _)]]; apply Q. Qed.

Lemma decref_body R I v s sv :
  sfs_inv R I s → fs_vn s !! v = Some sv → (vn_refcount sv = 1 → vn_opencount sv = 0 ∧ (sfi_linkcount (sv_i sv) = 0 → vn_ops sv = sfs_fileops)) →
  ∃ s', (sv <- getvn v ;;
    kassert (0 <? vn_refcount sv) ;;
    if 1 <? vn_refcount sv then modvn v (λ sv, set_refcount (vn_refcount sv - 1) sv)
    else vnode_check true v ;; result <- sfs_reclaim v ;; kret tt) s = Done (tt, s') ∧ dereferenced R I v sv s s'.
Proof.
  intros Hinv Hv Hone. pose proof (ok_depth _ _ (inv_ok _ _ _ _ Hinv)) as Hd. destruct (inv_loaded _ _ _ _ Hinv v sv Hv) as (HI & Hr & Hop & _).
  kcall (getvn_ok v s sv Hv). rewrite step_assert by (apply Z.ltb_lt; lia). destruct (Z.ltb_spec 1 (vn_refcount sv)) as [H1|H1].
  - destruct (counts_ok cur R I v s sv (set_refcount (vn_refcount sv - 1) sv)) as [Q Hinv']; try done; [cbn; lia|].
    eexists. split; [exact (modvn_ok v (λ sv, set_refcount (vn_refcount sv - 1) sv) s sv Hv)|]. by left.
  - assert (E1 : vn_refcount sv = 1) by lia. destruct (Hone E1) as [Ho Hops].
    rewrite (kbind_run _ _ _ _ _ (check_ok true v s sv ltac:(lia) Hv Hr Hop)).
    destruct (decide (sfi_linkcount (sv_i sv) = 0)) as [Hl|Hl].
    + destruct (reclaim_erased R I v s sv Hinv Hv E1 Ho Hl (Hops Hl)) as (s1 & E & V & O & Hinv1).
      exists s1. split; [by kcall E|]. by right; right.
    + destruct (reclaim_kept R I v s sv Hinv Hv E1 Ho Hl) as (s1 & E & V & Q & Hinv1).
      exists s1. split; [by kcall E|]. by right; left.
Qed.

Lemma decref_ok R I v s sv :
  sfs_inv R I s → fs_vn s !! v = Some sv → (vn_refcount sv = 1 → vn_opencount sv = 0 ∧ (sfi_linkcount (sv_i sv) = 0 → vn_ops sv = sfs_fileops)) →
  ∃ s', vnode_decref v s = Done (tt, s') ∧ dereferenced R I v sv s s'.
Proof.
  intros Hinv Hv Hone. pose proof (ok_depth _ _ (inv_ok _ _ _ _ Hinv)) as Hd. set (s0 := set_depth (fs_depth s + 1) s).
  assert (Hinv0 : sfs_inv R I s0) by (apply inv_depth; [done|lia]).
  destruct (decref_body R I v s0 sv Hinv0 Hv Hone) as (s1 & E & H). pose proof (dereferenced_depth _ _ _ _ _ _ H) as Hd1.
  exists (set_depth (fs_depth s) s1). split; [apply locked_run; [exact E|exact Hd1|lia]|].
  destruct H as [(h1 & h2 & Q & h4)|[(h1 & h2 & h3 & Q & h4)|(h1 & h2 & h3 & O & h4)]].
  - left. split_and!; [done|done|by eapply quiet_depth|by apply inv_depth].
  - right; left. split_and!; [done|done|done|by eapply quiet_depth|by apply inv_depth].
  - right; right. split_and!; [done|done|done|by eapply others_depth|by apply inv_depth].
Qed.
End Reclaim.
