(* ===== verification/SfsOps.v ===== *)
(** * SFS: the operations on the file system

    A mounted file system is a map from names to files.  Its invariant adds to
    that of the blocks what the root directory means, that every name leads to
    a file, and that the link count of a file is the number of its names.  The
    operations of the vnode layer act on the map as their names say. *)

From stdpp Require Import base numbers list gmap sets.
From Stdlib Require Import ZArith Lia.
From S2P Require Import Prelude CString Bitmap Uio Device SfsDisk Sfs SfsBlocks SfsFile SfsIo SfsDir SfsInv SfsVnode SfsTrunc SfsReclaim.

Open Scope Z_scope.
Open Scope kernel_scope.

(** ** Counting the names of a file *)

Section Links.
Implicit Types (m : gmap (list Z) Z) (name : list Z) (ino j : Z).

Definition links m ino : Z := Z.of_nat (size (filter (λ kv : list Z * Z, kv.2 = ino) m)).

Lemma links_insert m name ino j :
  m !! name = None → links (<[name := ino]> m) j = links m j + if decide (j = ino) then 1 else 0.
Proof.
  intros Hn. unfold links. case_decide as Hj.
  - subst. rewrite map_filter_insert_True by done. rewrite map_size_insert_None; [lia|]. by apply map_lookup_filter_None_2; left.
  - rewrite map_filter_insert_False by (cbn; congruence). rewrite delete_id by done. lia.
Qed.
Lemma links_delete m name ino j :
  m !! name = Some ino → links (delete name m) j = links m j - if decide (j = ino) then 1 else 0.
Proof.
  intros Hn. rewrite <- (insert_delete_id m name ino Hn) at 2. rewrite links_insert by apply lookup_delete_eq. lia.
Qed.
Lemma links_pos m name ino : m !! name = Some ino → 0 < links m ino.
Proof.
  intros Hn. pose proof (links_delete m name ino ino Hn) as H. rewrite decide_True in H by done. unfold links in *. lia.
Qed.
Lemma links_le m ino : links m ino ≤ Z.of_nat (size m).
Proof. unfold links. apply inj_le. apply map_subseteq_size, map_filter_subseteq. Qed.
Lemma links_zero m ino : (∀ name, m !! name ≠ Some ino) → links m ino = 0.
Proof.
  intros H. unfold links. assert (E : filter (λ kv : list Z * Z, kv.2 = ino) m = ∅).
  { apply map_empty. intros name. apply map_lookup_filter_None_2. right. intros j Hn E. cbn in E. subst. by apply (H name). }
  by rewrite E.
Qed.
Lemma links_none m ino name : links m ino = 0 → m !! name ≠ Some ino.
Proof. intros H Hn. pose proof (links_pos _ _ _ Hn). lia. Qed.

Lemma size_list_le (l : list (list Z)) : (size (list_to_set l : gset (list Z)) ≤ length l)%nat.
Proof.
  induction l as [|x l IH]; [done|]. cbn [list_to_set length]. rewrite size_union_alt, size_singleton.
  pose proof (subseteq_size (list_to_set l ∖ {[x]} : gset (list Z)) (list_to_set l) ltac:(set_solver)). lia.
Qed.
End Links.

Section Ops.
Context (cur : option nat) {D : Type} {DV : Device D} {BD : BlockDevice cur D}.
Abbreviation fs := (@sfs_fs D).
Abbreviation file_ok := (file_ok cur).
Abbreviation contents := (contents cur).
Abbreviation inode_is := (inode_is cur).
Abbreviation sfs_inv := (sfs_inv cur).
Abbreviation quiet := (quiet cur).
Abbreviation others := (others cur).
Abbreviation dir_ok := (dir_ok cur).
Abbreviation dir_map := (dir_map cur).
Abbreviation vchange := (vchange cur).
Implicit Types (s : fs) (sv : sfs_vnode) (v w : nat) (ino j : Z) (i : sfs_inode) (R I : gset Z) (m : gmap (list Z) Z) (lc : Z → Z).

Abbreviation ROOT := SFS_ROOT_LOCATION.

(** ** The invariant *)

(** The link counts are given by [lc]. *)
Record fsy R I m lc s : Prop := {
  fy_inv : sfs_inv R I s;
  fy_root : ROOT ∈ I;
  fy_dir i : inode_is s ROOT i → dir_ok s (vn i ROOT) ∧ dir_map s (vn i ROOT) m ∧ sfi_linkcount i ≠ 0;
  fy_entries name ino : m !! name = Some ino → ino ∈ I ∧ ino ≠ ROOT;
  fy_files ino i : ino ∈ I → ino ≠ ROOT → inode_is s ino i → sfi_type i = SFS_TYPE_FILE ∧ sfi_linkcount i = lc ino;
  fy_orphans ino : ino ∈ I → ino ≠ ROOT → unloaded s ino → lc ino ≠ 0
}.

(** Every file has as many links as names. *)
Definition fsys R I m s : Prop := fsy R I m (links m) s.

(** The same between operations, when nobody has the lock. *)
Definition mounted R I m s : Prop := 0 ≤ fs_depth s ∧ fsys R I m (set_depth (fs_depth s + 1) s).

Lemma dir_ok_vn s sv : dir_ok s sv ↔ dir_ok s (vn (sv_i sv) (sv_ino sv)).
Proof. split; intros []; by split. Qed.

Lemma fsy_ext R I m lc lc' s : (∀ j, j ∈ I → j ≠ ROOT → lc j = lc' j) → fsy R I m lc s → fsy R I m lc' s.
Proof.
  intros E [a1 a2 a3 a4 a5 a6]. split; try done.
  - intros ino i Hi Hne His. rewrite <- E by done. by apply a5.
  - intros ino Hi Hne Hu. rewrite <- E by done. by apply a6.
Qed.

Lemma fsy_depth R I m lc s n : fsy R I m lc s → 0 < n → fsy R I m lc (set_depth n s).
Proof.
  intros [a1 a2 a3 a4 a5 a6] Hn. split; try assumption; [by apply inv_depth|].
  intros i Hi. destruct (a3 i Hi) as ([] & ? & ?). split; [by split|done].
Qed.
Lemma mounted_locked R I m s n : fsys R I m s → fs_depth s = n + 1 → 0 ≤ n → mounted R I m (set_depth n s).
Proof. intros H Hd Hn. split; [done|]. cbn. rewrite <- Hd. exact (fsy_depth R I m (links m) s (fs_depth s) H ltac:(lia)). Qed.

(** Nothing the files hold has changed. *)
Lemma fsy_quiet R I m lc s s' :
  fsy R I m lc s → quiet I s s' → sfs_inv R I s' →
  (∀ ino, ino ∈ I → ino ≠ ROOT → unloaded s' ino → unloaded s ino ∨ lc ino ≠ 0) → fsy R I m lc s'.
Proof.
  intros [a1 a2 a3 a4 a5 a6] [q1 q2 q3 q4 q5 q6] Hinv Hun. split; try done.
  - intros i Hi. apply q1 in Hi; [|done]. destruct (a3 i Hi) as (Hd & Hm & Hl). pose proof (q3 _ _ a2 Hi) as Hc.
    split; [by eapply dir_ok_same|]. split; [by eapply dir_map_same|done].
  - intros ino i HI Hne Hi. apply q1 in Hi; [|done]. by apply a5.
  - intros ino HI Hne Hu. destruct (Hun ino HI Hne Hu); [by apply a6|done].
Qed.

(** A loaded vnode and the map. *)
Definition root_vnode v s sv : Prop := fs_vn s !! v = Some sv ∧ sv_ino sv = ROOT.
Lemma root_facts R I m lc s v sv :
  fsy R I m lc s → root_vnode v s sv → ready cur v s sv ∧ dir_ok s sv ∧ dir_map s sv m ∧ sfi_linkcount (sv_i sv) ≠ 0.
Proof.
  intros H [Hv Hi]. pose proof (inode_is_loaded cur _ _ _ Hv) as His. rewrite Hi in His. destruct (fy_dir _ _ _ _ _ H _ His) as (Hd & Hm & Hl).
  split; [by eapply inv_ready; [apply H|]|]. split; [apply dir_ok_vn; by rewrite Hi|done].
Qed.

(** The root directory has changed to another map. *)
Lemma fsy_root_step R I m m' lc s v sv s' sv' :
  fsy R I m lc s → root_vnode v s sv → vstep cur v s sv s' sv' → dir_ok s' sv' → dir_map s' sv' m' →
  (∀ name ino, m' !! name = Some ino → ino ∈ I ∧ ino ≠ ROOT) →
  fsy R I m' lc s' ∧ root_vnode v s' sv' ∧ others I ROOT s s' ∧ (∀ w, w ≠ v → fs_vn s' !! w = fs_vn s !! w).
Proof.
  intros H Hroot V Hd Hm He. destruct (root_facts _ _ _ _ _ _ _ H Hroot) as ((Ho & Hf & _) & _ & _ & Hl). destruct Hroot as [Hv Hi].
  pose proof H as [a1 a2 a3 a4 a5 a6]. destruct (inv_loaded _ _ _ _ a1 v sv Hv) as (HI & Hr & Hop & Hops).
  pose proof (vstep_vchange cur v s sv s' sv' Hf Hr Hop Hops V) as C. pose proof (inv_vchange _ _ _ _ _ _ _ _ a1 Hv C) as Hinv'.
  pose proof (change_others _ _ _ _ _ _ _ _ a1 Hv C) as O. rewrite Hi in O.
  assert (Hv' : fs_vn s' !! v = Some sv') by (rewrite (vs_vn _ _ _ _ _ _ V); apply lookup_insert_eq).
  assert (Hi' : sv_ino sv' = ROOT) by (by rewrite (vc_ino _ _ _ _ _ _ C)).
  split_and!; [|by split|done|intros w Hw; rewrite (vs_vn _ _ _ _ _ _ V); by rewrite lookup_insert_ne].
  split; try done.
  - intros i His. pose proof (inode_is_loaded cur _ _ _ Hv') as His'. rewrite Hi' in His'. rewrite (inode_is_fun _ _ _ _ _ _ _ Hinv' His His').
    split; [rewrite <- Hi'; by apply (dir_ok_vn s' sv')|]. split; [done|]. by rewrite (sm_linkcount _ _ (vs_same _ _ _ _ _ _ V)).
  - intros ino i HI' Hne His. apply (er_inode _ _ _ _ _ O) in His; [|done|done]. by apply a5.
  - intros ino HI' Hne Hu. apply a6; [done|done|]. intros w sw Hw E. destruct (decide (w = v)) as [->|Hwv]; [congruence|].
    apply (Hu w sw); [|done]. rewrite (vs_vn _ _ _ _ _ _ V). by rewrite lookup_insert_ne.
Qed.

(** ** What the files hold *)

Definition file_holds s ino (d : list Z) (z : Z) : Prop := ∃ i, inode_is s ino i ∧ contents s (vn i ino) = d ∧ sfi_size i = z.
(** The files of [I] hold what they held. *)
Definition kept I s s' : Prop := ∀ ino d z, ino ∈ I → ino ≠ ROOT → file_holds s ino d z → file_holds s' ino d z.

Lemma kept_refl I s : kept I s s.
Proof. by intros ino d z _ _ H. Qed.
Lemma kept_trans I s1 s2 s3 : kept I s1 s2 → kept I s2 s3 → kept I s1 s3.
Proof. intros H1 H2 ino d z Hi Hne H. apply H2; [done|done|]. by apply H1. Qed.
Lemma kept_sub I J s s' : J ⊆ I → kept I s s' → kept J s s'.
Proof. intros Hs H ino d z Hi. apply H. by apply Hs. Qed.
Lemma quiet_kept I s s' : quiet I s s' → kept I s s'.
Proof. intros [q1 q2 q3 q4 q5 q6] ino d z HI _ (i & Hi & <- & <-). exists i. split; [by apply q1|]. split; [by apply q3|done]. Qed.
Lemma others_kept I j s s' : others I j s s' → kept (I ∖ {[j]}) s s'.
Proof.
  intros [q1 q2 q3 q4] ino d z [HI Hne]%elem_of_difference _ (i & Hi & <- & <-). rewrite elem_of_singleton in Hne. exists i.
  split; [by apply q1|]. split; [by apply q2|done].
Qed.
Lemma root_kept I s s' : others I ROOT s s' → kept I s s'.
Proof.
  intros O ino d z HI Hne H. apply (others_kept I ROOT s s' O); [|done|done]. apply elem_of_difference. by rewrite elem_of_singleton.
Qed.

(** ** What the kernel holds *)

(** The inode, the references and the opens of each vnode. *)
Abbreviation handle := (Z * Z * Z)%type.
Definition hd sv : handle := (sv_ino sv, vn_refcount sv, vn_opencount sv).
Definition handles s : gmap nat handle := hd <$> fs_vn s.

(** One more reference to the vnode of a file, or a new vnode for it. *)
Definition acquired (h : gmap nat handle) w ino (h' : gmap nat handle) : Prop :=
  (∃ k o, h !! w = Some (ino, k, o) ∧ h' = <[w := (ino, k + 1, o)]> h) ∨
  (h !! w = None ∧ (∀ x j k o, h !! x = Some (j, k, o) → j ≠ ino) ∧ h' = <[w := (ino, 1, 0)]> h).

(** One reference less; the last one takes the vnode with it. *)
Definition release w (h : gmap nat handle) : gmap nat handle :=
  match h !! w with
  | Some (j, k, o) => if k =? 1 then delete w h else <[w := (j, k - 1, o)]> h
  | None => h
  end.
Lemma release_acquired h w ino h' : acquired h w ino h' → (∀ j k o, h !! w = Some (j, k, o) → 0 < k) → release w h' = h.
Proof.
  intros [(k & o & Hw & ->)|(Hw & _ & ->)] Hk; unfold release; rewrite lookup_insert_eq.
  - rewrite (proj2 (Z.eqb_neq _ _)) by (specialize (Hk _ _ _ Hw); lia). rewrite insert_insert_eq. replace (k + 1 - 1) with k by lia. by apply insert_id.
  - by apply delete_insert_id.
Qed.

Lemma handles_lookup s w j k o :
  handles s !! w = Some (j, k, o) ↔ ∃ sw, fs_vn s !! w = Some sw ∧ sv_ino sw = j ∧ vn_refcount sw = k ∧ vn_opencount sw = o.
Proof.
  unfold handles. rewrite lookup_fmap_Some. split; [intros (sw & [= <- <- <-] & H); by exists sw|intros (sw & H & <- & <- & <-); by exists sw].
Qed.
Lemma handles_insert s s' w sw :
  fs_vn s' !! w = Some sw → (∀ x, x ≠ w → fs_vn s' !! x = fs_vn s !! x) → handles s' = <[w := hd sw]> (handles s).
Proof.
  intros Hw Ho. unfold handles. rewrite <- fmap_insert. f_equal. apply map_eq. intros x. destruct (decide (x = w)) as [->|Hx].
  - by rewrite lookup_insert_eq.
  - rewrite lookup_insert_ne by done. by apply Ho.
Qed.
Lemma handles_same s s' w sw sw' :
  fs_vn s !! w = Some sw → fs_vn s' !! w = Some sw' → hd sw' = hd sw → (∀ x, x ≠ w → fs_vn s' !! x = fs_vn s !! x) → handles s' = handles s.
Proof.
  intros Hw Hw' Hh Ho. rewrite (handles_insert s s' w sw' Hw' Ho), Hh. apply insert_id. unfold handles. by rewrite lookup_fmap, Hw.
Qed.

(** ** The number of names *)

Lemma names_bound R I m lc s : fsy R I m lc s → (size m ≤ 1144)%nat.
Proof.
  intros H. destruct (inode_is_ex cur s ROOT) as [i Hi]. destruct (fy_dir _ _ _ _ _ H i Hi) as (Hd & Hm & _).
  destruct (inv_file _ _ _ _ (fy_inv _ _ _ _ _ H) _ _ (fy_root _ _ _ _ _ H) Hi) as [Hf _].
  destruct (size_entries cur _ _ Hf Hd) as [_ Hn]. rewrite <- size_dom.
  set (l := (λ e, name_str (sfd_name e)) <$> entries cur s (vn i ROOT)).
  assert (Hs : dom m ⊆ (list_to_set l : gset (list Z))).
  { intros name [ino Hino]%elem_of_dom. apply Hm in Hino as (k & e & He & _ & _ & <-). apply elem_of_list_to_set.
    apply (list_elem_of_fmap_2 (λ e, name_str (sfd_name e))). by eapply list_elem_of_lookup_2. }
  apply subseteq_size in Hs. pose proof (size_list_le l) as Hl. unfold l in Hl at 2. rewrite length_fmap, entries_length in Hl. lia.
Qed.
Lemma links_bound R I m lc s ino : fsy R I m lc s → 0 ≤ links m ino ≤ 1144.
Proof. intros H. pose proof (names_bound _ _ _ _ _ H). pose proof (links_le m ino). unfold links in *. lia. Qed.

(** ** One link more or less *)

Lemma set_linkcount_ok R I m lc s w sw sw' n :
  fsy R I m lc s → fs_vn s !! w = Some sw → sv_ino sw ≠ ROOT → 0 ≤ n < 2 ^ 16 →
  sw' = touch (set_linkcount n) sw →
  let s' := set_vn (<[w := sw']> (fs_vn s)) s in
  fsy R I m (λ j, if decide (j = sv_ino sw) then n else lc j) s' ∧ kept I s s' ∧ others I (sv_ino sw) s s'.
Proof.
  intros H Hw Hne Hn -> s'. set (sw' := touch (set_linkcount n) sw). pose proof H as [a1 a2 a3 a4 a5 a6]. destruct (inv_loaded _ _ _ _ a1 w sw Hw) as (HI & Hr & Hop & Hops).
  pose proof (inv_ready _ _ _ _ _ _ a1 Hw) as (_ & [[] _ _ _] & _).
  assert (C : vchange w s sw s' sw').
  { apply (modvn_change cur R I); try done. }
  pose proof (inv_vchange _ _ _ _ _ _ _ _ a1 Hw C) as Hinv'. pose proof (change_others _ _ _ _ _ _ _ _ a1 Hw C) as O.
  assert (Hw' : fs_vn s' !! w = Some sw') by apply lookup_insert_eq.
  assert (His' : inode_is s' (sv_ino sw) (sv_i sw')) by (exact (inode_is_loaded cur _ _ _ Hw')).
  split_and!; [split; try done| |done].
  - intros i Hi. apply (er_inode _ _ _ _ _ O) in Hi; [|done|done]. destruct (a3 i Hi) as (Hd & Hm & Hl).
    pose proof (er_contents _ _ _ _ _ O _ _ a2 (not_eq_sym Hne) Hi) as Hc. split; [by eapply dir_ok_same|]. split; [by eapply dir_map_same|done].
  - intros ino i HI' Hne' Hi. case_decide as E.
    + subst ino. rewrite (inode_is_fun _ _ _ _ _ _ _ Hinv' Hi His'). split; [|done]. by apply (a5 (sv_ino sw) (sv_i sw)); [..|by eapply inode_is_loaded].
    + apply (er_inode _ _ _ _ _ O) in Hi; [|done|done]. by apply a5.
  - intros ino HI' Hne' Hu. case_decide as E; [subst; by destruct (Hu w sw')|]. apply a6; [done|done|].
    intros x sx Hx E'. destruct (decide (x = w)) as [->|Hxw]; [congruence|]. apply (Hu x sx); [|done]. cbn. by rewrite lookup_insert_ne.
  - intros ino d z HI' Hne' Hh. destruct (decide (ino = sv_ino sw)) as [->|E].
    + destruct Hh as (i & Hi & <- & <-). rewrite (inode_is_fun _ _ _ _ _ _ _ a1 Hi (inode_is_loaded cur _ _ _ Hw)). by exists (sv_i sw').
    + apply (others_kept _ _ _ _ O); [|done|done]. apply elem_of_difference. by rewrite elem_of_singleton.
Qed.

(** ** Looking a name up *)

(** A vnode was loaded or got one more reference. *)
Record referenced I w ino s s' : Prop := {
  rf_handles : acquired (handles s) w ino (handles s');
  rf_vnode : ∃ sw, fs_vn s' !! w = Some sw ∧ sv_ino sw = ino ∧ (vn_refcount sw = 1 → vn_opencount sw = 0);
  rf_others x : x ≠ w → fs_vn s' !! x = fs_vn s !! x;
  rf_unloaded j : unloaded s' j → unloaded s j;
  rf_quiet : quiet I s s'
}.

Lemma load_referenced R I m lc s ino :
  fsy R I m lc s → ino ∈ I →
  ∃ w s', sfs_loadvnode ino SFS_TYPE_INVAL s = Done (inr w, s') ∧ fsy R I m lc s' ∧ referenced I w ino s s'.
Proof.
  intros H HI. pose proof (fy_inv _ _ _ _ _ H) as Hinv. destruct (loadvnode_ok cur R I s ino Hinv HI) as (w & sw & s' & E & Hw & Hi & Q & Hinv' & Hc & Ho).
  assert (Hun : ∀ j, unloaded s' j → unloaded s j).
  { intros j Hu x sx Hx. destruct (decide (x = w)) as [->|Hne]; [|apply (Hu x); by rewrite Ho].
    destruct Hc as [[Hn _]|(sv0 & Hs0 & ->)]; [congruence|]. assert (sx = sv0) as -> by congruence.
    exact (Hu w _ Hw). }
  exists w, s'. split; [done|]. split.
  - apply (fsy_quiet R I m lc s); try done. intros j Hj Hne Hu. left. by apply Hun.
  - split; try done; [|exists sw; split_and!; [done|done|]].
    { destruct Hc as [(Hn & Hr & Hop)|(sv0 & Hs0 & ->)]; cbn in *.
      - right. unfold handles at 1. rewrite lookup_fmap, Hn. split; [done|]. split.
        + intros x j k o (sx & Hx & <- & _ & _)%handles_lookup Ej. assert (x ≠ w) by congruence.
          enough (x = w) by done. eapply (inv_one _ _ _ _ Hinv'); [by rewrite Ho|done|congruence].
        + rewrite (handles_insert s s' w sw Hw Ho). unfold hd. by rewrite Hi, Hr, Hop.
      - left. exists (vn_refcount sv0), (vn_opencount sv0). split; [apply handles_lookup; by exists sv0|].
        rewrite (handles_insert s s' w _ Hw Ho). unfold hd. cbn. by rewrite Hi. } intros Hr. destruct Hc as [(_ & _ & ?)|(sv0 & Hs0 & ->)]; [done|].
    cbn in Hr. destruct (inv_loaded _ _ _ _ Hinv w sv0 Hs0) as (_ & ? & _). lia.
Qed.

Lemma quiet_named I s s' i slot name ino : quiet I s s' → ROOT ∈ I → inode_is s ROOT i → named cur s (vn i ROOT) slot name ino → named cur s' (vn i ROOT) slot name ino.
Proof. intros Q HI Hi Hn. unfold named. by rewrite (entries_same cur s s' (vn i ROOT) (q_contents _ _ _ _ Q _ _ HI Hi)). Qed.

Lemma lookonce_ok R I m lc s v sv name :
  fsy R I m lc s → root_vnode v s sv → (∀ n ino, m !! n = Some ino → lc ino ≠ 0) →
  match m !! name with
  | None => ∃ s', sfs_lookonce cur v name s = Done (inl ENOENT, s') ∧ fsy R I m lc s' ∧ quiet I s s' ∧ fs_vn s' = fs_vn s
  | Some ino => ∃ w slot s', sfs_lookonce cur v name s = Done (inr (w, Z.of_nat slot), s') ∧ fsy R I m lc s' ∧ referenced I w ino s s' ∧
      root_vnode v s' sv ∧ w ≠ v ∧ named cur s' sv slot name ino
  end.
Proof.
  intros H Hroot Hlc. destruct (root_facts _ _ _ _ _ _ _ H Hroot) as (Hrd & Hd & Hm & Hl). destruct Hroot as [Hv Hi].
  destruct (findname_ok cur v s sv name m Hrd Hd Hm) as (found & empty & d' & E & D1 & Hf & Hfi & _).
  destruct (quiet_dev cur R I s d' (fy_inv _ _ _ _ _ H) D1) as [Q1 Hinv1].
  assert (H1 : fsy R I m lc (set_dev d' s)) by (eapply fsy_quiet; [done..|]; intros; by left). set (s1 := set_dev d' s) in *.
  unfold sfs_lookonce. rewrite (ebind_inr _ _ _ _ _ E). destruct found as [[slot ino]|]; cbn in Hf; rewrite <- Hf; [|by exists s1].
  assert (Hmn : m !! name = Some ino) by done. destruct (fy_entries _ _ _ _ _ H name ino Hmn) as [HI Hne].
  destruct (load_referenced R I m lc s1 ino H1 HI) as (w & s2 & E2 & H2 & Rf). rewrite (ebind_inr _ _ _ _ _ E2).
  destruct (rf_vnode _ _ _ _ _ Rf) as (sw & Hw & Hwi & _). kcall (getvn_ok _ _ _ Hw).
  pose proof (inode_is_loaded cur _ _ _ Hw) as Hwis. rewrite Hwi in Hwis. destruct (fy_files _ _ _ _ _ H2 ino _ HI Hne Hwis) as [_ Hlink].
  rewrite Hlink. rewrite (proj2 (Z.eqb_neq _ _)) by (by eapply Hlc).
  destruct Hfi as (k & -> & _ & Hnm). assert (Hwv : w ≠ v).
  { intros ->. assert (Hv1 : fs_vn s1 !! v = Some sv) by done.
    assert (Hun : ¬ unloaded s2 ROOT).
    { intros Hu. by apply (rf_unloaded _ _ _ _ _ Rf) in Hu as Hu'; destruct (Hu' v sv). }
    apply Hun. intros x sx Hx Ex. destruct (decide (x = v)) as [->|Hxv]; [congruence|].
    rewrite (rf_others _ _ _ _ _ Rf) in Hx by done. apply Hxv. symmetry. eapply (inv_one _ _ _ _ Hinv1); [done|done|congruence]. }
  exists w, k, s2. split; [done|]. split; [done|]. split.
  - destruct Rf as [r1 r2 r3 r4]. split; try done. by eapply quiet_trans.
  - assert (Hroot2 : root_vnode v s2 sv) by (split; [rewrite (rf_others _ _ _ _ _ Rf) by done; done|done]).
    split; [done|]. split; [done|]. pose proof (inode_is_loaded cur _ _ _ Hv) as His. rewrite Hi in His.
    exact (quiet_named I s s2 (sv_i sv) k name ino (quiet_trans _ _ _ _ _ Q1 (rf_quiet _ _ _ _ _ Rf)) (fy_root _ _ _ _ _ H) His Hnm).
Qed.

(** ** Files that come and go *)

Lemma fsy_grown R I m lc s s' ino w :
  fsy R I m lc s → ino ∉ I → fs_vn s !! w = None → fs_vn s' = <[w := new_vnode ino]> (fs_vn s) → grown cur I ino s s' →
  sfs_inv R ({[ino]} ∪ I) s' →
  fsy R ({[ino]} ∪ I) m (λ j, if decide (j = ino) then 0 else lc j) s' ∧ kept I s s'.
Proof.
  intros [a1 a2 a3 a4 a5 a6] HnI Hw Hvn [g1 g2 g3 g4 g5 g6] Hinv'.
  assert (Hw' : fs_vn s' !! w = Some (new_vnode ino)) by (rewrite Hvn; apply lookup_insert_eq).
  assert (Hne : ino ≠ ROOT) by (by intros ->).
  assert (Hcase : ∀ j, j ∈ {[ino]} ∪ I → j = ino ∨ (j ≠ ino ∧ j ∈ I)).
  { intros j [->%elem_of_singleton|Hj]%elem_of_union; [by left|]. right. split; [|done]. by intros ->. }
  split; [split; try done|].
  - by apply elem_of_union_r.
  - intros i Hi. apply g1 in Hi; [|done]. destruct (a3 i Hi) as (Hd & Hm & Hl). pose proof (g3 _ _ a2 Hi) as Hc.
    split; [by eapply dir_ok_same|]. split; [by eapply dir_map_same|done].
  - intros name j Hj. destruct (a4 name j Hj). split; [by apply elem_of_union_r|done].
  - intros j i Hj HjR Hi. destruct (Hcase j Hj) as [->|[Hji HjI]].
    + rewrite decide_True by done. rewrite (inode_is_fun _ _ _ _ _ _ _ Hinv' Hi (inode_is_loaded cur _ _ _ Hw')). done.
    + rewrite decide_False by done. apply g1 in Hi; [|done]. by apply a5.
  - intros j Hj HjR Hu. destruct (Hcase j Hj) as [->|[Hji HjI]]; [by destruct (Hu w (new_vnode ino))|]. rewrite decide_False by done.
    apply a6; [done|done|]. intros x sx Hx. apply (Hu x). rewrite Hvn, lookup_insert_ne; [done|]. intros <-. congruence.
  - intros j d z Hj HjR (i & Hi & <- & <-). exists i. split; [by apply g1|]. split; [by apply g3|done].
Qed.

Lemma fsy_erase R I m lc s s' w sw :
  fsy R I m lc s → fs_vn s !! w = Some sw → sv_ino sw ≠ ROOT → others I (sv_ino sw) s s' → sfs_inv R (I ∖ {[sv_ino sw]}) s' →
  fs_vn s' = delete w (fs_vn s) → (∀ name, m !! name ≠ Some (sv_ino sw)) → fsy R (I ∖ {[sv_ino sw]}) m lc s'.
Proof.
  intros [a1 a2 a3 a4 a5 a6] Hw Hne [o1 o2 o3 o4] Hinv' Hvn Hno. split; try done.
  - apply elem_of_difference. by rewrite elem_of_singleton.
  - intros i Hi. apply o1 in Hi; [|done|done]. destruct (a3 i Hi) as (Hd & Hm & Hl). pose proof (o2 _ _ a2 (not_eq_sym Hne) Hi) as Hc.
    split; [by eapply dir_ok_same|]. split; [by eapply dir_map_same|done].
  - intros name j Hj. destruct (a4 name j Hj). split; [|done]. apply elem_of_difference. rewrite elem_of_singleton. split; [done|].
    intros ->. by apply (Hno name).
  - intros j i [Hj Hji]%elem_of_difference HjR Hi. rewrite elem_of_singleton in Hji. apply o1 in Hi; [|done|done]. by apply a5.
  - intros j [Hj Hji]%elem_of_difference HjR Hu. rewrite elem_of_singleton in Hji. apply a6; [done|done|].
    intros x sx Hx E. apply (Hu x sx); [|done]. rewrite Hvn, lookup_delete_ne; [done|]. intros <-. congruence.
Qed.

(** Giving up one reference to a file. *)
Lemma file_ops R I m lc s w sw : fsy R I m lc s → fs_vn s !! w = Some sw → sv_ino sw ≠ ROOT → vn_ops sw = sfs_fileops.
Proof.
  intros H Hw Hne. destruct (inv_loaded _ _ _ _ (fy_inv _ _ _ _ _ H) w sw Hw) as (HI & _ & _ & Hops).
  destruct (fy_files _ _ _ _ _ H _ _ HI Hne (inode_is_loaded cur _ _ _ Hw)) as [Hty _].
  unfold ops_ok in Hops. destruct (vn_ops sw); [done|]. rewrite Hty in Hops. done.
Qed.
Lemma fsy_dereferenced R I m lc s s' w sw :
  fsy R I m lc s → fs_vn s !! w = Some sw → sv_ino sw ≠ ROOT → (lc (sv_ino sw) = 0 → ∀ name, m !! name ≠ Some (sv_ino sw)) →
  dereferenced cur R I w sw s s' →
  ∃ I', fsy R I' m lc s' ∧ kept I' s s' ∧ fs_depth s' = fs_depth s ∧
    handles s' = release w (handles s) ∧ (I' = I → full s → full s') ∧
    I' = if decide (lc (sv_ino sw) = 0 ∧ vn_refcount sw = 1) then I ∖ {[sv_ino sw]} else I.
Proof.
  intros H Hw Hne Hno Hcases. pose proof (fy_inv _ _ _ _ _ H) as Hinv. destruct (inv_loaded _ _ _ _ Hinv w sw Hw) as (HI & Hr & _ & _).
  destruct (fy_files _ _ _ _ _ H _ _ HI Hne (inode_is_loaded cur _ _ _ Hw)) as [Hty Hlc].
  assert (Hfull : quiet I s s' → full s → full s') by (intros [_ _ _ q4 q5 _]; unfold full, nblocks; by rewrite q4, q5).
  assert (Hh : handles s !! w = Some (hd sw)) by (unfold handles; by rewrite lookup_fmap, Hw).
  assert (Hrel : release w (handles s) = if vn_refcount sw =? 1 then delete w (handles s) else <[w := hd (set_refcount (vn_refcount sw - 1) sw)]> (handles s)).
  { unfold release. by rewrite Hh. }
  destruct Hcases as [(H1 & Hvn & Q & Hinv')|[(H1 & Hvn & Hl & Q & Hinv')|(H1 & Hvn & Hl & O & Hinv')]].
  - exists I. rewrite decide_False by lia. split; [|split; [by apply quiet_kept|split; [apply Q|split; [|split; [intros _; by apply Hfull|done]]]]].
    + apply (fsy_quiet R I m lc s); try done. intros j Hj HjR Hu. left. intros x sx Hx. destruct (decide (x = w)) as [->|Hxw].
      * assert (sx = sw) as -> by congruence. apply (Hu w (set_refcount (vn_refcount sw - 1) sw)). rewrite Hvn. apply lookup_insert_eq.
      * apply (Hu x). rewrite Hvn. by rewrite lookup_insert_ne.
    + rewrite Hrel, (proj2 (Z.eqb_neq _ _)) by lia. unfold handles. by rewrite Hvn, fmap_insert.
  - exists I. rewrite decide_False by (rewrite <- Hlc; tauto). split; [|split; [by apply quiet_kept|split; [apply Q|split; [|split; [intros _; by apply Hfull|done]]]]].
    + apply (fsy_quiet R I m lc s); try done. intros j Hj HjR Hu. destruct (decide (j = sv_ino sw)) as [->|Hj2]; [right; congruence|left].
      intros x sx Hx E2. apply (Hu x sx); [|done]. rewrite Hvn, lookup_delete_ne; [done|]. intros <-. congruence.
    + rewrite Hrel, H1. unfold handles. by rewrite Hvn, fmap_delete.
  - exists (I ∖ {[sv_ino sw]}). rewrite decide_True by (rewrite <- Hlc; done).
    split; [eapply fsy_erase; try done; apply Hno; congruence|]. split; [by apply others_kept|]. split; [apply O|].
    split; [|split; [intros EI; rewrite <- EI in HI; by apply elem_of_difference in HI as [_ []%not_elem_of_singleton]|done]].
    rewrite Hrel, H1. unfold handles. by rewrite Hvn, fmap_delete.
Qed.

Lemma fsy_decref R I m lc s w sw :
  fsy R I m lc s → fs_vn s !! w = Some sw → sv_ino sw ≠ ROOT → (vn_refcount sw = 1 → vn_opencount sw = 0) →
  (lc (sv_ino sw) = 0 → ∀ name, m !! name ≠ Some (sv_ino sw)) →
  ∃ s' I', vnode_decref w s = Done (tt, s') ∧ fsy R I' m lc s' ∧ kept I' s s' ∧ fs_depth s' = fs_depth s ∧
    handles s' = release w (handles s) ∧ (I' = I → full s → full s') ∧
    I' = if decide (lc (sv_ino sw) = 0 ∧ vn_refcount sw = 1) then I ∖ {[sv_ino sw]} else I.
Proof.
  intros H Hw Hne Hop Hno. destruct (decref_ok cur R I w s sw (fy_inv _ _ _ _ _ H) Hw) as (s' & E & Hcases).
  { intros Hr1. split; [by apply Hop|]. intros _. by eapply file_ops. }
  destruct (fsy_dereferenced R I m lc s s' w sw H Hw Hne Hno Hcases) as [I' HI']. by exists s', I'.
Qed.
End Ops.
