(* ===== verification/SfsNames.v ===== *)
(** * SFS: the directory operations

    What looking up, creating, linking and removing a name do to the names, the
    files and the vnodes of the file system. *)

From stdpp Require Import base numbers list gmap sets.
From Stdlib Require Import ZArith Lia.
From S2P Require Import Prelude CString Bitmap Uio Device SfsDisk Sfs SfsBlocks SfsFile SfsIo SfsDir SfsInv SfsVnode SfsTrunc SfsReclaim SfsOps.

Open Scope Z_scope.
Open Scope kernel_scope.

Section Names.
Context (cur : option nat) {D : Type} {DV : Device D} {BD : BlockDevice cur D}.
Abbreviation fs := (@sfs_fs D).
Abbreviation quiet := (quiet cur).
Abbreviation fsy := (fsy cur).
Abbreviation kept := (kept cur).
Abbreviation named := (named cur).
Implicit Types (s : fs) (sv : sfs_vnode) (v w : nat) (ino j : Z) (i : sfs_inode) (R I : gset Z) (m : gmap (list Z) Z) (lc : Z → Z) (name : list Z).
Abbreviation ROOT := SFS_ROOT_LOCATION.

Lemma takew_length (P : Z → bool) l n c : l !! n = Some c → P c = true → (length (takew P l) ≤ n)%nat.
Proof.
  revert n. induction l as [|x l IH]; intros [|n] Hl Hc; try done; cbn in *.
  - simplify_eq. by rewrite Hc.
  - destruct (P x); cbn; [lia|]. specialize (IH n Hl Hc). lia.
Qed.
Lemma takew_le (P : Z → bool) l : (length (takew P l) ≤ length l)%nat.
Proof. induction l as [|x l IH]; cbn; [done|]. destruct (P x); cbn; lia. Qed.
Lemma name_str_short l : (length (name_str l) < 60)%nat.
Proof.
  unfold name_str. destruct (decide (59 < length l)%nat).
  - pose proof (takew_length (λ c, c =? 0) (<[59%nat := 0]> l) 59 0). rewrite list_lookup_insert_eq in H by done. specialize (H eq_refl eq_refl). lia.
  - pose proof (takew_le (λ c, c =? 0) (<[59%nat := 0]> l)). rewrite length_insert in H. lia.
Qed.

(** The directory alone has changed; everything else is as it was. *)
Record dir_step I v s s' : Prop := {
  ds_root : ∃ sv', root_vnode v s' sv';
  ds_kept : kept I s s';
  ds_depth : fs_depth s' = fs_depth s;
  ds_others w : w ≠ v → fs_vn s' !! w = fs_vn s !! w;
  ds_handles : handles s' = handles s
}.

Lemma root_step R I m m' lc s v sv s' sv' :
  fsy R I m lc s → root_vnode v s sv → vstep cur v s sv s' sv' → dir_ok cur s' sv' → dir_map cur s' sv' m' →
  (∀ n j, m' !! n = Some j → j ∈ I ∧ j ≠ ROOT) → fsy R I m' lc s' ∧ root_vnode v s' sv' ∧ dir_step I v s s'.
Proof.
  intros H Hroot V Hd Hm He. destruct (fsy_root_step cur R I m m' lc s v sv s' sv' H Hroot V Hd Hm He) as (H' & Hroot' & O & Ho).
  split; [done|]. split; [done|]. split; [by exists sv'|by apply root_kept|apply O|done|].
  destruct Hroot as [Hv _], Hroot' as [Hv' _]. apply (handles_same s s' v sv sv'); try done.
  destruct (vs_same _ _ _ _ _ _ V) as [e1 e2 e3 _ _ _]. unfold hd. by rewrite e1, e2, e3.
Qed.

Lemma dir_step_refl I v s sv : root_vnode v s sv → dir_step I v s s.
Proof. intros H. split; try done. - by exists sv. - apply kept_refl. Qed.
Lemma dir_step_trans I v s1 s2 s3 : dir_step I v s1 s2 → dir_step I v s2 s3 → dir_step I v s1 s3.
Proof.
  intros [a1 a2 a3 a4 a5] [b1 b2 b3 b4 b5]. split; try congruence; try done; [by eapply kept_trans|].
  intros w Hw. by rewrite b4, a4.
Qed.

(** A name is entered. *)
Lemma link_ok R I m lc s v sv name ino :
  fsy R I m lc s → root_vnode v s sv → name_ok name → ino ∈ I → ino ≠ ROOT → 0 < ino < 2 ^ 32 →
  ∃ r s', sfs_dir_link cur v name ino s = Done (r, s') ∧ dir_step I v s s' ∧
    match r with
    | inr slot => m !! name = None ∧ (length name < 60)%nat ∧ fsy R I (<[name := ino]> m) lc s' ∧
        ∃ sv', root_vnode v s' sv' ∧ ∀ k n a, named s sv k n a → named s' sv' k n a
    | inl e => fsy R I m lc s' ∧ link_error e name m s'
    end.
Proof.
  intros H Hroot Hname HI Hne Hino. destruct (root_facts _ _ _ _ _ _ _ _ H Hroot) as (Hrd & Hd & Hm & Hl).
  destruct (dir_link_ok cur v s sv name ino m Hrd Hd Hm Hname Hino) as (r & s' & sv' & E & V & Hd' & Hr).
  exists r, s'. split; [done|]. destruct r as [e|slot].
  - destruct Hr as [Hm' Hle]. destruct (root_step R I m m lc s v sv s' sv') as (H' & _ & S); try done. by apply H.
  - destruct Hr as (Hn & Hm' & Hkeep & k & -> & Hk). destruct (root_step R I m (<[name:=ino]> m) lc s v sv s' sv') as (H' & Hroot' & S); try done.
    { intros n j [[<- <-]|[? ?]]%lookup_insert_Some; [done|]. by eapply H. }
    split; [done|]. split; [done|]. split; [|split; [done|by exists sv']]. destruct Hk as (e & _ & _ & _ & <-). apply name_str_short.
Qed.

(** A name is taken out. *)
Lemma unlink_entry_ok R I m lc s v sv slot name ino :
  fsy R I m lc s → root_vnode v s sv → named s sv slot name ino →
  ∃ s', sfs_dir_unlink cur v (Z.of_nat slot) s = Done (0, s') ∧ dir_step I v s s' ∧ fsy R I (delete name m) lc s'.
Proof.
  intros H Hroot Hnm. destruct (root_facts _ _ _ _ _ _ _ _ H Hroot) as (Hrd & Hd & Hm & Hl).
  destruct (dir_unlink_ok cur v s sv slot name ino m Hrd Hd Hm Hnm) as (s' & sv' & E & V & Hd' & Hm').
  exists s'. split; [done|]. destruct (root_step R I m (delete name m) lc s v sv s' sv') as (H' & _ & S); try done.
  intros n j [_ Hn]%lookup_delete_Some. by eapply H.
Qed.

(** The link count of a file that is loaded follows its names. *)
Lemma relink_ok R I m lc s w sw sw' n :
  fsy R I m lc s → fs_vn s !! w = Some sw → sv_ino sw ≠ ROOT → 0 ≤ n < 2 ^ 16 → sw' = touch (set_linkcount n) sw →
  (∀ j, j ≠ sv_ino sw → lc j = links m j) → links m (sv_ino sw) = n →
  let s' := set_vn (<[w := sw']> (fs_vn s)) s in
  fsys cur R I m s' ∧ kept I s s' ∧ handles s' = handles s.
Proof.
  intros H Hw Hne Hn Hsw Hlc Hl s'. destruct (set_linkcount_ok cur R I m lc s w sw sw' n H Hw Hne Hn Hsw) as (H' & K & _).
  split; [|split; [done|]].
  - apply (fsy_ext cur R I m (λ j, if decide (j = sv_ino sw) then n else lc j)); [|done].
    intros j _ _. case_decide; [by subst|by apply Hlc].
  - apply (handles_same s s' w sw sw'); [done|apply lookup_insert_eq|by subst|]. intros x Hx. by apply lookup_insert_ne.
Qed.

Lemma file_linkcount R I m s w sw : fsys cur R I m s → fs_vn s !! w = Some sw → sv_ino sw ≠ ROOT → sfi_linkcount (sv_i sw) = links m (sv_ino sw).
Proof.
  intros H Hw Hne. destruct (inv_loaded _ _ _ _ (fy_inv _ _ _ _ _ _ H) w sw Hw) as (HI & _).
  by apply (fy_files _ _ _ _ _ _ H _ _ HI Hne (inode_is_loaded cur _ _ _ Hw)).
Qed.

(** ** Whole operations *)

(** An operation ends with the lock as it was, the map [m] over the files [I],
    and the files [J] as they were. *)
Definition ends R I m (J : gset Z) s s' : Prop := mounted cur R I m s' ∧ kept J s s' ∧ fs_depth s' = fs_depth s.

Abbreviation inside s := (set_depth (fs_depth s + 1) s).

Lemma run_locked {A} (c : K fs A) s (Q : A → fs → Prop) :
  0 ≤ fs_depth s → (∃ a s1, c (inside s) = Done (a, s1) ∧ fs_depth s1 = fs_depth s + 1 ∧ Q a (set_depth (fs_depth s) s1)) →
  ∃ a s', locked c s = Done (a, s') ∧ Q a s'.
Proof. intros H0 (a & s1 & E & Hd & HQ). exists a, (set_depth (fs_depth s) s1). split; [by apply locked_run|done]. Qed.
Lemma ends_intro R I m J s s1 :
  0 ≤ fs_depth s → fsys cur R I m s1 → kept J (inside s) s1 → fs_depth s1 = fs_depth s + 1 → ends R I m J s (set_depth (fs_depth s) s1).
Proof. intros H0 H K Hd. split; [by apply mounted_locked|]. by split. Qed.

Lemma named_linked m n j : m !! n = Some j → links m j ≠ 0.
Proof. intros H. pose proof (links_pos _ _ _ H). lia. Qed.

Lemma root_dir R I m lc s v sv : fsy R I m lc s → root_vnode v s sv → sfi_type (sv_i sv) = SFS_TYPE_DIR.
Proof. intros H Hr. destruct (root_facts _ _ _ _ _ _ _ _ H Hr) as (_ & [] & _). done. Qed.

Lemma lookup_ok R I m s v sv name :
  mounted cur R I m s → root_vnode v s sv →
  ∃ r s', sfs_lookup cur v name s = Done (r, s') ∧ ends R I m I s s' ∧
    match m !! name with
    | None => r = inl ENOENT ∧ handles s' = handles s
    | Some ino => ∃ w, r = inr w ∧ acquired (handles s) w ino (handles s')
    end.
Proof.
  intros [H0 H] Hroot. apply run_locked; [done|]. pose proof (root_dir _ _ _ _ _ _ _ H Hroot) as Hty.
  pose proof (lookonce_ok cur R I m _ (inside s) v sv name H Hroot (named_linked m)) as L. destruct (m !! name) as [ino|].
  - destruct L as (w & slot & s1 & E & H1 & Rf & _ & _ & _). pose proof (rf_quiet _ _ _ _ _ _ Rf) as Q.
    exists (inr w), s1. split; [|split; [apply Q|split; [apply ends_intro; [done|done|by apply quiet_kept|apply Q]|]]].
    + kcall (getvn_ok v (inside s) sv (proj1 Hroot)). rewrite Hty, Z.eqb_refl. cbn [negb]. by rewrite (ebind_inr _ _ _ _ _ E).
    + exists w. split; [done|]. exact (rf_handles _ _ _ _ _ _ Rf).
  - destruct L as (s1 & E & H1 & Q & Hvn).
    exists (inl ENOENT), s1. split; [|split; [apply Q|split; [apply ends_intro; [done|done|by apply quiet_kept|apply Q]|]]].
    + kcall (getvn_ok v (inside s) sv (proj1 Hroot)). rewrite Hty, Z.eqb_refl. cbn [negb]. by rewrite (ebind_inl _ _ _ _ _ E).
    + split; [done|]. unfold handles. cbn. by rewrite Hvn.
Qed.

(** A new link to a file. *)
Lemma link_file_ok R I m s v sv name w sw :
  mounted cur R I m s → root_vnode v s sv → name_ok name → fs_vn s !! w = Some sw → sv_ino sw ≠ ROOT →
  ∃ r s', sfs_link cur v name w s = Done (r, s') ∧ handles s' = handles s ∧
    ((r = 0 ∧ m !! name = None ∧ (length name < 60)%nat ∧ ends R I (<[name := sv_ino sw]> m) I s s') ∨
     (link_error r name m s' ∧ ends R I m I s s')).
Proof.
  intros [H0 H] Hroot Hname Hw Hne. apply run_locked; [done|].
  destruct (inv_loaded _ _ _ _ (fy_inv _ _ _ _ _ _ H) w sw Hw) as (HI & _).
  pose proof (inv_ready _ _ _ _ _ _ (fy_inv _ _ _ _ _ _ H) Hw) as (Ho & Hf & _). destruct (fo_ino _ _ _ Hf) as (Hr & _).
  assert (Hwv : w ≠ v) by (intros ->; destruct Hroot as [Hv Hvi]; congruence).
  destruct (link_ok R I m _ (inside s) v sv name (sv_ino sw) H Hroot Hname HI Hne) as (r & s1 & E & S & Hr1).
  { pose proof (ok_small _ _ Ho). lia. }
  pose proof (ds_others _ _ _ _ S w Hwv) as Hw1. cbn in Hw1. rewrite Hw in Hw1.
  kcall (getvn_ok w (inside s) sw Hw). kcall E. destruct r as [e|slot].
  - destruct Hr1 as [H1 Hle]. exists e, s1. split; [done|]. split; [apply S|]. split; [exact (ds_handles _ _ _ _ S)|].
    right. split; [done|]. apply ends_intro; [done|done|apply S|apply S].
  - destruct Hr1 as (Hn & Hlen & H1 & _). pose proof (links_bound _ _ _ _ _ _ (sv_ino sw) H) as Hb.
    pose proof (file_linkcount _ _ _ _ _ _ H Hw Hne) as Hlc.
    destruct (relink_ok R I (<[name := sv_ino sw]> m) (links m) s1 w sw (incr_link sw) (links m (sv_ino sw) + 1)) as (H2 & K2 & Hh2); try done; [lia|..].
    { unfold incr_link. rewrite <- Hlc. unfold touch. rewrite u16_small by lia. done. }
    { intros j Hj. rewrite links_insert, decide_False by done. lia. }
    { rewrite links_insert, decide_True by done. lia. }
    kcall (modvn_ok w incr_link s1 sw Hw1). eexists 0, _. split; [reflexivity|]. split; [apply S|]. split; [exact (eq_trans Hh2 (ds_handles _ _ _ _ S))|].
    left. split_and!; [done..|]. apply ends_intro; [done|done|by eapply kept_trans; [apply S|]|apply S].
Qed.

(** The end of a removal: the file loses a link and the vnode a reference. *)
Lemma drop_name R I m s w sw name :
  fsy R I (delete name m) (links m) s → m !! name = Some (sv_ino sw) → fs_vn s !! w = Some sw → sv_ino sw ≠ ROOT →
  (vn_refcount sw = 1 → vn_opencount sw = 0) →
  0 < sfi_linkcount (sv_i sw) ∧ ∃ s1 s2 I', modvn w decr_link s = Done (tt, s1) ∧ vnode_decref w s1 = Done (tt, s2) ∧
    fsys cur R I' (delete name m) s2 ∧ kept I' s s2 ∧ fs_depth s2 = fs_depth s ∧ handles s2 = release w (handles s) ∧
    I' = if decide (links (delete name m) (sv_ino sw) = 0 ∧ vn_refcount sw = 1) then I ∖ {[sv_ino sw]} else I.
Proof.
  intros H Hn Hw Hne Hop. destruct (inv_loaded _ _ _ _ (fy_inv _ _ _ _ _ _ H) w sw Hw) as (HI & _).
  destruct (fy_files _ _ _ _ _ _ H _ _ HI Hne (inode_is_loaded cur _ _ _ Hw)) as [_ Hlc].
  pose proof (links_pos _ _ _ Hn) as Hpos. pose proof (links_bound _ _ _ _ _ _ (sv_ino sw) H) as Hb.
  pose proof (λ j, links_delete m name (sv_ino sw) j Hn) as Hd. pose proof (Hd (sv_ino sw)) as Hds. rewrite decide_True in Hds by done.
  split; [lia|]. destruct (relink_ok R I (delete name m) (links m) s w sw (decr_link sw) (links m (sv_ino sw) - 1)) as (H2 & K2 & Hh2); try done; [lia|..].
  { unfold decr_link. rewrite <- Hlc. unfold touch. rewrite u16_small by lia. done. }
  { intros j Hj. rewrite Hd, decide_False by done. lia. }
  set (s1 := set_vn (<[w:=decr_link sw]> (fs_vn s)) s) in *.
  destruct (fsy_decref cur R I (delete name m) (links (delete name m)) s1 w (decr_link sw)) as (s2 & I' & E2 & H3 & K3 & D3 & Hh3 & _ & HI'); try done.
  { apply lookup_insert_eq. }
  { intros Hz n. by apply links_none. }
  exists s1, s2, I'. split; [exact (modvn_ok w decr_link s sw Hw)|]. split; [done|]. split; [done|]. split; [|split; [done|split; [congruence|done]]].
  eapply kept_trans; [|done]. eapply kept_sub; [|done]. rewrite HI'. case_decide; [|done]. apply subseteq_difference_l. done.
Qed.

(** What a reference taken on the way says of the state before. *)
Lemma referenced_new I w ino s s' sw :
  referenced cur I w ino s s' → fs_vn s' !! w = Some sw → (∀ x sx, fs_vn s !! x = Some sx → 0 < vn_refcount sx) →
  (vn_refcount sw = 1 ↔ unloaded s ino) ∧ release w (handles s') = handles s.
Proof.
  intros Rf Hw Hpos. pose proof (rf_handles _ _ _ _ _ _ Rf) as Ha. split.
  - assert (Hh : handles s' !! w = Some (sv_ino sw, vn_refcount sw, vn_opencount sw)) by (apply handles_lookup; by exists sw).
    destruct Ha as [(k & o & Hk & E)|(Hk & Hno & E)]; rewrite E, lookup_insert_eq in Hh; injection Hh as E1 E2 E3.
    + apply handles_lookup in Hk as (s0 & Hs0 & Ei & Er & _). pose proof (Hpos _ _ Hs0). split; [lia|]. intros Hu. by destruct (Hu w s0).
    + split; [|by rewrite E2]. intros _ x sx Hx. apply (Hno x (sv_ino sx) (vn_refcount sx) (vn_opencount sx)). apply handles_lookup. by exists sx.
  - eapply release_acquired; [done|]. intros j k o (s0 & Hs0 & _ & <- & _)%handles_lookup. by eapply Hpos.
Qed.

(** A file is removed when neither a name nor the kernel refers to it. *)
Lemma remove_name_ok R I m s v sv name :
  mounted cur R I m s → root_vnode v s sv →
  ∃ r s', sfs_remove cur v name s = Done (r, s') ∧ handles s' = handles s ∧
    match m !! name with
    | None => r = ENOENT ∧ ends R I m I s s'
    | Some ino => r = 0 ∧ ∃ I', (links (delete name m) ino = 0 ∧ unloaded s ino ∧ I' = I ∖ {[ino]} ∨ (0 < links (delete name m) ino ∨ ¬ unloaded s ino) ∧ I' = I) ∧
        ends R I' (delete name m) I' s s'
    end.
Proof.
  intros [H0 H] Hroot. apply run_locked; [done|]. unfold sfs_remove.
  pose proof (lookonce_ok cur R I m _ (inside s) v sv name H Hroot (named_linked m)) as L. destruct (m !! name) as [ino|] eqn:Hn.
  2: { destruct L as (s1 & E & H1 & Q & Hvn). exists ENOENT, s1. split; [by kcall E|]. split; [apply Q|].
    split; [unfold handles; cbn; by rewrite Hvn|]. split; [done|]. apply ends_intro; [done|done|by apply quiet_kept|apply Q]. }
  destruct L as (w & slot & s1 & E & H1 & Rf & Hroot1 & Hwv & Hnm). kcall E. pose proof (rf_quiet _ _ _ _ _ _ Rf) as Q.
  destruct (unlink_entry_ok R I m _ s1 v sv slot name ino H1 Hroot1 Hnm) as (s2 & E2 & S & H2). kcall E2. cbn [Z.eqb].
  destruct (rf_vnode _ _ _ _ _ _ Rf) as (sw & Hw & <- & Hop). destruct (fy_entries _ _ _ _ _ _ H name _ Hn) as [HI Hne].
  pose proof (ds_others _ _ _ _ S w Hwv) as Hw2. rewrite Hw in Hw2.
  destruct (drop_name R I m s2 w sw name H2 Hn Hw2 Hne Hop) as (Hlp & s3 & s4 & I' & E3 & E4 & H4 & K4 & D4 & Hh4 & HI').
  destruct (referenced_new I w (sv_ino sw) (inside s) s1 sw Rf Hw) as [Hnew Hrel].
  { intros x sx Hx. apply (inv_loaded _ _ _ _ (fy_inv _ _ _ _ _ _ H) x sx Hx). }
  exists 0, s4. split.
  { rewrite step_bind. kcall (getvn_ok w s2 sw Hw2). rewrite step_bind, step_assert by (by apply Z.ltb_lt). kcall E3. by kcall E4. }
  assert (Hd : fs_depth s4 = fs_depth s + 1) by (rewrite D4, (ds_depth _ _ _ _ S); apply Q).
  split; [done|]. split; [exact (eq_trans Hh4 (eq_trans (f_equal (release w) (ds_handles _ _ _ _ S)) Hrel))|].
  split; [done|]. exists I'. split.
  - pose proof (links_bound _ _ _ _ _ _ (sv_ino sw) H4). case_decide as Hc; [left; split_and!; [apply Hc|apply Hnew, Hc|done]|right]. split; [|done].
    destruct (decide (links (delete name m) (sv_ino sw) = 0)) as [Hz|]; [right|left; lia]. intros Hu. apply Hc. split; [done|]. by apply Hnew.
  - apply ends_intro; [done|done| |done]. eapply kept_trans; [|done]. eapply kept_sub.
    2: { eapply kept_trans; [by apply quiet_kept|apply S]. }
    rewrite HI'. case_decide; [|done]. by apply subseteq_difference_l.
Qed.

(** ** New files *)

Lemma concat_replicate {A} (x : A) k n : concat (replicate n (replicate k x)) = replicate (n * k) x.
Proof. induction n as [|n IH]; [done|]. cbn [replicate concat]. rewrite IH. cbn [Nat.mul]. by rewrite replicate_add. Qed.
Lemma new_contents s ino : contents cur s (vn new_inode ino) = replicate (Z.to_nat MAXSIZE) 0.
Proof.
  unfold contents, fblocks, blocks. change (sfi_direct (sv_i (vn new_inode ino))) with (replicate 15 0).
  change (idwords cur s (vn new_inode ino)) with (replicate 128 0). rewrite <- replicate_add, fmap_replicate.
  change (holds cur s 0) with (replicate 512 0). apply concat_replicate.
Qed.

Definition creat_error (e : Z) name : Prop := (e = ENAMETOOLONG ∧ (60 ≤ length name)%nat) ∨ e = ENOSPC ∨ e = EFBIG.
Lemma link_creat_error e name m s : m !! name = None → link_error e name m s → creat_error e name.
Proof.
  intros Hn [[_ [x Hx]]|[(-> & _ & Hl)|([[-> _]| ->] & _)]]; [congruence|by left|by right; left|by right; right].
Qed.

(** The name is free: a file of no bytes, or nothing but an error. *)
Lemma creat_new R I m s v sv name :
  fsys cur R I m s → root_vnode v s sv → m !! name = None → name_ok name →
  ∃ r s', ebind (sfs_makeobj SFS_TYPE_FILE) (λ newguy,
      sv <- getvn newguy ;;
      r <- sfs_dir_link cur v name (sv_ino sv) ;;
      match r with
      | inl e => vnode_decref newguy ;; kret (inl e)
      | inr _ => modvn newguy incr_link ;; kret (inr newguy)
      end) s = Done (r, s') ∧ fs_depth s' = fs_depth s ∧ kept I s s' ∧
    match r with
    | inl e => creat_error e name ∧ fsys cur R I m s' ∧ handles s' = handles s
    | inr w => ∃ ino, ino ∉ I ∧ handles s !! w = None ∧ (length name < 60)%nat ∧ handles s' = <[w := (ino, 1, 0)]> (handles s) ∧
        fsys cur R ({[ino]} ∪ I) (<[name := ino]> m) s' ∧ file_holds cur s' ino (replicate (Z.to_nat MAXSIZE) 0) 0
    end.
Proof.
  intros H Hroot Hn Hname. pose proof (fy_inv _ _ _ _ _ _ H) as Hinv.
  destruct (makeobj_ok cur R I s Hinv) as [[E _]|(ino & w & s1 & E & Hr & HnI & Hwn & Hvn & G & Hinv1)].
  { exists (inl ENOSPC), s. split; [by rewrite (ebind_inl _ _ _ _ _ E)|]. split_and!; try done; [apply kept_refl|by right; left]. }
  rewrite (ebind_inr _ _ _ _ _ E). destruct (fsy_grown cur R I m _ s s1 ino w H HnI Hwn Hvn G Hinv1) as [H1 K1].
  assert (Hw1 : fs_vn s1 !! w = Some (new_vnode ino)) by (rewrite Hvn; apply lookup_insert_eq).
  assert (Hh1 : handles s1 = <[w := (ino, 1, 0)]> (handles s)) by (unfold handles; by rewrite Hvn, fmap_insert).
  assert (Hwh : handles s !! w = None) by (unfold handles; by rewrite lookup_fmap, Hwn).
  assert (Hwv : w ≠ v) by (intros ->; destruct Hroot; congruence).
  assert (Hroot1 : root_vnode v s1 sv) by (destruct Hroot; split; [rewrite Hvn; by rewrite lookup_insert_ne|done]).
  assert (Hne : ino ≠ ROOT) by (intros ->; by apply HnI, H).
  assert (Hnone : ∀ n, m !! n ≠ Some ino) by (intros n Hx; apply HnI; by eapply H).
  assert (Hl0 : links m ino = 0) by (by apply links_zero).
  assert (HI1 : ino ∈ {[ino]} ∪ I) by (by apply elem_of_union_l, elem_of_singleton).
  kcall (getvn_ok w s1 _ Hw1). cbn [sv_ino new_vnode].
  destruct (link_ok _ _ _ _ s1 v sv name ino H1 Hroot1 Hname HI1 Hne) as (r & s2 & E2 & S & Hr2).
  { pose proof (ok_small _ _ (inv_ok _ _ _ _ Hinv)). lia. }
  kcall E2. pose proof (ds_others _ _ _ _ S w Hwv) as Hw2. rewrite Hw1 in Hw2.
  assert (K2 : kept I s s2) by (eapply kept_trans; [exact K1|eapply kept_sub; [|apply S]; apply union_subseteq_r]).
  assert (D2 : fs_depth s2 = fs_depth s) by (rewrite (ds_depth _ _ _ _ S); apply G).
  pose proof (ds_handles _ _ _ _ S) as Hh2. destruct r as [e|slot].
  - destruct Hr2 as [H2 Hle].
    destruct (fsy_decref cur _ _ _ _ s2 w _ H2 Hw2 Hne) as (s3 & I' & E3 & H3 & K3 & D3 & Hh3 & _ & HI'); [done|done|].
    rewrite decide_True in HI' by (cbn; by rewrite decide_True).
    assert (I' = I) as -> by (rewrite HI'; cbn; set_solver).
    kcall E3. exists (inl e), s3. split; [done|]. split; [congruence|]. split; [by eapply kept_trans|].
    split; [by eapply link_creat_error|]. split.
    + eapply fsy_ext; [|exact H3]. intros j Hj _. cbv beta. rewrite decide_False; [done|]. by intros ->.
    + rewrite Hh3, Hh2, Hh1. unfold release. rewrite lookup_insert_eq. by apply delete_insert_id.
  - destruct Hr2 as (_ & Hlen & H2 & _). kcall (modvn_ok w incr_link s2 _ Hw2).
    destruct (relink_ok _ _ _ _ s2 w (new_vnode ino) (incr_link (new_vnode ino)) 1 H2 Hw2 Hne) as (H3 & K3 & Hh3); [lia|done|..].
    { intros j Hj. cbn in Hj. rewrite decide_False, links_insert, decide_False by done. lia. }
    { cbn. rewrite links_insert, decide_True by done. lia. }
    eexists (inr w), _. split; [reflexivity|]. split; [done|]. split; [eapply kept_trans; [done|]; eapply kept_sub; [|done]; apply union_subseteq_r|].
    exists ino. split_and!; try done; [congruence|]. apply K3; [done|done|]. apply (ds_kept _ _ _ _ S); [done|done|].
    exists new_inode. split; [exact (inode_is_loaded cur _ _ _ Hw1)|]. split; [apply new_contents|done].
Qed.

Lemma creat_ok R I m s v sv name excl :
  mounted cur R I m s → root_vnode v s sv → name_ok name →
  ∃ r s', sfs_creat cur v name excl s = Done (r, s') ∧
    match m !! name with
    | Some ino => ends R I m I s s' ∧
        if excl then r = inl EEXIST ∧ handles s' = handles s else ∃ w, r = inr w ∧ acquired (handles s) w ino (handles s')
    | None =>
        match r with
        | inl e => creat_error e name ∧ ends R I m I s s' ∧ handles s' = handles s
        | inr w => ∃ ino, ino ∉ I ∧ handles s !! w = None ∧ (length name < 60)%nat ∧ handles s' = <[w := (ino, 1, 0)]> (handles s) ∧
            ends R ({[ino]} ∪ I) (<[name := ino]> m) I s s' ∧ file_holds cur s' ino (replicate (Z.to_nat MAXSIZE) 0) 0
        end
    end.
Proof.
  intros [H0 H] Hroot Hname. apply run_locked; [done|].
  destruct (root_facts _ _ _ _ _ _ _ _ H Hroot) as (Hrd & Hd & Hm & _).
  destruct (findname_ok cur v _ sv name m Hrd Hd Hm) as (found & empty & d' & E & D1 & Hf & _).
  destruct (quiet_dev cur R I _ d' (fy_inv _ _ _ _ _ _ H) D1) as [Q1 Hinv1].
  assert (H1 : fsys cur R I m (set_dev d' (inside s))) by (eapply fsy_quiet; [done..|]; intros; by left).
  rewrite (ebind_inr _ _ _ _ _ E). destruct found as [[slot ino]|]; cbn in Hf; rewrite <- Hf.
  - destruct excl.
    + eexists (inl EEXIST), _. split; [reflexivity|]. split; [done|]. split; [|done]. apply ends_intro; [done|done|by apply quiet_kept|done].
    + destruct (fy_entries _ _ _ _ _ _ H name ino (eq_sym Hf)) as [HI Hne].
      destruct (load_referenced cur R I m _ _ ino H1 HI) as (w & s2 & E2 & H2 & Rf). pose proof (rf_quiet _ _ _ _ _ _ Rf) as Q2.
      exists (inr w), s2. split; [done|]. split; [apply Q2|].
      split; [apply ends_intro; [done|done|by eapply kept_trans; apply quiet_kept|apply Q2]|]. exists w. split; [done|].
      exact (rf_handles _ _ _ _ _ _ Rf).
  - destruct (creat_new R I m _ v sv name H1 Hroot (eq_sym Hf) Hname) as (r & s2 & E2 & D2 & K2 & Hr).
    exists r, s2. split; [exact E2|]. split; [exact D2|]. assert (K : kept I (inside s) s2) by (eapply kept_trans; [by apply quiet_kept|done]).
    destruct r as [e|w].
    + destruct Hr as (Hce & H2 & Hh). split; [done|]. split; [by apply ends_intro|done].
    + destruct Hr as (ino & r1 & r2 & r3 & r4 & r5 & r6). exists ino. split_and!; try done; [by apply ends_intro|..].
Qed.

(** The second half of a renaming: the file has its new entry. *)
Lemma rename_tail R I m s v sv w sw n1 n2 slot1 slot2 :
  fsy R I (<[n2 := sv_ino sw]> m) (links m) s → root_vnode v s sv → fs_vn s !! w = Some sw → w ≠ v → sv_ino sw ≠ ROOT →
  m !! n1 = Some (sv_ino sw) → m !! n2 = None → (vn_refcount sw = 1 → vn_opencount sw = 0) → named s sv slot1 n1 (sv_ino sw) →
  ∃ s', (modvn w incr_link ;;
     result <- sfs_dir_unlink cur v (Z.of_nat slot1) ;;
     if negb (result =? 0) then
       result2 <- sfs_dir_unlink cur v slot2 ;;
       if negb (result2 =? 0) then kpanic
       else
         modvn w (λ sv, set_i (set_linkcount (u16 (sfi_linkcount (sv_i sv) - 1)) (sv_i sv)) sv) ;;
         vnode_decref w ;;
         kret result
     else
       gv <- getvn w ;;
       kassert (0 <? sfi_linkcount (sv_i gv)) ;;
       modvn w decr_link ;;
       vnode_decref w ;;
       kret 0) s = Done (0, s') ∧
    fsys cur R I (delete n1 (<[n2 := sv_ino sw]> m)) s' ∧ kept I s s' ∧ fs_depth s' = fs_depth s ∧ handles s' = release w (handles s).
Proof.
  intros H Hroot Hw Hwv Hne Hn1 Hn2 Hop Hnm. pose proof (links_bound _ _ _ _ _ _ (sv_ino sw) H) as Hb. rewrite links_insert, decide_True in Hb by done.
  destruct (inv_loaded _ _ _ _ (fy_inv _ _ _ _ _ _ H) w sw Hw) as (HI & _).
  destruct (fy_files _ _ _ _ _ _ H _ _ HI Hne (inode_is_loaded cur _ _ _ Hw)) as [_ Hlc]. pose proof (links_pos _ _ _ Hn1) as Hpos.
  assert (Hn12 : n1 ≠ n2) by congruence. set (m2 := <[n2 := sv_ino sw]> m) in *.
  assert (Hm2 : m2 !! n1 = Some (sv_ino sw)) by (unfold m2; by rewrite lookup_insert_ne).
  destruct (relink_ok R I m2 (links m) s w sw (incr_link sw) (links m (sv_ino sw) + 1)) as (H1 & K1 & Hh1); try done; [lia|..].
  { unfold incr_link. rewrite <- Hlc. unfold touch. rewrite u16_small by lia. done. }
  { intros j Hj. unfold m2. rewrite links_insert, decide_False by done. lia. }
  { unfold m2. rewrite links_insert, decide_True by done. lia. }
  kcall (modvn_ok w incr_link s sw Hw). set (s1 := set_vn (<[w:=incr_link sw]> (fs_vn s)) s) in *.
  assert (Hroot1 : root_vnode v s1 sv) by (destruct Hroot; split; [cbn; by rewrite lookup_insert_ne|done]).
  destruct (unlink_entry_ok R I m2 _ s1 v sv slot1 n1 (sv_ino sw) H1 Hroot1 Hnm) as (s2 & E2 & S & H2). kcall E2. cbn [Z.eqb negb].
  pose proof (ds_others _ _ _ _ S w Hwv) as Hw2. cbn in Hw2. rewrite lookup_insert_eq in Hw2.
  destruct (drop_name R I m2 s2 w (incr_link sw) n1 H2 Hm2 Hw2 Hne Hop) as (Hlp & s3 & s4 & I' & E3 & E4 & H4 & K4 & D4 & Hh4 & HI').
  kcall (getvn_ok w s2 _ Hw2). rewrite step_assert by (by apply Z.ltb_lt). kcall E3. kcall E4.
  assert (Hl : links (delete n1 m2) (sv_ino sw) ≠ 0) by (apply (named_linked _ n2); rewrite lookup_delete_ne by done; apply lookup_insert_eq).
  rewrite decide_False in HI' by tauto. subst I'. exists s4. split; [done|]. split; [done|].
  split; [eapply kept_trans; [exact K1|]; eapply kept_trans; [apply S|done]|]. split; [rewrite D4; apply S|].
  rewrite Hh4, (ds_handles _ _ _ _ S). by rewrite Hh1.
Qed.

(** A name becomes another one. *)
Lemma rename_ok R I m s v sv n1 n2 :
  mounted cur R I m s → root_vnode v s sv → name_ok n2 →
  ∃ r s', sfs_rename cur v n1 v n2 s = Done (r, s') ∧ handles s' = handles s ∧
    match m !! n1 with
    | None => r = ENOENT ∧ ends R I m I s s'
    | Some ino => (r = 0 ∧ m !! n2 = None ∧ (length n2 < 60)%nat ∧ ends R I (delete n1 (<[n2 := ino]> m)) I s s') ∨
        (link_error r n2 m s' ∧ ends R I m I s s')
    end.
Proof.
  intros [H0 H] Hroot Hname. apply run_locked; [done|]. rewrite step_assert by (by apply bool_decide_eq_true).
  kcall (getvn_ok v (inside s) sv (proj1 Hroot)). rewrite (proj2 Hroot), step_assert by done.
  pose proof (lookonce_ok cur R I m _ (inside s) v sv n1 H Hroot (named_linked m)) as L. destruct (m !! n1) as [ino|] eqn:Hn1.
  2: { destruct L as (s1 & E & H1 & Q & Hvn). exists ENOENT, s1. split; [by kcall E|]. split; [apply Q|].
    split; [unfold handles; cbn; by rewrite Hvn|]. split; [done|]. apply ends_intro; [done|done|by apply quiet_kept|apply Q]. }
  destruct L as (w & slot & s1 & E & H1 & Rf & Hroot1 & Hwv & Hnm). kcall E. pose proof (rf_quiet _ _ _ _ _ _ Rf) as Q.
  destruct (rf_vnode _ _ _ _ _ _ Rf) as (sw & Hw & Hwi & Hop). destruct (fy_entries _ _ _ _ _ _ H n1 _ Hn1) as [HI Hne]. rewrite <- Hwi in *.
  destruct (fy_files _ _ _ _ _ _ H1 _ _ HI Hne (inode_is_loaded cur _ _ _ Hw)) as [Hty Hlc].
  destruct (referenced_new I w (sv_ino sw) (inside s) s1 sw Rf Hw) as [_ Hrel].
  { intros x sx Hx. apply (inv_loaded _ _ _ _ (fy_inv _ _ _ _ _ _ H) x sx Hx). }
  kcall (getvn_ok w s1 sw Hw). rewrite Hty, step_assert by done.
  pose proof (inv_ready _ _ _ _ _ _ (fy_inv _ _ _ _ _ _ H1) Hw) as (Ho & Hf & _). destruct (fo_ino _ _ _ Hf) as (Hr & _).
  destruct (link_ok R I m _ s1 v sv n2 (sv_ino sw) H1 Hroot1 Hname HI Hne) as (r & s2 & E2 & S & Hr2).
  { pose proof (ok_small _ _ Ho). lia. }
  kcall E2. pose proof (ds_others _ _ _ _ S w Hwv) as Hw2. rewrite Hw in Hw2.
  assert (K2 : kept I (inside s) s2) by (eapply kept_trans; [by apply quiet_kept|apply S]).
  assert (D2 : fs_depth s2 = fs_depth s + 1) by (rewrite (ds_depth _ _ _ _ S); apply Q).
  pose proof (ds_handles _ _ _ _ S) as Hh2. destruct r as [e|slot2].
  - destruct Hr2 as [H2 Hle]. pose proof (named_linked _ _ _ Hn1) as Hl.
    destruct (fsy_decref cur _ _ _ _ s2 w _ H2 Hw2 Hne Hop) as (s3 & I' & E3 & H3 & K3 & D3 & Hh3 & Hfu & HI'); [done|].
    rewrite decide_False in HI' by tauto. subst I'. kcall E3. exists e, s3. split; [done|]. split; [congruence|].
    split; [exact (eq_trans Hh3 (eq_trans (f_equal (release w) Hh2) Hrel))|]. right. split; [|apply ends_intro; [done|done|by eapply kept_trans|congruence]].
    destruct Hle as [?|[?|[[[-> Hx]| ->] ?]]]; [by left|by right; left|right; right; split; [left; split; [done|by apply Hfu]|done]|right; right; split; [by right|done]].
  - destruct Hr2 as (Hn2 & Hlen & H2 & sv2 & Hroot2 & Hnm2).
    destruct (rename_tail R I m s2 v sv2 w sw n1 n2 slot slot2 H2 Hroot2 Hw2 Hwv Hne Hn1 Hn2 Hop (Hnm2 _ _ _ Hnm)) as (s3 & E3 & H3 & K3 & D3 & Hh3).
    exists 0, s3. split; [exact E3|]. split; [congruence|]. split; [exact (eq_trans Hh3 (eq_trans (f_equal (release w) Hh2) Hrel))|].
    left. split_and!; [done..|]. apply ends_intro; [done|done|by eapply kept_trans|congruence].
Qed.
End Names.
