(* ===== verification/SfsFiles.v ===== *)
(** * SFS: the operations on files and vnodes

    Reading, writing and truncating a file, and the counts of its vnode, seen
    from outside the big lock. *)

From stdpp Require Import base numbers list gmap sets.
From Stdlib Require Import ZArith Lia.
From S2P Require Import Prelude CString Bitmap Uio Device SfsDisk Sfs SfsBlocks SfsFile SfsIo SfsDir SfsInv SfsVnode SfsTrunc SfsReclaim SfsOps SfsNames.

Open Scope Z_scope.
Open Scope kernel_scope.

Section Files.
Context (cur : option nat) {D : Type} {DV : Device D} {BD : BlockDevice cur D}.
Abbreviation fs := (@sfs_fs D).
Abbreviation fsy := (fsy cur).
Abbreviation kept := (kept cur).
Abbreviation quiet := (quiet cur).
Abbreviation mounted := (mounted cur).
Abbreviation ends := (ends cur).
Abbreviation file_holds := (file_holds cur).
Implicit Types (s : fs) (sv sw : sfs_vnode) (v w : nat) (ino j : Z) (R I : gset Z) (m : gmap (list Z) Z) (lc : Z → Z) (u : uio) (d : list Z).
Abbreviation ROOT := SFS_ROOT_LOCATION.
Abbreviation inside s := (set_depth (fs_depth s + 1) s).

(** A file that is loaded has changed. *)
Lemma file_step R I m lc s w sw s' sw' :
  fsy R I m lc s → fs_vn s !! w = Some sw → sv_ino sw ≠ ROOT → vchange cur w s sw s' sw' → same_vnode sw sw' →
  fsy R I m lc s' ∧ kept (I ∖ {[sv_ino sw]}) s s' ∧ handles s' = handles s ∧ fs_depth s' = fs_depth s ∧
    file_holds s' (sv_ino sw) (contents cur s' sw') (sfi_size (sv_i sw')).
Proof.
  intros H Hw Hne C [e1 e2 e3 e4 e5 e6]. pose proof H as [a1 a2 a3 a4 a5 a6]. pose proof (inv_vchange _ _ _ _ _ _ _ _ a1 Hw C) as Hinv'.
  pose proof (change_others _ _ _ _ _ _ _ _ a1 Hw C) as O. destruct (inv_loaded _ _ _ _ a1 w sw Hw) as (HI & _).
  assert (Hw' : fs_vn s' !! w = Some sw') by (rewrite (vc_vn _ _ _ _ _ _ C); apply lookup_insert_eq).
  assert (Hoth : ∀ x, x ≠ w → fs_vn s' !! x = fs_vn s !! x) by (intros x Hx; rewrite (vc_vn _ _ _ _ _ _ C); by rewrite lookup_insert_ne).
  pose proof (inode_is_loaded cur _ _ _ Hw') as His'. rewrite e1 in His'.
  split_and!; [|by apply others_kept|apply (handles_same s s' w sw sw'); try done; unfold hd; congruence|apply O|by exists (sv_i sw')].
  split; try done.
  - intros i Hi. apply (er_inode _ _ _ _ _ O) in Hi; [|done|done]. destruct (a3 i Hi) as (Hd & Hm & Hl).
    pose proof (er_contents _ _ _ _ _ O _ _ a2 (not_eq_sym Hne) Hi) as Hc. split; [by eapply dir_ok_same|]. split; [by eapply dir_map_same|done].
  - intros j i Hj HjR Hi. destruct (decide (j = sv_ino sw)) as [->|Hjn].
    + rewrite (inode_is_fun _ _ _ _ _ _ _ Hinv' Hi His'), e5, e6. by apply (a5 (sv_ino sw) (sv_i sw)); [..|by eapply inode_is_loaded].
    + apply (er_inode _ _ _ _ _ O) in Hi; [|done|done]. by apply a5.
  - intros j Hj HjR Hu. apply a6; [done|done|]. intros x sx Hx E. destruct (decide (x = w)) as [->|Hxw].
    + apply (Hu w sw'); [done|]. congruence.
    + apply (Hu x sx); [by rewrite Hoth|done].
Qed.

Lemma holds_fun R I s w sw d z :
  sfs_inv cur R I s → fs_vn s !! w = Some sw → file_holds s (sv_ino sw) d z → d = contents cur s sw ∧ z = sfi_size (sv_i sw).
Proof.
  intros Hinv Hw (i & Hi & <- & <-). by rewrite (inode_is_fun _ _ _ _ _ _ _ Hinv Hi (inode_is_loaded cur _ _ _ Hw)).
Qed.

(** ** Reading and writing *)

Lemma read_ok R I m s w sw u d z :
  mounted R I m s → fs_vn s !! w = Some sw → sv_ino sw ≠ ROOT → file_holds s (sv_ino sw) d z → z ≤ MAXSIZE →
  is_read u = true → uio_fits cur (Z.to_nat (uio_resid u)) u → 0 ≤ uio_resid u →
  let n := Z.to_nat (Z.min (uio_resid u) (z - uio_offset u)) in
  ∃ u' s', sfs_read cur w u s = Done ((0, u'), s') ∧ ends R I m I s s' ∧ handles s' = handles s ∧
    uio_moved cur n (slice (Z.to_nat (uio_offset u)) n d) u u'.
Proof.
  intros [H0 H] Hw Hne Hh Hz Hr Hfit Hres n. pose proof (fy_inv _ _ _ _ _ _ H) as Hinv.
  destruct (holds_fun R I (inside s) w sw d z Hinv Hw Hh) as [-> ->].
  destruct (sfs_io_read cur w u (inside s) sw (inv_ready _ _ _ _ _ _ Hinv Hw)) as (u' & d' & E & D1 & M); try done.
  destruct (quiet_dev cur R I _ d' Hinv D1) as [Q1 Hinv1].
  assert (H1 : fsys cur R I m (set_dev d' (inside s))) by (eapply fsy_quiet; [done..|]; intros; by left).
  exists u', (set_depth (fs_depth s) (set_dev d' (inside s))). split.
  - unfold sfs_read. rewrite step_assert by done. by apply locked_run.
  - split; [apply ends_intro; [done|done|by apply quiet_kept|done]|]. done.
Qed.

Lemma write_ok R I m s w sw u d z :
  mounted R I m s → fs_vn s !! w = Some sw → sv_ino sw ≠ ROOT → file_holds s (sv_ino sw) d z →
  is_read u = false → uio_fits cur (Z.to_nat (uio_resid u)) u → 0 ≤ uio_resid u → uio_offset u + uio_resid u < 2 ^ 32 →
  ∃ k r u' s', sfs_write cur w u s = Done ((r, u'), s') ∧ ends R I m (I ∖ {[sv_ino sw]}) s s' ∧ handles s' = handles s ∧
    uio_moved cur k [] u u' ∧ short (uio_offset u) r k (Z.to_nat (uio_resid u)) ∧
    (r ≠ 0 → (r = ENOSPC ∧ full s') ∨ (r = EFBIG ∧ MAXSIZE ≤ uio_offset u')) ∧
    file_holds s' (sv_ino sw) (splice (Z.to_nat (uio_offset u)) (take k (concat (uio_iov u))) d) (Z.max z (uio_offset u + Z.of_nat k)).
Proof.
  intros [H0 H] Hw Hne Hh Hr Hfit Hres Hlim. pose proof (fy_inv _ _ _ _ _ _ H) as Hinv.
  destruct (holds_fun R I (inside s) w sw d z Hinv Hw Hh) as [-> ->]. pose proof (inv_ready _ _ _ _ _ _ Hinv Hw) as Hrd.
  destruct (sfs_io_write cur w u (inside s) sw Hrd Hr Hres Hfit Hlim) as (k & r & u' & s1 & sw1 & E & V & M & C & Z1 & Sh & Fl).
  destruct (inv_loaded _ _ _ _ Hinv w sw Hw) as (HI & Hrf & Hop & Hops). pose proof Hrd as (_ & Hf & _).
  destruct (file_step R I m _ (inside s) w sw s1 sw1 H Hw Hne) as (H1 & K1 & Hh1 & D1 & F1).
  { by apply vstep_vchange. }
  { apply V. }
  exists k, r, u', (set_depth (fs_depth s) s1). split.
  - unfold sfs_write. rewrite step_assert by (by rewrite Hr). by apply locked_run.
  - split; [by apply ends_intro|]. split; [done|]. split; [done|]. split; [done|]. split.
    + intros Hr0. destruct (Fl Hr0) as [(? & _ & ? & _)|?]; [by left|by right].
    + rewrite C, Z1 in F1. exact F1.
Qed.

(** ** Truncation *)

(** What is kept of the bytes: whole blocks of 512, the ones reached through
    the indirect block up to and including block [bl]. *)
Definition cut_block (bl : Z) (n : nat) : bool := if decide (n < 15)%nat then bl <=? Z.of_nat n else bl <? Z.of_nat n.
Definition cut_bytes (bl : Z) d : list Z := imap (λ i c, if cut_block bl (i / 512) then 0 else c) d.

Lemma concat_lookup (ls : list (list Z)) i :
  Forall (λ l, length l = 512%nat) ls → concat ls !! i = ls !! (i / 512)%nat ≫= λ l, l !! (i mod 512)%nat.
Proof.
  intros Hf. revert i. induction Hf as [|l ls Hl Hf IH]; intros i; [done|]. cbn [concat]. destruct (decide (i < 512)%nat).
  - rewrite lookup_app_l by lia. rewrite Nat.div_small, Nat.mod_small by lia. done.
  - rewrite lookup_app_r, Hl, IH by lia. destruct (Nat.le_exists_sub 512 i) as (k & -> & _); [lia|].
    replace (k + 512 - 512)%nat with k by lia. change (k + 512)%nat with (k + 1 * 512)%nat.
    rewrite Nat.div_add, Nat.Div0.mod_add by lia. by rewrite Nat.add_1_r.
Qed.

Lemma cut_contents v bl s sv s' sv' :
  fs_ok cur s → file_ok cur s sv → fs_ok cur s' → file_ok cur s' sv' → truncated cur v bl s sv s' sv' →
  contents cur s' sv' = cut_bytes bl (contents cur s sv).
Proof.
  intros Ho Hf Ho' Hf' Ht. destruct (fblocks_length cur s sv Ho Hf) as [Hl Hb]. destruct (fblocks_length cur s' sv' Ho' Hf') as [Hl' Hb'].
  apply list_eq. intros i. unfold cut_bytes. rewrite list_lookup_imap. unfold contents. rewrite !concat_lookup by done.
  destruct (decide (i / 512 < MAXBLOCKS)%nat) as [Hi|Hi].
  - rewrite (truncated_blocks cur v bl s sv s' sv') by done. fold (cut_block bl (i / 512)).
    destruct (lookup_lt_is_Some_2 (fblocks cur s sv) (i / 512)) as [b Eb]; [lia|]. rewrite Eb. pose proof (Forall_lookup_1 _ _ _ _ Hb Eb) as Hbl.
    cbn [mbind option_bind].
    destruct (lookup_lt_is_Some_2 b (i mod 512)) as [c Ec]; [cbv beta in Hbl; rewrite Hbl; by apply Nat.mod_upper_bound|]. rewrite Ec. cbn [fmap option_fmap option_map].
    destruct (cut_block bl (i / 512)); cbn [mbind option_bind]; [|done]. apply lookup_replicate_2. by apply Nat.mod_upper_bound.
  - apply Nat.nlt_ge in Hi. rewrite (lookup_ge_None_2 (fblocks cur s' sv')), (lookup_ge_None_2 (fblocks cur s sv)) by (by rewrite ?Hl, ?Hl'). done.
Qed.

Lemma truncate_file_ok R I m s w sw len d z :
  mounted R I m s → fs_vn s !! w = Some sw → sv_ino sw ≠ ROOT → file_holds s (sv_ino sw) d z → 0 ≤ len < 2 ^ 32 →
  ∃ s', sfs_truncate w len s = Done (0, s') ∧ ends R I m (I ∖ {[sv_ino sw]}) s s' ∧ handles s' = handles s ∧
    file_holds s' (sv_ino sw) (cut_bytes ((len + 511) / 512) d) len.
Proof.
  intros [H0 H] Hw Hne Hh Hlen. pose proof (fy_inv _ _ _ _ _ _ H) as Hinv.
  destruct (holds_fun R I (inside s) w sw d z Hinv Hw Hh) as [-> _]. pose proof (inv_ready _ _ _ _ _ _ Hinv Hw) as Hrd.
  destruct (truncate_body cur w len (inside s) sw Hrd Hlen) as (s1 & sw1 & E & T & Hz & Hd).
  destruct (inv_loaded _ _ _ _ Hinv w sw Hw) as (HI & Hrf & Hop & Hops). pose proof Hrd as (Ho & Hf & _).
  pose proof (truncated_vchange cur w _ _ _ _ _ Hf Hrf Hop Hops Hd T) as C.
  destruct (file_step R I m _ (inside s) w sw s1 sw1 H Hw Hne C) as (H1 & K1 & Hh1 & D1 & F1); [apply T|].
  exists (set_depth (fs_depth s) s1). split.
  - unfold sfs_truncate. rewrite div_up_u32 by done. by apply locked_run.
  - split; [by apply ends_intro|]. split; [done|]. rewrite Hz in F1. rewrite (cut_contents w ((len + 511) / 512) (inside s) sw s1 sw1) in F1; [exact F1|done|done|apply C|apply C|done].
Qed.

(** ** Vnodes and their counts *)

Lemma getroot_ok R I m s :
  mounted R I m s → ∃ w s', sfs_getroot s = Done (w, s') ∧ ends R I m I s s' ∧ acquired (handles s) w ROOT (handles s').
Proof.
  intros [H0 H]. unfold sfs_getroot. apply run_locked; [done|].
  destruct (load_referenced cur R I m _ _ ROOT H (fy_root _ _ _ _ _ _ H)) as (w & s1 & E & H1 & Rf). pose proof (rf_quiet _ _ _ _ _ _ Rf) as Q.
  exists w, s1. split; [by kcall E|]. split; [apply Q|]. split; [apply ends_intro; [done|done|by apply quiet_kept|apply Q]|].
  exact (rf_handles _ _ _ _ _ _ Rf).
Qed.

(** Other counts in a vnode that stays. *)
Lemma recount R I m s w sw sw' :
  fsys cur R I m s → fs_vn s !! w = Some sw → sv_i sw' = sv_i sw → sv_ino sw' = sv_ino sw → vn_ops sw' = vn_ops sw →
  sv_dirty sw' = sv_dirty sw → 0 < vn_refcount sw' → 0 ≤ vn_opencount sw' →
  let s' := set_vn (<[w := sw']> (fs_vn s)) s in fsys cur R I m s' ∧ quiet I s s' ∧ handles s' = <[w := hd sw']> (handles s).
Proof.
  intros H Hw e1 e2 e3 e4 Hr Ho s'. destruct (counts_ok cur R I w s sw sw' (fy_inv _ _ _ _ _ _ H) Hw e1 e2 e3 e4 Hr Ho) as [Q Hinv'].
  split; [|split; [done|unfold handles; cbn; by rewrite fmap_insert]].
  eapply fsy_quiet; [exact H|done|done|]. intros j Hj HjR Hu. left. intros x sx Hx E. destruct (decide (x = w)) as [->|Hxw].
  - apply (Hu w sw'); [apply lookup_insert_eq|]. congruence.
  - apply (Hu x sx); [cbn; by rewrite lookup_insert_ne|done].
Qed.

Lemma handle_vnode s w j k o : handles s !! w = Some (j, k, o) → ∃ sw, fs_vn s !! w = Some sw ∧ hd sw = (j, k, o).
Proof. intros (sw & Hw & <- & <- & <-)%handles_lookup. by exists sw. Qed.

Lemma incref_run R I m s w j k o :
  mounted R I m s → handles s !! w = Some (j, k, o) →
  ∃ a s', vnode_incref w s = Done (a, s') ∧ ends R I m I s s' ∧ handles s' = <[w := (j, k + 1, o)]> (handles s).
Proof.
  intros [H0 H] (sw & Hw & [= <- <- <-])%handle_vnode. unfold vnode_incref. apply run_locked; [done|].
  destruct (inv_loaded _ _ _ _ (fy_inv _ _ _ _ _ _ H) w sw Hw) as (_ & Hr & Ho & _).
  destruct (recount R I m (inside s) w sw (set_refcount (vn_refcount sw + 1) sw) H Hw) as (H1 & Q & Hh); try done; [cbn; lia|].
  eexists tt, _. split; [exact (modvn_ok w (λ sv, set_refcount (vn_refcount sv + 1) sv) (inside s) sw Hw)|]. split; [done|].
  split; [apply ends_intro; [done|done|by apply quiet_kept|done]|exact Hh].
Qed.

Lemma incopen_run R I m s w j k o :
  mounted R I m s → handles s !! w = Some (j, k, o) →
  ∃ a s', vnode_incopen w s = Done (a, s') ∧ ends R I m I s s' ∧ handles s' = <[w := (j, k, o + 1)]> (handles s).
Proof.
  intros [H0 H] (sw & Hw & [= <- <- <-])%handle_vnode. unfold vnode_incopen. apply run_locked; [done|].
  destruct (inv_loaded _ _ _ _ (fy_inv _ _ _ _ _ _ H) w sw Hw) as (_ & Hr & Ho & _).
  destruct (recount R I m (inside s) w sw (set_opencount (vn_opencount sw + 1) sw) H Hw) as (H1 & Q & Hh); try done; [cbn; lia|].
  eexists tt, _. split; [exact (modvn_ok w (λ sv, set_opencount (vn_opencount sv + 1) sv) (inside s) sw Hw)|]. split; [done|].
  split; [apply ends_intro; [done|done|by apply quiet_kept|done]|exact Hh].
Qed.

(** Writing the inode back changes nothing that can be seen. *)
Lemma sync_run R I m s w sw :
  fsys cur R I m s → fs_vn s !! w = Some sw →
  ∃ s', sfs_sync_inode w s = Done (0, s') ∧ fsys cur R I m s' ∧ quiet I s s' ∧ handles s' = handles s ∧
    fs_vn s' = <[w := set_dirty false sw]> (fs_vn s).
Proof.
  intros H Hw. destruct (sync_inode_ok cur R I w s sw (fy_inv _ _ _ _ _ _ H) Hw) as (s' & E & Hvn & _ & Q & Hinv' & _).
  exists s'. split; [done|]. assert (Hw' : fs_vn s' !! w = Some (set_dirty false sw)) by (rewrite Hvn; apply lookup_insert_eq).
  split; [|split; [done|split; [|done]]].
  - eapply fsy_quiet; [exact H|done|done|]. intros j Hj HjR Hu. left. intros x sx Hx. destruct (decide (x = w)) as [->|Hxw].
    + assert (sx = sw) as -> by congruence. exact (Hu w _ Hw').
    + apply (Hu x). rewrite Hvn. by rewrite lookup_insert_ne.
  - apply (handles_same s s' w sw (set_dirty false sw)); try done. intros x Hx. rewrite Hvn. by rewrite lookup_insert_ne.
Qed.
Lemma fsync_run R I m s w sw :
  mounted R I m s → fs_vn s !! w = Some sw →
  ∃ s', sfs_fsync w s = Done (0, s') ∧ ends R I m I s s' ∧ handles s' = handles s ∧ fs_vn s' = <[w := set_dirty false sw]> (fs_vn s).
Proof.
  intros [H0 H] Hw. destruct (sync_run R I m (inside s) w sw H Hw) as (s1 & E & H1 & Q & Hh).
  exists (set_depth (fs_depth s) s1). split; [by apply locked_run; [|apply Q|]|]. split; [apply ends_intro; [done|done|by apply quiet_kept|apply Q]|exact Hh].
Qed.
Lemma mounted_inside R I m s : mounted R I m s → mounted R I m (inside s).
Proof. intros [H0 H]. split; [cbn; lia|]. apply (fsy_depth cur R I m (links m) (inside s) (fs_depth s + 1 + 1) H). lia. Qed.
Lemma dispatch R I m s w sw {A} (file dir : K fs A) :
  mounted R I m s → fs_vn s !! w = Some sw → vop w file dir s = (match vn_ops sw with sfs_fileops => file | sfs_dirops => dir end) s.
Proof.
  intros [H0 H] Hw. destruct (inv_loaded _ _ _ _ (fy_inv _ _ _ _ _ _ H) w sw Hw) as (_ & Hr & Ho & _). by apply vop_ok.
Qed.
Lemma vop_fsync_run R I m s w sw :
  mounted R I m s → fs_vn s !! w = Some sw →
  ∃ s', vop_fsync w s = Done (0, s') ∧ ends R I m I s s' ∧ handles s' = handles s ∧ fs_vn s' = <[w := set_dirty false sw]> (fs_vn s).
Proof.
  intros H Hw. destruct (fsync_run R I m s w sw H Hw) as (s' & E & H'). exists s'. split; [|done].
  unfold vop_fsync. rewrite (dispatch R I m s w sw) by done. by destruct (vn_ops sw).
Qed.

Lemma decopen_run R I m s w j k o :
  mounted R I m s → handles s !! w = Some (j, k, o) → 0 < o →
  ∃ a s', vnode_decopen w s = Done (a, s') ∧ ends R I m I s s' ∧ handles s' = <[w := (j, k, o - 1)]> (handles s).
Proof.
  intros Hmt (sw & Hw & [= <- <- <-])%handle_vnode Hpos. pose proof Hmt as [H0 H]. unfold vnode_decopen. apply run_locked; [done|].
  destruct (inv_loaded _ _ _ _ (fy_inv _ _ _ _ _ _ H) w sw Hw) as (_ & Hr & _ & _). kcall (getvn_ok w (inside s) sw Hw).
  rewrite step_assert by (by apply Z.ltb_lt). set (sw1 := set_opencount (vn_opencount sw - 1) sw).
  destruct (recount R I m (inside s) w sw sw1 H Hw) as (H1 & Q & Hh); try done; [cbn; lia|].
  kcall (modvn_ok w (λ sv, set_opencount (vn_opencount sv - 1) sv) (inside s) sw Hw). fold sw1.
  set (s1 := set_vn (<[w := sw1]> (fs_vn (inside s))) (inside s)) in *.
  assert (Hm1 : mounted R I m s1) by (split; [cbn; lia|]; apply (fsy_depth cur R I m (links m) s1 (fs_depth s + 1 + 1) H1); lia).
  assert (Hw1 : fs_vn s1 !! w = Some sw1) by apply lookup_insert_eq.
  destruct (Z.ltb_spec 0 (vn_opencount sw - 1)) as [Hlt|Hlt].
  - eexists tt, s1. split; [done|]. split; [done|]. split; [apply ends_intro; [done|done|by apply quiet_kept|done]|exact Hh].
  - destruct (vop_fsync_run R I m s1 w sw1 Hm1 Hw1) as (s2 & E2 & ([_ H2] & K2 & D2) & Hh2 & _).
    assert (E3 : vop_close w s1 = Done (0, s2)).
    { unfold vop_close, sfs_close. rewrite (dispatch R I m s1 w sw1) by done. by destruct (vn_ops sw1). }
    kcall E3. eexists tt, s2. split; [done|]. split; [exact D2|]. split; [|exact (eq_trans Hh2 Hh)].
    apply ends_intro; [done| |eapply kept_trans; [by apply quiet_kept|exact K2]|exact D2].
    pose proof (fsy_depth cur R I m (links m) _ (fs_depth s + 1) H2 ltac:(lia)) as H3.
    assert (Es : set_depth (fs_depth s2) s2 = s2) by (by destruct s2). rewrite <- Es, D2. exact H3.
Qed.

Lemma root_dereferenced R I m s s' w sw :
  fsys cur R I m s → root_vnode w s sw → dereferenced cur R I w sw s s' →
  fsys cur R I m s' ∧ kept I s s' ∧ fs_depth s' = fs_depth s ∧ handles s' = release w (handles s).
Proof.
  intros H Hroot Hc. destruct (root_facts _ _ _ _ _ _ _ _ H Hroot) as (_ & _ & _ & Hl). destruct Hroot as [Hw Hi].
  assert (Hh : handles s !! w = Some (hd sw)) by (unfold handles; by rewrite lookup_fmap, Hw).
  assert (Hq : quiet I s s' → sfs_inv cur R I s' → (∀ x, x ≠ w → fs_vn s' !! x = fs_vn s !! x) → fsys cur R I m s' ∧ kept I s s' ∧ fs_depth s' = fs_depth s).
  { intros Q Hinv' Ho. split; [|split; [by apply quiet_kept|apply Q]]. eapply fsy_quiet; [exact H|done|done|].
    intros j Hj HjR Hu. left. intros x sx Hx E. destruct (decide (x = w)) as [->|Hxw]; [congruence|]. apply (Hu x sx); [by rewrite Ho|done]. }
  unfold release. rewrite Hh. cbn. destruct Hc as [(h1 & h2 & Q & h4)|[(h1 & h2 & h3 & Q & h4)|(h1 & h2 & h3 & _)]]; [..|done].
  - destruct Hq as (q1 & q2 & q3); [done|done|intros x Hx; rewrite h2; by rewrite lookup_insert_ne|]. split_and!; try done.
    rewrite (proj2 (Z.eqb_neq _ _)) by lia. unfold handles. by rewrite h2, fmap_insert.
  - destruct Hq as (q1 & q2 & q3); [done|done|intros x Hx; rewrite h2; by rewrite lookup_delete_ne|]. split_and!; try done.
    rewrite h1. unfold handles. by rewrite h2, fmap_delete.
Qed.

Lemma decref_run R I m s w j k o :
  mounted R I m s → handles s !! w = Some (j, k, o) → (k = 1 → o = 0) →
  let I' := if decide (j ≠ ROOT ∧ links m j = 0 ∧ k = 1) then I ∖ {[j]} else I in
  ∃ a s', vnode_decref w s = Done (a, s') ∧ ends R I' m I' s s' ∧ handles s' = release w (handles s).
Proof.
  intros [H0 H] (sw & Hw & [= <- <- <-])%handle_vnode Hop I'. apply run_locked; [done|].
  destruct (decide (sv_ino sw = ROOT)) as [Hr|Hr].
  - assert (Hroot : root_vnode w (inside s) sw) by done. destruct (root_facts _ _ _ _ _ _ _ _ H Hroot) as (_ & _ & _ & Hl).
    destruct (decref_body cur R I w (inside s) sw (fy_inv _ _ _ _ _ _ H) Hw) as (s1 & E & Hd); [intros ?; by split; [apply Hop|]|].
    destruct (root_dereferenced R I m (inside s) s1 w sw H Hroot Hd) as (H1 & K1 & D1 & Hh). exists tt, s1. split; [exact E|].
    split; [done|]. split; [|done]. unfold I'. rewrite decide_False by tauto. by apply ends_intro.
  - destruct (decref_body cur R I w (inside s) sw (fy_inv _ _ _ _ _ _ H) Hw) as (s1 & E & Hd).
    { intros ?. split; [by apply Hop|]. intros _. by eapply file_ops. }
    destruct (fsy_dereferenced cur R I m _ (inside s) s1 w sw H Hw Hr) as (J & H1 & K1 & D1 & Hh & _ & HJ); [intros Hz n; by apply links_none|done|].
    exists tt, s1. split; [exact E|]. split; [done|]. split; [|done].
    assert (I' = J) as ->; [|by apply ends_intro]. rewrite HJ. unfold I'.
    destruct (decide (links m (sv_ino sw) = 0 ∧ vn_refcount sw = 1)); [by rewrite decide_True|rewrite decide_False; tauto].
Qed.
End Files.
