(* ===== verification/SfsSpec.v ===== *)
(** * SFS: the file system as a map of names and a map of files

    The abstract state is what a user of the vnode layer can see: the names of
    the root directory, the bytes and size of each file, and the references the
    kernel holds.  [step] says what each operation may do to it; every run of
    the code is such a step. *)

From stdpp Require Import base numbers list gmap sets.
From Stdlib Require Import ZArith Lia.
From S2P Require Import Prelude CString Bitmap Uio Device SfsDisk Sfs SfsBlocks SfsFile SfsIo SfsDir SfsInv SfsVnode SfsTrunc SfsReclaim SfsOps SfsNames SfsFiles.

Open Scope Z_scope.
Open Scope kernel_scope.

Lemma kbind_eq {S A B} (c c' : K S A) (f : A → K S B) (s : S) : c s = c' s → kbind c f s = kbind c' f s.
Proof. unfold kbind. by intros ->. Qed.

Lemma union_swap (X Y W : gset Z) : X ∪ (Y ∪ W) = Y ∪ (X ∪ W).
Proof. set_solver. Qed.

(** ** The abstract state *)

Record afs := mk_afs {
  a_names : gmap (list Z) Z;
  a_files : gmap Z (list Z * Z);
  a_handles : gmap nat (Z * Z * Z)
}.

Definition put_file (ino : Z) (d : list Z) (z : Z) (a : afs) : afs := mk_afs (a_names a) (<[ino := (d, z)]> (a_files a)) (a_handles a).
Definition with_names m (a : afs) : afs := mk_afs m (a_files a) (a_handles a).
Definition with_handles h (a : afs) : afs := mk_afs (a_names a) (a_files a) h.
Definition drop_file (ino : Z) (a : afs) : afs := mk_afs (a_names a) (delete ino (a_files a)) (a_handles a).

Definition refers (a : afs) (w : nat) (ino : Z) : Prop := ∃ k o, a_handles a !! w = Some (ino, k, o).
Definition held (a : afs) (ino : Z) : Prop := ∃ w, refers a w ino.
(** A file goes when the last name and the last reference to it are gone. *)
Definition gone (a : afs) (ino : Z) : Prop := (∀ name, a_names a !! name ≠ Some ino) ∧ ¬ held a ino.

(** ** Operations *)

Inductive op :=
  | op_getroot
  | op_lookup (v : nat) (name : list Z)
  | op_creat (v : nat) (name : list Z) (excl : bool)
  | op_link (v : nat) (name : list Z) (w : nat)
  | op_remove (v : nat) (name : list Z)
  | op_rename (v : nat) (n1 n2 : list Z)
  | op_read (w : nat) (u : uio)
  | op_write (w : nat) (u : uio)
  | op_truncate (w : nat) (len : Z)
  | op_fsync (w : nat)
  | op_incref (w : nat)
  | op_decref (w : nat)
  | op_incopen (w : nat)
  | op_decopen (w : nat).

Inductive ret :=
  | ret_vn (r : Z + nat)
  | ret_z (r : Z)
  | ret_io (r : Z) (u : uio)
  | ret_unit.

Section Spec.
Context (cur : option nat).
Abbreviation ROOT := SFS_ROOT_LOCATION.

(** Why a name cannot be entered. *)
Definition name_error (e : Z) (name : list Z) (a : afs) : Prop :=
  match a_names a !! name with
  | Some _ => e = EEXIST
  | None => (e = ENAMETOOLONG ∧ (60 ≤ length name)%nat) ∨ ((length name < 60)%nat ∧ (e = ENOSPC ∨ e = EFBIG))
  end.

Inductive step (a : afs) : op → ret → afs → Prop :=
  | s_getroot w h : acquired (a_handles a) w ROOT h → step a op_getroot (ret_vn (inr w)) (with_handles h a)
  | s_lookup v name w ino h :
      refers a v ROOT → a_names a !! name = Some ino → acquired (a_handles a) w ino h →
      step a (op_lookup v name) (ret_vn (inr w)) (with_handles h a)
  | s_lookup_none v name :
      refers a v ROOT → a_names a !! name = None → step a (op_lookup v name) (ret_vn (inl ENOENT)) a
  | s_lookup_file v name ino : refers a v ino → ino ≠ ROOT → step a (op_lookup v name) (ret_vn (inl ENOTDIR)) a
  | s_creat v name excl w ino :
      refers a v ROOT → a_names a !! name = None → (length name < 60)%nat → ino ≠ ROOT → a_files a !! ino = None → a_handles a !! w = None →
      step a (op_creat v name excl) (ret_vn (inr w))
        (mk_afs (<[name := ino]> (a_names a)) (<[ino := (replicate (Z.to_nat MAXSIZE) 0, 0)]> (a_files a)) (<[w := (ino, 1, 0)]> (a_handles a)))
  | s_creat_open v name w ino h :
      refers a v ROOT → a_names a !! name = Some ino → acquired (a_handles a) w ino h →
      step a (op_creat v name false) (ret_vn (inr w)) (with_handles h a)
  | s_creat_exists v name :
      refers a v ROOT → is_Some (a_names a !! name) → step a (op_creat v name true) (ret_vn (inl EEXIST)) a
  | s_creat_error v name excl e :
      refers a v ROOT → a_names a !! name = None → creat_error e name → step a (op_creat v name excl) (ret_vn (inl e)) a
  | s_creat_file v name excl ino : refers a v ino → ino ≠ ROOT → step a (op_creat v name excl) (ret_vn (inl ENOTDIR)) a
  | s_link v name w ino :
      refers a v ROOT → refers a w ino → a_names a !! name = None → (length name < 60)%nat →
      step a (op_link v name w) (ret_z 0) (with_names (<[name := ino]> (a_names a)) a)
  | s_link_error v name w e : refers a v ROOT → name_error e name a → step a (op_link v name w) (ret_z e) a
  | s_link_file v name w ino : refers a v ino → ino ≠ ROOT → step a (op_link v name w) (ret_z ENOTDIR) a
  | s_remove v name ino :
      let a' := with_names (delete name (a_names a)) a in
      refers a v ROOT → a_names a !! name = Some ino → ¬ gone a' ino → step a (op_remove v name) (ret_z 0) a'
  | s_remove_last v name ino :
      let a' := with_names (delete name (a_names a)) a in
      refers a v ROOT → a_names a !! name = Some ino → gone a' ino → step a (op_remove v name) (ret_z 0) (drop_file ino a')
  | s_remove_none v name : refers a v ROOT → a_names a !! name = None → step a (op_remove v name) (ret_z ENOENT) a
  | s_remove_file v name ino : refers a v ino → ino ≠ ROOT → step a (op_remove v name) (ret_z ENOTDIR) a
  | s_rename v n1 n2 ino :
      refers a v ROOT → a_names a !! n1 = Some ino → a_names a !! n2 = None → (length n2 < 60)%nat →
      step a (op_rename v n1 n2) (ret_z 0) (with_names (delete n1 (<[n2 := ino]> (a_names a))) a)
  | s_rename_none v n1 n2 : refers a v ROOT → a_names a !! n1 = None → step a (op_rename v n1 n2) (ret_z ENOENT) a
  | s_rename_error v n1 n2 e : refers a v ROOT → is_Some (a_names a !! n1) → name_error e n2 a → step a (op_rename v n1 n2) (ret_z e) a
  | s_rename_file v n1 n2 ino : refers a v ino → ino ≠ ROOT → step a (op_rename v n1 n2) (ret_z ENOTDIR) a
  | s_read w u u' ino d z :
      refers a w ino → a_files a !! ino = Some (d, z) →
      (let n := Z.to_nat (Z.min (uio_resid u) (z - uio_offset u)) in
       uio_moved cur n (slice (Z.to_nat (uio_offset u)) n d) u u') →
      step a (op_read w u) (ret_io 0 u') a
  | s_read_dir w u : refers a w ROOT → step a (op_read w u) (ret_io EISDIR u) a
  | s_write w u u' ino d z k r :
      refers a w ino → a_files a !! ino = Some (d, z) → uio_moved cur k [] u u' → short (uio_offset u) r k (Z.to_nat (uio_resid u)) →
      (r = 0 ∨ r = ENOSPC ∨ (r = EFBIG ∧ MAXSIZE ≤ uio_offset u')) →
      step a (op_write w u) (ret_io r u')
        (put_file ino (splice (Z.to_nat (uio_offset u)) (take k (concat (uio_iov u))) d) (Z.max z (uio_offset u + Z.of_nat k)) a)
  | s_write_dir w u : refers a w ROOT → step a (op_write w u) (ret_io EISDIR u) a
  | s_truncate w len ino d z :
      refers a w ino → a_files a !! ino = Some (d, z) →
      step a (op_truncate w len) (ret_z 0) (put_file ino (cut_bytes ((len + 511) / 512) d) len a)
  | s_truncate_dir w len : refers a w ROOT → step a (op_truncate w len) (ret_z EISDIR) a
  | s_fsync w ino : refers a w ino → step a (op_fsync w) (ret_z 0) a
  | s_incref w ino k o :
      a_handles a !! w = Some (ino, k, o) → step a (op_incref w) ret_unit (with_handles (<[w := (ino, k + 1, o)]> (a_handles a)) a)
  | s_decref w ino :
      let a' := with_handles (release w (a_handles a)) a in
      refers a w ino → (ino = ROOT ∨ ¬ gone a' ino) → step a (op_decref w) ret_unit a'
  | s_decref_last w ino :
      let a' := with_handles (release w (a_handles a)) a in
      refers a w ino → ino ≠ ROOT → gone a' ino → step a (op_decref w) ret_unit (drop_file ino a')
  | s_incopen w ino k o :
      a_handles a !! w = Some (ino, k, o) → step a (op_incopen w) ret_unit (with_handles (<[w := (ino, k, o + 1)]> (a_handles a)) a)
  | s_decopen w ino k o :
      a_handles a !! w = Some (ino, k, o) → step a (op_decopen w) ret_unit (with_handles (<[w := (ino, k, o - 1)]> (a_handles a)) a).

(** What the callers see to: the vnodes are there, names are C strings, a
    transfer describes its buffer, and a vnode is closed before its last
    reference goes. *)
Definition allowed (a : afs) (o : op) : Prop :=
  match o with
  | op_getroot => True
  | op_lookup v _ | op_remove v _ => is_Some (a_handles a !! v)
  | op_creat v name _ => is_Some (a_handles a !! v) ∧ name_ok name
  | op_rename v _ n2 => is_Some (a_handles a !! v) ∧ name_ok n2
  | op_link v name w => is_Some (a_handles a !! v) ∧ name_ok name ∧ ∃ ino, refers a w ino ∧ ino ≠ ROOT
  | op_read w u => is_Some (a_handles a !! w) ∧ is_read u = true ∧ uio_fits cur (Z.to_nat (uio_resid u)) u ∧ 0 ≤ uio_resid u ∧
      ∀ ino d z, refers a w ino → a_files a !! ino = Some (d, z) → z ≤ MAXSIZE
  | op_write w u => is_Some (a_handles a !! w) ∧ is_read u = false ∧ uio_fits cur (Z.to_nat (uio_resid u)) u ∧ 0 ≤ uio_resid u ∧
      uio_offset u + uio_resid u < 2 ^ 32
  | op_truncate w len => is_Some (a_handles a !! w) ∧ 0 ≤ len < 2 ^ 32
  | op_fsync w | op_incref w | op_incopen w => is_Some (a_handles a !! w)
  | op_decref w => ∃ ino k o, a_handles a !! w = Some (ino, k, o) ∧ (k = 1 → o = 0)
  | op_decopen w => ∃ ino k o, a_handles a !! w = Some (ino, k, o) ∧ 0 < o
  end.

(** ** The code *)

Context {D : Type} {DV : Device D} {BD : BlockDevice cur D}.
Abbreviation fs := (@sfs_fs D).
Implicit Types (s : fs).

Definition run (o : op) : K fs ret :=
  match o with
  | op_getroot => w <- sfs_getroot ;; kret (ret_vn (inr w))
  | op_lookup v name => r <- vop_lookup cur v name ;; kret (ret_vn r)
  | op_creat v name excl => r <- vop_creat cur v name excl ;; kret (ret_vn r)
  | op_link v name w => r <- vop_link cur v name w ;; kret (ret_z r)
  | op_remove v name => r <- vop_remove cur v name ;; kret (ret_z r)
  | op_rename v n1 n2 => r <- vop_rename cur v n1 v n2 ;; kret (ret_z r)
  | op_read w u => let* (r, u) := vop_read cur w u in kret (ret_io r u)
  | op_write w u => let* (r, u) := vop_write cur w u in kret (ret_io r u)
  | op_truncate w len => r <- vop_truncate w len ;; kret (ret_z r)
  | op_fsync w => r <- vop_fsync w ;; kret (ret_z r)
  | op_incref w => vnode_incref w ;; kret ret_unit
  | op_decref w => vnode_decref w ;; kret ret_unit
  | op_incopen w => vnode_incopen w ;; kret ret_unit
  | op_decopen w => vnode_decopen w ;; kret ret_unit
  end.

(** The blocks [R] belong to no file: superblock and free map. *)
Record represents (R : gset Z) (a : afs) s : Prop := {
  rep_root : a_files a !! ROOT = None;
  rep_mounted : mounted cur R ({[ROOT]} ∪ dom (a_files a)) (a_names a) s;
  rep_handles : a_handles a = handles s;
  rep_files ino d z : a_files a !! ino = Some (d, z) → file_holds cur s ino d z
}.

(** Without space means that no block is free. *)
Definition no_space (o : op) (r : ret) s : Prop :=
  match o, r with
  | op_write _ _, ret_io e _ | op_link _ _ _, ret_z e | op_rename _ _ _, ret_z e => e = ENOSPC → full s
  | _, _ => True
  end.

Definition simulated R a o s : Prop :=
  ∃ r s' a', run o s = Done (r, s') ∧ step a o r a' ∧ (represents R a' s' ∧ fs_depth s' = fs_depth s) ∧ no_space o r s'.

(** ** Between the two states *)

Section Simulation.
Context (R : gset Z) (a : afs) (s : fs) (Hrep : represents R a s).
Abbreviation files := ({[ROOT]} ∪ dom (a_files a)).
(** The big lock is as deep as before. *)
Abbreviation lands a' s' := (represents R a' s' ∧ fs_depth s' = fs_depth s).

Lemma rep_kept m' s' : ends cur R files m' files s s' → lands (mk_afs m' (a_files a) (handles s')) s'.
Proof using Hrep.
  intros (Hm & K & Hd). destruct Hrep as [r1 r2 r3 r4]. split; [|done]. split; try done. intros ino d z Hf. cbn in Hf.
  apply K; [|by intros ->; congruence|by apply r4]. apply elem_of_union_r. by apply elem_of_dom_2 in Hf.
Qed.
Lemma rep_with_handles s' h : ends cur R files (a_names a) files s s' → handles s' = h → lands (with_handles h a) s'.
Proof using Hrep. intros H <-. by apply rep_kept. Qed.
Lemma rep_same s' : ends cur R files (a_names a) files s s' → handles s' = handles s → lands a s'.
Proof using Hrep. intros H E. apply rep_kept in H as [H Hd]. rewrite E, <- (rep_handles _ _ _ Hrep) in H. by destruct a. Qed.
Lemma rep_with_names m' s' : ends cur R files m' files s s' → handles s' = handles s → lands (with_names m' a) s'.
Proof using Hrep. intros H E. apply rep_kept in H as [H Hd]. by rewrite E, <- (rep_handles _ _ _ Hrep) in H. Qed.

Lemma rep_put s' ino d z :
  is_Some (a_files a !! ino) → ends cur R files (a_names a) (files ∖ {[ino]}) s s' → handles s' = handles s → file_holds cur s' ino d z →
  lands (put_file ino d z a) s'.
Proof using Hrep.
  intros [x Hx] (Hm & K & Hd) Hh Hf. destruct Hrep as [r1 r2 r3 r4]. split; [|exact Hd]. assert (Hne : ino ≠ ROOT) by (by intros ->; congruence).
  split; cbn; [by rewrite lookup_insert_ne|by rewrite dom_insert_lookup_L by done|congruence|].
  intros j d' z' [[<- [= <- <-]]|[Hj Hl]]%lookup_insert_Some; [done|]. apply K; [|by intros ->; congruence|by apply r4].
  apply elem_of_difference. rewrite elem_of_singleton. split; [|done]. apply elem_of_union_r. by apply elem_of_dom_2 in Hl.
Qed.
Lemma rep_new m' s' ino d z h :
  ino ≠ ROOT → a_files a !! ino = None → ends cur R ({[ino]} ∪ files) m' files s s' → handles s' = h → file_holds cur s' ino d z →
  lands (mk_afs m' (<[ino := (d, z)]> (a_files a)) h) s'.
Proof using Hrep.
  intros Hne Hn (Hm & K & Hd) <- Hf. destruct Hrep as [r1 r2 r3 r4]. split; [|exact Hd]. split; cbn; [by rewrite lookup_insert_ne|rewrite dom_insert_L, union_swap; exact Hm|done|].
  intros j d' z' [[<- [= <- <-]]|[Hj Hx]]%lookup_insert_Some; [done|]. apply K; [|by intros ->; congruence|by apply r4].
  apply elem_of_union_r. by apply elem_of_dom_2 in Hx.
Qed.
Lemma rep_drop m' s' ino h :
  ino ≠ ROOT → ends cur R (files ∖ {[ino]}) m' (files ∖ {[ino]}) s s' → handles s' = h → lands (drop_file ino (mk_afs m' (a_files a) h)) s'.
Proof using Hrep.
  intros Hne (Hm & K & Hd) <-. destruct Hrep as [r1 r2 r3 r4]. split; [|exact Hd].
  assert (E : files ∖ {[ino]} = {[ROOT]} ∪ dom (delete ino (a_files a))) by (rewrite dom_delete_L; set_solver). rewrite E in *.
  split; cbn; [by rewrite lookup_delete_ne|done|done|]. intros j d z [Hj Hl]%lookup_delete_Some.
  apply K; [|by intros ->; congruence|by apply r4]. apply elem_of_union_r, elem_of_dom. rewrite lookup_delete_ne by done. by exists (d, z).
Qed.

(** The vnodes behind the references. *)
Lemma refers_vnode w ino : refers a w ino ↔ ∃ sw, fs_vn s !! w = Some sw ∧ sv_ino sw = ino.
Proof using Hrep.
  unfold refers. rewrite (rep_handles _ _ _ Hrep). setoid_rewrite handles_lookup. naive_solver.
Qed.
Lemma handle_refers w : is_Some (a_handles a !! w) → ∃ ino, refers a w ino.
Proof. intros [[[ino k] o] Hw]. by exists ino, k, o. Qed.
Lemma root_of w : refers a w ROOT → ∃ sw, root_vnode w s sw ∧ vn_ops sw = sfs_dirops.
Proof using Hrep.
  intros (sw & Hw & Hi)%refers_vnode. destruct (rep_mounted _ _ _ Hrep) as [_ H]. assert (Hroot : root_vnode w s sw) by done.
  exists sw. split; [done|]. pose proof (root_dir cur _ _ _ _ _ _ _ H Hroot) as Hty.
  destruct (inv_loaded _ _ _ _ (fy_inv _ _ _ _ _ _ H) w sw Hw) as (_ & _ & _ & Hops). unfold ops_ok in Hops. destruct (vn_ops sw); [|done].
  rewrite Hty in Hops. done.
Qed.
Lemma file_of w ino :
  refers a w ino → ino ≠ ROOT → ∃ sw d z, fs_vn s !! w = Some sw ∧ sv_ino sw = ino ∧ vn_ops sw = sfs_fileops ∧ a_files a !! ino = Some (d, z).
Proof using Hrep.
  intros (sw & Hw & Hi)%refers_vnode Hne. destruct (rep_mounted _ _ _ Hrep) as [_ H].
  destruct (inv_loaded _ _ _ _ (fy_inv _ _ _ _ _ _ H) w sw Hw) as (HI & _). rewrite Hi in HI.
  apply elem_of_union in HI as [?%elem_of_singleton|[[d z] Hf]%elem_of_dom]; [done|]. exists sw, d, z. split_and!; try done.
  eapply file_ops; [exact H|exact Hw|congruence].
Qed.

Lemma link_error_name e name s' : link_error e name (a_names a) s' → name_error e name a ∧ (e = ENOSPC → full s').
Proof.
  unfold name_error. intros [[-> [x Hx]]|[(-> & Hn & Hl)|([[-> Hf]| ->] & Hn & Hl)]].
  - by rewrite Hx.
  - rewrite Hn. split; [by left|done].
  - rewrite Hn. split; [right; by split; [|left]|done].
  - rewrite Hn. split; [right; by split; [|right]|done].
Qed.

(** ** The operations one by one *)

(** A vnode is the directory or a file, and its operations are called. *)
Lemma vnode_kind w :
  is_Some (a_handles a !! w) →
  (refers a w ROOT ∧ ∃ sw, root_vnode w s sw ∧ ∀ A (file dir : K fs A), vop w file dir s = dir s) ∨
  (∃ ino sw d z, refers a w ino ∧ ino ≠ ROOT ∧ fs_vn s !! w = Some sw ∧ sv_ino sw = ino ∧ a_files a !! ino = Some (d, z) ∧
     ∀ A (file dir : K fs A), vop w file dir s = file s).
Proof using Hrep.
  intros (ino & Hv)%handle_refers. pose proof (rep_mounted _ _ _ Hrep) as Hm. destruct (decide (ino = ROOT)) as [->|Hne].
  - left. destruct (root_of w Hv) as (sv & Hroot & Hops). split; [done|]. exists sv. split; [done|]. intros A file dir.
    rewrite (dispatch cur _ _ _ s w sv file dir Hm (proj1 Hroot)). by rewrite Hops.
  - right. destruct (file_of w ino Hv Hne) as (sw & d & z & Hw & Hi & Hops & Hf). exists ino, sw, d, z. split_and!; try done. intros A file dir.
    rewrite (dispatch cur _ _ _ s w sw file dir Hm Hw). by rewrite Hops.
Qed.

Lemma sim_getroot : simulated R a op_getroot s.
Proof using Hrep.
  destruct (getroot_ok cur _ _ _ s (rep_mounted _ _ _ Hrep)) as (w & s' & E & He & Ha).
  eexists _, s', _. split; [cbn; by kcall E|]. split; [constructor; rewrite (rep_handles _ _ _ Hrep); exact Ha|]. split; [by apply rep_with_handles|done].
Qed.

Lemma sim_lookup v name : allowed a (op_lookup v name) → simulated R a (op_lookup v name) s.
Proof using Hrep.
  intros [(Hv & sv & Hroot & Hvop)|(ino & sw & d & z & Hv & Hne & _ & _ & _ & Hvop)]%vnode_kind; unfold simulated; cbn [run]; unfold vop_lookup;
    rewrite (kbind_eq _ _ _ _ (Hvop _ _ _)).
  - destruct (lookup_ok cur _ _ _ s v sv name (rep_mounted _ _ _ Hrep) Hroot) as (r & s' & E & He & Hr).
    kcall E. destruct (a_names a !! name) as [j|] eqn:Hn.
    + destruct Hr as (w & -> & Ha). eexists _, s', _. split; [done|].
      split; [eapply s_lookup; [done|done|rewrite (rep_handles _ _ _ Hrep); exact Ha]|]. split; [by apply rep_with_handles|done].
    + destruct Hr as [-> Hh]. eexists _, s', a. split; [done|]. split; [by constructor|]. split; [by apply rep_same|done].
  - eexists _, s, a. split; [done|]. split; [by eapply s_lookup_file|done].
Qed.

Lemma sim_creat v name excl : allowed a (op_creat v name excl) → simulated R a (op_creat v name excl) s.
Proof using Hrep.
  intros [[(Hv & sv & Hroot & Hvop)|(ino & sw & d & z & Hv & Hne & _ & _ & _ & Hvop)]%vnode_kind Hname]; unfold simulated; cbn [run]; unfold vop_creat;
    rewrite (kbind_eq _ _ _ _ (Hvop _ _ _)).
  2: { eexists _, s, a. split; [done|]. split; [by eapply s_creat_file|done]. }
  destruct (creat_ok cur _ _ _ s v sv name excl (rep_mounted _ _ _ Hrep) Hroot Hname) as (r & s' & E & Hr). kcall E.
  destruct (a_names a !! name) as [j|] eqn:Hn.
  - destruct Hr as [He Hr]. destruct excl.
    + destruct Hr as [-> Hh]. eexists _, s', a. split; [done|]. split; [by apply s_creat_exists|]. split; [by apply rep_same|done].
    + destruct Hr as (w & -> & Ha). eexists _, s', _. split; [done|].
      split; [eapply s_creat_open; [done|done|rewrite (rep_handles _ _ _ Hrep); exact Ha]|]. split; [by apply rep_with_handles|done].
  - destruct r as [e|w].
    + destruct Hr as (Hce & He & Hh). eexists _, s', a. split; [done|]. split; [by apply s_creat_error|]. split; [by apply rep_same|done].
    + destruct Hr as (ino & HnI & Hw & Hl & Hh & (Hm & K & Hd) & Hf). apply not_elem_of_union in HnI as [Hne%not_elem_of_singleton Hnf%not_elem_of_dom].
      rewrite <- (rep_handles _ _ _ Hrep) in Hh, Hw. eexists _, s', _. split; [done|]. split; [by apply (s_creat a v name excl w ino)|]. split; [|done].
      exact (rep_new _ s' ino _ _ _ Hne Hnf (conj Hm (conj K Hd)) Hh Hf).
Qed.

Lemma sim_link v name w : allowed a (op_link v name w) → simulated R a (op_link v name w) s.
Proof using Hrep.
  intros ([(Hv & sv & Hroot & Hvop)|(ino & sw & d & z & Hv & Hne & _ & _ & _ & Hvop)]%vnode_kind & Hname & j & Hw & Hj); unfold simulated; cbn [run]; unfold vop_link;
    rewrite (kbind_eq _ _ _ _ (Hvop _ _ _)).
  2: { eexists _, s, a. split; [done|]. split; [by eapply s_link_file|done]. }
  destruct (file_of w j Hw Hj) as (sw & d & z & Hsw & Hi & _). rewrite <- Hi in *.
  destruct (link_file_ok cur _ _ _ s v sv name w sw (rep_mounted _ _ _ Hrep) Hroot Hname Hsw Hj) as (r & s' & E & Hh & [(-> & Hn & Hl & He)|[Hle He]]); kcall E.
  - eexists _, s', _. split; [done|]. split; [by apply (s_link a v name w (sv_ino sw))|]. split; [by apply rep_with_names|done].
  - apply link_error_name in Hle as [Hle Hfu]. eexists _, s', a. split; [done|]. split; [by apply s_link_error|]. split; [by apply rep_same|done].
Qed.

Lemma gone_names m' ino : gone (with_names m' a) ino ↔ links m' ino = 0 ∧ unloaded s ino.
Proof using Hrep.
  unfold gone, held. cbn [with_names a_names]. split.
  - intros [Hn Hh]. split; [by apply links_zero|]. intros w sw Hw Hi. apply Hh. exists w. apply refers_vnode. by exists sw.
  - intros [Hl Hu]. split; [intros n; by apply links_none|]. intros [w (sw & Hw & Hi)%refers_vnode]. by apply (Hu w sw).
Qed.

Lemma sim_remove v name : allowed a (op_remove v name) → simulated R a (op_remove v name) s.
Proof using Hrep.
  intros [(Hv & sv & Hroot & Hvop)|(ino & sw & d & z & Hv & Hne & _ & _ & _ & Hvop)]%vnode_kind; unfold simulated; cbn [run]; unfold vop_remove;
    rewrite (kbind_eq _ _ _ _ (Hvop _ _ _)).
  2: { eexists _, s, a. split; [done|]. split; [by eapply s_remove_file|done]. }
  pose proof (rep_mounted _ _ _ Hrep) as Hm. destruct (remove_name_ok cur _ _ _ s v sv name Hm Hroot) as (r & s' & E & Hh & Hr). kcall E.
  destruct (a_names a !! name) as [ino|] eqn:Hn.
  2: { destruct Hr as [-> He]. eexists _, s', a. split; [done|]. split; [by apply s_remove_none|]. split; [by apply rep_same|done]. }
  assert (Hne : ino ≠ ROOT) by (by eapply (fy_entries _ _ _ _ _ _ (proj2 Hm))).
  destruct Hr as [-> (I' & [(Hl & Hu & ->)|[Hno ->]] & He)].
  - eexists _, s', _. split; [done|]. split; [apply (s_remove_last a v name ino Hv Hn); by apply gone_names|]. split; [|done].
    rewrite <- (rep_handles _ _ _ Hrep) in Hh. exact (rep_drop _ s' ino _ Hne He Hh).
  - eexists _, s', _. split; [done|]. split; [apply (s_remove a v name ino Hv Hn); rewrite gone_names; intros [Hl Hu]; destruct Hno; [lia|done]|].
    split; [by apply rep_with_names|done].
Qed.

Lemma sim_rename v n1 n2 : allowed a (op_rename v n1 n2) → simulated R a (op_rename v n1 n2) s.
Proof using Hrep.
  intros [[(Hv & sv & Hroot & Hvop)|(ino & sw & d & z & Hv & Hne & _ & _ & _ & Hvop)]%vnode_kind Hname]; unfold simulated; cbn [run]; unfold vop_rename;
    rewrite (kbind_eq _ _ _ _ (Hvop _ _ _)).
  2: { eexists _, s, a. split; [done|]. split; [by eapply s_rename_file|done]. }
  destruct (rename_ok cur _ _ _ s v sv n1 n2 (rep_mounted _ _ _ Hrep) Hroot Hname) as (r & s' & E & Hh & Hr). kcall E.
  destruct (a_names a !! n1) as [ino|] eqn:Hn.
  - destruct Hr as [(-> & Hn2 & Hl & He)|[Hle He]].
    + eexists _, s', _. split; [done|]. split; [by apply (s_rename a v n1 n2 ino)|]. split; [by apply rep_with_names|done].
    + apply link_error_name in Hle as [Hle Hfu]. eexists _, s', a. split; [done|]. split; [by apply s_rename_error|]. split; [by apply rep_same|done].
  - destruct Hr as [-> He]. eexists _, s', a. split; [done|]. split; [by apply s_rename_none|]. split; [by apply rep_same|done].
Qed.

Lemma sim_read w u : allowed a (op_read w u) → simulated R a (op_read w u) s.
Proof using Hrep.
  intros ([(Hv & sv & Hroot & Hvop)|(ino & sw & d & z & Hv & Hne & Hw & Hi & Hf & Hvop)]%vnode_kind & Hrd & Hfit & Hres & Hz); unfold simulated; cbn [run]; unfold vop_read;
    rewrite (kbind_eq _ _ _ _ (Hvop _ _ _)).
  { eexists _, s, a. split; [done|]. split; [by apply s_read_dir|done]. }
  pose proof (Hz ino d z Hv Hf) as Hzm. pose proof (rep_files _ _ _ Hrep ino d z Hf) as Hfh. rewrite <- Hi in Hne, Hfh.
  destruct (read_ok cur _ _ _ s w sw u d z (rep_mounted _ _ _ Hrep) Hw Hne Hfh Hzm Hrd Hfit Hres) as (u' & s' & E & He & Hh & M). kcall E.
  eexists _, s', a. split; [done|]. split; [by eapply s_read|]. split; [by apply rep_same|done].
Qed.

Lemma sim_write w u : allowed a (op_write w u) → simulated R a (op_write w u) s.
Proof using Hrep.
  intros ([(Hv & sv & Hroot & Hvop)|(ino & sw & d & z & Hv & Hne & Hw & Hi & Hf & Hvop)]%vnode_kind & Hrd & Hfit & Hres & Hlim); unfold simulated; cbn [run]; unfold vop_write;
    rewrite (kbind_eq _ _ _ _ (Hvop _ _ _)).
  { eexists _, s, a. split; [done|]. split; [by apply s_write_dir|done]. }
  pose proof (rep_files _ _ _ Hrep ino d z Hf) as Hfh. subst ino.
  destruct (write_ok cur _ _ _ s w sw u d z (rep_mounted _ _ _ Hrep) Hw Hne Hfh Hrd Hfit Hres Hlim) as (k & r & u' & s' & E & He & Hh & M & Sh & Fl & Hfh'). kcall E.
  eexists _, s', _. split; [done|]. split; [eapply (s_write a w u u' (sv_ino sw) d z k r); try done|split; [by apply rep_put|]].
  - destruct (decide (r = 0)) as [|Hr]; [by left|right]. destruct (Fl Hr) as [[? _]|?]; [by left|by right].
  - intros ->. by destruct (Fl ltac:(done)) as [[_ ?]|[? _]].
Qed.

Lemma sim_truncate w len : allowed a (op_truncate w len) → simulated R a (op_truncate w len) s.
Proof using Hrep.
  intros [[(Hv & sv & Hroot & Hvop)|(ino & sw & d & z & Hv & Hne & Hw & Hi & Hf & Hvop)]%vnode_kind Hlen]; unfold simulated; cbn [run]; unfold vop_truncate;
    rewrite (kbind_eq _ _ _ _ (Hvop _ _ _)).
  { eexists _, s, a. split; [done|]. split; [by apply s_truncate_dir|done]. }
  pose proof (rep_files _ _ _ Hrep ino d z Hf) as Hfh. subst ino.
  destruct (truncate_file_ok cur _ _ _ s w sw len d z (rep_mounted _ _ _ Hrep) Hw Hne Hfh Hlen) as (s' & E & He & Hh & Hfh'). kcall E.
  eexists _, s', _. split; [done|]. split; [by eapply s_truncate|]. split; [by apply rep_put|done].
Qed.

Lemma sim_fsync w : allowed a (op_fsync w) → simulated R a (op_fsync w) s.
Proof using Hrep.
  intros (ino & Hv)%handle_refers. pose proof Hv as (sw & Hw & Hi)%refers_vnode.
  destruct (vop_fsync_run cur _ _ _ s w sw (rep_mounted _ _ _ Hrep) Hw) as (s' & E & He & Hh & _).
  eexists _, s', a. split; [cbn; by kcall E|]. split; [by eapply s_fsync|]. split; [by apply rep_same|done].
Qed.

Lemma sim_incref w : allowed a (op_incref w) → simulated R a (op_incref w) s.
Proof using Hrep.
  intros [[[j k] o] Hw]. pose proof Hw as Hw'. rewrite (rep_handles _ _ _ Hrep) in Hw'.
  destruct (incref_run cur _ _ _ s w j k o (rep_mounted _ _ _ Hrep) Hw') as (x & s' & E & He & Hh). rewrite <- (rep_handles _ _ _ Hrep) in Hh.
  eexists _, s', _. split; [cbn; by kcall E|]. split; [by apply s_incref|]. split; [by apply rep_with_handles|done].
Qed.
Lemma sim_incopen w : allowed a (op_incopen w) → simulated R a (op_incopen w) s.
Proof using Hrep.
  intros [[[j k] o] Hw]. pose proof Hw as Hw'. rewrite (rep_handles _ _ _ Hrep) in Hw'.
  destruct (incopen_run cur _ _ _ s w j k o (rep_mounted _ _ _ Hrep) Hw') as (x & s' & E & He & Hh). rewrite <- (rep_handles _ _ _ Hrep) in Hh.
  eexists _, s', _. split; [cbn; by kcall E|]. split; [by apply s_incopen|]. split; [by apply rep_with_handles|done].
Qed.
Lemma sim_decopen w : allowed a (op_decopen w) → simulated R a (op_decopen w) s.
Proof using Hrep.
  intros (j & k & o & Hw & Ho). pose proof Hw as Hw'. rewrite (rep_handles _ _ _ Hrep) in Hw'.
  destruct (decopen_run cur _ _ _ s w j k o (rep_mounted _ _ _ Hrep) Hw' Ho) as (x & s' & E & He & Hh). rewrite <- (rep_handles _ _ _ Hrep) in Hh.
  eexists _, s', _. split; [cbn; by kcall E|]. split; [by apply s_decopen|]. split; [by apply rep_with_handles|done].
Qed.

(** No vnode but one refers to a file. *)
Lemma one_handle w w' ino : refers a w ino → refers a w' ino → w = w'.
Proof using Hrep.
  intros (sw & Hw & Hi)%refers_vnode (sw' & Hw' & Hi')%refers_vnode. destruct (rep_mounted _ _ _ Hrep) as [_ H].
  eapply (inv_one _ _ _ _ (fy_inv _ _ _ _ _ _ H)); [done|done|congruence].
Qed.
Lemma gone_released w j k o :
  a_handles a !! w = Some (j, k, o) → gone (with_handles (release w (a_handles a)) a) j ↔ links (a_names a) j = 0 ∧ k = 1.
Proof using Hrep.
  intros Hw. unfold gone, held, release. rewrite Hw. cbn [with_handles a_names]. split.
  - intros [Hn Hh]. split; [by apply links_zero|]. destruct (Z.eqb_spec k 1) as [|Hk]; [done|]. destruct Hh. exists w, (k - 1), o. cbn. apply lookup_insert_eq.
  - intros [Hl ->]. split; [intros n; by apply links_none|]. cbn [Z.eqb Pos.eqb]. intros (x & k' & o' & Hx). cbn in Hx.
    apply lookup_delete_Some in Hx as [Hne Hx]. apply Hne. eapply one_handle; [by exists 1, o|by exists k', o'].
Qed.
Lemma sim_decref w : allowed a (op_decref w) → simulated R a (op_decref w) s.
Proof using Hrep.
  intros (j & k & o & Hw & Ho). pose proof Hw as Hw'. rewrite (rep_handles _ _ _ Hrep) in Hw'.
  assert (Hv : refers a w j) by (by exists k, o). pose proof (gone_released w j k o Hw) as Hg.
  destruct (decref_run cur _ _ _ s w j k o (rep_mounted _ _ _ Hrep) Hw' Ho) as (x & s' & E & He & Hh). rewrite <- (rep_handles _ _ _ Hrep) in Hh.
  eexists _, s'. case_decide as Hc.
  - destruct Hc as (Hne & Hl & Hk). eexists. split; [cbn; by kcall E|]. split; [apply (s_decref_last a w j Hv Hne); by apply Hg|]. split; [|done].
    exact (rep_drop _ s' j _ Hne He Hh).
  - eexists. split; [cbn; by kcall E|]. split; [apply (s_decref a w j Hv)|split; [by apply rep_with_handles|done]].
    rewrite Hg. destruct (decide (j = ROOT)); [by left|right; tauto].
Qed.
End Simulation.

(** Every operation that is allowed returns, does what [step] says, and leaves
    a file system that again represents the abstract state. *)
Lemma simulation R a o s : represents R a s → allowed a o → simulated R a o s.
Proof.
  intros Hrep Ha. destruct o; [apply sim_getroot|apply sim_lookup|apply sim_creat|apply sim_link|apply sim_remove|apply sim_rename|apply sim_read
    |apply sim_write|apply sim_truncate|apply sim_fsync|apply sim_incref|apply sim_decref|apply sim_incopen|apply sim_decopen]; done.
Qed.
End Spec.
