(* ===== verification/SfsMount.v ===== *)
(** * SFS: writing back, unmounting and mounting

    [sfs_sync] puts on the disk whatever is dirty; after it a file system
    without loaded vnodes can be unmounted, and mounting the device again gives
    the names and files that were there. *)

From stdpp Require Import base numbers list gmap sets.
From Stdlib Require Import ZArith Lia.
From S2P Require Import Prelude CString Bitmap Uio Device SfsDisk Sfs SfsBlocks SfsFile SfsIo SfsDir SfsInv SfsVnode SfsTrunc SfsReclaim SfsOps SfsNames SfsFiles SfsSpec.

Open Scope Z_scope.
Open Scope kernel_scope.

Section Mount.
Context (cur : option nat) {D : Type} {DV : Device D} {BD : BlockDevice cur D}.
Abbreviation fs := (@sfs_fs D).
Abbreviation sfs_inv := (sfs_inv cur).
Abbreviation quiet := (quiet cur).
Abbreviation data := (data cur).
Abbreviation mounted := (mounted cur).
Abbreviation ends := (ends cur).
Implicit Types (s t : fs) (sv sw : sfs_vnode) (v w : nat) (b : Z) (R I : gset Z) (m : gmap (list Z) Z).
Abbreviation ROOT := SFS_ROOT_LOCATION.
Abbreviation inside s := (set_depth (fs_depth s + 1) s).

(** ** Changes outside the files *)

Lemma quiet_frame R I s s' :
  sfs_inv R I s → fs_vn s' = fs_vn s → inuse s' = inuse s → fs_super s' = fs_super s → fs_depth s' = fs_depth s →
  (∀ b, 0 ≤ b < nblocks s → b ∉ R → data s' b = data s b) → quiet I s s'.
Proof.
  intros Hinv Hvn Hu Hsp Hdp Hd.
  assert (Hown : ∀ j i b, j ∈ I → inode_is cur s j i → b ∈ owns cur s (vn i j) → data s' b = data s b).
  { intros j i b Hj Hi Hb. destruct (inv_file _ _ _ _ Hinv j i Hj Hi) as [Hf _]. destruct (fo_range _ _ _ Hf b Hb). apply Hd; [lia|].
    intros HR. destruct (inv_reserved _ _ _ _ Hinv b HR) as [_ Hno]. by apply (Hno j i). }
  assert (HI : ∀ j, j ∈ I → disk_inode cur s' j = disk_inode cur s j).
  { intros j Hj. destruct (inode_is_ex cur s j) as [i Hi]. destruct (inv_file _ _ _ _ Hinv _ _ Hj Hi) as [[_ _ _ (f1 & _)] _]. cbn in f1.
    unfold disk_inode. rewrite Hd; [done|lia|]. intros HR. by destruct (inv_reserved _ _ _ _ Hinv j HR). }
  split; try done.
  - intros j i Hj. unfold SfsInv.inode_is, unloaded. rewrite Hvn, HI by done. done.
  - intros j i Hj Hi. apply fblocks_frame. intros b. by apply Hown.
  - intros j i Hj Hi. unfold SfsFile.contents. destruct (fblocks_frame cur s s' (vn i j)) as [_ ->]; [|done]. intros b. by apply Hown.
Qed.

(** The names and the files of the two states are the same. *)
Lemma fsys_frame R I m s s' :
  fsys cur R I m s → quiet I s s' → fs_vn s' = fs_vn s → fs_ok cur s' → meta_ok cur R s' → fs_oom s' = [] → table_ok cur I s' → fsys cur R I m s'.
Proof.
  intros H Q Hvn Ho Hmo Hoom Ht. eapply fsy_quiet; [exact H|done| |].
  - by apply (inv_quiet_meta cur R I s s' (fy_inv _ _ _ _ _ _ H) Q).
  - intros j Hj HjR Hu. left. intros w sw Hw. apply (Hu w). by rewrite Hvn.
Qed.

(** ** The free map on the disk *)

Lemma map_length s : fs_ok cur s → 0 ≤ nblocks s → Z.of_nat (length (Bitmap.v (fs_freemap s))) = 512 * SFS_BITBLOCKS (nblocks s).
Proof.
  intros Ho Hn. rewrite (wf_length _ (ok_map _ _ Ho)), (ok_bits _ _ Ho). destruct (bitmap_size (nblocks s)) as [-> _]; [pose proof (ok_small _ _ Ho); lia|].
  replace (4096 * SFS_BITBLOCKS (nblocks s) + 7) with (7 + (512 * SFS_BITBLOCKS (nblocks s)) * 8) by lia. rewrite Z.div_add by lia. change (7 / 8) with 0. lia.
Qed.

Lemma mapio_write_loop k : ∀ j s,
  fs_ok cur s → 2 + Z.of_nat j + Z.of_nat k ≤ nblocks s → (512 * (j + k) ≤ length (Bitmap.v (fs_freemap s)))%nat →
  ∃ d', mapio_loop UIO_WRITE j k s = Done (0, set_dev d' s) ∧ d_ok (cur := cur) d' ∧ d_blocks d' = d_blocks (fs_dev s) ∧
    (∀ i, (j ≤ i < j + k)%nat → d_data (cur := cur) d' (2 + Z.of_nat i) = map_block s i) ∧
    (∀ b, 0 ≤ b < d_blocks (fs_dev s) → ¬ (2 + Z.of_nat j ≤ b < 2 + Z.of_nat j + Z.of_nat k) → d_data (cur := cur) d' b = data s b).
Proof.
  induction k as [|k IH]; intros j s Ho Hn Hl.
  { exists (fs_dev s). split; [by destruct s|]. split; [apply Ho|]. split; [done|]. split; [intros i Hi; lia|done]. }
  cbn [mapio_loop]. ksteps. set (l := Bitmap.v (fs_freemap s)) in *. replace (j * 512)%nat with (512 * j)%nat by lia.
  destruct (wblock_ok cur s (SFS_MAP_LOCATION + Z.of_nat j) (take 512 (drop (512 * j) l))) as (d1 & E & [u1 u2 u3 u4]); [done|unfold SFS_MAP_LOCATION; lia| |].
  { rewrite length_take, length_drop. lia. }
  kcall E. cbn [Z.eqb negb]. set (s1 := set_dev d1 s).
  destruct (IH (S j) s1) as (d' & E' & h1 & h2 & h3 & h4); [by apply fs_ok_dev|change (nblocks s1) with (nblocks s); lia|change (fs_freemap s1) with (fs_freemap s); fold l; lia|].
  exists d'. split; [exact E'|]. split; [done|]. change (fs_dev s1) with d1 in h2, h4. split; [congruence|]. unfold SFS_MAP_LOCATION in *.
  pose proof (ok_blocks _ _ Ho). split.
  - intros i Hi. destruct (decide (i = j)) as [->|Hij]; [|apply h3; lia]. rewrite h4 by (rewrite ?u2; lia). exact u3.
  - intros b Hb Hno. rewrite h4 by (rewrite ?u2; lia). apply u4; [done|lia].
Qed.

Lemma concat_seq_S (f : nat → list Z) j k : concat (f <$> seq j (S k)) = f j ++ concat (f <$> seq (S j) k).
Proof. done. Qed.

Lemma mapio_read_loop k : ∀ j s,
  d_ok (cur := cur) (fs_dev s) → 0 < fs_depth s → 2 + Z.of_nat j + Z.of_nat k ≤ d_blocks (fs_dev s) → 2 + Z.of_nat j + Z.of_nat k ≤ 2 ^ 23 →
  (512 * (j + k) ≤ length (Bitmap.v (fs_freemap s)))%nat →
  let l := Bitmap.v (fs_freemap s) in
  let l' := take (512 * j) l ++ concat ((λ i, data s (2 + Z.of_nat i)) <$> seq j k) ++ drop (512 * (j + k)) l in
  ∃ d', mapio_loop UIO_READ j k s = Done (0, set_freemap (set_v l' (fs_freemap s)) (set_dev d' s)) ∧ dev_same cur (fs_dev s) d'.
Proof.
  induction k as [|k IH]; intros j s Ho Hdp Hn Hsm Hl l l'.
  { exists (fs_dev s). split; [|by apply dev_same_refl]. unfold l'. cbn [seq fmap list_fmap concat app]. rewrite Nat.add_0_r, take_drop. by destruct s as [? ? [] ? ? ? ? ? ? ?]. }
  cbn [mapio_loop]. ksteps. fold l. replace (j * 512)%nat with (512 * j)%nat by lia.
  destruct (rblock_dev cur s (SFS_MAP_LOCATION + Z.of_nat j)) as (d1 & E & D1); [done|done|unfold SFS_MAP_LOCATION; lia..|].
  kcall E. ksteps. cbn [Z.eqb negb]. set (bj := data s (SFS_MAP_LOCATION + Z.of_nat j)) in *.
  assert (Hbj : length bj = 512%nat) by (apply d_data_len; [done|unfold SFS_MAP_LOCATION; lia]).
  set (l1 := take (512 * j) l ++ bj ++ drop (512 * j + 512) l). set (s1 := set_freemap (set_v l1 (fs_freemap (set_dev d1 s))) (set_dev d1 s)).
  assert (Hl1 : length l1 = length l) by (unfold l1; rewrite !length_app, length_take, length_drop, Hbj; fold l in Hl; lia).
  pose proof D1 as [o1 o2 o3]. assert (Hv1 : Bitmap.v (fs_freemap s1) = l1) by done.
  destruct (IH (S j) s1) as (d' & E' & D2); [done|done|change (fs_dev s1) with d1; rewrite o2; lia|lia|rewrite Hv1, Hl1; unfold l; lia|].
  exists d'. split; [|by eapply dev_same_trans]. etrans; [exact E'|]. change (fs_dev s1) with d1 in D2.
  assert (Hfm : ∀ x, set_freemap (set_v x (fs_freemap s1)) (set_dev d' s1) = set_freemap (set_v x (fs_freemap s)) (set_dev d' s)) by done. rewrite Hfm.
  do 4 f_equal. rewrite Hv1. unfold l'. rewrite concat_seq_S. fold bj. change (2 + Z.of_nat j) with (SFS_MAP_LOCATION + Z.of_nat j). fold bj.
  assert (Hc : (λ i, data s1 (2 + Z.of_nat i)) <$> seq (S j) k = (λ i, data s (2 + Z.of_nat i)) <$> seq (S j) k).
  { apply list_fmap_ext. intros i x [-> Hi]%lookup_seq. apply o3. lia. }
  rewrite Hc. unfold l1. fold l in Hl.
  rewrite take_app_ge, length_take, Nat.min_l by (rewrite ?length_take; lia). replace (512 * S j - 512 * j)%nat with 512%nat by lia.
  rewrite take_app_length' by done. rewrite (drop_app_ge (take (512 * j) l)) by (rewrite length_take; lia). rewrite length_take, Nat.min_l by lia.
  rewrite (drop_app_ge bj) by lia. rewrite drop_drop, Hbj, <- !app_assoc. do 4 f_equal. lia.
Qed.

(** ** Writing everything back *)

Definition clean w s : Prop := ∀ sw, fs_vn s !! w = Some sw → sv_dirty sw = false.

Lemma mounted_here R I m s : mounted R I m s → 0 < fs_depth s → fsys cur R I m s.
Proof.
  intros [_ H] Hd. pose proof (fsy_depth cur R I m (links m) _ (fs_depth s) H Hd) as H'. assert (E : set_depth (fs_depth s) s = s) by (by destruct s).
  rewrite <- E. exact H'.
Qed.

Lemma sync_vnodes_ok R I m vs : ∀ s,
  mounted R I m s → (∀ v, v ∈ vs → is_Some (fs_vn s !! v)) →
  ∃ s', sync_vnodes vs s = Done (tt, s') ∧ ends R I m I s s' ∧ handles s' = handles s ∧
    (∀ w, w ∈ vs ∨ clean w s → clean w s') ∧ ∀ w, is_Some (fs_vn s' !! w) → is_Some (fs_vn s !! w).
Proof.
  induction vs as [|v vs IH]; intros s Hm Hvs.
  { exists s. split; [done|]. split; [split; [done|split; [apply kept_refl|done]]|]. split_and!; try done. by intros w [?%elem_of_nil|?]. }
  destruct (Hvs v) as [sv Hv]; [by left|]. destruct (vop_fsync_run cur R I m s v sv Hm Hv) as (s1 & E1 & (Hm1 & K1 & D1) & Hh1 & Hvn1).
  assert (Hdom : ∀ w, is_Some (fs_vn s1 !! w) ↔ is_Some (fs_vn s !! w)).
  { intros w. rewrite Hvn1, lookup_insert. case_decide; [subst; by rewrite Hv|done]. }
  destruct (IH s1 Hm1) as (s2 & E2 & (Hm2 & K2 & D2) & Hh2 & Hc2 & Hd2); [intros w Hw; apply Hdom, Hvs; by right|].
  exists s2. cbn [sync_vnodes]. kcall E1. split; [done|]. split; [split; [done|split; [by eapply kept_trans|congruence]]|]. split; [congruence|]. split.
  - intros w Hw. apply Hc2. destruct Hw as [[->|Hw]%elem_of_cons|Hw]; [|by left|]; right; intros sw; rewrite Hvn1, lookup_insert_Some.
    + intros [[_ <-]|[? _]]; done.
    + intros [[_ <-]|[_ ?]]; [done|by apply Hw].
  - intros w Hw. by apply Hdom, Hd2.
Qed.

Lemma table_same I s s' :
  table_ok cur I s → fs_vnodes s' = fs_vnodes s → fs_vn s' = fs_vn s → fs_next s' = fs_next s →
  (∀ v sv, fs_vn s !! v = Some sv → disk_inode cur s' (sv_ino sv) = disk_inode cur s (sv_ino sv)) → table_ok cur I s'.
Proof.
  intros [t1 t2 t3 t4 t5 t6] e1 e2 e3 Hd. split; rewrite ?e1, ?e2, ?e3; try done. intros v sv Hv Hdt. rewrite (Hd v sv Hv). by eapply t6.
Qed.

(** A write to the blocks of the superblock or the free map. *)
Lemma meta_write R I m s s' :
  fsys cur R I m s → fs_vnodes s' = fs_vnodes s → fs_vn s' = fs_vn s → fs_next s' = fs_next s → fs_oom s' = fs_oom s →
  fs_super s' = fs_super s → fs_freemap s' = fs_freemap s → fs_depth s' = fs_depth s → d_ok (cur := cur) (fs_dev s') → d_blocks (fs_dev s') = d_blocks (fs_dev s) →
  (∀ b, 0 ≤ b < nblocks s → ¬ meta s b → data s' b = data s b) → meta_ok cur R s' → fsys cur R I m s' ∧ quiet I s s'.
Proof.
  intros H e1 e2 e3 e4 e5 e6 e7 Hok Hbl Hd Hmo. pose proof (fy_inv _ _ _ _ _ _ H) as Hinv. pose proof (inv_meta _ _ _ _ Hinv) as Hmo0.
  assert (Q : quiet I s s').
  { apply (quiet_frame R); try done; [unfold inuse; by rewrite e6|]. intros b Hb HR. apply Hd; [done|]. intros [? _]%(mo_reserved _ _ _ Hmo0). done. }
  split; [|done]. assert (Hnb : nblocks s' = nblocks s) by (unfold nblocks; by rewrite e5).
  apply (fsys_frame R I m s s'); try done.
  - destruct (inv_ok _ _ _ _ Hinv) as [o1 o2 o3 o4 o5 o6 o7 o8]. unfold inuse in *. split; unfold inuse; rewrite ?Hnb, ?e6, ?e7, ?Hbl; done.
  - rewrite e4. apply Hinv.
  - apply (table_same I s); try done; [by eapply inv_tables|]. intros v sv Hv. unfold disk_inode. f_equal. f_equal.
    pose proof (inv_ready _ _ _ _ _ _ Hinv Hv) as (_ & Hf & _). destruct (fo_ino _ _ _ Hf) as (f1 & _). destruct (inv_loaded _ _ _ _ Hinv v sv Hv) as (HI & _).
    apply Hd; [lia|]. intros [HR _]%(mo_reserved _ _ _ Hmo0). by destruct (inv_reserved _ _ _ _ Hinv _ HR).
Qed.

Lemma sync_freemap_ok R I m s :
  fsys cur R I m s →
  ∃ s', sync_freemap s = Done (0, s') ∧ fsys cur R I m s' ∧ quiet I s s' ∧ fs_vn s' = fs_vn s ∧ fs_freemapdirty s' = false ∧ fs_superdirty s' = fs_superdirty s.
Proof.
  intros H. pose proof (fy_inv _ _ _ _ _ _ H) as Hinv. pose proof (inv_ok _ _ _ _ Hinv) as Ho. pose proof (inv_meta _ _ _ _ Hinv) as [m1 m2 m3 m4].
  unfold sync_freemap. ksteps. destruct (fs_freemapdirty s) eqn:Ed.
  2: { exists s. split; [done|]. split; [done|]. split; [apply quiet_refl|done]. }
  destruct (m1 0 ltac:(by left)) as [_ H0]. pose proof (map_length s Ho ltac:(lia)) as Hl. pose proof (ok_blocks _ _ Ho). destruct (bitmap_size (nblocks s)) as [Hb1 Hb2]; [pose proof (ok_small _ _ Ho); lia|].
  set (n := SFS_BITBLOCKS (nblocks s)) in *. assert (Hn : 0 < n) by lia.
  assert (Hfit : 2 + n ≤ nblocks s) by (destruct (m1 (2 + n - 1)) as [_ ?]; [right; unfold SFS_MAP_LOCATION; fold n; lia|lia]).
  destruct (mapio_write_loop (Z.to_nat n) 0 s Ho) as (d' & E & h1 & h2 & h3 & h4); [lia|lia|].
  assert (Em : sfs_mapio UIO_WRITE s = Done (0, set_dev d' s)) by (unfold sfs_mapio; ksteps; exact E).
  kcall Em. cbn [Z.eqb negb]. ksteps. set (s' := set_freemapdirty false (set_dev d' s)). exists s'. split; [done|].
  destruct (meta_write R I m s s') as [H' Q]; try done.
  - intros b Hb Hno. apply h4; [lia|]. intros Hr. apply Hno. right. unfold SFS_MAP_LOCATION. fold n. lia.
  - split; try done.
    + intros Hd. etrans; [|exact (m3 Hd)]. apply h4; [unfold SFS_SB_LOCATION; lia|unfold SFS_SB_LOCATION; lia].
    + intros j _ Hj. apply h3. change (SFS_BITBLOCKS (nblocks s')) with n in Hj. lia.
Qed.

Lemma sync_super_ok R I m s :
  fsys cur R I m s →
  ∃ s', sync_super s = Done (0, s') ∧ fsys cur R I m s' ∧ quiet I s s' ∧ fs_vn s' = fs_vn s ∧ fs_superdirty s' = false ∧ fs_freemapdirty s' = fs_freemapdirty s.
Proof.
  intros H. pose proof (fy_inv _ _ _ _ _ _ H) as Hinv. pose proof (inv_ok _ _ _ _ Hinv) as Ho. pose proof (inv_meta _ _ _ _ Hinv) as [m1 m2 m3 m4].
  unfold sync_super. ksteps. destruct (fs_superdirty s) eqn:Ed.
  2: { exists s. split; [done|]. split; [done|]. split; [apply quiet_refl|done]. }
  ksteps. destruct (m1 0 ltac:(by left)) as [_ H0]. destruct (super_bytes_wf (fs_super s)) as [Hl _]; [apply m2|]. pose proof (ok_blocks _ _ Ho).
  destruct (wblock_ok cur s SFS_SB_LOCATION (super_bytes (fs_super s))) as (d' & E & [u1 u2 u3 u4]); [done|unfold SFS_SB_LOCATION; lia|done|].
  kcall E. cbn [Z.eqb negb]. ksteps. set (s' := set_superdirty false (set_dev d' s)). exists s'. split; [done|].
  destruct (meta_write R I m s s') as [H' Q]; try done.
  - intros b Hb Hno. apply u4; [lia|]. intros ->. apply Hno. by left.
  - split; try done. intros j Hd Hj. change (SFS_BITBLOCKS (nblocks s')) with (SFS_BITBLOCKS (nblocks s)) in Hj. change (map_block s' j) with (map_block s j). rewrite <- m4 by done.
    destruct (m1 (SFS_MAP_LOCATION + Z.of_nat j)) as [_ ?]; [right; lia|]. apply u4; [lia|unfold SFS_MAP_LOCATION, SFS_SB_LOCATION; lia].
Qed.

(** After [sfs_sync] nothing is dirty, and nothing else has changed. *)
Definition synced s : Prop := fs_superdirty s = false ∧ fs_freemapdirty s = false ∧ ∀ w, clean w s.

Lemma sync_ok R I m s :
  mounted R I m s → ∃ s', sfs_sync s = Done (0, s') ∧ ends R I m I s s' ∧ handles s' = handles s ∧ synced s'.
Proof.
  intros Hm. pose proof Hm as [H0 H]. unfold sfs_sync. pose proof (mounted_inside cur R I m s Hm) as Hm0.
  destruct (sync_vnodes_ok R I m (fs_vnodes s) (inside s) Hm0) as (s1 & E1 & (Hm1 & K1 & D1) & Hh1 & Hc1 & Hdom1).
  { intros v Hv. by apply (inv_table _ _ _ _ (fy_inv _ _ _ _ _ _ H)). }
  cbn in D1. pose proof (mounted_here R I m s1 Hm1 ltac:(lia)) as H1.
  destruct (sync_freemap_ok R I m s1 H1) as (s2 & E2 & H2 & Q2 & V2 & F2 & _).
  destruct (sync_super_ok R I m s2 H2) as (s3 & E3 & H3 & Q3 & V3 & F3 & F3').
  assert (D3 : fs_depth s3 = fs_depth s + 1) by (rewrite (q_depth _ _ _ _ Q3), (q_depth _ _ _ _ Q2); exact D1).
  exists (set_depth (fs_depth s) s3). split; [|split; [|split; [|split; [exact F3|split]]]].
  - apply locked_run; [|exact D3|done]. ksteps. kcall E1. kcall E2. cbn [Z.eqb negb]. exact E3.
  - apply ends_intro; [done|done| |exact D3]. eapply kept_trans; [exact K1|]. eapply kept_trans; by apply quiet_kept.
  - etrans; [|exact Hh1]. unfold handles. cbn. by rewrite V3, V2.
  - cbn. congruence.
  - intros w sw Hw. cbn in Hw. rewrite V3, V2 in Hw. apply (Hc1 w); [|done]. left.
    apply (inv_table _ _ _ _ (fy_inv _ _ _ _ _ _ H)). apply (Hdom1 w). by rewrite Hw.
Qed.

(** ** Unmounting *)

Lemma unmount_ok R I m s :
  mounted R I m s → synced s →
  (fs_vn s = ∅ → sfs_unmount s = Done (0, s)) ∧ (fs_vn s ≠ ∅ → sfs_unmount s = Done (EBUSY, s)).
Proof.
  intros [H0 H] (Hs & Hf & _). pose proof (inv_table _ _ _ _ (fy_inv _ _ _ _ _ _ H)) as Ht. cbn in Ht.
  assert (Hrun : ∀ r, (vs <- kgets fs_vnodes ;;
    if 0 <? Z.of_nat (length vs) then kret EBUSY
    else
      sd <- kgets fs_superdirty ;;
      kassert (negb sd) ;;
      fd <- kgets fs_freemapdirty ;;
      kassert (negb fd) ;;
      kret 0) (inside s) = Done (r, inside s) → sfs_unmount s = Done (r, s)).
  { intros r E. unfold sfs_unmount. rewrite (locked_run _ s r (inside s)); [by rewrite depth_back|exact E|done|done]. }
  split; intros Hvn; apply Hrun; ksteps; change (fs_vnodes (inside s)) with (fs_vnodes s).
  - assert (fs_vnodes s = []) as ->.
    { destruct (fs_vnodes s) as [|v vs]; [done|]. destruct (proj1 (Ht v)) as [sv Hv]; [by left|]. by rewrite Hvn in Hv. }
    change (0 <? Z.of_nat (length (@nil nat))) with false. cbv iota. ksteps. change (fs_superdirty (inside s)) with (fs_superdirty s). rewrite Hs, step_assert by done. ksteps.
    change (fs_freemapdirty (inside s)) with (fs_freemapdirty s). by rewrite Hf.
  - apply map_choose in Hvn as (v & sv & Hv). assert (Hvs : v ∈ fs_vnodes s) by (apply Ht; by rewrite Hv).
    destruct (fs_vnodes s) as [|w vs]; [by apply elem_of_nil in Hvs|]. done.
Qed.

(** ** Mounting *)

Lemma create_freemap_ok n t :
  0 ≤ n < 2 ^ 32 - 8 → fs_oom t = [] → ∃ fm, create_freemap n t = Done (true, set_freemap fm t) ∧ nbits fm = n ∧ bm_wf fm.
Proof.
  intros Hn Ho. destruct (bitmap_init_ok 0 0 n Hn) as (b & E & _ & _ & Hb & Hwf & _). exists b. split; [|done].
  unfold create_freemap. kcall (next_alloc_ok t Ho). cbn [negb]. kcall (next_alloc_ok t Ho). cbn [negb]. ksteps. unfold kzoom, kbind at 1.
  change BITS_PER_WORD with 8. cbn [set_freemap fs_freemap]. by rewrite E.
Qed.

(** The map as the blocks of the disk give it. *)
Lemma map_blocks l n : length l = (512 * n)%nat → concat ((λ j, slice (512 * j) 512 l) <$> seq 0 n) = l.
Proof.
  intros Hl. enough (∀ k j, (j + k ≤ n)%nat → concat ((λ j, slice (512 * j) 512 l) <$> seq j k) = slice (512 * j) (512 * k) l) as E.
  { rewrite E by lia. unfold slice. rewrite drop_0. apply take_ge. lia. }
  induction k as [|k IH]; intros j Hj; [by rewrite Nat.mul_0_r|]. rewrite concat_seq_S, IH by lia.
  replace (512 * S j)%nat with (512 * j + 512)%nat by lia. rewrite slice_app. f_equal. lia.
Qed.

(** What the body of [sfs_domount] leaves when the device holds a file system
    that was written back. *)
Lemma domount_body R s t :
  fs_ok cur s → meta_ok cur R s → fs_superdirty s = false → fs_freemapdirty s = false →
  dev_same cur (fs_dev s) (fs_dev t) → fs_oom t = [] → 0 ≤ fs_depth t →
  ∃ fm d', sfs_domount 512 t =
      Done (0, set_freemapdirty false (set_superdirty false (set_freemap fm (set_super (fs_super s) (set_vnodes [] (set_dev d' t)))))) ∧
    dev_same cur (fs_dev s) d' ∧ nbits fm = nbits (fs_freemap s) ∧ Bitmap.v fm = Bitmap.v (fs_freemap s).
Proof.
  intros Ho [m1 (m2 & mg & mv) m3 m4] Hsd Hfd Dt Hoom Hdep. destruct (m1 0 ltac:(by left)) as [_ H0].
  pose proof (ok_blocks _ _ Ho) as Hbl. pose proof (ok_small _ _ Ho) as Hsm. pose proof (map_length s Ho ltac:(lia)) as Hl.
  destruct (bitmap_size (nblocks s)) as [Hb1 Hb2]; [lia|]. set (n := SFS_BITBLOCKS (nblocks s)) in *.
  assert (Hfit : 2 + n ≤ nblocks s) by (destruct (m1 (2 + n - 1)) as [_ ?]; [right; unfold SFS_MAP_LOCATION; fold n; lia|lia]).
  set (t0 := set_vnodes [] (set_depth (fs_depth t + 1) t)).
  destruct (rblock_dev cur t0 SFS_SB_LOCATION) as (d1 & E1 & D1); [apply Dt|cbn; lia|cbn; rewrite (ds_blocks _ _ _ Dt); unfold SFS_SB_LOCATION; lia|done|].
  change (fs_dev t0) with (fs_dev t) in D1.
  assert (Hsp : data t0 SFS_SB_LOCATION = super_bytes (fs_super s)).
  { rewrite <- (m3 Hsd). apply (ds_data _ _ _ Dt). unfold SFS_SB_LOCATION. lia. }
  rewrite Hsp in E1. destruct (super_bytes_wf (fs_super s) m2) as [_ Hrt].
  assert (Hsup : mk_super (sp_magic (fs_super s)) (sp_nblocks (fs_super s)) (<[31%nat := 0]> (sp_volname (fs_super s))) (sp_reserved (fs_super s)) = fs_super s).
  { rewrite list_insert_id by done. by destruct (fs_super s). }
  set (t1 := set_super (fs_super s) (set_dev d1 t0)).
  destruct (create_freemap_ok (SFS_BITMAPSIZE (nblocks s)) t1) as (b & E2 & Hnb & Hwf); [lia|done|]. set (t2 := set_freemap b t1).
  assert (Hvl : Z.of_nat (length (Bitmap.v b)) = 512 * n).
  { rewrite (wf_length _ Hwf), Hnb, Hb1. replace (4096 * n + 7) with (7 + 512 * n * 8) by lia. rewrite Z.div_add by lia. change (7 / 8) with 0. lia. }
  pose proof (dev_same_trans _ _ _ _ Dt D1) as D01. pose proof D01 as [o1 o2 o3].
  destruct (mapio_read_loop (Z.to_nat n) 0 t2) as (d2 & E3 & D2); [done|cbn; lia|change (fs_dev t2) with d1; rewrite o2; lia|lia|change (fs_freemap t2) with b; lia|].
  change (fs_freemap t2) with b in E3. change (fs_dev t2) with d1 in D2.
  assert (Hmap : take (512 * 0) (Bitmap.v b) ++ concat ((λ i, data t2 (2 + Z.of_nat i)) <$> seq 0 (Z.to_nat n)) ++ drop (512 * (0 + Z.to_nat n)) (Bitmap.v b) = Bitmap.v (fs_freemap s)).
  { rewrite take_0, drop_ge, app_nil_r by lia. cbn [app]. rewrite <- (map_blocks (Bitmap.v (fs_freemap s)) (Z.to_nat n)) by lia. f_equal.
    apply list_fmap_ext. intros i x [-> Hi]%lookup_seq. rewrite Nat.add_0_l. etrans; [|apply (m4 i Hfd); fold n; lia]. apply o3. lia. }
  rewrite Hmap in E3. exists (set_v (Bitmap.v (fs_freemap s)) b), d2. split.
  - unfold sfs_domount.
    rewrite (locked_run _ t 0 (set_freemapdirty false (set_superdirty false (set_freemap (set_v (Bitmap.v (fs_freemap s)) b) (set_dev d2 t2))))); [done| |done|done].
    change (negb (512 =? SFS_BLOCKSIZE)) with false. cbv iota. kcall (next_alloc_ok (set_depth (fs_depth t + 1) t) Hoom). cbn [negb].
    kcall (next_alloc_ok (set_depth (fs_depth t + 1) t) Hoom). cbn [negb]. ksteps. fold t0. kcall E1. rewrite Hrt, mg, Z.eqb_refl. cbn [negb]. ksteps. rewrite <- mg, Hsup. fold t1.
    kcall E2. cbn [negb]. fold t2. assert (Em : sfs_mapio UIO_READ t2 = Done (0, set_freemap (set_v (Bitmap.v (fs_freemap s)) b) (set_dev d2 t2))) by (unfold sfs_mapio; ksteps; exact E3).
    kcall Em. cbn [Z.eqb negb]. ksteps. done.
  - split; [by eapply dev_same_trans|]. split; [|done]. cbn. by rewrite Hnb, (ok_bits _ _ Ho).
Qed.

Lemma wf_same fm fm' : bm_wf fm → nbits fm' = nbits fm → Bitmap.v fm' = Bitmap.v fm → bm_wf fm'.
Proof. intros [w1 w2 w3 w4] e1 e2. split; rewrite ?e1, ?e2; done. Qed.
Lemma set_same fm fm' : nbits fm' = nbits fm → Bitmap.v fm' = Bitmap.v fm → bm_set fm' = bm_set fm.
Proof. intros e1 e2. unfold bm_set. by rewrite e1, e2. Qed.

(** Mounting what was written back gives the same names and files. *)
Lemma remount_ok R I m s t :
  mounted R I m s → synced s → fs_vn s = ∅ → fs_dev t = fs_dev s → fs_vn t = ∅ → fs_oom t = [] → 0 ≤ fs_depth t →
  ∃ t', sfs_domount 512 t = Done (0, t') ∧ mounted R I m t' ∧ kept cur I s t' ∧ handles t' = ∅.
Proof.
  intros [H0 H] (Hsd & Hfd & _) Hvn Hdev Hvt Hot Hdt. set (s0 := set_depth (fs_depth t + 1) s).
  assert (H1 : fsys cur R I m s0) by (apply (fsy_depth cur R I m (links m) (inside s) (fs_depth t + 1) H); lia).
  pose proof (fy_inv _ _ _ _ _ _ H1) as Hinv. pose proof (inv_ok _ _ _ _ Hinv) as Ho. pose proof (inv_meta _ _ _ _ Hinv) as Hmo.
  destruct (domount_body R s0 t Ho Hmo Hsd Hfd) as (fm & d' & E & Dd & Hn & Hv); [rewrite Hdev; apply dev_same_refl, Ho|done|done|].
  set (t' := set_freemapdirty false (set_superdirty false (set_freemap fm (set_super (fs_super s) (set_vnodes [] (set_dev d' t)))))) in *.
  exists t'. split; [exact E|]. set (s' := inside t').
  assert (Hnb : nblocks s' = nblocks s0) by done. assert (Hin : inuse s' = inuse s0) by (by apply set_same).
  assert (Hdata : ∀ b, 0 ≤ b < nblocks s0 → data s' b = data s0 b).
  { intros b Hb. apply (ds_data _ _ _ Dd). pose proof (ok_blocks _ _ Ho). lia. }
  assert (Hvv : fs_vn s' = fs_vn s0) by (cbn; by rewrite Hvt, Hvn).
  assert (Q : quiet I s0 s') by (apply (quiet_frame R); auto).
  assert (Hf : fsys cur R I m s').
  { apply (fsys_frame R I m s0 s'); try done.
    - destruct Ho as [o1 o2 o3 o4 o5 o6 o7 o8]. split; rewrite ?Hnb, ?Hin; try done; [apply Dd|by eapply wf_same|..].
      + cbn. by rewrite (ds_blocks _ _ _ Dd).
      + cbn. by rewrite Hn.
      + cbn. by rewrite Hn.
    - destruct Hmo as [m1 m2 m3 m4]. split; try done.
      + intros _. etrans; [|exact (m3 Hsd)]. apply Hdata. by apply (m1 SFS_SB_LOCATION); left.
      + intros j _ Hj. rewrite Hdata by (apply m1; right; unfold SFS_MAP_LOCATION; rewrite Hnb in Hj; lia). rewrite m4 by done. unfold map_block. cbn. by rewrite Hv.
    - assert (Hvs : fs_vn s' = ∅) by done. assert (Hvn' : fs_vnodes s' = []) by done.
      split; rewrite ?Hvs, ?Hvn'; try done; [apply NoDup_nil_2|]. intros v. rewrite lookup_empty. split; [by intros ?%elem_of_nil|by intros [? ?]]. }
  split; [|split].
  - split; [done|exact Hf].
  - exact (quiet_kept cur I s0 s' Q).
  - unfold handles. cbn. by rewrite Hvt.
Qed.

Lemma remount_represents R a s :
  represents cur R a s → a_handles a = ∅ →
  ∃ s1, sfs_sync s = Done (0, s1) ∧ sfs_unmount s1 = Done (0, s1) ∧
    ∀ t, fs_dev t = fs_dev s1 → fs_vn t = ∅ → fs_oom t = [] → 0 ≤ fs_depth t →
      ∃ t', sfs_domount 512 t = Done (0, t') ∧ represents cur R a t'.
Proof.
  intros Hrep Hh. pose proof Hrep as [r1 r2 r3 r4]. destruct (sync_ok _ _ _ s r2) as (s1 & E1 & (Hm1 & K1 & D1) & Hh1 & Hs1).
  assert (Hvn : fs_vn s1 = ∅) by (apply (fmap_empty_inv hd); change (handles s1 = ∅); congruence).
  exists s1. split; [done|]. split; [by apply (unmount_ok _ _ _ s1 Hm1 Hs1)|]. intros t Hd Hvt Hot Hdt.
  destruct (remount_ok _ _ _ s1 t Hm1 Hs1 Hvn Hd Hvt Hot Hdt) as (t' & E & Hm & K & Hht). exists t'. split; [done|].
  split; try done; [congruence|]. intros ino d z Hf. assert (Hne : ino ≠ ROOT) by (by intros ->; congruence).
  assert (HI : ino ∈ {[ROOT]} ∪ dom (a_files a)) by (apply elem_of_union_r; by apply elem_of_dom_2 in Hf).
  apply K; [done|done|]. apply K1; [done|done|]. by apply r4.
Qed.
End Mount.
