(* ===== verification/SfsExample.v ===== *)
(** * SFS: a small disk

    A disk of 16 sectors behind the driver of Lhd.v, holding a file system with
    one file: the superblock, the inode of the root directory, the free map,
    the inode of the file, its block and the block of the directory. *)

From stdpp Require Import base numbers list gmap sets.
From Stdlib Require Import ZArith Lia.
From S2P Require Import Prelude CString Bitmap Uio Device Lhd SfsDisk Sfs SfsBlocks SfsFile SfsIo SfsDir SfsInv SfsVnode SfsTrunc SfsReclaim SfsOps SfsNames SfsFiles SfsSpec.

Open Scope Z_scope.

(** ** A disk that is a table *)

Abbreviation ram := (gmap Z (list Z)).
Definition ram_sector (d : ram) (s : Z) : list Z :=
  match d !! s with Some l => if bool_decide (length l = 512%nat) then l else replicate 512 0 | None => replicate 512 0 end.
Definition ram_put (s : Z) (b : list Z) (d : ram) : ram := <[s := b]> d.
Definition ram_op (w : bool) (s : Z) (b : list Z) (d : ram) : Z * list Z * ram :=
  if w then if bool_decide (length b = 512%nat) then (LHD_OK, b, ram_put s b d) else (LHD_MEDIA, b, d)
  else (LHD_OK, ram_sector d s, d).

Lemma ram_sector_len d s : length (ram_sector d s) = 512%nat.
Proof. unfold ram_sector. destruct (d !! s); [|done]. case_bool_decide; done. Qed.

Lemma ram_put_same d s b : length b = 512%nat → ram_sector (ram_put s b d) s = b.
Proof. intros Hb. unfold ram_sector, ram_put. rewrite lookup_insert_eq. by rewrite bool_decide_eq_true_2. Qed.
Lemma ram_put_other d s t b : t ≠ s → ram_sector (ram_put s b d) t = ram_sector d t.
Proof. intros Ht. unfold ram_sector, ram_put. by rewrite lookup_insert_ne. Qed.

#[global] Instance ram_hw : DiskHw ram.
Proof.
  refine (Build_DiskHw ram ram_sector ram_op _ _ _ _ _ _ _).
  - intros [] s b d; cbn; [case_bool_decide|]; cbn; rewrite !elem_of_cons; auto.
  - apply ram_sector_len.
  - intros [] s b d Hb; cbn; [by rewrite bool_decide_eq_true_2|apply ram_sector_len].
  - done.
  - done.
  - intros s b d. unfold ram_op. case_bool_decide as Hb; [|done]. intros _. by apply ram_put_same.
  - intros s b d t Ht. unfold ram_op. case_bool_decide as Hb; [|done]. by apply ram_put_other.
Defined.
#[global] Instance ram_reliable : ReliableHw ram.
Proof. intros [] s b d Hb; cbn; [by rewrite bool_decide_eq_true_2|done]. Qed.

(** The kernel runs in no address space. *)
#[export] Instance drive_dev : Device (@lhd_softc ram) := lhd_dev None.
#[export] Instance drive_device : BlockDevice None (@lhd_softc ram) := lhd_device None.

(** ** The file system *)

Definition name_a : list Z := [97].
Definition root_inode : sfs_inode := mk_inode 64 SFS_TYPE_DIR 1 (5 :: replicate 14 0) 0 (replicate 110 0).
Definition file_inode : sfs_inode := mk_inode 5 SFS_TYPE_FILE 1 (4 :: replicate 14 0) 0 (replicate 110 0).
Definition hello : list Z := [104; 101; 108; 108; 111].
Definition volume : sfs_super := mk_super SFS_MAGIC 16 (replicate 32 0) (replicate 472 0).
Definition map_bytes : list Z := [63; 0] ++ replicate 510 255.

Definition disk : ram := list_to_map [
  (0, super_bytes volume);
  (1, bytes_of (inode_words root_inode));
  (2, map_bytes);
  (3, bytes_of (inode_words file_inode));
  (4, hello ++ replicate 507 0);
  (5, dir_bytes (mk_dir 3 (name_a ++ replicate 59 0)) ++ replicate 448 0)].
Definition drive : @lhd_softc ram := mk_lhd 16 (replicate 512 0) 1 0 0 0 0 disk.

Abbreviation exfs := (@sfs_fs (@lhd_softc ram)).
Definition state (vns : gmap nat sfs_vnode) (next : nat) : exfs :=
  mk_fs volume false (Bitmap 0 0 4096 map_bytes) false (map_to_list vns).*1 vns next [] drive 0.

(** No vnode loaded; the directory and the file loaded. *)
Definition root_vn : sfs_vnode := mk_vnode root_inode 1 false 1 0 sfs_dirops.
Definition file_vn : sfs_vnode := mk_vnode file_inode 3 false 1 0 sfs_fileops.
Definition idle : exfs := state ∅ 0.
Definition busy : exfs := state {[0%nat := root_vn; 1%nat := file_vn]} 2.

Definition reserved : gset Z := bm_set (Bitmap 0 0 4096 map_bytes) ∖ {[1; 3; 4; 5]}.

Section Example.
Abbreviation inode_is := (inode_is None).
Abbreviation data := (data None).
Implicit Types (vns : gmap nat sfs_vnode) (j b : Z) (i : sfs_inode).

Definition inode_at (j : Z) : sfs_inode := if j =? 1 then root_inode else file_inode.
(** Tables of vnodes that fit the disk. *)
Record vns_ok vns (next : nat) : Prop := {
  vo_at v sv : vns !! v = Some sv → (sv_ino sv = 1 ∨ sv_ino sv = 3) ∧ sv_i sv = inode_at (sv_ino sv) ∧ (0 < vn_refcount sv) ∧ 0 ≤ vn_opencount sv ∧ ops_ok sv;
  vo_one v w sv sw : vns !! v = Some sv → vns !! w = Some sw → sv_ino sv = sv_ino sw → v = w;
  vo_next v : (next ≤ v)%nat → vns !! v = None
}.

Lemma disk_inode_at vns n j d : j = 1 ∨ j = 3 → disk_inode None (set_depth d (state vns n)) j = inode_at j.
Proof. intros [-> | ->]; vm_compute; reflexivity. Qed.
Lemma inode_at_ok vns n j i d : vns_ok vns n → j = 1 ∨ j = 3 → inode_is (set_depth d (state vns n)) j i ↔ i = inode_at j.
Proof.
  intros [o1 o2 o3] Hj. split.
  - intros [(v & sv & Hv & <- & <-)|[_ ->]]; [by apply (o1 v)|by apply disk_inode_at].
  - intros ->. destruct (inode_is_ex None (set_depth d (state vns n)) j) as [i Hi]. enough (i = inode_at j) by (by subst).
    destruct Hi as [(v & sv & Hv & <- & <-)|[_ ->]]; [by apply (o1 v)|by apply disk_inode_at].
Qed.

Lemma owns_at vns n j d : j = 1 ∨ j = 3 → owns None (set_depth d (state vns n)) (vn (inode_at j) j) = [if j =? 1 then 5 else 4].
Proof. by intros [-> | ->]. Qed.

Lemma map_wf : bm_wf (Bitmap 0 0 4096 map_bytes).
Proof.
  split; cbn [nbits v]; [lia|done| |].
  - unfold map_bytes. apply Forall_app. split; [repeat (apply Forall_cons_2; [lia|]); apply Forall_nil_2|by apply Forall_replicate].
  - intros i Hi. change (8 * Z.of_nat (length map_bytes)) with 4096 in Hi. lia.
Qed.
Lemma bits_tail b : 16 ≤ b < 4096 → bit_at map_bytes b = true.
Proof.
  assert (H : forallb (bit_at map_bytes) (seqZ 16 4080) = true) by (vm_compute; reflexivity).
  intros Hb. rewrite forallb_forall in H. apply H. apply list_elem_of_In, elem_of_seqZ. lia.
Qed.
Lemma used b : b ∈ bm_set (Bitmap 0 0 4096 map_bytes) ↔ 0 ≤ b < 6 ∨ 16 ≤ b < 4096.
Proof.
  rewrite elem_of_bm_set. cbn [nbits v]. split.
  - intros [Hb Ht]. destruct (decide (b < 16)); [|right; lia]. left.
    assert (H : forallb (λ b, negb (bit_at map_bytes b)) (seqZ 6 10) = true) by (vm_compute; reflexivity).
    rewrite forallb_forall in H. destruct (decide (b < 6)); [lia|]. specialize (H b). rewrite Ht in H. exfalso.
    assert (In b (seqZ 6 10)) by (apply list_elem_of_In, elem_of_seqZ; lia). by apply H in H0.
  - intros [Hb|Hb]; [|split; [lia|by apply bits_tail]].
    assert (H : forallb (bit_at map_bytes) (seqZ 0 6) = true) by (vm_compute; reflexivity).
    rewrite forallb_forall in H. split; [lia|]. apply H. apply list_elem_of_In, elem_of_seqZ. lia.
Qed.

#[local] Opaque bm_set.

Lemma example_meta vns n d : meta_ok None reserved (set_depth d (state vns n)).
Proof.
  split.
  - intros b Hb. assert (b = 0 ∨ b = 2) as Hb2.
    { destruct Hb as [->|Hb]; [by left|right]. change (SFS_BITBLOCKS (nblocks (set_depth d (state vns n)))) with 1 in Hb. unfold SFS_MAP_LOCATION in Hb. lia. }
    change (nblocks (set_depth d (state vns n))) with 16. split; [|lia]. unfold reserved. rewrite elem_of_difference, used. split; [lia|]. set_unfold. lia.
  - split; [|done]. by split.
  - intros _. vm_compute. reflexivity.
  - intros j _ Hj. change (SFS_BITBLOCKS (nblocks (set_depth d (state vns n)))) with 1 in Hj. assert (j = 0%nat) as -> by lia. vm_compute. reflexivity.
Qed.

Lemma example_ok vns n d : 0 < d → fs_ok None (set_depth d (state vns n)).
Proof.
  intros Hd. split.
  - repeat split; done.
  - done.
  - apply map_wf.
  - by cbn.
  - by vm_compute.
  - intros b Hb. apply used. change (nblocks (set_depth d (state vns n))) with 16 in Hb. change (nbits (fs_freemap (set_depth d (state vns n)))) with 4096 in Hb. lia.
  - apply used. lia.
  - by cbn.
Qed.

Definition names : gmap (list Z) Z := {[name_a := 3]}.
Definition inodes : gset Z := {[1]} ∪ {[3]}.
Lemma inodes_elem j : j ∈ inodes ↔ j = 1 ∨ j = 3.
Proof. unfold inodes. rewrite elem_of_union, !elem_of_singleton. done. Qed.

Lemma inode_at_wf j : inode_wf (inode_at j).
Proof. unfold inode_at. destruct (j =? 1); split; try done; repeat (apply Forall_cons_2 || apply Forall_nil_2 || apply Forall_replicate); done. Qed.

Lemma example_file vns n d j : j = 1 ∨ j = 3 → file_ok None (set_depth d (state vns n)) (vn (inode_at j) j).
Proof.
  intros Hj. pose proof (owns_at vns n j d Hj) as Ho. change (nblocks (set_depth d (state vns n))) with 16 in *.
  split; rewrite ?Ho; change (nblocks (set_depth d (state vns n))) with 16.
  - apply inode_at_wf.
  - apply NoDup_singleton.
  - intros b ->%list_elem_of_singleton. change (inuse (set_depth d (state vns n))) with (bm_set (Bitmap 0 0 4096 map_bytes)). rewrite used.
    destruct (Z.eqb_spec j 1); lia.
  - change (inuse (set_depth d (state vns n))) with (bm_set (Bitmap 0 0 4096 map_bytes)). rewrite used, list_elem_of_singleton. cbn [vn sv_ino].
    destruct (Z.eqb_spec j 1); lia.
Qed.

Lemma example_inv vns n d : vns_ok vns n → 0 < d → sfs_inv None reserved inodes (set_depth d (state vns n)).
Proof.
  intros Hok Hd. pose proof Hok as [o1 o2 o3]. set (s := set_depth d (state vns n)).
  assert (His : ∀ j i, j ∈ inodes → inode_is s j i → (j = 1 ∨ j = 3) ∧ i = inode_at j).
  { intros j i Hj Hi. apply inodes_elem in Hj. split; [done|]. by apply (inode_at_ok vns n j i d). }
  assert (Hown : ∀ j i b, j ∈ inodes → inode_is s j i → b ∈ owns None s (vn i j) → (j = 1 ∧ b = 5) ∨ (j = 3 ∧ b = 4)).
  { intros j i b Hj Hi Hb. destruct (His j i Hj Hi) as [Hj' ->]. unfold s in Hb. rewrite owns_at in Hb by done. apply list_elem_of_singleton in Hb. destruct Hj' as [-> | ->]; auto. }
  assert (Hmine : ∀ j b, j = 1 ∨ j = 3 → b = (if j =? 1 then 5 else 4) → ∃ ino i, ino ∈ inodes ∧ inode_is s ino i ∧ b ∈ owns None s (vn i ino)).
  { intros j b Hj ->. exists j, (inode_at j). split; [by apply inodes_elem|]. split; [by apply (inode_at_ok vns n j _ d)|].
    unfold s. rewrite owns_at by done. by apply list_elem_of_singleton. }
  split.
  - by apply example_ok.
  - reflexivity.
  - apply NoDup_fst_map_to_list.
  - intros v. change (fs_vnodes s) with (map_to_list vns).*1. change (fs_vn s) with vns. rewrite list_elem_of_fmap. split.
    + intros ([w sv] & -> & Hv%elem_of_map_to_list). by exists sv.
    + intros [sv Hv]. exists (v, sv). split; [done|]. by apply elem_of_map_to_list.
  - exact o3.
  - exact o2.
  - intros v sv Hv. destruct (o1 v sv Hv) as (Hi & _ & ?). split; [by apply inodes_elem|done].
  - intros v sv Hv _. destruct (o1 v sv Hv) as (Hi & -> & _). by apply disk_inode_at.
  - intros j i Hj Hi. destruct (His j i Hj Hi) as [Hj' ->]. split; [by apply example_file|]. destruct Hj' as [-> | ->]; [right; left|left].
  - intros j k i i' Hj Hk Hne Hi Hi'. split.
    + intros Hb. apply Hown in Hb; [|done|done]. apply inodes_elem in Hk. lia.
    + intros b Hb Hb'. apply Hown in Hb; [|done|done]. apply Hown in Hb'; [|done|done]. lia.
  - intros b [Hb Hno]%elem_of_difference. split; [rewrite inodes_elem; set_unfold in Hno; tauto|]. intros j i Hj Hi Hbo. apply Hown in Hbo; [|done|done].
    set_unfold in Hno. lia.
  - intros b. change (inuse s) with (bm_set (Bitmap 0 0 4096 map_bytes)). unfold reserved. rewrite elem_of_difference, inodes_elem. split.
    + intros Hb. destruct (decide (b ∈ ({[1; 3; 4; 5]} : gset Z))) as [Hin|Hin]; [right|left; exact (conj Hb Hin)]. clear Hb. set_unfold in Hin.
      destruct Hin as [[[->| ->]| ->]| ->]; [left; by left|left; by right| |]; right.
      * apply (Hmine 3 4); [by right|reflexivity].
      * apply (Hmine 1 5); [by left|reflexivity].
    + rewrite used. intros [[Hb _]|[Hb|(j & i & Hj & Hi & Hb)]]; [exact Hb|lia|]. apply Hown in Hb; [|done|done]. lia.
  - apply example_meta.
Qed.

Lemma example_entries vns n d : entries None (set_depth d (state vns n)) (vn root_inode 1) = [mk_dir 3 (name_a ++ replicate 59 0)].
Proof. vm_compute. reflexivity. Qed.
Lemma example_named vns n d k name ino :
  named None (set_depth d (state vns n)) (vn root_inode 1) k name ino ↔ k = 0%nat ∧ name = name_a ∧ ino = 3.
Proof.
  unfold named. rewrite example_entries. split.
  - intros (e & He & <- & _ & <-). destruct k; [|done]. injection He as <-. done.
  - intros (-> & -> & ->). eexists. split; [reflexivity|]. done.
Qed.
Lemma example_links : links names 3 = 1.
Proof. vm_compute. reflexivity. Qed.

Lemma example_mounted vns n : vns_ok vns n → mounted None reserved inodes names (state vns n).
Proof.
  intros Hok. split; [done|]. change (fs_depth (state vns n) + 1) with 1. set (s := set_depth 1 (state vns n)).
  split.
  - by apply example_inv.
  - apply inodes_elem. by left.
  - intros i Hi. apply (inode_at_ok vns n 1 i 1 Hok) in Hi; [|by left]. subst i. split; [|split; [|done]].
    + split; try done. intros k k' name ino ino' (-> & _)%example_named (-> & _)%example_named. done.
    + intros name ino. unfold names. rewrite lookup_singleton_Some. split.
      * intros [<- <-]. exists 0%nat. by apply example_named.
      * intros [k (_ & -> & ->)%example_named]. done.
  - intros name ino Hn. unfold names in Hn. apply lookup_singleton_Some in Hn as [_ <-]. split; [apply inodes_elem; by right|done].
  - intros ino i Hi Hne Hin. apply inodes_elem in Hi as [->| ->]; [done|]. apply (inode_at_ok vns n 3 i 1 Hok) in Hin; [|by right]. subst i. by rewrite example_links.
  - intros ino Hi Hne _. apply inodes_elem in Hi as [->| ->]; [done|]. by rewrite example_links.
Qed.

(** What the file holds. *)
Definition file_bytes : list Z := contents None idle (vn file_inode 3).
Definition view (h : gmap nat (Z * Z * Z)) : afs := mk_afs names {[3 := (file_bytes, 5)]} h.

Lemma example_represents vns n h : vns_ok vns n → h = hd <$> vns → represents None reserved (view h) (state vns n).
Proof.
  intros Hok ->. split.
  - done.
  - cbn [a_files a_names view]. rewrite dom_singleton_L. by apply example_mounted.
  - done.
  - intros ino d z Hf. cbn [a_files view] in Hf. apply lookup_singleton_Some in Hf as [<- [= <- <-]]. exists file_inode. split; [|done].
    apply (inode_at_ok vns n 3 file_inode 0 Hok). by right. done.
Qed.
End Example.

Lemma idle_ok : vns_ok ∅ 0.
Proof. split; intros *; by rewrite ?lookup_empty. Qed.
Lemma idle_represents : represents None reserved (view ∅) idle.
Proof. apply (example_represents ∅ 0 ∅ idle_ok). symmetry. apply fmap_empty. Qed.

Lemma busy_ok : vns_ok {[0%nat := root_vn; 1%nat := file_vn]} 2.
Proof.
  split.
  - intros v sv [[<- <-]|[_ [<- <-]%lookup_singleton_Some]]%lookup_insert_Some; (split; [auto|done]).
  - intros v w sv sw [[<- <-]|[_ [<- <-]%lookup_singleton_Some]]%lookup_insert_Some [[<- <-]|[_ [<- <-]%lookup_singleton_Some]]%lookup_insert_Some; done.
  - intros v Hv. rewrite lookup_insert_ne, lookup_singleton_ne by lia. done.
Qed.
Lemma busy_represents : represents None reserved (view {[0%nat := (1, 1, 0); 1%nat := (3, 1, 0)]}) busy.
Proof.
  apply (example_represents {[0%nat := root_vn; 1%nat := file_vn]} 2 _ busy_ok). rewrite fmap_insert, map_fmap_singleton. reflexivity.
Qed.
