(* ===== verification/SfsTheorems.v ===== *)
(** * SFS: the theorems

    Programs that use a mounted file system through its vnodes, and what holds
    while they run: every call behaves as SfsSpec.v says, the blocks stay
    accounted for, the in-memory fields stay within their types, and a volume
    that is synced, unmounted and mounted again shows the same files.  Then two
    places where the code does less than it means to: truncation, and the retry
    of a failed write. *)

From stdpp Require Import base numbers list gmap sets.
From Stdlib Require Import ZArith Lia.
From S2P Require Import Prelude CString Bitmap Uio Device Lhd SfsDisk Sfs SfsBlocks SfsFile SfsIo SfsDir SfsInv SfsVnode SfsTrunc SfsReclaim SfsOps SfsNames SfsFiles SfsSpec SfsMount SfsExample.

Open Scope Z_scope.
Open Scope kernel_scope.

Lemma bind_io_inv {S} (c : K S (Z * uio)) s e u s' :
  (let* (r, u) := c in kret (ret_io r u)) s = Done (ret_io e u, s') → c s = Done ((e, u), s').
Proof. unfold kbind, kret. destruct (c s) as [[[r v] t]| | |]; congruence. Qed.
Lemma bind_z_inv {S} (c : K S Z) s e s' : (r <- c ;; kret (ret_z r)) s = Done (ret_z e, s') → c s = Done (e, s').
Proof. unfold kbind, kret. destruct (c s) as [[r t]| | |]; congruence. Qed.

(** ** Clients *)

(** A program: a call, and how it goes on with the result. *)
Inductive client :=
  | stop
  | call (o : op) (k : ret → client).

Section Clients.
Context (cur : option nat) {D : Type} {DV : Device D} {BD : BlockDevice cur D}.
Abbreviation fs := (@sfs_fs D).
Abbreviation inside s := (set_depth (fs_depth s + 1) s).
Implicit Types (c : client) (a : afs) (s : fs).

Fixpoint run_client c : K fs (list (op * ret)) :=
  match c with
  | stop => kret []
  | call o k => r <- run cur o ;; t <- run_client (k r) ;; kret ((o, r) :: t)
  end.

(** What it may see according to the specification. *)
Inductive behaves : afs → client → list (op * ret) → afs → Prop :=
  | b_stop a : behaves a stop [] a
  | b_call a o k r a1 t a2 : step cur a o r a1 → behaves a1 (k r) t a2 → behaves a (call o k) ((o, r) :: t) a2.

(** It keeps the rules of the interface, whatever the answers. *)
Fixpoint safe a c : Prop :=
  match c with
  | stop => True
  | call o k => allowed cur a o ∧ ∀ r a', step cur a o r a' → safe a' (k r)
  end.

Lemma clients_simulated R c a s :
  represents cur R a s → safe a c → ∃ t a' s', run_client c s = Done (t, s') ∧ behaves a c t a' ∧ represents cur R a' s'.
Proof.
  revert a s. induction c as [|o k IH]; intros a s Hrep Hs.
  - exists [], a, s. split; [done|]. split; [constructor|done].
  - destruct Hs as [Ha Hk]. destruct (simulation cur R a o s Hrep Ha) as (r & s1 & a1 & E & Hst & [Hrep1 _] & _).
    destruct (IH r a1 s1 Hrep1 (Hk r a1 Hst)) as (t & a' & s' & E' & Hb & Hrep').
    exists ((o, r) :: t), a', s'. split; [|split; [by econstructor|done]]. cbn [run_client]. kcall E. by kcall E'.
Qed.

(** ** What a represented state is *)

Lemma rep_inv R a s : represents cur R a s → sfs_inv cur R ({[SFS_ROOT_LOCATION]} ∪ dom (a_files a)) (inside s).
Proof. intros [_ [_ H] _ _]. apply H. Qed.

Lemma rep_length R a s ino d z : represents cur R a s → a_files a !! ino = Some (d, z) → Z.of_nat (length d) = MAXSIZE.
Proof.
  intros Hrep Hf. pose proof (rep_inv R a s Hrep) as Hinv. destruct (rep_files _ _ _ _ Hrep ino d z Hf) as (i & Hi & <- & _).
  destruct (inv_file _ _ _ _ Hinv ino i) as [Hok _]; [apply elem_of_union_r; by apply elem_of_dom_2 in Hf|done|].
  destruct (fblocks_length cur (inside s) (vn i ino) (inv_ok _ _ _ _ Hinv) Hok) as [Hl Hb].
  change (contents cur s (vn i ino)) with (concat (fblocks cur (inside s) (vn i ino))). rewrite (concat_length _ Hb), Hl. unfold MAXBLOCKS, MAXSIZE. lia.
Qed.

(** Who has a block: the inodes of the directory and of the files, and the
    blocks these point to, are all the blocks in use, and none has two owners. *)
Definition accounted (R F : gset Z) s : Prop :=
  (∀ b, b ∈ bm_set (fs_freemap s) ↔ b ∈ R ∨ b ∈ F ∨ ∃ ino i, ino ∈ F ∧ inode_is cur s ino i ∧ b ∈ owns cur s (vn i ino)) ∧
  (∀ ino i, ino ∈ F → inode_is cur s ino i → NoDup (ino :: owns cur s (vn i ino)) ∧
    ∀ b, b ∈ ino :: owns cur s (vn i ino) → 0 < b < nblocks s ∧ b ∉ R) ∧
  (∀ ino ino' i i', ino ∈ F → ino' ∈ F → ino ≠ ino' → inode_is cur s ino i → inode_is cur s ino' i' →
    ∀ b, b ∈ ino :: owns cur s (vn i ino) → b ∉ ino' :: owns cur s (vn i' ino')).

Lemma rep_accounted R a s : represents cur R a s → accounted R ({[SFS_ROOT_LOCATION]} ∪ dom (a_files a)) s.
Proof.
  intros Hrep. pose proof (rep_inv R a s Hrep) as Hinv. set (F := _ ∪ _) in *. split; [apply Hinv|]. split.
  - intros ino i HF Hi. destruct (inv_file _ _ _ _ Hinv ino i HF Hi) as [[_ Hnd Hr (Hi1 & _ & Hi2)] _]. split; [by constructor|].
    intros b [->|Hb]%elem_of_cons.
    + split; [done|]. intros HR. by destruct (inv_reserved _ _ _ _ Hinv _ HR).
    + split; [by apply Hr|]. intros HR. by destruct (proj2 (inv_reserved _ _ _ _ Hinv _ HR) ino i HF Hi).
  - intros ino ino' i i' HF HF' Hne Hi Hi' b Hb Hb'.
    destruct (inv_disj _ _ _ _ Hinv ino ino' i i' HF HF' Hne Hi Hi') as [D1 D2].
    destruct (inv_disj _ _ _ _ Hinv ino' ino i' i HF' HF (not_eq_sym Hne) Hi' Hi) as [D3 _].
    apply elem_of_cons in Hb as [->|Hb]; apply elem_of_cons in Hb' as [Hb'|Hb']; [done|done|by subst|by apply (D2 b)].
Qed.

(** The fields of an inode are within their C types, its block numbers within
    the volume, and a vnode has the operations of its type. *)
Definition typed (F : gset Z) s : Prop :=
  (∀ ino i, ino ∈ F → inode_is cur s ino i →
    inode_wf i ∧ length (bytes_of (inode_words i)) = 512%nat ∧ sfi_type i ∈ [SFS_TYPE_FILE; SFS_TYPE_DIR] ∧
    Forall (λ b, 0 ≤ b < nblocks s) (sfi_indirect i :: sfi_direct i)) ∧
  (∀ v sv, fs_vn s !! v = Some sv → sv_ino sv ∈ F ∧ 0 < vn_refcount sv ∧ 0 ≤ vn_opencount sv ∧
    sfi_type (sv_i sv) = match vn_ops sv with sfs_fileops => SFS_TYPE_FILE | sfs_dirops => SFS_TYPE_DIR end).

Lemma rep_typed R a s : represents cur R a s → typed ({[SFS_ROOT_LOCATION]} ∪ dom (a_files a)) s.
Proof.
  intros Hrep. pose proof (rep_inv R a s Hrep) as Hinv. set (F := _ ∪ _) in *. split.
  - intros ino i HF Hi. destruct (inv_file _ _ _ _ Hinv ino i HF Hi) as [[Hwf _ Hr (Hi1 & _)] Ht]. split_and!; try done.
    + by rewrite length_bytes_of, inode_words_length.
    + apply Forall_forall. intros b Hb. destruct (decide (b = 0)) as [->|Hb0]; [change (nblocks (inside s)) with (nblocks s) in Hi1; lia|].
      assert (Hbo : b ∈ owns cur (inside s) (vn i ino)).
      { apply list_elem_of_filter. split; [done|]. apply elem_of_cons. apply elem_of_cons in Hb as [->|Hb]; [by left|right]. apply elem_of_app. by left. }
      apply Hr in Hbo as [Hbo _]. change (nblocks (inside s)) with (nblocks s) in Hbo. lia.
  - intros v sv Hv. destruct (inv_loaded _ _ _ _ Hinv v sv Hv) as (HF & Hrf & Hop & Hops). split_and!; try done.
    unfold ops_ok in Hops. by destruct (vn_ops sv).
Qed.

(** ** Reading back *)

Lemma slice_splice off d l : (off + length d ≤ length l)%nat → slice off (length d) (splice off d l) = d.
Proof.
  intros H. unfold slice, splice. rewrite drop_app_length' by (rewrite length_take; lia). by rewrite take_app_length.
Qed.
Lemma splice_fits off d l : length (splice off d l) = length l → (0 < length d)%nat → (off + length d ≤ length l)%nat.
Proof. unfold splice. rewrite !length_app, length_take, length_drop. lia. Qed.

Lemma refers_fun a w i j : refers a w i → refers a w j → i = j.
Proof. intros (k & o & H) (k' & o' & H'). congruence. Qed.

Lemma step_write_inv a w u r a' :
  step cur a (op_write w u) r a' →
  (∃ u' ino d z k e, r = ret_io e u' ∧ refers a w ino ∧ a_files a !! ino = Some (d, z) ∧ uio_moved cur k [] u u' ∧
    short (uio_offset u) e k (Z.to_nat (uio_resid u)) ∧
    a' = put_file ino (splice (Z.to_nat (uio_offset u)) (take k (concat (uio_iov u))) d) (Z.max z (uio_offset u + Z.of_nat k)) a) ∨
  (refers a w SFS_ROOT_LOCATION ∧ r = ret_io EISDIR u ∧ a' = a).
Proof. inversion 1; subst; [left|by right]. do 6 eexists. by split_and!. Qed.
Lemma step_read_inv a w u r a' :
  step cur a (op_read w u) r a' →
  (∃ u' ino d z, r = ret_io 0 u' ∧ refers a w ino ∧ a_files a !! ino = Some (d, z) ∧ a' = a ∧
    let n := Z.to_nat (Z.min (uio_resid u) (z - uio_offset u)) in uio_moved cur n (slice (Z.to_nat (uio_offset u)) n d) u u') ∨
  (refers a w SFS_ROOT_LOCATION ∧ r = ret_io EISDIR u ∧ a' = a).
Proof. inversion 1; subst; [left|by right]. do 4 eexists. by split_and!. Qed.
Lemma step_truncate_inv a w len r a' :
  step cur a (op_truncate w len) r a' →
  (∃ ino d z, r = ret_z 0 ∧ refers a w ino ∧ a_files a !! ino = Some (d, z) ∧ a' = put_file ino (cut_bytes ((len + 511) / 512) d) len a) ∨
  (refers a w SFS_ROOT_LOCATION ∧ r = ret_z EISDIR ∧ a' = a).
Proof. inversion 1; subst; [left|by right]. do 3 eexists. by split_and!. Qed.

Section File.
Context (R : gset Z) (a : afs) (s : fs) (w : nat) (ino : Z) (d : list Z) (z : Z).
Context (Hrep : represents cur R a s) (Hw : refers a w ino) (Hf : a_files a !! ino = Some (d, z)).

Lemma not_root : ¬ refers a w SFS_ROOT_LOCATION.
Proof using Hrep Hw Hf. intros H. pose proof (refers_fun _ _ _ _ Hw H). subst. by rewrite (rep_root _ _ _ _ Hrep) in Hf. Qed.

(** A write, and what it leaves in the file. *)
Lemma write_run u :
  allowed cur a (op_write w u) →
  ∃ k r u' s', vop_write cur w u s = Done ((r, u'), s') ∧ uio_moved cur k [] u u' ∧ short (uio_offset u) r k (Z.to_nat (uio_resid u)) ∧
    represents cur R (put_file ino (splice (Z.to_nat (uio_offset u)) (take k (concat (uio_iov u))) d) (Z.max z (uio_offset u + Z.of_nat k)) a) s'.
Proof using Hrep Hw Hf.
  intros Ha. destruct (simulation cur R a _ s Hrep Ha) as (rt & s' & a' & E & Hst & [Hrep' _] & _).
  apply step_write_inv in Hst as [(u' & j & d' & z' & k & e & -> & Hw' & Hf' & M & Sh & ->)|(Hr & _)]; [|by apply not_root in Hr].
  pose proof (refers_fun _ _ _ _ Hw Hw'). subst j. rewrite Hf in Hf'. injection Hf' as <- <-.
  exists k, e, u', s'. split_and!; [|done..]. cbn [run] in E. by apply bind_io_inv in E.
Qed.
Lemma read_run u :
  allowed cur a (op_read w u) →
  ∃ u' s', vop_read cur w u s = Done ((0, u'), s') ∧ represents cur R a s' ∧
    let n := Z.to_nat (Z.min (uio_resid u) (z - uio_offset u)) in uio_moved cur n (slice (Z.to_nat (uio_offset u)) n d) u u'.
Proof using Hrep Hw Hf.
  intros Ha. destruct (simulation cur R a _ s Hrep Ha) as (rt & s' & a' & E & Hst & [Hrep' _] & _).
  apply step_read_inv in Hst as [(u' & j & d' & z' & -> & Hw' & Hf' & -> & M)|(Hr & _)]; [|by apply not_root in Hr].
  pose proof (refers_fun _ _ _ _ Hw Hw'). subst j. rewrite Hf in Hf'. injection Hf' as <- <-.
  exists u', s'. split_and!; [|done..]. cbn [run] in E. by apply bind_io_inv in E.
Qed.
Lemma truncate_run len :
  0 ≤ len < 2 ^ 32 →
  ∃ s', vop_truncate w len s = Done (0, s') ∧ represents cur R (put_file ino (cut_bytes ((len + 511) / 512) d) len a) s'.
Proof using Hrep Hw Hf.
  intros Hl. assert (Ha : allowed cur a (op_truncate w len)) by (split; [destruct Hw as (k & o & ?); by eexists|done]).
  destruct (simulation cur R a _ s Hrep Ha) as (rt & s' & a' & E & Hst & [Hrep' _] & _).
  apply step_truncate_inv in Hst as [(j & d' & z' & -> & Hw' & Hf' & ->)|(Hr & _)]; [|by apply not_root in Hr].
  pose proof (refers_fun _ _ _ _ Hw Hw'). subst j. rewrite Hf in Hf'. injection Hf' as <- <-.
  exists s'. split; [|done]. cbn [run] in E. by apply bind_z_inv in E.
Qed.
End File.
End Clients.

(** ** The theorems *)

Section Theorems.
Context (cur : option nat) {D : Type} {DV : Device D} {BD : BlockDevice cur D}.
Abbreviation fs := (@sfs_fs D).




(** C24. What is written is read back: a write to a file returns, tells how much
    of it went in (all of it unless it fails), and a read of that range gives
    the bytes that went in. *)
Theorem sfs_write_then_read (R : gset Z) (a : afs) (s : fs) (w : nat) (ino : Z) (d : list Z) (z : Z) (u v : uio) :
  represents cur R a s → refers a w ino → a_files a !! ino = Some (d, z) → z ≤ MAXSIZE →
  allowed cur a (op_write w u) →
  is_read v = true → uio_offset v = uio_offset u → 0 ≤ uio_resid v → uio_fits cur (Z.to_nat (uio_resid v)) v →
  ∃ r u' s1, vop_write cur w u s = Done ((r, u'), s1) ∧
    let k := uio_resid u - uio_resid u' in
    (r = 0 → k = uio_resid u) ∧ 0 ≤ k ≤ uio_resid u ∧
    (0 < k → uio_resid v = k →
      ∃ v' s2, vop_read cur w v s1 = Done ((0, v'), s2) ∧ uio_resid v' = 0 ∧
        uio_done v' = uio_done v ++ take (Z.to_nat k) (concat (uio_iov u))).
Proof.
  intros Hrep Hw Hf Hz Ha Hrd Ho Hres Hfit. pose proof Ha as (_ & _ & Hufit & Hures & _). pose proof (fits_iov cur _ _ Hufit) as Hlen.
  destruct (write_run cur R a s w ino d z Hrep Hw Hf u Ha) as (k & r & u' & s1 & E & M & [Sh0 Sh1] & Hrep1).
  exists r, u', s1. split; [done|]. rewrite (mv_resid _ _ _ _ _ M). replace (uio_resid u - (uio_resid u - Z.of_nat k)) with (Z.of_nat k) by lia.
  assert (Hk : (k ≤ Z.to_nat (uio_resid u))%nat) by (destruct (decide (r = 0)) as [H|H]; [specialize (Sh0 H)|specialize (Sh1 H)]; lia).
  cbv zeta. split; [intros H; specialize (Sh0 H); lia|]. split; [lia|]. intros Hk0 Hvk. rewrite Nat2Z.id.
  set (w0 := take k (concat (uio_iov u))) in *. assert (Hl0 : length w0 = k) by (unfold w0; rewrite length_take; lia).
  set (a1 := put_file _ _ _ a) in Hrep1. destruct Hufit as (_ & _ & _ & Hpos & _).
  assert (Hf1 : a_files a1 !! ino = Some (splice (Z.to_nat (uio_offset u)) w0 d, Z.max z (uio_offset u + Z.of_nat k))) by apply lookup_insert_eq.
  pose proof (rep_length cur R a1 s1 ino _ _ Hrep1 Hf1) as L1. pose proof (rep_length cur R a s ino _ _ Hrep Hf) as L0.
  assert (Hfits : (Z.to_nat (uio_offset u) + length w0 ≤ length d)%nat) by (apply splice_fits; lia).
  destruct (read_run cur R a1 s1 w ino _ _ Hrep1 Hw Hf1 v) as (v' & s2 & E2 & _ & M2).
  { destruct Hw as (kk & oo & Hw). split; [by eexists|]. split_and!; try done. intros j dj zj Hj Hfj.
    assert (j = ino) as -> by (destruct Hj as (? & ? & Hj); cbn in Hj; congruence). rewrite Hf1 in Hfj. injection Hfj as <- <-. lia. }
  exists v', s2. split; [done|]. rewrite Ho, Hvk in M2. cbv zeta in M2.
  replace (Z.to_nat (Z.min (Z.of_nat k) (Z.max z (uio_offset u + Z.of_nat k) - uio_offset u))) with (length w0) in M2 by lia.
  rewrite slice_splice in M2 by done. split; [rewrite (mv_resid _ _ _ _ _ M2); lia|apply (mv_done _ _ _ _ _ M2)].
Qed.

(** C12. A volume survives unmounting: with no vnode in use, [sfs_sync]
    succeeds, [sfs_unmount] succeeds, and mounting what the device then holds
    succeeds and gives the same names and the same files. *)
Theorem sfs_remount (R : gset Z) (a : afs) (s : fs) :
  represents cur R a s → a_handles a = ∅ →
  ∃ s1, sfs_sync s = Done (0, s1) ∧ sfs_unmount s1 = Done (0, s1) ∧
    ∀ t : fs, fs_dev t = fs_dev s1 → fs_vn t = ∅ → fs_oom t = [] → 0 ≤ fs_depth t →
      ∃ t', sfs_domount 512 t = Done (0, t') ∧ represents cur R a t'.
Proof. apply remount_represents. Qed.

End Theorems.

(** ** A drive that fails *)

Section Retry.
Context (cur : option nat) {D : Type} {HD : DiskHw D}.
#[local] Instance drive_of : Device (@lhd_softc D) := lhd_dev cur.

Lemma rw_retry_again k u (s : @sfs_fs (@lhd_softc D)) u1 d1 :
  d_io (u, fs_dev s) = Done (EIO, (u1, d1)) → rw_retry (S k) u s = rw_retry k u1 (set_dev d1 s).
Proof. intros E. cbn [rw_retry]. unfold kbind at 1. rewrite E. reflexivity. Qed.

(** The retry of a failed write does not write: when the drive reports a
    media error for the sector, the driver has already consumed the
    descriptor, the second call finds nothing left to transfer, and
    [sfs_wblock] reports success after the one failed operation. *)
Theorem sfs_retry_drops_write (s : @sfs_fs (@lhd_softc D)) (b : Z) (l : list Z) :
  lhd_idle (fs_dev s) → 0 < fs_depth s → 0 ≤ b < lh_blocks (fs_dev s) → b < 2 ^ 23 → length l = 512%nat →
  Z.land (hw_op true b l (lh_disk (fs_dev s))).1.1 LHD_STATEMASK = LHD_MEDIA →
  ∃ s', sfs_wblock l b s = Done (0, s') ∧ lh_disk (fs_dev s') = (hw_op true b l (lh_disk (fs_dev s))).2.
Proof.
  intros Hi Hd Hb Hb2 Hl Hbad. set (u := uio_kinit l (b * SFS_BLOCKSIZE) UIO_WRITE).
  pose proof (kinit_sector cur b l UIO_WRITE ltac:(lia) Hl) as Hs. fold u in Hs.
  destruct (lhd_io_write cur u (fs_dev s) b Hi Hb Hs eq_refl) as (r & u' & l' & E & Hi' & Hn & M & Hdisk & Hr & _).
  replace (take sectsize (concat (uio_iov u))) with l in * by (cbn; by rewrite app_nil_r, take_ge by lia).
  assert (r = EIO) as -> by (rewrite Hr; unfold lhd_code_to_errno; by rewrite Hbad).
  destruct Hs as (Ho & Hres & _).
  assert (E2 : d_io (u', l') = Done (0, (u', l'))).
  { apply (lhd_io_empty cur u' l' (b + 1)); [done|lia|rewrite (mv_offset _ _ _ _ _ M); lia|rewrite (mv_resid _ _ _ _ _ M); lia]. }
  exists (set_dev l' (set_dev l' s)). split; [|done]. unfold sfs_wblock, sfs_rwblock. ksteps.
  rewrite step_assert by (by apply Z.ltb_lt). fold u. unfold kbind. by rewrite (rw_retry_again 9 u s u' l' E), (rw_retry_done 9 u' (set_dev l' s) u' l' E2).
Qed.
End Retry.

(** ** The small disk *)

Definition busy_view : afs := view {[0%nat := (1, 1, 0); 1%nat := (3, 1, 0)]}.
Definition name_b : list Z := [98].
(** Programs that use the root directory as vnode 0, and the file as vnode 1. *)
Definition create_b : client :=
  call (op_creat 0 name_b false) (λ r, match r with ret_vn (inr w) => call (op_fsync w) (λ _, stop) | _ => stop end).
Definition remove_a : client := call (op_remove 0 name_a) (λ _, stop).
Definition link_b : client := call (op_link 0 name_b 1) (λ _, stop).

Lemma name_b_ok : name_ok name_b.
Proof. by apply Forall_singleton. Qed.
Lemma acquired_handle h w ino h' : acquired h w ino h' → is_Some (h' !! w).
Proof. intros [(?&?&_&->)|(_&_&->)]; by rewrite lookup_insert_eq. Qed.
Lemma creat_handle cur a v name excl w a' : step cur a (op_creat v name excl) (ret_vn (inr w)) a' → is_Some (a_handles a' !! w).
Proof.
  inversion 1; subst; cbn; [by rewrite lookup_insert_eq|by eapply acquired_handle].
Qed.
Lemma create_b_safe : safe None busy_view create_b.
Proof.
  split; [split; [by eexists|apply name_b_ok]|]. intros [[e|w]|?|? ?|] a' Hst; try exact Logic.I. split; [by eapply creat_handle|]. done.
Qed.
Lemma remove_a_safe : safe None busy_view remove_a.
Proof. split; [by eexists|]. done. Qed.
Lemma link_b_safe : safe None busy_view link_b.
Proof. split; [|done]. split; [by eexists|]. split; [apply name_b_ok|]. exists 3. split; [|done]. exists 1, 0. done. Qed.


(** Two bytes over the start of the file, and their room to come back. *)
Definition put_two : uio := uio_kinit [72; 73] 0 UIO_WRITE.
Definition get_two : uio := uio_kinit [0; 0] 0 UIO_READ.
Lemma busy_refers : refers busy_view 1 3.
Proof. by exists 1, 0. Qed.
Lemma busy_file : a_files busy_view !! 3 = Some (file_bytes, 5).
Proof. apply lookup_singleton_eq. Qed.
Lemma two_fit l rw : length l = 2%nat → uio_fits None 2 (uio_kinit l 0 rw).
Proof.
  intros Hl. unfold uio_fits, uio_good, room, uio_kinit. cbn [uio_segflg uio_space uio_resid uio_iov uio_offset concat]. rewrite app_nil_r, Hl.
  change (u32 (Z.of_nat 2)) with 2. split_and!; (done || lia).
Qed.
Lemma put_two_allowed : allowed None busy_view (op_write 1 put_two).
Proof. split; [by eexists|]. split; [done|]. split; [exact (two_fit [72; 73] UIO_WRITE eq_refl)|]. split; done. Qed.

Lemma sfs_write_then_read_witness :
  allowed None busy_view (op_write 1 put_two) ∧
  ∃ r u' s1, vop_write None 1 put_two busy = Done ((r, u'), s1) ∧
    let k := uio_resid put_two - uio_resid u' in
    (r = 0 → k = uio_resid put_two) ∧ 0 ≤ k ≤ uio_resid put_two ∧
    (0 < k → uio_resid get_two = k →
      ∃ v' s2, vop_read None 1 get_two s1 = Done ((0, v'), s2) ∧ uio_resid v' = 0 ∧
        uio_done v' = uio_done get_two ++ take (Z.to_nat k) (concat (uio_iov put_two))).
Proof.
  split; [exact put_two_allowed|].
  exact (sfs_write_then_read None reserved busy_view busy 1 3 file_bytes 5 put_two get_two busy_represents busy_refers busy_file
    ltac:(unfold MAXSIZE; lia) put_two_allowed eq_refl eq_refl ltac:(done) (two_fit [0; 0] UIO_READ eq_refl)).
Defined.

Lemma sfs_remount_witness :
  represents None reserved (view ∅) idle ∧
  ∃ s1, sfs_sync idle = Done (0, s1) ∧ sfs_unmount s1 = Done (0, s1) ∧
    ∀ t, fs_dev t = fs_dev s1 → fs_vn t = ∅ → fs_oom t = [] → 0 ≤ fs_depth t →
      ∃ t', sfs_domount 512 t = Done (0, t') ∧ represents None reserved (view ∅) t'.
Proof. split; [exact idle_represents|]. exact (sfs_remount None reserved (view ∅) idle idle_represents eq_refl). Defined.


(** A table whose sectors cannot be written. *)
Record worn := mk_worn { worn_table : ram }.
Definition worn_op (w : bool) (s : Z) (b : list Z) (d : worn) : Z * list Z * worn :=
  if w then (LHD_MEDIA, b, d) else (LHD_OK, ram_sector (worn_table d) s, d).
#[global] Instance worn_hw : DiskHw worn.
Proof.
  refine (Build_DiskHw worn (λ d, ram_sector (worn_table d)) worn_op _ _ _ _ _ _ _); try done.
  - intros [] s b d; cbn; rewrite !elem_of_cons; auto.
  - intros d. apply ram_sector_len.
  - intros [] s b d Hb; [done|apply ram_sector_len].
Defined.
Definition worn_drive : @lhd_softc worn := mk_lhd 16 (replicate 512 0) 1 0 0 0 0 (mk_worn disk).
Definition worn_state : @sfs_fs (@lhd_softc worn) :=
  mk_fs volume false (Bitmap 0 0 4096 map_bytes) false [] ∅ 0 [] worn_drive 1.
Definition ones : list Z := replicate 512 1.

Lemma sfs_retry_drops_write_witness :
  ∃ s', sfs_wblock (DV := lhd_dev None) ones 4 worn_state = Done (0, s') ∧ lh_disk (fs_dev s') = mk_worn disk ∧
    ram_sector disk 4 ≠ ones.
Proof.
  destruct (sfs_retry_drops_write None worn_state 4 ones) as (s' & E & H); try done.
  exists s'. split; [exact E|]. split; [exact H|]. by vm_compute.
Defined.

(** A sector over the file's block. *)
Definition put_sector : uio := uio_kinit ones 2048 UIO_WRITE.
Lemma lhd_io_spec_witness :
  lhd_idle drive ∧
  ∃ r u' l' k, lhd_io None (put_sector, drive) = Done (r, (u', l')) ∧ lhd_idle l' ∧ lh_blocks l' = 16 ∧ r ∈ errors ∧ (k ≤ 1)%nat ∧ (r = 0 ↔ k = 1%nat) ∧
    (∀ t, t < 4 ∨ 5 ≤ t → hw_sector (lh_disk l') t = hw_sector disk t) ∧
    (∀ j, (j < k)%nat → hw_sector (lh_disk l') (4 + Z.of_nat j) = take sectsize (drop (512 * j) (concat (uio_iov put_sector)))) ∧
    uio_moved None (512 * (if r =? 0 then 1 else S k)) [] put_sector u'.
Proof.
  assert (Hi : lhd_idle drive) by (split_and!; try done).
  split; [exact Hi|]. refine (lhd_io_spec None put_sector drive Hi _ _ _); try by vm_compute.
Defined.
