(* ===== verification/Copyinout.v ===== *)
(** * Copying between user and kernel memory (kern/vm/copyinout.c)

    Memory is one address space of bytes, some of them mapped, some of these
    writable; the user's part is below [USERSPACETOP].  An access that is not
    allowed is a fault: with a recovery function set ([tm_badfaultfunc], whose
    only value here is [copyfail]) the copy is abandoned and [setjmp] returns
    again, otherwise the machine stops.  A function that may be abandoned
    returns [None] when it was. *)

From stdpp Require Import base numbers list gmap.
From Stdlib Require Import ZArith Lia.
From S2P Require Import Prelude PhysMem.

Open Scope Z_scope.
Open Scope kernel_scope.

(** ** Memory that faults *)

Record cpu := mk_cpu {
  c_bytes : gmap Z Z;          (** what is mapped *)
  c_readonly : gset Z;
  c_recover : bool             (** [tm_badfaultfunc] is [copyfail] *)
}.
Definition set_bytes b s := mk_cpu b (c_readonly s) (c_recover s).
Definition set_recover r s := mk_cpu (c_bytes s) (c_readonly s) r.

Abbreviation M A := (K cpu (option A)).

(** A bad fault: [copyfail] jumps, or the machine stops. *)
Definition fault {A} : M A :=
  r <- kgets c_recover ;; if r : bool then kret None else kpanic.
Definition jret {A} (a : A) : M A := kret (Some a).
Definition jbind {A B} (c : M A) (f : A → M B) : M B :=
  r <- c ;; match r with Some a => f a | None => kret None end.

Definition may_write (a : Z) (s : cpu) : bool :=
  bool_decide (is_Some (c_bytes s !! a)) && negb (bool_decide (a ∈ c_readonly s)).
(** [n] bytes are read, or written, by one instruction. *)
Definition load_bytes (a : Z) (n : nat) : M (list Z) :=
  m <- kgets c_bytes ;;
  match mapM (λ i, m !! (a + i)) (seqZ 0 (Z.of_nat n)) with Some l => jret l | None => fault end.
Definition store_bytes (a : Z) (l : list Z) : M unit :=
  ok <- kgets (λ s, forallb (λ i, may_write (a + i) s) (seqZ 0 (Z.of_nat (length l)))) ;;
  if ok : bool then kmodify (λ s, set_bytes (map_seqZ a l ∪ c_bytes s) s) ;; jret tt else fault.

(** ** The code *)

Definition USERSPACETOP : Z := MIPS_KSEG0.

(** The error, or the length that can be copied. *)
Definition copycheck (userptr len : Z) : Z + Z :=
  let bot := userptr in
  let top := u32 (bot + len - 1) in
  if top <? bot then inl EFAULT
  else if USERSPACETOP <=? bot then inl EFAULT
  else inr (if USERSPACETOP <=? top then USERSPACETOP - bot else len).

(** [memcpy] on such memory: words when everything is aligned. *)
Fixpoint copy_units (w : nat) (dst src : Z) (k : nat) : M unit :=
  match k with
  | O => jret tt
  | S k => jbind (load_bytes src w) (λ l, jbind (store_bytes dst l) (λ _, copy_units w (dst + Z.of_nat w) (src + Z.of_nat w) k))
  end.
Definition memcpy (dst src len : Z) : M unit :=
  if (dst mod 4 =? 0) && (src mod 4 =? 0) && (len mod 4 =? 0)
  then copy_units 4 dst src (Z.to_nat (len / 4)) else copy_units 1 dst src (Z.to_nat len).

(** [setjmp], the copy, and the recovery function set meanwhile. *)
Definition protect {A} (failed : A) (c : M A) : K cpu A :=
  kmodify (set_recover true) ;;
  r <- c ;;
  kmodify (set_recover false) ;;
  kret (match r with Some a => a | None => failed end).

Definition copyin (usersrc dest len : Z) : K cpu Z :=
  match copycheck usersrc len with
  | inl e => kret e
  | inr stoplen =>
      if negb (stoplen =? len) then kret EFAULT
      else protect EFAULT (jbind (memcpy dest usersrc len) (λ _, jret 0))
  end.
Definition copyout (src userdest len : Z) : K cpu Z :=
  match copycheck userdest len with
  | inl e => kret e
  | inr stoplen =>
      if negb (stoplen =? len) then kret EFAULT
      else protect EFAULT (jbind (memcpy userdest src len) (λ _, jret 0))
  end.

(** The result, and the length when it is stored. *)
Fixpoint copystr_loop (dest src i : Z) (k : nat) (over : Z) : M (Z * option Z) :=
  match k with
  | O => jret (over, None)
  | S k =>
      jbind (load_bytes (src + i) 1) (λ l, jbind (store_bytes (dest + i) l) (λ _, jbind (load_bytes (src + i) 1) (λ l,
        if bool_decide (l = [0]) then jret (0, Some (i + 1)) else copystr_loop dest src (i + 1) k over)))
  end.
Definition copystr (dest src maxlen stoplen : Z) : M (Z * option Z) :=
  copystr_loop dest src 0 (Z.to_nat (Z.min maxlen stoplen)) (if stoplen <? maxlen then EFAULT else ENAMETOOLONG).

Definition copyinstr (usersrc dest len : Z) : K cpu (Z * option Z) :=
  match copycheck usersrc len with
  | inl e => kret (e, None)
  | inr stoplen => protect (EFAULT, None) (copystr dest usersrc len stoplen)
  end.
Definition copyoutstr (src userdest len : Z) : K cpu (Z * option Z) :=
  match copycheck userdest len with
  | inl e => kret (e, None)
  | inr stoplen => protect (EFAULT, None) (copystr userdest src len stoplen)
  end.

(** ** What a copy does *)

Definition readable s a n : Prop := ∀ i, 0 ≤ i < n → is_Some (c_bytes s !! (a + i)).
Definition writable s a n : Prop := ∀ i, 0 ≤ i < n → may_write (a + i) s = true.
(** Only bytes in the range have other values. *)
Record changed s s' (a n : Z) : Prop := {
  ch_out x : ¬ (a ≤ x < a + n) → c_bytes s' !! x = c_bytes s !! x;
  ch_dom x : is_Some (c_bytes s' !! x) ↔ is_Some (c_bytes s !! x);
  ch_readonly : c_readonly s' = c_readonly s;
  ch_recover : c_recover s' = c_recover s
}.
(** The bytes at [b] have come to [a]. *)
Definition copied s s' (a b n : Z) : Prop := ∀ i, 0 ≤ i < n → c_bytes s' !! (a + i) = c_bytes s !! (b + i).
Definition apart (a b n : Z) : Prop := a + n ≤ b ∨ b + n ≤ a.

Lemma changed_refl s a n : changed s s a n.
Proof. by split. Qed.
Lemma changed_trans s1 s2 s3 a n b m :
  changed s1 s2 a n → changed s2 s3 b m → 0 ≤ n → 0 ≤ m → b = a + n → changed s1 s3 a (n + m).
Proof.
  intros [o1 d1 r1 c1] [o2 d2 r2 c2] Hn Hm ->. split; try congruence.
  - intros x Hx. rewrite o2, o1; [done|lia|lia].
  - intros x. by rewrite d2, d1.
Qed.
Lemma changed_write s s' a n x : changed s s' a n → may_write x s' = may_write x s.
Proof.
  intros [_ d r _]. unfold may_write. rewrite r. f_equal. by apply bool_decide_ext.
Qed.

Lemma load_bytes_ok s a n :
  c_recover s = true →
  ∃ r, load_bytes a n s = Done (r, s) ∧ (is_Some r ↔ readable s a (Z.of_nat n)) ∧
    ∀ l, r = Some l → length l = n ∧ ∀ i, 0 ≤ i < Z.of_nat n → l !! Z.to_nat i = c_bytes s !! (a + i).
Proof.
  intros Hr. unfold load_bytes. ksteps. destruct (mapM _ _) as [l|] eqn:E.
  - exists (Some l). split; [done|]. apply mapM_Some in E. pose proof (Forall2_length _ _ _ E) as Hl. rewrite length_seqZ, Nat2Z.id in Hl.
    assert (H : ∀ i, 0 ≤ i < Z.of_nat n → l !! Z.to_nat i = c_bytes s !! (a + i)).
    { intros i Hi. destruct (lookup_lt_is_Some_2 l (Z.to_nat i)) as [x Hx]; [lia|]. rewrite Hx.
      destruct (Forall2_lookup_r _ _ _ _ _ E Hx) as (j & Hj & Hb). apply lookup_seqZ in Hj as [-> _]. rewrite <- Hb. f_equal. lia. }
    split; [split; [|by eexists]|by intros ? [= <-]]. intros _ i Hi. rewrite <- H by done. apply lookup_lt_is_Some_2. lia.
  - exists None. split; [unfold fault; ksteps; by rewrite Hr|]. split; [|done]. split; [by intros []|]. intros H. exfalso.
    apply eq_None_not_Some in E. apply E. apply mapM_is_Some. apply Forall_forall. intros i Hi. apply elem_of_seqZ in Hi. apply H. lia.
Qed.

Lemma store_bytes_writable s a l :
  writable s a (Z.of_nat (length l)) →
  ∃ s', store_bytes a l s = Done (Some tt, s') ∧ changed s s' a (Z.of_nat (length l)) ∧
    ∀ i, 0 ≤ i < Z.of_nat (length l) → c_bytes s' !! (a + i) = l !! Z.to_nat i.
Proof.
  intros Hw. unfold store_bytes. ksteps. destruct (forallb _ _) eqn:E.
  2: { exfalso. apply not_true_iff_false in E. apply E. apply forallb_forall. intros i Hi. apply list_elem_of_In, elem_of_seqZ in Hi. apply Hw. lia. }
  ksteps. eexists. split; [reflexivity|]. split.
  - split; try done; cbn [c_bytes set_bytes].
    + intros x Hx. apply lookup_union_r. apply lookup_map_seqZ_None. lia.
    + intros x. destruct (decide (a ≤ x < a + Z.of_nat (length l))) as [Hx|Hx].
      * split; intros _.
        -- specialize (Hw (x - a) ltac:(lia)). replace (a + (x - a)) with x in Hw by lia. apply andb_prop in Hw as [Hw _]. by apply bool_decide_eq_true in Hw.
        -- apply lookup_union_is_Some. left. apply lookup_map_seqZ_is_Some. lia.
      * rewrite lookup_union_r; [done|]. apply lookup_map_seqZ_None. lia.
  - intros i Hi. cbn [c_bytes set_bytes]. destruct (lookup_lt_is_Some_2 l (Z.to_nat i)) as [x Hx]; [lia|]. rewrite Hx.
    apply lookup_union_Some_l. apply lookup_map_seqZ_Some. split; [lia|]. rewrite <- Hx. f_equal. lia.
Qed.
Lemma store_bytes_ok s a l :
  c_recover s = true →
  ∃ r s', store_bytes a l s = Done (r, s') ∧ changed s s' a (Z.of_nat (length l)) ∧ (is_Some r ↔ writable s a (Z.of_nat (length l))) ∧
    (is_Some r → ∀ i, 0 ≤ i < Z.of_nat (length l) → c_bytes s' !! (a + i) = l !! Z.to_nat i).
Proof.
  intros Hr. destruct (forallb (λ i, may_write (a + i) s) (seqZ 0 (Z.of_nat (length l)))) eqn:E.
  - assert (Hw : writable s a (Z.of_nat (length l))).
    { intros i Hi. rewrite forallb_forall in E. apply E, list_elem_of_In, elem_of_seqZ. lia. }
    destruct (store_bytes_writable s a l Hw) as (s' & E' & C & H). exists (Some tt), s'. split; [done|]. split; [done|]. split; [by split|done].
  - exists None, s. split; [unfold store_bytes, fault; ksteps; rewrite E; ksteps; by rewrite Hr|]. split; [apply changed_refl|]. split; [|by intros []].
    split; [by intros []|]. intros H. exfalso. apply not_true_iff_false in E. apply E. apply forallb_forall.
    intros i Hi. apply list_elem_of_In, elem_of_seqZ in Hi. apply H. lia.
Qed.

(** A function that may be abandoned, run with the recovery function set: it
    changes only bytes of a range, and is not abandoned when [ok]. *)
Definition runs {A} (c : M A) s (a n : Z) (ok : Prop) (Q : A → cpu → Prop) : Prop :=
  ∃ r s', c s = Done (r, s') ∧ changed s s' a n ∧ (is_Some r ↔ ok) ∧ ∀ x, r = Some x → Q x s'.

Lemma copy_units_ok w k : (0 < w)%nat → ∀ dst src s,
  c_recover s = true →
  let n := Z.of_nat (w * k) in
  runs (copy_units w dst src k) s dst n (readable s src n ∧ writable s dst n) (λ _ s', apart dst src n → copied s s' dst src n).
Proof.
  intros Hw. induction k as [|k IH]; intros dst src s Hr n; unfold n.
  { rewrite Nat.mul_0_r. exists (Some tt), s. split; [done|]. split; [apply changed_refl|]. split; [|intros _ _ _ i Hi; lia].
    split; [intros _; split; intros i Hi; lia|by eexists]. }
  cbn [copy_units]. destruct (load_bytes_ok s src w Hr) as (rl & El & Hl & Hlv). unfold runs, jbind. rewrite (kbind_run _ _ _ _ _ El).
  assert (Hsplit : Z.of_nat (w * S k) = Z.of_nat w + Z.of_nat (w * k)) by lia.
  destruct rl as [l|].
  2: { exists None, s. split; [done|]. split; [apply changed_refl|]. split; [|done]. split; [by intros []|]. intros [H _]. exfalso. eapply is_Some_None, Hl. intros i Hi. apply H. lia. }
  destruct (Hlv l eq_refl) as [Hll Hlb]. assert (Hrd : readable s src (Z.of_nat w)) by (apply Hl; by eexists).
  destruct (store_bytes_ok s dst l Hr) as (rs & s1 & Es & C1 & Hs & Hsb). rewrite Hll in *. rewrite (kbind_run _ _ _ _ _ Es).
  destruct rs as [[]|].
  2: { exists None, s1. split; [done|]. split; [|split; [split; [by intros []|]|done]].
    - destruct C1 as [o1 d1 r1 c1]. split; try done. intros x Hx. apply o1. lia.
    - intros [_ H]. apply Hs. intros i Hi. apply H. lia. }
  assert (Hwr : writable s dst (Z.of_nat w)) by (apply Hs; by eexists).
  destruct (IH (dst + Z.of_nat w) (src + Z.of_nat w) s1) as (r & s' & E & C & Ho & HQ); [by rewrite (ch_recover _ _ _ _ C1)|].
  rewrite E. exists r, s'. split; [done|]. rewrite Hsplit. split; [eapply changed_trans; [done|done|lia|lia|done]|]. split.
  - rewrite Ho. split.
    + intros [H1 H2]. split; intros i Hi.
      * destruct (decide (i < Z.of_nat w)); [apply Hrd; lia|]. specialize (H1 (i - Z.of_nat w) ltac:(lia)).
        rewrite (ch_dom _ _ _ _ C1) in H1. by replace (src + Z.of_nat w + (i - Z.of_nat w)) with (src + i) in H1 by lia.
      * destruct (decide (i < Z.of_nat w)); [apply Hwr; lia|]. specialize (H2 (i - Z.of_nat w) ltac:(lia)).
        rewrite (changed_write _ _ _ _ _ C1) in H2. by replace (dst + Z.of_nat w + (i - Z.of_nat w)) with (dst + i) in H2 by lia.
    + intros [H1 H2]. split; intros i Hi.
      * rewrite (ch_dom _ _ _ _ C1), <- Z.add_assoc. apply H1. lia.
      * rewrite (changed_write _ _ _ _ _ C1), <- Z.add_assoc. apply H2. lia.
  - intros [] Hx Hd i Hi. destruct (decide (i < Z.of_nat w)).
    + rewrite (ch_out _ _ _ _ C) by lia. rewrite (Hsb ltac:(by eexists)) by lia. apply Hlb. lia.
    + specialize (HQ tt Hx). assert (Hd' : apart (dst + Z.of_nat w) (src + Z.of_nat w) (Z.of_nat (w * k))) by (unfold apart in *; lia).
      specialize (HQ Hd' (i - Z.of_nat w) ltac:(lia)).
      replace (dst + Z.of_nat w + (i - Z.of_nat w)) with (dst + i) in HQ by lia. rewrite HQ.
      replace (src + Z.of_nat w + (i - Z.of_nat w)) with (src + i) by lia. apply (ch_out _ _ _ _ C1). unfold apart in Hd. lia.
Qed.

Lemma copy_memcpy_ok dst src len s :
  c_recover s = true → 0 ≤ len →
  runs (memcpy dst src len) s dst len (readable s src len ∧ writable s dst len) (λ _ s', apart dst src len → copied s s' dst src len).
Proof.
  intros Hr Hl. unfold memcpy. destruct (_ && _) eqn:E.
  - apply andb_prop in E as [_ E%Z.eqb_eq]. pose proof (copy_units_ok 4 (Z.to_nat (len / 4)) ltac:(lia) dst src s Hr) as H. cbv zeta in H.
    replace (Z.of_nat (4 * Z.to_nat (len / 4))) with len in H; [exact H|]. pose proof (Z.div_mod len 4 ltac:(lia)). pose proof (Z.div_pos len 4). lia.
  - pose proof (copy_units_ok 1 (Z.to_nat len) ltac:(lia) dst src s Hr) as H. cbv zeta in H.
    by replace (Z.of_nat (1 * Z.to_nat len)) with len in H by lia.
Qed.

(** The user's range. *)
Definition in_user (a n : Z) : Prop := 0 < n ∧ a + n ≤ USERSPACETOP.

Lemma copycheck_ok a n :
  0 ≤ a < 2 ^ 32 → 0 ≤ n < 2 ^ 32 →
  match copycheck a n with
  | inl e => e = EFAULT ∧ ¬ in_user a n ∧ (a + n ≤ 2 ^ 32 → n = 0 ∨ USERSPACETOP ≤ a)
  | inr m => (m = n ↔ in_user a n) ∧ a < USERSPACETOP ∧ (m = n ∧ 0 < n ∧ a + n ≤ USERSPACETOP ∨ m = USERSPACETOP - a)
  end.
Proof.
  intros Ha Hn. unfold copycheck, in_user, USERSPACETOP, MIPS_KSEG0.
  destruct (decide (a + n - 1 < 0)); [|destruct (decide (a + n - 1 < 2 ^ 32))].
  - assert (a = 0 ∧ n = 0) as [-> ->] by lia. change (u32 (0 + 0 - 1)) with 4294967295. cbn. lia.
  - rewrite u32_small by lia. destruct (Z.ltb_spec (a + n - 1) a); [lia|]. destruct (Z.leb_spec 2147483648 a); [lia|]. destruct (Z.leb_spec 2147483648 (a + n - 1)); lia.
  - assert (u32 (a + n - 1) = a + n - 1 - 2 ^ 32) as ->.
    { unfold u32. symmetry. apply (Z.mod_unique _ _ 1); lia. }
    destruct (Z.ltb_spec (a + n - 1 - 2 ^ 32) a); [|lia]. lia.
Qed.

(** ** Blocks *)

Lemma protect_ok {A} (failed : A) (c : M A) s a n ok Q :
  c_recover s = false → runs c (set_recover true s) a n ok Q →
  ∃ r s' s1, protect failed c s = Done (r, s') ∧ s' = set_recover false s1 ∧ changed s s' a n ∧ ((ok ∧ Q r s1) ∨ (¬ ok ∧ r = failed)).
Proof.
  intros Hr (r & s1 & E & C & Ho & HQ). unfold protect. ksteps. kcall E. ksteps. eexists _, _, s1. split; [reflexivity|]. split; [done|]. split.
  - destruct C as [o d ro rc]. split; [exact o|exact d|exact ro|by rewrite Hr].
  - destruct r as [x|]; [left|right]; (split; [|done || by apply HQ]); rewrite <- Ho; [by eexists|by intros []].
Qed.

Definition copy_result s dst src n (user : Z) (r : Z) s' : Prop :=
  changed s s' dst n ∧
  (in_user user n ∧ readable s src n ∧ writable s dst n → r = 0) ∧
  (r = 0 → in_user user n ∧ readable s src n ∧ writable s dst n ∧ (apart dst src n → copied s s' dst src n)) ∧
  (r ≠ 0 → r = EFAULT ∧ (¬ in_user user n → s' = s)).

Lemma copy_ok s dst src n user :
  c_recover s = false → 0 ≤ user < 2 ^ 32 → 0 ≤ n < 2 ^ 32 →
  ∃ r s', (match copycheck user n with
    | inl e => kret e
    | inr stoplen => if negb (stoplen =? n) then kret EFAULT else protect EFAULT (jbind (memcpy dst src n) (λ _, jret 0))
    end) s = Done (r, s') ∧ copy_result s dst src n user r s'.
Proof.
  intros Hr Hu Hn. pose proof (copycheck_ok user n Hu Hn) as Hc.
  assert (Hbad : ¬ in_user user n → copy_result s dst src n user EFAULT s).
  { intros H. split; [apply changed_refl|]. split; [by intros [? _]|]. split; [done|]. by split. }
  destruct (copycheck user n) as [e|m]; [destruct Hc as (-> & Hc & _); exists EFAULT, s; split; [done|by apply Hbad]|].
  destruct Hc as [Hm _]. destruct (Z.eqb_spec m n) as [->|Hne]; cbn [negb]; [|exists EFAULT, s; split; [done|]; apply Hbad; by rewrite <- Hm].
  assert (Hin : in_user user n) by (by apply Hm). clear Hm Hbad.
  pose proof (copy_memcpy_ok dst src n (set_recover true s) eq_refl ltac:(lia)) as (r0 & s0 & E0 & C0 & Ho0 & HQ0).
  destruct (protect_ok EFAULT (jbind (memcpy dst src n) (λ _, jret 0)) s dst n (readable s src n ∧ writable s dst n)
    (λ r s', r = 0 ∧ (apart dst src n → copied s s' dst src n))) as (r & s' & s1 & E & -> & C & HQ); [done| |].
  { unfold runs, jbind. rewrite (kbind_run _ _ _ _ _ E0). destruct r0 as [[]|].
    - eexists _, s0. split; [reflexivity|]. split; [done|]. split; [by rewrite <- Ho0; split; intros _; eexists|]. intros x [= <-]. split; [done|]. by apply (HQ0 tt).
    - eexists _, s0. split; [reflexivity|]. split; [done|]. split; [|done]. rewrite <- Ho0. by split; intros []. }
  exists r, (set_recover false s1). split; [exact E|]. split; [done|]. destruct HQ as [[[H1 H2] [-> H3]]|[Hno ->]].
  - split; [done|]. split; [|done]. intros _. by split_and!.
  - split; [by intros (_ & H)|]. split; [done|]. intros _. by split.
Qed.

(** ** Strings *)

(** The first [n] bytes at [a] are not NUL. *)
Definition nonzero s a n : Prop := ∀ i, 0 ≤ i < n → ∃ c, c_bytes s !! (a + i) = Some c ∧ c ≠ 0.
(** A string of length [n] at [a]. *)
Definition string_at s a n : Prop := 0 ≤ n ∧ nonzero s a n ∧ c_bytes s !! (a + n) = Some 0.

(** The loop ends at a NUL, or after [k] bytes. *)
Definition str_ends s s' (dest src i : Z) (k : nat) (over : Z) (x : Z * option Z) : Prop :=
  (∃ n, n < Z.of_nat k ∧ string_at s (src + i) n ∧ writable s (dest + i) (n + 1) ∧ x = (0, Some (i + n + 1)) ∧ copied s s' (dest + i) (src + i) (n + 1)) ∨
  (nonzero s (src + i) (Z.of_nat k) ∧ writable s (dest + i) (Z.of_nat k) ∧ x = (over, None) ∧ copied s s' (dest + i) (src + i) (Z.of_nat k)).

Lemma copy_byte_ok {A} dest src s (f : list Z → M A) :
  c_recover s = true → dest ≠ src →
  let c := jbind (load_bytes src 1) (λ l, jbind (store_bytes dest l) (λ _, jbind (load_bytes src 1) f)) in
  (∃ b s1, c s = f [b] s1 ∧ c_bytes s !! src = Some b ∧ may_write dest s = true ∧ changed s s1 dest 1 ∧ c_bytes s1 !! dest = Some b) ∨
  (c s = Done (None, s) ∧ (c_bytes s !! src = None ∨ may_write dest s = false)).
Proof.
  intros Hr Hne. cbv zeta. unfold jbind, load_bytes, store_bytes. ksteps. change (seqZ 0 (Z.of_nat 1)) with [0]. cbn [mapM]. rewrite Z.add_0_r.
  destruct (c_bytes s !! src) as [b|] eqn:Eb; cbn [mbind option_bind mret option_ret]; [|right; unfold fault; ksteps; rewrite Hr; auto].
  unfold jret. ksteps. cbn [length forallb]. change (seqZ 0 (Z.of_nat 1)) with [0]. cbn [forallb]. rewrite Z.add_0_r, andb_true_r.
  destruct (may_write dest s) eqn:Ew; [|right; unfold fault; ksteps; rewrite Hr; auto]. ksteps. cbn [c_bytes set_bytes map_seqZ].
  rewrite <- insert_union_l, (left_id_L ∅ (∪)), lookup_insert_ne, Eb by done. ksteps. left. eexists b, _. split; [reflexivity|].
  apply andb_prop in Ew as [Ew _]. apply bool_decide_eq_true in Ew.
  split_and!; try done; cbn [c_bytes set_bytes].
  - split; try done; cbn [c_bytes set_bytes]; intros x.
    + intros Hx. apply lookup_insert_ne. lia.
    + destruct (decide (x = dest)) as [->|]; [rewrite lookup_insert_eq; by split|by rewrite lookup_insert_ne].
  - by rewrite lookup_insert_eq.
Qed.

Lemma copystr_loop_ok dest src over k : ∀ i s,
  c_recover s = true → apart (dest + i) (src + i) (Z.of_nat k) →
  ∃ r s', copystr_loop dest src i k over s = Done (r, s') ∧ changed s s' (dest + i) (Z.of_nat k) ∧
    match r with
    | Some x => str_ends s s' dest src i k over x
    | None => ¬ ((∃ n, n < Z.of_nat k ∧ string_at s (src + i) n ∧ writable s (dest + i) (n + 1)) ∨
                 nonzero s (src + i) (Z.of_nat k) ∧ writable s (dest + i) (Z.of_nat k))
    end.
Proof.
  induction k as [|k IH]; intros i s Hr Ha.
  { exists (Some (over, None)), s. split; [done|]. split; [apply changed_refl|]. right. split_and!; [intros j Hj; lia..|done|intros j Hj; lia]. }
  assert (Hne : dest + i ≠ src + i) by (unfold apart in Ha; lia). cbn [copystr_loop].
  destruct (copy_byte_ok (dest + i) (src + i) s (λ l, if bool_decide (l = [0]) then jret (0, Some (i + 1)) else copystr_loop dest src (i + 1) k over) Hr Hne)
    as [(c & s1 & E & Hc & Hw & C1 & Hd)|[E Hbad]]; rewrite E; clear E.
  2: { exists None, s. split; [done|]. split; [apply changed_refl|]. intros [(n & Hn & (Hn0 & Hnz & Hz) & Hw)|[Hnz Hw]].
    - destruct Hbad as [Hb|Hb]; [|specialize (Hw 0 ltac:(lia)); rewrite Z.add_0_r in Hw; congruence].
      destruct (decide (n = 0)) as [->|Hn1]; [rewrite Z.add_0_r in Hz; congruence|].
      destruct (Hnz 0 ltac:(lia)) as (c & Hc & _). rewrite Z.add_0_r in Hc. congruence.
    - destruct Hbad as [Hb|Hb]; [|specialize (Hw 0 ltac:(lia)); rewrite Z.add_0_r in Hw; congruence].
      destruct (Hnz 0 ltac:(lia)) as (c & Hc & _). rewrite Z.add_0_r in Hc. congruence. }
  assert (Hw1 : writable s (dest + i) 1) by (intros j Hj; by replace (dest + i + j) with (dest + i) by lia).
  assert (Hcp1 : copied s s1 (dest + i) (src + i) 1) by (intros j Hj; replace j with 0 by lia; rewrite !Z.add_0_r; congruence).
  case_bool_decide as Ez.
  { injection Ez as ->. exists (Some (0, Some (i + 1))), s1. split; [done|]. split.
    - destruct C1 as [o1 d1 r1 c1]. split; try done. intros x Hx. apply o1. lia.
    - left. exists 0. split_and!; [lia|split; [lia|split; [intros j Hj; lia|by rewrite Z.add_0_r]]|exact Hw1|do 2 f_equal; lia|exact Hcp1]. }
  destruct (IH (i + 1) s1) as (r & s' & E & C & Hr'); [by rewrite (ch_recover _ _ _ _ C1)|unfold apart in *; lia|].
  rewrite E. exists r, s'. split; [done|]. rewrite Nat2Z.inj_succ, <- Z.add_1_l.
  split; [eapply changed_trans; [done|done|lia|lia|lia]|]. clear IH E.
  assert (Hb : ∀ j, 1 ≤ j < 1 + Z.of_nat k → c_bytes s1 !! (src + i + j) = c_bytes s !! (src + i + j)).
  { intros j Hj. apply (ch_out _ _ _ _ C1). unfold apart in Ha. lia. }
  assert (Hnz : ∀ n, 0 ≤ n ≤ Z.of_nat k → nonzero s1 (src + (i + 1)) n ↔ nonzero s (src + i) (1 + n)).
  { intros n Hn. split; intros H j Hj.
    - destruct (decide (j = 0)) as [->|]; [exists c; rewrite Z.add_0_r; split; [done|congruence]|]. rewrite <- Hb by lia.
      replace (src + i + j) with (src + (i + 1) + (j - 1)) by lia. apply H. lia.
    - replace (src + (i + 1) + j) with (src + i + (j + 1)) by lia. rewrite Hb by lia. apply H. lia. }
  assert (Hww : ∀ n, writable s1 (dest + (i + 1)) n ↔ writable s (dest + i) (1 + n)).
  { intros n. split; intros H j Hj.
    - destruct (decide (j = 0)) as [->|]; [apply Hw1; lia|]. rewrite <- (changed_write _ _ _ _ _ C1). replace (dest + i + j) with (dest + (i + 1) + (j - 1)) by lia. apply H. lia.
    - rewrite (changed_write _ _ _ _ _ C1). replace (dest + (i + 1) + j) with (dest + i + (j + 1)) by lia. apply H. lia. }
  assert (Hcp : ∀ n, 0 ≤ n ≤ Z.of_nat k → copied s1 s' (dest + (i + 1)) (src + (i + 1)) n → copied s s' (dest + i) (src + i) (1 + n)).
  { intros n Hn H j Hj. destruct (decide (j = 0)) as [->|].
    - rewrite (ch_out _ _ _ _ C) by lia. apply Hcp1. lia.
    - replace (dest + i + j) with (dest + (i + 1) + (j - 1)) by lia. rewrite H by lia. rewrite <- Hb by lia. f_equal. lia. }
  assert (Hst : ∀ n, n < Z.of_nat k → string_at s1 (src + (i + 1)) n ↔ string_at s (src + i) (1 + n) ∧ 0 ≤ n).
  { intros n Hn. unfold string_at. replace (src + (i + 1) + n) with (src + i + (1 + n)) by lia. split.
    - intros (H0 & H1 & H2). rewrite Hb in H2 by lia. rewrite Hnz in H1 by lia. split_and!; try done; lia.
    - intros [(H0 & H1 & H2) H3]. rewrite Hb by lia. rewrite Hnz by lia. split_and!; try done; lia. }
  destruct r as [x|].
  - destruct Hr' as [(n & Hn & Hs & Hw' & -> & Hc')|(Hs & Hw' & -> & Hc')].
    + pose proof Hs as [H0 _]. left. exists (1 + n). apply Hst in Hs as [Hs _]; [|done]. split_and!; [lia|exact Hs|by rewrite <- Z.add_assoc, <- Hww|do 2 f_equal; lia|].
      rewrite <- Z.add_assoc. apply Hcp; [lia|done].
    + right. replace (Z.of_nat (S k)) with (1 + Z.of_nat k) by lia. split_and!; [by apply Hnz; [lia|]|by apply Hww|done|by apply Hcp; [lia|]].
  - contradict Hr'. destruct Hr' as [(n & Hn & Hs & Hw')|[Hs Hw']]; [left|right].
    + assert (n ≠ 0) by (intros ->; destruct Hs as (_ & _ & Hs); rewrite Z.add_0_r in Hs; congruence). pose proof Hs as [H0 _].
      exists (n - 1). split; [lia|]. rewrite Hst by lia. replace (1 + (n - 1)) with n by lia. split; [split; [done|lia]|]. apply Hww. by replace (1 + (n - 1 + 1)) with (n + 1) by lia.
    + split; [by apply Hnz; [lia|]|by apply Hww].
Qed.

(** What [copyinstr] and [copyoutstr] promise, for a string of length [k]. *)
Definition copystr_result s dst src n (user : Z) (r : Z * option Z) s' : Prop :=
  changed s s' dst (Z.min n (USERSPACETOP - user)) ∧
  (∀ k, string_at s src k → k < n → user + n ≤ 2 ^ 32 → user + k < USERSPACETOP → writable s dst (k + 1) → r = (0, Some (k + 1))) ∧
  (in_user user n → nonzero s src n → writable s dst n → r = (ENAMETOOLONG, None)) ∧
  match r with
  | (e, Some m) => e = 0 ∧ string_at s src (m - 1) ∧ m ≤ n ∧ user + m ≤ USERSPACETOP ∧ copied s s' dst src m
  | (e, None) => e = EFAULT ∨ (e = ENAMETOOLONG ∧ (n = 0 ∨ in_user user n) ∧ nonzero s src n ∧ copied s s' dst src n)
  end.

Lemma string_unique s a n m : string_at s a n → string_at s a m → n = m.
Proof.
  intros (H0 & H1 & H2) (H3 & H4 & H5). destruct (Z.lt_trichotomy n m) as [H|[H|H]]; [|done|].
  - destruct (H4 n ltac:(lia)) as (c & Hc & Hz). congruence.
  - destruct (H1 m ltac:(lia)) as (c & Hc & Hz). congruence.
Qed.

Lemma copystr_ok s dst src n user :
  c_recover s = false → 0 ≤ user < 2 ^ 32 → 0 ≤ n < 2 ^ 32 → apart dst src n →
  ∃ r s', (match copycheck user n with
    | inl e => kret (e, None)
    | inr stoplen => protect (EFAULT, None) (copystr dst src n stoplen)
    end) s = Done (r, s') ∧ copystr_result s dst src n user r s'.
Proof.
  intros Hr Hu Hn Ha. pose proof (copycheck_ok user n Hu Hn) as Hc. destruct (copycheck user n) as [e|m].
  { destruct Hc as (-> & Hno & Hc). exists (EFAULT, None), s. split; [done|]. split; [apply changed_refl|]. split; [|split; [done|by left]].
    intros k (H0 & _) Hk Hu32 Hku Hw. exfalso. specialize (Hc Hu32). lia. }
  destruct Hc as (Hm & Hlt & Hmu). set (k := Z.to_nat (Z.min n m)).
  destruct (copystr_loop_ok dst src (if m <? n then EFAULT else ENAMETOOLONG) k 0 (set_recover true s)) as (r & s1 & E & C & HQ); [done| |].
  { unfold apart in *. lia. }
  unfold str_ends in HQ. rewrite !Z.add_0_r in *. unfold protect. ksteps. unfold copystr. fold k. kcall E. ksteps. eexists _, _. split; [reflexivity|].
  assert (C' : changed s (set_recover false s1) dst (Z.min n (USERSPACETOP - user))).
  { destruct C as [o d ro rc]. split; [|exact d|exact ro|by rewrite Hr]. intros x Hx. apply o. lia. }
  split; [exact C'|]. split; [|split].
  - intros j Hj Hjn Hu32 Hju Hw. assert (Hjk : j < Z.of_nat k) by (pose proof Hj as [? _]; lia).
    destruct r as [x|]; [|exfalso; apply HQ; left; by exists j]. destruct HQ as [(n' & Hn' & Hs & _ & -> & _)|(Hz & _)].
    + by rewrite (string_unique _ _ _ _ Hj Hs).
    + destruct Hj as (H0 & _ & Hj). destruct (Hz j ltac:(lia)) as (c & Hc & Hcz). cbn [c_bytes set_recover] in Hc. congruence.
  - intros Hin Hnz Hw. assert (Hmn : m = n) by (by apply Hm). assert (Hk : Z.of_nat k = n) by lia.
    destruct r as [x|]; [|exfalso; apply HQ; right; by rewrite Hk]. destruct HQ as [(n' & Hn' & (H0 & _ & Hs) & _)|(_ & _ & -> & _)].
    + destruct (Hnz n' ltac:(lia)) as (c & Hc & Hcz). cbn [c_bytes set_recover] in Hs. congruence.
    + rewrite (proj2 (Z.ltb_ge m n)) by lia. done.
  - destruct r as [x|]; [|by left]. destruct HQ as [(n' & Hn' & Hs & _ & -> & Hc)|(Hz & _ & -> & Hc)].
    + pose proof Hs as [? _]. replace (0 + n' + 1 - 1) with n' by lia. split; [done|]. split; [exact Hs|]. split; [lia|]. split; [lia|exact Hc].
    + destruct (Z.ltb_spec m n) as [|Hge]; [by left|right]. split; [done|]. unfold in_user in *. split; [lia|]. split; intros i Hi; [apply Hz|apply Hc]; lia.
Qed.

(** Nothing of the kernel's memory has changed. *)
Definition kernel_kept s s' : Prop := ∀ x, USERSPACETOP ≤ x → c_bytes s' !! x = c_bytes s !! x.

(** C16. Copying to and from user memory is safe for any address and length a
    process may give: no copy stops the machine, the recovery function is off
    again afterwards, and only the destination changes, which for [copyout] and
    [copyoutstr] means no byte of the kernel.  A block is copied exactly when it
    is not empty, lies in user space and can be accessed on both sides; a string
    is copied with its NUL exactly when it fits, and its length is reported;
    everything else is [EFAULT], or [ENAMETOOLONG] when the room is too small. *)
Theorem copyinout_safe s user kern n :
  c_recover s = false → 0 ≤ user < 2 ^ 32 → 0 ≤ n < 2 ^ 32 → apart kern user n →
  (∃ r s', copyin user kern n s = Done (r, s') ∧ copy_result s kern user n user r s') ∧
  (∃ r s', copyout kern user n s = Done (r, s') ∧ copy_result s user kern n user r s' ∧ kernel_kept s s') ∧
  (∃ r s', copyinstr user kern n s = Done (r, s') ∧ copystr_result s kern user n user r s') ∧
  (∃ r s', copyoutstr kern user n s = Done (r, s') ∧ copystr_result s user kern n user r s' ∧ kernel_kept s s').
Proof.
  intros Hr Hu Hn Ha. assert (Ha' : apart user kern n) by (unfold apart in *; lia). split; [|split; [|split]].
  - by apply copy_ok.
  - destruct (copy_ok s user kern n user Hr Hu Hn) as (r & s' & E & H). exists r, s'. split; [exact E|]. split; [exact H|].
    destruct H as (C & _ & H0 & H1). intros x Hx. destruct (decide (r = 0)) as [Er|Er].
    + destruct (H0 Er) as ([_ Hin] & _). apply (ch_out _ _ _ _ C). lia.
    + destruct (decide (user + n ≤ USERSPACETOP)); [apply (ch_out _ _ _ _ C); lia|]. destruct (H1 Er) as [_ ->]; [done|]. unfold in_user. lia.
  - by apply copystr_ok.
  - destruct (copystr_ok s user kern n user Hr Hu Hn Ha') as (r & s' & E & H). exists r, s'. split; [exact E|]. split; [exact H|].
    intros x Hx. apply (ch_out _ _ _ _ (proj1 H)). lia.
Qed.

(** Four bytes of user memory at 4096, eight of the kernel's. *)
Definition small_memory : cpu :=
  mk_cpu (list_to_map [(4096, 104); (4097, 105); (4098, 0); (4099, 7); (2147487744, 0); (2147487745, 0); (2147487746, 0); (2147487747, 0)]) ∅ false.
Lemma copyinout_safe_witness :
  apart 2147487744 4096 4 ∧
  (∃ r s', copyin 4096 2147487744 4 small_memory = Done (r, s') ∧ copy_result small_memory 2147487744 4096 4 4096 r s') ∧
  copyinstr 4096 2147487744 4 small_memory = Done ((0, Some 3), set_bytes (<[2147487744 := 104]> (<[2147487745 := 105]> (c_bytes small_memory))) small_memory) ∧
  copyin 4096 2147487744 0 small_memory = Done (EFAULT, small_memory).
Proof.
  assert (Ha : apart 2147487744 4096 4) by (unfold apart; lia). split; [exact Ha|].
  destruct (copyinout_safe small_memory 4096 2147487744 4) as (H & _); [done|lia|lia|exact Ha|]. split; [exact H|]. split; vm_compute; reflexivity.
Defined.
