(* ===== verification/ArgPass.v ===== *)
(** * Passing arguments to a new program (kern/syscall/runprogram.c)

    [runprogram] (and, with the same statements, [sys_execv]) copies the
    argument strings and the array of pointers to them onto the new process's
    stack.  The local array [stringAddr] lies on the kernel's stack, at
    [kstack], since its elements are copied out from there.  An argument is the
    kernel address of a string, with its length. *)

From stdpp Require Import base numbers list gmap.
From Stdlib Require Import ZArith Lia.
From S2P Require Import Prelude PhysMem SfsDisk Copyinout.

Open Scope Z_scope.
Open Scope kernel_scope.

(** [while (... % n != 0) stackptr--]; [off] is what is subtracted first. *)
Fixpoint align_down (fuel : nat) (n off sp : Z) : K cpu Z :=
  match fuel with
  | O => khang
  | S fuel => if u32 (sp - off) mod n =? 0 then kret sp else align_down fuel n off (u32 (sp - 1))
  end.

(** [stringAddr[i] = v]: not protected, a bad address stops the machine. *)
Definition set_stringAddr (kstack i v : Z) : K cpu unit :=
  r <- store_bytes (kstack + 4 * i) (be32 v) ;; kret tt.

(** The strings, from the last to the first. *)
Fixpoint push_strings (kstack : Z) (argv : list (Z * Z)) (i : Z) (sp : Z) : K cpu Z :=
  match argv with
  | [] => kret sp
  | (a, len) :: argv =>
      sp <- align_down 4 4 0 (u32 (sp - (len + 1))) ;;
      r <- copyoutstr a sp len ;;
      set_stringAddr kstack i sp ;;
      push_strings kstack argv (i - 1) sp
  end.

(** The pointers, from index [k - 1] down to 0. *)
Fixpoint push_pointers (kstack : Z) (k : nat) (sp : Z) : K cpu Z :=
  match k with
  | O => kret sp
  | S k =>
      let sp := u32 (sp - 4) in
      r <- copyout (kstack + 4 * Z.of_nat k) sp 4 ;;
      push_pointers kstack k sp
  end.

(** The stack pointer the program starts with, which is also its [argv]. *)
Definition push_args (kstack : Z) (argv : list (Z * Z)) (sp : Z) : K cpu Z :=
  let argc := Z.of_nat (length argv) in
  let stringSpace := fold_left (λ n '(_, len), i32 (n + (len + 1))) argv 0 in
  sp <- align_down 8 8 (4 * argc + stringSpace) sp ;;
  let sp := u32 (sp - 4) in
  r <- copyout 0 sp 4 ;;
  set_stringAddr kstack argc sp ;;
  sp <- push_strings kstack (reverse argv) (argc - 1) sp ;;
  push_pointers kstack (S (length argv)) sp.

(** ** Copies that succeed *)

Lemma copyout_put s src dst n :
  c_recover s = false → 0 < n → 0 ≤ dst → dst + n ≤ USERSPACETOP → USERSPACETOP ≤ src → readable s src n → writable s dst n →
  ∃ s', copyout src dst n s = Done (0, s') ∧ changed s s' dst n ∧ copied s s' dst src n.
Proof.
  intros Hr Hn Hd Hu Hs Hrd Hw. unfold USERSPACETOP, MIPS_KSEG0 in *.
  destruct (copy_ok s dst src n dst Hr ltac:(lia) ltac:(lia)) as (r & s' & E & C & H1 & H2 & _).
  assert (r = 0) as -> by (apply H1; split_and!; try done; unfold in_user, USERSPACETOP, MIPS_KSEG0; lia).
  exists s'. split; [exact E|]. split; [done|]. apply H2; [done|]. unfold apart. lia.
Qed.
(** The NUL is not copied: the length given leaves it out. *)
Lemma copyoutstr_put s src dst n :
  c_recover s = false → 0 ≤ dst → dst + n ≤ USERSPACETOP → USERSPACETOP ≤ src → string_at s src n → writable s dst n →
  ∃ r s', copyoutstr src dst n s = Done (r, s') ∧ changed s s' dst n ∧ copied s s' dst src n.
Proof.
  intros Hr Hd Hu Hs (Hn & Hnz & _) Hw. assert (Hap : apart dst src n) by (unfold apart, USERSPACETOP, MIPS_KSEG0 in *; lia).
  destruct (copystr_ok s dst src n dst) as (r & s' & E & C & _ & H & Hx); try (unfold USERSPACETOP, MIPS_KSEG0 in *; lia); [done|done|].
  exists r, s'. split; [exact E|]. rewrite Z.min_l in C by lia. split; [done|].
  destruct (decide (n = 0)) as [->|]; [intros i Hi; lia|]. rewrite H in Hx; [|unfold in_user; lia|done|done]. by destruct Hx as [?|(_ & _ & _ & ?)].
Qed.

(** ** Alignment *)

Lemma align_down_ok fuel n off sp s :
  0 < n → 0 ≤ sp - off < 2 ^ 32 → 0 ≤ sp < 2 ^ 32 → (sp - off) mod n ≤ sp → (sp - off) mod n < Z.of_nat fuel →
  align_down fuel n off sp s = Done (sp - (sp - off) mod n, s).
Proof.
  intros Hn. revert sp. induction fuel as [|fuel IH]; intros sp Ho Hs Hm Hf; [pose proof (Z.mod_pos_bound (sp - off) n); lia|].
  cbn [align_down]. rewrite u32_small by done. pose proof (Z.mod_pos_bound (sp - off) n Hn). pose proof (Z.mod_le (sp - off) n (proj1 Ho) Hn).
  destruct (Z.eqb_spec ((sp - off) mod n) 0) as [E|E]; [rewrite E, Z.sub_0_r; done|]. rewrite u32_small by lia.
  assert (Hp : (sp - 1 - off) mod n = (sp - off) mod n - 1).
  { symmetry. apply (Z.mod_unique _ _ ((sp - off) / n)); [lia|]. pose proof (Z.div_mod (sp - off) n ltac:(lia)). lia. }
  rewrite IH; [do 2 f_equal; lia|lia|lia|lia|lia].
Qed.

(** Where a string goes. *)
Definition place (sp len : Z) : Z := sp - (len + 1) - (sp - (len + 1)) mod 4.
Lemma place_range sp len : 0 ≤ len → place sp len mod 4 = 0 ∧ sp - (len + 1) - 3 ≤ place sp len ≤ sp - (len + 1).
Proof.
  intros Hl. unfold place. pose proof (Z.mod_pos_bound (sp - (len + 1)) 4 ltac:(lia)). split; [|lia].
  rewrite Zminus_mod_idemp_r. by rewrite Z.sub_diag.
Qed.
(** The stack pointer after the strings. *)
Fixpoint places (argv : list (Z * Z)) (sp : Z) : Z :=
  match argv with [] => sp | (_, len) :: argv => places argv (place sp len) end.
Lemma places_le argv sp : Forall (λ p, 0 ≤ p.2) argv → places argv sp ≤ sp.
Proof.
  intros H. revert sp. induction H as [|[a len] argv Hl _ IH]; intros sp; cbn in *; [lia|]. etrans; [apply IH|]. destruct (place_range sp len Hl). lia.
Qed.
Lemma places_aligned argv sp : Forall (λ p, 0 ≤ p.2) argv → sp mod 4 = 0 → places argv sp mod 4 = 0.
Proof.
  intros H. revert sp. induction H as [|[a len] argv Hl _ IH]; intros sp Hs; cbn in *; [done|]. apply IH. by destruct (place_range sp len Hl).
Qed.

(** ** The loops *)

Section Loops.
Context (kstack base : Z) (argc : Z).
Context (Hk : USERSPACETOP ≤ kstack) (Hb : 4 ≤ base).
Implicit Types (s : cpu).

Abbreviation in_array i x := (kstack ≤ x < kstack + 4 * i).

(** Only the stack between [lo] and [hi] and the first [i] pointers differ. *)
Record within s s' (lo hi i : Z) : Prop := {
  wi_out x : ¬ (lo ≤ x < hi) → ¬ in_array i x → c_bytes s' !! x = c_bytes s !! x;
  wi_dom x : is_Some (c_bytes s' !! x) ↔ is_Some (c_bytes s !! x);
  wi_readonly : c_readonly s' = c_readonly s;
  wi_recover : c_recover s' = c_recover s
}.
(** The arguments are in the kernel, away from the array, which is there. *)
Record kernel_ok s (argv : list (Z * Z)) : Prop := {
  ko_recover : c_recover s = false;
  ko_array x : in_array (argc + 1) x → may_write x s = true;
  ko_argv a len : (a, len) ∈ argv → string_at s a len ∧ USERSPACETOP ≤ a ∧ (a + len < kstack ∨ kstack + 4 * (argc + 1) ≤ a)
}.
(** Zeros that may be written, from [base] up to [sp]. *)
Definition fresh s (sp : Z) : Prop := ∀ x, base ≤ x < sp → c_bytes s !! x = Some 0 ∧ may_write x s = true.

Lemma within_write s s' lo hi i x : within s s' lo hi i → may_write x s' = may_write x s.
Proof. intros [_ d r _]. unfold may_write. rewrite r. f_equal. by apply bool_decide_ext. Qed.
Lemma within_kernel s s' lo hi i argv :
  within s s' lo hi i → hi ≤ USERSPACETOP → i ≤ argc + 1 → kernel_ok s argv → kernel_ok s' argv.
Proof.
  intros W Hhi Hi [k1 k2 k3]. split.
  - by rewrite (wi_recover _ _ _ _ _ W).
  - intros x Hx. rewrite (within_write _ _ _ _ _ _ W). by apply k2.
  - intros a len Hin. destruct (k3 a len Hin) as ((H0 & H1 & H2) & Ha & Hd). split; [|done].
    assert (Hsame : ∀ j, 0 ≤ j ≤ len → c_bytes s' !! (a + j) = c_bytes s !! (a + j)) by (intros j Hj; apply (wi_out _ _ _ _ _ W); lia).
    split; [done|]. split; [|rewrite Hsame by lia; done]. intros j Hj. rewrite Hsame by lia. by apply H1.
Qed.
Lemma within_fresh s s' lo hi i : within s s' lo hi i → fresh s hi → lo ≤ hi → lo ≤ USERSPACETOP → fresh s' lo.
Proof using Hk.
  intros W Hf Hlo Hu x Hx. destruct (Hf x ltac:(lia)) as [H1 H2]. rewrite (within_write _ _ _ _ _ _ W). split; [|done].
  rewrite (wi_out _ _ _ _ _ W); [done|lia|lia].
Qed.
Lemma within_trans s1 s2 s3 lo mid hi i j :
  within s1 s2 mid hi j → within s2 s3 lo mid i → lo ≤ mid ≤ hi → i ≤ j → within s1 s3 lo hi j.
Proof.
  intros [o1 d1 r1 c1] [o2 d2 r2 c2] Hle Hij. split; try congruence.
  - intros x Hx Hxi. rewrite o2, o1; [done|lia..].
  - intros x. by rewrite d2, d1.
Qed.

(** An element of the array is set. *)
Lemma set_stringAddr_ok s argv i v :
  kernel_ok s argv → 0 ≤ i ≤ argc →
  ∃ s', set_stringAddr kstack i v s = Done (tt, s') ∧ changed s s' (kstack + 4 * i) 4 ∧
    ∀ j, 0 ≤ j < 4 → c_bytes s' !! (kstack + 4 * i + j) = be32 v !! Z.to_nat j.
Proof.
  intros Hko Hi. unfold set_stringAddr.
  assert (Hw : writable s (kstack + 4 * i) (Z.of_nat (length (be32 v)))).
  { intros j Hj. apply (ko_array _ _ Hko). cbn in Hj. lia. }
  destruct (store_bytes_writable s (kstack + 4 * i) (be32 v) Hw) as (s' & E & C & H). kcall E. exists s'. split; [done|]. split; [exact C|exact H].
Qed.

(** The word at [a]. *)
Definition word_at s (a v : Z) : Prop := ∀ j, 0 ≤ j < 4 → c_bytes s !! (a + j) = be32 v !! Z.to_nat j.

(** One string: it is in place with a NUL after it, and its address is in the
    array. *)
Lemma push_string_ok s argv a len sp i :
  kernel_ok s argv → (a, len) ∈ argv → fresh s sp → sp ≤ USERSPACETOP → base ≤ place sp len → 0 ≤ i < argc →
  let d := place sp len in
  ∃ r s1 s2, copyoutstr a d len s = Done (r, s1) ∧ set_stringAddr kstack i d s1 = Done (tt, s2) ∧ within s s2 d sp (i + 1) ∧
    word_at s2 (kstack + 4 * i) d ∧ string_at s2 d len ∧ ∀ x, 0 ≤ x < len → c_bytes s2 !! (d + x) = c_bytes s !! (a + x).
Proof using Hk Hb.
  intros Hko Hin Hf Hsp Hbase Hi d. pose proof (ko_argv _ _ Hko a len Hin) as (Hs & Ha & _). pose proof Hs as (H0 & Hnz & _).
  destruct (place_range sp len H0) as [_ Hd]. fold d in Hd, Hbase.
  destruct (copyoutstr_put s a d len) as (r & s1 & E1 & C1 & Hc1); [apply Hko|lia|lia|done|done| |].
  { intros x Hx. apply Hf. lia. }
  assert (W1 : within s s1 d sp 0).
  { destruct C1 as [o1 d1 r1 c1]. split; try done. intros x Hx _. apply o1. lia. }
  pose proof (within_kernel _ _ _ _ _ _ W1 Hsp ltac:(lia) Hko) as Hko1.
  destruct (set_stringAddr_ok s1 argv i d Hko1 ltac:(lia)) as (s2 & E2 & C2 & Hw2).
  assert (Hu : ∀ x, x < USERSPACETOP → c_bytes s2 !! x = c_bytes s1 !! x) by (intros x Hx; apply (ch_out _ _ _ _ C2); lia).
  assert (Hx2 : ∀ x, 0 ≤ x < len → c_bytes s2 !! (d + x) = c_bytes s !! (a + x)) by (intros x Hx; rewrite Hu by lia; by apply Hc1).
  exists r, s1, s2. split; [done|]. split; [done|]. split; [|split; [exact Hw2|split; [|exact Hx2]]].
  - destruct W1 as [o1 d1 r1 c1], C2 as [o2 d2 r2 c2]. split; try congruence.
    + intros x Hx Hxi. rewrite o2, o1; [done|lia..].
    + intros x. by rewrite d2, d1.
  - split; [done|]. split.
    + intros x Hx. rewrite Hx2 by done. by apply Hnz.
    + rewrite Hu, (ch_out _ _ _ _ C1) by lia. apply Hf. lia.
Qed.

Lemma push_strings_ok argv all : ∀ i sp s,
  kernel_ok s all → (∀ p, p ∈ argv → p ∈ all) → fresh s sp → sp ≤ USERSPACETOP → base ≤ places argv sp → i + 1 = Z.of_nat (length argv) → i < argc →
  ∃ s', push_strings kstack argv i sp s = Done (places argv sp, s') ∧ within s s' (places argv sp) sp (i + 1) ∧
    ∀ j a len, argv !! j = Some (a, len) →
      ∃ d, d mod 4 = 0 ∧ places argv sp ≤ d ∧ d + len < sp ∧ word_at s' (kstack + 4 * (i - Z.of_nat j)) d ∧ string_at s' d len ∧
        ∀ x, 0 ≤ x < len → c_bytes s' !! (d + x) = c_bytes s !! (a + x).
Proof using Hk Hb.
  induction argv as [|[a len] argv IH]; intros i sp s Hko Hall Hf Hsp Hbase Hi Hia.
  { exists s. split; [done|]. split; [by split|]. done. }
  assert (Hlens : ∀ p, p ∈ (a, len) :: argv → 0 ≤ p.2).
  { intros [b n] Hp. apply Hall in Hp. destruct (ko_argv _ _ Hko b n Hp) as ((? & _) & _). done. }
  pose proof (Hlens (a, len) ltac:(by left)) as Hl. cbn in Hl. destruct (place_range sp len Hl) as [Hm Hd].
  assert (Hle : places argv (place sp len) ≤ place sp len) by (apply places_le, Forall_forall; intros p Hp; apply Hlens; by right).
  cbn [places] in *. cbn [push_strings]. cbn [length] in Hi.
  rewrite (u32_small (sp - (len + 1))) by (unfold USERSPACETOP, MIPS_KSEG0 in *; lia).
  assert (E0 : align_down 4 4 0 (sp - (len + 1)) s = Done (place sp len, s)).
  { unfold place. pose proof (Z.mod_pos_bound (sp - (len + 1)) 4 ltac:(lia)).
    rewrite align_down_ok; rewrite ?Z.sub_0_r; (done || unfold USERSPACETOP, MIPS_KSEG0 in *; lia). }
  kcall E0. destruct (push_string_ok s all a len sp i Hko) as (r & s1 & s2 & E1 & E2 & W & Hw & Hs & Hx); [apply Hall; by left|done|done|lia|lia|].
  kcall E1. kcall E2. set (d := place sp len) in *. pose proof (within_kernel _ _ _ _ _ _ W Hsp ltac:(lia) Hko) as Hko2.
  destruct (IH (i - 1) d s2 Hko2) as (s' & E & W' & Hj); [intros p Hp; apply Hall; by right|eapply within_fresh; [done|done|lia|lia]|lia|lia|lia|lia|].
  rewrite Z.sub_add in W'. exists s'. split; [done|]. split; [eapply within_trans; [done|done|lia|lia]|].
  assert (Hkeep : ∀ x, d ≤ x < sp → c_bytes s' !! x = c_bytes s2 !! x) by (intros x Hxr; apply (wi_out _ _ _ _ _ W'); lia).
  intros [|j] b n Hb'.
  - injection Hb' as <- <-. exists d. split; [done|]. split; [done|]. split; [lia|]. split; [|split].
    + intros j Hj'. rewrite Z.sub_0_r. rewrite (wi_out _ _ _ _ _ W') by lia. by apply Hw.
    + destruct Hs as (H0 & Hnz & Hz). split; [done|]. split; [intros x Hxr; rewrite Hkeep by lia; by apply Hnz|rewrite Hkeep by lia; done].
    + intros x Hxr. rewrite Hkeep by lia. by apply Hx.
  - destruct (Hj j b n Hb') as (e & He & Hpe & Hes & Hwe & Hse & Hxe). exists e. split; [done|]. split; [done|]. split; [lia|].
    split; [by replace (i - Z.of_nat (S j)) with (i - 1 - Z.of_nat j) by lia|]. split; [done|]. intros x Hxr. rewrite Hxe by done.
    destruct (ko_argv _ _ Hko b n) as (_ & Hbk & Hba); [apply Hall; right; by eapply list_elem_of_lookup_2|]. apply (wi_out _ _ _ _ _ W); lia.
Qed.

(** The pointers are copied as they are in the array. *)
Lemma push_pointers_ok k : ∀ sp s,
  c_recover s = false → readable s kstack (4 * Z.of_nat k) → writable s (sp - 4 * Z.of_nat k) (4 * Z.of_nat k) →
  4 * Z.of_nat k ≤ sp ≤ USERSPACETOP →
  ∃ s', push_pointers kstack k sp s = Done (sp - 4 * Z.of_nat k, s') ∧ changed s s' (sp - 4 * Z.of_nat k) (4 * Z.of_nat k) ∧
    copied s s' (sp - 4 * Z.of_nat k) kstack (4 * Z.of_nat k).
Proof using Hk.
  induction k as [|k IH]; intros sp s Hr Hrd Hw Hsp.
  { exists s. cbn. rewrite Z.sub_0_r. split; [done|]. split; [apply changed_refl|]. intros i Hi. lia. }
  cbn [push_pointers]. rewrite (u32_small (sp - 4)) by (unfold USERSPACETOP, MIPS_KSEG0 in *; lia).
  destruct (copyout_put s (kstack + 4 * Z.of_nat k) (sp - 4) 4) as (s1 & E1 & C1 & H1); [done|lia|lia|lia|lia| | |].
  { intros i Hi. rewrite <- Z.add_assoc. apply Hrd. lia. }
  { intros i Hi. replace (sp - 4 + i) with (sp - 4 * Z.of_nat (S k) + (4 * Z.of_nat k + i)) by lia. apply Hw. lia. }
  kcall E1. destruct (IH (sp - 4) s1) as (s' & E & C & H).
  { by rewrite (ch_recover _ _ _ _ C1). }
  { intros i Hi. rewrite (ch_dom _ _ _ _ C1). apply Hrd. lia. }
  { intros i Hi. rewrite (changed_write _ _ _ _ _ C1). replace (sp - 4 - 4 * Z.of_nat k + i) with (sp - 4 * Z.of_nat (S k) + i) by lia. apply Hw. lia. }
  { lia. }
  exists s'. replace (sp - 4 * Z.of_nat (S k)) with (sp - 4 - 4 * Z.of_nat k) by lia. split; [done|]. split.
  - destruct C1 as [o1 d1 r1 c1], C as [o d r c]. split; try congruence; [|intros x; by rewrite d, d1]. intros x Hx. rewrite o, o1; [done|lia..].
  - intros i Hi. destruct (decide (i < 4 * Z.of_nat k)).
    + rewrite H by lia. apply (ch_out _ _ _ _ C1). lia.
    + rewrite (ch_out _ _ _ _ C) by lia. replace (sp - 4 - 4 * Z.of_nat k + i) with (sp - 4 + (i - 4 * Z.of_nat k)) by lia. rewrite H1 by lia. f_equal. lia.
Qed.
End Loops.

(** ** The whole *)

(** The characters, with a NUL for each string. *)
Fixpoint chars (argv : list (Z * Z)) : Z := match argv with [] => 0 | (_, len) :: argv => len + 1 + chars argv end.
Abbreviation lens_ok argv := (Forall (λ p : Z * Z, 0 ≤ p.2) argv).

Lemma chars_app l l' : chars (l ++ l') = chars l + chars l'.
Proof. induction l as [|[a n] l IH]; cbn; [done|]. rewrite IH. lia. Qed.
Lemma chars_reverse l : chars (reverse l) = chars l.
Proof. induction l as [|[a n] l IH]; [done|]. rewrite reverse_cons, chars_app, IH. cbn. lia. Qed.
Lemma chars_nonneg l : lens_ok l → 0 ≤ chars l.
Proof. induction 1 as [|[a n] l Hn _ IH]; cbn in *; lia. Qed.
Lemma stringSpace_ok l : lens_ok l → ∀ n, 0 ≤ n → n + chars l < 2 ^ 31 → fold_left (λ n '(_, len), i32 (n + (len + 1))) l n = n + chars l.
Proof.
  induction 1 as [|[a len] l Hn Hl IH]; intros n H0 Hs; cbn in *; [lia|]. pose proof (chars_nonneg l Hl).
  assert (i32 (n + (len + 1)) = n + (len + 1)) as ->.
  { unfold i32. rewrite Z.mod_small by lia. lia. }
  rewrite IH by lia. lia.
Qed.
Lemma places_ge l sp : lens_ok l → sp - chars l - 3 * Z.of_nat (length l) ≤ places l sp.
Proof.
  intros H. revert sp. induction H as [|[a n] l Hn _ IH]; intros sp; cbn [places chars length] in *; [lia|]. cbn in Hn.
  specialize (IH (place sp n)). destruct (place_range sp n Hn). lia.
Qed.

(** The pointer that should end the array: there is nothing to read at 0. *)
Lemma copyout_null s dst :
  c_recover s = false → c_bytes s !! 0 = None → 0 ≤ dst → dst + 4 ≤ USERSPACETOP → copyout 0 dst 4 s = Done (EFAULT, s).
Proof.
  intros Hr H0 Hd Hu. unfold copyout. pose proof (copycheck_ok dst 4) as Hc. unfold in_user, USERSPACETOP, MIPS_KSEG0 in *.
  destruct (copycheck dst 4) as [e|m]; [lia|]. assert (m = 4) as -> by lia. cbn [Z.eqb negb Pos.eqb]. unfold protect, jbind. ksteps.
  assert (Hl : ∀ w k, load_bytes 0 (S w) (set_recover true s) = Done (None, set_recover true s) ∧ copy_units (S w) dst 0 (S k) (set_recover true s) = Done (None, set_recover true s)).
  { intros w k. assert (E : load_bytes 0 (S w) (set_recover true s) = Done (None, set_recover true s)).
    { unfold load_bytes. ksteps. rewrite seqZ_cons by lia. cbn [mapM]. rewrite Z.add_0_r. cbn [c_bytes set_recover]. rewrite H0. done. }
    split; [done|]. cbn [copy_units]. unfold jbind. by kcall E. }
  assert (E : memcpy dst 0 4 (set_recover true s) = Done (None, set_recover true s)) by (unfold memcpy; destruct (_ && _); apply (Hl _ _)).
  kcall E. ksteps. unfold kret. do 2 f_equal. destruct s. cbn in *. by subst.
Qed.

Section Layout.
Context (kstack base : Z) (argv : list (Z * Z)) (sp0 : Z) (s : cpu).
Abbreviation argc := (Z.of_nat (length argv)).

Context (Hk : USERSPACETOP ≤ kstack) (Hb : 4 ≤ base) (Hsp : sp0 ≤ USERSPACETOP) (Hko : kernel_ok kstack argc s argv) (Hf : fresh base s sp0).
Context (H0 : c_bytes s !! 0 = None) (Hroom : base + chars argv + 7 * argc + 16 ≤ sp0).

Lemma argv_lens : lens_ok argv.
Proof using Hko. apply Forall_forall. intros [a n] Hp. by destruct (ko_argv _ _ _ _ Hko a n Hp) as ((? & _) & _). Qed.

(** The strings are down, the pointers are in the array. *)
Lemma push_args_strings :
  ∃ sp2 sp3 s2,
    push_args kstack argv sp0 s = push_pointers kstack (S (length argv)) sp3 s2 ∧ base + 4 * (argc + 1) ≤ sp3 ≤ sp2 ∧ sp2 + 4 ≤ sp0 ∧
    (argv ≠ [] → sp3 mod 4 = 0) ∧ within kstack s s2 sp3 sp2 (argc + 1) ∧ word_at s2 (kstack + 4 * argc) sp2 ∧
    ∀ i a len, argv !! i = Some (a, len) →
      ∃ d, word_at s2 (kstack + 4 * Z.of_nat i) d ∧ d mod 4 = 0 ∧ sp3 ≤ d ∧ d + len < sp2 ∧ string_at s2 d len ∧
        ∀ x, 0 ≤ x < len → c_bytes s2 !! (d + x) = c_bytes s !! (a + x).
Proof using Hk Hb Hsp Hko Hf H0 Hroom.
  pose proof argv_lens as Hlens. pose proof (chars_nonneg argv Hlens) as Hch. pose proof Hsp as Hsp'. unfold USERSPACETOP, MIPS_KSEG0 in Hsp'.
  unfold push_args. rewrite (stringSpace_ok argv Hlens 0) by lia. rewrite Z.add_0_l. set (off := 4 * argc + chars argv).
  pose proof (Z.mod_pos_bound (sp0 - off) 8 ltac:(lia)) as Hmb. pose proof (align_down_ok 8 8 off sp0 s ltac:(lia) ltac:(lia) ltac:(lia) ltac:(lia) ltac:(lia)) as E0.
  kcall E0. set (sp1 := sp0 - (sp0 - off) mod 8) in *. rewrite (u32_small (sp1 - 4)) by lia. set (sp2 := sp1 - 4).
  kcall (copyout_null s sp2 (ko_recover _ _ _ _ Hko) H0 ltac:(lia) ltac:(lia)).
  destruct (set_stringAddr_ok kstack argc s argv argc sp2 Hko ltac:(lia)) as (s1 & E1 & C1 & Hw1). kcall E1.
  assert (W1 : within kstack s s1 sp2 sp2 (argc + 1)).
  { destruct C1 as [o d r c]. split; try done. intros x _ Hx. apply o. lia. }
  pose proof (within_kernel kstack argc s s1 sp2 sp2 (argc + 1) argv W1 ltac:(lia) ltac:(lia) Hko) as Hko1.
  assert (Hf1 : fresh base s1 sp2).
  { eapply (within_fresh kstack base Hk s s1 sp2 sp2 (argc + 1)); [exact W1|intros x Hx; apply Hf; lia|lia|lia]. }
  assert (Hrl : lens_ok (reverse argv)) by (by apply Forall_reverse).
  pose proof (places_ge (reverse argv) sp2 Hrl) as Hge. rewrite chars_reverse, length_reverse in Hge. pose proof (places_le (reverse argv) sp2 Hrl) as Hle.
  destruct (push_strings_ok kstack base argc Hk Hb (reverse argv) argv (argc - 1) sp2 s1 Hko1) as (s2 & E2 & W2 & Hstr);
    [intros p; apply elem_of_reverse|done|lia|lia|rewrite length_reverse; lia|lia|]. rewrite Z.sub_add in W2.
  kcall E2. exists sp2, (places (reverse argv) sp2), s2. split; [done|]. split; [lia|]. split; [lia|]. split; [|split; [|split]].
  - intros Hne. destruct (reverse argv) as [|[a n] l] eqn:Er; [by apply (f_equal reverse) in Er; rewrite reverse_involutive in Er|].
    cbn [places]. inversion Hrl. apply places_aligned; [done|]. by apply place_range.
  - eapply within_trans; [exact W1|exact W2|lia|lia].
  - intros j Hj. rewrite (wi_out _ _ _ _ _ _ W2) by lia. by apply Hw1.
  - intros i a len Hi. pose proof (lookup_lt_Some _ _ _ Hi) as Hil. destruct (Hstr (length argv - 1 - i)%nat a len) as (d & Hd & Hpd & Hds & Hwd & Hsd & Hxd).
    { apply reverse_lookup_Some. split; [by replace (length argv - S (length argv - 1 - i))%nat with i by lia|lia]. }
    exists d. split; [|split; [done|split; [done|split; [done|split; [done|]]]]].
    + by replace (kstack + 4 * Z.of_nat i) with (kstack + 4 * (argc - 1 - Z.of_nat (length argv - 1 - i))) by lia.
    + intros x Hx. rewrite Hxd by done. destruct (ko_argv _ _ _ _ Hko a len) as (_ & Ha & Hd'); [by eapply list_elem_of_lookup_2|]. apply (wi_out _ _ _ _ _ _ W1); lia.
Qed.

(** What the program finds. *)
Definition finds_args (sp : Z) s' : Prop :=
  (∀ i a len, argv !! i = Some (a, len) →
    ∃ d, word_at s' (sp + 4 * Z.of_nat i) d ∧ d mod 4 = 0 ∧ sp + 4 * (argc + 1) ≤ d ∧ d + len < sp0 ∧ string_at s' d len ∧
      ∀ x, 0 ≤ x < len → c_bytes s' !! (d + x) = c_bytes s !! (a + x)) ∧
  ∃ z, word_at s' (sp + 4 * argc) z ∧ base ≤ z ∧ word_at s' z 0.

Lemma push_args_ok :
  ∃ sp s', push_args kstack argv sp0 s = Done (sp, s') ∧ base ≤ sp ∧ (argv ≠ [] → sp mod 4 = 0) ∧ within kstack s s' sp sp0 (argc + 1) ∧ finds_args sp s'.
Proof using Hk Hb Hsp Hko Hf H0 Hroom.
  destruct push_args_strings as (sp2 & sp3 & s2 & E & H3 & H2 & Hal & W & Hnull & Hstr). rewrite E.
  pose proof (within_kernel kstack argc s s2 sp3 sp2 (argc + 1) argv W ltac:(lia) ltac:(lia) Hko) as Hko2.
  assert (Hsucc : 4 * Z.of_nat (S (length argv)) = 4 * (argc + 1)) by lia.
  destruct (push_pointers_ok kstack Hk (S (length argv)) sp3 s2) as (s3 & E3 & C3 & Hc3); rewrite ?Hsucc in *.
  { apply Hko2. }
  { intros j Hj. specialize (ko_array _ _ _ _ Hko2 (kstack + j) ltac:(lia)) as Hw. apply andb_prop in Hw as [Hw _]. by apply bool_decide_eq_true in Hw. }
  { intros j Hj. rewrite (within_write _ _ _ _ _ _ _ W). apply Hf. lia. }
  { lia. }
  set (sp := sp3 - 4 * (argc + 1)) in *. exists sp, s3. split; [done|]. split; [lia|]. split; [|split].
  - intros Hne. unfold sp. rewrite Zminus_mod, (Hal Hne), Z.mul_comm, Z.mod_mul by lia. done.
  - destruct C3 as [o d r c], W as [o2 d2 r2 c2]. split; try congruence; [|intros x; by rewrite d, d2]. intros x Hx Hxa. rewrite o, o2; [done|lia|lia|lia].
  - assert (Hup : ∀ x, sp3 ≤ x → c_bytes s3 !! x = c_bytes s2 !! x) by (intros x Hx; apply (ch_out _ _ _ _ C3); lia).
    assert (Hwd : ∀ i v, 0 ≤ i ≤ argc → word_at s2 (kstack + 4 * i) v → word_at s3 (sp + 4 * i) v).
    { intros i v Hi Hw j Hj. rewrite <- Z.add_assoc, Hc3 by lia. rewrite Z.add_assoc. by apply Hw. }
    split.
    + intros i a len Hi. pose proof (lookup_lt_Some _ _ _ Hi) as Hil. destruct (Hstr i a len Hi) as (d & Hw & Hm & Hd & Hdl & (Hl0 & Hnz & Hz) & Hx).
      exists d. split; [apply Hwd; [lia|done]|]. split; [done|]. split; [lia|]. split; [lia|]. split.
      * split; [done|]. split; [intros x Hxr; rewrite Hup by lia; by apply Hnz|rewrite Hup by lia; done].
      * intros x Hxr. rewrite Hup by lia. by apply Hx.
    + exists sp2. split; [apply Hwd; [lia|done]|]. split; [lia|]. intros j Hj. rewrite Hup by lia. rewrite (wi_out _ _ _ _ _ _ W) by lia.
      destruct (Hf (sp2 + j) ltac:(lia)) as [-> _]. assert (j = 0 ∨ j = 1 ∨ j = 2 ∨ j = 3) as [->|[->|[->| ->]]] by lia; done.
Qed.
End Layout.


(** Two arguments, hi and an empty one, with a stack of 64 bytes below 8192. *)
Definition two_args : list (Z * Z) := [(2147487744, 2); (2147487748, 0)].
Definition new_stack : cpu :=
  mk_cpu (map_seqZ 8128 (replicate 64 0) ∪ map_seqZ 2147487744 ([104; 105; 0; 0; 0] ++ replicate 16 0)) ∅ false.
Lemma new_stack_ok : kernel_ok 2147487749 2 new_stack two_args.
Proof.
  split.
  - done.
  - intros x Hx. cut (forallb (λ x, may_write x new_stack) (seqZ 2147487749 12) = true); [|by vm_compute].
    intros H. rewrite forallb_forall in H. apply H, list_elem_of_In, elem_of_seqZ. lia.
  - intros a len [[= -> ->]|[[= -> ->]|[]%not_elem_of_nil]%elem_of_cons]%elem_of_cons; (split; [|unfold USERSPACETOP, MIPS_KSEG0; lia]).
    + split; [lia|]. split; [|done]. intros i Hi. assert (i = 0 ∨ i = 1) as [-> | ->] by lia; by eexists.
    + split; [lia|]. split; [|done]. intros i Hi. lia.
Qed.
Lemma new_stack_fresh : fresh 8128 new_stack 8192.
Proof.
  intros x Hx. cut (forallb (λ x, bool_decide (c_bytes new_stack !! x = Some 0) && may_write x new_stack) (seqZ 8128 64) = true); [|by vm_compute].
  intros H. rewrite forallb_forall in H. specialize (H x). rewrite <- list_elem_of_In, elem_of_seqZ in H. specialize (H ltac:(lia)).
  apply andb_prop in H as [H1 H2]. by apply bool_decide_eq_true in H1.
Qed.
