(* ===== verification/Vfs.v ===== *)
(** * The virtual file system layer (kern/vfs)

    Path names, current directories, and opening and closing: vfslookup.c,
    vfspath.c, vfscwd.c and the device table of vfslist.c.  The layer calls
    file systems through their tables of operations; [VnodeLayer] is what it
    needs of them, and SfsLayer.v shows that SFS provides it. *)

From stdpp Require Import base numbers list gmap.
From Stdlib Require Import ZArith Lia.
From S2P Require Import Prelude.

Open Scope Z_scope.
Open Scope kernel_scope.

(** ** What is below *)

(** Vnodes are numbers.  The references and opens counted for each, the depth
    of the big lock, and which vnodes are directories. *)
Class VnodeState (S : Type) := {
  vl_ok : S → Prop;
  vl_depth : S → Z;
  vl_refs : S → nat → Z;
  vl_opens : S → nat → Z;
  vl_dir : S → nat → Prop
}.

Definition none (w : nat) : Z := 0.
Definition one (v w : nat) : Z := if bool_decide (w = v) then 1 else 0.
Definition got (r : Z + nat) : nat → Z := match r with inl _ => none | inr v => one v end.
Definition minus (δ : nat → Z) (w : nat) : Z := - δ w.

(** The counts change by so much, everything else that can be seen stays. *)
Record moved {S} {V : VnodeState S} (s s' : S) (δ ε : nat → Z) : Prop := {
  mv_ok : vl_ok s';
  mv_depth : vl_depth s' = vl_depth s;
  mv_refs v : vl_refs s' v = vl_refs s v + δ v;
  mv_opens v : vl_opens s' v = vl_opens s v + ε v;
  mv_dir v : 0 < vl_refs s v → 0 < vl_refs s' v → vl_dir s v → vl_dir s' v
}.

(** Strings of the C kind. *)
Definition cstring (l : list Z) : Prop := Forall (λ c, c ≠ 0) l.

(** A call that returns and moves the counts by what its result says. *)
Definition call {S} {V : VnodeState S} {A} (c : K S A) (s : S) (δ : A → nat → Z) (Q : A → S → Prop) : Prop :=
  ∃ a s', c s = Done (a, s') ∧ moved s s' (δ a) none ∧ Q a s'.

Class VnodeLayer (S : Type) {V : VnodeState S} := {
  vn_fs : nat → option nat;
  fs_there : nat → Prop;
  biglock_acquire : K S unit;
  biglock_release : K S unit;
  vop_incref : nat → K S unit;
  vop_decref : nat → K S unit;
  vop_incopen : nat → K S unit;
  vop_decopen : nat → K S unit;
  vop_lookup : nat → list Z → K S (Z + nat);
  vop_lookparent : nat → list Z → Z → K S (Z + nat * list Z);
  vop_creat : nat → list Z → bool → Z → K S (Z + nat);
  vop_open : nat → Z → K S Z;
  vop_truncate : nat → Z → K S Z;
  vop_gettype : nat → K S (Z + Z);
  vop_remove : nat → list Z → K S Z;
  vop_mkdir : nat → list Z → Z → K S Z;
  vop_rmdir : nat → list Z → K S Z;
  vop_symlink : nat → list Z → list Z → K S Z;
  vop_rename : nat → list Z → nat → list Z → K S Z;
  fsop_getroot : nat → K S nat;
  fsop_getvolname : nat → K S (option (list Z));

  vl_bounds s v : vl_ok s → 0 ≤ vl_refs s v ∧ 0 ≤ vl_opens s v;
  vl_fs v f : vn_fs v = Some f → fs_there f;
  acquire_law s : vl_ok s → 0 ≤ vl_depth s →
    ∃ s', biglock_acquire s = Done (tt, s') ∧ vl_ok s' ∧ vl_depth s' = vl_depth s + 1 ∧
      vl_refs s' = vl_refs s ∧ vl_opens s' = vl_opens s ∧ vl_dir s' = vl_dir s;
  release_law s : vl_ok s → 0 < vl_depth s →
    ∃ s', biglock_release s = Done (tt, s') ∧ vl_ok s' ∧ vl_depth s' = vl_depth s - 1 ∧
      vl_refs s' = vl_refs s ∧ vl_opens s' = vl_opens s ∧ vl_dir s' = vl_dir s;
  incref_law s v : vl_ok s → 0 ≤ vl_depth s → 0 < vl_refs s v →
    ∃ s', vop_incref v s = Done (tt, s') ∧ moved s s' (one v) none;
  decref_law s v : vl_ok s → 0 ≤ vl_depth s → 0 < vl_refs s v → (vl_refs s v = 1 → vl_opens s v = 0) →
    ∃ s', vop_decref v s = Done (tt, s') ∧ moved s s' (minus (one v)) none;
  incopen_law s v : vl_ok s → 0 ≤ vl_depth s → 0 < vl_refs s v →
    ∃ s', vop_incopen v s = Done (tt, s') ∧ moved s s' none (one v);
  decopen_law s v : vl_ok s → 0 ≤ vl_depth s → 0 < vl_refs s v → 0 < vl_opens s v →
    ∃ s', vop_decopen v s = Done (tt, s') ∧ moved s s' none (minus (one v));
  lookup_law s v path : vl_ok s → 0 ≤ vl_depth s → 0 < vl_refs s v →
    call (vop_lookup v path) s got (λ _ _, True);
  lookparent_law s v path n : vl_ok s → 0 ≤ vl_depth s → 0 < vl_refs s v → cstring path →
    call (vop_lookparent v path n) s (λ r, match r with inl _ => none | inr (w, _) => one w end)
      (λ r s', ∀ w name, r = inr (w, name) → vl_dir s' w ∧ cstring name);
  creat_law s v name excl mode : vl_ok s → 0 ≤ vl_depth s → 0 < vl_refs s v → cstring name →
    call (vop_creat v name excl mode) s got (λ _ _, True);
  open_law s v flags : vl_ok s → 0 ≤ vl_depth s → 0 < vl_refs s v → call (vop_open v flags) s (λ _, none) (λ _ _, True);
  truncate_law s v : vl_ok s → 0 ≤ vl_depth s → 0 < vl_refs s v → call (vop_truncate v 0) s (λ _, none) (λ _ _, True);
  gettype_law s v : vl_ok s → 0 ≤ vl_depth s → 0 < vl_refs s v →
    call (vop_gettype v) s (λ _, none) (λ r _, r = inr 8192 → is_Some (vn_fs v));
  remove_law s v name : vl_ok s → 0 ≤ vl_depth s → 0 < vl_refs s v → call (vop_remove v name) s (λ _, none) (λ _ _, True);
  mkdir_law s v name mode : vl_ok s → 0 ≤ vl_depth s → 0 < vl_refs s v → call (vop_mkdir v name mode) s (λ _, none) (λ _ _, True);
  rmdir_law s v name : vl_ok s → 0 ≤ vl_depth s → 0 < vl_refs s v → call (vop_rmdir v name) s (λ _, none) (λ _ _, True);
  symlink_law s v name c : vl_ok s → 0 ≤ vl_depth s → 0 < vl_refs s v → call (vop_symlink v name c) s (λ _, none) (λ _ _, True);
  rename_law s v1 n1 v2 n2 : vl_ok s → 0 ≤ vl_depth s → 0 < vl_refs s v1 → 0 < vl_refs s v2 →
    vl_dir s v1 → vl_dir s v2 → vn_fs v1 = vn_fs v2 → cstring n2 →
    call (vop_rename v1 n1 v2 n2) s (λ _, none) (λ _ _, True);
  getroot_law s f : vl_ok s → 0 ≤ vl_depth s → fs_there f → call (fsop_getroot f) s one (λ _ _, True);
  getvolname_law s f : vl_ok s → 0 ≤ vl_depth s → fs_there f → call (fsop_getvolname f) s (λ _, none) (λ _ _, True)
}.

(** ** The layer's own state *)

Record knowndev := Knowndev {
  kd_name : list Z;
  kd_rawname : option (list Z);
  kd_device : option nat;
  kd_vnode : nat;
  kd_fs : option nat
}.

Record vfs (S : Type) := VfsState {
  v_below : S;
  v_cwd : option nat;           (** [curproc->p_cwd] *)
  v_bootfs : option nat;        (** [bootfs_vnode] *)
  v_devs : list knowndev        (** [knowndevs] *)
}.
Arguments VfsState {S} _ _ _ _.
Arguments v_below {S} _.
Arguments v_cwd {S} _.
Arguments v_bootfs {S} _.
Arguments v_devs {S} _.

Definition NAME_MAX : Z := 255.
Definition COLON : Z := 58.
Definition SLASH : Z := 47.
Definition IFDIR : Z := 8192.
Definition O_RDONLY : Z := 0.
Definition O_WRONLY : Z := 1.
Definition O_RDWR : Z := 2.
Definition O_CREAT : Z := 4.
Definition O_EXCL : Z := 8.
Definition O_TRUNC : Z := 16.
Definition ACCMODE : Z := 3.
Definition flag (flags bit : Z) : bool := negb (Z.land flags bit =? 0).

Section Vfs.
Context {S : Type} {V : VnodeState S} {L : VnodeLayer S}.
Abbreviation M := (K (vfs S)).

Definition set_below (s : S) (st : vfs S) : vfs S := VfsState s (v_cwd st) (v_bootfs st) (v_devs st).
Definition below {A} (c : K S A) : M A := kzoom v_below set_below c.
Definition set_cwd (v : option nat) : M unit := kmodify (λ st, VfsState (v_below st) v (v_bootfs st) (v_devs st)).
Definition set_bootfs (v : option nat) : M unit := kmodify (λ st, VfsState (v_below st) (v_cwd st) v (v_devs st)).
(** [if (v != NULL) VOP_DECREF(v)]. *)
Definition decref_opt (v : option nat) : M unit := match v with None => kret tt | Some v => below (vop_decref v) end.

(** [KASSERT(vfs_biglock_do_i_hold())]. *)
Definition assert_biglock : M unit := d <- kgets (λ st, vl_depth (v_below st)) ;; kassert (0 <? d).
(** What is done between [vfs_biglock_acquire] and [vfs_biglock_release]. *)
Definition biglocked {A} (c : M A) : M A :=
  below biglock_acquire ;; a <- c ;; below biglock_release ;; kret a.

(** *** vfscwd.c *)

Definition vfs_getcurdir : M (Z + nat) :=
  cwd <- kgets v_cwd ;;
  match cwd with
  | Some v => below (vop_incref v) ;; kret (inr v)
  | None => kret (inl ENOENT)
  end.

Definition vfs_setcurdir (dir : nat) : M Z :=
  r <- below (vop_gettype dir) ;;
  match r with
  | inl e => kret e
  | inr vtype =>
      if negb (vtype =? IFDIR) then kret ENOTDIR
      else
        below (vop_incref dir) ;;
        old <- kgets v_cwd ;;
        set_cwd (Some dir) ;;
        decref_opt old ;;
        kret 0
  end.

Definition vfs_clearcurdir : M Z :=
  old <- kgets v_cwd ;;
  set_cwd None ;;
  decref_opt old ;;
  kret 0.

(** *** vfslist.c *)

Definition names (a b : list Z) : bool := bool_decide (a = b).
Definition raw_names (kd : knowndev) (devname : list Z) : bool :=
  match kd_rawname kd with Some n => names n devname | None => false end.

(** The tests after the one for a file system: the device itself, or the next. *)
Definition getroot_device (kd : knowndev) (devname : list Z) (next : M (Z + nat)) : M (Z + nat) :=
  if names (kd_name kd) devname then
    kassert (bool_decide (kd_fs kd = None)) ;;
    kassert (bool_decide (kd_rawname kd = None)) ;;
    kassert (bool_decide (kd_device kd ≠ None)) ;;
    below (vop_incref (kd_vnode kd)) ;;
    kret (inr (kd_vnode kd))
  else if raw_names kd devname then
    kassert (bool_decide (kd_device kd ≠ None)) ;;
    below (vop_incref (kd_vnode kd)) ;;
    kret (inr (kd_vnode kd))
  else next.

Fixpoint getroot_loop (devname : list Z) (devs : list knowndev) : M (Z + nat) :=
  match devs with
  | [] => kret (inl ENODEV)
  | kd :: devs =>
      match kd_fs kd with
      | Some fs =>
          volname <- below (fsop_getvolname fs) ;;
          if names (kd_name kd) devname || match volname with Some n => names n devname | None => false end
          then v <- below (fsop_getroot fs) ;; kret (inr v)
          else getroot_device kd devname (getroot_loop devname devs)
      | None =>
          if bool_decide (kd_rawname kd ≠ None) && names (kd_name kd) devname then kret (inl ENXIO)
          else getroot_device kd devname (getroot_loop devname devs)
      end
  end.
Definition vfs_getroot (devname : list Z) : M (Z + nat) :=
  assert_biglock ;; devs <- kgets v_devs ;; getroot_loop devname devs.

(** *** vfslookup.c *)

(** The first colon or slash: where it is, and whether it is the colon. *)
Fixpoint separator (i : nat) (path : list Z) : option (nat * bool) :=
  match path with
  | [] => None
  | c :: path => if c =? COLON then Some (i, true) else if c =? SLASH then Some (i, false) else separator (Datatypes.S i) path
  end.
(** [while (path[...]=='/')]. *)
Fixpoint skip_slashes (path : list Z) : list Z :=
  match path with
  | c :: rest => if c =? SLASH then skip_slashes rest else path
  | [] => []
  end.

Definition getdevice (path : list Z) : M (Z + nat * list Z) :=
  let current := r <- vfs_getcurdir ;;
                 kret (match r with inl e => inl e | inr v => inr (v, path) end) in
  assert_biglock ;;
  match separator 0 path with
  | None | Some (Datatypes.S _, false) => current
  | Some (Datatypes.S i, true) =>
      r <- vfs_getroot (take (Datatypes.S i) path) ;;
      kret (match r with inl e => inl e | inr v => inr (v, skip_slashes (drop (Datatypes.S (Datatypes.S i)) path)) end)
  | Some (O, false) =>
      boot <- kgets v_bootfs ;;
      match boot with
      | None => kret (inl ENOENT)
      | Some b => below (vop_incref b) ;; kret (inr (b, skip_slashes (drop 1 path)))
      end
  | Some (O, true) =>
      r <- vfs_getcurdir ;;
      match r with
      | inl e => kret (inl e)
      | inr vn =>
          match vn_fs vn with
          | None => kpanic
          | Some fs =>
              start <- below (fsop_getroot fs) ;;
              below (vop_decref vn) ;;
              kret (inr (start, skip_slashes (drop 1 path)))
          end
      end
  end.

Definition vfs_lookparent (path : list Z) (buflen : Z) : M (Z + nat * list Z) :=
  biglocked (
    r <- getdevice path ;;
    match r with
    | inl e => kret (inl e)
    | inr (startvn, path) =>
        r <- (if bool_decide (path = []) then kret (inl EINVAL) else below (vop_lookparent startvn path buflen)) ;;
        below (vop_decref startvn) ;;
        kret r
    end).

Definition vfs_lookup (path : list Z) : M (Z + nat) :=
  biglocked (
    r <- getdevice path ;;
    match r with
    | inl e => kret (inl e)
    | inr (startvn, path) =>
        if bool_decide (path = []) then kret (inr startvn)
        else
          r <- below (vop_lookup startvn path) ;;
          below (vop_decref startvn) ;;
          kret r
    end).

Definition vfs_chdir (path : list Z) : M Z :=
  r <- vfs_lookup path ;;
  match r with
  | inl e => kret e
  | inr vn =>
      result <- vfs_setcurdir vn ;;
      below (vop_decref vn) ;;
      kret result
  end.

Definition change_bootfs (newvn : option nat) : M unit :=
  oldvn <- kgets v_bootfs ;;
  set_bootfs newvn ;;
  decref_opt oldvn.

(** [snprintf] leaves room for the colon in a buffer of [NAME_MAX+1]. *)
Definition vfs_setbootfs (fsname : list Z) : M Z :=
  biglocked (
    let tmp := take (Z.to_nat (NAME_MAX - 1)) fsname in
    if bool_decide (COLON ∈ tmp) then kret EINVAL
    else
      result <- vfs_chdir (tmp ++ [COLON]) ;;
      if negb (result =? 0) then kret result
      else
        r <- vfs_getcurdir ;;
        match r with
        | inl e => kret e
        | inr newguy => change_bootfs (Some newguy) ;; kret 0
        end).
Definition vfs_clearbootfs : M unit := biglocked (change_bootfs None).

(** *** vfspath.c *)

(** The vnode [vfs_open] goes on with: a new file's, or the one that is there. *)
Definition open_vnode (path : list Z) (openflags mode : Z) : M (Z + nat) :=
  if flag openflags O_CREAT then
    r <- vfs_lookparent path (NAME_MAX + 1) ;;
    match r with
    | inl e => kret (inl e)
    | inr (dir, name) =>
        r <- below (vop_creat dir name (flag openflags O_EXCL) mode) ;;
        below (vop_decref dir) ;;
        kret r
    end
  else vfs_lookup path.

Definition vfs_open (path : list Z) (openflags mode : Z) : M (Z + nat) :=
  let how := Z.land openflags ACCMODE in
  if negb ((how =? O_RDONLY) || (how =? O_WRONLY) || (how =? O_RDWR)) then kret (inl EINVAL)
  else
    let canwrite := negb (how =? O_RDONLY) in
    r <- open_vnode path openflags mode ;;
    match r with
    | inl e => kret (inl e)
    | inr vn =>
        result <- below (vop_open vn openflags) ;;
        if negb (result =? 0) then below (vop_decref vn) ;; kret (inl result)
        else
          below (vop_incopen vn) ;;
          result <- (if flag openflags O_TRUNC then
                       if canwrite then below (vop_truncate vn 0) else kret EINVAL
                     else kret 0) ;;
          if negb (result =? 0) then below (vop_decopen vn) ;; below (vop_decref vn) ;; kret (inl result)
          else kret (inr vn)
    end.

Definition vfs_close (vn : nat) : M unit := below (vop_decopen vn) ;; below (vop_decref vn).

(** The functions that act on a name in a directory. *)
Definition at_parent (path : list Z) (f : nat → list Z → K S Z) : M Z :=
  r <- vfs_lookparent path (NAME_MAX + 1) ;;
  match r with
  | inl e => kret e
  | inr (dir, name) =>
      result <- below (f dir name) ;;
      below (vop_decref dir) ;;
      kret result
  end.
Definition vfs_remove (path : list Z) : M Z := at_parent path vop_remove.
Definition vfs_mkdir (path : list Z) (mode : Z) : M Z := at_parent path (λ dir name, vop_mkdir dir name mode).
Definition vfs_rmdir (path : list Z) : M Z := at_parent path vop_rmdir.
Definition vfs_symlink (contents path : list Z) : M Z := at_parent path (λ dir name, vop_symlink dir name contents).

Definition vfs_rename (oldpath newpath : list Z) : M Z :=
  r <- vfs_lookparent oldpath (NAME_MAX + 1) ;;
  match r with
  | inl e => kret e
  | inr (olddir, oldname) =>
      r <- vfs_lookparent newpath (NAME_MAX + 1) ;;
      match r with
      | inl e => below (vop_decref olddir) ;; kret e
      | inr (newdir, newname) =>
          result <- (if bool_decide (vn_fs olddir = None) || bool_decide (vn_fs newdir = None) || bool_decide (vn_fs olddir ≠ vn_fs newdir)
                     then kret EXDEV
                     else below (vop_rename olddir oldname newdir newname)) ;;
          below (vop_decref newdir) ;;
          below (vop_decref olddir) ;;
          kret result
      end
  end.
End Vfs.
