(* ===== verification/VfsRefs.v ===== *)
(** * References through the VFS layer

    Every reference counted on a vnode belongs to somebody: the current
    directory, the boot file system, the device table, an open file, or the
    caller of a function that handed it out ([loose]).  Each function of
    Vfs.v keeps this account on all of its paths, errors included, leaves the
    big lock as deep as it was, and returns. *)

From stdpp Require Import base numbers list gmap.
From Stdlib Require Import ZArith Lia.
From S2P Require Import Prelude Vfs.

Open Scope Z_scope.
Open Scope kernel_scope.

Section Refs.
Context {S : Type} {V : VnodeState S} {L : VnodeLayer S}.
Abbreviation M := (K (vfs S)).
Implicit Types (st : vfs S) (v w : nat) (δ ε : nat → Z).

(** ** The account *)

Definition pin (o : option nat) (v : nat) : Z := if bool_decide (o = Some v) then 1 else 0.
Definition dev_pins (devs : list knowndev) (v : nat) : Z := foldr (λ kd n, one (kd_vnode kd) v + n) 0 devs.
Definition pins st v : Z := pin (v_cwd st) v + pin (v_bootfs st) v + dev_pins (v_devs st) v.
Definition refs st v : Z := vl_refs (v_below st) v.
Definition opens st v : Z := vl_opens (v_below st) v.
(** The references callers have. *)
Definition loose st v : Z := refs st v - pins st v - opens st v.

(** An entry of the device table: a mountable device or a device of its own
    has a device behind it. *)
Definition dev_ok (kd : knowndev) : Prop :=
  (kd_rawname kd ≠ None → kd_device kd ≠ None) ∧ (kd_fs kd = None → kd_device kd ≠ None) ∧
  ∀ f, kd_fs kd = Some f → fs_there f.

Record vfs_ok st : Prop := {
  vo_ok : vl_ok (v_below st);
  vo_depth : 0 ≤ vl_depth (v_below st);
  vo_loose v : 0 ≤ loose st v;
  vo_cwd v : v_cwd st = Some v → is_Some (vn_fs v);
  vo_devs : Forall dev_ok (v_devs st)
}.

(** From [st] to [st'] callers get [δ] references and [ε] opens. *)
Record goes st st' (δ ε : nat → Z) : Prop := {
  go_ok : vfs_ok st';
  go_depth : vl_depth (v_below st') = vl_depth (v_below st);
  go_devs : v_devs st' = v_devs st;
  go_loose v : loose st' v = loose st v + δ v;
  go_opens v : opens st' v = opens st v + ε v;
  go_dir v : 0 < loose st v → 0 < loose st' v → vl_dir (v_below st) v → vl_dir (v_below st') v
}.

Lemma goes_refl st : vfs_ok st → goes st st none none.
Proof. intros H. constructor; try done; unfold none; lia. Qed.

Definition plus δ ε (v : nat) : Z := δ v + ε v.
Lemma goes_trans st st1 st2 δ1 ε1 δ2 ε2 :
  goes st st1 δ1 ε1 → (∀ v, 0 ≤ δ1 v ∨ δ2 v ≤ 0) → goes st1 st2 δ2 ε2 → goes st st2 (plus δ1 δ2) (plus ε1 ε2).
Proof.
  intros [_ d1 v1 l1 o1 r1] Hpos [k2 d2 v2 l2 o2 r2]. constructor; unfold plus; [done|congruence|congruence|..].
  - intros v. specialize (l1 v). specialize (l2 v). lia.
  - intros v. specialize (o1 v). specialize (o2 v). lia.
  - intros v H0 H2 Hd. specialize (l1 v). specialize (l2 v). specialize (Hpos v).
    assert (0 < loose st1 v) by (destruct Hpos; lia). apply r2; [done|done|]. by apply r1.
Qed.
Lemma goes_eq st st' δ ε δ' ε' : goes st st' δ ε → (∀ v, δ v = δ' v) → (∀ v, ε v = ε' v) → goes st st' δ' ε'.
Proof. intros [k d dv l o r] Hd He. constructor; try done; intros v; [rewrite <- Hd|rewrite <- He]; done. Qed.

Lemma one_pos v w : 0 ≤ one v w ≤ 1.
Proof. unfold one. case_bool_decide; lia. Qed.
Lemma one_self v : one v v = 1.
Proof. unfold one. by rewrite bool_decide_true. Qed.
Lemma dev_pins_pos devs v : 0 ≤ dev_pins devs v.
Proof. induction devs as [|kd devs IH]; simpl; [lia|]. pose proof (one_pos (kd_vnode kd) v). lia. Qed.
Lemma dev_pins_in devs kd : kd ∈ devs → 1 ≤ dev_pins devs (kd_vnode kd).
Proof.
  induction devs as [|kd' devs IH]; intros Hin; [by apply elem_of_nil in Hin|]. simpl.
  apply elem_of_cons in Hin as [->|Hin].
  - rewrite one_self. pose proof (dev_pins_pos devs (kd_vnode kd')). lia.
  - pose proof (one_pos (kd_vnode kd') (kd_vnode kd)). specialize (IH Hin). lia.
Qed.
Lemma pin_pos o v : 0 ≤ pin o v ≤ 1.
Proof. unfold pin. case_bool_decide; lia. Qed.
Lemma pins_pos st v : 0 ≤ pins st v.
Proof. unfold pins. pose proof (pin_pos (v_cwd st) v). pose proof (pin_pos (v_bootfs st) v). pose proof (dev_pins_pos (v_devs st) v). lia. Qed.

Lemma opens_pos st v : vfs_ok st → 0 ≤ opens st v.
Proof. intros H. by apply (vl_bounds _ v (vo_ok _ H)). Qed.
Lemma loose_held st v : vfs_ok st → 0 < loose st v → 0 < refs st v.
Proof. intros H Hl. unfold loose in Hl. pose proof (pins_pos st v). pose proof (opens_pos st v H). lia. Qed.
Lemma pinned_held st v : vfs_ok st → 0 < pins st v → 0 < refs st v.
Proof. intros H Hp. pose proof (vo_loose _ H v) as Hl. unfold loose in Hl. pose proof (opens_pos st v H). lia. Qed.
Lemma cwd_held st v : vfs_ok st → v_cwd st = Some v → 0 < refs st v.
Proof.
  intros H Hc. apply pinned_held; [done|]. unfold pins. rewrite Hc. unfold pin at 1. rewrite bool_decide_true by done.
  pose proof (pin_pos (v_bootfs st) v). pose proof (dev_pins_pos (v_devs st) v). lia.
Qed.
Lemma bootfs_held st v : vfs_ok st → v_bootfs st = Some v → 0 < refs st v.
Proof.
  intros H Hc. apply pinned_held; [done|]. unfold pins. rewrite Hc. unfold pin at 2. rewrite bool_decide_true by done.
  pose proof (pin_pos (v_cwd st) v). pose proof (dev_pins_pos (v_devs st) v). lia.
Qed.
Lemma dev_held st kd : vfs_ok st → kd ∈ v_devs st → 0 < refs st (kd_vnode kd).
Proof.
  intros H Hin. apply pinned_held; [done|]. unfold pins. pose proof (dev_pins_in _ _ Hin).
  pose proof (pin_pos (v_cwd st) (kd_vnode kd)). pose proof (pin_pos (v_bootfs st) (kd_vnode kd)). lia.
Qed.

(** ** The calls below *)

Lemma below_run {A} (c : K S A) st a s' : c (v_below st) = Done (a, s') → below c st = Done (a, set_below s' st).
Proof. unfold below, kzoom. by intros ->. Qed.

(** A call that moves the counts is a step of the account. *)
Lemma goes_below st s' δ ε :
  vfs_ok st → moved (v_below st) s' δ ε → (∀ v, 0 ≤ loose st v + δ v - ε v) →
  goes st (set_below s' st) (λ v, δ v - ε v) ε.
Proof.
  intros H [mo md mr mp mdir] Hpos.
  assert (E : ∀ v, loose (set_below s' st) v = loose st v + (δ v - ε v)).
  { intros v. unfold loose, refs, opens. change (pins (set_below s' st) v) with (pins st v). cbn [set_below v_below]. rewrite mr, mp. lia. }
  assert (H' : vfs_ok (set_below s' st)).
  { destruct H as [h1 h2 h3 h4 h5]. constructor; cbn [set_below v_below v_cwd v_devs]; [done|lia| |done|done]. intros v. rewrite E. specialize (Hpos v). lia. }
  constructor; [done|done|done|exact E|done|]. intros v Hl Hl' Hd. apply mdir; [|apply loose_held in Hl'; [|done]|]; [by apply loose_held| |done]. exact Hl'.
Qed.
Lemma goes_call st s' δ : vfs_ok st → moved (v_below st) s' δ none → (∀ v, 0 ≤ loose st v + δ v) → goes st (set_below s' st) δ none.
Proof.
  intros H Hm Hp. eapply goes_eq; [apply (goes_below st s' δ none H Hm)| |done].
  - intros v. specialize (Hp v). unfold none. lia.
  - intros v. cbn. unfold none. lia.
Qed.

Lemma incref_goes st v :
  vfs_ok st → 0 < refs st v → ∃ st', below (vop_incref v) st = Done (tt, st') ∧ goes st st' (one v) none.
Proof.
  intros H Hv. destruct (incref_law _ v (vo_ok _ H) (vo_depth _ H) Hv) as (s' & E & Hm).
  eexists. split; [by apply below_run|]. apply goes_call; [done|done|]. intros w. pose proof (vo_loose _ H w). pose proof (one_pos v w). lia.
Qed.
Lemma decref_goes st v :
  vfs_ok st → 0 < loose st v → ∃ st', below (vop_decref v) st = Done (tt, st') ∧ goes st st' (minus (one v)) none.
Proof.
  intros H Hv. destruct (decref_law _ v (vo_ok _ H) (vo_depth _ H) (loose_held _ _ H Hv)) as (s' & E & Hm).
  { intros Hr. change (refs st v = 1) in Hr. unfold loose in Hv. pose proof (pins_pos st v). pose proof (opens_pos st v H). unfold opens in *. lia. }
  eexists. split; [by apply below_run|]. apply goes_call; [done|done|]. intros w. pose proof (vo_loose _ H w) as Hw. unfold minus, one.
  case_bool_decide; [subst; lia|lia].
Qed.
Lemma incopen_goes st v :
  vfs_ok st → 0 < loose st v → ∃ st', below (vop_incopen v) st = Done (tt, st') ∧ goes st st' (minus (one v)) (one v).
Proof.
  intros H Hv. destruct (incopen_law _ v (vo_ok _ H) (vo_depth _ H) (loose_held _ _ H Hv)) as (s' & E & Hm).
  eexists. split; [by apply below_run|]. eapply goes_eq; [apply (goes_below st s' none (one v) H Hm)|done|done].
  intros w. pose proof (vo_loose _ H w) as Hw. unfold none, one. case_bool_decide; [subst; lia|lia].
Qed.
Lemma decopen_goes st v :
  vfs_ok st → 0 < opens st v → ∃ st', below (vop_decopen v) st = Done (tt, st') ∧ goes st st' (one v) (minus (one v)).
Proof.
  intros H Hv. assert (Hr : 0 < refs st v) by (pose proof (vo_loose _ H v) as Hl; unfold loose in Hl; pose proof (pins_pos st v); lia).
  destruct (decopen_law _ v (vo_ok _ H) (vo_depth _ H) Hr Hv) as (s' & E & Hm).
  eexists. split; [by apply below_run|]. eapply goes_eq; [apply (goes_below st s' none (minus (one v)) H Hm)| |done].
  - intros w. pose proof (vo_loose _ H w). pose proof (one_pos v w). unfold none, minus. lia.
  - intros w. unfold none, minus. lia.
Qed.
Lemma call_goes {A} (c : K S A) st (δ : A → nat → Z) Q :
  vfs_ok st → call c (v_below st) δ Q → (∀ a v, 0 ≤ δ a v) →
  ∃ a st', below c st = Done (a, st') ∧ goes st st' (δ a) none ∧ Q a (v_below st').
Proof.
  intros H (a & s' & E & Hm & HQ) Hp. exists a. eexists. split; [by apply below_run|]. split; [|done]. apply goes_call; [done|done|].
  intros v. pose proof (vo_loose _ H v). specialize (Hp a v). lia.
Qed.

(** ** Composing them *)

(** A function that returns and keeps the account; [Q] may speak of its
    result and of the directories. *)
Definition keeps {A} (c : M A) st (δ ε : A → nat → Z) (Q : A → (nat → Prop) → Prop) : Prop :=
  ∃ a st', c st = Done (a, st') ∧ goes st st' (δ a) (ε a) ∧ Q a (vl_dir (v_below st')).
Definition any {A} (a : A) (P : nat → Prop) : Prop := True.

Lemma biglocked_keeps {A} (c : M A) st (δ ε : A → nat → Z) Q :
  vfs_ok st → (∀ st1, vfs_ok st1 → 0 < vl_depth (v_below st1) → keeps c st1 δ ε Q) → keeps (biglocked c) st δ ε Q.
Proof.
  intros H Hc. destruct (acquire_law _ (vo_ok _ H) (vo_depth _ H)) as (s1 & E1 & ok1 & d1 & r1 & o1 & dir1).
  set (st1 := set_below s1 st).
  assert (L1 : ∀ v, loose st1 v = loose st v).
  { intros v. unfold loose, refs, opens, st1. cbn [set_below v_below]. by rewrite r1, o1. }
  assert (H1 : vfs_ok st1).
  { destruct H as [h1 h2 h3 h4 h5]. constructor; cbn; [done|lia| |done|done]. intros v. rewrite L1. done. }
  destruct (Hc st1 H1) as (a & st2 & E2 & G & HQ); [cbn; pose proof (vo_depth _ H); lia|].
  destruct (release_law (v_below st2) (vo_ok _ (go_ok _ _ _ _ G))) as (s3 & E3 & ok3 & d3 & r3 & o3 & dir3).
  { rewrite (go_depth _ _ _ _ G). cbn. pose proof (vo_depth _ H). lia. }
  set (st3 := set_below s3 st2).
  assert (L3 : ∀ v, loose st3 v = loose st2 v).
  { intros v. unfold loose, refs, opens, st3. cbn [set_below v_below]. by rewrite r3, o3. }
  exists a, st3. split.
  { unfold biglocked. rewrite (kbind_run _ _ _ _ _ (below_run _ _ _ _ E1)). rewrite (kbind_run _ _ _ _ _ E2).
    by rewrite (kbind_run _ _ _ _ _ (below_run _ _ _ _ E3)). }
  split; [|cbn; by rewrite dir3]. pose proof (go_depth _ _ _ _ G) as D. cbn in D. constructor.
  - destruct (go_ok _ _ _ _ G) as [h1 h2 h3 h4 h5]. constructor; cbn; [done|pose proof (vo_depth _ H); lia| |done|done]. intros v. by rewrite L3.
  - cbn. lia.
  - cbn. exact (go_devs _ _ _ _ G).
  - intros v. by rewrite L3, (go_loose _ _ _ _ G), L1.
  - intros v. unfold opens, st3. cbn. rewrite o3. pose proof (go_opens _ _ _ _ G v) as O. unfold opens in O. cbn in O. by rewrite O, o1.
  - intros v Hl Hl' Hd. cbn. rewrite dir3. apply (go_dir _ _ _ _ G); [by rewrite L1|by rewrite <- L3|]. cbn. by rewrite dir1.
Qed.

(** An error and a result of the same kind of call. *)
Definition got_pair (r : Z + nat * list Z) : nat → Z := match r with inl _ => none | inr (w, _) => one w end.
Definition noopen {A} (a : A) : nat → Z := none.
End Refs.

(** Signs and sums of changes. *)
Ltac counts := intros; unfold plus, minus, none, got, got_pair, noopen, one in *; repeat case_match; repeat case_bool_decide; unfold none; simplify_eq; try done; lia.

Section Functions.
Context {S : Type} {V : VnodeState S} {L : VnodeLayer S}.
Abbreviation M := (K (vfs S)).
Implicit Types (st : vfs S) (v w : nat).

Lemma keeps_ret {A} (a : A) st (δ ε : A → nat → Z) Q :
  vfs_ok st → (∀ v, δ a v = 0) → (∀ v, ε a v = 0) → Q a (vl_dir (v_below st)) → keeps (kret a) st δ ε Q.
Proof.
  intros H Hd He HQ. exists a, st. split; [done|]. split; [|done].
  eapply goes_eq; [by apply goes_refl|intros v; by rewrite Hd|intros v; by rewrite He].
Qed.
(** What is left to account for after the first part. *)
Lemma keeps_bind {A B} (c : M A) (f : A → M B) st (δ1 ε1 : A → nat → Z) Q1 (δ ε : B → nat → Z) Q :
  keeps c st δ1 ε1 Q1 → (∀ a b v, 0 ≤ δ1 a v ∨ δ b v ≤ δ1 a v) →
  (∀ a st1, goes st st1 (δ1 a) (ε1 a) → Q1 a (vl_dir (v_below st1)) →
    keeps (f a) st1 (λ b v, δ b v - δ1 a v) (λ b v, ε b v - ε1 a v) Q) →
  keeps (kbind c f) st δ ε Q.
Proof.
  intros (a & st1 & E1 & G1 & HQ1) Hs Hf. destruct (Hf a st1 G1 HQ1) as (b & st2 & E2 & G2 & HQ). exists b, st2.
  split; [by rewrite (kbind_run _ _ _ _ _ E1)|]. split; [|done].
  eapply goes_eq; [eapply goes_trans; [exact G1| |exact G2]|intros v; unfold plus; lia..].
  intros v. destruct (Hs a b v); [by left|right; lia].
Qed.
Lemma keeps_gets {A B} (g : vfs S → A) (f : A → M B) st (δ ε : B → nat → Z) Q : keeps (f (g st)) st δ ε Q → keeps (kbind (kgets g) f) st δ ε Q.
Proof. done. Qed.
Lemma keeps_assert {B} (b : bool) (f : unit → M B) st (δ ε : B → nat → Z) Q : b = true → keeps (f tt) st δ ε Q → keeps (kbind (kassert b) f) st δ ε Q.
Proof. by intros ->. Qed.
Lemma keeps_biglock {B} (f : unit → M B) st (δ ε : B → nat → Z) Q :
  0 < vl_depth (v_below st) → keeps (f tt) st δ ε Q → keeps (kbind assert_biglock f) st δ ε Q.
Proof.
  intros Hd (b & st' & E & G & HQ). exists b, st'. split; [|done]. unfold assert_biglock, kbind, kgets, kassert.
  by rewrite (proj2 (Z.ltb_lt _ _) Hd).
Qed.

Lemma keeps_incref st v : vfs_ok st → 0 < refs st v → keeps (below (vop_incref v)) st (λ _, one v) noopen any.
Proof. intros H Hv. destruct (incref_goes st v H Hv) as (st' & E & G). by exists tt, st'. Qed.
Lemma keeps_decref st v : vfs_ok st → 0 < loose st v → keeps (below (vop_decref v)) st (λ _, minus (one v)) noopen any.
Proof. intros H Hv. destruct (decref_goes st v H Hv) as (st' & E & G). by exists tt, st'. Qed.
Lemma keeps_incopen st v : vfs_ok st → 0 < loose st v → keeps (below (vop_incopen v)) st (λ _, minus (one v)) (λ _, one v) any.
Proof. intros H Hv. destruct (incopen_goes st v H Hv) as (st' & E & G). by exists tt, st'. Qed.
Lemma keeps_decopen st v : vfs_ok st → 0 < opens st v → keeps (below (vop_decopen v)) st (λ _, one v) (λ _, minus (one v)) any.
Proof. intros H Hv. destruct (decopen_goes st v H Hv) as (st' & E & G). by exists tt, st'. Qed.
Lemma keeps_call {A} (c : K S A) st (δ : A → nat → Z) Q :
  vfs_ok st → call c (v_below st) δ (λ a s', Q a (vl_dir s')) → (∀ a v, 0 ≤ δ a v) → keeps (below c) st δ noopen Q.
Proof. intros H Hc Hp. destruct (call_goes c st δ _ H Hc Hp) as (a & st' & E & G & HQ). by exists a, st'. Qed.

(** The reference is given back at the end; a directory that is still referred
    to stays one. *)
Lemma keeps_drop {A} (a : A) st v (δ ε : A → nat → Z) Q :
  vfs_ok st → 0 < loose st v → (∀ w, δ a w = - one v w) → (∀ w, ε a w = 0) →
  (∀ P : nat → Prop, (∀ w, 0 < loose st w - one v w → vl_dir (v_below st) w → P w) → Q a P) →
  keeps (below (vop_decref v) ;; kret a) st δ ε Q.
Proof.
  intros H Hv Hd He HQ. destruct (decref_goes st v H Hv) as (st' & E & G). exists a, st'.
  split; [by rewrite (kbind_run _ _ _ _ _ E)|]. split.
  - eapply goes_eq; [exact G|intros w; by rewrite Hd|intros w; by rewrite He].
  - apply HQ. intros w Hw Hdir. pose proof (go_loose _ _ _ _ G w) as Hl. unfold minus in Hl. pose proof (one_pos v w).
    apply (go_dir _ _ _ _ G); [lia|lia|done].
Qed.

(** *** The current directory *)

Lemma getcurdir_keeps st :
  vfs_ok st → keeps vfs_getcurdir st got noopen (λ r _, ∀ v, r = inr v → is_Some (vn_fs v)).
Proof.
  intros H. apply keeps_gets. destruct (v_cwd st) as [v|] eqn:Hc; [|by apply keeps_ret].
  eapply keeps_bind; [apply keeps_incref; [done|by apply cwd_held]|counts|]. intros [] st1 G _.
  apply keeps_ret; [by apply G|counts|counts|]. intros w [= <-]. by apply (vo_cwd _ H).
Qed.

Lemma keeps_ext {A} (c : M A) st (δ ε δ' ε' : A → nat → Z) Q Q' :
  keeps c st δ ε Q → (∀ a v, δ a v = δ' a v) → (∀ a v, ε a v = ε' a v) → (∀ a P, Q a P → Q' a P) → keeps c st δ' ε' Q'.
Proof.
  intros (a & st' & E & G & HQ) Hd He HQ'. exists a, st'. split; [done|]. split; [|by apply HQ'].
  eapply goes_eq; [exact G|apply Hd|apply He].
Qed.
Lemma pin_some v w : pin (Some v) w = one v w.
Proof. unfold pin, one. repeat case_bool_decide; congruence. Qed.
Lemma pin_none w : pin None w = 0.
Proof. done. Qed.

Lemma set_cwd_keeps st o :
  vfs_ok st → (∀ v, o = Some v → is_Some (vn_fs v) ∧ 0 < loose st v) →
  keeps (set_cwd o) st (λ _ w, pin (v_cwd st) w - pin o w) noopen any.
Proof.
  intros H Ho. eexists tt, _. split; [done|]. split; [|done].
  set (st' := VfsState _ _ _ _).
  assert (E : ∀ w, loose st' w = loose st w + (pin (v_cwd st) w - pin o w)) by (intros w; unfold st', loose, refs, opens, pins; cbn [v_below v_cwd v_bootfs v_devs]; lia).
  constructor; [|done|done|exact E|unfold noopen, none, opens; cbn; lia|done]. destruct H as [h1 h2 h3 h4 h5]. constructor; cbn; [done|done| | |done].
  - intros w. rewrite E. pose proof (pin_pos (v_cwd st) w). specialize (h3 w). destruct o as [v|]; [|rewrite pin_none; lia].
    rewrite pin_some. destruct (Ho v eq_refl) as [_ Hl]. unfold one. case_bool_decide; [subst; lia|lia].
  - intros v ->. by apply Ho.
Qed.
Lemma set_bootfs_keeps st o :
  vfs_ok st → (∀ v, o = Some v → 0 < loose st v) →
  keeps (set_bootfs o) st (λ _ w, pin (v_bootfs st) w - pin o w) noopen any.
Proof.
  intros H Ho. eexists tt, _. split; [done|]. split; [|done].
  set (st' := VfsState _ _ _ _).
  assert (E : ∀ w, loose st' w = loose st w + (pin (v_bootfs st) w - pin o w)) by (intros w; unfold st', loose, refs, opens, pins; cbn [v_below v_cwd v_bootfs v_devs]; lia).
  constructor; [|done|done|exact E|unfold noopen, none, opens; cbn; lia|done]. destruct H as [h1 h2 h3 h4 h5]. constructor; cbn; [done|done| |done|done].
  intros w. rewrite E. pose proof (pin_pos (v_bootfs st) w). specialize (h3 w). destruct o as [v|]; [|rewrite pin_none; lia].
  rewrite pin_some. specialize (Ho v eq_refl). unfold one. case_bool_decide; [subst; lia|lia].
Qed.
Lemma decref_opt_keeps st o :
  vfs_ok st → (∀ v, o = Some v → 0 < loose st v) → keeps (decref_opt o) st (λ _ w, - pin o w) noopen any.
Proof.
  intros H Ho. destruct o as [v|]; [|by apply keeps_ret].
  eapply keeps_ext; [apply keeps_decref; [done|by apply Ho]| |done|done]. intros ? w. by rewrite pin_some.
Qed.

(** A reference in the state replaced by another, as both places that do it. *)
Lemma swap_keeps (setter : option nat → M unit) (old new : option nat) st :
  vfs_ok st → keeps (setter new) st (λ _ w, pin old w - pin new w) noopen any → (∀ v, new = Some v → 0 < loose st v) →
  keeps (setter new ;; decref_opt old) st (λ _ w, - pin new w) noopen any.
Proof.
  intros H Hset Hnew. eapply keeps_bind; [exact Hset| |].
  - intros ? ? w. right. pose proof (pin_pos old w). lia.
  - intros [] st1 G _. eapply keeps_ext; [apply (decref_opt_keeps st1 old); [by apply G|]| | |done].
    + intros v Hv. pose proof (go_loose _ _ _ _ G v) as Hl. pose proof (vo_loose _ (go_ok _ _ _ _ G) v) as H1. pose proof (vo_loose _ H v) as H0.
      cbn beta in Hl. rewrite Hv, pin_some, one_self in Hl. destruct new as [w|]; [|rewrite pin_none in Hl; lia].
      rewrite pin_some in Hl. specialize (Hnew w eq_refl). unfold one in Hl. case_bool_decide; [subst; lia|lia].
    + intros ? w. cbn beta. lia.
    + done.
Qed.

Lemma kbind_assoc_ret {A C} (c : M A) (f : A → M unit) (k : M C) st :
  kbind c (λ a, f a ;; k) st = (kbind c f ;; k) st.
Proof. unfold kbind. by destruct (c st) as [[? ?]| | |]. Qed.

Lemma setcurdir_keeps st v : vfs_ok st → 0 < loose st v → keeps (vfs_setcurdir v) st (λ _, none) noopen any.
Proof.
  intros H Hv. eapply keeps_bind; [eapply (keeps_call _ _ _ (λ r _, r = inr 8192 → is_Some (vn_fs v))); [done|by apply gettype_law; [apply H|apply H|apply loose_held]|counts]|counts|].
  intros [e|ty] st1 G1 Hty; [by apply keeps_ret; [apply G1|counts|counts|]|].
  destruct (Z.eqb_spec ty IFDIR) as [->|Hne]; cbn [negb]; [|by apply keeps_ret; [apply G1|counts|counts|]].
  pose proof (go_ok _ _ _ _ G1) as H1. pose proof (go_loose _ _ _ _ G1 v) as L1. unfold none in L1.
  eapply keeps_bind; [apply keeps_incref; [done|apply loose_held; [done|lia]]|counts|]. intros [] st2 G2 _.
  pose proof (go_ok _ _ _ _ G2) as H2. pose proof (go_loose _ _ _ _ G2 v) as L2. rewrite one_self in L2.
  apply keeps_gets. unfold keeps. setoid_rewrite kbind_assoc_ret.
  apply (keeps_bind _ _ _ (λ _ w, - pin (Some v) w) noopen any).
  - apply swap_keeps; [done|apply set_cwd_keeps; [done|]|]; intros w [= <-]; [split; [by apply Hty|lia]|lia].
  - intros ? ? w. rewrite pin_some. counts.
  - intros [] st3 G3 _. apply keeps_ret; [by apply G3| |counts|done]. intros w. rewrite pin_some. counts.
Qed.
Lemma clearcurdir_keeps st : vfs_ok st → keeps vfs_clearcurdir st (λ _, none) noopen any.
Proof.
  intros H. apply keeps_gets. unfold keeps. setoid_rewrite kbind_assoc_ret.
  apply (keeps_bind _ _ _ (λ _ w, - pin None w) noopen any).
  - apply swap_keeps; [done|by apply set_cwd_keeps|done].
  - intros ? ? w. rewrite pin_none. by left.
  - intros [] st1 G _. apply keeps_ret; [by apply G|intros w; rewrite pin_none; counts|counts|done].
Qed.

(** *** The device table *)

Lemma hand_out_keeps st v : vfs_ok st → 0 < refs st v → keeps (below (vop_incref v) ;; kret (inr v)) st got noopen any.
Proof.
  intros H Hv. eapply keeps_bind; [by apply keeps_incref|counts|]. intros [] st1 G _. apply keeps_ret; [by apply G|counts|counts|done].
Qed.
Lemma getroot_device_keeps st kd n next :
  vfs_ok st → kd ∈ v_devs st → (names (kd_name kd) n = true → kd_fs kd = None ∧ kd_rawname kd = None) →
  keeps next st got noopen any → keeps (getroot_device kd n next) st got noopen any.
Proof.
  intros H Hin Hn Hnext. pose proof (dev_held _ _ H Hin) as Hv. destruct (proj1 (Forall_forall _ _) (vo_devs _ H) kd Hin) as (Hraw & Hfs & _).
  unfold getroot_device. destruct (names (kd_name kd) n).
  - destruct (Hn eq_refl) as [Hf Hr]. apply keeps_assert; [by apply bool_decide_eq_true|]. apply keeps_assert; [by apply bool_decide_eq_true|].
    apply keeps_assert; [apply bool_decide_eq_true; by apply Hfs|]. by apply hand_out_keeps.
  - destruct (raw_names kd n) eqn:Er; [|done]. apply keeps_assert; [|by apply hand_out_keeps].
    apply bool_decide_eq_true, Hraw. unfold raw_names in Er. by destruct (kd_rawname kd).
Qed.
Lemma getroot_loop_keeps n devs st : vfs_ok st → devs ⊆ v_devs st → keeps (getroot_loop n devs) st got noopen any.
Proof.
  revert st. induction devs as [|kd devs IH]; intros st H Hsub; [by apply keeps_ret|]. simpl.
  assert (Hin : kd ∈ v_devs st) by (apply Hsub, elem_of_cons; by left).
  assert (Hrest : devs ⊆ v_devs st) by (intros x Hx; apply Hsub, elem_of_cons; by right).
  destruct (proj1 (Forall_forall _ _) (vo_devs _ H) kd Hin) as (_ & _ & Hthere). destruct (kd_fs kd) as [f|] eqn:Hf.
  - eapply keeps_bind; [apply (keeps_call _ _ _ any); [done|by apply getvolname_law; [apply H|apply H|apply Hthere]|counts]|counts|].
    intros vol st1 G _. pose proof (go_ok _ _ _ _ G) as H1. destruct (_ || _) eqn:Eo.
    + eapply keeps_bind; [apply (keeps_call _ _ _ any); [done|by apply getroot_law; [apply H1|apply H1|apply Hthere]|counts]|counts|].
      intros w st2 G2 _. apply keeps_ret; [by apply G2|counts|counts|done].
    + apply orb_false_iff in Eo as [En _]. rewrite <- (go_devs _ _ _ _ G) in Hin, Hrest.
      eapply keeps_ext; [apply getroot_device_keeps; [done|done|by rewrite En|by apply IH]|counts|counts|done].
  - destruct (_ && _) eqn:Eo; [by apply keeps_ret|]. apply getroot_device_keeps; [done|done| |by apply IH].
    intros Hn. rewrite Hn, andb_true_r in Eo. apply bool_decide_eq_false in Eo. split; [done|]. by destruct (kd_rawname kd); [destruct Eo|].
Qed.

(** *** Path names *)

Lemma cstring_drop n l : cstring l → cstring (drop n l).
Proof. apply Forall_drop. Qed.
Lemma cstring_skip l : cstring l → cstring (skip_slashes l).
Proof. induction l as [|c l IH]; simpl; [done|]. intros Hc. case_match; [|done]. apply IH. by inversion Hc. Qed.

Lemma getdevice_keeps st path :
  vfs_ok st → 0 < vl_depth (v_below st) → cstring path →
  keeps (getdevice path) st got_pair noopen (λ r _, ∀ w sub, r = inr (w, sub) → cstring sub).
Proof.
  intros H Hd Hp. unfold getdevice. apply keeps_biglock; [done|].
  assert (Hcur : keeps (r <- vfs_getcurdir ;; kret (match r with inl e => inl e | inr v => inr (v, path) end)) st got_pair noopen (λ r _, ∀ w sub, r = inr (w, sub) → cstring sub)).
  { eapply keeps_bind; [by apply getcurdir_keeps|counts|]. intros [e|v] st1 G _; (apply keeps_ret; [by apply G|counts|counts|]); [done|]. by intros w sub [= <- <-]. }
  assert (Hsub : cstring (skip_slashes (drop 1 path))) by (by apply cstring_skip, cstring_drop).
  destruct (separator 0 path) as [[[|i] [|]]|]; [| | |done|done].
  - eapply keeps_bind; [by apply getcurdir_keeps|counts|]. intros [e|v] st1 G Hfs; [apply keeps_ret; [by apply G|counts|counts|done]|].
    destruct (Hfs v eq_refl) as [f Hf]. rewrite Hf. pose proof (go_ok _ _ _ _ G) as H1.
    eapply keeps_bind; [apply (keeps_call _ _ _ any); [done|by apply getroot_law; [apply H1|apply H1|eapply vl_fs]|counts]|counts|]. intros w st2 G2 _.
    apply keeps_drop; [by apply G2| |counts|counts|by intros P _ x sub [= <- <-]].
    pose proof (go_loose _ _ _ _ G2 v) as L2. pose proof (go_loose _ _ _ _ G v) as L1. cbn in L1. rewrite one_self in L1.
    pose proof (vo_loose _ H v). pose proof (one_pos w v). lia.
  - apply keeps_gets. destruct (v_bootfs st) as [b|] eqn:Hb; [|by apply keeps_ret].
    eapply keeps_bind; [apply keeps_incref; [done|by apply bootfs_held]|counts|]. intros [] st1 G _.
    apply keeps_ret; [by apply G|counts|counts|]. by intros x sub [= <- <-].
  - eapply keeps_bind; [unfold vfs_getroot; apply keeps_biglock; [done|]; by apply keeps_gets, getroot_loop_keeps|counts|].
    intros [e|v] st1 G _; (apply keeps_ret; [by apply G|counts|counts|]); [done|].
    intros w sub [= <- <-]. by apply cstring_skip, cstring_drop.
Qed.

(** The starting point is given back once it has been looked in. *)
Lemma loose_more st st1 δ ε v : vfs_ok st → goes st st1 δ ε → 0 < δ v → 0 < loose st1 v.
Proof. intros H G Hv. rewrite (go_loose _ _ _ _ G v). pose proof (vo_loose _ H v). lia. Qed.

Definition parent_found (r : Z + nat * list Z) (P : nat → Prop) : Prop := ∀ w name, r = inr (w, name) → P w ∧ cstring name.

Lemma lookparent_keeps st path n : vfs_ok st → cstring path → keeps (vfs_lookparent path n) st got_pair noopen parent_found.
Proof.
  intros H Hp. apply biglocked_keeps; [done|]. clear st H. intros st H Hd.
  eapply keeps_bind; [by apply getdevice_keeps|counts|]. intros [e|[v sub]] st1 G Hsub; [by apply keeps_ret; [apply G|counts|counts|]|].
  specialize (Hsub v sub eq_refl). pose proof (go_ok _ _ _ _ G) as H1. assert (L1 : 0 < loose st1 v) by (eapply loose_more; [exact H|exact G|cbn; rewrite one_self; lia]).
  apply (keeps_bind _ _ _ got_pair noopen parent_found).
  - case_bool_decide; [by apply keeps_ret|]. apply (keeps_call _ _ _ parent_found); [done|by apply lookparent_law; [apply H1|apply H1|apply loose_held|]|counts].
  - counts.
  - intros r st2 G2 Hr. apply keeps_drop; [by apply G2| |counts|counts|].
    + rewrite (go_loose _ _ _ _ G2 v). counts.
    + intros P HP w name ->. destruct (Hr w name eq_refl) as [Hw Hn]. split; [|done]. apply HP; [|done].
      rewrite (go_loose _ _ _ _ G2 w). cbn. rewrite one_self. pose proof (vo_loose _ H1 w). unfold one. case_bool_decide; [subst; lia|lia].
Qed.

Lemma lookup_keeps st path : vfs_ok st → cstring path → keeps (vfs_lookup path) st got noopen any.
Proof.
  intros H Hp. apply biglocked_keeps; [done|]. clear st H. intros st H Hd.
  eapply keeps_bind; [by apply getdevice_keeps|counts|]. intros [e|[v sub]] st1 G Hsub; [by apply keeps_ret; [apply G|counts|counts|]|].
  pose proof (go_ok _ _ _ _ G) as H1. assert (L1 : 0 < loose st1 v) by (eapply loose_more; [exact H|exact G|cbn; rewrite one_self; lia]).
  case_bool_decide; [by apply keeps_ret; [|counts|counts|]|].
  apply (keeps_bind _ _ _ got noopen any).
  - apply (keeps_call _ _ _ any); [done|by apply lookup_law; [apply H1|apply H1|apply loose_held]|counts].
  - counts.
  - intros r st2 G2 _. apply keeps_drop; [by apply G2| |counts|counts|done]. rewrite (go_loose _ _ _ _ G2 v). counts.
Qed.

Lemma chdir_keeps st path : vfs_ok st → cstring path → keeps (vfs_chdir path) st (λ _, none) noopen any.
Proof.
  intros H Hp. eapply keeps_bind; [by apply lookup_keeps|counts|]. intros [e|v] st1 G _; [by apply keeps_ret; [apply G|counts|counts|]|].
  pose proof (go_ok _ _ _ _ G) as H1. assert (L1 : 0 < loose st1 v) by (eapply loose_more; [exact H|exact G|cbn; rewrite one_self; lia]).
  eapply keeps_bind; [by apply setcurdir_keeps|counts|]. intros r st2 G2 _.
  apply keeps_drop; [by apply G2| |counts|counts|done]. rewrite (go_loose _ _ _ _ G2 v). counts.
Qed.

(** *** The boot file system *)

Lemma change_bootfs_keeps st o :
  vfs_ok st → (∀ v, o = Some v → 0 < loose st v) → keeps (change_bootfs o) st (λ _ w, - pin o w) noopen any.
Proof. intros H Ho. apply keeps_gets, swap_keeps; [done|by apply set_bootfs_keeps|done]. Qed.
Lemma setbootfs_keeps st name : vfs_ok st → cstring name → keeps (vfs_setbootfs name) st (λ _, none) noopen any.
Proof.
  intros H Hn. apply biglocked_keeps; [done|]. clear st H. intros st H _. set (tmp := take _ name). cbv zeta.
  case_bool_decide; [by apply keeps_ret|].
  eapply keeps_bind; [apply chdir_keeps; [done|]|counts|].
  { apply Forall_app. split; [by apply Forall_take|]. by constructor. }
  intros r st1 G1 _. pose proof (go_ok _ _ _ _ G1) as H1. destruct (Z.eqb_spec r 0) as [->|]; cbn [negb]; [|by apply keeps_ret; [|counts|counts|]].
  eapply keeps_bind; [by apply getcurdir_keeps|counts|]. intros [e|v] st2 G2 _; [by apply keeps_ret; [apply G2|counts|counts|]|].
  eapply keeps_bind; [apply (change_bootfs_keeps st2 (Some v)); [by apply G2|]| |].
  - intros w [= <-]. eapply loose_more; [exact H1|exact G2|cbn; rewrite one_self; lia].
  - intros ? ? w. right. rewrite pin_some. counts.
  - intros [] st3 G3 _. apply keeps_ret; [by apply G3|intros w; rewrite pin_some; counts|counts|done].
Qed.
Lemma clearbootfs_keeps st : vfs_ok st → keeps vfs_clearbootfs st (λ _, none) noopen any.
Proof.
  intros H. apply biglocked_keeps; [done|]. clear st H. intros st H _.
  eapply keeps_ext; [by apply (change_bootfs_keeps st None)|intros ? w; by rewrite pin_none|done|done].
Qed.

(** *** Opening and closing *)

Lemma open_vnode_keeps st path flags mode : vfs_ok st → cstring path → keeps (open_vnode path flags mode) st got noopen any.
Proof.
  intros H Hp. unfold open_vnode. destruct (flag flags O_CREAT); [|by apply lookup_keeps].
  eapply keeps_bind; [by apply lookparent_keeps|counts|]. intros [e|[v name]] st1 G Hf; [by apply keeps_ret; [apply G|counts|counts|]|].
  destruct (Hf v name eq_refl) as [_ Hn]. pose proof (go_ok _ _ _ _ G) as H1.
  assert (L1 : 0 < loose st1 v) by (eapply loose_more; [exact H|exact G|cbn; rewrite one_self; lia]).
  apply (keeps_bind _ _ _ got noopen any).
  - apply (keeps_call _ _ _ any); [done|by apply creat_law; [apply H1|apply H1|apply loose_held|]|counts].
  - counts.
  - intros r st2 G2 _. apply keeps_drop; [by apply G2| |counts|counts|done]. rewrite (go_loose _ _ _ _ G2 v). counts.
Qed.

Definition opened (r : Z + nat) : nat → Z := got r.

Lemma close_keeps st v : vfs_ok st → 0 < opens st v → keeps (vfs_close v) st (λ _, none) (λ _, minus (one v)) any.
Proof.
  intros H Hv. eapply keeps_bind; [by apply keeps_decopen|counts|]. intros [] st1 G _.
  eapply keeps_ext; [apply keeps_decref; [by apply G|]|counts|counts|done]. eapply loose_more; [exact H|exact G|rewrite one_self; lia].
Qed.

Lemma open_keeps st path flags mode : vfs_ok st → cstring path → keeps (vfs_open path flags mode) st (λ _, none) opened any.
Proof.
  intros H Hp. unfold vfs_open. cbv zeta. destruct (negb _); [by apply keeps_ret|]. set (canwrite := negb _). unfold opened.
  eapply keeps_bind; [by apply open_vnode_keeps|counts|]. intros [e|v] st1 G _; [by apply keeps_ret; [apply G|counts|counts|]|].
  pose proof (go_ok _ _ _ _ G) as H1. assert (L1 : 0 < loose st1 v) by (eapply loose_more; [exact H|exact G|cbn; rewrite one_self; lia]).
  eapply keeps_bind; [apply (keeps_call _ _ _ any); [done|by apply open_law; [apply H1|apply H1|apply loose_held]|counts]|counts|].
  intros r st2 G2 _. pose proof (go_ok _ _ _ _ G2) as H2. assert (L2 : 0 < loose st2 v) by (rewrite (go_loose _ _ _ _ G2 v); counts).
  destruct (Z.eqb_spec r 0) as [->|]; cbn [negb]; [|by apply keeps_drop; [|done|counts|counts|]].
  eapply keeps_bind; [by apply keeps_incopen|counts|]. intros [] st3 G3 _. pose proof (go_ok _ _ _ _ G3) as H3.
  assert (O3 : 0 < opens st3 v) by (rewrite (go_opens _ _ _ _ G3 v), one_self; pose proof (opens_pos st2 v H2); lia).
  assert (R3 : 0 < refs st3 v) by (pose proof (vo_loose _ H3 v) as Hl; unfold loose in Hl; pose proof (pins_pos st3 v); lia).
  apply (keeps_bind _ _ _ (λ _, none) noopen any).
  - destruct (flag flags O_TRUNC); [|by apply keeps_ret]. destruct canwrite; [|by apply keeps_ret].
    apply (keeps_call _ _ _ any); [done|by apply truncate_law; [apply H3|apply H3|]|counts].
  - counts.
  - intros r st4 G4 _. pose proof (go_ok _ _ _ _ G4) as H4. destruct (Z.eqb_spec r 0) as [->|]; cbn [negb]; [by apply keeps_ret; [|counts|counts|]|].
    unfold keeps. setoid_rewrite kbind_assoc_ret. eapply keeps_bind; [apply (close_keeps st4 v H4)|counts|].
    + rewrite (go_opens _ _ _ _ G4 v). counts.
    + intros [] st5 G5 _. apply keeps_ret; [by apply G5|counts|counts|done].
Qed.

(** *** Names in directories *)

Lemma at_parent_keeps st path f :
  vfs_ok st → cstring path →
  (∀ st1 v name, vfs_ok st1 → 0 < refs st1 v → call (f v name) (v_below st1) (λ _, none) (λ _ _, True)) →
  keeps (at_parent path f) st (λ _, none) noopen any.
Proof.
  intros H Hp Hf. eapply keeps_bind; [by apply lookparent_keeps|counts|]. intros [e|[v name]] st1 G _; [by apply keeps_ret; [apply G|counts|counts|]|].
  pose proof (go_ok _ _ _ _ G) as H1. assert (L1 : 0 < loose st1 v) by (eapply loose_more; [exact H|exact G|cbn; rewrite one_self; lia]).
  eapply keeps_bind; [apply (keeps_call _ _ _ any); [done|by apply Hf; [|apply loose_held]|counts]|counts|].
  intros r st2 G2 _. apply keeps_drop; [by apply G2| |counts|counts|done]. rewrite (go_loose _ _ _ _ G2 v). counts.
Qed.

Lemma rename_keeps st p1 p2 : vfs_ok st → cstring p1 → cstring p2 → keeps (vfs_rename p1 p2) st (λ _, none) noopen any.
Proof.
  intros H Hp1 Hp2. eapply keeps_bind; [by apply lookparent_keeps|counts|]. intros [e|[v1 n1]] st1 G1 Hf1; [by apply keeps_ret; [apply G1|counts|counts|]|].
  destruct (Hf1 v1 n1 eq_refl) as [Hd1 _]. pose proof (go_ok _ _ _ _ G1) as H1.
  assert (L1 : 0 < loose st1 v1) by (eapply loose_more; [exact H|exact G1|cbn; rewrite one_self; lia]).
  eapply keeps_bind; [by apply lookparent_keeps|counts|]. intros [e|[v2 n2]] st2 G2 Hf2.
  { apply keeps_drop; [by apply G2| |counts|counts|done]. rewrite (go_loose _ _ _ _ G2 v1). counts. }
  destruct (Hf2 v2 n2 eq_refl) as [Hd2 Hn2]. pose proof (go_ok _ _ _ _ G2) as H2.
  assert (L2 : 0 < loose st2 v1) by (rewrite (go_loose _ _ _ _ G2 v1); cbn; pose proof (one_pos v2 v1); lia).
  assert (L2' : 0 < loose st2 v2 - (if bool_decide (v1 = v2) then 1 else 0)).
  { rewrite (go_loose _ _ _ _ G2 v2). cbn. rewrite one_self. pose proof (vo_loose _ H1 v2). case_bool_decide; [subst; lia|lia]. }
  assert (L2v : 0 < loose st2 v2) by (case_bool_decide; lia).
  pose proof (go_dir _ _ _ _ G2 v1 L1 L2 Hd1) as Hd1'.
  apply (keeps_bind _ _ _ (λ _, none) noopen any).
  - destruct (_ || _) eqn:Ex; [by apply keeps_ret|]. apply orb_false_iff in Ex as [_ Ex%bool_decide_eq_false]. apply dec_stable in Ex.
    apply (keeps_call _ _ _ any); [done|apply rename_law; [apply H2|apply H2|by apply loose_held|by apply loose_held|done..]|counts].
  - counts.
  - intros r st3 G3 _. pose proof (go_ok _ _ _ _ G3) as H3.
    eapply keeps_bind; [apply (keeps_decref st3 v2 H3); rewrite (go_loose _ _ _ _ G3 v2); counts|counts|]. intros [] st4 G4 _.
    apply keeps_drop; [by apply G4| |counts|counts|done]. rewrite (go_loose _ _ _ _ G4 v1), (go_loose _ _ _ _ G3 v1). unfold minus, none, one. repeat case_bool_decide; subst; try done; lia.
Qed.
End Functions.

(** ** The functions as calls *)

Inductive vcall :=
  | c_lookup (path : list Z)
  | c_lookparent (path : list Z)
  | c_open (path : list Z) (flags mode : Z)
  | c_close (v : nat)
  | c_drop (v : nat)
  | c_getcurdir
  | c_chdir (path : list Z)
  | c_clearcurdir
  | c_setbootfs (name : list Z)
  | c_clearbootfs
  | c_remove (path : list Z)
  | c_mkdir (path : list Z) (mode : Z)
  | c_rmdir (path : list Z)
  | c_symlink (contents path : list Z)
  | c_rename (p1 p2 : list Z).

Section Calls.
Context {S : Type} {V : VnodeState S} {L : VnodeLayer S}.

(** The result: an error number (0 is success), or a vnode. *)
Definition as_error (c : K (vfs S) Z) : K (vfs S) (Z + nat) := e <- c ;; kret (inl e).
Definition as_done (c : K (vfs S) unit) : K (vfs S) (Z + nat) := c ;; kret (inl 0).
Definition vrun (c : vcall) : K (vfs S) (Z + nat) :=
  match c with
  | c_lookup path => vfs_lookup path
  | c_lookparent path => r <- vfs_lookparent path (NAME_MAX + 1) ;; kret (match r with inl e => inl e | inr (v, _) => inr v end)
  | c_open path flags mode => vfs_open path flags mode
  | c_close v => as_done (vfs_close v)
  | c_drop v => as_done (below (vop_decref v))
  | c_getcurdir => vfs_getcurdir
  | c_chdir path => as_error (vfs_chdir path)
  | c_clearcurdir => as_error vfs_clearcurdir
  | c_setbootfs name => as_error (vfs_setbootfs name)
  | c_clearbootfs => as_done vfs_clearbootfs
  | c_remove path => as_error (vfs_remove path)
  | c_mkdir path mode => as_error (vfs_mkdir path mode)
  | c_rmdir path => as_error (vfs_rmdir path)
  | c_symlink contents path => as_error (vfs_symlink contents path)
  | c_rename p1 p2 => as_error (vfs_rename p1 p2)
  end.

(** What the caller has more afterwards: references, and open files. *)
Definition gained (c : vcall) (r : Z + nat) : nat → Z :=
  match c with
  | c_lookup _ | c_lookparent _ | c_getcurdir => got r
  | c_drop v => minus (one v)
  | _ => none
  end.
Definition opened_by (c : vcall) (r : Z + nat) : nat → Z :=
  match c with c_open _ _ _ => got r | c_close v => minus (one v) | _ => none end.

(** Paths are C strings; what is closed or dropped is there to be. *)
Definition permitted (st : vfs S) (c : vcall) : Prop :=
  match c with
  | c_lookup p | c_lookparent p | c_open p _ _ | c_chdir p | c_setbootfs p | c_remove p | c_mkdir p _ | c_rmdir p | c_symlink _ p => cstring p
  | c_close v => 0 < opens st v
  | c_drop v => 0 < loose st v
  | c_rename p1 p2 => cstring p1 ∧ cstring p2
  | c_getcurdir | c_clearcurdir | c_clearbootfs => True
  end.

Lemma as_error_keeps c st : keeps c st (λ _, none) noopen any → keeps (as_error c) st (λ _, none) noopen any.
Proof. intros H. eapply keeps_bind; [exact H|counts|]. intros e st1 G _. apply keeps_ret; [by apply G|counts|counts|done]. Qed.
Lemma as_done_keeps c st (δ ε : nat → Z) : keeps c st (λ _, δ) (λ _, ε) any → keeps (as_done c) st (λ _, δ) (λ _, ε) any.
Proof.
  intros H. eapply keeps_bind; [exact H|intros; right; done|]. intros e st1 G _. apply keeps_ret; [by apply G|intros v; cbn; lia..|done].
Qed.

Lemma calls_keep st c : vfs_ok st → permitted st c → keeps (vrun c) st (gained c) (opened_by c) any.
Proof.
  intros H Hp. destruct c; cbn [vrun gained opened_by permitted] in *;
    try (apply as_error_keeps; apply at_parent_keeps; [done|done|]; intros st1 v name H1 Hv;
         by (apply remove_law || apply mkdir_law || apply rmdir_law || apply symlink_law); [apply H1|apply H1|]).
  - by apply lookup_keeps.
  - eapply keeps_bind; [by apply lookparent_keeps|intros; cbn [gained]; counts|]. intros [e|[v n]] st1 G _; (apply keeps_ret; [by apply G|intros x; cbn [gained opened_by]; counts..|done]).
  - by apply open_keeps.
  - by apply as_done_keeps, close_keeps.
  - by apply as_done_keeps, keeps_decref.
  - eapply keeps_ext; [by apply getcurdir_keeps|done|done|done].
  - by apply as_error_keeps, chdir_keeps.
  - by apply as_error_keeps, clearcurdir_keeps.
  - by apply as_error_keeps, setbootfs_keeps.
  - eapply as_done_keeps. eapply keeps_ext; [by apply clearbootfs_keeps|done|done|done].
  - destruct Hp. by apply as_error_keeps, rename_keeps.
Qed.
End Calls.

