(* ===== verification/SfsLayer.v ===== *)
(** * SFS as a layer of vnodes

    What the VFS layer needs of a file system, proved of SFS from the
    simulation of SfsSpec.v: the counts of the handles, the depth of the big
    lock, and that lookups, creation, removal and renaming keep them. *)

From stdpp Require Import base numbers list gmap sets.
From Stdlib Require Import ZArith Lia.
From S2P Require Import Prelude CString Bitmap Uio Device SfsDisk Sfs SfsBlocks SfsFile SfsIo SfsDir SfsInv SfsVnode SfsTrunc SfsReclaim SfsOps SfsNames SfsFiles SfsSpec SfsMount SfsExample Vfs VfsRefs.

Open Scope Z_scope.
Open Scope kernel_scope.

Section Layer.
Context (cur : option nat) {D : Type} {DV : Device D} {BD : BlockDevice cur D}.
Abbreviation fs := (@sfs_fs D).
Abbreviation ROOT := SFS_ROOT_LOCATION.
Implicit Types (s : fs) (a : afs).

(** ** The counts *)

Definition count_of (h : gmap nat (Z * Z * Z)) (v : nat) : Z := match h !! v with Some (_, k, _) => k | None => 0 end.
Definition opens_of (h : gmap nat (Z * Z * Z)) (v : nat) : Z := match h !! v with Some (_, _, o) => o | None => 0 end.
Definition handle_dir (h : gmap nat (Z * Z * Z)) (v : nat) : Prop := ∃ k o, h !! v = Some (ROOT, k, o).

#[global] Instance sfs_vnode_state : VnodeState fs := {|
  vl_ok s := ∃ R a, represents cur R a s;
  vl_depth := fs_depth;
  vl_refs s := count_of (handles s);
  vl_opens s := opens_of (handles s);
  vl_dir s := handle_dir (handles s)
|}.

Lemma rep_counts R a s v ino k o : represents cur R a s → handles s !! v = Some (ino, k, o) → 0 < k ∧ 0 ≤ o.
Proof.
  intros Hrep (sv & Hv & <- & <- & <-)%handles_lookup. destruct (rep_mounted _ _ _ _ Hrep) as [_ H].
  by destruct (inv_loaded _ _ _ _ (fy_inv _ _ _ _ _ _ H) v sv Hv) as (_ & ? & ? & _).
Qed.
Lemma counted_handle h v : 0 < count_of h v → ∃ ino o, h !! v = Some (ino, count_of h v, o).
Proof. unfold count_of. destruct (h !! v) as [[[ino k] o]|]; [|lia]. by exists ino, o. Qed.
Lemma counted_some h v : 0 < count_of h v → is_Some (h !! v).
Proof. intros (ino & o & ->)%counted_handle. by eexists. Qed.

(** Changes of the handles as changes of the counts. *)
Definition shifted (h h' : gmap nat (Z * Z * Z)) (δ ε : nat → Z) : Prop :=
  (∀ v, count_of h' v = count_of h v + δ v) ∧ (∀ v, opens_of h' v = opens_of h v + ε v) ∧
  (∀ v i k o i' k' o', h !! v = Some (i, k, o) → h' !! v = Some (i', k', o') → i' = i).

Lemma shifted_refl h : shifted h h none none.
Proof. split_and!; [unfold none; lia|unfold none; lia|congruence]. Qed.
Lemma shifted_insert h v i k o k' o' :
  h !! v = Some (i, k, o) → shifted h (<[v := (i, k', o')]> h) (λ w, (k' - k) * one v w) (λ w, (o' - o) * one v w).
Proof.
  intros Hv. unfold shifted, count_of, opens_of, one. split_and!.
  - intros w. destruct (decide (w = v)) as [->|Hne]; [rewrite lookup_insert_eq, Hv, bool_decide_true by done; lia|].
    rewrite lookup_insert_ne, bool_decide_false by done. lia.
  - intros w. destruct (decide (w = v)) as [->|Hne]; [rewrite lookup_insert_eq, Hv, bool_decide_true by done; lia|].
    rewrite lookup_insert_ne, bool_decide_false by done. lia.
  - intros w. destruct (decide (w = v)) as [->|Hne]; [rewrite lookup_insert_eq; naive_solver|rewrite lookup_insert_ne by done; naive_solver].
Qed.
Lemma shifted_new h v i : h !! v = None → shifted h (<[v := (i, 1, 0)]> h) (one v) none.
Proof.
  intros Hv. unfold shifted, count_of, opens_of, one, none. split_and!.
  - intros w. destruct (decide (w = v)) as [->|Hne]; [by rewrite lookup_insert_eq, Hv, bool_decide_true|].
    rewrite lookup_insert_ne, bool_decide_false by done. lia.
  - intros w. destruct (decide (w = v)) as [->|Hne]; [by rewrite lookup_insert_eq, Hv|]. rewrite lookup_insert_ne by done. lia.
  - intros w. destruct (decide (w = v)) as [->|Hne]; [congruence|rewrite lookup_insert_ne by done; naive_solver].
Qed.
Lemma shifted_eq h h' δ ε δ' ε' : shifted h h' δ ε → (∀ v, δ v = δ' v) → (∀ v, ε v = ε' v) → shifted h h' δ' ε'.
Proof. intros (H1 & H2 & H3) Hd He. split_and!; [intros v; by rewrite <- Hd|intros v; by rewrite <- He|done]. Qed.
Lemma shifted_acquired h w ino h' : acquired h w ino h' → shifted h h' (one w) none.
Proof.
  intros [(k & o & Hw & ->)|(Hw & _ & ->)]; [|by apply shifted_new].
  eapply shifted_eq; [by apply (shifted_insert h w ino k o)|intros v; ring|intros v; unfold none; ring].
Qed.
Lemma shifted_release h w ino k o : h !! w = Some (ino, k, o) → (k = 1 → o = 0) → shifted h (release w h) (minus (one w)) none.
Proof.
  intros Hw Ho. unfold release. rewrite Hw. destruct (Z.eqb_spec k 1) as [->|Hk].
  - rewrite (Ho eq_refl) in Hw. unfold shifted, count_of, opens_of, minus, one, none. split_and!.
    + intros v. destruct (decide (v = w)) as [->|Hne]; [by rewrite lookup_delete_eq, Hw, bool_decide_true|].
      rewrite lookup_delete_ne, bool_decide_false by done. lia.
    + intros v. destruct (decide (v = w)) as [->|Hne]; [by rewrite lookup_delete_eq, Hw|]. rewrite lookup_delete_ne by done. lia.
    + intros v i' k' o' i2 k2 o2 Hv [_ Hv2]%lookup_delete_Some. congruence.
  - eapply shifted_eq; [by apply (shifted_insert h w ino k o)|intros v; unfold minus; ring|intros v; unfold none; ring].
Qed.

Lemma shifted_moved R a' s s' δ ε :
  represents cur R a' s' → fs_depth s' = fs_depth s → shifted (handles s) (handles s') δ ε → moved s s' δ ε.
Proof.
  intros Hrep Hd (H1 & H2 & H3). constructor; [by exists R, a'|done|done|done|].
  cbn. intros v (i & o & Hv)%counted_handle (i' & o' & Hv')%counted_handle (k & o2 & Hr). exists (count_of (handles s') v), o'.
  rewrite Hv'. rewrite Hr in Hv. by rewrite (H3 v _ _ _ _ _ _ Hr Hv').
Qed.

(** ** The operations of SfsSpec.v *)

Definition shift_of (o : op) (r : ret) : nat → Z :=
  match o with
  | op_incref w => one w
  | op_decref w => minus (one w)
  | _ => match r with ret_vn x => got x | _ => none end
  end.
Definition open_shift (o : op) : nat → Z := match o with op_incopen w => one w | op_decopen w => minus (one w) | _ => none end.

Lemma step_shifted a o r a' :
  SfsSpec.step cur a o r a' → allowed cur a o → shifted (a_handles a) (a_handles a') (shift_of o r) (open_shift o).
Proof.
  destruct 1; intros Ha; cbn [shift_of open_shift got]; try apply shifted_refl.
  - by eapply shifted_acquired.
  - by eapply shifted_acquired.
  - by apply shifted_new.
  - by eapply shifted_acquired.
  - eapply shifted_eq; [by apply (shifted_insert _ w ino k o)|intros v; ring|intros v; unfold none; ring].
  - destruct Ha as (i & k & o & Hw & Ho). by eapply shifted_release.
  - destruct Ha as (i & k & o & Hw & Ho). by eapply shifted_release.
  - eapply shifted_eq; [by apply (shifted_insert _ w ino k o)|intros v; unfold none; ring|intros v; ring].
  - eapply shifted_eq; [by apply (shifted_insert _ w ino k o)|intros v; unfold none; ring|intros v; unfold minus; ring].
Qed.

Lemma run_moved R a s o :
  represents cur R a s → allowed cur a o → ∃ r s', run cur o s = Done (r, s') ∧ moved s s' (shift_of o r) (open_shift o).
Proof.
  intros Hrep Ha. destruct (simulation cur R a o s Hrep Ha) as (r & s' & a' & E & Hst & [Hrep' Hd] & _).
  exists r, s'. split; [done|]. apply (shifted_moved R a'); [done|done|].
  rewrite <- (rep_handles _ _ _ _ Hrep), <- (rep_handles _ _ _ _ Hrep'). by apply step_shifted.
Qed.
Lemma run_inv {A} (c : K fs A) (f : A → ret) s r s' : (x <- c ;; kret (f x)) s = Done (r, s') → ∃ x, c s = Done (x, s') ∧ r = f x.
Proof. unfold kbind, kret. destruct (c s) as [[x t]| | |]; [|done..]. intros [= <- <-]. by exists x. Qed.

(** A call of the code that [run] makes. *)
Lemma op_call {A} R a s o (c : K fs A) (f : A → ret) (δ : A → nat → Z) :
  represents cur R a s → allowed cur a o → run cur o = (x <- c ;; kret (f x)) →
  (∀ x, shift_of o (f x) = δ x) → open_shift o = none → call c s δ (λ _ _, True).
Proof.
  intros Hrep Ha Hrun Hd Ho. destruct (run_moved R a s o Hrep Ha) as (r & s' & E & Hm). rewrite Hrun in E.
  apply run_inv in E as (x & E & ->). rewrite Hd, Ho in Hm. by exists x, s'.
Qed.

(** ** The lock *)

Lemma rep_depth R a s n : represents cur R a s → 0 ≤ n → represents cur R a (set_depth n s).
Proof.
  intros [r1 [_ r2] r3 r4] Hn. split; [done| |done|done]. split; [done|].
  exact (fsy_depth cur _ _ _ _ _ (n + 1) r2 ltac:(lia)).
Qed.
Lemma set_depth_id s n : n = fs_depth s → set_depth n s = s.
Proof. intros ->. by destruct s. Qed.

(** ** The operations that only look *)

(** The vnode is the directory or a file. *)
Lemma counted_kind R a s v :
  represents cur R a s → 0 < vl_refs s v →
  (vl_dir s v ∧ ∃ sv, root_vnode v s sv ∧ sfi_type (sv_i sv) = SFS_TYPE_DIR ∧ ∀ A (file dir : K fs A), vop v file dir s = dir s) ∨
  (∃ sv, fs_vn s !! v = Some sv ∧ sfi_type (sv_i sv) = SFS_TYPE_FILE ∧ ∀ A (file dir : K fs A), vop v file dir s = file s).
Proof.
  intros Hrep Hv. pose proof (counted_some _ _ Hv) as Hs. rewrite <- (rep_handles _ _ _ _ Hrep) in Hs.
  destruct (vnode_kind cur R a s Hrep v Hs) as [(Hr & sv & Hroot & Hvop)|(ino & sw & d & z & Hr & Hne & Hw & Hi & Hf & Hvop)].
  - left. split; [destruct Hr as (k & o & Hr); exists k, o; by rewrite <- (rep_handles _ _ _ _ Hrep)|].
    exists sv. split; [done|]. split; [|done]. destruct (rep_mounted _ _ _ _ Hrep) as [_ H]. by eapply (root_dir cur).
  - right. exists sw. split; [done|]. split; [|done]. destruct (rep_mounted _ _ _ _ Hrep) as [_ H].
    destruct (inv_loaded _ _ _ _ (fy_inv _ _ _ _ _ _ H) v sw Hw) as (_ & _ & _ & Hops). unfold ops_ok in Hops.
    destruct (file_of cur R a s Hrep v ino Hr Hne) as (sw' & ? & ? & Hw' & _ & Ho & _). rewrite Hw in Hw'. injection Hw' as <-. by rewrite Ho in Hops.
Qed.

Lemma gettype_same R a s v : represents cur R a s → 0 < vl_refs s v → ∃ t, Sfs.vop_gettype v s = Done (t, s).
Proof.
  intros Hrep Hv. pose proof (proj1 (rep_mounted _ _ _ _ Hrep)) as H0.
  assert (Hg : ∀ sv, fs_vn s !! v = Some sv → sfi_type (sv_i sv) = SFS_TYPE_DIR ∨ sfi_type (sv_i sv) = SFS_TYPE_FILE → ∃ t, sfs_gettype v s = Done (t, s)).
  { intros sv Hsv Ht. unfold sfs_gettype, vfs_biglock_acquire, getvn. ksteps. cbn [fs_vn set_depth]. rewrite Hsv. ksteps.
    assert (Hend : ∀ t : Z, (vfs_biglock_release ;; kret t) (set_depth (fs_depth s + 1) s) = Done (t, s)).
    { intros t. unfold vfs_biglock_release. ksteps. rewrite step_assert by (apply Z.ltb_lt; cbn; lia). ksteps. unfold kret.
      do 2 f_equal. transitivity (set_depth (fs_depth s + 1 - 1) s); [done|]. apply set_depth_id. lia. }
    destruct Ht as [-> | ->].
    - exists S_IFDIR. exact (Hend S_IFDIR).
    - exists S_IFREG. exact (Hend S_IFREG). }
  unfold Sfs.vop_gettype. destruct (counted_kind R a s v Hrep Hv) as [(_ & sv & [Hsv _] & Ht & Hvop)|(sv & Hsv & Ht & Hvop)];
    rewrite Hvop; apply (Hg sv Hsv); [by left|by right].
Qed.

Lemma moved_same s : vl_ok s → moved s s none none.
Proof. intros H. constructor; [done|done|unfold none; lia..|done]. Qed.

(** What runs between taking and releasing the lock. *)
Lemma moved_locked s s1 δ :
  0 ≤ fs_depth s → moved (set_depth (fs_depth s + 1) s) s1 δ none → moved s (set_depth (fs_depth s) s1) δ none.
Proof.
  intros H0 [(R & a & Hrep) m2 m3 m4 m5]. constructor; [|done|exact m3|exact m4|exact m5]. exists R, a. by apply rep_depth.
Qed.

Lemma lookparent_moved R a s v path n :
  represents cur R a s → 0 < vl_refs s v → cstring path →
  call (Sfs.vop_lookparent v path n) s (λ r, match r with inl _ => none | inr (w, _) => one w end)
    (λ r s', ∀ w name, r = inr (w, name) → vl_dir s' w ∧ cstring name).
Proof.
  intros Hrep Hv Hp. pose proof (proj1 (rep_mounted _ _ _ _ Hrep)) as H0. assert (Hok : vl_ok s) by (by exists R, a).
  unfold call, Sfs.vop_lookparent. destruct (counted_kind R a s v Hrep Hv) as [(Hdir & sv & [Hsv _] & Ht & Hvop)|(sv & Hsv & Ht & Hvop)].
  2: { exists (inl ENOTDIR), s. rewrite Hvop. split; [done|]. split; [by apply moved_same|done]. }
  setoid_rewrite Hvop. unfold sfs_lookparent. set (s0 := set_depth (fs_depth s + 1) s).
  assert (Hrep0 : represents cur R a s0) by (apply rep_depth; [done|lia]).
  apply (run_locked _ _ (λ r s', moved s s' _ none ∧ _) H0). fold s0.
  unfold getvn. ksteps. change (fs_vn s0) with (fs_vn s). rewrite Hsv. ksteps. rewrite Ht. cbn [negb Z.eqb]. change (negb (SFS_TYPE_DIR =? SFS_TYPE_DIR)) with false. cbv iota.
  destruct (n <? _).
  { exists (inl ENAMETOOLONG), s0. split; [done|]. split; [done|]. split; [|done]. apply moved_locked; [done|]. apply moved_same. by exists R, a. }
  destruct (run_moved R a s0 (op_incref v) Hrep0) as (r & s1 & E & Hm).
  { cbn. rewrite (rep_handles _ _ _ _ Hrep0). by apply counted_some. }
  cbn [run] in E. apply (run_inv (vnode_incref v) (λ _, ret_unit)) in E as ([] & E & ->). cbn [shift_of open_shift] in Hm.
  exists (inr (v, path)), s1. split; [by kcall E|]. split; [exact (mv_depth _ _ _ _ Hm)|]. split; [by apply moved_locked|].
  intros w name [= <- <-]. split; [|done]. apply (mv_dir _ _ _ _ Hm v Hv); [|exact Hdir].
  rewrite (mv_refs _ _ _ _ Hm v), one_self. change (vl_refs s0 v) with (vl_refs s v). lia.
Qed.

(** Operations that return an error whatever the vnode is. *)
Lemma refused_moved s v (e1 e2 : Z) : vl_ok s → 0 < vl_refs s v → call (vop v (kret e1) (kret e2)) s (λ _, none) (λ _ _, True).
Proof.
  intros Hok Hv. pose proof Hok as (R & a & Hrep). unfold call. destruct (counted_kind R a s v Hrep Hv) as [(_ & sv & _ & _ & Hvop)|(sv & _ & _ & Hvop)].
  - exists e2, s. rewrite Hvop. split; [done|]. split; [by apply moved_same|done].
  - exists e1, s. rewrite Hvop. split; [done|]. split; [by apply moved_same|done].
Qed.
Lemma volname_same s : 0 ≤ fs_depth s → sfs_getvolname s = Done (sp_volname (fs_super s), s).
Proof.
  intros H0. unfold sfs_getvolname. rewrite (locked_run _ s (sp_volname (fs_super s)) (set_depth (fs_depth s + 1) s)); [|done|done|done].
  do 2 f_equal. transitivity (set_depth (fs_depth s) s); [done|by apply set_depth_id].
Qed.
Lemma allowed_handle R a s v : represents cur R a s → 0 < vl_refs s v → is_Some (a_handles a !! v).
Proof. intros Hrep Hv. rewrite (rep_handles _ _ _ _ Hrep). by apply counted_some. Qed.

(** ** SFS below the VFS layer *)

#[global, program] Instance sfs_layer : VnodeLayer fs := {|
  vn_fs _ := Some 0%nat;
  fs_there f := f = 0%nat;
  biglock_acquire := vfs_biglock_acquire;
  biglock_release := vfs_biglock_release;
  Vfs.vop_incref := vnode_incref;
  Vfs.vop_decref := vnode_decref;
  Vfs.vop_incopen := vnode_incopen;
  Vfs.vop_decopen := vnode_decopen;
  Vfs.vop_lookup := Sfs.vop_lookup cur;
  Vfs.vop_lookparent := Sfs.vop_lookparent;
  Vfs.vop_creat v name excl _ := Sfs.vop_creat cur v name excl;
  Vfs.vop_open := Sfs.vop_open;
  Vfs.vop_truncate := Sfs.vop_truncate;
  Vfs.vop_gettype v := t <- Sfs.vop_gettype v ;; kret (inr t);
  Vfs.vop_remove := Sfs.vop_remove cur;
  Vfs.vop_mkdir v _ _ := Sfs.vop_mkdir v;
  Vfs.vop_rmdir v _ := Sfs.vop_rmdir v;
  Vfs.vop_symlink v _ _ := Sfs.vop_symlink v;
  Vfs.vop_rename := Sfs.vop_rename cur;
  fsop_getroot _ := sfs_getroot;
  fsop_getvolname _ := n <- sfs_getvolname ;; kret (Some (takew (λ c, c =? 0) n))
|}.
Next Obligation.
  intros s v (R & a & Hrep). cbn. unfold count_of, opens_of. destruct (handles s !! v) as [[[i k] o]|] eqn:E; [|lia].
  destruct (rep_counts R a s v i k o Hrep E). lia.
Qed.
Next Obligation. by intros _ f [= <-]. Qed.
Next Obligation.
  intros s (R & a & Hrep) Hd. eexists. split; [done|]. split; [exists R, a; apply rep_depth; [done|cbn in Hd; lia]|done].
Qed.
Next Obligation.
  intros s (R & a & Hrep) Hd. cbn in Hd. exists (set_depth (fs_depth s - 1) s). split.
  - unfold vfs_biglock_release. ksteps. by rewrite step_assert by (apply Z.ltb_lt; lia).
  - split; [exists R, a; apply rep_depth; [done|lia]|done].
Qed.
Next Obligation.
  intros s v (R & a & Hrep) _ Hv. destruct (run_moved R a s (op_incref v) Hrep (allowed_handle R a s v Hrep Hv)) as (r & s' & E & Hm).
  apply (run_inv (vnode_incref v) (λ _, ret_unit)) in E as ([] & E & ->). by exists s'.
Qed.
Next Obligation.
  intros s v (R & a & Hrep) _ Hv Ho. destruct (run_moved R a s (op_decref v) Hrep) as (r & s' & E & Hm).
  - cbn. destruct (counted_handle _ _ Hv) as (i & o & Hh). exists i, (count_of (handles s) v), o. rewrite (rep_handles _ _ _ _ Hrep). split; [done|].
    intros Hk. specialize (Ho Hk). cbn in Ho. unfold opens_of in Ho. by rewrite Hh in Ho.
  - apply (run_inv (vnode_decref v) (λ _, ret_unit)) in E as ([] & E & ->). by exists s'.
Qed.
Next Obligation.
  intros s v (R & a & Hrep) _ Hv. destruct (run_moved R a s (op_incopen v) Hrep (allowed_handle R a s v Hrep Hv)) as (r & s' & E & Hm).
  apply (run_inv (vnode_incopen v) (λ _, ret_unit)) in E as ([] & E & ->). by exists s'.
Qed.
Next Obligation.
  intros s v (R & a & Hrep) _ Hv Ho. destruct (run_moved R a s (op_decopen v) Hrep) as (r & s' & E & Hm).
  - cbn in Ho |- *. destruct (counted_handle _ _ Hv) as (i & o & Hh). exists i, (count_of (handles s) v), o. rewrite (rep_handles _ _ _ _ Hrep). split; [done|].
    unfold opens_of in Ho. by rewrite Hh in Ho.
  - apply (run_inv (vnode_decopen v) (λ _, ret_unit)) in E as ([] & E & ->). by exists s'.
Qed.
Next Obligation.
  intros s v path (R & a & Hrep) _ Hv. by apply (op_call R a s (op_lookup v path) _ ret_vn); [|by apply (allowed_handle R a s)|..].
Qed.
Next Obligation. intros s v path n (R & a & Hrep) _ Hv Hp. by apply (lookparent_moved R a). Qed.
Next Obligation.
  intros s v name excl mode (R & a & Hrep) _ Hv Hn. by apply (op_call R a s (op_creat v name excl) _ ret_vn); [|split; [by apply (allowed_handle R a s)|]|..].
Qed.
Next Obligation. intros s v flags Hok _ Hv. by apply refused_moved. Qed.
Next Obligation.
  intros s v (R & a & Hrep) _ Hv. apply (op_call R a s (op_truncate v 0) _ ret_z); [done|split; [by apply (allowed_handle R a s)|lia]|done..].
Qed.
Next Obligation.
  intros s v Hok _ Hv. pose proof Hok as (R & a & Hrep). destruct (gettype_same R a s v Hrep Hv) as [t E]. exists (inr t), s.
  split; [by kcall E|]. split; [by apply moved_same|]. by eexists.
Qed.
Next Obligation.
  intros s v name (R & a & Hrep) _ Hv. by apply (op_call R a s (op_remove v name) _ ret_z); [|by apply (allowed_handle R a s)|..].
Qed.
Next Obligation. intros s v name mode Hok _ Hv. by apply refused_moved. Qed.
Next Obligation. intros s v name Hok _ Hv. by apply refused_moved. Qed.
Next Obligation. intros s v name c Hok _ Hv. by apply refused_moved. Qed.
Next Obligation.
  intros s v1 n1 v2 n2 (R & a & Hrep) _ Hv1 Hv2 (k1 & o1 & Hd1) (k2 & o2 & Hd2) _ Hn.
  rewrite <- (rep_handles _ _ _ _ Hrep) in Hd1, Hd2.
  assert (v1 = v2) as <- by (eapply (one_handle cur R a s Hrep); [by exists k1, o1|by exists k2, o2]).
  by apply (op_call R a s (op_rename v1 n1 n2) _ ret_z); [|split; [by apply (allowed_handle R a s)|]|..].
Qed.
Next Obligation.
  intros s f (R & a & Hrep) _ _. by apply (op_call R a s op_getroot _ (λ w, ret_vn (inr w))).
Qed.
Next Obligation.
  intros s f Hok Hd _. exists (Some (takew (λ c, c =? 0) (sp_volname (fs_super s)))), s.
  split; [by kcall (volname_same s Hd)|]. split; [by apply moved_same|done].
Qed.
End Layer.

(** ** A volume with a current directory

    The volume of SfsExample.v with its file open [o] times and referred to
    [k] times. *)

Definition table (k o : Z) : gmap nat sfs_vnode := {[0%nat := root_vn; 1%nat := mk_vnode file_inode 3 false k o sfs_fileops]}.
Definition here (k o : Z) : vfs exfs := VfsState (state (table k o) 2) (Some 0%nat) None [].

Lemma table_ok k o : 0 < k → 0 ≤ o → vns_ok (table k o) 2.
Proof.
  intros Hk Ho. unfold table. split.
  - intros v sv [[<- <-]|[_ [<- <-]%lookup_singleton_Some]]%lookup_insert_Some; (split; [auto|done]).
  - intros v w sv sw [[<- <-]|[_ [<- <-]%lookup_singleton_Some]]%lookup_insert_Some [[<- <-]|[_ [<- <-]%lookup_singleton_Some]]%lookup_insert_Some; done.
  - intros v Hv. rewrite lookup_insert_ne, lookup_singleton_ne by lia. done.
Qed.
Lemma table_represents k o :
  0 < k → 0 ≤ o → represents None reserved (view {[0%nat := (1, 1, 0); 1%nat := (3, k, o)]}) (state (table k o) 2).
Proof.
  intros Hk Ho. apply (example_represents (table k o) 2 _ (table_ok k o Hk Ho)). unfold table. rewrite fmap_insert, map_fmap_singleton. reflexivity.
Qed.
Lemma here_refs k o v :
  0 < k → 0 ≤ o →
  vl_refs (state (table k o) 2) v = match v with O => 1 | 1%nat => k | _ => 0 end ∧
  vl_opens (state (table k o) 2) v = match v with 1%nat => o | _ => 0 end.
Proof.
  intros Hk Ho. pose proof (rep_handles _ _ _ _ (table_represents k o Hk Ho)) as Hh. cbn [a_handles view] in Hh.
  cbn [vl_refs vl_opens sfs_vnode_state]. rewrite <- Hh. unfold count_of, opens_of. destruct v as [|[|v]]; [done|done|].
  by rewrite (lookup_insert_ne _ 0%nat), (lookup_singleton_ne 1%nat) by done.
Qed.
Lemma here_ok k o : 0 < k → 0 ≤ o ≤ k → vfs_ok (here k o).
Proof.
  intros Hk Ho. constructor; [exists reserved; eexists; apply table_represents; lia|done| |by eexists|done].
  intros v. unfold loose, refs, opens, pins. cbn [here v_below v_cwd v_bootfs v_devs dev_pins foldr].
  destruct (here_refs k o v) as [-> ->]; [lia..|]. unfold pin. destruct v as [|[|v]]; [done|repeat case_bool_decide; simplify_eq; lia|].
  repeat case_bool_decide; simplify_eq; lia.
Qed.

