(* ===== verification/Files.v ===== *)
(** * File descriptors (kern/syscall/open_syscalls.c and its neighbours)

    A process has 128 slots, each NULL or a pointer to a [struct fd].  The
    structures live in a store of their own because [fork] copies the pointers:
    parent and child then share them.  What [copyinstr] and [copyin] bring in
    from the user is an argument; Copyinout.v models them. *)

From stdpp Require Import base numbers list gmap.
From Stdlib Require Import ZArith Lia.
From S2P Require Import Prelude Uio Vfs VfsRefs.

Open Scope Z_scope.
Open Scope kernel_scope.

(** ** Data *)

Definition FD_MAX : nat := 128.
Definition PATH_MAX : Z := 1024.
Definition APPEND : Z := 32.

(** The pointer [fd_vfile]: a vnode, NULL, or memory just allocated that
    [vfs_open] did not replace. *)
Inductive vfile := Vn (v : nat) | Null | Fresh.

Record fd := Fd {
  fd_fid : Z;
  fd_name : list Z;
  fd_flag : Z;
  fd_vfile : vfile
}.

Record files (S : Type) := Files {
  f_vfs : vfs S;
  f_store : gmap nat fd;
  f_next : nat;
  f_list : list (option nat)     (** [curproc->p_fdlist] *)
}.
Arguments Files {S} _ _ _ _.
Arguments f_vfs {S} _.
Arguments f_store {S} _.
Arguments f_next {S} _.
Arguments f_list {S} _.

Section Files.
Context {S : Type} {V : VnodeState S} {L : VnodeLayer S}.
Abbreviation M := (K (files S)).

Definition on_vfs {A} (c : K (vfs S) A) : M A := kzoom f_vfs (λ x st, Files x (f_store st) (f_next st) (f_list st)) c.
Definition set_store (f : gmap nat fd → gmap nat fd) : M unit := kmodify (λ st, Files (f_vfs st) (f (f_store st)) (f_next st) (f_list st)).
Definition set_slot (i : nat) (p : option nat) : M unit := kmodify (λ st, Files (f_vfs st) (f_store st) (f_next st) (<[i := p]> (f_list st))).
(** [p_fdlist[i]]; the array ends the structure. *)
Definition slot (i : nat) : M (option nat) := l <- kgets f_list ;; kderef (l !! i).
Definition deref (p : option nat) : M fd := d <- kderef p ;; store <- kgets f_store ;; kderef (store !! d).
(** A new [struct fd] in slot [i]. *)
Definition install (i : nat) (x : fd) : M unit :=
  kmodify (λ st, Files (f_vfs st) (<[f_next st := x]> (f_store st)) (Datatypes.S (f_next st)) (<[i := Some (f_next st)]> (f_list st))).

(** ** Operations *)

Definition console : list Z := [99; 111; 110; 58].       (** "con:" *)
Definition init_one (i : nat) (flags : Z) : M unit :=
  r <- on_vfs (vfs_open console flags 0) ;;
  install i (Fd (Z.of_nat i) console flags (match r with inr v => Vn v | inl _ => Fresh end)).
Definition init_STD : M unit := init_one 0 O_RDONLY ;; init_one 1 O_WRONLY ;; init_one 2 O_WRONLY.
(** What every call but [close] starts with. *)
Definition ensure_STD : M unit := p <- slot 0 ;; match p with None => init_STD | Some _ => kret tt end.

(** [for (i = 3; i < __OPEN_MAX; i++) if (p_fdlist[i] == NULL)]. *)
Fixpoint find_slot (i : nat) (l : list (option nat)) : option nat :=
  match l with
  | [] => None
  | None :: _ => Some i
  | Some _ :: l => find_slot (Datatypes.S i) l
  end.

(** [filename] is NULL, or what [copyinstr] made of it. *)
Definition sys_open (filename : option (Z + list Z)) (flags mode : Z) : M (Z + Z) :=
  ensure_STD ;;
  match filename with
  | None | Some (inl _) => kret (inl EFAULT)
  | Some (inr fname) =>
      let len := Z.of_nat (length fname) + 1 in
      if (len =? 0) || (PATH_MAX + 1 <? len) then kret (inl EFAULT)
      else if flag flags APPEND then kret (inl EINVAL)
      else
        l <- kgets f_list ;;
        match find_slot 3 (drop 3 l) with
        | None => kret (inl EMFILE)
        | Some index =>
            r <- on_vfs (vfs_open fname flags mode) ;;
            match r with
            | inl e => kret (inl e)
            | inr vn => install index (Fd (Z.of_nat index) fname flags (Vn vn)) ;; kret (inr (Z.of_nat index))
            end
        end
  end.

(** [vfs_close] of the pointer: [vnode_decopen] asserts that it is not NULL. *)
Definition close_vfile (p : vfile) : M unit :=
  match p with Vn v => on_vfs (vfs_close v) | Null => kpanic | Fresh => kundef end.

Definition sys_close (fd : Z) : M Z :=
  if (fd <? 3) || (Z.of_nat FD_MAX <? fd) then kret EBADF
  else
    p <- slot (Z.to_nat fd) ;;
    match p with
    | None => kret 0
    | Some d =>
        x <- deref (Some d) ;;
        close_vfile (fd_vfile x) ;;
        set_store <[d := Fd (fd_fid x) (fd_name x) (fd_flag x) Null]> ;;
        set_slot (Z.to_nat fd) None ;;
        kret 0
    end.

(** The [VOP_READ] and [VOP_WRITE] of the file systems. *)
Context (vop_read vop_write : nat → uio → K S (Z * uio)).

Definition may (flags bit : Z) : bool := Z.land flags bit =? bit.
(** A call through the pointer; [vnode_check] panics on NULL. *)
Definition through (p : vfile) (f : nat → K S (Z * uio)) : M (Z * uio) :=
  match p with Vn v => on_vfs (below (f v)) | Null => kpanic | Fresh => kundef end.

(** The result, and the transfer as it was left. *)
Definition sys_read (fd : Z) (buf : list Z) : M ((Z + Z) * uio) :=
  ensure_STD ;;
  let u := uio_kinit buf 0 UIO_READ in
  if (fd <? 0) || (Z.of_nat FD_MAX <? fd) then kret (inl EBADF, u)
  else
    p <- slot (Z.to_nat fd) ;;
    x <- deref p ;;
    if negb (may (fd_flag x) O_RDONLY) && negb (may (fd_flag x) O_RDWR) then kret (inl EBADF, u)
    else
      let* (result, u) := through (fd_vfile x) (λ v, vop_read v u) in
      if negb (result =? 0) then kret (inl result, u) else kret (inr (uio_resid u), u).

(** [buf] is what [copyin] finds at the user's address, if it may read there;
    the block for it has room for a pointer, which [kmalloc] rounds up to 16
    bytes. *)
Definition sys_write (fd : Z) (buf : option (list Z)) : M (Z + Z) :=
  ensure_STD ;;
  if (fd <? 0) || (Z.of_nat FD_MAX <? fd) then kret (inl EBADF)
  else
    p <- slot (Z.to_nat fd) ;;
    x <- deref p ;;
    if negb (may (fd_flag x) O_WRONLY) && negb (may (fd_flag x) O_RDWR) then kret (inl EBADF)
    else
      match buf with
      | None => kret (inl EFAULT)
      | Some data =>
          if (16 <? length data)%nat then kundef
          else
            let* (result, u) := through (fd_vfile x) (λ v, vop_write v (uio_kinit data 0 UIO_WRITE)) in
            if negb (result =? 0) then kret (inl result) else kret (inr (uio_resid u))
      end.

(** [fork] gives the child the same pointers; [vn_refcount++] is done without
    [VOP_INCREF]. *)
Context (bump : nat → K S unit).
Fixpoint copy_fdlist (l : list (option nat)) : M (list (option nat)) :=
  match l with
  | [] => kret []
  | None :: l => r <- copy_fdlist l ;; kret (None :: r)
  | Some d :: l =>
      x <- deref (Some d) ;;
      match fd_vfile x with Vn v => on_vfs (below (bump v)) | _ => kundef end ;;
      r <- copy_fdlist l ;;
      kret (Some d :: r)
  end.
End Files.

(** ** Descriptors and open files *)

Section Props.
Context {S : Type} {V : VnodeState S} {L : VnodeLayer S}.
Implicit Types (st : files S) (v : nat).

(** The opens a slot stands for. *)
Definition slot_opens (store : gmap nat fd) (v : nat) (p : option nat) : Z :=
  match p with
  | Some d => match store !! d with Some x => match fd_vfile x with Vn w => one w v | _ => 0 end | None => 0 end
  | None => 0
  end.
Fixpoint total (f : option nat → Z) (l : list (option nat)) : Z := match l with [] => 0 | p :: l => f p + total f l end.

Lemma total_insert f l i p q : l !! i = Some q → total f (<[i := p]> l) = total f l - f q + f p.
Proof.
  revert i. induction l as [|x l IH]; intros [|i] Hi; simpl in *; [done|done|injection Hi as ->; lia|]. rewrite (IH i Hi). lia.
Qed.
Lemma total_ext f g l : (∀ p, p ∈ l → f p = g p) → total f l = total g l.
Proof.
  induction l as [|x l IH]; intros H; simpl; [done|]. rewrite (H x) by (apply elem_of_cons; by left). rewrite IH; [done|].
  intros p Hp. apply H, elem_of_cons. by right.
Qed.
Lemma total_pos f l : (∀ p, 0 ≤ f p) → 0 ≤ total f l.
Proof. intros H. induction l as [|x l IH]; simpl; [lia|]. specialize (H x). lia. Qed.
Lemma total_member f l i p : (∀ p, 0 ≤ f p) → l !! i = Some p → f p ≤ total f l.
Proof.
  intros H. revert i. induction l as [|x l IH]; intros [|i] Hi; simpl in *; [done|done|injection Hi as ->; pose proof (total_pos f l H); lia|].
  specialize (IH i Hi). specialize (H x). lia.
Qed.
Lemma slot_opens_pos store v p : 0 ≤ slot_opens store v p.
Proof. unfold slot_opens. repeat case_match; try lia. apply one_pos. Qed.

(** What holds of a process's descriptors: the VFS account is right, every
    descriptor accounts for one open of its vnode, no two slots share one, and
    from 3 on they have vnodes. *)
Record files_ok st : Prop := {
  fo_vfs : vfs_ok (f_vfs st);
  fo_length : length (f_list st) = FD_MAX;
  fo_opens v : total (slot_opens (f_store st) v) (f_list st) ≤ opens (f_vfs st) v;
  fo_there i d : f_list st !! i = Some (Some d) → (d < f_next st)%nat ∧ is_Some (f_store st !! d);
  fo_one i j d : f_list st !! i = Some (Some d) → f_list st !! j = Some (Some d) → i = j;
  fo_vnode i d x : (3 ≤ i)%nat → f_list st !! i = Some (Some d) → f_store st !! d = Some x → ∃ v, fd_vfile x = Vn v
}.

Lemma on_vfs_run {A} (c : K (vfs S) A) st a x :
  c (f_vfs st) = Done (a, x) → on_vfs c st = Done (a, Files x (f_store st) (f_next st) (f_list st)).
Proof. unfold on_vfs, kzoom. by intros ->. Qed.

(** The VFS layer's part of a step. *)
Lemma vfs_step st x δ ε :
  files_ok st → goes (f_vfs st) x δ ε → (∀ v, 0 ≤ ε v) → files_ok (Files x (f_store st) (f_next st) (f_list st)).
Proof.
  intros [o1 o2 o3 o4 o5 o6] G He. constructor; cbn; [by apply G|done| |done|done|done].
  intros v. rewrite (go_opens _ _ _ _ G v). specialize (o3 v). specialize (He v). lia.
Qed.

(** A new descriptor goes into a slot; the open it stands for is there. *)
Lemma install_ok st (x : vfs S) st' i d0 :
  files_ok st → is_Some (f_list st !! i) → (3 ≤ i → ∃ v, fd_vfile d0 = Vn v)%nat →
  (∀ v, total (slot_opens (f_store st) v) (f_list st) + match fd_vfile d0 with Vn w => one w v | _ => 0 end ≤ opens x v) → vfs_ok x →
  st' = Files x (<[f_next st := d0]> (f_store st)) (Datatypes.S (f_next st)) (<[i := Some (f_next st)]> (f_list st)) → files_ok st'.
Proof.
  intros [o1 o2 o3 o4 o5 o6] [q Hi] Hv Hop Hx ->.
  assert (Hold : ∀ p, p ∈ f_list st → p ≠ Some (f_next st)).
  { intros p [j Hj]%list_elem_of_lookup_1 ->. destruct (o4 j _ Hj). lia. }
  assert (Hlt : (i < length (f_list st))%nat) by (by eapply lookup_lt_Some).
  constructor; cbn [f_vfs f_store f_next f_list].
  - done.
  - by rewrite length_insert.
  - intros v. rewrite (total_insert _ _ i _ q Hi). rewrite (total_ext _ (slot_opens (f_store st) v)).
    + pose proof (slot_opens_pos (<[f_next st:=d0]> (f_store st)) v q). cbn [slot_opens]. rewrite lookup_insert_eq. specialize (Hop v). lia.
    + intros [d|] Hp; [|done]. cbn. rewrite lookup_insert_ne; [done|]. intros Heq. apply (Hold _ Hp). by rewrite Heq.
  - intros j d [(-> & [= <-] & _)|[_ Hj]]%list_lookup_insert_Some; [split; [lia|rewrite lookup_insert_eq; by eexists]|].
    destruct (o4 j d Hj). split; [lia|]. rewrite lookup_insert_ne; [done|lia].
  - intros j k d [(-> & [= <-] & _)|[_ Hj]]%list_lookup_insert_Some [(-> & Hd & _)|[_ Hk]]%list_lookup_insert_Some; [done|..].
    + destruct (o4 k _ Hk). lia.
    + injection Hd as Hd. destruct (o4 j _ Hj). lia.
    + by eapply o5.
  - intros j d y H3 [(-> & [= <-] & _)|[_ Hj]]%list_lookup_insert_Some Hy; [rewrite lookup_insert_eq in Hy; injection Hy as <-; by apply Hv|].
    destruct (o4 j d Hj). rewrite lookup_insert_ne in Hy by lia. by eapply o6.
Qed.

Lemma slot_run st i p : f_list st !! i = Some p → slot i st = Done (p, st).
Proof. intros Hi. unfold slot, kbind, kgets, kderef. by rewrite Hi. Qed.

(** *** The standard descriptors *)

Lemma init_one_ok st i flags :
  files_ok st → (i < 3)%nat →
  ∃ st' d, init_one i flags st = Done (tt, st') ∧ files_ok st' ∧ f_list st' = <[i := Some d]> (f_list st) ∧ ∀ v, loose (f_vfs st') v = loose (f_vfs st) v.
Proof.
  intros Hok Hi. assert (Hp : cstring console) by (by repeat constructor).
  destruct (open_keeps (f_vfs st) console flags 0 (fo_vfs _ Hok) Hp) as (r & x & E & G & _).
  eexists _, (f_next st). split; [unfold init_one; by rewrite (kbind_run _ _ _ _ _ (on_vfs_run _ _ _ _ E))|].
  split; [|split; [done|intros v; cbn [f_vfs]; rewrite (go_loose _ _ _ _ G v); unfold none; lia]].
  eapply (install_ok st x _ i); [exact Hok|apply lookup_lt_is_Some; rewrite (fo_length _ Hok); unfold FD_MAX; lia|intros; lia| |by apply G|done].
  intros v. cbn [fd_vfile]. rewrite (go_opens _ _ _ _ G v). pose proof (fo_opens _ Hok v). unfold opened, got. destruct r; [unfold none; lia|lia].
Qed.
Lemma init_STD_ok st :
  files_ok st →
  ∃ st' d0 d1 d2, init_STD st = Done (tt, st') ∧ files_ok st' ∧
    f_list st' = <[2%nat := Some d2]> (<[1%nat := Some d1]> (<[0%nat := Some d0]> (f_list st))) ∧ ∀ v, loose (f_vfs st') v = loose (f_vfs st) v.
Proof.
  intros H0. destruct (init_one_ok st 0 O_RDONLY H0 ltac:(lia)) as (st1 & d0 & E1 & H1 & L1 & V1).
  destruct (init_one_ok st1 1 O_WRONLY H1 ltac:(lia)) as (st2 & d1 & E2 & H2 & L2 & V2).
  destruct (init_one_ok st2 2 O_WRONLY H2 ltac:(lia)) as (st3 & d2 & E3 & H3 & L3 & V3).
  exists st3, d0, d1, d2. split; [unfold init_STD; by rewrite (kbind_run _ _ _ _ _ E1), (kbind_run _ _ _ _ _ E2), E3|]. split; [done|].
  split; [by rewrite L3, L2, L1|]. intros v. by rewrite V3, V2, V1.
Qed.

(** *** Opening *)

Lemma find_slot_some k l n :
  find_slot k l = Some n → ∃ j, n = (k + j)%nat ∧ l !! j = Some None ∧ ∀ i, (i < j)%nat → ∃ d, l !! i = Some (Some d).
Proof.
  revert k. induction l as [|[d|] l IH]; intros k H; [done| |injection H as <-; exists 0%nat; split_and!; [lia|done|lia]].
  simpl in H. destruct (IH _ H) as (j & -> & Hj & Hb). exists (Datatypes.S j). split_and!; [lia|done|].
  intros [|i] Hi; [by exists d|]. apply Hb. lia.
Qed.

(** The lowest free descriptor. *)
Definition lowest (l : list (option nat)) (n : nat) : Prop :=
  (3 ≤ n < FD_MAX)%nat ∧ l !! n = Some None ∧ ∀ j, (3 ≤ j < n)%nat → l !! j ≠ Some None.
Lemma find_slot_lowest l n : length l = FD_MAX → find_slot 3 (drop 3 l) = Some n → lowest l n.
Proof.
  intros Hl (j & -> & Hj & Hb)%find_slot_some. rewrite lookup_drop in Hj. split_and!; [lia| |done|].
  - apply lookup_lt_Some in Hj. lia.
  - intros i Hi He. destruct (Hb (i - 3)%nat) as [d Hd]; [lia|]. rewrite lookup_drop in Hd. replace (3 + (i - 3))%nat with i in Hd by lia. congruence.
Qed.

Definition standard st : Prop := ∃ d, f_list st !! 0%nat = Some (Some d).
Lemma ensure_run st : standard st → ensure_STD st = Done (tt, st).
Proof. intros [d Hd]. unfold ensure_STD. by rewrite (kbind_run _ _ _ _ _ (slot_run st 0 _ Hd)). Qed.

(** What opening may do. *)
Definition opens_file (fname : list Z) (flags : Z) st (r : Z + Z) st' : Prop :=
  match r with
  | inl e => f_list st' = f_list st ∧ f_store st' = f_store st ∧ ∀ v, opens (f_vfs st') v = opens (f_vfs st) v
  | inr i => ∃ n d v, i = Z.of_nat n ∧ lowest (f_list st) n ∧ f_list st' = <[n := Some d]> (f_list st) ∧
      f_store st' !! d = Some (Fd i fname flags (Vn v)) ∧ ∀ w, opens (f_vfs st') w = opens (f_vfs st) w + one v w
  end.

Lemma sys_open_ok st fname flags mode :
  files_ok st → standard st → cstring fname →
  ∃ r st', sys_open (Some (inr fname)) flags mode st = Done (r, st') ∧ files_ok st' ∧ opens_file fname flags st r st' ∧
    ∀ v, loose (f_vfs st') v = loose (f_vfs st) v.
Proof.
  intros Hok Hstd Hp. unfold sys_open. rewrite (kbind_run _ _ _ _ _ (ensure_run st Hstd)). cbv zeta.
  destruct (_ || _); [by exists (inl EFAULT), st|]. destruct (flag flags APPEND); [by exists (inl EINVAL), st|].
  change (kbind (kgets f_list) ?f st) with (f (f_list st) st). cbn beta.
  destruct (find_slot 3 (drop 3 (f_list st))) as [n|] eqn:Hn; [|by exists (inl EMFILE), st].
  apply (find_slot_lowest _ _ (fo_length _ Hok)) in Hn as Hlow.
  destruct (open_keeps (f_vfs st) fname flags mode (fo_vfs _ Hok) Hp) as (r & x & E & G & _).
  rewrite (kbind_run _ _ _ _ _ (on_vfs_run _ _ _ _ E)).
  assert (HL : ∀ v, loose x v = loose (f_vfs st) v) by (intros v; rewrite (go_loose _ _ _ _ G v); unfold none; lia).
  destruct r as [e|v].
  - eexists (inl e), _. split; [done|]. split; [apply (vfs_step st x _ _ Hok G); intros v; cbn; unfold none; lia|]. split; [|done].
    split; [done|]. split; [done|]. intros v. cbn [f_vfs]. rewrite (go_opens _ _ _ _ G v). cbn [opened got]. unfold none. lia.
  - eexists (inr _), _. split; [done|]. split; [|split; [|done]].
    + eapply (install_ok st x _ n (Fd (Z.of_nat n) fname flags (Vn v))); [exact Hok|exists None; exact (proj1 (proj2 Hlow))|intros _; by exists v| |by apply G|reflexivity].
      intros w. cbn [fd_vfile]. rewrite (go_opens _ _ _ _ G w). pose proof (fo_opens _ Hok w). cbn [opened got]. lia.
    + exists n, (f_next st), v. split; [done|]. split; [done|]. split; [done|]. split; [cbn; apply lookup_insert_eq|]. intros w. cbn [f_vfs]. by rewrite (go_opens _ _ _ _ G w).
Qed.

(** *** Closing *)

Lemma deref_run st d x : f_store st !! d = Some x → deref (Some d) st = Done (x, st).
Proof. intros Hd. unfold deref, kbind, kgets, kderef. by rewrite Hd. Qed.

(** The slot is emptied and the open it stood for is gone. *)
Lemma remove_ok_slot st (x : vfs S) i d y v :
  files_ok st → f_list st !! i = Some (Some d) → f_store st !! d = Some y → fd_vfile y = Vn v →
  vfs_ok x → (∀ w, opens x w = opens (f_vfs st) w - one v w) →
  files_ok (Files x (<[d := Fd (fd_fid y) (fd_name y) (fd_flag y) Null]> (f_store st)) (f_next st) (<[i := None]> (f_list st))).
Proof.
  intros [o1 o2 o3 o4 o5 o6] Hi Hd Hy Hx Hop.
  assert (Hother : ∀ j, <[i := None]> (f_list st) !! j ≠ Some (Some d)).
  { intros j [(_ & ? & _)|[Hne Hj]]%list_lookup_insert_Some; [done|]. by apply Hne, (o5 i j d). }
  assert (Hsame : ∀ j e, <[i := None]> (f_list st) !! j = Some (Some e) → f_list st !! j = Some (Some e)).
  { intros j e [(_ & ? & _)|[_ Hj]]%list_lookup_insert_Some; done. }
  assert (Hne : ∀ j e, <[i := None]> (f_list st) !! j = Some (Some e) → e ≠ d) by (intros j e Hj ->; by apply (Hother j)).
  constructor; cbn [f_vfs f_store f_next f_list].
  - done.
  - by rewrite length_insert.
  - intros w. rewrite Hop. rewrite (total_ext _ (slot_opens (f_store st) w)).
    + rewrite (total_insert _ _ i None _ Hi). specialize (o3 w). cbn [slot_opens]. rewrite Hd, Hy. lia.
    + intros [e|] [j Hj]%list_elem_of_lookup_1; [|done]. cbn. rewrite lookup_insert_ne; [done|]. intros Heq. by apply (Hne j e).
  - intros j e Hj. destruct (o4 j e (Hsame j e Hj)). split; [done|]. rewrite lookup_insert_ne; [done|]. intros Heq. by apply (Hne j e).
  - intros j k e Hj Hk. apply (o5 j k e); by apply Hsame.
  - intros j e z H3 Hj Hz. rewrite lookup_insert_ne in Hz by (intros Heq; by apply (Hne j e)). by apply (o6 j e z H3 (Hsame j e Hj)).
Qed.

Lemma sys_close_ok st (n : nat) :
  files_ok st → (3 ≤ n < FD_MAX)%nat →
  ∃ st', sys_close (Z.of_nat n) st = Done (0, st') ∧ files_ok st' ∧ f_list st' = <[n := None]> (f_list st) ∧
    (∀ v, loose (f_vfs st') v = loose (f_vfs st) v) ∧
    (∀ v, opens (f_vfs st') v = opens (f_vfs st) v - slot_opens (f_store st) v (mjoin (f_list st !! n))).
Proof.
  intros Hok Hn. unfold sys_close. rewrite (proj2 (Z.ltb_ge _ _)) by lia. rewrite (proj2 (Z.ltb_ge (Z.of_nat FD_MAX) _)) by lia. cbn [orb].
  rewrite Nat2Z.id. destruct (lookup_lt_is_Some_2 (f_list st) n) as [p Hp]; [rewrite (fo_length _ Hok); lia|].
  rewrite (kbind_run _ _ _ _ _ (slot_run st n p Hp)). rewrite Hp. cbn [mjoin option_join]. destruct p as [d|].
  2: { exists st. split; [done|]. split; [done|]. rewrite list_insert_id by done. split; [done|]. split; [done|]. intros v. cbn. lia. }
  destruct (fo_there _ Hok n d Hp) as [_ [y Hy]]. destruct (fo_vnode _ Hok n d y ltac:(lia) Hp Hy) as [v Hv].
  rewrite (kbind_run _ _ _ _ _ (deref_run st d y Hy)), Hv. cbn [close_vfile].
  assert (Hop : 0 < opens (f_vfs st) v).
  { pose proof (fo_opens _ Hok v) as Ht. pose proof (total_member _ _ n _ (slot_opens_pos (f_store st) v) Hp) as Hm. cbn in Hm. rewrite Hy, Hv, one_self in Hm. lia. }
  destruct (close_keeps (f_vfs st) v (fo_vfs _ Hok) Hop) as ([] & x & E & G & _).
  rewrite (kbind_run _ _ _ _ _ (on_vfs_run _ _ _ _ E)). eexists. split; [done|]. split.
  - apply (remove_ok_slot st x n d y v Hok Hp Hy Hv); [by apply G|]. intros w. rewrite (go_opens _ _ _ _ G w). unfold minus. lia.
  - split; [done|]. cbn [f_vfs slot_opens]. rewrite Hy, Hv. split; intros w.
    + rewrite (go_loose _ _ _ _ G w). unfold none. lia.
    + rewrite (go_opens _ _ _ _ G w). unfold minus. lia.
Qed.
End Props.

