(* ===== verification/FileCalls.v ===== *)
(** * Reading, forking and closing descriptors

    Three consequences of the definitions of Files.v: what [read] returns and
    where it reads, what closing a descriptor in a child does to the parent,
    and the concrete runs, with SFS below. *)

From stdpp Require Import base numbers list gmap sets.
From Stdlib Require Import ZArith Lia.
From S2P Require Import Prelude CString Bitmap Uio Device SfsDisk Sfs SfsBlocks SfsFile SfsIo SfsInv SfsOps SfsSpec SfsExample SfsTheorems Vfs VfsRefs SfsLayer Files.

Open Scope Z_scope.
Open Scope kernel_scope.

(** ** Shared descriptors *)

Section Fork.
Context {S : Type} {V : VnodeState S} {L : VnodeLayer S} (bump : nat → K S unit).

(** The child's list is the parent's, pointer for pointer. *)
Lemma copy_fdlist_same l (st : files S) l' st' :
  copy_fdlist bump l st = Done (l', st') → l' = l ∧ f_store st' = f_store st ∧ f_list st' = f_list st.
Proof.
  revert st l' st'. induction l as [|[d|] l IH]; intros st l' st' H; simpl in H; [by injection H as <- <-|..].
  - apply kbind_Done in H as (x & st1 & Hx & H). apply kbind_Done in Hx as (? & ? & [[= <-] <-]%kderef_Done & Hx).
    apply kbind_Done in Hx as (? & ? & [= <- <-] & [Hs <-]%kderef_Done). apply kbind_Done in H as ([] & st2 & Hb & H).
    apply kbind_Done in H as (r & st3 & Hr & H). injection H as <- <-. destruct (IH _ _ _ Hr) as (-> & H2 & H3).
    destruct (fd_vfile x); [|done..]. unfold on_vfs, kzoom in Hb. destruct (below _ _) as [[? ?]| | |]; [|done..]. by injection Hb as _ <-.
  - apply kbind_Done in H as (r & st1 & Hr & H). injection H as <- <-. by destruct (IH _ _ _ Hr) as (-> & ? & ?).
Qed.
End Fork.


(** ** Reading *)

Section Read.
Context (cur : option nat) {D : Type} {DV : Device D} {BD : BlockDevice cur D}.
Abbreviation fs := (@sfs_fs D).
Implicit Types (st : files fs).

Lemma kbuf_fits buf rw : Z.of_nat (length buf) < 2 ^ 32 → uio_fits cur (length buf) (uio_kinit buf 0 rw).
Proof.
  intros Hl. unfold uio_fits, uio_good, room, uio_kinit. cbn [uio_segflg uio_space uio_resid uio_iov uio_offset concat]. rewrite app_nil_r.
  assert (Hu : u32 (Z.of_nat (length buf)) = Z.of_nat (length buf)) by (nowrap; lia). rewrite Hu. split_and!; (done || lia).
Qed.

(** Descriptor [n] stands for the file [ino] of the volume. *)
Record reads_file (R : gset Z) (a : afs) st (n : nat) (ino : Z) (bytes : list Z) (z : Z) : Prop := {
  rf_rep : represents cur R a (v_below (f_vfs st));
  rf_std : standard st;
  rf_slot : (n < FD_MAX)%nat;
  rf_fd : ∃ d x w, f_list st !! n = Some (Some d) ∧ f_store st !! d = Some x ∧ fd_vfile x = Vn w ∧ refers a w ino;
  rf_file : a_files a !! ino = Some (bytes, z) ∧ z ≤ MAXSIZE
}.

Lemma sys_read_run R a st n ino bytes z buf :
  reads_file R a st n ino bytes z → Z.of_nat (length buf) < 2 ^ 32 →
  let k := Z.to_nat (Z.min (Z.of_nat (length buf)) z) in
  ∃ u st', sys_read (Sfs.vop_read cur) (Z.of_nat n) buf st = Done ((inr (Z.of_nat (length buf) - Z.of_nat k), u), st') ∧
    uio_done u = take k bytes ∧ reads_file R a st' n ino bytes z.
Proof.
  intros [Hrep Hstd Hn (d & x & w & Hs & Hx & Hv & Hw) [Hf Hz]] Hl k. set (u := uio_kinit buf 0 UIO_READ).
  assert (Hr : uio_resid u = Z.of_nat (length buf)) by (cbn; nowrap; lia).
  destruct (read_run cur R a _ w ino bytes z Hrep Hw Hf u) as (u' & s' & E & Hrep' & M).
  { split; [destruct Hw as (i & o & ?); by eexists|]. split; [done|]. split; [rewrite Hr, Nat2Z.id; by apply kbuf_fits|]. split; [lia|].
    intros ino' d' z' Hw' Hf'. pose proof (refers_fun _ _ _ _ Hw Hw'). subst ino'. rewrite Hf in Hf'. by injection Hf' as <- <-. }
  rewrite Hr in M. change (uio_offset u) with 0 in M. rewrite Z.sub_0_r in M. fold k in M. destruct M as [_ _ m3 _ _ _ m7 _].
  eexists u', (Files (set_below s' (f_vfs st)) (f_store st) (f_next st) (f_list st)). split.
  - unfold sys_read. rewrite (kbind_run _ _ _ _ _ (ensure_run st Hstd)). cbv zeta. fold u.
    assert (G : (Z.of_nat n <? 0) || (Z.of_nat FD_MAX <? Z.of_nat n) = false) by lia. rewrite G, Nat2Z.id.
    rewrite (kbind_run _ _ _ _ _ (slot_run st n _ Hs)), (kbind_run _ _ _ _ _ (deref_run st d x Hx)).
    assert (Hm : may (fd_flag x) O_RDONLY = true) by (unfold may, O_RDONLY; by rewrite Z.land_0_r). rewrite Hm. cbn [negb andb]. rewrite Hv. cbn [through].
    rewrite (kbind_run _ _ _ _ _ (on_vfs_run _ _ _ _ (below_run _ _ _ _ E))). cbn [negb Z.eqb]. by rewrite m3, Hr.
  - split; [rewrite m7; cbn [u uio_kinit uio_done app]; unfold slice; by rewrite drop_0|]. constructor; [exact Hrep'|done|done|by exists d, x, w|done].
Qed.
End Read.

(** C40. [read] of a file on a mounted volume starts at the beginning each
    time and returns how much of the buffer was left unfilled: two reads in
    a row deliver the same first bytes of the file, and both return 0 when the
    buffer was filled. *)
Theorem read_starts_over (cur : option nat) {D : Type} {DV : Device D} {BD : BlockDevice cur D}
    (R : gset Z) (a : afs) (st : files (@sfs_fs D)) (n : nat) (ino : Z) (bytes : list Z) (z : Z) (buf : list Z) :
  reads_file cur R a st n ino bytes z → Z.of_nat (length buf) < 2 ^ 32 →
  let k := Z.to_nat (Z.min (Z.of_nat (length buf)) z) in
  let rest := Z.of_nat (length buf) - Z.of_nat k in
  ∃ u1 st1 u2 st2,
    sys_read (Sfs.vop_read cur) (Z.of_nat n) buf st = Done ((inr rest, u1), st1) ∧ uio_done u1 = take k bytes ∧
    sys_read (Sfs.vop_read cur) (Z.of_nat n) buf st1 = Done ((inr rest, u2), st2) ∧ uio_done u2 = take k bytes.
Proof.
  intros Hr Hl k rest. destruct (sys_read_run cur R a st n ino bytes z buf Hr Hl) as (u1 & st1 & E1 & D1 & Hr1).
  destruct (sys_read_run cur R a st1 n ino bytes z buf Hr1 Hl) as (u2 & st2 & E2 & D2 & _).
  exists u1, st1, u2, st2. split; [exact E1|]. split; [exact D1|]. split; [exact E2|exact D2].
Qed.

(** ** Concrete processes *)

(** Nothing open yet. *)
Definition fresh_files : files exfs := Files (here 1 0) ∅ 0 (replicate FD_MAX None).

Lemma total_none f n : f None = 0 → total f (replicate n None) = 0.
Proof. intros Hf. induction n as [|n IH]; [done|]. simpl. lia. Qed.
Lemma fresh_slot n i d : replicate n None !! i ≠ Some (Some d : option nat).
Proof. intros [Hx _]%lookup_replicate_1. done. Qed.
Lemma fresh_files_ok : files_ok fresh_files.
Proof.
  constructor; cbn [fresh_files f_vfs f_list f_store f_next]; [apply here_ok; lia|by rewrite length_replicate|..].
  - intros v. rewrite total_none by done. unfold opens. cbn [here v_below]. destruct (here_refs 1 0 v) as [_ ->]; [lia..|]. by destruct v as [|[|v]].
  - intros i d Hi. by apply fresh_slot in Hi.
  - intros i j d Hi. by apply fresh_slot in Hi.
  - intros i d x _ Hi. by apply fresh_slot in Hi.
Qed.


(** The file is open as descriptors 0 and 3. *)
Definition two_open (k : Z) : files exfs :=
  Files (here k 2) {[0%nat := Fd 0 name_a O_RDONLY (Vn 1); 1%nat := Fd 3 name_a O_RDWR (Vn 1)]} 2
    ([Some 0%nat; None; None; Some 1%nat] ++ replicate 124 None).

Lemma two_open_slot k i d : f_list (two_open k) !! i = Some (Some d) → (i = 0%nat ∧ d = 0%nat) ∨ (i = 3%nat ∧ d = 1%nat).
Proof.
  cbn [two_open f_list]. intros Hi. destruct i as [|[|[|[|i]]]]; simpl in Hi; simplify_eq; [by left|by right|]. by apply (fresh_slot 124) in Hi.
Qed.
Lemma two_open_ok k : 2 ≤ k → files_ok (two_open k).
Proof.
  intros Hk. constructor; [apply here_ok; lia|done|..].
  - intros v. change (f_list (two_open k)) with ([Some 0%nat; None; None; Some 1%nat] ++ replicate 124 None). cbn [app total].
    rewrite total_none by done. unfold opens. cbn [two_open f_vfs here v_below]. destruct (here_refs k 2 v) as [_ ->]; [lia..|].
    cbn [slot_opens two_open f_store]. rewrite lookup_insert_eq, lookup_insert_ne, lookup_singleton_eq by done. cbn [fd_vfile]. unfold one.
    destruct v as [|[|v]]; repeat case_bool_decide; simplify_eq; lia.
  - intros i d [[-> ->]|[-> ->]]%two_open_slot; (split; [cbn; lia|by eexists]).
  - intros i j d [[-> ->]|[-> ->]]%two_open_slot [[-> ?]|[-> ?]]%two_open_slot; done.
  - intros i d x _ [[-> ->]|[-> ->]]%two_open_slot Hx; vm_compute in Hx; injection Hx as <-; by eexists.
Qed.

(** [fd_vfile->vn_refcount++]. *)
Definition bump (v : nat) : K exfs unit := modvn v (λ sv, set_refcount (vn_refcount sv + 1) sv).


(** Five bytes, read twice into a buffer of two. *)
Lemma read_starts_over_witness :
  ∃ u1 st1 u2 st2,
    sys_read (Sfs.vop_read None) 3 [0; 0] (two_open 2) = Done ((inr 0, u1), st1) ∧
    sys_read (Sfs.vop_read None) 3 [0; 0] st1 = Done ((inr 0, u2), st2) ∧ uio_done u1 = uio_done u2.
Proof.
  destruct (read_starts_over None reserved (view {[0%nat := (1, 1, 0); 1%nat := (3, 2, 2)]}) (two_open 2) 3 3 file_bytes 5 [0; 0])
    as (u1 & st1 & u2 & st2 & E1 & D1 & E2 & D2).
  - constructor; [exact (table_represents 2 2 ltac:(lia) ltac:(lia))|by exists 0%nat|unfold FD_MAX; lia| |].
    + exists 1%nat, (Fd 3 name_a O_RDWR (Vn 1)), 1%nat. split_and!; [done|done|done|by exists 2, 2].
    + split; [apply lookup_singleton_eq|unfold MAXSIZE; lia].
  - cbn. lia.
  - exists u1, st1, u2, st2. split; [exact E1|]. split; [exact E2|]. by rewrite D1, D2.
Defined.
