(* ===== verification/Proc.v ===== *)
(** * Processes and the process table (kern/proc/proc.c)

    [p_array] holds a descriptor for each process identifier in use; an
    index that holds NULL is absent from the map.  [proc_create] takes the
    first free one.  What the code does not initialise is a parameter. *)

From Stdlib Require Import String.
From stdpp Require Import base numbers list gmap fin_maps.
From Stdlib Require Import ZArith Lia.
From S2P Require Import Prelude KernelHeap Wchan Synch.

Open Scope Z_scope.
Open Scope kernel_scope.

(** ** Data *)

Definition PID_MIN : Z := 2.
Definition PID_MAX : Z := 32767.
(** The rounds of [for (i = __PID_MIN; i < __PID_MAX; i++)]. *)
Definition NPIDS : nat := Z.to_nat (PID_MAX - PID_MIN).
Definition OPEN_MAX : nat := 128.

Record pd := Pd {
  pd_self : Z;
  pd_parent_pid : Z;
  pd_pid : Z;
  pd_exitcode : Z;
  pd_exiting : bool;
  pd_cv : option cv;
  pd_lock : option lock
}.
Definition sizeof_pd : Z := 24.

(** Threads, address spaces, vnodes and open files by number. *)
Record proc := Proc {
  p_self : Z;
  p_name : Z * string;
  p_threads : list nat;
  p_addrspace : option nat;
  p_cwd : option nat;
  p_pid : Z;
  p_fdlist : list (option nat)
}.
Definition sizeof_proc : Z := 548.

(** What freshly allocated memory holds where nothing is stored. *)
Record garbage := Garbage { g_pid : Z; g_parent_pid : Z; g_owner : option nat }.

Record ptable (H : Type) := PTable { pt_heap : H; pt_array : gmap Z pd }.
Arguments PTable {H} _ _.
Arguments pt_heap {H} _.
Arguments pt_array {H} _.

Section Proc.
Context {H : Type} {HH : KernelHeap H}.

Definition on_heap {A} (c : K H A) : K (ptable H) A := kzoom pt_heap (λ h s, PTable h (pt_array s)) c.
Definition set_array (f : gmap Z pd → gmap Z pd) : K (ptable H) unit := kmodify (λ s, PTable (pt_heap s) (f (pt_array s))).

(** ** Operations *)

(** [for (i = 0; i < __PID_MAX; i++) p_array[i] = NULL]. *)
Definition proc_array_init : K (ptable H) unit :=
  set_array (λ a, foldl (λ a i, delete (Z.of_nat i) a) a (seq 0 (Z.to_nat PID_MAX))).

(** The loop that finds the first available pid; [n] rounds are left. *)
Fixpoint assign_pid (g : garbage) (n : nat) (i : Z) : K (ptable H) Z :=
  match n with
  | O => kret (g_pid g)
  | S n =>
      a <- kgets pt_array ;;
      match a !! i with
      | Some _ => assign_pid g n (i + 1)
      | None =>
          pid <- on_heap (kmalloc sizeof_pd) ;;
          pid <- kderef pid ;;
          lock <- on_heap (lock_create (g_owner g) "lock") ;;
          cv <- on_heap (cv_create "lock") ;;
          set_array <[i := Pd pid (g_parent_pid g) i 0 false cv lock]> ;;
          kret i
      end
  end.

Definition proc_create (g : garbage) (name : string) : K (ptable H) (option proc) :=
  proc <- on_heap (kmalloc sizeof_proc) ;;
  match proc with
  | None => kret None
  | Some proc =>
      p_name <- on_heap (kstrdup name) ;;
      match p_name with
      | None => on_heap (kfree (Some proc)) ;; kret None
      | Some p_name =>
          pid <- assign_pid g NPIDS PID_MIN ;;
          kret (Some (Proc proc p_name [] None None pid (replicate OPEN_MAX None)))
      end
  end.

(** An access [p_array[pid]->...]. *)
Definition descriptor (pid : Z) : K (ptable H) pd := a <- kgets pt_array ;; kderef (a !! pid).

Definition valid_pid (curpid pid : Z) : K (ptable H) Z :=
  if (pid <? 0) || (PID_MAX <? pid) then kret ESRCH
  else
    a <- kgets pt_array ;;
    match a !! pid with
    | None => kret ESRCH
    | Some d => if pd_parent_pid d =? curpid then kret ECHILD else kret 0
    end.

Definition has_exit_code (pid : Z) : K (ptable H) bool := d <- descriptor pid ;; kret (pd_exiting d).
Definition get_exit_code (pid : Z) : K (ptable H) Z := d <- descriptor pid ;; kret (pd_exitcode d).
Definition set_exit_code (curpid code : Z) : K (ptable H) unit :=
  d <- descriptor curpid ;;
  set_array <[curpid := Pd (pd_self d) (pd_parent_pid d) (pd_pid d) code true (pd_cv d) (pd_lock d)]>.
Definition set_parent (parent child : Z) : K (ptable H) unit :=
  d <- descriptor child ;;
  set_array <[child := Pd (pd_self d) parent (pd_pid d) (pd_exitcode d) (pd_exiting d) (pd_cv d) (pd_lock d)]>.

(** [cv_destroy] and [lock_destroy] assert that there is something to destroy. *)
Definition release_pid (pid : Z) : K (ptable H) unit :=
  d <- descriptor pid ;;
  match pd_cv d with None => kpanic | Some c => on_heap (cv_destroy c) end ;;
  match pd_lock d with None => kpanic | Some l => on_heap (lock_destroy l) end ;;
  set_array (delete pid).

Definition sys_getpid (curproc : proc) : Z := p_pid curproc.

(** [sys_waitpid] up to [acquire_lock]: the error, or 0. *)
Definition waitpid_checks (curpid pid status options : Z) : K (ptable H) Z :=
  result <- valid_pid curpid pid ;;
  if negb (result =? 0) then kret result
  else if negb (options =? 0) then kret EINVAL
  else if negb (Z.rem (i32 status) 4 =? 0) then kret EFAULT
  else kret 0.

(** ** Lemmas *)

Lemma on_heap_Done {A} (c : K H A) s a s' :
  on_heap c s = Done (a, s') → c (pt_heap s) = Done (a, pt_heap s') ∧ pt_array s' = pt_array s.
Proof. unfold on_heap, kzoom. destruct (c (pt_heap s)) as [[? ?]| | |]; [|done..]. by intros [= <- <-]. Qed.

Lemma on_heap_bind {A B} (c : K H A) (f : A → K (ptable H) B) s :
  kbind (on_heap c) f s =
  match c (pt_heap s) with Done (a, h) => f a (PTable h (pt_array s)) | Panic => Panic | Undef => Undef | Hang => Hang end.
Proof. unfold kbind, on_heap, kzoom. by destruct (c (pt_heap s)) as [[? ?]| | |]. Qed.

(** Runs that stay inside the language. *)
Definition stays {S A} (c : K S A) (s : S) : Prop := c s ≠ Undef ∧ c s ≠ Hang.
Lemma stays_bind {S A B} (c : K S A) (f : A → K S B) s :
  stays c s → (∀ a s', c s = Done (a, s') → stays (f a) s') → stays (kbind c f) s.
Proof. unfold stays, kbind. intros [? ?] Hf. destruct (c s) as [[a s']| | |]; [by apply Hf|done..]. Qed.
Lemma stays_ret {S A} (a : A) (s : S) : stays (kret a) s.
Proof. done. Qed.
Lemma stays_heap {A} (c : K H A) s : stays c (pt_heap s) → stays (on_heap c) s.
Proof. unfold stays, on_heap, kzoom. destruct (c (pt_heap s)) as [[? ?]| | |]; naive_solver. Qed.
Lemma stays_kfree h p : heap_ok h → p ∈ allocated h → stays (kfree (Some p)) h.
Proof. intros Hok Hp. destruct (kfree_some h p Hok Hp) as (h' & E & _). unfold stays. by rewrite E. Qed.

Lemma stays_kstrdup h name : heap_ok h → short_name name → stays (kstrdup name) h.
Proof.
  intros Hok Hs. unfold short_name in Hs. apply stays_bind; [|by intros [] ?].
  apply (kmalloc_defined h); [done|]. unfold heap_size. nowrap. lia.
Qed.
Lemma stays_wchan_create h name : heap_ok h → stays (wchan_create name) h.
Proof. intros Hok. apply stays_bind; [by apply (kmalloc_defined h), small_size|]. by intros [] ?. Qed.

Lemma stays_create {A} size name (mk : Z → Z * string → Z * wchan → A) h :
  heap_ok h → heap_size size → short_name name → stays (create_named size name mk) h.
Proof.
  intros Hok Hsz Hs. apply stays_bind; [by apply (kmalloc_defined h)|]. intros [p|] h1 Hm; [|done].
  destruct (kmalloc_some _ _ _ _ Hok Hsz Hm) as (Hok1 & _ & Ha1).
  apply stays_bind; [by apply stays_kstrdup|]. intros n h2 Hn. destruct (kstrdup_spec _ _ _ _ Hok1 Hs Hn) as [Hok2 Hn2].
  destruct n as [[n s]|]; [|apply stays_bind; [apply stays_kfree; [done|set_solver]|done]].
  destruct Hn2 as (-> & Hf2 & Ha2). apply stays_bind; [by apply stays_wchan_create|]. intros w h3 Hw.
  destruct (wchan_create_spec _ _ _ _ Hok2 Hw) as [Hok3 Hw3]. destruct w as [w|]; [done|].
  apply stays_bind; [apply stays_kfree; [done|set_solver]|]. intros [] h4 Hk.
  destruct (kfree_some h3 n Hok3) as (h4' & E4 & Hok4 & Ha4); [set_solver|]. cbn [fst] in Hk. rewrite E4 in Hk. injection Hk as ->.
  apply stays_bind; [apply stays_kfree; [done|set_solver]|done].
Qed.

(** ** The pid loop *)

(** The first free pid at [i] or above, [n] of them looked at. *)
Definition first_free (a : gmap Z pd) (i : Z) (n : nat) (r : Z) : Prop :=
  i ≤ r < i + Z.of_nat n ∧ a !! r = None ∧ ∀ j, i ≤ j < r → is_Some (a !! j).
Definition all_taken (a : gmap Z pd) (i : Z) (n : nat) : Prop := ∀ j, i ≤ j < i + Z.of_nat n → is_Some (a !! j).
(** The descriptor a new process gets. *)
Definition new_pd (g : garbage) (r : Z) (d : pd) : Prop :=
  pd_pid d = r ∧ pd_parent_pid d = g_parent_pid g ∧ pd_exitcode d = 0 ∧ pd_exiting d = false ∧
  ∀ l, pd_lock d = Some l → lk_data l = LockData false (g_owner g).

Lemma short_lock : short_name "lock".
Proof. done. Qed.
#[local] Hint Resolve short_lock : core.

Definition new_lock (g : garbage) : K H (option lock) :=
  create_named sizeof_lock "lock" (λ p n w, Lock p n w None (LockData false (g_owner g))).
Definition new_cv : K H (option cv) := create_named sizeof_cv "lock" (λ p n w, Cv p n w None).

Lemma take_pid_spec g n i s r s' :
  heap_ok (pt_heap s) → pt_array s !! i = None → assign_pid g (S n) i s = Done (r, s') →
  r = i ∧ heap_ok (pt_heap s') ∧ ∃ d, new_pd g i d ∧ pt_array s' = <[i := d]> (pt_array s) ∧
  pd_self d ∉ allocated (pt_heap s) ∧ {[pd_self d]} ∪ allocated (pt_heap s) ⊆ allocated (pt_heap s').
Proof.
  intros Hok Hi Hc. cbn [assign_pid] in Hc. change (kbind (kgets pt_array) ?f s) with (f (pt_array s) s) in Hc. cbn beta in Hc.
  rewrite Hi in Hc. apply kbind_Done in Hc as (p & s1 & [Hm A1]%on_heap_Done & Hc).
  apply kbind_Done in Hc as (? & ? & [-> <-]%kderef_Done & Hc).
  destruct (kmalloc_some _ _ _ _ Hok (small_size sizeof_pd ltac:(done)) Hm) as (Hok1 & Hf1 & Ha1).
  apply kbind_Done in Hc as (l & s2 & [Hl A2]%on_heap_Done & Hc). change (new_lock g (pt_heap s1) = Done (l, pt_heap s2)) in Hl.
  destruct (create_named_spec _ _ _ _ _ _ Hok1 (small_size sizeof_lock ltac:(done)) short_lock Hl) as [Hok2 Hl2].
  apply kbind_Done in Hc as (c & s3 & [Hv A3]%on_heap_Done & Hc). change (new_cv (pt_heap s2) = Done (c, pt_heap s3)) in Hv.
  destruct (create_named_spec _ _ _ _ _ _ Hok2 (small_size sizeof_cv ltac:(done)) short_lock Hv) as [Hok3 Hv3].
  injection Hc as <- <-. split; [done|]. split; [exact Hok3|]. eexists. split; [|split; [cbn; by rewrite A3, A2, A1|]].
  - split_and!; [done..|]. cbn. intros l' ->. by destruct Hl2 as (? & ? & ? & -> & _).
  - cbn. split; [done|].
    assert (allocated (pt_heap s1) ⊆ allocated (pt_heap s2)) by (destruct l; [destruct Hl2 as (? & ? & ? & ? & ? & ? & ? & ? & ->)|rewrite Hl2]; set_solver).
    assert (allocated (pt_heap s2) ⊆ allocated (pt_heap s3)) by (destruct c; [destruct Hv3 as (? & ? & ? & ? & ? & ? & ? & ? & ->)|rewrite Hv3]; set_solver).
    set_solver.
Qed.

Lemma assign_pid_step g n i s d : pt_array s !! i = Some d → assign_pid g (S n) i s = assign_pid g n (i + 1) s.
Proof. intros Hi. cbn [assign_pid]. change (kbind (kgets pt_array) ?f s) with (f (pt_array s) s). cbn beta. by rewrite Hi. Qed.

(** Either there is a free pid, and the loop comes to the first, or none. *)
Lemma assign_pid_walk g n i s :
  (all_taken (pt_array s) i n ∧ assign_pid g n i s = Done (g_pid g, s)) ∨
  ∃ r m, first_free (pt_array s) i n r ∧ assign_pid g n i s = assign_pid g (S m) r s.
Proof.
  revert i. induction n as [|n IH]; intros i; [left; split; [|done]; intros j Hj; lia|].
  destruct (pt_array s !! i) as [d|] eqn:Hi; [|right; exists i, n; split; [|done]; split_and!; [lia|lia|done|lia]].
  rewrite (assign_pid_step g n i s d Hi). destruct (IH (i + 1)) as [[Ht E]|(r & m & (Hr & Hf & Hb) & E)].
  - left. split; [|done]. intros j Hj. destruct (decide (j = i)) as [->|]; [by exists d|]. apply Ht. lia.
  - right. exists r, m. split; [|done]. split; [lia|]. split; [done|]. intros j Hj.
    destruct (decide (j = i)) as [->|]; [by exists d|]. apply Hb. lia.
Qed.

(** The allocation of the descriptor is not checked. *)
Lemma take_pid_undef g n i s :
  heap_ok (pt_heap s) → pt_array s !! i = None →
  assign_pid g (S n) i s ≠ Hang ∧
  (assign_pid g (S n) i s = Undef ↔ ∃ h', kmalloc sizeof_pd (pt_heap s) = Done (None, h')).
Proof.
  intros Hok Hi. cbn [assign_pid]. change (kbind (kgets pt_array) ?f s) with (f (pt_array s) s). cbn beta. rewrite Hi.
  destruct (kmalloc_defined (pt_heap s) sizeof_pd Hok (small_size sizeof_pd ltac:(done))) as [Hu Hh].
  rewrite on_heap_bind. destruct (kmalloc sizeof_pd (pt_heap s)) as [[[p|] h1]| | |] eqn:Hm; [| | |done|done].
  2: { split; [done|]. split; [by exists h1|done]. }
  2: { split; [done|]. split; [done|by intros (? & ?)]. }
  destruct (kmalloc_some _ _ _ _ Hok (small_size sizeof_pd ltac:(done)) Hm) as (Hok1 & _ & _).
  cut (stays (lock <- on_heap (new_lock g) ;; cv <- on_heap new_cv ;; set_array <[i := Pd p (g_parent_pid g) i 0 false cv lock]> ;; kret i) (PTable h1 (pt_array s))).
  { intros [? ?]. split; [done|]. split; [done|by intros (? & ?)]. }
  apply stays_bind; [apply stays_heap, stays_create; [done|by apply small_size|done]|]. intros l s2 [Hl _]%on_heap_Done.
  destruct (create_named_spec _ _ _ _ _ _ Hok1 (small_size sizeof_lock ltac:(done)) short_lock Hl) as [Hok2 _].
  apply stays_bind; [apply stays_heap, stays_create; [done|by apply small_size|done]|]. by intros c s3 _.
Qed.

Lemma assign_pid_spec g n i s :
  heap_ok (pt_heap s) →
  assign_pid g n i s ≠ Hang ∧
  (assign_pid g n i s = Undef → (∃ r, first_free (pt_array s) i n r) ∧ ∃ h', kmalloc sizeof_pd (pt_heap s) = Done (None, h')) ∧
  ∀ r s', assign_pid g n i s = Done (r, s') →
    heap_ok (pt_heap s') ∧ allocated (pt_heap s) ⊆ allocated (pt_heap s') ∧
    ((first_free (pt_array s) i n r ∧ ∃ d, new_pd g r d ∧ pt_array s' = <[r := d]> (pt_array s)) ∨
     (all_taken (pt_array s) i n ∧ r = g_pid g ∧ pt_array s' = pt_array s)).
Proof.
  intros Hok. destruct (assign_pid_walk g n i s) as [[Ht ->]|(r0 & m & Hf & ->)].
  - split; [done|]. split; [done|]. intros r s' [= <- <-]. split; [done|]. split; [done|]. by right.
  - destruct (take_pid_undef g m r0 s Hok (proj1 (proj2 Hf))) as [Hh Hu]. split; [done|]. split.
    + intros ?%Hu. split; [by exists r0|done].
    + intros r s' Hd. destruct (take_pid_spec g m r0 s r s' Hok (proj1 (proj2 Hf)) Hd) as (-> & Hok' & d & Hn & Ha & _ & Hsub).
      split; [done|]. split; [set_solver|]. left. split; [done|]. by exists d.
Qed.

(** What [proc_create] does to the table. *)
Definition created (g : garbage) (name : string) (s s' : ptable H) (p : proc) : Prop :=
  p_self p ∉ allocated (pt_heap s) ∧ {[p_self p]} ∪ allocated (pt_heap s) ⊆ allocated (pt_heap s') ∧
  (p_name p).2 = name ∧ p_threads p = [] ∧ p_fdlist p = replicate OPEN_MAX None ∧
  ((first_free (pt_array s) PID_MIN NPIDS (p_pid p) ∧ ∃ d, new_pd g (p_pid p) d ∧ pt_array s' = <[p_pid p := d]> (pt_array s)) ∨
   (all_taken (pt_array s) PID_MIN NPIDS ∧ p_pid p = g_pid g ∧ pt_array s' = pt_array s)).

#[local] Opaque NPIDS.
Lemma proc_create_done g name s p s' :
  heap_ok (pt_heap s) → short_name name → proc_create g name s = Done (p, s') →
  heap_ok (pt_heap s') ∧
  match p with
  | None => allocated (pt_heap s') = allocated (pt_heap s) ∧ pt_array s' = pt_array s
  | Some p => created g name s s' p
  end.
Proof.
  intros Hok Hs Hc. apply kbind_Done in Hc as (q & s1 & [Hm A1]%on_heap_Done & Hc).
  destruct q as [q|]; [|injection Hc as <- <-; by destruct (kmalloc_none _ _ _ Hok (small_size sizeof_proc ltac:(done)) Hm)].
  destruct (kmalloc_some _ _ _ _ Hok (small_size sizeof_proc ltac:(done)) Hm) as (Hok1 & Hf1 & Ha1).
  apply kbind_Done in Hc as (z & s2 & [Hz A2]%on_heap_Done & Hc). destruct (kstrdup_spec _ _ _ _ Hok1 Hs Hz) as [Hok2 Hz2].
  destruct z as [[z nm]|].
  - destruct Hz2 as (-> & Hfz & Haz). apply kbind_Done in Hc as (r & s3 & Hr & Hc). injection Hc as <- <-.
    destruct (assign_pid_spec g NPIDS PID_MIN s2 Hok2) as (_ & _ & Hspec). destruct (Hspec r s3 Hr) as (Hok3 & Hsub & Hcase).
    rewrite A2, A1 in Hcase. split; [done|]. unfold created. cbn [p_self p_name p_threads p_fdlist p_pid snd].
    split; [done|]. split; [set_solver|]. split; [done|]. split; [done|]. split; [done|]. exact Hcase.
  - apply kbind_Done in Hc as ([] & s3 & [Hk A3]%on_heap_Done & Hc). injection Hc as <- <-.
    destruct (kfree_some (pt_heap s2) q Hok2) as (h' & E & Hok' & Ha'); [set_solver|]. rewrite E in Hk. injection Hk as <-.
    split; [done|]. split; [set_solver|]. by rewrite A3, A2, A1.
Qed.

Lemma proc_create_undef g name s :
  heap_ok (pt_heap s) → short_name name →
  proc_create g name s ≠ Hang ∧
  (proc_create g name s = Undef →
   (∃ r, first_free (pt_array s) PID_MIN NPIDS r) ∧ ∃ h h', heap_ok h ∧ kmalloc sizeof_pd h = Done (None, h')).
Proof.
  intros Hok Hs. unfold proc_create. rewrite on_heap_bind.
  destruct (kmalloc_defined (pt_heap s) sizeof_proc Hok (small_size sizeof_proc ltac:(done))) as [Hu Hh].
  destruct (kmalloc sizeof_proc (pt_heap s)) as [[[q|] h1]| | |] eqn:Hm; [|done..].
  destruct (kmalloc_some _ _ _ _ Hok (small_size sizeof_proc ltac:(done)) Hm) as (Hok1 & Hf1 & Ha1).
  rewrite on_heap_bind. cbn [pt_heap pt_array]. destruct (stays_kstrdup h1 name Hok1 Hs) as [Hu1 Hh1].
  destruct (kstrdup name h1) as [[z h2]| | |] eqn:Hz; [|done..]. destruct (kstrdup_spec _ _ _ _ Hok1 Hs Hz) as [Hok2 Hz2].
  destruct z as [z|].
  - destruct (assign_pid_spec g NPIDS PID_MIN (PTable h2 (pt_array s)) Hok2) as (H1 & H2 & _). unfold kbind.
    destruct (assign_pid g NPIDS PID_MIN _) as [[r s3]| | |]; [done|done| |done]. split; [done|]. intros _.
    destruct (H2 eq_refl) as [Hfree [h' Hk]]. split; [done|]. by exists h2, h'.
  - rewrite on_heap_bind. cbn [pt_heap pt_array]. destruct (kfree_some h2 q Hok2) as (h' & -> & _); [set_solver|done].
Qed.
End Proc.

(** ** What creating a process promises *)


Definition junk : garbage := Garbage (-559038737) 0 None.
Definition empty_table (budget : nat) : ptable refheap := PTable (empty_refheap budget) ∅.


(** A child as [fork] makes it, created and then told its parent, cannot
    be waited for by that parent: [waitpid] answers [ECHILD], whatever its other
    arguments; [valid_pid] lets every other process through. *)
Theorem own_child_refused {H} {HH : KernelHeap H} (g : garbage) (name : string) (s s1 : ptable H) (p : proc) (cur : Z) :
  heap_ok (pt_heap s) → short_name name → ¬ all_taken (pt_array s) PID_MIN NPIDS →
  proc_create g name s = Done (Some p, s1) →
  ∃ s2, set_parent cur (p_pid p) s1 = Done (tt, s2) ∧
    (∀ status options, waitpid_checks cur (p_pid p) status options s2 = Done (ECHILD, s2)) ∧
    (∀ other, other ≠ cur → valid_pid other (p_pid p) s2 = Done (0, s2)).
Proof.
  intros Hok Hs Hfree Hc. destruct (proc_create_done g name s (Some p) s1 Hok Hs Hc) as (_ & _ & _ & _ & _ & _ & Hcase).
  destruct Hcase as [((Hr & _) & d & _ & Ha)|[Hall _]]; [|done].
  assert (Hin : (p_pid p <? 0) || (PID_MAX <? p_pid p) = false).
  { assert (Hn : Z.of_nat NPIDS = 32765) by (vm_compute; reflexivity). rewrite Hn in Hr. unfold PID_MIN, PID_MAX in *. lia. }
  assert (Hl : pt_array s1 !! p_pid p = Some d) by (rewrite Ha; apply lookup_insert_eq).
  eexists. split; [unfold set_parent, descriptor, kbind, kgets; by rewrite Hl|]. split.
  - intros st op. unfold waitpid_checks, valid_pid. rewrite Hin. unfold kbind, kgets. cbn [pt_array].
    rewrite lookup_insert_eq. cbn [pd_parent_pid]. by rewrite Z.eqb_refl.
  - intros other Ho. unfold valid_pid. rewrite Hin. unfold kbind, kgets. cbn [pt_array].
    rewrite lookup_insert_eq. cbn [pd_parent_pid]. by rewrite (proj2 (Z.eqb_neq cur other)) by congruence.
Qed.

Lemma own_child_refused_witness :
  ∃ p s1 s2, proc_create junk "child" (empty_table 20) = Done (Some p, s1) ∧ set_parent 7 (p_pid p) s1 = Done (tt, s2) ∧
    waitpid_checks 7 (p_pid p) 0 0 s2 = Done (ECHILD, s2).
Proof.
  destruct (proc_create junk "child" (empty_table 20)) as [[[p|] s1]| | |] eqn:E; [|by vm_compute in E..].
  destruct (own_child_refused junk "child" (empty_table 20) s1 p 7 (empty_refheap_ok 20) ltac:(done)) as (s2 & Hp & Hw & _); [|exact E|].
  - intros Ht. destruct (Ht 2) as [d Hd]; [vm_compute; split; [done|reflexivity]|]. vm_compute in Hd. discriminate Hd.
  - exists p, s1, s2. split; [done|]. split; [exact Hp|]. apply Hw.
Defined.
