(* ===== verification/WaitExit.v ===== *)
(** * Waiting for a process (kern/syscall/waitpid_syscalls.c, exit_syscalls.c)

    One process calls [_exit]; any number of threads are in [waitpid] for it,
    past the checks.  The shared state is its entry in the process table, the
    lock and the condition variable in it, as CondVar.v specifies them.  Each
    statement that touches shared state is a step, and every step looks the
    entry up again, as the code does. *)

From stdpp Require Import base numbers list relations.
From Stdlib Require Import ZArith Lia.
From S2P Require Import Prelude CondVar.

Open Scope Z_scope.

(** ** Where the threads are *)

(** In [sys__exit]. *)
Inductive epc :=
  | ESet                      (** [set_exit_code(code)] *)
  | EEnter                    (** [acquire_lock(curproc->pid)]: the table *)
  | ELock                     (** [lock_acquire] *)
  | ESignal                   (** [wake_up(curproc->pid)] *)
  | EGone.                    (** in [thread_exit] *)
(** In [sys_waitpid]. *)
Inductive wpc :=
  | WEnter                    (** [acquire_lock(pid)]: the table *)
  | WLock                     (** [lock_acquire] *)
  | WTest                     (** [has_exit_code(pid)] *)
  | WSleep                    (** [put_to_sleep(pid)]: [cv_wait] *)
  | WAsleep
  | WReacq                    (** the end of [cv_wait]: [lock_acquire] *)
  | WStatus                   (** [get_exit_code(pid)] *)
  | WUnlock (c : Z)           (** [release_lock(pid)] *)
  | WRelease (c : Z)          (** [release_pid(pid)] *)
  | WReturned (c : Z).

#[global] Instance wpc_eq_dec : EqDecision wpc.
Proof. solve_decision. Defined.

Record wx := mk_wx {
  x_entry : bool;             (** [p_array[pid] != NULL] *)
  x_exiting : bool;
  x_code : Z;
  x_cv : cvspec;              (** the lock and the condition variable *)
  x_dead : bool;              (** they have been destroyed *)
  x_exit : epc;
  x_waiters : list wpc
}.

(** [_MKWAIT_EXIT], with [__WEXITED] 0. *)
Definition MKWAIT_EXIT (x : Z) : Z := i32 (Z.lor (Z.shiftl x 2) 0).

Definition with_exit (p : epc) (s : wx) : wx := mk_wx (x_entry s) (x_exiting s) (x_code s) (x_cv s) (x_dead s) p (x_waiters s).
Definition with_waiter (i : nat) (p : wpc) (s : wx) : wx := mk_wx (x_entry s) (x_exiting s) (x_code s) (x_cv s) (x_dead s) (x_exit s) (<[i := p]> (x_waiters s)).
Definition with_cv (a : cvspec) (s : wx) : wx := mk_wx (x_entry s) (x_exiting s) (x_code s) a (x_dead s) (x_exit s) (x_waiters s).

(** An access through the table. *)
Definition entry (s : wx) (s' : option (outcome wx)) : option (outcome wx) := if x_entry s then s' else Some Undef.
(** [lock_acquire]: waits while somebody has the lock. *)
Definition take_lock (t : nat) (s s' : wx) : option (outcome wx) :=
  if x_dead s then Some Undef
  else match cv_spec (Locks t) (x_cv s) with Some a => Some (Done (with_cv a s')) | None => None end.
(** What is asserted, then done, to the condition variable. *)
Definition on_cv (e : cevent) (s s' : wx) : option (outcome wx) :=
  Some (match cv_spec e (x_cv s) with Some a => Done (with_cv a s') | None => Panic end).

(** The thread the signal takes off the queue goes on. *)
Definition wake (woken : list nat) (s : wx) : option wx :=
  match woken with
  | [S i] => match x_waiters s !! i with Some WAsleep => Some (with_waiter i WReacq s) | _ => None end
  | [] => Some s
  | _ => None
  end.

(** The two stores of [set_exit_code] are one step: nobody reads the code
    before the flag, which is stored last. *)
Definition exit_next (code : Z) (s : wx) : option (outcome wx) :=
  match x_exit s with
  | ESet => entry s (Some (Done (mk_wx (x_entry s) true code (x_cv s) (x_dead s) EEnter (x_waiters s))))
  | EEnter => entry s (Some (Done (with_exit ELock s)))
  | ELock => take_lock 0 s (with_exit ESignal s)
  | ESignal =>
      let woken := (grab false (cs_queue (x_cv s))).1 in
      entry s (match wake woken s with
               | Some s' => on_cv (Signals 0 false woken) s (with_exit EGone s')
               | None => Some Undef
               end)
  | EGone => None
  end.

Definition waiter_next (i : nat) (s : wx) : option (outcome wx) :=
  match x_waiters s !! i with
  | None | Some WAsleep | Some (WReturned _) => None
  | Some WEnter => entry s (Some (Done (with_waiter i WLock s)))
  | Some WLock => take_lock (S i) s (with_waiter i WTest s)
  | Some WTest => entry s (Some (Done (with_waiter i (if x_exiting s then WStatus else WSleep) s)))
  | Some WSleep => entry s (on_cv (Waits (S i)) s (with_waiter i WAsleep s))
  | Some WReacq => take_lock (S i) s (with_waiter i WTest s)
  | Some WStatus => entry s (Some (Done (with_waiter i (WUnlock (MKWAIT_EXIT (x_code s))) s)))
  | Some (WUnlock c) => entry s (on_cv (Unlocks (S i)) s (with_waiter i (WRelease c) s))
  | Some (WRelease c) =>
      entry s (Some (if bool_decide (cs_queue (x_cv s) = [])
                     then Done (mk_wx false (x_exiting s) (x_code s) (x_cv s) true (x_exit s) (<[i := WReturned c]> (x_waiters s)))
                     else Panic))
  end.

(** The exiting thread is number 0, the waiter number [i] is [S i]. *)
Section Protocol.
Context (code : Z).

Definition next (t : nat) (s : wx) : option (outcome wx) :=
  match t with O => exit_next code s | S i => waiter_next i s end.

(** Steps after which the machine still runs.  ([lock_destroy] may also stop it
    when somebody sleeps for the lock; such a run ends there.) *)
Definition wx_step (s s' : wx) : Prop := ∃ t, next t s = Some (Done s').
Definition start (n : nat) : wx := mk_wx true false 0 (CvSpec None []) false ESet (replicate n WEnter).

(** ** Who has the lock *)

Definition exit_has (p : epc) : bool := match p with ESignal | EGone => true | _ => false end.
(** What a waiter that left the loop knows. *)
Definition saw_exit (exiting : bool) (p : wpc) : Prop :=
  match p with
  | WStatus => exiting = true
  | WUnlock c | WRelease c | WReturned c => exiting = true ∧ c = MKWAIT_EXIT code
  | _ => True
  end.
Record wx_inv (s : wx) : Prop := {
  wi_exit : exit_has (x_exit s) = true ↔ cs_owner (x_cv s) = Some 0%nat;
  wi_reacq i : x_waiters s !! i = Some WReacq → cs_owner (x_cv s) = Some 0%nat;
  wi_set : x_exiting s = true → x_exit s ≠ ESet ∧ x_code s = code;
  wi_past i p : x_waiters s !! i = Some p → saw_exit (x_exiting s) p
}.

Lemma start_inv n : wx_inv (start n).
Proof.
  constructor; cbn; [done| |done|].
  - intros i [? _]%lookup_replicate_1. done.
  - intros i p [-> _]%lookup_replicate_1. done.
Qed.

Lemma entry_done s o s' : entry s o = Some (Done s') → o = Some (Done s').
Proof. unfold entry. by destruct (x_entry s). Qed.
Lemma take_lock_done t s s1 s' :
  take_lock t s s1 = Some (Done s') → cs_owner (x_cv s) = None ∧ s' = with_cv (CvSpec (Some t) (cs_queue (x_cv s))) s1.
Proof. unfold take_lock, cv_spec. destruct (x_dead s); [done|]. case_bool_decide; [|done]. by intros [= <-]. Qed.
Lemma unlocks_done t s s1 s' :
  on_cv (Unlocks t) s s1 = Some (Done s') → cs_owner (x_cv s) = Some t ∧ s' = with_cv (CvSpec None (cs_queue (x_cv s))) s1.
Proof. unfold on_cv, cv_spec. case_bool_decide; [|done]. by intros [= <-]. Qed.
Lemma waits_done t s s1 s' :
  on_cv (Waits t) s s1 = Some (Done s') → cs_owner (x_cv s) = Some t ∧ s' = with_cv (CvSpec None (cs_queue (x_cv s) ++ [t])) s1.
Proof. unfold on_cv, cv_spec. case_bool_decide; [|done]. by intros [= <-]. Qed.
Lemma signals_done t woken s s1 s' :
  on_cv (Signals t false woken) s s1 = Some (Done s') →
  cs_owner (x_cv s) = Some t ∧ s' = with_cv (CvSpec (cs_owner (x_cv s)) (grab false (cs_queue (x_cv s))).2) s1.
Proof. unfold on_cv, cv_spec. case_bool_decide as Hb; [|done]. destruct Hb. by intros [= <-]. Qed.
Lemma wake_some woken s s' :
  wake woken s = Some s' → s' = s ∨ ∃ i, x_waiters s !! i = Some WAsleep ∧ s' = with_waiter i WReacq s.
Proof.
  unfold wake. destruct woken as [|[|i] [|]]; try done; [intros [= <-]; by left|].
  destruct (x_waiters s !! i) as [[]|] eqn:E; try done. intros [= <-]. right. by exists i.
Qed.

(** A waiter moves; the exiting thread has the lock after as before. *)
Lemma inv_waiter s i p a en de :
  wx_inv s → (cs_owner a = Some 0%nat ↔ cs_owner (x_cv s) = Some 0%nat) →
  (p = WReacq → cs_owner (x_cv s) = Some 0%nat) → saw_exit (x_exiting s) p →
  wx_inv (mk_wx en (x_exiting s) (x_code s) a de (x_exit s) (<[i := p]> (x_waiters s))).
Proof.
  intros [He Hr Hs Hp] Ha Hre Hsaw. constructor; cbn.
  - by rewrite He, <-Ha.
  - intros j Hj. apply Ha. apply list_lookup_insert_Some in Hj as [(_ & Hq & _)|[_ Hj]]; [by apply Hre|]. by eapply Hr.
  - done.
  - intros j q [(_ & <- & _)|[_ Hj]]%list_lookup_insert_Some; [done|]. by eapply Hp.
Qed.

Lemma exit_keeps s s' : wx_inv s → exit_next code s = Some (Done s') → wx_inv s'.
Proof.
  intros Hi Hn. destruct (Hi) as [He Hr Hs Hp]. unfold exit_next in Hn. destruct (x_exit s) eqn:Ex.
  - apply entry_done in Hn as [= <-]. constructor; cbn; [done|done|done|].
    intros i p Hw. specialize (Hp i p Hw). destruct p; naive_solver.
  - apply entry_done in Hn as [= <-]. constructor; cbn; [done|done| |done]. intros Hx. by destruct (Hs Hx).
  - apply take_lock_done in Hn as [Ho ->]. constructor; cbn; [done|done| |done]. intros Hx. by destruct (Hs Hx).
  - apply entry_done in Hn. cbn [exit_has] in He. destruct (wake _ s) as [s1|] eqn:Hw; [|done].
    apply signals_done in Hn as [Ho ->]. apply wake_some in Hw as [->|(i & Hl & ->)].
    + constructor; cbn; [done|done| |done]. intros Hx. by destruct (Hs Hx).
    + destruct (inv_waiter s i WReacq (x_cv s) (x_entry s) (x_dead s) Hi ltac:(done) (λ _, Ho) I) as [? ? ? ?].
      constructor; cbn in *; [done|done| |done]. intros Hx. by destruct (Hs Hx).
  - done.
Qed.

Lemma waiter_keeps i s s' : wx_inv s → waiter_next i s = Some (Done s') → wx_inv s'.
Proof.
  intros Hi Hn. unfold waiter_next in Hn. destruct (x_waiters s !! i) as [p|] eqn:E; [|done].
  pose proof (wi_past s Hi i p E) as Hp. destruct p as [| | | | | | |c|c|c]; cbn [saw_exit] in Hp; try done.
  - apply entry_done in Hn as [= <-]. by apply (inv_waiter s i).
  - apply take_lock_done in Hn as [Ho ->]. apply (inv_waiter s i); [done| |done|done]. by rewrite Ho.
  - apply entry_done in Hn as [= <-]. apply (inv_waiter s i); [done|done| |]; by destruct (x_exiting s).
  - apply entry_done, waits_done in Hn as [Ho ->]. apply (inv_waiter s i); [done| |done|done]. by rewrite Ho.
  - apply take_lock_done in Hn as [Ho ->]. apply (inv_waiter s i); [done| |done|done]. by rewrite Ho.
  - apply entry_done in Hn as [= <-]. apply (inv_waiter s i); [done|done|done|]. split; [done|]. by rewrite (proj2 (wi_set s Hi Hp)).
  - apply entry_done, unlocks_done in Hn as [Ho ->]. apply (inv_waiter s i); [done| |done|done]. by rewrite Ho.
  - apply entry_done in Hn. case_bool_decide; [|done]. injection Hn as <-. by apply (inv_waiter s i).
Qed.

Lemma step_keeps s s' : wx_inv s → wx_step s s' → wx_inv s'.
Proof. intros Hi [[|i] Hn]; [by eapply exit_keeps|by eapply waiter_keeps]. Qed.
Lemma reach_keeps s s' : wx_inv s → rtc wx_step s s' → wx_inv s'.
Proof. intros Hi Hr. induction Hr as [|s s1 s2 H1 _ IH]; [done|]. by apply IH, (step_keeps s). Qed.

(** ** Waiters that are lost *)

Definition lost (s : wx) (i : nat) : Prop :=
  x_waiters s !! i = Some WAsleep ∨ x_waiters s !! i = Some WReacq ∨
  (exit_has (x_exit s) = true ∧ (x_waiters s !! i = Some WEnter ∨ x_waiters s !! i = Some WLock)).

(** The other threads' moves. *)
Lemma waiters_step j s s' :
  waiter_next j s = Some (Done s') → x_exit s' = x_exit s ∧ ∃ p, x_waiters s' = <[j := p]> (x_waiters s).
Proof.
  intros Hn. unfold waiter_next in Hn. destruct (x_waiters s !! j) as [[| | | | | | |c|c|c]|]; try done.
  - apply entry_done in Hn as [= <-]. split; [done|]. by eexists.
  - apply take_lock_done in Hn as [_ ->]. split; [done|]. by eexists.
  - apply entry_done in Hn as [= <-]. split; [done|]. by eexists.
  - apply entry_done, waits_done in Hn as [_ ->]. split; [done|]. by eexists.
  - apply take_lock_done in Hn as [_ ->]. split; [done|]. by eexists.
  - apply entry_done in Hn as [= <-]. split; [done|]. by eexists.
  - apply entry_done, unlocks_done in Hn as [_ ->]. split; [done|]. by eexists.
  - apply entry_done in Hn. case_bool_decide; [|done]. injection Hn as <-. split; [done|]. by eexists.
Qed.

Lemma lost_own_step i s s' : wx_inv s → lost s i → waiter_next i s = Some (Done s') → lost s' i.
Proof.
  intros Hi Hl Hn. pose proof Hn as Hn0. unfold waiter_next in Hn.
  destruct Hl as [E|[E|[Hx [E|E]]]]; rewrite E in Hn; [done|..].
  - apply take_lock_done in Hn as [Ho _]. by rewrite (wi_reacq s Hi i E) in Ho.
  - apply entry_done in Hn as [= <-]. right; right. split; [done|]. right. cbn.
    apply list_lookup_insert_eq. by eapply lookup_lt_Some.
  - apply take_lock_done in Hn as [Ho _]. by rewrite (proj1 (wi_exit s Hi) Hx) in Ho.
Qed.

Lemma lost_exit_step i s s' : lost s i → exit_next code s = Some (Done s') → lost s' i.
Proof.
  intros Hl Hn. unfold exit_next in Hn. unfold lost in *. destruct (x_exit s) eqn:Ex; try done.
  - apply entry_done in Hn as [= <-]. naive_solver.
  - apply entry_done in Hn as [= <-]. naive_solver.
  - apply take_lock_done in Hn as [_ ->]. naive_solver.
  - apply entry_done in Hn. destruct (wake _ s) as [s1|] eqn:Hw; [|done].
    apply signals_done in Hn as [_ ->]. apply wake_some in Hw as [->|(j & Hj & ->)]; [naive_solver|].
    cbn. destruct (decide (i = j)) as [->|Hne].
    + right; left. apply list_lookup_insert_eq. by eapply lookup_lt_Some.
    + rewrite list_lookup_insert_ne by done. naive_solver.
Qed.

Lemma lost_step i s s' : wx_inv s → lost s i → wx_step s s' → lost s' i.
Proof.
  intros Hi Hl [[|j] Hn]; [by eapply lost_exit_step|]. cbn in Hn.
  destruct (decide (i = j)) as [->|Hne]; [by eapply lost_own_step|].
  destruct (waiters_step _ _ _ Hn) as (Hx & p & Hw). unfold lost. rewrite Hx, Hw, list_lookup_insert_ne by done. exact Hl.
Qed.
Lemma lost_forever i s s' : wx_inv s → lost s i → rtc wx_step s s' → lost s' i.
Proof. intros Hi Hl Hr. induction Hr as [|s s1 s2 H1 _ IH]; [done|]. apply IH; [by eapply step_keeps|by eapply lost_step]. Qed.
End Protocol.

(** C27. A thread in [waitpid] that went to sleep for the exit code never
    returns, and neither does one that has not got the lock when the exiting
    thread has: the exiting thread keeps the lock for ever.  Those that do
    return do so after [set_exit_code] and report the exit code encoded. *)
Theorem waitpid_sleeps_forever (code : Z) (n : nat) (s : wx) :
  rtc (wx_step code) (start n) s →
  (∀ i s', lost s i → rtc (wx_step code) s s' → lost s' i) ∧
  (∀ i c, x_waiters s !! i = Some (WReturned c) → x_exit s ≠ ESet ∧ c = MKWAIT_EXIT code).
Proof.
  intros Hr. pose proof (reach_keeps _ _ _ (start_inv code n) Hr) as Hi. split.
  - intros i s' Hl Hr'. by eapply lost_forever.
  - intros i c Hw. destruct (wi_past _ _ Hi i _ Hw) as [Hx ->]. by destruct (wi_set _ _ Hi Hx).
Qed.

(** *** Two runs *)

Fixpoint follow (code : Z) (ts : list nat) (s : wx) : option wx :=
  match ts with
  | [] => Some s
  | t :: ts => match next code t s with Some (Done s') => follow code ts s' | _ => None end
  end.
Lemma follow_reach code ts s s' : follow code ts s = Some s' → rtc (wx_step code) s s'.
Proof.
  revert s. induction ts as [|t ts IH]; intros s Hf; [injection Hf as <-; by apply rtc_refl|]. cbn in Hf.
  destruct (next code t s) as [[s1| | |]|] eqn:E; try done. eapply rtc_l; [by exists t|]. by apply IH.
Qed.

(** The waiter comes first and sleeps; the process exits and signals; the
    waiter is still there.  A waiter that overtakes the exiting thread between
    its first two statements returns. *)
Lemma waitpid_sleeps_forever_witness :
  (∃ s', follow 3 [1; 1; 1; 1; 0; 0; 0; 0]%nat (start 1) = Some s' ∧ x_exit s' = EGone ∧
     ∀ s'', rtc (wx_step 3) s' s'' → lost s'' 0) ∧
  (∃ s', follow 3 [0; 1; 1; 1; 1; 1; 1]%nat (start 1) = Some s' ∧ x_waiters s' = [WReturned 12]).
Proof.
  split; eexists; (split; [vm_compute; reflexivity|]); [|done]. split; [done|]. intros s''.
  refine (proj1 (waitpid_sleeps_forever 3 1 _ (follow_reach 3 [1; 1; 1; 1; 0; 0; 0; 0]%nat _ _ _)) 0%nat s'' _).
  - vm_compute. reflexivity.
  - right; left. reflexivity.
Defined.
