(* ===== verification/UserMalloc.v ===== *)
(** * The user-level allocator (user/lib/libc/stdlib/malloc.c)

    First fit over a row of blocks, each with a header of two words: the
    distance to the header before it and to the one after it in units of eight
    bytes, a bit that says whether it is in use, and magic numbers.  The heap
    is word-addressed memory; [sbrk], a system call this kernel does not have,
    is a parameter with its documented behaviour.  [errx] ends the process,
    which is [Panic] here. *)

From stdpp Require Import base numbers list.
From Stdlib Require Import ZArith Lia.
From S2P Require Import Prelude.

Open Scope Z_scope.
Open Scope kernel_scope.

(** ** The break *)

(** man/syscall/sbrk.html: the old break is returned, the break moves by the
    amount; on error nothing moves.  User memory ends at 2 GB. *)
Class Break (B : Type) := {
  sbrk : Z → B → option Z * B;
  brk : B → Z;
  sbrk_some n b x b' : 0 ≤ n → brk b ≤ 2 ^ 31 → sbrk n b = (Some x, b') → x = brk b ∧ brk b' = brk b + n ∧ brk b' ≤ 2 ^ 31;
  sbrk_none n b b' : sbrk n b = (None, b') → brk b' = brk b;
  sbrk_zero b : sbrk 0 b = (Some (brk b), b)
}.

Record uheap (B : Type) := UHeap {
  um : Z → Z;                 (** the words of memory *)
  ub : B;
  heapbase : Z;
  heaptop : Z
}.
Arguments UHeap {B} _ _ _ _.
Arguments um {B} _ _.
Arguments ub {B} _.
Arguments heapbase {B} _.
Arguments heaptop {B} _.

Definition upd (m : Z → Z) (a v : Z) : Z → Z := λ x, if x =? a then v else m x.

Definition MBLOCKSIZE : Z := 8.
Definition MBLOCKSHIFT : Z := 3.
Definition MMAGIC : Z := 2.
Definition DEADBEEF : Z := 3735928559.

(** The fields of a header word: 29 bits, a bit, and two bits of magic. *)
Definition field_block (w : Z) : Z := Z.shiftr w MBLOCKSHIFT.
Definition field_flag (w : Z) : bool := Z.testbit w 2.
Definition field_magic (w : Z) : Z := Z.land w 3.
Definition put_block (v w : Z) : Z := Z.lor (Z.shiftl (v mod 2 ^ 29) MBLOCKSHIFT) (Z.land w 7).
Definition put_flag (b : bool) (w : Z) : Z := Z.lor (Z.ldiff w 4) (if b then 4 else 0).
Definition put_magic (v w : Z) : Z := Z.lor (Z.ldiff w 3) v.

Section Malloc.
Context {B : Type} {BK : Break B}.
Abbreviation M := (K (uheap B)).

Definition inside (st : uheap B) (a : Z) : bool := (heapbase st <=? a) && (a + 4 <=? heaptop st) && (a mod 4 =? 0).
Definition load (a : Z) : M Z := λ st, if inside st a then Done (um st a, st) else Undef.
Definition store (a v : Z) : M unit :=
  λ st, if inside st a then Done (tt, UHeap (upd (um st) a v) (ub st) (heapbase st) (heaptop st)) else Undef.
Definition modify (a : Z) (f : Z → Z) : M unit := w <- load a ;; store a (f w).

(** ** Headers *)

Definition mh_prevblock (mh : Z) : M Z := w <- load mh ;; kret (field_block w).
Definition mh_nextblock (mh : Z) : M Z := w <- load (mh + 4) ;; kret (field_block w).
Definition mh_inuse (mh : Z) : M bool := w <- load (mh + 4) ;; kret (field_flag w).
Definition set_prevblock (mh v : Z) : M unit := modify mh (put_block v).
Definition set_nextblock (mh v : Z) : M unit := modify (mh + 4) (put_block v).
Definition set_inuse (mh : Z) (b : bool) : M unit := modify (mh + 4) (put_flag b).
Definition set_pad (mh : Z) : M unit := modify mh (put_flag false).
Definition set_magic1 (mh : Z) : M unit := modify mh (put_magic MMAGIC).
Definition set_magic2 (mh : Z) : M unit := modify (mh + 4) (put_magic MMAGIC).

Definition M_OK (mh : Z) : M bool :=
  w1 <- load mh ;; w2 <- load (mh + 4) ;; kret ((field_magic w1 =? MMAGIC) && (field_magic w2 =? MMAGIC)).
Definition M_NEXTOFF (mh : Z) : M Z := n <- mh_nextblock mh ;; kret (u32 (Z.shiftl n MBLOCKSHIFT)).
Definition M_PREVOFF (mh : Z) : M Z := n <- mh_prevblock mh ;; kret (u32 (Z.shiftl n MBLOCKSHIFT)).
Definition M_NEXT (mh : Z) : M Z := n <- M_NEXTOFF mh ;; kret (u32 (mh + n)).
Definition M_PREV (mh : Z) : M Z := n <- M_PREVOFF mh ;; kret (u32 (mh - n)).
Definition M_DATA (mh : Z) : Z := u32 (mh + MBLOCKSIZE).
Definition M_SIZE (mh : Z) : M Z := n <- M_NEXTOFF mh ;; kret (u32 (n - MBLOCKSIZE)).
Definition M_MKFIELD (off : Z) : Z := Z.shiftr off MBLOCKSHIFT.

(** ** malloc *)

Definition set_base (base top : Z) : M unit := kmodify (λ st, UHeap (um st) (ub st) base top).
Definition call_sbrk (n : Z) : M (option Z) :=
  λ st, let '(x, b) := sbrk n (ub st) in Done (x, UHeap (um st) b (heapbase st) (heaptop st)).

Definition malloc_init : M unit :=
  st <- kget ;;
  kassert ((heapbase st =? 0) && (heaptop st =? 0)) ;;
  x <- call_sbrk 0 ;;
  match x with
  | None => kpanic
  | Some x =>
      kassert (negb (x =? 0)) ;;
      set_base x x ;;
      if negb (x mod MBLOCKSIZE =? 0) then
        let adjust := MBLOCKSIZE - x mod MBLOCKSIZE in
        y <- call_sbrk adjust ;;
        match y with
        | None => kpanic
        | Some y => kassert (y =? x) ;; set_base (u32 (x + adjust)) (u32 (x + adjust))
        end
      else kret tt
  end.

Definition malloc_sbrk (size : Z) : M (option Z) :=
  x <- call_sbrk (i32 size) ;;
  match x with
  | None => kret None
  | Some x =>
      st <- kget ;;
      kassert (x =? heaptop st) ;;
      set_base (heapbase st) (u32 (heaptop st + size)) ;;
      kret (Some x)
  end.

Definition malloc_split (mh size : Z) : M unit :=
  kassert (size mod MBLOCKSIZE =? 0) ;;
  msize <- M_SIZE mh ;;
  if u32 (msize - size) <? 2 * MBLOCKSIZE then kret tt
  else
    mhnext <- M_NEXT mh ;;
    oldsize <- M_SIZE mh ;;
    set_nextblock mh (M_MKFIELD (u32 (size + MBLOCKSIZE))) ;;
    mhnew <- M_NEXT mh ;;
    kassert (negb (mhnew =? mhnext)) ;;
    set_prevblock mhnew (M_MKFIELD (u32 (size + MBLOCKSIZE))) ;;
    set_pad mhnew ;;
    set_magic1 mhnew ;;
    set_nextblock mhnew (M_MKFIELD (u32 (oldsize - size))) ;;
    set_inuse mhnew false ;;
    set_magic2 mhnew ;;
    top <- kgets heaptop ;;
    if negb (mhnext =? top) then n <- mh_nextblock mhnew ;; set_prevblock mhnext n else kret tt.

(** The first-fit search: the data of the block found, or the size of the last
    block. *)
Fixpoint search (fuel : nat) (size i rightprevblock : Z) : M (Z + Z) :=
  match fuel with
  | O => khang
  | S fuel =>
      top <- kgets heaptop ;;
      if i <? top then
        ok <- M_OK i ;;
        kassert ok ;;
        prev <- mh_prevblock i ;;
        kassert (prev =? rightprevblock) ;;
        next <- mh_nextblock i ;;
        inuse <- mh_inuse i ;;
        msize <- M_SIZE i ;;
        if inuse || (msize <? size) then
          off <- M_NEXTOFF i ;; search fuel size (u32 (i + off)) next
        else
          malloc_split i size ;;
          set_inuse i true ;;
          kret (inl (M_DATA i))
      else
        kassert (i =? top) ;;
        kret (inr rightprevblock)
  end.

Definition malloc (size : Z) : M (option Z) :=
  base <- kgets heapbase ;;
  (if base =? 0 then malloc_init else kret tt) ;;
  st <- kget ;;
  kassert (negb (heapbase st =? 0) && negb (heaptop st =? 0) && (heapbase st <=? heaptop st)) ;;
  let size := Z.ldiff (u32 (size + MBLOCKSIZE - 1)) (MBLOCKSIZE - 1) in
  r <- search (S (Z.to_nat ((heaptop st - heapbase st) / MBLOCKSIZE))) size (heapbase st) 0 ;;
  match r with
  | inl p => kret (Some p)
  | inr rightprevblock =>
      mh <- malloc_sbrk (u32 (size + MBLOCKSIZE)) ;;
      match mh with
      | None => kret None
      | Some mh =>
          set_prevblock mh rightprevblock ;;
          set_magic1 mh ;;
          set_magic2 mh ;;
          set_pad mh ;;
          set_inuse mh true ;;
          set_nextblock mh (M_MKFIELD (u32 (size + MBLOCKSIZE))) ;;
          kret (Some (M_DATA mh))
      end
  end.

(** ** free *)

(** [n] words from [x] on. *)
Fixpoint deadbeef_loop (x : Z) (n : nat) : M unit :=
  match n with
  | O => kret tt
  | S n => store x DEADBEEF ;; deadbeef_loop (x + 4) n
  end.
Definition malloc_deadbeef (ptr size : Z) : M unit := deadbeef_loop ptr (Z.to_nat (size / 4)).

Definition malloc_trymerge (mh mhnext : Z) : M unit :=
  n <- mh_nextblock mh ;;
  p <- mh_prevblock mhnext ;;
  kassert (n =? p) ;;
  u1 <- mh_inuse mh ;;
  u2 <- mh_inuse mhnext ;;
  if u1 || u2 then kret tt
  else
    mhnextnext <- M_NEXT mhnext ;;
    s1 <- M_SIZE mh ;;
    s2 <- M_SIZE mhnext ;;
    set_nextblock mh (M_MKFIELD (u32 (MBLOCKSIZE + s1 + MBLOCKSIZE + s2))) ;;
    top <- kgets heaptop ;;
    (if negb (mhnextnext =? top) then n <- mh_nextblock mh ;; set_prevblock mhnextnext n else kret tt) ;;
    malloc_deadbeef mhnext 8.

Definition free (x : Z) : M unit :=
  if x =? 0 then kret tt
  else
    st <- kget ;;
    kassert (negb (heapbase st =? 0) && negb (heaptop st =? 0) && (heapbase st <=? heaptop st)) ;;
    kassert (negb ((x <? heapbase st) || (heaptop st <=? x))) ;;
    let mh := u32 (x - MBLOCKSIZE) in
    ok <- M_OK mh ;;
    kassert ok ;;
    inuse <- mh_inuse mh ;;
    kassert inuse ;;
    set_inuse mh false ;;
    size <- M_SIZE mh ;;
    malloc_deadbeef (M_DATA mh) size ;;
    mhnext <- M_NEXT mh ;;
    (if negb (mhnext =? heaptop st) then malloc_trymerge mh mhnext else kret tt) ;;
    if negb (mh =? heapbase st) then mhprev <- M_PREV mh ;; malloc_trymerge mhprev mh else kret tt.
End Malloc.

(** ** Header words *)

(** The word with block count [v] and flag [f], and the magic in place. *)
Definition enc (v : Z) (f : bool) : Z := v * 8 + (if f then 6 else 2).

Lemma low_bits p t m c :
  0 ≤ t < 8 → 0 ≤ m < 8 → 0 ≤ c < 8 → Z.lor (Z.ldiff (p * 8 + t) m) c = p * 8 + Z.lor (Z.ldiff t m) c.
Proof.
  intros Ht Hm Hc. pose proof (lor_fields p t 3 ltac:(lia) Ht) as E. change (2 ^ 3) with 8 in E.
  assert (Hr : 0 ≤ Z.lor (Z.ldiff t m) c < 8).
  { assert (Hx : ∀ x : Z, 0 ≤ x < 8 → x = 0 ∨ x = 1 ∨ x = 2 ∨ x = 3 ∨ x = 4 ∨ x = 5 ∨ x = 6 ∨ x = 7) by lia.
    destruct (Hx t Ht) as [->|[->|[->|[->|[->|[->|[->| ->]]]]]]]; destruct (Hx m Hm) as [->|[->|[->|[->|[->|[->|[->| ->]]]]]]];
      destruct (Hx c Hc) as [->|[->|[->|[->|[->|[->|[->| ->]]]]]]]; vm_compute; split; congruence. }
  pose proof (lor_fields p (Z.lor (Z.ldiff t m) c) 3 ltac:(lia) Hr) as E2. change (2 ^ 3) with 8 in E2. rewrite <- E, <- E2.
  apply Z.bits_inj'. intros n Hn. rewrite !Z.lor_spec, !Z.ldiff_spec, !Z.lor_spec.
  destruct (decide (n < 3)).
  - rewrite Z.shiftl_spec_low by lia. done.
  - assert (Hz : ∀ x, 0 ≤ x < 8 → Z.testbit x n = false).
    { intros x Hx. rewrite <- (Z.mod_small x (2 ^ 3)) by (change (2 ^ 3) with 8; lia). apply Z.mod_pow2_bits_high. lia. }
    rewrite (Hz t Ht), (Hz m Hm), (Hz c Hc). cbn [andb orb negb]. by rewrite ?andb_true_r, ?orb_false_r.
Qed.

Lemma small_cases (P : Z → Prop) t : 0 ≤ t < 8 → P 0 → P 1 → P 2 → P 3 → P 4 → P 5 → P 6 → P 7 → P t.
Proof.
  intros Ht. intros. assert (t = 0 ∨ t = 1 ∨ t = 2 ∨ t = 3 ∨ t = 4 ∨ t = 5 ∨ t = 6 ∨ t = 7) as [->|[->|[->|[->|[->|[->|[->| ->]]]]]]] by lia; done.
Qed.

Lemma put_block_low v p t : 0 ≤ v < 2 ^ 29 → 0 ≤ t < 8 → put_block v (p * 8 + t) = v * 8 + t.
Proof.
  intros Hv Ht. unfold put_block, MBLOCKSHIFT. rewrite Z.mod_small by done.
  assert (E : Z.land (p * 8 + t) 7 = t).
  { change 7 with (Z.ones 3). rewrite Z.land_ones by lia. change (2 ^ 3) with 8. rewrite Z.add_comm, Z.mod_add by lia. by apply Z.mod_small. }
  rewrite E. by rewrite (lor_fields v t 3) by lia.
Qed.
Lemma put_flag_low b p t : 0 ≤ t < 8 → put_flag b (p * 8 + t) = p * 8 + put_flag b t.
Proof. intros Ht. unfold put_flag. apply low_bits; [done|lia|destruct b; lia]. Qed.
Lemma put_magic_low p t : 0 ≤ t < 8 → put_magic MMAGIC (p * 8 + t) = p * 8 + put_magic MMAGIC t.
Proof. intros Ht. unfold put_magic, MMAGIC. apply low_bits; [done|lia|lia]. Qed.

Lemma put_block_enc v p f : 0 ≤ v < 2 ^ 29 → put_block v (enc p f) = enc v f.
Proof. intros Hv. unfold enc. apply put_block_low; [done|destruct f; lia]. Qed.
Lemma put_flag_enc b p f : put_flag b (enc p f) = enc p b.
Proof. unfold enc. rewrite put_flag_low by (destruct f; lia). f_equal. by destruct b, f. Qed.
(** Writing all three fields of a word, in the orders the code has. *)
Lemma fresh_word v b w : 0 ≤ v < 2 ^ 29 → put_magic MMAGIC (put_flag b (put_block v w)) = enc v b.
Proof.
  intros Hv. assert (Ht : 0 ≤ w mod 8 < 8) by (apply Z.mod_pos_bound; lia). rewrite (Z.div_mod w 8) at 1 by lia. rewrite (Z.mul_comm 8).
  rewrite put_block_low by done. rewrite put_flag_low by done. unfold enc. revert Ht. generalize (w mod 8). intros t Ht.
  assert (Hf : 0 ≤ put_flag b t < 8) by (apply (small_cases (λ t, 0 ≤ put_flag b t < 8) t Ht); destruct b; vm_compute; split; congruence).
  rewrite put_magic_low by done. f_equal. apply (small_cases (λ t, put_magic MMAGIC (put_flag b t) = if b then 6 else 2) t Ht); by destruct b.
Qed.
Lemma fresh_word' v w : 0 ≤ v < 2 ^ 29 → put_flag false (put_magic MMAGIC (put_block v w)) = enc v false.
Proof.
  intros Hv. assert (Ht : 0 ≤ w mod 8 < 8) by (apply Z.mod_pos_bound; lia). rewrite (Z.div_mod w 8) at 1 by lia. rewrite (Z.mul_comm 8).
  rewrite put_block_low by done. unfold enc. revert Ht. generalize (w mod 8). intros t Ht.
  assert (Hf : 0 ≤ put_magic MMAGIC t < 8) by (apply (small_cases (λ t, 0 ≤ put_magic MMAGIC t < 8) t Ht); vm_compute; split; congruence).
  rewrite put_magic_low, put_flag_low by done. f_equal. by apply (small_cases (λ t, put_flag false (put_magic MMAGIC t) = 2) t Ht).
Qed.
Lemma fresh_word'' v w : 0 ≤ v < 2 ^ 29 → put_block v (put_flag true (put_magic MMAGIC w)) = enc v true.
Proof.
  intros Hv. assert (Ht : 0 ≤ w mod 8 < 8) by (apply Z.mod_pos_bound; lia). rewrite (Z.div_mod w 8) at 1 by lia. rewrite (Z.mul_comm 8).
  revert Ht. generalize (w mod 8) (w / 8). intros t q Ht.
  assert (Hf : 0 ≤ put_magic MMAGIC t < 8) by (apply (small_cases (λ t, 0 ≤ put_magic MMAGIC t < 8) t Ht); vm_compute; split; congruence).
  rewrite put_magic_low, put_flag_low by done.
  assert (E : put_flag true (put_magic MMAGIC t) = 6) by (by apply (small_cases (λ t, put_flag true (put_magic MMAGIC t) = 6) t Ht)).
  rewrite E. unfold enc. apply put_block_low; lia.
Qed.

Lemma block_enc p f : field_block (enc p f) = p.
Proof. unfold field_block, enc, MBLOCKSHIFT. rewrite Z.shiftr_div_pow2 by lia. change (2 ^ 3) with 8. rewrite Z.add_comm, Z.div_add by lia. by destruct f. Qed.
Lemma flag_enc p f : field_flag (enc p f) = f.
Proof.
  unfold field_flag, enc. rewrite Z.testbit_odd, Z.shiftr_div_pow2 by lia. change (2 ^ 2) with 4.
  replace (p * 8 + (if f then 6 else 2)) with ((if f then 6 else 2) + (2 * p) * 4) by lia. rewrite Z.div_add by lia.
  rewrite Z.odd_add_mul_2. by destruct f.
Qed.
Lemma magic_enc p f : field_magic (enc p f) = MMAGIC.
Proof.
  unfold field_magic, enc, MMAGIC. change 3 with (Z.ones 2). rewrite Z.land_ones by lia. change (2 ^ 2) with 4.
  replace (p * 8 + (if f then 6 else 2)) with ((if f then 6 else 2) + (2 * p) * 4) by lia. rewrite Z.mod_add by lia. by destruct f.
Qed.

(** ** The row of blocks *)

(** A block: its length in units of 8 bytes, header included, and whether it
    is in use. *)
Abbreviation block := (Z * bool)%type.

(** The blocks [bs] lie from [a] on, the block before the first has length [p];
    they end at [a'], and the last has length [p']. *)
Fixpoint seg (m : Z → Z) (a p : Z) (bs : list block) (a' p' : Z) : Prop :=
  match bs with
  | [] => a' = a ∧ p' = p
  | (n, u) :: bs => m a = enc p false ∧ m (a + 4) = enc n u ∧ 1 ≤ n ∧ seg m (a + 8 * n) n bs a' p'
  end.
Fixpoint units (bs : list block) : Z := match bs with [] => 0 | (n, _) :: bs => n + units bs end.

(** The blocks in use, as their users know them: address and size. *)
Fixpoint busy (a : Z) (bs : list block) : list (Z * Z) :=
  match bs with
  | [] => []
  | (n, u) :: bs => (if u then [(a + 8, 8 * n - 8)] else []) ++ busy (a + 8 * n) bs
  end.
(** No two free blocks side by side. *)
Definition starts_free (bs : list block) : bool := match bs with (_, false) :: _ => true | _ => false end.
Fixpoint ends_free (bs : list block) : bool :=
  match bs with [] => false | [(_, u)] => negb u | _ :: bs => ends_free bs end.
Fixpoint coalesced (bs : list block) : bool :=
  match bs with [] => true | (_, u) :: bs => (u || negb (starts_free bs)) && coalesced bs end.
Lemma coalesced_app l r : coalesced (l ++ r) = coalesced l && coalesced r && negb (ends_free l && starts_free r).
Proof.
  induction l as [|[n u] l IH]; cbn [app coalesced ends_free]; [by rewrite andb_true_r|]. rewrite IH. destruct l as [|[n1 u1] l].
  - cbn [app coalesced ends_free starts_free negb]. destruct u, (starts_free r), (coalesced r); done.
  - change (starts_free (((n1, u1) :: l) ++ r)) with (starts_free ((n1, u1) :: l)). rewrite !andb_assoc. done.
Qed.

Lemma seg_end m a p bs a' p' : seg m a p bs a' p' → a' = a + 8 * units bs ∧ 0 ≤ units bs.
Proof.
  revert a p. induction bs as [|[n u] bs IH]; intros a p; cbn [seg units]; [intros [-> _]; lia|].
  intros (_ & _ & Hn & [-> ?]%IH). lia.
Qed.
Lemma seg_app m a p l r a' p' : seg m a p (l ++ r) a' p' ↔ ∃ b q, seg m a p l b q ∧ seg m b q r a' p'.
Proof.
  revert a p. induction l as [|[n u] l IH]; intros a p; cbn [app seg].
  - split; [intros H; by exists a, p|]. by intros (b & q & [-> ->] & H).
  - rewrite IH. split; [intros (H1 & H2 & H3 & b & q & H4 & H5)|intros (b & q & (H1 & H2 & H3 & H4) & H5)].
    + by exists b, q.
    + split_and!; [done..|]. by exists b, q.
Qed.
(** Only the words between its ends matter. *)
Lemma seg_frame m m' a p bs a' p' : seg m a p bs a' p' → (∀ w, a ≤ w < a' → m' w = m w) → seg m' a p bs a' p'.
Proof.
  revert a p. induction bs as [|[n u] bs IH]; intros a p; cbn [seg]; [done|]. intros (H1 & H2 & H3 & H4) Hf.
  destruct (seg_end _ _ _ _ _ _ H4). split_and!; [rewrite Hf by lia; done|rewrite Hf by lia; done|done|].
  apply IH; [done|]. intros w Hw. apply Hf. lia.
Qed.
(** The first header's distance to the one before. *)
Lemma seg_prev m m' a p q bs a' p' :
  bs ≠ [] → seg m a p bs a' p' → m' a = enc q false → (∀ w, a < w < a' → m' w = m w) → seg m' a q bs a' p'.
Proof.
  destruct bs as [|[n u] bs]; [done|]. cbn [seg]. intros _ (H1 & H2 & H3 & H4) Hq Hf. destruct (seg_end _ _ _ _ _ _ H4).
  split_and!; [done|rewrite Hf by lia; done|done|]. apply (seg_frame m); [done|]. intros w Hw. apply Hf. lia.
Qed.
Lemma busy_app a l r : busy a (l ++ r) = busy a l ++ busy (a + 8 * units l) r.
Proof.
  revert a. induction l as [|[n u] l IH]; intros a; cbn [app busy units]; [f_equal; lia|].
  rewrite IH, app_assoc. do 2 f_equal. lia.
Qed.
Lemma busy_within m a p bs a' p' q s : seg m a p bs a' p' → (q, s) ∈ busy a bs → a + 8 ≤ q ∧ q + s ≤ a' ∧ 0 ≤ s.
Proof.
  revert a p. induction bs as [|[n u] bs IH]; intros a p; cbn [seg busy]; [by intros _ ?%elem_of_nil|].
  intros (_ & _ & Hn & H) [Hu|Hb]%elem_of_app.
  - destruct (seg_end _ _ _ _ _ _ H). destruct u; [|by apply elem_of_nil in Hu]. apply list_elem_of_singleton in Hu as [= -> ->]. lia.
  - destruct (IH _ _ H Hb). lia.
Qed.

Section Spec.
Context {B : Type} {BK : Break B}.
Implicit Types (st : uheap B).

Record heap_rep (bs : list block) st : Prop := {
  hr_base : 0 < heapbase st ∧ heapbase st mod 8 = 0;
  hr_top : heaptop st ≤ 2 ^ 31;
  hr_brk : brk (ub st) = heaptop st;
  hr_seg : ∃ p', seg (um st) (heapbase st) 0 bs (heaptop st) p'
}.

Definition set_um st (m : Z → Z) : uheap B := UHeap m (ub st) (heapbase st) (heaptop st).

(** *** Running the accesses *)

Definition at_header st (a : Z) : Prop := heapbase st ≤ a ∧ a + 8 ≤ heaptop st ∧ a mod 8 = 0.
Lemma mod8_mod4 a k : a mod 8 = 0 → (a + 4 * k) mod 4 = 0.
Proof. intros H. rewrite (Z.div_mod a 8), H by lia. replace (8 * (a / 8) + 0 + 4 * k) with ((2 * (a / 8) + k) * 4) by lia. apply Z.mod_mul. lia. Qed.
Lemma inside_true st a : heapbase st ≤ a → a + 4 ≤ heaptop st → a mod 4 = 0 → inside st a = true.
Proof. intros H1 H2 H3. unfold inside. rewrite H3. apply andb_true_iff. split; [apply andb_true_iff; lia|done]. Qed.
Lemma load0 st a : at_header st a → load a st = Done (um st a, st).
Proof.
  intros (H1 & H2 & H3). unfold load. rewrite inside_true; [done|lia|lia|]. pose proof (mod8_mod4 a 0 H3) as H. by rewrite Z.mul_0_r, Z.add_0_r in H.
Qed.
Lemma load4 st a : at_header st a → load (a + 4) st = Done (um st (a + 4), st).
Proof. intros (H1 & H2 & H3). unfold load. rewrite inside_true; [done|lia|lia|]. exact (mod8_mod4 a 1 H3). Qed.
Lemma modify0 st a f : at_header st a → modify a f st = Done (tt, set_um st (upd (um st) a (f (um st a)))).
Proof.
  intros H. unfold modify. rewrite (kbind_run _ _ _ _ _ (load0 st a H)). unfold store. destruct H as (H1 & H2 & H3).
  rewrite inside_true; [done|lia|lia|]. pose proof (mod8_mod4 a 0 H3) as H. by rewrite Z.mul_0_r, Z.add_0_r in H.
Qed.
Lemma modify4 st a f : at_header st a → modify (a + 4) f st = Done (tt, set_um st (upd (um st) (a + 4) (f (um st (a + 4))))).
Proof.
  intros H. unfold modify. rewrite (kbind_run _ _ _ _ _ (load4 st a H)). unfold store. destruct H as (H1 & H2 & H3).
  rewrite inside_true; [done|lia|lia|]. exact (mod8_mod4 a 1 H3).
Qed.
Lemma set_um_set st m m' : set_um (set_um st m) m' = set_um st m'.
Proof. done. Qed.

(** A header that says: the block before has length [p], this one [n]. *)
Definition header st (a p n : Z) (u : bool) : Prop := at_header st a ∧ um st a = enc p false ∧ um st (a + 4) = enc n u ∧ 0 ≤ p < 2 ^ 28 ∧ 1 ≤ n < 2 ^ 28 ∧ a + 8 * n ≤ 2 ^ 31 ∧ 0 < a.

Section Header.
Context st (a p n : Z) (u : bool) (H : header st a p n u).
Lemma run_OK : M_OK a st = Done (true, st).
Proof using H.
  destruct H as (Ha & E1 & E2 & _). unfold M_OK. rewrite (kbind_run _ _ _ _ _ (load0 st a Ha)), (kbind_run _ _ _ _ _ (load4 st a Ha)).
  by rewrite E1, E2, !magic_enc.
Qed.
Lemma run_prevblock : mh_prevblock a st = Done (p, st).
Proof using H. destruct H as (Ha & E1 & E2 & _). unfold mh_prevblock. rewrite (kbind_run _ _ _ _ _ (load0 st a Ha)). by rewrite E1, block_enc. Qed.
Lemma run_nextblock : mh_nextblock a st = Done (n, st).
Proof using H. destruct H as (Ha & E1 & E2 & _). unfold mh_nextblock. rewrite (kbind_run _ _ _ _ _ (load4 st a Ha)). by rewrite E2, block_enc. Qed.
Lemma run_inuse : mh_inuse a st = Done (u, st).
Proof using H. destruct H as (Ha & E1 & E2 & _). unfold mh_inuse. rewrite (kbind_run _ _ _ _ _ (load4 st a Ha)). by rewrite E2, flag_enc. Qed.
Lemma run_NEXTOFF : M_NEXTOFF a st = Done (8 * n, st).
Proof using H.
  unfold M_NEXTOFF. rewrite (kbind_run _ _ _ _ _ run_nextblock). destruct H as (_ & _ & _ & _ & Hn & _). unfold MBLOCKSHIFT. rewrite Z.shiftl_mul_pow2 by lia. nowrap. unfold kret. do 2 f_equal. lia.
Qed.
Lemma run_PREVOFF : M_PREVOFF a st = Done (8 * p, st).
Proof using H.
  unfold M_PREVOFF. rewrite (kbind_run _ _ _ _ _ run_prevblock). destruct H as (_ & _ & _ & Hp & _). unfold MBLOCKSHIFT. rewrite Z.shiftl_mul_pow2 by lia. nowrap. unfold kret. do 2 f_equal. lia.
Qed.
Lemma run_NEXT : M_NEXT a st = Done (a + 8 * n, st).
Proof using H. unfold M_NEXT. rewrite (kbind_run _ _ _ _ _ run_NEXTOFF). destruct H as (_ & _ & _ & _ & Hn & Hb & Ha). by nowrap. Qed.
Lemma run_SIZE : M_SIZE a st = Done (8 * n - 8, st).
Proof using H. unfold M_SIZE, MBLOCKSIZE. rewrite (kbind_run _ _ _ _ _ run_NEXTOFF). destruct H as (_ & _ & _ & _ & Hn & Hb & Ha). by nowrap. Qed.
End Header.

Lemma word_upd_eq m a v : upd m a v a = v.
Proof. unfold upd. by rewrite Z.eqb_refl. Qed.
Lemma word_upd_ne m a v x : x ≠ a → upd m a v x = m x.
Proof. unfold upd. intros H. by rewrite (proj2 (Z.eqb_neq x a) H). Qed.
Lemma upd_upd m a v w x : upd (upd m a v) a w x = upd m a w x.
Proof. unfold upd. by destruct (x =? a). Qed.

(** The three writes of a header word leave one new word. *)
Lemma fresh_prev st a v :
  at_header st a → 0 ≤ v < 2 ^ 29 →
  ∃ m', (∀ w, m' w = upd (um st) a (enc v false) w) ∧
    ∀ A (k : K (uheap B) A), (set_prevblock a v ;; set_pad a ;; set_magic1 a ;; k) st = k (set_um st m').
Proof.
  intros H Hv. eexists. split; [|intros A k; unfold set_prevblock, set_pad, set_magic1].
  2: { rewrite (kbind_run _ _ _ _ _ (modify0 st a _ H)). set (st1 := set_um st _). assert (H1 : at_header st1 a) by done.
       rewrite (kbind_run _ _ _ _ _ (modify0 st1 a _ H1)). set (st2 := set_um st1 _). assert (H2 : at_header st2 a) by done.
       rewrite (kbind_run _ _ _ _ _ (modify0 st2 a _ H2)). unfold st2, st1. cbn [um set_um]. reflexivity. }
  intros w. cbn beta. rewrite !word_upd_eq, fresh_word by done. by rewrite !upd_upd.
Qed.
Lemma fresh_next st a v :
  at_header st a → 0 ≤ v < 2 ^ 29 →
  ∃ m', (∀ w, m' w = upd (um st) (a + 4) (enc v false) w) ∧
    ∀ A (k : K (uheap B) A), (set_nextblock a v ;; set_inuse a false ;; set_magic2 a ;; k) st = k (set_um st m').
Proof.
  intros H Hv. eexists. split; [|intros A k; unfold set_nextblock, set_inuse, set_magic2].
  2: { rewrite (kbind_run _ _ _ _ _ (modify4 st a _ H)). set (st1 := set_um st _). assert (H1 : at_header st1 a) by done.
       rewrite (kbind_run _ _ _ _ _ (modify4 st1 a _ H1)). set (st2 := set_um st1 _). assert (H2 : at_header st2 a) by done.
       rewrite (kbind_run _ _ _ _ _ (modify4 st2 a _ H2)). unfold st2, st1. cbn [um set_um]. reflexivity. }
  intros w. cbn beta. rewrite !word_upd_eq, fresh_word by done. by rewrite !upd_upd.
Qed.

(** Writing one field of a header. *)
Lemma run_set_next st a p n u v :
  header st a p n u → 0 ≤ v < 2 ^ 29 → set_nextblock a v st = Done (tt, set_um st (upd (um st) (a + 4) (enc v u))).
Proof. intros (Ha & E1 & E2 & _) Hv. unfold set_nextblock. rewrite modify4 by done. by rewrite E2, put_block_enc. Qed.
Lemma run_set_prev st a p n u v :
  header st a p n u → 0 ≤ v < 2 ^ 29 → set_prevblock a v st = Done (tt, set_um st (upd (um st) a (enc v false))).
Proof. intros (Ha & E1 & E2 & _) Hv. unfold set_prevblock. rewrite modify0 by done. by rewrite E1, put_block_enc. Qed.
Lemma run_set_inuse st a p n u b : header st a p n u → set_inuse a b st = Done (tt, set_um st (upd (um st) (a + 4) (enc n b))).
Proof. intros (Ha & E1 & E2 & _). unfold set_inuse. rewrite modify4 by done. by rewrite E2, put_flag_enc. Qed.

(** ** A block of the heap *)

Lemma seg_last m a p bs a' p' : seg m a p bs a' p' → 0 ≤ p < 2 ^ 28 → a' - a < 2 ^ 31 → 0 ≤ p' < 2 ^ 28.
Proof.
  revert a p. induction bs as [|[n u] bs IH]; intros a p; cbn [seg]; [by intros [_ ->]|]. intros (_ & _ & Hn & H) Hp Ha.
  destruct (seg_end _ _ _ _ _ _ H). apply (IH _ _ H); lia.
Qed.

(** A block in its place: the blocks below it, itself, and those above. *)
Record placed (l : list block) (n : Z) (u : bool) (r : list block) (a p p' : Z) st : Prop := {
  pl_addr : a = heapbase st + 8 * units l;
  pl_below : seg (um st) (heapbase st) 0 l a p;
  pl_above : seg (um st) (a + 8 * n) n r (heaptop st) p';
  pl_header : header st a p n u
}.
Lemma placed_at bs st l n u r a p p' :
  heap_rep bs st → seg (um st) (heapbase st) 0 l a p → seg (um st) a p ((n, u) :: r) (heaptop st) p' → placed l n u r a p p' st.
Proof.
  intros [[Hb Hm] Ht _ _] Hl H. cbn [seg] in H. destruct H as (E1 & E2 & Hn & Hr).
  destruct (seg_end _ _ _ _ _ _ Hl). destruct (seg_end _ _ _ _ _ _ Hr). constructor; [done|done|done|].
  split; [split_and!; [lia|lia|]|].
  - subst a. rewrite (Z.mul_comm 8), Z.mod_add by lia. done.
  - split; [done|]. split; [done|]. split; [apply (seg_last _ _ _ _ _ _ Hl); lia|]. split; [lia|]. lia.
Qed.
Lemma place st l n u r : heap_rep (l ++ (n, u) :: r) st → ∃ a p p', placed l n u r a p p' st.
Proof.
  intros H. destruct (hr_seg _ _ H) as [p' Hs]. apply seg_app in Hs as (a & p & Hl & Hs). exists a, p, p'. by apply (placed_at (l ++ (n, u) :: r)).
Qed.
(** The header of the block above, if there is one. *)
Lemma placed_next l n u n2 u2 r a p p' st :
  placed l n u ((n2, u2) :: r) a p p' st → heaptop st ≤ 2 ^ 31 → header st (a + 8 * n) n n2 u2 ∧ seg (um st) (a + 8 * n + 8 * n2) n2 r (heaptop st) p'.
Proof.
  intros [-> Hl Hr (Ha & E1 & E2 & Hp & Hn & Hb & H0)] Ht. cbn [seg] in Hr. destruct Hr as (F1 & F2 & Hn2 & Hr). destruct (seg_end _ _ _ _ _ _ Hr).
  destruct Ha as (A1 & A2 & A3). split; [|done]. split; [split_and!; [lia|lia|]|].
  - rewrite (Z.mul_comm 8 n), Z.mod_add by lia. done.
  - split; [done|]. split; [done|]. split; [lia|]. split; [lia|]. lia.
Qed.

Lemma header_upd st a p n u m :
  header st a p n u → (∀ w, a ≤ w < a + 8 → m w = um st w) → header (set_um st m) a p n u.
Proof. intros (Ha & E1 & E2 & Hr) Hm. split; [done|]. cbn [um set_um]. rewrite !Hm by lia. done. Qed.
Lemma mkfield_units n : 0 ≤ n < 2 ^ 29 → M_MKFIELD (u32 (8 * n)) = n.
Proof. intros Hn. unfold M_MKFIELD, MBLOCKSHIFT. nowrap. rewrite Z.shiftr_div_pow2 by lia. rewrite (Z.mul_comm 8). apply Z.div_mul. lia. Qed.

(** ** Splitting *)

(** What is left of a block of [n] units when [k] of data are wanted. *)
Definition cut (k n : Z) (u : bool) : list block :=
  if n - 1 - k <? 2 then [(n, u)] else [(k + 1, u); (n - 1 - k, false)].

(** The memory after a split. *)
Definition split_mem (m : Z → Z) (a k n top : Z) : Z → Z :=
  let b := a + 8 * (k + 1) in
  let m1 := upd (upd (upd m (a + 4) (enc (k + 1) false)) b (enc (k + 1) false)) (b + 4) (enc (n - 1 - k) false) in
  if a + 8 * n =? top then m1 else upd m1 (a + 8 * n) (enc (n - 1 - k) false).

Lemma split_run st l n r a p p' k :
  placed l n false r a p p' st → heaptop st ≤ 2 ^ 31 → 0 ≤ k ≤ n - 1 →
  ∃ m', malloc_split a (8 * k) st = Done (tt, set_um st m') ∧
    ∀ w, m' w = (if n - 1 - k <? 2 then um st else split_mem (um st) a k n (heaptop st)) w.
Proof.
  intros Hpl Ht Hk. destruct (Hpl) as [Ea Hl Hr Hh]. destruct (Hh) as ((A1 & A2 & A3) & E1 & E2 & Hp & Hn & Hb & H0). unfold malloc_split, MBLOCKSIZE.
  rewrite (Z.mul_comm 8 k), Z.mod_mul, (Z.mul_comm k 8) by lia. rewrite step_assert by (apply Z.eqb_refl). kcall (run_SIZE _ _ _ _ _ Hh). rewrite (u32_small (8 * n - 8 - 8 * k)) by lia.
  replace (8 * n - 8 - 8 * k <? 2 * 8) with (n - 1 - k <? 2) by (apply eq_true_iff_eq; rewrite !Z.ltb_lt; lia).
  destruct (Z.ltb_spec (n - 1 - k) 2); [exists (um st); split; [by destruct st|done]|].
  kcall (run_NEXT _ _ _ _ _ Hh). kcall (run_SIZE _ _ _ _ _ Hh).
  replace (8 * k + 8) with (8 * (k + 1)) by lia. replace (8 * n - 8 - 8 * k) with (8 * (n - 1 - k)) by lia. rewrite !mkfield_units by lia.
  kcall (run_set_next _ _ _ _ _ (k + 1) Hh ltac:(lia)). set (m1 := upd _ _ _).
  assert (Hh1 : header (set_um st m1) a p (k + 1) false).
  { split; [done|]. unfold m1. cbn [um set_um]. rewrite word_upd_eq, word_upd_ne by lia. repeat split; try done; lia. }
  kcall (run_NEXT _ _ _ _ _ Hh1). rewrite step_assert by (apply negb_true_iff, Z.eqb_neq; lia). set (b := a + 8 * (k + 1)).
  destruct (seg_end _ _ _ _ _ _ Hr) as [Et Hu].
  assert (Hat : at_header (set_um st m1) b).
  { unfold b. split_and!; cbn [heapbase heaptop set_um]; [lia|lia|]. rewrite (Z.mul_comm 8), Z.mod_add by lia. done. }
  destruct (fresh_prev _ b (k + 1) Hat ltac:(lia)) as (m2 & Hm2 & R2). rewrite R2.
  destruct (fresh_next (set_um (set_um st m1) m2) b (n - 1 - k) Hat ltac:(lia)) as (m3 & Hm3 & R3). rewrite R3. clear R2 R3.
  rewrite !set_um_set. cbn [um set_um] in Hm2, Hm3.
  assert (V : ∀ w, m3 w = upd (upd m1 b (enc (k + 1) false)) (b + 4) (enc (n - 1 - k) false) w).
  { intros w. rewrite Hm3. unfold upd at 1 2. by rewrite Hm2. }
  clear Hm2 Hm3. rewrite (kbind_run (kgets heaptop) _ (set_um st m3) (heaptop st) (set_um st m3) eq_refl). cbn beta. unfold split_mem.
  fold b. fold m1. destruct (Z.eqb_spec (a + 8 * n) (heaptop st)); cbn [negb]; [by exists m3|].
  assert (Hb' : header (set_um st m3) b (k + 1) (n - 1 - k) false).
  { split; [exact Hat|]. cbn [um set_um]. rewrite !V. unfold b in *. rewrite word_upd_eq, word_upd_ne, word_upd_eq by lia. repeat split; try done; lia. }
  kcall (run_nextblock _ _ _ _ _ Hb').
  destruct r as [|[n2 u2] r]; [cbn [units] in Et; lia|]. destruct (placed_next _ _ _ _ _ _ _ _ _ _ Hpl Ht) as [Hh2 _].
  assert (Hh3 : header (set_um st m3) (a + 8 * n) n n2 u2).
  { apply header_upd; [done|]. intros w Hw. rewrite V. unfold b, m1 in *. rewrite !word_upd_ne by lia. done. }
  rewrite (run_set_prev _ _ _ _ _ _ Hh3) by lia. eexists. split; [done|]. cbn [um set_um]. intros w. unfold upd at 1 2. by rewrite V.
Qed.

(** After a split the blocks lie in a row again, and nothing outside the block
    and the word above it has changed. *)
Lemma split_seg st l n r a p p' k m' :
  placed l n false r a p p' st → 0 ≤ k ≤ n - 1 →
  (∀ w, m' w = (if n - 1 - k <? 2 then um st else split_mem (um st) a k n (heaptop st)) w) →
  (∃ q, seg m' (heapbase st) 0 (l ++ cut k n false ++ r) (heaptop st) q) ∧
  (∀ w, w < a ∨ (a + 8 * n < w) → m' w = um st w) ∧ (∀ w, a + 8 ≤ w < a + 8 * (k + 1) → m' w = um st w).
Proof.
  intros [Ea Hl Hr Hh] Hk V. destruct Hh as (_ & E1 & E2 & Hp & Hn & _). destruct (seg_end _ _ _ _ _ _ Hr) as [Et Hu]. unfold cut.
  destruct (Z.ltb_spec (n - 1 - k) 2).
  - split; [|done]. exists p'. apply (seg_frame (um st)); [|done]. apply seg_app. exists a, p. split; [done|]. cbn [app seg]. split_and!; [done|done|lia|done].
  - assert (F : ∀ w, w < a ∨ a + 8 * n < w → m' w = um st w).
    { intros w Hw. rewrite V. unfold split_mem. destruct (_ =? _); rewrite !word_upd_ne by lia; done. }
    assert (Top : ∀ w, w < a + 8 * n → m' w = upd (upd (upd (um st) (a + 4) (enc (k + 1) false)) (a + 8 * (k + 1)) (enc (k + 1) false)) (a + 8 * (k + 1) + 4) (enc (n - 1 - k) false) w).
    { intros w Hw. rewrite V. unfold split_mem. destruct (_ =? _); [done|]. by rewrite word_upd_ne by lia. }
    split; [|split; [done|]].
    2: { intros w Hw. rewrite Top by lia. rewrite !word_upd_ne by lia. done. }
    assert (Hmid : seg m' a p [(k + 1, false); (n - 1 - k, false)] (a + 8 * n) (n - 1 - k)).
    { cbn [seg]. rewrite !Top by lia. split_and!; [by rewrite !word_upd_ne by lia| |lia| | |lia|lia|done].
      - rewrite !word_upd_ne, word_upd_eq by lia. done.
      - rewrite word_upd_ne, word_upd_eq by lia. done.
      - by rewrite word_upd_eq. }
    destruct (decide (r = [])) as [->|Hne].
    + cbn [seg] in Hr. destruct Hr as [Er ->]. exists (n - 1 - k). apply seg_app. exists a, p. split; [apply (seg_frame (um st)); [done|]; intros w Hw; apply F; lia|].
      rewrite app_nil_r, Er. done.
    + exists p'. apply seg_app. exists a, p. split; [apply (seg_frame (um st)); [done|]; intros w Hw; apply F; lia|].
      apply seg_app. eexists _, _. split; [exact Hmid|]. apply (seg_prev (um st) _ _ n); [done|done| |intros w Hw; apply F; lia].
      rewrite V. unfold split_mem. destruct r as [|[n2 u2] r]; [done|]. cbn [seg] in Hr. destruct Hr as (_ & _ & Hn2 & Hr). destruct (seg_end _ _ _ _ _ _ Hr).
      rewrite (proj2 (Z.eqb_neq _ _)) by lia. by rewrite word_upd_eq.
Qed.

(** ** The search *)

(** The first free block with room for [k] units, between those before it and
    those after it. *)
Fixpoint first_fit (k : Z) (bs : list block) : option (list block * Z * list block) :=
  match bs with
  | [] => None
  | (n, u) :: bs =>
      if u || (n - 1 <? k) then
        match first_fit k bs with
        | Some (l, n', r) => Some ((n, u) :: l, n', r)
        | None => None
        end
      else Some ([], n, bs)
  end.
Lemma first_fit_split k bs l n r : first_fit k bs = Some (l, n, r) → bs = l ++ (n, false) :: r ∧ k ≤ n - 1.
Proof.
  revert l. induction bs as [|[n1 u1] bs IH]; intros l; cbn [first_fit]; [done|]. destruct u1; cbn [orb].
  - destruct (first_fit k bs) as [[[l1 n2] r1]|]; [|done]. intros [= <- -> ->]. destruct (IH l1 eq_refl) as [-> ?]. done.
  - destruct (Z.ltb_spec (n1 - 1) k); [|intros [= <- -> ->]; split; [done|lia]].
    destruct (first_fit k bs) as [[[l1 n2] r1]|]; [|done]. intros [= <- -> ->]. destruct (IH l1 eq_refl) as [-> ?]. done.
Qed.

Lemma take_seg m l k n r base top a q :
  a = base + 8 * units l → 0 ≤ k ≤ n - 1 → seg m base 0 (l ++ cut k n false ++ r) top q →
  seg (upd m (a + 4) (enc (if n - 1 - k <? 2 then n else k + 1) true)) base 0 (l ++ cut k n true ++ r) top q.
Proof.
  intros -> Hk H. apply seg_app in H as (a & p & Hl & H). destruct (seg_end _ _ _ _ _ _ Hl) as [-> ?]. apply seg_app. exists (base + 8 * units l), p.
  split; [apply (seg_frame m); [done|]; intros w Hw; apply word_upd_ne; lia|].
  unfold cut in *. destruct (_ <? _); cbn [app seg] in *.
  - destruct H as (E1 & E2 & Hn & H). rewrite word_upd_eq, word_upd_ne by lia. split_and!; [done|done|done|]. apply (seg_frame m); [done|]. intros w Hw. apply word_upd_ne. lia.
  - destruct H as (E1 & E2 & Hn & E3 & E4 & Hn' & H). rewrite word_upd_eq, !word_upd_ne by lia. split_and!; [done..|]. apply (seg_frame m); [done|]. intros w Hw. apply word_upd_ne. lia.
Qed.

Lemma search_miss bs st fuel k l a p r p' :
  heap_rep bs st → seg (um st) (heapbase st) 0 l a p → seg (um st) a p r (heaptop st) p' →
  0 ≤ k < 2 ^ 28 → first_fit k r = None → (length r < fuel)%nat →
  search fuel (8 * k) a p st = Done (inr p', st).
Proof.
  intros Hrep. revert l a p fuel. induction r as [|[n u] r IH]; intros l a p fuel Hl Hs Hk Hf Hfu; (destruct fuel as [|fuel]; [cbn [length] in Hfu; lia|]); cbn [search]; ksteps.
  - cbn [seg] in Hs. destruct Hs as [Et ->]. rewrite Et, Z.ltb_irrefl. by rewrite step_assert by (apply Z.eqb_refl).
  - destruct (placed_at _ _ _ _ _ _ _ _ _ Hrep Hl Hs) as [_ _ Hr Hh]. cbn [seg] in Hs. destruct Hs as (E1 & E2 & Hn & Hs). destruct (seg_end _ _ _ _ _ _ Hs) as [Et Hu].
    rewrite (proj2 (Z.ltb_lt _ _)) by lia. kcall (run_OK _ _ _ _ _ Hh). rewrite step_assert by done.
    kcall (run_prevblock _ _ _ _ _ Hh). rewrite step_assert by (apply Z.eqb_refl). kcall (run_nextblock _ _ _ _ _ Hh). kcall (run_inuse _ _ _ _ _ Hh). kcall (run_SIZE _ _ _ _ _ Hh).
    cbn [first_fit] in Hf. replace (8 * n - 8 <? 8 * k) with (n - 1 <? k) by (apply eq_true_iff_eq; rewrite !Z.ltb_lt; lia).
    destruct (u || (n - 1 <? k)); [|done]. kcall (run_NEXTOFF _ _ _ _ _ Hh). destruct Hh as (_ & _ & _ & _ & ? & ? & ?). nowrap.
    apply (IH (l ++ [(n, u)])); [| done | done | | cbn [length] in Hfu; lia].
    + apply seg_app. exists a, p. split; [done|]. cbn [seg]. done.
    + by destruct (first_fit k r) as [[[? ?] ?]|].
Qed.

Lemma search_hit bs st fuel k l a p r p' l1 n r1 :
  heap_rep bs st → seg (um st) (heapbase st) 0 l a p → seg (um st) a p r (heaptop st) p' →
  0 ≤ k < 2 ^ 28 → first_fit k r = Some (l1, n, r1) → (length r < fuel)%nat →
  let b := a + 8 * units l1 in
  ∃ m' q, search fuel (8 * k) a p st = Done (inl (b + 8), set_um st m') ∧
    seg m' (heapbase st) 0 (l ++ l1 ++ cut k n true ++ r1) (heaptop st) q ∧
    (∀ w, w < b ∨ b + 8 * n < w → m' w = um st w).
Proof.
  intros Hrep. cbv zeta. revert l a p fuel l1. induction r as [|[n1 u] r IH]; intros l a p fuel l1 Hl Hs Hk Hf Hfu; [done|]. (destruct fuel as [|fuel]; [cbn [length] in Hfu; lia|]); cbn [search]; ksteps.
  pose proof (placed_at _ _ _ _ _ _ _ _ _ Hrep Hl Hs) as Hpl. destruct (Hpl) as [Ea _ Hr Hh]. cbn [seg] in Hs. destruct Hs as (E1 & E2 & Hn & Hs). destruct (seg_end _ _ _ _ _ _ Hs) as [Et Hu].
  rewrite (proj2 (Z.ltb_lt _ _)) by lia. kcall (run_OK _ _ _ _ _ Hh). rewrite step_assert by done.
  kcall (run_prevblock _ _ _ _ _ Hh). rewrite step_assert by (apply Z.eqb_refl). kcall (run_nextblock _ _ _ _ _ Hh). kcall (run_inuse _ _ _ _ _ Hh). kcall (run_SIZE _ _ _ _ _ Hh).
  cbn [first_fit] in Hf. replace (8 * n1 - 8 <? 8 * k) with (n1 - 1 <? k) by (apply eq_true_iff_eq; rewrite !Z.ltb_lt; lia).
  destruct (u || (n1 - 1 <? k)) eqn:Hfit.
  - kcall (run_NEXTOFF _ _ _ _ _ Hh). destruct Hh as (_ & _ & _ & _ & ? & ? & ?). nowrap.
    destruct (first_fit k r) as [[[l2 n2] r2]|]; [|done]. injection Hf as [= <- -> ->]. cbn [units].
    replace (a + 8 * (n1 + units l2)) with (a + 8 * n1 + 8 * units l2) by lia.
    destruct (IH (l ++ [(n1, u)]) (a + 8 * n1) n1 fuel l2) as (m' & q & Hrun & Hseg & Hfr); [|done|done|done|cbn [length] in Hfu; lia|].
    + apply seg_app. exists a, p. split; [done|]. cbn [seg]. done.
    + exists m', q. split_and!; [done| |done]. rewrite <- app_assoc in Hseg. done.
  - apply orb_false_iff in Hfit as [-> Hnk%Z.ltb_ge]. injection Hf as [= <- <- <-]. cbn [units app]. replace (a + 8 * 0) with a by lia.
    destruct (split_run _ _ _ _ _ _ _ k Hpl (hr_top _ _ Hrep) ltac:(lia)) as (m1 & Hrun & Hm1). kcall Hrun.
    destruct (split_seg _ _ _ _ _ _ _ k m1 Hpl ltac:(lia) Hm1) as ([q Hq] & Hfr & _).
    set (n' := if n1 - 1 - k <? 2 then n1 else k + 1).
    assert (Hh1 : header (set_um st m1) a p n' false).
    { split; [apply Hh|]. cbn [um set_um]. destruct Hh as (_ & F1 & F2 & ?).
      assert (G1 : m1 a = enc p false).
      { rewrite Hm1, <- F1. destruct (Z.ltb_spec (n1 - 1 - k) 2); [done|]. unfold split_mem. destruct (_ =? _); rewrite !word_upd_ne by lia; done. }
      assert (G2 : m1 (a + 4) = enc n' false).
      { rewrite Hm1. unfold n', split_mem. destruct (Z.ltb_spec (n1 - 1 - k) 2); [done|]. destruct (_ =? _); rewrite !word_upd_ne by lia; by rewrite word_upd_eq. }
      rewrite G1, G2. unfold n'. destruct (Z.ltb_spec (n1 - 1 - k) 2); repeat split; done || lia. }
    kcall (run_set_inuse _ _ _ _ _ true Hh1). rewrite set_um_set. cbn [um set_um]. unfold kret.
    eexists _, q. split; [|split; [exact (take_seg m1 l k n1 r _ _ a q Ea ltac:(lia) Hq)|]].
    + unfold M_DATA, MBLOCKSIZE. destruct Hh as (_ & _ & _ & _ & ? & ? & ?). by nowrap.
    + intros w Hw. rewrite word_upd_ne by lia. by apply Hfr.
Qed.

(** ** malloc *)

Lemma round_up size : 0 ≤ size ≤ 2 ^ 31 - 16 → Z.ldiff (u32 (size + MBLOCKSIZE - 1)) (MBLOCKSIZE - 1) = 8 * ((size + 7) / 8).
Proof.
  intros H. unfold MBLOCKSIZE. nowrap. change (8 - 1) with (Z.ones 3). rewrite Z.ldiff_ones_r by lia. rewrite Z.shiftr_div_pow2, Z.shiftl_mul_pow2 by lia.
  change (2 ^ 3) with 8. replace (size + 8 - 1) with (size + 7) by lia. lia.
Qed.

(** The header of a block at the new top of the heap. *)
Lemma new_header st a p n :
  at_header st a → 0 ≤ p < 2 ^ 29 → 0 ≤ n < 2 ^ 29 →
  ∃ m', (∀ w, m' w = upd (upd (um st) a (enc p false)) (a + 4) (enc n true) w) ∧
    ∀ A (k : K (uheap B) A),
      (set_prevblock a p ;; set_magic1 a ;; set_magic2 a ;; set_pad a ;; set_inuse a true ;; set_nextblock a n ;; k) st = k (set_um st m').
Proof.
  intros H Hp Hn. eexists. split; [|intros A k; unfold set_prevblock, set_magic1, set_magic2, set_pad, set_inuse, set_nextblock].
  2: { kcall (modify0 st a (put_block p) H). set (st1 := set_um st _). kcall (modify0 st1 a (put_magic MMAGIC) H). set (st2 := set_um st1 _).
       kcall (modify4 st2 a (put_magic MMAGIC) H). set (st3 := set_um st2 _). kcall (modify0 st3 a (put_flag false) H). set (st4 := set_um st3 _).
       kcall (modify4 st4 a (put_flag true) H). set (st5 := set_um st4 _). kcall (modify4 st5 a (put_block n) H).
       unfold st5, st4, st3, st2, st1. cbn [um set_um]. reflexivity. }
  intros w. cbn beta. unfold upd. rewrite !Z.eqb_refl, !(proj2 (Z.eqb_neq (a + 4) a)), !(proj2 (Z.eqb_neq a (a + 4))) by lia.
  destruct (w =? a + 4); [by apply fresh_word''|]. destruct (w =? a); [|done]. by apply fresh_word'.
Qed.

(** The heap before the first call: the break is where the program ends, a
    page boundary on this system. *)
Definition fresh st : Prop := heapbase st = 0 ∧ heaptop st = 0 ∧ 0 < brk (ub st) ≤ 2 ^ 31 ∧ brk (ub st) mod 8 = 0.
Definition ready (bs : list block) st : Prop := heap_rep bs st ∨ (bs = [] ∧ fresh st).

Lemma init_run st : fresh st → malloc_init st = Done (tt, UHeap (um st) (ub st) (brk (ub st)) (brk (ub st))).
Proof.
  intros (E1 & E2 & Hb & Hm). unfold malloc_init. ksteps. rewrite step_assert by (by rewrite E1, E2). unfold call_sbrk. unfold kbind at 1. rewrite sbrk_zero. cbn beta iota.
  rewrite step_assert by (apply negb_true_iff, Z.eqb_neq; lia). unfold MBLOCKSIZE. rewrite Hm. cbn [Z.eqb negb]. done.
Qed.
Lemma start_run bs st :
  ready bs st → ∃ st1, (if heapbase st =? 0 then malloc_init else kret tt) st = Done (tt, st1) ∧ heap_rep bs st1 ∧ um st1 = um st ∧
    ub st1 = ub st ∧ (heapbase st ≠ 0 → st1 = st).
Proof.
  intros [H|[-> H]].
  - exists st. pose proof (hr_base _ _ H). rewrite (proj2 (Z.eqb_neq _ _)) by lia. done.
  - pose proof (init_run _ H) as E. destruct H as (E1 & E2 & Hb & Hm). rewrite E1. cbn [Z.eqb]. rewrite E. eexists. split_and!; [done| |done|done|done].
    constructor; cbn [heapbase heaptop ub um]; [lia|lia|done|]. exists 0. done.
Qed.
Lemma seg_length m a p bs a' p' : seg m a p bs a' p' → Z.of_nat (length bs) ≤ units bs.
Proof.
  revert a p. induction bs as [|[n u] bs IH]; intros a p; cbn [seg units length]; [lia|]. intros (_ & _ & Hn & H%IH). lia.
Qed.

Lemma fuel_enough m a bs a' p' :
  seg m a 0 bs a' p' → (length bs < S (Z.to_nat ((a' - a) / MBLOCKSIZE)))%nat.
Proof.
  intros H. destruct (seg_end _ _ _ _ _ _ H) as [-> ?]. pose proof (seg_length _ _ _ _ _ _ H). unfold MBLOCKSIZE.
  replace (a + 8 * units bs - a) with (units bs * 8) by lia. rewrite Z.div_mul by lia. lia.
Qed.

(** With a block that fits, and without one. *)
Lemma malloc_hit bs st size l n r :
  ready bs st → 0 ≤ size ≤ 2 ^ 31 - 16 → first_fit ((size + 7) / 8) bs = Some (l, n, r) →
  ∃ st', let b := heapbase st' + 8 * units l in
    malloc size st = Done (Some (b + 8), st') ∧ heap_rep bs (set_um st' (um st)) ∧
    heap_rep (l ++ cut ((size + 7) / 8) n true ++ r) st' ∧ (heapbase st ≠ 0 → heapbase st' = heapbase st) ∧
    ∀ w, w < b ∨ b + 8 * n < w → um st' w = um st w.
Proof.
  intros Hr Hs Hf. destruct (start_run bs st Hr) as (st1 & Hrun & Hrep & Hum & Hub & Hsame). unfold malloc. ksteps. kcall Hrun. ksteps.
  destruct (hr_base _ _ Hrep). destruct (hr_seg _ _ Hrep) as [p' Hseg]. destruct (seg_end _ _ _ _ _ _ Hseg) as [Et Hu].
  rewrite step_assert by (rewrite !andb_true_iff, !negb_true_iff, !Z.eqb_neq, Z.leb_le; lia). rewrite round_up by done. set (k := (size + 7) / 8) in *.
  assert (Hk : 0 ≤ k < 2 ^ 28) by (unfold k; pose proof (Z.mul_div_le (size + 7) 8 ltac:(lia)); split; [apply Z.div_pos|]; lia).
  destruct (search_hit bs st1 (S (Z.to_nat ((heaptop st1 - heapbase st1) / MBLOCKSIZE))) k [] (heapbase st1) 0 bs p' l n r) as (m' & q & Hq & Hsg & Hfr); try done; [exact (fuel_enough _ _ _ _ _ Hseg)|].
  kcall Hq. exists (set_um st1 m'). cbn [heapbase um set_um] in *. split_and!; [done| | | |by rewrite <- Hum].
  - rewrite <- Hum. by destruct st1.
  - constructor; [apply Hrep|apply Hrep|apply Hrep|by exists q].
  - intros Hn. by rewrite Hsame.
Qed.
Lemma malloc_miss bs st size :
  ready bs st → 0 ≤ size ≤ 2 ^ 31 - 16 → first_fit ((size + 7) / 8) bs = None →
  ∃ x st', malloc size st = Done (x, st') ∧ (heapbase st ≠ 0 → heapbase st' = heapbase st) ∧
    match x with
    | None => (sbrk (8 * ((size + 7) / 8) + 8) (ub st)).1 = None ∧ heap_rep bs st' ∧ um st' = um st
    | Some p => let b := heapbase st' + 8 * units bs in p = b + 8 ∧ heap_rep (bs ++ [((size + 7) / 8 + 1, true)]) st' ∧ ∀ w, w < b → um st' w = um st w
    end.
Proof.
  intros Hr Hs Hf. destruct (start_run bs st Hr) as (st1 & Hrun & Hrep & Hum & Hub & Hsame). unfold malloc. ksteps. kcall Hrun. ksteps.
  destruct (hr_base _ _ Hrep) as [Hb0 Hb8]. destruct (hr_seg _ _ Hrep) as [p' Hseg]. destruct (seg_end _ _ _ _ _ _ Hseg) as [Et Hu]. pose proof (hr_top _ _ Hrep) as Ht.
  rewrite step_assert by (rewrite !andb_true_iff, !negb_true_iff, !Z.eqb_neq, Z.leb_le; lia). rewrite round_up by done. set (k := (size + 7) / 8) in *.
  assert (Hk : 0 ≤ k ∧ 8 * (k + 1) < 2 ^ 31) by (unfold k; pose proof (Z.mul_div_le (size + 7) 8 ltac:(lia)); split; [apply Z.div_pos|]; lia).
  kcall (search_miss bs st1 (S (Z.to_nat ((heaptop st1 - heapbase st1) / MBLOCKSIZE))) k [] (heapbase st1) 0 bs p' Hrep ltac:(done) Hseg ltac:(lia) Hf (fuel_enough _ _ _ _ _ Hseg)).
  unfold malloc_sbrk, MBLOCKSIZE. nowrap. unfold call_sbrk. ksteps. unfold kbind at 1. destruct (sbrk _ _) as [[x|] b'] eqn:Hb; cbn beta iota.
  2: { eexists None, _. split; [done|]. cbn [heapbase um]. split; [intros Hn; by rewrite Hsame|]. split; [by rewrite <- Hub, Hb|]. split; [|done]. apply sbrk_none in Hb.
       constructor; cbn [heapbase heaptop ub um]; [done|done|rewrite Hb; apply Hrep|by exists p']. }
  apply sbrk_some in Hb as (-> & Hb1 & Hb2); [|lia|rewrite (hr_brk _ _ Hrep); lia]. rewrite (hr_brk _ _ Hrep) in Hb1 |- *. ksteps. cbn [heaptop heapbase].
  rewrite step_assert by (apply Z.eqb_refl). unfold set_base. ksteps. cbn [um ub]. nowrap. set (st2 := UHeap _ _ _ _).
  destruct (new_header st2 (heaptop st1) p' (k + 1)) as (m' & Hm' & R).
  { unfold st2. split_and!; cbn [heapbase heaptop]; [lia|lia|]. rewrite Et, (Z.mul_comm 8), Z.mod_add by lia. done. }
  { pose proof (seg_last _ _ _ _ _ _ Hseg). lia. }
  { lia. }
  replace (8 * k + 8) with (8 * (k + 1)) in * by lia. rewrite <- (u32_small (8 * (k + 1))) by lia. rewrite mkfield_units by lia. rewrite R. unfold kret.
  eexists (Some _), _. split; [done|]. cbn [heapbase um set_um st2]. split; [intros Hn; by rewrite Hsame|]. cbn zeta. split_and!.
  - unfold M_DATA, MBLOCKSIZE. nowrap. lia.
  - constructor; cbn [heapbase heaptop ub um set_um st2]; [done|lia|lia|]. exists (k + 1). apply seg_app. exists (heaptop st1), p'. cbn [um st2] in Hm'. split.
    + apply (seg_frame (um st1)); [done|]. intros w Hw. rewrite Hm', !word_upd_ne by lia. done.
    + cbn [seg]. rewrite !Hm', word_upd_ne, !word_upd_eq by lia. split_and!; [done|done|lia|lia|done].
  - intros w Hw. rewrite Hm'. cbn [um st2]. rewrite !word_upd_ne, Hum by lia. done.
Qed.

(** ** free *)

Lemma run_PREV st a p n u : header st a p n u → 8 * p ≤ a → M_PREV a st = Done (a - 8 * p, st).
Proof. intros H Hp. unfold M_PREV. kcall (run_PREVOFF _ _ _ _ _ H). destruct H as (_ & _ & _ & ? & ? & ? & ?). by nowrap. Qed.

Lemma deadbeef_run st x n :
  heapbase st ≤ x → x mod 4 = 0 → x + 4 * Z.of_nat n ≤ heaptop st →
  ∃ m', deadbeef_loop x n st = Done (tt, set_um st m') ∧ (n ≠ 0%nat → m' x = DEADBEEF) ∧
    ∀ w, w < x ∨ x + 4 * Z.of_nat n ≤ w → m' w = um st w.
Proof.
  revert st x. induction n as [|n IH]; intros st x Hb Hm Ht; cbn [deadbeef_loop]; [exists (um st); split; [by destruct st|done]|].
  assert (E : store x DEADBEEF st = Done (tt, set_um st (upd (um st) x DEADBEEF))) by (unfold store; by rewrite inside_true by (done || lia)).
  kcall E. destruct (IH (set_um st (upd (um st) x DEADBEEF)) (x + 4)) as (m' & Hrun & _ & Hm'); cbn [heapbase heaptop set_um]; [lia| |lia|].
  - rewrite <- Zplus_mod_idemp_l, Hm. done.
  - exists m'. cbn [um set_um] in Hm'. split; [by rewrite Hrun|]. split; [intros _; rewrite Hm' by lia; apply word_upd_eq|].
    intros w Hw. rewrite Hm' by lia. apply word_upd_ne. lia.
Qed.

(** Two neighbours after [malloc_trymerge]. *)
Definition merge (n1 : Z) (u1 : bool) (n2 : Z) (u2 : bool) : list block :=
  if u1 || u2 then [(n1, u1); (n2, u2)] else [(n1 + n2, false)].

(** The memory after a merge, but for the header that is wiped. *)
Definition merge_mem (m : Z → Z) (a n1 n2 top : Z) : Z → Z :=
  let m1 := upd m (a + 4) (enc (n1 + n2) false) in
  if a + 8 * n1 + 8 * n2 =? top then m1 else upd m1 (a + 8 * n1 + 8 * n2) (enc (n1 + n2) false).

Lemma trymerge_run st l n1 u1 n2 u2 r a p p' :
  placed l n1 u1 ((n2, u2) :: r) a p p' st → heaptop st ≤ 2 ^ 31 →
  ∃ m', malloc_trymerge a (a + 8 * n1) st = Done (tt, set_um st m') ∧ (u1 || u2 = false → m' (a + 8 * n1) = DEADBEEF) ∧
    ∀ w, u1 || u2 = true ∨ (w < a + 8 * n1 ∨ a + 8 * n1 + 8 ≤ w) →
      m' w = (if u1 || u2 then um st else merge_mem (um st) a n1 n2 (heaptop st)) w.
Proof.
  intros Hpl Ht. destruct (placed_next _ _ _ _ _ _ _ _ _ _ Hpl Ht) as [Hh2 Hr2]. destruct (Hpl) as [Ea Hl Hr Hh]. destruct (seg_end _ _ _ _ _ _ Hr2) as [Et Hu].
  destruct (Hh) as (Hat & _ & _ & Hp & Hn & Hb & H0). destruct (Hh2) as (Hat2 & _ & _ & _ & Hn2 & Hb2 & _). unfold malloc_trymerge.
  kcall (run_nextblock _ _ _ _ _ Hh). kcall (run_prevblock _ _ _ _ _ Hh2). rewrite step_assert by (apply Z.eqb_refl).
  kcall (run_inuse _ _ _ _ _ Hh). kcall (run_inuse _ _ _ _ _ Hh2). destruct (u1 || u2) eqn:Hu12; [exists (um st); split; [by destruct st|done]|].
  apply orb_false_iff in Hu12 as [-> ->]. kcall (run_NEXT _ _ _ _ _ Hh2). kcall (run_SIZE _ _ _ _ _ Hh). kcall (run_SIZE _ _ _ _ _ Hh2). unfold MBLOCKSIZE.
  replace (8 + (8 * n1 - 8) + 8 + (8 * n2 - 8)) with (8 * (n1 + n2)) by lia. rewrite mkfield_units by lia.
  kcall (run_set_next _ _ _ _ _ (n1 + n2) Hh ltac:(lia)). set (m1 := upd _ _ _). ksteps. cbn [heaptop set_um].
  assert (Hgo : ∃ m2, (∀ A (k : K (uheap B) A), ((if negb (a + 8 * n1 + 8 * n2 =? heaptop st) then n <- mh_nextblock a ;; set_prevblock (a + 8 * n1 + 8 * n2) n else kret tt) ;; k) (set_um st m1) = k (set_um st m2))
     ∧ ∀ w, m2 w = merge_mem (um st) a n1 n2 (heaptop st) w).
  { unfold merge_mem. fold m1. destruct (Z.eqb_spec (a + 8 * n1 + 8 * n2) (heaptop st)); cbn [negb]; [by exists m1|].
    destruct r as [|[n3 u3] r]; [cbn [units] in Et; lia|].
    assert (Hpl2 : placed (l ++ [(n1, false)]) n2 false ((n3, u3) :: r) (a + 8 * n1) n1 p' st).
    { constructor; [|apply seg_app; exists a, p; split; [done|]|done|done].
      - rewrite Ea. clear. induction l as [|[n u] l IH]; cbn [app units] in *; lia.
      - cbn [seg]. destruct Hh as (_ & F1 & F2 & _). split_and!; [done|done|lia|done|done]. }
    destruct (placed_next _ _ _ _ _ _ _ _ _ _ Hpl2 Ht) as [Hh3 _].
    assert (Hh1 : header (set_um st m1) a p (n1 + n2) false).
    { split; [done|]. unfold m1. cbn [um set_um]. rewrite word_upd_eq, word_upd_ne by lia. destruct Hh as (_ & F1 & _). repeat split; done || lia. }
    assert (Hh4 : header (set_um st m1) (a + 8 * n1 + 8 * n2) n2 n3 u3).
    { apply header_upd; [done|]. intros w Hw. unfold m1. apply word_upd_ne. lia. }
    eexists. split; [|done]. intros A k. ksteps. kcall (run_nextblock _ _ _ _ _ Hh1). kcall (run_set_prev _ _ _ _ _ (n1 + n2) Hh4 ltac:(lia)). done. }
  destruct Hgo as (m2 & R & V). rewrite R. clear R. unfold malloc_deadbeef. change (Z.to_nat (8 / 4)) with 2%nat.
  destruct (deadbeef_run (set_um st m2) (a + 8 * n1) 2) as (m3 & Hrun & Hd & Hm3); cbn [heapbase heaptop set_um].
  { destruct Hat2; lia. } { destruct Hat2 as (_ & _ & Hmod). pose proof (mod8_mod4 _ 0 Hmod) as E. by rewrite Z.mul_0_r, Z.add_0_r in E. } { destruct Hat2; lia. }
  exists m3. split; [done|]. split; [intros _; by apply Hd|]. intros w [?|Hw]; [done|]. rewrite Hm3 by lia. cbn [um set_um]. apply V.
Qed.

Lemma trymerge_seg st l n1 u1 n2 u2 r a p p' m' :
  placed l n1 u1 ((n2, u2) :: r) a p p' st → heaptop st ≤ 2 ^ 31 →
  (∀ w, u1 || u2 = true ∨ (w < a + 8 * n1 ∨ a + 8 * n1 + 8 ≤ w) →
      m' w = (if u1 || u2 then um st else merge_mem (um st) a n1 n2 (heaptop st)) w) →
  (∃ q, seg m' (heapbase st) 0 (l ++ merge n1 u1 n2 u2 ++ r) (heaptop st) q) ∧
  (∀ w, (u1 || u2 = true ∨ w < a ∨ a + 8 * n1 + 8 * n2 < w) → m' w = um st w).
Proof.
  intros Hpl Ht V. destruct (placed_next _ _ _ _ _ _ _ _ _ _ Hpl Ht) as [(_ & F1 & F2 & _) Hr2]. destruct (Hpl) as [Ea Hl Hr (_ & E1 & E2 & ?)].
  destruct (seg_end _ _ _ _ _ _ Hr2) as [Et Hu]. cbn [seg] in Hr. destruct Hr as (_ & _ & Hn2 & _). unfold merge. destruct (u1 || u2) eqn:Hu12.
  - split; [|intros w _; apply V; by left]. exists p'. apply (seg_frame (um st)); [|intros w _; apply V; by left]. apply seg_app. exists a, p. split; [done|].
    cbn [app seg]. split_and!; [done|done|lia|done|done|lia|done].
  - apply orb_false_iff in Hu12 as [-> ->].
    assert (F : ∀ w, w < a ∨ a + 8 * n1 + 8 * n2 < w → m' w = um st w).
    { intros w Hw. rewrite V by lia. unfold merge_mem. destruct (_ =? _); rewrite !word_upd_ne by lia; done. }
    split; [|intros w [?|Hw]; [done|by apply F]].
    assert (G1 : m' a = enc p false).
    { rewrite V by lia. unfold merge_mem. destruct (_ =? _); rewrite !word_upd_ne by lia; done. }
    assert (G2 : m' (a + 4) = enc (n1 + n2) false).
    { rewrite V by lia. unfold merge_mem. destruct (_ =? _); rewrite ?word_upd_eq; [done|]. rewrite word_upd_ne by lia. apply word_upd_eq. }
    assert (Hlow : seg m' (heapbase st) 0 l a p) by (apply (seg_frame (um st)); [done|]; intros w Hw; apply F; lia).
    destruct (decide (r = [])) as [->|Hne].
    + cbn [seg] in Hr2. destruct Hr2 as [Er ->]. exists (n1 + n2). apply seg_app. exists a, p. split; [done|]. cbn [app seg]. split_and!; [done|done|lia|lia|done].
    + exists p'. apply seg_app. exists a, p. split; [done|]. cbn [app seg]. split_and!; [done|done|lia|]. replace (a + 8 * (n1 + n2)) with (a + 8 * n1 + 8 * n2) by lia.
      apply (seg_prev (um st) _ _ n2); [done|done| |intros w Hw; apply F; lia].
      destruct r as [|[n3 u3] r]; [done|]. cbn [seg] in Hr2. destruct Hr2 as (_ & _ & Hn3 & Hr2). destruct (seg_end _ _ _ _ _ _ Hr2).
      rewrite V by lia. unfold merge_mem. rewrite (proj2 (Z.eqb_neq _ _)) by lia. apply word_upd_eq.
Qed.

Lemma rep_um bs bs' st m : heap_rep bs st → (∃ q, seg m (heapbase st) 0 bs' (heaptop st) q) → heap_rep bs' (set_um st m).
Proof. intros [? ? ? _] H. by constructor. Qed.

(** The block is marked free and wiped. *)
Lemma wipe_run st l n u r a p p' :
  heap_rep (l ++ (n, u) :: r) st → placed l n u r a p p' st →
  ∃ m', (∀ A (k : K (uheap B) A), (set_inuse a false ;; size <- M_SIZE a ;; malloc_deadbeef (M_DATA a) size ;; k) st = k (set_um st m')) ∧
    heap_rep (l ++ (n, false) :: r) (set_um st m') ∧ ∀ w, w < a ∨ a + 8 * n ≤ w → m' w = um st w.
Proof.
  intros Hrep Hpl. destruct (Hpl) as [Ea Hl Hr Hh]. destruct (Hh) as (Hat & E1 & E2 & Hp & Hn & Hb & H0). destruct (seg_end _ _ _ _ _ _ Hr) as [Et Hu].
  set (m1 := upd (um st) (a + 4) (enc n false)).
  assert (Hh1 : header (set_um st m1) a p n false).
  { split; [done|]. unfold m1. cbn [um set_um]. rewrite word_upd_eq, word_upd_ne by lia. done. }
  destruct (deadbeef_run (set_um st m1) (a + 8) (Z.to_nat ((8 * n - 8) / 4))) as (m2 & Hrun & _ & Hm2); cbn [heapbase heaptop set_um].
  { destruct Hat; lia. } { destruct Hat as (_ & _ & Hmod). exact (mod8_mod4 a 2 Hmod). }
  { replace (8 * n - 8) with ((2 * n - 2) * 4) by lia. rewrite Z.div_mul by lia. lia. }
  exists m2. replace (8 * n - 8) with ((2 * n - 2) * 4) in Hm2 by lia. rewrite Z.div_mul in Hm2 by lia. rewrite Z2Nat.id in Hm2 by lia. cbn [um set_um] in Hm2.
  assert (F : ∀ w, w < a ∨ a + 8 * n ≤ w → m2 w = um st w).
  { intros w Hw. rewrite Hm2 by lia. unfold m1. apply word_upd_ne. lia. }
  split_and!; [| |done].
  - intros A k. kcall (run_set_inuse _ _ _ _ _ false Hh). fold m1. kcall (run_SIZE _ _ _ _ _ Hh1). unfold malloc_deadbeef, M_DATA, MBLOCKSIZE.
    rewrite (u32_small (a + 8)) by lia. kcall Hrun. done.
  - apply (rep_um _ _ _ _ Hrep). exists p'. apply seg_app. exists a, p. split; [apply (seg_frame (um st)); [done|]; intros w Hw; apply F; lia|].
    cbn [seg]. rewrite !Hm2 by lia. unfold m1. rewrite word_upd_eq, word_upd_ne by lia. split_and!; [done|done|lia|].
    apply (seg_frame (um st)); [done|]. intros w Hw. apply F. lia.
Qed.

(** A free block and those above it, after the merge. *)
Definition above (n : Z) (r : list block) : Z * list block :=
  match r with (n2, false) :: r2 => (n + n2, r2) | _ => (n, r) end.
Lemma above_row n r : coalesced r = true → coalesced (above n r).2 = true ∧ starts_free (above n r).2 = false.
Proof.
  destruct r as [|[n2 []] r]; cbn [above coalesced starts_free snd]; [done|by rewrite andb_true_l|].
  cbn [orb]. intros [?%negb_true_iff ?]%andb_true_iff. done.
Qed.
Lemma above_busy a n r : busy (a + 8 * (above n r).1) (above n r).2 = busy (a + 8 * n) r.
Proof. destruct r as [|[n2 []] r]; cbn [above busy fst snd app]; [done|done|]. f_equal. lia. Qed.

Lemma merge_above_run st l n r a p p' :
  heap_rep (l ++ (n, false) :: r) st → placed l n false r a p p' st →
  ∃ m', (∀ A (k : K (uheap B) A), (mhnext <- M_NEXT a ;; (if negb (mhnext =? heaptop st) then malloc_trymerge a mhnext else kret tt) ;; k) st = k (set_um st m')) ∧
    heap_rep (l ++ ((above n r).1, false) :: (above n r).2) (set_um st m') ∧
    ∀ w, w < a ∨ a + 8 * (above n r).1 < w → m' w = um st w.
Proof.
  intros Hrep Hpl. pose proof (hr_top _ _ Hrep) as Ht. destruct (Hpl) as [Ea Hl Hr Hh]. destruct r as [|[n2 u2] r].
  - cbn [seg] in Hr. destruct Hr as [Er _]. exists (um st). split_and!; [|by destruct st|done]. intros A k. kcall (run_NEXT _ _ _ _ _ Hh). rewrite <- Er, Z.eqb_refl. by destruct st.
  - destruct (trymerge_run _ _ _ _ _ _ _ _ _ _ Hpl Ht) as (m' & Hrun & _ & Hm'). destruct (trymerge_seg _ _ _ _ _ _ _ _ _ _ _ Hpl Ht Hm') as [Hseg Hfr].
    exists m'. split_and!.
    + intros A k. kcall (run_NEXT _ _ _ _ _ Hh). cbn [seg] in Hr. destruct Hr as (_ & _ & Hn2 & Hr). destruct (seg_end _ _ _ _ _ _ Hr).
      rewrite (proj2 (Z.eqb_neq _ _)) by lia. cbn [negb]. kcall Hrun. done.
    + apply (rep_um _ _ _ _ Hrep). by destruct u2.
    + intros w Hw. apply Hfr. destruct u2; cbn [orb above fst] in *; [by left|]. right. lia.
Qed.

(** A pointer whose header is wiped, or says that the block is free. *)
Lemma free_refuses bs st a :
  heap_rep bs st → heapbase st ≤ a + 8 < heaptop st → at_header st a →
  field_magic (um st a) ≠ MMAGIC ∨ (∃ p n, um st a = enc p false ∧ um st (a + 4) = enc n false) → free (a + 8) st = Panic.
Proof.
  intros Hrep Hx Hat Hbad. destruct (hr_base _ _ Hrep) as [Hb0 _]. pose proof (hr_top _ _ Hrep) as Ht. destruct (Hat) as (A1 & A2 & _). unfold free, MBLOCKSIZE.
  rewrite (proj2 (Z.eqb_neq (a + 8) 0)) by lia. ksteps. rewrite step_assert by (rewrite !andb_true_iff, !negb_true_iff, !Z.eqb_neq, Z.leb_le; lia).
  rewrite step_assert by (rewrite negb_true_iff, orb_false_iff, Z.ltb_ge, Z.leb_gt; lia). replace (a + 8 - 8) with a by lia. nowrap. unfold M_OK, mh_inuse. ksteps.
  kcall (load0 _ _ Hat). ksteps. kcall (load4 _ _ Hat). ksteps. destruct Hbad as [Hbad|(p & n & E1 & E2)].
  - by rewrite step_panic by (rewrite (proj2 (Z.eqb_neq _ _) Hbad); done).
  - rewrite E1, E2. rewrite step_assert by (by rewrite !magic_enc). ksteps. kcall (load4 _ _ Hat). rewrite E2, flag_enc. ksteps. by rewrite step_panic.
Qed.

(** The block below is merged in as well. *)
Lemma merge_below_run st l n r a p p' :
  heap_rep (l ++ (n, false) :: r) st → placed l n false r a p p' st →
  ∃ bs' m', (if negb (a =? heapbase st) then mhprev <- M_PREV a ;; malloc_trymerge mhprev a else kret tt) st = Done (tt, set_um st m') ∧
    heap_rep bs' (set_um st m') ∧ busy (heapbase st) bs' = busy (heapbase st) l ++ busy (a + 8 * n) r ∧
    (coalesced l = true → coalesced r = true → starts_free r = false → coalesced bs' = true) ∧
    (a + 8 < heaptop st → free (a + 8) (set_um st m') = Panic) ∧
    ∀ q t w, (q, t) ∈ busy (heapbase st) l ++ busy (a + 8 * n) r → q ≤ w < q + t → m' w = um st w.
Proof.
  intros Hrep Hpl. pose proof (hr_top _ _ Hrep) as Ht. destruct (hr_base _ _ Hrep) as [Hb0 _]. destruct (Hpl) as [Ea Hl Hr Hh]. destruct l as [|[n0 u0] l _] using rev_ind.
  - cbn [units] in Ea. replace a with (heapbase st) in * by lia. rewrite Z.eqb_refl. exists ((n, false) :: r), (um st). split_and!; [by destruct st|by destruct st|done| | |done].
    + cbn [coalesced]. intros _ -> ->. done.
    + intros Hx. apply (free_refuses ((n, false) :: r)); [by destruct st|cbn [heapbase heaptop set_um]; lia|apply Hh|]. right. exists p, n. by destruct Hh as (_ & ? & ? & _).
  - apply seg_app in Hl as (a0 & p0 & Hl0 & Hs0). pose proof Hs0 as Hs0'. cbn [seg] in Hs0'. destruct Hs0' as (_ & _ & Hn0 & -> & ->). destruct (seg_end _ _ _ _ _ _ Hl0) as [E0 Hu0].
    assert (Hpl0 : placed l n0 u0 ((n, false) :: r) a0 p0 p' st).
    { apply (placed_at _ _ _ _ _ _ _ _ _ Hrep Hl0). change ((n0, u0) :: (n, false) :: r) with ([(n0, u0)] ++ (n, false) :: r). apply seg_app. eexists _, _. split; [exact Hs0|].
      destruct Hh as (_ & F1 & F2 & ?). cbn [seg]. split_and!; [done|done|lia|done]. }
    destruct (trymerge_run _ _ _ _ _ _ _ _ _ _ Hpl0 Ht) as (m' & Hrun & Hd & Hm'). destruct (trymerge_seg _ _ _ _ _ _ _ _ _ _ _ Hpl0 Ht Hm') as [Hseg Hfr].
    exists (l ++ merge n0 u0 n false ++ r), m'. split_and!.
    + rewrite (proj2 (Z.eqb_neq _ _)) by lia. cbn [negb]. kcall (run_PREV _ _ _ _ _ Hh ltac:(lia)). replace (a0 + 8 * n0 - 8 * n0) with a0 by lia. exact Hrun.
    + by apply (rep_um _ _ _ _ Hrep).
    + rewrite !busy_app, <- E0. unfold merge. destruct u0; cbn [orb app busy units]; rewrite ?app_nil_r, <- ?app_assoc; cbn [app]; [replace (a0 + 8 * (n0 + (n + 0))) with (a0 + 8 * n0 + 8 * n) by lia|replace (a0 + 8 * (n0 + n + 0)) with (a0 + 8 * n0 + 8 * n) by lia]; done.
    + rewrite !coalesced_app. unfold merge. intros [[Hc _]%andb_true_iff He]%andb_true_iff Hcr Hsr. rewrite Hc. destruct u0; cbn [orb app coalesced starts_free negb andb] in *; rewrite ?Hcr, ?Hsr; [by rewrite andb_false_r|].
      rewrite andb_true_r in He |- *. apply negb_true_iff in He. by rewrite He.
    + intros Hx. apply (free_refuses (l ++ merge n0 u0 n false ++ r)); [by apply (rep_um _ _ _ _ Hrep)|cbn [heapbase heaptop set_um]; lia|apply Hh|].
      cbn [um set_um]. destruct u0; [right|left; rewrite Hd by done; done]. exists n0, n. rewrite !Hfr by (by left). by destruct Hh as (_ & ? & ? & _).
    + intros q t w Hq Hw. apply Hfr. destruct u0; [by left|]. right. rewrite busy_app in Hq. cbn [busy app] in Hq. rewrite app_nil_r in Hq. apply elem_of_app in Hq as [Hq|Hq].
      * destruct (busy_within _ _ _ _ _ _ _ _ Hl0 Hq). lia.
      * destruct (busy_within _ _ _ _ _ _ _ _ Hr Hq). lia.
Qed.

Lemma free_run l n r st (x := heapbase st + 8 * units l + 8) :
  heap_rep (l ++ (n, true) :: r) st → x < heaptop st →
  ∃ bs' m', free x st = Done (tt, set_um st m') ∧ heap_rep bs' (set_um st m') ∧
    busy (heapbase st) bs' = busy (heapbase st) l ++ busy (x - 8 + 8 * n) r ∧
    (coalesced l = true → coalesced r = true → coalesced bs' = true) ∧
    free x (set_um st m') = Panic ∧
    ∀ q t w, (q, t) ∈ busy (heapbase st) bs' → q ≤ w < q + t → m' w = um st w.
Proof.
  intros Hrep Hx. destruct (place _ _ _ _ _ Hrep) as (a & p & p' & Hpl). destruct (Hpl) as [Ea Hl Hr Hh]. destruct (Hh) as (Hat & _ & _ & _ & Hn & Hb & H0).
  pose proof (hr_top _ _ Hrep) as Ht. replace x with (a + 8) in * by (unfold x; lia). clear x. unfold free at 1. unfold MBLOCKSIZE.
  rewrite (proj2 (Z.eqb_neq (a + 8) 0)) by lia. ksteps. destruct (hr_base _ _ Hrep) as [Hb0 _]. destruct (Hat) as (A1 & A2 & _).
  rewrite step_assert by (rewrite !andb_true_iff, !negb_true_iff, !Z.eqb_neq, Z.leb_le; lia).
  rewrite step_assert by (rewrite negb_true_iff, orb_false_iff, Z.ltb_ge, Z.leb_gt; lia). replace (a + 8 - 8) with a by lia. rewrite (u32_small a) by lia.
  kcall (run_OK _ _ _ _ _ Hh). rewrite step_assert by done. kcall (run_inuse _ _ _ _ _ Hh). rewrite step_assert by done.
  destruct (wipe_run _ _ _ _ _ _ _ _ Hrep Hpl) as (m1 & R1 & Hrep1 & F1). rewrite R1. clear R1.
  destruct (place _ _ _ _ _ Hrep1) as (a1 & p1 & p1' & Hpl1). assert (a1 = a) as -> by (rewrite Ea; exact (pl_addr _ _ _ _ _ _ _ _ Hpl1)).
  destruct (merge_above_run _ _ _ _ _ _ _ Hrep1 Hpl1) as (m2 & R2 & Hrep2 & F2). change (heaptop (set_um st m1)) with (heaptop st) in R2. rewrite R2. clear R2. rewrite set_um_set in *.
  destruct (place _ _ _ _ _ Hrep2) as (a2 & p2 & p2' & Hpl2). assert (a2 = a) as -> by (rewrite Ea; exact (pl_addr _ _ _ _ _ _ _ _ Hpl2)).
  destruct (merge_below_run _ _ _ _ _ _ _ Hrep2 Hpl2) as (bs' & m3 & R3 & Hrep3 & Hbusy & Hco & Hdf & F3). cbn [heapbase heaptop um set_um] in R3, F1, F2, F3, Hbusy, Hdf.
  rewrite R3. rewrite set_um_set in *. exists bs', m3. rewrite above_busy in Hbusy, F3. split_and!; [done|done|done| |by apply Hdf|].
  - intros Hcl Hcr. destruct (above_row n r Hcr). by apply Hco.
  - intros q t w Hq Hw. rewrite Hbusy in Hq. rewrite (F3 _ _ _ Hq Hw). apply elem_of_app in Hq as [Hq|Hq].
    + destruct (busy_within _ _ _ _ _ _ _ _ Hl Hq). rewrite F2, F1 by lia. done.
    + rewrite <- above_busy in Hq. destruct (busy_within _ _ _ _ _ _ _ _ (pl_above _ _ _ _ _ _ _ _ Hpl2) Hq).
      assert (n ≤ (above n r).1) by (destruct r as [|[n2 []] r]; cbn [above fst]; [lia|lia|]; destruct Hpl as [_ _ Hr' _]; cbn [seg] in Hr'; lia).
      rewrite F2, F1 by lia. done.
Qed.

Lemma busy_split a bs x s : (x, s) ∈ busy a bs → ∃ l n r, bs = l ++ (n, true) :: r ∧ x = a + 8 * units l + 8 ∧ s = 8 * n - 8.
Proof.
  revert a. induction bs as [|[n u] bs IH]; intros a; cbn [busy]; [by intros ?%elem_of_nil|]. intros [H|H]%elem_of_app.
  - destruct u; [|by apply elem_of_nil in H]. apply list_elem_of_singleton in H as [= -> ->]. exists [], n, bs. cbn [units app]. split_and!; [done|lia|done].
  - destruct (IH _ H) as (l & n' & r & -> & -> & ->). exists ((n, u) :: l), n', r. cbn [units app]. split_and!; [done|lia|done].
Qed.
Lemma coalesced_cut l k n r : coalesced (l ++ (n, false) :: r) = true → coalesced (l ++ cut k n true ++ r) = true.
Proof.
  intros H. rewrite (coalesced_app l) in H |- *. cbn [coalesced starts_free orb] in H. rewrite !andb_true_iff in H. destruct H as [[Hl [Hs Hr]] He].
  rewrite Hl. unfold cut. destruct (_ <? _); cbn [app coalesced starts_free orb]; rewrite ?Hs, Hr, andb_false_r; done.
Qed.
Lemma busy_cut a k n r : busy a (cut k n true ++ r) = (a + 8, 8 * (if n - 1 - k <? 2 then n else k + 1) - 8) :: busy (a + 8 * n) r.
Proof. unfold cut. destruct (_ <? _); cbn [app busy]; [done|]. do 2 f_equal. lia. Qed.

(** C14. malloc.  From a row of blocks whose headers agree (or before the first
    call), a request is always answered without a failed check and within the
    fuel.  NULL comes only when no free block has room and the break cannot
    move, and leaves the heap as it was.  Otherwise the block returned is
    aligned, has at least the size asked for, lies apart from every block in
    use, is the one block that is newly in use, and the contents of the others
    are unchanged; the headers still agree, and free blocks are still never
    neighbours. *)
Theorem user_malloc bs st size :
  ready bs st → coalesced bs = true → 0 ≤ size ≤ 2 ^ 31 - 16 →
  ∃ x st', malloc size st = Done (x, st') ∧ (heapbase st ≠ 0 → heapbase st' = heapbase st) ∧
    match x with
    | None => first_fit ((size + 7) / 8) bs = None ∧ (sbrk (8 * ((size + 7) / 8) + 8) (ub st)).1 = None ∧ heap_rep bs st' ∧ um st' = um st
    | Some p => ∃ bs' s, heap_rep bs' st' ∧ coalesced bs' = true ∧ size ≤ s ∧ p mod 8 = 0 ∧
        busy (heapbase st') bs' ≡ₚ (p, s) :: busy (heapbase st') bs ∧
        ∀ q t, (q, t) ∈ busy (heapbase st') bs → (q + t ≤ p - 8 ∨ p + s ≤ q - 8) ∧ ∀ w, q ≤ w < q + t → um st' w = um st w
    end.
Proof.
  intros Hr Hc Hs. set (k := (size + 7) / 8). assert (Hk : size ≤ 8 * k) by (pose proof (Z.mul_succ_div_gt (size + 7) 8 ltac:(lia)); unfold k; lia).
  assert (Hmod : ∀ b u, b mod 8 = 0 → (b + 8 * u + 8) mod 8 = 0).
  { intros b u Hb. replace (b + 8 * u + 8) with (b + (u + 1) * 8) by lia. by rewrite Z.mod_add by lia. }
  destruct (first_fit k bs) as [[[l n] r]|] eqn:Hf.
  - destruct (malloc_hit bs st size l n r Hr Hs Hf) as (st' & Hrun & Hold & Hrep & Hbase & Hfr). cbv zeta in *. fold k in Hrep.
    destruct (first_fit_split _ _ _ _ _ Hf) as [-> Hkn]. destruct (place _ _ _ _ _ Hold) as (a & p & p' & [Ea Hl Ha Hh]). cbn [heapbase heaptop um set_um] in Ea, Hl, Ha. rewrite <- Ea in *.
    eexists _, st'. split; [exact Hrun|]. split; [done|]. exists (l ++ cut k n true ++ r), (8 * (if n - 1 - k <? 2 then n else k + 1) - 8).
    assert (Hsz : 8 * k ≤ 8 * (if n - 1 - k <? 2 then n else k + 1) - 8 ≤ 8 * n - 8) by (destruct (Z.ltb_spec (n - 1 - k) 2); lia).
    split_and!; [done|by apply coalesced_cut|lia|rewrite Ea; apply Hmod, Hrep| |].
    + rewrite !(busy_app _ l), <- Ea, busy_cut. cbn [busy app]. by rewrite Permutation_middle.
    + intros q t Hq. rewrite busy_app, <- Ea in Hq. cbn [busy app] in Hq.
      apply elem_of_app in Hq as [Hq|Hq]; [destruct (busy_within _ _ _ _ _ _ _ _ Hl Hq)|destruct (busy_within _ _ _ _ _ _ _ _ Ha Hq)]; (split; [lia|intros w Hw; apply Hfr; lia]).
  - destruct (malloc_miss bs st size Hr Hs Hf) as (x & st' & Hrun & Hbase & Hx). exists x, st'. split; [done|]. split; [done|]. destruct x as [p|]; [|done].
    cbv zeta in Hx. fold k in Hx. destruct Hx as (-> & Hrep & Hfr). exists (bs ++ [(k + 1, true)]), (8 * k). destruct (hr_seg _ _ Hrep) as [p' Hseg].
    apply seg_app in Hseg as (a & p & Hl & _). destruct (seg_end _ _ _ _ _ _ Hl) as [Ea _].
    split_and!; [done| |done|apply Hmod, Hrep| |].
    + rewrite coalesced_app, Hc. cbn [coalesced starts_free orb andb negb]. by rewrite andb_false_r.
    + rewrite busy_app. cbn [busy app]. rewrite <- Permutation_cons_append. replace (8 * (k + 1) - 8) with (8 * k) by lia. done.
    + intros q t Hq. destruct (busy_within _ _ _ _ _ _ _ _ Hl Hq). split; [lia|]. intros w Hw. apply Hfr. lia.
Qed.

(** A pointer at the top of the heap or above is out of range. *)
Lemma free_at_top bs st x : heap_rep bs st → heaptop st ≤ x → free x st = Panic.
Proof.
  intros Hrep Hx. destruct (hr_base _ _ Hrep) as [Hb0 _]. destruct (hr_seg _ _ Hrep) as [q Hseg]. destruct (seg_end _ _ _ _ _ _ Hseg) as [Et Hu]. unfold free.
  rewrite (proj2 (Z.eqb_neq x 0)) by lia. ksteps. rewrite step_assert by (rewrite !andb_true_iff, !negb_true_iff, !Z.eqb_neq, Z.leb_le; lia).
  by rewrite step_panic by (rewrite negb_false_iff, orb_true_iff, Z.ltb_lt, Z.leb_le; lia).
Qed.

(** C15. free.  Freeing a block in use, below the top of the heap, succeeds: it
    and no other block leaves the blocks in use, the contents of the others are
    unchanged, the headers still agree, and the block has been merged with its
    free neighbours, so that free blocks are again never side by side.  Freeing
    it a second time is detected.  Only a block of no bytes can have its
    address at the top; [free] takes that for a pointer out of range and ends
    the program. *)
Theorem user_free bs st x s :
  heap_rep bs st → coalesced bs = true → (x, s) ∈ busy (heapbase st) bs →
  if x <? heaptop st then
    ∃ bs' st', free x st = Done (tt, st') ∧ heapbase st' = heapbase st ∧ heaptop st' = heaptop st ∧
      heap_rep bs' st' ∧ coalesced bs' = true ∧ busy (heapbase st) bs ≡ₚ (x, s) :: busy (heapbase st) bs' ∧
      (∀ q t w, (q, t) ∈ busy (heapbase st) bs' → q ≤ w < q + t → um st' w = um st w) ∧ free x st' = Panic
  else s = 0 ∧ free x st = Panic.
Proof.
  intros Hrep Hc Hin. destruct (Z.ltb_spec x (heaptop st)) as [Hx|Hx].
  2: { split; [|by apply (free_at_top bs)]. destruct (hr_seg _ _ Hrep) as [q Hseg]. destruct (busy_within _ _ _ _ _ _ _ _ Hseg Hin). lia. }
  destruct (busy_split _ _ _ _ Hin) as (l & n & r & -> & -> & ->).
  destruct (free_run l n r st Hrep Hx) as (bs' & m' & Hrun & Hrep' & Hbusy & Hco & Hdf & Hfr). exists bs', (set_um st m').
  rewrite coalesced_app in Hc. cbn [coalesced starts_free orb andb] in Hc. rewrite andb_false_r, andb_true_r in Hc. apply andb_true_iff in Hc as [Hcl Hcr].
  split_and!; [done|done|done|done|by apply Hco| |done|done].
  rewrite Hbusy, busy_app. cbn [busy app]. rewrite <- Permutation_middle. replace (heapbase st + 8 * units l + 8 - 8 + 8 * n) with (heapbase st + 8 * units l + 8 * n) by lia. done.
Qed.
End Spec.

(** ** A break *)

(** Memory up to 64 kB. *)
#[global] Instance small_break : Break Z.
Proof.
  refine {| sbrk := λ n b, if (n =? 0) || (b + n <=? 65536) then (Some b, b + n) else (None, b); brk := λ b, b |}.
  - intros n b x b' Hn Hb. destruct (_ || _) eqn:E; [|done]. intros [= <- <-]. apply orb_true_iff in E. rewrite Z.eqb_eq, Z.leb_le in E. lia.
  - intros n b b'. destruct (_ || _); [done|]. by intros [= <-].
  - intros b. cbn [Z.eqb orb]. by rewrite Z.add_0_r.
Defined.

(** A program that has not called malloc yet, and one with a block of 24 bytes
    in use between two of 8. *)
Definition unstarted : uheap Z := UHeap (λ _, 0) 4096 0 0.
Definition three_blocks : uheap Z :=
  UHeap (λ w, if w =? 4096 then enc 0 false else if w =? 4100 then enc 2 true else
              if w =? 4112 then enc 2 false else if w =? 4116 then enc 4 true else
              if w =? 4144 then enc 4 false else if w =? 4148 then enc 2 false else 7) 4160 4096 4160.
Lemma unstarted_ready : ready [] unstarted.
Proof. right. split; [done|]. split_and!; [done|done|cbn; lia|cbn; lia|done]. Qed.
Lemma three_blocks_rep : heap_rep [(2, true); (4, true); (2, false)] three_blocks.
Proof. constructor; [done|done|done|]. exists 2. cbn [seg]. split_and!; try done. Qed.

Lemma user_malloc_witness :
  ∃ x st', malloc 20 unstarted = Done (x, st') ∧ (heapbase unstarted ≠ 0 → heapbase st' = heapbase unstarted) ∧
    match x with
    | None => first_fit ((20 + 7) / 8) [] = None ∧ (sbrk (8 * ((20 + 7) / 8) + 8) (ub unstarted)).1 = None ∧ heap_rep [] st' ∧ um st' = um unstarted
    | Some p => ∃ bs' s, heap_rep bs' st' ∧ coalesced bs' = true ∧ 20 ≤ s ∧ p mod 8 = 0 ∧
        busy (heapbase st') bs' ≡ₚ (p, s) :: busy (heapbase st') [] ∧
        ∀ q t, (q, t) ∈ busy (heapbase st') [] → (q + t ≤ p - 8 ∨ p + s ≤ q - 8) ∧ ∀ w, q ≤ w < q + t → um st' w = um unstarted w
    end.
Proof. apply (user_malloc [] unstarted 20); [exact unstarted_ready|reflexivity|lia]. Defined.
(** The first program after [malloc (0)]. *)
Definition one_empty_block : uheap Z := match malloc 0 unstarted with Done (_, st) => st | _ => unstarted end.
Lemma one_empty_block_rep : heap_rep [(1, true)] one_empty_block.
Proof. constructor; [vm_compute; done|vm_compute; done|vm_compute; done|]. exists 1. cbn [seg]. split_and!; vm_compute; done. Qed.

Lemma user_free_witness :
  (∃ bs' st', free 4120 three_blocks = Done (tt, st') ∧ heapbase st' = 4096 ∧ heaptop st' = 4160 ∧
    heap_rep bs' st' ∧ coalesced bs' = true ∧ [(4104, 8); (4120, 24)] ≡ₚ (4120, 24) :: busy 4096 bs' ∧
    (∀ q t w, (q, t) ∈ busy 4096 bs' → q ≤ w < q + t → um st' w = um three_blocks w) ∧ free 4120 st' = Panic) ∧
  (malloc 0 unstarted = Done (Some 4104, one_empty_block) ∧ 0 = 0 ∧ free 4104 one_empty_block = Panic).
Proof.
  split.
  - apply (user_free [(2, true); (4, true); (2, false)] three_blocks 4120 24); [exact three_blocks_rep|reflexivity|].
    cbn [busy app heapbase three_blocks]. right. left.
  - split; [vm_compute; reflexivity|]. apply (user_free [(1, true)] one_empty_block 4104 0); [exact one_empty_block_rep|reflexivity|]. left.
Defined.
